(* ===== verification/_CoqProject ===== *)
-Q . S2P
Prelude.v
Types.v
Spinlock.v
Ring.v
Riscv.v
Str.v
Kalloc.v
Vm.v
PtRep.v
PtOps.v
Uvm.v
Grow.v
Uvmfree.v
Copy.v
Sched.v
Sleepwake.v
Uart.v
Printf.v
Console.v
Pipe.v
Sleeplock.v
Bio.v
BioSess.v
Log.v
LogSpec.v
Crash.v
LogOps.v
Fs.v
File.v
Proc.v
ProcMem.v
Args.v
Exec.v
Sysfile.v
Syscall.v
Initcode.v
Frame.v
Trap.v
Locks.v
Virtio.v
Csr.v
Main.v
Asm.v
Mkfs.v
PrintThms.v
Ulib.v
Usys.v
Progs.v
ProgThms.v
Sh.v
ShThms.v
ShRun.v
ShRunThms.v
Umalloc.v
Grep.v
Grind.v
Usertests.v
UsertestsThms.v
VirtioThms.v
FsBlk.v
FsFile.v
FsWrite.v
Dirs.v
Concrete.v
PipeThms.v
MemThms.v
LogThms.v
FsThms.v
FdThms.v
ForkThms.v
WaitThms.v
SchedThms.v
CsrThms.v
ConsoleThms.v
PathThms.v
Inodes.v
NameThms.v
MkfsSpec.v
MkfsThms.v
