(* ===== verification/Prelude.v ===== *)
(** * A verification of the xv6-riscv operating system

    The development models the C and assembly sources under [src/] as executable
    definitions and proves theorems about them.

    ** The program and its parts

    xv6 is a small Unix.  Harts enter at [entry.S], [start.c] leaves machine mode and
    [main.c] initialises the kernel.  User programs enter the kernel through
    [trampoline.S] and [trap.c]; [syscall.c] dispatches to [sysproc.c] and
    [sysfile.c].  Below these are processes ([proc.c], [swtch.S], [exec.c]), memory
    ([kalloc.c], [vm.c]), open files and pipes ([file.c], [pipe.c]), the file system
    ([fs.c]) on the log ([log.c]) on the buffer cache ([bio.c]) on the disk driver
    ([virtio_disk.c]), the console ([console.c], [uart.c], [printf.c]), the interrupt
    controller ([plic.c]) and locks ([spinlock.c], [sleeplock.c]).  [mkfs.c] builds
    the first disk image on the host.  [user/] has the shell, the C library of the programs
    with its allocator, and the utilities.

    ** How it is modelled

    [Types] has the structs of the headers as records, the kernel's globals as one
    record [kst], and the monad [M] of kernel code: a function from [kst] to an
    outcome, which is [Ok] with a result and a state, [Panic] with the message, [Sleep] when the
    thread gave up the CPU in [sleep] or [yield], or [Diverge] for a loop that does
    not end (a null dereference is a panic, as the kernel's trap handler makes it).
    [wp] and [wps] are its weakest preconditions, total in that neither [Panic] nor [Diverge]
    satisfies them; [wps] has a second postcondition for [Sleep].  Physical memory is a map from
    addresses to bytes: free pages, page tables, trapframes and user pages live in it
    as they do on the machine.  Pointers to array elements are indices.  Integers are
    [Z] with the wrap-around of their C type written out.  The addresses the linker
    chooses are the class [Linker], what the kernel relies on about them is
    [LinkerOk].

    Each C file has a file of definitions with the names of the source:
    - [Str] string.c, [Kalloc] kalloc.c, [Vm] vm.c, [Sched] and [Proc] proc.c,
      [Sleeplock] sleeplock.c, [Bio] bio.c, [Log] log.c, [Fs] fs.c, [File] file.c,
      [Pipe] pipe.c, [Exec] exec.c, [Args] and [Syscall] syscall.c and
      sysproc.c, [Sysfile] sysfile.c, [Trap] trap.c and plic.c, [Uart] uart.c,
      [Console] console.c, [Printf] printf.c, [Main] main.c, [Mkfs]
      mkfs.c;
    - [Spinlock] models spinlock.c on several CPUs, cut at its atomic actions and
      interleaved by a step relation;
    - [Virtio] models virtio_disk.c over the state it shares with the device, a request as
      the list of its stores and the interrupt handler as its rounds; the kernel above uses
      the disk that these are shown to implement, with the lock and the wait of
      [virtio_disk_rw] ([Bio.virtio_disk_rw]);
    - [Asm] has the four assembly files as lists of instructions with an interpreter;
    - [Sleepwake] cuts [sleep] and [wakeup] of proc.c at their atomic actions, for
      several CPUs;
    - [Csr] has the register accessors of riscv.h and start.c over a hart as the
      privileged architecture describes it; the kernel's own record of registers is the
      view [CsrThms.supervisor] of such a hart.

    User programs are trees of system calls ([Usys.prog]): a program returns, calls the
    kernel and goes on with the answer, exits, or spins.  What the kernel answers is left
    open; the theorems say what they need of it.
    - [Ulib] and [Usys] user/ulib.c, user.h and user/printf.c, [Umalloc]
      user/umalloc.c;
    - [Sh] the parser of user/sh.c over the line's bytes with its NUL-terminated words,
      [ShRun] the rest of it;
    - [Progs] cat, echo, wc, ls, kill, ln, mkdir, rm, zombie, init, forktest and
      stressfs; [Grep] user/grep.c, [Grind] user/grind.c, [Initcode] user/initcode.S
      as a list of statements with an assembler, [Usertests] user/usertests.c.

    [Riscv], [Ring], [PtRep], [PtOps], [Uvm], [Grow], [Uvmfree], [Copy], [ProcMem],
    [BioSess], [LogSpec], [Crash], [LogOps], [FsBlk], [FsFile], [FsWrite], [Dirs],
    [Inodes] and [MkfsSpec] are the invariants, abstract specifications and lemmas of the
    components; [Concrete] has the machines on which the theorems are witnessed.

    ** What the theorems show
    - Memory ([MemThms]): the allocator keeps its free list; page tables represent
      exactly the translations they should; growing, shrinking, copying and freeing an
      address space neither leaks nor frees twice, also when memory runs out; copies between
      kernel and user memory move exactly the bytes they should.
    - Log and cache ([LogThms]): a crash between any two disk writes of a commit or of
      recovery loses nothing and tears nothing, and recovery can be run again after it was
      cut short; the last [end_op] commits; the operations used by system calls
      keep the cache's invariant; and the configured log is one block short of what
      [begin_op] promises.
    - Files ([FsThms], [PathThms], [NameThms]): allocation of blocks, writing from
      kernel and user memory and reading back; directories are finite maps from names to inode numbers, kept in the blocks of
      a file ([Dirs]); a path leads to the inode that the directories on disk lead to, and
      the inode cache ends up with one reference more or none ([Inodes]).
    - The image ([MkfsThms]): what [mkfs] builds is a file system in the kernel's sense, and
      the kernel reads from it the bytes the host's files had.  [MkfsSpec] has the
      invariant of the image under construction.
    - Locks and devices ([Spinlock], [VirtioThms], [ConsoleThms]): mutual exclusion
      and refinement of the abstract locks the other components use; the disk driver
      with any conforming device, which runs between any two of the driver's stores and may
      fail requests, is an atomic disk; the console is a line editor.
    - Descriptors ([FdThms]): after every system call each file's reference count is
      the number of descriptors that name it, and where a call gives up the CPU it is off
      by what the call has in its hands at most.  [Frame] shows of the whole kernel which functions leave both alone.
    - Lock discipline ([Locks]): whatever a system call does until it returns or first gives
      up the CPU, it takes no spinlock twice, releases none it does not hold, and returns or
      waits with the locks it should.
    - Processes ([ForkThms], [WaitThms], [PipeThms], [Asm]): [fork] makes a twin or nothing,
      [wait] reaps the children that exited, and a process that is forked, exits and is waited
      for leaves every page, reference count and slot as it was ([ProcMem] has the ownership of
      the pages of a process); pipes are bounded queues; register state survives traps
      and context switches.
    - Scheduling ([Sleepwake], [SchedThms], [CsrThms]): no wakeup is lost; a pass of the
      scheduler runs every process that is runnable at its turn, whatever other harts do; a due timer takes the CPU from any user
      program, and [usertrapret] gives it back; [start] hands the hart to [main] in
      supervisor mode.
    - Printing and user programs: which numbers the kernel's and the user's [printint]
      print and which overrun the kernel's buffer ([PrintThms], [ProgThms]); [cat] and [wc] whatever the
      sizes of the reads ([ProgThms]); the matcher and the line loop of grep ([Grep]);
      the shell's parser decides its grammar ([ShThms]), and the processes it starts
      have the descriptors the line asks for, whatever calls fail, while the shells that wait
      for them hold no end of a pipe ([ShRunThms]); the heap keeps blocks apart for any client
      that leaves [sbrk] to it and asks for less than 2^31 - 31 bytes at a time, and what happens to the largest requests
      ([Umalloc]); the random numbers of grind ([Grind]); the bytes of the first
      program are almost those of its source ([Initcode]); what the regression tests
      report, and that one of them passes on corrupted data ([UsertestsThms]).

    ** Bounds and fuel

    Loops that are not structural take fuel, and the definition that starts them
    passes enough: the number of rounds the loop can make (bytes left, pages of the
    range, entries of the table).  Running out is the outcome [Diverge], which the
    theorems exclude, but for those of [FdThms] and [Locks], which are about what every
    system call leaves behind.  Two loops wait for another party and have no bound in the code: the polling of a device register
    ([u_polls] rounds, with the hypothesis that the device becomes ready) and [acquire]
    ([Spinlock] proves progress instead).  The scheduler's endless loop is a number of
    rounds.

    ** What is assumed

    A thread is interleaved with others only where it sleeps or yields, and a run of [M] ends
    there, so that theorems about a call that waits speak of it up to that point; a wait for
    the disk goes through the locks and checks of [sleep] and [sched] and then returns; the spinlock
    theorems justify this for code that holds the lock of what it uses.  Memory is
    sequentially consistent.  Devices are parameters: reads of the UART's and PLIC's
    registers are an oracle, the disk follows the VIRTIO specification as stated in
    [VirtioThms].  The virtual addresses of the kernel are the physical ones (the
    kernel page table is a direct map).

    ** Not modelled
    Of [usertests.c] the program that runs the tests and 29 of its tests are modelled; the
    rest are variations of these with fewer calls, and tests that use the heap,
    uninitialised memory, the stack pointer or wild strings.  Translation look-aside
    buffers, and so [sfence_vma], and memory fences have no effect in a sequentially
    consistent model.  [kernel.ld], [user.ld] and [usys.pl] are build inputs; [defs.h] only
    declares. *)
From Stdlib Require Export ZArith Lia.
From stdpp Require Export base tactics numbers list gmap strings.

#[global] Open Scope Z_scope.

Create HintDb xv6.
Create Rewrite HintDb xv6.

(** ** Machine integers

    A [w]-bit register is a [Z]; the wrap-around is written where the C code
    computes at that width. *)

Definition u8 (x : Z) : Z := x mod 2 ^ 8.
Definition u16 (x : Z) : Z := x mod 2 ^ 16.
Definition u32 (x : Z) : Z := x mod 2 ^ 32.
Definition u64 (x : Z) : Z := x mod 2 ^ 64.
Definition i16 (x : Z) : Z := (x + 2 ^ 15) mod 2 ^ 16 - 2 ^ 15.
Definition i32 (x : Z) : Z := (x + 2 ^ 31) mod 2 ^ 32 - 2 ^ 31.

Lemma u32_small x : 0 <= x < 2 ^ 32 -> u32 x = x.
Proof. apply Z.mod_small. Qed.

Lemma u64_small x : 0 <= x < 2 ^ 64 -> u64 x = x.
Proof. apply Z.mod_small. Qed.

Lemma u32_range x : 0 <= u32 x < 2 ^ 32.
Proof. by apply Z.mod_pos_bound. Qed.

Lemma u64_range x : 0 <= u64 x < 2 ^ 64.
Proof. by apply Z.mod_pos_bound. Qed.

Lemma i32_small x : - 2 ^ 31 <= x < 2 ^ 31 -> i32 x = x.
Proof. intros H. unfold i32. rewrite Z.mod_small; lia. Qed.

Lemma i32_mod x : i32 (x mod 2 ^ 32) = i32 x.
Proof. unfold i32. f_equal. by rewrite Zplus_mod_idemp_l. Qed.

#[export] Hint Rewrite u32_small u64_small i32_small using lia : xv6.

(** Clearing the low [k] bits of a word, the way the [PGROUND*] macros do. *)
Lemma land_opp_pow2 x k : 0 <= k -> Z.land x (- 2 ^ k) = x / 2 ^ k * 2 ^ k.
Proof.
  intros Hk. rewrite <- Z.shiftr_div_pow2, <- Z.shiftl_mul_pow2 by lia.
  replace (- 2 ^ k) with (Z.shiftl (-1) k) by (rewrite Z.shiftl_mul_pow2; lia).
  apply Z.bits_inj'. intros i Hi. rewrite Z.land_spec.
  destruct (Z.ltb_spec i k).
  - rewrite !Z.shiftl_spec_low by lia. apply andb_false_r.
  - rewrite !Z.shiftl_spec_high, Z.shiftr_spec by lia.
    rewrite Z.bits_m1 by lia. rewrite andb_true_r. f_equal. lia.
Qed.

Lemma lor_disjoint_add a b k :
  0 <= k -> a mod 2 ^ k = 0 -> 0 <= b < 2 ^ k -> Z.lor a b = a + b.
Proof.
  intros Hk Ha Hb. rewrite <- Z.lxor_lor.
  - symmetry. apply Z.add_nocarry_lxor.
    apply Z.bits_inj'. intros i Hi. rewrite Z.land_spec, Z.bits_0.
    destruct (Z.ltb_spec i k).
    + rewrite <- (Z.mod_pow2_bits_low a k i) by lia. by rewrite Ha, Z.bits_0.
    + rewrite <- (Z.mod_small b (2 ^ k)) by lia.
      rewrite (Z.mod_pow2_bits_high b k i) by lia. apply andb_false_r.
  - apply Z.bits_inj'. intros i Hi. rewrite Z.land_spec, Z.bits_0.
    destruct (Z.ltb_spec i k).
    + rewrite <- (Z.mod_pow2_bits_low a k i) by lia. by rewrite Ha, Z.bits_0.
    + rewrite <- (Z.mod_small b (2 ^ k)) by lia.
      rewrite (Z.mod_pow2_bits_high b k i) by lia. apply andb_false_r.
Qed.

(** ** Little-endian words *)

Fixpoint le_bytes (n : nat) (x : Z) : list Z :=
  match n with
  | O => []
  | S n' => x mod 256 :: le_bytes n' (x / 256)
  end.

Fixpoint le_val (l : list Z) : Z :=
  match l with
  | [] => 0
  | b :: l' => b + 256 * le_val l'
  end.

Lemma length_le_bytes n x : length (le_bytes n x) = n.
Proof. revert x. induction n; intros; cbn; auto. Qed.

Lemma le_val_le_bytes n x : le_val (le_bytes n x) = x mod 2 ^ (8 * Z.of_nat n).
Proof.
  revert x. induction n as [|n IH]; intros x; cbn [le_bytes le_val].
  - by rewrite Z.mod_1_r.
  - rewrite IH. replace (8 * Z.of_nat (S n)) with (8 + 8 * Z.of_nat n) by lia.
    rewrite Z.pow_add_r by lia. change (2 ^ 8) with 256.
    rewrite Z.rem_mul_r by lia. lia.
Qed.

Lemma le_bytes_le_val l :
  Forall (fun b => 0 <= b < 256) l -> le_bytes (length l) (le_val l) = l.
Proof.
  induction 1 as [|b l Hb _ IH]; [done|]. cbn [le_val length le_bytes].
  rewrite (Z.mul_comm 256), Z_mod_plus_full, Z.mod_small by lia.
  rewrite Z.div_add, Z.div_small, Z.add_0_l by lia. by rewrite IH.
Qed.

Lemma le_bytes_range n x : Forall (fun b => 0 <= b < 256) (le_bytes n x).
Proof.
  revert x. induction n; intros x; cbn; constructor; auto.
  by apply Z.mod_pos_bound.
Qed.

#[export] Hint Rewrite length_le_bytes : xv6.

(** ** Byte memory: addresses to bytes, unwritten bytes read as 0 *)

Definition mget (m : gmap Z Z) (a : Z) : Z := default 0 (m !! a).

Fixpoint mread (m : gmap Z Z) (a : Z) (n : nat) : list Z :=
  match n with
  | O => []
  | S n' => mget m a :: mread m (a + 1) n'
  end.

Fixpoint mwrite (m : gmap Z Z) (a : Z) (bs : list Z) : gmap Z Z :=
  match bs with
  | [] => m
  | b :: bs' => mwrite (<[a:=b]> m) (a + 1) bs'
  end.

Definition load64 (m : gmap Z Z) (a : Z) : Z := le_val (mread m a 8).
Definition store64 (m : gmap Z Z) (a v : Z) : gmap Z Z := mwrite m a (le_bytes 8 v).

Lemma mget_insert m a b x :
  mget (<[a:=b]> m) x = if decide (a = x) then b else mget m x.
Proof. unfold mget. rewrite lookup_insert. by case_decide. Qed.

Lemma mget_mwrite m a bs x :
  mget (mwrite m a bs) x =
    if decide (a <= x < a + Z.of_nat (length bs))
    then nth (Z.to_nat (x - a)) bs 0 else mget m x.
Proof.
  revert m a. induction bs as [|b bs IH]; intros m a; cbn [mwrite length].
  - case_decide; [lia|done].
  - rewrite IH. rewrite mget_insert. repeat case_decide; subst; try lia; try done.
    + replace (Z.to_nat (x - a)) with (S (Z.to_nat (x - (a + 1)))) by lia. done.
    + by replace (Z.to_nat (x - x)) with O by lia.
Qed.

Lemma mget_mwrite_out m a bs x :
  ~ (a <= x < a + Z.of_nat (length bs)) -> mget (mwrite m a bs) x = mget m x.
Proof. intros. rewrite mget_mwrite. by case_decide. Qed.

Lemma length_mread m a n : length (mread m a n) = n.
Proof. revert a. induction n; intros; cbn; auto. Qed.

Lemma mread_ext m m' a n :
  (forall x, a <= x < a + Z.of_nat n -> mget m x = mget m' x) ->
  mread m a n = mread m' a n.
Proof.
  revert a. induction n as [|n IH]; intros a H; cbn; [done|].
  rewrite (H a) by lia. f_equal. apply IH. intros. apply H. lia.
Qed.

Lemma mread_nth m a n i :
  (i < n)%nat -> nth i (mread m a n) 0 = mget m (a + Z.of_nat i).
Proof.
  revert a i. induction n as [|n IH]; intros a i Hi; [lia|].
  destruct i as [|i]; cbn [mread nth].
  - f_equal; lia.
  - rewrite IH by lia. f_equal. lia.
Qed.

Lemma mread_app m a n1 n2 :
  mread m a (n1 + n2) = mread m a n1 ++ mread m (a + Z.of_nat n1) n2.
Proof.
  revert a. induction n1 as [|n IH]; intros a; cbn [Nat.add mread app].
  - f_equal; lia.
  - rewrite IH. do 3 f_equal. lia.
Qed.

Lemma mread_mwrite_same m a bs : mread (mwrite m a bs) a (length bs) = bs.
Proof.
  apply nth_ext with 0 0; rewrite length_mread; [done|].
  intros i Hi. rewrite mread_nth, mget_mwrite by done.
  case_decide; [|lia]. f_equal. lia.
Qed.

Lemma mread_mwrite_out m a bs b n :
  b + Z.of_nat n <= a \/ a + Z.of_nat (length bs) <= b ->
  mread (mwrite m a bs) b n = mread m b n.
Proof. intros H. apply mread_ext. intros x Hx. apply mget_mwrite_out. lia. Qed.

Lemma load64_ext m m' a :
  (forall x, a <= x < a + 8 -> mget m x = mget m' x) -> load64 m a = load64 m' a.
Proof. intros H. unfold load64. f_equal. by apply mread_ext. Qed.

Lemma load64_store64 m a v : load64 (store64 m a v) a = u64 v.
Proof.
  unfold load64, store64. rewrite <- (length_le_bytes 8 v) at 2.
  by rewrite mread_mwrite_same, le_val_le_bytes.
Qed.

Lemma mget_store64_out m a v x :
  ~ (a <= x < a + 8) -> mget (store64 m a v) x = mget m x.
Proof. intros. apply mget_mwrite_out. by rewrite length_le_bytes. Qed.

Lemma load64_store64_ne m a v b :
  b + 8 <= a \/ a + 8 <= b -> load64 (store64 m a v) b = load64 m b.
Proof. intros H. apply load64_ext. intros x Hx. apply mget_store64_out. lia. Qed.

Lemma load64_zero m a : (forall x, a <= x < a + 8 -> mget m x = 0) -> load64 m a = 0.
Proof.
  intros H. unfold load64. cbn [mread le_val].
  by rewrite !H by lia.
Qed.

(** ** Lists as arrays *)

Lemma list_lookup_total_nth {A} `{!Inhabited A} (l : list A) i :
  l !!! i = nth i l inhabitant.
Proof. revert i. induction l; intros [|]; cbn; auto. Qed.

Lemma nth_insert {A} (l : list A) i j x d :
  (i < length l)%nat ->
  nth j (<[i:=x]> l) d = if decide (i = j) then x else nth j l d.
Proof.
  revert i j. induction l as [|y l IH]; intros i j Hi; cbn in *; [lia|].
  destruct i, j; cbn; try done; rewrite ?IH by lia; repeat case_decide; congruence || lia.
Qed.

Lemma filter_ne_id {A} `{!EqDecision A} (x : A) (l : list A) :
  x ∉ l -> filter (fun y => y <> x) l = l.
Proof.
  induction l as [|y l IH]; intros H; [done|].
  rewrite filter_cons_True by set_solver. f_equal. apply IH. set_solver.
Qed.

#[global] Arguments load64 : simpl never.
#[global] Arguments store64 : simpl never.
#[global] Arguments mget : simpl never.
#[global] Arguments u8 : simpl never.
#[global] Arguments u16 : simpl never.
#[global] Arguments u32 : simpl never.
#[global] Arguments u64 : simpl never.
#[global] Arguments i16 : simpl never.
#[global] Arguments i32 : simpl never.

Lemma list_alter_alter {A} (f g : A -> A) i (l : list A) :
  alter f i (alter g i l) = alter (fun x => f (g x)) i l.
Proof. revert i. induction l; intros [|i]; cbn; f_equal; auto. Qed.

Lemma list_lookup_total_alter_eq {A} `{!Inhabited A} (f : A -> A) i (l : list A) :
  (i < length l)%nat -> alter f i l !!! i = f (l !!! i).
Proof.
  intros Hi. apply list_lookup_total_correct. rewrite list_lookup_alter_eq.
  by rewrite (list_lookup_lookup_total_lt l i Hi).
Qed.

Lemma list_alter_same {A} `{!Inhabited A} (f : A -> A) i (l : list A) :
  f (l !!! i) = l !!! i -> alter f i l = l.
Proof.
  intros H. apply list_eq. intros j. destruct (decide (i = j)) as [<-|]; [|by apply list_lookup_alter_ne].
  rewrite list_lookup_alter_eq. destruct (l !! i) eqn:E; [|done]. cbn.
  rewrite (list_lookup_total_correct _ _ _ E) in H. by rewrite H.
Qed.

Lemma nth_replicate {A} (x : A) n i : nth i (replicate n x) x = x.
Proof. revert i. induction n as [|n IH]; intros [|i]; cbn; auto. Qed.

Lemma list_alter_ge {A} (f : A -> A) i (l : list A) : (length l <= i)%nat -> alter f i l = l.
Proof.
  revert i. induction l as [|x l IH]; intros [|i] H; cbn in *; [done..|lia|].
  change (x :: alter f i l = x :: l). by rewrite IH by lia.
Qed.

(** ** 32- and 16-bit fields of a byte array *)

Definition get32 (l : list Z) (off : nat) : Z := i32 (le_val (take 4 (drop off l))).
Definition getu32 (l : list Z) (off : nat) : Z := le_val (take 4 (drop off l)).
Definition put32 (l : list Z) (off : nat) (v : Z) : list Z :=
  take off l ++ le_bytes 4 v ++ drop (off + 4) l.
Definition get16 (l : list Z) (off : nat) : Z := i16 (le_val (take 2 (drop off l))).
Definition getu16 (l : list Z) (off : nat) : Z := le_val (take 2 (drop off l)).
Definition put16 (l : list Z) (off : nat) (v : Z) : list Z :=
  take off l ++ le_bytes 2 v ++ drop (off + 2) l.

Lemma length_put32 l off v : (off + 4 <= length l)%nat -> length (put32 l off v) = length l.
Proof.
  intros. unfold put32. rewrite !length_app, length_take, length_le_bytes, length_drop. lia.
Qed.

Lemma length_put16 l off v : (off + 2 <= length l)%nat -> length (put16 l off v) = length l.
Proof.
  intros. unfold put16. rewrite !length_app, length_take, length_le_bytes, length_drop. lia.
Qed.

(** The bytes of a splice, from the outside and from the inside. *)
Lemma splice_same {A} (l w : list A) off :
  (off + length w <= length l)%nat ->
  take (length w) (drop off (take off l ++ w ++ drop (off + length w) l)) = w.
Proof.
  intros. rewrite drop_app_length' by (rewrite length_take; lia).
  by rewrite take_app_length.
Qed.

Lemma splice_other {A} (l w : list A) off off' n :
  (off + length w <= length l)%nat ->
  (off' + n <= off \/ off + length w <= off')%nat ->
  take n (drop off' (take off l ++ w ++ drop (off + length w) l)) = take n (drop off' l).
Proof.
  intros Hl Ho. apply list_eq. intros i. destruct (decide (i < n)%nat).
  2:{ rewrite !lookup_take_ge by lia. done. }
  rewrite !lookup_take_lt, !lookup_drop by lia.
  destruct Ho.
  - rewrite lookup_app_l by (rewrite length_take; lia). by rewrite lookup_take_lt by lia.
  - rewrite lookup_app_r by (rewrite length_take; lia). rewrite length_take.
    rewrite lookup_app_r by lia. rewrite lookup_drop. f_equal. lia.
Qed.

Lemma put32_same l off v : (off + 4 <= length l)%nat ->
  take 4 (drop off (put32 l off v)) = le_bytes 4 v.
Proof.
  intros. pose proof (splice_same l (le_bytes 4 v) off) as H'. rewrite length_le_bytes in H'. by apply H'.
Qed.
Lemma put16_same l off v : (off + 2 <= length l)%nat ->
  take 2 (drop off (put16 l off v)) = le_bytes 2 v.
Proof.
  intros. pose proof (splice_same l (le_bytes 2 v) off) as H'. rewrite length_le_bytes in H'. by apply H'.
Qed.
Lemma put32_other l off v off' n :
  (off + 4 <= length l)%nat -> (off' + n <= off \/ off + 4 <= off')%nat ->
  take n (drop off' (put32 l off v)) = take n (drop off' l).
Proof.
  intros Hl Ho. pose proof (splice_other l (le_bytes 4 v) off off' n) as H'.
  rewrite length_le_bytes in H'. by apply H'.
Qed.
Lemma put16_other l off v off' n :
  (off + 2 <= length l)%nat -> (off' + n <= off \/ off + 2 <= off')%nat ->
  take n (drop off' (put16 l off v)) = take n (drop off' l).
Proof.
  intros Hl Ho. pose proof (splice_other l (le_bytes 2 v) off off' n) as H'.
  rewrite length_le_bytes in H'. by apply H'.
Qed.

Lemma getu32_put32 l off v : (off + 4 <= length l)%nat -> getu32 (put32 l off v) off = u32 v.
Proof.
  intros. unfold getu32. rewrite put32_same by done. rewrite le_val_le_bytes. done.
Qed.
Lemma getu32_put32_ne l off v off' :
  (off + 4 <= length l)%nat -> (off' + 4 <= off \/ off + 4 <= off')%nat ->
  getu32 (put32 l off v) off' = getu32 l off'.
Proof. intros. unfold getu32. by rewrite put32_other. Qed.
Lemma get32_put32 l off v : (off + 4 <= length l)%nat -> get32 (put32 l off v) off = i32 v.
Proof.
  intros. unfold get32. rewrite put32_same by done. rewrite le_val_le_bytes.
  change (2 ^ (8 * Z.of_nat 4)) with (2 ^ 32). apply i32_mod.
Qed.
Lemma get32_put32_ne l off v off' :
  (off + 4 <= length l)%nat -> (off' + 4 <= off \/ off + 4 <= off')%nat ->
  get32 (put32 l off v) off' = get32 l off'.
Proof. intros. unfold get32. by rewrite put32_other. Qed.
