(* ===== verification/Types.v ===== *)
(** The kernel's headers: constants and macros of [param.h], [memlayout.h],
    [riscv.h], [fs.h] and [fcntl.h], the structs of [proc.h], [buf.h],
    [file.h], [fs.h], [log.c] and [pipe.c], the global state [kst] the
    kernel's code runs on, and the monad its functions are written in. *)
From S2P Require Import Prelude.

(** ** Constants *)

Abbreviation NPROC := 64%nat.
Abbreviation NOFILE := 16%nat.
Abbreviation NFILE := 100%nat.
Abbreviation NINODE := 50%nat.
Abbreviation NDEV := 10.
Abbreviation ROOTDEV := 1.
Abbreviation MAXARG := 32.
Abbreviation MAXOPBLOCKS := 10.
Abbreviation LOGSIZE := 30.
Abbreviation NBUF := 30%nat.
Abbreviation FSSIZE := 2000.
Abbreviation MAXPATH := 128.
Abbreviation USERSTACK := 1.
Abbreviation PGSIZE := 4096.
Abbreviation MAXVA := (2 ^ 38).
Abbreviation KERNBASE := 0x80000000.
Abbreviation PHYSTOP := 0x88000000.
Abbreviation UART0 := 0x10000000.
Abbreviation VIRTIO0 := 0x10001000.
Abbreviation PLIC := 0x0c000000.
Abbreviation TRAMPOLINE := (MAXVA - PGSIZE).
Abbreviation TRAPFRAME := (MAXVA - PGSIZE - PGSIZE).
Abbreviation BSIZE := 1024.
Abbreviation NDIRECT := 12.
Abbreviation NINDIRECT := 256.
Abbreviation MAXFILE := (NDIRECT + NINDIRECT).
Abbreviation IPB := 16.
Abbreviation BPB := 8192.
Abbreviation DIRSIZ := 14.
Abbreviation ROOTINO := 1.
Abbreviation FSMAGIC := 0x10203040.
Abbreviation T_DIR := 1.
Abbreviation T_FILE := 2.
Abbreviation T_DEVICE := 3.

(** ** Page-table macros of [riscv.h] *)

Abbreviation PTE_V := 1.
Abbreviation PTE_R := 2.
Abbreviation PTE_W := 4.
Abbreviation PTE_X := 8.
Abbreviation PTE_U := 16.

Definition PGROUNDUP (sz : Z) : Z := Z.land (u64 (sz + PGSIZE - 1)) (- PGSIZE).
Definition PGROUNDDOWN (a : Z) : Z := Z.land a (- PGSIZE).
Definition PA2PTE (pa : Z) : Z := u64 (Z.shiftl (Z.shiftr pa 12) 10).
Definition PTE2PA (pte : Z) : Z := u64 (Z.shiftl (Z.shiftr pte 10) 12).
Definition PTE_FLAGS (pte : Z) : Z := Z.land pte 0x3FF.
Definition PXSHIFT (level : Z) : Z := 12 + 9 * level.
Definition PX (level va : Z) : Z := Z.land (Z.shiftr va (PXSHIFT level)) 0x1FF.
Definition MAKE_SATP (pagetable : Z) : Z :=
  Z.lor (Z.shiftl 8 60) (Z.shiftr pagetable 12).
Definition KSTACK (p : Z) : Z := TRAMPOLINE - (p + 1) * 2 * PGSIZE.

(** [x & m] used as a condition. *)
Definition has (x m : Z) : bool := negb (Z.land x m =? 0).

#[global] Arguments PGROUNDUP : simpl never.
#[global] Arguments PGROUNDDOWN : simpl never.
#[global] Arguments PA2PTE : simpl never.
#[global] Arguments PTE2PA : simpl never.
#[global] Arguments PTE_FLAGS : simpl never.
#[global] Arguments PX : simpl never.
#[global] Arguments has : simpl never.

(** Block-layout macros of [fs.h]; the arithmetic is on [uint]. *)
Definition IBLOCK (i inodestart : Z) : Z := u32 (i / IPB + inodestart).
Definition BBLOCK (b bmapstart : Z) : Z := u32 (b / BPB + bmapstart).

(** ** Identities of kernel objects

    Spinlocks and sleep channels are addresses of kernel objects in C; distinct
    objects have distinct addresses, so they are constructors here. *)

Inductive lockid :=
  | LkKmem | LkPid | LkWait | LkTicks
  | LkProc (i : nat)
  | LkBcache | LkLog | LkItable | LkFtable
  | LkBuf (i : nat) | LkInode (i : nat)
  | LkPipe (pi : Z)
  | LkCons | LkUart | LkVdisk | LkPr.
#[global] Instance lockid_eq_dec : EqDecision lockid.
Proof. solve_decision. Defined.

Inductive chan :=
  | ChNull
  | ChProc (i : nat)
  | ChLog | ChTicks
  | ChBufLock (i : nat) | ChInodeLock (i : nat)
  | ChPipeRead (pi : Z) | ChPipeWrite (pi : Z)
  | ChBuf (i : nat) | ChDiskFree
  | ChCons | ChUartTx.
#[global] Instance chan_eq_dec : EqDecision chan.
Proof. solve_decision. Defined.

(** ** Structs *)

Inductive procstate := UNUSED | USED | SLEEPING | RUNNABLE | RUNNING | ZOMBIE.
#[global] Instance procstate_eq_dec : EqDecision procstate.
Proof. solve_decision. Defined.

Inductive filetype := FD_NONE | FD_PIPE | FD_INODE | FD_DEVICE.
#[global] Instance filetype_eq_dec : EqDecision filetype.
Proof. solve_decision. Defined.

(** [c_s] holds [s0] to [s11]. *)
Record context := Ctx {
  c_ra : Z;
  c_sp : Z;
  c_s : list Z
}.

Record sleeplock := SleepLock {
  sl_locked : bool;
  sl_pid : Z
}.

(** [p_chan], [p_parent], [p_ofile] and [p_cwd] are pointers in C: an index
    into the table the pointer points into, [None] or [ChNull] for 0. *)
Record proc := Proc {
  p_state : procstate;
  p_chan : chan;
  p_killed : bool;
  p_xstate : Z;
  p_pid : Z;
  p_parent : option nat;
  p_kstack : Z;
  p_sz : Z;
  p_pagetable : Z;
  p_trapframe : Z;
  p_context : context;
  p_ofile : list (option nat);
  p_cwd : option nat;
  p_name : list Z
}.

(** [b_prev] and [b_next] index the buffer array; index [NBUF] is
    [bcache.head]. *)
Record buf := Buf {
  b_valid : bool;
  b_disk : bool;
  b_dev : Z;
  b_blockno : Z;
  b_lock : sleeplock;
  b_refcnt : Z;
  b_prev : nat;
  b_next : nat;
  b_data : list Z
}.

Record superblock := SuperBlock {
  sb_magic : Z;
  sb_size : Z;
  sb_nblocks : Z;
  sb_ninodes : Z;
  sb_nlog : Z;
  sb_logstart : Z;
  sb_inodestart : Z;
  sb_bmapstart : Z
}.

(** [struct log] with its [struct logheader]: [l_n] and [l_block] are
    [lh.n] and [lh.block]. *)
Record logstate := Log {
  l_start : Z;
  l_size : Z;
  l_outstanding : Z;
  l_committing : bool;
  l_dev : Z;
  l_n : Z;
  l_block : list Z
}.

Record inode := Inode {
  i_dev : Z;
  i_inum : Z;
  i_ref : Z;
  i_lock : sleeplock;
  i_valid : bool;
  i_type : Z;
  i_major : Z;
  i_minor : Z;
  i_nlink : Z;
  i_size : Z;
  i_addrs : list Z
}.

Record file := File {
  f_type : filetype;
  f_ref : Z;
  f_readable : bool;
  f_writable : bool;
  f_pipe : Z;
  f_ip : nat;
  f_off : Z;
  f_major : Z
}.

Record pipe := Pipe {
  pi_data : list Z;
  pi_nread : Z;
  pi_nwrite : Z;
  pi_readopen : bool;
  pi_writeopen : bool
}.

(** The registers of the hart the thread runs on: [tp] and the supervisor CSRs. *)
Record hartst := Hart {
  r_tp : Z;
  r_sstatus : Z;
  r_stvec : Z;
  r_sepc : Z;
  r_scause : Z;
  r_stval : Z;
  r_satp : Z;
  r_time : Z;
  r_stimecmp : Z
}.

(** The console's input buffer and the UART's transmit buffer, the [panicked] flag,
    and device registers as the drivers see them: [u_read n a] is what the [n]-th
    register read gives when it reads address [a], [u_reads] counts the reads,
    [u_out] records the register writes, oldest first.  [u_polls] bounds the rounds
    of the drivers' polling loops; one that uses it up is taken to spin for ever. *)
Record devst := Dev {
  cons_buf : list Z;
  cons_r : Z;
  cons_w : Z;
  cons_e : Z;
  tx_buf : list Z;
  tx_w : Z;
  tx_r : Z;
  panicked : bool;
  u_read : nat -> Z -> Z;
  u_reads : nat;
  u_out : list (Z * Z);
  u_polls : nat
}.

(** ** The state the kernel runs on

    [held] lists the spinlocks the running thread holds, [cur] is
    [mycpu()->proc].  [mem] is physical memory: the page allocator's free list,
    page tables, trapframes and user pages live there.  [disk] is the content of
    the disk and [dwrites] records, oldest first, every block written to it.
    [first] is the static variable of [forkret]. *)
Record kst := KSt {
  hart : hartst;
  held : list lockid;
  cur : option nat;
  mem : gmap Z Z;
  freelist : Z;
  kernel_pagetable : Z;
  procs : list proc;
  nextpid : Z;
  initproc : option nat;
  ticks : Z;
  bufs : list buf;
  disk : gmap Z (list Z);
  dwrites : list (Z * list Z);
  log : logstate;
  sb : superblock;
  inodes : list inode;
  files : list file;
  pipes : gmap Z pipe;
  first : bool;
  dev : devst
}.

(** ** Field updates *)

Definition set_p_state (v : procstate) (r : proc) : proc :=
  Proc v (p_chan r) (p_killed r) (p_xstate r) (p_pid r) (p_parent r) (p_kstack r) (p_sz
    r) (p_pagetable r) (p_trapframe r) (p_context r) (p_ofile r) (p_cwd r) (p_name r).
Definition set_p_chan (v : chan) (r : proc) : proc :=
  Proc (p_state r) v (p_killed r) (p_xstate r) (p_pid r) (p_parent r) (p_kstack r) (p_sz
    r) (p_pagetable r) (p_trapframe r) (p_context r) (p_ofile r) (p_cwd r) (p_name r).
Definition set_p_killed (v : bool) (r : proc) : proc :=
  Proc (p_state r) (p_chan r) v (p_xstate r) (p_pid r) (p_parent r) (p_kstack r) (p_sz
    r) (p_pagetable r) (p_trapframe r) (p_context r) (p_ofile r) (p_cwd r) (p_name r).
Definition set_p_xstate (v : Z) (r : proc) : proc :=
  Proc (p_state r) (p_chan r) (p_killed r) v (p_pid r) (p_parent r) (p_kstack r) (p_sz
    r) (p_pagetable r) (p_trapframe r) (p_context r) (p_ofile r) (p_cwd r) (p_name r).
Definition set_p_pid (v : Z) (r : proc) : proc :=
  Proc (p_state r) (p_chan r) (p_killed r) (p_xstate r) v (p_parent r) (p_kstack r)
    (p_sz r) (p_pagetable r) (p_trapframe r) (p_context r) (p_ofile r) (p_cwd r) (p_name
    r).
Definition set_p_parent (v : option nat) (r : proc) : proc :=
  Proc (p_state r) (p_chan r) (p_killed r) (p_xstate r) (p_pid r) v (p_kstack r) (p_sz
    r) (p_pagetable r) (p_trapframe r) (p_context r) (p_ofile r) (p_cwd r) (p_name r).
Definition set_p_kstack (v : Z) (r : proc) : proc :=
  Proc (p_state r) (p_chan r) (p_killed r) (p_xstate r) (p_pid r) (p_parent r) v (p_sz
    r) (p_pagetable r) (p_trapframe r) (p_context r) (p_ofile r) (p_cwd r) (p_name r).
Definition set_p_sz (v : Z) (r : proc) : proc :=
  Proc (p_state r) (p_chan r) (p_killed r) (p_xstate r) (p_pid r) (p_parent r) (p_kstack
    r) v (p_pagetable r) (p_trapframe r) (p_context r) (p_ofile r) (p_cwd r) (p_name r).
Definition set_p_pagetable (v : Z) (r : proc) : proc :=
  Proc (p_state r) (p_chan r) (p_killed r) (p_xstate r) (p_pid r) (p_parent r) (p_kstack
    r) (p_sz r) v (p_trapframe r) (p_context r) (p_ofile r) (p_cwd r) (p_name r).
Definition set_p_trapframe (v : Z) (r : proc) : proc :=
  Proc (p_state r) (p_chan r) (p_killed r) (p_xstate r) (p_pid r) (p_parent r) (p_kstack
    r) (p_sz r) (p_pagetable r) v (p_context r) (p_ofile r) (p_cwd r) (p_name r).
Definition set_p_context (v : context) (r : proc) : proc :=
  Proc (p_state r) (p_chan r) (p_killed r) (p_xstate r) (p_pid r) (p_parent r) (p_kstack
    r) (p_sz r) (p_pagetable r) (p_trapframe r) v (p_ofile r) (p_cwd r) (p_name r).
Definition set_p_ofile (v : list (option nat)) (r : proc) : proc :=
  Proc (p_state r) (p_chan r) (p_killed r) (p_xstate r) (p_pid r) (p_parent r) (p_kstack
    r) (p_sz r) (p_pagetable r) (p_trapframe r) (p_context r) v (p_cwd r) (p_name r).
Definition set_p_cwd (v : option nat) (r : proc) : proc :=
  Proc (p_state r) (p_chan r) (p_killed r) (p_xstate r) (p_pid r) (p_parent r) (p_kstack
    r) (p_sz r) (p_pagetable r) (p_trapframe r) (p_context r) (p_ofile r) v (p_name r).
Definition set_p_name (v : list Z) (r : proc) : proc :=
  Proc (p_state r) (p_chan r) (p_killed r) (p_xstate r) (p_pid r) (p_parent r) (p_kstack
    r) (p_sz r) (p_pagetable r) (p_trapframe r) (p_context r) (p_ofile r) (p_cwd r) v.

Definition set_b_valid (v : bool) (r : buf) : buf :=
  Buf v (b_disk r) (b_dev r) (b_blockno r) (b_lock r) (b_refcnt r) (b_prev r) (b_next r)
    (b_data r).
Definition set_b_disk (v : bool) (r : buf) : buf :=
  Buf (b_valid r) v (b_dev r) (b_blockno r) (b_lock r) (b_refcnt r) (b_prev r) (b_next
    r) (b_data r).
Definition set_b_dev (v : Z) (r : buf) : buf :=
  Buf (b_valid r) (b_disk r) v (b_blockno r) (b_lock r) (b_refcnt r) (b_prev r) (b_next
    r) (b_data r).
Definition set_b_blockno (v : Z) (r : buf) : buf :=
  Buf (b_valid r) (b_disk r) (b_dev r) v (b_lock r) (b_refcnt r) (b_prev r) (b_next r)
    (b_data r).
Definition set_b_lock (v : sleeplock) (r : buf) : buf :=
  Buf (b_valid r) (b_disk r) (b_dev r) (b_blockno r) v (b_refcnt r) (b_prev r) (b_next
    r) (b_data r).
Definition set_b_refcnt (v : Z) (r : buf) : buf :=
  Buf (b_valid r) (b_disk r) (b_dev r) (b_blockno r) (b_lock r) v (b_prev r) (b_next r)
    (b_data r).
Definition set_b_prev (v : nat) (r : buf) : buf :=
  Buf (b_valid r) (b_disk r) (b_dev r) (b_blockno r) (b_lock r) (b_refcnt r) v (b_next
    r) (b_data r).
Definition set_b_next (v : nat) (r : buf) : buf :=
  Buf (b_valid r) (b_disk r) (b_dev r) (b_blockno r) (b_lock r) (b_refcnt r) (b_prev r)
    v (b_data r).
Definition set_b_data (v : list Z) (r : buf) : buf :=
  Buf (b_valid r) (b_disk r) (b_dev r) (b_blockno r) (b_lock r) (b_refcnt r) (b_prev r)
    (b_next r) v.

Definition set_l_start (v : Z) (r : logstate) : logstate :=
  Log v (l_size r) (l_outstanding r) (l_committing r) (l_dev r) (l_n r) (l_block r).
Definition set_l_size (v : Z) (r : logstate) : logstate :=
  Log (l_start r) v (l_outstanding r) (l_committing r) (l_dev r) (l_n r) (l_block r).
Definition set_l_outstanding (v : Z) (r : logstate) : logstate :=
  Log (l_start r) (l_size r) v (l_committing r) (l_dev r) (l_n r) (l_block r).
Definition set_l_committing (v : bool) (r : logstate) : logstate :=
  Log (l_start r) (l_size r) (l_outstanding r) v (l_dev r) (l_n r) (l_block r).
Definition set_l_dev (v : Z) (r : logstate) : logstate :=
  Log (l_start r) (l_size r) (l_outstanding r) (l_committing r) v (l_n r) (l_block r).
Definition set_l_n (v : Z) (r : logstate) : logstate :=
  Log (l_start r) (l_size r) (l_outstanding r) (l_committing r) (l_dev r) v (l_block r).
Definition set_l_block (v : list Z) (r : logstate) : logstate :=
  Log (l_start r) (l_size r) (l_outstanding r) (l_committing r) (l_dev r) (l_n r) v.

Definition set_i_dev (v : Z) (r : inode) : inode :=
  Inode v (i_inum r) (i_ref r) (i_lock r) (i_valid r) (i_type r) (i_major r) (i_minor r)
    (i_nlink r) (i_size r) (i_addrs r).
Definition set_i_inum (v : Z) (r : inode) : inode :=
  Inode (i_dev r) v (i_ref r) (i_lock r) (i_valid r) (i_type r) (i_major r) (i_minor r)
    (i_nlink r) (i_size r) (i_addrs r).
Definition set_i_ref (v : Z) (r : inode) : inode :=
  Inode (i_dev r) (i_inum r) v (i_lock r) (i_valid r) (i_type r) (i_major r) (i_minor r)
    (i_nlink r) (i_size r) (i_addrs r).
Definition set_i_lock (v : sleeplock) (r : inode) : inode :=
  Inode (i_dev r) (i_inum r) (i_ref r) v (i_valid r) (i_type r) (i_major r) (i_minor r)
    (i_nlink r) (i_size r) (i_addrs r).
Definition set_i_valid (v : bool) (r : inode) : inode :=
  Inode (i_dev r) (i_inum r) (i_ref r) (i_lock r) v (i_type r) (i_major r) (i_minor r)
    (i_nlink r) (i_size r) (i_addrs r).
Definition set_i_type (v : Z) (r : inode) : inode :=
  Inode (i_dev r) (i_inum r) (i_ref r) (i_lock r) (i_valid r) v (i_major r) (i_minor r)
    (i_nlink r) (i_size r) (i_addrs r).
Definition set_i_major (v : Z) (r : inode) : inode :=
  Inode (i_dev r) (i_inum r) (i_ref r) (i_lock r) (i_valid r) (i_type r) v (i_minor r)
    (i_nlink r) (i_size r) (i_addrs r).
Definition set_i_minor (v : Z) (r : inode) : inode :=
  Inode (i_dev r) (i_inum r) (i_ref r) (i_lock r) (i_valid r) (i_type r) (i_major r) v
    (i_nlink r) (i_size r) (i_addrs r).
Definition set_i_nlink (v : Z) (r : inode) : inode :=
  Inode (i_dev r) (i_inum r) (i_ref r) (i_lock r) (i_valid r) (i_type r) (i_major r)
    (i_minor r) v (i_size r) (i_addrs r).
Definition set_i_size (v : Z) (r : inode) : inode :=
  Inode (i_dev r) (i_inum r) (i_ref r) (i_lock r) (i_valid r) (i_type r) (i_major r)
    (i_minor r) (i_nlink r) v (i_addrs r).
Definition set_i_addrs (v : list Z) (r : inode) : inode :=
  Inode (i_dev r) (i_inum r) (i_ref r) (i_lock r) (i_valid r) (i_type r) (i_major r)
    (i_minor r) (i_nlink r) (i_size r) v.

Definition set_f_type (v : filetype) (r : file) : file :=
  File v (f_ref r) (f_readable r) (f_writable r) (f_pipe r) (f_ip r) (f_off r) (f_major
    r).
Definition set_f_ref (v : Z) (r : file) : file :=
  File (f_type r) v (f_readable r) (f_writable r) (f_pipe r) (f_ip r) (f_off r) (f_major
    r).
Definition set_f_readable (v : bool) (r : file) : file :=
  File (f_type r) (f_ref r) v (f_writable r) (f_pipe r) (f_ip r) (f_off r) (f_major r).
Definition set_f_writable (v : bool) (r : file) : file :=
  File (f_type r) (f_ref r) (f_readable r) v (f_pipe r) (f_ip r) (f_off r) (f_major r).
Definition set_f_pipe (v : Z) (r : file) : file :=
  File (f_type r) (f_ref r) (f_readable r) (f_writable r) v (f_ip r) (f_off r) (f_major
    r).
Definition set_f_ip (v : nat) (r : file) : file :=
  File (f_type r) (f_ref r) (f_readable r) (f_writable r) (f_pipe r) v (f_off r)
    (f_major r).
Definition set_f_off (v : Z) (r : file) : file :=
  File (f_type r) (f_ref r) (f_readable r) (f_writable r) (f_pipe r) (f_ip r) v (f_major
    r).
Definition set_f_major (v : Z) (r : file) : file :=
  File (f_type r) (f_ref r) (f_readable r) (f_writable r) (f_pipe r) (f_ip r) (f_off r)
    v.

Definition set_pi_data (v : list Z) (r : pipe) : pipe :=
  Pipe v (pi_nread r) (pi_nwrite r) (pi_readopen r) (pi_writeopen r).
Definition set_pi_nread (v : Z) (r : pipe) : pipe :=
  Pipe (pi_data r) v (pi_nwrite r) (pi_readopen r) (pi_writeopen r).
Definition set_pi_nwrite (v : Z) (r : pipe) : pipe :=
  Pipe (pi_data r) (pi_nread r) v (pi_readopen r) (pi_writeopen r).
Definition set_pi_readopen (v : bool) (r : pipe) : pipe :=
  Pipe (pi_data r) (pi_nread r) (pi_nwrite r) v (pi_writeopen r).
Definition set_pi_writeopen (v : bool) (r : pipe) : pipe :=
  Pipe (pi_data r) (pi_nread r) (pi_nwrite r) (pi_readopen r) v.

Definition set_r_tp (v : Z) (r : hartst) : hartst :=
  Hart v (r_sstatus r) (r_stvec r) (r_sepc r) (r_scause r) (r_stval r) (r_satp r)
    (r_time r) (r_stimecmp r).
Definition set_r_sstatus (v : Z) (r : hartst) : hartst :=
  Hart (r_tp r) v (r_stvec r) (r_sepc r) (r_scause r) (r_stval r) (r_satp r) (r_time r)
    (r_stimecmp r).
Definition set_r_stvec (v : Z) (r : hartst) : hartst :=
  Hart (r_tp r) (r_sstatus r) v (r_sepc r) (r_scause r) (r_stval r) (r_satp r) (r_time
    r) (r_stimecmp r).
Definition set_r_sepc (v : Z) (r : hartst) : hartst :=
  Hart (r_tp r) (r_sstatus r) (r_stvec r) v (r_scause r) (r_stval r) (r_satp r) (r_time
    r) (r_stimecmp r).
Definition set_r_scause (v : Z) (r : hartst) : hartst :=
  Hart (r_tp r) (r_sstatus r) (r_stvec r) (r_sepc r) v (r_stval r) (r_satp r) (r_time r)
    (r_stimecmp r).
Definition set_r_stval (v : Z) (r : hartst) : hartst :=
  Hart (r_tp r) (r_sstatus r) (r_stvec r) (r_sepc r) (r_scause r) v (r_satp r) (r_time
    r) (r_stimecmp r).
Definition set_r_satp (v : Z) (r : hartst) : hartst :=
  Hart (r_tp r) (r_sstatus r) (r_stvec r) (r_sepc r) (r_scause r) (r_stval r) v (r_time
    r) (r_stimecmp r).
Definition set_r_time (v : Z) (r : hartst) : hartst :=
  Hart (r_tp r) (r_sstatus r) (r_stvec r) (r_sepc r) (r_scause r) (r_stval r) (r_satp r)
    v (r_stimecmp r).
Definition set_r_stimecmp (v : Z) (r : hartst) : hartst :=
  Hart (r_tp r) (r_sstatus r) (r_stvec r) (r_sepc r) (r_scause r) (r_stval r) (r_satp r)
    (r_time r) v.

Definition set_cons_buf (v : list Z) (r : devst) : devst :=
  Dev v (cons_r r) (cons_w r) (cons_e r) (tx_buf r) (tx_w r) (tx_r r) (panicked r) (u_read r)
    (u_reads r) (u_out r) (u_polls r).
Definition set_cons_r (v : Z) (r : devst) : devst :=
  Dev (cons_buf r) v (cons_w r) (cons_e r) (tx_buf r) (tx_w r) (tx_r r) (panicked r) (u_read r)
    (u_reads r) (u_out r) (u_polls r).
Definition set_cons_w (v : Z) (r : devst) : devst :=
  Dev (cons_buf r) (cons_r r) v (cons_e r) (tx_buf r) (tx_w r) (tx_r r) (panicked r) (u_read r)
    (u_reads r) (u_out r) (u_polls r).
Definition set_cons_e (v : Z) (r : devst) : devst :=
  Dev (cons_buf r) (cons_r r) (cons_w r) v (tx_buf r) (tx_w r) (tx_r r) (panicked r) (u_read r)
    (u_reads r) (u_out r) (u_polls r).
Definition set_tx_buf (v : list Z) (r : devst) : devst :=
  Dev (cons_buf r) (cons_r r) (cons_w r) (cons_e r) v (tx_w r) (tx_r r) (panicked r) (u_read r)
    (u_reads r) (u_out r) (u_polls r).
Definition set_tx_w (v : Z) (r : devst) : devst :=
  Dev (cons_buf r) (cons_r r) (cons_w r) (cons_e r) (tx_buf r) v (tx_r r) (panicked r) (u_read r)
    (u_reads r) (u_out r) (u_polls r).
Definition set_tx_r (v : Z) (r : devst) : devst :=
  Dev (cons_buf r) (cons_r r) (cons_w r) (cons_e r) (tx_buf r) (tx_w r) v (panicked r) (u_read r)
    (u_reads r) (u_out r) (u_polls r).
Definition set_u_reads (v : nat) (r : devst) : devst :=
  Dev (cons_buf r) (cons_r r) (cons_w r) (cons_e r) (tx_buf r) (tx_w r) (tx_r r) (panicked r)
    (u_read r) v (u_out r) (u_polls r).
Definition set_u_out (v : list (Z * Z)) (r : devst) : devst :=
  Dev (cons_buf r) (cons_r r) (cons_w r) (cons_e r) (tx_buf r) (tx_w r) (tx_r r) (panicked r)
    (u_read r) (u_reads r) v (u_polls r).

Definition set_hart (v : hartst) (s : kst) : kst :=
  KSt v (held s) (cur s) (mem s) (freelist s) (kernel_pagetable s) (procs s) (nextpid s)
    (initproc s) (ticks s) (bufs s) (disk s) (dwrites s) (log s) (sb s) (inodes s)
    (files s) (pipes s) (first s) (dev s).
Definition set_held (v : list lockid) (s : kst) : kst :=
  KSt (hart s) v (cur s) (mem s) (freelist s) (kernel_pagetable s) (procs s) (nextpid s)
    (initproc s) (ticks s) (bufs s) (disk s) (dwrites s) (log s) (sb s) (inodes s)
    (files s) (pipes s) (first s) (dev s).
Definition set_cur (v : option nat) (s : kst) : kst :=
  KSt (hart s) (held s) v (mem s) (freelist s) (kernel_pagetable s) (procs s) (nextpid
    s) (initproc s) (ticks s) (bufs s) (disk s) (dwrites s) (log s) (sb s) (inodes s)
    (files s) (pipes s) (first s) (dev s).
Definition set_mem (v : gmap Z Z) (s : kst) : kst :=
  KSt (hart s) (held s) (cur s) v (freelist s) (kernel_pagetable s) (procs s) (nextpid
    s) (initproc s) (ticks s) (bufs s) (disk s) (dwrites s) (log s) (sb s) (inodes s)
    (files s) (pipes s) (first s) (dev s).
Definition set_freelist (v : Z) (s : kst) : kst :=
  KSt (hart s) (held s) (cur s) (mem s) v (kernel_pagetable s) (procs s) (nextpid s)
    (initproc s) (ticks s) (bufs s) (disk s) (dwrites s) (log s) (sb s) (inodes s)
    (files s) (pipes s) (first s) (dev s).
Definition set_kernel_pagetable (v : Z) (s : kst) : kst :=
  KSt (hart s) (held s) (cur s) (mem s) (freelist s) v (procs s) (nextpid s) (initproc
    s) (ticks s) (bufs s) (disk s) (dwrites s) (log s) (sb s) (inodes s) (files s)
    (pipes s) (first s) (dev s).
Definition set_procs (v : list proc) (s : kst) : kst :=
  KSt (hart s) (held s) (cur s) (mem s) (freelist s) (kernel_pagetable s) v (nextpid s)
    (initproc s) (ticks s) (bufs s) (disk s) (dwrites s) (log s) (sb s) (inodes s)
    (files s) (pipes s) (first s) (dev s).
Definition set_nextpid (v : Z) (s : kst) : kst :=
  KSt (hart s) (held s) (cur s) (mem s) (freelist s) (kernel_pagetable s) (procs s) v
    (initproc s) (ticks s) (bufs s) (disk s) (dwrites s) (log s) (sb s) (inodes s)
    (files s) (pipes s) (first s) (dev s).
Definition set_initproc (v : option nat) (s : kst) : kst :=
  KSt (hart s) (held s) (cur s) (mem s) (freelist s) (kernel_pagetable s) (procs s)
    (nextpid s) v (ticks s) (bufs s) (disk s) (dwrites s) (log s) (sb s) (inodes s)
    (files s) (pipes s) (first s) (dev s).
Definition set_ticks (v : Z) (s : kst) : kst :=
  KSt (hart s) (held s) (cur s) (mem s) (freelist s) (kernel_pagetable s) (procs s)
    (nextpid s) (initproc s) v (bufs s) (disk s) (dwrites s) (log s) (sb s) (inodes s)
    (files s) (pipes s) (first s) (dev s).
Definition set_bufs (v : list buf) (s : kst) : kst :=
  KSt (hart s) (held s) (cur s) (mem s) (freelist s) (kernel_pagetable s) (procs s)
    (nextpid s) (initproc s) (ticks s) v (disk s) (dwrites s) (log s) (sb s) (inodes s)
    (files s) (pipes s) (first s) (dev s).
Definition set_disk (v : gmap Z (list Z)) (s : kst) : kst :=
  KSt (hart s) (held s) (cur s) (mem s) (freelist s) (kernel_pagetable s) (procs s)
    (nextpid s) (initproc s) (ticks s) (bufs s) v (dwrites s) (log s) (sb s) (inodes s)
    (files s) (pipes s) (first s) (dev s).
Definition set_dwrites (v : list (Z * list Z)) (s : kst) : kst :=
  KSt (hart s) (held s) (cur s) (mem s) (freelist s) (kernel_pagetable s) (procs s)
    (nextpid s) (initproc s) (ticks s) (bufs s) (disk s) v (log s) (sb s) (inodes s)
    (files s) (pipes s) (first s) (dev s).
Definition set_log (v : logstate) (s : kst) : kst :=
  KSt (hart s) (held s) (cur s) (mem s) (freelist s) (kernel_pagetable s) (procs s)
    (nextpid s) (initproc s) (ticks s) (bufs s) (disk s) (dwrites s) v (sb s) (inodes s)
    (files s) (pipes s) (first s) (dev s).
Definition set_sb (v : superblock) (s : kst) : kst :=
  KSt (hart s) (held s) (cur s) (mem s) (freelist s) (kernel_pagetable s) (procs s)
    (nextpid s) (initproc s) (ticks s) (bufs s) (disk s) (dwrites s) (log s) v (inodes
    s) (files s) (pipes s) (first s) (dev s).
Definition set_inodes (v : list inode) (s : kst) : kst :=
  KSt (hart s) (held s) (cur s) (mem s) (freelist s) (kernel_pagetable s) (procs s)
    (nextpid s) (initproc s) (ticks s) (bufs s) (disk s) (dwrites s) (log s) (sb s) v
    (files s) (pipes s) (first s) (dev s).
Definition set_files (v : list file) (s : kst) : kst :=
  KSt (hart s) (held s) (cur s) (mem s) (freelist s) (kernel_pagetable s) (procs s)
    (nextpid s) (initproc s) (ticks s) (bufs s) (disk s) (dwrites s) (log s) (sb s)
    (inodes s) v (pipes s) (first s) (dev s).
Definition set_pipes (v : gmap Z pipe) (s : kst) : kst :=
  KSt (hart s) (held s) (cur s) (mem s) (freelist s) (kernel_pagetable s) (procs s)
    (nextpid s) (initproc s) (ticks s) (bufs s) (disk s) (dwrites s) (log s) (sb s)
    (inodes s) (files s) v (first s) (dev s).
Definition set_first (v : bool) (s : kst) : kst :=
  KSt (hart s) (held s) (cur s) (mem s) (freelist s) (kernel_pagetable s) (procs s)
    (nextpid s) (initproc s) (ticks s) (bufs s) (disk s) (dwrites s) (log s) (sb s)
    (inodes s) (files s) (pipes s) v (dev s).
Definition set_dev (v : devst) (s : kst) : kst :=
  KSt (hart s) (held s) (cur s) (mem s) (freelist s) (kernel_pagetable s) (procs s)
    (nextpid s) (initproc s) (ticks s) (bufs s) (disk s) (dwrites s) (log s) (sb s)
    (inodes s) (files s) (pipes s) (first s) v.

(** ** Outcomes of kernel code

    [Ok]: the function returned.  [Panic]: it called [panic].  [Sleep]: the
    thread called [sleep] on a channel and gave up the CPU in that state.
    [Diverge]: the thread spins for ever. *)

Inductive out (A : Type) :=
  | Ok (a : A) (s : kst)
  | Panic (msg : string)
  | Sleep (c : chan) (s : kst)
  | Diverge.
Arguments Ok {A} a s.
Arguments Panic {A} msg.
Arguments Sleep {A} c s.
Arguments Diverge {A}.

Definition M (A : Type) : Type := kst -> out A.

Definition ret {A} (a : A) : M A := fun s => Ok a s.

Definition bind {A B} (c : M A) (k : A -> M B) : M B := fun s =>
  match c s with
  | Ok a s' => k a s'
  | Panic msg => Panic msg
  | Sleep ch s' => Sleep ch s'
  | Diverge => Diverge
  end.

Definition panic {A} (msg : string) : M A := fun _ => Panic msg.
Definition diverge {A} : M A := fun _ => Diverge.
Definition get {A} (f : kst -> A) : M A := fun s => Ok (f s) s.
Definition upd (f : kst -> kst) : M unit := fun s => Ok tt (f s).

Declare Scope kernel_scope.
Delimit Scope kernel_scope with kernel.
Notation "'let!' x := c 'in' k" := (bind c (fun x => k))
  (at level 10, x pattern, c at level 100, k at level 200,
   format "'let!'  x  :=  c  'in' '//' k") : kernel_scope.
Notation "c ';;;' k" := (bind c (fun _ => k))
  (at level 190, k at level 200, right associativity,
   format "c  ';;;' '//' k") : kernel_scope.
#[global] Open Scope kernel_scope.

(** Dereferencing a null [struct proc *]: the fault is taken in supervisor mode
    and [kerneltrap] panics. *)
Definition deref {A} (o : option A) : M A :=
  match o with Some a => ret a | None => panic "kerneltrap" end.

(** ** Symbols the linker places ([kernel.ld]) *)

Class Linker := {
  k_end : Z;          (* first address after the kernel *)
  k_etext : Z;        (* end of the kernel's code *)
  k_trampoline : Z;   (* the trampoline page *)
  k_uservec : Z;
  k_userret : Z;
  k_kernelvec : Z;
  k_usertrap : Z;
  k_forkret : Z
}.

(** What [kernel.ld] fixes: the image starts at [KERNBASE], the trampoline is
    one aligned page at the end of the text, and the image fits in RAM. *)
Class LinkerOk (L : Linker) : Prop := {
  etext_aligned : k_etext mod PGSIZE = 0;
  trampoline_aligned : k_trampoline mod PGSIZE = 0;
  trampoline_lo : KERNBASE <= k_trampoline;
  trampoline_hi : k_trampoline + PGSIZE = k_etext;
  end_lo : k_etext <= k_end;
  end_hi : k_end <= PHYSTOP
}.

(** ** Spinlocks, as the code that uses them sees them

    [acquire] returns once the calling thread holds the lock, [release] gives it
    up; both check [holding].  [Spinlock] models [spinlock.c] and proves this
    contract of it. *)
Definition holding (lk : lockid) (s : kst) : bool := bool_decide (lk ∈ held s).

Definition acquire (lk : lockid) : M unit := fun s =>
  if holding lk s then Panic "acquire" else Ok tt (set_held (lk :: held s) s).

Definition release (lk : lockid) : M unit := fun s =>
  if holding lk s
  then Ok tt (set_held (filter (fun l => l <> lk) (held s)) s)
  else Panic "release".

(** ** Weakest preconditions

    [wp c Q s]: run from [s], [c] returns, and the result and final state
    satisfy [Q].  A computation that panics, sleeps or spins satisfies no
    [wp], so a specification stated with it excludes those outcomes. *)
Definition wp {A} (c : M A) (Q : A -> kst -> Prop) (s : kst) : Prop :=
  match c s with
  | Ok a s' => Q a s'
  | _ => False
  end.

Section Wp.
  Context {A B : Type}.
  Implicit Types (Q : A -> kst -> Prop) (R : B -> kst -> Prop).

Lemma wp_ret (a : A) Q s : Q a s -> wp (ret a) Q s.
  Proof. done. Qed.

Lemma wp_bind (c : M A) (k : A -> M B) R s :
    wp c (fun a s' => wp (k a) R s') s -> wp (bind c k) R s.
  Proof. unfold wp, bind. by destruct (c s). Qed.

Lemma wp_mono (c : M A) Q Q' s :
    wp c Q s -> (forall a s', Q a s' -> Q' a s') -> wp c Q' s.
  Proof. unfold wp. destruct (c s); auto. Qed.

Lemma wp_get (f : kst -> A) Q s : Q (f s) s -> wp (get f) Q s.
  Proof. done. Qed.

Lemma wp_ok (c : M A) Q s : wp c Q s <-> exists a s', c s = Ok a s' /\ Q a s'.
  Proof.
    unfold wp. split; [|by intros (? & ? & -> & ?)]. destruct (c s); eauto; done.
  Qed.

Lemma wp_deref (o : option A) a Q s : o = Some a -> Q a s -> wp (deref o) Q s.
  Proof. by intros ->. Qed.
End Wp.

(** Regrouping a sequence, so that a specification of its first part applies. *)
Lemma wp_seq2 {A B C} (c1 : M A) (c2 : M B) (k : M C) (Q : C -> kst -> Prop) s :
  wp (c1 ;;; c2) (fun _ => wp k Q) s -> wp (c1 ;;; c2 ;;; k) Q s.
Proof. unfold wp, bind. destruct (c1 s) as [? s1| | |]; try done. by destruct (c2 s1). Qed.

Lemma wp_seq3 {A B C D} (c1 : M A) (c2 : M B) (c3 : M C) (k : M D) (Q : D -> kst -> Prop) s :
  wp (c1 ;;; c2 ;;; c3) (fun _ => wp k Q) s -> wp (c1 ;;; c2 ;;; c3 ;;; k) Q s.
Proof.
  unfold wp, bind.
  destruct (c1 s) as [? s1| | |]; try done. destruct (c2 s1) as [? s2| | |]; try done.
  by destruct (c3 s2).
Qed.

Lemma wp_upd f (Q : unit -> kst -> Prop) s : Q tt (f s) -> wp (upd f) Q s.
Proof. done. Qed.

Lemma bind_ok {A B} (c : M A) (k : A -> M B) s a s' :
  c s = Ok a s' -> bind c k s = k a s'.
Proof. unfold bind. by intros ->. Qed.

Lemma wp_acquire lk (Q : unit -> kst -> Prop) s :
  lk ∉ held s -> Q tt (set_held (lk :: held s) s) -> wp (acquire lk) Q s.
Proof.
  intros H HQ. unfold wp, acquire, holding. by rewrite bool_decide_eq_false_2.
Qed.

Lemma wp_release lk (Q : unit -> kst -> Prop) s h :
  held s = lk :: h -> lk ∉ h -> Q tt (set_held h s) -> wp (release lk) Q s.
Proof.
  intros Hh Hn HQ. unfold wp, release, holding.
  rewrite bool_decide_eq_true_2 by (rewrite Hh; set_solver).
  rewrite Hh, filter_cons_False by naive_solver.
  by rewrite filter_ne_id.
Qed.

Lemma set_held_id s : set_held (held s) s = s.
Proof. by destruct s. Qed.

(** [wps c Q R s]: run from [s], [c] either returns with [Q] or goes to sleep with
    [R]; it neither panics nor spins. *)
Definition wps {A} (c : M A) (Q : A -> kst -> Prop) (R : chan -> kst -> Prop) (s : kst) : Prop :=
  match c s with
  | Ok a s' => Q a s'
  | Sleep ch s' => R ch s'
  | _ => False
  end.

Section Wps.
  Context {A B : Type} (R : chan -> kst -> Prop).

Lemma wps_wp (c : M A) Q s : wp c Q s -> wps c Q R s.
  Proof. unfold wp, wps. by destruct (c s). Qed.

Lemma wps_bind (c : M A) (k : A -> M B) Q s :
    wps c (fun a s' => wps (k a) Q R s') R s -> wps (bind c k) Q R s.
  Proof. unfold wps, bind. by destruct (c s). Qed.

Lemma wps_mono (c : M A) Q Q' (R' : chan -> kst -> Prop) s :
    wps c Q R s -> (forall a s', Q a s' -> Q' a s') ->
    (forall ch s', R ch s' -> R' ch s') -> wps c Q' R' s.
  Proof. unfold wps. destruct (c s); auto. Qed.

  (** The common case: a first step that does not sleep. *)
Lemma wps_step (c : M A) (k : A -> M B) Q s :
    wp c (fun a s' => wps (k a) Q R s') s -> wps (bind c k) Q R s.
  Proof. intros H. by apply wps_bind, wps_wp. Qed.
End Wps.

(** Symbolic execution: one binding, one lock operation, one state access. *)
Ltac wp_step :=
  lazymatch goal with
  | |- wp (bind _ _) _ _ => apply wp_bind
  | |- wp (ret _) _ _ => apply wp_ret
  | |- wp (get _) _ _ => apply wp_get
  | |- wp (upd _) _ _ => apply wp_upd
  | |- wp (fun _ => _) _ _ => cbv beta
  | |- wps (bind _ _) _ _ _ => apply wps_step
  end.
Ltac wp_steps := repeat wp_step.
(** Use a specification [H : wp c Q s], then continue from its postcondition. *)
Tactic Notation "wp_apply" uconstr(H) := eapply wp_mono; [eapply H|].
