(* ===== verification/Spinlock.v ===== *)
(** [kernel/spinlock.c] on a machine of several CPUs: the lock word and its owner
    field, the nesting of [push_off] and [pop_off], and the interleavings of the
    CPUs that use them.  The rest of the kernel uses locks through the [acquire]
    and [release] of [Types]; the refinement at the end connects the two. *)
From S2P Require Import Prelude Types.

(** ** State *)

Record spinlock := SpinLock {
  lk_locked : bool;
  lk_cpu : option nat
}.

(** [sstatus.SIE], and the fields of [struct cpu] that nest interrupt disabling. *)
Record cpu := Cpu {
  c_sie : bool;
  c_noff : Z;
  c_intena : bool
}.

Record smp := Smp {
  cpus : nat -> cpu;
  locks : lockid -> spinlock
}.

Definition set_cpu (c : nat) (v : cpu) (s : smp) : smp :=
  Smp (fun k => if decide (k = c) then v else cpus s k) (locks s).
Definition set_lock (lk : lockid) (v : spinlock) (s : smp) : smp :=
  Smp (cpus s) (fun k => if decide (k = lk) then v else locks s k).

(** Code running on one CPU: a value and the new state, a [panic], or still
    spinning when the bound on the rounds is used up. *)
Inductive sres (A : Type) := SOk (a : A) (s : smp) | SPanic (msg : string) | SSpin.
Arguments SOk {A} a s.
Arguments SPanic {A} msg.
Arguments SSpin {A}.

Definition sbind {A B} (r : sres A) (k : A -> smp -> sres B) : sres B :=
  match r with SOk a s => k a s | SPanic msg => SPanic msg | SSpin => SSpin end.

(** ** The code, run by CPU [me] *)

Definition initlock (lk : lockid) (s : smp) : smp := set_lock lk (SpinLock false None) s.

Definition intr_get (me : nat) (s : smp) : bool := c_sie (cpus s me).
Definition set_sie (me : nat) (b : bool) (s : smp) : smp :=
  set_cpu me (Cpu b (c_noff (cpus s me)) (c_intena (cpus s me))) s.
Definition intr_off (me : nat) (s : smp) : smp := set_sie me false s.
Definition intr_on (me : nat) (s : smp) : smp := set_sie me true s.

Definition push_off (me : nat) (s : smp) : smp :=
  let old := intr_get me s in
  let s := intr_off me s in
  let c := cpus s me in
  let c := if c_noff c =? 0 then Cpu (c_sie c) (c_noff c) old else c in
  set_cpu me (Cpu (c_sie c) (c_noff c + 1) (c_intena c)) s.

Definition pop_off (me : nat) (s : smp) : sres unit :=
  if intr_get me s then SPanic "pop_off - interruptible"
  else
    let c := cpus s me in
    if c_noff c <? 1 then SPanic "pop_off"
    else
      let s := set_cpu me (Cpu (c_sie c) (c_noff c - 1) (c_intena c)) s in
      SOk tt (if (c_noff c - 1 =? 0) && c_intena c then intr_on me s else s).

Definition holding (me : nat) (lk : lockid) (s : smp) : bool :=
  lk_locked (locks s lk) && bool_decide (lk_cpu (locks s lk) = Some me).

(** [acquire] in its three parts: up to the loop, one round of the loop (the atomic
    swap: true when it got the lock), and after it. *)
Definition acquire_enter (me : nat) (lk : lockid) (s : smp) : sres unit :=
  let s := push_off me s in
  if holding me lk s then SPanic "acquire" else SOk tt s.

Definition test_and_set (lk : lockid) (s : smp) : bool * smp :=
  (negb (lk_locked (locks s lk)), set_lock lk (SpinLock true (lk_cpu (locks s lk))) s).

Definition acquire_exit (me : nat) (lk : lockid) (s : smp) : smp :=
  set_lock lk (SpinLock (lk_locked (locks s lk)) (Some me)) s.

Fixpoint spin (lk : lockid) (s : smp) (rounds : nat) : sres unit :=
  match rounds with
  | O => SSpin
  | S rounds' =>
      let '(got, s) := test_and_set lk s in
      if got then SOk tt s else spin lk s rounds'
  end.

Definition acquire (me : nat) (lk : lockid) (rounds : nat) (s : smp) : sres unit :=
  sbind (acquire_enter me lk s) (fun _ s =>
  sbind (spin lk s rounds) (fun _ s => SOk tt (acquire_exit me lk s))).

(** [release]: the owner field first, then the lock word, then [pop_off]. *)
Definition release_enter (me : nat) (lk : lockid) (s : smp) : sres unit :=
  if holding me lk s then SOk tt (set_lock lk (SpinLock (lk_locked (locks s lk)) None) s)
  else SPanic "release".

Definition lock_release (lk : lockid) (s : smp) : smp :=
  set_lock lk (SpinLock false (lk_cpu (locks s lk))) s.

Definition release (me : nat) (lk : lockid) (s : smp) : sres unit :=
  sbind (release_enter me lk s) (fun _ s => pop_off me (lock_release lk s)).

(** ** Interrupt nesting *)

(** [CPU c] has disabled interrupts [n] times; [e] is whether they were on before. *)
Definition nested (c : cpu) (n : Z) (e : bool) : Prop :=
  0 <= n /\ c_noff c = n /\ (if n =? 0 then c_sie c = e else c_sie c = false /\ c_intena c = e).

Lemma push_off_nested me s n e :
  nested (cpus s me) n e -> nested (cpus (push_off me s) me) (n + 1) e /\
  (forall k, k <> me -> cpus (push_off me s) k = cpus s k) /\ locks (push_off me s) = locks s.
Proof.
  intros (Hn & E & H). unfold push_off, intr_off, set_sie, intr_get, set_cpu, nested. cbn [cpus locks].
  rewrite !decide_True by done. cbn [c_sie c_noff c_intena]. rewrite E.
  split_and!; [lia|..|done].
  - by destruct (n =? 0).
  - destruct (Z.eqb_spec (n + 1) 0); [lia|]. destruct (n =? 0); cbn; [done|]. tauto.
  - intros k Hk. by rewrite !decide_False.
Qed.

Lemma pop_off_nested me s n e :
  nested (cpus s me) n e -> 0 < n -> exists s', pop_off me s = SOk tt s' /\
  nested (cpus s' me) (n - 1) e /\ (forall k, k <> me -> cpus s' k = cpus s k) /\ locks s' = locks s.
Proof.
  intros (Hn & E & H) Hp. unfold pop_off, intr_get. rewrite (proj2 (Z.eqb_neq n 0)) in H by lia.
  destruct H as [Hs He]. rewrite Hs, E, (proj2 (Z.ltb_ge _ _)) by lia.
  eexists. split; [done|]. unfold nested. rewrite He.
  destruct (Z.eqb_spec (n - 1) 0) as [E0|]; cbn [andb].
  - destruct e; unfold intr_on, set_sie, set_cpu; cbn [cpus locks]; rewrite ?decide_True by done; cbn;
      split_and!; try done; try lia; intros k Hk; by rewrite ?decide_False.
  - unfold set_cpu. cbn [cpus locks]. rewrite decide_True by done. cbn.
    split_and!; try done; try lia. intros k Hk. by rewrite decide_False.
Qed.

(** ** Interleavings *)

(** Where a CPU is: outside the locking code; in [acquire], spinning or with the
    word set and the owner not yet recorded; in [release], with the owner cleared,
    or with the word cleared as well; between a [push_off] and its [pop_off]. *)
Inductive pc :=
  | Run | Spinning (lk : lockid) | Got (lk : lockid)
  | Cleared (lk : lockid) | Released | Pushed.

#[global] Instance pc_eq_dec : EqDecision pc.
Proof. solve_decision. Defined.

Record cfg := Cfg { mach : smp; pcs : nat -> pc }.

Definition upd {A} (f : nat -> A) (c : nat) (v : A) : nat -> A :=
  fun k => if decide (k = c) then v else f k.

(** What an action does to the ownership of locks: the swap of [acquire] takes the
    lock, the clearing of the word in [release] gives it back. *)
Inductive event := EAcquire (c : nat) (lk : lockid) | ERelease (c : nat) (lk : lockid).

(** One atomic action of one CPU.  [St_switch] is the saving and restoring of
    [intena] around [swtch] in [sched]; [St_toggle] the [intr_on] and [intr_off] of
    the scheduler and the trap code, outside every [push_off]. *)
Inductive step : cfg -> list event -> cfg -> Prop :=
  | St_enter c lk m ps m' :
      ps c = Run -> acquire_enter c lk m = SOk tt m' ->
      step (Cfg m ps) [] (Cfg m' (upd ps c (Spinning lk)))
  | St_fail c lk m ps m' :
      ps c = Spinning lk -> test_and_set lk m = (false, m') -> step (Cfg m ps) [] (Cfg m' ps)
  | St_swap c lk m ps m' :
      ps c = Spinning lk -> test_and_set lk m = (true, m') ->
      step (Cfg m ps) [EAcquire c lk] (Cfg m' (upd ps c (Got lk)))
  | St_exit c lk m ps :
      ps c = Got lk -> step (Cfg m ps) [] (Cfg (acquire_exit c lk m) (upd ps c Run))
  | St_clear c lk m ps m' :
      ps c = Run -> release_enter c lk m = SOk tt m' ->
      step (Cfg m ps) [] (Cfg m' (upd ps c (Cleared lk)))
  | St_release c lk m ps :
      ps c = Cleared lk ->
      step (Cfg m ps) [ERelease c lk] (Cfg (lock_release lk m) (upd ps c Released))
  | St_pop c m ps m' :
      ps c = Released \/ ps c = Pushed -> pop_off c m = SOk tt m' ->
      step (Cfg m ps) [] (Cfg m' (upd ps c Run))
  | St_push c m ps :
      ps c = Run -> step (Cfg m ps) [] (Cfg (push_off c m) (upd ps c Pushed))
  | St_toggle c b m ps :
      ps c = Run -> c_noff (cpus m c) = 0 ->
      step (Cfg m ps) [] (Cfg (set_sie c b m) (upd ps c Run))
  | St_switch c b m ps :
      ps c = Run -> c_noff (cpus m c) = 1 ->
      step (Cfg m ps) [] (Cfg (set_cpu c (Cpu (c_sie (cpus m c)) 1 b) m) (upd ps c Run)).

Inductive runs : cfg -> list event -> cfg -> Prop :=
  | R_refl x : runs x [] x
  | R_step x tr y l z : runs x tr y -> step y l z -> runs x (tr ++ l) z.

(** Boot: every lock initialised, every CPU outside the locking code. *)
Definition boot (x : cfg) : Prop :=
  (forall lk, locks (mach x) lk = SpinLock false None) /\
  (forall c, pcs x c = Run /\ c_noff (cpus (mach x) c) = 0).

(** The abstract machine: who holds what.  A lock is taken when no CPU has it. *)
Definition holders := nat -> list lockid.

Inductive astep : holders -> list event -> holders -> Prop :=
  | A_tau h : astep h [] h
  | A_acquire c lk h : (forall k, lk ∉ h k) -> astep h [EAcquire c lk] (upd h c (lk :: h c))
  | A_release c lk h :
      lk ∈ h c -> astep h [ERelease c lk] (upd h c (filter (fun l => l <> lk) (h c))).

Inductive aruns : holders -> list event -> holders -> Prop :=
  | AR_refl h : aruns h [] h
  | AR_step h tr h1 l h2 : aruns h tr h1 -> astep h1 l h2 -> aruns h (tr ++ l) h2.

(** The depth of [push_off] that the program point adds to the locks held. *)
Definition pend (p : pc) : Z :=
  match p with Spinning _ | Released | Pushed => 1 | _ => 0 end.

Record linv (m : smp) (ps : nat -> pc) (h : holders) : Prop := {
  li_excl : forall c1 c2 lk, lk ∈ h c1 -> lk ∈ h c2 -> c1 = c2;
  li_nodup : forall c, NoDup (h c);
  li_word : forall lk, lk_locked (locks m lk) = true <-> exists c, lk ∈ h c;
  li_cpu : forall c lk, lk_cpu (locks m lk) = Some c -> lk ∈ h c;
  li_own : forall c lk, lk ∈ h c -> ps c <> Got lk -> ps c <> Cleared lk ->
             lk_cpu (locks m lk) = Some c;
  li_got : forall c lk, ps c = Got lk -> lk ∈ h c;
  li_clr : forall c lk, ps c = Cleared lk -> lk ∈ h c /\ lk_cpu (locks m lk) = None;
  li_spin : forall c lk, ps c = Spinning lk -> lk ∉ h c;
  li_off : forall c, exists e, nested (cpus m c) (Z.of_nat (length (h c)) + pend (ps c)) e
}.

Lemma upd_eq {A} (f : nat -> A) c v : upd f c v c = v.
Proof. unfold upd. by rewrite decide_True. Qed.

Lemma upd_ne {A} (f : nat -> A) c v k : k <> c -> upd f c v k = f k.
Proof. intros. unfold upd. by rewrite decide_False. Qed.

Lemma set_lock_eq lk v s : locks (set_lock lk v s) lk = v.
Proof. cbn. by rewrite decide_True. Qed.

Lemma set_lock_ne lk v s l : l <> lk -> locks (set_lock lk v s) l = locks s l.
Proof. intros. cbn. by rewrite decide_False. Qed.

(** In a reachable state [holding] tells exactly whether this CPU has the lock. *)
Lemma holding_exact m ps h c lk :
  linv m ps h -> ps c <> Got lk -> ps c <> Cleared lk -> holding c lk m = true <-> lk ∈ h c.
Proof.
  intros I Hg Hc. unfold holding. rewrite andb_true_iff, bool_decide_eq_true. split.
  - intros [_ E]. by apply (li_cpu _ _ _ I).
  - intros H. split; [apply (li_word _ _ _ I); eauto|by apply (li_own _ _ _ I)].
Qed.

(** Changing only the program point of [c] and the interrupt state. *)
Lemma linv_local m m' ps h c p :
  linv m ps h -> locks m' = locks m -> (forall lk, p <> Got lk) -> (forall lk, p <> Cleared lk) ->
  (forall lk, ps c <> Got lk) -> (forall lk, ps c <> Cleared lk) ->
  (forall lk, p = Spinning lk -> lk ∉ h c) ->
  (forall k, k <> c -> cpus m' k = cpus m k) ->
  (exists e, nested (cpus m' c) (Z.of_nat (length (h c)) + pend p) e) ->
  linv m' (upd ps c p) h.
Proof.
  intros I El Hg Hc Hg' Hc' Hsp Eo N. constructor; rewrite ?El; try apply I.
  - intros c1 lk H1 H2 H3. apply (li_own _ _ _ I); [done|..];
      destruct (decide (c1 = c)) as [->|Hn]; rewrite ?upd_ne in * by done; auto.
  - intros c1 lk H. destruct (decide (c1 = c)) as [->|Hn].
    + rewrite upd_eq in H. by destruct (Hg lk).
    + rewrite upd_ne in H by done. by apply (li_got _ _ _ I).
  - intros c1 lk H. destruct (decide (c1 = c)) as [->|Hn].
    + rewrite upd_eq in H. by destruct (Hc lk).
    + rewrite upd_ne in H by done. by apply (li_clr _ _ _ I).
  - intros c1 lk H. destruct (decide (c1 = c)) as [->|Hn].
    + rewrite upd_eq in H. by apply Hsp.
    + rewrite upd_ne in H by done. by apply (li_spin _ _ _ I).
  - intros c1. destruct (decide (c1 = c)) as [->|Hn].
    + by rewrite upd_eq.
    + rewrite upd_ne, Eo by done. apply I.
Qed.

(** Writing the owner field of a lock that CPU [c] has taken: [Some c] at the end of
    [acquire], [None] at the start of [release]. *)
Lemma linv_owner m ps h c lk o p :
  linv m ps h -> lk ∈ h c -> pend (ps c) = 0 -> pend p = 0 ->
  (forall l, l <> lk -> ps c <> Got l /\ ps c <> Cleared l) ->
  (o = Some c /\ p = Run) \/ (o = None /\ p = Cleared lk) ->
  linv (set_lock lk (SpinLock (lk_locked (locks m lk)) o) m) (upd ps c p) h.
Proof.
  intros I Hin Hp Hp' Hps Ho. constructor; try apply I.
  - intros l. destruct (decide (l = lk)) as [->|Hn].
    + rewrite set_lock_eq. apply I.
    + rewrite set_lock_ne by done. apply I.
  - intros c1 l. destruct (decide (l = lk)) as [->|Hn].
    + rewrite set_lock_eq. cbn. naive_solver.
    + rewrite set_lock_ne by done. apply I.
  - intros c1 l Hl H1 H2. destruct (decide (l = lk)) as [->|Hn].
    + assert (c1 = c) as -> by (by eapply (li_excl _ _ _ I)). rewrite upd_eq in *.
      rewrite set_lock_eq. cbn. naive_solver.
    + rewrite set_lock_ne by done. apply (li_own _ _ _ I); [done|..];
        destruct (decide (c1 = c)) as [->|Hc]; rewrite ?upd_ne in * by done; try done;
        apply (Hps l Hn).
  - intros c1 l Hl. destruct (decide (c1 = c)) as [->|Hc].
    + rewrite upd_eq in Hl. naive_solver.
    + rewrite upd_ne in Hl by done. by apply (li_got _ _ _ I).
  - intros c1 l Hl. destruct (decide (c1 = c)) as [->|Hc].
    + rewrite upd_eq in Hl. destruct Ho as [[-> ->]|[-> ->]]; [done|]. simplify_eq.
      by rewrite set_lock_eq.
    + rewrite upd_ne in Hl by done. destruct (li_clr _ _ _ I _ _ Hl) as [Hm E]. split; [done|].
      rewrite set_lock_ne; [done|]. intros ->. destruct Hc. by eapply (li_excl _ _ _ I).
  - intros c1 l Hl. destruct (decide (c1 = c)) as [->|Hc].
    + rewrite upd_eq in Hl. naive_solver.
    + rewrite upd_ne in Hl by done. by apply (li_spin _ _ _ I).
  - intros c1. destruct (decide (c1 = c)) as [->|Hc].
    + rewrite upd_eq, Hp', <- Hp. apply I.
    + rewrite upd_ne by done. apply I.
Qed.

(** A successful swap: the word was clear, so nobody had the lock. *)
Lemma linv_swap m ps h c lk :
  linv m ps h -> ps c = Spinning lk -> lk_locked (locks m lk) = false ->
  (forall k, lk ∉ h k) /\
  linv (set_lock lk (SpinLock true (lk_cpu (locks m lk))) m) (upd ps c (Got lk)) (upd h c (lk :: h c)).
Proof.
  intros I Hps Hw.
  assert (forall k, lk ∉ h k) as Hfree.
  { intros k Hk. assert (lk_locked (locks m lk) = true); [apply (li_word _ _ _ I); eauto|congruence]. }
  split; [done|].
  assert (forall k l, l <> lk -> l ∈ upd h c (lk :: h c) k <-> l ∈ h k) as Hother.
  { intros k l Hn. unfold upd. case_decide; subst; set_solver. }
  assert (forall k, lk ∈ upd h c (lk :: h c) k <-> k = c) as Hlk.
  { intros k. unfold upd. case_decide; subst; set_solver. }
  constructor.
  - intros c1 c2 l H1 H2. destruct (decide (l = lk)) as [->|Hn].
    + rewrite Hlk in *. congruence.
    + rewrite Hother in * by done. by eapply (li_excl _ _ _ I).
  - intros k. unfold upd. case_decide; subst; [|apply I]. constructor; [apply Hfree|apply I].
  - intros l. destruct (decide (l = lk)) as [->|Hn].
    + rewrite set_lock_eq. cbn. split; [|done]. intros _. exists c. by apply Hlk.
    + rewrite set_lock_ne by done. rewrite (li_word _ _ _ I).
      split; intros [k Hk]; exists k; by apply Hother.
  - intros k l. destruct (decide (l = lk)) as [->|Hn].
    + rewrite set_lock_eq. cbn. intros E. by apply (li_cpu _ _ _ I), Hfree in E.
    + rewrite set_lock_ne, Hother by done. apply I.
  - intros k l Hk H1 H2. destruct (decide (l = lk)) as [->|Hn].
    + apply Hlk in Hk as ->. by rewrite upd_eq in H1.
    + rewrite set_lock_ne by done. apply Hother in Hk; [|done].
      apply (li_own _ _ _ I); [done|..];
        (destruct (decide (k = c)) as [->|Hc]; [rewrite Hps; congruence|by rewrite upd_ne in * by done]).
  - intros k l H. destruct (decide (k = c)) as [->|Hc].
    + rewrite upd_eq in H. simplify_eq. by apply Hlk.
    + rewrite upd_ne in H by done. rewrite upd_ne by done. by apply (li_got _ _ _ I).
  - intros k l H. destruct (decide (k = c)) as [->|Hc]; [by rewrite upd_eq in H|].
    rewrite upd_ne in H by done. rewrite upd_ne by done.
    destruct (li_clr _ _ _ I _ _ H) as [Hm E]. split; [done|].
    rewrite set_lock_ne; [done|]. intros ->. by eapply Hfree.
  - intros k l H. destruct (decide (k = c)) as [->|Hc]; [by rewrite upd_eq in H|].
    rewrite upd_ne in H by done. rewrite upd_ne by done. by apply (li_spin _ _ _ I).
  - intros k. cbn [cpus set_lock]. destruct (decide (k = c)) as [->|Hc].
    + rewrite !upd_eq. destruct (li_off _ _ _ I c) as [e N]. exists e. rewrite Hps in N. cbn [pend length] in *.
      by replace (Z.of_nat (S (length (h c))) + 0) with (Z.of_nat (length (h c)) + 1) by lia.
    + rewrite !upd_ne by done. apply I.
Qed.

(** Clearing the word: the lock leaves this CPU's set, and the depth of [push_off]
    it accounted for is the one of the pending [pop_off]. *)
Lemma length_filter_ne (lk : lockid) l :
  NoDup l -> lk ∈ l -> S (length (filter (fun x => x <> lk) l)) = length l.
Proof.
  induction 1 as [|x l Hx Hl IH]; [by intros ?%not_elem_of_nil|].
  intros H. rewrite filter_cons. destruct (decide (x = lk)) as [->|Hn].
  - rewrite decide_False by naive_solver. cbn. by rewrite filter_ne_id.
  - rewrite decide_True by done. apply elem_of_cons in H as [->|H]; [done|]. cbn. by rewrite IH.
Qed.

Lemma linv_release m ps h c lk :
  linv m ps h -> ps c = Cleared lk ->
  linv (lock_release lk m) (upd ps c Released) (upd h c (filter (fun l => l <> lk) (h c))).
Proof.
  intros I Hps. destruct (li_clr _ _ _ I _ _ Hps) as [Hin Hcpu].
  set (h' := upd h c (filter (fun l => l <> lk) (h c))).
  assert (forall k l, l <> lk -> l ∈ h' k <-> l ∈ h k) as Hother.
  { intros k l Hn. unfold h', upd. case_decide; subst; [|done]. rewrite list_elem_of_filter. tauto. }
  assert (forall k, lk ∉ h' k) as Hlk.
  { intros k. unfold h', upd. case_decide as E.
    - rewrite list_elem_of_filter. tauto.
    - intros Hk. apply E. by eapply (li_excl _ _ _ I). }
  assert (forall k l, l ∈ h' k -> l <> lk /\ l ∈ h k) as Hsub.
  { intros k l H. destruct (decide (l = lk)) as [->|Hn]; [by apply Hlk in H|]. split; [done|].
    by apply Hother. }
  unfold lock_release. rewrite Hcpu. constructor.
  - intros c1 c2 l [_ H1]%Hsub [_ H2]%Hsub. by eapply (li_excl _ _ _ I).
  - intros k. unfold h', upd. case_decide; subst; [apply NoDup_filter|]; apply I.
  - intros l. destruct (decide (l = lk)) as [->|Hn].
    + rewrite set_lock_eq. cbn. split; [done|]. intros [k Hk]. by apply Hlk in Hk.
    + rewrite set_lock_ne by done. rewrite (li_word _ _ _ I).
      split; intros [k Hk]; exists k; by apply Hother.
  - intros k l. destruct (decide (l = lk)) as [->|Hn]; [by rewrite set_lock_eq|].
    rewrite set_lock_ne, Hother by done. apply I.
  - intros k l [Hn Hk]%Hsub H1 H2. rewrite set_lock_ne by done.
    apply (li_own _ _ _ I); [done|..];
      (destruct (decide (k = c)) as [->|Hc]; [rewrite Hps; congruence|by rewrite upd_ne in * by done]).
  - intros k l H. destruct (decide (k = c)) as [->|Hc]; [by rewrite upd_eq in H|].
    rewrite upd_ne in H by done. unfold h'. rewrite upd_ne by done. by apply (li_got _ _ _ I).
  - intros k l H. destruct (decide (k = c)) as [->|Hc]; [by rewrite upd_eq in H|].
    rewrite upd_ne in H by done. unfold h'. rewrite upd_ne by done.
    destruct (li_clr _ _ _ I _ _ H) as [Hm E]. split; [done|].
    rewrite set_lock_ne; [done|]. intros ->. destruct Hc. by eapply (li_excl _ _ _ I).
  - intros k l H. destruct (decide (k = c)) as [->|Hc]; [by rewrite upd_eq in H|].
    rewrite upd_ne in H by done. unfold h'. rewrite upd_ne by done. by apply (li_spin _ _ _ I).
  - intros k. cbn [cpus set_lock]. destruct (decide (k = c)) as [->|Hc].
    + unfold h'. rewrite !upd_eq. destruct (li_off _ _ _ I c) as [e N]. exists e. rewrite Hps in N.
      cbn [pend] in *. pose proof (length_filter_ne lk (h c) (li_nodup _ _ _ I c) Hin).
      by replace (Z.of_nat (length (filter (fun l => l <> lk) (h c))) + 1)
        with (Z.of_nat (length (h c)) + 0) by lia.
    + unfold h'. rewrite !upd_ne by done. apply I.
Qed.

(** ** Simulation *)

Lemma acquire_enter_ok c lk m m' :
  acquire_enter c lk m = SOk tt m' -> m' = push_off c m /\ holding c lk m = false.
Proof.
  unfold acquire_enter. intros H.
  replace (holding c lk (push_off c m)) with (holding c lk m) in H by done.
  destruct (holding c lk m); by simplify_eq.
Qed.

Lemma linv_sim m ps h l y :
  linv m ps h -> step (Cfg m ps) l y ->
  exists h', astep h l h' /\ linv (mach y) (pcs y) h'.
Proof.
  intros I S. inversion S; subst; cbn [mach pcs].
  - match goal with H : acquire_enter _ _ _ = _ |- _ => apply acquire_enter_ok in H as [-> Hh] end.
    exists h. split; [constructor|]. destruct (li_off _ _ _ I c) as [e N].
    destruct (push_off_nested c m _ e N) as (N' & Ho & El).
    eapply linv_local; try done; try congruence.
    + intros lk' [= <-] Hin. apply (holding_exact _ _ _ _ _ I) in Hin; congruence.
    + exists e. cbn [pend]. replace (ps c) with Run in N'. cbn [pend] in N'.
      by replace (Z.of_nat (length (h c)) + 1) with (Z.of_nat (length (h c)) + 0 + 1) by lia.
  - match goal with H : test_and_set _ _ = _ |- _ => unfold test_and_set in H; injection H as Hw <- end.
    exists h. split; [constructor|]. apply negb_false_iff in Hw. rewrite <- Hw.
    replace (SpinLock _ _) with (locks m lk) by by destruct (locks m lk).
    constructor; try apply I; intros *; cbn [locks set_lock]; case_decide; subst; apply I.
  - match goal with H : test_and_set _ _ = _ |- _ => unfold test_and_set in H; injection H as Hw <- end.
    apply negb_true_iff in Hw. destruct (linv_swap m ps h c lk) as [Hf I']; [done..|].
    eexists. split; [by constructor|done].
  - exists h. split; [constructor|]. unfold acquire_exit.
    match goal with H : ps c = _ |- _ => rename H into E end.
    eapply linv_owner; try done; rewrite ?E; try done; [by apply (li_got _ _ _ I)|..|naive_solver].
    intros l' Hn. split; congruence.
  - exists h. split; [constructor|].
    match goal with H : ps c = _ |- _ => rename H into E end.
    match goal with H : release_enter _ _ _ = _ |- _ => unfold release_enter in H end.
    destruct (holding c lk m) eqn:Hh; [|done]. simplify_eq.
    eapply linv_owner; try done; rewrite ?E; try done; [|naive_solver].
    apply (holding_exact _ _ _ _ _ I) in Hh; congruence.
  - eexists. split; [|by apply linv_release]. constructor. by eapply (li_clr _ _ _ I).
  - match goal with H : _ \/ _ |- _ => rename H into E end. destruct (li_off _ _ _ I c) as [e N].
    replace (pend (ps c)) with 1 in N by by destruct E as [-> | ->].
    destruct (pop_off_nested c m _ e N) as (m1 & E1 & N' & Ho & El); [lia|].
    assert (m1 = m') as -> by congruence.
    exists h. split; [constructor|]. eapply linv_local; try done; try (intros; destruct E; congruence).
    exists e. cbn [pend].
    by replace (Z.of_nat (length (h c)) + 0) with (Z.of_nat (length (h c)) + 1 - 1) by lia.
  - match goal with H : ps c = _ |- _ => rename H into E end. destruct (li_off _ _ _ I c) as [e N].
    destruct (push_off_nested c m _ e N) as (N' & Ho & El).
    exists h. split; [constructor|]. eapply linv_local; try done; try congruence.
    exists e. rewrite E in N'. cbn [pend] in *.
    by replace (Z.of_nat (length (h c)) + 1) with (Z.of_nat (length (h c)) + 0 + 1) by lia.
  - match goal with H : ps c = _ |- _ => rename H into E end. destruct (li_off _ _ _ I c) as [e N].
    exists h. split; [constructor|]. eapply linv_local; try done; try congruence.
    + intros k Hk. cbn. by rewrite decide_False.
    + exists b. rewrite E in N. destruct N as (_ & N & _). cbn [pend] in *.
      unfold nested. cbn. rewrite decide_True by done. cbn. rewrite <- N.
      match goal with H : c_noff _ = 0 |- _ => rewrite H end. done.
  - match goal with H : ps c = _ |- _ => rename H into E end. destruct (li_off _ _ _ I c) as [e N].
    exists h. split; [constructor|]. eapply linv_local; try done; try congruence.
    + intros k Hk. cbn. by rewrite decide_False.
    + exists b. rewrite E in N. destruct N as (_ & N & Ns). cbn [pend] in *.
      match goal with H : c_noff _ = 1 |- _ => rewrite N in H; rewrite H in Ns |- * end.
      unfold nested. cbn. rewrite decide_True by done. cbn. split_and!; try done; apply Ns.
Qed.

Lemma linv_boot x : boot x -> linv (mach x) (pcs x) (fun _ => []).
Proof.
  intros [Hl Hc]. constructor; intros *; rewrite ?Hl, ?(proj1 (Hc _)); cbn; try set_solver.
  - constructor.
  - exists (c_sie (cpus (mach x) c)). unfold nested. by rewrite (proj2 (Hc c)).
Qed.

Lemma runs_sim x tr y :
  boot x -> runs x tr y -> exists h, aruns (fun _ => []) tr h /\ linv (mach y) (pcs y) h.
Proof.
  intros Hb. induction 1 as [|x tr y l z _ IH Hs].
  - exists (fun _ => []). split; [constructor|by apply linv_boot].
  - destruct (IH Hb) as (h & Ha & I). destruct y as [m ps].
    destruct (linv_sim _ _ _ _ _ I Hs) as (h' & Ha' & I'). exists h'. split; [|done].
    by econstructor.
Qed.

(** ** What callers rely on *)

(** CPU [c] is inside the critical section of [lk]: from the swap that took it to the
    clearing of its word. *)
Definition inside (x : cfg) (c : nat) (lk : lockid) : Prop :=
  pcs x c = Got lk \/ holding c lk (mach x) = true \/ pcs x c = Cleared lk.

Lemma inside_held x h c lk : linv (mach x) (pcs x) h -> inside x c lk -> lk ∈ h c.
Proof.
  intros I [H|[H|H]]; [by apply (li_got _ _ _ I)| |by apply (li_clr _ _ _ I)].
  unfold holding in H. apply andb_true_iff in H as [_ H%bool_decide_eq_true].
  by apply (li_cpu _ _ _ I).
Qed.

(** Two CPUs, both with interrupts on: CPU 0 takes the page allocator's lock, then
    CPU 1 enters [acquire] for it. *)
Definition start : cfg := Cfg (Smp (fun _ => Cpu true 0 false) (fun _ => SpinLock false None)) (fun _ => Run).
Definition taken : smp :=
  acquire_exit 0 LkKmem (snd (test_and_set LkKmem (push_off 0 (mach start)))).
Definition contended : cfg :=
  Cfg (push_off 1 taken)
    (upd (upd (upd (upd (pcs start) 0%nat (Spinning LkKmem)) 0%nat (Got LkKmem)) 0%nat Run)
       1%nat (Spinning LkKmem)).

Lemma start_boot : boot start.
Proof. done. Qed.

Lemma contended_runs : runs start [EAcquire 0 LkKmem] contended.
Proof.
  change [EAcquire 0 LkKmem] with (((([] ++ []) ++ [EAcquire 0 LkKmem]) ++ []) ++ []).
  eapply R_step; [eapply R_step; [eapply R_step; [eapply R_step; [apply R_refl|]|]|]|].
  - by eapply (St_enter 0 LkKmem).
  - by eapply (St_swap 0 LkKmem).
  - by eapply (St_exit 0 LkKmem).
  - by eapply (St_enter 1 LkKmem).
Qed.

(** C5: mutual exclusion.  In every interleaving of the CPUs' atomic actions from
    boot, at most one CPU is between the swap that takes a spinlock and the clearing
    of its word, and it runs with interrupts disabled and a positive [noff]. *)
Theorem spinlock_mutual_exclusion x tr y c1 c2 lk :
  boot x -> runs x tr y -> inside y c1 lk -> inside y c2 lk ->
  c1 = c2 /\ c_sie (cpus (mach y) c1) = false /\ 0 < c_noff (cpus (mach y) c1).
Proof.
  intros Hb Hr H1 H2. destruct (runs_sim x tr y Hb Hr) as (h & _ & I).
  apply (inside_held _ _ _ _ I) in H1, H2. split; [by eapply (li_excl _ _ _ I)|].
  destruct (li_off _ _ _ I c1) as (e & Hn & E & N).
  assert (0 < length (h c1))%nat by (destruct (h c1); [set_solver|cbn; lia]).
  assert (0 <= pend (pcs y c1)) by (destruct (pcs y c1); cbn; lia).
  rewrite (proj2 (Z.eqb_neq _ 0)) in N by lia. split; [apply N|lia].
Qed.

Lemma spinlock_mutual_exclusion_witness :
  0%nat = 0%nat /\ c_sie (cpus (mach contended) 0) = false /\ 0 < c_noff (cpus (mach contended) 0).
Proof.
  apply (spinlock_mutual_exclusion start [EAcquire 0 LkKmem] contended 0 0 LkKmem
           start_boot contended_runs); right; left; reflexivity.
Defined.

(** C13: the locking code refines the [acquire] and [release] the other components
    are verified with.  The sequence of acquisitions and releases of any
    interleaving is one of the abstract machine, in which a lock is taken only when
    no CPU has it; and a CPU about to call [acquire] or [release] panics exactly
    when the abstract operation does on the locks the abstract machine gives it. *)
Theorem spinlock_refines x tr y :
  boot x -> runs x tr y ->
  exists h, aruns (fun _ => []) tr h /\
  forall c lk s, pcs y c = Run -> held s = h c ->
    (Types.acquire lk s = Panic "acquire" <-> acquire_enter c lk (mach y) = SPanic "acquire") /\
    (Types.release lk s = Panic "release" <-> release_enter c lk (mach y) = SPanic "release").
Proof.
  intros Hb Hr. destruct (runs_sim x tr y Hb Hr) as (h & Ha & I). exists h. split; [done|].
  intros c lk s Hc Hs.
  assert (Types.holding lk s = holding c lk (mach y)) as E.
  { unfold Types.holding. rewrite Hs. apply eq_bool_prop_intro.
    rewrite bool_decide_spec, Is_true_true. symmetry. apply (holding_exact _ _ _ _ _ I); congruence. }
  unfold Types.acquire, Types.release, acquire_enter, release_enter.
  replace (holding c lk (push_off c (mach y))) with (holding c lk (mach y)) by done.
  rewrite E. by destruct (holding c lk (mach y)).
Qed.

Lemma spinlock_refines_witness :
  exists h, aruns (fun _ => []) [EAcquire 0 LkKmem] h /\
  forall c lk s, pcs contended c = Run -> held s = h c ->
    (Types.acquire lk s = Panic "acquire" <-> acquire_enter c lk (mach contended) = SPanic "acquire") /\
    (Types.release lk s = Panic "release" <-> release_enter c lk (mach contended) = SPanic "release").
Proof. exact (spinlock_refines start _ contended start_boot contended_runs). Defined.

(** no lock is lost.  A CPU that spins on a lock gets it with its next swap,
    unless another CPU is inside the critical section; a CPU that has given the lock
    up returns from [release], and one that has taken it returns from [acquire]. *)
Theorem spinlock_progress x tr y c :
  boot x -> runs x tr y ->
  match pcs y c with
  | Run => True
  | Spinning lk =>
      (exists z, step y [EAcquire c lk] z /\ inside z c lk) \/ exists k, k <> c /\ inside y k lk
  | Got lk => exists z, step y [] z /\ pcs z c = Run /\ holding c lk (mach z) = true
  | Cleared lk => exists z, step y [ERelease c lk] z /\ forall k, ~ inside z k lk
  | Released | Pushed => exists z, step y [] z /\ pcs z c = Run
  end.
Proof.
  intros Hb Hr. destruct (runs_sim x tr y Hb Hr) as (h & _ & I). destruct y as [m ps]. cbn [mach pcs] in *.
  destruct (ps c) as [|lk|lk|lk| |] eqn:E; [done|..].
  - destruct (lk_locked (locks m lk)) eqn:Hw.
    + right. apply (li_word _ _ _ I) in Hw as [k Hk]. exists k. unfold inside. cbn [mach pcs]. split.
      * intros ->. by eapply (li_spin _ _ _ I).
      * destruct (decide (ps k = Got lk)); [by left|].
        destruct (decide (ps k = Cleared lk)); [by right; right|].
        right; left. by apply (holding_exact _ _ _ _ _ I).
    + left. eexists. split.
      * eapply St_swap; [done|]. unfold test_and_set. by rewrite Hw.
      * left. cbn. apply upd_eq.
  - eexists. split; [by eapply St_exit|]. cbn [pcs mach]. rewrite upd_eq. split; [done|].
    unfold holding, acquire_exit. rewrite set_lock_eq. cbn.
    rewrite bool_decide_eq_true_2 by done. rewrite andb_true_r.
    apply (li_word _ _ _ I). exists c. by apply (li_got _ _ _ I).
  - eexists. split; [by eapply St_release|]. intros k Hk.
    eapply (inside_held (Cfg _ _)) in Hk; [|exact (linv_release _ _ _ _ _ I E)].
    unfold upd in Hk. case_decide as Ek; [apply list_elem_of_filter in Hk; tauto|].
    destruct Ek. eapply (li_excl _ _ _ I); [done|]. by apply (li_clr _ _ _ I).
  - destruct (li_off _ _ _ I c) as [e N]. rewrite E in N.
    destruct (pop_off_nested c m _ e N) as (m1 & E1 & _); [cbn; lia|].
    eexists. split; [by eapply St_pop; [left|]|]. apply upd_eq.
  - destruct (li_off _ _ _ I c) as [e N]. rewrite E in N.
    destruct (pop_off_nested c m _ e N) as (m1 & E1 & _); [cbn; lia|].
    eexists. split; [by eapply St_pop; [right|]|]. apply upd_eq.
Qed.

Lemma spinlock_progress_witness :
  (exists z, step contended [EAcquire 1 LkKmem] z /\ inside z 1 LkKmem) \/
  exists k, k <> 1%nat /\ inside contended k LkKmem.
Proof. exact (spinlock_progress start _ contended 1 start_boot contended_runs). Defined.
