(* ===== verification/Ring.v ===== *)
(** Ring buffers: an array used with two free-running indices, as the pipe, the
    console's input buffer and the UART's transmit buffer do.  The indices wrap at
    the width of their C type, which is a multiple of the array's length; [ring]
    is the sequence of bytes between them. *)
From S2P Require Import Prelude.

Definition rget (data : list Z) (i : Z) : Z := nth (Z.to_nat (i mod Z.of_nat (length data))) data 0.
Definition rset (data : list Z) (i v : Z) : list Z :=
  <[Z.to_nat (i mod Z.of_nat (length data)) := v]> data.

(** The [k] bytes that start at index [r]. *)
Fixpoint ring (data : list Z) (r : Z) (k : nat) : list Z :=
  match k with
  | O => []
  | S k' => rget data r :: ring data (r + 1) k'
  end.

Lemma length_rset data i v : length (rset data i v) = length data.
Proof. apply length_insert. Qed.

Lemma length_ring data r k : length (ring data r k) = k.
Proof. revert r. induction k as [|k IH]; intros r; cbn; [done|by rewrite IH]. Qed.

Lemma rget_rset data i j v :
  0 < Z.of_nat (length data) ->
  rget (rset data i v) j =
    if decide (i mod Z.of_nat (length data) = j mod Z.of_nat (length data)) then v else rget data j.
Proof.
  intros Hn. unfold rget. rewrite length_rset. unfold rset.
  pose proof (Z.mod_pos_bound i _ Hn). pose proof (Z.mod_pos_bound j _ Hn).
  case_decide as E.
  - rewrite E. apply nth_lookup_Some, list_lookup_insert_eq. lia.
  - rewrite !nth_lookup, list_lookup_insert_ne; [done|]. intros ?. apply E. lia.
Qed.

(** Only the index modulo the length matters. *)
Lemma rget_mod data i j :
  i mod Z.of_nat (length data) = j mod Z.of_nat (length data) -> rget data i = rget data j.
Proof. unfold rget. by intros ->. Qed.

Lemma ring_mod data i j k :
  i mod Z.of_nat (length data) = j mod Z.of_nat (length data) -> ring data i k = ring data j k.
Proof.
  revert i j. induction k as [|k IH]; intros i j H; [done|]. cbn. rewrite (rget_mod _ _ _ H).
  f_equal. apply IH. by rewrite (Zplus_mod i), (Zplus_mod j), H.
Qed.

Lemma ring_snoc data r k : ring data r (S k) = ring data r k ++ [rget data (r + Z.of_nat k)].
Proof.
  revert r. induction k as [|k IH]; intros r.
  - cbn. by rewrite Z.add_0_r.
  - change (ring data r (S (S k))) with (rget data r :: ring data (r + 1) (S k)).
    rewrite IH. cbn [ring app]. by replace (r + 1 + Z.of_nat k) with (r + Z.of_nat (S k)) by lia.
Qed.

(** Writing outside the [k] bytes leaves them. *)
Lemma ring_rset data r k v :
  (k < length data)%nat -> ring (rset data (r + Z.of_nat k) v) r k = ring data r k.
Proof.
  intros Hk. assert (forall j m, (j + m <= k)%nat ->
    ring (rset data (r + Z.of_nat k) v) (r + Z.of_nat j) m = ring data (r + Z.of_nat j) m) as H.
  { intros j m. revert j. induction m as [|m IH]; intros j Hj; [done|]. cbn. f_equal.
    - rewrite rget_rset by lia. rewrite decide_False; [done|]. intros E.
      assert ((Z.of_nat k - Z.of_nat j) mod Z.of_nat (length data) = 0) as E'.
      { replace (Z.of_nat k - Z.of_nat j) with ((r + Z.of_nat k) - (r + Z.of_nat j)) by lia.
        rewrite Zminus_mod, E, Z.sub_diag. by apply Z.mod_0_l; lia. }
      rewrite Z.mod_small in E' by lia. lia.
    - replace (r + Z.of_nat j + 1) with (r + Z.of_nat (S j)) by lia. apply IH. lia. }
  specialize (H 0%nat k). rewrite Z.add_0_r in H. apply H. lia.
Qed.

(** Putting a byte behind the [k] that are there. *)
Lemma ring_put data r k w v :
  (k < length data)%nat -> w mod Z.of_nat (length data) = (r + Z.of_nat k) mod Z.of_nat (length data) ->
  ring (rset data w v) r (S k) = ring data r k ++ [v].
Proof.
  intros Hk Hw. replace (rset data w v) with (rset data (r + Z.of_nat k) v) by by unfold rset; rewrite Hw.
  rewrite ring_snoc, ring_rset by done. f_equal. f_equal. rewrite rget_rset by lia.
  by rewrite decide_True.
Qed.

(** Indices that wrap at [2^e]: the distance between them. *)
Lemma wrap_mod n e i : (n | 2 ^ e) -> (i mod 2 ^ e) mod n = i mod n.
Proof. apply Z.mod_mod_divide. Qed.

(** ** Queues

    The bytes between two indices that wrap at [2^e]. *)

Definition dist (e a b : Z) : nat := Z.to_nat ((a - b) mod 2 ^ e).
Definition in_width (e a : Z) : Prop := 0 <= a < 2 ^ e.
Definition queue (e : Z) (data : list Z) (r w : Z) : list Z := ring data r (dist e w r).

Section Queue.
Context (e : Z) (He : 0 < 2 ^ e).

Lemma wrap_range a : in_width e (a mod 2 ^ e).
Proof. by apply Z.mod_pos_bound. Qed.

Lemma dist_refl a : dist e a a = 0%nat.
Proof. unfold dist. by rewrite Z.sub_diag. Qed.

Lemma dist_0 a b : in_width e a -> in_width e b -> dist e a b = 0%nat <-> a = b.
Proof.
  unfold dist, in_width. intros Ha Hb. pose proof (Z.mod_pos_bound (a - b) (2 ^ e) He).
  split; [intros Hd|intros ->; by rewrite Z.sub_diag].
  assert (E : (a - b) mod 2 ^ e = 0) by lia. apply Z.mod_divide in E as [k E]; [|lia].
  generalize dependent (2 ^ e). intros M.
  intros. destruct (Z.lt_trichotomy k 0) as [|[|]]; nia.
Qed.

Lemma dist_inj a a' b : in_width e a -> in_width e a' -> dist e a b = dist e a' b -> a = a'.
Proof.
  intros Ha Ha' E. apply (dist_0 a a'); [done..|]. unfold dist in *.
  pose proof (Z.mod_pos_bound (a - b) (2 ^ e) He). pose proof (Z.mod_pos_bound (a' - b) (2 ^ e) He).
  replace (a - a') with ((a - b) - (a' - b)) by lia. rewrite Zminus_mod.
  replace ((a - b) mod 2 ^ e) with ((a' - b) mod 2 ^ e) by lia. by rewrite Z.sub_diag.
Qed.

Lemma dist_mod_l a b : dist e (a mod 2 ^ e) b = dist e a b.
Proof. unfold dist. by rewrite Zminus_mod_idemp_l. Qed.

Lemma dist_mod_r a b : dist e a (b mod 2 ^ e) = dist e a b.
Proof. unfold dist. by rewrite Zminus_mod_idemp_r. Qed.

(** The distance after a step of one of the indices. *)
Lemma dist_succ a b k d : dist e a b = k -> 0 <= Z.of_nat k + d < 2 ^ e ->
  dist e (a + d) b = Z.to_nat (Z.of_nat k + d).
Proof.
  unfold dist. intros Hk Hd. pose proof (Z.mod_pos_bound (a - b) (2 ^ e) He).
  replace (a + d - b) with ((a - b) + d) by lia. rewrite <- Zplus_mod_idemp_l.
  rewrite Z.mod_small by lia. lia.
Qed.

Lemma dist_range a b : Z.of_nat (dist e a b) < 2 ^ e.
Proof. unfold dist. pose proof (Z.mod_pos_bound (a - b) (2 ^ e) He). lia. Qed.

Lemma dist_eq a b : (b + Z.of_nat (dist e a b)) mod 2 ^ e = a mod 2 ^ e.
Proof.
  unfold dist. pose proof (Z.mod_pos_bound (a - b) (2 ^ e) He). rewrite Z2Nat.id by lia.
  rewrite Zplus_mod_idemp_r. f_equal. lia.
Qed.

Lemma length_queue data r w : length (queue e data r w) = dist e w r.
Proof. apply length_ring. Qed.

Lemma queue_nil data r w : in_width e r -> in_width e w -> queue e data r w = [] <-> r = w.
Proof.
  intros Hr Hw. split.
  - intros H%(f_equal length). rewrite length_queue in H. symmetry. by apply dist_0.
  - intros ->. unfold queue. by rewrite dist_refl.
Qed.

Context (data : list Z) (Hdiv : (Z.of_nat (length data) | 2 ^ e))
  (Hlt : Z.of_nat (length data) < 2 ^ e).

Lemma index_eq r w : (r + Z.of_nat (dist e w r)) mod Z.of_nat (length data) = w mod Z.of_nat (length data).
Proof.
  rewrite <- (wrap_mod _ e _ Hdiv), dist_eq. by apply wrap_mod.
Qed.

Lemma queue_take r w : in_width e r -> in_width e w -> r <> w ->
  queue e data r w = rget data r :: queue e data ((r + 1) mod 2 ^ e) w.
Proof.
  intros Hr Hw Hn. unfold queue. destruct (dist e w r) as [|k] eqn:E.
  { apply dist_0 in E; [|done..]. congruence. }
  rewrite dist_mod_r. replace (dist e w (r + 1)) with k.
  - cbn. f_equal. apply ring_mod. by rewrite wrap_mod.
  - unfold dist. replace (w - (r + 1)) with (w + -1 - r) by lia. change (k = dist e (w + -1) r).
    pose proof (dist_range w r). rewrite (dist_succ _ _ _ _ E) by lia. lia.
Qed.

Lemma queue_put r w v : (dist e w r < length data)%nat ->
  queue e (rset data w v) r ((w + 1) mod 2 ^ e) = queue e data r w ++ [v].
Proof.
  intros Hk. unfold queue. rewrite dist_mod_l, (dist_succ _ _ _ 1 eq_refl) by lia.
  replace (Z.to_nat (Z.of_nat (dist e w r) + 1)) with (S (dist e w r)) by lia.
  apply ring_put; [done|]. symmetry. apply index_eq.
Qed.

(** Taking back the last byte. *)
Lemma queue_unput r w : in_width e r -> in_width e w -> r <> w ->
  queue e data r w = queue e data r ((w - 1) mod 2 ^ e) ++ [rget data ((w - 1) mod 2 ^ e)].
Proof.
  intros Hr Hw Hn. unfold queue. pose proof (dist_range w r). rewrite dist_mod_l.
  destruct (dist e w r) as [|k] eqn:E.
  { apply dist_0 in E; [|done..]. congruence. }
  replace (dist e (w - 1) r) with k.
  2: { change (k = dist e (w + -1) r). rewrite (dist_succ _ _ _ _ E) by lia. lia. }
  rewrite ring_snoc. f_equal. f_equal. apply rget_mod. rewrite wrap_mod by done.
  replace (r + Z.of_nat k) with (r + Z.of_nat (dist e w r) - 1) by lia.
  rewrite Zminus_mod, index_eq. by rewrite <- Zminus_mod.
Qed.

End Queue.
