(* ===== verification/Riscv.v ===== *)
(** Facts about the page-size and page-table-entry macros of [riscv.h]: rounding,
    the round trip between physical addresses and page-table entries, and the
    decomposition of a virtual address into its three table indices. *)
From S2P Require Import Prelude Types.

Lemma PGROUNDUP_eq sz :
  0 <= sz -> sz + 4095 < 2 ^ 64 -> PGROUNDUP sz = (sz + 4095) / 4096 * 4096.
Proof.
  intros. unfold PGROUNDUP. rewrite u64_small by lia.
  change (- PGSIZE) with (- 2 ^ 12). rewrite land_opp_pow2 by lia.
  by replace (sz + 4096 - 1) with (sz + 4095) by lia.
Qed.

Lemma PGROUNDDOWN_eq a : PGROUNDDOWN a = a / 4096 * 4096.
Proof.
  unfold PGROUNDDOWN. change (- PGSIZE) with (- 2 ^ 12). by rewrite land_opp_pow2 by lia.
Qed.

Lemma PGROUNDUP_aligned sz : PGROUNDUP sz mod PGSIZE = 0.
Proof.
  unfold PGROUNDUP. change (- PGSIZE) with (- 2 ^ 12). rewrite land_opp_pow2 by lia.
  apply Z.mod_mul. lia.
Qed.

Lemma PGROUNDUP_id sz : 0 <= sz < 2 ^ 63 -> sz mod PGSIZE = 0 -> PGROUNDUP sz = sz.
Proof. intros. rewrite PGROUNDUP_eq by lia. Z.div_mod_to_equations. lia. Qed.

Lemma PGROUNDUP_range sz :
  0 <= sz < 2 ^ 63 -> sz <= PGROUNDUP sz < sz + PGSIZE.
Proof. intros. rewrite PGROUNDUP_eq by lia. Z.div_mod_to_equations. lia. Qed.

Lemma PGROUNDDOWN_range a : PGROUNDDOWN a <= a < PGROUNDDOWN a + PGSIZE.
Proof. rewrite PGROUNDDOWN_eq. Z.div_mod_to_equations. lia. Qed.

Lemma PGROUNDDOWN_aligned a : PGROUNDDOWN a mod PGSIZE = 0.
Proof. rewrite PGROUNDDOWN_eq. apply Z.mod_mul. lia. Qed.

(** ** Page-table entries *)

(** An entry made from a page address and flags that fit in ten bits. *)
Lemma mk_pte_eq pa fl :
  0 <= pa < 2 ^ 54 -> pa mod PGSIZE = 0 -> 0 <= fl < 1024 ->
  Z.lor (PA2PTE pa) fl = pa / 4096 * 1024 + fl.
Proof.
  intros Hpa Hal Hfl. unfold PA2PTE.
  rewrite Z.shiftl_mul_pow2, Z.shiftr_div_pow2 by lia.
  change (2 ^ 12) with 4096. change (2 ^ 10) with 1024.
  assert (0 <= pa / 4096 < 2 ^ 42).
  { split; [apply Z.div_pos; lia|]. apply Z.div_lt_upper_bound; lia. }
  rewrite u64_small by lia.
  apply (lor_disjoint_add _ _ 10); [lia| |lia].
  change (2 ^ 10) with 1024. apply Z.mod_mul. lia.
Qed.

Lemma PTE2PA_mk pa fl :
  0 <= pa < 2 ^ 54 -> pa mod PGSIZE = 0 -> 0 <= fl < 1024 ->
  PTE2PA (Z.lor (PA2PTE pa) fl) = pa.
Proof.
  intros Hpa Hal Hfl. rewrite mk_pte_eq by done. unfold PTE2PA.
  rewrite Z.shiftl_mul_pow2, Z.shiftr_div_pow2 by lia.
  change (2 ^ 12) with 4096. change (2 ^ 10) with 1024.
  rewrite Z.div_add_l, (Z.div_small fl), Z.add_0_r by lia.
  assert (pa / 4096 * 4096 = pa) as -> by (Z.div_mod_to_equations; lia).
  apply u64_small. lia.
Qed.

Lemma land_low_mk pa fl x :
  0 <= pa < 2 ^ 54 -> pa mod PGSIZE = 0 -> 0 <= fl < 1024 -> 0 <= x < 1024 ->
  Z.land (Z.lor (PA2PTE pa) fl) x = Z.land fl x.
Proof.
  intros Hpa Hal Hfl Hx. rewrite mk_pte_eq by done.
  assert (Hlow : Z.land (pa / 4096 * 1024 + fl) (Z.ones 10) = fl).
  { rewrite Z.land_ones by lia. change (2 ^ 10) with 1024.
    rewrite Z.add_comm, Z_mod_plus_full. by apply Z.mod_small. }
  assert (Hx' : Z.land (Z.ones 10) x = x).
  { rewrite Z.land_comm, Z.land_ones by lia. apply Z.mod_small. lia. }
  rewrite <- Hx' at 1. by rewrite Z.land_assoc, Hlow.
Qed.

Lemma has_mk pa fl x :
  0 <= pa < 2 ^ 54 -> pa mod PGSIZE = 0 -> 0 <= fl < 1024 -> 0 <= x < 1024 ->
  has (Z.lor (PA2PTE pa) fl) x = has fl x.
Proof. intros. unfold has. by rewrite land_low_mk. Qed.

Lemma PTE_FLAGS_mk pa fl :
  0 <= pa < 2 ^ 54 -> pa mod PGSIZE = 0 -> 0 <= fl < 1024 ->
  PTE_FLAGS (Z.lor (PA2PTE pa) fl) = fl.
Proof.
  intros. unfold PTE_FLAGS. rewrite land_low_mk by lia.
  change 0x3FF with (Z.ones 10). rewrite Z.land_ones by lia. by apply Z.mod_small.
Qed.

Lemma mk_pte_range pa fl :
  0 <= pa < 2 ^ 54 -> pa mod PGSIZE = 0 -> 0 <= fl < 1024 ->
  0 <= Z.lor (PA2PTE pa) fl < 2 ^ 64.
Proof.
  intros. rewrite mk_pte_eq by done.
  assert (0 <= pa / 4096 < 2 ^ 42); [|lia].
  split; [apply Z.div_pos; lia|]. apply Z.div_lt_upper_bound; lia.
Qed.

Lemma has_0 x : has 0 x = false.
Proof. done. Qed.

Lemma has_lor_r x f : f <> 0 -> 0 <= f -> has (Z.lor x f) f = true.
Proof.
  intros. unfold has. assert (Z.land (Z.lor x f) f = f) as ->.
  { apply Z.bits_inj'. intros i Hi. rewrite Z.land_spec, Z.lor_spec.
    destruct (Z.testbit x i), (Z.testbit f i); done. }
  by destruct (Z.eqb_spec f 0).
Qed.

(** ** Table indices *)

Lemma PX_eq l va :
  0 <= l -> PX l va = (va / 2 ^ (12 + 9 * l)) mod 512.
Proof.
  intros. unfold PX, PXSHIFT. change 0x1FF with (Z.ones 9).
  rewrite Z.land_ones, Z.shiftr_div_pow2 by lia. done.
Qed.

Lemma PX_range l va : 0 <= l -> 0 <= PX l va < 512.
Proof. intros. rewrite PX_eq by done. by apply Z.mod_pos_bound. Qed.

Lemma PX_page va :
  0 <= va < MAXVA -> va / 4096 = PX 2 va * 2 ^ 18 + PX 1 va * 2 ^ 9 + PX 0 va.
Proof.
  intros. rewrite !PX_eq by lia.
  change (2 ^ (12 + 9 * 2)) with (2 ^ 30). change (2 ^ (12 + 9 * 1)) with (2 ^ 21).
  change (2 ^ (12 + 9 * 0)) with 4096.
  Z.div_mod_to_equations. lia.
Qed.

(** Two addresses have the same indices exactly when they are in the same page. *)
Lemma PX_inj va vb :
  0 <= va < MAXVA -> 0 <= vb < MAXVA ->
  PX 2 va = PX 2 vb -> PX 1 va = PX 1 vb -> PX 0 va = PX 0 vb ->
  va / 4096 = vb / 4096.
Proof. intros Ha Hb H2 H1 H0. rewrite !PX_page by done. by rewrite H2, H1, H0. Qed.

Lemma PX_same_page l va vb :
  0 <= l -> va / 4096 = vb / 4096 -> PX l va = PX l vb.
Proof.
  intros Hl H. rewrite !PX_eq by done.
  rewrite Z.pow_add_r, <- !Z.div_div by lia.
  change (2 ^ 12) with 4096. by rewrite H.
Qed.

(** Below [MAXVA] only the first half of the root table is used. *)
Lemma PX_top va : 0 <= va < MAXVA -> PX 2 va < 256.
Proof.
  intros. rewrite PX_eq by lia. change (2 ^ (12 + 9 * 2)) with (2 ^ 30).
  Z.div_mod_to_equations. lia.
Qed.

Definition va_of (i2 i1 i0 : Z) : Z := i2 * 2 ^ 30 + i1 * 2 ^ 21 + i0 * 2 ^ 12.

Lemma PX_va_of i2 i1 i0 :
  0 <= i2 < 512 -> 0 <= i1 < 512 -> 0 <= i0 < 512 ->
  PX 2 (va_of i2 i1 i0) = i2 /\ PX 1 (va_of i2 i1 i0) = i1 /\ PX 0 (va_of i2 i1 i0) = i0.
Proof.
  intros. rewrite !PX_eq by lia. unfold va_of.
  change (2 ^ (12 + 9 * 2)) with (2 ^ 30). change (2 ^ (12 + 9 * 1)) with (2 ^ 21).
  change (2 ^ (12 + 9 * 0)) with (2 ^ 12). Z.div_mod_to_equations. lia.
Qed.
