(* ===== verification/Str.v ===== *)
(** [kernel/string.c].  [memset], [memmove] and [memcmp] work on physical memory;
    the C-string functions work on character arrays, given as the list of their
    characters, and reading past the list gives the terminating NUL. *)
From S2P Require Import Prelude.

(** ** Memory *)

Section Memory.
Implicit Types (m : gmap Z Z) (dst src c n : Z).

Fixpoint memset_loop m dst c (i : Z) (k : nat) : gmap Z Z :=
  match k with
  | O => m
  | S k' => memset_loop (<[dst + i := u8 c]> m) dst c (i + 1) k'
  end.

Definition memset m dst c n : gmap Z Z := memset_loop m dst c 0 (Z.to_nat n).

Fixpoint memcmp_loop m (s1 s2 : Z) (k : nat) : Z :=
  match k with
  | O => 0
  | S k' =>
      if mget m s1 =? mget m s2 then memcmp_loop m (s1 + 1) (s2 + 1) k'
      else mget m s1 - mget m s2
  end.

Definition memcmp m (v1 v2 n : Z) : Z := memcmp_loop m v1 v2 (Z.to_nat n).

(** [while(n-- > 0) *--d = *--s;] *)
Fixpoint move_down m (d s : Z) (k : nat) : gmap Z Z :=
  match k with
  | O => m
  | S k' => move_down (<[d - 1 := mget m (s - 1)]> m) (d - 1) (s - 1) k'
  end.

(** [while(n-- > 0) *d++ = *s++;] *)
Fixpoint move_up m (d s : Z) (k : nat) : gmap Z Z :=
  match k with
  | O => m
  | S k' => move_up (<[d := mget m s]> m) (d + 1) (s + 1) k'
  end.

Definition memmove m dst src n : gmap Z Z :=
  if n =? 0 then m
  else if (src <? dst) && (dst <? src + n)
  then move_down m (dst + n) (src + n) (Z.to_nat n)
  else move_up m dst src (Z.to_nat n).

Lemma memset_loop_get m dst c i k x :
  mget (memset_loop m dst c i k) x =
    if decide (dst + i <= x < dst + i + Z.of_nat k) then u8 c else mget m x.
Proof.
  revert m i. induction k as [|k IH]; intros m i; cbn [memset_loop].
  - case_decide; [lia|done].
  - rewrite IH, mget_insert. repeat case_decide; try lia; done.
Qed.

Lemma memset_get m dst c n x :
  0 <= n ->
  mget (memset m dst c n) x = if decide (dst <= x < dst + n) then u8 c else mget m x.
Proof.
  intros Hn. unfold memset. rewrite memset_loop_get. repeat case_decide; lia || done.
Qed.

Lemma move_down_get m d s k x :
  s <= d ->
  mget (move_down m d s k) x =
    if decide (d - Z.of_nat k <= x < d) then mget m (x - d + s) else mget m x.
Proof.
  revert m d s. induction k as [|k IH]; intros m d s Hsd; cbn [move_down].
  - case_decide; [lia|done].
  - rewrite IH by lia. rewrite !mget_insert. repeat case_decide; try lia; try done.
    + f_equal. lia.
    + f_equal. lia.
Qed.

Lemma move_up_get m d s k x :
  d <= s \/ s + Z.of_nat k <= d ->
  mget (move_up m d s k) x =
    if decide (d <= x < d + Z.of_nat k) then mget m (s + (x - d)) else mget m x.
Proof.
  revert m d s. induction k as [|k IH]; intros m d s Hsd; cbn [move_up].
  - case_decide; [lia|done].
  - rewrite IH by lia. rewrite !mget_insert. repeat case_decide; try lia; try done.
    + f_equal. lia.
    + f_equal. lia.
Qed.

Lemma memmove_get m dst src n x :
  0 <= n ->
  mget (memmove m dst src n) x =
    if decide (dst <= x < dst + n) then mget m (src + (x - dst)) else mget m x.
Proof.
  intros Hn. unfold memmove.
  destruct (Z.eqb_spec n 0); [case_decide; [lia|done]|].
  destruct (Z.ltb_spec src dst), (Z.ltb_spec dst (src + n)); cbn [andb].
  - rewrite move_down_get by lia. repeat case_decide; try lia; try done; f_equal; lia.
  - rewrite move_up_get by lia. repeat case_decide; lia || done.
  - rewrite move_up_get by lia. repeat case_decide; lia || done.
  - rewrite move_up_get by lia. repeat case_decide; lia || done.
Qed.

End Memory.

(** ** C strings in character arrays *)

Section CString.
Implicit Types (p q s t : list Z) (n : Z).

Definition ch (s : list Z) (i : nat) : Z := nth i s 0.

Fixpoint strncmp_loop p q (i k : nat) : Z :=
  match k with
  | O => 0
  | S k' =>
      if negb (ch p i =? 0) && (ch p i =? ch q i)
      then strncmp_loop p q (S i) k'
      else u8 (ch p i) - u8 (ch q i)
  end.

Definition strncmp p q n : Z := strncmp_loop p q 0 (Z.to_nat n).

(** The array [s] after [strncpy(s, t, n)]: [pad] is the second loop. *)
Fixpoint strncpy_loop s t (i : nat) (pad : bool) (k : nat) : list Z :=
  match k with
  | O => s
  | S k' =>
      if pad then strncpy_loop (<[i:=0]> s) t (S i) true k'
      else strncpy_loop (<[i:=ch t i]> s) t (S i) (ch t i =? 0) k'
  end.

Definition strncpy s t n : list Z := strncpy_loop s t 0 false (Z.to_nat n).

(** [while(--n > 0 && ( *s++ = *t++) != 0) ; *s = 0;] *)
Fixpoint safestrcpy_loop s t (i : nat) (k : nat) : list Z :=
  match k with
  | O => <[i:=0]> s
  | S k' =>
      if ch t i =? 0 then <[S i:=0]> (<[i:=0]> s)
      else safestrcpy_loop (<[i:=ch t i]> s) t (S i) k'
  end.

Definition safestrcpy s t n : list Z :=
  if n <=? 0 then s else safestrcpy_loop s t 0 (Z.to_nat (n - 1)).

Fixpoint strlen s : Z :=
  match s with
  | [] => 0
  | c :: s' => if c =? 0 then 0 else 1 + strlen s'
  end.

End CString.

#[global] Arguments memset : simpl never.
#[global] Arguments memmove : simpl never.
#[global] Arguments memcmp : simpl never.
