(* ===== verification/Kalloc.v ===== *)
(** [kernel/kalloc.c]: the physical page allocator.  The free list is threaded
    through the free pages themselves: the first eight bytes of a free page are
    its [struct run], the address of the next free page. *)
From S2P Require Import Prelude Types Riscv Str.

Section Kalloc.
Context {L : Linker}.

(** ** The code *)

Definition memset_k (dst c n : Z) : M unit :=
  upd (fun s => set_mem (memset (mem s) dst c n) s).

Definition kfree (pa : Z) : M unit :=
  if negb (pa mod PGSIZE =? 0) || (pa <? k_end) || (PHYSTOP <=? pa)
  then panic "kfree"
  else
    memset_k pa 1 PGSIZE ;;;
    acquire LkKmem ;;;
    upd (fun s => set_mem (store64 (mem s) pa (freelist s)) s) ;;;
    upd (set_freelist pa) ;;;
    release LkKmem.

Definition kalloc : M Z :=
  acquire LkKmem ;;;
  let! r := get freelist in
  (if r =? 0 then ret tt else upd (fun s => set_freelist (load64 (mem s) r) s)) ;;;
  release LkKmem ;;;
  (if r =? 0 then ret tt else memset_k r 5 PGSIZE) ;;;
  ret r.

Fixpoint freerange_loop (p pa_end : Z) (fuel : nat) : M unit :=
  if p + PGSIZE <=? pa_end then
    match fuel with
    | O => diverge
    | S fuel' => kfree p ;;; freerange_loop (p + PGSIZE) pa_end fuel'
    end
  else ret tt.

(** The loop frees one page of at most [pa_end / PGSIZE] each time round. *)
Definition freerange (pa_start pa_end : Z) : M unit :=
  freerange_loop (PGROUNDUP pa_start) pa_end (Z.to_nat (pa_end / PGSIZE)).

Definition kinit : M unit := freerange k_end PHYSTOP.

(** ** Representation *)

Definition page_ok (p : Z) : Prop := p mod PGSIZE = 0 /\ k_end <= p < PHYSTOP.

(** [chain m p fl]: following the [next] pointers from [p] gives the pages
    [fl], in that order, and then the null pointer. *)
Fixpoint chain (m : gmap Z Z) (p : Z) (fl : list Z) : Prop :=
  match fl with
  | [] => p = 0
  | q :: fl' => p = q /\ chain m (load64 m q) fl'
  end.

Record kmem_inv (s : kst) (fl : list Z) : Prop := {
  kmem_chain : chain (mem s) (freelist s) fl;
  kmem_nodup : NoDup fl;
  kmem_pages : Forall page_ok fl;
  kmem_lock : LkKmem ∉ held s
}.

Definition in_page (p x : Z) : Prop := p <= x < p + PGSIZE.

Context {LOk : LinkerOk L}.

Lemma page_ok_bounds p : page_ok p -> KERNBASE < p < PHYSTOP.
Proof.
  destruct LOk. unfold page_ok. lia.
Qed.

Lemma pages_disjoint p q x :
  p mod PGSIZE = 0 -> q mod PGSIZE = 0 -> in_page p x -> in_page q x -> p = q.
Proof. unfold in_page. intros. Z.div_mod_to_equations. lia. Qed.

Lemma chain_frame m m' p fl :
  (forall q x, q ∈ fl -> in_page q x -> mget m' x = mget m x) ->
  chain m p fl -> chain m' p fl.
Proof.
  revert p. induction fl as [|q fl IH]; intros p Hf; cbn; [done|].
  intros [-> Hc]. split; [done|].
  rewrite (load64_ext m' m); [|intros x Hx; apply (Hf q); [set_solver|unfold in_page; lia]].
  apply IH; [|done]. intros. apply (Hf q0); [set_solver|done].
Qed.

(** Only [mem], [freelist] and [held] matter to the allocator. *)
Lemma kmem_inv_frame s s' fl :
  kmem_inv s fl -> freelist s' = freelist s -> LkKmem ∉ held s' ->
  (forall q x, q ∈ fl -> in_page q x -> mget (mem s') x = mget (mem s) x) ->
  kmem_inv s' fl.
Proof.
  intros [Hc Hn Hp Hl] Hf Hh Hm. split; [|done..].
  rewrite Hf. by eapply chain_frame.
Qed.

(** ** Correctness *)

Lemma wp_memset_k dst c n s (Q : unit -> kst -> Prop) :
  0 <= n ->
  (forall m', (forall x, mget m' x =
       if decide (dst <= x < dst + n) then u8 c else mget (mem s) x) ->
     Q tt (set_mem m' s)) ->
  wp (memset_k dst c n) Q s.
Proof. intros Hn HQ. apply HQ. intros x. by apply memset_get. Qed.

Lemma wp_kalloc_empty s (Q : Z -> kst -> Prop) :
  kmem_inv s [] -> Q 0 s -> wp kalloc Q s.
Proof.
  intros [Hc _ _ Hl] HQ. cbn in Hc. unfold kalloc.
  wp_step. apply wp_acquire; [done|]. do 2 wp_step. cbn. rewrite Hc. cbn.
  do 2 wp_step. wp_step. eapply wp_release; [done|done|].
  wp_steps. by destruct s.
Qed.

Lemma wp_kalloc s p fl (Q : Z -> kst -> Prop) :
  kmem_inv s (p :: fl) ->
  (forall s', s' = set_freelist (freelist s') (set_mem (mem s') s) ->
     kmem_inv s' fl ->
     (forall x, mget (mem s') x = if decide (in_page p x) then 5 else mget (mem s) x) ->
     Q p s') ->
  wp kalloc Q s.
Proof.
  intros [Hc Hn Hp Hl] HQ. cbn in Hc. destruct Hc as [Hfl Hc].
  apply NoDup_cons in Hn as [Hpn Hn]. apply Forall_cons in Hp as [Hpp Hp].
  pose proof (page_ok_bounds p Hpp).
  unfold kalloc. wp_step. apply wp_acquire; [done|]. do 2 wp_step. cbn.
  rewrite Hfl. destruct (Z.eqb_spec p 0); [lia|].
  do 2 wp_step. cbn. wp_step. eapply wp_release; [done|done|].
  wp_step. apply wp_memset_k; [done|]. intros m' Hm'. wp_step.
  apply HQ; [by destruct s| |done].
  split; [|done..]. cbn.
  eapply chain_frame; [|exact Hc]. intros q x Hq Hx. cbn. rewrite Hm'.
  case_decide; [|done]. exfalso. apply Hpn.
  assert (page_ok q) as [Hq0 _] by (eapply Forall_forall in Hp; done).
  by rewrite (pages_disjoint p q x) by (done || apply Hpp).
Qed.

Lemma wp_kfree s p fl (Q : unit -> kst -> Prop) :
  kmem_inv s fl -> page_ok p -> p ∉ fl ->
  (forall s', s' = set_freelist (freelist s') (set_mem (mem s') s) ->
     kmem_inv s' (p :: fl) ->
     (forall x, ~ in_page p x -> mget (mem s') x = mget (mem s) x) ->
     Q tt s') ->
  wp (kfree p) Q s.
Proof.
  intros [Hc Hn Hp Hl] Hpp Hpn HQ. pose proof (page_ok_bounds p Hpp).
  unfold kfree. destruct Hpp as [Hal Hr].
  rewrite Hal. destruct (Z.ltb_spec p k_end); [lia|].
  destruct (Z.leb_spec PHYSTOP p); [lia|]. cbn [negb orb Z.eqb].
  wp_step. apply wp_memset_k; [done|]. intros m' Hm'.
  wp_step. apply wp_acquire; [done|]. do 4 wp_step.
  eapply wp_release; [done|done|].
  assert (Hout : forall x, ~ in_page p x ->
            mget (store64 m' p (freelist s)) x = mget (mem s) x).
  { intros x Hx. unfold in_page in Hx.
    rewrite mget_store64_out by lia. rewrite Hm'. by case_decide. }
  apply HQ; [by destruct s| |done].
  split; [|by apply NoDup_cons|by constructor|done].
  cbn. split; [done|]. rewrite load64_store64.
  assert (0 <= freelist s < 2 ^ 64).
  { destruct fl as [|q fl]; cbn in Hc; [lia|]. destruct Hc as [-> _].
    apply Forall_cons in Hp as [Hq _]. pose proof (page_ok_bounds q Hq). lia. }
  rewrite u64_small by lia.
  eapply chain_frame; [|exact Hc]. intros q x Hq Hx.
  apply Hout. intros Hx'.
  assert (page_ok q) as [Hq0 _] by (eapply Forall_forall in Hp; done).
  by rewrite (pages_disjoint p q x) in Hpn.
Qed.

(** The pages [freerange] frees, last freed first. *)
Fixpoint pages_from (p : Z) (n : nat) : list Z :=
  match n with
  | O => []
  | S n' => pages_from (p + PGSIZE) n' ++ [p]
  end.

Lemma elem_of_pages_from p n q :
  p mod PGSIZE = 0 ->
  q ∈ pages_from p n <-> q mod PGSIZE = 0 /\ p <= q < p + Z.of_nat n * PGSIZE.
Proof.
  revert p. induction n as [|n IH]; intros p Hp; cbn [pages_from].
  { split; [set_solver|]. lia. }
  rewrite elem_of_app, IH, list_elem_of_singleton by (rewrite Z.add_mod, Hp by lia; done).
  Z.div_mod_to_equations. lia.
Qed.

Lemma wp_freerange_loop n : forall p pa_end s fl,
  p mod PGSIZE = 0 -> k_end <= p -> pa_end <= PHYSTOP ->
  p + Z.of_nat n * PGSIZE <= pa_end < p + Z.of_nat n * PGSIZE + PGSIZE ->
  kmem_inv s fl -> (forall q, q ∈ fl -> q < p) ->
  forall fuel, (n <= fuel)%nat ->
  wp (freerange_loop p pa_end fuel) (fun _ s' =>
    s' = set_freelist (freelist s') (set_mem (mem s') s) /\
    kmem_inv s' (pages_from p n ++ fl)) s.
Proof.
  induction n as [|n IH]; intros p pa_end s fl Hal Hlo Hhi Hn K Hfl fuel Hf.
  { destruct fuel; cbn [freerange_loop]; rewrite (proj2 (Z.leb_gt _ _)) by lia;
      (apply wp_ret; split; [by destruct s|done]). }
  destruct fuel as [|fuel]; [lia|]. cbn [freerange_loop pages_from].
  rewrite (proj2 (Z.leb_le _ _)) by lia. wp_step.
  eapply wp_kfree; [done|split; [done|lia]| |].
  { intros Hin. specialize (Hfl p Hin). lia. }
  intros s1 E1 K1 _. eapply wp_mono.
  - eapply (IH (p + PGSIZE) pa_end s1 (p :: fl)); try done; try lia.
    + rewrite Z.add_mod, Hal by lia. done.
    + intros q [->|Hq]%elem_of_cons; [lia|]. specialize (Hfl q Hq). lia.
  - intros [] s2 [E2 K2]. split; [by rewrite E2, E1|]. by rewrite <- app_assoc.
Qed.

(** [kinit]: every whole page between the end of the kernel and [PHYSTOP] is free. *)
Lemma wp_kinit s :
  freelist s = 0 -> LkKmem ∉ held s ->
  wp kinit (fun _ s' => s' = set_freelist (freelist s') (set_mem (mem s') s) /\
    exists fl, kmem_inv s' fl /\ forall p, p ∈ fl <-> page_ok p) s.
Proof.
  intros H0 Hl. unfold kinit, freerange. pose proof LOk as [? ? ? ? ? ?].
  assert (Hu : PGROUNDUP k_end = (k_end + 4095) / 4096 * 4096) by (apply PGROUNDUP_eq; lia).
  set (p := PGROUNDUP k_end) in *.
  assert (Hp : p mod PGSIZE = 0) by (rewrite Hu; apply Z.mod_mul; lia).
  assert (Hr : k_end <= p <= PHYSTOP) by (rewrite Hu; Z.div_mod_to_equations; lia).
  set (n := Z.to_nat ((PHYSTOP - p) / PGSIZE)).
  assert (Hn : p + Z.of_nat n * PGSIZE = PHYSTOP).
  { unfold n. rewrite Z2Nat.id; Z.div_mod_to_equations; lia. }
  eapply wp_mono.
  - eapply (wp_freerange_loop n p PHYSTOP s []); try done; try lia.
    + split; [done|constructor|constructor|done].
    + set_solver.
    + unfold n. apply Z2Nat.inj_le; Z.div_mod_to_equations; lia.
  - intros [] s' [E K]. split; [done|]. rewrite app_nil_r in K. exists (pages_from p n).
    split; [done|]. intros q. rewrite elem_of_pages_from by done. unfold page_ok.
    rewrite Hu in *. Z.div_mod_to_equations. lia.
Qed.

End Kalloc.
