(* ===== verification/Vm.v ===== *)
(** [kernel/vm.c] and [proc_mapstacks] of [kernel/proc.c]: page tables and copies
    between kernel and user memory.  A [pagetable_t] and a [pte_t *] are physical
    addresses; page-table pages live in [mem].  Loops carry a bound on their
    iterations; running past it would be [Diverge]. *)
From S2P Require Import Prelude Types Str Kalloc.

Section Vm.
Context {L : Linker}.

Definition ld64 (a : Z) : M Z := get (fun s => load64 (mem s) a).
Definition st64 (a v : Z) : M unit := upd (fun s => set_mem (store64 (mem s) a v) s).
Definition memmove_k (dst src n : Z) : M unit :=
  upd (fun s => set_mem (memmove (mem s) dst src n) s).
(** [memmove] into memory from a kernel buffer, and out of it. *)
Definition write_k (dst : Z) (bs : list Z) : M unit :=
  upd (fun s => set_mem (mwrite (mem s) dst bs) s).
Definition read_k (src n : Z) : M (list Z) :=
  get (fun s => mread (mem s) src (Z.to_nat n)).

(** ** Walking *)

Fixpoint walk_loop (level : nat) (pagetable va : Z) (alloc : bool) : M Z :=
  match level with
  | O => ret (pagetable + 8 * PX 0 va)
  | S level' =>
      let pte := pagetable + 8 * PX (Z.of_nat level) va in
      let! v := ld64 pte in
      if has v PTE_V then walk_loop level' (PTE2PA v) va alloc
      else if negb alloc then ret 0
      else
        let! pagetable' := kalloc in
        if pagetable' =? 0 then ret 0
        else
          memset_k pagetable' 0 PGSIZE ;;;
          st64 pte (Z.lor (PA2PTE pagetable') PTE_V) ;;;
          walk_loop level' pagetable' va alloc
  end.

Definition walk (pagetable va : Z) (alloc : bool) : M Z :=
  if MAXVA <=? va then panic "walk" else walk_loop 2 pagetable va alloc.

Definition walkaddr (pagetable va : Z) : M Z :=
  if MAXVA <=? va then ret 0
  else
    let! pte := walk pagetable va false in
    if pte =? 0 then ret 0
    else
      let! v := ld64 pte in
      if negb (has v PTE_V) then ret 0
      else if negb (has v PTE_U) then ret 0
      else ret (PTE2PA v).

(** ** Mapping *)

Fixpoint mappages_loop (pagetable a last pa perm : Z) (fuel : nat) : M Z :=
  match fuel with
  | O => diverge
  | S fuel' =>
      let! pte := walk pagetable a true in
      if pte =? 0 then ret (-1)
      else
        let! v := ld64 pte in
        if has v PTE_V then panic "mappages: remap"
        else
          st64 pte (Z.lor (Z.lor (PA2PTE pa) perm) PTE_V) ;;;
          if a =? last then ret 0
          else mappages_loop pagetable (u64 (a + PGSIZE)) last (u64 (pa + PGSIZE)) perm fuel'
  end.

Definition mappages (pagetable va size pa perm : Z) : M Z :=
  if negb (va mod PGSIZE =? 0) then panic "mappages: va not aligned"
  else if negb (size mod PGSIZE =? 0) then panic "mappages: size not aligned"
  else if size =? 0 then panic "mappages: size"
  else mappages_loop pagetable va (u64 (va + size - PGSIZE)) pa perm
         (Z.to_nat (size / PGSIZE)).

Definition kvmmap (kpgtbl va pa sz perm : Z) : M unit :=
  let! r := mappages kpgtbl va sz pa perm in
  if r =? 0 then ret tt else panic "kvmmap".

Fixpoint proc_mapstacks_loop (kpgtbl p : Z) (k : nat) : M unit :=
  match k with
  | O => ret tt
  | S k' =>
      let! pa := kalloc in
      if pa =? 0 then panic "kalloc"
      else
        kvmmap kpgtbl (KSTACK p) pa PGSIZE (Z.lor PTE_R PTE_W) ;;;
        proc_mapstacks_loop kpgtbl (p + 1) k'
  end.

Definition proc_mapstacks (kpgtbl : Z) : M unit := proc_mapstacks_loop kpgtbl 0 NPROC.

Definition kvmmake : M Z :=
  let! kpgtbl := kalloc in
  memset_k kpgtbl 0 PGSIZE ;;;
  kvmmap kpgtbl UART0 UART0 PGSIZE (Z.lor PTE_R PTE_W) ;;;
  kvmmap kpgtbl VIRTIO0 VIRTIO0 PGSIZE (Z.lor PTE_R PTE_W) ;;;
  kvmmap kpgtbl PLIC PLIC 0x4000000 (Z.lor PTE_R PTE_W) ;;;
  kvmmap kpgtbl KERNBASE KERNBASE (u64 (k_etext - KERNBASE)) (Z.lor PTE_R PTE_X) ;;;
  kvmmap kpgtbl k_etext k_etext (u64 (PHYSTOP - k_etext)) (Z.lor PTE_R PTE_W) ;;;
  kvmmap kpgtbl TRAMPOLINE k_trampoline PGSIZE (Z.lor PTE_R PTE_X) ;;;
  proc_mapstacks kpgtbl ;;;
  ret kpgtbl.

Definition kvminit : M unit :=
  let! kpt := kvmmake in
  upd (set_kernel_pagetable kpt).

(** [sfence_vma] orders and flushes the TLB, which the model does not have. *)
Definition kvminithart : M unit :=
  upd (fun s => set_hart (set_r_satp (MAKE_SATP (kernel_pagetable s)) (hart s)) s).

(** ** Unmapping *)

Fixpoint uvmunmap_loop (pagetable a aend : Z) (do_free : bool) (fuel : nat) : M unit :=
  if a <? aend then
    match fuel with
    | O => diverge
    | S fuel' =>
        let! pte := walk pagetable a false in
        if pte =? 0 then panic "uvmunmap: walk"
        else
          let! v := ld64 pte in
          if negb (has v PTE_V) then panic "uvmunmap: not mapped"
          else if PTE_FLAGS v =? PTE_V then panic "uvmunmap: not a leaf"
          else
            (if do_free then kfree (PTE2PA v) else ret tt) ;;;
            st64 pte 0 ;;;
            uvmunmap_loop pagetable (u64 (a + PGSIZE)) aend do_free fuel'
    end
  else ret tt.

Definition uvmunmap (pagetable va npages : Z) (do_free : bool) : M unit :=
  if negb (va mod PGSIZE =? 0) then panic "uvmunmap: not aligned"
  else uvmunmap_loop pagetable va (u64 (va + u64 (npages * PGSIZE))) do_free
         (Z.to_nat npages).

Definition uvmcreate : M Z :=
  let! pagetable := kalloc in
  if pagetable =? 0 then ret 0
  else memset_k pagetable 0 PGSIZE ;;; ret pagetable.

Definition uvmfirst (pagetable : Z) (src : list Z) : M unit :=
  if PGSIZE <=? Z.of_nat (length src) then panic "uvmfirst: more than a page"
  else
    let! m := kalloc in
    memset_k m 0 PGSIZE ;;;
    let! _ := mappages pagetable 0 PGSIZE m
                (Z.lor (Z.lor (Z.lor PTE_W PTE_R) PTE_X) PTE_U) in
    write_k m src.

(** ** Growing and shrinking *)

(** [npages] is an [int], passed on as a [uint64]. *)
Definition uvmdealloc (pagetable oldsz newsz : Z) : M Z :=
  if oldsz <=? newsz then ret oldsz
  else
    (if PGROUNDUP newsz <? PGROUNDUP oldsz then
       uvmunmap pagetable (PGROUNDUP newsz)
         (u64 (i32 ((PGROUNDUP oldsz - PGROUNDUP newsz) / PGSIZE))) true
     else ret tt) ;;;
    ret newsz.

Fixpoint uvmalloc_loop (pagetable a oldsz newsz xperm : Z) (fuel : nat) : M Z :=
  if a <? newsz then
    match fuel with
    | O => diverge
    | S fuel' =>
        let! m := kalloc in
        if m =? 0 then
          let! _ := uvmdealloc pagetable a oldsz in ret 0
        else
          memset_k m 0 PGSIZE ;;;
          let! r := mappages pagetable a PGSIZE m
                      (Z.lor (Z.lor PTE_R PTE_U) xperm) in
          if negb (r =? 0) then
            kfree m ;;;
            let! _ := uvmdealloc pagetable a oldsz in ret 0
          else uvmalloc_loop pagetable (u64 (a + PGSIZE)) oldsz newsz xperm fuel'
    end
  else ret newsz.

Definition uvmalloc (pagetable oldsz newsz xperm : Z) : M Z :=
  if newsz <? oldsz then ret oldsz
  else
    let oldsz' := PGROUNDUP oldsz in
    uvmalloc_loop pagetable oldsz' oldsz' newsz xperm
      (Z.to_nat ((newsz - oldsz') / PGSIZE + 1)).

(** ** Freeing *)

(** The loop of [freewalk] over the entries of one table; [rec] is the recursive
    call on a child. *)
Fixpoint freewalk_entries (rec : Z -> M unit) (pagetable i : Z) (k : nat) : M unit :=
  match k with
  | O => ret tt
  | S k' =>
      let! pte := ld64 (pagetable + 8 * i) in
      (if has pte PTE_V && negb (has pte (Z.lor (Z.lor PTE_R PTE_W) PTE_X)) then
         rec (PTE2PA pte) ;;;
         st64 (pagetable + 8 * i) 0
       else if has pte PTE_V then panic "freewalk: leaf"
       else ret tt) ;;;
      freewalk_entries rec pagetable (i + 1) k'
  end.

(** [depth] bounds the recursion: the tables are three levels deep. *)
Fixpoint freewalk (depth : nat) (pagetable : Z) : M unit :=
  match depth with
  | O => diverge
  | S depth' =>
      freewalk_entries (freewalk depth') pagetable 0 512 ;;;
      kfree pagetable
  end.

Definition uvmfree (pagetable sz : Z) : M unit :=
  (if 0 <? sz then uvmunmap pagetable 0 (PGROUNDUP sz / PGSIZE) true else ret tt) ;;;
  freewalk 3 pagetable.

(** ** Copying an address space *)

Fixpoint uvmcopy_loop (old new sz i : Z) (fuel : nat) : M Z :=
  if i <? sz then
    match fuel with
    | O => diverge
    | S fuel' =>
        let! pte := walk old i false in
        if pte =? 0 then panic "uvmcopy: pte should exist"
        else
          let! v := ld64 pte in
          if negb (has v PTE_V) then panic "uvmcopy: page not present"
          else
            let pa := PTE2PA v in
            let flags := PTE_FLAGS v in
            let err := uvmunmap new 0 (i / PGSIZE) true ;;; ret (-1) in
            let! m := kalloc in
            if m =? 0 then err
            else
              memmove_k m pa PGSIZE ;;;
              let! r := mappages new i PGSIZE m flags in
              if negb (r =? 0) then kfree m ;;; err
              else uvmcopy_loop old new sz (u64 (i + PGSIZE)) fuel'
    end
  else ret 0.

Definition uvmcopy (old new sz : Z) : M Z :=
  uvmcopy_loop old new sz 0 (Z.to_nat (sz / PGSIZE + 1)).

Definition uvmclear (pagetable va : Z) : M unit :=
  let! pte := walk pagetable va false in
  if pte =? 0 then panic "uvmclear"
  else
    let! v := ld64 pte in
    st64 pte (Z.land v (Z.lnot PTE_U)).

(** ** Copying between kernel and user *)

(** The bytes to copy are [src]; [len] is its length. *)
Fixpoint copyout_loop (pagetable dstva : Z) (src : list Z) (fuel : nat) : M Z :=
  let len := Z.of_nat (length src) in
  if 0 <? len then
    match fuel with
    | O => diverge
    | S fuel' =>
        let va0 := PGROUNDDOWN dstva in
        if MAXVA <=? va0 then ret (-1)
        else
          let! pte := walk pagetable va0 false in
          if pte =? 0 then ret (-1)
          else
            let! v := ld64 pte in
            if negb (has v PTE_V) || negb (has v PTE_U) || negb (has v PTE_W)
            then ret (-1)
            else
              let pa0 := PTE2PA v in
              let n0 := PGSIZE - (dstva - va0) in
              let n := if len <? n0 then len else n0 in
              write_k (pa0 + (dstva - va0)) (take (Z.to_nat n) src) ;;;
              copyout_loop pagetable (u64 (va0 + PGSIZE)) (drop (Z.to_nat n) src) fuel'
    end
  else ret 0.

Definition copyout (pagetable dstva : Z) (src : list Z) : M Z :=
  copyout_loop pagetable dstva src (length src).

(** The second component of the result is what has been written to [dst]. *)
Fixpoint copyin_loop (pagetable : Z) (dst : list Z) (srcva len : Z) (fuel : nat)
    : M (Z * list Z) :=
  if 0 <? len then
    match fuel with
    | O => diverge
    | S fuel' =>
        let va0 := PGROUNDDOWN srcva in
        let! pa0 := walkaddr pagetable va0 in
        if pa0 =? 0 then ret (-1, dst)
        else
          let n0 := PGSIZE - (srcva - va0) in
          let n := if len <? n0 then len else n0 in
          let! bs := read_k (pa0 + (srcva - va0)) n in
          copyin_loop pagetable (dst ++ bs) (u64 (va0 + PGSIZE)) (len - n) fuel'
    end
  else ret (0, dst).

Definition copyin (pagetable srcva len : Z) : M (Z * list Z) :=
  copyin_loop pagetable [] srcva len (Z.to_nat len).

(** The inner loop of [copyinstr]: the bytes it writes to [dst], and whether it
    met the terminating NUL. *)
Fixpoint copyinstr_page (m : gmap Z Z) (p : Z) (n : nat) : list Z * bool :=
  match n with
  | O => ([], false)
  | S n' =>
      if mget m p =? 0 then ([0], true)
      else
        let '(bs, got) := copyinstr_page m (p + 1) n' in
        (mget m p :: bs, got)
  end.

Fixpoint copyinstr_loop (pagetable : Z) (dst : list Z) (srcva max : Z) (fuel : nat)
    : M (Z * list Z) :=
  if 0 <? max then
    match fuel with
    | O => diverge
    | S fuel' =>
        let va0 := PGROUNDDOWN srcva in
        let! pa0 := walkaddr pagetable va0 in
        if pa0 =? 0 then ret (-1, dst)
        else
          let n0 := PGSIZE - (srcva - va0) in
          let n := if max <? n0 then max else n0 in
          let! r := get (fun s => copyinstr_page (mem s) (pa0 + (srcva - va0)) (Z.to_nat n)) in
          let '(bs, got_null) := r in
          if (got_null : bool) then ret (0, dst ++ bs)
          else copyinstr_loop pagetable (dst ++ bs) (u64 (va0 + PGSIZE)) (max - n) fuel'
    end
  else ret (-1, dst).

Definition copyinstr (pagetable srcva max : Z) : M (Z * list Z) :=
  copyinstr_loop pagetable [] srcva max (Z.to_nat max).

End Vm.
