(* ===== verification/PtRep.v ===== *)
(** Page tables as data: what the three levels of tables in memory represent, and
    that [walk] and [mappages] of [Vm] act on it as they should. *)
From S2P Require Import Prelude Types Riscv Str Kalloc Vm.

(** ** The tables of one page table

    Each page that holds a table has a role: the root, the level-1 table of a
    level-2 index, or the level-0 table of a level-2 and a level-1 index.  A map
    from pages to roles makes the tables pairwise distinct by construction. *)

Inductive role := Root | Mid (i2 : Z) | Low (i2 i1 : Z).
#[global] Instance role_eq_dec : EqDecision role.
Proof. solve_decision. Defined.

Definition is_dir (ρ : role) : bool :=
  match ρ with Low _ _ => false | _ => true end.

Definition child (ρ : role) (i : Z) : role :=
  match ρ with Root => Mid i | Mid i2 => Low i2 i | Low i2 i1 => Low i2 i1 end.

Definition role_of (level : nat) (va : Z) : role :=
  match level with
  | O => Low (PX 2 va) (PX 1 va)
  | S O => Mid (PX 2 va)
  | _ => Root
  end.

Section PtRep.
Context {L : Linker} {LOk : LinkerOk L}.
Implicit Types (m : gmap Z Z) (O : gmap Z role) (r t va : Z).

Record pt_wf m r O : Prop := {
  pt_root : O !! r = Some Root;
  pt_root_uniq t : O !! t = Some Root -> t = r;
  pt_page t ρ : O !! t = Some ρ -> page_ok t;
  pt_down t ρ i : O !! t = Some ρ -> is_dir ρ -> 0 <= i < 512 ->
    has (load64 m (t + 8 * i)) PTE_V ->
    exists t', load64 m (t + 8 * i) = Z.lor (PA2PTE t') PTE_V /\ O !! t' = Some (child ρ i);
  pt_up t ρ i t' : O !! t = Some ρ -> is_dir ρ -> 0 <= i < 512 ->
    O !! t' = Some (child ρ i) -> load64 m (t + 8 * i) = Z.lor (PA2PTE t') PTE_V;
  pt_mid_range t i2 : O !! t = Some (Mid i2) -> 0 <= i2 < 256;
  pt_low_range t i2 i1 : O !! t = Some (Low i2 i1) ->
    0 <= i1 < 512 /\ exists t1, O !! t1 = Some (Mid i2)
}.

(** The slot the hardware's walk ends at, and the entry it finds there; 0 is the
    invalid entry. *)
Definition pt_slot m r va : option Z :=
  let e2 := load64 m (r + 8 * PX 2 va) in
  if has e2 PTE_V then
    let e1 := load64 m (PTE2PA e2 + 8 * PX 1 va) in
    if has e1 PTE_V then Some (PTE2PA e1 + 8 * PX 0 va) else None
  else None.

Definition pte_at m r va : Z :=
  match pt_slot m r va with Some a => load64 m a | None => 0 end.

Lemma page_ok_pa t : page_ok t -> 0 < t < 2 ^ 54 /\ t mod PGSIZE = 0.
Proof. intros H. pose proof (page_ok_bounds t H). destruct H. lia. Qed.

Lemma has_V_table t : page_ok t -> has (Z.lor (PA2PTE t) PTE_V) PTE_V = true.
Proof. intros [? ?]%page_ok_pa. rewrite has_mk by lia. done. Qed.

Lemma PTE2PA_table t : page_ok t -> PTE2PA (Z.lor (PA2PTE t) PTE_V) = t.
Proof. intros [? ?]%page_ok_pa. apply PTE2PA_mk; lia. Qed.

Lemma entry_in_page t i x : 0 <= i < 512 -> t + 8 * i <= x < t + 8 * i + 8 -> in_page t x.
Proof. unfold in_page. lia. Qed.

Lemma entries_disjoint t i t' i' :
  page_ok t -> page_ok t' -> 0 <= i < 512 -> 0 <= i' < 512 ->
  (t <> t' \/ i <> i') -> t' + 8 * i' + 8 <= t + 8 * i \/ t + 8 * i + 8 <= t' + 8 * i'.
Proof.
  intros [Ht _] [Ht' _] Hi Hi' Hne. destruct (decide (t = t')); [lia|].
  Z.div_mod_to_equations. lia.
Qed.

(** Following the roles instead of the bits. *)
Lemma pt_slot_low m r O va a :
  pt_wf m r O ->
  pt_slot m r va = Some a <->
  exists t0, O !! t0 = Some (Low (PX 2 va) (PX 1 va)) /\ a = t0 + 8 * PX 0 va.
Proof.
  intros W. pose proof (PX_range 2 va ltac:(lia)). pose proof (PX_range 1 va ltac:(lia)).
  unfold pt_slot. split.
  - destruct (has _ _) eqn:H2; [|done].
    destruct (pt_down _ _ _ W r Root (PX 2 va)) as (t1 & E1 & O1);
      [apply W|done|done|by rewrite H2|].
    rewrite E1, (PTE2PA_table t1) by (by eapply pt_page).
    destruct (has (load64 m (t1 + _)) _) eqn:H1; [|done].
    destruct (pt_down _ _ _ W t1 (Mid (PX 2 va)) (PX 1 va)) as (t0 & E0 & O0);
      [done|done|done|by rewrite H1|].
    rewrite E0, (PTE2PA_table t0) by (by eapply pt_page).
    intros [= <-]. eauto.
  - intros (t0 & O0 & ->). destruct (pt_low_range _ _ _ W _ _ _ O0) as (_ & t1 & O1).
    rewrite (pt_up _ _ _ W r Root (PX 2 va) t1) by (done || apply W).
    rewrite has_V_table, PTE2PA_table by (by eapply pt_page).
    rewrite (pt_up _ _ _ W t1 (Mid (PX 2 va)) (PX 1 va) t0) by done.
    by rewrite has_V_table, PTE2PA_table by (by eapply pt_page).
Qed.

Lemma pte_at_low m r O va t0 :
  pt_wf m r O -> O !! t0 = Some (Low (PX 2 va) (PX 1 va)) ->
  pte_at m r va = load64 m (t0 + 8 * PX 0 va).
Proof.
  intros W O0. unfold pte_at.
  by rewrite (proj2 (pt_slot_low m r O va (t0 + 8 * PX 0 va) W)) by eauto.
Qed.

Lemma pte_at_nolow m r O va :
  pt_wf m r O -> (forall t0, O !! t0 <> Some (Low (PX 2 va) (PX 1 va))) ->
  pte_at m r va = 0.
Proof.
  intros W Hn. unfold pte_at. destruct (pt_slot m r va) eqn:E; [|done].
  apply (pt_slot_low m r O) in E as (t0 & O0 & _); [|done]. by apply Hn in O0.
Qed.

Lemma low_dec O va :
  (exists t0, O !! t0 = Some (Low (PX 2 va) (PX 1 va))) \/
  (forall t0, O !! t0 <> Some (Low (PX 2 va) (PX 1 va))).
Proof.
  destruct (decide (map_Exists (fun _ ρ => ρ = Low (PX 2 va) (PX 1 va)) O)) as [H|H].
  - left. destruct H as (t & ρ & Ht & ->). eauto.
  - right. intros t0 Ht. apply H. exists t0, (Low (PX 2 va) (PX 1 va)). done.
Qed.

(** Two tables of the same role are the same table. *)
Lemma role_inj m r O t t' ρ :
  pt_wf m r O -> O !! t = Some ρ -> O !! t' = Some ρ -> t = t'.
Proof.
  intros W Ht Ht'.
  assert (Hmid : forall i u u', O !! u = Some (Mid i) -> O !! u' = Some (Mid i) -> u = u').
  { intros i u u' Hu Hu'. pose proof (pt_mid_range _ _ _ W _ _ Hu).
    pose proof (pt_up _ _ _ W r Root i u (pt_root _ _ _ W) I ltac:(lia) Hu) as E.
    rewrite (pt_up _ _ _ W r Root i u' (pt_root _ _ _ W) I ltac:(lia) Hu') in E.
    apply (f_equal PTE2PA) in E.
    rewrite !PTE2PA_table in E by (by eapply pt_page). done. }
  destruct ρ as [|i2|i2 i1]; [| by eapply Hmid |].
  - by rewrite (pt_root_uniq _ _ _ W t Ht), (pt_root_uniq _ _ _ W t' Ht').
  - destruct (pt_low_range _ _ _ W _ _ _ Ht) as (? & t1 & H1).
    pose proof (pt_up _ _ _ W t1 (Mid i2) i1 t H1 I ltac:(done) Ht) as E.
    rewrite (pt_up _ _ _ W t1 (Mid i2) i1 t' H1 I ltac:(done) Ht') in E.
    apply (f_equal PTE2PA) in E.
    rewrite !PTE2PA_table in E by (by eapply pt_page). done.
Qed.

(** ** Changes to the tables *)

(** Memory that agrees on the tables represents the same page table. *)
Lemma pt_frame m m' r O :
  (forall t x, is_Some (O !! t) -> in_page t x -> mget m' x = mget m x) ->
  pt_wf m r O ->
  pt_wf m' r O /\ forall va, pte_at m' r va = pte_at m r va.
Proof.
  intros Hf W.
  assert (Hld : forall t ρ i, O !! t = Some ρ -> 0 <= i < 512 ->
            load64 m' (t + 8 * i) = load64 m (t + 8 * i)).
  { intros t ρ i Ht Hi. apply load64_ext. intros x Hx.
    apply (Hf t); [eauto|]. by apply (entry_in_page t i). }
  assert (W' : pt_wf m' r O).
  { destruct W. split; try done.
    - intros t ρ i Ht Hd Hi. rewrite (Hld t ρ) by done. by eauto.
    - intros t ρ i t' Ht Hd Hi Ht'. rewrite (Hld t ρ) by done. by eauto. }
  split; [done|]. intros va. destruct (low_dec O va) as [[t0 H0]|Hn].
  - rewrite (pte_at_low m' r O va t0), (pte_at_low m r O va t0) by done.
    eapply Hld; [done|]. apply PX_range. lia.
  - by rewrite (pte_at_nolow m' r O), (pte_at_nolow m r O).
Qed.

(** A new, empty table hung under an invalid entry changes no translation. *)
Lemma pt_add m m' r O t ρ i q :
  pt_wf m r O -> O !! t = Some ρ -> is_dir ρ -> 0 <= i < 512 -> (ρ = Root -> i < 256) ->
  has (load64 m (t + 8 * i)) PTE_V = false ->
  page_ok q -> O !! q = None ->
  (forall x, in_page q x -> mget m' x = 0) ->
  load64 m' (t + 8 * i) = Z.lor (PA2PTE q) PTE_V ->
  (forall u x, is_Some (O !! u) -> in_page u x -> ~ (t + 8 * i <= x < t + 8 * i + 8) ->
     mget m' x = mget m x) ->
  pt_wf m' r (<[q := child ρ i]> O) /\ forall va, pte_at m' r va = pte_at m r va.
Proof.
  intros W Ht Hd Hi Htop HnV Hq Hnq Hz He Hf.
  assert (Htq : t <> q) by congruence.
  assert (Hld : forall u ρu j, O !! u = Some ρu -> 0 <= j < 512 -> (u <> t \/ j <> i) ->
            load64 m' (u + 8 * j) = load64 m (u + 8 * j)).
  { intros u ρu j Hu Hj Hne. apply load64_ext. intros x Hx.
    apply (Hf u); [eauto|by apply (entry_in_page u j)|].
    destruct (entries_disjoint t i u j); try done;
      [by eapply pt_page|by eapply pt_page|destruct Hne; auto|lia|lia]. }
  assert (Hzq : forall j, 0 <= j < 512 -> load64 m' (q + 8 * j) = 0).
  { intros j Hj. apply load64_zero. intros x Hx. apply Hz. by apply (entry_in_page q j). }
  assert (Hnc : forall u, O !! u <> Some (child ρ i)).
  { intros u Hu. pose proof (pt_up _ _ _ W t ρ i u Ht Hd Hi Hu) as E.
    rewrite E, has_V_table in HnV; [done|]. by eapply pt_page. }
  assert (Hchild : forall ρ' j, is_dir ρ' -> child ρ' j = child ρ i -> ρ' = ρ /\ j = i).
  { intros [| |] j; destruct ρ; try done; cbn; naive_solver. }
  assert (W' : pt_wf m' r (<[q := child ρ i]> O)).
  { split.
    - rewrite lookup_insert_ne; [apply W|]. intros ->. by rewrite (pt_root _ _ _ W) in Hnq.
    - intros u. rewrite lookup_insert. case_decide; [by destruct ρ|]. apply W.
    - intros u ρu. rewrite lookup_insert. case_decide; [naive_solver|]. apply W.
    - intros u ρu j. rewrite lookup_insert. case_decide as Hqu.
      { subst u. intros [= <-] Hdc Hj. rewrite Hzq by done. by rewrite has_0. }
      intros Hu Hdu Hj. destruct (decide (u = t /\ j = i)) as [[-> ->]|Hne].
      + intros _. exists q. rewrite lookup_insert_eq.
        assert (ρu = ρ) as -> by congruence. done.
      + rewrite (Hld u ρu j) by (done || (destruct (decide (u = t)); naive_solver)).
        intros HV. destruct (pt_down _ _ _ W u ρu j) as (t' & E & Ht'); [done..|].
        exists t'. split; [done|]. rewrite lookup_insert_ne; [done|]. congruence.
    - intros u ρu j t'. rewrite !lookup_insert. repeat case_decide; subst.
      + intros [= <-] Hdc Hj [= E]. exfalso. destruct ρ; cbn in *; naive_solver.
      + intros [= <-] Hdc Hj Ht'. exfalso.
        destruct ρ; cbn in *; try done.
        destruct (pt_low_range _ _ _ W _ _ _ Ht') as (_ & t1 & H1). by apply Hnc in H1.
      + intros Hu Hdu Hj [= E]. symmetry in E. apply Hchild in E as [-> ->]; [|done].
        by rewrite (role_inj _ _ _ _ _ _ W Hu Ht).
      + intros Hu Hdu Hj Ht'. destruct (decide (u = t /\ j = i)) as [[-> ->]|Hne].
        * assert (ρu = ρ) as -> by congruence. by apply Hnc in Ht'.
        * rewrite (Hld u ρu j) by (done || (destruct (decide (u = t)); naive_solver)).
          by apply (pt_up _ _ _ W u ρu j t').
    - intros u i2. rewrite lookup_insert. case_decide; [|apply W].
      intros [= E]. destruct ρ; cbn in E; simplify_eq. specialize (Htop eq_refl). lia.
    - intros u i2 i1. rewrite lookup_insert. case_decide.
      + intros [= E]. destruct ρ; cbn in E; simplify_eq; try done.
        split; [done|]. exists t. by rewrite lookup_insert_ne.
      + intros Hu. destruct (pt_low_range _ _ _ W _ _ _ Hu) as (? & t1 & H1).
        split; [done|]. exists t1. rewrite lookup_insert_ne; [done|]. congruence. }
  split; [done|]. intros va. pose proof (PX_range 0 va ltac:(lia)).
  destruct (low_dec O va) as [[t0 H0]|Hn].
  - rewrite (pte_at_low m r O va t0) by done.
    rewrite (pte_at_low m' r (<[q:=child ρ i]> O) va t0);
      [|done|rewrite lookup_insert_ne; congruence].
    apply (Hld t0 _ _ H0); [done|]. left. intros ->. rewrite Ht in H0. by destruct ρ.
  - rewrite (pte_at_nolow m r O) by done.
    destruct (decide (child ρ i = Low (PX 2 va) (PX 1 va))) as [Hc|Hc].
    + rewrite (pte_at_low m' r (<[q:=child ρ i]> O) va q);
        [by apply Hzq|done|by rewrite lookup_insert_eq, Hc].
    + apply (pte_at_nolow _ _ _ _ W'). intros t0. rewrite lookup_insert.
      case_decide; [congruence|apply Hn].
Qed.

(** Storing to a level-0 entry changes the translation of one page. *)
Lemma pt_set_leaf m r O va t0 v :
  pt_wf m r O -> 0 <= va < MAXVA -> O !! t0 = Some (Low (PX 2 va) (PX 1 va)) ->
  let m' := store64 m (t0 + 8 * PX 0 va) v in
  pt_wf m' r O /\
  forall vb, 0 <= vb < MAXVA ->
    pte_at m' r vb = if decide (vb / 4096 = va / 4096) then u64 v else pte_at m r vb.
Proof.
  intros W Hva H0 m'. pose proof (PX_range 0 va ltac:(lia)) as Hi0.
  assert (Hld : forall u ρu j, O !! u = Some ρu -> 0 <= j < 512 ->
            (u <> t0 \/ j <> PX 0 va) ->
            load64 m' (u + 8 * j) = load64 m (u + 8 * j)).
  { intros u ρu j Hu Hj Hne. apply load64_store64_ne.
    apply entries_disjoint; try done; [by eapply pt_page|by eapply pt_page|].
    destruct Hne; auto. }
  assert (Hdir : forall u ρu, O !! u = Some ρu -> is_dir ρu -> u <> t0).
  { intros u ρu Hu Hd ->. rewrite H0 in Hu. by simplify_eq. }
  assert (W' : pt_wf m' r O).
  { pose proof W as []. split; try done.
    - intros t ρ i Ht Hd Hi. rewrite (Hld t ρ) by eauto. by eauto.
    - intros t ρ i t' Ht Hd Hi Ht'. rewrite (Hld t ρ) by eauto. by eauto. }
  split; [done|]. intros vb Hvb. pose proof (PX_range 0 vb ltac:(lia)) as Hj0.
  destruct (low_dec O vb) as [[u Hu]|Hn].
  - rewrite (pte_at_low m' r O vb u), (pte_at_low m r O vb u) by done.
    case_decide as Hp.
    + rewrite (PX_same_page 2 vb va), (PX_same_page 1 vb va) in Hu by (lia || done).
      rewrite (role_inj m r O u t0 _ W Hu H0), (PX_same_page 0 vb va) by (lia || done).
      apply load64_store64.
    + apply (Hld _ _ _ Hu Hj0). destruct (decide (u = t0)) as [->|]; [right|by left].
      intros E. apply Hp. rewrite H0 in Hu. simplify_eq. by apply PX_inj.
  - rewrite (pte_at_nolow m' r O), (pte_at_nolow m r O) by done.
    case_decide as Hp; [|done]. exfalso. apply (Hn t0). rewrite H0.
    by rewrite (PX_same_page 2 vb va), (PX_same_page 1 vb va) by (lia || done).
Qed.

End PtRep.
