(* ===== verification/PtOps.v ===== *)
(** [walk], [walkaddr] and [mappages] of [Vm] against the representation of
    [PtRep]: what they return, which translations they change, and which pages of
    the free list become tables. *)
From S2P Require Import Prelude Types Riscv Str Kalloc Vm PtRep.

Section PtOps.
Context {L : Linker} {LOk : LinkerOk L}.
Implicit Types (m : gmap Z Z) (O : gmap Z role) (r t va : Z).

(** A page table beside the allocator: its tables are not free pages. *)
Record pt_own (s : kst) r O (fl : list Z) : Prop := {
  own_wf : pt_wf (mem s) r O;
  own_kmem : kmem_inv s fl;
  own_disj t : is_Some (O !! t) -> t ∉ fl
}.

(** [s'] comes from [s] by turning pages of the free list into tables: the rest
    of memory and of the kernel's state is as before. *)
Record pt_ext (s : kst) O fl (s' : kst) O' fl' : Prop := {
  ext_state : s' = set_freelist (freelist s') (set_mem (mem s') s);
  ext_sub : O ⊆ O';
  ext_new : exists new, fl = new ++ fl' /\ forall t, is_Some (O' !! t) <-> is_Some (O !! t) \/ t ∈ new;
  ext_frame x : (forall t, is_Some (O' !! t) -> ~ in_page t x) -> mget (mem s') x = mget (mem s) x
}.

Lemma pt_ext_refl s O fl : pt_ext s O fl s O fl.
Proof. split; [by destruct s|done| |done]. exists []. set_solver. Qed.

Lemma pt_ext_trans s O fl s1 O1 fl1 s2 O2 fl2 :
  pt_ext s O fl s1 O1 fl1 -> pt_ext s1 O1 fl1 s2 O2 fl2 -> pt_ext s O fl s2 O2 fl2.
Proof.
  intros [E1 S1 (n1 & -> & N1) F1] [E2 S2 (n2 & -> & N2) F2]. split.
  - rewrite E2, E1. done.
  - by etrans.
  - exists (n1 ++ n2). rewrite <- app_assoc. split; [done|]. intros t.
    rewrite N2, N1. set_solver.
  - intros x Hx. rewrite F2 by done. apply F1. intros t [ρ Ht]. apply Hx.
    exists ρ. by eapply lookup_weaken.
Qed.

Lemma in_page_neq t t' x : page_ok t -> page_ok t' -> t <> t' -> in_page t x -> ~ in_page t' x.
Proof. intros [] [] Hne Hx Hx'. apply Hne. by eapply pages_disjoint. Qed.

Lemma kmem_page s fl q : kmem_inv s fl -> q ∈ fl -> page_ok q.
Proof. intros K Hq. eapply Forall_forall in Hq; [exact Hq|]. apply K. Qed.

(** A store to an entry of a table leaves the free list alone. *)
Lemma kmem_store s fl t i v :
  kmem_inv s fl -> page_ok t -> t ∉ fl -> 0 <= i < 512 ->
  kmem_inv (set_mem (store64 (mem s) (t + 8 * i) v) s) fl.
Proof.
  intros K Ht Hn Hi. eapply kmem_inv_frame; [exact K|by destruct s|by destruct s; apply K|].
  intros q x Hq Hx. cbn. apply mget_store64_out. intros Hx'.
  eapply (in_page_neq q t); [by eapply kmem_page|done|set_solver|done|].
  by apply (entry_in_page t i).
Qed.

(** [walk] without allocation finds the slot the hardware would. *)
Lemma walk_noalloc r va s :
  va < MAXVA -> walk r va false s = Ok (default 0 (pt_slot (mem s) r va)) s.
Proof.
  intros Hva. unfold walk. rewrite (proj2 (Z.leb_gt _ _)) by done.
  cbn [walk_loop]. unfold pt_slot, ld64, bind, get. cbn [Z.of_nat Pos.of_succ_nat Pos.succ].
  destruct (has (load64 (mem s) (r + _)) _); [|done]. cbn.
  by destruct (has (load64 _ (PTE2PA _ + _)) _).
Qed.

Lemma wp_walk_noalloc r va s (Q : Z -> kst -> Prop) :
  va < MAXVA -> Q (default 0 (pt_slot (mem s) r va)) s -> wp (walk r va false) Q s.
Proof. intros Hva HQ. unfold wp. by rewrite walk_noalloc. Qed.

(** One new table, as [walk] makes it. *)
Lemma wp_new_table {A} s r O q fl t ρ i (k : Z -> M A) (z : A) (Q : A -> kst -> Prop) :
  pt_own s r O (q :: fl) -> O !! t = Some ρ -> is_dir ρ -> 0 <= i < 512 ->
  (ρ = Root -> i < 256) ->
  has (load64 (mem s) (t + 8 * i)) PTE_V = false ->
  (forall s', pt_own s' r (<[q := child ρ i]> O) fl ->
     pt_ext s O (q :: fl) s' (<[q := child ρ i]> O) fl ->
     (forall va, pte_at (mem s') r va = pte_at (mem s) r va) ->
     wp (k q) Q s') ->
  wp (let! q' := kalloc in
      if q' =? 0 then ret z
      else
        memset_k q' 0 PGSIZE ;;;
        st64 (t + 8 * i) (Z.lor (PA2PTE q') PTE_V) ;;;
        k q') Q s.
Proof.
  intros [W K D] Ht Hd Hi Htop HnV HQ.
  assert (page_ok q) as Hq by (eapply kmem_page; [done|set_solver]).
  assert (page_ok t) as Htp by (by eapply pt_page).
  assert (O !! q = None) as Hnq.
  { apply eq_None_not_Some. intros Hs. apply (D q Hs). set_solver. }
  assert (Htq : t <> q) by congruence.
  pose proof (page_ok_bounds q Hq). pose proof (kmem_nodup _ _ K) as [Hqf _]%NoDup_cons.
  wp_step. eapply wp_kalloc; [done|]. intros s1 E1 K1 M1.
  destruct (Z.eqb_spec q 0); [lia|].
  wp_step. apply wp_memset_k; [done|]. intros m2 M2. wp_step. apply wp_upd. cbn [mem set_mem].
  set (v := Z.lor (PA2PTE q) PTE_V). set (m3 := store64 m2 (t + 8 * i) v).
  assert (Hout : forall x, ~ in_page q x -> ~ (t + 8 * i <= x < t + 8 * i + 8) ->
            mget m3 x = mget (mem s) x).
  { intros x Hx Hx'. unfold m3. rewrite mget_store64_out by done. rewrite M2.
    rewrite decide_False by done. rewrite M1. by rewrite decide_False. }
  assert (Hz : forall x, in_page q x -> mget m3 x = 0).
  { intros x Hx. unfold m3. rewrite mget_store64_out.
    - rewrite M2. rewrite decide_True by done. done.
    - intros Hx'. eapply (in_page_neq q t); [done..|by symmetry|done|].
      by apply (entry_in_page t i). }
  destruct (pt_add (mem s) m3 r O t ρ i q) as [W3 P3]; try done.
  { unfold m3. rewrite load64_store64. apply u64_small. unfold v.
    destruct (page_ok_pa q Hq). pose proof (mk_pte_range q PTE_V). lia. }
  { intros u x [ρu Hu] Hx Hx'. apply Hout; [|done].
    eapply in_page_neq; [by eapply pt_page|done| |done]. congruence. }
  apply HQ; [split|split|].
  - done.
  - cbn. eapply (kmem_store (set_mem m2 s1) fl t i v); [|done| |done].
    + eapply kmem_inv_frame; [exact K1|by destruct s1|destruct s1; apply K1|].
      intros p x Hp Hx. cbn. rewrite M2, decide_False; [done|].
      eapply (in_page_neq p q); [by eapply kmem_page|done|set_solver|done].
    + intros Hin. apply (D t); [eauto|set_solver].
  - intros u [ρu Hu] Hin. rewrite lookup_insert in Hu. case_decide; [set_solver|].
    apply (D u); [eauto|set_solver].
  - rewrite E1. done.
  - by apply insert_subseteq.
  - exists [q]. split; [done|]. intros u. rewrite lookup_insert, list_elem_of_singleton.
    case_decide; [naive_solver|]. split; [by left|]. intros [?|?]; [done|congruence].
  - intros x Hx. cbn. apply Hout.
    + apply Hx. rewrite lookup_insert_eq. eauto.
    + intros Hx'. apply (Hx t); [rewrite lookup_insert_ne by congruence; eauto|].
      by apply (entry_in_page t i).
  - done.
Qed.

Lemma child_role_of level va :
  (level < 2)%nat -> child (role_of (S level) va) (PX (Z.of_nat (S level)) va) = role_of level va.
Proof. intros H. destruct level as [|[|]]; [done..|lia]. Qed.

Lemma is_dir_role_of level va : is_dir (role_of (S level) va).
Proof. by destruct level. Qed.

(** The result of a walk that may allocate: the tables grow, no translation
    changes, and the slot is there unless memory ran out. *)
Definition walk_post s r O fl va (a : Z) (s' : kst) : Prop :=
  exists O' fl', pt_own s' r O' fl' /\ pt_ext s O fl s' O' fl' /\
    (forall vb, pte_at (mem s') r vb = pte_at (mem s) r vb) /\
    ((a = 0 /\ fl' = []) \/
     exists t0, O' !! t0 = Some (Low (PX 2 va) (PX 1 va)) /\ a = t0 + 8 * PX 0 va).

Lemma walk_post_trans s r O fl va s1 O1 fl1 a s2 :
  pt_ext s O fl s1 O1 fl1 -> (forall vb, pte_at (mem s1) r vb = pte_at (mem s) r vb) ->
  walk_post s1 r O1 fl1 va a s2 -> walk_post s r O fl va a s2.
Proof.
  intros E P (O' & fl' & H1 & H2 & H3 & H4). exists O', fl'.
  split_and!; [done|by eapply pt_ext_trans| |done]. intros vb. by rewrite H3.
Qed.

Lemma wp_walk_loop level : forall s r O fl t va,
  (level <= 2)%nat -> 0 <= va < MAXVA -> pt_own s r O fl ->
  O !! t = Some (role_of level va) ->
  wp (walk_loop level t va true) (walk_post s r O fl va) s.
Proof.
  induction level as [|level IH]; intros s r O fl t va Hl Hva Own Ht.
  { apply wp_ret. exists O, fl. split_and!; [done|apply pt_ext_refl|done|].
    right. eauto. }
  cbn [walk_loop]. set (i := PX (Z.of_nat (S level)) va).
  assert (0 <= i < 512) as Hi by (apply PX_range; lia).
  pose proof (child_role_of level va ltac:(lia)) as Hc. fold i in Hc.
  wp_step. apply wp_get. destruct (has _ PTE_V) eqn:HV.
  - destruct Own as [W K D].
    destruct (pt_down _ _ _ W t (role_of (S level) va) i) as (t' & E & Ht');
      [done|apply is_dir_role_of|done|by rewrite HV|].
    rewrite E, PTE2PA_table by (by eapply pt_page). rewrite Hc in Ht'.
    apply IH; [lia|done|done|done].
  - cbn [negb]. destruct fl as [|q fl].
    + wp_step. apply wp_kalloc_empty; [apply Own|]. cbn. apply wp_ret.
      exists O, []. split_and!; [done|apply pt_ext_refl|done|by left].
    + assert (page_ok q) as Hq by (eapply kmem_page; [apply Own|set_solver]).
      pose proof (page_ok_bounds q Hq).
      eapply wp_new_table; [done|done|apply is_dir_role_of|done| |done|].
      { intros Hr. destruct level as [|[|]]; [done| |lia]. by apply PX_top. }
      rewrite Hc. intros s1 Own1 E1 P1. eapply wp_mono.
      * eapply IH; [lia|done|done|by rewrite lookup_insert_eq].
      * intros a s2. by eapply walk_post_trans.
Qed.

Lemma wp_walk_alloc s r O fl va :
  0 <= va < MAXVA -> pt_own s r O fl -> wp (walk r va true) (walk_post s r O fl va) s.
Proof.
  intros Hva Own. unfold walk. rewrite (proj2 (Z.leb_gt _ _)) by lia.
  apply wp_walk_loop; [lia|done|done|apply Own].
Qed.

(** ** Leaf entries *)

Definition leaf_pte (pa perm : Z) : Z := Z.lor (Z.lor (PA2PTE pa) perm) PTE_V.

Definition pa_ok (pa : Z) : Prop := 0 <= pa < 2 ^ 54 /\ pa mod PGSIZE = 0.

Lemma page_ok_pa_ok p : page_ok p -> pa_ok p.
Proof. intros [? ?]%page_ok_pa. split; lia. Qed.

Lemma perm_lor_range p q : 0 <= p < 1024 -> 0 <= q < 1024 -> 0 <= Z.lor p q < 1024.
Proof.
  intros Hp Hq. assert (0 <= Z.lor p q) by (apply Z.lor_nonneg; lia). split; [done|].
  destruct (decide (Z.lor p q = 0)) as [->|Hz]; [lia|].
  apply (Z.log2_lt_pow2 _ 10); [lia|].
  rewrite Z.log2_lor by lia. apply Z.max_lub_lt.
  - destruct (decide (p = 0)) as [->|]; [done|]. apply Z.log2_lt_pow2; lia.
  - destruct (decide (q = 0)) as [->|]; [done|]. apply Z.log2_lt_pow2; lia.
Qed.

Section Leaf.
  Context (pa perm : Z) (Hpa : pa_ok pa) (Hperm : 0 <= perm < 1024).

Local Lemma leaf_assoc : leaf_pte pa perm = Z.lor (PA2PTE pa) (Z.lor perm PTE_V).
  Proof. unfold leaf_pte. by rewrite Z.lor_assoc. Qed.

Local Lemma leaf_fl : 0 <= Z.lor perm PTE_V < 1024.
  Proof. apply perm_lor_range; lia. Qed.

Lemma leaf_V : has (leaf_pte pa perm) PTE_V = true.
  Proof. by apply has_lor_r. Qed.
Lemma leaf_PA : PTE2PA (leaf_pte pa perm) = pa.
  Proof. pose proof leaf_fl. destruct Hpa. rewrite leaf_assoc. by apply PTE2PA_mk. Qed.
Lemma leaf_FLAGS : PTE_FLAGS (leaf_pte pa perm) = Z.lor perm PTE_V.
  Proof. pose proof leaf_fl. destruct Hpa. rewrite leaf_assoc. by apply PTE_FLAGS_mk. Qed.
Lemma leaf_has f : 0 <= f < 1024 -> has (leaf_pte pa perm) f = has (Z.lor perm PTE_V) f.
  Proof. pose proof leaf_fl. destruct Hpa. rewrite leaf_assoc. intros. by apply has_mk. Qed.
Lemma leaf_u64 : u64 (leaf_pte pa perm) = leaf_pte pa perm.
  Proof.
    pose proof leaf_fl. destruct Hpa. rewrite leaf_assoc.
    apply u64_small. by apply mk_pte_range.
  Qed.
End Leaf.

Lemma own_set_leaf s r O fl va t0 v :
  pt_own s r O fl -> 0 <= va < MAXVA -> O !! t0 = Some (Low (PX 2 va) (PX 1 va)) ->
  let s' := set_mem (store64 (mem s) (t0 + 8 * PX 0 va) v) s in
  pt_own s' r O fl /\ pt_ext s O fl s' O fl /\
  forall vb, 0 <= vb < MAXVA -> pte_at (mem s') r vb =
    if decide (vb / 4096 = va / 4096) then u64 v else pte_at (mem s) r vb.
Proof.
  intros [W K D] Hva H0 s'. pose proof (PX_range 0 va ltac:(lia)) as Hi.
  assert (page_ok t0) as Hp by (by eapply pt_page).
  destruct (pt_set_leaf (mem s) r O va t0 v) as [W' P]; [done..|].
  split_and!; [split|split|].
  - done.
  - apply kmem_store; [done|done|apply D; eauto|done].
  - done.
  - done.
  - done.
  - exists []. set_solver.
  - intros x Hx. cbn. apply mget_store64_out. intros Hx'. apply (Hx t0); [eauto|].
    by apply (entry_in_page t0 (PX 0 va)).
  - done.
Qed.

(** ** [mappages] *)

(** The first [done] bytes of the range are mapped: all of it on success, and on
    failure what was mapped before memory ran out. *)
Definition map_post s r O fl va size pa perm (res : Z) (s' : kst) : Prop :=
  exists O' fl' done, pt_own s' r O' fl' /\ pt_ext s O fl s' O' fl' /\
    ((res = 0 /\ done = size) \/ (res = -1 /\ 0 <= done < size /\ fl' = [])) /\
    done mod PGSIZE = 0 /\
    forall vb, 0 <= vb < MAXVA -> pte_at (mem s') r vb =
      if decide (va <= vb < va + done) then leaf_pte (pa + PGROUNDDOWN (vb - va)) perm
      else pte_at (mem s) r vb.

Lemma low_slot_nonzero s r O fl t0 ρ i :
  pt_own s r O fl -> O !! t0 = Some ρ -> 0 <= i -> t0 + 8 * i <> 0.
Proof.
  intros [W _ _] H0 Hi. pose proof (page_ok_bounds t0 (pt_page _ _ _ W _ _ H0)). lia.
Qed.

Lemma pt_ext_pages s O fl s' O' fl' t :
  pt_ext s O fl s' O' fl' -> t ∉ fl -> O !! t = None -> O' !! t = None.
Proof.
  intros [_ _ (new & -> & N) _] Ht HO. apply eq_None_not_Some. intros H.
  apply N in H as [[? ?]|?]; [congruence|set_solver].
Qed.

Lemma wp_mappages_loop n : forall s r O fl a pa perm,
  (0 < n)%nat -> pt_own s r O fl ->
  a mod PGSIZE = 0 -> 0 <= a -> a + Z.of_nat n * PGSIZE <= MAXVA ->
  pa mod PGSIZE = 0 -> 0 <= pa -> pa + Z.of_nat n * PGSIZE <= 2 ^ 54 -> 0 <= perm < 1024 ->
  (forall vb, a <= vb < a + Z.of_nat n * PGSIZE -> has (pte_at (mem s) r vb) PTE_V = false) ->
  wp (mappages_loop r a (a + Z.of_nat n * PGSIZE - PGSIZE) pa perm n)
     (map_post s r O fl a (Z.of_nat n * PGSIZE) pa perm) s.
Proof.
  induction n as [|n IH]; intros s r O fl a pa perm Hn Own Ha Ha0 Hal Hp Hp0 Hpl Hperm Hun;
    [lia|].
  cbn [mappages_loop]. wp_step.
  wp_apply (wp_walk_alloc s r O fl a); [lia|done|].
  intros pte s1 (O1 & fl1 & Own1 & E1 & P1 & Hpte).
  destruct Hpte as [[-> ->]|(t0 & H0 & ->)].
  { cbn. apply wp_ret. exists O1, [], 0. split_and!; [done|done|right; split_and!; lia || done|done|].
    intros vb Hvb. rewrite decide_False by lia. apply P1. }
  pose proof (PX_range 0 a ltac:(lia)).
  rewrite (proj2 (Z.eqb_neq _ _)) by (eapply low_slot_nonzero; [done|done|lia]).
  wp_step. apply wp_get.
  rewrite <- (pte_at_low (mem s1) r O1 a t0) by (done || apply Own1).
  rewrite P1, Hun by lia. wp_step. apply wp_upd.
  assert (Hpaok : pa_ok pa) by (split; lia).
  destruct (own_set_leaf s1 r O1 fl1 a t0 (leaf_pte pa perm)) as (Own2 & E2 & P2);
    [done|lia|done|]. rewrite leaf_u64 in P2 by done.
  unfold leaf_pte in Own2, E2, P2 at 1.
  set (s2 := set_mem _ s1) in *.
  assert (E02 : pt_ext s O fl s2 O1 fl1) by (by eapply pt_ext_trans).
  assert (Hpg : forall vb, vb / 4096 = a / 4096 <-> a <= vb < a + PGSIZE).
  { intros vb. Z.div_mod_to_equations. lia. }
  assert (Hgd : forall x, 0 <= x < PGSIZE -> PGROUNDDOWN x = 0).
  { intros x Hx. rewrite PGROUNDDOWN_eq, Z.div_small by lia. done. }
  assert (P02 : forall vb, 0 <= vb < MAXVA -> pte_at (mem s2) r vb =
            if decide (a <= vb < a + PGSIZE) then leaf_pte pa perm else pte_at (mem s) r vb).
  { intros vb Hvb. rewrite P2, P1 by done. repeat case_decide; try done; naive_solver. }
  destruct (Z.eqb_spec a (a + Z.of_nat (S n) * PGSIZE - PGSIZE)).
  { assert (n = 0%nat) as -> by lia. apply wp_ret. exists O1, fl1, PGSIZE.
    split_and!; [done|done|by left|done|]. intros vb Hvb. rewrite P02 by done.
    case_decide; [|done]. rewrite Hgd by lia. by rewrite Z.add_0_r. }
  rewrite (u64_small (a + _)), (u64_small (pa + _)) by lia.
  replace (a + Z.of_nat (S n) * PGSIZE - PGSIZE)
    with (a + PGSIZE + Z.of_nat n * PGSIZE - PGSIZE) by lia.
  eapply wp_mono.
  { eapply (IH s2 r O1 fl1); try done; try lia.
    - rewrite Z.add_mod, Ha by lia. done.
    - rewrite Z.add_mod, Hp by lia. done.
    - intros vb Hvb. rewrite P02 by lia. rewrite decide_False by lia. apply Hun. lia. }
  intros res s3 (O3 & fl3 & d & Own3 & E3 & Hres & Hd & P3).
  exists O3, fl3, (d + PGSIZE). split_and!; [done|by eapply pt_ext_trans| | |].
  { destruct Hres as [[-> ->]|(-> & ? & ->)]; [left|right]; split_and!; lia || done. }
  { rewrite Z.add_mod, Hd by lia. done. }
  intros vb Hvb. rewrite P3, P02 by done. assert (0 <= d) by (destruct Hres; lia).
  repeat case_decide; try lia; try done.
  - f_equal. rewrite !PGROUNDDOWN_eq. Z.div_mod_to_equations. lia.
  - rewrite Hgd by lia. by rewrite Z.add_0_r.
Qed.

Lemma wp_mappages s r O fl va size pa perm :
  pt_own s r O fl ->
  va mod PGSIZE = 0 -> 0 <= va -> size mod PGSIZE = 0 -> 0 < size -> va + size <= MAXVA ->
  pa mod PGSIZE = 0 -> 0 <= pa -> pa + size <= 2 ^ 54 -> 0 <= perm < 1024 ->
  (forall vb, va <= vb < va + size -> has (pte_at (mem s) r vb) PTE_V = false) ->
  wp (mappages r va size pa perm) (map_post s r O fl va size pa perm) s.
Proof.
  intros Own Hva Hva0 Hsz Hsz0 Hmax Hpa Hpa0 Hpam Hperm Hun.
  assert (PGSIZE <= size) by (Z.div_mod_to_equations; lia).
  unfold mappages. rewrite Hva, Hsz. cbn.
  rewrite (proj2 (Z.eqb_neq _ _)), u64_small by lia.
  set (n := Z.to_nat (size / PGSIZE)).
  assert (size = Z.of_nat n * PGSIZE) as Esz.
  { unfold n. rewrite Z2Nat.id by (apply Z.div_pos; lia). Z.div_mod_to_equations. lia. }
  clearbody n. subst size. apply wp_mappages_loop; try done. lia.
Qed.

(** One page: it is mapped, or nothing changed and memory is exhausted. *)
Lemma wp_mappages_page s r O fl va pa perm :
  pt_own s r O fl -> va mod PGSIZE = 0 -> 0 <= va < MAXVA -> pa_ok pa ->
  0 <= perm < 1024 -> has (pte_at (mem s) r va) PTE_V = false ->
  wp (mappages r va PGSIZE pa perm)
    (fun res s' => exists O' fl', pt_own s' r O' fl' /\ pt_ext s O fl s' O' fl' /\
      ((res = 0 /\ forall vb, 0 <= vb < MAXVA -> pte_at (mem s') r vb =
         if decide (vb / 4096 = va / 4096) then leaf_pte pa perm else pte_at (mem s) r vb) \/
       (res = -1 /\ fl' = [] /\
        forall vb, 0 <= vb < MAXVA -> pte_at (mem s') r vb = pte_at (mem s) r vb))) s.
Proof.
  intros Own Hva Hr [Hpa Hpa'] Hperm Hun.
  assert (Hpg : forall vb, vb / 4096 = va / 4096 <-> va <= vb < va + PGSIZE).
  { intros vb. Z.div_mod_to_equations. lia. }
  eapply wp_mono.
  { apply (wp_mappages s r O fl); try done; try lia.
    - Z.div_mod_to_equations. lia.
    - Z.div_mod_to_equations. lia.
    - intros vb Hvb. rewrite <- Hun. f_equal. apply Hpg in Hvb. unfold pte_at, pt_slot.
      by rewrite !(PX_same_page _ vb va) by (lia || done). }
  intros res s' (O' & fl' & d & Own' & E & Hres & Hd & P). exists O', fl'.
  split_and!; [done..|]. destruct Hres as [[-> ->]|(-> & ? & ->)]; [left|right].
  - split; [done|]. intros vb Hvb. rewrite P by done.
    repeat case_decide; try naive_solver.
    rewrite PGROUNDDOWN_eq, Z.div_small by lia. by rewrite Z.add_0_r.
  - split_and!; [done..|]. intros vb Hvb. rewrite P by done.
    assert (d = 0) as -> by (Z.div_mod_to_equations; lia).
    by rewrite decide_False by lia.
Qed.

End PtOps.
