(* ===== verification/Uvm.v ===== *)
(** User address spaces: [uvmunmap], [uvmdealloc], [uvmalloc], [freewalk],
    [uvmfree] and [uvmcopy] of [Vm], as operations on a page table and the frames
    it owns. *)
From S2P Require Import Prelude Types Riscv Str Kalloc Vm PtRep PtOps.

Section Uvm.
Context {L : Linker} {LOk : LinkerOk L}.
Implicit Types (O : gmap Z role) (U : gmap Z Z) (r t va : Z).

(** A page table with the frames it owns: [U] maps the address of a page to the
    frame behind it.  Frames are distinct, and are neither tables nor free. *)
Record uvm_own (s : kst) r O (fl : list Z) U : Prop := {
  uvm_pt : pt_own s r O fl;
  uvm_va va pa : U !! va = Some pa -> va mod PGSIZE = 0 /\ 0 <= va < MAXVA;
  uvm_frame va pa : U !! va = Some pa -> page_ok pa /\ (pa ∉ fl) /\ O !! pa = None;
  uvm_pte va pa : U !! va = Some pa -> exists perm,
    pte_at (mem s) r va = leaf_pte pa perm /\ 0 <= perm < 1024 /\ Z.lor perm PTE_V <> PTE_V;
  uvm_inj va vb pa : U !! va = Some pa -> U !! vb = Some pa -> va = vb
}.

Definition only_mem (s s' : kst) : Prop :=
  s' = set_freelist (freelist s') (set_mem (mem s') s).

Lemma only_mem_refl s : only_mem s s.
Proof. by destruct s. Qed.
Lemma only_mem_trans s s1 s2 : only_mem s s1 -> only_mem s1 s2 -> only_mem s s2.
Proof. unfold only_mem. intros -> ->. done. Qed.

Lemma pte_slot_some s r O fl va :
  pt_own s r O fl -> has (pte_at (mem s) r va) PTE_V = true ->
  exists t0, O !! t0 = Some (Low (PX 2 va) (PX 1 va)) /\
    pt_slot (mem s) r va = Some (t0 + 8 * PX 0 va) /\
    load64 (mem s) (t0 + 8 * PX 0 va) = pte_at (mem s) r va /\ t0 + 8 * PX 0 va <> 0.
Proof.
  intros Own HV. unfold pte_at in *. destruct (pt_slot (mem s) r va) as [a|] eqn:E;
    [|by rewrite has_0 in HV].
  pose proof E as (t0 & H0 & ->)%(pt_slot_low _ _ O _ _ (own_wf _ _ _ _ Own)).
  exists t0. split_and!; [done..|]. pose proof (PX_range 0 va ltac:(lia)).
  eapply low_slot_nonzero; [done..|lia].
Qed.

(** A freed frame: its page joins the free list and its entry is cleared. *)
Lemma wp_unmap_frame {A} s r O fl U va pa t0 (k : M A) (Q : A -> kst -> Prop) :
  uvm_own s r O fl U -> U !! va = Some pa ->
  O !! t0 = Some (Low (PX 2 va) (PX 1 va)) ->
  (forall s', uvm_own s' r O (pa :: fl) (delete va U) -> only_mem s s' ->
     (forall vb, 0 <= vb < MAXVA -> pte_at (mem s') r vb =
        if decide (vb / 4096 = va / 4096) then 0 else pte_at (mem s) r vb) ->
     (forall x, (forall t, is_Some (O !! t) -> ~ in_page t x) -> ~ in_page pa x ->
        mget (mem s') x = mget (mem s) x) ->
     wp k Q s') ->
  wp (kfree pa ;;; st64 (t0 + 8 * PX 0 va) 0 ;;; k) Q s.
Proof.
  intros Own HU H0 HQ. pose proof Own as [[W K D] Hva Hfr Hpte Hinj].
  destruct (Hfr _ _ HU) as (Hp & Hnf & HnO). destruct (Hva _ _ HU) as [Hal Hr].
  wp_step. eapply wp_kfree; [done..|]. intros s1 E1 K1 M1.
  assert (Hne : forall t, is_Some (O !! t) -> t <> pa) by (intros t [? Ht] ->; congruence).
  destruct (pt_frame (mem s) (mem s1) r O) as [W1 P1]; [|done|].
  { intros t x Ht Hx. apply M1. pose proof Ht as [ρ Hρ].
    eapply in_page_neq; [by eapply pt_page|done|by apply Hne|done]. }
  assert (Own1 : pt_own s1 r O (pa :: fl)).
  { split; [done..|]. intros t Ht. pose proof (Hne t Ht). pose proof (D t Ht). set_solver. }
  wp_step. apply wp_upd.
  destruct (own_set_leaf s1 r O (pa :: fl) va t0 0) as (Own2 & E2 & P2); [done..|].
  set (s2 := set_mem _ s1) in *.
  assert (P02 : forall vb, 0 <= vb < MAXVA -> pte_at (mem s2) r vb =
     if decide (vb / 4096 = va / 4096) then 0 else pte_at (mem s) r vb).
  { intros vb Hvb. rewrite P2, P1 by done. by case_decide. }
  apply HQ; [split| |done|].
  - done.
  - intros vb pb [_ Hb]%lookup_delete_Some. eauto.
  - intros vb pb [Hne' Hb]%lookup_delete_Some. destruct (Hfr _ _ Hb) as (? & ? & ?).
    split_and!; [done| |done]. intros [->|?]%elem_of_cons; [|done].
    by rewrite (Hinj _ _ _ Hb HU) in Hne'.
  - intros vb pb [Hne' Hb]%lookup_delete_Some. destruct (Hva _ _ Hb).
    rewrite P02 by done. rewrite decide_False; [by apply Hpte|].
    intros Hdiv. apply Hne'. Z.div_mod_to_equations. lia.
  - intros vb vc pb [_ Hb]%lookup_delete_Some [_ Hc]%lookup_delete_Some. by eapply Hinj.
  - eapply only_mem_trans; [exact E1|]. apply E2.
  - intros x Hx Hxp. rewrite (ext_frame _ _ _ _ _ _ E2) by done. by apply M1.
Qed.

(** [uvmunmap] with [do_free]. *)
Definition unmap_post s r O fl U a len (s' : kst) : Prop :=
  exists ps U', uvm_own s' r O (ps ++ fl) U' /\ only_mem s s' /\
    (forall va, U' !! va = if decide (a <= va < a + len) then None else U !! va) /\
    (forall p, p ∈ ps <-> exists va, a <= va < a + len /\ U !! va = Some p) /\
    (forall vb, 0 <= vb < MAXVA -> pte_at (mem s') r vb =
       if decide (a <= vb < a + len) then 0 else pte_at (mem s) r vb) /\
    (forall x, (forall t, is_Some (O !! t) -> ~ in_page t x) ->
       (forall p, p ∈ ps -> ~ in_page p x) -> mget (mem s') x = mget (mem s) x).

Lemma wp_uvmunmap_loop n : forall s r O fl U a,
  uvm_own s r O fl U -> a mod PGSIZE = 0 -> 0 <= a -> a + Z.of_nat n * PGSIZE <= MAXVA ->
  (forall va, a <= va < a + Z.of_nat n * PGSIZE -> va mod PGSIZE = 0 -> is_Some (U !! va)) ->
  wp (uvmunmap_loop r a (a + Z.of_nat n * PGSIZE) true n)
     (fun _ s' => unmap_post s r O fl U a (Z.of_nat n * PGSIZE) s') s.
Proof.
  induction n as [|n IH]; intros s r O fl U a Own Ha Ha0 Hmax HU; cbn [uvmunmap_loop].
  { rewrite (proj2 (Z.ltb_ge _ _)) by lia. apply wp_ret. exists [], U.
    split_and!; [done|apply only_mem_refl|..].
    - intros va. by rewrite decide_False by lia.
    - intros p. split; [set_solver|]. intros (? & ? & _). lia.
    - intros vb _. by rewrite decide_False by lia.
    - done. }
  rewrite (proj2 (Z.ltb_lt _ _)) by lia.
  destruct (HU a ltac:(lia) Ha) as [pa Hpa].
  destruct (uvm_pte _ _ _ _ _ Own _ _ Hpa) as (perm & Epte & Hperm & Hfl).
  destruct (uvm_frame _ _ _ _ _ Own _ _ Hpa) as (Hpok & _).
  pose proof (page_ok_pa_ok _ Hpok) as Hpaok.
  destruct (pte_slot_some s r O fl a) as (t0 & H0 & Es & El & Hnz);
    [apply Own|rewrite Epte; by apply leaf_V|].
  wp_step. apply wp_walk_noalloc; [lia|]. rewrite Es. cbn [default from_option id].
  rewrite (proj2 (Z.eqb_neq _ _)) by done.
  wp_step. apply wp_get. rewrite El, Epte, leaf_V, leaf_FLAGS, leaf_PA by done.
  cbn [negb]. rewrite (proj2 (Z.eqb_neq _ _)) by done.
  eapply wp_unmap_frame; [done..|]. intros s1 Own1 E1 P1 F1.
  rewrite u64_small by lia.
  replace (a + Z.of_nat (S n) * PGSIZE) with (a + PGSIZE + Z.of_nat n * PGSIZE) by lia.
  eapply wp_mono.
  { apply IH; [done|..|lia|lia|].
    - rewrite Z.add_mod, Ha by lia. done.
    - intros va Hva Hal. rewrite lookup_delete_ne by lia. apply HU; [lia|done]. }
  intros _ s2 (ps & U2 & Own2 & E2 & HU2 & Hps & P2 & F2).
  assert (Hal : forall va pb, U !! va = Some pb -> a <= va < a + PGSIZE -> va = a).
  { intros va pb Hb Hr. destruct (uvm_va _ _ _ _ _ Own _ _ Hb). Z.div_mod_to_equations. lia. }
  exists (ps ++ [pa]), U2. rewrite <- app_assoc.
  split_and!; [done|by eapply only_mem_trans|..].
  - intros va. rewrite HU2, lookup_delete. repeat case_decide; try done; try lia.
    destruct (U !! va) eqn:E; [|done]. exfalso.
    pose proof (Hal va z E ltac:(lia)). lia.
  - intros p. rewrite elem_of_app, list_elem_of_singleton, Hps. split.
    + intros [(va & Hr & Hb)| ->]; [|exists a; split; lia || done].
      apply lookup_delete_Some in Hb as [_ Hb]. exists va. split; lia || done.
    + intros (va & Hr & Hb). destruct (decide (va = a)) as [->|]; [right; congruence|].
      left. exists va. rewrite lookup_delete_ne by done. split; [|done].
      destruct (decide (va < a + PGSIZE)); [|lia]. pose proof (Hal va p Hb ltac:(lia)). lia.
  - intros vb Hvb. rewrite P2, P1 by done.
    assert (vb / 4096 = a / 4096 <-> a <= vb < a + PGSIZE) by (Z.div_mod_to_equations; lia).
    repeat case_decide; try done; lia.
  - intros x Hx Hx'. rewrite F2, F1; [done|done| |done|].
    + apply Hx'. set_solver.
    + intros p Hp. apply Hx'. set_solver.
Qed.

Lemma wp_uvmunmap s r O fl U va n :
  uvm_own s r O fl U -> va mod PGSIZE = 0 -> 0 <= va -> 0 <= n -> va + n * PGSIZE <= MAXVA ->
  (forall vb, va <= vb < va + n * PGSIZE -> vb mod PGSIZE = 0 -> is_Some (U !! vb)) ->
  wp (uvmunmap r va n true) (fun _ s' => unmap_post s r O fl U va (n * PGSIZE) s') s.
Proof.
  intros Own Hva Hva0 Hn Hmax HU. unfold uvmunmap. rewrite Hva. cbn.
  rewrite (u64_small (n * _)), u64_small by lia.
  pose proof (wp_uvmunmap_loop (Z.to_nat n) s r O fl U va) as H.
  rewrite Z2Nat.id in H by done. by apply H.
Qed.

Lemma unmap_post_refl s r O fl U a :
  uvm_own s r O fl U -> unmap_post s r O fl U a 0 s.
Proof.
  intros Own. exists [], U. split_and!; [done|apply only_mem_refl|..].
  - intros va. by rewrite decide_False by lia.
  - intros p. split; [set_solver|]. intros (? & ? & _). lia.
  - intros vb _. by rewrite decide_False by lia.
  - done.
Qed.

(** [uvmdealloc] frees exactly the pages between the two rounded sizes. *)
Lemma wp_uvmdealloc s r O fl U oldsz newsz :
  uvm_own s r O fl U -> 0 <= newsz < oldsz -> oldsz <= MAXVA ->
  (forall vb, PGROUNDUP newsz <= vb < PGROUNDUP oldsz -> vb mod PGSIZE = 0 -> is_Some (U !! vb)) ->
  wp (uvmdealloc r oldsz newsz)
    (fun res s' => res = newsz /\
       unmap_post s r O fl U (PGROUNDUP newsz) (PGROUNDUP oldsz - PGROUNDUP newsz) s') s.
Proof.
  intros Own Hn Ho HU. unfold uvmdealloc. rewrite (proj2 (Z.leb_gt _ _)) by lia.
  pose proof (PGROUNDUP_range newsz ltac:(lia)). pose proof (PGROUNDUP_range oldsz ltac:(lia)).
  pose proof (PGROUNDUP_aligned newsz). pose proof (PGROUNDUP_aligned oldsz).
  set (lo := PGROUNDUP newsz) in *. set (hi := PGROUNDUP oldsz) in *.
  assert (hi <= MAXVA).
  { unfold hi. rewrite PGROUNDUP_eq by lia. Z.div_mod_to_equations. lia. }
  assert (lo <= hi).
  { unfold lo, hi. rewrite !PGROUNDUP_eq by lia. Z.div_mod_to_equations. lia. }
  wp_step. destruct (Z.ltb_spec lo hi).
  - assert (Hlen : hi - lo = (hi - lo) / PGSIZE * PGSIZE) by (Z.div_mod_to_equations; lia).
    assert (0 <= (hi - lo) / PGSIZE < 2 ^ 31) by (Z.div_mod_to_equations; lia).
    rewrite i32_small, u64_small by lia.
    eapply wp_mono.
    + eapply wp_uvmunmap; [done|done|lia|lia|lia|]. rewrite <- Hlen. intros. apply HU; lia.
    + intros [] s' Hp. rewrite <- Hlen in Hp. wp_step. done.
  - do 2 wp_step. split; [done|]. replace (hi - lo) with 0 by lia. by apply unmap_post_refl.
Qed.

(** ** Growing *)

Lemma uvm_own_frame s s' r O fl fl' U :
  uvm_own s r O fl U -> kmem_inv s' fl' ->
  (forall t x, is_Some (O !! t) -> in_page t x -> mget (mem s') x = mget (mem s) x) ->
  (forall p, p ∈ fl' -> O !! p = None /\ forall va, U !! va <> Some p) ->
  uvm_own s' r O fl' U /\ forall vb, pte_at (mem s') r vb = pte_at (mem s) r vb.
Proof.
  intros [[W K D] Hva Hfr Hpte Hinj] K' Hm Hd.
  destruct (pt_frame (mem s) (mem s') r O) as [W' P]; [done..|].
  split; [|done]. split; [|done| | |done].
  - split; [done..|]. intros t Ht Hin. destruct (Hd t Hin) as [H _]. rewrite H in Ht. by destruct Ht.
  - intros va pa H. destruct (Hfr _ _ H) as (? & _ & ?). split_and!; [done| |done].
    intros Hin. by apply (proj2 (Hd pa Hin) va).
  - intros va pa H. rewrite P. by apply Hpte.
Qed.

(** A frame taken off the free list and filled, then mapped. *)
Lemma wp_map_frame s s1 r O q fl U va perm :
  uvm_own s r O (q :: fl) U -> kmem_inv s1 fl -> only_mem s s1 ->
  (forall x, ~ in_page q x -> mget (mem s1) x = mget (mem s) x) ->
  va mod PGSIZE = 0 -> 0 <= va < MAXVA -> pte_at (mem s) r va = 0 -> U !! va = None ->
  0 <= perm < 1024 -> Z.lor perm PTE_V <> PTE_V ->
  wp (mappages r va PGSIZE q perm) (fun res s2 => exists O2 fl2,
    pt_ext s1 O fl s2 O2 fl2 /\ O2 !! q = None /\
    ((res = 0 /\ uvm_own s2 r O2 fl2 (<[va := q]> U) /\
       forall vb, 0 <= vb < MAXVA -> pte_at (mem s2) r vb =
         if decide (vb / 4096 = va / 4096) then leaf_pte q perm else pte_at (mem s) r vb) \/
     (res = -1 /\ fl2 = [] /\ uvm_own s2 r O2 [] U /\
       forall vb, 0 <= vb < MAXVA -> pte_at (mem s2) r vb = pte_at (mem s) r vb))) s1.
Proof.
  intros Own K1 E1 M1 Hal Hva Hpt HU Hperm Hfl.
  pose proof Own as [[W K D] Ova Ofr Opte Oinj].
  assert (page_ok q) as Hq by (eapply kmem_page; [done|set_solver]).
  assert (O !! q = None) as HqO.
  { apply eq_None_not_Some. intros H. apply (D q H). set_solver. }
  pose proof (kmem_nodup _ _ K) as [Hqf _]%NoDup_cons.
  destruct (uvm_own_frame s s1 r O (q :: fl) fl U) as [Own1 P1]; [done|done|..].
  { intros t x Ht Hx. apply M1. pose proof Ht as [ρ Hρ].
    eapply in_page_neq; [by eapply pt_page|done| |done]. congruence. }
  { intros p Hp. split.
    - apply eq_None_not_Some. intros H. apply (D p H). set_solver.
    - intros vb Hb. destruct (Ofr _ _ Hb) as (_ & Hn & _). set_solver. }
  eapply wp_mono.
  { apply (wp_mappages_page s1 r O fl); [apply Own1|done|done|by apply page_ok_pa_ok|done|].
    by rewrite P1, Hpt. }
  intros res s2 (O2 & fl2 & Own2 & E2 & Hres). exists O2, fl2.
  assert (HO2 : forall p, p ∉ fl -> O !! p = None -> O2 !! p = None).
  { intros p. by eapply pt_ext_pages. }
  assert (Hsub : forall p, p ∈ fl2 -> p ∈ fl).
  { destruct E2 as [_ _ (new & -> & _) _]. set_solver. }
  assert (HfrU : forall vb p, U !! vb = Some p -> page_ok p /\ (p ∉ fl2) /\ O2 !! p = None).
  { intros vb p Hb. destruct (Ofr _ _ Hb) as (? & Hn & ?). split_and!; [done| |].
    - intros H'%Hsub. set_solver.
    - apply HO2; [set_solver|done]. }
  split_and!; [done|by apply HO2|]. destruct Hres as [[-> P2]|(-> & -> & P2)]; [left|right].
  - assert (P02 : forall vb, 0 <= vb < MAXVA -> pte_at (mem s2) r vb =
      if decide (vb / 4096 = va / 4096) then leaf_pte q perm else pte_at (mem s) r vb).
    { intros vb Hvb. by rewrite P2, P1. }
    split_and!; [done| |done]. split; [done|..].
    + intros vb p. rewrite lookup_insert. case_decide; [naive_solver|]. apply Ova.
    + intros vb p. rewrite lookup_insert. case_decide; [|apply HfrU].
      intros [= <-]. split_and!; [done| |by apply HO2]. by intros ?%Hsub.
    + intros vb p. rewrite lookup_insert. case_decide.
      * intros [= <-]. subst. exists perm. rewrite P02 by done. by rewrite decide_True.
      * intros Hb. destruct (Ova _ _ Hb). rewrite P02 by done.
        rewrite decide_False; [by apply Opte|]. Z.div_mod_to_equations. lia.
    + intros vb vc p. rewrite !lookup_insert. repeat case_decide; [congruence|..|apply Oinj].
      * intros [= <-] Hc. destruct (Ofr _ _ Hc) as (_ & Hn & _). set_solver.
      * intros Hc [= <-]. destruct (Ofr _ _ Hc) as (_ & Hn & _). set_solver.
  - assert (P02 : forall vb, 0 <= vb < MAXVA -> pte_at (mem s2) r vb = pte_at (mem s) r vb).
    { intros vb Hvb. by rewrite P2, P1. }
    split_and!; [done|done| |done]. split; [done|done|done| |done].
    intros vb p Hb. destruct (Ova _ _ Hb). rewrite P02 by done. by apply Opte.
Qed.

End Uvm.
