(* ===== verification/Grow.v ===== *)
(** [uvmalloc] and [uvmcopy] of [Vm]: building a range of user pages one frame at
    a time, and giving it all back when memory runs out. *)
From S2P Require Import Prelude Types Riscv Str Kalloc Vm PtRep PtOps Uvm.

Section Grow.
Context {L : Linker} {LOk : LinkerOk L}.
Implicit Types (O : gmap Z role) (U : gmap Z Z) (r t va : Z).

(** The address space in [s] is that of [s0] with the pages of [lo, hi) added:
    each has a frame of its own from the free list [fl0], with permission
    [perm va], holding the bytes [cont va 0], [cont va 1], ... *)
Record grown (perm : Z -> Z) (cont : Z -> Z -> Z) lo hi
    (s0 : kst) r O0 (fl0 : list Z) U0 (s : kst) O (fl : list Z) U : Prop := {
  g_own : uvm_own s r O fl U;
  g_state : only_mem s0 s;
  g_sub : O0 ⊆ O;
  g_pages p : p ∈ fl0 <->
    p ∈ fl \/ (is_Some (O !! p) /\ O0 !! p = None) \/
    exists va, lo <= va < hi /\ U !! va = Some p;
  g_old va : ~ (lo <= va < hi) -> U !! va = U0 !! va;
  g_new va : lo <= va < hi -> va mod PGSIZE = 0 ->
    exists p, U !! va = Some p /\ pte_at (mem s) r va = leaf_pte p (perm va) /\
      forall i, 0 <= i < PGSIZE -> mget (mem s) (p + i) = cont va i;
  g_pte vb : 0 <= vb < MAXVA -> ~ (lo <= vb < hi) -> pte_at (mem s) r vb = pte_at (mem s0) r vb;
  g_frame x : (forall t, is_Some (O !! t) \/ t ∈ fl0 -> ~ in_page t x) ->
    mget (mem s) x = mget (mem s0) x
}.

(** Nothing of the range is left, and the pages of [fl0] that are not tables now
    are all free again. *)
Definition rolled_back (s0 : kst) r O0 fl0 U0 (s : kst) : Prop :=
  exists O fl U, grown (fun _ => 0) (fun _ _ => 0) 0 0 s0 r O0 fl0 U0 s O fl U.

Lemma grown_refl perm cont lo s r O fl U :
  uvm_own s r O fl U -> grown perm cont lo lo s r O fl U s O fl U.
Proof.
  intros Own. split; try done; try lia; [apply only_mem_refl|].
  intros p. split; [by left|]. intros [?|[[[? ?] ?]|(? & ? & _)]]; [done|congruence|lia].
Qed.

Lemma grown_page_lo perm cont lo a s0 r O0 fl0 U0 s O fl U va p :
  grown perm cont lo a s0 r O0 fl0 U0 s O fl U -> U !! va = Some p -> va mod PGSIZE = 0.
Proof. intros G HU. by apply (uvm_va _ _ _ _ _ (g_own _ _ _ _ _ _ _ _ _ _ _ _ _ G) _ _ HU). Qed.

(** A page that is still free was no table before. *)
Lemma grown_old_none perm cont lo a s0 r O0 fl0 U0 s O fl U p :
  grown perm cont lo a s0 r O0 fl0 U0 s O fl U -> p ∈ fl -> O0 !! p = None.
Proof.
  intros [[[_ _ D] _ _ _ _] _ Sub _ _ _ _ _] Hp. apply eq_None_not_Some.
  intros [ρ Hρ]. apply (D p); [|done]. exists ρ. by eapply lookup_weaken.
Qed.

(** The next page of the range. *)
Lemma grown_next perm cont lo a s0 r O0 fl0 U0 s O q fl U s1 s2 O2 fl2 :
  grown perm cont lo a s0 r O0 fl0 U0 s O (q :: fl) U ->
  lo <= a -> lo mod PGSIZE = 0 -> a mod PGSIZE = 0 -> 0 <= a < MAXVA -> O !! q = None ->
  only_mem s s1 ->
  (forall x, ~ in_page q x -> mget (mem s1) x = mget (mem s) x) ->
  (forall i, 0 <= i < PGSIZE -> mget (mem s1) (q + i) = cont a i) ->
  pt_ext s1 O fl s2 O2 fl2 -> O2 !! q = None ->
  uvm_own s2 r O2 fl2 (<[a := q]> U) ->
  (forall vb, 0 <= vb < MAXVA -> pte_at (mem s2) r vb =
     if decide (vb / 4096 = a / 4096) then leaf_pte q (perm a) else pte_at (mem s) r vb) ->
  grown perm cont lo (a + PGSIZE) s0 r O0 fl0 U0 s2 O2 fl2 (<[a := q]> U).
Proof.
  intros G Hlo Hlo' Ha Har HqO E1 M1 C1 E2 HqO2 Own2 P2.
  pose proof G as [Own St Sub Pg Old New Pte Fr].
  pose proof E2 as [E2s E2sub (new & Hnew & E2new) E2fr]. subst fl.
  assert (Hdiv : forall vb, vb / 4096 = a / 4096 <-> a <= vb < a + PGSIZE).
  { intros vb. Z.div_mod_to_equations. lia. }
  assert (Hpq : page_ok q).
  { apply (uvm_frame _ _ _ _ _ Own2 a q). by rewrite lookup_insert_eq. }
  split.
  - done.
  - eapply only_mem_trans; [done|]. by eapply only_mem_trans.
  - by etrans.
  - intros p. rewrite Pg, elem_of_cons, elem_of_app, E2new. split.
    + intros [[->|[?|?]]|[[HO ?]|(va & ? & HU)]].
      * right; right. exists a. rewrite lookup_insert_eq. split; [lia|done].
      * right; left. split; [by right|]. eapply grown_old_none; [exact G|set_solver].
      * by left.
      * right; left. split; [by left|done].
      * right; right. exists va. rewrite lookup_insert_ne by lia. split; [lia|done].
    + intros [?|[[[?|?] ?]|(va & Hva & HU)]]; [by left; right; right|by right; left|
        by left; right; left|].
      rewrite lookup_insert in HU. case_decide; [naive_solver|].
      right; right. exists va. split; [|done].
      pose proof (grown_page_lo _ _ _ _ _ _ _ _ _ _ _ _ _ _ _ G HU).
      Z.div_mod_to_equations. lia.
  - intros va Hva. rewrite lookup_insert_ne by lia. apply Old. lia.
  - intros va Hva Hal. destruct (decide (va = a)) as [->|Hne].
    + exists q. rewrite lookup_insert_eq. split_and!; [done| |].
      * rewrite P2 by done. by rewrite decide_True.
      * intros i Hi. rewrite E2fr; [by apply C1|]. intros t [ρ Ht].
        eapply (in_page_neq q t); [done| |congruence|unfold in_page; lia].
        by eapply (pt_page _ _ _ (own_wf _ _ _ _ (uvm_pt _ _ _ _ _ Own2))).
    + assert (lo <= va < a) as Hva' by (Z.div_mod_to_equations; lia).
      destruct (New va Hva' Hal) as (p & HU & Hp & Hc). exists p.
      destruct (uvm_va _ _ _ _ _ Own va p HU) as [_ ?].
      rewrite lookup_insert_ne by done. split_and!; [done| |].
      * rewrite P2 by lia. rewrite decide_False; [done|]. rewrite Hdiv. lia.
      * intros i Hi. destruct (uvm_frame _ _ _ _ _ Own va p HU) as (Hpok & Hnf & _).
        destruct (uvm_frame _ _ _ _ _ Own2 va p) as (_ & _ & HnO2);
          [by rewrite lookup_insert_ne|].
        rewrite E2fr; [rewrite M1; [by apply Hc|]|].
        -- eapply (in_page_neq p q); [done|done|set_solver|unfold in_page; lia].
        -- intros t [ρ Ht]. eapply (in_page_neq p t); [done| |congruence|unfold in_page; lia].
           by eapply (pt_page _ _ _ (own_wf _ _ _ _ (uvm_pt _ _ _ _ _ Own2))).
  - intros vb Hvb Hn. rewrite P2 by done. rewrite decide_False by (rewrite Hdiv; lia).
    apply Pte; [done|lia].
  - intros x Hx. rewrite E2fr, M1, Fr; [done|..].
    + intros t [[ρ Ht]|Ht]; apply Hx; [left|by right]. exists ρ. by eapply lookup_weaken.
    + apply Hx. right. apply Pg. left. set_solver.
    + intros t Ht. apply Hx. by left.
Qed.

(** Mapping the next page failed: its frame goes back to the free list. *)
Lemma wp_grown_fail perm cont lo a s0 r O0 fl0 U0 s O q fl U s1 s2 O2 (Q : unit -> kst -> Prop) :
  grown perm cont lo a s0 r O0 fl0 U0 s O (q :: fl) U ->
  only_mem s s1 ->
  (forall x, ~ in_page q x -> mget (mem s1) x = mget (mem s) x) ->
  pt_ext s1 O fl s2 O2 [] -> O2 !! q = None ->
  uvm_own s2 r O2 [] U ->
  (forall vb, 0 <= vb < MAXVA -> pte_at (mem s2) r vb = pte_at (mem s) r vb) ->
  (forall s3, grown perm cont lo a s0 r O0 fl0 U0 s3 O2 [q] U -> Q tt s3) ->
  wp (kfree q) Q s2.
Proof.
  intros G E1 M1 E2 HqO2 Own2 P2 HQ.
  pose proof G as [Own St Sub Pg Old New Pte Fr].
  pose proof E2 as [E2s E2sub (new & Hnew & E2new) E2fr]. rewrite app_nil_r in Hnew. subst fl.
  assert (Hq : page_ok q) by (eapply kmem_page; [apply Own|set_solver]).
  assert (HqU : forall va, U !! va <> Some q).
  { intros va HU. destruct (uvm_frame _ _ _ _ _ Own va q HU) as (_ & Hn & _). set_solver. }
  assert (Hpg : forall t, is_Some (O2 !! t) -> page_ok t).
  { intros t [ρ Ht]. by eapply (pt_page _ _ _ (own_wf _ _ _ _ (uvm_pt _ _ _ _ _ Own2))). }
  eapply wp_kfree; [apply Own2|done|set_solver|]. intros s3 E3 K3 M3. apply HQ.
  destruct (uvm_own_frame s2 s3 r O2 [] [q] U) as [Own3 P3]; [done|done|..].
  { intros t x Ht Hx. apply M3. eapply (in_page_neq t q); [by apply Hpg|done| |done].
    intros ->. rewrite HqO2 in Ht. by destruct Ht. }
  { intros p ->%list_elem_of_singleton. done. }
  split.
  - done.
  - eapply only_mem_trans; [done|]. eapply only_mem_trans; [done|].
    eapply only_mem_trans; [|done]. done.
  - by etrans.
  - intros p. rewrite Pg, elem_of_cons, list_elem_of_singleton, E2new.
    split; [|naive_solver].
    intros [[->|?]|[[? ?]|?]]; [by left| |by right; left; split; [left|]|by right; right].
    right; left. split; [by right|]. eapply grown_old_none; [exact G|set_solver].
  - done.
  - intros va Hva Hal. destruct (New va Hva Hal) as (p & HU & Hp & Hc).
    destruct (uvm_va _ _ _ _ _ Own va p HU) as [_ ?].
    destruct (uvm_frame _ _ _ _ _ Own va p HU) as (Hpok & Hnf & _).
    destruct (uvm_frame _ _ _ _ _ Own2 va p HU) as (_ & _ & HnO2).
    assert (p <> q) by set_solver.
    exists p. split_and!; [done|by rewrite P3, P2 by lia|].
    intros i Hi. rewrite M3, E2fr, M1; [by apply Hc|..].
    + eapply (in_page_neq p q); [done..|unfold in_page; lia].
    + intros t Ht. eapply (in_page_neq p t); [done|by apply Hpg| |unfold in_page; lia].
      intros ->. rewrite HnO2 in Ht. by destruct Ht.
    + eapply (in_page_neq p q); [done..|unfold in_page; lia].
  - intros vb Hvb Hn. rewrite P3, P2 by done. by apply Pte.
  - intros x Hx. assert (~ in_page q x) by (apply Hx; right; apply Pg; left; set_solver).
    rewrite M3, E2fr, M1, Fr; [done| |done| |done].
    + intros t [[ρ Ht]|Ht]; apply Hx; [left|by right]. exists ρ. by eapply lookup_weaken.
    + intros t Ht. apply Hx. by left.
Qed.

(** One page: a frame off the free list, filled with [cont a], then mapped; when
    the mapping fails, [kfree] gives the frame back. *)
Lemma wp_grow_step perm cont lo a s0 r O0 fl0 U0 s O q fl U s1 m2 :
  grown perm cont lo a s0 r O0 fl0 U0 s O (q :: fl) U ->
  lo <= a -> lo mod PGSIZE = 0 -> a mod PGSIZE = 0 -> 0 <= a < MAXVA ->
  U0 !! a = None -> pte_at (mem s0) r a = 0 ->
  0 <= perm a < 1024 -> Z.lor (perm a) PTE_V <> PTE_V ->
  only_mem s s1 -> kmem_inv s1 fl ->
  (forall x, ~ in_page q x -> mget (mem s1) x = mget (mem s) x) ->
  (forall x, ~ in_page q x -> mget m2 x = mget (mem s1) x) ->
  (forall i, 0 <= i < PGSIZE -> mget m2 (q + i) = cont a i) ->
  wp (mappages r a PGSIZE q (perm a)) (fun res s2 =>
    (res = 0 /\ exists O2 fl2 U2, grown perm cont lo (a + PGSIZE) s0 r O0 fl0 U0 s2 O2 fl2 U2) \/
    (res = -1 /\ wp (kfree q) (fun _ s3 => exists O2,
       grown perm cont lo a s0 r O0 fl0 U0 s3 O2 [q] U) s2)) (set_mem m2 s1).
Proof.
  intros G Hlo Hla Haa Ha HU0 Hz Hperm Hleaf E1 K1 M1 M2 C2.
  pose proof G as [Own St Sub Pg Old New Pte Fr].
  assert (Hq : page_ok q) by (eapply kmem_page; [apply Own|set_solver]).
  assert (HOq : O !! q = None).
  { apply eq_None_not_Some. intros Ho.
    apply (own_disj _ _ _ _ (uvm_pt _ _ _ _ _ Own) q Ho). set_solver. }
  assert (Es1 : only_mem s (set_mem m2 s1)) by (eapply only_mem_trans; [exact E1|done]).
  assert (Hm2 : forall x, ~ in_page q x -> mget m2 x = mget (mem s) x).
  { intros x Hx. by rewrite M2, M1. }
  assert (K2 : kmem_inv (set_mem m2 s1) fl).
  { eapply kmem_inv_frame; [exact K1|done|apply K1|]. intros p x Hp Hxp. apply M2.
    pose proof (kmem_nodup _ _ (own_kmem _ _ _ _ (uvm_pt _ _ _ _ _ Own))) as [Hqf _]%NoDup_cons.
    eapply (in_page_neq p q); [by eapply kmem_page|done|set_solver|done]. }
  eapply wp_mono.
  { eapply (wp_map_frame s _ r O q fl U a (perm a));
      [exact Own|exact K2|exact Es1|exact Hm2|done|done|..|done|done].
    - rewrite Pte by lia. done.
    - rewrite Old by lia. done. }
  intros res s2 (O2 & fl2 & E2 & HqO2 & [(-> & Own2 & P2)|(-> & -> & Own2 & P2)]).
  - left. split; [done|]. do 3 eexists. eapply grown_next; [exact G|done..].
  - right. split; [done|]. eapply wp_grown_fail; [exact G|exact Es1|done..|].
    intros s3 G3. eauto.
Qed.

(** Unmapping the range undoes it, and frees no more pages than the range has. *)
Lemma grown_unmapped perm cont lo a s0 r O0 fl0 U0 s O fl U s' :
  grown perm cont lo a s0 r O0 fl0 U0 s O fl U -> lo <= a -> lo mod PGSIZE = 0 -> a mod PGSIZE = 0 ->
  (forall va, lo <= va < a -> U0 !! va = None) ->
  (forall vb, lo <= vb < a -> pte_at (mem s0) r vb = 0) ->
  unmap_post s r O fl U lo (a - lo) s' ->
  exists ps, grown (fun _ => 0) (fun _ _ => 0) 0 0 s0 r O0 fl0 U0 s' O (ps ++ fl) U0 /\
    Z.of_nat (length ps) <= (a - lo) / PGSIZE.
Proof.
  intros G Hla Hlo Ha HU0 Hz (ps & U' & Own' & E' & HU' & Hps & P' & F'). pose proof G as [Own St Sub Pg Old New Pte Fr].
  replace (lo + (a - lo)) with a in * by lia.
  assert (U' = U0) as ->.
  { apply map_eq. intros va. rewrite HU'. case_decide as Hd; [by rewrite HU0|by apply Old]. }
  exists ps. split.
  - split; try done; try lia.
    + by eapply only_mem_trans.
    + intros p. rewrite Pg, elem_of_app, Hps. split; [naive_solver|].
      intros [[?|?]|[?|(? & ? & _)]]; [naive_solver..|lia].
    + intros vb Hvb _. rewrite P' by done. case_decide; [by rewrite Hz|by apply Pte].
    + intros x Hx. rewrite F'; [by apply Fr|..].
      * intros t Ht. apply Hx. by left.
      * intros p Hp. apply Hx. right. apply Pg. right; right. by apply Hps.
  - set (n := Z.to_nat ((a - lo) / PGSIZE)). assert (Hn : Z.of_nat n = (a - lo) / PGSIZE).
    { apply Z2Nat.id. apply Z.div_pos; lia. }
    rewrite <- Hn. apply Nat2Z.inj_le.
    pose proof (kmem_nodup _ _ (own_kmem _ _ _ _ (uvm_pt _ _ _ _ _ Own'))) as [Hnd _]%NoDup_app.
    rewrite <- (length_seq n 0), <- (length_fmap (fun k => default 0 (U !! (lo + Z.of_nat k * PGSIZE)))).
    apply NoDup_incl_length; [by apply NoDup_ListNoDup|]. intros p Hp%list_elem_of_In. apply Hps in Hp as (va & Hva & Hp).
    apply list_elem_of_In, list_elem_of_fmap. pose proof (grown_page_lo _ _ _ _ _ _ _ _ _ _ _ _ _ va p G Hp) as Hal.
    exists (Z.to_nat ((va - lo) / PGSIZE)).
    assert (0 <= (va - lo) / PGSIZE) by (apply Z.div_pos; lia). rewrite Z2Nat.id by done.
    assert (lo + (va - lo) / PGSIZE * PGSIZE = va) as -> by (Z.div_mod_to_equations; lia).
    split; [by rewrite Hp|]. apply elem_of_seq. split; [lia|]. cbn. unfold n. apply Z2Nat.inj_lt; [done|lia|].
    Z.div_mod_to_equations. lia.
Qed.

Lemma grown_undo perm cont lo a s0 r O0 fl0 U0 s O fl U s' :
  grown perm cont lo a s0 r O0 fl0 U0 s O fl U -> lo <= a -> lo mod PGSIZE = 0 -> a mod PGSIZE = 0 ->
  (forall va, lo <= va < a -> U0 !! va = None) ->
  (forall vb, lo <= vb < a -> pte_at (mem s0) r vb = 0) ->
  unmap_post s r O fl U lo (a - lo) s' -> rolled_back s0 r O0 fl0 U0 s'.
Proof. intros. edestruct grown_unmapped as (ps & G & _); [done..|]. unfold rolled_back. eauto. Qed.

(** ** [uvmalloc] *)

Lemma wp_undo perm cont lo a s0 r O0 fl0 U0 s O fl U :
  grown perm cont lo a s0 r O0 fl0 U0 s O fl U ->
  lo <= a -> 0 <= lo -> a <= MAXVA -> lo mod PGSIZE = 0 -> a mod PGSIZE = 0 ->
  (forall va, lo <= va < a -> U0 !! va = None) ->
  (forall vb, lo <= vb < a -> pte_at (mem s0) r vb = 0) ->
  wp (let! _ := uvmdealloc r a lo in ret 0)
     (fun res s' => res = 0 /\ rolled_back s0 r O0 fl0 U0 s') s.
Proof.
  intros G Hlo Hlo0 Ha Hla Haa HU0 Hz. wp_step.
  destruct (decide (lo = a)) as [->|Hne].
  - unfold uvmdealloc. rewrite (proj2 (Z.leb_le _ _)) by lia. do 2 wp_step.
    split; [done|]. eapply (grown_undo _ _ a a); [done..|].
    rewrite Z.sub_diag. apply unmap_post_refl, G.
  - eapply wp_mono.
    + eapply (wp_uvmdealloc s r O fl U a lo); [apply G|lia|lia|].
      rewrite !PGROUNDUP_id by lia. intros vb Hvb Hal.
      destruct (g_new _ _ _ _ _ _ _ _ _ _ _ _ _ G vb Hvb Hal) as (p & -> & _). eauto.
    + intros res s' [_ Hp]. rewrite !PGROUNDUP_id in Hp by lia. wp_step.
      split; [done|]. by eapply grown_undo.
Qed.

Definition alloc_post xperm lo hi newsz s0 r O0 fl0 U0 (res : Z) (s' : kst) : Prop :=
  (res = newsz /\ exists O fl U,
     grown (fun _ => Z.lor (Z.lor PTE_R PTE_U) xperm) (fun _ _ => 0) lo hi
       s0 r O0 fl0 U0 s' O fl U) \/
  (res = 0 /\ rolled_back s0 r O0 fl0 U0 s').

Lemma readable_leaf perm : Z.lor (Z.lor (Z.lor PTE_R PTE_U) perm) PTE_V <> PTE_V.
Proof.
  intros H. apply (f_equal (fun z => Z.testbit z 1)) in H.
  by rewrite !Z.lor_spec in H.
Qed.

Lemma wp_uvmalloc_loop n : forall xperm lo a newsz s0 r O0 fl0 U0 s O fl U,
  let hi := PGROUNDUP newsz in
  grown (fun _ => Z.lor (Z.lor PTE_R PTE_U) xperm) (fun _ _ => 0) lo a
    s0 r O0 fl0 U0 s O fl U ->
  0 <= xperm < 1024 -> lo <= a <= hi -> 0 <= lo -> 0 <= newsz <= MAXVA ->
  lo mod PGSIZE = 0 -> a mod PGSIZE = 0 -> newsz <= a + Z.of_nat n * PGSIZE ->
  (forall va, lo <= va < hi -> U0 !! va = None) ->
  (forall vb, lo <= vb < hi -> pte_at (mem s0) r vb = 0) ->
  wp (uvmalloc_loop r a lo newsz xperm n) (alloc_post xperm lo hi newsz s0 r O0 fl0 U0) s.
Proof.
  induction n as [|n IH]; intros xperm lo a newsz s0 r O0 fl0 U0 s O fl U hi G Hx Ha Hlo Hn
    Hla Haa Hfuel HU0 Hz;
    pose proof (PGROUNDUP_range newsz ltac:(lia)) as Hh; fold hi in Hh;
    pose proof (PGROUNDUP_aligned newsz) as Hha; fold hi in Hha; cbn [uvmalloc_loop];
    (destruct (Z.ltb_spec a newsz);
      [|apply wp_ret; left; split; [done|];
        assert (a = hi) as -> by (Z.div_mod_to_equations; lia); eauto]); [lia|].
  assert (hi <= MAXVA) by (unfold hi; rewrite PGROUNDUP_eq by lia; Z.div_mod_to_equations; lia).
  pose proof G as [Own St Sub Pg Old New Pte Fr].
  set (perm := Z.lor (Z.lor PTE_R PTE_U) xperm) in *.
  assert (Hundo : forall s' O' fl', grown (fun _ => perm) (fun _ _ => 0) lo a s0 r O0 fl0 U0 s' O' fl' U ->
     wp (let! _ := uvmdealloc r a lo in ret 0) (alloc_post xperm lo hi newsz s0 r O0 fl0 U0) s').
  { intros s' O' fl' G'. eapply wp_mono.
    - eapply wp_undo; [exact G'|lia|lia|lia|done|done|..]; intros; [apply HU0|apply Hz]; lia.
    - intros res s2 H2. by right. }
  destruct fl as [|q fl].
  { wp_step. apply wp_kalloc_empty; [apply Own|]. cbn. by eapply Hundo. }
  assert (Hq : page_ok q) by (eapply kmem_page; [apply Own|set_solver]).
  pose proof (page_ok_bounds q Hq).
  wp_step. eapply wp_kalloc; [apply Own|]. intros s1 E1 K1 M1.
  rewrite (proj2 (Z.eqb_neq _ _)) by lia.
  wp_step. apply wp_memset_k; [lia|]. intros m2 M2. wp_step.
  eapply wp_mono.
  { eapply (wp_grow_step (fun _ => perm) (fun _ _ => 0) lo a s0 r O0 fl0 U0 s O q fl U s1 m2);
      [done|lia|done|done|lia|apply HU0; lia|apply Hz; lia|..|exact E1|done| | |].
    - repeat apply perm_lor_range; lia.
    - apply readable_leaf.
    - intros x Hxq. by rewrite M1, decide_False.
    - intros x Hxq. by rewrite M2, decide_False.
    - intros i Hi. rewrite M2, decide_True by lia. done. }
  intros res s2 [(-> & O2 & fl2 & U2 & G2)|(-> & Hk)]; cbn.
  - rewrite u64_small by lia. eapply IH; try done; try lia.
    + Z.div_mod_to_equations. lia.
    + rewrite Z.add_mod, Haa by lia. done.
  - wp_step. wp_apply Hk. intros [] s3 [O3 G3]. by eapply Hundo.
Qed.

Lemma wp_uvmalloc s r O fl U oldsz newsz xperm :
  let lo := PGROUNDUP oldsz in let hi := PGROUNDUP newsz in
  uvm_own s r O fl U -> 0 <= oldsz <= newsz -> newsz <= MAXVA -> 0 <= xperm < 1024 ->
  (forall va, lo <= va < hi -> U !! va = None) ->
  (forall vb, lo <= vb < hi -> pte_at (mem s) r vb = 0) ->
  wp (uvmalloc r oldsz newsz xperm) (alloc_post xperm lo hi newsz s r O fl U) s.
Proof.
  intros lo hi Own Ho Hn Hx HU Hz. unfold uvmalloc.
  rewrite (proj2 (Z.ltb_ge _ _)) by lia. fold lo.
  pose proof (PGROUNDUP_range oldsz ltac:(lia)) as Hl. fold lo in Hl.
  pose proof (PGROUNDUP_range newsz ltac:(lia)) as Hh. fold hi in Hh.
  pose proof (PGROUNDUP_aligned oldsz) as Hla. fold lo in Hla.
  assert (lo <= hi).
  { unfold lo, hi. rewrite !PGROUNDUP_eq by lia. Z.div_mod_to_equations. lia. }
  eapply wp_uvmalloc_loop; try done; try lia.
  - by apply grown_refl.
  - destruct (decide ((newsz - lo) / PGSIZE + 1 < 0)); Z.div_mod_to_equations; lia.
Qed.

(** ** [uvmcopy] *)

Lemma wp_memmove_k dst src n s (Q : unit -> kst -> Prop) :
  0 <= n ->
  (forall m', (forall x, mget m' x = if decide (dst <= x < dst + n)
       then mget (mem s) (src + (x - dst)) else mget (mem s) x) ->
     Q tt (set_mem m' s)) ->
  wp (memmove_k dst src n) Q s.
Proof. intros Hn HQ. apply HQ. intros x. by apply memmove_get. Qed.

(** Two address spaces that share nothing. *)
Record separate O U O' U' : Prop := {
  sep_tables t : is_Some (O !! t) -> O' !! t = None;
  sep_frames va p : U !! va = Some p -> O' !! p = None
}.

(** A page of another address space is not touched while this one grows. *)
Lemma grown_other perm cont lo a s0 r O0 fl0 U0 s O fl U p x :
  grown perm cont lo a s0 r O0 fl0 U0 s O fl U ->
  page_ok p -> p ∉ fl0 -> O0 !! p = None -> Forall page_ok fl0 -> in_page p x ->
  mget (mem s) x = mget (mem s0) x.
Proof.
  intros G Hp Hnf HnO Hfl Hx. apply (g_frame _ _ _ _ _ _ _ _ _ _ _ _ _ G). intros t Ht.
  assert (Htf : t ∈ fl0 \/ is_Some (O0 !! t)).
  { destruct Ht as [Ht|?]; [|by left]. destruct (O0 !! t) eqn:E; [by eauto|].
    left. apply (g_pages _ _ _ _ _ _ _ _ _ _ _ _ _ G). eauto. }
  assert (Hto : page_ok t).
  { destruct Ht as [[ρ Ht]|Ht]; [|exact (proj1 (Forall_forall _ _) Hfl t Ht)].
    by eapply (pt_page _ _ _ (own_wf _ _ _ _ (uvm_pt _ _ _ _ _ (g_own _ _ _ _ _ _ _ _ _ _ _ _ _ G)))). }
  eapply (in_page_neq p t); [done|done| |done]. intros ->.
  destruct Htf as [?|[? ?]]; [done|congruence].
Qed.

Lemma grown_other_own perm cont lo a s0 r O0 fl0 U0 s O fl U r' O' U' :
  grown perm cont lo a s0 r O0 fl0 U0 s O fl U ->
  uvm_own s0 r' O' fl0 U' -> separate O' U' O0 U0 ->
  uvm_own s r' O' fl U' /\ forall vb, pte_at (mem s) r' vb = pte_at (mem s0) r' vb.
Proof.
  intros G Own' [St Sf].
  pose proof (kmem_pages _ _ (own_kmem _ _ _ _ (uvm_pt _ _ _ _ _ Own'))) as Hfl.
  eapply uvm_own_frame; [exact Own'|apply (g_own _ _ _ _ _ _ _ _ _ _ _ _ _ G)|..].
  - intros t x Ht Hx. eapply grown_other; [exact G| | |by apply St|done|done].
    + destruct Ht as [ρ Ht].
      by eapply (pt_page _ _ _ (own_wf _ _ _ _ (uvm_pt _ _ _ _ _ Own'))).
    + by apply (own_disj _ _ _ _ (uvm_pt _ _ _ _ _ Own')).
  - intros p Hp. assert (p ∈ fl0) as Hp0.
    { apply (g_pages _ _ _ _ _ _ _ _ _ _ _ _ _ G). by left. }
    split.
    + apply eq_None_not_Some. intros H. by apply (own_disj _ _ _ _ (uvm_pt _ _ _ _ _ Own') p H).
    + intros va HU. by apply (uvm_frame _ _ _ _ _ Own' va p HU).
Qed.

(** What the child gets for the page at [va] of the parent [old]. *)
Definition copy_perm (s0 : kst) old va : Z := PTE_FLAGS (pte_at (mem s0) old va).
Definition copy_cont (s0 : kst) old va i : Z :=
  mget (mem s0) (PTE2PA (pte_at (mem s0) old va) + i).

Definition copy_post hi s0 old r O0 fl0 U0 (res : Z) (s' : kst) : Prop :=
  (res = 0 /\ exists O fl U,
     grown (copy_perm s0 old) (copy_cont s0 old) 0 hi s0 r O0 fl0 U0 s' O fl U) \/
  (res = -1 /\ exists O fl U,
     grown (fun _ => 0) (fun _ _ => 0) 0 0 s0 r O0 fl0 U0 s' O fl U /\ Z.of_nat (length fl) <= hi / PGSIZE).

Lemma wp_uvmcopy_loop n : forall a sz s0 old O' U' r O0 fl0 U0 s O fl U,
  let hi := PGROUNDUP sz in
  uvm_own s0 old O' fl0 U' -> separate O' U' O0 U0 ->
  (forall va, 0 <= va < hi -> va mod PGSIZE = 0 -> is_Some (U' !! va)) ->
  grown (copy_perm s0 old) (copy_cont s0 old) 0 a s0 r O0 fl0 U0 s O fl U ->
  0 <= a <= hi -> 0 <= sz <= MAXVA -> a mod PGSIZE = 0 -> sz <= a + Z.of_nat n * PGSIZE ->
  (forall va, 0 <= va < hi -> U0 !! va = None) ->
  (forall vb, 0 <= vb < hi -> pte_at (mem s0) r vb = 0) ->
  wp (uvmcopy_loop old r sz a n) (copy_post hi s0 old r O0 fl0 U0) s.
Proof.
  induction n as [|n IH]; intros a sz s0 old O' U' r O0 fl0 U0 s O fl U hi Own' Sep HU' G Ha Hsz
    Haa Hfuel HU0 Hz;
    pose proof (PGROUNDUP_range sz ltac:(lia)) as Hh; fold hi in Hh;
    pose proof (PGROUNDUP_aligned sz) as Hha; fold hi in Hha; cbn [uvmcopy_loop];
    (destruct (Z.ltb_spec a sz);
      [|apply wp_ret; left; split; [done|];
        assert (a = hi) as -> by (Z.div_mod_to_equations; lia); eauto]); [lia|].
  assert (hi <= MAXVA) by (unfold hi; rewrite PGROUNDUP_eq by lia; Z.div_mod_to_equations; lia).
  destruct (grown_other_own _ _ _ _ _ _ _ _ _ _ _ _ _ _ _ _ G Own' Sep) as [Own1 P1].
  destruct (HU' a ltac:(lia) Haa) as [pa Hpa].
  destruct (uvm_pte _ _ _ _ _ Own' _ _ Hpa) as (perm & Epte & Hperm & Hleaf).
  destruct (uvm_frame _ _ _ _ _ Own' _ _ Hpa) as (Hpok & Hpnf & _).
  pose proof (page_ok_pa_ok _ Hpok) as Hpaok.
  destruct (pte_slot_some s old O' fl a) as (t0 & _ & Es & El & Hnz);
    [apply Own1|rewrite P1, Epte; by apply leaf_V|].
  wp_step. apply wp_walk_noalloc; [lia|]. rewrite Es. cbn [default from_option id].
  rewrite (proj2 (Z.eqb_neq _ _)) by done.
  wp_step. apply wp_get. rewrite El, P1. rewrite Epte at 1. rewrite leaf_V by done. cbn [negb].
  assert (Hundo : forall s' O2 fl2, grown (copy_perm s0 old) (copy_cont s0 old) 0 a s0 r O0 fl0 U0 s' O2 fl2 U ->
     (length fl2 <= 1)%nat -> wp (uvmunmap r 0 (a / PGSIZE) true ;;; ret (-1)) (copy_post hi s0 old r O0 fl0 U0) s').
  { intros s' O2 fl2 G' Hf2. assert (Ea : a / PGSIZE * PGSIZE = a) by (Z.div_mod_to_equations; lia).
    wp_step. eapply wp_mono.
    - eapply wp_uvmunmap; [apply G'|done|lia|Z.div_mod_to_equations; lia|lia|].
      rewrite Ea. intros vb Hvb Hal.
      destruct (g_new _ _ _ _ _ _ _ _ _ _ _ _ _ G' vb ltac:(lia) Hal) as (p & -> & _). eauto.
    - intros [] s2 Hp. rewrite Ea in Hp. wp_step. right. split; [done|].
      destruct (grown_unmapped _ _ 0 a _ _ _ _ _ _ _ _ _ s2 G') as (ps & G2 & Hps);
        [lia|done|done|intros; apply HU0; lia|intros; apply Hz; lia|by rewrite Z.sub_0_r|].
      eexists _, _, _. split; [exact G2|]. rewrite length_app. Z.div_mod_to_equations. lia. }
  pose proof (g_own _ _ _ _ _ _ _ _ _ _ _ _ _ G) as Own.
  destruct fl as [|q fl].
  { wp_step. apply wp_kalloc_empty; [apply Own|]. cbn [Z.eqb]. eapply Hundo; [done|cbn; lia]. }
  assert (Hq : page_ok q) by (eapply kmem_page; [apply Own|set_solver]).
  pose proof (page_ok_bounds q Hq).
  wp_step. eapply wp_kalloc; [apply Own|]. intros s1 E1 K1 M1.
  rewrite (proj2 (Z.eqb_neq _ _)) by lia.
  wp_step. apply wp_memmove_k; [lia|]. intros m2 M2. wp_step.
  assert (Hpq : pa <> q).
  { intros ->. apply Hpnf. apply (g_pages _ _ _ _ _ _ _ _ _ _ _ _ _ G). left. set_solver. }
  assert (HO0 : O0 !! pa = None) by (by eapply sep_frames).
  eapply wp_mono.
  { eapply (wp_grow_step (copy_perm s0 old) (copy_cont s0 old) 0 a s0 r O0 fl0 U0 s O q fl U s1 m2);
      [done|lia|done|done|lia|apply HU0; lia|apply Hz; lia|..|exact E1|done| | |].
    - unfold copy_perm. rewrite Epte, leaf_FLAGS by done. apply perm_lor_range; lia.
    - unfold copy_perm. rewrite Epte, leaf_FLAGS by done.
      by rewrite <- Z.lor_assoc, Z.lor_diag.
    - intros x Hxq. by rewrite M1, decide_False.
    - intros x Hxq. by rewrite M2, decide_False.
    - intros i Hi. rewrite M2, decide_True by lia. unfold copy_cont.
      rewrite Epte, leaf_PA by done. replace (pa + (q + i - q)) with (pa + i) by lia.
      rewrite M1, decide_False by (eapply (in_page_neq pa q); [done..|unfold in_page; lia]).
      eapply grown_other; [exact G|exact Hpok|done|done|apply Own'|unfold in_page; lia]. }
  intros res s2 [(-> & O2 & fl2 & U2 & G2)|(-> & Hk)]; cbn [Z.eqb negb].
  - rewrite u64_small by lia. eapply IH; try done; try lia.
    + Z.div_mod_to_equations. lia.
    + rewrite Z.add_mod, Haa by lia. done.
  - wp_step. wp_apply Hk. intros [] s3 [O3 G3]. by eapply Hundo.
Qed.

Lemma wp_uvmcopy s old O' U' r O fl U sz :
  let hi := PGROUNDUP sz in
  uvm_own s old O' fl U' -> uvm_own s r O fl U -> separate O' U' O U ->
  0 <= sz <= MAXVA ->
  (forall va, 0 <= va < hi -> va mod PGSIZE = 0 -> is_Some (U' !! va)) ->
  (forall va, 0 <= va < hi -> U !! va = None) ->
  (forall vb, 0 <= vb < hi -> pte_at (mem s) r vb = 0) ->
  wp (uvmcopy old r sz) (copy_post hi s old r O fl U) s.
Proof.
  intros hi Own' Own Sep Hsz HU' HU Hz. unfold uvmcopy.
  pose proof (PGROUNDUP_range sz ltac:(lia)) as Hh. fold hi in Hh.
  eapply wp_uvmcopy_loop; try done; try lia.
  - by apply grown_refl.
  - Z.div_mod_to_equations. lia.
Qed.

End Grow.
