(* ===== verification/Uvmfree.v ===== *)
(** [freewalk] and [uvmfree] of [Vm]: tearing down an address space returns every
    page it had, tables and frames, to the free list. *)
From S2P Require Import Prelude Types Riscv Str Kalloc Vm PtRep PtOps Uvm.

Section Uvmfree.
Context {L : Linker} {LOk : LinkerOk L}.
Implicit Types (m : gmap Z Z) (O : gmap Z role) (U : gmap Z Z) (r t va : Z) (fl : list Z).

(** The tables below the first [i] entries of a table of role [ρ]. *)
Definition gone (ρ : role) (i : Z) (ρ' : role) : Prop :=
  match ρ, ρ' with
  | Root, Mid j | Root, Low j _ => j < i
  | Mid k, Low k' j => k' = k /\ j < i
  | _, _ => False
  end.
#[local] Instance gone_dec ρ i ρ' : Decision (gone ρ i ρ').
Proof. destruct ρ, ρ'; cbn; apply _. Defined.

Definition depth_of (ρ : role) : nat :=
  match ρ with Root => 3 | Mid _ => 2 | Low _ _ => 1 end.

(** The tables of [O] without those. *)
Definition without (O : gmap Z role) (ρ : role) (i : Z) : gmap Z role :=
  filter (fun kv => ~ gone ρ i kv.2) O.

Lemma lookup_without O ρ i t ρ' :
  without O ρ i !! t = Some ρ' <-> O !! t = Some ρ' /\ ~ gone ρ i ρ'.
Proof. unfold without. rewrite map_lookup_filter_Some. done. Qed.

Lemma without_0 m r O ρ : pt_wf m r O -> without O ρ 0 = O.
Proof.
  intros W. apply map_eq. intros t. apply option_eq. intros ρ'.
  rewrite lookup_without. split; [by intros []|]. intros H. split; [done|].
  destruct ρ, ρ'; cbn; try tauto.
  - pose proof (pt_mid_range _ _ _ W _ _ H). lia.
  - destruct (pt_low_range _ _ _ W _ _ _ H) as (_ & t1 & H1).
    pose proof (pt_mid_range _ _ _ W _ _ H1). lia.
  - destruct (pt_low_range _ _ _ W _ _ _ H). lia.
Qed.

(** A table without children, cut off: its entry in the parent is cleared. *)
Lemma pt_remove m m' r O t ρ i t' :
  pt_wf m r O -> O !! t = Some ρ -> is_dir ρ -> 0 <= i < 512 ->
  O !! t' = Some (child ρ i) ->
  (forall u, is_Some (O !! u) -> forall ρu, O !! u = Some ρu -> ~ gone (child ρ i) 512 ρu) ->
  load64 m' (t + 8 * i) = 0 ->
  (forall u x, is_Some (O !! u) -> u <> t' -> in_page u x ->
     ~ (t + 8 * i <= x < t + 8 * i + 8) -> mget m' x = mget m x) ->
  pt_wf m' r (delete t' O).
Proof.
  intros W Ht Hd Hi Ht' Hng He Hf.
  assert (Htt : t <> t') by (intros ->; rewrite Ht in Ht'; by destruct ρ).
  assert (Hld : forall u ρu j, O !! u = Some ρu -> u <> t' -> 0 <= j < 512 -> (u <> t \/ j <> i) ->
            load64 m' (u + 8 * j) = load64 m (u + 8 * j)).
  { intros u ρu j Hu Hut Hj Hne. apply load64_ext. intros x Hx.
    apply (Hf u); [eauto|done|by apply (entry_in_page u j)|].
    destruct (entries_disjoint t i u j); try done;
      [by eapply pt_page|by eapply pt_page|destruct Hne; auto|lia|lia]. }
  split.
  - rewrite lookup_delete_ne; [apply W|]. intros ->. rewrite (pt_root _ _ _ W) in Ht'. by destruct ρ.
  - intros u [_ Hu]%lookup_delete_Some. by eapply pt_root_uniq.
  - intros u ρu [_ Hu]%lookup_delete_Some. by eapply pt_page.
  - intros u ρu j [Hne Hu]%lookup_delete_Some Hdu Hj.
    destruct (decide (u = t /\ j = i)) as [[-> ->]|Hnn].
    + by rewrite He, has_0.
    + rewrite (Hld u ρu j) by (done || (destruct (decide (u = t)); naive_solver)).
      intros HV. destruct (pt_down _ _ _ W u ρu j) as (t2 & E & H2); [done..|].
      exists t2. split; [done|]. rewrite lookup_delete_ne; [done|]. intros <-.
      rewrite Ht' in H2. assert (u = t); [|].
      { eapply role_inj; [done|done|]. rewrite Ht. f_equal. destruct ρ, ρu; cbn in *; naive_solver. }
      subst u. rewrite Ht in Hu. destruct ρ; naive_solver.
  - intros u ρu j t2 [Hne Hu]%lookup_delete_Some Hdu Hj [Hne2 H2]%lookup_delete_Some.
    destruct (decide (u = t /\ j = i)) as [[-> ->]|Hnn].
    + exfalso. apply Hne2. eapply role_inj; [done..|]. by simplify_eq.
    + rewrite (Hld u ρu j) by (done || (destruct (decide (u = t)); naive_solver)).
      by eapply pt_up.
  - intros u i2 [_ Hu]%lookup_delete_Some. by eapply pt_mid_range.
  - intros u i2 i1 [_ Hu]%lookup_delete_Some.
    destruct (pt_low_range _ _ _ W _ _ _ Hu) as (? & t1 & H1). split; [done|].
    exists t1. rewrite lookup_delete_ne; [done|]. intros <-.
    apply (Hng u ltac:(eauto) _ Hu). rewrite Ht' in H1. destruct ρ; cbn in *; naive_solver.
Qed.

Definition no_leaf m O : Prop := forall t0 i2 i1 i,
  O !! t0 = Some (Low i2 i1) -> 0 <= i < 512 -> has (load64 m (t0 + 8 * i)) PTE_V = false.

(** From [s] to [s']: the tables below a table of role [ρ] became free pages. *)
Record pruned (s : kst) r O fl (ρ : role) (s' : kst) (fl' : list Z) : Prop := {
  pr_own : pt_own s' r (without O ρ 512) fl';
  pr_state : only_mem s s';
  pr_leaf : no_leaf (mem s') (without O ρ 512);
  pr_pages p : p ∈ fl' <-> p ∈ fl \/ exists ρ', O !! p = Some ρ' /\ gone ρ 512 ρ';
  pr_frame x : (forall u, is_Some (O !! u) -> ~ in_page u x) -> mget (mem s') x = mget (mem s) x
}.

Definition freed (s : kst) r O fl t (ρ : role) (s' : kst) : Prop :=
  exists s1 fl1, pruned s r O fl ρ s1 fl1 /\ only_mem s1 s' /\ kmem_inv s' (t :: fl1) /\
    forall x, ~ in_page t x -> mget (mem s') x = mget (mem s1) x.

Lemma gone_mono ρ i j ρ' : i <= j -> gone ρ i ρ' -> gone ρ j ρ'.
Proof. destruct ρ, ρ'; cbn; lia. Qed.

Lemma gone_child ρ i : is_dir ρ -> 0 <= i < 512 -> gone ρ 512 (child ρ i).
Proof. destruct ρ; cbn; [lia..|done]. Qed.

Lemma gone_below ρ i ρ' : 0 <= i < 512 -> is_dir ρ -> gone (child ρ i) 512 ρ' -> gone ρ 512 ρ'.
Proof. destruct ρ, ρ'; cbn; try lia; done. Qed.

Lemma gone_succ m r O ρ i u ρ' :
  pt_wf m r O -> O !! u = Some ρ' -> is_dir ρ -> gone ρ (i + 1) ρ' ->
  gone ρ i ρ' \/ ρ' = child ρ i \/ gone (child ρ i) 512 ρ'.
Proof.
  intros W Hu Hd. destruct ρ as [|k|], ρ' as [|j|j' j]; cbn; try done.
  - intros. destruct (decide (j = i)) as [->|]; [right; by left|left; lia].
  - intros. destruct (decide (j' = i)) as [->|]; [|left; lia]. right; right.
    destruct (pt_low_range _ _ _ W _ _ _ Hu). lia.
  - intros [-> ?]. destruct (decide (j = i)) as [->|]; [right; by left|left; lia].
Qed.

Lemma pruned_refl s r O fl ρ :
  pt_own s r O fl -> no_leaf (mem s) O ->
  (forall u ρu, O !! u = Some ρu -> ~ gone ρ 512 ρu) -> pruned s r O fl ρ s fl.
Proof.
  intros Own Hl Hg. assert (without O ρ 512 = O) as E.
  { apply map_eq. intros t. apply option_eq. intros ρ'. rewrite lookup_without. naive_solver. }
  split; rewrite ?E; [done|apply only_mem_refl|done| |done].
  intros p. naive_solver.
Qed.

(** One child: its subtree is freed and its entry cleared. *)
Lemma pruned_child s r O fl t ρ i t' s1 s2 (fl1 : list Z) :
  pt_own s r O fl -> no_leaf (mem s) O -> O !! t = Some ρ -> is_dir ρ -> 0 <= i < 512 ->
  O !! t' = Some (child ρ i) ->
  pruned s r O fl (child ρ i) s1 fl1 -> only_mem s1 s2 -> kmem_inv s2 (t' :: fl1) ->
  (forall x, ~ in_page t' x -> mget (mem s2) x = mget (mem s1) x) ->
  let s3 := set_mem (store64 (mem s2) (t + 8 * i) 0) s2 in
  let O3 := delete t' (without O (child ρ i) 512) in
  pt_own s3 r O3 (t' :: fl1) /\ no_leaf (mem s3) O3 /\ only_mem s s3 /\
  (forall x, (forall u, is_Some (O !! u) -> ~ in_page u x) -> mget (mem s3) x = mget (mem s) x).
Proof.
  intros Own Hl Ht Hd Hi Ht' [[W1 K1 D1] St1 L1 Pg1 F1] E2 K2 M2 s3 O3.
  set (O1 := without O (child ρ i) 512) in *. pose proof Own as [W K D].
  assert (Ht1 : O1 !! t = Some ρ).
  { apply lookup_without. split; [done|]. destruct ρ; cbn; try done; lia. }
  assert (Ht1' : O1 !! t' = Some (child ρ i)).
  { apply lookup_without. split; [done|]. destruct ρ; cbn; try done; lia. }
  assert (Htt : t <> t') by (intros ->; rewrite Ht in Ht'; by destruct ρ).
  assert (Htp : page_ok t) by (by eapply pt_page).
  assert (Htp' : page_ok t') by (by eapply pt_page).
  assert (Hm3 : forall x, ~ in_page t' x -> ~ (t + 8 * i <= x < t + 8 * i + 8) ->
             mget (mem s3) x = mget (mem s1) x).
  { intros x Hx Hx'. cbn. rewrite mget_store64_out by done. by apply M2. }
  split_and!.
  - split.
    + eapply (pt_remove (mem s1) _ r O1 t ρ i t'); try done.
      * intros u _ ρu [_ Hg]%lookup_without. done.
      * cbn. by rewrite load64_store64.
      * intros u x [ρu Hu] Hne Hx Hx'. apply Hm3; [|done].
        eapply (in_page_neq u t'); [exact (pt_page _ _ _ W1 _ _ Hu)|done|done|done].
    + apply kmem_store; [done|done| |done]. apply not_elem_of_cons. split; [done|].
      apply D1. eauto.
    + intros u Hu. apply not_elem_of_cons. destruct Hu as [ρu [Hne Hu]%lookup_delete_Some].
      split; [congruence|]. apply D1. eauto.
  - intros t0 i2 i1 j [Hne H0]%lookup_delete_Some Hj.
    rewrite <- (L1 t0 i2 i1 j H0 Hj). f_equal. apply load64_ext. intros x Hx. apply Hm3.
    + eapply (in_page_neq t0 t'); [exact (pt_page _ _ _ W1 _ _ H0)|done|congruence|by apply (entry_in_page t0 j)].
    + intros Hx'. eapply (in_page_neq t0 t x); [exact (pt_page _ _ _ W1 _ _ H0)|done| |
        by apply (entry_in_page t0 j)|by apply (entry_in_page t i)].
      intros ->. rewrite Ht1 in H0. by simplify_eq.
  - eapply only_mem_trans; [done|]. by eapply only_mem_trans.
  - intros x Hx. rewrite Hm3, F1; [done|done|by apply Hx; eauto|].
    intros Hx'. apply (Hx t); [eauto|]. by apply (entry_in_page t i).
Qed.

Lemma pruned_step s r O fl ρ i t' fl1 s3 s4 fl4 :
  is_dir ρ -> 0 <= i < 512 -> O !! t' = Some (child ρ i) ->
  (forall p, p ∈ fl1 <-> p ∈ fl \/ exists ρ', O !! p = Some ρ' /\ gone (child ρ i) 512 ρ') ->
  only_mem s s3 ->
  (forall x, (forall u, is_Some (O !! u) -> ~ in_page u x) -> mget (mem s3) x = mget (mem s) x) ->
  pruned s3 r (delete t' (without O (child ρ i) 512)) (t' :: fl1) ρ s4 fl4 ->
  pruned s r O fl ρ s4 fl4.
Proof.
  intros Hd Hi Ht' Pg1 E3 M3 [Own4 St4 L4 Pg4 F4].
  set (O3 := delete t' _) in *.
  assert (EO : without O3 ρ 512 = without O ρ 512).
  { apply map_eq. intros u. apply option_eq. intros ρu. unfold O3.
    rewrite !lookup_without, lookup_delete_Some, lookup_without.
    split; [naive_solver|]. intros [Hu Hg]. split_and!; [|done| |done].
    - intros <-. rewrite Ht' in Hu. simplify_eq. apply Hg. by apply gone_child.
    - intros Hg'. apply Hg. by eapply gone_below. }
  rewrite EO in Own4, L4. split; [done|by eapply only_mem_trans|done| |].
  - intros p. rewrite Pg4, elem_of_cons, Pg1. unfold O3.
    setoid_rewrite lookup_delete_Some. setoid_rewrite lookup_without. split.
    + intros [[->|[?|(ρ' & ? & ?)]]|(ρ' & ? & ?)]; [right|by left|right|right; naive_solver].
      * exists (child ρ i). split; [done|by apply gone_child].
      * exists ρ'. split; [done|by eapply gone_below].
    + intros [?|(ρ' & Hp & Hg)]; [by left; right; left|].
      destruct (decide (p = t')) as [->|]; [by left; left|].
      destruct (decide (gone (child ρ i) 512 ρ')) as [?|?]; [left; right; right; eauto|].
      right. exists ρ'. naive_solver.
  - intros x Hx. rewrite F4; [by apply M3|]. intros u [ρu Hu]. apply Hx.
    apply lookup_delete_Some in Hu as [_ Hu]. apply lookup_without in Hu as [Hu _]. eauto.
Qed.

Lemma wp_freewalk_entries rec t ρ r k : forall s O fl i,
  is_dir ρ ->
  (forall s' O' fl' t' j, pt_own s' r O' fl' -> no_leaf (mem s') O' -> 0 <= j < 512 ->
     O' !! t' = Some (child ρ j) ->
     wp (rec t') (fun _ s2 => freed s' r O' fl' t' (child ρ j) s2) s') ->
  pt_own s r O fl -> no_leaf (mem s) O -> O !! t = Some ρ -> 0 <= i -> i + Z.of_nat k = 512 ->
  (forall u ρu, O !! u = Some ρu -> ~ gone ρ i ρu) ->
  wp (freewalk_entries rec t i k) (fun _ s' => exists fl', pruned s r O fl ρ s' fl') s.
Proof.
  induction k as [|k IH]; intros s O fl i Hd Hrec Own Hl Ht Hi Hk Hg; cbn [freewalk_entries].
  { apply wp_ret. exists fl. assert (i = 512) as -> by lia. by apply pruned_refl. }
  wp_step. apply wp_get. destruct (has (load64 (mem s) (t + 8 * i)) PTE_V) eqn:HV.
  - destruct (pt_down _ _ _ (own_wf _ _ _ _ Own) t ρ i) as (t' & E & Ht');
      [done|done|lia|by rewrite HV|].
    assert (Hp' : page_ok t') by (by eapply (pt_page _ _ _ (own_wf _ _ _ _ Own))).
    assert (Hrwx : has (load64 (mem s) (t + 8 * i)) (Z.lor (Z.lor PTE_R PTE_W) PTE_X) = false).
    { rewrite E. destruct (page_ok_pa_ok _ Hp'). by rewrite has_mk by (done || lia). }
    rewrite Hrwx. cbn [andb negb]. rewrite E, PTE2PA_table by done.
    do 2 wp_step. wp_apply (Hrec s O fl t' i); [done|done|lia|done|].
    intros [] s2 (s1 & fl1 & Hpr & E2 & K2 & M2). apply wp_upd.
    destruct (pruned_child s r O fl t ρ i t' s1 s2 fl1) as (Own3 & L3 & E3 & M3);
      [done|done|done|done|lia|done..|].
    eapply wp_mono.
    + eapply IH; [done|done|exact Own3|exact L3| |lia|lia|].
      * apply lookup_delete_Some. split.
        { intros ->. rewrite Ht in Ht'. by destruct ρ. }
        apply lookup_without. split; [done|]. destruct ρ; cbn; try done; lia.
      * intros u ρu [Hne Hu]%lookup_delete_Some. apply lookup_without in Hu as [Hu Hng].
        intros Hgs. destruct (gone_succ _ _ _ _ _ _ _ (own_wf _ _ _ _ Own) Hu Hd Hgs) as [?|[->|?]];
          [by eapply Hg| |done].
        apply Hne. eapply role_inj; [apply Own|done|done].
    + intros [] s4 (fl4 & Hpr4). exists fl4. cbn beta.
      eapply (pruned_step s r O fl ρ i t' fl1 _ s4 fl4); [done|lia|done|apply Hpr|exact E3|done|done].
  - cbn [andb]. do 2 wp_step. eapply IH; try done; try lia.
    intros u ρu Hu Hgs.
    assert (Hno : forall v, O !! v <> Some (child ρ i)).
    { intros v Hv. rewrite (pt_up _ _ _ (own_wf _ _ _ _ Own) t ρ i v) in HV by (done || lia).
      rewrite has_V_table in HV; [done|]. by eapply (pt_page _ _ _ (own_wf _ _ _ _ Own)). }
    destruct (gone_succ _ _ _ _ _ _ _ (own_wf _ _ _ _ Own) Hu Hd Hgs) as [?|[->|Hb]];
      [by eapply Hg|by eapply Hno|].
    destruct ρ, ρu; cbn in *; try done. destruct Hb as [-> _].
    destruct (pt_low_range _ _ _ (own_wf _ _ _ _ Own) _ _ _ Hu) as (_ & t1 & H1). by eapply Hno.
Qed.

(** A level-0 table has nothing to recurse into. *)
Lemma wp_freewalk_entries_low rec t k : forall s i,
  0 <= i -> i + Z.of_nat k = 512 ->
  (forall j, 0 <= j < 512 -> has (load64 (mem s) (t + 8 * j)) PTE_V = false) ->
  wp (freewalk_entries rec t i k) (fun _ s' => s' = s) s.
Proof.
  induction k as [|k IH]; intros s i Hi Hk Hl; cbn [freewalk_entries]; [done|].
  wp_step. apply wp_get. rewrite Hl by lia. cbn [andb]. do 2 wp_step. apply IH; [lia|lia|done].
Qed.

Lemma wp_freewalk d : forall s r O fl t ρ,
  d = depth_of ρ -> pt_own s r O fl -> no_leaf (mem s) O -> O !! t = Some ρ ->
  wp (freewalk d t) (fun _ s' => freed s r O fl t ρ s') s.
Proof.
  induction d as [|d IH]; intros s r O fl t ρ Hdep Own Hl Ht; [by destruct ρ|].
  cbn [freewalk].
  assert (Hp : page_ok t) by (by eapply (pt_page _ _ _ (own_wf _ _ _ _ Own))).
  assert (Hkf : forall s1 fl1, pruned s r O fl ρ s1 fl1 ->
            wp (kfree t) (fun _ s' => freed s r O fl t ρ s') s1).
  { intros s1 fl1 Hpr. pose proof Hpr as [Own1 _ _ _ _].
    eapply wp_kfree; [apply Own1|done| |].
    - apply (own_disj _ _ _ _ Own1). exists ρ. apply lookup_without. split; [done|].
      destruct ρ; cbn; try done; lia.
    - intros s2 E2 K2 M2. exists s1, fl1. done. }
  destruct (is_dir ρ) eqn:Hd.
  - wp_step. eapply wp_mono.
    + eapply (wp_freewalk_entries (freewalk d) t ρ r); try done.
      * by rewrite Hd.
      * intros s' O' fl' t' j Own' Hl' Hj Ht'. eapply IH; [|done..].
        destruct ρ; cbn in *; try done; lia.
      * intros u ρu Hu. assert (Hz := without_0 _ _ _ ρ (own_wf _ _ _ _ Own)).
        rewrite <- Hz in Hu. by apply lookup_without in Hu as [_ Hu].
    + intros [] s1 [fl1 Hpr]. by eapply Hkf.
  - wp_step. eapply wp_mono.
    + apply wp_freewalk_entries_low; [lia|lia|]. intros j Hj. destruct ρ; try done.
      by eapply Hl.
    + intros [] s1 ->. eapply (Hkf s fl). apply pruned_refl; [done..|].
      intros u ρu Hu. destruct ρ; try done. cbn. tauto.
Qed.

Lemma no_leaf_pte m r O :
  pt_wf m r O -> (forall vb, 0 <= vb < MAXVA -> has (pte_at m r vb) PTE_V = false) -> no_leaf m O.
Proof.
  intros W Hp t0 i2 i1 i H0 Hi. destruct (pt_low_range _ _ _ W _ _ _ H0) as (? & t1 & H1).
  pose proof (pt_mid_range _ _ _ W _ _ H1).
  destruct (PX_va_of i2 i1 i) as (E2 & E1 & E0); [lia..|].
  rewrite <- (Hp (va_of i2 i1 i)) by (unfold va_of; lia).
  rewrite (pte_at_low m r O _ t0) by (done || by rewrite E2, E1). by rewrite E0.
Qed.

(** [uvmfree]: when the frames are exactly the pages below [sz] and nothing else
    is mapped, every page of the address space ends up free. *)
Lemma wp_uvmfree s r O fl U sz :
  uvm_own s r O fl U -> 0 <= sz <= MAXVA ->
  (forall va, is_Some (U !! va) <-> 0 <= va < PGROUNDUP sz /\ va mod PGSIZE = 0) ->
  (forall vb, PGROUNDUP sz <= vb < MAXVA -> has (pte_at (mem s) r vb) PTE_V = false) ->
  wp (uvmfree r sz) (fun _ s' => exists fl', kmem_inv s' fl' /\ only_mem s s' /\
    (forall p, p ∈ fl' <-> p ∈ fl \/ is_Some (O !! p) \/ exists va, U !! va = Some p) /\
    (forall x, (forall p, p ∈ fl' -> ~ in_page p x) -> mget (mem s') x = mget (mem s) x)) s.
Proof.
  intros Own Hsz HU Hun. unfold uvmfree.
  pose proof (PGROUNDUP_range sz ltac:(lia)) as Hh. pose proof (PGROUNDUP_aligned sz) as Hha.
  assert (PGROUNDUP sz <= MAXVA).
  { rewrite PGROUNDUP_eq by lia. Z.div_mod_to_equations. lia. }
  wp_step. eapply (wp_mono _ (fun _ s1 => unmap_post s r O fl U 0 (PGROUNDUP sz) s1)).
  { destruct (Z.ltb_spec 0 sz).
    - assert (Ea : PGROUNDUP sz / PGSIZE * PGSIZE = PGROUNDUP sz) by (Z.div_mod_to_equations; lia).
      eapply wp_mono.
      + eapply wp_uvmunmap; [done|done|lia|Z.div_mod_to_equations; lia|lia|].
        rewrite Ea. intros vb Hvb Hal. apply HU. split; lia.
      + intros [] s1 Hp. by rewrite Ea in Hp.
    - assert (sz = 0) as -> by lia. apply wp_ret. by apply unmap_post_refl. }
  intros [] s1 (ps & U1 & Own1 & E1 & HU1 & Hps & P1 & F1).
  assert (Hl : no_leaf (mem s1) O).
  { eapply no_leaf_pte; [apply Own1|]. intros vb Hvb. rewrite P1 by done.
    case_decide; [done|]. apply Hun. lia. }
  eapply wp_mono.
  { eapply (wp_freewalk 3 s1 r O _ r Root); [done|apply Own1|done|apply Own1]. }
  intros [] s' (s2 & fl2 & [Own2 St2 _ Pg2 F2] & E' & K' & M').
  assert (HW := own_wf _ _ _ _ (uvm_pt _ _ _ _ _ Own)).
  assert (Hpg : forall p, p ∈ r :: fl2 <-> p ∈ fl \/ is_Some (O !! p) \/ exists va, U !! va = Some p).
  { intros p. rewrite elem_of_cons, Pg2, elem_of_app, Hps. split.
    - intros [->|[[(va & ? & ?)|?]|(ρ' & ? & ?)]]; [|by eauto..].
      right; left. exists Root. apply HW.
    - intros [?|[[ρ Hρ]|[va Hva]]]; [by eauto| |].
      + destruct ρ as [|i|i j]; [left; by eapply pt_root_uniq|right; right..].
        * exists (Mid i). split; [done|]. cbn. pose proof (pt_mid_range _ _ _ HW _ _ Hρ). lia.
        * exists (Low i j). split; [done|]. cbn.
          destruct (pt_low_range _ _ _ HW _ _ _ Hρ) as (_ & t1 & H1).
          pose proof (pt_mid_range _ _ _ HW _ _ H1). lia.
      + right; left; left. exists va. split; [|done]. apply HU. eauto. }
  exists (r :: fl2). split_and!; [done| |done|].
  - eapply only_mem_trans; [done|]. by eapply only_mem_trans.
  - intros x Hx. rewrite M', F2, F1; [done|..].
    + intros t Ht. apply Hx, Hpg. eauto.
    + intros p Hp. apply Hx, Hpg. apply Hps in Hp as (va & _ & ?). eauto.
    + intros t Ht. apply Hx, Hpg. eauto.
    + apply Hx. set_solver.
Qed.

End Uvmfree.
