(* ===== verification/Copy.v ===== *)
(** [walkaddr], [copyin], [copyout] and [copyinstr] of [Vm]: what the kernel reads
    from and writes to user memory, byte by byte. *)
From S2P Require Import Prelude Types Riscv Str Kalloc Vm PtRep PtOps Uvm.

Section Copy.
Context {L : Linker} {LOk : LinkerOk L}.
Implicit Types (m : gmap Z Z) (O : gmap Z role) (U : gmap Z Z) (r t va : Z) (fl : list Z).

(** The user's view of an address: whether it may be read or written, and the byte. *)
Definition ureadable m r va : bool :=
  (va <? MAXVA) && has (pte_at m r va) PTE_V && has (pte_at m r va) PTE_U.
Definition uwritable m r va : bool := ureadable m r va && has (pte_at m r va) PTE_W.
Definition ubyte m r va : Z := mget m (PTE2PA (pte_at m r va) + va mod PGSIZE).

Fixpoint uread m r va (n : nat) : list Z :=
  match n with
  | O => []
  | S n' => ubyte m r va :: uread m r (va + 1) n'
  end.

(** No user page is backed by physical page 0. *)
Definition no_zero_page m r : Prop :=
  forall va, 0 <= va -> ureadable m r va -> PTE2PA (pte_at m r va) <> 0.

Lemma pte_at_page m r va vb : va / 4096 = vb / 4096 -> pte_at m r va = pte_at m r vb.
Proof.
  intros H. unfold pte_at, pt_slot. by rewrite !(PX_same_page _ va vb) by (lia || done).
Qed.

Lemma PGROUNDDOWN_div a : PGROUNDDOWN a / 4096 = a / 4096.
Proof. rewrite PGROUNDDOWN_eq. apply Z.div_mul. lia. Qed.

Lemma MAXVA_page va : (PGROUNDDOWN va <? MAXVA) = (va <? MAXVA).
Proof.
  rewrite PGROUNDDOWN_eq.
  destruct (Z.ltb_spec (va / 4096 * 4096) MAXVA), (Z.ltb_spec va MAXVA); try done;
    Z.div_mod_to_equations; lia.
Qed.

Lemma ureadable_page m r va vb :
  va / 4096 = vb / 4096 -> ureadable m r va = ureadable m r vb.
Proof.
  intros H. unfold ureadable. rewrite (pte_at_page m r va vb) by done. do 2 f_equal.
  rewrite <- (MAXVA_page va), <- (MAXVA_page vb), !PGROUNDDOWN_eq. by rewrite H.
Qed.

Lemma uread_app m r va n1 n2 :
  uread m r va (n1 + n2) = uread m r va n1 ++ uread m r (va + Z.of_nat n1) n2.
Proof.
  revert va. induction n1 as [|n IH]; intros va; cbn [Nat.add uread app].
  - f_equal; lia.
  - rewrite IH. do 3 f_equal. lia.
Qed.

Lemma length_uread m r va n : length (uread m r va n) = n.
Proof. revert va. induction n; intros; cbn; auto. Qed.

Lemma uread_nth m r va n i :
  (i < n)%nat -> nth i (uread m r va n) 0 = ubyte m r (va + Z.of_nat i).
Proof.
  revert va i. induction n as [|n IH]; intros va i Hi; [lia|].
  destruct i as [|i]; cbn [uread nth].
  - f_equal; lia.
  - rewrite IH by lia. f_equal. lia.
Qed.

(** Within one page, the user's bytes are physically contiguous. *)
Lemma uread_mread m r va n :
  va mod PGSIZE + Z.of_nat n <= PGSIZE ->
  uread m r va n = mread m (PTE2PA (pte_at m r va) + va mod PGSIZE) n.
Proof.
  intros Hn. apply nth_ext with 0 0; rewrite length_uread; [by rewrite length_mread|].
  intros i Hi. rewrite uread_nth, mread_nth by done. unfold ubyte.
  rewrite (pte_at_page m r (va + Z.of_nat i) va) by (Z.div_mod_to_equations; lia).
  f_equal. Z.div_mod_to_equations. lia.
Qed.

(** [walkaddr]: the frame behind a readable page, 0 for anything else. *)
Definition uaddr m r va : Z := if ureadable m r va then PTE2PA (pte_at m r va) else 0.

Lemma walkaddr_ok s r O va :
  pt_wf (mem s) r O -> walkaddr r va s = Ok (uaddr (mem s) r va) s.
Proof.
  intros W. unfold walkaddr, uaddr, ureadable.
  destruct (Z.leb_spec MAXVA va); [by rewrite (proj2 (Z.ltb_ge _ _))|].
  rewrite (proj2 (Z.ltb_lt _ _)) by done. unfold bind at 1. rewrite walk_noalloc by done.
  unfold pte_at. destruct (pt_slot (mem s) r va) as [a|] eqn:E; cbn; [|done].
  apply (pt_slot_low _ _ O) in E as (t0 & H0 & ->); [|done].
  pose proof (page_ok_bounds t0 (pt_page _ _ _ W _ _ H0)). pose proof (PX_range 0 va ltac:(lia)).
  rewrite (proj2 (Z.eqb_neq _ _)) by lia. unfold ld64, bind, get.
  destruct (has (load64 _ _) PTE_V); [|done]. by destruct (has (load64 _ _) PTE_U).
Qed.

Lemma wp_walkaddr s r O va (Q : Z -> kst -> Prop) :
  pt_wf (mem s) r O -> Q (uaddr (mem s) r va) s -> wp (walkaddr r va) Q s.
Proof. intros W HQ. unfold wp. by rewrite (walkaddr_ok s r O). Qed.

(** The readable prefix of a range decides what [copyin] does. *)
Definition ureadable_range m r va (n : Z) : Prop :=
  forall vb, va <= vb < va + n -> ureadable m r vb.

Lemma wp_copyin_loop fuel : forall s r O dst srcva len,
  pt_wf (mem s) r O -> no_zero_page (mem s) r ->
  0 <= srcva -> srcva + len <= 2 ^ 64 - PGSIZE -> len <= Z.of_nat fuel ->
  wp (copyin_loop r dst srcva len fuel) (fun '(res, out) s' => s' = s /\
    ((res = 0 /\ ureadable_range (mem s) r srcva len /\
      out = dst ++ uread (mem s) r srcva (Z.to_nat len)) \/
     (res = -1 /\ exists n, 0 <= n < len /\ ureadable (mem s) r (srcva + n) = false /\
      ureadable_range (mem s) r srcva n /\ out = dst ++ uread (mem s) r srcva (Z.to_nat n)))) s.
Proof.
  induction fuel as [|fuel IH]; intros s r O dst srcva len W Hz Hs Hmax Hf; cbn [copyin_loop];
    (destruct (Z.ltb_spec 0 len); [|apply wp_ret; split; [done|]; left; split_and!; [done|
       intros vb Hvb; lia|replace (Z.to_nat len) with 0%nat by lia; by rewrite app_nil_r]]); [lia|].
  wp_step. eapply wp_walkaddr; [done|].
  pose proof (PGROUNDDOWN_range srcva) as Hr. pose proof (PGROUNDDOWN_aligned srcva) as Ha.
  pose proof (PGROUNDDOWN_div srcva) as Hd.
  set (va0 := PGROUNDDOWN srcva) in *. unfold uaddr.
  rewrite (ureadable_page _ _ va0 srcva), (pte_at_page _ _ va0 srcva) by done.
  destruct (ureadable (mem s) r srcva) eqn:Hrd.
  2:{ rewrite Z.eqb_refl. apply wp_ret. split; [done|]. right. split; [done|]. exists 0.
      split_and!; [lia|lia|by rewrite Z.add_0_r|intros vb Hvb; lia|by rewrite app_nil_r]. }
  rewrite (proj2 (Z.eqb_neq _ _)) by (apply Hz; [done|by rewrite Hrd]).
  set (n := if len <? PGSIZE - (srcva - va0) then len else PGSIZE - (srcva - va0)).
  assert (Hn : 0 < n <= len /\ n <= PGSIZE - (srcva - va0) /\ (n = len \/ srcva + n = va0 + PGSIZE)).
  { unfold n. destruct (Z.ltb_spec len (PGSIZE - (srcva - va0))); lia. }
  clearbody n. destruct Hn as (Hn1 & Hn2 & Hn3).
  assert (Eoff : srcva - va0 = srcva mod PGSIZE) by (Z.div_mod_to_equations; lia).
  assert (Hpg : forall vb, srcva <= vb < srcva + n -> ureadable (mem s) r vb).
  { intros vb Hvb. rewrite (ureadable_page _ _ vb srcva), Hrd; [done|]. Z.div_mod_to_equations. lia. }
  wp_step. apply wp_get. rewrite Eoff.
  rewrite <- uread_mread by lia.
  rewrite u64_small by lia.
  destruct Hn3 as [->|Hn3].
  { replace (len - len) with 0 by lia. destruct fuel; cbn; (split; [done|]; left; done). }
  replace (va0 + PGSIZE) with (srcva + n) by lia.
  assert (Hcat : forall k, 0 <= k -> dst ++ uread (mem s) r srcva (Z.to_nat (n + k)) =
     (dst ++ uread (mem s) r srcva (Z.to_nat n)) ++ uread (mem s) r (srcva + n) (Z.to_nat k)).
  { intros k Hk. rewrite Z2Nat.inj_add, uread_app, Z2Nat.id, app_assoc by lia. done. }
  eapply wp_mono; [eapply IH; [done|done|lia|lia|lia]|].
  intros [res out] s' [-> [(-> & Hrr & ->)|(-> & k & Hk & Hkr & Hkp & ->)]]; (split; [done|]).
  - left. split_and!; [done| |].
    + intros vb Hvb. destruct (decide (vb < srcva + n)); [apply Hpg; lia|apply Hrr; lia].
    + rewrite <- Hcat by lia. do 2 f_equal. lia.
  - right. split; [done|]. exists (n + k). split_and!; [lia|lia| | |].
    + rewrite <- Hkr. f_equal. lia.
    + intros vb Hvb. destruct (decide (vb < srcva + n)); [apply Hpg; lia|apply Hkp; lia].
    + by rewrite Hcat by lia.
Qed.

Lemma wp_copyin s r O srcva len :
  pt_wf (mem s) r O -> no_zero_page (mem s) r ->
  0 <= srcva -> srcva + len <= 2 ^ 64 - PGSIZE ->
  wp (copyin r srcva len) (fun '(res, out) s' => s' = s /\
    ((res = 0 /\ ureadable_range (mem s) r srcva len /\
      out = uread (mem s) r srcva (Z.to_nat len)) \/
     (res = -1 /\ exists n, 0 <= n < len /\ ureadable (mem s) r (srcva + n) = false /\
      ureadable_range (mem s) r srcva n /\ out = uread (mem s) r srcva (Z.to_nat n)))) s.
Proof. intros. eapply (wp_copyin_loop (Z.to_nat len) s r O []); [done..|lia]. Qed.

(** ** [copyout] *)

(** Every page the user may write is a frame the address space owns. *)
Definition writable_owned m r U : Prop :=
  forall va, 0 <= va -> uwritable m r va -> is_Some (U !! PGROUNDDOWN va).

(** A write inside one frame is seen at the page mapped to it and nowhere else. *)
Lemma uvm_write_frame s r O fl U va0 p off bs :
  uvm_own s r O fl U -> U !! va0 = Some p -> 0 <= off -> off + Z.of_nat (length bs) <= PGSIZE ->
  let s' := set_mem (mwrite (mem s) (p + off) bs) s in
  uvm_own s' r O fl U /\ (forall vb, pte_at (mem s') r vb = pte_at (mem s) r vb) /\
  (forall x, ~ in_page p x -> mget (mem s') x = mget (mem s) x) /\
  (forall vb, is_Some (U !! PGROUNDDOWN vb) -> ubyte (mem s') r vb =
     if decide (va0 + off <= vb < va0 + off + Z.of_nat (length bs))
     then nth (Z.to_nat (vb - (va0 + off))) bs 0 else ubyte (mem s) r vb).
Proof.
  intros Own HU Hoff Hlen s'. pose proof Own as [[W K D] Hva Hfr Hpte Hinj].
  destruct (Hfr _ _ HU) as (Hp & Hnf & HnO). destruct (Hva _ _ HU) as [Hal Hr].
  assert (Hout : forall x, ~ in_page p x -> mget (mem s') x = mget (mem s) x).
  { intros x Hx. cbn. apply mget_mwrite_out. unfold in_page in Hx. lia. }
  destruct (uvm_own_frame s s' r O fl fl U) as [Own' P']; [done|..].
  { eapply kmem_inv_frame; [exact K|done|apply K|]. intros q x Hq Hx. apply Hout.
    eapply (in_page_neq q p); [by eapply kmem_page|done|congruence|done]. }
  { intros t x [ρ Ht] Hx. apply Hout.
    eapply (in_page_neq t p); [by eapply pt_page|done|congruence|done]. }
  { intros q Hq. split.
    - apply eq_None_not_Some. intros H. by apply (D q H).
    - intros vb Hb. by apply (Hfr _ _ Hb). }
  split_and!; [done|done|done|]. intros vb [q Hq]. unfold ubyte. rewrite P'.
  destruct (Hpte _ _ Hq) as (perm & Epte & Hperm & _).
  destruct (Hfr _ _ Hq) as (Hqp & _). pose proof (page_ok_pa_ok _ Hqp).
  rewrite <- (pte_at_page _ _ (PGROUNDDOWN vb) vb) by apply PGROUNDDOWN_div.
  rewrite Epte, leaf_PA by done.
  pose proof (Z.mod_pos_bound vb PGSIZE ltac:(lia)).
  pose proof (PGROUNDDOWN_eq vb) as Ed.
  destruct (decide (PGROUNDDOWN vb = va0)) as [E|E].
  - rewrite E, HU in Hq. simplify_eq. cbn. rewrite mget_mwrite.
    repeat case_decide; try done; try (Z.div_mod_to_equations; lia).
    f_equal. Z.div_mod_to_equations. lia.
  - rewrite decide_False by (Z.div_mod_to_equations; lia). apply Hout.
    eapply (in_page_neq q p); [done|done| |unfold in_page; lia].
    intros ->. apply E. by eapply Hinj.
Qed.

(** The first [n] bytes of [src] have been written at [dstva]. *)
Record copied (s : kst) r O fl U dstva (src : list Z) (n : Z) (s' : kst) : Prop := {
  cp_own : uvm_own s' r O fl U;
  cp_state : s' = set_mem (mem s') s;
  cp_pte vb : pte_at (mem s') r vb = pte_at (mem s) r vb;
  cp_byte vb : is_Some (U !! PGROUNDDOWN vb) -> ubyte (mem s') r vb =
    if decide (dstva <= vb < dstva + n) then nth (Z.to_nat (vb - dstva)) src 0
    else ubyte (mem s) r vb;
  cp_frame x : (forall vb p, dstva <= vb < dstva + n -> U !! PGROUNDDOWN vb = Some p ->
    ~ in_page p x) -> mget (mem s') x = mget (mem s) x
}.

Definition copyout_post s r O fl U dstva (src : list Z) (res : Z) (s' : kst) : Prop :=
  (res = 0 /\ (forall vb, dstva <= vb < dstva + Z.of_nat (length src) -> uwritable (mem s) r vb) /\
   copied s r O fl U dstva src (Z.of_nat (length src)) s') \/
  (res = -1 /\ exists n, 0 <= n < Z.of_nat (length src) /\
   uwritable (mem s) r (dstva + n) = false /\ copied s r O fl U dstva src n s').

Lemma copied_refl s r O fl U dstva src : uvm_own s r O fl U -> copied s r O fl U dstva src 0 s.
Proof.
  intros Own. split; [done|by destruct s|done| |done].
  intros vb _. by rewrite decide_False by lia.
Qed.

Lemma uwritable_ext s s' r :
  (forall vb, pte_at (mem s') r vb = pte_at (mem s) r vb) ->
  forall vb, uwritable (mem s') r vb = uwritable (mem s) r vb.
Proof. intros P vb. unfold uwritable, ureadable. by rewrite P. Qed.

Lemma copied_step s r O fl U dstva src n k s1 s2 :
  0 <= n <= Z.of_nat (length src) -> 0 <= k -> n + k <= Z.of_nat (length src) ->
  copied s r O fl U dstva src n s1 ->
  copied s1 r O fl U (dstva + n) (drop (Z.to_nat n) src) k s2 ->
  copied s r O fl U dstva src (n + k) s2.
Proof.
  intros Hn Hk Hnk [Own1 E1 P1 B1 F1] [Own2 E2 P2 B2 F2]. split.
  - done.
  - by rewrite E2, E1.
  - intros vb. by rewrite P2, P1.
  - intros vb Hvb. rewrite B2, B1 by done. repeat case_decide; try lia; try done.
    rewrite nth_skipn. f_equal. lia.
  - intros x Hx. rewrite F2, F1; [done|..]; intros vb p Hvb; apply Hx; lia.
Qed.

(** A piece of the data that lies in one page. *)
Lemma copied_piece s r O fl U dstva src n p :
  uvm_own s r O fl U -> U !! PGROUNDDOWN dstva = Some p -> 0 <= n <= Z.of_nat (length src) ->
  n <= PGSIZE - (dstva - PGROUNDDOWN dstva) ->
  copied s r O fl U dstva src n
    (set_mem (mwrite (mem s) (p + (dstva - PGROUNDDOWN dstva)) (take (Z.to_nat n) src)) s).
Proof.
  intros Own HU Hn Hpg. set (va0 := PGROUNDDOWN dstva) in *. pose proof (PGROUNDDOWN_range dstva) as Hr. fold va0 in Hr.
  assert (Hlt : Z.of_nat (length (take (Z.to_nat n) src)) = n) by (rewrite length_take; lia).
  destruct (uvm_write_frame s r O fl U va0 p (dstva - va0) (take (Z.to_nat n) src))
    as (Own1 & P1 & M1 & B1); [done|done|lia|lia|].
  rewrite Hlt in B1. replace (va0 + (dstva - va0)) with dstva in B1 by lia. split; [done|done|done| |].
  - intros vb Hvb. rewrite B1 by done. case_decide; [|done].
    rewrite nth_firstn. by rewrite (proj2 (Nat.ltb_lt _ _)) by lia.
  - intros x Hx. destruct (decide (n = 0)) as [->|].
    + by destruct src.
    + apply M1. apply (Hx dstva); [lia|done].
Qed.

Lemma copyout_post_step s r O fl U dstva src n s1 res s2 :
  0 < n <= Z.of_nat (length src) -> copied s r O fl U dstva src n s1 ->
  (forall vb, dstva <= vb < dstva + n -> uwritable (mem s) r vb) ->
  copyout_post s1 r O fl U (dstva + n) (drop (Z.to_nat n) src) res s2 -> copyout_post s r O fl U dstva src res s2.
Proof.
  intros Hn C1 Hpg. pose proof (cp_pte _ _ _ _ _ _ _ _ _ C1) as P1. unfold copyout_post. rewrite length_drop.
  intros [(-> & Hwr & C2)|(-> & k & Hk & Hkw & C2)]; [left|right].
  - split_and!; [done| |].
    + intros vb Hvb. destruct (decide (vb < dstva + n)); [apply Hpg; lia|].
      rewrite <- (uwritable_ext s s1 r) by done. apply Hwr. lia.
    + replace (Z.of_nat (length src)) with (n + Z.of_nat (length src - Z.to_nat n)) by lia.
      eapply copied_step; [lia..|done|done].
  - split; [done|]. exists (n + k). split_and!; [lia|lia| |].
    + rewrite <- (uwritable_ext s s1 r) by done. by rewrite Z.add_assoc.
    + eapply copied_step; [lia..|done|done].
Qed.

Lemma wp_copyout_loop fuel : forall s r O fl U dstva src,
  uvm_own s r O fl U -> writable_owned (mem s) r U ->
  0 <= dstva -> dstva + Z.of_nat (length src) <= 2 ^ 64 - PGSIZE ->
  (length src <= fuel)%nat ->
  wp (copyout_loop r dstva src fuel) (copyout_post s r O fl U dstva src) s.
Proof.
  induction fuel as [|fuel IH]; intros s r O fl U dstva src Own Hwo Hd Hmax Hf; cbn [copyout_loop];
    (destruct (Z.ltb_spec 0 (Z.of_nat (length src)));
      [|apply wp_ret; left; split_and!; [done|intros; lia|
        replace (Z.of_nat (length src)) with 0 by lia; by apply copied_refl]]); [lia|].
  pose proof (PGROUNDDOWN_range dstva) as Hr. pose proof (PGROUNDDOWN_aligned dstva) as Ha.
  pose proof (PGROUNDDOWN_div dstva) as Hdv. pose proof (MAXVA_page dstva) as Hmx.
  assert (Hfail : uwritable (mem s) r dstva = false ->
            wp (ret (-1)) (copyout_post s r O fl U dstva src) s).
  { intros Hw. apply wp_ret. right. split; [done|]. exists 0.
    split_and!; [lia|lia|by rewrite Z.add_0_r|by apply copied_refl]. }
  set (va0 := PGROUNDDOWN dstva) in *.
  destruct (Z.leb_spec MAXVA va0).
  { apply Hfail. unfold uwritable, ureadable. rewrite <- Hmx, (proj2 (Z.ltb_ge _ _)) by lia. done. }
  rewrite (proj2 (Z.ltb_lt _ _)) in Hmx by lia.
  wp_step. apply wp_walk_noalloc; [lia|].
  pose proof (pte_at_page (mem s) r va0 dstva ltac:(done)) as Ep. unfold pte_at in Ep at 1.
  destruct (pt_slot (mem s) r va0) as [a|] eqn:Es; cbn [default from_option id];
    [|rewrite Z.eqb_refl; apply Hfail; unfold uwritable, ureadable;
      rewrite <- Ep, has_0, andb_false_r; done].
  assert (a <> 0) as Hnz.
  { apply (pt_slot_low _ _ O) in Es as (t0 & Ht0 & ->); [|apply Own].
    pose proof (PX_range 0 va0 ltac:(lia)).
    eapply low_slot_nonzero; [apply Own|done|lia]. }
  rewrite (proj2 (Z.eqb_neq _ _)) by done. wp_step. apply wp_get. rewrite Ep.
  destruct (negb (has (pte_at (mem s) r dstva) PTE_V) || _ || _) eqn:Hchk.
  { apply Hfail. unfold uwritable, ureadable. rewrite <- Hmx.
    destruct (has _ PTE_V), (has _ PTE_U), (has _ PTE_W); done. }
  assert (Hw : uwritable (mem s) r dstva = true).
  { unfold uwritable, ureadable. rewrite <- Hmx.
    destruct (has _ PTE_V), (has _ PTE_U), (has _ PTE_W); done. }
  destruct (Hwo dstva) as [p HU]; [done|by rewrite Hw|]. fold va0 in HU.
  destruct (uvm_pte _ _ _ _ _ Own _ _ HU) as (perm & Epte & Hperm & _).
  destruct (uvm_frame _ _ _ _ _ Own _ _ HU) as (Hpok & _).
  rewrite <- (pte_at_page _ _ va0 dstva), Epte, leaf_PA by (done || by apply page_ok_pa_ok).
  set (n := if _ <? _ then _ else _).
  assert (Hn : 0 < n <= Z.of_nat (length src) /\ n <= PGSIZE - (dstva - va0) /\
            (n = Z.of_nat (length src) \/ dstva + n = va0 + PGSIZE)).
  { unfold n. destruct (Z.ltb_spec (Z.of_nat (length src)) (PGSIZE - (dstva - va0))); lia. }
  clearbody n. destruct Hn as (Hn1 & Hn2 & Hn3).
  wp_step. apply wp_upd.
  assert (C1 := copied_piece s r O fl U dstva src n p Own HU ltac:(lia) ltac:(lia)). fold va0 in C1.
  set (s1 := set_mem _ s) in *.
  assert (Hpg : forall vb, dstva <= vb < dstva + n -> uwritable (mem s) r vb).
  { intros vb Hvb. assert (vb / 4096 = dstva / 4096) by (Z.div_mod_to_equations; lia).
    unfold uwritable in *.
    rewrite (ureadable_page _ _ vb dstva), (pte_at_page _ _ vb dstva), Hw; done. }
  rewrite u64_small by lia.
  destruct Hn3 as [->|Hn3].
  { rewrite Nat2Z.id, drop_all. destruct fuel; cbn; left; split_and!; done. }
  replace (va0 + PGSIZE) with (dstva + n) by lia.
  eapply wp_mono; [|intros res s2; apply (copyout_post_step s r O fl U dstva src n s1); [lia|done|done]].
  eapply IH; [apply C1| |lia|rewrite length_drop; lia|rewrite length_drop; lia].
  intros va Hv0 Hva. rewrite (uwritable_ext s s1) in Hva by apply C1. by apply Hwo.
Qed.

Lemma wp_copyout s r O fl U dstva src :
  uvm_own s r O fl U -> writable_owned (mem s) r U ->
  0 <= dstva -> dstva + Z.of_nat (length src) <= 2 ^ 64 - PGSIZE ->
  wp (copyout r dstva src) (copyout_post s r O fl U dstva src) s.
Proof. intros. by apply wp_copyout_loop. Qed.

(** ** [copyinstr] *)

Lemma copyinstr_page_ok m p n bs got :
  copyinstr_page m p n = (bs, got) ->
  if got then exists k, (k < n)%nat /\ bs = mread m p (S k) /\ mget m (p + Z.of_nat k) = 0 /\
    forall i, (i < k)%nat -> mget m (p + Z.of_nat i) <> 0
  else bs = mread m p n /\ forall i, (i < n)%nat -> mget m (p + Z.of_nat i) <> 0.
Proof.
  revert p bs got. induction n as [|n IH]; intros p bs got; cbn [copyinstr_page].
  { intros [= <- <-]. split; [done|]. lia. }
  destruct (Z.eqb_spec (mget m p) 0) as [E|E].
  { intros [= <- <-]. exists 0%nat. rewrite Z.add_0_r. cbn. rewrite E. split_and!; [lia|done..|lia]. }
  destruct (copyinstr_page m (p + 1) n) as [bs' got'] eqn:Ec. intros [= <- <-].
  specialize (IH _ _ _ Ec). destruct got'.
  - destruct IH as (k & Hk & -> & H0 & Hn). exists (S k). split_and!; [lia|done| |].
    + rewrite <- H0. f_equal. lia.
    + intros [|i] Hi; [by rewrite Z.add_0_r|]. replace (p + Z.of_nat (S i)) with (p + 1 + Z.of_nat i) by lia.
      apply Hn. lia.
  - destruct IH as [-> Hn]. split; [done|]. intros [|i] Hi; [by rewrite Z.add_0_r|].
    replace (p + Z.of_nat (S i)) with (p + 1 + Z.of_nat i) by lia. apply Hn. lia.
Qed.

(** The first [n] bytes at [va] are readable and none of them is NUL. *)
Definition unul_free m r va (n : Z) : Prop :=
  forall vb, va <= vb < va + n -> ureadable m r vb /\ ubyte m r vb <> 0.

Definition copyinstr_post (s : kst) r (dst : list Z) srcva max (res : Z) (out : list Z) : Prop :=
  (res = 0 /\ exists n, 0 <= n < max /\ unul_free (mem s) r srcva n /\
     ureadable (mem s) r (srcva + n) /\ ubyte (mem s) r (srcva + n) = 0 /\
     out = dst ++ uread (mem s) r srcva (Z.to_nat n + 1)) \/
  (res = -1 /\ exists n, 0 <= n <= max /\ unul_free (mem s) r srcva n /\
     (n = max \/ ureadable (mem s) r (srcva + n) = false) /\
     out = dst ++ uread (mem s) r srcva (Z.to_nat n)).

Lemma copyinstr_post_step s r dst srcva n max res out :
  0 < n -> unul_free (mem s) r srcva n ->
  copyinstr_post s r (dst ++ uread (mem s) r srcva (Z.to_nat n)) (srcva + n) (max - n) res out ->
  copyinstr_post s r dst srcva max res out.
Proof.
  intros Hn Hf.
  assert (Hfree : forall k, unul_free (mem s) r (srcva + n) k -> unul_free (mem s) r srcva (n + k)).
  { intros k Hk vb Hvb. destruct (decide (vb < srcva + n)); [apply Hf; lia|apply Hk; lia]. }
  assert (Hcat : forall k, (dst ++ uread (mem s) r srcva (Z.to_nat n)) ++ uread (mem s) r (srcva + n) k =
     dst ++ uread (mem s) r srcva (Z.to_nat n + k)).
  { intros k. rewrite uread_app, Z2Nat.id, app_assoc by lia. done. }
  intros [(-> & k & Hk & Hkf & Hkr & Hk0 & ->)|(-> & k & Hk & Hkf & Hke & ->)]; [left|right];
    (split; [done|]); exists (n + k); rewrite Hcat, Z.add_assoc.
  - split_and!; [lia|lia|by apply Hfree|done|done|]. do 2 f_equal. lia.
  - split_and!; [lia|lia|by apply Hfree| |do 2 f_equal; lia].
    destruct Hke; [left; lia|by right].
Qed.

Lemma wp_copyinstr_loop fuel : forall s r O dst srcva max,
  pt_wf (mem s) r O -> no_zero_page (mem s) r ->
  0 <= srcva -> 0 <= max -> srcva + max <= 2 ^ 64 - PGSIZE -> max <= Z.of_nat fuel ->
  wp (copyinstr_loop r dst srcva max fuel) (fun '(res, out) s' =>
    s' = s /\ copyinstr_post s r dst srcva max res out) s.
Proof.
  induction fuel as [|fuel IH]; intros s r O dst srcva max W Hz Hs Hm0 Hmax Hf; cbn [copyinstr_loop];
    (destruct (Z.ltb_spec 0 max); [|apply wp_ret; split; [done|]; right; split; [done|]; exists 0;
       split_and!; [lia|lia|intros vb Hvb; lia|left; lia|by rewrite app_nil_r]]); [lia|].
  wp_step. eapply wp_walkaddr; [done|].
  pose proof (PGROUNDDOWN_range srcva) as Hr. pose proof (PGROUNDDOWN_aligned srcva) as Ha.
  pose proof (PGROUNDDOWN_div srcva) as Hd.
  set (va0 := PGROUNDDOWN srcva) in *. unfold uaddr.
  rewrite (ureadable_page _ _ va0 srcva), (pte_at_page _ _ va0 srcva) by done.
  destruct (ureadable (mem s) r srcva) eqn:Hrd.
  2:{ rewrite Z.eqb_refl. apply wp_ret. split; [done|]. right. split; [done|]. exists 0.
      split_and!; [lia|lia|intros vb Hvb; lia|right; by rewrite Z.add_0_r|by rewrite app_nil_r]. }
  rewrite (proj2 (Z.eqb_neq _ _)) by (apply Hz; [done|by rewrite Hrd]).
  set (n := if max <? PGSIZE - (srcva - va0) then max else PGSIZE - (srcva - va0)).
  assert (Hn : 0 < n <= max /\ n <= PGSIZE - (srcva - va0) /\ (n = max \/ srcva + n = va0 + PGSIZE)).
  { unfold n. destruct (Z.ltb_spec max (PGSIZE - (srcva - va0))); lia. }
  clearbody n. destruct Hn as (Hn1 & Hn2 & Hn3).
  assert (Eoff : srcva - va0 = srcva mod PGSIZE) by (Z.div_mod_to_equations; lia).
  assert (Hpg : forall vb, srcva <= vb < srcva + n -> ureadable (mem s) r vb).
  { intros vb Hvb. rewrite (ureadable_page _ _ vb srcva), Hrd; [done|]. Z.div_mod_to_equations. lia. }
  set (pa := PTE2PA (pte_at (mem s) r srcva)). wp_step. apply wp_get.
  destruct (copyinstr_page _ _ _) as [bs got] eqn:Ec. apply copyinstr_page_ok in Ec.
  assert (Hub : forall i, (i < Z.to_nat n)%nat ->
            mget (mem s) (pa + (srcva - va0) + Z.of_nat i) = ubyte (mem s) r (srcva + Z.of_nat i)).
  { intros i Hi. unfold ubyte, pa. rewrite (pte_at_page _ _ (srcva + Z.of_nat i) srcva) by (Z.div_mod_to_equations; lia).
    f_equal. Z.div_mod_to_equations. lia. }
  assert (Hrdb : forall k, (k <= Z.to_nat n)%nat ->
            mread (mem s) (pa + (srcva - va0)) k = uread (mem s) r srcva k).
  { intros k Hk. rewrite Eoff, uread_mread by lia. done. }
  assert (Hnf : forall k, (k <= Z.to_nat n)%nat ->
     (forall i, (i < k)%nat -> mget (mem s) (pa + (srcva - va0) + Z.of_nat i) <> 0) ->
     unul_free (mem s) r srcva (Z.of_nat k)).
  { intros k Hk Hi vb Hvb. split; [apply Hpg; lia|].
    replace vb with (srcva + Z.of_nat (Z.to_nat (vb - srcva))) by lia.
    rewrite <- Hub by lia. apply Hi. lia. }
  destruct got.
  - apply wp_ret. split; [done|]. left. split; [done|].
    destruct Ec as (k & Hk & -> & H0 & Hi). exists (Z.of_nat k).
    split_and!; [lia|lia|apply Hnf; [lia|done]|apply Hpg; lia| |].
    + by rewrite <- Hub by lia.
    + rewrite Hrdb by lia. do 2 f_equal. lia.
  - destruct Ec as [-> Hi]. rewrite Hrdb by lia.
    assert (Hff : unul_free (mem s) r srcva n).
    { rewrite <- (Z2Nat.id n) by lia. by apply Hnf. }
    rewrite u64_small by lia. destruct Hn3 as [->|Hn3].
    + rewrite Z.sub_diag. destruct fuel; cbn; (split; [done|]; right; split; [done|]; exists max;
        split_and!; [lia|lia|done|by left|done]).
    + replace (va0 + PGSIZE) with (srcva + n) by lia.
      eapply wp_mono; [eapply (IH s r O); [done|done|lia|lia|lia|lia]|].
      intros [res out] s' [-> Hp]. split; [done|]. eapply copyinstr_post_step; [|done|done]. lia.
Qed.

Lemma wp_copyinstr s r O srcva max :
  pt_wf (mem s) r O -> no_zero_page (mem s) r ->
  0 <= srcva -> 0 <= max -> srcva + max <= 2 ^ 64 - PGSIZE ->
  wp (copyinstr r srcva max) (fun '(res, out) s' =>
    s' = s /\ copyinstr_post s r [] srcva max res out) s.
Proof. intros. eapply (wp_copyinstr_loop _ s r O); [done..|lia]. Qed.

End Copy.
