(* ===== verification/Sched.v ===== *)
(** The part of [kernel/proc.c] that every sleeping operation rests on: [myproc],
    [sched], [yield], [sleep], [wakeup], the [killed] flag, and the copies to
    either a user or a kernel address.

    [swtch] gives the CPU away: it ends the run of the current handler with the
    outcome [Sleep].  A thread that is scheduled again resumes after [sched], that
    is with [sleep_resume]; every sleeper in the kernel sits in a loop that tests
    its condition again, so a resumed handler runs its loop from the top. *)
From S2P Require Import Prelude Types Riscv Str Kalloc Vm.

#[global] Instance chan_inhabited : Inhabited chan := populate ChNull.

Definition ctx0 : context := Ctx 0 0 [].
Definition proc0 : proc :=
  Proc UNUSED ChNull false 0 0 None 0 0 0 0 ctx0 (replicate NOFILE None) None [].
#[global] Instance proc_inhabited : Inhabited proc := populate proc0.

Section Sched.
Context {L : Linker}.

(** ** The process table *)

Definition procat (i : nat) (s : kst) : proc := procs s !!! i.
Definition getp {A} (i : nat) (f : proc -> A) : M A := get (fun s => f (procat i s)).
Definition updp (i : nat) (f : proc -> proc) : M unit :=
  upd (fun s => set_procs (alter f i (procs s)) s).

(** [push_off] and [pop_off] around the read keep the thread on its CPU. *)
Definition myproc : M (option nat) := get cur.
Definition myproc_ : M nat := let! p := myproc in deref p.

(** ** Switching away *)

(** [noff] counts the spinlocks held; while one is held interrupts are off, so
    that the last check of [sched] cannot fail. *)
Definition sched : M unit :=
  let! p := myproc_ in
  let! h := get (holding (LkProc p)) in
  if negb h then panic "sched p->lock"
  else
    let! l := get held in
    if negb (length l =? 1)%nat then panic "sched locks"
    else
      let! st := getp p p_state in
      if bool_decide (st = RUNNING) then panic "sched running"
      else fun s => Sleep (p_chan (procat p s)) s.

Definition yield : M unit :=
  let! p := myproc_ in
  acquire (LkProc p) ;;;
  updp p (set_p_state RUNNABLE) ;;;
  sched ;;;
  release (LkProc p).

Definition sleep (c : chan) (lk : lockid) : M unit :=
  let! p := myproc_ in
  acquire (LkProc p) ;;;
  release lk ;;;
  updp p (set_p_chan c) ;;;
  updp p (set_p_state SLEEPING) ;;;
  sched ;;;
  updp p (set_p_chan ChNull) ;;;
  release (LkProc p) ;;;
  acquire lk.

(** What is left of [sleep] after [sched] returns. *)
Definition sleep_resume (lk : lockid) : M unit :=
  let! p := myproc_ in
  updp p (set_p_chan ChNull) ;;;
  release (LkProc p) ;;;
  acquire lk.

Definition wake (c : chan) (p : proc) : proc :=
  if bool_decide (p_state p = SLEEPING) && bool_decide (p_chan p = c)
  then set_p_state RUNNABLE p else p.

Fixpoint wakeup_loop (c : chan) (i k : nat) : M unit :=
  match k with
  | O => ret tt
  | S k' =>
      let! me := myproc in
      (if bool_decide (me = Some i) then ret tt
       else
         acquire (LkProc i) ;;;
         updp i (wake c) ;;;
         release (LkProc i)) ;;;
      wakeup_loop c (S i) k'
  end.

Definition wakeup (c : chan) : M unit := wakeup_loop c 0 NPROC.

(** ** The [killed] flag *)

Fixpoint kill_loop (pid : Z) (i k : nat) : M Z :=
  match k with
  | O => ret (-1)
  | S k' =>
      acquire (LkProc i) ;;;
      let! p := getp i (fun p => p) in
      if p_pid p =? pid then
        updp i (set_p_killed true) ;;;
        (if bool_decide (p_state p = SLEEPING) then updp i (set_p_state RUNNABLE) else ret tt) ;;;
        release (LkProc i) ;;;
        ret 0
      else
        release (LkProc i) ;;;
        kill_loop pid (S i) k'
  end.

Definition kill (pid : Z) : M Z := kill_loop pid 0 NPROC.

Definition setkilled (i : nat) : M unit :=
  acquire (LkProc i) ;;;
  updp i (set_p_killed true) ;;;
  release (LkProc i).

Definition killed (i : nat) : M bool :=
  acquire (LkProc i) ;;;
  let! k := getp i p_killed in
  release (LkProc i) ;;;
  ret k.

(** ** Copies to and from user or kernel addresses *)

Definition either_copyout (user_dst : bool) (dst : Z) (src : list Z) : M Z :=
  let! p := myproc in
  if user_dst then
    let! p := deref p in
    let! pt := getp p p_pagetable in
    copyout pt dst src
  else write_k dst src ;;; ret 0.

(** The second component is what was written to [dst]. *)
Definition either_copyin (user_src : bool) (src len : Z) : M (Z * list Z) :=
  let! p := myproc in
  if user_src then
    let! p := deref p in
    let! pt := getp p p_pagetable in
    copyin pt src len
  else
    let! bs := read_k src len in
    ret (0, bs).

(** ** What they do *)

Lemma procat_alter s i f j :
  (i < length (procs s))%nat ->
  procat j (set_procs (alter f i (procs s)) s) =
    if decide (i = j) then f (procat i s) else procat j s.
Proof.
  intros Hi. unfold procat. cbn. case_decide as Hd.
  - subst. by apply list_lookup_total_alter_eq.
  - by rewrite list_lookup_total_alter_ne.
Qed.

Lemma wp_myproc_ s i (Q : nat -> kst -> Prop) : cur s = Some i -> Q i s -> wp myproc_ Q s.
Proof. intros H HQ. unfold myproc_, myproc. wp_step. wp_step. by rewrite H. Qed.

(** Every other process sleeping on [c] becomes runnable; nothing else changes. *)
Definition woken (me : option nat) (c : chan) (i k : nat) (ps : list proc) : list proc :=
  imap (fun j p => if decide (i <= j < i + k)%nat then
                     if decide (me = Some j) then p else wake c p
                   else p) ps.

Lemma woken_0 me c i ps : woken me c i 0 ps = ps.
Proof.
  apply list_eq. intros j. unfold woken. rewrite list_lookup_imap.
  destruct (ps !! j); cbn; [|done]. by rewrite decide_False by lia.
Qed.

Lemma woken_S me c i k ps :
  woken me c (S i) k (if decide (me = Some i) then ps else alter (wake c) i ps) =
  woken me c i (S k) ps.
Proof.
  apply list_eq. intros j. unfold woken. rewrite !list_lookup_imap.
  destruct (decide (i = j)) as [<-|Hne].
  - destruct (decide (me = Some i)); [|rewrite list_lookup_alter_eq];
      (destruct (ps !! i); cbn; [|done]; rewrite decide_False by lia;
       rewrite decide_True by lia; done).
  - assert ((if decide (me = Some i) then ps else alter (wake c) i ps) !! j = ps !! j) as ->.
    { case_decide; [done|]. by rewrite list_lookup_alter_ne. }
    destruct (ps !! j); cbn [fmap option_fmap option_map]; [|done].
    destruct (decide (S i <= j < S i + k)%nat), (decide (i <= j < i + S k)%nat); done || lia.
Qed.

(** Two processes that differ at most in whether they are runnable. *)
Definition psim (p p' : proc) : Prop := set_p_state UNUSED p = set_p_state UNUSED p'.

Lemma wake_psim c p : psim (wake c p) p.
Proof. unfold psim, wake. by destruct (_ && _). Qed.

Lemma woken_psim me c i k ps j : psim (woken me c i k ps !!! j) (ps !!! j).
Proof.
  unfold woken. rewrite !list_lookup_total_alt, list_lookup_imap.
  destruct (ps !! j); cbn; [|done]. repeat case_decide; done || apply wake_psim.
Qed.

Lemma length_woken me c i k ps : length (woken me c i k ps) = length ps.
Proof. unfold woken. apply length_imap. Qed.

Lemma wp_wakeup_loop c k : forall i s (Q : unit -> kst -> Prop),
  (forall j, cur s <> Some j -> LkProc j ∉ held s) ->
  Q tt (set_procs (woken (cur s) c i k (procs s)) s) ->
  wp (wakeup_loop c i k) Q s.
Proof.
  induction k as [|k IH]; intros i s Q Hh HQ; cbn [wakeup_loop].
  - apply wp_ret. rewrite woken_0 in HQ. by destruct s.
  - wp_step. apply wp_get. wp_step. rewrite <- woken_S in HQ.
    destruct (bool_decide (cur s = Some i)) eqn:Hb.
    + apply bool_decide_eq_true in Hb. apply wp_ret. apply IH; [done|].
      by rewrite decide_True in HQ.
    + apply bool_decide_eq_false in Hb. rewrite decide_False in HQ by done.
      wp_step. apply wp_acquire; [by apply Hh|]. wp_step. apply wp_upd.
      eapply wp_release; [done|by apply Hh|]. apply IH; [done|]. by destruct s.
Qed.

Lemma wp_wakeup c s (Q : unit -> kst -> Prop) :
  (forall j, cur s <> Some j -> LkProc j ∉ held s) ->
  Q tt (set_procs (woken (cur s) c 0 NPROC (procs s)) s) ->
  wp (wakeup c) Q s.
Proof. apply wp_wakeup_loop. Qed.

Lemma wp_killed i s (Q : bool -> kst -> Prop) :
  LkProc i ∉ held s -> Q (p_killed (procat i s)) s -> wp (killed i) Q s.
Proof.
  intros Hh HQ. unfold killed. wp_step. apply wp_acquire; [done|]. wp_step. apply wp_get.
  wp_step. eapply wp_release; [done|done|]. wp_step. by destruct s.
Qed.

(** [sleep] never returns to its caller directly: it leaves the process asleep on
    [c] with only [p->lock] held, for the scheduler to release. *)
Definition asleep (i : nat) (c : chan) (s : kst) : kst :=
  set_held [LkProc i] (set_procs
    (alter (fun p => set_p_state SLEEPING (set_p_chan c p)) i (procs s)) s).

Lemma wps_sched i s (Q : unit -> kst -> Prop) (R : chan -> kst -> Prop) :
  cur s = Some i -> held s = [LkProc i] -> p_state (procat i s) <> RUNNING ->
  R (p_chan (procat i s)) s -> wps sched Q R s.
Proof.
  intros Hc Hh Hst HR. unfold sched.
  wp_step. eapply wp_myproc_; [done|]. do 2 wp_step. unfold holding.
  rewrite Hh, bool_decide_eq_true_2 by set_solver. cbn [negb].
  do 2 wp_step. rewrite Hh. cbn [length Nat.eqb negb]. wp_step. apply wp_get.
  by rewrite bool_decide_eq_false_2.
Qed.

Lemma wps_sleep c lk s i (Q : unit -> kst -> Prop) (R : chan -> kst -> Prop) :
  cur s = Some i -> (i < length (procs s))%nat -> held s = [lk] -> lk <> LkProc i ->
  R c (asleep i c s) -> wps (sleep c lk) Q R s.
Proof.
  intros Hc Hi Hh Hne HR. unfold sleep.
  wp_step. eapply wp_myproc_; [done|].
  wp_step. apply wp_acquire; [rewrite Hh; set_solver|].
  wp_step. unfold wp, release, holding. cbn [held set_held].
  rewrite bool_decide_eq_true_2 by (rewrite Hh; set_solver).
  rewrite Hh, filter_cons_True by done. rewrite filter_cons_False by naive_solver.
  rewrite filter_nil.
  do 2 (wp_step; apply wp_upd). cbn [procs set_procs set_held]. rewrite list_alter_alter.
  apply wps_bind, (wps_sched i); [done|done| |].
  - unfold procat. cbn. by rewrite list_lookup_total_alter_eq.
  - unfold procat. cbn. rewrite list_lookup_total_alter_eq by done. by destruct s.
Qed.

Lemma wps_yield i s (Q : unit -> kst -> Prop) (R : chan -> kst -> Prop) :
  cur s = Some i -> (i < length (procs s))%nat -> held s = [] ->
  R (p_chan (procat i s))
    (set_held [LkProc i] (set_procs (alter (set_p_state RUNNABLE) i (procs s)) s)) ->
  wps yield Q R s.
Proof.
  intros Hc Hi Hh HR. unfold yield.
  wp_step. eapply wp_myproc_; [done|]. wp_step. apply wp_acquire; [rewrite Hh; set_solver|].
  wp_step. apply wp_upd. rewrite Hh. apply wps_bind, (wps_sched i); [done|done| |].
  - unfold procat. cbn. by rewrite list_lookup_total_alter_eq.
  - unfold procat. cbn. rewrite list_lookup_total_alter_eq by done. by destruct s.
Qed.

End Sched.
