(* ===== verification/Sleepwake.v ===== *)
(** [sleep] and [wakeup] of [kernel/proc.c] on a machine of several CPUs.

    [Sched] has them as code that runs alone between two switches.  Here they are cut at
    their atomic actions and interleaved: any number of processes use some data behind a
    lock [lk], sleep on a channel [ch] while the data is not what they wait for, and
    wake the others up when they have made it so.  This is how pipes, sleep locks, the log, the
    buffers of the console and of the UART, the disk driver and [wait] use them. *)
From S2P Require Import Prelude Types Sched.

Section Sleepwake.
(** [n] processes; [ready] is the condition that sleepers wait for. *)
Context {D : Type} (ready : D -> bool) (ch : chan) (lk : lockid) (n : nat).
Context (Hlk : forall i, lk <> LkProc i).

(** Where a process is.  [PCrit]: in its critical section.  [POwe]: likewise, and it has made the
    condition true, so that it has to call [wakeup] before it lets go of the lock. *)
Inductive swpc :=
  | POut | PCrit | POwe
  (** in [wakeup], at process [j]; the second with [j]'s lock *)
  | PWake (j : nat) | PWakeHold (j : nat)
  (** in [sleep]: before [acquire(&p->lock)], before [release(lk)], before the two
      assignments, before [sched] *)
  | PSleep1 | PSleep2 | PSleep3 | PSleep3b | PSleep4
  (** switched away; back from [sched]; before [acquire(lk)] *)
  | PAsleep | PResume1 | PResume2.

Record sw := Sw {
  sw_data : D;
  sw_proc : nat -> proc;
  sw_lock : lockid -> option nat;
  sw_pc : nat -> swpc
}.

Definition at_ {A} (f : nat -> A) (i : nat) (x : A) : nat -> A := fun j => if decide (j = i) then x else f j.
Definition set_pc (i : nat) (p : swpc) (s : sw) : sw := Sw (sw_data s) (sw_proc s) (sw_lock s) (at_ (sw_pc s) i p).
Definition set_proc (i : nat) (p : proc) (s : sw) : sw := Sw (sw_data s) (at_ (sw_proc s) i p) (sw_lock s) (sw_pc s).
Definition take_lock (l : lockid) (o : option nat) (s : sw) : sw :=
  Sw (sw_data s) (sw_proc s) (fun k => if decide (k = l) then o else sw_lock s k) (sw_pc s).
Definition set_data (d : D) (s : sw) : sw := Sw d (sw_proc s) (sw_lock s) (sw_pc s).

(** One action of process [i].  [acquire] happens when the lock is free. *)
Inductive swstep (i : nat) (s : sw) : sw -> Prop :=
  (** the callers *)
  | W_acquire : sw_pc s i = POut -> sw_lock s lk = None -> swstep i s (set_pc i PCrit (take_lock lk (Some i) s))
  | W_write d : sw_pc s i = PCrit \/ sw_pc s i = POwe ->
      swstep i s (set_pc i (if ready d && negb (ready (sw_data s)) then POwe else sw_pc s i) (set_data d s))
  | W_release : sw_pc s i = PCrit -> swstep i s (set_pc i POut (take_lock lk None s))
  | W_wakeup : sw_pc s i = PCrit \/ sw_pc s i = POwe -> swstep i s (set_pc i (PWake 0) s)
  | W_sleep : sw_pc s i = PCrit -> ready (sw_data s) = false -> swstep i s (set_pc i PSleep1 s)
  (** [wakeup] *)
  | K_skip : (i < n)%nat -> sw_pc s i = PWake i -> swstep i s (set_pc i (PWake (S i)) s)
  | K_lock j : (j < n)%nat -> j <> i -> sw_pc s i = PWake j -> sw_lock s (LkProc j) = None ->
      swstep i s (set_pc i (PWakeHold j) (take_lock (LkProc j) (Some i) s))
  | K_check j : sw_pc s i = PWakeHold j ->
      swstep i s (set_pc i (PWake (S j)) (take_lock (LkProc j) None (set_proc j (wake ch (sw_proc s j)) s)))
  | K_done : sw_pc s i = PWake n -> swstep i s (set_pc i PCrit s)
  (** [sleep] *)
  | S_lock : sw_pc s i = PSleep1 -> sw_lock s (LkProc i) = None ->
      swstep i s (set_pc i PSleep2 (take_lock (LkProc i) (Some i) s))
  | S_unlock : sw_pc s i = PSleep2 -> swstep i s (set_pc i PSleep3 (take_lock lk None s))
  | S_chan : sw_pc s i = PSleep3 -> swstep i s (set_pc i PSleep3b (set_proc i (set_p_chan ch (sw_proc s i)) s))
  | S_state : sw_pc s i = PSleep3b -> swstep i s (set_pc i PSleep4 (set_proc i (set_p_state SLEEPING (sw_proc s i)) s))
  (** the scheduler releases the lock that the process switched away with, and takes it before
      it switches back *)
  | S_sched : sw_pc s i = PSleep4 -> swstep i s (set_pc i PAsleep (take_lock (LkProc i) None s))
  | S_run : sw_pc s i = PAsleep -> p_state (sw_proc s i) = RUNNABLE -> sw_lock s (LkProc i) = None ->
      swstep i s (set_pc i PResume1 (take_lock (LkProc i) (Some i) (set_proc i (set_p_state RUNNING (sw_proc s i)) s)))
  | S_tidy : sw_pc s i = PResume1 ->
      swstep i s (set_pc i PResume2 (take_lock (LkProc i) None (set_proc i (set_p_chan ChNull (sw_proc s i)) s)))
  | S_relock : sw_pc s i = PResume2 -> sw_lock s lk = None -> swstep i s (set_pc i PCrit (take_lock lk (Some i) s))
  (** [kill] of process [i] by someone: the sleeper wakes up early *)
  | X_kill : sw_lock s (LkProc i) = None -> p_state (sw_proc s i) = SLEEPING ->
      swstep i s (set_proc i (set_p_state RUNNABLE (set_p_killed true (sw_proc s i))) s).

Definition swnext (s s' : sw) : Prop := exists i, (i < n)%nat /\ swstep i s s'.

Definition swinit (s : sw) : Prop :=
  (forall l, sw_lock s l = None) /\ (forall i, sw_pc s i = POut /\ p_state (sw_proc s i) = RUNNING).

(** ** The invariant *)

(** The process holds [lk]. *)
Definition in_lk (p : swpc) : bool :=
  match p with PCrit | POwe | PWake _ | PWakeHold _ | PSleep1 | PSleep2 => true | _ => false end.
(** It holds its own process lock. *)
Definition in_own (p : swpc) : bool :=
  match p with PSleep2 | PSleep3 | PSleep3b | PSleep4 | PResume1 => true | _ => false end.
(** It will still look at process [i]. *)
Definition pending (p : swpc) (i : nat) : Prop :=
  match p with POwe => True | PWake k | PWakeHold k => (k <= i)%nat | _ => False end.

(** Some process has to wake up [i]. *)
Definition coming (s : sw) (i : nat) : Prop := exists j, sw_lock s lk = Some j /\ pending (sw_pc s j) i.

Record swinv (s : sw) : Prop := {
  iv_lk i : in_lk (sw_pc s i) = true <-> sw_lock s lk = Some i;
  iv_own i : in_own (sw_pc s i) = true -> sw_lock s (LkProc i) = Some i;
  iv_hold i j : sw_pc s i = PWakeHold j -> sw_lock s (LkProc j) = Some i;
  iv_state i : p_state (sw_proc s i) = SLEEPING -> (sw_pc s i = PSleep4 \/ sw_pc s i = PAsleep) /\ p_chan (sw_proc s i) = ch;
  iv_chan i : sw_pc s i = PSleep3b -> p_chan (sw_proc s i) = ch;
  iv_test i : sw_pc s i = PSleep1 \/ sw_pc s i = PSleep2 -> ready (sw_data s) = false;
  (** between [release(lk)] and falling asleep, and while asleep *)
  iv_going i : (i < n)%nat -> sw_pc s i = PSleep3 \/ sw_pc s i = PSleep3b \/ p_state (sw_proc s i) = SLEEPING ->
    ready (sw_data s) = true -> coming s i;
  iv_range i j : sw_pc s i = PWakeHold j -> j <> i
}.

Lemma wake_state p : p_state (wake ch p) = SLEEPING -> p_state p = SLEEPING /\ p_chan p <> ch.
Proof.
  unfold wake. destruct (bool_decide (p_state p = SLEEPING)) eqn:E1, (bool_decide (p_chan p = ch)) eqn:E2; cbn; try done;
    apply bool_decide_eq_true in E1 || apply bool_decide_eq_false in E1; apply bool_decide_eq_true in E2 || apply bool_decide_eq_false in E2; done.
Qed.

Lemma wake_chan p : p_chan (wake ch p) = p_chan p.
Proof. unfold wake. by destruct (_ && _). Qed.

Lemma at_eq {A} (f : nat -> A) i x : at_ f i x i = x.
Proof. unfold at_. by rewrite decide_True. Qed.
Lemma at_ne {A} (f : nat -> A) i x j : j <> i -> at_ f i x j = f j.
Proof. intros H. unfold at_. by rewrite decide_False. Qed.
Lemma tl_eq l o s : sw_lock (take_lock l o s) l = o.
Proof. cbn. by rewrite decide_True. Qed.
Lemma tl_ne l o s k : k <> l -> sw_lock (take_lock l o s) k = sw_lock s k.
Proof. intros H. cbn. by rewrite decide_False. Qed.

Lemma proc_ne j k : LkProc j <> LkProc k -> j <> k.
Proof. congruence. Qed.

Ltac sw_simp := cbn [set_pc set_proc set_data sw_data sw_proc sw_pc] in *;
  repeat match goal with
  | |- context [sw_lock (set_pc ?i ?p ?s) ?l] => change (sw_lock (set_pc i p s) l) with (sw_lock s l)
  | |- context [sw_lock (set_proc ?i ?p ?s) ?l] => change (sw_lock (set_proc i p s) l) with (sw_lock s l)
  | |- context [sw_lock (set_data ?d ?s) ?l] => change (sw_lock (set_data d s) l) with (sw_lock s l)
  | |- context [sw_pc (take_lock ?l ?o ?s) ?i] => change (sw_pc (take_lock l o s) i) with (sw_pc s i)
  | |- context [sw_proc (take_lock ?l ?o ?s) ?i] => change (sw_proc (take_lock l o s) i) with (sw_proc s i)
  | |- context [sw_data (take_lock ?l ?o ?s)] => change (sw_data (take_lock l o s)) with (sw_data s)
  end; cbn [set_pc set_proc set_data sw_data sw_proc sw_pc].

(** Rewrites with where process [i] is. *)
Ltac here := match goal with
  | H : sw_pc ?s ?i = _ |- _ => rewrite H in *
  | H : sw_pc ?s ?i = _ \/ sw_pc ?s ?i = _ |- _ => destruct H as [H|H]; rewrite H in *
  | _ => idtac
  end.

Ltac lk_ne := intros E; first [exact (Hlk _ E) | exact (Hlk _ (eq_sym E)) | congruence].

Section Step.
Context (i : nat) (s s' : sw) (Hi : (i < n)%nat) (HI : swinv s) (Hstep : swstep i s s').

(** Processes other than [i] stay where they are. *)
Lemma step_pc x : x <> i -> sw_pc s' x = sw_pc s x.
Proof. intros Hne. destruct Hstep; cbn; by rewrite ?at_ne. Qed.

Lemma holder : in_lk (sw_pc s i) = true -> sw_lock s lk = Some i.
Proof. apply (iv_lk _ HI). Qed.

Lemma step_lock_other x : x <> i -> sw_lock s' lk = Some x <-> sw_lock s lk = Some x.
Proof.
  intros Hne. pose proof holder as Hh. destruct Hstep; sw_simp; rewrite ?tl_eq, ?tl_ne by (apply Hlk); try done;
    try (rewrite Hh by (by rewrite H)); try (rewrite H0); split; congruence.
Qed.

Lemma step_lk x : in_lk (sw_pc s' x) = true <-> sw_lock s' lk = Some x.
Proof.
  destruct (decide (x = i)) as [->|Hne]; [|rewrite step_pc, step_lock_other by done; apply (iv_lk _ HI)].
  pose proof (iv_lk _ HI i) as Hii.
  destruct Hstep; sw_simp; rewrite ?at_eq, ?tl_eq, ?tl_ne by (apply Hlk); try done; here; try done.
  all: by destruct (ready d && negb (ready (sw_data s))).
Qed.

Lemma step_own x : in_own (sw_pc s' x) = true -> sw_lock s' (LkProc x) = Some x.
Proof.
  pose proof (iv_own _ HI x) as Hx. pose proof (iv_own _ HI i) as Hii. pose proof (iv_hold _ HI i) as Hh.
  destruct (decide (x = i)) as [->|Hne].
  - destruct Hstep; sw_simp; rewrite ?at_eq; try done; here; intros Hown; try done; try (by rewrite tl_eq);
      try (rewrite tl_ne by lk_ne; auto).
    all: try (by apply Hii). all: by destruct (ready d && negb (ready (sw_data s))).
  - rewrite step_pc by done. intros Hown. specialize (Hx Hown).
    destruct Hstep; sw_simp; try done; here;
      try (rewrite tl_ne by lk_ne; done).
    + rewrite tl_ne; [done|]. intros [= ->]. rewrite (Hh j eq_refl) in Hx. congruence.
Qed.

Lemma step_hold x j : sw_pc s' x = PWakeHold j -> sw_lock s' (LkProc j) = Some x /\ j <> x.
Proof.
  intros Hp. destruct (decide (x = i)) as [->|Hne].
  - destruct Hstep; sw_simp; rewrite ?at_eq in Hp; try done.
    + destruct (ready d && negb (ready (sw_data s))); [done|]. destruct H as [H|H]; by rewrite H in Hp.
    + injection Hp as ->. by rewrite tl_eq.
    + by apply (iv_hold _ HI) in Hp as Hp'; split; [|by eapply (iv_range _ HI)].
  - rewrite step_pc in Hp by done. split; [|by eapply (iv_range _ HI)].
    pose proof (iv_hold _ HI _ _ Hp) as Hx. pose proof (iv_hold _ HI i) as Hh. pose proof (iv_own _ HI i) as Hii.
    destruct Hstep; sw_simp; try done; here;
      try (rewrite tl_ne by lk_ne; done);
      try (rewrite tl_ne by (intros [= ->]; congruence || (rewrite Hii in Hx by done; congruence)); done).
    + rewrite tl_ne; [done|]. intros [= ->]. rewrite (Hh _ eq_refl) in Hx. congruence.
Qed.

(** A step changes the state of [i], or wakes up a process that is asleep. *)
Lemma step_proc x : x <> i -> sw_proc s' x = sw_proc s x \/ sw_proc s' x = wake ch (sw_proc s x).
Proof.
  intros Hne. destruct Hstep; sw_simp; rewrite ?at_ne by done; auto.
  destruct (decide (x = j)) as [->|Hj]; [rewrite at_eq; auto|rewrite at_ne by done; auto].
Qed.

Lemma step_state x : p_state (sw_proc s' x) = SLEEPING ->
  (sw_pc s' x = PSleep4 \/ sw_pc s' x = PAsleep) /\ p_chan (sw_proc s' x) = ch.
Proof.
  pose proof (iv_state _ HI x) as Hx. destruct (decide (x = i)) as [->|Hne].
  - pose proof (iv_chan _ HI i) as Hc.
    destruct Hstep; sw_simp; rewrite ?at_eq; here; intros Hs; try done;
      try (apply Hx in Hs as [[|] ]; done); try (by split; [auto|apply Hc]).
    + rewrite at_ne in Hs by (intros <-; by apply (iv_range _ HI i i)). apply Hx in Hs as [[|] ]; done.
    + apply Hx in Hs as [_ Hch]. auto.
  - rewrite step_pc by done. destruct (step_proc x Hne) as [->| ->]; [done|].
    intros [Hs Hch]%wake_state. by destruct (Hx Hs).
Qed.

Lemma step_chan x : sw_pc s' x = PSleep3b -> p_chan (sw_proc s' x) = ch.
Proof.
  pose proof (iv_chan _ HI x) as Hx. destruct (decide (x = i)) as [->|Hne].
  - destruct Hstep; sw_simp; rewrite ?at_eq; intros Hp; try done; here; try done.
    + by destruct (ready d && negb (ready (sw_data s))).
    + by destruct (ready d && negb (ready (sw_data s))).
    + cbn. by apply Hx.
  - rewrite step_pc by done. intros Hp. destruct (step_proc x Hne) as [->| ->]; [by apply Hx|].
    rewrite wake_chan. by apply Hx.
Qed.

Lemma step_test x : sw_pc s' x = PSleep1 \/ sw_pc s' x = PSleep2 -> ready (sw_data s') = false.
Proof.
  pose proof (iv_test _ HI x) as Hx. destruct (decide (x = i)) as [->|Hne].
  - destruct Hstep; sw_simp; rewrite ?at_eq; intros Hp; try (by destruct Hp); try done; here; try (by destruct Hp); auto.
    + destruct (ready d && negb (ready (sw_data s))); by destruct Hp.
    + destruct (ready d && negb (ready (sw_data s))); by destruct Hp.
  - rewrite step_pc by done. intros Hp. specialize (Hx Hp).
    assert (Hl : sw_lock s lk = Some x) by (apply (iv_lk _ HI); by destruct Hp as [-> | ->]).
    pose proof holder as Hh. destruct Hstep; sw_simp; try done. here; rewrite Hh in Hl by done; congruence.
Qed.

(** The state in which a process is going to sleep, or asleep. *)
Definition going (s : sw) (x : nat) : Prop :=
  sw_pc s x = PSleep3 \/ sw_pc s x = PSleep3b \/ p_state (sw_proc s x) = SLEEPING.

Lemma going_pc x : going s x -> sw_pc s x = PSleep3 \/ sw_pc s x = PSleep3b \/ sw_pc s x = PSleep4 \/ sw_pc s x = PAsleep.
Proof. intros [H|[H|H]]; auto. destruct (iv_state _ HI x H) as [[]]; auto. Qed.

(** Another process does not start to go to sleep in this step. *)
Lemma going_back x : x <> i -> going s' x -> going s x.
Proof.
  intros Hne. unfold going. rewrite step_pc by done. intros [H|[H|H]]; auto. right. right.
  destruct (step_proc x Hne) as [E|E]; rewrite E in H; [done|]. by apply wake_state in H as [].
Qed.

Lemma going_self : going s' i ->
  (going s i /\ sw_data s' = sw_data s /\ sw_lock s' lk = sw_lock s lk) \/ ready (sw_data s') = false.
Proof.
  unfold going. pose proof (iv_test _ HI i) as Ht. pose proof (iv_state _ HI i) as Hst. pose proof (iv_range _ HI i) as Hr.
  destruct Hstep; sw_simp; rewrite ?at_eq; here; intros Hp; rewrite ?tl_ne by lk_ne; auto 6;
    try (by (destruct Hp as [?|[?|Hp]]; [done|done|]; apply Hst in Hp as [[]])).
  - destruct (ready d && negb (ready (sw_data s))); (destruct Hp as [?|[?|Hp]]; [done|done|]; apply Hst in Hp as [[]]; done).
  - destruct (ready d && negb (ready (sw_data s))); (destruct Hp as [?|[?|Hp]]; [done|done|]; apply Hst in Hp as [[]]; done).
  - rewrite at_ne in Hp by (intros ->; by eapply Hr). destruct Hp as [?|[?|Hp]]; [done|done|]. apply Hst in Hp as [[]]; done.
  - destruct Hp as [?|[?|Hp]]; [done|done|]. left. auto.
  - by destruct Hp as [?|[?|Hp]].
Qed.

Lemma step_going x : (x < n)%nat -> going s' x -> ready (sw_data s') = true -> coming s' x.
Proof.
  intros Hx Hg Hr. destruct (decide (x = i)) as [->|Hne].
  - destruct (going_self Hg) as [(Hgs & Hd & Hl)|Hf]; [|congruence]. rewrite Hd in Hr.
    destruct (iv_going _ HI i Hx Hgs Hr) as (j & Hj & Hp). exists j. rewrite Hl. split; [done|].
    destruct (decide (j = i)) as [->|Hji]; [|by rewrite step_pc].
    apply (iv_lk _ HI) in Hj. exfalso. by destruct (going_pc i Hgs) as [E|[E|[E|E]]]; rewrite E in Hj.
  - pose proof (going_back x Hne Hg) as Hgs. pose proof holder as Hh. pose proof (iv_going _ HI x Hx Hgs) as Hc.
    assert (Hkeep : sw_data s' = sw_data s -> (sw_lock s lk = Some i -> pending (sw_pc s i) x ->
      sw_lock s' lk = Some i /\ pending (sw_pc s' i) x) -> coming s' x).
    { intros Hd Hk. rewrite Hd in Hr. destruct (Hc Hr) as (j & Hj & Hp).
      destruct (decide (j = i)) as [->|Hji]; [exists i; by apply Hk|].
      exists j. rewrite step_pc, step_lock_other by done. done. }
    pose proof (iv_hold _ HI i) as Hhold. pose proof (iv_range _ HI i) as Hrange. pose proof (going_pc x Hgs) as Hpx.
    pose proof (iv_own _ HI x) as Hown. pose proof (iv_state _ HI x) as Hst.
    destruct Hstep; try (apply Hkeep; [done|]; sw_simp; rewrite ?at_eq, ?tl_ne by lk_ne; here; cbn [pending]; done || (intros; split; done || lia)).
    + assert (Hl : sw_lock s lk = Some i) by (apply Hh; by destruct H as [-> | ->]).
      exists i. split; [exact Hl|]. sw_simp. rewrite at_eq, Hr. cbn [andb].
      destruct (ready (sw_data s)) eqn:E; [|done]. cbn [negb]. destruct (Hc eq_refl) as (j & Hj & Hp).
      rewrite Hl in Hj. injection Hj as <-. done.
    + destruct (decide (j = x)) as [->|Hjx].
      * exfalso. specialize (Hhold x H). destruct Hg as [Hg|[Hg|Hg]]; sw_simp.
        -- rewrite at_ne in Hg by done. cbn in Hg. rewrite Hown in Hhold by (by rewrite Hg). congruence.
        -- rewrite at_ne in Hg by done. cbn in Hg. rewrite Hown in Hhold by (by rewrite Hg). congruence.
        -- cbn in Hg. rewrite at_eq in Hg. apply wake_state in Hg as [Hs Hch]. by destruct (Hst Hs).
      * apply Hkeep; [done|]. sw_simp. rewrite at_eq, tl_ne by lk_ne. rewrite H. cbn [pending]. intros Hl Hp. split; [done|lia].
Qed.
End Step.

Lemma swstep_inv i s s' : (i < n)%nat -> swinv s -> swstep i s s' -> swinv s'.
Proof.
  intros Hi HI Hs. split.
  - intros x. by eapply step_lk.
  - intros x. by eapply step_own.
  - intros x j Hp. by eapply step_hold.
  - intros x. by eapply step_state.
  - intros x. by eapply step_chan.
  - intros x. by eapply step_test.
  - intros x Hx Hg. exact (step_going i s s' Hi HI Hs x Hx Hg).
  - intros x j Hp. by eapply step_hold.
Qed.

Lemma swinit_inv s : swinit s -> swinv s.
Proof.
  intros [Hl Hp]. split; intros i; destruct (Hp i) as [Hpc Hst]; rewrite ?Hpc, ?Hst, ?Hl; try done; try (by intros []).
  by intros _ [|[|]].
Qed.

Lemma sw_reach_inv s0 s : swinit s0 -> rtc swnext s0 s -> swinv s.
Proof.
  intros H0 Hr. apply swinit_inv in H0. induction Hr as [|x y z (i & Hi & Hxy) _ IH]; [done|]. apply IH. by eapply swstep_inv.
Qed.

(** ** Run without interruption, the actions do what [Sched] says *)

Definition solo (i : nat) : sw -> sw -> Prop := rtc (swstep i).

Lemma sleep_solo i s : sw_pc s i = PSleep1 -> sw_lock s (LkProc i) = None ->
  exists s', solo i s s' /\ sw_pc s' i = PAsleep /\ sw_lock s' lk = None /\ sw_lock s' (LkProc i) = None /\
    sw_proc s' i = set_p_state SLEEPING (set_p_chan ch (sw_proc s i)) /\
    (forall j, j <> i -> sw_proc s' j = sw_proc s j) /\ sw_data s' = sw_data s.
Proof.
  intros Hp Hl. eexists. split.
  - eapply rtc_l; [apply S_lock; done|]. eapply rtc_l; [apply S_unlock; by cbn; rewrite at_eq|].
    eapply rtc_l; [apply S_chan; by cbn; rewrite at_eq|]. eapply rtc_l; [apply S_state; by cbn; rewrite at_eq|].
    eapply rtc_l; [apply S_sched; by cbn; rewrite at_eq|]. apply rtc_refl.
  - cbn. rewrite !at_eq. split; [done|]. split; [rewrite decide_False by (apply Hlk); by rewrite decide_True|].
    split; [by rewrite decide_True|]. split; [done|]. split; [|done]. intros j Hj. by rewrite !at_ne.
Qed.

(** The processes from [j] on, as [wakeup] leaves them. *)
Lemma wakeup_solo i k : forall j s, (j + k = n)%nat -> sw_pc s i = PWake j ->
  (forall x, (j <= x < n)%nat -> x <> i -> sw_lock s (LkProc x) = None) ->
  exists s', solo i s s' /\ sw_pc s' i = PWake n /\ sw_lock s' lk = sw_lock s lk /\ sw_data s' = sw_data s /\
    (forall x, sw_proc s' x = if decide ((j <= x < n)%nat /\ x <> i) then wake ch (sw_proc s x) else sw_proc s x).
Proof.
  induction k as [|k IH]; intros j s Hjk Hp Hl.
  { exists s. split; [apply rtc_refl|]. rewrite Hp. replace j with n by lia. split_and!; try done.
    intros x. by rewrite decide_False by lia. }
  destruct (decide (j = i)) as [->|Hne].
  - destruct (IH (S i) (set_pc i (PWake (S i)) s)) as (s' & Hs & H1 & H2 & H3 & H4); [lia|by cbn; rewrite at_eq|intros x Hx; apply Hl; lia|].
    exists s'. split; [eapply rtc_l; [apply K_skip; [lia|done]|done]|]. split_and!; try done.
    intros x. rewrite H4. cbn. repeat case_decide; try done; lia.
  - set (s1 := set_pc i (PWakeHold j) (take_lock (LkProc j) (Some i) s)).
    set (s2 := set_pc i (PWake (S j)) (take_lock (LkProc j) None (set_proc j (wake ch (sw_proc s1 j)) s1))).
    destruct (IH (S j) s2) as (s' & Hs & H1 & H2 & H3 & H4); [lia|by cbn; rewrite at_eq| |].
    { intros x Hx Hxi. cbn. rewrite !decide_False by (intros [= ->]; lia). apply Hl; lia. }
    exists s'. split.
    { eapply rtc_l; [apply K_lock; [|exact Hne|exact Hp|apply Hl]; lia|].
      eapply rtc_l; [apply (K_check i s1 j); by cbn; rewrite at_eq|]. exact Hs. }
    split; [done|]. split; [rewrite H2; cbn; by rewrite !decide_False by (apply Hlk)|]. split; [by rewrite H3|].
    intros x. rewrite H4. cbn. destruct (decide (x = j)) as [->|Hxj].
    + rewrite at_eq, decide_False by lia. by rewrite decide_True by lia.
    + rewrite at_ne by done. repeat case_decide; try done; lia.
Qed.
End Sleepwake.

Arguments Sw {D} sw_data sw_proc sw_lock sw_pc.

(** C18: no wakeup is lost.  In every interleaving of processes that use [sleep] and [wakeup] with a
    lock and a condition, a process that is asleep on the channel while the condition holds is one
    that the holder of the lock is still going to wake up; so that whenever the lock is free, the
    condition does not hold if anybody sleeps. *)
Theorem no_lost_wakeup {D : Type} (ready : D -> bool) ch lk n (s0 s : sw) i :
  (forall j, lk <> LkProc j) -> swinit s0 -> rtc (swnext ready ch lk n) s0 s ->
  (i < n)%nat -> p_state (sw_proc s i) = SLEEPING ->
  (ready (sw_data s) = true -> exists j, sw_lock s lk = Some j /\ pending (sw_pc s j) i) /\
  (sw_lock s lk = None -> ready (sw_data s) = false).
Proof.
  intros Hlk H0 Hr Hi Hs. pose proof (sw_reach_inv ready ch lk n Hlk s0 s H0 Hr) as HI.
  assert (Hc : ready (sw_data s) = true -> exists j, sw_lock s lk = Some j /\ pending (sw_pc s j) i).
  { intros Hd. apply (iv_going _ _ _ _ _ HI i Hi); auto. }
  split; [done|]. intros Hl. destruct (ready (sw_data s)); [|done]. destruct (Hc eq_refl) as (j & Hj & _). congruence.
Qed.

Definition sw0 : sw (D := bool) := Sw false (fun _ => set_p_state RUNNING proc0) (fun _ => None) (fun _ => POut).

(** Process 1 goes to sleep, and process 0 makes the condition true. *)
Lemma no_lost_wakeup_witness : exists s, rtc (swnext (fun b => b) ChLog LkLog 2) sw0 s /\ sw_data s = true /\
  p_state (sw_proc s 1%nat) = SLEEPING /\ exists j, sw_lock s LkLog = Some j /\ pending (sw_pc s j) 1.
Proof.
  assert (Hr : exists s, rtc (swnext (fun b => b) ChLog LkLog 2) sw0 s /\ sw_data s = true /\ p_state (sw_proc s 1%nat) = SLEEPING).
  { eexists. split.
    - eapply rtc_l; [exists 1%nat; split; [lia|by apply W_acquire]|].
      eapply rtc_l; [exists 1%nat; split; [lia|by apply W_sleep]|].
      eapply rtc_l; [exists 1%nat; split; [lia|by apply S_lock]|].
      eapply rtc_l; [exists 1%nat; split; [lia|by apply S_unlock]|].
      eapply rtc_l; [exists 1%nat; split; [lia|by apply S_chan]|].
      eapply rtc_l; [exists 1%nat; split; [lia|by apply S_state]|].
      eapply rtc_l; [exists 0%nat; split; [lia|by apply W_acquire]|].
      eapply rtc_l; [exists 0%nat; split; [lia|by apply (W_write _ _ _ _ _ _ true); left]|].
      apply rtc_refl.
    - done. }
  destruct Hr as (s & Hr & Hd & Hs). exists s. split; [done|]. split; [done|]. split; [done|].
  apply (no_lost_wakeup (fun b => b) ChLog LkLog 2 sw0 s 1%nat); done || lia.
Defined.
