(* ===== verification/Uart.v ===== *)
(** [kernel/uart.c], the driver of the 16550a UART, and the echo part of
    [kernel/console.c].  The chip is a parameter: what device registers read is given
    by [u_read] and the writes to them are recorded in [u_out]. *)
From S2P Require Import Prelude Types Vm Sched Ring.

(** ** Registers *)

Abbreviation RHR := 0.
Abbreviation THR := 0.
Abbreviation IER := 1.
Abbreviation IER_RX_ENABLE := 1.
Abbreviation IER_TX_ENABLE := 2.
Abbreviation FCR := 2.
Abbreviation FCR_FIFO_ENABLE := 1.
Abbreviation FCR_FIFO_CLEAR := 6.
Abbreviation ISR := 2.
Abbreviation LCR := 3.
Abbreviation LCR_EIGHT_BITS := 3.
Abbreviation LCR_BAUD_LATCH := 128.
Abbreviation LSR := 5.
Abbreviation LSR_RX_READY := 1.
Abbreviation LSR_TX_IDLE := 32.
Abbreviation UART_TX_BUF_SIZE := 32.
(** [console.c]'s code for an erased character. *)
Abbreviation BACKSPACE := 0x100.

Section Uart.
Context {L : Linker}.

Definition getd {A} (f : devst -> A) : M A := get (fun s => f (dev s)).
Definition updd (f : devst -> devst) : M unit := upd (fun s => set_dev (f (dev s)) s).

(** A device register at physical address [a]. *)
Definition mmio_read (a : Z) : M Z :=
  let! v := getd (fun d => u_read d (u_reads d) a) in
  updd (fun d => set_u_reads (S (u_reads d)) d) ;;;
  ret v.
Definition mmio_write (a v : Z) : M unit :=
  updd (fun d => set_u_out (u_out d ++ [(a, v)]) d).

(** Both are [unsigned char] accesses. *)
Definition ReadReg (reg : Z) : M Z := let! v := mmio_read (UART0 + reg) in ret (u8 v).
Definition WriteReg (reg v : Z) : M unit := mmio_write (UART0 + reg) (u8 v).

Definition uartinit : M unit :=
  WriteReg IER 0x00 ;;;
  WriteReg LCR LCR_BAUD_LATCH ;;;
  WriteReg 0 0x03 ;;;
  WriteReg 1 0x00 ;;;
  WriteReg LCR LCR_EIGHT_BITS ;;;
  WriteReg FCR (Z.lor FCR_FIFO_ENABLE FCR_FIFO_CLEAR) ;;;
  WriteReg IER (Z.lor IER_TX_ENABLE IER_RX_ENABLE).

(** Every round but the last sends one byte, so that the loop runs at most once more
    than there are bytes. *)
Fixpoint uartstart_loop (fuel : nat) : M unit :=
  match fuel with
  | O => diverge
  | S fuel' =>
      let! w := getd tx_w in
      let! r := getd tx_r in
      if w =? r then
        let! _ := ReadReg ISR in ret tt
      else
        let! lsr := ReadReg LSR in
        if Z.land lsr LSR_TX_IDLE =? 0 then ret tt
        else
          let! c := getd (fun d => rget (tx_buf d) (tx_r d)) in
          updd (fun d => set_tx_r (u64 (tx_r d + 1)) d) ;;;
          wakeup ChUartTx ;;;
          WriteReg THR c ;;;
          uartstart_loop fuel'
  end.

Definition uartstart : M unit := uartstart_loop 33.

(** The wait for room; [sleep] ends the run, a resumed caller tests again. *)
Definition uartputc_wait : M unit :=
  let! full := getd (fun d => tx_w d =? u64 (tx_r d + UART_TX_BUF_SIZE)) in
  if full then sleep ChUartTx LkUart else ret tt.

Definition uartputc (c : Z) : M unit :=
  acquire LkUart ;;;
  let! pk := getd panicked in
  if pk then diverge
  else
    uartputc_wait ;;;
    updd (fun d => set_tx_buf (rset (tx_buf d) (tx_w d) (u8 c)) d) ;;;
    updd (fun d => set_tx_w (u64 (tx_w d + 1)) d) ;;;
    uartstart ;;;
    release LkUart.

Fixpoint tx_spin (fuel : nat) : M unit :=
  match fuel with
  | O => diverge
  | S fuel' =>
      let! lsr := ReadReg LSR in
      if Z.land lsr LSR_TX_IDLE =? 0 then tx_spin fuel' else ret tt
  end.

(** [push_off] and [pop_off] only keep interrupts away meanwhile. *)
Definition uartputc_sync (c : Z) : M unit :=
  let! pk := getd panicked in
  if pk then diverge
  else
    let! polls := getd u_polls in
    tx_spin polls ;;;
    WriteReg THR c.

Definition uartgetc : M Z :=
  let! lsr := ReadReg LSR in
  if negb (Z.land lsr 0x01 =? 0) then ReadReg RHR else ret (-1).

(** ** [consputc] *)

Definition consputc (c : Z) : M unit :=
  if c =? BACKSPACE then
    uartputc_sync 8 ;;;
    uartputc_sync 32 ;;;
    uartputc_sync 8
  else uartputc_sync c.

(** The [while] of [uartintr]; the interrupt handler of the console is passed in, as
    [console.c] is built on this file. *)
Fixpoint uartintr_loop (consoleintr : Z -> M unit) (fuel : nat) : M unit :=
  match fuel with
  | O => diverge
  | S fuel' =>
      let! c := uartgetc in
      if c =? -1 then ret tt
      else
        consoleintr c ;;;
        uartintr_loop consoleintr fuel'
  end.

Definition uartintr_with (consoleintr : Z -> M unit) : M unit :=
  let! polls := getd u_polls in
  uartintr_loop consoleintr polls ;;;
  acquire LkUart ;;;
  uartstart ;;;
  release LkUart.
End Uart.
