(* ===== verification/Printf.v ===== *)
(** [kernel/printf.c]: formatting, and printing on the console. *)
From S2P Require Import Prelude Types Sched Uart.
From Stdlib Require Ascii String.

(** The bytes of a C string literal. *)
Definition lit (s : string) : list Z := map (fun a => Z.of_nat (Ascii.nat_of_ascii a)) (String.list_ascii_of_string s).

(** What a caller passes for the dots: a number, or a string ([None]: a null
    pointer). *)
Inductive vararg := VNum (v : Z) | VStr (s : option (list Z)).

Definition i64 (x : Z) : Z := (x + 2 ^ 63) mod 2 ^ 64 - 2 ^ 63.

(** ** Numbers *)

Definition digit (d : Z) : Z := nth (Z.to_nat d) (lit "0123456789abcdef") 0.

(** The [do] loop: the least significant digit first.  Every round divides by the
    base, so 64 rounds are enough for 64 bits. *)
Fixpoint digits_loop (x base : Z) (fuel : nat) : list Z :=
  match fuel with
  | O => []
  | S fuel' =>
      digit (x mod base) ::
      (if negb (x / base =? 0) then digits_loop (x / base) base fuel' else [])
  end.

(** The characters in [buf] before they are printed backwards. *)
Definition printint_buf (xx base : Z) (sign : bool) : list Z :=
  let neg := sign && (xx <? 0) in
  let x := if neg then u64 (- xx) else u64 xx in
  digits_loop x base 64 ++ (if neg then [45] else []).

(** [None]: more characters than [buf] has room for, so that the loop writes past its
    end. *)
Definition printint (xx base : Z) (sign : bool) : option (list Z) :=
  let buf := printint_buf xx base sign in
  if (length buf <=? 16)%nat then Some (rev buf) else None.

Fixpoint printptr_loop (x : Z) (k : nat) : list Z :=
  match k with
  | O => []
  | S k' => digit (Z.shiftr x 60) :: printptr_loop (u64 (Z.shiftl x 4)) k'
  end.

Definition printptr (x : Z) : list Z := lit "0x" ++ printptr_loop x 16.

(** ** [printf] *)

(** The bytes of a string up to its terminator. *)
Fixpoint cstr (s : list Z) : list Z :=
  match s with
  | [] => []
  | c :: s' => if c =? 0 then [] else c :: cstr s'
  end.

(** What a conversion prints, how many characters of the format it takes after the
    percent sign, and what it does with the arguments. *)
Inductive conv :=
  | CInt (base : Z) (sign : bool) (n : nat)
  | CLong (base : Z) (sign : bool) (n : nat)
  | CPtr | CStr | CPercent | CEnd | CUnknown (c : Z).

Definition eqc (c : Z) (x : string) : bool := c =? nth 0 (lit x) 0.

(** The chain of comparisons on the three characters after the percent sign. *)
Definition conversion (f : list Z) : conv :=
  let c0 := nth 0 f 0 in
  let c1 := if c0 =? 0 then 0 else nth 1 f 0 in
  let c2 := if c1 =? 0 then 0 else nth 2 f 0 in
  if eqc c0 "d" then CInt 10 true 1
  else if eqc c0 "l" && eqc c1 "d" then CLong 10 true 2
  else if eqc c0 "l" && eqc c1 "l" && eqc c2 "d" then CLong 10 true 3
  else if eqc c0 "u" then CInt 10 false 1
  else if eqc c0 "l" && eqc c1 "u" then CLong 10 false 2
  else if eqc c0 "l" && eqc c1 "l" && eqc c2 "u" then CLong 10 false 3
  else if eqc c0 "x" then CInt 16 false 1
  else if eqc c0 "l" && eqc c1 "x" then CLong 16 false 2
  else if eqc c0 "l" && eqc c1 "l" && eqc c2 "x" then CLong 16 false 3
  else if eqc c0 "p" then CPtr
  else if eqc c0 "s" then CStr
  else if eqc c0 "%" then CPercent
  else if c0 =? 0 then CEnd
  else CUnknown c0.

(** The characters passed to [consputc], in order.  [None]: an argument is missing or
    of the wrong kind, or a number does not fit [printint]'s buffer. *)
Fixpoint printf_loop (f : list Z) (args : list vararg) (fuel : nat) : option (list Z) :=
  match fuel with
  | O => Some []
  | S fuel' =>
      match f with
      | [] => Some []
      | cx :: f =>
          let put out f args := option_map (app out) (printf_loop f args fuel') in
          if cx =? 0 then Some []
          else if negb (eqc cx "%") then put [cx] f args
          else
            match conversion f, args with
            | CInt base sign n, VNum v :: args =>
                match printint (i32 v) base sign with
                | Some out => put out (drop n f) args
                | None => None
                end
            | CLong base sign n, VNum v :: args =>
                match printint (i64 v) base sign with
                | Some out => put out (drop n f) args
                | None => None
                end
            | CPtr, VNum v :: args => put (printptr (u64 v)) (drop 1 f) args
            | CStr, VStr s :: args => put (cstr (default (lit "(null)") s)) (drop 1 f) args
            | CPercent, args => put (lit "%") (drop 1 f) args
            | CEnd, _ => Some []
            | CUnknown c, args => put (lit "%" ++ [c]) (drop 1 f) args
            | _, _ => None
            end
      end
  end.

Definition printf_bytes (fmt : list Z) (args : list vararg) : option (list Z) :=
  printf_loop fmt args (length fmt).

Section Printf.
Context {L : Linker}.

Fixpoint consputs (l : list Z) : M unit :=
  match l with
  | [] => ret tt
  | c :: l' => consputc c ;;; consputs l'
  end.

(** [pr.locking] is 1 from [printfinit] on; only [panic] clears it.  Undefined
    behaviour ends the run as an endless loop does. *)
Definition kprintf (fmt : list Z) (args : list vararg) : M unit :=
  acquire LkPr ;;;
  match printf_bytes fmt args with
  | Some out => consputs out
  | None => diverge
  end ;;;
  release LkPr.
End Printf.
