(* ===== verification/Console.v ===== *)
(** [kernel/console.c]: line editing in the interrupt handler, and the [read] and
    [write] functions of the console device. *)
From S2P Require Import Prelude Types Vm Sched Ring Uart.

Abbreviation INPUT_BUF_SIZE := 128.
Abbreviation CONSOLE := 1.

Section Console.
Context {L : Linker}.

Definition C (x : Z) : Z := x - 64.

(** ** Output *)

Fixpoint consolewrite_loop (user_src : bool) (src n i : Z) (fuel : nat) : M Z :=
  match fuel with
  | O => diverge
  | S fuel' =>
      if i <? n then
        let! (r, bs) := either_copyin user_src (u64 (src + i)) 1 in
        if r =? -1 then ret i
        else
          uartputc (nth 0 bs 0) ;;;
          consolewrite_loop user_src src n (i + 1) fuel'
      else ret i
  end.

Definition consolewrite (user_src : bool) (src n : Z) : M Z :=
  consolewrite_loop user_src src n 0 (S (Z.to_nat n)).

(** ** Input *)

(** One round of the loop takes one byte; [target] is the count asked for.  Both are
    [uint] in the comparison, as [target] is. *)
Fixpoint consoleread_loop (user_dst : bool) (dst n target : Z) (fuel : nat) : M Z :=
  match fuel with
  | O => diverge
  | S fuel' =>
      let fin n := release LkCons ;;; ret (i32 (target - n)) in
      if 0 <? n then
        let! empty := getd (fun d => cons_r d =? cons_w d) in
        let! stop :=
          (if empty then
             let! p := myproc_ in
             let! k := killed p in
             if k then release LkCons ;;; ret true
             else sleep ChCons LkCons ;;; ret false
           else ret false) in
        if stop then ret (-1)
        else
          let! c := getd (fun d => rget (cons_buf d) (cons_r d)) in
          updd (fun d => set_cons_r (u32 (cons_r d + 1)) d) ;;;
          if c =? C 68 then
            (if u32 n <? target then updd (fun d => set_cons_r (u32 (cons_r d - 1)) d) else ret tt) ;;;
            fin n
          else
            let! r := either_copyout user_dst dst [c] in
            if r =? -1 then fin n
            else if c =? 10 then fin (n - 1)
            else consoleread_loop user_dst (u64 (dst + 1)) (n - 1) target fuel'
      else fin n
  end.

Definition consoleread (user_dst : bool) (dst n : Z) : M Z :=
  acquire LkCons ;;;
  consoleread_loop user_dst dst n (u32 n) (S (Z.to_nat n)).

(** Control-U: erase back to the last newline or to what has been handed over. *)
Fixpoint kill_line (fuel : nat) : M unit :=
  match fuel with
  | O => diverge
  | S fuel' =>
      let! go := getd (fun d => negb (cons_e d =? cons_w d) &&
                                negb (rget (cons_buf d) (u32 (cons_e d - 1)) =? 10)) in
      if go then
        updd (fun d => set_cons_e (u32 (cons_e d - 1)) d) ;;;
        consputc BACKSPACE ;;;
        kill_line fuel'
      else ret tt
  end.

(** [procdump] is in [Proc], which is built on this file. *)
Definition consoleintr (procdump : M unit) (c : Z) : M unit :=
  acquire LkCons ;;;
  (if c =? C 80 then procdump
   else if c =? C 85 then kill_line 129
   else if (c =? C 72) || (c =? 127) then
     let! ne := getd (fun d => negb (cons_e d =? cons_w d)) in
     if ne then
       updd (fun d => set_cons_e (u32 (cons_e d - 1)) d) ;;;
       consputc BACKSPACE
     else ret tt
   else
     let! room := getd (fun d => u32 (cons_e d - cons_r d) <? INPUT_BUF_SIZE) in
     if negb (c =? 0) && room then
       let c := if c =? 13 then 10 else c in
       consputc c ;;;
       updd (fun d => set_cons_buf (rset (cons_buf d) (cons_e d) (u8 c)) d) ;;;
       updd (fun d => set_cons_e (u32 (cons_e d + 1)) d) ;;;
       let! whole := getd (fun d => (c =? 10) || (c =? C 68) ||
                                    (u32 (cons_e d - cons_r d) =? INPUT_BUF_SIZE)) in
       if whole then
         updd (fun d => set_cons_w (cons_e d) d) ;;;
         wakeup ChCons
       else ret tt
     else ret tt) ;;;
  release LkCons.

Definition uartintr (procdump : M unit) : M unit := uartintr_with (consoleintr procdump).

(** [struct devsw]: the functions of a device, absent where the table has a null
    pointer.  [consoleinit] fills in the only entry. *)
Record devsw_t := DevSw {
  d_read : option (bool -> Z -> Z -> M Z);
  d_write : option (bool -> Z -> Z -> M Z)
}.

Definition devsw (major : Z) : devsw_t :=
  if major =? CONSOLE then DevSw (Some consoleread) (Some consolewrite) else DevSw None None.

Definition consoleinit : M unit := uartinit.
End Console.
