(* ===== verification/Pipe.v ===== *)
(** [kernel/pipe.c].  A [struct pipe *] is the address of the page the pipe lives in;
    the object itself is in [pipes].  [pipealloc] is in [File], with the file table
    it fills in. *)
From S2P Require Import Prelude Types Riscv Str Kalloc Vm Sched Ring.

Abbreviation PIPESIZE := 512.

(** [kalloc] fills the page with fives. *)
Definition pipe0 : pipe := Pipe (replicate 512 5) 0 0 false false.
#[global] Instance pipe_inhabited : Inhabited pipe := populate pipe0.

Section Pipe.
Context {L : Linker}.

Definition pipeat (pi : Z) (s : kst) : pipe := pipes s !!! pi.
Definition getpi {A} (pi : Z) (f : pipe -> A) : M A := get (fun s => f (pipeat pi s)).
Definition updpi (pi : Z) (f : pipe -> pipe) : M unit :=
  upd (fun s => set_pipes (<[pi := f (pipeat pi s)]> (pipes s)) s).

(** The initialisation in [pipealloc]. *)
Definition pipe_new (pi : Z) : M unit :=
  upd (fun s => set_pipes (<[pi := Pipe (replicate 512 5) 0 0 true true]> (pipes s)) s).

Definition pipeclose (pi : Z) (writable : bool) : M unit :=
  acquire (LkPipe pi) ;;;
  (if writable then
     updpi pi (set_pi_writeopen false) ;;;
     wakeup (ChPipeRead pi)
   else
     updpi pi (set_pi_readopen false) ;;;
     wakeup (ChPipeWrite pi)) ;;;
  let! ro := getpi pi pi_readopen in
  let! wo := getpi pi pi_writeopen in
  if negb ro && negb wo then
    release (LkPipe pi) ;;;
    upd (fun s => set_pipes (delete pi (pipes s)) s) ;;;
    kfree pi
  else release (LkPipe pi).

Definition pipe_full (p : pipe) : bool := pi_nwrite p =? u32 (pi_nread p + PIPESIZE).
Definition pipe_empty (p : pipe) : bool := pi_nread p =? pi_nwrite p.

(** [pi->data[pi->nwrite++ % PIPESIZE] = ch], and the read on the other side. *)
Definition pipe_put (ch : Z) (p : pipe) : pipe :=
  set_pi_nwrite (u32 (pi_nwrite p + 1)) (set_pi_data (rset (pi_data p) (pi_nwrite p) ch) p).
Definition pipe_ch (p : pipe) : Z := rget (pi_data p) (pi_nread p).
Definition pipe_take (p : pipe) : pipe := set_pi_nread (u32 (pi_nread p + 1)) p.

(** [None] for the early return: the caller gets -1. *)
Fixpoint pipewrite_loop (pi : Z) (pr : nat) (addr n i : Z) (fuel : nat) : M (option Z) :=
  match fuel with
  | O => diverge
  | S fuel' =>
      if i <? n then
        let! ro := getpi pi pi_readopen in
        let! stop := (if ro then killed pr else ret true) in
        if stop then release (LkPipe pi) ;;; ret None
        else
          let! full := getpi pi pipe_full in
          if full then
            wakeup (ChPipeRead pi) ;;;
            sleep (ChPipeWrite pi) (LkPipe pi) ;;;
            pipewrite_loop pi pr addr n i fuel'
          else
            let! pt := getp pr p_pagetable in
            let! (r, bs) := copyin pt (u64 (addr + i)) 1 in
            if r =? -1 then ret (Some i)
            else
              updpi pi (pipe_put (nth 0 bs 0)) ;;;
              pipewrite_loop pi pr addr n (i + 1) fuel'
      else ret (Some i)
  end.

Definition pipewrite (pi addr n : Z) : M Z :=
  let! pr := myproc_ in
  acquire (LkPipe pi) ;;;
  let! r := pipewrite_loop pi pr addr n 0 (S (Z.to_nat n)) in
  match r with
  | None => ret (-1)
  | Some i =>
      wakeup (ChPipeRead pi) ;;;
      release (LkPipe pi) ;;;
      ret i
  end.

(** The wait of [piperead]: true when the process has been killed; [sleep] ends the
    run, and a resumed reader tests again. *)
Definition piperead_wait (pi : Z) (pr : nat) : M bool :=
  let! wait := getpi pi (fun p => pipe_empty p && pi_writeopen p) in
  if wait then
    let! k := killed pr in
    if k then release (LkPipe pi) ;;; ret true
    else sleep (ChPipeRead pi) (LkPipe pi) ;;; ret false
  else ret false.

Fixpoint piperead_loop (pi : Z) (pr : nat) (addr n i : Z) (fuel : nat) : M Z :=
  match fuel with
  | O => diverge
  | S fuel' =>
      if i <? n then
        let! e := getpi pi pipe_empty in
        if e then ret i
        else
          let! ch := getpi pi pipe_ch in
          updpi pi pipe_take ;;;
          let! pt := getp pr p_pagetable in
          let! r := copyout pt (u64 (addr + i)) [ch] in
          if r =? -1 then ret i
          else piperead_loop pi pr addr n (i + 1) fuel'
      else ret i
  end.

Definition piperead (pi addr n : Z) : M Z :=
  let! pr := myproc_ in
  acquire (LkPipe pi) ;;;
  let! k := piperead_wait pi pr in
  if k then ret (-1)
  else
    let! i := piperead_loop pi pr addr n 0 (S (Z.to_nat n)) in
    wakeup (ChPipeWrite pi) ;;;
    release (LkPipe pi) ;;;
    ret i.
End Pipe.
