(* ===== verification/Sleeplock.v ===== *)
(** [kernel/sleeplock.c]: locks that are held across sleeps.  The functions take
    the lock by reference: where it lives in the state, its spinlock and the
    channel its waiters sleep on. *)
From S2P Require Import Prelude Types Kalloc Vm Sched.

Record slref := SlRef {
  sl_get : kst -> sleeplock;
  sl_set : sleeplock -> kst -> kst;
  sl_lk : lockid;
  sl_chan : chan
}.

Section Sleeplock.
Context {L : Linker}.

Definition initsleeplock (l : slref) : M unit := upd (sl_set l (SleepLock false 0)).

(** The loop around [sleep] runs again from the top when the thread is resumed. *)
Definition acquiresleep (l : slref) : M unit :=
  acquire (sl_lk l) ;;;
  let! lk := get (sl_get l) in
  (if sl_locked lk then sleep (sl_chan l) (sl_lk l) else ret tt) ;;;
  let! p := myproc_ in
  let! pid := getp p p_pid in
  upd (sl_set l (SleepLock true pid)) ;;;
  release (sl_lk l).

Definition releasesleep (l : slref) : M unit :=
  acquire (sl_lk l) ;;;
  upd (sl_set l (SleepLock false 0)) ;;;
  wakeup (sl_chan l) ;;;
  release (sl_lk l).

Definition holdingsleep (l : slref) : M bool :=
  acquire (sl_lk l) ;;;
  let! lk := get (sl_get l) in
  let! p := myproc_ in
  let! pid := getp p p_pid in
  release (sl_lk l) ;;;
  ret (sl_locked lk && (sl_pid lk =? pid)).

(** A reference is to a field of its own: it reads what was written, and writing
    it touches neither the locks held nor the processes. *)
Record sl_ok (l : slref) : Prop := {
  sl_set_held v s : held (sl_set l v s) = held s;
  sl_set_cur v s : cur (sl_set l v s) = cur s;
  sl_set_procs v s : procs (sl_set l v s) = procs s;
  sl_held_comm v h s : sl_set l v (set_held h s) = set_held h (sl_set l v s);
  sl_get_held h s : sl_get l (set_held h s) = sl_get l s
}.

(** A process runs with no process lock held, on a live entry of the table. *)
Record running (s : kst) (i : nat) : Prop := {
  run_cur : cur s = Some i;
  run_lt : (i < length (procs s))%nat;
  run_locks j : LkProc j ∉ held s
}.

(** The processes of two states are the same up to being runnable. *)
Record same_procs (s s' : kst) : Prop := {
  sp_len : length (procs s') = length (procs s);
  sp_sim j : psim (procat j s') (procat j s)
}.

Lemma same_procs_refl s : same_procs s s.
Proof. done. Qed.
Lemma same_procs_trans s1 s2 s3 : same_procs s1 s2 -> same_procs s2 s3 -> same_procs s1 s3.
Proof.
  intros [L1 P1] [L2 P2]. split; [congruence|]. intros j. unfold psim in *. by rewrite P2.
Qed.
Lemma same_procs_eq s s' : procs s' = procs s -> same_procs s s'.
Proof. intros E. split; unfold procat; by rewrite E. Qed.

Lemma same_pid s s' j : same_procs s s' -> p_pid (procat j s') = p_pid (procat j s).
Proof. intros [_ P]. specialize (P j). by apply (f_equal p_pid) in P. Qed.

Lemma running_same s s' i :
  same_procs s s' -> cur s' = cur s -> held s' = held s -> running s i -> running s' i.
Proof. intros [E _] Ec Eh [Hc Hi Hl]. split; [congruence|congruence|]. by rewrite Eh. Qed.

Lemma wp_acquiresleep l s i (Q : unit -> kst -> Prop) :
  sl_ok l -> running s i -> sl_lk l ∉ held s -> sl_locked (sl_get l s) = false ->
  Q tt (sl_set l (SleepLock true (p_pid (procat i s))) s) ->
  wp (acquiresleep l) Q s.
Proof.
  intros Ok [Hc Hi Hp] Hh Hu HQ. unfold acquiresleep.
  wp_step. apply wp_acquire; [done|]. do 2 wp_step. rewrite sl_get_held, Hu by done.
  do 2 wp_step. wp_step. eapply wp_myproc_; [done|]. wp_step. apply wp_get.
  wp_step. apply wp_upd. eapply wp_release; [by rewrite sl_set_held|done|].
  rewrite sl_held_comm by done. set (s1 := sl_set l _ s).
  assert (Hs1 : held s1 = held s) by (unfold s1; by rewrite sl_set_held).
  change (Q tt (set_held (held s) s1)). rewrite <- Hs1, set_held_id. done.
Qed.

(** A lock that is taken puts the caller to sleep on it. *)
Lemma wps_acquiresleep_locked l s i (Q : unit -> kst -> Prop) (R : chan -> kst -> Prop) :
  sl_ok l -> running s i -> held s = [] -> sl_lk l <> LkProc i ->
  sl_locked (sl_get l s) = true ->
  R (sl_chan l) (asleep i (sl_chan l) s) ->
  wps (acquiresleep l) Q R s.
Proof.
  intros Ok [Hc Hi Hp] Hh Hne Hu HR. unfold acquiresleep.
  wp_step. apply wp_acquire; [rewrite Hh; set_solver|]. do 2 wp_step.
  rewrite sl_get_held, Hu by done. apply wps_bind.
  eapply wps_sleep; [done|done|by rewrite Hh|done|]. by destruct s.
Qed.

Lemma wp_releasesleep l s i (Q : unit -> kst -> Prop) :
  sl_ok l -> running s i -> sl_lk l ∉ held s -> (forall j, sl_lk l <> LkProc j) ->
  Q tt (set_procs (woken (Some i) (sl_chan l) 0 NPROC (procs s)) (sl_set l (SleepLock false 0) s)) ->
  wp (releasesleep l) Q s.
Proof.
  intros Ok [Hc Hi Hp] Hh Hne HQ. unfold releasesleep.
  wp_step. apply wp_acquire; [done|]. wp_step. apply wp_upd.
  set (s1 := sl_set l _ _).
  assert (Hs1 : held s1 = sl_lk l :: held s) by (unfold s1; by rewrite sl_set_held).
  assert (Hc1 : cur s1 = Some i) by (unfold s1; by rewrite sl_set_cur).
  assert (Hp1 : procs s1 = procs s) by (unfold s1; by rewrite sl_set_procs).
  wp_step. apply wp_wakeup.
  { intros j Hj. rewrite Hs1. pose proof (Hp j). pose proof (Hne j). set_solver. }
  rewrite Hc1, Hp1. eapply wp_release; [done|done|].
  unfold s1. rewrite sl_held_comm by done. set (s2 := sl_set l _ s) in *.
  assert (Hs2 : held s2 = held s) by (unfold s2; by rewrite sl_set_held).
  replace (set_held (held s) (set_procs (woken (Some i) (sl_chan l) 0 NPROC (procs s))
    (set_held (sl_lk l :: held s) s2)))
    with (set_procs (woken (Some i) (sl_chan l) 0 NPROC (procs s)) s2); [done|].
  rewrite <- Hs2. by destruct s2.
Qed.

Lemma wp_holdingsleep l s i (Q : bool -> kst -> Prop) :
  sl_ok l -> running s i -> sl_lk l ∉ held s ->
  Q (sl_locked (sl_get l s) && (sl_pid (sl_get l s) =? p_pid (procat i s))) s ->
  wp (holdingsleep l) Q s.
Proof.
  intros Ok [Hc Hi Hp] Hh HQ. unfold holdingsleep.
  wp_step. apply wp_acquire; [done|]. do 2 wp_step. rewrite sl_get_held by done.
  wp_step. eapply wp_myproc_; [done|]. wp_step. apply wp_get.
  wp_step. eapply wp_release; [done|done|]. wp_step. by destruct s.
Qed.

End Sleeplock.
