(* ===== verification/Bio.v ===== *)
(** [kernel/bio.c]: the buffer cache.  Buffers are entries of [bufs]; index [NBUF]
    is [bcache.head], and [b_next]/[b_prev] thread the LRU list through it. *)
From S2P Require Import Prelude Types Str Kalloc Vm Sched Sleeplock.

Definition buf0 : buf := Buf false false 0 0 (SleepLock false 0) 0 0 0 (replicate 1024 0).
#[global] Instance buf_inhabited : Inhabited buf := populate buf0.

Abbreviation BHEAD := NBUF (only parsing).

Section Bio.
Context {L : Linker}.

Definition bufat (i : nat) (s : kst) : buf := bufs s !!! i.
Definition getb {A} (i : nat) (f : buf -> A) : M A := get (fun s => f (bufat i s)).
Definition updb (i : nat) (f : buf -> buf) : M unit :=
  upd (fun s => set_bufs (alter f i (bufs s)) s).

Definition buf_sl (i : nat) : slref :=
  SlRef (fun s => b_lock (bufat i s))
        (fun v s => set_bufs (alter (set_b_lock v) i (bufs s)) s)
        (LkBuf i) (ChBufLock i).

(** The block device, as [virtio_disk_rw] presents it: it returns when the device
    has read the block into the buffer, or written the buffer to the block.  [Virtio] has
    the driver's queue. *)
Definition dget (d : gmap Z (list Z)) (b : Z) : list Z := default (replicate 1024 0) (d !! b).

(** [sleep(b, &disk.vdisk_lock)] by a process that the device's interrupt wakes: the locks
    [sleep] and [sched] take, test and give back.  When the process runs again its state is
    [RUNNING] and it waits for nothing, as before. *)
Definition vdisk_wait : M unit :=
  let! p := myproc_ in
  acquire (LkProc p) ;;;
  release LkVdisk ;;;
  let! l := get held in
  if negb (length l =? 1)%nat then panic "sched locks"
  else
    release (LkProc p) ;;;
    acquire LkVdisk.

Definition virtio_disk_rw (i : nat) (write : bool) : M unit :=
  let! b := getb i (fun b => b) in
  acquire LkVdisk ;;;
  vdisk_wait ;;;
  (if write then
     upd (fun s => set_dwrites (dwrites s ++ [(b_blockno b, b_data b)])
                     (set_disk (<[b_blockno b := b_data b]> (disk s)) s))
   else
     let! d := get disk in
     updb i (set_b_data (dget d (b_blockno b)))) ;;;
  release LkVdisk.

(** ** The code *)

Fixpoint binit_loop (b k : nat) : M unit :=
  match k with
  | O => ret tt
  | S k' =>
      let! hn := getb BHEAD b_next in
      updb b (set_b_next hn) ;;;
      updb b (set_b_prev BHEAD) ;;;
      initsleeplock (buf_sl b) ;;;
      let! hn := getb BHEAD b_next in
      updb hn (set_b_prev b) ;;;
      updb BHEAD (set_b_next b) ;;;
      binit_loop (S b) k'
  end.

Definition binit : M unit :=
  updb BHEAD (set_b_prev BHEAD) ;;;
  updb BHEAD (set_b_next BHEAD) ;;;
  binit_loop 0 NBUF.

(** The two scans of [bget]: for the block, most recently used first, and for an
    unused buffer, least recently used first. *)
Fixpoint bget_find (dev blockno : Z) (b fuel : nat) : M (option nat) :=
  if (b =? BHEAD)%nat then ret None
  else
    match fuel with
    | O => diverge
    | S fuel' =>
        let! x := getb b (fun x => x) in
        if (b_dev x =? dev) && (b_blockno x =? blockno) then ret (Some b)
        else bget_find dev blockno (b_next x) fuel'
    end.

Fixpoint bget_unused (b fuel : nat) : M (option nat) :=
  if (b =? BHEAD)%nat then ret None
  else
    match fuel with
    | O => diverge
    | S fuel' =>
        let! x := getb b (fun x => x) in
        if b_refcnt x =? 0 then ret (Some b) else bget_unused (b_prev x) fuel'
    end.

Definition bget (dev blockno : Z) : M nat :=
  acquire LkBcache ;;;
  let! hn := getb BHEAD b_next in
  let! r := bget_find dev blockno hn NBUF in
  match r with
  | Some b =>
      updb b (fun x => set_b_refcnt (u32 (b_refcnt x + 1)) x) ;;;
      release LkBcache ;;;
      acquiresleep (buf_sl b) ;;;
      ret b
  | None =>
      let! hp := getb BHEAD b_prev in
      let! r := bget_unused hp NBUF in
      match r with
      | Some b =>
          updb b (set_b_dev dev) ;;;
          updb b (set_b_blockno blockno) ;;;
          updb b (set_b_valid false) ;;;
          updb b (set_b_refcnt 1) ;;;
          release LkBcache ;;;
          acquiresleep (buf_sl b) ;;;
          ret b
      | None => panic "bget: no buffers"
      end
  end.

Definition bread (dev blockno : Z) : M nat :=
  let! b := bget dev blockno in
  let! v := getb b b_valid in
  (if v then ret tt
   else virtio_disk_rw b false ;;; updb b (set_b_valid true)) ;;;
  ret b.

Definition bwrite (b : nat) : M unit :=
  let! h := holdingsleep (buf_sl b) in
  if negb h then panic "bwrite" else virtio_disk_rw b true.

(** No one is waiting for the buffer: it goes to the front of the list. *)
Definition to_front (b : nat) : M unit :=
  let! nx := getb b b_next in
  let! pv := getb b b_prev in
  updb nx (set_b_prev pv) ;;;
  let! pv := getb b b_prev in
  let! nx := getb b b_next in
  updb pv (set_b_next nx) ;;;
  let! hn := getb BHEAD b_next in
  updb b (set_b_next hn) ;;;
  updb b (set_b_prev BHEAD) ;;;
  let! hn := getb BHEAD b_next in
  updb hn (set_b_prev b) ;;;
  updb BHEAD (set_b_next b).

Definition brelse (b : nat) : M unit :=
  let! h := holdingsleep (buf_sl b) in
  if negb h then panic "brelse"
  else
    releasesleep (buf_sl b) ;;;
    acquire LkBcache ;;;
    updb b (fun x => set_b_refcnt (u32 (b_refcnt x - 1)) x) ;;;
    let! r := getb b b_refcnt in
    (if r =? 0 then to_front b else ret tt) ;;;
    release LkBcache.

Definition bpin (b : nat) : M unit :=
  acquire LkBcache ;;;
  updb b (fun x => set_b_refcnt (u32 (b_refcnt x + 1)) x) ;;;
  release LkBcache.

Definition bunpin (b : nat) : M unit :=
  acquire LkBcache ;;;
  updb b (fun x => set_b_refcnt (u32 (b_refcnt x - 1)) x) ;;;
  release LkBcache.

(** ** The LRU list

    [seg nx pv x l y]: following [nx] from [x] visits [l] and then [y], and [pv]
    retraces it. *)
Fixpoint seg (nx pv : nat -> nat) (x : nat) (l : list nat) (y : nat) : Prop :=
  match l with
  | [] => nx x = y /\ pv y = x
  | z :: l' => (nx x = z /\ pv z = x) /\ seg nx pv z l' y
  end.

Lemma seg_app nx pv x l1 z l2 y :
  seg nx pv x (l1 ++ z :: l2) y <-> seg nx pv x l1 z /\ seg nx pv z l2 y.
Proof. revert x. induction l1 as [|w l1 IH]; intros x; cbn; [tauto|]. rewrite IH. tauto. Qed.

Lemma seg_frame nx pv nx' pv' x l y :
  (forall i, i ∈ x :: l -> nx' i = nx i) -> (forall i, i ∈ l ++ [y] -> pv' i = pv i) ->
  seg nx pv x l y -> seg nx' pv' x l y.
Proof.
  revert x. induction l as [|z l IH]; intros x Hn Hp; cbn.
  - intros [Ex Ey]. rewrite Hn, Hp by set_solver. done.
  - intros [[Ex Ez] Hs]. split; [by rewrite Hn, Hp by set_solver|].
    apply IH; [intros i Hi; apply Hn; set_solver|intros i Hi; apply Hp; set_solver|done].
Qed.

Definition fupd (f : nat -> nat) (i v : nat) : nat -> nat := fun j => if decide (j = i) then v else f j.

Lemma fupd_eq f i v : fupd f i v i = v.
Proof. unfold fupd. by rewrite decide_True. Qed.
Lemma fupd_ne f i v j : j <> i -> fupd f i v j = f j.
Proof. intros. unfold fupd. by rewrite decide_False. Qed.

(** Side conditions of [seg_frame] on updated functions. *)
Ltac seg_side := intros ? ?; rewrite ?fupd_ne by set_solver; done.

(** The two halves of moving a buffer to the front. *)
Lemma seg_unlink nx pv h o1 b o2 :
  NoDup (h :: o1 ++ b :: o2) -> seg nx pv h (o1 ++ b :: o2) h ->
  seg (fupd nx (pv b) (nx b)) (fupd pv (nx b) (pv b)) h (o1 ++ o2) h.
Proof.
  intros Hnd [H1 H2]%seg_app.
  rewrite NoDup_cons, NoDup_app, NoDup_cons in Hnd.
  destruct Hnd as (Hh & Hd1 & Hx & Hb & Hd2).
  assert (Hright : forall a, pv b = a -> a ∉ o2 ->
    seg nx pv b o2 h -> (forall x, x ∈ o2 -> x <> h) ->
    seg (fupd nx a (nx b)) (fupd pv (nx b) a) a o2 h).
  { intros a Ea Ha Hs Hoh. destruct o2 as [|c q]; cbn in *.
    - destruct Hs as [-> _]. by rewrite !fupd_eq.
    - destruct Hs as [[-> _] Hs]. rewrite !fupd_eq. split; [done|].
      apply NoDup_cons in Hd2 as [Hcq _].
      eapply seg_frame; [| |exact Hs]; [seg_side|].
      intros i Hi. rewrite fupd_ne; [done|]. intros ->.
      apply elem_of_app in Hi as [?| ->%list_elem_of_singleton]; [done|].
      by apply (Hoh h); [set_solver|]. }
  assert (Hoh : forall x, x ∈ o2 -> x <> h) by set_solver.
  destruct o1 as [|a p _] using rev_ind.
  - cbn in H1. destruct H1 as [Enx Epv]. rewrite Epv. cbn [app].
    apply Hright; [done|set_solver|done|done].
  - rewrite <- app_assoc. apply seg_app in H1 as [H1 [Ea Eb]]. rewrite Eb. cbn [app].
    rewrite NoDup_app in Hd1. destruct Hd1 as (Hp & Hpa & _).
    apply seg_app. split; [|apply Hright; [done|set_solver|done|done]].
    assert (nx b <> a /\ forall x, x ∈ p -> x <> nx b) as [Hna Hnp].
    { destruct o2 as [|c q]; cbn in H2; destruct H2 as [Hn _]; [|destruct Hn as [Hn _]];
        rewrite Hn; set_solver. }
    eapply seg_frame; [| |exact H1].
    + intros i Hi. rewrite fupd_ne; [done|]. set_solver.
    + intros i Hi. rewrite fupd_ne; [done|].
      apply elem_of_app in Hi as [?| ->%list_elem_of_singleton]; [by apply Hnp|done].
Qed.

Lemma seg_push nx pv h o b :
  b ∉ h :: o -> NoDup (h :: o) -> seg nx pv h o h ->
  let nx' := fupd (fupd nx b (nx h)) h b in
  let pv' := fupd (fupd pv b h) (nx h) b in
  seg nx' pv' h (b :: o) h.
Proof.
  intros Hb Hnd Hs nx' pv'. apply NoDup_cons in Hnd as [Hh Hd].
  assert (b <> h) by set_solver.
  destruct o as [|c q]; cbn in Hs |- *.
  - destruct Hs as [E _]. unfold nx', pv'. rewrite E.
    rewrite fupd_eq, (fupd_ne _ h b b), !fupd_eq, fupd_ne, fupd_eq by done. done.
  - destruct Hs as [[E Ec] Hs]. unfold nx', pv'. rewrite E.
    assert (b <> c) by set_solver. apply NoDup_cons in Hd as [Hcq _].
    rewrite fupd_eq, (fupd_ne _ h b b), !fupd_eq, (fupd_ne _ c b b), fupd_eq by done.
    split; [done|]. split; [done|].
    eapply seg_frame; [| |exact Hs]; intros i Hi; rewrite !fupd_ne; set_solver.
Qed.

(** ** The invariant of the cache *)

Definition nxt (bs : list buf) (i : nat) : nat := b_next (bs !!! i).
Definition prv (bs : list buf) (i : nat) : nat := b_prev (bs !!! i).

(** The LRU list holds every buffer once. *)
Definition lru (bs : list buf) (order : list nat) : Prop :=
  seg (nxt bs) (prv bs) BHEAD order BHEAD /\ order ≡ₚ seq 0 NBUF.

Definition holds (x : buf) (blockno : Z) : Prop := b_dev x = ROOTDEV /\ b_blockno x = blockno.
#[export] Instance holds_dec x blockno : Decision (holds x blockno).
Proof. unfold holds. apply _. Defined.

(** At most one buffer per block; an unreferenced buffer is unlocked, and if it is
    valid it agrees with the disk, so that recycling it loses nothing. *)
Record bio_inv (s : kst) : Prop := {
  bi_len : length (bufs s) = S NBUF;
  bi_lru : exists order, lru (bufs s) order;
  bi_uniq i j : (i < NBUF)%nat -> (j < NBUF)%nat -> b_dev (bufat i s) = ROOTDEV ->
    holds (bufat j s) (b_blockno (bufat i s)) -> i = j;
  bi_free i : (i < NBUF)%nat -> b_refcnt (bufat i s) = 0 -> sl_locked (b_lock (bufat i s)) = false;
  bi_ref i : (i < NBUF)%nat -> 0 <= b_refcnt (bufat i s) < 2 ^ 32;
  bi_data i : (i < NBUF)%nat -> length (b_data (bufat i s)) = 1024%nat;
  bi_clean i : (i < NBUF)%nat -> b_refcnt (bufat i s) = 0 -> b_valid (bufat i s) = true ->
    b_data (bufat i s) = dget (disk s) (b_blockno (bufat i s));
  bi_dev i : (i < NBUF)%nat -> b_valid (bufat i s) = true -> b_dev (bufat i s) = ROOTDEV;
  bi_disk b : length (dget (disk s) b) = 1024%nat
}.

(** What a reader of block [blockno] sees: the cached copy, else the disk's. *)
Definition bcontent (s : kst) (blockno : Z) : list Z :=
  match list_find (fun x => b_valid x = true /\ holds x blockno) (take NBUF (bufs s)) with
  | Some (_, x) => b_data x
  | None => dget (disk s) blockno
  end.

Lemma bufat_alter s i f j :
  (i < length (bufs s))%nat ->
  bufat j (set_bufs (alter f i (bufs s)) s) = if decide (i = j) then f (bufat i s) else bufat j s.
Proof.
  intros Hi. unfold bufat. cbn. case_decide as Hd.
  - subst. by apply list_lookup_total_alter_eq.
  - by rewrite list_lookup_total_alter_ne.
Qed.

Lemma bufs_lookup s i :
  bio_inv s -> (i < NBUF)%nat -> take NBUF (bufs s) !! i = Some (bufat i s).
Proof.
  intros I Hi. rewrite lookup_take_lt by done. apply list_lookup_lookup_total_lt.
  rewrite (bi_len _ I). lia.
Qed.

Lemma bcontent_hit s b i :
  bio_inv s -> (i < NBUF)%nat -> b_valid (bufat i s) = true ->
  holds (bufat i s) b -> bcontent s b = b_data (bufat i s).
Proof.
  intros I Hi Hv Hh. unfold bcontent. destruct (list_find _ _) as [[j x]|] eqn:E.
  - apply list_find_Some in E as (Hj & [_ Hx] & _).
    assert (j < NBUF)%nat as Hjn.
    { apply lookup_lt_Some in Hj. rewrite length_take in Hj. lia. }
    rewrite bufs_lookup in Hj by done. simplify_eq.
    destruct Hh as [Hd <-]. by rewrite (bi_uniq _ I i j Hi Hjn Hd Hx).
  - apply list_find_None in E. eapply Forall_lookup in E; [|by apply bufs_lookup]. naive_solver.
Qed.

Lemma bcontent_miss s b :
  bio_inv s ->
  (forall i, (i < NBUF)%nat -> b_valid (bufat i s) = true -> ~ holds (bufat i s) b) ->
  bcontent s b = dget (disk s) b.
Proof.
  intros I Hn. unfold bcontent. destruct (list_find _ _) as [[j x]|] eqn:E; [|done].
  apply list_find_Some in E as (Hj & [Hv Hx] & _).
  assert (j < NBUF)%nat as Hjn.
  { apply lookup_lt_Some in Hj. rewrite length_take in Hj. lia. }
  rewrite bufs_lookup in Hj by done. simplify_eq. by destruct (Hn j Hjn Hv).
Qed.

(** Either a valid buffer holds the block or none does. *)
Lemma cached_dec s b :
  {i | (i < NBUF)%nat /\ holds (bufat i s) b} +
  {forall i, (i < NBUF)%nat -> ~ holds (bufat i s) b}.
Proof.
  destruct (list_find (fun i => holds (bufat i s) b) (seq 0 NBUF)) as [[k i]|] eqn:E.
  - left. exists i. apply list_find_Some in E as (Hk & Hh & _).
    apply lookup_seq in Hk as [-> ?]. split; [lia|done].
  - right. intros i Hi. apply list_find_None in E.
    eapply Forall_forall in E; [done|]. apply elem_of_seq. lia.
Qed.

Lemma bcontent_len s b : bio_inv s -> length (bcontent s b) = 1024%nat.
Proof.
  intros I. unfold bcontent. destruct (list_find _ _) as [[j x]|] eqn:E; [|apply (bi_disk _ I)].
  apply list_find_Some in E as (Hj & _).
  assert (j < NBUF)%nat as Hjn.
  { apply lookup_lt_Some in Hj. rewrite length_take in Hj. lia. }
  rewrite bufs_lookup in Hj by done. simplify_eq. by apply (bi_data _ I).
Qed.

(** ** [bget] *)

Lemma wp_bget_find b l : forall s x fuel,
  seg (nxt (bufs s)) (prv (bufs s)) x l BHEAD -> Forall (fun i => i < NBUF)%nat l ->
  (length l <= fuel)%nat ->
  wp (bget_find ROOTDEV b (nxt (bufs s) x) fuel) (fun r s' => s' = s /\
    match r with
    | Some i => i ∈ l /\ holds (bufat i s) b
    | None => forall i, i ∈ l -> ~ holds (bufat i s) b
    end) s.
Proof.
  induction l as [|z l IH]; intros s x fuel Hs Hl Hf; cbn in Hs.
  - destruct Hs as [-> _]. destruct fuel; cbn [bget_find]; rewrite Nat.eqb_refl; apply wp_ret;
      (split; [done|]; set_solver).
  - destruct Hs as [[-> _] Hs]. apply Forall_cons in Hl as [Hz Hl].
    destruct fuel as [|fuel]; cbn in Hf; [lia|]. cbn [bget_find].
    rewrite (proj2 (Nat.eqb_neq z NBUF)) by lia. wp_step. apply wp_get.
    destruct (_ && _) eqn:E.
    + apply wp_ret. split; [done|]. split; [set_solver|].
      apply andb_true_iff in E as [?%Z.eqb_eq ?%Z.eqb_eq]. done.
    + eapply wp_mono; [apply (IH s z fuel); [done|done|lia]|].
      intros [i|] s' [-> Hr]; (split; [done|]); [set_solver|].
      intros i [->|Hi]%elem_of_cons; [|by apply Hr]. intros [Hd Hb].
      rewrite Hd, Hb, !Z.eqb_refl in E. done.
Qed.

Lemma wp_bget_unused l : forall s y fuel,
  seg (nxt (bufs s)) (prv (bufs s)) BHEAD l y -> Forall (fun i => i < NBUF)%nat l ->
  (length l <= fuel)%nat ->
  wp (bget_unused (prv (bufs s) y) fuel) (fun r s' => s' = s /\
    match r with
    | Some i => i ∈ l /\ b_refcnt (bufat i s) = 0
    | None => forall i, i ∈ l -> b_refcnt (bufat i s) <> 0
    end) s.
Proof.
  induction l as [|z l IH] using rev_ind; intros s y fuel Hs Hl Hf.
  - cbn in Hs. destruct Hs as [_ ->]. destruct fuel; cbn [bget_unused]; rewrite Nat.eqb_refl;
      apply wp_ret; (split; [done|]; set_solver).
  - apply seg_app in Hs as [Hs [_ ->]]. apply Forall_app in Hl as [Hl Hz].
    apply Forall_cons in Hz as [Hz _]. rewrite length_app in Hf.
    destruct fuel as [|fuel]; cbn in Hf; [lia|]. cbn [bget_unused].
    rewrite (proj2 (Nat.eqb_neq z NBUF)) by lia. wp_step. apply wp_get.
    destruct (Z.eqb_spec (b_refcnt (bufat z s)) 0).
    + apply wp_ret. split; [done|]. set_solver.
    + eapply wp_mono; [apply (IH s z fuel); [done|done|lia]|].
      intros [i|] s' [-> Hr]; (split; [done|]); [set_solver|].
      intros i [Hi| ->%list_elem_of_singleton]%elem_of_app; [by apply Hr|done].
Qed.

Lemma lru_range bs order i : lru bs order -> i ∈ order <-> (i < NBUF)%nat.
Proof. intros [_ ->]. rewrite elem_of_seq. lia. Qed.

Lemma lru_forall bs order : lru bs order -> Forall (fun i => i < NBUF)%nat order /\ length order = NBUF.
Proof.
  intros Hl. split.
  - apply Forall_forall. intros i Hi. by eapply lru_range in Hi.
  - destruct Hl as [_ ->]. apply length_seq.
Qed.

(** Fields other than the links do not matter to the list. *)
Lemma lru_alter bs order i f :
  (forall x, b_next (f x) = b_next x /\ b_prev (f x) = b_prev x) ->
  lru bs order -> lru (alter f i bs) order.
Proof.
  intros Hf [Hs Hp]. split; [|done].
  assert (Hbs : forall j, b_next (alter f i bs !!! j) = b_next (bs !!! j) /\
                          b_prev (alter f i bs !!! j) = b_prev (bs !!! j)).
  { intros j. destruct (decide (i = j)) as [->|]; [|by rewrite list_lookup_total_alter_ne].
    destruct (decide (j < length bs)%nat).
    - by rewrite list_lookup_total_alter_eq.
    - by rewrite list_alter_ge by lia. }
  eapply seg_frame; [| |exact Hs]; intros j _; apply Hbs.
Qed.

(** The cache waits for the disk, so it is used with no spinlock held. *)
Definition bio_locks (s : kst) : Prop := held s = [].

Lemma bl_free s l : bio_locks s -> l ∉ held s.
Proof. intros ->. apply not_elem_of_nil. Qed.

(** The wait for the disk keeps everything but the lock it is called with. *)
Lemma wp_vdisk_wait s me (Q : unit -> kst -> Prop) :
  cur s = Some me -> held s = [LkVdisk] -> Q tt s -> wp vdisk_wait Q s.
Proof.
  intros Hc Hh HQ. unfold vdisk_wait. wp_step. eapply wp_myproc_; [done|].
  wp_step. apply wp_acquire; [rewrite Hh; set_solver|].
  wp_step. unfold wp at 1, release, holding. cbn [held set_held].
  rewrite bool_decide_eq_true_2 by (rewrite Hh; set_solver).
  rewrite Hh, filter_cons_True by done. rewrite filter_cons_False by naive_solver. rewrite filter_nil.
  wp_step. apply wp_get. cbn [held set_held length Nat.eqb negb].
  wp_step. eapply wp_release; [done|set_solver|]. apply wp_acquire; [set_solver|].
  cbn [held set_held]. replace (set_held _ _) with s; [done|]. destruct s. cbn in *. by subst.
Qed.

Lemma wp_virtio_read s me i (Q : unit -> kst -> Prop) : cur s = Some me -> bio_locks s ->
  Q tt (set_bufs (alter (set_b_data (dget (disk s) (b_blockno (bufat i s)))) i (bufs s)) s) ->
  wp (virtio_disk_rw i false) Q s.
Proof.
  intros Hc Hh HQ. red in Hh. unfold virtio_disk_rw. wp_step. apply wp_get.
  wp_step. apply wp_acquire; [rewrite Hh; set_solver|]. rewrite Hh.
  wp_step. eapply wp_vdisk_wait; [done|done|]. wp_step. wp_step. apply wp_get. apply wp_upd.
  eapply wp_release; [done|set_solver|]. by destruct s; cbn in *; subst.
Qed.

Lemma wp_virtio_write s me i (Q : unit -> kst -> Prop) : cur s = Some me -> bio_locks s ->
  Q tt (set_dwrites (dwrites s ++ [(b_blockno (bufat i s), b_data (bufat i s))])
    (set_disk (<[b_blockno (bufat i s) := b_data (bufat i s)]> (disk s)) s)) ->
  wp (virtio_disk_rw i true) Q s.
Proof.
  intros Hc Hh HQ. red in Hh. unfold virtio_disk_rw. wp_step. apply wp_get.
  wp_step. apply wp_acquire; [rewrite Hh; set_solver|]. rewrite Hh.
  wp_step. eapply wp_vdisk_wait; [done|done|]. wp_step. apply wp_upd.
  eapply wp_release; [done|set_solver|]. by destruct s; cbn in *; subst.
Qed.

Lemma buf_sl_ok i : sl_ok (buf_sl i).
Proof. by split. Qed.

(** The buffer that [bget] settles on, as it leaves the cache's lock. *)
Record bgot (s : kst) me b (i : nat) (s' : kst) : Prop := {
  bg_lt : (i < NBUF)%nat;
  bg_state : s' = set_bufs (bufs s') s;
  bg_len : length (bufs s') = length (bufs s);
  bg_lru : exists order, lru (bufs s') order;
  bg_other j : j <> i -> bufat j s' = bufat j s;
  bg_buf : (holds (bufat i s) b /\ bufat i s' =
              set_b_lock (SleepLock true (p_pid (procat me s)))
                (set_b_refcnt (b_refcnt (bufat i s) + 1) (bufat i s))) \/
           ((forall j, (j < NBUF)%nat -> ~ holds (bufat j s) b) /\
            b_refcnt (bufat i s) = 0 /\ bufat i s' =
              set_b_lock (SleepLock true (p_pid (procat me s))) (set_b_refcnt 1
                (set_b_valid false (set_b_blockno b (set_b_dev ROOTDEV (bufat i s))))))
}.

(** The end of [bget], after buffer [i] was changed by [g]. *)
Lemma wp_bget_lock s me i g (Q : nat -> kst -> Prop) :
  bio_inv s -> running s me -> LkBuf i ∉ held s -> (i < NBUF)%nat ->
  (forall x, b_next (g x) = b_next x /\ b_prev (g x) = b_prev x) ->
  sl_locked (b_lock (g (bufat i s))) = false ->
  (forall s', s' = set_bufs (bufs s') s -> length (bufs s') = length (bufs s) -> (exists order, lru (bufs s') order) ->
     (forall j, j <> i -> bufat j s' = bufat j s) ->
     bufat i s' = set_b_lock (SleepLock true (p_pid (procat me s))) (g (bufat i s)) -> Q i s') ->
  wp (acquiresleep (buf_sl i) ;;; ret i) Q (set_bufs (alter g i (bufs s)) s).
Proof.
  intros I R Hb Hi Hg Hl HQ. destruct (bi_lru _ I) as [order Ho].
  assert (Hlen : (i < length (bufs s))%nat) by (rewrite (bi_len _ I); lia).
  set (bs := alter g i (bufs s)).
  assert (Hbi : bufat i (set_bufs bs s) = g (bufat i s)).
  { unfold bs. rewrite bufat_alter by done. by rewrite decide_True. }
  wp_step. eapply (wp_acquiresleep _ _ me); [apply buf_sl_ok|by destruct R|exact Hb| |].
  { cbn. by rewrite Hbi. }
  apply wp_ret. apply HQ; cbn.
  - done.
  - unfold bs. by rewrite !length_alter.
  - exists order. apply lru_alter; [done|]. by apply lru_alter.
  - intros j Hj. unfold bufat. cbn. unfold bs. by rewrite !list_lookup_total_alter_ne.
  - unfold bufat at 1. cbn. rewrite list_lookup_total_alter_eq by (unfold bs; by rewrite length_alter).
    change (bs !!! i) with (bufat i (set_bufs bs s)). by rewrite Hbi.
Qed.

Lemma wp_bget s me b :
  bio_inv s -> running s me -> bio_locks s ->
  (forall i, (i < NBUF)%nat -> holds (bufat i s) b ->
     sl_locked (b_lock (bufat i s)) = false /\ b_refcnt (bufat i s) + 1 < 2 ^ 32) ->
  (exists i, (i < NBUF)%nat /\ (holds (bufat i s) b \/ b_refcnt (bufat i s) = 0)) ->
  wp (bget ROOTDEV b) (bgot s me b) s.
Proof.
  intros I R Hlk Hun (j0 & Hj0 & Hav). pose proof (bl_free s LkBcache Hlk) as Hc.
  assert (Hb : forall i, LkBuf i ∉ held s) by (intros; by apply bl_free). destruct (bi_lru _ I) as [order Ho].
  destruct (lru_forall _ _ Ho) as [Hof Hol]. pose proof Ho as [Hseg Hperm].
  unfold bget. wp_step. apply wp_acquire; [done|]. wp_step. apply wp_get.
  set (s1 := set_held _ s). wp_step.
  eapply wp_mono; [apply (wp_bget_find b order s1 BHEAD NBUF); [done|done|lia]|].
  intros [i|] s2 [-> Hr].
  - destruct Hr as [Hi Hh]. apply (lru_range _ _ _ Ho) in Hi. pose proof (bi_ref _ I i Hi).
    destruct (Hun i Hi Hh).
    wp_step. apply wp_upd. wp_step. eapply wp_release; [done|done|]. subst s1. cbn [held bufs set_bufs set_held].
    match goal with |- context [alter ?f i (bufs s)] => set (g := f) end.
    replace (set_held _ _) with (set_bufs (alter g i (bufs s)) s) by (by destruct s).
    apply (wp_bget_lock s me); [done..|]. intros s' E El Elru Eo Ei. split; [done..|].
    left. split; [done|]. rewrite Ei. unfold g. by rewrite u32_small by lia.
  - wp_step. apply wp_get. wp_step.
    eapply wp_mono; [apply (wp_bget_unused order s1 BHEAD NBUF); [done|done|lia]|].
    intros [i|] s2 [-> Hu].
    2:{ exfalso. destruct Hav as [Hh|H0].
        - apply (Hr j0); [by apply (lru_range _ _ _ Ho)|done].
        - apply (Hu j0); [by apply (lru_range _ _ _ Ho)|done]. }
    destruct Hu as [Hi H0]. apply (lru_range _ _ _ Ho) in Hi.
    do 4 (wp_step; apply wp_upd). wp_step. eapply wp_release; [done|done|].
    subst s1. cbn [held bufs set_bufs set_held]. rewrite !list_alter_alter.
    set (g := fun x => set_b_refcnt 1 _).
    replace (set_held _ _) with (set_bufs (alter g i (bufs s)) s) by (by destruct s).
    apply (wp_bget_lock s me); [done|done|done|done|done|cbn; by apply I|]. intros s' E El Elru Eo Ei. split; [done..|].
    right. split_and!; [|done|exact Ei]. intros j Hj. apply Hr. by apply (lru_range _ _ _ Ho).
Qed.

(** ** The cache as its users see it *)

(** [bread] returns a locked buffer with the block's content; to every reader the
    blocks are as before. *)
Record bread_post (s : kst) me b (i : nat) (s' : kst) : Prop := {
  br_lt : (i < NBUF)%nat;
  br_state : s' = set_bufs (bufs s') s;
  br_inv : bio_inv s';
  br_other j : j <> i -> bufat j s' = bufat j s;
  br_holds : holds (bufat i s') b;
  br_valid : b_valid (bufat i s') = true;
  br_lock : b_lock (bufat i s') = SleepLock true (p_pid (procat me s));
  br_data : b_data (bufat i s') = bcontent s b;
  br_ref : b_refcnt (bufat i s') = b_refcnt (bufat i s) + 1;
  br_from : holds (bufat i s) b \/ b_refcnt (bufat i s) = 0;
  br_content b' : bcontent s' b' = bcontent s b'
}.

(** When only buffer [i] changes, to a valid copy of block [b] with the
    content that block had, every reader sees the same blocks. *)
Lemma bcontent_refill s s' b i :
  bio_inv s -> bio_inv s' -> (i < NBUF)%nat -> disk s' = disk s ->
  (forall j, j <> i -> bufat j s' = bufat j s) ->
  holds (bufat i s') b -> b_valid (bufat i s') = true -> b_data (bufat i s') = bcontent s b ->
  (holds (bufat i s) b \/ b_refcnt (bufat i s) = 0) ->
  forall b', bcontent s' b' = bcontent s b'.
Proof.
  intros I I' Hi Hdk Ho Hh Hv Hc Hfrom b'.
  destruct (decide (b' = b)) as [->|Hne].
  { rewrite (bcontent_hit s' b i) by done. done. }
  destruct (cached_dec s' b') as [(j & Hj & Hhj)|Hnone].
  - assert (j <> i) as Hji.
    { intros ->. destruct Hhj, Hh. congruence. }
    rewrite (Ho j Hji) in Hhj. destruct (b_valid (bufat j s)) eqn:Hvj.
    + rewrite (bcontent_hit s' b' j), (bcontent_hit s b' j); rewrite ?Ho by done; done.
    + assert (Hm : forall s0, bio_inv s0 -> bufat j s0 = bufat j s -> forall k, (k < NBUF)%nat ->
        b_valid (bufat k s0) = true -> ~ holds (bufat k s0) b').
      { intros s0 I0 E0 k Hk Hvk Hhk. assert (j = k) as <-; [|congruence].
        destruct Hhj as [Hja Hjb]. apply (bi_uniq _ I0 j k); [done|done|by rewrite E0|].
        by rewrite E0, Hjb. }
      rewrite (bcontent_miss s'), (bcontent_miss s), Hdk; [done|done|by apply Hm|done|].
      apply Hm; [done|by apply Ho].
  - rewrite (bcontent_miss s') by (done || intros; by apply Hnone). rewrite Hdk.
    destruct (decide (holds (bufat i s) b' /\ b_valid (bufat i s) = true)) as [[Hhi Hvi]|Hni].
    + rewrite (bcontent_hit s b' i) by done. destruct Hfrom as [[? ?]|H0].
      { destruct Hhi. congruence. }
      rewrite (bi_clean _ I i Hi H0 Hvi). by destruct Hhi as [_ ->].
    + rewrite (bcontent_miss s); [done|done|]. intros k Hk Hvk Hhk.
      destruct (decide (k = i)) as [->|Hki]; [by apply Hni|].
      apply (Hnone k Hk). by rewrite Ho.
Qed.

(** Only buffer [i] changed; the list may have been reordered. *)
Record one_buf (s : kst) (i : nat) (s' : kst) : Prop := {
  ob_state : s' = set_bufs (bufs s') s;
  ob_len : length (bufs s') = length (bufs s);
  ob_lru : exists order, lru (bufs s') order;
  ob_other j : j <> i -> bufat j s' = bufat j s
}.

(** Reading the block from the disk. *)
Lemma wp_fill s s1 me i (Q : unit -> kst -> Prop) : one_buf s i s1 -> (i < length (bufs s1))%nat ->
  running s me -> bio_locks s ->
  (forall s2, one_buf s i s2 ->
    bufat i s2 = set_b_valid true (set_b_data (dget (disk s1) (b_blockno (bufat i s1))) (bufat i s1)) -> Q tt s2) ->
  wp (virtio_disk_rw i false ;;; updb i (set_b_valid true)) Q s1.
Proof.
  intros [E1 Hlen [order Hl] Ho] Hli R Hlk HQ. wp_step.
  eapply (wp_virtio_read s1 me); [rewrite E1; apply R|red; rewrite E1; exact Hlk|]. apply wp_upd. cbn [bufs set_bufs]. rewrite list_alter_alter.
  set (bs := alter _ i (bufs s1)). apply HQ; [split|].
  - rewrite E1. done.
  - cbn. unfold bs. by rewrite length_alter.
  - exists order. by apply lru_alter.
  - intros j Hj. unfold bufat. cbn. unfold bs. rewrite list_lookup_total_alter_ne by done. by apply Ho.
  - unfold bufat at 1. cbn. unfold bs. by rewrite list_lookup_total_alter_eq.
Qed.

Lemma bio_inv_one s i b s2 : bio_inv s -> one_buf s i s2 ->
  holds (bufat i s2) b -> length (b_data (bufat i s2)) = Z.to_nat BSIZE -> 0 < b_refcnt (bufat i s2) < 2 ^ 32 ->
  (forall j, (j < NBUF)%nat -> j <> i -> ~ holds (bufat j s) b) -> bio_inv s2.
Proof.
  intros [Il Iu Iq If Ir Id Ic Iv Ik] [E2 Hlen2 Hlru2 Ho2] Hh2 Hdt2 Hr2 Honly.
  assert (Ed : disk s2 = disk s) by (by rewrite E2). split.
  - congruence.
  - done.
  - intros j k Hj Hk Hdj Hhk.
    destruct (decide (j = i)) as [->|Hji], (decide (k = i)) as [->|Hki]; [done| | |].
    + exfalso. destruct Hh2 as [Hh2a Hh2b]. rewrite (Ho2 k), Hh2b in Hhk by done. by apply (Honly k).
    + exfalso. rewrite (Ho2 j) in Hhk by done. apply (Honly j); [done|done|].
      rewrite (Ho2 j) in Hdj by done. destruct Hhk, Hh2. split; congruence.
    + rewrite (Ho2 j), (Ho2 k) in Hhk by done. rewrite (Ho2 j) in Hdj by done. by apply Iq.
  - intros j Hj. destruct (decide (j = i)) as [->|Hji]; [lia|rewrite Ho2 by done; by apply If].
  - intros j Hj. destruct (decide (j = i)) as [->|Hji]; [lia|rewrite Ho2 by done; by apply Ir].
  - intros j Hj. destruct (decide (j = i)) as [->|Hji]; [done|rewrite Ho2 by done; by apply Id].
  - intros j Hj. rewrite Ed. destruct (decide (j = i)) as [->|Hji]; [lia|rewrite Ho2 by done; by apply Ic].
  - intros j Hj. destruct (decide (j = i)) as [->|Hji]; [by destruct Hh2|rewrite Ho2 by done; by apply Iv].
  - intros b'. rewrite Ed. apply Ik.
Qed.

(** From the final buffer, the postcondition. *)
Lemma bread_done s me b i s2 : bio_inv s -> (i < NBUF)%nat -> one_buf s i s2 ->
  holds (bufat i s2) b -> b_valid (bufat i s2) = true ->
  b_lock (bufat i s2) = SleepLock true (p_pid (procat me s)) ->
  b_data (bufat i s2) = bcontent s b ->
  b_refcnt (bufat i s2) = b_refcnt (bufat i s) + 1 -> b_refcnt (bufat i s) + 1 < 2 ^ 32 ->
  (holds (bufat i s) b \/ b_refcnt (bufat i s) = 0) ->
  (forall j, (j < NBUF)%nat -> j <> i -> ~ holds (bufat j s) b) ->
  bread_post s me b i s2.
Proof.
  intros I Hi O Hh2 Hv2 Hl2 Hdt2 Hr2 Hr2' Hfrom Honly. pose proof (bi_ref _ I i Hi) as Hri.
  assert (I2 : bio_inv s2) by (eapply bio_inv_one; try done; [rewrite Hdt2; by apply bcontent_len|lia]).
  destruct O as [E2 Hlen2 Hlru2 Ho2]. split; try done. eapply bcontent_refill; try done. by rewrite E2.
Qed.

Lemma wp_bread s me b :
  bio_inv s -> running s me -> bio_locks s ->
  (forall i, (i < NBUF)%nat -> holds (bufat i s) b ->
     sl_locked (b_lock (bufat i s)) = false /\ b_refcnt (bufat i s) + 1 < 2 ^ 32) ->
  (exists i, (i < NBUF)%nat /\ (holds (bufat i s) b \/ b_refcnt (bufat i s) = 0)) ->
  wp (bread ROOTDEV b) (bread_post s me b) s.
Proof.
  intros I R Hlk Hun Hav. unfold bread. wp_step.
  eapply wp_mono; [by apply (wp_bget s me)|].
  intros i s1 [Hi E1 Hlen Hlru Ho Hbuf]. wp_step. apply wp_get.
  assert (Hli : (i < length (bufs s1))%nat) by (rewrite Hlen, (bi_len _ I); lia).
  assert (Hd1 : disk s1 = disk s) by (by rewrite E1). assert (O1 : one_buf s i s1) by done.
  destruct Hbuf as [[Hh Eb]|(Hnone & H0 & Eb)].
  - destruct (Hun i Hi Hh) as [Hul Hr].
    assert (Honly : forall j, (j < NBUF)%nat -> j <> i -> ~ holds (bufat j s) b).
    { intros j Hj Hji Hhj. apply Hji. symmetry. destruct Hh as [Hha Hhb], Hhj.
      apply (bi_uniq _ I i j Hi Hj); [done|split; congruence]. }
    rewrite Eb. cbn [b_valid set_b_lock set_b_refcnt].
    destruct (b_valid (bufat i s)) eqn:Hv.
    + do 3 wp_step. apply bread_done; rewrite ?Eb; try done; [|by left]. symmetry. by apply bcontent_hit.
    + wp_step. apply (wp_fill s s1 me); [done|done|done|done|]. intros s2 O2 Eb2. wp_step.
      rewrite Eb in Eb2. destruct Hh as [Hh1 Hh2]. apply bread_done; rewrite ?Eb2; try done; [|by left].
      rewrite Hd1. cbn. rewrite Hh2. symmetry. apply bcontent_miss; [done|].
      intros j Hj Hvj Hhj. destruct (decide (j = i)) as [->|]; [congruence|by apply (Honly j)].
  - rewrite Eb. cbn [b_valid set_b_lock set_b_refcnt set_b_valid].
    wp_step. apply (wp_fill s s1 me); [done|done|done|done|]. intros s2 O2 Eb2. wp_step. rewrite Eb in Eb2.
    apply bread_done; rewrite ?Eb2; try done; [|by rewrite H0|lia|by right|intros j Hj _; by apply Hnone].
    rewrite Hd1. cbn. symmetry. apply bcontent_miss; [done|]. intros j Hj _. by apply Hnone.
Qed.

(** ** Operations on a buffer in hand *)

(** A buffer without its links. *)
Definition core (x : buf) : buf := set_b_prev 0 (set_b_next 0 x).

Lemma core_fields x y : core x = core y ->
  b_valid x = b_valid y /\ b_dev x = b_dev y /\ b_blockno x = b_blockno y /\
  b_lock x = b_lock y /\ b_refcnt x = b_refcnt y /\ b_data x = b_data y.
Proof. destruct x, y. unfold core. cbn. naive_solver. Qed.

(** [s'] differs from [s] in buffer [i], which still caches the same block of the
    root device, in the links, and on the disk at most in that block. *)
Record bupdate (s : kst) (i : nat) (s' : kst) : Prop := {
  bu_len : length (bufs s') = length (bufs s);
  bu_lru : exists order, lru (bufs s') order;
  bu_other j : (j < NBUF)%nat -> j <> i -> core (bufat j s') = core (bufat j s);
  bu_holds b : holds (bufat i s) b -> holds (bufat i s') b;
  bu_disk b : ~ holds (bufat i s) b -> dget (disk s') b = dget (disk s) b;
  bu_disk_len b : length (dget (disk s') b) = 1024%nat
}.

(** What the new buffer must satisfy for the invariant to go on. *)
Record buf_ok (s : kst) (i : nat) : Prop := {
  bo_free : b_refcnt (bufat i s) = 0 -> sl_locked (b_lock (bufat i s)) = false;
  bo_ref : 0 <= b_refcnt (bufat i s) < 2 ^ 32;
  bo_data : length (b_data (bufat i s)) = 1024%nat;
  bo_clean : b_refcnt (bufat i s) = 0 ->
    b_data (bufat i s) = dget (disk s) (b_blockno (bufat i s));
  bo_valid : b_valid (bufat i s) = true
}.

Section Update.
  Context (s : kst) (i : nat) (s' : kst) (b : Z).
  Context (I : bio_inv s) (Hi : (i < NBUF)%nat) (Hb : holds (bufat i s) b).
  Context (U : bupdate s i s') (K : buf_ok s' i).

Lemma bu_other_block j : (j < NBUF)%nat -> j <> i -> ~ holds (bufat j s) b.
  Proof using I Hi Hb.
    intros Hj Hji Hh. destruct Hb as [Hd Eb]. apply Hji. symmetry.
    apply (bi_uniq _ I i j Hi Hj Hd). by rewrite Eb.
  Qed.

Lemma bio_inv_update : bio_inv s'.
  Proof using All.
    pose proof (bu_holds _ _ _ U b Hb) as [Hd' Eb']. pose proof I as [Il Iu Iq If Ir Id Ic Iv Ik].
    destruct K as [Kf Kr Kd Kc Kv]. destruct U as [Ul Uu Uo Uh Ud Udl]. split.
    - congruence.
    - done.
    - intros j k Hj Hk Hdj [Hdk Hbk].
      destruct (decide (j = i)) as [->|Hji], (decide (k = i)) as [->|Hki]; [done| | |].
      + exfalso. destruct (core_fields _ _ (Uo k Hk Hki)) as (_ & ? & ? & _).
        apply (bu_other_block k Hk Hki). split; congruence.
      + exfalso. destruct (core_fields _ _ (Uo j Hj Hji)) as (_ & ? & ? & _).
        apply (bu_other_block j Hj Hji). split; congruence.
      + destruct (core_fields _ _ (Uo k Hk Hki)) as (_ & ? & ? & _).
        destruct (core_fields _ _ (Uo j Hj Hji)) as (_ & ? & ? & _).
        apply Iq; [done|done|congruence|]. split; congruence.
    - intros j Hj. destruct (decide (j = i)) as [->|Hji]; [done|].
      destruct (core_fields _ _ (Uo j Hj Hji)) as (_ & _ & _ & -> & -> & _). by apply If.
    - intros j Hj. destruct (decide (j = i)) as [->|Hji]; [done|].
      destruct (core_fields _ _ (Uo j Hj Hji)) as (_ & _ & _ & _ & -> & _). by apply Ir.
    - intros j Hj. destruct (decide (j = i)) as [->|Hji]; [done|].
      destruct (core_fields _ _ (Uo j Hj Hji)) as (_ & _ & _ & _ & _ & ->). by apply Id.
    - intros j Hj. destruct (decide (j = i)) as [->|Hji]; [by intros; apply Kc|].
      destruct (core_fields _ _ (Uo j Hj Hji)) as (-> & _ & -> & _ & -> & ->).
      intros H0 Hv. rewrite Ud; [by apply Ic|]. intros [_ E]. destruct Hb as [_ Eb].
      apply (bu_other_block j Hj Hji). split; [by apply Iv|congruence].
    - intros j Hj. destruct (decide (j = i)) as [->|Hji]; [done|].
      destruct (core_fields _ _ (Uo j Hj Hji)) as (-> & -> & _). by apply Iv.
    - done.
  Qed.

Lemma bcontent_update b' :
    bcontent s' b' = if decide (b' = b) then b_data (bufat i s') else bcontent s b'.
  Proof using All.
    pose proof bio_inv_update as I'. pose proof (bu_holds _ _ _ U b Hb) as Hb'.
    case_decide as E; [subst; apply bcontent_hit; [done|done|apply K|done]|].
    destruct (cached_dec s b') as [(j & Hj & Hhj)|Hnone].
    - assert (j <> i) as Hji by (intros ->; destruct Hhj, Hb; congruence).
      destruct (core_fields _ _ (bu_other _ _ _ U j Hj Hji)) as (Ev & Ed & Ebl & _ & _ & Edt).
      destruct (b_valid (bufat j s)) eqn:Hv.
      + rewrite (bcontent_hit s b' j) by done. rewrite (bcontent_hit s' b' j); [done|done|done|done|].
        destruct Hhj. split; congruence.
      + assert (forall s0, bio_inv s0 -> b_valid (bufat j s0) = false -> holds (bufat j s0) b' ->
          bcontent s0 b' = dget (disk s0) b') as Hm.
        { intros s0 I0 Hv0 [Hd0 Hb0]. apply bcontent_miss; [done|]. intros k Hk Hvk Hhk.
          assert (j = k) by (apply (bi_uniq _ I0); [done|done|done|by rewrite Hb0]). congruence. }
        rewrite (Hm s) by done. rewrite (Hm s'); [|done|congruence|destruct Hhj; split; congruence].
        apply U. intros [_ ?]. destruct Hb. congruence.
    - rewrite (bcontent_miss s) by (done || intros; by apply Hnone).
      rewrite (bcontent_miss s').
      + apply U. intros [_ ?]. destruct Hb. congruence.
      + done.
      + intros j Hj _ [Hd Eb]. destruct (decide (j = i)) as [->|Hji].
        * destruct Hb'. congruence.
        * destruct (core_fields _ _ (bu_other _ _ _ U j Hj Hji)) as (_ & ? & ? & _).
          apply (Hnone j Hj). split; congruence.
  Qed.
End Update.

(** A buffer the current process has locked. *)
Record locked (s : kst) (me i : nat) (b : Z) : Prop := {
  lk_lt : (i < NBUF)%nat;
  lk_holds : holds (bufat i s) b;
  lk_valid : b_valid (bufat i s) = true;
  lk_lock : b_lock (bufat i s) = SleepLock true (p_pid (procat me s));
  lk_ref : 0 < b_refcnt (bufat i s)
}.

Lemma bread_locked s me b i s' : bio_inv s -> bread_post s me b i s' -> locked s' me i b.
Proof.
  intros I P. destruct P. pose proof (bi_ref _ I i br_lt0). split; [done|done|done| |lia].
  rewrite br_lock0. f_equal. by rewrite br_state0.
Qed.

(** An update of one field of one buffer, other than its links and identity. *)
Lemma bupdate_alter s i b f :
  bio_inv s -> (i < NBUF)%nat -> holds (bufat i s) b ->
  (forall x, b_next (f x) = b_next x /\ b_prev (f x) = b_prev x /\
             b_dev (f x) = b_dev x /\ b_blockno (f x) = b_blockno x) ->
  bupdate s i (set_bufs (alter f i (bufs s)) s).
Proof.
  intros I Hi Hh Hf.
  assert (Hl : (i < length (bufs s))%nat) by (rewrite (bi_len _ I); lia).
  destruct (bi_lru _ I) as [order Ho]. split; try done.
  - cbn. by rewrite length_alter.
  - exists order. cbn. apply lru_alter; [|done]. intros x. destruct (Hf x) as (? & ? & _). done.
  - intros j Hj Hji. rewrite bufat_alter by done. by rewrite decide_False by done.
  - intros b' [Hd Hb]. rewrite bufat_alter by done. rewrite decide_True by done.
    destruct (Hf (bufat i s)) as (_ & _ & E1 & E2). split; congruence.
  - apply I.
Qed.

(** The caller writes to the data of a buffer it has locked. *)
Lemma bset_data s me i b d :
  bio_inv s -> locked s me i b -> length d = 1024%nat ->
  let s' := set_bufs (alter (set_b_data d) i (bufs s)) s in
  bio_inv s' /\ locked s' me i b /\ b_data (bufat i s') = d /\
  forall b', bcontent s' b' = if decide (b' = b) then d else bcontent s b'.
Proof.
  intros I [Hi Hh Hv Hl Hr] Hd s'. pose proof (bi_ref _ I i Hi).
  assert (U : bupdate s i s') by (by eapply bupdate_alter).
  assert (Eb : bufat i s' = set_b_data d (bufat i s)).
  { unfold s'. rewrite bufat_alter by (rewrite (bi_len _ I); lia). by rewrite decide_True. }
  assert (K : buf_ok s' i).
  { split; rewrite Eb; cbn; try done; lia. }
  pose proof (bio_inv_update s i s' b I Hi Hh U K) as I'.
  split_and!; [done| |by rewrite Eb|].
  - split; [done|by apply U|by rewrite Eb|by rewrite Eb|by rewrite Eb].
  - intros b'. rewrite (bcontent_update s i s' b) by done. by rewrite Eb.
Qed.

Lemma wp_bwrite s me i b (Q : unit -> kst -> Prop) :
  bio_inv s -> running s me -> bio_locks s -> locked s me i b ->
  (forall s', s' = set_dwrites (dwrites s ++ [(b, b_data (bufat i s))])
                (set_disk (<[b := b_data (bufat i s)]> (disk s)) s) ->
     bio_inv s' -> (forall b', bcontent s' b' = bcontent s b') -> Q tt s') ->
  wp (bwrite i) Q s.
Proof.
  intros I R Hlk [Hi Hh Hv Hl Hr] HQ. unfold bwrite. wp_step.
  eapply wp_holdingsleep; [apply buf_sl_ok|done|by apply bl_free|]. cbn. rewrite Hl. cbn.
  rewrite Z.eqb_refl. cbn [negb]. eapply wp_virtio_write; [apply R|done|].
  pose proof Hh as [_ ->]. set (s' := set_dwrites _ _).
  assert (U : bupdate s i s').
  { destruct (bi_lru _ I) as [order Ho]. split; try done.
    - by exists order.
    - intros b' Hn. unfold s', dget. cbn. rewrite lookup_insert_ne; [done|].
      intros <-. by apply Hn.
    - intros b'. unfold s', dget. cbn. rewrite lookup_insert. case_decide; cbn; [by apply (bi_data _ I i Hi)|].
      apply (bi_disk _ I). }
  pose proof (bi_ref _ I i Hi).
  assert (K : buf_ok s' i).
  { assert (Eb : bufat i s' = bufat i s) by done.
    split; rewrite Eb; [intros; lia|lia|apply (bi_data _ I i Hi)|intros; lia|done]. }
  apply HQ; [done|by eapply (bio_inv_update s i s' b)|].
  intros b'. rewrite (bcontent_update s i s' b) by done. case_decide; [|done]. subst.
  change (bufat i s') with (bufat i s). symmetry. by apply bcontent_hit.
Qed.

Lemma wp_bpin s i b (Q : unit -> kst -> Prop) :
  bio_inv s -> LkBcache ∉ held s -> (i < NBUF)%nat -> holds (bufat i s) b ->
  b_valid (bufat i s) = true -> 0 < b_refcnt (bufat i s) < 2 ^ 32 - 1 ->
  (forall s', s' = set_bufs (bufs s') s -> bio_inv s' ->
     (forall j, j <> i -> bufat j s' = bufat j s) ->
     bufat i s' = set_b_refcnt (b_refcnt (bufat i s) + 1) (bufat i s) ->
     (forall b', bcontent s' b' = bcontent s b') -> Q tt s') ->
  wp (bpin i) Q s.
Proof.
  intros I Hc Hi Hh Hv Hr HQ. unfold bpin.
  wp_step. apply wp_acquire; [done|]. wp_step. apply wp_upd. eapply wp_release; [done|done|].
  cbn [held bufs set_bufs set_held]. set (f := fun x => _).
  replace (set_held _ _) with (set_bufs (alter f i (bufs s)) s) by (by destruct s).
  set (s' := set_bufs _ s).
  assert (U : bupdate s i s') by (by eapply bupdate_alter).
  assert (Eb : bufat i s' = set_b_refcnt (b_refcnt (bufat i s) + 1) (bufat i s)).
  { unfold s'. rewrite bufat_alter by (rewrite (bi_len _ I); lia). rewrite decide_True by done.
    unfold f. rewrite u32_small by lia. done. }
  assert (K : buf_ok s' i).
  { split; rewrite Eb; cbn; try done; try lia. apply (bi_data _ I i Hi). }
  apply HQ; [done|by eapply (bio_inv_update s i s' b)| |done|].
  - intros j Hj. unfold s'. rewrite bufat_alter by (rewrite (bi_len _ I); lia).
    by rewrite decide_False.
  - intros b'. rewrite (bcontent_update s i s' b) by done. rewrite Eb.
    case_decide; [|done]. subst. symmetry. by apply bcontent_hit.
Qed.

(** The caller still has a reference of its own. *)
Lemma wp_bunpin s i b (Q : unit -> kst -> Prop) :
  bio_inv s -> LkBcache ∉ held s -> (i < NBUF)%nat -> holds (bufat i s) b ->
  b_valid (bufat i s) = true -> 1 < b_refcnt (bufat i s) ->
  (forall s', s' = set_bufs (bufs s') s -> bio_inv s' ->
     (forall j, j <> i -> bufat j s' = bufat j s) ->
     bufat i s' = set_b_refcnt (b_refcnt (bufat i s) - 1) (bufat i s) ->
     (forall b', bcontent s' b' = bcontent s b') -> Q tt s') ->
  wp (bunpin i) Q s.
Proof.
  intros I Hc Hi Hh Hv Hr HQ. unfold bunpin. pose proof (bi_ref _ I i Hi).
  wp_step. apply wp_acquire; [done|]. wp_step. apply wp_upd. eapply wp_release; [done|done|].
  cbn [held bufs set_bufs set_held]. set (f := fun x => _).
  replace (set_held _ _) with (set_bufs (alter f i (bufs s)) s) by (by destruct s).
  set (s' := set_bufs _ s).
  assert (U : bupdate s i s') by (by eapply bupdate_alter).
  assert (Eb : bufat i s' = set_b_refcnt (b_refcnt (bufat i s) - 1) (bufat i s)).
  { unfold s'. rewrite bufat_alter by (rewrite (bi_len _ I); lia). rewrite decide_True by done.
    unfold f. rewrite u32_small by lia. done. }
  assert (K : buf_ok s' i).
  { split; rewrite Eb; cbn; try done; try lia. apply (bi_data _ I i Hi). }
  apply HQ; [done|by eapply (bio_inv_update s i s' b)| |done|].
  - intros j Hj. unfold s'. rewrite bufat_alter by (rewrite (bi_len _ I); lia).
    by rewrite decide_False.
  - intros b'. rewrite (bcontent_update s i s' b) by done. rewrite Eb.
    case_decide; [|done]. subst. symmetry. by apply bcontent_hit.
Qed.

Lemma alter_next bs k v j :
  (k < length bs)%nat ->
  nxt (alter (set_b_next v) k bs) j = fupd (nxt bs) k v j /\
  prv (alter (set_b_next v) k bs) j = prv bs j /\
  core (alter (set_b_next v) k bs !!! j) = core (bs !!! j).
Proof.
  intros Hk. unfold nxt, prv, fupd. destruct (decide (j = k)) as [->|Hne].
  - rewrite list_lookup_total_alter_eq by done. done.
  - rewrite list_lookup_total_alter_ne by done. done.
Qed.

Lemma alter_prev bs k v j :
  (k < length bs)%nat ->
  prv (alter (set_b_prev v) k bs) j = fupd (prv bs) k v j /\
  nxt (alter (set_b_prev v) k bs) j = nxt bs j /\
  core (alter (set_b_prev v) k bs !!! j) = core (bs !!! j).
Proof.
  intros Hk. unfold nxt, prv, fupd. destruct (decide (j = k)) as [->|Hne].
  - rewrite list_lookup_total_alter_eq by done. done.
  - rewrite list_lookup_total_alter_ne by done. done.
Qed.

(** The neighbours of a buffer in the list. *)
Lemma lru_neighbours bs order i :
  lru bs order -> (i < NBUF)%nat ->
  (nxt bs i <= NBUF)%nat /\ nxt bs i <> i /\ (prv bs i <= NBUF)%nat /\ prv bs i <> i.
Proof.
  intros Hl Hi. pose proof Hl as [Hs Hp]. apply (lru_range _ _ _ Hl) in Hi as Hin.
  apply list_elem_of_split in Hin as (o1 & o2 & ->).
  assert (Hnd : NoDup (o1 ++ i :: o2)) by (rewrite Hp; apply NoDup_seq).
  assert (Hr : forall j, j ∈ o1 ++ i :: o2 -> (j < NBUF)%nat).
  { intros j Hj. by apply (lru_range _ _ _ Hl). }
  apply seg_app in Hs as [H1 H2]. rewrite NoDup_app, NoDup_cons in Hnd.
  destruct Hnd as (_ & Hn1 & Hn2 & _). split_and!.
  - destruct o2 as [|c o2]; cbn in H2; [destruct H2 as [-> _]; lia|].
    destruct H2 as [[-> _] _]. apply Nat.lt_le_incl, Hr. set_solver.
  - destruct o2 as [|c o2]; cbn in H2; [destruct H2 as [-> _]; lia|].
    destruct H2 as [[-> _] _]. set_solver.
  - destruct o1 as [|a o1 _] using rev_ind; [destruct H1 as [_ ->]; lia|].
    apply seg_app in H1 as [_ [_ ->]]. apply Nat.lt_le_incl, Hr. set_solver.
  - destruct o1 as [|a o1 _] using rev_ind; [destruct H1 as [_ ->]; lia|].
    apply seg_app in H1 as [_ [_ ->]]. set_solver.
Qed.

Lemma lru_head bs order : lru bs order -> (nxt bs BHEAD <= NBUF)%nat.
Proof.
  intros Hl. pose proof Hl as [Hs Hp]. destruct order as [|z o]; cbn in Hs.
  - destruct Hs as [-> _]. lia.
  - destruct Hs as [[-> _] _]. apply Nat.lt_le_incl, (lru_range _ _ _ Hl). set_solver.
Qed.

Lemma fupd_ext f g i v j : f j = g j -> fupd f i v j = fupd g i v j.
Proof. unfold fupd. by case_decide. Qed.

(** The buffers after [to_front], and their links. *)
Definition front_bufs (bs : list buf) (i : nat) : list buf :=
  let nx := nxt bs i in
  let pv := prv bs i in
  let bs2 := alter (set_b_next nx) pv (alter (set_b_prev pv) nx bs) in
  let hn := nxt bs2 NBUF in
  alter (set_b_next i) NBUF (alter (set_b_prev i) hn (alter (set_b_prev NBUF) i (alter (set_b_next hn) i bs2))).

Lemma front_links bs i :
  length bs = S NBUF -> (i < NBUF)%nat -> (nxt bs i <= NBUF)%nat -> (prv bs i <= NBUF)%nat -> (nxt bs NBUF <= NBUF)%nat ->
  let nx := fupd (nxt bs) (prv bs i) (nxt bs i) in
  let pv := fupd (prv bs) (nxt bs i) (prv bs i) in
  length (front_bufs bs i) = S NBUF /\
  forall j, nxt (front_bufs bs i) j = fupd (fupd nx i (nx NBUF)) NBUF i j /\
    prv (front_bufs bs i) j = fupd (fupd pv i NBUF) (nx NBUF) i j /\
    core (front_bufs bs i !!! j) = core (bs !!! j).
Proof.
  intros Hlen Hi Hn Hp Hh. cbv zeta. unfold front_bufs. set (bs1 := alter _ (nxt bs i) bs). set (bs2 := alter _ (prv bs i) bs1).
  assert (A2 : forall j, nxt bs2 j = fupd (nxt bs) (prv bs i) (nxt bs i) j /\ prv bs2 j = fupd (prv bs) (nxt bs i) (prv bs i) j /\
    core (bs2 !!! j) = core (bs !!! j)).
  { intros j. destruct (alter_prev bs (nxt bs i) (prv bs i) j) as (P1 & N1 & C1); [lia|].
    destruct (alter_next bs1 (prv bs i) (nxt bs i) j) as (N2 & P2 & C2); [unfold bs1; rewrite length_alter; lia|].
    unfold bs2. rewrite N2, P2, C2. unfold bs1. rewrite P1, C1. split_and!; [by apply fupd_ext|done..]. }
  assert (L2 : length bs2 = S NBUF) by (unfold bs2, bs1; by rewrite !length_alter).
  destruct (A2 NBUF) as (Eh & _ & _). rewrite Eh. set (hn := fupd _ _ _ NBUF).
  assert (hn <= NBUF)%nat by (unfold hn, fupd; case_decide; lia).
  split; [by rewrite !length_alter|]. intros j. destruct (A2 j) as (N2 & P2 & C2).
  destruct (alter_next bs2 i hn j) as (N3 & P3 & C3); [lia|]. set (bs3 := alter _ i bs2) in *.
  assert (L3 : length bs3 = S NBUF) by (unfold bs3; by rewrite length_alter).
  destruct (alter_prev bs3 i NBUF j) as (P4 & N4 & C4); [lia|]. set (bs4 := alter _ i bs3) in *.
  assert (L4 : length bs4 = S NBUF) by (unfold bs4; by rewrite length_alter).
  destruct (alter_prev bs4 hn i j) as (P5 & N5 & C5); [lia|]. set (bs5 := alter _ hn bs4) in *.
  assert (L5 : length bs5 = S NBUF) by (unfold bs5; by rewrite length_alter).
  destruct (alter_next bs5 NBUF i j) as (N6 & P6 & C6); [lia|]. rewrite N6, P6, C6, P5. split_and!.
  - apply fupd_ext. rewrite N5, N4, N3. by apply fupd_ext.
  - apply fupd_ext. rewrite P4. apply fupd_ext. by rewrite P3.
  - by rewrite C5, C4, C3.
Qed.

Lemma lru_front bs order i : length bs = S NBUF -> lru bs order -> (i < NBUF)%nat ->
  exists order', lru (front_bufs bs i) order'.
Proof.
  intros Hlen Hl Hi. pose proof Hl as [Hs Hp]. destruct (lru_neighbours _ _ i Hl Hi) as (Hnl & _ & Hpl & _).
  destruct (front_links bs i Hlen Hi Hnl Hpl (lru_head _ _ Hl)) as [_ A]. cbv zeta in A.
  pose proof (proj2 (lru_range _ _ i Hl) Hi) as Hin. apply list_elem_of_split in Hin as (o1 & o2 & ->).
  assert (Hnd : NoDup (NBUF :: o1 ++ i :: o2)).
  { apply NoDup_cons. split; [|rewrite Hp; apply NoDup_seq]. rewrite (lru_range _ _ _ Hl). lia. }
  exists (i :: o1 ++ o2). split; [|rewrite <- Hp; by rewrite Permutation_middle].
  pose proof (seg_unlink _ _ NBUF o1 i o2 Hnd Hs) as Hu.
  assert (NoDup (NBUF :: o1 ++ o2) /\ i ∉ NBUF :: o1 ++ o2) as [Hnd1 Hnd2].
  { rewrite NoDup_cons, NoDup_app, NoDup_cons in Hnd. rewrite NoDup_cons, NoDup_app. set_solver. }
  pose proof (seg_push _ _ NBUF (o1 ++ o2) i Hnd2 Hnd1 Hu) as Hpush.
  eapply seg_frame; [| |exact Hpush]; intros j _; apply A.
Qed.

Lemma wp_to_front s i (Q : unit -> kst -> Prop) :
  length (bufs s) = S NBUF -> (exists order, lru (bufs s) order) -> (i < NBUF)%nat ->
  (forall bs, length bs = S NBUF -> (exists order, lru bs order) ->
     (forall j, core (bs !!! j) = core (bufat j s)) -> Q tt (set_bufs bs s)) ->
  wp (to_front i) Q s.
Proof.
  intros Hlen [order Hl] Hi HQ. destruct (lru_neighbours _ _ i Hl Hi) as (Hnl & Hni & Hpl & Hpi).
  destruct (front_links (bufs s) i Hlen Hi Hnl Hpl (lru_head _ _ Hl)) as [HL A]. cbv zeta in A.
  specialize (HQ _ HL (lru_front _ _ _ Hlen Hl Hi) (fun j => proj2 (proj2 (A j)))). clear A HL. revert HQ.
  unfold front_bufs. set (nx := nxt (bufs s) i) in *. set (pv := prv (bufs s) i) in *.
  set (bs1 := alter (set_b_prev pv) nx (bufs s)). set (bs2 := alter (set_b_next nx) pv bs1). set (hn := nxt bs2 NBUF).
  set (bs3 := alter (set_b_next hn) i bs2). set (bs4 := alter (set_b_prev NBUF) i bs3). intros HQ.
  assert (L1 : length bs1 = S NBUF) by (unfold bs1; by rewrite length_alter).
  assert (L2 : length bs2 = S NBUF) by (unfold bs2; by rewrite length_alter).
  assert (L3 : length bs3 = S NBUF) by (unfold bs3; by rewrite length_alter).
  destruct (alter_prev (bufs s) nx pv i) as (Hp1 & Hn1 & _); [lia|]. rewrite fupd_ne in Hp1 by done. fold bs1 in Hp1, Hn1.
  assert (Hh4 : nxt bs4 NBUF = hn).
  { unfold bs4. destruct (alter_prev bs3 i NBUF NBUF) as (_ & -> & _); [lia|].
    unfold bs3. destruct (alter_next bs2 i hn NBUF) as (-> & _); [lia|]. by rewrite fupd_ne by lia. }
  unfold to_front.
  do 2 (wp_step; apply wp_get). wp_step. apply wp_upd.
  do 2 (wp_step; apply wp_get). change (b_next (bufat i s)) with nx. change (b_prev (bufat i s)) with pv.
  unfold bufat. cbn [bufs set_bufs]. fold bs1.
  change (b_prev (bs1 !!! i)) with (prv bs1 i). change (b_next (bs1 !!! i)) with (nxt bs1 i).
  rewrite Hn1, Hp1. wp_step. apply wp_upd. wp_step. apply wp_get.
  unfold bufat. cbn [bufs set_bufs]. fold nx pv bs2. change (b_next (bs2 !!! NBUF)) with hn.
  do 2 (wp_step; apply wp_upd). cbn [bufs set_bufs]. fold bs3 bs4.
  wp_step. apply wp_get. unfold bufat. cbn [bufs set_bufs].
  change (b_next (bs4 !!! NBUF)) with (nxt bs4 NBUF). rewrite Hh4.
  wp_step. apply wp_upd. apply wp_upd. cbn [bufs set_bufs]. exact HQ.
Qed.

Definition unlocked : sleeplock := SleepLock false 0.

Lemma wp_brelse s me i b (Q : unit -> kst -> Prop) :
  bio_inv s -> running s me -> bio_locks s -> locked s me i b ->
  (b_refcnt (bufat i s) = 1 -> b_data (bufat i s) = dget (disk s) b) ->
  (forall s', s' = set_procs (procs s') (set_bufs (bufs s') s) -> same_procs s s' -> bio_inv s' ->
     (forall j, j <> i -> core (bufat j s') = core (bufat j s)) ->
     core (bufat i s') =
       core (set_b_lock unlocked (set_b_refcnt (b_refcnt (bufat i s) - 1) (bufat i s))) ->
     (forall b', bcontent s' b' = bcontent s b') -> Q tt s') ->
  wp (brelse i) Q s.
Proof.
  intros I R Hlk [Hi Hh Hv Hl Hr] Hcl HQ. unfold brelse.
  pose proof (bi_ref _ I i Hi) as Hri. pose proof (bi_len _ I) as Hlen.
  wp_step. eapply wp_holdingsleep; [apply buf_sl_ok|done|by apply bl_free|]. cbn [sl_get buf_sl].
  rewrite Hl. cbn [sl_locked sl_pid]. rewrite Z.eqb_refl. cbn [andb negb].
  wp_step. eapply wp_releasesleep; [apply buf_sl_ok|done|by apply bl_free|done|].
  cbn [sl_set sl_chan buf_sl]. set (ps := woken _ _ _ _ _).
  wp_step. apply wp_acquire; [by apply bl_free|]. wp_step. apply wp_upd.
  cbn [bufs set_bufs set_procs set_held]. rewrite list_alter_alter.
  set (f := fun x : buf => set_b_refcnt _ _).
  wp_step. apply wp_get.
  assert (Ef : forall j, alter f i (bufs s) !!! j =
            if decide (i = j) then f (bufs s !!! i) else bufs s !!! j).
  { intros j. case_decide; [subst; apply list_lookup_total_alter_eq; lia|].
    by rewrite list_lookup_total_alter_ne. }
  assert (Efi : f (bufs s !!! i) =
            set_b_lock unlocked (set_b_refcnt (b_refcnt (bufat i s) - 1) (bufat i s))).
  { unfold f. cbn. rewrite u32_small; [done|]. change (bufs s !!! i) with (bufat i s). lia. }
  unfold bufat at 1. cbn [bufs set_bufs set_procs set_held].
  rewrite Ef, decide_True, Efi by done. cbn [b_refcnt set_b_lock set_b_refcnt].
  (* whatever the list looks like now, the buffers are as promised *)
  assert (Hfin : forall bs, length bs = S NBUF -> (exists order, lru bs order) ->
    (forall j, core (bs !!! j) = core (alter f i (bufs s) !!! j)) ->
    Q tt (set_procs ps (set_bufs bs s))).
  { intros bs Hbl Hbo Hbc. set (s' := set_procs ps (set_bufs bs s)).
    assert (Ci : core (bufat i s') =
      core (set_b_lock unlocked (set_b_refcnt (b_refcnt (bufat i s) - 1) (bufat i s)))).
    { unfold bufat at 1. cbn. rewrite Hbc, Ef, decide_True by done. by rewrite Efi. }
    assert (Cj : forall j, j <> i -> core (bufat j s') = core (bufat j s)).
    { intros j Hj. unfold bufat at 1. cbn. rewrite Hbc, Ef, decide_False by done. done. }
    destruct (core_fields _ _ Ci) as (Fv & Fd & Fb & Fl & Fr & Fdt). cbn in Fv, Fd, Fb, Fl, Fr, Fdt.
    assert (U : bupdate s i s').
    { split; cbn; try done; [congruence|by intros; apply Cj| |apply (bi_disk _ I)].
      intros b' [Hd' Hb']. split; congruence. }
    assert (K : buf_ok s' i).
    { split; rewrite ?Fr, ?Fl, ?Fdt, ?Fv, ?Fb; try done; [lia|apply (bi_data _ I i Hi)|].
      intros H1. rewrite Hcl by lia. by destruct Hh as [_ ->]. }
    apply HQ; [done| |by eapply (bio_inv_update s i s' b)|done|done|].
    - split; cbn; [apply length_woken|]. intros j. unfold procat. cbn. apply woken_psim.
    - intros b'. rewrite (bcontent_update s i s' b) by done. rewrite Fdt.
      case_decide; [|done]. subst. symmetry. by apply bcontent_hit. }
  destruct (bi_lru _ I) as [order Ho].
  assert (Hlru1 : lru (alter f i (bufs s)) order) by (by apply lru_alter).
  wp_step. destruct (Z.eqb_spec (b_refcnt (bufat i s) - 1) 0).
  - eapply wp_to_front; [cbn; by rewrite length_alter|by exists order|done|].
    intros bs Hbl Hbo Hbc. eapply wp_release; [done|by apply bl_free|].
    cbn [held set_bufs set_procs set_held].
    replace (set_held _ _) with (set_procs ps (set_bufs bs s)) by (by destruct s).
    by apply Hfin.
  - apply wp_ret. eapply wp_release; [done|by apply bl_free|]. cbn [held set_bufs set_procs set_held].
    replace (set_held _ _) with (set_procs ps (set_bufs (alter f i (bufs s)) s)) by (by destruct s).
    apply Hfin; [by rewrite length_alter|by exists order|done].
Qed.

(** ** [binit] *)

(** The buffers after a round of [binit_loop], and their links. *)
Definition pushed_bufs (bs : list buf) (b : nat) : list buf :=
  let hn := nxt bs NBUF in
  alter (set_b_next b) NBUF (alter (set_b_prev b) hn
    (alter (set_b_lock (SleepLock false 0)) b (alter (set_b_prev NBUF) b (alter (set_b_next hn) b bs)))).

Lemma alter_lock bs b l j : (b < length bs)%nat -> b_lock (bs !!! b) = l ->
  nxt (alter (set_b_lock l) b bs) j = nxt bs j /\ prv (alter (set_b_lock l) b bs) j = prv bs j /\
  core (alter (set_b_lock l) b bs !!! j) = core (bs !!! j).
Proof.
  intros Hb Hl. unfold prv, nxt. destruct (decide (b = j)) as [<-|]; [|by rewrite list_lookup_total_alter_ne].
  rewrite list_lookup_total_alter_eq by done. destruct (bs !!! b). cbn in *. by subst.
Qed.

Lemma pushed_links bs b : length bs = S NBUF -> (b < NBUF)%nat -> (nxt bs NBUF <= NBUF)%nat ->
  b_lock (bs !!! b) = SleepLock false 0 ->
  nxt (alter (set_b_lock (SleepLock false 0)) b (alter (set_b_prev NBUF) b (alter (set_b_next (nxt bs NBUF)) b bs))) NBUF = nxt bs NBUF /\
  length (pushed_bufs bs b) = S NBUF /\
  forall j, nxt (pushed_bufs bs b) j = fupd (fupd (nxt bs) b (nxt bs NBUF)) NBUF b j /\
    prv (pushed_bufs bs b) j = fupd (fupd (prv bs) b NBUF) (nxt bs NBUF) b j /\
    core (pushed_bufs bs b !!! j) = core (bs !!! j).
Proof.
  intros Hlen Hb Hhn Hl. unfold pushed_bufs. set (hn := nxt bs NBUF) in *.
  set (bs1 := alter (set_b_next hn) b bs). set (bs2 := alter (set_b_prev NBUF) b bs1).
  set (bs3 := alter (set_b_lock (SleepLock false 0)) b bs2). set (bs4 := alter (set_b_prev b) hn bs3).
  assert (L1 : length bs1 = S NBUF) by (unfold bs1; by rewrite length_alter).
  assert (L2 : length bs2 = S NBUF) by (unfold bs2; by rewrite length_alter).
  assert (L3 : length bs3 = S NBUF) by (unfold bs3; by rewrite length_alter).
  assert (L4 : length bs4 = S NBUF) by (unfold bs4; by rewrite length_alter).
  pose proof (fun j => alter_next bs b hn j ltac:(lia)) as A1. fold bs1 in A1.
  pose proof (fun j => alter_prev bs1 b NBUF j ltac:(lia)) as A2. fold bs2 in A2.
  assert (Hl2 : b_lock (bs2 !!! b) = SleepLock false 0).
  { destruct (A2 b) as (_ & _ & E2), (A1 b) as (_ & _ & E1). rewrite E1 in E2. destruct (core_fields _ _ E2) as (_ & _ & _ & -> & _). exact Hl. }
  pose proof (fun j => alter_lock bs2 b _ j ltac:(lia) Hl2) as A3. fold bs3 in A3.
  split; [|split; [by rewrite length_alter|]].
  - destruct (A3 NBUF) as (-> & _), (A2 NBUF) as (_ & -> & _), (A1 NBUF) as (-> & _). by rewrite fupd_ne by lia.
  - intros j. destruct (alter_next bs4 NBUF b j) as (-> & -> & ->); [lia|].
    destruct (alter_prev bs3 hn b j) as (P4 & N4 & C4); [lia|]. fold bs4 in P4, N4, C4. rewrite P4, C4.
    destruct (A1 j) as (N1 & P1 & C1), (A2 j) as (P2 & N2 & C2), (A3 j) as (N3 & P3 & C3). split_and!.
    + apply fupd_ext. by rewrite N4, N3, N2.
    + apply fupd_ext. rewrite P3, P2. by apply fupd_ext.
    + by rewrite C3, C2.
Qed.

Lemma wp_binit_loop k : forall s b order,
  length (bufs s) = S NBUF -> (b + k = NBUF)%nat ->
  seg (nxt (bufs s)) (prv (bufs s)) NBUF order NBUF -> order ≡ₚ seq 0 b ->
  (forall j, core (bufat j s) = core buf0) ->
  wp (binit_loop b k) (fun _ s' => exists bs order', s' = set_bufs bs s /\
    length bs = S NBUF /\ lru bs order' /\ forall j, core (bs !!! j) = core buf0) s.
Proof.
  induction k as [|k IH]; intros s b order Hlen Hb Hs Hp Hc; cbn [binit_loop].
  { apply wp_ret. exists (bufs s), order. assert (b = NBUF) as -> by lia.
    split_and!; [by destruct s|done|done|done]. }
  set (bs := bufs s) in *.
  assert (Hr : forall j, j ∈ order -> (j < b)%nat) by (intros j; rewrite Hp, elem_of_seq; lia).
  assert (Hhn : (nxt bs NBUF <= NBUF)%nat).
  { destruct order as [|z o]; cbn in Hs; [destruct Hs as [-> _]; lia|].
    destruct Hs as [[-> _] _]. assert (z < b)%nat by (apply Hr; set_solver). lia. }
  destruct (pushed_links bs b Hlen) as (Hh3 & HL & A); [lia|done|exact (proj1 (proj2 (proj2 (proj2 (core_fields _ _ (Hc b))))))|].
  wp_step. apply wp_get. change (b_next (bufat NBUF s)) with (nxt bs NBUF).
  do 2 (wp_step; apply wp_upd). wp_step. apply wp_upd. cbn [bufs set_bufs sl_set buf_sl].
  fold bs. wp_step. apply wp_get. unfold bufat. cbn [bufs set_bufs].
  match goal with |- context [b_next (?l !!! NBUF)] => change (b_next (l !!! NBUF)) with (nxt l NBUF) end. rewrite Hh3.
  do 2 (wp_step; apply wp_upd). cbn [bufs set_bufs].
  match goal with |- wp ?m ?Q _ => change (wp m Q (set_bufs (pushed_bufs bs b) s)) end.
  eapply wp_mono.
  { eapply (IH (set_bufs (pushed_bufs bs b) s) (S b) (b :: order)); [done|lia| | |].
    - cbn [bufs set_bufs].
      assert (Hnd : NoDup (NBUF :: order)) by (apply NoDup_cons; split; [intros ?%Hr; lia|rewrite Hp; apply NoDup_seq]).
      assert (Hbn : b ∉ NBUF :: order) by (apply not_elem_of_cons; split; [lia|intros ?%Hr; lia]).
      pose proof (seg_push _ _ NBUF order b Hbn Hnd Hs) as Hpush.
      eapply seg_frame; [| |exact Hpush]; intros j _; apply A.
    - rewrite seq_S. cbn. rewrite Hp. by rewrite Permutation_cons_append.
    - intros j. unfold bufat. cbn. destruct (A j) as (_ & _ & ->). apply Hc. }
  intros _ s' (bs' & order' & -> & ?). exists bs', order'. done.
Qed.

Lemma wp_binit s :
  bufs s = replicate (S NBUF) buf0 -> (forall b, length (dget (disk s) b) = 1024%nat) ->
  wp binit (fun _ s' => s' = set_bufs (bufs s') s /\ bio_inv s' /\
    forall b, bcontent s' b = dget (disk s) b) s.
Proof.
  intros Hb Hd. unfold binit. do 2 (wp_step; apply wp_upd). cbn [bufs set_bufs].
  rewrite list_alter_alter, Hb. set (bs := alter _ NBUF _).
  assert (Hj : forall j, core (bs !!! j) = core buf0).
  { intros j. unfold bs. destruct (decide (NBUF = j)) as [<-|]; [done|].
    rewrite list_lookup_total_alter_ne by done.
    destruct (decide (j < S NBUF)%nat).
    - by rewrite lookup_total_replicate_2.
    - rewrite list_lookup_total_alt, lookup_ge_None_2 by (rewrite length_replicate; lia). done. }
  eapply wp_mono.
  - eapply (wp_binit_loop NBUF (set_bufs bs s) 0 []); [done|done|done|done|done].
  - intros _ s' (bs' & order & -> & Hl & Hlru & Hc).
    change (set_bufs bs' (set_bufs bs s)) with (set_bufs bs' s).
    assert (Hat : forall j, core (bufat j (set_bufs bs' s)) = core buf0) by (intros; apply Hc).
    assert (I : bio_inv (set_bufs bs' s)).
    { split; cbn; try done; [by exists order|..];
        intros i; intros; destruct (core_fields _ _ (Hat i)) as (Ev & Ed & Eb & El & Er & Edt).
      - unfold bufat in *. cbn in *. congruence.
      - unfold bufat in *. cbn in *. by rewrite El.
      - unfold bufat in *. cbn in *. by rewrite Er.
      - unfold bufat in *. cbn in *. by rewrite Edt.
      - unfold bufat in *. cbn in *. congruence.
      - unfold bufat in *. cbn in *. congruence. }
    split_and!; [done|done|]. intros b. rewrite bcontent_miss; [done|done|]. intros i Hi Hv.
    destruct (core_fields _ _ (Hat i)) as (Ev & _). cbn in Ev. congruence.
Qed.

End Bio.
