(* ===== verification/BioSess.v ===== *)
(** Buffers in use: the bookkeeping a process does between [bread] and [brelse],
    with the blocks pinned for the log.  The lemmas here are what [Log] and the
    file system use of [Bio]. *)
From S2P Require Import Prelude Types Str Kalloc Vm Sched Sleeplock Bio.

Section BioSess.
Context {L : Linker}.
Implicit Types (P : list Z) (K : list (nat * Z)).

Definition pins P (x : buf) : Z :=
  if decide (b_valid x = true /\ b_dev x = ROOTDEV /\ b_blockno x ∈ P) then 1 else 0.
Definition locks K (i : nat) : Z := if decide (i ∈ K.*1) then 1 else 0.

(** Process [me] has the buffers [K] locked, each with the block it was read for;
    the blocks [P] are pinned; there is no other reference to a buffer. *)
Record bsess (s : kst) (me : nat) P K : Prop := {
  bs_inv : bio_inv s;
  bs_run : running s me;
  bs_locks : bio_locks s;
  bs_K : NoDup K.*1;
  bs_locked i b : (i, b) ∈ K -> locked s me i b;
  bs_unlocked i : (i < NBUF)%nat -> i ∉ K.*1 -> sl_locked (b_lock (bufat i s)) = false;
  bs_P : NoDup P;
  bs_pin b : b ∈ P -> exists i, (i < NBUF)%nat /\ holds (bufat i s) b /\ b_valid (bufat i s) = true;
  bs_ref i : (i < NBUF)%nat -> b_refcnt (bufat i s) = pins P (bufat i s) + locks K i
}.

(** Only the buffers, the disk, the processes and the locks matter. *)
Lemma bsess_ext s s' me P K :
  bufs s' = bufs s -> disk s' = disk s -> procs s' = procs s -> cur s' = cur s ->
  bio_locks s' -> bsess s me P K -> bsess s' me P K.
Proof.
  intros Eb Ed Ep Ec Hl [[? ? ? ? ? ? ? ? ?] [? ? ?] _ ? HK ? ? ? ?].
  assert (forall j, LkProc j ∉ held s') by (intros; by apply bl_free). destruct s, s'. cbn in *. subst.
  split; try done. intros i b Hk. destruct (HK i b Hk). by split.
Qed.

Lemma pins_range P x : 0 <= pins P x <= 1.
Proof. unfold pins. case_decide; lia. Qed.
Lemma locks_range K i : 0 <= locks K i <= 1.
Proof. unfold locks. case_decide; lia. Qed.

Lemma elem_of_fst K i : i ∈ K.*1 <-> exists b, (i, b) ∈ K.
Proof.
  rewrite list_elem_of_fmap. split.
  - intros ([j b] & -> & H). eauto.
  - intros [b H]. exists (i, b). done.
Qed.

Lemma elem_of_snd K b : b ∈ K.*2 <-> exists i, (i, b) ∈ K.
Proof.
  rewrite list_elem_of_fmap. split.
  - intros ([j b'] & -> & H). eauto.
  - intros [i H]. exists (i, b). done.
Qed.

(** Counting: with fewer pins and locks than buffers, one is free. *)
Lemma sess_free s me P K :
  bsess s me P K -> (length P + length K < NBUF)%nat ->
  exists i, (i < NBUF)%nat /\ b_refcnt (bufat i s) = 0.
Proof.
  intros B Hlt.
  destruct (list_find (fun i => b_refcnt (bufat i s) = 0) (seq 0 NBUF)) as [[k i]|] eqn:E.
  { apply list_find_Some in E as (Hk & H0 & _). apply lookup_seq in Hk as [-> ?].
    exists k. split; [lia|done]. }
  exfalso. apply list_find_None in E.
  set (f := fun i => if decide (i ∈ K.*1) then inr i else inl (b_blockno (bufat i s)) : Z + nat).
  assert (Hsub : f <$> seq 0 NBUF ⊆+ (inl <$> P) ++ (inr <$> K.*1)).
  { apply NoDup_submseteq.
    - apply NoDup_fmap_2_strong; [|apply NoDup_seq]. intros i j Hi Hj Hf.
      rewrite elem_of_seq in Hi, Hj. unfold f in Hf.
      assert (Hpin : forall j, (j < NBUF)%nat -> j ∉ K.*1 ->
        b_dev (bufat j s) = ROOTDEV /\ b_blockno (bufat j s) ∈ P).
      { intros k Hk Hnk. eapply Forall_forall in E; [|apply elem_of_seq; split; [lia|exact Hk]].
        cbn in E. rewrite (bs_ref _ _ _ _ B k Hk) in E. unfold pins, locks in E.
        rewrite (decide_False (P := k ∈ K.*1)) in E by done. case_decide as Hd; [|lia]. naive_solver. }
      repeat case_decide; simplify_eq; [done|].
      apply (bi_uniq _ (bs_inv _ _ _ _ B) i j); [lia|lia|apply Hpin; lia || done|].
      split; [apply Hpin; lia || done|done].
    - intros x Hx. apply list_elem_of_fmap in Hx as (i & -> & Hi). rewrite elem_of_seq in Hi.
      rewrite elem_of_app, !list_elem_of_fmap. unfold f. case_decide as Hk; [right; eauto|].
      left. eexists. split; [done|].
      eapply Forall_forall in E; [|apply elem_of_seq; split; [lia|]; instantiate (1 := i); lia].
      cbn in E. rewrite (bs_ref _ _ _ _ B i) in E by lia. unfold pins, locks in E.
      rewrite (decide_False (P := i ∈ K.*1)) in E by done. case_decide as Hd; [|lia]. naive_solver. }
  apply submseteq_length in Hsub.
  rewrite length_app, !length_fmap, length_seq in Hsub. lia.
Qed.

(** An unpinned block that is not in hand is as on the disk. *)
Lemma sess_clean s me P K b :
  bsess s me P K -> b ∉ P -> b ∉ K.*2 -> bcontent s b = dget (disk s) b.
Proof.
  intros B HP HK. pose proof (bs_inv _ _ _ _ B) as I.
  destruct (cached_dec s b) as [(i & Hi & Hh)|Hn]; [|apply bcontent_miss; [done|]; intros; by apply Hn].
  destruct (b_valid (bufat i s)) eqn:Hv.
  - rewrite (bcontent_hit s b i) by done. destruct Hh as [Hd Hb].
    rewrite (bi_clean _ I i Hi); [by rewrite Hb| |done].
    rewrite (bs_ref _ _ _ _ B i Hi). unfold pins, locks.
    rewrite decide_False, decide_False; [done|..].
    + intros [b' Hk]%elem_of_fst. apply HK. apply elem_of_snd. exists i.
      pose proof (lk_holds _ _ _ _ (bs_locked _ _ _ _ B _ _ Hk)) as [_ Hb'].
      by rewrite <- Hb, Hb'.
    + rewrite Hb. naive_solver.
  - apply bcontent_miss; [done|]. intros j Hj Hvj Hhj. destruct Hh as [Hd Hb].
    assert (i = j) by (apply (bi_uniq _ I); [done|done|done|by rewrite Hb]). congruence.
Qed.

(** A buffer that [bread] returns is pinned as often as before. *)
Lemma bread_pins s me P K b i s' : bsess s me P K -> bread_post s me b i s' -> pins P (bufat i s') = pins P (bufat i s).
Proof.
  intros B [Hi E I' Ho Hh Hv Hl Hd Hr Hfrom Hc]. pose proof (bs_inv _ _ _ _ B) as I.
  destruct Hh as [Hd1 Hb1]. unfold pins. rewrite Hv, Hd1, Hb1. destruct Hfrom as [[Hd0 Hb0]|H0].
  - rewrite Hd0, Hb0. destruct (b_valid (bufat i s)) eqn:Hv0; [done|].
    rewrite (decide_False (P := false = true /\ _)) by naive_solver.
    rewrite decide_False; [done|]. intros (_ & _ & HP).
    destruct (bs_pin _ _ _ _ B b HP) as (k & Hk & [Hdk Hbk] & Hvk).
    assert (i = k); [|congruence]. apply (bi_uniq _ I); [done|done|done|]. by rewrite Hb0.
  - assert (pins P (bufat i s) = 0) as Hp0.
    { rewrite (bs_ref _ _ _ _ B i Hi) in H0. pose proof (pins_range P (bufat i s)).
      pose proof (locks_range K i). lia. }
    unfold pins in Hp0. rewrite Hp0. rewrite decide_False; [done|]. intros (_ & _ & HP).
    destruct (bs_pin _ _ _ _ B b HP) as (k & Hk & Hhk & Hvk).
    assert (k <> i) as Hki.
    { intros ->. destruct Hhk as [Hdk Hbk]. rewrite decide_True in Hp0 by (by rewrite Hbk). done. }
    apply Hki. symmetry. apply (bi_uniq _ I' i k); [done|done|done|]. rewrite Ho by done. by rewrite Hb1.
Qed.

Lemma wp_sbread s me P K b (Q : nat -> kst -> Prop) :
  bsess s me P K -> b ∉ K.*2 -> (b ∈ P \/ (length P + length K < NBUF)%nat) ->
  (forall i s', s' = set_bufs (bufs s') s -> bsess s' me P ((i, b) :: K) ->
     b_data (bufat i s') = bcontent s b -> (forall b', bcontent s' b' = bcontent s b') ->
     (forall j, j ∈ K.*1 -> bufat j s' = bufat j s) -> Q i s') ->
  wp (bread ROOTDEV b) Q s.
Proof.
  intros B HK Hav HQ. pose proof (bs_inv _ _ _ _ B) as I.
  assert (HnK : forall i, holds (bufat i s) b -> i ∉ K.*1).
  { intros i Hh [b' Hk]%elem_of_fst. apply HK, elem_of_snd. exists i.
    pose proof (lk_holds _ _ _ _ (bs_locked _ _ _ _ B _ _ Hk)) as [_ Hb'].
    destruct Hh as [_ <-]. by rewrite Hb'. }
  eapply wp_mono; [apply (wp_bread s me b); [done|apply B|apply B|..]|].
  - intros i Hi Hh. split; [apply (bs_unlocked _ _ _ _ B); auto|].
    rewrite (bs_ref _ _ _ _ B i Hi). pose proof (pins_range P (bufat i s)).
    pose proof (locks_range K i). lia.
  - destruct Hav as [HP|Hlt].
    + destruct (bs_pin _ _ _ _ B b HP) as (i & Hi & Hh & _). exists i. auto.
    + destruct (sess_free s me P K B Hlt) as (i & Hi & H0). exists i. auto.
  - intros i s' Hpost. pose proof (bread_locked _ _ _ _ _ I Hpost) as Hlk.
    pose proof Hpost as [Hi E I' Ho Hh Hv Hl Hd Hr Hfrom Hc].
    assert (Hnew : i ∉ K.*1).
    { destruct Hfrom as [?|H0]; [auto|]. rewrite (bs_ref _ _ _ _ B i Hi) in H0.
      unfold locks in H0. pose proof (pins_range P (bufat i s)). case_decide; [lia|done]. }
    assert (Hlocks : forall j, j <> i -> locks ((i, b) :: K) j = locks K j).
    { intros j Hj. unfold locks. cbn. destruct (decide (j ∈ K.*1)).
      - rewrite decide_True by set_solver. done.
      - rewrite decide_False by set_solver. done. }
    apply HQ; [done| |done|done|].
    2:{ intros j Hj. apply Ho. congruence. }
    split.
    + done.
    + eapply (running_same s); [apply same_procs_eq; by rewrite E|by rewrite E|by rewrite E|apply B].
    + red. rewrite E. apply B.
    + cbn. apply NoDup_cons. split; [done|apply B].
    + intros j b' [[= -> ->]|Hk]%elem_of_cons; [done|].
      assert (j <> i) as Hj by (intros ->; apply Hnew, elem_of_fst; eauto).
      destruct (bs_locked _ _ _ _ B _ _ Hk) as [? ? ? Hjl ?].
      split; rewrite ?(Ho j) by done; try done. rewrite Hjl. f_equal. by rewrite E.
    + intros j Hj Hn. cbn in Hn. rewrite Ho by set_solver. apply (bs_unlocked _ _ _ _ B); [done|set_solver].
    + apply B.
    + intros b' Hb'. destruct (bs_pin _ _ _ _ B b' Hb') as (j & Hj & Hhj & Hvj).
      destruct (decide (j = i)) as [->|Hji].
      * exists i. split_and!; [done| |done]. destruct Hfrom as [Hh0|H0].
        { destruct Hhj as [_ <-], Hh0 as [_ ->]. done. }
        exfalso. rewrite (bs_ref _ _ _ _ B i Hi) in H0. unfold pins in H0.
        destruct Hhj as [Hdj Hbj]. rewrite decide_True in H0 by (by rewrite Hbj).
        pose proof (locks_range K i). lia.
      * exists j. by rewrite Ho.
    + intros j Hj. destruct (decide (j = i)) as [->|Hji].
      * rewrite Hr, (bs_ref _ _ _ _ B i Hi). unfold locks. cbn.
        rewrite (decide_True (P := i ∈ i :: K.*1)) by set_solver.
        rewrite (decide_False (P := i ∈ K.*1)) by done.
        rewrite (bread_pins s me P K b i s' B Hpost). lia.
      * rewrite Ho by done. rewrite Hlocks by done. by apply (bs_ref _ _ _ _ B).
Qed.

(** ** Steps on a buffer in hand *)

Definition drop_buf (i : nat) K : list (nat * Z) := filter (fun kb => kb.1 <> i) K.

Lemma elem_of_drop_buf i K j b : (j, b) ∈ drop_buf i K <-> j <> i /\ (j, b) ∈ K.
Proof. unfold drop_buf. rewrite list_elem_of_filter. done. Qed.

Lemma elem_of_drop_fst i K j : j ∈ (drop_buf i K).*1 <-> j <> i /\ j ∈ K.*1.
Proof. rewrite !elem_of_fst. setoid_rewrite elem_of_drop_buf. naive_solver. Qed.

Lemma NoDup_drop_buf i K : NoDup K.*1 -> NoDup (drop_buf i K).*1.
Proof.
  induction K as [|[j b] K IH]; intros Hn; [done|]. cbn in Hn. apply NoDup_cons in Hn as [Hj Hn].
  unfold drop_buf. rewrite filter_cons. case_decide; [|by apply IH].
  cbn. apply NoDup_cons. split; [|by apply IH].
  change (filter _ K) with (drop_buf i K). rewrite elem_of_drop_fst. tauto.
Qed.

Lemma drop_buf_head i b K : i ∉ K.*1 -> drop_buf i ((i, b) :: K) = K.
Proof.
  intros Hi. unfold drop_buf. rewrite filter_cons_False by (cbn; tauto).
  induction K as [|[j b'] K IH]; [done|]. cbn in Hi. rewrite filter_cons_True by (cbn; set_solver).
  f_equal. apply IH. set_solver.
Qed.

(** What a step on buffer [i] may change, and what the new session is. *)
Record sess_step (s s' : kst) P K P' K' (i : nat) (b : Z) : Prop := {
  ss_in : (i, b) ∈ K;
  ss_inv : bio_inv s';
  ss_procs : same_procs s s';
  ss_cur : cur s' = cur s;
  ss_held : held s' = held s;
  ss_other j : (j < NBUF)%nat -> j <> i -> core (bufat j s') = core (bufat j s);
  ss_valid : b_valid (bufat i s') = b_valid (bufat i s);
  ss_dev : b_dev (bufat i s') = b_dev (bufat i s);
  ss_blockno : b_blockno (bufat i s') = b_blockno (bufat i s);
  ss_lock : (K' = K /\ b_lock (bufat i s') = b_lock (bufat i s) /\ 0 < b_refcnt (bufat i s')) \/
            (K' = drop_buf i K /\ sl_locked (b_lock (bufat i s')) = false);
  ss_P : NoDup P';
  ss_P_sub b' : b' ∈ P' -> b' ∈ P \/ b' = b;
  ss_P_sup b' : b' ∈ P -> b' <> b -> b' ∈ P';
  ss_ref : b_refcnt (bufat i s') = pins P' (bufat i s') + locks K' i
}.

Lemma bsess_step s s' me P K P' K' i b :
  bsess s me P K -> sess_step s s' P K P' K' i b -> bsess s' me P' K'.
Proof.
  intros B S. pose proof S as [Hin I' Sp Sc Sh So Sv Sd Sb Sl SP Ssub Ssup Sr].
  pose proof (bs_locked _ _ _ _ B _ _ Hin) as [Hi [Hd Hb] Hv Hl Hr].
  assert (HK' : forall j, j <> i -> j ∈ K'.*1 <-> j ∈ K.*1).
  { intros j Hj. destruct Sl as [[-> _]|[-> _]]; [done|]. rewrite elem_of_drop_fst. tauto. }
  split.
  - done.
  - eapply (running_same s); [done..|apply B].
  - red. rewrite Sh. apply B.
  - destruct Sl as [[-> _]|[-> _]]; [|apply NoDup_drop_buf]; apply B.
  - intros j b' Hj.
    assert ((j, b') ∈ K /\ (j = i -> K' = K)) as [HjK Heq].
    { destruct Sl as [[-> _]|[-> _]]; [done|]. apply elem_of_drop_buf in Hj as [? ?]. done. }
    pose proof (bs_locked _ _ _ _ B _ _ HjK) as [Hj1 [Hj2 Hj3] Hj4 Hj5 Hj6].
    destruct (decide (j = i)) as [->|Hji].
    + destruct Sl as [(_ & Sl1 & Sl2)|[E _]].
      * split; [done|split; congruence|congruence| |done].
        rewrite Sl1, Hj5. f_equal. symmetry. by apply same_pid.
      * exfalso. rewrite E in Hj. apply elem_of_drop_buf in Hj as [? _]. done.
    + destruct (core_fields _ _ (So j Hj1 Hji)) as (E1 & E2 & E3 & E4 & E5 & _).
      split; [done|split; congruence|congruence| |congruence].
      rewrite E4, Hj5. f_equal. symmetry. by apply same_pid.
  - intros j Hj Hn. destruct (decide (j = i)) as [->|Hji].
    + destruct Sl as [[-> _]|[_ Sl]]; [|done]. exfalso. apply Hn, elem_of_fst. eauto.
    + destruct (core_fields _ _ (So j Hj Hji)) as (_ & _ & _ & -> & _).
      apply (bs_unlocked _ _ _ _ B); [done|]. by rewrite <- HK'.
  - done.
  - intros b' Hb'. destruct (Ssub b' Hb') as [HP| ->].
    + destruct (bs_pin _ _ _ _ B b' HP) as (j & Hj & [Hj1 Hj2] & Hj3). exists j. split; [done|].
      destruct (decide (j = i)) as [->|Hji]; [split; [split|]; congruence|].
      destruct (core_fields _ _ (So j Hj Hji)) as (? & ? & ? & _). split; [split|]; congruence.
    + exists i. split_and!; [done| |congruence]. split; congruence.
  - intros j Hj. destruct (decide (j = i)) as [->|Hji]; [done|].
    destruct (core_fields _ _ (So j Hj Hji)) as (E1 & E2 & E3 & _ & -> & _).
    rewrite (bs_ref _ _ _ _ B j Hj). f_equal.
    + unfold pins. rewrite E1, E2, E3. destruct (decide (b_blockno (bufat j s) = b)) as [Ejb|Hne].
      * rewrite !decide_False; [done|..]; intros (Hjv & Hjd & _); apply Hji; symmetry;
          (apply (bi_uniq _ (bs_inv _ _ _ _ B) i j Hi Hj Hd); split; congruence).
      * destruct (decide (b_valid (bufat j s) = true /\ b_dev (bufat j s) = ROOTDEV /\
          b_blockno (bufat j s) ∈ P)) as [(?&?&?)|Hn].
        -- rewrite decide_True; [done|]. split_and!; [done..|]. by apply Ssup.
        -- rewrite decide_False; [done|]. intros (?&?&HP'). apply Hn. split_and!; [done..|].
           by destruct (Ssub _ HP').
    + unfold locks. destruct (decide (j ∈ K.*1)) as [HK|HK]; rewrite <- (HK' j Hji) in HK.
      * by rewrite decide_True.
      * by rewrite decide_False.
Qed.

(** The facts about the session's own buffer that every step needs. *)
Lemma sess_buf s me P K i b :
  bsess s me P K -> (i, b) ∈ K ->
  locked s me i b /\ b_refcnt (bufat i s) = (if decide (b ∈ P) then 2 else 1) /\
  pins P (bufat i s) = (if decide (b ∈ P) then 1 else 0) /\ locks K i = 1.
Proof.
  intros B Hin. pose proof (bs_locked _ _ _ _ B _ _ Hin) as Hl. pose proof Hl as [Hi [Hd Hb] Hv _ _].
  assert (Hp : pins P (bufat i s) = if decide (b ∈ P) then 1 else 0).
  { unfold pins. rewrite Hv, Hd, Hb. destruct (decide (b ∈ P)).
    - by rewrite decide_True.
    - rewrite decide_False; [done|]. naive_solver. }
  assert (Hk : locks K i = 1).
  { unfold locks. rewrite decide_True; [done|]. apply elem_of_fst. eauto. }
  split_and!; [done| |done|done]. rewrite (bs_ref _ _ _ _ B i Hi), Hp, Hk. by case_decide.
Qed.

(** Data computed from the old data of the buffer. *)
Lemma alter_data s i g d : g (b_data (bufat i s)) = d ->
  alter (fun x => set_b_data (g (b_data x)) x) i (bufs s) = alter (set_b_data d) i (bufs s).
Proof.
  intros <-. apply list_eq. intros k.
  destruct (decide (i = k)) as [<-|]; [|by rewrite !list_lookup_alter_ne].
  rewrite !list_lookup_alter_eq. destruct (bufs s !! i) eqn:Ei; [|done]. cbn.
  unfold bufat. by rewrite (list_lookup_total_correct _ _ _ Ei).
Qed.

Lemma wp_updb_data {A} s i g d (k : M A) (Q : A -> kst -> Prop) :
  g (b_data (bufat i s)) = d ->
  wp (updb i (set_b_data d) ;;; k) Q s ->
  wp (updb i (fun x => set_b_data (g (b_data x)) x) ;;; k) Q s.
Proof.
  intros Hd H. unfold wp, bind, updb, upd in *. by rewrite (alter_data s i g d Hd).
Qed.

Lemma sess_set_data s me P K i b d :
  bsess s me P K -> (i, b) ∈ K -> length d = 1024%nat ->
  let s' := set_bufs (alter (set_b_data d) i (bufs s)) s in
  bsess s' me P K /\ b_data (bufat i s') = d /\
  (forall j, j <> i -> bufat j s' = bufat j s) /\
  forall b', bcontent s' b' = if decide (b' = b) then d else bcontent s b'.
Proof.
  intros B Hin Hd s'. destruct (sess_buf s me P K i b B Hin) as (Hl & Hr & Hp & Hk).
  destruct (bset_data s me i b d) as (I' & Hl' & Ed & Ec); [apply B|done|done|].
  pose proof (bi_len _ (bs_inv _ _ _ _ B)) as Hlen. pose proof (lk_lt _ _ _ _ Hl) as Hi.
  assert (Eb : forall j, bufat j s' = if decide (i = j) then set_b_data d (bufat i s) else bufat j s).
  { intros j. unfold s'. by rewrite bufat_alter by lia. }
  split_and!; [|done| |done].
  - eapply (bsess_step s s' me P K P K i b); [done|].
    split; rewrite ?Eb, ?decide_True by done; try done.
    + intros j _ Hj. by rewrite Eb, decide_False.
    + left. split_and!; [done..|]. cbn. rewrite Hr. case_decide; lia.
    + apply B.
    + by left.
    + cbn. rewrite Hr, Hk. change (pins P (set_b_data d (bufat i s))) with (pins P (bufat i s)).
      rewrite Hp. by case_decide.
  - intros j Hj. by rewrite Eb, decide_False.
Qed.

Lemma wp_sbwrite s me P K i b (Q : unit -> kst -> Prop) :
  bsess s me P K -> (i, b) ∈ K ->
  (forall s', s' = set_dwrites (dwrites s ++ [(b, b_data (bufat i s))])
                (set_disk (<[b := b_data (bufat i s)]> (disk s)) s) ->
     bsess s' me P K -> (forall b', bcontent s' b' = bcontent s b') -> Q tt s') ->
  wp (bwrite i) Q s.
Proof.
  intros B Hin HQ. destruct (sess_buf s me P K i b B Hin) as (Hl & Hr & Hp & Hk).
  eapply wp_bwrite; [apply B|apply B|apply B|done|]. intros s' E I' Ec. apply HQ; [done| |done].
  assert (Eb : forall j, bufat j s' = bufat j s) by (intros; by rewrite E).
  eapply (bsess_step s s' me P K P K i b); [done|].
  split; rewrite ?Eb; try done.
  - apply same_procs_eq. by rewrite E.
  - by rewrite E.
  - by rewrite E.
  - intros j _ _. by rewrite Eb.
  - left. split_and!; [done..|]. rewrite Hr. case_decide; lia.
  - apply B.
  - by left.
  - rewrite Hr, Hk, Hp. by case_decide.
Qed.

(** The buffer is given back: pinned, or unchanged from the disk. *)
Lemma wp_sbrelse s me P K i b (Q : unit -> kst -> Prop) :
  bsess s me P K -> (i, b) ∈ K -> (b ∈ P \/ b_data (bufat i s) = dget (disk s) b) ->
  (forall s', s' = set_procs (procs s') (set_bufs (bufs s') s) -> same_procs s s' ->
     bsess s' me P (drop_buf i K) -> (forall b', bcontent s' b' = bcontent s b') ->
     (forall j, j ∈ K.*1 -> j <> i -> b_data (bufat j s') = b_data (bufat j s)) -> Q tt s') ->
  wp (brelse i) Q s.
Proof.
  intros B Hin Hcl HQ. destruct (sess_buf s me P K i b B Hin) as (Hl & Hr & Hp & Hk).
  eapply wp_brelse; [apply B|apply B|apply B|done|..].
  { intros H1. destruct Hcl as [HP|?]; [|done]. rewrite decide_True in Hr by done. lia. }
  intros s' E Sp I' So Ei Ec.
  destruct (core_fields _ _ Ei) as (Fv & Fd & Fb & Fl & Fr & _). cbn in Fv, Fd, Fb, Fl, Fr.
  apply HQ; [done|done| |done|].
  - eapply (bsess_step s s' me P K P _ i b); [done|].
    split; try done.
    + by rewrite E.
    + by rewrite E.
    + intros j _ Hj. by apply So.
    + right. split; [done|]. by rewrite Fl.
    + apply B.
    + by left.
    + rewrite Fr, Hr. unfold pins. rewrite Fv, Fd, Fb. change (if decide _ then 1 else 0) with (pins P (bufat i s)).
      rewrite Hp. unfold locks. rewrite (decide_False (P := i ∈ (drop_buf i K).*1)); [by case_decide|].
      rewrite elem_of_drop_fst. tauto.
  - intros j _ Hj. by apply core_fields, So.
Qed.

(** A pinned buffer in hand loses its pin. *)
Lemma wp_sbunpin s me P K i b (Q : unit -> kst -> Prop) :
  bsess s me P K -> (i, b) ∈ K -> b ∈ P ->
  (forall s', s' = set_bufs (bufs s') s ->
     bsess s' me (filter (fun b' => b' <> b) P) K -> (forall b', bcontent s' b' = bcontent s b') ->
     (forall j, b_data (bufat j s') = b_data (bufat j s)) -> Q tt s') ->
  wp (bunpin i) Q s.
Proof.
  intros B Hin HP HQ. destruct (sess_buf s me P K i b B Hin) as (Hl & Hr & Hp & Hk).
  rewrite decide_True in Hr, Hp by done. pose proof Hl as [Hi [Hd Hb] Hv _ _].
  eapply (wp_bunpin s i b); [apply B|apply bl_free, B|done|done|done|lia|].
  intros s' E I' So Ei Ec.
  assert (Eb : b_data (bufat i s') = b_data (bufat i s)) by (by rewrite Ei).
  apply HQ; [done| |done|].
  - eapply (bsess_step s s' me P K _ K i b); [done|].
    split; rewrite ?Ei; try done.
    + apply same_procs_eq. by rewrite E.
    + by rewrite E.
    + by rewrite E.
    + intros j _ Hj. by rewrite So.
    + left. split_and!; [done..|]. cbn. lia.
    + apply NoDup_filter, B.
    + intros b' Hb'. apply list_elem_of_filter in Hb' as [_ ?]. by left.
    + intros b' Hb' Hne. by apply list_elem_of_filter.
    + cbn. rewrite Hr, Hk. unfold pins. cbn. rewrite decide_False; [done|].
      rewrite Hb, list_elem_of_filter. naive_solver.
  - intros j. destruct (decide (j = i)) as [->|]; [done|]. by rewrite So.
Qed.

(** [bpin] is called with the log's lock held. *)
Lemma wp_sbpin s s1 me P K i b (Q : unit -> kst -> Prop) :
  bsess s me P K -> (i, b) ∈ K -> b ∉ P ->
  bufs s1 = bufs s -> disk s1 = disk s -> LkBcache ∉ held s1 ->
  (forall s', s' = set_bufs (bufs s') s1 ->
     bsess (set_bufs (bufs s') s) me (P ++ [b]) K -> (forall b', bcontent s' b' = bcontent s b') ->
     (forall j, b_data (bufat j s') = b_data (bufat j s)) -> Q tt s') ->
  wp (bpin i) Q s1.
Proof.
  intros B Hin HP Eb Ed Hlk HQ. destruct (sess_buf s me P K i b B Hin) as (Hl & Hr & Hp & Hk).
  rewrite decide_False in Hr, Hp by done. pose proof Hl as [Hi [Hd Hb] Hv _ _].
  assert (Ebf : forall j, bufat j s1 = bufat j s) by (intros; unfold bufat; by rewrite Eb).
  assert (Ebc : forall b', bcontent s1 b' = bcontent s b') by (intros; unfold bcontent; by rewrite Eb, Ed).
  assert (I1 : bio_inv s1).
  { pose proof (bs_inv _ _ _ _ B) as [? ? ? ? ? ? ? ? ?]. split; try done; try (intros *; rewrite ?Ebf, ?Ed; auto).
    all: rewrite Eb; done. }
  eapply (wp_bpin s1 i b); [done|done|done|by rewrite Ebf|by rewrite Ebf|rewrite Ebf; lia|].
  intros s' E I' So Ei Ec. apply HQ; [done| |intros; by rewrite Ec|].
  - eapply (bsess_step s (set_bufs (bufs s') s) me P K _ K i b); [done|].
    assert (Eb' : forall j, bufat j (set_bufs (bufs s') s) = bufat j s') by done.
    assert (Ed' : disk s' = disk s) by (rewrite E; done).
    split; rewrite ?Eb', ?Ei, ?Ebf; try done.
    + destruct I' as [? ? ? ? ? ? ? ? ?]. split; try done; cbn [disk set_bufs]; rewrite <- Ed'; done.
    + intros j _ Hj. by rewrite Eb', So, Ebf.
    + left. split_and!; [done..|]. cbn. lia.
    + apply NoDup_app. split_and!; [apply B| |apply NoDup_singleton]. set_solver.
    + intros b' Hb'. set_solver.
    + intros b' Hb' Hne. set_solver.
    + cbn. rewrite Hr, Hk. unfold pins. cbn. rewrite decide_True; [done|].
      rewrite Hb. set_solver.
  - intros j. destruct (decide (j = i)) as [->|]; [by rewrite Ei, Ebf|]. by rewrite So, Ebf.
Qed.

End BioSess.
