(* ===== verification/Log.v ===== *)
(** [kernel/log.c]: the write-ahead log. *)
From S2P Require Import Prelude Types Str Kalloc Vm Sched Sleeplock Bio.

Section Log.
Context {L : Linker}.

Definition getl {A} (f : logstate -> A) : M A := get (fun s => f (log s)).
Definition updl (f : logstate -> logstate) : M unit := upd (fun s => set_log (f (log s)) s).

(** The header block holds [n] and then the block numbers, four bytes each. *)
Definition hdr_n (d : list Z) : Z := get32 d 0.
Definition hdr_block (d : list Z) (i : nat) : Z := get32 d (4 + 4 * i).

(** [log.lh.block[i]]. *)
Definition lblock (l : logstate) (i : nat) : Z := nth i (l_block l) 0.

(** ** Installing and the header *)

Fixpoint install_trans_loop (recovering : bool) (tail k : nat) : M unit :=
  match k with
  | O => ret tt
  | S k' =>
      let! l := getl (fun l => l) in
      let! lbuf := bread (l_dev l) (u32 (l_start l + Z.of_nat tail + 1)) in
      let! dbuf := bread (l_dev l) (u32 (lblock l tail)) in
      let! d := getb lbuf b_data in
      updb dbuf (set_b_data d) ;;;
      bwrite dbuf ;;;
      (if recovering then ret tt else bunpin dbuf) ;;;
      brelse lbuf ;;;
      brelse dbuf ;;;
      install_trans_loop recovering (S tail) k'
  end.

Definition install_trans (recovering : bool) : M unit :=
  let! n := getl l_n in
  install_trans_loop recovering 0 (Z.to_nat n).

Fixpoint read_head_loop (d : list Z) (i k : nat) : M unit :=
  match k with
  | O => ret tt
  | S k' =>
      updl (fun l => set_l_block (<[i := hdr_block d i]> (l_block l)) l) ;;;
      read_head_loop d (S i) k'
  end.

Definition read_head : M unit :=
  let! l := getl (fun l => l) in
  let! b := bread (l_dev l) (u32 (l_start l)) in
  let! d := getb b b_data in
  updl (set_l_n (hdr_n d)) ;;;
  read_head_loop d 0 (Z.to_nat (hdr_n d)) ;;;
  brelse b.

(** The header fields stored over the old content of the block. *)
Fixpoint put_blocks (d : list Z) (blocks : list Z) (i k : nat) : list Z :=
  match k with
  | O => d
  | S k' => put_blocks (put32 d (4 + 4 * i) (nth i blocks 0)) blocks (S i) k'
  end.

Definition put_header (d : list Z) (l : logstate) : list Z :=
  put_blocks (put32 d 0 (l_n l)) (l_block l) 0 (Z.to_nat (l_n l)).

Definition write_head : M unit :=
  let! l := getl (fun l => l) in
  let! b := bread (l_dev l) (u32 (l_start l)) in
  updb b (fun x => set_b_data (put_header (b_data x) l) x) ;;;
  bwrite b ;;;
  brelse b.

Definition recover_from_log : M unit :=
  read_head ;;;
  install_trans true ;;;
  updl (set_l_n 0) ;;;
  write_head.

(** [sizeof(struct logheader)] is [4 * (1 + LOGSIZE)], less than [BSIZE]. *)
Definition initlog (dev : Z) (sb : superblock) : M unit :=
  updl (set_l_start (i32 (sb_logstart sb))) ;;;
  updl (set_l_size (i32 (sb_nlog sb))) ;;;
  updl (set_l_dev dev) ;;;
  recover_from_log.

(** ** Transactions *)

Definition begin_op : M unit :=
  acquire LkLog ;;;
  let! l := getl (fun l => l) in
  if l_committing l then sleep ChLog LkLog
  else if LOGSIZE <? l_n l + (l_outstanding l + 1) * MAXOPBLOCKS then sleep ChLog LkLog
  else
    updl (set_l_outstanding (l_outstanding l + 1)) ;;;
    release LkLog.

Fixpoint write_log_loop (tail k : nat) : M unit :=
  match k with
  | O => ret tt
  | S k' =>
      let! l := getl (fun l => l) in
      let! to := bread (l_dev l) (u32 (l_start l + Z.of_nat tail + 1)) in
      let! from := bread (l_dev l) (u32 (lblock l tail)) in
      let! d := getb from b_data in
      updb to (set_b_data d) ;;;
      bwrite to ;;;
      brelse from ;;;
      brelse to ;;;
      write_log_loop (S tail) k'
  end.

Definition write_log : M unit :=
  let! n := getl l_n in
  write_log_loop 0 (Z.to_nat n).

Definition commit : M unit :=
  let! n := getl l_n in
  if 0 <? n then
    write_log ;;;
    write_head ;;;
    install_trans false ;;;
    updl (set_l_n 0) ;;;
    write_head
  else ret tt.

Definition end_op : M unit :=
  acquire LkLog ;;;
  let! l := getl (fun l => l) in
  updl (set_l_outstanding (l_outstanding l - 1)) ;;;
  if l_committing l then panic "log.committing"
  else
    let do_commit := l_outstanding l - 1 =? 0 in
    (if do_commit then updl (set_l_committing true) else wakeup ChLog) ;;;
    release LkLog ;;;
    if do_commit then
      commit ;;;
      acquire LkLog ;;;
      updl (set_l_committing false) ;;;
      wakeup ChLog ;;;
      release LkLog
    else ret tt.

(** The index of [blockno] in the header, or [n] when it is not there. *)
Fixpoint log_find (l : logstate) (blockno : Z) (i k : nat) : nat :=
  match k with
  | O => i
  | S k' => if u32 (lblock l i) =? blockno then i else log_find l blockno (S i) k'
  end.

Definition log_full (l : logstate) : bool := (LOGSIZE <=? l_n l) || (l_size l - 1 <=? l_n l).

Definition log_write (b : nat) : M unit :=
  acquire LkLog ;;;
  let! l := getl (fun l => l) in
  if log_full l then panic "too big a transaction"
  else if l_outstanding l <? 1 then panic "log_write outside of trans"
  else
    let! blockno := getb b b_blockno in
    let i := log_find l blockno 0 (Z.to_nat (l_n l)) in
    updl (fun l => set_l_block (<[i := i32 blockno]> (l_block l)) l) ;;;
    (if Z.of_nat i =? l_n l then
       bpin b ;;;
       updl (set_l_n (l_n l + 1))
     else ret tt) ;;;
    release LkLog.

End Log.
