(* ===== verification/LogSpec.v ===== *)
(** What the log writes, in which order, and why a crash at any point between two
    writes is recovered from. *)
From S2P Require Import Prelude Types Str Kalloc Vm Sched Sleeplock Bio BioSess Log.

(** ** Disk writes *)

Definition apply_writes (d : gmap Z (list Z)) (ws : list (Z * list Z)) : gmap Z (list Z) :=
  fold_left (fun d w => <[w.1 := w.2]> d) ws d.

Lemma apply_writes_app d ws1 ws2 :
  apply_writes d (ws1 ++ ws2) = apply_writes (apply_writes d ws1) ws2.
Proof. apply fold_left_app. Qed.

Lemma apply_writes_cons d b v ws :
  apply_writes d ((b, v) :: ws) = apply_writes (<[b := v]> d) ws.
Proof. done. Qed.

#[global] Arguments apply_writes : simpl never.

Section LogSpec.
Context {L : Linker}.
Implicit Types (ws : list (Z * list Z)) (P : list Z).

(** [s'] comes from [s] by writing the blocks [ws] to the disk, in that order; of
    the rest of the state only the cache changed, and which processes may run. *)
Record io (s : kst) ws (s' : kst) : Prop := {
  io_state : s' = set_procs (procs s') (set_bufs (bufs s') (set_disk (disk s') (set_dwrites (dwrites s') s)));
  io_procs : same_procs s s';
  io_writes : dwrites s' = dwrites s ++ ws;
  io_disk : disk s' = apply_writes (disk s) ws
}.

Lemma io_refl s : io s [] s.
Proof. split; [by destruct s|done|by rewrite app_nil_r|done]. Qed.

Lemma io_trans s1 ws1 s2 ws2 s3 : io s1 ws1 s2 -> io s2 ws2 s3 -> io s1 (ws1 ++ ws2) s3.
Proof.
  intros [E1 P1 W1 D1] [E2 P2 W2 D2]. split.
  - rewrite E2, E1. done.
  - by eapply same_procs_trans.
  - by rewrite W2, W1, app_assoc.
  - by rewrite D2, D1, apply_writes_app.
Qed.

Lemma io_bufs s s' : s' = set_bufs (bufs s') s -> io s [] s'.
Proof.
  intros E. split; [by rewrite E; destruct s|apply same_procs_eq; by rewrite E| |by rewrite E].
  rewrite app_nil_r. by rewrite E.
Qed.

Lemma io_procs_bufs s s' :
  s' = set_procs (procs s') (set_bufs (bufs s') s) -> same_procs s s' -> io s [] s'.
Proof.
  intros E Sp. split; [by rewrite E; destruct s|done| |by rewrite E].
  rewrite app_nil_r. by rewrite E.
Qed.

Lemma io_write s b d s' :
  s' = set_dwrites (dwrites s ++ [(b, d)]) (set_disk (<[b := d]> (disk s)) s) -> io s [(b, d)] s'.
Proof. intros E. split; [rewrite E; by destruct s|by apply same_procs_eq; rewrite E|by rewrite E..]. Qed.

Lemma io_log s ws s' : io s ws s' -> log s' = log s.
Proof. intros [E _ _ _]. by rewrite E. Qed.

(** ** Copying one block to another *)

(** As [write_log] does: destination first. *)
Lemma wp_log_copy {A} s me P a c (k : M A) (Q : A -> kst -> Prop) :
  bsess s me P [] -> c ∈ P -> a ∉ P -> (length P < NBUF)%nat ->
  (forall s', io s [(a, bcontent s c)] s' -> bsess s' me P [] ->
     (forall b', bcontent s' b' = if decide (b' = a) then bcontent s c else bcontent s b') ->
     wp k Q s') ->
  wp (let! to := bread ROOTDEV a in
      let! from := bread ROOTDEV c in
      let! d := getb from b_data in
      updb to (set_b_data d) ;;;
      bwrite to ;;;
      brelse from ;;;
      brelse to ;;;
      k) Q s.
Proof.
  intros B Hc Ha HP HQ.
  wp_step. eapply wp_sbread; [done|set_solver|right; cbn; lia|].
  intros i s1 E1 B1 Hd1 C1 _. wp_step. eapply wp_sbread; [done|set_solver|by left|].
  intros j s2 E2 B2 Hd2 C2 O2. wp_step. apply wp_get. rewrite Hd2, C1.
  assert (Hij : i <> j).
  { intros ->. pose proof (bs_K _ _ _ _ B2) as Hn. cbn in Hn. apply NoDup_cons in Hn. set_solver. }
  destruct (sess_set_data s2 me P [(j, c); (i, a)] i a (bcontent s c)) as (B3 & Hd3 & O3 & C3);
    [done|set_solver|apply bcontent_len, B|].
  wp_step. apply wp_upd. set (s3 := set_bufs _ s2) in *.
  wp_step. eapply (wp_sbwrite s3 me P _ i a); [done|set_solver|].
  intros s4 E4 B4 C4. rewrite Hd3 in E4.
  wp_step. eapply (wp_sbrelse s4 me P _ j c); [done|set_solver|by left|].
  intros s5 E5 Sp5 B5 C5 O5.
  wp_step. eapply (wp_sbrelse s5 me P _ i a); [done|apply elem_of_drop_buf; set_solver| |].
  { right. assert (b_data (bufat i s4) = bcontent s c) as Eb by (rewrite E4; exact Hd3).
    rewrite O5, Eb by set_solver. rewrite E5. cbn [disk set_procs set_bufs]. rewrite E4.
    cbn [disk set_dwrites set_disk]. unfold dget. by rewrite lookup_insert_eq. }
  intros s6 E6 Sp6 B6 C6 _. apply HQ.
  - change [(a, bcontent s c)] with ([] ++ [] ++ [] ++ [(a, bcontent s c)] ++ [] ++ []).
    eapply io_trans; [by apply io_bufs|]. eapply io_trans; [by apply io_bufs|].
    eapply io_trans; [by apply (io_bufs s2 s3)|]. eapply io_trans; [by apply io_write|].
    eapply io_trans; by apply io_procs_bufs.
  - assert (drop_buf i (drop_buf j [(j, c); (i, a)]) = []) as Edrop; [|by rewrite Edrop in B6].
    rewrite drop_buf_head by set_solver. apply drop_buf_head. set_solver.
  - intros b'. rewrite C6, C5, C4, C3, C2, C1. done.
Qed.

(** As [install_trans] does: from the log to the home block, which loses its pin
    unless the kernel is recovering. *)
Lemma wp_install_copy {A} s me P a c (recovering : bool) (k : M A) (Q : A -> kst -> Prop) :
  bsess s me P [] -> c ∉ P -> a <> c ->
  (if recovering then P = [] else a ∈ P) -> (length P < NBUF)%nat ->
  (forall s', io s [(a, bcontent s c)] s' ->
     bsess s' me (if recovering then [] else filter (fun b' => b' <> a) P) [] ->
     (forall b', bcontent s' b' = if decide (b' = a) then bcontent s c else bcontent s b') ->
     wp k Q s') ->
  wp (let! lbuf := bread ROOTDEV c in
      let! dbuf := bread ROOTDEV a in
      let! d := getb lbuf b_data in
      updb dbuf (set_b_data d) ;;;
      bwrite dbuf ;;;
      (if recovering then ret tt else bunpin dbuf) ;;;
      brelse lbuf ;;;
      brelse dbuf ;;;
      k) Q s.
Proof.
  intros B Hc Hac HP Hlen HQ.
  assert (Hcd : bcontent s c = dget (disk s) c) by (by eapply sess_clean; [done|done|set_solver]).
  wp_step. eapply wp_sbread; [done|set_solver|right; cbn; lia|].
  intros i s1 E1 B1 Hd1 C1 _. wp_step.
  eapply wp_sbread; [done|set_solver|destruct recovering; [right; subst; cbn; lia|by left]|].
  intros j s2 E2 B2 Hd2 C2 O2. wp_step. apply wp_get.
  assert (Hij : i <> j).
  { intros ->. pose proof (bs_K _ _ _ _ B2) as Hn. cbn in Hn. apply NoDup_cons in Hn. set_solver. }
  assert (Hdi : b_data (bufat i s2) = bcontent s c) by (by rewrite O2 by set_solver). rewrite Hdi.
  destruct (sess_set_data s2 me P [(j, a); (i, c)] j a (bcontent s c)) as (B3 & Hd3 & O3 & C3);
    [done|set_solver|apply bcontent_len, B|].
  wp_step. apply wp_upd. set (s3 := set_bufs _ s2) in *.
  wp_step. eapply (wp_sbwrite s3 me P _ j a); [done|set_solver|].
  intros s4 E4 B4 C4. rewrite Hd3 in E4.
  assert (Hdj4 : b_data (bufat j s4) = bcontent s c) by (rewrite E4; exact Hd3).
  assert (Hdi4 : b_data (bufat i s4) = bcontent s c).
  { rewrite E4. change (bufat i (set_dwrites _ _)) with (bufat i s3). by rewrite O3. }
  set (P' := if recovering then [] else filter (fun b' => b' <> a) P).
  wp_step. eapply (wp_mono _ (fun _ s5 => s5 = set_bufs (bufs s5) s4 /\ bsess s5 me P' [(j, a); (i, c)] /\
    (forall b', bcontent s5 b' = bcontent s4 b') /\
    (forall k, b_data (bufat k s5) = b_data (bufat k s4)))).
  { destruct recovering; [apply wp_ret; unfold P'; rewrite HP in B4; split_and!; [by destruct s4|done..]|].
    eapply (wp_sbunpin s4 me P _ j a); [done|set_solver|done|]. intros s5 E5 B5 C5 D5. done. }
  intros [] s5 (E5 & B5 & C5 & D5).
  assert (Hdk5 : disk s5 = <[a := bcontent s c]> (disk s)).
  { rewrite E5. cbn. rewrite E4. cbn. rewrite E2. cbn. by rewrite E1. }
  wp_step. eapply (wp_sbrelse s5 me P' _ i c); [done|set_solver| |].
  { right. rewrite D5, Hdi4, Hdk5. unfold dget. rewrite lookup_insert_ne by done. done. }
  intros s6 E6 Sp6 B6 C6 O6.
  wp_step. eapply (wp_sbrelse s6 me P' _ j a); [done|apply elem_of_drop_buf; set_solver| |].
  { right. rewrite O6, D5, Hdj4 by set_solver. rewrite E6. cbn. rewrite Hdk5. unfold dget.
    by rewrite lookup_insert_eq. }
  intros s7 E7 Sp7 B7 C7 _. apply HQ.
  - change [(a, bcontent s c)] with ([] ++ [] ++ [] ++ [(a, bcontent s c)] ++ [] ++ [] ++ []).
    eapply io_trans; [by apply io_bufs|]. eapply io_trans; [by apply io_bufs|].
    eapply io_trans; [by apply (io_bufs s2 s3)|]. eapply io_trans; [by apply io_write|].
    eapply io_trans; [by apply (io_bufs s4 s5)|].
    eapply io_trans; by apply io_procs_bufs.
  - assert (drop_buf j (drop_buf i [(j, a); (i, c)]) = []) as Edrop; [|by rewrite Edrop in B7].
    destruct (drop_buf j _) as [|[x y] l] eqn:E; [done|].
    assert ((x, y) ∈ drop_buf j (drop_buf i [(j, a); (i, c)])) as Hx by (rewrite E; set_solver).
    rewrite !elem_of_drop_buf in Hx. set_solver.
  - intros b'. rewrite C7, C6, C5, C4, C3, C2, C1. done.
Qed.

(** ** The header *)

Lemma length_put_blocks k : forall d bl i,
  (4 + 4 * (i + k) <= length d)%nat -> length (put_blocks d bl i k) = length d.
Proof.
  induction k as [|k IH]; intros d bl i Hl; cbn [put_blocks]; [done|].
  rewrite IH; rewrite length_put32; lia.
Qed.

Lemma length_put_header d l :
  (Z.to_nat (l_n l) <= 30)%nat -> length d = 1024%nat -> length (put_header d l) = 1024%nat.
Proof.
  intros Hn Hd. unfold put_header. rewrite length_put_blocks; rewrite length_put32; lia.
Qed.

Lemma put_blocks_n k : forall d bl i,
  (4 + 4 * (i + k) <= length d)%nat -> hdr_n (put_blocks d bl i k) = hdr_n d.
Proof.
  induction k as [|k IH]; intros d bl i Hl; cbn [put_blocks]; [done|].
  rewrite IH by (rewrite length_put32; lia). apply get32_put32_ne; lia.
Qed.

Lemma put_blocks_block k : forall d bl i j,
  (4 + 4 * (i + k) <= length d)%nat ->
  hdr_block (put_blocks d bl i k) j =
    if decide (i <= j < i + k)%nat then i32 (nth j bl 0) else hdr_block d j.
Proof.
  induction k as [|k IH]; intros d bl i j Hl; cbn [put_blocks].
  { by rewrite decide_False by lia. }
  rewrite IH by (rewrite length_put32; lia). unfold hdr_block.
  destruct (decide (j = i)) as [->|Hne].
  - rewrite decide_False, decide_True by lia. apply get32_put32. lia.
  - rewrite get32_put32_ne by lia. by repeat case_decide; lia || done.
Qed.

(** The header reads back what was put there. *)
Lemma hdr_n_put d l :
  (Z.to_nat (l_n l) <= 30)%nat -> length d = 1024%nat -> hdr_n (put_header d l) = i32 (l_n l).
Proof.
  intros Hn Hd. unfold put_header. rewrite put_blocks_n by (rewrite length_put32; lia).
  apply get32_put32. lia.
Qed.

Lemma hdr_block_put d l j :
  (Z.to_nat (l_n l) <= 30)%nat -> length d = 1024%nat -> (j < Z.to_nat (l_n l))%nat ->
  hdr_block (put_header d l) j = i32 (nth j (l_block l) 0).
Proof.
  intros Hn Hd Hj. unfold put_header. rewrite put_blocks_block by (rewrite length_put32; lia).
  by rewrite decide_True by lia.
Qed.

Lemma wp_write_head s me P (Q : unit -> kst -> Prop) :
  let l := log s in let st := u32 (l_start l) in
  bsess s me P [] -> l_dev l = ROOTDEV -> st ∉ P -> (length P < NBUF)%nat ->
  (Z.to_nat (l_n l) <= 30)%nat ->
  (forall s', io s [(st, put_header (bcontent s st) l)] s' -> bsess s' me P [] ->
     (forall b', bcontent s' b' = if decide (b' = st) then put_header (bcontent s st) l else bcontent s b') ->
     Q tt s') ->
  wp write_head Q s.
Proof.
  intros l st B Hdev Hst HP Hn HQ. unfold write_head.
  wp_step. apply wp_get. fold l. rewrite Hdev. fold st.
  wp_step. eapply wp_sbread; [done|set_solver|right; cbn; lia|].
  intros i s1 E1 B1 Hd1 C1 _.
  set (d := put_header (bcontent s st) l).
  wp_step. apply wp_upd.
  rewrite (alter_data s1 i (fun x => put_header x l) d) by (unfold d; by rewrite Hd1).
  destruct (sess_set_data s1 me P [(i, st)] i st d) as (B2 & Hd2 & O2 & C2);
    [done|set_solver|apply length_put_header; [done|apply bcontent_len, B]|].
  set (s2 := set_bufs _ s1) in *.
  wp_step. eapply (wp_sbwrite s2 me P _ i st); [done|set_solver|].
  intros s3 E3 B3 C3. rewrite Hd2 in E3.
  assert (Hd3 : b_data (bufat i s3) = d) by (rewrite E3; exact Hd2).
  eapply (wp_sbrelse s3 me P _ i st); [done|set_solver| |].
  { right. rewrite Hd3. rewrite E3. cbn. unfold dget. by rewrite lookup_insert_eq. }
  intros s4 E4 Sp4 B4 C4 _. apply HQ.
  - change (io s ([] ++ [] ++ [(st, d)] ++ []) s4).
    eapply io_trans; [by apply io_bufs|]. eapply io_trans; [by apply (io_bufs s1 s2)|].
    eapply io_trans; [by apply io_write|]. by apply io_procs_bufs.
  - by rewrite drop_buf_head in B4 by set_solver.
  - intros b'. rewrite C4, C3, C2, C1. done.
Qed.

(** ** The blocks of a transaction *)

Definition slot (l : logstate) (i : nat) : Z := l_start l + 1 + Z.of_nat i.

(** The log area is [l_start, l_start + l_size); the header names [blocks], which
    lie outside it and fit in it, and fewer than there are buffers. *)
Record txn (l : logstate) (blocks : list Z) : Prop := {
  tx_dev : l_dev l = ROOTDEV;
  tx_start : 0 <= l_start l;
  tx_end : l_start l + l_size l < 2 ^ 31;
  tx_n : l_n l = Z.of_nat (length blocks);
  tx_block i : (i < length blocks)%nat -> lblock l i = nth i blocks 0;
  tx_size : Z.of_nat (length blocks) < l_size l;
  tx_max : (length blocks < NBUF)%nat;
  tx_nodup : NoDup blocks;
  tx_range b : b ∈ blocks -> 0 <= b < 2 ^ 31 /\ ~ (l_start l <= b < l_start l + l_size l)
}.

Lemma nth_in {A} (l : list A) i d : (i < length l)%nat -> nth i l d ∈ l.
Proof. intros H. apply list_elem_of_In. by apply nth_In. Qed.

Section Txn.
  Context (l : logstate) (blocks : list Z) (T : txn l blocks).

Lemma slot_not_block i : (i < length blocks)%nat -> slot l i ∉ blocks.
  Proof.
    intros Hi Hin. destruct (tx_range _ _ T _ Hin) as [_ Hn]. pose proof (tx_size _ _ T).
    unfold slot in *. lia.
  Qed.

Lemma start_not_block : l_start l ∉ blocks.
  Proof.
    intros Hin. destruct (tx_range _ _ T _ Hin) as [_ Hn]. pose proof (tx_size _ _ T). lia.
  Qed.

Lemma u32_slot i : (i < length blocks)%nat -> u32 (l_start l + Z.of_nat i + 1) = slot l i.
  Proof.
    intros Hi. pose proof (tx_size _ _ T). pose proof (tx_start _ _ T). pose proof (tx_end _ _ T).
    unfold slot. rewrite u32_small; lia.
  Qed.

Lemma u32_block i : (i < length blocks)%nat -> u32 (lblock l i) = nth i blocks 0.
  Proof.
    intros Hi. rewrite (tx_block _ _ T i Hi).
    destruct (tx_range _ _ T (nth i blocks 0) (nth_in _ _ _ Hi)). apply u32_small. lia.
  Qed.

Lemma u32_start : u32 (l_start l) = l_start l.
  Proof.
    pose proof (tx_size _ _ T). pose proof (tx_start _ _ T). pose proof (tx_end _ _ T).
    apply u32_small. lia.
  Qed.

Definition log_copies (C : Z -> list Z) (tail k : nat) : list (Z * list Z) :=
    (fun i => (slot l i, C (nth i blocks 0))) <$> seq tail k.
Definition installs (C : Z -> list Z) (tail k : nat) : list (Z * list Z) :=
    (fun i => (nth i blocks 0, C (nth i blocks 0))) <$> seq tail k.

Lemma wp_write_log_loop me C k : forall s tail,
    (tail + k = length blocks)%nat -> log s = l -> bsess s me blocks [] ->
    (forall b, b ∈ blocks -> bcontent s b = C b) ->
    wp (write_log_loop tail k) (fun _ s' => io s (log_copies C tail k) s' /\
      bsess s' me blocks [] /\
      (forall i, (tail <= i < length blocks)%nat -> bcontent s' (slot l i) = C (nth i blocks 0)) /\
      (forall b, ~ (slot l tail <= b < slot l (length blocks)) -> bcontent s' b = bcontent s b)) s.
  Proof.
    induction k as [|k IH]; intros s tail Hk Hl B HC; cbn [write_log_loop].
    { apply wp_ret. split_and!; [apply io_refl|done|lia|done]. }
    assert (tail < length blocks)%nat as Ht by lia.
    wp_step. apply wp_get. rewrite Hl, (tx_dev _ _ T), u32_slot, u32_block by done.
    pose proof (nth_in blocks tail 0 Ht) as Hin.
    eapply wp_log_copy; [done|done|by apply slot_not_block|apply T|].
    intros s1 IO1 B1 C1. rewrite (HC _ Hin) in *.
    eapply wp_mono; [eapply (IH s1 (S tail)); [lia|by rewrite (io_log _ _ _ IO1)|done|]|].
    { intros b Hb. rewrite C1, decide_False; [by apply HC|]. intros ->. by apply (slot_not_block tail). }
    intros [] s' (IO2 & B2 & S2 & R2). split_and!.
    - unfold log_copies. cbn [seq fmap list_fmap].
      change (io s ([(slot l tail, C (nth tail blocks 0))] ++ log_copies C (S tail) k) s').
      by eapply io_trans.
    - done.
    - intros i Hi. destruct (decide (i = tail)) as [->|]; [|apply S2; lia].
      rewrite R2 by (unfold slot; lia). rewrite C1. by rewrite decide_True.
    - intros b Hb. rewrite R2 by (unfold slot in *; lia). rewrite C1.
      rewrite decide_False; [done|]. unfold slot in *. lia.
  Qed.

Lemma filter_drop_nodup (bl : list Z) tail :
    NoDup bl -> (tail < length bl)%nat ->
    filter (fun b' => b' <> nth tail bl 0) (drop tail bl) = drop (S tail) bl.
  Proof.
    intros Hn Ht. destruct (lookup_lt_is_Some_2 bl tail Ht) as [x Hx].
    rewrite (drop_S _ _ _ Hx). rewrite (nth_lookup_Some _ _ _ _ Hx).
    rewrite filter_cons_False by tauto. apply filter_ne_id.
    rewrite <- (take_drop_middle _ _ _ Hx) in Hn. apply NoDup_app in Hn as (_ & _ & Hn).
    by apply NoDup_cons in Hn as [? _].
  Qed.

Lemma wp_install_loop me (recovering : bool) C k : forall s tail,
    (tail + k = length blocks)%nat -> log s = l ->
    bsess s me (if recovering then [] else drop tail blocks) [] ->
    (forall i, (tail <= i < length blocks)%nat -> bcontent s (slot l i) = C (nth i blocks 0)) ->
    wp (install_trans_loop recovering tail k) (fun _ s' => io s (installs C tail k) s' /\
      bsess s' me [] [] /\
      (forall i, (tail <= i < length blocks)%nat -> bcontent s' (nth i blocks 0) = C (nth i blocks 0)) /\
      (forall b, b ∉ drop tail blocks -> bcontent s' b = bcontent s b)) s.
  Proof.
    induction k as [|k IH]; intros s tail Hk Hl B HC; cbn [install_trans_loop].
    { apply wp_ret. split_and!; [apply io_refl| |lia|done].
      destruct recovering; [done|]. by rewrite drop_ge in B by lia. }
    assert (tail < length blocks)%nat as Ht by lia.
    destruct (lookup_lt_is_Some_2 blocks tail Ht) as [x Hx].
    wp_step. apply wp_get. rewrite Hl, (tx_dev _ _ T), u32_slot, u32_block by done.
    pose proof (nth_in blocks tail 0 Ht) as Hin.
    assert (Hsub : forall b, b ∈ (if recovering then [] else drop tail blocks) -> b ∈ blocks).
    { intros b Hb. destruct recovering; [set_solver|].
      rewrite <- (take_drop tail blocks). set_solver. }
    eapply wp_install_copy; [done|..].
    { intros Hb%Hsub. by eapply slot_not_block. }
    { intros E. apply (slot_not_block tail Ht). by rewrite <- E. }
    { destruct recovering; [done|]. rewrite (drop_S _ _ _ Hx), (nth_lookup_Some _ _ _ _ Hx). set_solver. }
    { pose proof (tx_max _ _ T). destruct recovering; cbn; [lia|]. rewrite length_drop. lia. }
    intros s1 IO1 B1 C1. rewrite (HC tail) in * by lia.
    eapply wp_mono; [eapply (IH s1 (S tail)); [lia|by rewrite (io_log _ _ _ IO1)| |]|].
    { destruct recovering; [done|]. by rewrite filter_drop_nodup in B1 by (done || apply T). }
    { intros i Hi. rewrite C1, decide_False; [apply HC; lia|].
      intros E. apply (slot_not_block i); [lia|]. by rewrite E. }
    intros [] s' (IO2 & B2 & S2 & R2). split_and!.
    - unfold installs. cbn [seq fmap list_fmap].
      change (io s ([(nth tail blocks 0, C (nth tail blocks 0))] ++ installs C (S tail) k) s').
      by eapply io_trans.
    - done.
    - intros i Hi. destruct (decide (i = tail)) as [->|]; [|apply S2; lia].
      rewrite R2, C1, decide_True; [done|done|].
      pose proof (tx_nodup _ _ T) as Hn. rewrite <- (take_drop_middle _ _ _ Hx) in Hn.
      apply NoDup_app in Hn as (_ & _ & Hn). apply NoDup_cons in Hn as [? _].
      by rewrite (nth_lookup_Some _ _ _ _ Hx).
    - intros b Hb. rewrite (drop_S _ _ _ Hx) in Hb. rewrite R2 by set_solver. rewrite C1.
      rewrite decide_False; [done|]. rewrite (nth_lookup_Some _ _ _ _ Hx). set_solver.
  Qed.
End Txn.

End LogSpec.
