(* ===== verification/Crash.v ===== *)
(** Crash safety of the log: whatever prefix of the writes of a commit reaches the
    disk, recovery brings back the blocks as they were before the transaction or
    as they are after it, and a crash during recovery changes nothing. *)
From S2P Require Import Prelude Types Str Kalloc Vm Sched Sleeplock Bio BioSess Log LogSpec.

(** ** Writes, read back *)

Lemma dget_insert d b v b' : dget (<[b := v]> d) b' = if decide (b' = b) then v else dget d b'.
Proof.
  unfold dget. rewrite lookup_insert. repeat case_decide; try done; congruence.
Qed.

Lemma dget_writes_out d ws b : b ∉ ws.*1 -> dget (apply_writes d ws) b = dget d b.
Proof.
  revert d. induction ws as [|[b' v] ws IH]; intros d Hb; cbn in *; [done|].
  rewrite apply_writes_cons, IH by set_solver. rewrite dget_insert. rewrite decide_False by set_solver. done.
Qed.

Lemma dget_writes_in d ws b v :
  NoDup ws.*1 -> (b, v) ∈ ws -> dget (apply_writes d ws) b = v.
Proof.
  revert d. induction ws as [|[b' v'] ws IH]; intros d Hn Hb; cbn in *; [set_solver|].
  rewrite apply_writes_cons.
  apply NoDup_cons in Hn as [Hb' Hn]. apply elem_of_cons in Hb as [[= <- <-]|Hb].
  - rewrite dget_writes_out by done. by rewrite dget_insert, decide_True.
  - by apply IH.
Qed.

Lemma prefix_app_cases {A} (l l1 l2 : list A) :
  l `prefix_of` l1 ++ l2 -> l `prefix_of` l1 \/ exists l', l = l1 ++ l' /\ l' `prefix_of` l2.
Proof.
  revert l. induction l1 as [|x l1 IH]; intros l Hp; [right; eauto|].
  destruct l as [|y l]; [left; apply prefix_nil|].
  cbn in Hp. pose proof (prefix_cons_inv_1 _ _ _ _ Hp) as ->. apply prefix_cons_inv_2 in Hp.
  destruct (IH l Hp) as [H|(l' & -> & H)]; [left; by apply prefix_cons|right; eauto].
Qed.

Lemma prefix_keys {A} (ws' ws : list (Z * A)) b : ws' `prefix_of` ws -> b ∈ ws'.*1 -> b ∈ ws.*1.
Proof. intros [k ->] H. rewrite fmap_app. set_solver. Qed.

(** ** What recovery does to a disk *)

Definition hdr_blocks (h : list Z) : list Z :=
  (fun i => u32 (hdr_block h i)) <$> seq 0 (Z.to_nat (hdr_n h)).

Definition redo (st : Z) (d : gmap Z (list Z)) : list (Z * list Z) :=
  (fun i => (u32 (hdr_block (dget d st) i), dget d (st + 1 + Z.of_nat i))) <$>
    seq 0 (Z.to_nat (hdr_n (dget d st))).

Definition clear_head (h : list Z) : list Z := put32 h 0 0.

(** The writes of [recover_from_log], and the disk after them. *)
Definition recovery (st : Z) (d : gmap Z (list Z)) : list (Z * list Z) :=
  redo st d ++ [(st, clear_head (dget d st))].
Definition recovered (st : Z) (d : gmap Z (list Z)) : gmap Z (list Z) :=
  apply_writes d (recovery st d).

(** Two disks that agree outside the log area [st, st + size). *)
Definition same_outside (st size : Z) (f g : Z -> list Z) : Prop :=
  forall b, ~ (st <= b < st + size) -> f b = g b.

Lemma hdr_n_clear h : length h = 1024%nat -> hdr_n (clear_head h) = 0.
Proof. intros H. unfold hdr_n, clear_head. rewrite get32_put32 by lia. done. Qed.

Lemma redo_keys st d : (redo st d).*1 = hdr_blocks (dget d st).
Proof. unfold redo, hdr_blocks. by rewrite <- list_fmap_compose. Qed.

(** A disk with an empty log is already recovered. *)
Lemma recovered_empty st size d :
  0 < size -> hdr_n (dget d st) = 0 ->
  same_outside st size (dget (recovered st d)) (dget d).
Proof.
  intros Hs H0 b Hb. unfold recovered, recovery.
  assert (redo st d = []) as -> by (unfold redo; by rewrite H0). cbn [app].
  rewrite apply_writes_cons. change (apply_writes ?d []) with d.
  rewrite dget_insert, decide_False; [done|]. lia.
Qed.

Lemma recovered_head st d : length (dget d st) = 1024%nat -> hdr_n (dget (recovered st d) st) = 0.
Proof.
  intros Hl. unfold recovered, recovery. rewrite apply_writes_app, apply_writes_cons.
  change (apply_writes ?d []) with d. rewrite dget_insert, decide_True by done. by apply hdr_n_clear.
Qed.

(** A log with the blocks [blocks] committed in it. *)
Definition pair_with (C : Z -> list Z) (blocks : list Z) : list (Z * list Z) :=
  (fun b => (b, C b)) <$> blocks.

Lemma pair_with_keys C blocks : (pair_with C blocks).*1 = blocks.
Proof. unfold pair_with. rewrite <- list_fmap_compose. apply list_fmap_id. Qed.

Record committed (st size : Z) (d : gmap Z (list Z)) (blocks : list Z) (C : Z -> list Z) : Prop := {
  cm_size : Z.of_nat (length blocks) < size;
  cm_head : length (dget d st) = 1024%nat;
  cm_blocks : hdr_blocks (dget d st) = blocks;
  cm_n : hdr_n (dget d st) = Z.of_nat (length blocks);
  cm_slot i : (i < length blocks)%nat -> dget d (st + 1 + Z.of_nat i) = C (nth i blocks 0);
  cm_nodup : NoDup blocks;
  cm_out b : b ∈ blocks -> ~ (st <= b < st + size)
}.

Lemma committed_redo st size d blocks C :
  committed st size d blocks C -> redo st d = pair_with C blocks.
Proof.
  intros [Hsz Hh Hb Hn Hs Hnd Ho]. apply list_eq. intros i. unfold redo.
  unfold pair_with. rewrite Hn, Nat2Z.id, !list_lookup_fmap.
  destruct (decide (i < length blocks)%nat) as [Hi|Hi].
  - rewrite lookup_seq_lt by done. cbn. rewrite (Hs i Hi).
    assert (u32 (hdr_block (dget d st) i) = nth i blocks 0) as ->.
    { symmetry. apply nth_lookup_Some. rewrite <- Hb. unfold hdr_blocks.
      rewrite Hn, Nat2Z.id, list_lookup_fmap, lookup_seq_lt by done. done. }
    destruct (lookup_lt_is_Some_2 blocks i Hi) as [x Hx]. rewrite Hx. cbn.
    by rewrite (nth_lookup_Some _ _ _ _ Hx).
  - rewrite lookup_seq_ge, lookup_ge_None_2 by lia. done.
Qed.

Lemma committed_recovered st size d blocks C :
  committed st size d blocks C ->
  same_outside st size (dget (recovered st d)) (fun b => if decide (b ∈ blocks) then C b else dget d b).
Proof.
  intros Cm b Hb. unfold recovered, recovery. rewrite (committed_redo _ _ _ _ _ Cm).
  rewrite apply_writes_app, apply_writes_cons. change (apply_writes ?d []) with d.
  pose proof (cm_size _ _ _ _ _ Cm).
  rewrite dget_insert, decide_False by lia.
  case_decide as Hin.
  - apply dget_writes_in; [rewrite pair_with_keys; apply Cm|]. apply list_elem_of_fmap. eauto.
  - apply dget_writes_out. by rewrite pair_with_keys.
Qed.

(** Installing some of the committed blocks leaves the log committed. *)
Lemma committed_partial st size d blocks C ws :
  committed st size d blocks C -> ws `prefix_of` pair_with C blocks ->
  committed st size (apply_writes d ws) blocks C.
Proof.
  intros [Hsz Hh Hb Hn Hs Hnd Ho] Hp.
  assert (Hkeys : forall b, b ∈ ws.*1 -> b ∈ blocks).
  { intros b Hin%(prefix_keys _ _ _ Hp). by rewrite pair_with_keys in Hin. }
  assert (Hlog : forall b, st <= b < st + size -> dget (apply_writes d ws) b = dget d b).
  { intros b Hr. apply dget_writes_out. intros Hin%Hkeys. by apply (Ho b). }
  split; rewrite ?Hlog by lia; try done.
  intros i Hi. rewrite Hlog by lia. by apply Hs.
Qed.

(** Crashing in the middle of recovery and recovering again ends at the same disk,
    as far as the blocks outside the log are concerned. *)
Lemma recovery_restart st size d blocks C ws :
  committed st size d blocks C -> ws `prefix_of` recovery st d ->
  same_outside st size (dget (recovered st (apply_writes d ws))) (dget (recovered st d)).
Proof.
  intros Cm Hp. unfold recovery in Hp. rewrite (committed_redo _ _ _ _ _ Cm) in Hp.
  apply prefix_app_cases in Hp as [Hp|(l' & -> & Hp)].
  - pose proof (committed_partial _ _ _ _ _ _ Cm Hp) as Cm'. intros b Hb.
    rewrite (committed_recovered _ _ _ _ _ Cm' b Hb), (committed_recovered _ _ _ _ _ Cm b Hb).
    case_decide as Hin; [done|]. apply dget_writes_out. intros Hk%(prefix_keys _ _ _ Hp).
    by rewrite pair_with_keys in Hk.
  - destruct l' as [|x l'].
    + rewrite app_nil_r. pose proof (committed_partial _ _ _ _ _ _ Cm (reflexivity _)) as Cm'.
      intros b Hb. rewrite (committed_recovered _ _ _ _ _ Cm' b Hb), (committed_recovered _ _ _ _ _ Cm b Hb).
      case_decide as Hin; [done|]. apply dget_writes_out. by rewrite pair_with_keys.
    + pose proof (prefix_cons_inv_1 _ _ _ _ Hp) as ->. apply prefix_cons_inv_2 in Hp.
      apply prefix_nil_inv in Hp as ->.
      intros b Hb. pose proof (cm_size _ _ _ _ _ Cm).
      rewrite recovered_empty with (size := size); [|lia| |done].
      * unfold recovered, recovery. by rewrite (committed_redo _ _ _ _ _ Cm).
      * rewrite apply_writes_app, apply_writes_cons. change (apply_writes ?d []) with d.
        rewrite dget_insert, decide_True by done.
        apply hdr_n_clear. apply Cm.
Qed.

Section Crash.
Context {L : Linker}.

(** A state without the in-memory log, which [commit] and recovery also change. *)
Definition nolog (s : kst) : kst := set_log (Log 0 0 0 false 0 0 []) s.

Lemma io_nolog s ws s' : io s ws s' -> io (nolog s) ws (nolog s').
Proof.
  intros [E [Sl Ss] W D]. split; [|by split|done|done]. rewrite E at 1. done.
Qed.

Lemma bsess_log s me P K l : bsess s me P K -> bsess (set_log l s) me P K.
Proof.
  intros B. apply (bsess_ext s); try done. apply B.
Qed.

(** ** [commit] *)

Definition commit_writes (s : kst) (blocks : list Z) : list (Z * list Z) :=
  let l := log s in
  let h := put_header (bcontent s (l_start l)) l in
  log_copies l blocks (bcontent s) 0 (length blocks) ++ [(l_start l, h)] ++
  installs blocks (bcontent s) 0 (length blocks) ++ [(l_start l, put_header h (set_l_n 0 l))].

Lemma wp_commit s me blocks (Q : unit -> kst -> Prop) :
  txn (log s) blocks -> blocks <> [] -> bsess s me blocks [] ->
  (forall s', io (nolog s) (commit_writes s blocks) (nolog s') -> log s' = set_l_n 0 (log s) ->
     bsess s' me [] [] ->
     same_outside (l_start (log s)) (l_size (log s)) (bcontent s') (bcontent s) -> Q tt s') ->
  wp commit Q s.
Proof.
  intros T Hne B HQ. pose proof T as [Td Ts Te Tn Tb Tz Tm Tnd Tr]. set (l := log s) in *.
  assert (Hn : (0 < length blocks)%nat) by (destruct blocks; [done|cbn; lia]).
  pose proof (u32_start l blocks T) as Hst.
  unfold commit. wp_step. apply wp_get. fold l. rewrite (proj2 (Z.ltb_lt _ _)) by lia.
  wp_step. unfold write_log. wp_step. apply wp_get. fold l. rewrite Tn, Nat2Z.id.
  eapply wp_mono; [eapply (wp_write_log_loop l blocks T me (bcontent s)); done|].
  intros [] s1 (IO1 & B1 & S1 & R1). pose proof (io_log _ _ _ IO1) as L1. fold l in L1.
  assert (Hh1 : bcontent s1 (l_start l) = bcontent s (l_start l)).
  { apply R1. unfold slot. lia. }
  wp_step. eapply (wp_write_head s1 me blocks); rewrite ?L1, ?Hst.
  { done. } { done. } { by eapply start_not_block. } { done. } { rewrite Tn, Nat2Z.id. lia. }
  rewrite Hh1. set (h := put_header (bcontent s (l_start l)) l). intros s2 IO2 B2 C2.
  pose proof (io_log _ _ _ IO2) as L2. rewrite L1 in L2.
  wp_step. unfold install_trans. wp_step. apply wp_get. rewrite L2, Tn, Nat2Z.id.
  eapply wp_mono; [eapply (wp_install_loop l blocks T me false (bcontent s)); [done|done|done|]|].
  { intros i Hi. rewrite C2, decide_False by (unfold slot; lia). apply S1. lia. }
  intros [] s3 (IO3 & B3 & S3 & R3). pose proof (io_log _ _ _ IO3) as L3. rewrite L2 in L3.
  cbn [drop] in R3.
  wp_step. apply wp_upd. rewrite L3. set (s3' := set_log (set_l_n 0 l) s3).
  assert (Hh3 : bcontent s3' (l_start l) = h).
  { change (bcontent s3' (l_start l)) with (bcontent s3 (l_start l)).
    rewrite R3 by (by eapply start_not_block). by rewrite C2, decide_True. }
  eapply (wp_write_head s3' me []).
  { by apply bsess_log. } { done. } { set_solver. } { cbn. lia. } { cbn. lia. }
  change (log s3') with (set_l_n 0 l). cbn [l_start set_l_n]. rewrite Hst, Hh3.
  intros s4 IO4 B4 C4. apply HQ.
  - unfold commit_writes. fold l. fold h.
    eapply io_trans; [by apply io_nolog|]. eapply io_trans; [by apply io_nolog|].
    eapply io_trans; [by apply io_nolog|]. by apply (io_nolog s3').
  - by rewrite (io_log _ _ _ IO4).
  - done.
  - intros b Hb. rewrite C4, decide_False by lia. change (bcontent s3' b) with (bcontent s3 b).
    destruct (decide (b ∈ blocks)) as [Hin|Hin].
    + apply list_elem_of_lookup in Hin as [i Hi]. pose proof (lookup_lt_Some _ _ _ Hi).
      rewrite <- (nth_lookup_Some _ _ 0 _ Hi). rewrite S3 by lia. done.
    + rewrite R3 by done. rewrite C2, decide_False by lia. apply R1. unfold slot. lia.
Qed.

(** The header of a transaction names its blocks. *)
Lemma header_blocks l blocks d :
  txn l blocks -> length d = 1024%nat ->
  hdr_n (put_header d l) = Z.of_nat (length blocks) /\ hdr_blocks (put_header d l) = blocks.
Proof.
  intros T Hd. pose proof T as [Td Ts Te Tn Tb Tz Tm Tnd Tr].
  assert (Hn : hdr_n (put_header d l) = Z.of_nat (length blocks)).
  { rewrite hdr_n_put by (rewrite ?Tn, ?Nat2Z.id; done || lia). rewrite Tn, i32_small; lia. }
  split; [done|]. unfold hdr_blocks. rewrite Hn, Nat2Z.id. apply list_eq. intros i.
  rewrite list_lookup_fmap. destruct (decide (i < length blocks)%nat) as [Hi|Hi].
  - rewrite lookup_seq_lt by done. cbn.
    rewrite hdr_block_put by (rewrite ?Tn, ?Nat2Z.id; done || lia).
    change (nth i (l_block l) 0) with (lblock l i). rewrite (Tb i Hi).
    destruct (lookup_lt_is_Some_2 blocks i Hi) as [x Hx]. rewrite Hx.
    rewrite (nth_lookup_Some _ _ _ _ Hx).
    destruct (Tr x) as [? _]; [by eapply list_elem_of_lookup_2|].
    rewrite i32_small, u32_small by lia. done.
  - rewrite lookup_seq_ge, lookup_ge_None_2 by lia. done.
Qed.

Lemma installs_pairs blocks C : installs blocks C 0 (length blocks) = pair_with C blocks.
Proof.
  unfold installs, pair_with. apply list_eq. intros i. rewrite !list_lookup_fmap.
  destruct (decide (i < length blocks)%nat) as [Hi|Hi].
  - rewrite lookup_seq_lt by done. destruct (lookup_lt_is_Some_2 blocks i Hi) as [x Hx].
    rewrite Hx. cbn. by rewrite (nth_lookup_Some _ _ _ _ Hx).
  - rewrite lookup_seq_ge, lookup_ge_None_2 by lia. done.
Qed.

(** ** Crash safety *)

(** The writes of a commit, cut off anywhere. *)
Lemma commit_crash s me blocks ws :
  txn (log s) blocks -> bsess s me blocks [] ->
  hdr_n (dget (disk s) (l_start (log s))) = 0 ->
  ws `prefix_of` commit_writes s blocks ->
  let st := l_start (log s) in let size := l_size (log s) in
  let d := apply_writes (disk s) ws in
  same_outside st size (dget (recovered st d)) (dget (disk s)) \/
  same_outside st size (dget (recovered st d)) (bcontent s).
Proof.
  intros T B H0 Hp st size d. pose proof T as [Td Ts Te Tn Tb Tz Tm Tnd Tr].
  set (l := log s) in *. pose proof (bs_inv _ _ _ _ B) as I.
  assert (Hclean : forall b, b ∉ blocks -> bcontent s b = dget (disk s) b).
  { intros b Hb. eapply sess_clean; [done|done|set_solver]. }
  assert (Hhl : length (bcontent s st) = 1024%nat) by (by apply bcontent_len).
  set (A := log_copies l blocks (bcontent s) 0 (length blocks)).
  assert (HA : forall b, b ∈ A.*1 -> st < b < st + size).
  { intros b Hb. unfold A, log_copies in Hb. rewrite <- list_fmap_compose in Hb.
    apply list_elem_of_fmap in Hb as (i & -> & Hi). rewrite elem_of_seq in Hi.
    cbn. unfold slot. lia. }
  assert (Hslot : forall i, (i < length blocks)%nat ->
            dget (apply_writes (disk s) A) (st + 1 + Z.of_nat i) = bcontent s (nth i blocks 0)).
  { intros i Hi. apply dget_writes_in.
    - unfold A, log_copies. rewrite <- list_fmap_compose.
      apply NoDup_fmap_2_strong; [|apply NoDup_seq]. intros x y _ _ Hxy. cbn in Hxy.
      unfold slot in Hxy. lia.
    - unfold A, log_copies. apply list_elem_of_fmap. exists i. split; [done|].
      apply elem_of_seq. lia. }
  unfold commit_writes in Hp. fold l in Hp. fold A in Hp.
  apply prefix_app_cases in Hp as [Hp|(w1 & -> & Hp)].
  { (* before the header *)
    left. intros b Hb. unfold d. rewrite (recovered_empty st size); [|lia| |done].
    - apply dget_writes_out. intros Hin%(prefix_keys _ _ _ Hp)%HA. lia.
    - rewrite dget_writes_out; [done|]. intros Hin%(prefix_keys _ _ _ Hp)%HA. lia. }
  destruct w1 as [|w w1].
  { left. intros b Hb. unfold d. rewrite app_nil_r. rewrite (recovered_empty st size); [|lia| |done].
    - apply dget_writes_out. intros Hin%HA. lia.
    - rewrite dget_writes_out; [done|]. intros Hin%HA. lia. }
  cbn [app] in Hp. pose proof (prefix_cons_inv_1 _ _ _ _ Hp) as ->. apply prefix_cons_inv_2 in Hp.
  set (h := put_header (bcontent s (l_start l)) l) in *.
  destruct (header_blocks l blocks (bcontent s st) T Hhl) as [Hhn Hhb].
  change (put_header (bcontent s st) l) with h in Hhn, Hhb.
  set (d1 := apply_writes (disk s) (A ++ [(st, h)])).
  assert (Ed1 : forall b, dget d1 b = if decide (b = st) then h else dget (apply_writes (disk s) A) b).
  { intros b. unfold d1. rewrite apply_writes_app, apply_writes_cons.
    change (apply_writes ?x []) with x. apply dget_insert. }
  assert (Hlh : length h = 1024%nat).
  { apply length_put_header; [|done]. rewrite Tn, Nat2Z.id. lia. }
  assert (Cm : committed st size d1 blocks (bcontent s)).
  { split; rewrite ?Ed1, ?decide_True by done; try done.
    - intros i Hi. rewrite Ed1, decide_False by lia. by apply Hslot.
    - intros b Hb. by apply Tr. }
  assert (Hout : forall b, b ∉ blocks -> ~ (st <= b < st + size) -> dget d1 b = bcontent s b).
  { intros b Hb Hr. rewrite Ed1, decide_False by lia. rewrite dget_writes_out by (intros ?%HA; lia).
    symmetry. by apply Hclean. }
  right. assert (Ed : d = apply_writes d1 w1).
  { unfold d, d1. rewrite <- apply_writes_app, <- app_assoc. done. }
  rewrite installs_pairs in Hp. rewrite Ed.
  apply prefix_app_cases in Hp as [Hp|(w2 & -> & Hp)].
  { (* installing *)
    pose proof (committed_partial _ _ _ _ _ _ Cm Hp) as Cm'. intros b Hb.
    rewrite (committed_recovered _ _ _ _ _ Cm' b Hb). case_decide as Hin; [done|].
    rewrite dget_writes_out; [by apply Hout|]. intros Hk%(prefix_keys _ _ _ Hp).
    by rewrite pair_with_keys in Hk. }
  pose proof (committed_partial _ _ _ _ _ _ Cm (reflexivity _)) as Cm'.
  assert (Hinst : forall b, ~ (st <= b < st + size) ->
            dget (apply_writes d1 (pair_with (bcontent s) blocks)) b = bcontent s b).
  { intros b Hr. destruct (decide (b ∈ blocks)) as [Hin|Hin].
    - apply dget_writes_in; [by rewrite pair_with_keys|]. apply list_elem_of_fmap. eauto.
    - rewrite dget_writes_out by (by rewrite pair_with_keys). by apply Hout. }
  destruct w2 as [|w w2].
  { rewrite app_nil_r. intros b Hb. rewrite (committed_recovered _ _ _ _ _ Cm' b Hb).
    case_decide; [done|by apply Hinst]. }
  pose proof (prefix_cons_inv_1 _ _ _ _ Hp) as ->. apply prefix_cons_inv_2 in Hp.
  apply prefix_nil_inv in Hp as ->.
  (* the log is erased *)
  intros b Hb. rewrite apply_writes_app, apply_writes_cons. change (apply_writes ?x []) with x.
  rewrite (recovered_empty st size); [|lia| |done].
  - rewrite dget_insert, decide_False by lia. by apply Hinst.
  - rewrite dget_insert, decide_True by done. rewrite hdr_n_put; [done|cbn; lia|done].
Qed.

(** A commit leaves the header of an empty log. *)
Lemma commit_clears s me blocks : txn (log s) blocks -> bsess s me blocks [] ->
  hdr_n (dget (apply_writes (disk s) (commit_writes s blocks)) (l_start (log s))) = 0.
Proof.
  intros T B. pose proof T as [Td Ts Te Tn Tb Tz Tm Tnd Tr]. unfold commit_writes. rewrite !apply_writes_app, !apply_writes_cons.
  change (apply_writes ?d []) with d. rewrite dget_insert, decide_True by done.
  rewrite hdr_n_put; [done|cbn; lia|].
  apply length_put_header; [rewrite Tn, Nat2Z.id; lia|]. apply bcontent_len, B.
Qed.

(** ** Recovery *)

Lemma wp_read_head_loop d k : forall s i (Q : unit -> kst -> Prop),
  (i + k <= length (l_block (log s)))%nat ->
  (forall bl, length bl = length (l_block (log s)) ->
     (forall j, nth j bl 0 = if decide (i <= j < i + k)%nat then hdr_block d j
                             else nth j (l_block (log s)) 0) ->
     Q tt (set_log (set_l_block bl (log s)) s)) ->
  wp (read_head_loop d i k) Q s.
Proof.
  induction k as [|k IH]; intros s i Q Hl HQ; cbn [read_head_loop].
  { apply wp_ret. specialize (HQ (l_block (log s)) eq_refl).
    replace (set_log (set_l_block (l_block (log s)) (log s)) s) with s in HQ
      by (by destruct s as [? ? ? ? ? ? ? ? ? ? ? ? ? []]).
    apply HQ. intros j. by rewrite decide_False by lia. }
  wp_step. apply wp_upd. apply IH; cbn; rewrite length_insert; [lia|].
  intros bl Hbl Hj. apply HQ; [done|]. intros j. rewrite Hj, nth_insert by lia.
  repeat case_decide; subst; lia || done.
Qed.

(** What a disk's log must look like for recovery to make sense of it: it is
    empty, or it names distinct blocks outside the log area. *)
Record log_wf (st size : Z) (d : gmap Z (list Z)) : Prop := {
  lw_size : Z.of_nat (length (hdr_blocks (dget d st))) < size;
  lw_n : 0 <= hdr_n (dget d st) < 30;
  lw_nodup : NoDup (hdr_blocks (dget d st));
  lw_range b : b ∈ hdr_blocks (dget d st) -> b < 2 ^ 31 /\ ~ (st <= b < st + size)
}.

(** A well-formed log is committed, with what its slots hold. *)
Lemma log_wf_committed st size d : log_wf st size d -> length (dget d st) = 1024%nat ->
  exists C, committed st size d (hdr_blocks (dget d st)) C.
Proof.
  intros [Wz Wn Wd Wr] Hl. set (blocks := hdr_blocks (dget d st)) in *.
  exists (fun b => match list_find (fun x => x = b) blocks with
             | Some (k, _) => dget d (st + 1 + Z.of_nat k) | None => [] end).
  split; try done.
  - unfold blocks, hdr_blocks. rewrite length_fmap, length_seq. lia.
  - intros k Hk. destruct (lookup_lt_is_Some_2 blocks k Hk) as [x Hx]. rewrite (nth_lookup_Some _ _ _ _ Hx).
    destruct (list_find _ _) as [[k' y]|] eqn:Ef.
    + apply list_find_Some in Ef as (Hk' & -> & _). by rewrite (NoDup_lookup _ _ _ _ Wd Hk' Hx).
    + apply list_find_None in Ef. eapply Forall_lookup in Ef; [|exact Hx]. done.
  - intros b Hb. by apply Wr.
Qed.

(** A crash during recovery leaves a well-formed log. *)
Lemma log_wf_prefix st size d ws : log_wf st size d -> length (dget d st) = 1024%nat ->
  ws `prefix_of` recovery st d -> log_wf st size (apply_writes d ws).
Proof.
  intros W Hl Hp. destruct (log_wf_committed st size d W Hl) as [C Cm]. destruct W as [Wz Wn Wd Wr].
  assert (Hpart : forall ws', ws' `prefix_of` pair_with C (hdr_blocks (dget d st)) ->
            dget (apply_writes d ws') st = dget d st).
  { intros ws' Hp'. apply dget_writes_out. intros Hk%(prefix_keys _ _ _ Hp'). rewrite pair_with_keys in Hk.
    destruct (Wr _ Hk) as [_ []]. lia. }
  unfold recovery in Hp. rewrite (committed_redo _ _ _ _ _ Cm) in Hp.
  apply prefix_app_cases in Hp as [Hp|(l' & -> & Hp)]; [by split; rewrite Hpart|].
  destruct l' as [|x l']; [rewrite app_nil_r; by split; rewrite Hpart|].
  pose proof (prefix_cons_inv_1 _ _ _ _ Hp) as ->. apply prefix_cons_inv_2 in Hp. apply prefix_nil_inv in Hp as ->.
  rewrite apply_writes_app, apply_writes_cons. change (apply_writes ?d []) with d.
  set (d' := <[st := _]> _). assert (Eh : dget d' st = clear_head (dget d st)) by (unfold d'; by rewrite dget_insert, decide_True).
  assert (E0 : hdr_blocks (dget d' st) = []) by (unfold hdr_blocks; by rewrite Eh, hdr_n_clear).
  split; rewrite ?E0, ?Eh, ?hdr_n_clear by done; [cbn; lia|lia|constructor|]. by intros b ?%elem_of_nil.
Qed.

Lemma hdr_block_range h i : - 2 ^ 31 <= hdr_block h i < 2 ^ 31.
Proof.
  unfold hdr_block, get32, i32. pose proof (Z.mod_pos_bound (le_val (take 4 (drop (4 + 4 * i) h)) + 2 ^ 31) (2 ^ 32)).
  lia.
Qed.

Lemma log_wf_txn s :
  let l := log s in let h := dget (disk s) (l_start l) in
  log_wf (l_start l) (l_size l) (disk s) -> l_dev l = ROOTDEV -> 0 <= l_start l ->
  l_start l + l_size l < 2 ^ 31 ->
  l_n l = hdr_n h -> (forall j, (j < Z.to_nat (hdr_n h))%nat -> lblock l j = hdr_block h j) ->
  txn l (hdr_blocks h).
Proof.
  intros l h [Wz Wn Wd Wr] Hd Hs He Hn Hb. fold h in Wz, Wn, Wd, Wr.
  assert (Hlen : length (hdr_blocks h) = Z.to_nat (hdr_n h)).
  { unfold hdr_blocks. by rewrite length_fmap, length_seq. }
  split; try done.
  - rewrite Hn, Hlen. lia.
  - intros i Hi. rewrite Hlen in Hi. rewrite (Hb i Hi). symmetry.
    assert (hdr_blocks h !! i = Some (u32 (hdr_block h i))) as Hx.
    { unfold hdr_blocks. rewrite list_lookup_fmap, lookup_seq_lt by done. done. }
    rewrite (nth_lookup_Some _ _ _ _ Hx).
    destruct (Wr (u32 (hdr_block h i))) as [Hlt _]; [by eapply list_elem_of_lookup_2|].
    pose proof (hdr_block_range h i). unfold u32 in *. revert Hlt.
    destruct (decide (0 <= hdr_block h i)); [rewrite Z.mod_small; lia|].
    rewrite <- (Z.mod_add _ 1) by lia. rewrite Z.mod_small; lia.
  - lia.
  - intros b Hb'. destruct (Wr b Hb') as [? ?]. split; [|done]. split; [|done].
    unfold hdr_blocks in Hb'. apply list_elem_of_fmap in Hb' as (i & -> & _). apply u32_range.
Qed.

Lemma wp_recover s me (Q : unit -> kst -> Prop) :
  let l := log s in let st := l_start l in
  bsess s me [] [] -> log_wf st (l_size l) (disk s) -> l_dev l = ROOTDEV -> 0 <= st ->
  st + l_size l < 2 ^ 31 -> length (l_block l) = 30%nat ->
  (forall s', io (nolog s) (recovery st (disk s)) (nolog s') -> bsess s' me [] [] ->
     l_n (log s') = 0 -> l_start (log s') = st -> l_size (log s') = l_size l ->
     l_outstanding (log s') = l_outstanding l -> l_committing (log s') = l_committing l ->
     l_dev (log s') = ROOTDEV -> length (l_block (log s')) = 30%nat -> Q tt s') ->
  wp recover_from_log Q s.
Proof.
  intros l st B W Hdev Hs He Hlb HQ. pose proof W as [Wz Wn Wd Wr].
  assert (Hst : u32 st = st) by (apply u32_small; lia).
  assert (Hclean : forall b, bcontent s b = dget (disk s) b).
  { intros b. eapply sess_clean; [done|set_solver|set_solver]. }
  set (h := dget (disk s) st) in *.
  unfold recover_from_log. wp_step. unfold read_head. wp_step. apply wp_get. fold l.
  rewrite Hdev. fold st. rewrite Hst. wp_step.
  eapply wp_sbread; [done|set_solver|right; cbn; lia|]. intros i s1 E1 B1 Hd1 C1 _.
  rewrite Hclean in Hd1. fold h in Hd1. wp_step. apply wp_get. rewrite Hd1.
  wp_step. apply wp_upd. assert (L1 : log s1 = l) by (by rewrite E1). rewrite L1.
  wp_step. apply wp_read_head_loop; [cbn; lia|]. cbn [log set_log l_block set_l_n].
  intros bl Hbl Hnth. set (l2 := set_l_block bl (set_l_n (hdr_n h) l)).
  set (s2 := set_log l2 s1). change (set_log _ (set_log _ s1)) with s2.
  assert (B2 : bsess s2 me [] [(i, st)]) by (by apply bsess_log).
  eapply (wp_sbrelse s2 me [] [(i, st)] i st); [done|set_solver| |].
  { right. change (bufat i s2) with (bufat i s1). rewrite Hd1. cbn. by rewrite E1. }
  intros s3 E3 Sp3 B3 C3 _. rewrite drop_buf_head in B3 by set_solver.
  assert (L3 : log s3 = l2) by (by rewrite E3).
  assert (D3 : disk s3 = disk s) by (rewrite E3; cbn; by rewrite E1).
  assert (T : txn (log s3) (hdr_blocks h)).
  { pose proof (log_wf_txn s3) as Ht. rewrite L3, D3 in Ht. cbn [l_start l_size l_dev l_n l2 set_l_block set_l_n] in Ht.
    fold st in Ht. fold h in Ht. rewrite L3. apply Ht; try done.
    intros j Hj. unfold lblock. cbn. rewrite Hnth. by rewrite decide_True by lia. }
  rewrite L3 in T. set (blocks := hdr_blocks h) in *.
  wp_step. unfold install_trans. wp_step. apply wp_get. rewrite L3, (tx_n _ _ T), Nat2Z.id.
  set (C := fun b => match list_find (fun x => x = b) blocks with
                     | Some (k, _) => bcontent s3 (slot l2 k) | None => [] end).
  assert (HC : forall k, (k < length blocks)%nat -> C (nth k blocks 0) = bcontent s3 (slot l2 k)).
  { intros k Hk. unfold C. destruct (lookup_lt_is_Some_2 blocks k Hk) as [x Hx].
    rewrite (nth_lookup_Some _ _ _ _ Hx).
    destruct (list_find _ _) as [[k' y]|] eqn:Ef.
    - apply list_find_Some in Ef as (Hk' & -> & _).
      by rewrite (NoDup_lookup _ _ _ _ (tx_nodup _ _ T) Hk' Hx).
    - apply list_find_None in Ef. eapply Forall_lookup in Ef; [|exact Hx]. done. }
  eapply wp_mono; [eapply (wp_install_loop l2 blocks T me true C); [done|done|done|]|].
  { intros k Hk. symmetry. apply HC. lia. }
  intros [] s4 (IO4 & B4 & S4 & R4). pose proof (io_log _ _ _ IO4) as L4. rewrite L3 in L4.
  cbn [drop] in R4. wp_step. apply wp_upd. rewrite L4. set (s5 := set_log (set_l_n 0 l2) s4).
  assert (C3' : forall b, bcontent s3 b = dget (disk s) b).
  { intros b. rewrite C3. change (bcontent s2 b) with (bcontent s1 b). by rewrite C1. }
  assert (Hh5 : bcontent s5 st = h).
  { change (bcontent s5 st) with (bcontent s4 st). rewrite R4; [apply C3'|].
    apply (start_not_block l2 blocks T). }
  eapply (wp_write_head s5 me []).
  { by apply bsess_log. } { done. } { set_solver. } { cbn. lia. } { cbn. lia. }
  change (l_start (log s5)) with st. rewrite Hst, Hh5. intros s6 IO6 B6 C6.
  pose proof (io_log _ _ _ IO6) as L6.
  apply HQ; rewrite ?L6; try done; [|cbn; by rewrite Hbl].
  assert (Ew : recovery st (disk s) = [] ++ installs blocks C 0 (length blocks) ++ [(st, put_header h (log s5))]).
  { unfold recovery. fold h. cbn [app]. f_equal. rewrite installs_pairs.
    apply (committed_redo st (l_size l)). split; try done.
    - rewrite <- (Hclean st). apply bcontent_len, B.
    - fold h. unfold blocks, hdr_blocks. rewrite length_fmap, length_seq. lia.
    - intros k Hk. rewrite HC by done. rewrite C3'. f_equal.
    - intros b Hb. by apply Wr. }
  rewrite Ew. eapply io_trans; [|eapply io_trans].
  - eapply (io_trans _ [] (nolog s1) []); [by apply io_nolog, io_bufs|].
    apply (io_nolog s2). by apply io_procs_bufs.
  - apply io_nolog. exact IO4.
  - apply (io_nolog s5 _ s6). exact IO6.
Qed.

End Crash.
