(* ===== verification/LogOps.v ===== *)
(** [begin_op], [log_write] and [end_op] of [Log]: reservations, absorption, and
    what a system call gets out of running between them; and the reservations of system
    calls that stay within [MAXOPBLOCKS] blocks each, interleaved in any order. *)
From S2P Require Import Prelude Types Str Kalloc Vm Sched Sleeplock Bio BioSess Log LogSpec Crash.

Section LogOps.
Context {L : Linker}.
Implicit Types (P : list Z) (K : list (nat * Z)).

(** ** [log_write] *)

Lemma log_find_spec l b k : forall i,
  (log_find l b i k <= i + k)%nat /\ (i <= log_find l b i k)%nat /\
  ((log_find l b i k < i + k)%nat -> u32 (lblock l (log_find l b i k)) = b) /\
  (forall j, (i <= j < log_find l b i k)%nat -> u32 (lblock l j) <> b).
Proof.
  induction k as [|k IH]; intros i; cbn [log_find]; [split_and!; lia|].
  destruct (Z.eqb_spec (u32 (lblock l i)) b) as [E|E]; [split_and!; try done; lia|].
  destruct (IH (S i)) as (H1 & H2 & H3 & H4). split_and!; [lia|lia|intros; apply H3; lia|].
  intros j Hj. destruct (decide (j = i)) as [->|]; [done|]. apply H4. lia.
Qed.

(** The block is in the header already, or goes to its end. *)
Lemma log_find_txn l P b :
  txn l P ->
  (b ∈ P -> (log_find l b 0 (length P) < length P)%nat /\ nth (log_find l b 0 (length P)) P 0 = b) /\
  (b ∉ P -> log_find l b 0 (length P) = length P).
Proof.
  intros T. destruct (log_find_spec l b (length P) 0) as (H1 & _ & H3 & H4).
  set (i := log_find l b 0 (length P)) in *. split.
  - intros Hin. assert (i < length P)%nat as Hi.
    { destruct (decide (i < length P)%nat); [done|]. exfalso.
      apply list_elem_of_lookup in Hin as [j Hj]. pose proof (lookup_lt_Some _ _ _ Hj) as Hjl.
      apply (H4 j); [lia|]. rewrite (u32_block l P T) by done. by apply nth_lookup_Some. }
    split; [done|]. rewrite <- (u32_block l P T) by done. apply H3. lia.
  - intros Hn. destruct (decide (i < length P)%nat) as [Hi|]; [|lia]. exfalso. apply Hn.
    rewrite <- (H3 ltac:(lia)), (u32_block l P T) by done. by apply nth_in.
Qed.

Definition logged P (b : Z) : list Z := if decide (b ∈ P) then P else P ++ [b].

(** The parts of the log that [log_write] leaves alone. *)
Record same_log (l l' : logstate) : Prop := {
  sg_start : l_start l' = l_start l;
  sg_size : l_size l' = l_size l;
  sg_out : l_outstanding l' = l_outstanding l;
  sg_comm : l_committing l' = l_committing l;
  sg_dev : l_dev l' = l_dev l;
  sg_len : length (l_block l') = length (l_block l)
}.

Lemma same_log_refl l : same_log l l.
Proof. done. Qed.
Lemma same_log_trans l1 l2 l3 : same_log l1 l2 -> same_log l2 l3 -> same_log l1 l3.
Proof. intros [] []. split; congruence. Qed.

Lemma wp_log_write s me P K i b (Q : unit -> kst -> Prop) :
  let l := log s in
  bsess s me P K -> (i, b) ∈ K -> txn l P -> LkLog ∉ held s ->
  1 <= l_outstanding l -> l_size l <= 30 -> length (l_block l) = 30%nat ->
  Z.of_nat (length P) < l_size l - 1 ->
  0 <= b < 2 ^ 31 -> ~ (l_start l <= b < l_start l + l_size l) ->
  (forall s', s' = set_log (log s') (set_bufs (bufs s') s) ->
     bsess s' me (logged P b) K -> txn (log s') (logged P b) -> same_log l (log s') ->
     (forall b', bcontent s' b' = bcontent s b') ->
     (forall j, b_data (bufat j s') = b_data (bufat j s)) -> Q tt s') ->
  wp (log_write i) Q s.
Proof.
  intros l B Hin T Hlk Ho Hsz Hlb Hcap Hb Hout HQ. pose proof T as [Td Ts Te Tn Tb Tz Tm Tnd Tr].
  destruct (sess_buf s me P K i b B Hin) as ([Hi [_ Hbl] _ _ _] & _).
  destruct (log_find_txn l P b T) as [Ff Fn].
  unfold log_write, log_full. wp_step. apply wp_acquire; [done|]. wp_step. apply wp_get.
  cbn [log set_held]. fold l. rewrite Tn.
  rewrite (proj2 (Z.leb_gt 30 _)), (proj2 (Z.leb_gt (l_size l - 1) _)) by lia. cbn [orb].
  rewrite (proj2 (Z.ltb_ge _ _)) by lia. wp_step. apply wp_get.
  change (bufat i (set_held (LkLog :: held s) s)) with (bufat i s). rewrite Hbl, Nat2Z.id.
  set (k := log_find l b 0 (length P)) in *.
  assert (Hib : i32 b = b) by (apply i32_small; lia). rewrite Hib.
  wp_step. apply wp_upd. cbn [log set_held]. fold l.
  wp_step. unfold logged in HQ. destruct (decide (b ∈ P)) as [HP|HP].
  - destruct (Ff HP) as [Hk Hkb]. rewrite (proj2 (Z.eqb_neq _ _)) by lia.
    apply wp_ret. eapply wp_release; [done|done|].
    set (l' := set_l_block (<[k := b]> (l_block l)) l).
    replace (set_held _ _) with (set_log l' s) by (by destruct s).
    assert (T' : txn l' P).
    { split; try done. intros j Hj. unfold lblock, l'. cbn. rewrite nth_insert by lia.
      case_decide; [by subst|]. by apply Tb. }
    apply HQ; [by destruct s|by apply bsess_log|done| |done|done].
    split; try done. unfold l'. cbn. by rewrite length_insert.
  - rewrite (Fn HP). rewrite Z.eqb_refl. wp_step.
    set (l' := set_l_block (<[length P := b]> (l_block l)) l).
    set (s1 := set_log l' (set_held (LkLog :: held s) s)).
    eapply (wp_sbpin s s1 me P K i b); [done|done|done|done|done| |].
    { cbn. rewrite (bs_locks _ _ _ _ B). set_solver. }
    intros s2 E2 B2 C2 D2.
    apply wp_upd. eapply wp_release; [by rewrite E2|done|].
    set (l2 := set_l_n (Z.of_nat (length P) + 1) l').
    assert (El : log s2 = l') by (by rewrite E2). rewrite El. fold l2.
    replace (set_held (held s) (set_log l2 s2)) with (set_log l2 (set_bufs (bufs s2) s))
      by (rewrite E2; by destruct s).
    assert (B3 : bsess (set_log l2 (set_bufs (bufs s2) s)) me (P ++ [b]) K).
    { apply (bsess_ext (set_bufs (bufs s2) s)); try done. apply B. }
    apply HQ; try done.
    + split; try done; cbn.
      * rewrite length_app. cbn. lia.
      * intros j Hj. rewrite length_app in Hj. cbn in Hj. unfold lblock. cbn.
        rewrite nth_insert by lia. case_decide as Hjk.
        -- subst. by rewrite nth_middle.
        -- rewrite app_nth1 by lia. apply Tb. lia.
      * rewrite length_app. cbn. lia.
      * rewrite length_app. cbn. lia.
      * apply NoDup_app. split_and!; [done| |apply NoDup_singleton]. set_solver.
      * intros b' [?| ->%list_elem_of_singleton]%elem_of_app; [by apply Tr|done].
    + split; try done. cbn. by rewrite length_insert.
    + intros b'. rewrite <- C2. unfold bcontent. cbn. by rewrite E2.
Qed.

(** ** [begin_op] *)

Definition may_begin (l : logstate) : bool :=
  negb (l_committing l) && (l_n l + (l_outstanding l + 1) * MAXOPBLOCKS <=? LOGSIZE).

(** It reserves room for one more system call, or sleeps on the log unchanged. *)
Lemma wps_begin_op s me (Q : unit -> kst -> Prop) (R : chan -> kst -> Prop) :
  running s me -> held s = [] ->
  (if may_begin (log s)
   then Q tt (set_log (set_l_outstanding (l_outstanding (log s) + 1) (log s)) s)
   else R ChLog (asleep me ChLog s)) ->
  wps begin_op Q R s.
Proof.
  intros [Hc Hi Hp] Hh H. unfold begin_op. wp_step. apply wp_acquire; [rewrite Hh; set_solver|].
  wp_step. apply wp_get. cbn [log set_held]. unfold may_begin in H.
  assert (Hsl : R ChLog (asleep me ChLog s) ->
            wps (sleep ChLog LkLog) Q R (set_held (LkLog :: held s) s)).
  { intros HR. eapply wps_sleep; [done|done|by rewrite Hh|done|]. by destruct s. }
  destruct (l_committing (log s)); cbn [negb andb] in H; [by apply Hsl|].
  destruct (Z.ltb_spec 30 (l_n (log s) + (l_outstanding (log s) + 1) * 10)) as [Hlt|Hge].
  - rewrite (proj2 (Z.leb_gt _ _)) in H by lia. by apply Hsl.
  - rewrite (proj2 (Z.leb_le _ _)) in H by lia. apply wps_wp. wp_step. apply wp_upd.
    eapply wp_release; [done|rewrite Hh; set_solver|]. by destruct s.
Qed.

(** ** [end_op] *)

(** Not the last system call: it only gives its reservation back. *)
Lemma wp_end_op_more s me (Q : unit -> kst -> Prop) :
  running s me -> held s = [] -> l_committing (log s) = false -> l_outstanding (log s) <> 1 ->
  Q tt (set_procs (woken (Some me) ChLog 0 NPROC (procs s))
         (set_log (set_l_outstanding (l_outstanding (log s) - 1) (log s)) s)) ->
  wp end_op Q s.
Proof.
  intros [Hc Hi Hp] Hh Hcm Ho HQ. unfold end_op.
  wp_step. apply wp_acquire; [rewrite Hh; set_solver|]. wp_step. apply wp_get.
  cbn [log set_held]. wp_step. apply wp_upd. rewrite Hcm.
  rewrite (proj2 (Z.eqb_neq _ _)) by lia. wp_step. apply wp_wakeup.
  { intros j _. cbn. rewrite Hh. set_solver. }
  cbn [cur procs set_log set_held]. rewrite Hc. wp_step.
  eapply wp_release; [done|rewrite Hh; set_solver|]. wp_step. by destruct s.
Qed.

(** The last one commits: afterwards the log is empty, and every block outside
    the log is on the disk as the system calls left it. *)
Lemma wp_end_op_commit s me blocks (Q : unit -> kst -> Prop) :
  let l := log s in
  bsess s me blocks [] -> txn l blocks -> held s = [] ->
  l_committing l = false -> l_outstanding l = 1 ->
  (forall s', bsess s' me [] [] -> log s' = set_l_n 0 (set_l_outstanding 0 l) ->
     held s' = [] -> same_procs s s' ->
     same_outside (l_start l) (l_size l) (bcontent s') (bcontent s) ->
     same_outside (l_start l) (l_size l) (dget (disk s')) (bcontent s) ->
     dwrites s' = dwrites s ++ (if decide (blocks = []) then [] else commit_writes s blocks) ->
     disk s' = apply_writes (disk s) (if decide (blocks = []) then [] else commit_writes s blocks) ->
     Q tt s') ->
  wp end_op Q s.
Proof.
  intros l B T Hh Hcm Ho HQ. pose proof (bs_run _ _ _ _ B) as [Hc Hi Hp].
  unfold end_op. wp_step. apply wp_acquire; [rewrite Hh; set_solver|]. wp_step. apply wp_get.
  cbn [log set_held]. fold l. wp_step. apply wp_upd. rewrite Hcm, Ho. change (1 - 1) with 0. change (0 =? 0) with true. cbv iota zeta.
  wp_step. apply wp_upd. wp_step. eapply wp_release; [done|rewrite Hh; set_solver|].
  cbn [log set_log set_held]. fold l.
  set (l1 := set_l_committing true (set_l_outstanding 0 l)).
  replace (set_held (held s) _) with (set_log l1 s) by (by destruct s).
  set (s1 := set_log l1 s). assert (B1 : bsess s1 me blocks []) by (by apply bsess_log).
  assert (T1 : txn (log s1) blocks) by (by destruct T).
  wp_step.
  eapply (wp_mono _ (fun _ s2 => bsess s2 me [] [] /\ log s2 = set_l_n 0 l1 /\
    same_procs s s2 /\ held s2 = [] /\ cur s2 = Some me /\
    same_outside (l_start l) (l_size l) (bcontent s2) (bcontent s) /\
    dwrites s2 = dwrites s ++ (if decide (blocks = []) then [] else commit_writes s blocks) /\
    disk s2 = apply_writes (disk s) (if decide (blocks = []) then [] else commit_writes s blocks))).
  { destruct (decide (blocks = [])) as [->|Hne].
    - unfold commit. wp_step. apply wp_get. change (log s1) with l1.
      pose proof (tx_n _ _ T) as Hn. cbn in Hn. cbn [l_n l1 set_l_committing set_l_outstanding].
      rewrite Hn. cbn [Z.ltb Z.compare]. apply wp_ret.
      split_and!; [done| |done|done|done|done|by rewrite app_nil_r|done].
      change (l1 = set_l_n 0 l1). clearbody s1. unfold l1. clear - Hn. clearbody l. destruct l. cbn in Hn. by subst.
    - eapply (wp_commit s1 me blocks); [done|done|done|]. intros s2 [E2 Sp2 W2 D2] L2 B2 C2.
      assert (Eh : held s2 = held (nolog s2)) by done. assert (Ec : cur s2 = cur (nolog s2)) by done.
      split_and!; [done|done| | | |done|done|done].
      + destruct Sp2 as [Sl Ss]. split; [exact Sl|exact Ss].
      + rewrite Eh, E2. done.
      + rewrite Ec, E2. done. }
  intros [] s2 (B2 & L2 & Sp2 & Hh2 & Hc2 & C2 & W2 & D2).
  wp_step. apply wp_acquire; [rewrite Hh2; set_solver|]. wp_step. apply wp_upd.
  wp_step. apply wp_wakeup. { intros j _. cbn. rewrite Hh2. set_solver. }
  cbn [cur procs log set_log set_held]. rewrite Hc2.
  eapply wp_release; [done|rewrite Hh2; set_solver|].
  set (s3 := set_held _ _).
  assert (Sp3 : same_procs s2 s3).
  { split; [apply length_woken|]. intros j. apply woken_psim. }
  assert (B3 : bsess s3 me [] []).
  { pose proof (bs_run _ _ _ _ B2) as [Hc' Hi' Hp'].
    apply (bsess_log _ me [] [] (set_l_committing false (log s2))) in B2.
    destruct B2 as [I2 R2 Hlk2 HK HL HU HN HP HR].
    assert (R3 : running s3 me).
    { eapply (running_same s2); [done|done| |by split]. cbn. done. }
    split; try done.
    - by destruct I2.
    - intros ? ? ?%elem_of_nil. done. }
  apply HQ; try done.
  - cbn. rewrite L2. unfold l1. clear - Hcm. clearbody l. destruct l. cbn in Hcm |- *. by rewrite Hcm.
  - by eapply same_procs_trans.
  - intros b Hb. transitivity (bcontent s3 b); [|by apply C2].
    symmetry. eapply sess_clean; [done|set_solver|set_solver].
Qed.

End LogOps.

(** ** Reservations *)

Section Reservations.
Context {L : Linker}.

(** What a system call does with a block that it changes. *)
Definition log_block (b : Z) : M unit :=
  let! i := bread ROOTDEV b in
  log_write i ;;;
  brelse i.

Fixpoint log_blocks (bs : list Z) : M unit :=
  match bs with
  | [] => ret tt
  | b :: bs' => log_block b ;;; log_blocks bs'
  end.

Lemma log_blocks_app a b s : log_blocks (a ++ b) s = (log_blocks a ;;; log_blocks b) s.
Proof.
  revert s. induction a as [|x a IH]; intros s; [done|]. cbn [app log_blocks]. unfold bind in *.
  by destruct (log_block x s).
Qed.

(** Process [p] runs. *)
Definition by_proc {A} (p : nat) (c : M A) : M A := upd (set_cur (Some p)) ;;; c.

(** In a transaction with the blocks [P] logged, and no buffer in hand. *)
Record in_txn (s : kst) (me : nat) (P : list Z) : Prop := {
  it_sess : bsess s me P [];
  it_txn : txn (log s) P;
  it_out : 1 <= l_outstanding (log s);
  it_size : l_size (log s) <= 30;
  it_len : length (l_block (log s)) = 30%nat
}.

Lemma bsess_cur s me P p : bsess s me P [] -> (p < length (procs s))%nat -> bsess (set_cur (Some p) s) p P [].
Proof.
  intros [[? ? ? ? ? ? ? ? ?] [? ? ?] ? ? HK ? ? ? ?] Hp. split; try done.
  intros i b Hk. by apply elem_of_nil in Hk.
Qed.

Lemma in_txn_cur s me P p : in_txn s me P -> (p < length (procs s))%nat -> in_txn (set_cur (Some p) s) p P.
Proof. intros [B T ? ? ?] Hp. split; try done. by eapply bsess_cur. Qed.

Lemma wp_log_block s me P b (Q : unit -> kst -> Prop) :
  in_txn s me P -> Z.of_nat (length P) < l_size (log s) - 1 -> b ∉ P ->
  0 <= b < 2 ^ 31 -> ~ (l_start (log s) <= b < l_start (log s) + l_size (log s)) ->
  (forall s', in_txn s' me (P ++ [b]) -> same_log (log s) (log s') -> length (procs s') = length (procs s) -> Q tt s') ->
  wp (log_block b) Q s.
Proof.
  intros [B T Ho Hz Hl] Hcap HP Hb Hout HQ. unfold log_block. wp_step.
  eapply (wp_sbread s me P []); [done|apply not_elem_of_nil|right; cbn; lia|].
  intros i s1 E1 B1 _ _ _. assert (L1 : log s1 = log s) by (by rewrite E1). wp_step.
  eapply (wp_log_write s1 me P [(i, b)] i b); rewrite ?L1; try done.
  { by apply list_elem_of_singleton. }
  { apply bl_free, B1. }
  intros s2 E2 B2 T2 G2 _ _.
  assert (Ep : logged P b = P ++ [b]) by (unfold logged; by rewrite decide_False). rewrite Ep in *.
  eapply (wp_sbrelse s2 me (P ++ [b]) [(i, b)] i b); [done|by apply list_elem_of_singleton|left; set_solver|].
  intros s3 E3 Sp3 B3 _ _. rewrite drop_buf_head in B3 by apply not_elem_of_nil.
  assert (L3 : log s3 = log s2) by (by rewrite E3). pose proof G2 as [G2a G2b G2c G2d G2e G2f].
  apply HQ; [split; rewrite ?L3; try done; lia|by rewrite L3|].
  destruct Sp3 as [-> _]. rewrite E2, E1. done.
Qed.

Lemma wp_log_blocks bs : forall s me P (Q : unit -> kst -> Prop),
  in_txn s me P -> Z.of_nat (length P + length bs) < l_size (log s) -> NoDup (P ++ bs) ->
  (forall b, b ∈ bs -> 0 <= b < 2 ^ 31 /\ ~ (l_start (log s) <= b < l_start (log s) + l_size (log s))) ->
  (forall s', in_txn s' me (P ++ bs) -> same_log (log s) (log s') -> length (procs s') = length (procs s) -> Q tt s') ->
  wp (log_blocks bs) Q s.
Proof.
  induction bs as [|b bs IH]; intros s me P Q T Hcap Hn Hout HQ; cbn [log_blocks length] in *.
  { apply wp_ret. rewrite app_nil_r in HQ. apply HQ; [done|apply same_log_refl|done]. }
  destruct (Hout b (list_elem_of_here _ _)) as [Hb1 Hb2]. wp_step.
  apply (wp_log_block s me P b); [done|lia| |done|done|].
  { intros HP. apply NoDup_app in Hn as (_ & Hd & _). apply (Hd b HP), list_elem_of_here. }
  intros s1 T1 G1 E1. pose proof G1 as [Ga Gb _ _ _ _].
  rewrite (cons_middle b P bs), app_assoc in HQ. rewrite (cons_middle b P bs), app_assoc in Hn.
  apply (IH s1 me (P ++ [b])); [done|rewrite length_app; cbn; lia|done| |].
  - intros b' Hb'. rewrite Ga, Gb. apply Hout. by right.
  - intros s' T' G' E'. apply HQ; [done|by eapply same_log_trans|congruence].
Qed.

(** [log_write] refuses a block when the log area is full. *)
Lemma log_block_full s me P b : in_txn s me P -> (length P < NBUF)%nat -> l_size (log s) - 1 <= Z.of_nat (length P) ->
  log_block b s = Panic "too big a transaction".
Proof.
  intros [B T Ho Hz Hl] HP Hfull.
  assert (H : wp (bread ROOTDEV b) (fun _ s1 => log s1 = log s /\ held s1 = []) s).
  { eapply (wp_sbread s me P []); [done|apply not_elem_of_nil|right; cbn; lia|].
    intros i s1 E1 B1 _ _ _. split; [by rewrite E1|apply B1]. }
  unfold log_block, bind at 1. unfold wp in H. destruct (bread ROOTDEV b s) as [i s1| | |]; try done.
  destruct H as [E1 Hh]. unfold log_write, bind, acquire, holding, getl, get. rewrite Hh. cbn [log set_held].
  rewrite bool_decide_eq_false_2 by set_solver. cbn [log set_held]. rewrite E1. unfold log_full.
  rewrite (tx_n _ _ T), (proj2 (Z.leb_le (l_size (log s) - 1) _)) by lia. by rewrite orb_true_r.
Qed.
End Reservations.
