(* ===== verification/Fs.v ===== *)
(** [kernel/fs.c]: blocks, inodes, directories and path names.  A [struct inode *]
    is an index into the inode table.  The two messages this file prints are not
    recorded as output. *)
From S2P Require Import Prelude Types Str Kalloc Vm Sched Sleeplock Bio Log.

Definition inode0 : inode :=
  Inode 0 0 0 (SleepLock false 0) false 0 0 0 0 0 (replicate 13 0).
#[global] Instance inode_inhabited : Inhabited inode := populate inode0.

Record stat := Stat {
  st_dev : Z;
  st_ino : Z;
  st_type : Z;
  st_nlink : Z;
  st_size : Z
}.

(** Where [readi] copies to, and where [writei] copies from: a user address, a
    physical address, or a local variable of the caller. *)
Inductive dest := DUser (va : Z) | DPhys (pa : Z) | DLocal.
Inductive source := SUser (va : Z) | SPhys (pa : Z) | SLocal (bs : list Z).

(** [sizeof(struct dirent)], and the character that separates path elements. *)
Abbreviation DESIZE := 16.
Abbreviation SLASH := 47.

Section Fs.
Context {L : Linker}.

(** [printf] of a fixed message: [pr.lock] around the output, which is not part of the file
    system's state ([Printf] has the whole function). *)
Definition printf (msg : string) : M unit := acquire LkPr ;;; release LkPr.

(** ** The superblock *)

Definition get_superblock (d : list Z) : superblock :=
  SuperBlock (getu32 d 0) (getu32 d 4) (getu32 d 8) (getu32 d 12)
             (getu32 d 16) (getu32 d 20) (getu32 d 24) (getu32 d 28).

Definition readsb (dev : Z) : M superblock :=
  let! bp := bread dev 1 in
  let! d := getb bp b_data in
  brelse bp ;;;
  ret (get_superblock d).

Definition fsinit (dev : Z) : M unit :=
  let! v := readsb dev in
  upd (set_sb v) ;;;
  if negb (sb_magic v =? FSMAGIC) then panic "invalid file system"
  else initlog dev v.

(** ** Blocks *)

Definition bzero (dev bno : Z) : M unit :=
  let! bp := bread dev bno in
  updb bp (set_b_data (replicate 1024 0)) ;;;
  log_write bp ;;;
  brelse bp.

(** Bit [bi] of a bitmap block. *)
Definition bit_mask (bi : nat) : Z := Z.shiftl 1 (Z.of_nat (bi mod 8)).
Definition bit_clear (d : list Z) (bi : nat) : bool :=
  Z.land (nth (bi / 8) d 0) (bit_mask bi) =? 0.
Definition set_bit (d : list Z) (bi : nat) : list Z :=
  <[(bi / 8)%nat := Z.lor (nth (bi / 8) d 0) (bit_mask bi)]> d.
Definition clear_bit (d : list Z) (bi : nat) : list Z :=
  <[(bi / 8)%nat := Z.land (nth (bi / 8) d 0) (Z.lnot (bit_mask bi))]> d.

(** The inner loop of [balloc]: the first free bit. *)
Fixpoint balloc_scan (d : list Z) (b size : Z) (bi k : nat) : option nat :=
  match k with
  | O => None
  | S k' =>
      if b + Z.of_nat bi <? size then
        if bit_clear d bi then Some bi else balloc_scan d b size (S bi) k'
      else None
  end.

Fixpoint balloc_loop (dev b : Z) (fuel : nat) : M Z :=
  let! v := get sb in
  if b <? sb_size v then
    match fuel with
    | O => diverge
    | S fuel' =>
        let! bp := bread dev (BBLOCK b (sb_bmapstart v)) in
        let! d := getb bp b_data in
        match balloc_scan d b (sb_size v) 0 (Z.to_nat BPB) with
        | Some bi =>
            updb bp (set_b_data (set_bit d bi)) ;;;
            log_write bp ;;;
            brelse bp ;;;
            bzero dev (b + Z.of_nat bi) ;;;
            ret (b + Z.of_nat bi)
        | None => brelse bp ;;; balloc_loop dev (b + BPB) fuel'
        end
    end
  else printf "balloc: out of blocks" ;;; ret 0.

Definition balloc (dev : Z) : M Z :=
  let! v := get sb in
  balloc_loop dev 0 (Z.to_nat (sb_size v / BPB + 1)).

Definition bfree (dev b : Z) : M unit :=
  let! v := get sb in
  let! bp := bread dev (BBLOCK b (sb_bmapstart v)) in
  let! d := getb bp b_data in
  let bi := Z.to_nat (b mod BPB) in
  if bit_clear d bi then panic "freeing free block"
  else
    updb bp (set_b_data (clear_bit d bi)) ;;;
    log_write bp ;;;
    brelse bp.

(** ** Inodes *)

Definition inodeat (i : nat) (s : kst) : inode := inodes s !!! i.
Definition geti {A} (i : nat) (f : inode -> A) : M A := get (fun s => f (inodeat i s)).
Definition updi (i : nat) (f : inode -> inode) : M unit :=
  upd (fun s => set_inodes (alter f i (inodes s)) s).

Definition inode_sl (i : nat) : slref :=
  SlRef (fun s => i_lock (inodeat i s))
        (fun v s => set_inodes (alter (set_i_lock v) i (inodes s)) s)
        (LkInode i) (ChInodeLock i).

Fixpoint iinit_loop (i k : nat) : M unit :=
  match k with
  | O => ret tt
  | S k' => initsleeplock (inode_sl i) ;;; iinit_loop (S i) k'
  end.

Definition iinit : M unit := iinit_loop 0 NINODE.

(** The on-disk inode: where it is in its block, and its fields. *)
Definition di_off (inum : Z) : nat := Z.to_nat (64 * (inum mod IPB)).
Definition di_type (d : list Z) (o : nat) : Z := get16 d o.
Definition di_addrs (d : list Z) (o : nat) : list Z :=
  map (fun k => getu32 d (o + 12 + 4 * k)) (seq 0 13).

Fixpoint put_addrs (d : list Z) (o : nat) (addrs : list Z) : list Z :=
  match addrs with
  | [] => d
  | a :: addrs' => put_addrs (put32 d o a) (o + 4) addrs'
  end.

Definition put_dinode (d : list Z) (o : nat) (ip : inode) : list Z :=
  let d := put16 d o (i_type ip) in
  let d := put16 d (o + 2) (i_major ip) in
  let d := put16 d (o + 4) (i_minor ip) in
  let d := put16 d (o + 6) (i_nlink ip) in
  let d := put32 d (o + 8) (i_size ip) in
  put_addrs d (o + 12) (i_addrs ip).

Definition load_dinode (d : list Z) (o : nat) (ip : inode) : inode :=
  Inode (i_dev ip) (i_inum ip) (i_ref ip) (i_lock ip) (i_valid ip)
        (get16 d o) (get16 d (o + 2)) (get16 d (o + 4)) (get16 d (o + 6))
        (getu32 d (o + 8)) (di_addrs d o).

(** [memset(dip, 0, sizeof *dip)], then the type. *)
Definition fresh_dinode (d : list Z) (o : nat) (type : Z) : list Z :=
  put16 (take o d ++ replicate 64 0 ++ drop (o + 64) d) o type.

(** The scan of [iget]: the entry of the inode, or else the first free one. *)
Fixpoint iget_scan (l : list inode) (dev inum : Z) (i : nat) (empty : option nat)
    : nat + option nat :=
  match l with
  | [] => inr empty
  | ip :: l' =>
      if (0 <? i_ref ip) && (i_dev ip =? dev) && (i_inum ip =? inum) then inl i
      else
        let empty' :=
          match empty with
          | None => if i_ref ip =? 0 then Some i else None
          | Some _ => empty
          end in
        iget_scan l' dev inum (S i) empty'
  end.

Definition iget (dev inum : Z) : M nat :=
  acquire LkItable ;;;
  let! l := get inodes in
  match iget_scan l dev inum 0 None with
  | inl i =>
      updi i (fun ip => set_i_ref (i_ref ip + 1) ip) ;;;
      release LkItable ;;;
      ret i
  | inr None => panic "iget: no inodes"
  | inr (Some i) =>
      updi i (set_i_dev dev) ;;;
      updi i (set_i_inum inum) ;;;
      updi i (set_i_ref 1) ;;;
      updi i (set_i_valid false) ;;;
      release LkItable ;;;
      ret i
  end.

Fixpoint ialloc_loop (dev type inum : Z) (fuel : nat) : M (option nat) :=
  let! v := get sb in
  if inum <? sb_ninodes v then
    match fuel with
    | O => diverge
    | S fuel' =>
        let! bp := bread dev (IBLOCK inum (sb_inodestart v)) in
        let! d := getb bp b_data in
        if di_type d (di_off inum) =? 0 then
          updb bp (set_b_data (fresh_dinode d (di_off inum) type)) ;;;
          log_write bp ;;;
          brelse bp ;;;
          let! i := iget dev inum in ret (Some i)
        else brelse bp ;;; ialloc_loop dev type (inum + 1) fuel'
    end
  else printf "ialloc: no inodes" ;;; ret None.

Definition ialloc (dev type : Z) : M (option nat) :=
  let! v := get sb in
  ialloc_loop dev type 1 (Z.to_nat (sb_ninodes v)).

Definition iupdate (i : nat) : M unit :=
  let! ip := geti i (fun ip => ip) in
  let! v := get sb in
  let! bp := bread (i_dev ip) (IBLOCK (i_inum ip) (sb_inodestart v)) in
  updb bp (fun b => set_b_data (put_dinode (b_data b) (di_off (i_inum ip)) ip) b) ;;;
  log_write bp ;;;
  brelse bp.

Definition idup (i : nat) : M nat :=
  acquire LkItable ;;;
  updi i (fun ip => set_i_ref (i_ref ip + 1) ip) ;;;
  release LkItable ;;;
  ret i.

Definition ilock (i : nat) : M unit :=
  let! r := geti i i_ref in
  if r <? 1 then panic "ilock"
  else
    acquiresleep (inode_sl i) ;;;
    let! ip := geti i (fun ip => ip) in
    if i_valid ip then ret tt
    else
      let! v := get sb in
      let! bp := bread (i_dev ip) (IBLOCK (i_inum ip) (sb_inodestart v)) in
      let! d := getb bp b_data in
      updi i (load_dinode d (di_off (i_inum ip))) ;;;
      brelse bp ;;;
      updi i (set_i_valid true) ;;;
      let! t := geti i i_type in
      if t =? 0 then panic "ilock: no type" else ret tt.

Definition iunlock (i : nat) : M unit :=
  let! h := holdingsleep (inode_sl i) in
  let! r := geti i i_ref in
  if negb h || (r <? 1) then panic "iunlock"
  else releasesleep (inode_sl i).

(** ** Inode content *)

(** [ip->addrs[k]], and storing to it. *)
Definition addr (ip : inode) (k : nat) : Z := nth k (i_addrs ip) 0.
Definition set_addr (k : nat) (a : Z) (ip : inode) : inode :=
  set_i_addrs (<[k := a]> (i_addrs ip)) ip.

(** The entry [k] of [ip->addrs], allocated if it is 0: [None] if the disk is full. *)
Definition bmap_direct (i : nat) (k : nat) : M Z :=
  let! ip := geti i (fun ip => ip) in
  if addr ip k =? 0 then
    let! a := balloc (i_dev ip) in
    if a =? 0 then ret 0
    else updi i (set_addr k a) ;;; ret a
  else ret (addr ip k).

Definition bmap (i : nat) (bn : Z) : M Z :=
  if bn <? NDIRECT then bmap_direct i (Z.to_nat bn)
  else
    let bn := bn - NDIRECT in
    if bn <? NINDIRECT then
      let! ind := bmap_direct i (Z.to_nat NDIRECT) in
      if ind =? 0 then ret 0
      else
        let! dev := geti i i_dev in
        let! bp := bread dev ind in
        let! d := getb bp b_data in
        let a := getu32 d (4 * Z.to_nat bn) in
        let! a' :=
          (if a =? 0 then
             let! a' := balloc dev in
             (if a' =? 0 then ret tt
              else
                updb bp (fun b => set_b_data (put32 (b_data b) (4 * Z.to_nat bn) a') b) ;;;
                log_write bp) ;;;
             ret a'
           else ret a) in
        brelse bp ;;;
        ret a'
    else panic "bmap: out of range".

Fixpoint itrunc_direct (i : nat) (k n : nat) : M unit :=
  match n with
  | O => ret tt
  | S n' =>
      let! ip := geti i (fun ip => ip) in
      (if addr ip k =? 0 then ret tt
       else bfree (i_dev ip) (addr ip k) ;;; updi i (set_addr k 0)) ;;;
      itrunc_direct i (S k) n'
  end.

Fixpoint itrunc_indirect (dev : Z) (bp : nat) (j n : nat) : M unit :=
  match n with
  | O => ret tt
  | S n' =>
      let! d := getb bp b_data in
      (if getu32 d (4 * j) =? 0 then ret tt else bfree dev (getu32 d (4 * j))) ;;;
      itrunc_indirect dev bp (S j) n'
  end.

Definition itrunc (i : nat) : M unit :=
  itrunc_direct i 0 (Z.to_nat NDIRECT) ;;;
  let! ip := geti i (fun ip => ip) in
  let ind := addr ip (Z.to_nat NDIRECT) in
  (if ind =? 0 then ret tt
   else
     let! bp := bread (i_dev ip) ind in
     itrunc_indirect (i_dev ip) bp 0 (Z.to_nat NINDIRECT) ;;;
     brelse bp ;;;
     bfree (i_dev ip) ind ;;;
     updi i (set_addr (Z.to_nat NDIRECT) 0)) ;;;
  updi i (set_i_size 0) ;;;
  iupdate i.

Definition iput (i : nat) : M unit :=
  acquire LkItable ;;;
  let! ip := geti i (fun ip => ip) in
  (if (i_ref ip =? 1) && i_valid ip && (i_nlink ip =? 0) then
     acquiresleep (inode_sl i) ;;;
     release LkItable ;;;
     itrunc i ;;;
     updi i (set_i_type 0) ;;;
     iupdate i ;;;
     updi i (set_i_valid false) ;;;
     releasesleep (inode_sl i) ;;;
     acquire LkItable
   else ret tt) ;;;
  updi i (fun ip => set_i_ref (i_ref ip - 1) ip) ;;;
  release LkItable.

Definition iunlockput (i : nat) : M unit := iunlock i ;;; iput i.

Definition stati (i : nat) : M stat :=
  geti i (fun ip => Stat (i_dev ip) (i_inum ip) (i_type ip) (i_nlink ip) (i_size ip)).

(** [either_copyout(user_dst, dst, ...)]; for a local variable the bytes are
    returned instead of stored. *)
Definition copy_to (dst : dest) (bs : list Z) : M Z :=
  match dst with
  | DUser va => either_copyout true va bs
  | DPhys pa => either_copyout false pa bs
  | DLocal => ret 0
  end.
Definition advance (dst : dest) (m : Z) : dest :=
  match dst with DUser va => DUser (va + m) | DPhys pa => DPhys (pa + m) | DLocal => DLocal end.

(** [min(n - tot, BSIZE - off % BSIZE)]. *)
Definition chunk (n tot off : Z) : Z := Z.min (n - tot) (BSIZE - off mod BSIZE).

Fixpoint readi_loop (i : nat) (dst : dest) (off tot n : Z) (out : list Z) (fuel : nat)
    : M (Z * list Z) :=
  if tot <? n then
    match fuel with
    | O => diverge
    | S fuel' =>
        let! a := bmap i (off / BSIZE) in
        if a =? 0 then ret (tot, out)
        else
          let! dev := geti i i_dev in
          let! bp := bread dev a in
          let m := chunk n tot off in
          let! d := getb bp b_data in
          let bs := take (Z.to_nat m) (drop (Z.to_nat (off mod BSIZE)) d) in
          let! r := copy_to dst bs in
          if r =? -1 then brelse bp ;;; ret (-1, out)
          else
            brelse bp ;;;
            readi_loop i (advance dst m) (off + m) (tot + m) n (out ++ bs) fuel'
    end
  else ret (tot, out).

(** The second component is what has been copied to [dst]. *)
Definition readi (i : nat) (dst : dest) (off n : Z) : M (Z * list Z) :=
  let! size := geti i i_size in
  if (size <? off) || (u32 (off + n) <? off) then ret (0, [])
  else
    let n := if size <? u32 (off + n) then size - off else n in
    readi_loop i dst off 0 n [] (Z.to_nat n).

Definition copy_from (src : source) (len : Z) : M (Z * list Z) :=
  match src with
  | SUser va => either_copyin true va len
  | SPhys pa => either_copyin false pa len
  | SLocal bs => ret (0, take (Z.to_nat len) bs)
  end.
Definition advance_src (src : source) (m : Z) : source :=
  match src with
  | SUser va => SUser (va + m)
  | SPhys pa => SPhys (pa + m)
  | SLocal bs => SLocal (drop (Z.to_nat m) bs)
  end.

(** [either_copyin] stores into the buffer as it goes, so the buffer keeps what was
    copied before a failure. *)
Definition splice (d : list Z) (o : nat) (bs : list Z) : list Z :=
  take o d ++ bs ++ drop (o + length bs) d.

Fixpoint writei_loop (i : nat) (src : source) (off tot n : Z) (fuel : nat) : M (Z * Z) :=
  if tot <? n then
    match fuel with
    | O => diverge
    | S fuel' =>
        let! a := bmap i (off / BSIZE) in
        if a =? 0 then ret (tot, off)
        else
          let! dev := geti i i_dev in
          let! bp := bread dev a in
          let m := chunk n tot off in
          let! (r, bs) := copy_from src m in
          updb bp (fun b => set_b_data (splice (b_data b) (Z.to_nat (off mod BSIZE)) bs) b) ;;;
          if r =? -1 then brelse bp ;;; ret (tot, off)
          else
            log_write bp ;;;
            brelse bp ;;;
            writei_loop i (advance_src src m) (off + m) (tot + m) n fuel'
    end
  else ret (tot, off).

Definition writei (i : nat) (src : source) (off n : Z) : M Z :=
  let! size := geti i i_size in
  if (size <? off) || (u32 (off + n) <? off) then ret (-1)
  else if MAXFILE * BSIZE <? u32 (off + n) then ret (-1)
  else
    let! (tot, off) := writei_loop i src off 0 n (Z.to_nat n) in
    let! size := geti i i_size in
    (if size <? off then updi i (set_i_size off) else ret tt) ;;;
    iupdate i ;;;
    ret tot.

(** ** Directories *)

(** The fields of a [struct dirent] in the bytes read. *)
Definition de_inum (de : list Z) : Z := getu16 de 0.
Definition de_name (de : list Z) : list Z := take 14 (drop 2 de).

Definition namecmp (s t : list Z) : Z := strncmp s t DIRSIZ.

Fixpoint dirlookup_loop (dp : nat) (name : list Z) (off : Z) (fuel : nat) : M (option (nat * Z)) :=
  let! size := geti dp i_size in
  if off <? size then
    match fuel with
    | O => diverge
    | S fuel' =>
        let! (r, de) := readi dp DLocal off DESIZE in
        if negb (r =? DESIZE) then panic "dirlookup read"
        else if de_inum de =? 0 then dirlookup_loop dp name (off + DESIZE) fuel'
        else if namecmp name (de_name de) =? 0 then
          let! dev := geti dp i_dev in
          let! i := iget dev (de_inum de) in
          ret (Some (i, off))
        else dirlookup_loop dp name (off + DESIZE) fuel'
    end
  else ret None.

(** The inode found, and the value stored through [poff]. *)
Definition dirlookup (dp : nat) (name : list Z) : M (option (nat * Z)) :=
  let! ip := geti dp (fun ip => ip) in
  if negb (i_type ip =? T_DIR) then panic "dirlookup not DIR"
  else dirlookup_loop dp name 0 (Z.to_nat (i_size ip / DESIZE + 1)).

Fixpoint dirlink_loop (dp : nat) (off : Z) (fuel : nat) : M Z :=
  let! size := geti dp i_size in
  if off <? size then
    match fuel with
    | O => diverge
    | S fuel' =>
        let! (r, de) := readi dp DLocal off DESIZE in
        if negb (r =? DESIZE) then panic "dirlink read"
        else if de_inum de =? 0 then ret off
        else dirlink_loop dp (off + DESIZE) fuel'
    end
  else ret off.

(** The bytes of a [struct dirent]. *)
Definition mk_dirent (inum : Z) (name : list Z) : list Z :=
  le_bytes 2 inum ++ strncpy (replicate 14 0) name DIRSIZ.

Definition dirlink (dp : nat) (name : list Z) (inum : Z) : M Z :=
  let! found := dirlookup dp name in
  match found with
  | Some (ip, _) => iput ip ;;; ret (-1)
  | None =>
      let! size := geti dp i_size in
      let! off := dirlink_loop dp 0 (Z.to_nat (size / DESIZE + 1)) in
      let! r := writei dp (SLocal (mk_dirent inum name)) off DESIZE in
      if negb (r =? DESIZE) then ret (-1) else ret 0
  end.

(** ** Paths *)

Fixpoint skip_slashes (path : list Z) : list Z :=
  match path with
  | c :: path' => if c =? SLASH then skip_slashes path' else path
  | [] => []
  end.

(** The characters up to a slash or the end, and the rest. *)
Fixpoint path_elem (path : list Z) : list Z * list Z :=
  match path with
  | c :: path' =>
      if (c =? SLASH) || (c =? 0) then ([], path)
      else let '(e, rest) := path_elem path' in (c :: e, rest)
  | [] => ([], [])
  end.

(** The element, cut to [DIRSIZ] characters, and the path after it. *)
Definition skipelem (path : list Z) : option (list Z * list Z) :=
  let path := skip_slashes path in
  if ch path 0 =? 0 then None
  else
    let '(e, rest) := path_elem path in
    Some (take (Z.to_nat DIRSIZ) e, skip_slashes rest).

Fixpoint namex_loop (ip : nat) (path : list Z) (nameiparent : bool) (name : list Z) (fuel : nat)
    : M (option nat * list Z) :=
  match skipelem path with
  | Some (name, path) =>
      match fuel with
      | O => diverge
      | S fuel' =>
          ilock ip ;;;
          let! t := geti ip i_type in
          if negb (t =? T_DIR) then iunlockput ip ;;; ret (None, name)
          else if nameiparent && (ch path 0 =? 0) then iunlock ip ;;; ret (Some ip, name)
          else
            let! next := dirlookup ip name in
            match next with
            | None => iunlockput ip ;;; ret (None, name)
            | Some (next, _) =>
                iunlockput ip ;;;
                namex_loop next path nameiparent name fuel'
            end
      end
  | None =>
      if nameiparent then iput ip ;;; ret (None, name)
      else ret (Some ip, name)
  end.

(** The inode, and what was left in the [name] argument. *)
Definition namex (path : list Z) (nameiparent : bool) : M (option nat * list Z) :=
  let! ip :=
    (if ch path 0 =? SLASH then iget ROOTDEV ROOTINO
     else
       let! p := myproc_ in
       let! cwd := getp p p_cwd in
       let! cwd := deref cwd in
       idup cwd) in
  namex_loop ip path nameiparent [] (length path).

Definition namei (path : list Z) : M (option nat) :=
  let! (ip, _) := namex path false in ret ip.

Definition nameiparent (path : list Z) : M (option nat * list Z) := namex path true.

End Fs.
