(* ===== verification/File.v ===== *)
(** [kernel/file.c]: the table of open files, and [pipealloc] of [kernel/pipe.c].  A
    [struct file *] is an index into the table. *)
From S2P Require Import Prelude Types Str Kalloc Vm Sched Sleeplock Bio Log Fs Console Pipe.

Definition file0 : file := File FD_NONE 0 false false 0 0 0 0.
#[global] Instance file_inhabited : Inhabited file := populate file0.

Section File.
Context {L : Linker}.

Definition fileat (f : nat) (s : kst) : file := files s !!! f.
Definition getf {A} (f : nat) (g : file -> A) : M A := get (fun s => g (fileat f s)).
Definition updf (f : nat) (g : file -> file) : M unit :=
  upd (fun s => set_files (alter g f (files s)) s).

Fixpoint filealloc_loop (f k : nat) : M (option nat) :=
  match k with
  | O => release LkFtable ;;; ret None
  | S k' =>
      let! r := getf f f_ref in
      if r =? 0 then
        updf f (set_f_ref 1) ;;;
        release LkFtable ;;;
        ret (Some f)
      else filealloc_loop (S f) k'
  end.

Definition filealloc : M (option nat) :=
  acquire LkFtable ;;;
  filealloc_loop 0 NFILE.

Definition filedup (f : nat) : M nat :=
  acquire LkFtable ;;;
  let! r := getf f f_ref in
  if r <? 1 then panic "filedup"
  else
    updf f (set_f_ref (i32 (r + 1))) ;;;
    release LkFtable ;;;
    ret f.

Definition fileclose (f : nat) : M unit :=
  acquire LkFtable ;;;
  let! r := getf f f_ref in
  if r <? 1 then panic "fileclose"
  else
    updf f (set_f_ref (r - 1)) ;;;
    if 0 <? r - 1 then release LkFtable
    else
      let! ff := getf f (fun x => x) in
      updf f (set_f_ref 0) ;;;
      updf f (set_f_type FD_NONE) ;;;
      release LkFtable ;;;
      match f_type ff with
      | FD_PIPE => pipeclose (f_pipe ff) (f_writable ff)
      | FD_INODE | FD_DEVICE =>
          begin_op ;;;
          iput (f_ip ff) ;;;
          end_op
      | FD_NONE => ret tt
      end.

(** The bytes of a [struct stat]; [pad] is the padding before [size], which is
    whatever the stack held. *)
Definition stat_bytes (pad : list Z) (st : stat) : list Z :=
  le_bytes 4 (u32 (st_dev st)) ++ le_bytes 4 (st_ino st) ++ le_bytes 2 (u16 (st_type st)) ++
  le_bytes 2 (u16 (st_nlink st)) ++ pad ++ le_bytes 8 (st_size st).

Definition filestat (pad : list Z) (f : nat) (addr : Z) : M Z :=
  let! p := myproc in
  let! ty := getf f f_type in
  match ty with
  | FD_INODE | FD_DEVICE =>
      let! ip := getf f f_ip in
      ilock ip ;;;
      let! st := stati ip in
      iunlock ip ;;;
      let! p := deref p in
      let! pt := getp p p_pagetable in
      let! r := copyout pt addr (stat_bytes pad st) in
      if r <? 0 then ret (-1) else ret 0
  | _ => ret (-1)
  end.

(** [f->off += r]. *)
Definition move_off (f : nat) (r : Z) : M unit :=
  if 0 <? r then updf f (fun x => set_f_off (u32 (f_off x + r)) x) else ret tt.

Definition fileread (f : nat) (addr n : Z) : M Z :=
  let! ff := getf f (fun x => x) in
  if negb (f_readable ff) then ret (-1)
  else
    match f_type ff with
    | FD_PIPE => piperead (f_pipe ff) addr n
    | FD_DEVICE =>
        if (f_major ff <? 0) || (NDEV <=? f_major ff) then ret (-1)
        else
          match d_read (devsw (f_major ff)) with
          | None => ret (-1)
          | Some rd => rd true addr n
          end
    | FD_INODE =>
        ilock (f_ip ff) ;;;
        let! off := getf f f_off in
        let! (r, _) := readi (f_ip ff) (DUser addr) off (u32 n) in
        let r := i32 r in
        move_off f r ;;;
        iunlock (f_ip ff) ;;;
        ret r
    | FD_NONE => panic "fileread"
    end.

(** [max] in [filewrite]: a transaction reserves [MAXOPBLOCKS] blocks of the log. *)
Definition max_write : Z := (MAXOPBLOCKS - 1 - 1 - 2) / 2 * BSIZE.

(** The inode loop: the number of bytes written when it ends. *)
Fixpoint filewrite_loop (f : nat) (addr n i : Z) (fuel : nat) : M Z :=
  match fuel with
  | O => diverge
  | S fuel' =>
      if i <? n then
        let n1 := Z.min (n - i) max_write in
        let! ip := getf f f_ip in
        begin_op ;;;
        ilock ip ;;;
        let! off := getf f f_off in
        let! r := writei ip (SUser (u64 (addr + i))) off n1 in
        move_off f r ;;;
        iunlock ip ;;;
        end_op ;;;
        if negb (r =? n1) then ret i
        else filewrite_loop f addr n (i + r) fuel'
      else ret i
  end.

Definition filewrite (f : nat) (addr n : Z) : M Z :=
  let! ff := getf f (fun x => x) in
  if negb (f_writable ff) then ret (-1)
  else
    match f_type ff with
    | FD_PIPE => pipewrite (f_pipe ff) addr n
    | FD_DEVICE =>
        if (f_major ff <? 0) || (NDEV <=? f_major ff) then ret (-1)
        else
          match d_write (devsw (f_major ff)) with
          | None => ret (-1)
          | Some wr => wr true addr n
          end
    | FD_INODE =>
        let! i := filewrite_loop f addr n 0 (S (Z.to_nat n)) in
        ret (if i =? n then n else -1)
    | FD_NONE => panic "filewrite"
    end.

(** ** [pipealloc]: the two ends of a new pipe, or [None] *)

Definition close_opt (f : option nat) : M unit :=
  match f with Some f => fileclose f | None => ret tt end.

Definition pipealloc : M (option (nat * nat)) :=
  let! f0 := filealloc in
  let! f1 := match f0 with Some _ => filealloc | None => ret None end in
  let! pi := match f0, f1 with Some _, Some _ => kalloc | _, _ => ret 0 end in
  match f0, f1 with
  | Some a, Some b =>
      if pi =? 0 then fileclose a ;;; fileclose b ;;; ret None
      else
        pipe_new pi ;;;
        updf a (fun x => File FD_PIPE (f_ref x) true false pi (f_ip x) (f_off x) (f_major x)) ;;;
        updf b (fun x => File FD_PIPE (f_ref x) false true pi (f_ip x) (f_off x) (f_major x)) ;;;
        ret (Some (a, b))
  | _, _ =>
      close_opt f0 ;;;
      close_opt f1 ;;;
      ret None
  end.
End File.
