(* ===== verification/Proc.v ===== *)
(** [kernel/proc.c]: creating, forking, ending and reaping processes, and the
    scheduler.  [Sched] has the part of the file that sleeping rests on. *)
From S2P Require Import Prelude Types Riscv Str Kalloc Vm Sched Sleeplock Bio Log Fs Uart Printf Pipe File.

(** Offsets in [struct trapframe]. *)
Abbreviation TF_KERNEL_SATP := 0.
Abbreviation TF_KERNEL_SP := 8.
Abbreviation TF_KERNEL_TRAP := 16.
Abbreviation TF_EPC := 24.
Abbreviation TF_KERNEL_HARTID := 32.
Abbreviation TF_SP := 48.
Abbreviation TF_A0 := 112.
Abbreviation TF_A1 := 120.
Abbreviation TF_A7 := 168.
Abbreviation TF_SIZE := 288.

Abbreviation SSTATUS_SIE := 2.

Section Proc.
Context {L : Linker}.

Definition tf_get (p : nat) (off : Z) : M Z :=
  let! tf := getp p p_trapframe in
  ld64 (tf + off).
Definition tf_set (p : nat) (off v : Z) : M unit :=
  let! tf := getp p p_trapframe in
  write_k (tf + off) (le_bytes 8 v).

(** ** The process table *)

Fixpoint procinit_loop (i k : nat) : M unit :=
  match k with
  | O => ret tt
  | S k' =>
      updp i (set_p_state UNUSED) ;;;
      updp i (set_p_kstack (KSTACK (Z.of_nat i))) ;;;
      procinit_loop (S i) k'
  end.

Definition procinit : M unit := procinit_loop 0 NPROC.

Definition cpuid : M Z := get (fun s => i32 (r_tp (hart s))).

Definition allocpid : M Z :=
  acquire LkPid ;;;
  let! pid := get nextpid in
  upd (set_nextpid (i32 (pid + 1))) ;;;
  release LkPid ;;;
  ret pid.

(** ** A process's page table *)

Definition proc_pagetable (p : nat) : M Z :=
  let! pagetable := uvmcreate in
  if pagetable =? 0 then ret 0
  else
    let! r := mappages pagetable TRAMPOLINE PGSIZE k_trampoline (Z.lor PTE_R PTE_X) in
    if r <? 0 then
      uvmfree pagetable 0 ;;;
      ret 0
    else
      let! tf := getp p p_trapframe in
      let! r := mappages pagetable TRAPFRAME PGSIZE tf (Z.lor PTE_R PTE_W) in
      if r <? 0 then
        uvmunmap pagetable TRAMPOLINE 1 false ;;;
        uvmfree pagetable 0 ;;;
        ret 0
      else ret pagetable.

Definition proc_freepagetable (pagetable sz : Z) : M unit :=
  uvmunmap pagetable TRAMPOLINE 1 false ;;;
  uvmunmap pagetable TRAPFRAME 1 false ;;;
  uvmfree pagetable sz.

(** ** Allocation *)

Definition freeproc (p : nat) : M unit :=
  let! tf := getp p p_trapframe in
  (if negb (tf =? 0) then kfree tf else ret tt) ;;;
  updp p (set_p_trapframe 0) ;;;
  let! pt := getp p p_pagetable in
  (if negb (pt =? 0) then
     let! sz := getp p p_sz in
     proc_freepagetable pt sz
   else ret tt) ;;;
  updp p (set_p_pagetable 0) ;;;
  updp p (set_p_sz 0) ;;;
  updp p (set_p_pid 0) ;;;
  updp p (set_p_parent None) ;;;
  updp p (fun x => set_p_name (<[0%nat := 0]> (p_name x)) x) ;;;
  updp p (set_p_chan ChNull) ;;;
  updp p (set_p_killed false) ;;;
  updp p (set_p_xstate 0) ;;;
  updp p (set_p_state UNUSED).

(** The search for a free slot: it is returned with its lock held. *)
Fixpoint allocproc_scan (i k : nat) : M (option nat) :=
  match k with
  | O => ret None
  | S k' =>
      acquire (LkProc i) ;;;
      let! st := getp i p_state in
      if bool_decide (st = UNUSED) then ret (Some i)
      else
        release (LkProc i) ;;;
        allocproc_scan (S i) k'
  end.

Definition allocproc : M (option nat) :=
  let! o := allocproc_scan 0 NPROC in
  match o with
  | None => ret None
  | Some p =>
      let! pid := allocpid in
      updp p (set_p_pid pid) ;;;
      updp p (set_p_state USED) ;;;
      let! tf := kalloc in
      updp p (set_p_trapframe tf) ;;;
      if tf =? 0 then
        freeproc p ;;;
        release (LkProc p) ;;;
        ret None
      else
        let! pt := proc_pagetable p in
        updp p (set_p_pagetable pt) ;;;
        if pt =? 0 then
          freeproc p ;;;
          release (LkProc p) ;;;
          ret None
        else
          updp p (fun x => set_p_context (Ctx k_forkret (p_kstack x + PGSIZE) (replicate 12 0)) x) ;;;
          ret (Some p)
  end.

Definition initcode : list Z :=
  [ 0x17; 0x05; 0x00; 0x00; 0x13; 0x05; 0x45; 0x02;
    0x97; 0x05; 0x00; 0x00; 0x93; 0x85; 0x35; 0x02;
    0x93; 0x08; 0x70; 0x00; 0x73; 0x00; 0x00; 0x00;
    0x93; 0x08; 0x20; 0x00; 0x73; 0x00; 0x00; 0x00;
    0xef; 0xf0; 0x9f; 0xff; 0x2f; 0x69; 0x6e; 0x69;
    0x74; 0x00; 0x00; 0x24; 0x00; 0x00; 0x00; 0x00;
    0x00; 0x00; 0x00; 0x00 ].

Definition userinit : M unit :=
  let! o := allocproc in
  upd (set_initproc o) ;;;
  let! p := deref o in
  let! pt := getp p p_pagetable in
  uvmfirst pt initcode ;;;
  updp p (set_p_sz PGSIZE) ;;;
  tf_set p TF_EPC 0 ;;;
  tf_set p TF_SP PGSIZE ;;;
  updp p (fun x => set_p_name (safestrcpy (p_name x) (lit "initcode" ++ [0]) 16) x) ;;;
  let! cwd := namei (lit "/" ++ [0]) in
  updp p (set_p_cwd cwd) ;;;
  updp p (set_p_state RUNNABLE) ;;;
  release (LkProc p).

Definition growproc (n : Z) : M Z :=
  let! p := myproc_ in
  let! sz := getp p p_sz in
  let! pt := getp p p_pagetable in
  if 0 <? n then
    let! sz := uvmalloc pt sz (u64 (sz + n)) PTE_W in
    if sz =? 0 then ret (-1)
    else updp p (set_p_sz sz) ;;; ret 0
  else
    let! sz := (if n <? 0 then uvmdealloc pt sz (u64 (sz + n)) else ret sz) in
    updp p (set_p_sz sz) ;;;
    ret 0.

(** ** [fork] *)

Fixpoint fork_files (p np : nat) (i k : nat) : M unit :=
  match k with
  | O => ret tt
  | S k' =>
      let! f := getp p (fun x => nth i (p_ofile x) None) in
      (match f with
       | Some f =>
           let! f := filedup f in
           updp np (fun x => set_p_ofile (<[i := Some f]> (p_ofile x)) x)
       | None => ret tt
       end) ;;;
      fork_files p np (S i) k'
  end.

Definition fork : M Z :=
  let! p := myproc_ in
  let! o := allocproc in
  match o with
  | None => ret (-1)
  | Some np =>
      let! pt := getp p p_pagetable in
      let! npt := getp np p_pagetable in
      let! sz := getp p p_sz in
      let! r := uvmcopy pt npt sz in
      if r <? 0 then
        freeproc np ;;;
        release (LkProc np) ;;;
        ret (-1)
      else
        updp np (set_p_sz sz) ;;;
        let! tf := getp p p_trapframe in
        let! ntf := getp np p_trapframe in
        let! regs := read_k tf TF_SIZE in
        write_k ntf regs ;;;
        tf_set np TF_A0 0 ;;;
        fork_files p np 0 NOFILE ;;;
        let! cwd := getp p p_cwd in
        let! cwd := deref cwd in
        let! cwd := idup cwd in
        updp np (set_p_cwd (Some cwd)) ;;;
        let! name := getp p p_name in
        updp np (fun x => set_p_name (safestrcpy (p_name x) name 16) x) ;;;
        let! pid := getp np p_pid in
        release (LkProc np) ;;;
        acquire LkWait ;;;
        updp np (set_p_parent (Some p)) ;;;
        release LkWait ;;;
        acquire (LkProc np) ;;;
        updp np (set_p_state RUNNABLE) ;;;
        release (LkProc np) ;;;
        ret pid
  end.

(** ** [exit] *)

(** A process pointer as a channel. *)
Definition pchan (o : option nat) : chan := match o with Some i => ChProc i | None => ChNull end.

Fixpoint reparent_loop (p : nat) (i k : nat) : M unit :=
  match k with
  | O => ret tt
  | S k' =>
      let! par := getp i p_parent in
      (if bool_decide (par = Some p) then
         let! ini := get initproc in
         updp i (set_p_parent ini) ;;;
         wakeup (pchan ini)
       else ret tt) ;;;
      reparent_loop p (S i) k'
  end.

Definition reparent (p : nat) : M unit := reparent_loop p 0 NPROC.

Fixpoint exit_files (p : nat) (fd k : nat) : M unit :=
  match k with
  | O => ret tt
  | S k' =>
      let! f := getp p (fun x => nth fd (p_ofile x) None) in
      (match f with
       | Some f =>
           fileclose f ;;;
           updp p (fun x => set_p_ofile (<[fd := None]> (p_ofile x)) x)
       | None => ret tt
       end) ;;;
      exit_files p (S fd) k'
  end.

Definition exit (status : Z) : M unit :=
  let! p := myproc_ in
  let! ini := get initproc in
  if bool_decide (Some p = ini) then panic "init exiting"
  else
    exit_files p 0 NOFILE ;;;
    begin_op ;;;
    let! cwd := getp p p_cwd in
    let! cwd := deref cwd in
    iput cwd ;;;
    end_op ;;;
    updp p (set_p_cwd None) ;;;
    acquire LkWait ;;;
    reparent p ;;;
    let! par := getp p p_parent in
    wakeup (pchan par) ;;;
    acquire (LkProc p) ;;;
    updp p (set_p_xstate status) ;;;
    updp p (set_p_state ZOMBIE) ;;;
    release LkWait ;;;
    sched ;;;
    panic "zombie exit".

(** ** [wait] *)

(** One scan of the table: the value [wait] returns, or whether there are children. *)
Fixpoint wait_scan (p : nat) (addr : Z) (havekids : bool) (i k : nat) : M (Z + bool) :=
  match k with
  | O => ret (inr havekids)
  | S k' =>
      let! par := getp i p_parent in
      if bool_decide (par = Some p) then
        acquire (LkProc i) ;;;
        let! st := getp i p_state in
        if bool_decide (st = ZOMBIE) then
          let! pid := getp i p_pid in
          let! r :=
            (if negb (addr =? 0) then
               let! pt := getp p p_pagetable in
               let! xs := getp i p_xstate in
               copyout pt addr (le_bytes 4 (u32 xs))
             else ret 0) in
          if r <? 0 then
            release (LkProc i) ;;;
            release LkWait ;;;
            ret (inl (-1))
          else
            freeproc i ;;;
            release (LkProc i) ;;;
            release LkWait ;;;
            ret (inl pid)
        else
          release (LkProc i) ;;;
          wait_scan p addr true (S i) k'
      else wait_scan p addr havekids (S i) k'
  end.

(** [sleep] ends the run; a parent that is woken scans again. *)
Definition wait (addr : Z) : M Z :=
  let! p := myproc_ in
  acquire LkWait ;;;
  let! r := wait_scan p addr false 0 NPROC in
  match r with
  | inl pid => ret pid
  | inr havekids =>
      let! stop := (if havekids then killed p else ret true) in
      if stop then release LkWait ;;; ret (-1)
      else sleep (ChProc p) LkWait ;;; ret (-1)
  end.

(** ** The scheduler *)

Definition intr_on : M unit :=
  upd (fun s => set_hart (set_r_sstatus (Z.lor (r_sstatus (hart s)) SSTATUS_SIE) (hart s)) s).

(** One turn of the loop over the table.  [swtch p] is the run of process [p] from here to
    its next call of [sched]; it comes back with [p]'s lock held. *)
Definition scheduler_turn (swtch : nat -> M unit) (found : bool) (i : nat) : M bool :=
  acquire (LkProc i) ;;;
  let! st := getp i p_state in
  let! found :=
    (if bool_decide (st = RUNNABLE) then
       updp i (set_p_state RUNNING) ;;;
       upd (set_cur (Some i)) ;;;
       swtch i ;;;
       upd (set_cur None) ;;;
       ret true
     else ret found) in
  release (LkProc i) ;;;
  ret found.

Fixpoint scheduler_scan (swtch : nat -> M unit) (found : bool) (i k : nat) : M bool :=
  match k with
  | O => ret found
  | S k' =>
      let! found := scheduler_turn swtch found i in
      scheduler_scan swtch found (S i) k'
  end.

(** [rounds] passes of the endless loop; between two of them [wfi] waits for an
    interrupt when nothing was found. *)
Fixpoint scheduler_rounds (swtch : nat -> M unit) (wfi : M unit) (rounds : nat) : M unit :=
  match rounds with
  | O => ret tt
  | S rounds' =>
      intr_on ;;;
      let! found := scheduler_scan swtch false 0 NPROC in
      (if found then ret tt else intr_on ;;; wfi) ;;;
      scheduler_rounds swtch wfi rounds'
  end.

Definition scheduler (swtch : nat -> M unit) (wfi : M unit) (rounds : nat) : M unit :=
  upd (set_cur None) ;;;
  scheduler_rounds swtch wfi rounds.

(** ** [procdump] *)

Definition state_name (st : procstate) : list Z :=
  lit (match st with
       | UNUSED => "unused"
       | USED => "used"
       | SLEEPING => "sleep "
       | RUNNABLE => "runble"
       | RUNNING => "run   "
       | ZOMBIE => "zombie"
       end).

Definition newline : list Z := [10].

Fixpoint procdump_loop (i k : nat) : M unit :=
  match k with
  | O => ret tt
  | S k' =>
      let! p := getp i (fun p => p) in
      (if bool_decide (p_state p = UNUSED) then ret tt
       else
         kprintf (lit "%d %s %s") [VNum (p_pid p); VStr (Some (state_name (p_state p))); VStr (Some (p_name p))] ;;;
         kprintf newline []) ;;;
      procdump_loop (S i) k'
  end.

Definition procdump : M unit :=
  kprintf newline [] ;;;
  procdump_loop 0 NPROC.
End Proc.
