(* ===== verification/ProcMem.v ===== *)
(** The address spaces of processes: [proc_pagetable], [proc_freepagetable], [allocproc] and
    [freeproc] of [Proc] against the representation of page tables, with every page
    accounted for on every branch. *)
From S2P Require Import Prelude Types Riscv Str Kalloc Vm PtRep PtOps Uvm Grow Uvmfree Sched Sleeplock Bio Log Fs Uart Printf Pipe File Proc.

Section ProcMem.
Context {L : Linker} {LOk : LinkerOk L}.
Implicit Types (O : gmap Z role) (U : gmap Z Z) (fl : list Z) (r t va tf sz : Z).

(** ** A table with nothing in it *)

Lemma pte_at_zero m r va : (forall x, in_page r x -> mget m x = 0) -> pte_at m r va = 0.
Proof.
  intros Hz. unfold pte_at, pt_slot. pose proof (PX_range 2 va ltac:(lia)).
  rewrite load64_zero; [by rewrite has_0|]. intros x Hx. apply Hz. by apply (entry_in_page r (PX 2 va)).
Qed.

Lemma pt_wf_root m r : page_ok r -> (forall x, in_page r x -> mget m x = 0) -> pt_wf m r {[r := Root]}.
Proof.
  intros Hr Hz.
  assert (Hl : forall i, 0 <= i < 512 -> load64 m (r + 8 * i) = 0).
  { intros i Hi. apply load64_zero. intros x Hx. apply Hz. by apply (entry_in_page r i). }
  split.
  - by rewrite lookup_singleton_eq.
  - intros t [-> _]%lookup_singleton_Some. done.
  - intros t ρ [<- _]%lookup_singleton_Some. done.
  - intros t ρ i [<- <-]%lookup_singleton_Some _ Hi. by rewrite Hl, has_0.
  - intros t ρ i t' [<- <-]%lookup_singleton_Some _ Hi [_ E]%lookup_singleton_Some. done.
  - intros t i2 [_ E]%lookup_singleton_Some. done.
  - intros t i2 i1 [_ E]%lookup_singleton_Some. done.
Qed.

(** Pages outside [fl] keep their contents. *)
Definition outside (fl : list Z) (s s' : kst) : Prop :=
  forall x, (forall q, q ∈ fl -> ~ in_page q x) -> mget (mem s') x = mget (mem s) x.

Lemma outside_trans fl fl1 s s1 s2 : (forall q, q ∈ fl1 -> q ∈ fl) -> outside fl s s1 -> outside fl1 s1 s2 -> outside fl s s2.
Proof. intros H H1 H2 x Hx. rewrite H2, H1; [done|done|]. intros q Hq. by apply Hx, H. Qed.

Lemma wp_uvmcreate s fl :
  kmem_inv s fl ->
  wp uvmcreate (fun r s' => (r = 0 /\ fl = [] /\ s' = s) \/
    exists fl', fl = r :: fl' /\ r <> 0 /\ only_mem s s' /\ uvm_own s' r {[r := Root]} fl' ∅ /\
      (forall vb, pte_at (mem s') r vb = 0) /\ outside [r] s s') s.
Proof.
  intros K. unfold uvmcreate. destruct fl as [|r fl'].
  { wp_step. apply wp_kalloc_empty; [done|]. change (0 =? 0) with true. cbv iota. wp_step. by left. }
  pose proof (kmem_page _ _ r K ltac:(set_solver)) as Hr. pose proof (page_ok_bounds r Hr). pose proof (kmem_nodup _ _ K) as [Hrf _]%NoDup_cons.
  wp_step. eapply wp_kalloc; [exact K|]. intros s1 E1 K1 M1. rewrite (proj2 (Z.eqb_neq _ _)) by lia.
  wp_step. apply wp_memset_k; [lia|]. intros m2 M2. wp_step. right. exists fl'.
  assert (Hz : forall x, in_page r x -> mget m2 x = 0) by (intros x Hx; rewrite M2; by rewrite decide_True).
  assert (Ho : forall x, ~ in_page r x -> mget m2 x = mget (mem s1) x) by (intros x Hx; rewrite M2; by rewrite decide_False).
  split_and!; [done|lia| | | |].
  - rewrite E1. done.
  - split; [split|..]; try (intros; by rewrite lookup_empty in *).
    + by apply pt_wf_root.
    + eapply kmem_inv_frame; [exact K1|by destruct s1|by destruct s1; apply K1|]. intros q x Hq Hx. cbn. apply Ho.
      eapply in_page_neq; [by eapply kmem_page| done| |done]. intros ->. done.
    + intros t [ρ [<- _]%lookup_singleton_Some]. done.
  - intros vb. by apply pte_at_zero.
  - intros x Hx. cbn. rewrite Ho, M1 by (apply Hx; set_solver). rewrite decide_False; [done|]. apply Hx. set_solver.
Qed.

(** A page unmapped but not freed. *)
Lemma wp_unmap_page s r O fl U va pa perm :
  uvm_own s r O fl U -> va mod PGSIZE = 0 -> 0 <= va < MAXVA -> U !! va = None ->
  pte_at (mem s) r va = leaf_pte pa perm -> pa_ok pa -> 0 <= perm < 1024 -> Z.lor perm PTE_V <> PTE_V ->
  wp (uvmunmap r va 1 false) (fun _ s' => uvm_own s' r O fl U /\ only_mem s s' /\
    (forall vb, 0 <= vb < MAXVA -> pte_at (mem s') r vb = if decide (vb / 4096 = va / 4096) then 0 else pte_at (mem s) r vb) /\
    (forall x, (forall t, is_Some (O !! t) -> ~ in_page t x) -> mget (mem s') x = mget (mem s) x)) s.
Proof.
  intros Own Hal Hva HU Hpte Hpa Hperm Hfl. unfold uvmunmap. rewrite Hal. change (negb (0 =? 0)) with false. cbv iota.
  rewrite Z.mul_1_l, (u64_small PGSIZE), u64_small by lia. change (Z.to_nat 1) with 1%nat. cbn [uvmunmap_loop].
  rewrite (proj2 (Z.ltb_lt _ _)) by lia. destruct (pte_slot_some s r O fl va) as (t0 & H0 & Es & El & Hnz);
    [apply Own|rewrite Hpte; by apply leaf_V|].
  wp_step. apply wp_walk_noalloc; [lia|]. rewrite Es. cbn [default from_option id]. rewrite (proj2 (Z.eqb_neq _ _)) by done.
  wp_step. apply wp_get. rewrite El, Hpte, leaf_V, leaf_FLAGS by done. cbn [negb]. rewrite (proj2 (Z.eqb_neq _ _)) by done.
  wp_step. wp_step. wp_step. apply wp_upd. rewrite (proj2 (Z.ltb_ge _ _)) by (rewrite u64_small; lia). wp_step.
  destruct (own_set_leaf s r O fl va t0 0) as (Own2 & E2 & P2); [apply Own|done|done|].
  set (s2 := set_mem _ s) in *.
  assert (P : forall vb, 0 <= vb < MAXVA -> pte_at (mem s2) r vb = if decide (vb / 4096 = va / 4096) then 0 else pte_at (mem s) r vb)
    by (intros vb Hvb; by rewrite P2).
  split_and!; [|apply E2|done|apply E2]. destruct Own as [_ Ova Ofr Opte Oinj]. split; [done|done|done| |done].
  intros vb pb Hb. destruct (Ova _ _ Hb). rewrite P, decide_False; [by apply Opte|intros Hdiv|done].
  assert (vb = va) as -> by (Z.div_mod_to_equations; lia). congruence.
Qed.

(** ** The address space of a process

    The pages below [sz] are the user's, in frames of their own; the trampoline and the
    page [tf] with the trapframe are at the top; nothing else is mapped. *)
Record space (s : kst) r O fl U tf sz : Prop := {
  sp_own : uvm_own s r O fl U;
  sp_sz : 0 <= sz <= TRAPFRAME;
  sp_user va : is_Some (U !! va) <-> 0 <= va < PGROUNDUP sz /\ va mod PGSIZE = 0;
  sp_tramp : pte_at (mem s) r TRAMPOLINE = leaf_pte k_trampoline (Z.lor PTE_R PTE_X);
  sp_tf : pte_at (mem s) r TRAPFRAME = leaf_pte tf (Z.lor PTE_R PTE_W);
  sp_free vb : PGROUNDUP sz <= vb < TRAPFRAME -> pte_at (mem s) r vb = 0
}.

Lemma trampoline_pa_ok : pa_ok k_trampoline.
Proof. destruct LOk. split; [|done]. lia. Qed.

Lemma space_round sz : 0 <= sz <= TRAPFRAME -> sz <= PGROUNDUP sz <= TRAPFRAME.
Proof. intros H. rewrite PGROUNDUP_eq by lia. Z.div_mod_to_equations. lia. Qed.

Lemma space_none s r O fl U tf sz va : space s r O fl U tf sz -> TRAPFRAME <= va -> U !! va = None.
Proof.
  intros Sp Hva. apply eq_None_not_Some. intros H%(sp_user _ _ _ _ _ _ _ Sp). pose proof (space_round sz (sp_sz _ _ _ _ _ _ _ Sp)). lia.
Qed.

Lemma wp_proc_freepagetable s r O fl U tf sz :
  space s r O fl U tf sz -> pa_ok tf ->
  wp (proc_freepagetable r sz) (fun _ s' => exists fl', kmem_inv s' fl' /\ only_mem s s' /\
    (forall p, p ∈ fl' <-> p ∈ fl \/ is_Some (O !! p) \/ exists va, U !! va = Some p) /\ outside fl' s s') s.
Proof.
  intros Sp Htf. pose proof Sp as [Own Hsz HU Htr Htfp Hfree]. pose proof (space_round sz Hsz) as Hr. unfold proc_freepagetable.
  wp_step. eapply wp_mono; [apply (wp_unmap_page s r O fl U TRAMPOLINE k_trampoline (Z.lor PTE_R PTE_X)); try done|].
  { by apply (space_none s r O fl U tf sz). }
  { apply trampoline_pa_ok. }
  intros [] s1 (Own1 & E1 & P1 & F1).
  wp_step. eapply wp_mono; [apply (wp_unmap_page s1 r O fl U TRAPFRAME tf (Z.lor PTE_R PTE_W)); try done|].
  { by apply (space_none s r O fl U tf sz). }
  { rewrite P1 by done. rewrite decide_False; [done|]. vm_compute. done. }
  intros [] s2 (Own2 & E2 & P2 & F2).
  eapply wp_mono; [apply (wp_uvmfree s2 r O fl U sz Own2); [lia|done|]|].
  - intros vb Hvb. rewrite P2, P1 by lia. repeat case_decide; [done..|].
    rewrite Hfree; [by rewrite has_0|]. split; [lia|].
    destruct (decide (vb < TRAPFRAME)); [done|]. Z.div_mod_to_equations. lia.
  - intros [] s3 (fl' & K & E3 & Hp & F3). exists fl'. split_and!; [done| |done|].
    + eapply only_mem_trans; [exact E1|]. by eapply only_mem_trans.
    + intros x Hx. rewrite F3, F2, F1; [done| | |exact Hx]; intros t Ht; apply Hx, Hp; by right; left.
Qed.

(** Every page that was free is free again. *)
Definition pages_back fl (s s' : kst) : Prop :=
  exists fl', kmem_inv s' fl' /\ only_mem s s' /\ (forall p, p ∈ fl' <-> p ∈ fl) /\ outside fl s s'.

Lemma pages_back_refl fl s : kmem_inv s fl -> pages_back fl s s.
Proof. intros K. exists fl. split_and!; [done|apply only_mem_refl|done|done]. Qed.

Lemma pages_back_trans fl fl1 s s1 s2 :
  only_mem s s1 -> outside fl s s1 -> (forall p, p ∈ fl1 <-> p ∈ fl) -> pages_back fl1 s1 s2 -> pages_back fl s s2.
Proof.
  intros E F H (fl2 & K & E2 & H2 & F2). exists fl2. split_and!; [done|by eapply only_mem_trans| |].
  - intros p. by rewrite H2, H.
  - eapply outside_trans; [|exact F|exact F2]. intros q. apply H.
Qed.

Lemma own_empty s r O fl : pt_own s r O fl -> uvm_own s r O fl ∅.
Proof. intros P. split; [done|..]; intros; by rewrite lookup_empty in *. Qed.

(** A table with nothing mapped is freed. *)
Lemma wp_uvmfree_empty s r O fl fl0 :
  uvm_own s r O fl ∅ -> (forall vb, 0 <= vb < MAXVA -> pte_at (mem s) r vb = 0) ->
  (forall p, p ∈ fl0 <-> p ∈ fl \/ is_Some (O !! p)) ->
  wp (uvmfree r 0) (fun _ s' => pages_back fl0 s s') s.
Proof.
  intros Own Hz Hp. change 0 with 0 in *. eapply wp_mono; [apply (wp_uvmfree s r O fl ∅ 0 Own); [lia| |]|].
  - intros va. change (PGROUNDUP 0) with 0. rewrite lookup_empty. split; [by intros []|lia].
  - intros vb Hvb. change (PGROUNDUP 0) with 0 in Hvb. by rewrite Hz, has_0.
  - intros [] s' (fl' & K & E & Hp' & F).
    assert (Hpp : forall p, p ∈ fl' <-> p ∈ fl0).
    { intros p. rewrite Hp', Hp. split; [|tauto]. intros [?|[?|(va & Hva)]]; [by left|by right|]. by rewrite lookup_empty in Hva. }
    exists fl'. split_and!; [done|done|done|]. intros x Hx. apply F. intros q Hq. by apply Hx, Hpp.
Qed.

(** The tables that [mappages] adds, in terms of the pages. *)
Lemma ext_pages s O fl s' O' fl' :
  pt_ext s O fl s' O' fl' ->
  (forall p, p ∈ fl \/ is_Some (O !! p) <-> p ∈ fl' \/ is_Some (O' !! p)) /\ only_mem s s'.
Proof.
  intros [E Sub (new & -> & N) _]. split; [|done]. intros p. rewrite N, elem_of_app. tauto.
Qed.

Definition new_space s fl tf r (s' : kst) : Prop :=
  exists O fl', space s' r O fl' ∅ tf 0 /\ r <> 0 /\ only_mem s s' /\
    (forall p, p ∈ fl <-> p ∈ fl' \/ is_Some (O !! p)) /\ outside fl s s'.

Lemma wp_proc_pagetable s i fl tf :
  kmem_inv s fl -> p_trapframe (procat i s) = tf -> pa_ok tf ->
  wp (proc_pagetable i) (fun r s' => (r = 0 /\ pages_back fl s s') \/ new_space s fl tf r s') s.
Proof.
  intros K Etf Htf. unfold proc_pagetable. wp_step. eapply wp_mono; [by apply wp_uvmcreate|].
  intros r s1 [(-> & -> & ->)|(fl1 & -> & Hr0 & E1 & Own1 & Hz1 & F1)].
  { change (0 =? 0) with true. cbv iota. wp_step. left. split; [done|]. by apply pages_back_refl. }
  rewrite (proj2 (Z.eqb_neq _ _)) by done.
  wp_step. eapply wp_mono.
  { apply (wp_mappages_page s1 r {[r := Root]} fl1 TRAMPOLINE k_trampoline (Z.lor PTE_R PTE_X)); try done; [apply Own1|apply trampoline_pa_ok|by rewrite Hz1]. }
  intros res s2 (O2 & fl2 & Own2 & X2 & Hres). destruct (ext_pages _ _ _ _ _ _ X2) as [Hp2 E2].
  assert (Hp02 : forall p, p ∈ r :: fl1 <-> p ∈ fl2 \/ is_Some (O2 !! p)).
  { intros p. rewrite <- Hp2, elem_of_cons. split.
    - intros [->|?]; [right; rewrite lookup_singleton_eq; by eexists|by left].
    - intros [?|[ρ [<- _]%lookup_singleton_Some]]; [by right|by left]. }
  assert (F02 : outside (r :: fl1) s s2).
  { intros x Hx. rewrite (ext_frame _ _ _ _ _ _ X2), F1; [done| |].
    - intros q Hq. apply Hx. set_solver.
    - intros t Ht. apply Hx, Hp02. by right. }
  assert (E02 : only_mem s s2) by (by eapply only_mem_trans).
  destruct Hres as [[-> P2]|(-> & -> & P2)].
  2: { change (-1 <? 0) with true. cbv iota. wp_step. eapply wp_mono.
    - apply (wp_uvmfree_empty s2 r O2 [] (r :: fl1)); [by apply own_empty|intros vb Hvb; by rewrite P2, Hz1|done].
    - intros [] s3 B. wp_step. left. split; [done|]. eapply pages_back_trans; [exact E02|exact F02|done|exact B]. }
  change (0 <? 0) with false. cbv iota. wp_step. apply wp_get.
  assert (procat i s2 = procat i s) as -> by (unfold procat; by rewrite E02). rewrite Etf.
  wp_step. eapply wp_mono.
  { apply (wp_mappages_page s2 r O2 fl2 TRAPFRAME tf (Z.lor PTE_R PTE_W)); try done.
    rewrite P2 by done. rewrite decide_False by (by vm_compute). by rewrite Hz1. }
  intros res s3 (O3 & fl3 & Own3 & X3 & Hres). destruct (ext_pages _ _ _ _ _ _ X3) as [Hp3 E3].
  assert (Hp03 : forall p, p ∈ r :: fl1 <-> p ∈ fl3 \/ is_Some (O3 !! p)) by (intros p; by rewrite Hp02, Hp3).
  assert (F03 : outside (r :: fl1) s s3).
  { intros x Hx. rewrite (ext_frame _ _ _ _ _ _ X3); [by apply F02|]. intros t Ht. apply Hx, Hp03. by right. }
  assert (E03 : only_mem s s3) by (by eapply only_mem_trans).
  destruct Hres as [[-> P3]|(-> & -> & P3)].
  - change (0 <? 0) with false. cbv iota. wp_step. right. exists O3, fl3. split_and!; [|done|done|done|done].
    split; [by apply own_empty|done| | | |].
    + intros va. change (PGROUNDUP 0) with 0. rewrite lookup_empty. split; [by intros []|lia].
    + rewrite P3 by done. rewrite decide_False by (by vm_compute). rewrite P2 by done. by rewrite decide_True.
    + rewrite P3 by done. by rewrite decide_True.
    + intros vb Hvb. change (PGROUNDUP 0) with 0 in Hvb. rewrite P3 by lia. rewrite decide_False by (Z.div_mod_to_equations; lia).
      rewrite P2 by lia. rewrite decide_False by (Z.div_mod_to_equations; lia). apply Hz1.
  - change (-1 <? 0) with true. cbv iota. wp_step. eapply wp_mono.
    { apply (wp_unmap_page s3 r O3 [] ∅ TRAMPOLINE k_trampoline (Z.lor PTE_R PTE_X)); try done; [|apply trampoline_pa_ok].
      rewrite P3, P2 by done. by rewrite decide_True. }
    intros [] s4 (Own4 & E4 & P4 & F4). wp_step. eapply wp_mono.
    + apply (wp_uvmfree_empty s4 r O3 [] (r :: fl1)); [done| |done]. intros vb Hvb. rewrite P4, P3, P2 by done.
      case_decide; [done|]. apply Hz1.
    + intros [] s5 B. wp_step. left. split; [done|]. eapply pages_back_trans; [| |done|exact B].
      * by eapply only_mem_trans.
      * intros x Hx. rewrite F4; [by apply F03|]. intros t Ht. apply Hx, Hp03. by right.
Qed.

(** A change outside the tables. *)
Lemma space_frame_free s s' r O fl fl' U tf sz :
  space s r O fl U tf sz -> kmem_inv s' fl' -> (forall p, p ∈ fl' -> O !! p = None /\ forall va, U !! va <> Some p) ->
  (forall t x, is_Some (O !! t) -> in_page t x -> mget (mem s') x = mget (mem s) x) ->
  space s' r O fl' U tf sz /\ forall vb, pte_at (mem s') r vb = pte_at (mem s) r vb.
Proof.
  intros [Own A2 A3 A4 A5 A6] K Hd Hm. destruct (uvm_own_frame s s' r O fl fl' U Own K Hm Hd) as [Own' P].
  split; [|done]. split; rewrite ?P; try done. intros vb Hvb. rewrite P. by apply A6.
Qed.

Lemma space_free s r O fl U tf sz p : space s r O fl U tf sz -> p ∈ fl -> O !! p = None /\ forall va, U !! va <> Some p.
Proof.
  intros Sp Hp. pose proof (sp_own _ _ _ _ _ _ _ Sp) as Own. split.
  - apply eq_None_not_Some. intros H. by apply (own_disj _ _ _ _ (uvm_pt _ _ _ _ _ Own) p H).
  - intros va HU. by apply (uvm_frame _ _ _ _ _ Own va p HU).
Qed.

Lemma space_frame s s' r O fl fl' U tf sz :
  space s r O fl U tf sz -> kmem_inv s' fl' -> (forall p, p ∈ fl' -> p ∈ fl) ->
  (forall t x, is_Some (O !! t) -> in_page t x -> mget (mem s') x = mget (mem s) x) ->
  space s' r O fl' U tf sz /\ forall vb, pte_at (mem s') r vb = pte_at (mem s) r vb.
Proof. intros Sp K Hsub. apply (space_frame_free s s' r O fl fl' U tf sz); [done|done|]. intros p Hp. eapply space_free; [exact Sp|by apply Hsub]. Qed.

(** ** Processes *)

(** Only memory, the free list and the allocator's lock matter to all this. *)
Record same_mem (s s' : kst) : Prop := {
  sm_mem : mem s' = mem s;
  sm_free : freelist s' = freelist s;
  sm_lock : LkKmem ∉ held s -> LkKmem ∉ held s'
}.

Lemma kmem_same s s' fl : same_mem s s' -> kmem_inv s fl -> kmem_inv s' fl.
Proof. intros [Em Ef El] K. eapply kmem_inv_frame; [exact K|done|apply El, K|]. by rewrite Em. Qed.
Lemma uvm_same s s' r O fl U : same_mem s s' -> uvm_own s r O fl U -> uvm_own s' r O fl U.
Proof.
  intros Sm [[W K D] A1 A2 A3 A4]. pose proof (sm_mem _ _ Sm) as Em. split; [split|done|done| |done]; rewrite ?Em; [done| |done|done].
  by eapply kmem_same.
Qed.
Lemma space_same s s' r O fl U tf sz : same_mem s s' -> space s r O fl U tf sz -> space s' r O fl U tf sz.
Proof. intros Sm [A1 A2 A3 A4 A5 A6]. pose proof (sm_mem _ _ Sm) as Em. split; rewrite ?Em; try done. by eapply uvm_same. Qed.

Definition upmod i (f : proc -> proc) (s : kst) : kst := set_procs (alter f i (procs s)) s.

Lemma wp_updp i f (Q : unit -> kst -> Prop) s : Q tt (upmod i f s) -> wp (updp i f) Q s.
Proof. done. Qed.
Lemma upmod_upmod i f g s : upmod i f (upmod i g s) = upmod i (fun x => f (g x)) s.
Proof. unfold upmod. cbn. by rewrite list_alter_alter. Qed.
Lemma upmod_same_mem i f s : same_mem s (upmod i f s).
Proof. by split. Qed.
Lemma procat_upmod i f s j : (i < length (procs s))%nat ->
  procat j (upmod i f s) = if decide (i = j) then f (procat i s) else procat j s.
Proof. apply procat_alter. Qed.
Lemma length_upmod i f s : length (procs (upmod i f s)) = length (procs s).
Proof. apply length_alter. Qed.

(** Memory changes, and process [i] by [f]. *)
Definition mem_proc i f (s s' : kst) : Prop := only_mem (upmod i f s) s'.

(** The pages of process [i]: its trapframe, its tables and its frames, or what there is
    of them while it is being set up. *)
Definition pages_of (s : kst) (i : nat) fl (R : Z -> Prop) : Prop :=
  let x := procat i s in let tf := p_trapframe x in
  (tf = 0 /\ p_pagetable x = 0 /\ forall p, ~ R p) \/
  (page_ok tf /\ (tf ∉ fl) /\ p_pagetable x = 0 /\ forall p, R p <-> p = tf) \/
  (page_ok tf /\ (tf ∉ fl) /\ p_pagetable x <> 0 /\ exists O U, space s (p_pagetable x) O fl U tf (p_sz x) /\
    O !! tf = None /\ (forall va, U !! va <> Some tf) /\
    forall p, R p <-> p = tf \/ is_Some (O !! p) \/ exists va, U !! va = Some p).

Definition reaped (x : proc) : proc :=
  Proc UNUSED ChNull false 0 0 None (p_kstack x) 0 0 0 (p_context x) (p_ofile x) (p_cwd x) (<[0%nat := 0]> (p_name x)).

(** [freeproc] gives back all pages of the process, and no others. *)
Definition reap_post (s : kst) (i : nat) fl (R : Z -> Prop) (s' : kst) : Prop :=
  exists fl', kmem_inv s' fl' /\ mem_proc i reaped s s' /\ (forall p, p ∈ fl' <-> p ∈ fl \/ R p) /\ outside fl' s s'.

Lemma only_mem_procs s s' : only_mem s s' -> procs s' = procs s.
Proof. by intros ->. Qed.
Lemma only_mem_upmod i f s s' : only_mem s s' -> only_mem (upmod i f s) (upmod i f s').
Proof. unfold only_mem, upmod. intros ->. done. Qed.

Lemma wp_freeproc s i fl R :
  kmem_inv s fl -> (i < length (procs s))%nat -> pages_of s i fl R -> wp (freeproc i) (fun _ => reap_post s i fl R) s.
Proof.
  intros K Hi Hp. set (x := procat i s). unfold freeproc. wp_step. apply wp_get. fold x. wp_step.
  (** The trapframe. *)
  eapply (wp_mono _ (fun _ s1 => exists fl1, kmem_inv s1 fl1 /\ only_mem s s1 /\ outside fl1 s s1 /\
      (forall p, p ∈ fl1 <-> p ∈ fl \/ (p = p_trapframe x /\ p <> 0)) /\
      forall O U, space s (p_pagetable x) O fl U (p_trapframe x) (p_sz x) -> O !! p_trapframe x = None ->
        (forall va, U !! va <> Some (p_trapframe x)) -> space s1 (p_pagetable x) O fl1 U (p_trapframe x) (p_sz x))).
  { unfold pages_of in Hp. fold x in Hp.
    assert (Hcase : p_trapframe x = 0 \/ page_ok (p_trapframe x) /\ (p_trapframe x ∉ fl)) by naive_solver. clear Hp.
    destruct Hcase as [E0|[Hok Hn]].
    - rewrite E0. change (negb (0 =? 0)) with false. cbv iota. wp_step. exists fl. split_and!; [done|apply only_mem_refl|done| |done].
      intros p. split; [by left|]. intros [?|[-> ?]]; done.
    - pose proof (page_ok_bounds _ Hok). rewrite (proj2 (Z.eqb_neq _ _)) by lia. change (negb false) with true. cbv iota.
      eapply wp_kfree; [done..|]. intros s1 E1 K1 F1. exists (p_trapframe x :: fl). split_and!; [done|done| | |].
      + intros y Hy. apply F1, Hy. set_solver.
      + intros p. rewrite elem_of_cons. split; [intros [->|?]; [right; split; [done|lia]|by left]|intros [?|[-> _]]; [by right|by left]].
      + intros O U Sp HO HU. pose proof Sp as [Own A2 A3 A4 A5 A6].
        destruct (uvm_own_frame s s1 (p_pagetable x) O fl (p_trapframe x :: fl) U) as [Own1 P1]; [done|done|..].
        * intros t y [ρ Ht] Hy. apply F1. eapply in_page_neq; [by eapply (pt_page _ _ _ (own_wf _ _ _ _ (uvm_pt _ _ _ _ _ Own)))|done| |done]. congruence.
        * intros p [->|Hp]%elem_of_cons; [done|]. split.
          -- apply eq_None_not_Some. intros H'. by apply (own_disj _ _ _ _ (uvm_pt _ _ _ _ _ Own) p).
          -- intros va Hva. by apply (uvm_frame _ _ _ _ _ Own va p).
        * split; rewrite ?P1; try done. intros vb Hvb. rewrite P1. by apply A6. }
  intros [] s1 (fl1 & K1 & E1 & F1 & Hp1 & Hsp). wp_step. apply wp_updp. wp_step. apply wp_get.
  assert (Hi1 : (i < length (procs s1))%nat) by (by rewrite (only_mem_procs _ _ E1)).
  assert (Ex : procat i s1 = x) by (unfold procat; by rewrite (only_mem_procs _ _ E1)).
  rewrite procat_upmod, decide_True, Ex by done. cbn [p_pagetable set_p_trapframe].
  set (s2 := upmod i (set_p_trapframe 0) s1). assert (S2 : same_mem s1 s2) by apply upmod_same_mem.
  wp_step. eapply (wp_mono _ (fun _ s3 => exists fl3, kmem_inv s3 fl3 /\ only_mem s2 s3 /\ outside fl3 s s3 /\
      forall p, p ∈ fl3 <-> p ∈ fl \/ R p)).
  { unfold pages_of in Hp. fold x in Hp. destruct Hp as [(Et & Ept & HR)|[(Hok & Hn & Ept & HR)|(Hok & Hn & Ept & O & U & Sp & HO & HU & HR)]].
    - rewrite Ept. change (negb (0 =? 0)) with false. cbv iota. wp_step. exists fl1. split_and!; [by eapply kmem_same|apply only_mem_refl|done|].
      intros p. rewrite Hp1. split; [intros [?|[-> ?]]; [by left|done]|intros [?|H]; [by left|by apply HR in H]].
    - rewrite Ept. change (negb (0 =? 0)) with false. cbv iota. wp_step. exists fl1. split_and!; [by eapply kmem_same|apply only_mem_refl|done|].
      intros p. rewrite Hp1, HR. pose proof (page_ok_bounds _ Hok). split; [tauto|]. intros [?| ->]; [by left|right]. split; [done|lia].
    - rewrite (proj2 (Z.eqb_neq _ _)) by done. change (negb false) with true. cbv iota.
      wp_step. apply wp_get. unfold s2. rewrite procat_upmod, decide_True, Ex by done. cbn [p_sz set_p_trapframe]. fold s2.
      eapply wp_mono; [apply (wp_proc_freepagetable s2 (p_pagetable x) O fl1 U (p_trapframe x) (p_sz x)); [|by apply page_ok_pa_ok]|].
      + eapply space_same; [exact S2|]. by apply Hsp.
      + intros [] s3 (fl3 & K3 & E3 & Hp3 & F3). pose proof (page_ok_bounds _ Hok).
        assert (Hpp : forall p, p ∈ fl3 <-> p ∈ fl \/ R p).
        { intros p. rewrite Hp3, Hp1, HR. split; [tauto|]. intros [?|[->|[?|?]]]; [tauto| |tauto|tauto]. left; right. split; [done|lia]. }
        exists fl3. split_and!; [done|done| |done]. intros y Hy. rewrite F3 by done. change (mem s2) with (mem s1). apply F1.
        intros q Hq. apply Hy, Hp3. by left. }
  intros [] s3 (fl3 & K3 & E3 & F3 & Hp3).
  repeat (wp_step; apply wp_updp; rewrite ?upmod_upmod). apply wp_updp. rewrite upmod_upmod. exists fl3. split_and!; [|  |done|done].
  - eapply kmem_same; [apply upmod_same_mem|done].
  - unfold mem_proc. eapply only_mem_trans; [apply (only_mem_upmod i reaped s s1 E1)|].
    match goal with |- only_mem _ (upmod i ?f s3) => pose proof (only_mem_upmod i f s2 s3 E3) as H end.
    unfold s2 in H. rewrite upmod_upmod in H. exact H.
Qed.

(** ** [allocproc] *)

Lemma wp_allocproc_scan k : forall i s, (forall j, LkProc j ∉ held s) ->
  wp (allocproc_scan i k) (fun o s' =>
    (o = None /\ s' = s /\ forall j, (i <= j < i + k)%nat -> p_state (procat j s) <> UNUSED) \/
    exists j, o = Some j /\ (i <= j < i + k)%nat /\ p_state (procat j s) = UNUSED /\
      (forall j', (i <= j' < j)%nat -> p_state (procat j' s) <> UNUSED) /\ s' = set_held (LkProc j :: held s) s) s.
Proof.
  induction k as [|k IH]; intros i s Hh; cbn [allocproc_scan].
  { wp_step. left. split_and!; [done|done|]. intros. lia. }
  wp_step. apply wp_acquire; [done|]. wp_step. apply wp_get. change (procat i (set_held _ s)) with (procat i s).
  destruct (bool_decide_reflect (p_state (procat i s) = UNUSED)) as [E|Hne].
  - wp_step. right. exists i. split_and!; [done|lia|lia|done| |done]. intros. lia.
  - wp_step. eapply wp_release; [done|done|]. replace (set_held (held s) _) with s by (by destruct s).
    eapply wp_mono; [by apply IH|]. intros o s' [(-> & -> & H)|(j & -> & Hj & E & H & ->)]; [left|right].
    + split_and!; [done|done|]. intros j Hj. destruct (decide (j = i)) as [->|]; [done|]. apply H. lia.
    + exists j. split_and!; [done|lia|lia|done| |done]. intros j' Hj'. destruct (decide (j' = i)) as [->|]; [done|]. apply H. lia.
Qed.

(** What creating a process can change. *)
Definition proc_only (s s' : kst) : Prop :=
  s' = set_held (held s') (set_nextpid (nextpid s') (set_procs (procs s') (set_freelist (freelist s') (set_mem (mem s') s)))).

Lemma proc_only_trans s s1 s2 : proc_only s s1 -> proc_only s1 s2 -> proc_only s s2.
Proof. unfold proc_only. intros -> ->. done. Qed.
Lemma proc_only_mem s s' : only_mem s s' -> proc_only s s'.
Proof. unfold only_mem, proc_only. intros ->. by destruct s. Qed.

(** The process that [allocproc] returns. *)
Definition fresh_proc (pid tf pt : Z) (x : proc) : proc :=
  Proc USED (p_chan x) (p_killed x) (p_xstate x) pid (p_parent x) (p_kstack x) (p_sz x) pt tf
    (Ctx k_forkret (p_kstack x + PGSIZE) (replicate 12 0)) (p_ofile x) (p_cwd x) (p_name x).

Record born (s : kst) fl (np : nat) (s' : kst) fl' O (tf pt : Z) : Prop := {
  bn_unused : p_state (procat np s) = UNUSED;
  bn_first j : (j < np)%nat -> p_state (procat j s) <> UNUSED;
  bn_only : proc_only s s';
  bn_held : held s' = LkProc np :: held s;
  bn_pid : nextpid s' = i32 (nextpid s + 1);
  bn_procs : procs s' = alter (fresh_proc (nextpid s) tf pt) np (procs s);
  bn_space : space s' pt O fl' ∅ tf 0;
  bn_pt : pt <> 0;
  bn_tf : page_ok tf /\ (tf ∉ fl') /\ O !! tf = None;
  bn_pages p : p ∈ fl <-> p = tf \/ p ∈ fl' \/ is_Some (O !! p);
  bn_out : outside fl s s'
}.

(** An unused slot; only the saved context is what it happens to be. *)
Definition cleared (c : proc -> context) (x : proc) : proc := set_p_context (c x) (reaped x).

(** Nothing was created: there was no free slot, or memory ran out, and all pages are free
    again. *)
Definition unborn (s : kst) fl (s' : kst) : Prop :=
  (s' = s /\ forall j, (j < NPROC)%nat -> p_state (procat j s) <> UNUSED) \/
  exists j c fl', proc_only s s' /\ held s' = held s /\ procs s' = alter (cleared c) j (procs s) /\
    p_state (procat j s) = UNUSED /\ kmem_inv s' fl' /\ (forall p, p ∈ fl' <-> p ∈ fl) /\ outside fl s s'.

(** The state of a process being made: slot [j] changed by [f], its lock held. *)
Record making (s : kst) (j : nat) (f : proc -> proc) (s' : kst) : Prop := {
  mk_only : proc_only s s';
  mk_held : held s' = LkProc j :: held s;
  mk_pid : nextpid s' = i32 (nextpid s + 1);
  mk_procs : procs s' = alter f j (procs s)
}.

Lemma making_upmod s j f g s' : making s j f s' -> making s j (fun x => g (f x)) (upmod j g s').
Proof.
  intros [A1 A2 A3 A4]. split; [|done|done|].
  - eapply proc_only_trans; [exact A1|]. unfold proc_only, upmod. by destruct s'.
  - unfold upmod. cbn. by rewrite A4, list_alter_alter.
Qed.
Lemma making_mem s j f s' s'' : making s j f s' -> only_mem s' s'' -> making s j f s''.
Proof.
  intros [A1 A2 A3 A4] E. split; [|by rewrite E..]. eapply proc_only_trans; [exact A1|by apply proc_only_mem].
Qed.
Lemma making_procat s j f s' i : making s j f s' -> (j < length (procs s))%nat ->
  procat i s' = if decide (j = i) then f (procat j s) else procat i s.
Proof. intros M Hj. unfold procat. rewrite (mk_procs _ _ _ _ M). by apply (procat_alter s j f i). Qed.

(** Giving up: everything made so far goes back. *)
Lemma wp_unmake {A} (a : A) s fl j f c s' fl' R :
  making s j f s' -> (forall x, reaped (f x) = cleared c x) -> (j < length (procs s))%nat -> p_state (procat j s) = UNUSED ->
  (LkProc j ∉ held s) -> kmem_inv s' fl' -> pages_of s' j fl' R -> (forall p, p ∈ fl <-> p ∈ fl' \/ R p) -> outside fl s s' ->
  wp (freeproc j ;;; release (LkProc j) ;;; ret a) (fun o s2 => o = a /\ unborn s fl s2) s'.
Proof.
  intros M Hf Hj Hun Hh K Hp HR Ho. wp_step.
  eapply wp_mono; [apply (wp_freeproc s' j fl' R K); [by rewrite (mk_procs _ _ _ _ M), length_alter|done]|].
  intros [] s1 (fl1 & K1 & E1 & Hp1 & F1).
  assert (Hh1 : held s1 = LkProc j :: held s) by (rewrite E1; apply M).
  wp_step. eapply wp_release; [exact Hh1|done|]. wp_step. split; [done|]. right. exists j, c, fl1.
  assert (Hpp : forall p, p ∈ fl1 <-> p ∈ fl) by (intros p; by rewrite Hp1, HR).
  split_and!; [|done| |done| |done|].
  - eapply proc_only_trans; [apply M|]. rewrite E1. unfold proc_only, upmod. by destruct s'.
  - rewrite E1. unfold upmod. cbn. rewrite (mk_procs _ _ _ _ M), list_alter_alter. apply list_alter_ext; [|done]. intros x _. apply Hf.
  - eapply kmem_same; [|exact K1]. split; [done..|]. cbn. rewrite Hh1. set_solver.
  - intros x Hx. cbn. rewrite F1; [by apply Ho|]. intros q Hq. by apply Hx, Hpp.
Qed.

Lemma wp_allocproc s fl :
  kmem_inv s fl -> (forall j, LkProc j ∉ held s) -> LkPid ∉ held s -> length (procs s) = NPROC ->
  (forall j, p_state (procat j s) = UNUSED -> p_pagetable (procat j s) = 0 /\ p_sz (procat j s) = 0) ->
  wp allocproc (fun o s' => match o with
    | None => unborn s fl s'
    | Some np => (np < NPROC)%nat /\ exists fl' O tf pt, born s fl np s' fl' O tf pt
    end) s.
Proof.
  intros K Hh Hhp Hlen Hinv. unfold allocproc. wp_step. eapply wp_mono; [by apply (wp_allocproc_scan NPROC 0)|].
  intros o s1 [(-> & -> & Hall)|(j & -> & Hj & Hun & Hfirst & ->)].
  { wp_step. left. split; [done|]. intros j Hj. apply Hall. lia. }
  assert (Hjl : (j < length (procs s))%nat) by (rewrite Hlen; lia). destruct (Hinv j Hun) as [Ept Esz].
  unfold allocpid. wp_step. wp_step. apply wp_acquire; [cbn; set_solver|]. wp_step. apply wp_get. wp_step. apply wp_upd.
  wp_step. eapply wp_release; [done|cbn; set_solver|]. wp_step.
  match goal with |- wp _ _ ?st => set (s2 := st) end. change (nextpid (set_held _ _)) with (nextpid s).
  assert (M2 : making s j (fun x => x) s2).
  { split; [by destruct s|done|done|]. cbn. symmetry. by apply list_alter_id. }
  assert (K2 : kmem_inv s2 fl) by (eapply kmem_same; [|exact K]; split; [done..|cbn; set_solver]).
  assert (F2 : outside fl s s2) by done. clearbody s2.
  wp_step. apply wp_updp. wp_step. apply wp_updp. rewrite upmod_upmod.
  match goal with |- wp _ _ (upmod j ?f s2) => set (s3 := upmod j f s2); pose proof (making_upmod s j _ f s2 M2) as M3 end. fold s3 in M3.
  assert (K3 : kmem_inv s3 fl) by (eapply kmem_same; [apply upmod_same_mem|done]).
  assert (F3 : outside fl s s3) by done. clearbody s3. clear M2 K2 F2 s2. wp_step.
  destruct fl as [|tf fl1].
  { apply wp_kalloc_empty; [done|]. wp_step. apply wp_updp. change (0 =? 0) with true. cbv iota.
    pose proof (making_upmod s j _ (set_p_trapframe 0) s3 M3) as M4. eapply wp_mono.
    - eapply (wp_unmake None s [] j _ p_context _ [] (fun _ => False) M4); [done|done|done|done| | | |done].
      + eapply kmem_same; [apply upmod_same_mem|done].
      + left. rewrite (making_procat _ _ _ _ _ M4), decide_True by done. cbn. split_and!; [done|exact Ept|intros p []].
      + intros p. tauto.
    - intros o s5 [-> Hu]. done. }
  pose proof (kmem_page _ _ tf K3 ltac:(set_solver)) as Htf. pose proof (page_ok_bounds tf Htf). pose proof (kmem_nodup _ _ K3) as [Hnf _]%NoDup_cons.
  eapply wp_kalloc; [exact K3|]. intros s4 E4 K4 Fk. wp_step. apply wp_updp. rewrite (proj2 (Z.eqb_neq _ _)) by lia.
  pose proof (making_upmod s j _ (set_p_trapframe tf) s4 (making_mem _ _ _ _ _ M3 E4)) as M5. set (s5 := upmod j _ s4) in *.
  assert (K5 : kmem_inv s5 fl1) by (eapply kmem_same; [apply upmod_same_mem|done]).
  assert (F5 : outside (tf :: fl1) s s5).
  { intros x Hx. change (mem s5) with (mem s4). rewrite Fk, decide_False; [by apply F3|]. apply Hx. set_solver. }
  assert (E5 : p_trapframe (procat j s5) = tf) by (by rewrite (making_procat _ _ _ _ _ M5), decide_True).
  wp_step. eapply wp_mono; [apply (wp_proc_pagetable s5 j fl1 tf K5 E5); by apply page_ok_pa_ok|]. clearbody s5.
  intros pt s6 [(-> & fl6 & K6 & E6 & Hp6 & F6)|(O & fl6 & Sp6 & Hpt & E6 & Hp6 & F6)].
  - wp_step. apply wp_updp. change (0 =? 0) with true. cbv iota.
    pose proof (making_upmod s j _ (set_p_pagetable 0) s6 (making_mem _ _ _ _ _ M5 E6)) as M7. eapply wp_mono.
    + eapply (wp_unmake None s (tf :: fl1) j _ p_context _ fl6 (fun p => p = tf) M7); [done|done|done|done| | | |].
      * eapply kmem_same; [apply upmod_same_mem|done].
      * right; left. rewrite (making_procat _ _ _ _ _ M7), decide_True by done. cbn. split_and!; [done| |done|done]. by rewrite Hp6.
      * intros p. rewrite Hp6, elem_of_cons. tauto.
      * intros x Hx. cbn. rewrite F6; [by apply F5|]. intros q Hq. apply Hx. set_solver.
    + intros o s8 [-> Hu]. done.
  - wp_step. apply wp_updp. rewrite (proj2 (Z.eqb_neq _ _)) by done. wp_step. apply wp_updp. rewrite upmod_upmod. wp_step.
    match goal with |- context [upmod j ?f s6] => pose proof (making_upmod s j _ f s6 (making_mem _ _ _ _ _ M5 E6)) as M7; set (s7 := upmod j f s6) in * end.
    split; [lia|]. exists fl6, O, tf, pt. destruct M7 as [A1 A2 A3 A4].
    split; [done| |done|done|done|done| |done| | |].
    + intros i Hi. apply Hfirst. lia.
    + eapply space_same; [apply upmod_same_mem|done].
    + split; [done|]. split; [|apply eq_None_not_Some; intros HO]; [intros Hin|]; apply Hnf, Hp6; [by left|by right].
    + intros p. rewrite elem_of_cons, Hp6. done.
    + intros x Hx. change (mem s7) with (mem s6). rewrite F6; [by apply F5|]. intros q Hq. apply Hx. set_solver.
Qed.
End ProcMem.
