(* ===== verification/Args.v ===== *)
(** The first part of [kernel/syscall.c]: fetching system call arguments from the
    trapframe and from user memory. *)
From S2P Require Import Prelude Types Riscv Str Kalloc Vm Sched Sleeplock Bio Log Fs Pipe File Proc.

Section Args.
Context {L : Linker}.

(** The value fetched, or [None] for -1. *)
Definition fetchaddr (addr : Z) : M (option Z) :=
  let! p := myproc_ in
  let! sz := getp p p_sz in
  if (sz <=? addr) || (sz <? u64 (addr + 8)) then ret None
  else
    let! pt := getp p p_pagetable in
    let! (r, bs) := copyin pt addr 8 in
    if negb (r =? 0) then ret None else ret (Some (le_val bs)).

(** The result, and what was written to [buf]. *)
Definition fetchstr (addr max : Z) : M (Z * list Z) :=
  let! p := myproc_ in
  let! pt := getp p p_pagetable in
  let! (r, buf) := copyinstr pt addr max in
  if r <? 0 then ret (-1, buf) else ret (strlen buf, buf).

Definition argraw (n : nat) : M Z :=
  let! p := myproc_ in
  if (n <? 6)%nat then tf_get p (TF_A0 + 8 * Z.of_nat n) else panic "argraw".

Definition argint (n : nat) : M Z := let! v := argraw n in ret (i32 v).
Definition argaddr (n : nat) : M Z := argraw n.

Definition argstr (n : nat) (max : Z) : M (Z * list Z) :=
  let! addr := argaddr n in
  fetchstr addr max.

(** [None] for -1: the descriptor and its open file. *)
Definition argfd (n : nat) : M (option (nat * nat)) :=
  let! fd := argint n in
  if (fd <? 0) || (Z.of_nat NOFILE <=? fd) then ret None
  else
    let! p := myproc_ in
    let! f := getp p (fun x => nth (Z.to_nat fd) (p_ofile x) None) in
    ret (option_map (fun f => (Z.to_nat fd, f)) f).
End Args.
