(* ===== verification/Exec.v ===== *)
(** [kernel/exec.c]: replacing a process's memory by a program from a file. *)
From S2P Require Import Prelude Types Riscv Str Kalloc Vm Sched Sleeplock Bio Log Fs Printf Pipe File Proc.

(** ** [elf.h] *)

Abbreviation ELF_MAGIC := 0x464C457F.
Abbreviation ELF_PROG_LOAD := 1.
Abbreviation ELFHDR_SIZE := 64.
Abbreviation PROGHDR_SIZE := 56.

Definition getu64 (l : list Z) (off : nat) : Z := le_val (take 8 (drop off l)).

Record elfhdr := ElfHdr {
  e_magic : Z;
  e_entry : Z;
  e_phoff : Z;
  e_phnum : Z
}.
Definition get_elfhdr (d : list Z) : elfhdr :=
  ElfHdr (getu32 d 0) (getu64 d 24) (getu64 d 32) (getu16 d 56).

Record proghdr := ProgHdr {
  ph_type : Z;
  ph_flags : Z;
  ph_off : Z;
  ph_vaddr : Z;
  ph_filesz : Z;
  ph_memsz : Z
}.
Definition get_proghdr (d : list Z) : proghdr :=
  ProgHdr (getu32 d 0) (getu32 d 4) (getu64 d 8) (getu64 d 16) (getu64 d 32) (getu64 d 40).

Section Exec.
Context {L : Linker}.

Definition flags2perm (flags : Z) : Z :=
  let perm := if has flags 1 then PTE_X else 0 in
  if has flags 2 then Z.lor perm PTE_W else perm.

(** [offset] and [sz] are [uint]. *)
Fixpoint loadseg_loop (pagetable va : Z) (ip : nat) (offset sz i : Z) (fuel : nat) : M Z :=
  if i <? sz then
    match fuel with
    | O => diverge
    | S fuel' =>
        let! pa := walkaddr pagetable (u64 (va + i)) in
        if pa =? 0 then panic "loadseg: address should exist"
        else
          let n := if sz - i <? PGSIZE then sz - i else PGSIZE in
          let! (r, _) := readi ip (DPhys pa) (u32 (offset + i)) n in
          if negb (r =? n) then ret (-1)
          else loadseg_loop pagetable va ip offset sz (i + PGSIZE) fuel'
    end
  else ret 0.

Definition loadseg (pagetable va : Z) (ip : nat) (offset sz : Z) : M Z :=
  loadseg_loop pagetable va ip (u32 offset) (u32 sz) 0 (Z.to_nat (u32 sz / PGSIZE + 1)).

(** The segment loop: the new size and whether it succeeded. *)
Fixpoint load_segments (pagetable : Z) (ip : nat) (off sz : Z) (k : nat) : M (Z * bool) :=
  match k with
  | O => ret (sz, true)
  | S k' =>
      let! (r, d) := readi ip DLocal (u32 off) PROGHDR_SIZE in
      let ph := get_proghdr d in
      if negb (r =? PROGHDR_SIZE) then ret (sz, false)
      else if negb (ph_type ph =? ELF_PROG_LOAD) then
        load_segments pagetable ip (i32 (off + PROGHDR_SIZE)) sz k'
      else if ph_memsz ph <? ph_filesz ph then ret (sz, false)
      else if u64 (ph_vaddr ph + ph_memsz ph) <? ph_vaddr ph then ret (sz, false)
      else if negb (ph_vaddr ph mod PGSIZE =? 0) then ret (sz, false)
      else
        let! sz1 := uvmalloc pagetable sz (u64 (ph_vaddr ph + ph_memsz ph)) (flags2perm (ph_flags ph)) in
        if sz1 =? 0 then ret (sz, false)
        else
          let! r := loadseg pagetable (ph_vaddr ph) ip (ph_off ph) (ph_filesz ph) in
          if r <? 0 then ret (sz1, false)
          else load_segments pagetable ip (i32 (off + PROGHDR_SIZE)) sz1 k'
  end.

(** A kernel string: the bytes at [a] up to and with the terminator. *)
Fixpoint kstr_at (m : gmap Z Z) (a : Z) (n : nat) : list Z :=
  match n with
  | O => []
  | S n' => if mget m a =? 0 then [0] else mget m a :: kstr_at m (a + 1) n'
  end.
Definition kstr (a : Z) : M (list Z) := get (fun s => kstr_at (mem s) a (Z.to_nat PGSIZE)).

(** Pushing the argument strings.  [argv] lists the pointers before the null one;
    [ustack] is filled in.  [None] is the jump to [bad]. *)
Fixpoint push_args (pagetable stackbase : Z) (argv : list Z) (sp argc : Z) (ustack : list Z)
    : M (option (Z * list Z)) :=
  match argv with
  | [] => ret (Some (sp, ustack))
  | a :: argv' =>
      if MAXARG <=? argc then ret None
      else
        let! s := kstr a in
        let sp := u64 (sp - (strlen s + 1)) in
        let sp := sp - sp mod 16 in
        if sp <? stackbase then ret None
        else
          let! r := copyout pagetable sp (take (Z.to_nat (strlen s + 1)) s) in
          if r <? 0 then ret None
          else push_args pagetable stackbase argv' sp (argc + 1) (ustack ++ [sp])
  end.

(** The last element of a path, from after its last slash. *)
Fixpoint last_elem (s last : list Z) : list Z :=
  match s with
  | [] => last
  | c :: s' => if c =? 0 then last else last_elem s' (if c =? SLASH then s' else last)
  end.

(** The jump to [bad]; [ip] is null once the file has been released. *)
Definition exec_bad (pagetable sz : Z) (ip : option nat) : M Z :=
  (if negb (pagetable =? 0) then proc_freepagetable pagetable sz else ret tt) ;;;
  (match ip with
   | Some ip => iunlockput ip ;;; end_op
   | None => ret tt
   end) ;;;
  ret (-1).

(** From the release of the file on: the stack, the arguments, and the switch to the
    new image. *)
Definition exec_image (p : nat) (path argv : list Z) (entry pagetable sz : Z) : M Z :=
  let! oldsz := getp p p_sz in
  let sz := PGROUNDUP sz in
  let! sz1 := uvmalloc pagetable sz (u64 (sz + (USERSTACK + 1) * PGSIZE)) PTE_W in
  if sz1 =? 0 then exec_bad pagetable sz None
  else
    let sz := sz1 in
    uvmclear pagetable (u64 (sz - (USERSTACK + 1) * PGSIZE)) ;;;
    let stackbase := sz - USERSTACK * PGSIZE in
    let! pushed := push_args pagetable stackbase argv sz 0 [] in
    match pushed with
    | None => exec_bad pagetable sz None
    | Some (sp, ustack) =>
        let argc := Z.of_nat (length ustack) in
        let sp := u64 (sp - (argc + 1) * 8) in
        let sp := sp - sp mod 16 in
        if sp <? stackbase then exec_bad pagetable sz None
        else
          let! r := copyout pagetable sp (flat_map (le_bytes 8) (ustack ++ [0])) in
          if r <? 0 then exec_bad pagetable sz None
          else
            tf_set p TF_A1 sp ;;;
            updp p (fun x => set_p_name (safestrcpy (p_name x) (last_elem path path) 16) x) ;;;
            let! oldpagetable := getp p p_pagetable in
            updp p (set_p_pagetable pagetable) ;;;
            updp p (set_p_sz sz) ;;;
            tf_set p TF_EPC entry ;;;
            tf_set p TF_SP sp ;;;
            proc_freepagetable oldpagetable oldsz ;;;
            ret argc
    end.

Definition exec (path : list Z) (argv : list Z) : M Z :=
  let! p := myproc_ in
  begin_op ;;;
  let! o := namei path in
  match o with
  | None => end_op ;;; ret (-1)
  | Some ip =>
      ilock ip ;;;
      let! (r, d) := readi ip DLocal 0 ELFHDR_SIZE in
      let elf := get_elfhdr d in
      if negb (r =? ELFHDR_SIZE) then exec_bad 0 0 (Some ip)
      else if negb (e_magic elf =? ELF_MAGIC) then exec_bad 0 0 (Some ip)
      else
        let! pagetable := proc_pagetable p in
        if pagetable =? 0 then exec_bad 0 0 (Some ip)
        else
          let! (sz, ok) := load_segments pagetable ip (i32 (e_phoff elf)) 0 (Z.to_nat (e_phnum elf)) in
          if negb ok then exec_bad pagetable sz (Some ip)
          else
            iunlockput ip ;;;
            end_op ;;;
            exec_image p path argv (e_entry elf) pagetable sz
  end.
End Exec.
