(* ===== verification/Sysfile.v ===== *)
(** [kernel/sysfile.c]: the system calls on files. *)
From S2P Require Import Prelude Types Str Kalloc Vm Sched Sleeplock Bio Log Fs Printf Pipe File Proc Args Exec.

Abbreviation O_RDONLY := 0x000.
Abbreviation O_WRONLY := 0x001.
Abbreviation O_RDWR := 0x002.
Abbreviation O_CREATE := 0x200.
Abbreviation O_TRUNC := 0x400.

Section Sysfile.
Context {L : Linker}.

(** ** Descriptors *)

Definition set_ofile (p fd : nat) (f : option nat) : M unit :=
  updp p (fun x => set_p_ofile (<[fd := f]> (p_ofile x)) x).

Fixpoint fdalloc_loop (p f : nat) (fd k : nat) : M Z :=
  match k with
  | O => ret (-1)
  | S k' =>
      let! o := getp p (fun x => nth fd (p_ofile x) None) in
      match o with
      | None => set_ofile p fd (Some f) ;;; ret (Z.of_nat fd)
      | Some _ => fdalloc_loop p f (S fd) k'
      end
  end.

Definition fdalloc (f : nat) : M Z :=
  let! p := myproc_ in
  fdalloc_loop p f 0 NOFILE.

Definition sys_dup : M Z :=
  let! a := argfd 0 in
  match a with
  | None => ret (-1)
  | Some (_, f) =>
      let! fd := fdalloc f in
      if fd <? 0 then ret (-1)
      else let! _ := filedup f in ret fd
  end.

Definition sys_read : M Z :=
  let! p := argaddr 1 in
  let! n := argint 2 in
  let! a := argfd 0 in
  match a with None => ret (-1) | Some (_, f) => fileread f p n end.

Definition sys_write : M Z :=
  let! p := argaddr 1 in
  let! n := argint 2 in
  let! a := argfd 0 in
  match a with None => ret (-1) | Some (_, f) => filewrite f p n end.

Definition sys_close : M Z :=
  let! a := argfd 0 in
  match a with
  | None => ret (-1)
  | Some (fd, f) =>
      let! p := myproc_ in
      set_ofile p fd None ;;;
      fileclose f ;;;
      ret 0
  end.

Definition sys_fstat (pad : list Z) : M Z :=
  let! st := argaddr 1 in
  let! a := argfd 0 in
  match a with None => ret (-1) | Some (_, f) => filestat pad f st end.

(** ** Links *)

Definition add_nlink (i : nat) (d : Z) : M unit :=
  updi i (fun ip => set_i_nlink (i16 (i_nlink ip + d)) ip).

Definition link_bad (ip : nat) : M Z :=
  ilock ip ;;;
  add_nlink ip (-1) ;;;
  iupdate ip ;;;
  iunlockput ip ;;;
  end_op ;;;
  ret (-1).

Definition sys_link : M Z :=
  let! (r, old) := argstr 0 MAXPATH in
  if r <? 0 then ret (-1)
  else
    let! (r, new) := argstr 1 MAXPATH in
    if r <? 0 then ret (-1)
    else
      begin_op ;;;
      let! o := namei old in
      match o with
      | None => end_op ;;; ret (-1)
      | Some ip =>
          ilock ip ;;;
          let! t := geti ip i_type in
          if t =? T_DIR then iunlockput ip ;;; end_op ;;; ret (-1)
          else
            add_nlink ip 1 ;;;
            iupdate ip ;;;
            iunlock ip ;;;
            let! (o, name) := nameiparent new in
            match o with
            | None => link_bad ip
            | Some dp =>
                ilock dp ;;;
                let! ddev := geti dp i_dev in
                let! idev := geti ip i_dev in
                let! inum := geti ip i_inum in
                let! r := (if negb (ddev =? idev) then ret (-1) else dirlink dp name inum) in
                if r <? 0 then iunlockput dp ;;; link_bad ip
                else
                  iunlockput dp ;;;
                  iput ip ;;;
                  end_op ;;;
                  ret 0
            end
      end.

Fixpoint isdirempty_loop (dp : nat) (off : Z) (fuel : nat) : M bool :=
  let! size := geti dp i_size in
  if off <? size then
    match fuel with
    | O => diverge
    | S fuel' =>
        let! (r, de) := readi dp DLocal off DESIZE in
        if negb (r =? DESIZE) then panic "isdirempty: readi"
        else if negb (de_inum de =? 0) then ret false
        else isdirempty_loop dp (off + DESIZE) fuel'
    end
  else ret true.

Definition isdirempty (dp : nat) : M bool :=
  let! size := geti dp i_size in
  isdirempty_loop dp (2 * DESIZE) (Z.to_nat (size / DESIZE + 1)).

Definition unlink_bad (dp : nat) : M Z :=
  iunlockput dp ;;;
  end_op ;;;
  ret (-1).

(** The part of [sys_unlink] after the entry at [off] has been found: [ip] is what it
    names, [dp] its directory. *)
Definition unlink_entry (dp ip : nat) (off : Z) : M Z :=
  ilock ip ;;;
  let! nl := geti ip i_nlink in
  if nl <? 1 then panic "unlink: nlink < 1"
  else
    let! t := geti ip i_type in
    let! empty := (if t =? T_DIR then isdirempty ip else ret true) in
    if negb empty then iunlockput ip ;;; unlink_bad dp
    else
      let! r := writei dp (SLocal (replicate 16 0)) off DESIZE in
      if negb (r =? DESIZE) then panic "unlink: writei"
      else
        (if t =? T_DIR then add_nlink dp (-1) ;;; iupdate dp else ret tt) ;;;
        iunlockput dp ;;;
        add_nlink ip (-1) ;;;
        iupdate ip ;;;
        iunlockput ip ;;;
        end_op ;;;
        ret 0.

Definition sys_unlink : M Z :=
  let! (r, path) := argstr 0 MAXPATH in
  if r <? 0 then ret (-1)
  else
    begin_op ;;;
    let! (o, name) := nameiparent path in
    match o with
    | None => end_op ;;; ret (-1)
    | Some dp =>
        ilock dp ;;;
        if (namecmp name (lit ".") =? 0) || (namecmp name (lit "..") =? 0) then unlink_bad dp
        else
          let! found := dirlookup dp name in
          match found with
          | None => unlink_bad dp
          | Some (ip, off) => unlink_entry dp ip off
          end
    end.

(** ** Creation *)

Definition create_fail (dp ip : nat) : M (option nat) :=
  updi ip (set_i_nlink 0) ;;;
  iupdate ip ;;;
  iunlockput ip ;;;
  iunlockput dp ;;;
  ret None.

(** From [ialloc] on: [ip] is the new inode, [dp] the directory. *)
Definition create_new (dp ip : nat) (name : list Z) (type major minor : Z) : M (option nat) :=
  ilock ip ;;;
  updi ip (set_i_major (i16 major)) ;;;
  updi ip (set_i_minor (i16 minor)) ;;;
  updi ip (set_i_nlink 1) ;;;
  iupdate ip ;;;
  let! inum := geti ip i_inum in
  let! dots :=
    (if type =? T_DIR then
       let! r := dirlink ip (lit ".") inum in
       if r <? 0 then ret false
       else
         let! dinum := geti dp i_inum in
         let! r := dirlink ip (lit "..") dinum in
         ret (negb (r <? 0))
     else ret true) in
  if negb dots then create_fail dp ip
  else
    let! r := dirlink dp name inum in
    if r <? 0 then create_fail dp ip
    else
      (if type =? T_DIR then add_nlink dp 1 ;;; iupdate dp else ret tt) ;;;
      iunlockput dp ;;;
      ret (Some ip).

Definition create (path : list Z) (type major minor : Z) : M (option nat) :=
  let! (o, name) := nameiparent path in
  match o with
  | None => ret None
  | Some dp =>
      ilock dp ;;;
      let! found := dirlookup dp name in
      match found with
      | Some (ip, _) =>
          iunlockput dp ;;;
          ilock ip ;;;
          let! t := geti ip i_type in
          if (type =? T_FILE) && ((t =? T_FILE) || (t =? T_DEVICE)) then ret (Some ip)
          else iunlockput ip ;;; ret None
      | None =>
          let! dev := geti dp i_dev in
          let! o := ialloc dev type in
          match o with
          | None => iunlockput dp ;;; ret None
          | Some ip => create_new dp ip name type major minor
          end
      end
  end.

(** The last part of [sys_open]: a file and a descriptor for the locked inode. *)
Definition open_inode (ip : nat) (omode : Z) : M Z :=
  let! t := geti ip i_type in
  let! major := geti ip i_major in
  if (t =? T_DEVICE) && ((major <? 0) || (NDEV <=? major)) then
    iunlockput ip ;;;
    end_op ;;;
    ret (-1)
  else
    let! o := filealloc in
    let! fd := match o with Some f => fdalloc f | None => ret (-1) end in
    match o with
    | Some f =>
        if fd <? 0 then
          fileclose f ;;;
          iunlockput ip ;;;
          end_op ;;;
          ret (-1)
        else
          (if t =? T_DEVICE then updf f (set_f_type FD_DEVICE) ;;; updf f (set_f_major major)
           else updf f (set_f_type FD_INODE) ;;; updf f (set_f_off 0)) ;;;
          updf f (set_f_ip ip) ;;;
          updf f (set_f_readable (negb (has omode O_WRONLY))) ;;;
          updf f (set_f_writable (has omode O_WRONLY || has omode O_RDWR)) ;;;
          (if has omode O_TRUNC && (t =? T_FILE) then itrunc ip else ret tt) ;;;
          iunlock ip ;;;
          end_op ;;;
          ret fd
    | None =>
        iunlockput ip ;;;
        end_op ;;;
        ret (-1)
    end.

Definition sys_open : M Z :=
  let! omode := argint 1 in
  let! (n, path) := argstr 0 MAXPATH in
  if n <? 0 then ret (-1)
  else
    begin_op ;;;
    if has omode O_CREATE then
      let! o := create path T_FILE 0 0 in
      match o with
      | None => end_op ;;; ret (-1)
      | Some ip => open_inode ip omode
      end
    else
      let! o := namei path in
      match o with
      | None => end_op ;;; ret (-1)
      | Some ip =>
          ilock ip ;;;
          let! t := geti ip i_type in
          if (t =? T_DIR) && negb (omode =? O_RDONLY) then
            iunlockput ip ;;;
            end_op ;;;
            ret (-1)
          else open_inode ip omode
      end.

Definition sys_mkdir : M Z :=
  begin_op ;;;
  let! (r, path) := argstr 0 MAXPATH in
  let! o := (if r <? 0 then ret None else create path T_DIR 0 0) in
  match o with
  | None => end_op ;;; ret (-1)
  | Some ip => iunlockput ip ;;; end_op ;;; ret 0
  end.

Definition sys_mknod : M Z :=
  begin_op ;;;
  let! major := argint 1 in
  let! minor := argint 2 in
  let! (r, path) := argstr 0 MAXPATH in
  let! o := (if r <? 0 then ret None else create path T_DEVICE (i16 major) (i16 minor)) in
  match o with
  | None => end_op ;;; ret (-1)
  | Some ip => iunlockput ip ;;; end_op ;;; ret 0
  end.

Definition sys_chdir : M Z :=
  let! p := myproc_ in
  begin_op ;;;
  let! (r, path) := argstr 0 MAXPATH in
  let! o := (if r <? 0 then ret None else namei path) in
  match o with
  | None => end_op ;;; ret (-1)
  | Some ip =>
      ilock ip ;;;
      let! t := geti ip i_type in
      if negb (t =? T_DIR) then iunlockput ip ;;; end_op ;;; ret (-1)
      else
        iunlock ip ;;;
        let! cwd := getp p p_cwd in
        let! cwd := deref cwd in
        iput cwd ;;;
        end_op ;;;
        updp p (set_p_cwd (Some ip)) ;;;
        ret 0
  end.

(** ** [exec] and [pipe] *)

(** The loop that copies the argument strings into fresh pages: the pages so far, and
    whether it got to the null pointer. *)
Fixpoint exec_args (uargv : Z) (i : nat) (argv : list Z) (k : nat) : M (list Z * bool) :=
  match k with
  | O => ret (argv, false)
  | S k' =>
      let! o := fetchaddr (u64 (uargv + 8 * Z.of_nat i)) in
      match o with
      | None => ret (argv, false)
      | Some uarg =>
          if uarg =? 0 then ret (argv, true)
          else
            let! page := kalloc in
            if page =? 0 then ret (argv, false)
            else
              let! (r, buf) := fetchstr uarg PGSIZE in
              write_k page buf ;;;
              if r <? 0 then ret (argv ++ [page], false)
              else exec_args uargv (S i) (argv ++ [page]) k'
      end
  end.

Fixpoint kfree_all (l : list Z) : M unit :=
  match l with
  | [] => ret tt
  | p :: l' => kfree p ;;; kfree_all l'
  end.

Definition sys_exec : M Z :=
  let! uargv := argaddr 1 in
  let! (r, path) := argstr 0 MAXPATH in
  if r <? 0 then ret (-1)
  else
    let! (argv, ok) := exec_args uargv 0 [] (Z.to_nat MAXARG) in
    if negb ok then kfree_all argv ;;; ret (-1)
    else
      let! r := exec path argv in
      kfree_all argv ;;;
      ret r.

Definition sys_pipe : M Z :=
  let! p := myproc_ in
  let! fdarray := argaddr 0 in
  let! o := pipealloc in
  match o with
  | None => ret (-1)
  | Some (rf, wf) =>
      let! fd0 := fdalloc rf in
      let! fd1 := (if fd0 <? 0 then ret (-1) else fdalloc wf) in
      if (fd0 <? 0) || (fd1 <? 0) then
        (if 0 <=? fd0 then set_ofile p (Z.to_nat fd0) None else ret tt) ;;;
        fileclose rf ;;;
        fileclose wf ;;;
        ret (-1)
      else
        let! pt := getp p p_pagetable in
        let! r := copyout pt fdarray (le_bytes 4 fd0) in
        let! r := (if r <? 0 then ret r else copyout pt (u64 (fdarray + 4)) (le_bytes 4 fd1)) in
        if r <? 0 then
          set_ofile p (Z.to_nat fd0) None ;;;
          set_ofile p (Z.to_nat fd1) None ;;;
          fileclose rf ;;;
          fileclose wf ;;;
          ret (-1)
        else ret 0
  end.
End Sysfile.
