(* ===== verification/Syscall.v ===== *)
(** [kernel/sysproc.c], the system calls on processes, and the second part of
    [kernel/syscall.c]: the table of handlers and the dispatcher.

    A handler's [int] result is widened to [uint64] when [syscall] stores it.  The numbers
    are those of [kernel/syscall.h]. *)
From S2P Require Import Prelude Types Vm Sched Proc Args Printf Sysfile.

Section Sysproc.
Context {L : Linker}.

Definition sys_exit : M Z :=
  let! n := argint 0 in
  exit n ;;;
  ret 0.

Definition sys_getpid : M Z :=
  let! p := myproc_ in
  getp p p_pid.

Definition sys_fork : M Z := fork.

Definition sys_wait : M Z :=
  let! p := argaddr 0 in
  wait p.

Definition sys_sbrk : M Z :=
  let! n := argint 0 in
  let! p := myproc_ in
  let! addr := getp p p_sz in
  let! r := growproc n in
  if r <? 0 then ret (-1) else ret addr.

(** One test of the loop, [ticks0] being the time when the call began; [sleep] ends
    the run and a woken sleeper tests again.  The comparison is on [uint]. *)
Definition sys_sleep_from (ticks0 n : Z) : M Z :=
  let! t := get ticks in
  if u32 (t - ticks0) <? u32 n then
    let! p := myproc_ in
    let! k := killed p in
    if k then release LkTicks ;;; ret (-1)
    else sleep ChTicks LkTicks ;;; ret 0
  else release LkTicks ;;; ret 0.

Definition sys_sleep : M Z :=
  let! n := argint 0 in
  let n := if n <? 0 then 0 else n in
  acquire LkTicks ;;;
  let! ticks0 := get ticks in
  sys_sleep_from ticks0 n.

Definition sys_kill : M Z :=
  let! pid := argint 0 in
  kill pid.

Definition sys_uptime : M Z :=
  acquire LkTicks ;;;
  let! xticks := get ticks in
  release LkTicks ;;;
  ret xticks.
End Sysproc.

Section Syscall.
Context {L : Linker}.

Definition syscalls (pad : list Z) (num : Z) : option (M Z) :=
  match num with
  | 1 => Some sys_fork
  | 2 => Some sys_exit
  | 3 => Some sys_wait
  | 4 => Some sys_pipe
  | 5 => Some sys_read
  | 6 => Some sys_kill
  | 7 => Some sys_exec
  | 8 => Some (sys_fstat pad)
  | 9 => Some sys_chdir
  | 10 => Some sys_dup
  | 11 => Some sys_getpid
  | 12 => Some sys_sbrk
  | 13 => Some sys_sleep
  | 14 => Some sys_uptime
  | 15 => Some sys_open
  | 16 => Some sys_write
  | 17 => Some sys_mknod
  | 18 => Some sys_unlink
  | 19 => Some sys_link
  | 20 => Some sys_mkdir
  | 21 => Some sys_close
  | _ => None
  end.

Definition syscall (pad : list Z) : M unit :=
  let! p := myproc_ in
  let! a7 := tf_get p TF_A7 in
  let num := i32 a7 in
  match syscalls pad num with
  | Some handler =>
      let! r := handler in
      tf_set p TF_A0 (u64 r)
  | None =>
      let! pid := getp p p_pid in
      let! name := getp p p_name in
      kprintf (lit "%d %s: unknown sys call %d" ++ [10]) [VNum pid; VStr (Some name); VNum num] ;;;
      tf_set p TF_A0 (u64 (-1))
  end.
End Syscall.
