(* ===== verification/Initcode.v ===== *)
(** [user/initcode.S], the first user program, assembled, and the bytes of it in
    [kernel/proc.c]. *)
From S2P Require Import Prelude Types Printf Proc.

Inductive label := l_start | l_exit | l_init | l_argv.
Inductive stmt :=
  | Label (l : label)
  | La (rd : Z) (l : label)
  | Li (rd n : Z)
  | Ecall
  | Jal (l : label)
  | Asciz (s : list Z)
  | P2align (n : Z)
  | Quad (v : label + Z).

Abbreviation ra := 1.
Abbreviation a0 := 10.
Abbreviation a1 := 11.
Abbreviation a7 := 17.
Abbreviation SYS_exec := 7.
Abbreviation SYS_exit := 2.

Definition initcode_S : list stmt :=
  [ Label l_start; La a0 l_init; La a1 l_argv; Li a7 SYS_exec; Ecall;
    Label l_exit; Li a7 SYS_exit; Ecall; Jal l_exit;
    Label l_init; Asciz (lit "/init" ++ [0]);
    P2align 2; Label l_argv; Quad (inl l_init); Quad (inr 0) ].

(** ** Assembling *)

Definition pad_to (n pc : Z) : Z := (- pc) mod 2 ^ n.
Definition size_of (s : stmt) (pc : Z) : Z :=
  match s with
  | Label _ => 0 | La _ _ => 8 | Li _ _ | Ecall | Jal _ => 4
  | Asciz s => Z.of_nat (length s) + 1
  | P2align n => pad_to n pc
  | Quad _ => 8
  end.

Fixpoint address (l : label) (p : list stmt) (pc : Z) : Z :=
  match p with
  | [] => pc
  | Label l' :: p' =>
      match l, l' with
      | l_start, l_start | l_exit, l_exit | l_init, l_init | l_argv, l_argv => pc
      | _, _ => address l p' pc
      end
  | s :: p' => address l p' (pc + size_of s pc)
  end.

(** The formats I, U and J of the base instruction set. *)
Definition enc_i (opcode funct3 rd rs imm : Z) : Z :=
  opcode + rd * 2 ^ 7 + funct3 * 2 ^ 12 + rs * 2 ^ 15 + (imm mod 2 ^ 12) * 2 ^ 20.
Definition enc_u (opcode rd imm : Z) : Z := opcode + rd * 2 ^ 7 + (imm mod 2 ^ 20) * 2 ^ 12.
Definition enc_j (opcode rd imm : Z) : Z :=
  let imm := imm mod 2 ^ 21 in
  opcode + rd * 2 ^ 7 + (imm / 2 ^ 12 mod 2 ^ 8) * 2 ^ 12 + (imm / 2 ^ 11 mod 2) * 2 ^ 20 +
  (imm / 2 mod 2 ^ 10) * 2 ^ 21 + (imm / 2 ^ 20) * 2 ^ 31.
Definition addi (rd rs imm : Z) : list Z := le_bytes 4 (enc_i 0x13 0 rd rs imm).

(** [la] is [auipc] with the upper bits of the distance and [addi] with the lower. *)
Definition encode (at_ : label -> Z) (pc : Z) (s : stmt) : list Z :=
  match s with
  | Label _ => []
  | La rd l =>
      let d := at_ l - pc in
      let hi := (d + 2 ^ 11) / 2 ^ 12 in
      le_bytes 4 (enc_u 0x17 rd hi) ++ addi rd rd (d - hi * 2 ^ 12)
  | Li rd n => addi rd 0 n
  | Ecall => le_bytes 4 (enc_i 0x73 0 0 0 0)
  | Jal l => le_bytes 4 (enc_j 0x6f ra (at_ l - pc))
  | Asciz s => s ++ [0]
  | P2align n => replicate (Z.to_nat (pad_to n pc)) 0
  | Quad (inl l) => le_bytes 8 (at_ l)
  | Quad (inr v) => le_bytes 8 v
  end.

Fixpoint encode_all (at_ : label -> Z) (pc : Z) (p : list stmt) : list Z :=
  match p with
  | [] => []
  | s :: p' => encode at_ pc s ++ encode_all at_ (pc + size_of s pc) p'
  end.
Definition assemble (p : list stmt) : list Z := encode_all (fun l => address l p 0) 0 p.

Definition unaligned (p : list stmt) : list stmt :=
  List.filter (fun s => match s with P2align _ => false | _ => true end) p.

(** The bytes in [proc.c] are those of the source without its alignment of [argv], up to
    the zeros at the end, which the kernel's page has anyway.  With the alignment [argv] would be
    one byte further on. *)
Theorem initcode_bytes :
  initcode ++ replicate 7 0 = assemble (unaligned initcode_S) /\
  address l_argv (unaligned initcode_S) 0 = 43 /\ address l_argv initcode_S 0 = 44 /\
  take 16 initcode <> take 16 (assemble initcode_S).
Proof. split_and!; by vm_compute. Qed.
