(* ===== verification/Frame.v ===== *)
(** What almost all of the kernel leaves alone: the descriptors of the processes and the
    reference counts of the open files.

    [Keeps c] says so of the computation [c], whatever state it starts in and also when it
    switches away, and that it neither
    fails the checks of [filedup] and [fileclose] nor switches away from a dead process.
    It is a class, so that the proof for a function finds those for the functions it
    calls. *)
From S2P Require Import Prelude Types Riscv Str Kalloc Vm Sched Sleeplock Bio Log Fs Uart Printf Console Pipe File Proc.
From S2P Require Import Args Exec Syscall Sysfile.

(** A process that has no files. *)
Definition dead (st : procstate) : bool :=
  match st with UNUSED | ZOMBIE => true | _ => false end.

(** No process loses or gains a descriptor, or dies, and no file's count changes. *)
Record same (s s' : kst) : Prop := {
  same_cur : cur s' = cur s;
  same_procs : length (procs s') = length (procs s);
  same_ofile p : p_ofile (procat p s') = p_ofile (procat p s);
  same_dead p : dead (p_state (procat p s')) = true -> dead (p_state (procat p s)) = true;
  same_files : length (files s') = length (files s);
  same_ref f : f_ref (fileat f s') = f_ref (fileat f s)
}.

#[global] Instance same_preorder : PreOrder same.
Proof.
  split; [by split|]. intros s1 s2 s3 [] []. split; intros; try etrans; eauto.
Qed.

Definition good_msg (m : string) : bool := negb (bool_decide (m ∈ ["filedup"; "fileclose"])).
Definition not_zombie (s : kst) : Prop :=
  exists p, cur s = Some p /\ p_state (procat p s) <> ZOMBIE.

Definition kept {A} (s0 : kst) (c : M A) (s : kst) : Prop :=
  match c s with
  | Ok _ s' => same s0 s'
  | Panic m => good_msg m = true
  | Sleep _ s' => same s0 s' /\ not_zombie s'
  | Diverge => True
  end.
Class Keeps {A} (c : M A) : Prop := keeps s : kept s c s.

(** ** The combinators *)

Lemma keeps_ret {A} (a : A) : Keeps (ret a).
Proof. intros s. unfold kept. cbn. reflexivity. Qed.
Lemma keeps_get {A} (f : kst -> A) : Keeps (get f).
Proof. intros s. unfold kept. cbn. reflexivity. Qed.
Lemma keeps_panic {A} m : good_msg m = true -> Keeps (panic (A := A) m).
Proof. by intros H s. Qed.
Lemma keeps_diverge {A} : Keeps (diverge (A := A)).
Proof. by intros s. Qed.
Lemma keeps_upd f : (forall s, same s (f s)) -> Keeps (upd f).
Proof. intros H s. apply H. Qed.
Lemma kept_bind {A B} (c : M A) (k : A -> M B) s0 s :
  same s0 s -> Keeps c -> (forall a s', same s0 s' -> kept s0 (k a) s') -> kept s0 (bind c k) s.
Proof.
  intros Hs Hc Hk. unfold kept, bind. specialize (Hc s). unfold kept in *. destruct (c s); auto.
  - apply Hk. by etrans.
  - destruct Hc. split; [by etrans|done].
Qed.
Lemma keeps_bind {A B} (c : M A) (k : A -> M B) : Keeps c -> (forall a, Keeps (k a)) -> Keeps (bind c k).
Proof.
  intros Hc Hk s. apply kept_bind; [done|done|]. intros a s' Hs. specialize (Hk a s'). unfold kept in *.
  destruct (k a s'); auto; [by etrans|]. destruct Hk. split; [by etrans|done].
Qed.

(** An update of a process that keeps its files and does not kill it. *)
Lemma keeps_updp i g :
  (forall p, p_ofile (g p) = p_ofile p /\ (dead (p_state (g p)) = true -> dead (p_state p) = true)) ->
  Keeps (updp i g).
Proof.
  intros H. apply keeps_upd. intros s.
  assert (Hp : forall j, alter g i (procs s) !!! j = procs s !!! j \/ alter g i (procs s) !!! j = g (procs s !!! j)).
  { intros j. destruct (decide (i = j)) as [<-|]; [|left; by apply list_lookup_total_alter_ne].
    destruct (decide (i < length (procs s))%nat).
    - right. by apply list_lookup_total_alter_eq.
    - left. rewrite list_alter_ge; [done|lia]. }
  split; try done; cbn.
  - apply length_alter.
  - intros p. unfold procat. cbn. destruct (Hp p) as [->| ->]; [done|apply H].
  - intros p. unfold procat. cbn. destruct (Hp p) as [->| ->]; [done|apply H].
Qed.

(** An update of a file that keeps its count. *)
Lemma keeps_updf i g : (forall x, f_ref (g x) = f_ref x) -> Keeps (updf i g).
Proof.
  intros H. apply keeps_upd. intros s. split; try done; cbn; [apply length_alter|].
  intros f. unfold fileat. cbn. destruct (decide (i = f)) as [<-|]; [|by rewrite list_lookup_total_alter_ne].
  destruct (decide (i < length (files s))%nat); [by rewrite list_lookup_total_alter_eq|].
  rewrite list_alter_ge; [done|lia].
Qed.

Ltac keep1 :=
  lazymatch goal with
  | |- Keeps (bind _ _) => apply keeps_bind; [|intros ?]
  | |- Keeps (ret _) => apply keeps_ret
  | |- Keeps (get _) => apply keeps_get
  | |- Keeps (panic _) => by apply keeps_panic
  | |- Keeps diverge => apply keeps_diverge
  | |- Keeps (updp _ _) => first [typeclasses eauto | apply keeps_updp; by intros []]
  | |- Keeps (updf _ _) => apply keeps_updf; by intros []
  | |- Keeps (upd _) => first [typeclasses eauto | apply keeps_upd; intros ?; by split]
  | |- Keeps (match d_read _ with _ => _ end) => idtac
  | |- Keeps (match d_write _ with _ => _ end) => idtac
  | |- Keeps (match ?x with _ => _ end) => destruct x
  | |- Keeps (let '_ := ?x in _) => destruct x
  | |- Keeps _ => typeclasses eauto
  end.
Ltac keep := intros; cbn zeta; repeat (progress keep1).

(** The search for an instance looks at the function's name, not at its body. *)
#[export] Hint Opaque
  bind ret get upd panic diverge updp updf filealloc filedup fileclose set_ofile fdalloc
  freeproc allocproc fork_files exit_files wait_scan sched deref acquire release memset_k kfree
  kalloc ld64 st64 memmove_k write_k read_k walk_loop walk walkaddr mappages_loop mappages
  uvmunmap_loop uvmunmap uvmcreate uvmdealloc uvmalloc_loop uvmalloc freewalk_entries freewalk
  uvmfree uvmcopy_loop uvmcopy uvmclear copyout_loop copyout copyin_loop copyin copyinstr_loop
  copyinstr getp myproc myproc_ yield sleep wakeup_loop wakeup kill_loop kill setkilled killed
  either_copyout either_copyin getd updd mmio_read mmio_write ReadReg WriteReg uartstart_loop
  uartstart uartputc_wait uartputc tx_spin uartputc_sync consputc consputs kprintf
  consolewrite_loop consolewrite consoleread_loop consoleread getpi updpi pipe_new pipeclose
  pipewrite_loop pipewrite piperead_wait piperead_loop piperead acquiresleep releasesleep
  holdingsleep getb updb vdisk_wait virtio_disk_rw bget_find bget_unused bget bread bwrite to_front brelse
  bpin bunpin getl updl install_trans_loop install_trans write_head begin_op write_log_loop
  write_log commit end_op log_write printf bzero balloc_loop balloc bfree geti updi iget
  ialloc_loop ialloc iupdate idup ilock iunlock bmap_direct bmap itrunc_direct itrunc_indirect
  itrunc iput iunlockput stati copy_to readi_loop readi copy_from writei_loop writei
  dirlookup_loop dirlookup dirlink_loop dirlink namex_loop namex namei nameiparent getf filestat
  move_off fileread filewrite_loop filewrite tf_get tf_set allocpid proc_pagetable
  proc_freepagetable growproc reparent_loop reparent fetchaddr fetchstr argraw argint argaddr
  argstr argfd loadseg_loop loadseg load_segments kstr push_args exec_bad exec_image exec
  sys_getpid sys_sbrk sys_sleep_from sys_sleep sys_kill sys_uptime sys_read sys_write sys_fstat
  add_nlink link_bad sys_link isdirempty_loop isdirempty unlink_bad unlink_entry sys_unlink
  create_fail create_new create sys_mkdir sys_mknod sys_chdir exec_args kfree_all sys_exec : typeclass_instances.

Section Frame.
Context {L : Linker}.

#[global] Instance keeps_deref {A} (o : option A) : Keeps (deref o).
Proof. unfold deref. keep. Qed.
#[global] Instance keeps_acquire lk : Keeps (acquire lk).
Proof. intros s. unfold kept, acquire. destruct (holding lk s); by split. Qed.
#[global] Instance keeps_release lk : Keeps (release lk).
Proof. intros s. unfold kept, release. destruct (holding lk s); by split. Qed.

(** ** Memory *)

#[global] Instance keeps_memset_k a b c : Keeps (memset_k a b c).
Proof. unfold memset_k. keep. Qed.
#[global] Instance keeps_kfree pa : Keeps (kfree pa).
Proof. unfold kfree. keep. Qed.
#[global] Instance keeps_kalloc : Keeps kalloc.
Proof. unfold kalloc. keep. Qed.

(** ** Page tables and copies *)

#[global] Instance keeps_ld64 a : Keeps (ld64 a).
Proof. unfold ld64. keep. Qed.
#[global] Instance keeps_st64 a v : Keeps (st64 a v).
Proof. unfold st64. keep. Qed.
#[global] Instance keeps_memmove_k dst src n : Keeps (memmove_k dst src n).
Proof. unfold memmove_k. keep. Qed.
#[global] Instance keeps_write_k dst bs : Keeps (write_k dst bs).
Proof. unfold write_k. keep. Qed.
#[global] Instance keeps_read_k src n : Keeps (read_k src n).
Proof. unfold read_k. keep. Qed.
#[global] Instance keeps_walk_loop level pagetable va alloc : Keeps (walk_loop level pagetable va alloc).
Proof. revert pagetable va alloc. induction level as [|level IH]; intros; cbn [walk_loop]; keep. Qed.
#[global] Instance keeps_walk pagetable va alloc : Keeps (walk pagetable va alloc).
Proof. unfold walk. keep. Qed.
#[global] Instance keeps_walkaddr pagetable va : Keeps (walkaddr pagetable va).
Proof. unfold walkaddr. keep. Qed.
#[global] Instance keeps_mappages_loop pagetable a last pa perm fuel : Keeps (mappages_loop pagetable a last pa perm fuel).
Proof. revert pagetable a last pa perm. induction fuel as [|fuel IH]; intros; cbn [mappages_loop]; keep. Qed.
#[global] Instance keeps_mappages pagetable va size pa perm : Keeps (mappages pagetable va size pa perm).
Proof. unfold mappages. keep. Qed.
#[global] Instance keeps_uvmunmap_loop pagetable a aend do_free fuel : Keeps (uvmunmap_loop pagetable a aend do_free fuel).
Proof. revert pagetable a aend do_free. induction fuel as [|fuel IH]; intros; cbn [uvmunmap_loop]; keep. Qed.
#[global] Instance keeps_uvmunmap pagetable va npages do_free : Keeps (uvmunmap pagetable va npages do_free).
Proof. unfold uvmunmap. keep. Qed.
#[global] Instance keeps_uvmcreate  : Keeps (uvmcreate).
Proof. unfold uvmcreate. keep. Qed.
#[global] Instance keeps_uvmdealloc pagetable oldsz newsz : Keeps (uvmdealloc pagetable oldsz newsz).
Proof. unfold uvmdealloc. keep. Qed.
#[global] Instance keeps_uvmalloc_loop pagetable a oldsz newsz xperm fuel : Keeps (uvmalloc_loop pagetable a oldsz newsz xperm fuel).
Proof. revert pagetable a oldsz newsz xperm. induction fuel as [|fuel IH]; intros; cbn [uvmalloc_loop]; keep. Qed.
#[global] Instance keeps_uvmalloc pagetable oldsz newsz xperm : Keeps (uvmalloc pagetable oldsz newsz xperm).
Proof. unfold uvmalloc. keep. Qed.
#[global] Instance keeps_freewalk_entries rec pagetable i k :
  (forall x, Keeps (rec x)) -> Keeps (freewalk_entries rec pagetable i k).
Proof. intros Hrec. revert pagetable i. induction k as [|k IH]; intros; cbn [freewalk_entries]; keep. Qed.
#[global] Instance keeps_freewalk depth pagetable : Keeps (freewalk depth pagetable).
Proof. revert pagetable. induction depth as [|depth IH]; intros; cbn [freewalk]; keep. Qed.
#[global] Instance keeps_uvmfree pagetable sz : Keeps (uvmfree pagetable sz).
Proof. unfold uvmfree. keep. Qed.
#[global] Instance keeps_uvmcopy_loop old new sz i fuel : Keeps (uvmcopy_loop old new sz i fuel).
Proof. revert old new sz i. induction fuel as [|fuel IH]; intros; cbn [uvmcopy_loop]; keep. Qed.
#[global] Instance keeps_uvmcopy old new sz : Keeps (uvmcopy old new sz).
Proof. unfold uvmcopy. keep. Qed.
#[global] Instance keeps_uvmclear pagetable va : Keeps (uvmclear pagetable va).
Proof. unfold uvmclear. keep. Qed.
#[global] Instance keeps_copyout_loop pagetable dstva src fuel : Keeps (copyout_loop pagetable dstva src fuel).
Proof. revert pagetable dstva src. induction fuel as [|fuel IH]; intros; cbn [copyout_loop]; keep. Qed.
#[global] Instance keeps_copyout pagetable dstva src : Keeps (copyout pagetable dstva src).
Proof. unfold copyout. keep. Qed.
#[global] Instance keeps_copyin_loop pagetable dst srcva len fuel : Keeps (copyin_loop pagetable dst srcva len fuel).
Proof. revert pagetable dst srcva len. induction fuel as [|fuel IH]; intros; cbn [copyin_loop]; keep. Qed.
#[global] Instance keeps_copyin pagetable srcva len : Keeps (copyin pagetable srcva len).
Proof. unfold copyin. keep. Qed.
#[global] Instance keeps_copyinstr_loop pagetable dst srcva max fuel : Keeps (copyinstr_loop pagetable dst srcva max fuel).
Proof. revert pagetable dst srcva max. induction fuel as [|fuel IH]; intros; cbn [copyinstr_loop]; keep. Qed.
#[global] Instance keeps_copyinstr pagetable srcva max : Keeps (copyinstr pagetable srcva max).
Proof. unfold copyinstr. keep. Qed.
(** ** Processes *)

#[global] Instance keeps_getp {A} i (f : proc -> A) : Keeps (getp i f).
Proof. unfold getp. keep. Qed.
#[global] Instance keeps_myproc  : Keeps (myproc).
Proof. unfold myproc. keep. Qed.
#[global] Instance keeps_myproc_  : Keeps (myproc_).
Proof. unfold myproc_. keep. Qed.

(** [sched] switches away from the current process, or one of its checks fails. *)
Lemma sched_cases i s :
  cur s = Some i ->
  (exists m, sched s = Panic m /\ good_msg m = true) \/ sched s = Sleep (p_chan (procat i s)) s.
Proof.
  intros Hc. unfold sched. rewrite (bind_ok _ _ s i s) by (unfold myproc_, myproc, bind, get; by rewrite Hc).
  unfold bind, get, getp. destruct (negb (holding _ s)); [left; by eexists|].
  destruct (negb (length (held s) =? 1)%nat); [left; by eexists|].
  cbn. destruct (bool_decide _); [left; by eexists|by right].
Qed.

Lemma kept_switch {A} i st (k : unit -> M A) s0 s :
  dead st = false -> same s0 s -> cur s = Some i -> kept s0 (updp i (set_p_state st) ;;; let! x := sched in k x) s.
Proof.
  intros Hst Hs Hc. assert (Hu : same s (set_procs (alter (set_p_state st) i (procs s)) s))
    by (apply (keeps_updp i (set_p_state st)); intros p; split; [done|cbn; congruence]).
  unfold kept, bind, updp, upd.
  set (s1 := set_procs _ s) in *. destruct (sched_cases i s1) as [(m & -> & Hm)| ->]; [done|done|].
  split; [by etrans|]. exists i. split; [done|]. unfold procat, s1. cbn. destruct (Nat.lt_ge_cases i (length (procs s))).
  - rewrite list_lookup_total_alter_eq by done. cbn. by intros ->.
  - by rewrite list_lookup_total_alt, lookup_ge_None_2 by (rewrite length_alter; lia).
Qed.
Lemma kept_myproc_ {A} (k : nat -> M A) s :
  (forall i, cur s = Some i -> kept s (k i) s) -> kept s (bind myproc_ k) s.
Proof.
  intros H. unfold kept, bind, myproc_, myproc, get, deref. cbn. destruct (cur s) as [i|] eqn:E; [|done].
  by apply (H i).
Qed.
#[global] Instance keeps_yield : Keeps yield.
Proof.
  intros s. unfold yield. apply kept_myproc_. intros i Hc.
  apply kept_bind; [done|apply _|]. intros _ s1 E1. apply kept_switch; [done|done|]. by rewrite (same_cur _ _ E1).
Qed.
#[global] Instance keeps_sleep c lk : Keeps (sleep c lk).
Proof.
  intros s. unfold sleep. apply kept_myproc_. intros i Hc.
  apply kept_bind; [done|apply _|]. intros _ s1 E1. apply kept_bind; [done|apply _|]. intros _ s2 E2.
  apply kept_bind; [done|keep|]. intros _ s3 E3. apply kept_switch; [done|done|].
  by rewrite (same_cur _ _ E3).
Qed.
#[global] Instance keeps_wake i c : Keeps (updp i (wake c)).
Proof. apply keeps_updp. intros p. unfold wake. by destruct (bool_decide _), p, (bool_decide _). Qed.
#[global] Instance keeps_wakeup_loop c i k : Keeps (wakeup_loop c i k).
Proof. revert c i. induction k as [|k IH]; intros; cbn [wakeup_loop]; keep. Qed.
#[global] Instance keeps_wakeup c : Keeps (wakeup c).
Proof. unfold wakeup. keep. Qed.
#[global] Instance keeps_kill_loop pid i k : Keeps (kill_loop pid i k).
Proof. revert pid i. induction k as [|k IH]; intros; cbn [kill_loop]; keep. Qed.
#[global] Instance keeps_kill pid : Keeps (kill pid).
Proof. unfold kill. keep. Qed.
#[global] Instance keeps_setkilled i : Keeps (setkilled i).
Proof. unfold setkilled. keep. Qed.
#[global] Instance keeps_killed i : Keeps (killed i).
Proof. unfold killed. keep. Qed.
#[global] Instance keeps_either_copyout user_dst dst src : Keeps (either_copyout user_dst dst src).
Proof. unfold either_copyout. keep. Qed.
#[global] Instance keeps_either_copyin user_src src len : Keeps (either_copyin user_src src len).
Proof. unfold either_copyin. keep. Qed.
(** ** Devices *)

#[global] Instance keeps_getd {A} (f : devst -> A) : Keeps (getd f).
Proof. unfold getd. keep. Qed.
#[global] Instance keeps_updd f : Keeps (updd f).
Proof. unfold updd. keep. Qed.
#[global] Instance keeps_mmio_read a : Keeps (mmio_read a).
Proof. unfold mmio_read. keep. Qed.
#[global] Instance keeps_mmio_write a v : Keeps (mmio_write a v).
Proof. unfold mmio_write. keep. Qed.
#[global] Instance keeps_ReadReg reg : Keeps (ReadReg reg).
Proof. unfold ReadReg. keep. Qed.
#[global] Instance keeps_WriteReg reg v : Keeps (WriteReg reg v).
Proof. unfold WriteReg. keep. Qed.
#[global] Instance keeps_uartstart_loop fuel : Keeps (uartstart_loop fuel).
Proof. induction fuel as [|fuel IH]; intros; cbn [uartstart_loop]; keep. Qed.
#[global] Instance keeps_uartstart  : Keeps (uartstart).
Proof. unfold uartstart. keep. Qed.
#[global] Instance keeps_uartputc_wait  : Keeps (uartputc_wait).
Proof. unfold uartputc_wait. keep. Qed.
#[global] Instance keeps_uartputc c : Keeps (uartputc c).
Proof. unfold uartputc. keep. Qed.
#[global] Instance keeps_tx_spin fuel : Keeps (tx_spin fuel).
Proof. induction fuel as [|fuel IH]; intros; cbn [tx_spin]; keep. Qed.
#[global] Instance keeps_uartputc_sync c : Keeps (uartputc_sync c).
Proof. unfold uartputc_sync. keep. Qed.
#[global] Instance keeps_consputc c : Keeps (consputc c).
Proof. unfold consputc. keep. Qed.
#[global] Instance keeps_consputs l : Keeps (consputs l).
Proof. induction l as [|x l IH]; intros; cbn [consputs]; keep. Qed.
#[global] Instance keeps_kprintf fmt args : Keeps (kprintf fmt args).
Proof. unfold kprintf. keep. Qed.
#[global] Instance keeps_consolewrite_loop user_src src n i fuel : Keeps (consolewrite_loop user_src src n i fuel).
Proof. revert user_src src n i. induction fuel as [|fuel IH]; intros; cbn [consolewrite_loop]; keep. Qed.
#[global] Instance keeps_consolewrite user_src src n : Keeps (consolewrite user_src src n).
Proof. unfold consolewrite. keep. Qed.
#[global] Instance keeps_consoleread_loop user_dst dst n target fuel : Keeps (consoleread_loop user_dst dst n target fuel).
Proof. revert user_dst dst n target. induction fuel as [|fuel IH]; intros; cbn [consoleread_loop]; keep. Qed.
#[global] Instance keeps_consoleread user_dst dst n : Keeps (consoleread user_dst dst n).
Proof. unfold consoleread. keep. Qed.
(** ** Pipes *)

#[global] Instance keeps_getpi {A} pi (f : pipe -> A) : Keeps (getpi pi f).
Proof. unfold getpi. keep. Qed.
#[global] Instance keeps_updpi pi f : Keeps (updpi pi f).
Proof. unfold updpi. keep. Qed.
#[global] Instance keeps_pipe_new pi : Keeps (pipe_new pi).
Proof. unfold pipe_new. keep. Qed.
#[global] Instance keeps_pipeclose pi writable : Keeps (pipeclose pi writable).
Proof. unfold pipeclose. keep. Qed.
#[global] Instance keeps_pipewrite_loop pi pr addr n i fuel : Keeps (pipewrite_loop pi pr addr n i fuel).
Proof. revert pi pr addr n i. induction fuel as [|fuel IH]; intros; cbn [pipewrite_loop]; keep. Qed.
#[global] Instance keeps_pipewrite pi addr n : Keeps (pipewrite pi addr n).
Proof. unfold pipewrite. keep. Qed.
#[global] Instance keeps_piperead_wait pi pr : Keeps (piperead_wait pi pr).
Proof. unfold piperead_wait. keep. Qed.
#[global] Instance keeps_piperead_loop pi pr addr n i fuel : Keeps (piperead_loop pi pr addr n i fuel).
Proof. revert pi pr addr n i. induction fuel as [|fuel IH]; intros; cbn [piperead_loop]; keep. Qed.
#[global] Instance keeps_piperead pi addr n : Keeps (piperead pi addr n).
Proof. unfold piperead. keep. Qed.
(** ** Sleep locks and buffers *)

Class SlKeeps (l : slref) : Prop := sl_keeps v s : same s (sl_set l v s).
#[global] Instance keeps_buf_sl i : SlKeeps (buf_sl i).
Proof. by split. Qed.
#[global] Instance keeps_inode_sl i : SlKeeps (inode_sl i).
Proof. by split. Qed.
#[global] Instance keeps_sl_set l v : SlKeeps l -> Keeps (upd (sl_set l v)).
Proof. intros H. apply keeps_upd. intros s. apply H. Qed.
#[global] Instance keeps_acquiresleep l : SlKeeps l -> Keeps (acquiresleep l).
Proof. unfold acquiresleep. keep. Qed.
#[global] Instance keeps_releasesleep l : SlKeeps l -> Keeps (releasesleep l).
Proof. unfold releasesleep. keep. Qed.
#[global] Instance keeps_holdingsleep l : Keeps (holdingsleep l).
Proof. unfold holdingsleep. keep. Qed.
#[global] Instance keeps_getb {A} i (f : buf -> A) : Keeps (getb i f).
Proof. unfold getb. keep. Qed.
#[global] Instance keeps_updb i f : Keeps (updb i f).
Proof. unfold updb. keep. Qed.
#[global] Instance keeps_vdisk_wait : Keeps vdisk_wait.
Proof. unfold vdisk_wait. keep. Qed.
#[global] Instance keeps_virtio_disk_rw i write : Keeps (virtio_disk_rw i write).
Proof. unfold virtio_disk_rw. keep. Qed.
#[global] Instance keeps_bget_find dev blockno b fuel : Keeps (bget_find dev blockno b fuel).
Proof. revert dev blockno b. induction fuel as [|fuel IH]; intros; cbn [bget_find]; keep. Qed.
#[global] Instance keeps_bget_unused b fuel : Keeps (bget_unused b fuel).
Proof. revert b. induction fuel as [|fuel IH]; intros; cbn [bget_unused]; keep. Qed.
#[global] Instance keeps_bget dev blockno : Keeps (bget dev blockno).
Proof. unfold bget. keep. Qed.
#[global] Instance keeps_bread dev blockno : Keeps (bread dev blockno).
Proof. unfold bread. keep. Qed.
#[global] Instance keeps_bwrite b : Keeps (bwrite b).
Proof. unfold bwrite. keep. Qed.
#[global] Instance keeps_to_front b : Keeps (to_front b).
Proof. unfold to_front. keep. Qed.
#[global] Instance keeps_brelse b : Keeps (brelse b).
Proof. unfold brelse. keep. Qed.
#[global] Instance keeps_bpin b : Keeps (bpin b).
Proof. unfold bpin. keep. Qed.
#[global] Instance keeps_bunpin b : Keeps (bunpin b).
Proof. unfold bunpin. keep. Qed.
(** ** The log *)

#[global] Instance keeps_getl {A} (f : logstate -> A) : Keeps (getl f).
Proof. unfold getl. keep. Qed.
#[global] Instance keeps_updl f : Keeps (updl f).
Proof. unfold updl. keep. Qed.
#[global] Instance keeps_install_trans_loop recovering tail k : Keeps (install_trans_loop recovering tail k).
Proof. revert recovering tail. induction k as [|k IH]; intros; cbn [install_trans_loop]; keep. Qed.
#[global] Instance keeps_install_trans recovering : Keeps (install_trans recovering).
Proof. unfold install_trans. keep. Qed.
#[global] Instance keeps_write_head  : Keeps (write_head).
Proof. unfold write_head. keep. Qed.
#[global] Instance keeps_begin_op  : Keeps (begin_op).
Proof. unfold begin_op. keep. Qed.
#[global] Instance keeps_write_log_loop tail k : Keeps (write_log_loop tail k).
Proof. revert tail. induction k as [|k IH]; intros; cbn [write_log_loop]; keep. Qed.
#[global] Instance keeps_write_log  : Keeps (write_log).
Proof. unfold write_log. keep. Qed.
#[global] Instance keeps_commit  : Keeps (commit).
Proof. unfold commit. keep. Qed.
#[global] Instance keeps_end_op  : Keeps (end_op).
Proof. unfold end_op. keep. Qed.
#[global] Instance keeps_log_write b : Keeps (log_write b).
Proof. unfold log_write. keep. Qed.
(** ** The file system *)

#[global] Instance keeps_printf msg : Keeps (printf msg).
Proof. unfold printf. keep. Qed.
#[global] Instance keeps_bzero dev bno : Keeps (bzero dev bno).
Proof. unfold bzero. keep. Qed.
#[global] Instance keeps_balloc_loop dev b fuel : Keeps (balloc_loop dev b fuel).
Proof. revert dev b. induction fuel as [|fuel IH]; intros; cbn [balloc_loop]; keep. Qed.
#[global] Instance keeps_balloc dev : Keeps (balloc dev).
Proof. unfold balloc. keep. Qed.
#[global] Instance keeps_bfree dev b : Keeps (bfree dev b).
Proof. unfold bfree. keep. Qed.
#[global] Instance keeps_geti {A} i (f : inode -> A) : Keeps (geti i f).
Proof. unfold geti. keep. Qed.
#[global] Instance keeps_updi i f : Keeps (updi i f).
Proof. unfold updi. keep. Qed.
#[global] Instance keeps_iget dev inum : Keeps (iget dev inum).
Proof. unfold iget. keep. Qed.
#[global] Instance keeps_ialloc_loop dev type inum fuel : Keeps (ialloc_loop dev type inum fuel).
Proof. revert dev type inum. induction fuel as [|fuel IH]; intros; cbn [ialloc_loop]; keep. Qed.
#[global] Instance keeps_ialloc dev type : Keeps (ialloc dev type).
Proof. unfold ialloc. keep. Qed.
#[global] Instance keeps_iupdate i : Keeps (iupdate i).
Proof. unfold iupdate. keep. Qed.
#[global] Instance keeps_idup i : Keeps (idup i).
Proof. unfold idup. keep. Qed.
#[global] Instance keeps_ilock i : Keeps (ilock i).
Proof. unfold ilock. keep. Qed.
#[global] Instance keeps_iunlock i : Keeps (iunlock i).
Proof. unfold iunlock. keep. Qed.
#[global] Instance keeps_bmap_direct i k : Keeps (bmap_direct i k).
Proof. unfold bmap_direct. keep. Qed.
#[global] Instance keeps_bmap i bn : Keeps (bmap i bn).
Proof. unfold bmap. keep. Qed.
#[global] Instance keeps_itrunc_direct i k n : Keeps (itrunc_direct i k n).
Proof. revert i k. induction n as [|n IH]; intros; cbn [itrunc_direct]; keep. Qed.
#[global] Instance keeps_itrunc_indirect dev bp j n : Keeps (itrunc_indirect dev bp j n).
Proof. revert dev bp j. induction n as [|n IH]; intros; cbn [itrunc_indirect]; keep. Qed.
#[global] Instance keeps_itrunc i : Keeps (itrunc i).
Proof. unfold itrunc. keep. Qed.
#[global] Instance keeps_iput i : Keeps (iput i).
Proof. unfold iput. keep. Qed.
#[global] Instance keeps_iunlockput i : Keeps (iunlockput i).
Proof. unfold iunlockput. keep. Qed.
#[global] Instance keeps_stati i : Keeps (stati i).
Proof. unfold stati. keep. Qed.
#[global] Instance keeps_copy_to dst bs : Keeps (copy_to dst bs).
Proof. unfold copy_to. keep. Qed.
#[global] Instance keeps_readi_loop i dst off tot n out fuel : Keeps (readi_loop i dst off tot n out fuel).
Proof. revert i dst off tot n out. induction fuel as [|fuel IH]; intros; cbn [readi_loop]; keep. Qed.
#[global] Instance keeps_readi i dst off n : Keeps (readi i dst off n).
Proof. unfold readi. keep. Qed.
#[global] Instance keeps_copy_from src len : Keeps (copy_from src len).
Proof. unfold copy_from. keep. Qed.
#[global] Instance keeps_writei_loop i src off tot n fuel : Keeps (writei_loop i src off tot n fuel).
Proof. revert i src off tot n. induction fuel as [|fuel IH]; intros; cbn [writei_loop]; keep. Qed.
#[global] Instance keeps_writei i src off n : Keeps (writei i src off n).
Proof. unfold writei. keep. Qed.
#[global] Instance keeps_dirlookup_loop dp name off fuel : Keeps (dirlookup_loop dp name off fuel).
Proof. revert dp name off. induction fuel as [|fuel IH]; intros; cbn [dirlookup_loop]; keep. Qed.
#[global] Instance keeps_dirlookup dp name : Keeps (dirlookup dp name).
Proof. unfold dirlookup. keep. Qed.
#[global] Instance keeps_dirlink_loop dp off fuel : Keeps (dirlink_loop dp off fuel).
Proof. revert dp off. induction fuel as [|fuel IH]; intros; cbn [dirlink_loop]; keep. Qed.
#[global] Instance keeps_dirlink dp name inum : Keeps (dirlink dp name inum).
Proof. unfold dirlink. keep. Qed.
#[global] Instance keeps_namex_loop ip path nameiparent name fuel : Keeps (namex_loop ip path nameiparent name fuel).
Proof. revert ip path nameiparent name. induction fuel as [|fuel IH]; intros; cbn [namex_loop]; keep. Qed.
#[global] Instance keeps_namex path nameiparent : Keeps (namex path nameiparent).
Proof. unfold namex. keep. Qed.
#[global] Instance keeps_namei path : Keeps (namei path).
Proof. unfold namei. keep. Qed.
#[global] Instance keeps_nameiparent path : Keeps (nameiparent path).
Proof. unfold nameiparent. keep. Qed.
(** ** Open files *)

#[global] Instance keeps_getf {A} f (g : file -> A) : Keeps (getf f g).
Proof. unfold getf. keep. Qed.
#[global] Instance keeps_filestat pad f addr : Keeps (filestat pad f addr).
Proof. unfold filestat. keep. Qed.
#[global] Instance keeps_move_off f r : Keeps (move_off f r).
Proof. unfold move_off. keep. Qed.
Lemma keeps_devsw m a b c :
  (forall rd, d_read (devsw m) = Some rd -> Keeps (rd a b c)) /\
  (forall wr, d_write (devsw m) = Some wr -> Keeps (wr a b c)).
Proof.
  unfold devsw. destruct (_ =? _); cbn; split; try done; intros ? [= <-]; apply _.
Qed.
#[global] Instance keeps_fileread f addr n : Keeps (fileread f addr n).
Proof.
  unfold fileread. keep. destruct (d_read _) as [rd|] eqn:E; [|keep].
  by apply (proj1 (keeps_devsw (f_major a) true addr n)).
Qed.
#[global] Instance keeps_filewrite_loop f addr n i fuel : Keeps (filewrite_loop f addr n i fuel).
Proof. revert f addr n i. induction fuel as [|fuel IH]; intros; cbn [filewrite_loop]; keep. Qed.
#[global] Instance keeps_filewrite f addr n : Keeps (filewrite f addr n).
Proof.
  unfold filewrite. keep. destruct (d_write _) as [wr|] eqn:E; [|keep].
  by apply (proj2 (keeps_devsw (f_major a) true addr n)).
Qed.
(** ** Process memory *)

#[global] Instance keeps_tf_get p off : Keeps (tf_get p off).
Proof. unfold tf_get. keep. Qed.
#[global] Instance keeps_tf_set p off v : Keeps (tf_set p off v).
Proof. unfold tf_set. keep. Qed.
#[global] Instance keeps_allocpid  : Keeps (allocpid).
Proof. unfold allocpid. keep. Qed.
#[global] Instance keeps_proc_pagetable p : Keeps (proc_pagetable p).
Proof. unfold proc_pagetable. keep. Qed.
#[global] Instance keeps_proc_freepagetable pagetable sz : Keeps (proc_freepagetable pagetable sz).
Proof. unfold proc_freepagetable. keep. Qed.
#[global] Instance keeps_growproc n : Keeps (growproc n).
Proof. unfold growproc. keep. Qed.
#[global] Instance keeps_reparent_loop p i k : Keeps (reparent_loop p i k).
Proof. revert p i. induction k as [|k IH]; intros; cbn [reparent_loop]; keep. Qed.
#[global] Instance keeps_reparent p : Keeps (reparent p).
Proof. unfold reparent. keep. Qed.
(** ** System calls *)

#[global] Instance keeps_fetchaddr addr : Keeps (fetchaddr addr).
Proof. unfold fetchaddr. keep. Qed.
#[global] Instance keeps_fetchstr addr max : Keeps (fetchstr addr max).
Proof. unfold fetchstr. keep. Qed.
#[global] Instance keeps_argraw n : Keeps (argraw n).
Proof. unfold argraw. keep. Qed.
#[global] Instance keeps_argint n : Keeps (argint n).
Proof. unfold argint. keep. Qed.
#[global] Instance keeps_argaddr n : Keeps (argaddr n).
Proof. unfold argaddr. keep. Qed.
#[global] Instance keeps_argstr n max : Keeps (argstr n max).
Proof. unfold argstr. keep. Qed.
#[global] Instance keeps_argfd n : Keeps (argfd n).
Proof. unfold argfd. keep. Qed.
#[global] Instance keeps_loadseg_loop pagetable va ip offset sz i fuel : Keeps (loadseg_loop pagetable va ip offset sz i fuel).
Proof. revert pagetable va ip offset sz i. induction fuel as [|fuel IH]; intros; cbn [loadseg_loop]; keep. Qed.
#[global] Instance keeps_loadseg pagetable va ip offset sz : Keeps (loadseg pagetable va ip offset sz).
Proof. unfold loadseg. keep. Qed.
#[global] Instance keeps_load_segments pagetable ip off sz k : Keeps (load_segments pagetable ip off sz k).
Proof. revert pagetable ip off sz. induction k as [|k IH]; intros; cbn [load_segments]; keep. Qed.
#[global] Instance keeps_kstr a : Keeps (kstr a).
Proof. unfold kstr. keep. Qed.
#[global] Instance keeps_push_args pagetable stackbase argv sp argc ustack : Keeps (push_args pagetable stackbase argv sp argc ustack).
Proof. revert sp argc ustack. induction argv as [|a argv IH]; intros; cbn [push_args]; keep. Qed.
#[global] Instance keeps_exec_bad pagetable sz ip : Keeps (exec_bad pagetable sz ip).
Proof. unfold exec_bad. keep. Qed.
#[global] Instance keeps_exec_image p path argv entry pagetable sz : Keeps (exec_image p path argv entry pagetable sz).
Proof. unfold exec_image. keep. Qed.
#[global] Instance keeps_exec path argv : Keeps (exec path argv).
Proof. unfold exec. keep. Qed.
#[global] Instance keeps_sys_getpid  : Keeps (sys_getpid).
Proof. unfold sys_getpid. keep. Qed.
#[global] Instance keeps_sys_sbrk  : Keeps (sys_sbrk).
Proof. unfold sys_sbrk. keep. Qed.
#[global] Instance keeps_sys_sleep_from ticks0 n : Keeps (sys_sleep_from ticks0 n).
Proof. unfold sys_sleep_from. keep. Qed.
#[global] Instance keeps_sys_sleep  : Keeps (sys_sleep).
Proof. unfold sys_sleep. keep. Qed.
#[global] Instance keeps_sys_kill  : Keeps (sys_kill).
Proof. unfold sys_kill. keep. Qed.
#[global] Instance keeps_sys_uptime  : Keeps (sys_uptime).
Proof. unfold sys_uptime. keep. Qed.
#[global] Instance keeps_sys_read  : Keeps (sys_read).
Proof. unfold sys_read. keep. Qed.
#[global] Instance keeps_sys_write  : Keeps (sys_write).
Proof. unfold sys_write. keep. Qed.
#[global] Instance keeps_sys_fstat pad : Keeps (sys_fstat pad).
Proof. unfold sys_fstat. keep. Qed.
#[global] Instance keeps_add_nlink i d : Keeps (add_nlink i d).
Proof. unfold add_nlink. keep. Qed.
#[global] Instance keeps_link_bad ip : Keeps (link_bad ip).
Proof. unfold link_bad. keep. Qed.
#[global] Instance keeps_sys_link  : Keeps (sys_link).
Proof. unfold sys_link. keep. Qed.
#[global] Instance keeps_isdirempty_loop dp off fuel : Keeps (isdirempty_loop dp off fuel).
Proof. revert dp off. induction fuel as [|fuel IH]; intros; cbn [isdirempty_loop]; keep. Qed.
#[global] Instance keeps_isdirempty dp : Keeps (isdirempty dp).
Proof. unfold isdirempty. keep. Qed.
#[global] Instance keeps_unlink_bad dp : Keeps (unlink_bad dp).
Proof. unfold unlink_bad. keep. Qed.
#[global] Instance keeps_unlink_entry dp ip off : Keeps (unlink_entry dp ip off).
Proof. unfold unlink_entry. keep. Qed.
#[global] Instance keeps_sys_unlink  : Keeps (sys_unlink).
Proof. unfold sys_unlink. keep. Qed.
#[global] Instance keeps_create_fail dp ip : Keeps (create_fail dp ip).
Proof. unfold create_fail. keep. Qed.
#[global] Instance keeps_create_new dp ip name type major minor : Keeps (create_new dp ip name type major minor).
Proof. unfold create_new. keep. Qed.
#[global] Instance keeps_create path type major minor : Keeps (create path type major minor).
Proof. unfold create. keep. Qed.
#[global] Instance keeps_sys_mkdir  : Keeps (sys_mkdir).
Proof. unfold sys_mkdir. keep. Qed.
#[global] Instance keeps_sys_mknod  : Keeps (sys_mknod).
Proof. unfold sys_mknod. keep. Qed.
#[global] Instance keeps_sys_chdir  : Keeps (sys_chdir).
Proof. unfold sys_chdir. keep. Qed.
#[global] Instance keeps_exec_args uargv i argv k : Keeps (exec_args uargv i argv k).
Proof. revert uargv i argv. induction k as [|k IH]; intros; cbn [exec_args]; keep. Qed.
#[global] Instance keeps_kfree_all l : Keeps (kfree_all l).
Proof. induction l as [|x l IH]; intros; cbn [kfree_all]; keep. Qed.
#[global] Instance keeps_sys_exec  : Keeps (sys_exec).
Proof. unfold sys_exec. keep. Qed.
End Frame.
