(* ===== verification/Trap.v ===== *)
(** [kernel/plic.c], the interrupt controller through its registers; [kernel/trap.c]; and
    [forkret] of [kernel/proc.c], which ends in [usertrapret].

    The jump to [userret] ends the kernel's part of a trap: [usertrapret] returns the
    value it passes for [satp].  The disk's interrupt handler is a parameter here, as
    the driver's own state is; see [Virtio]. *)
From S2P Require Import Prelude Types Sched Uart Proc Riscv Kalloc Vm Sleeplock Bio Log Fs Printf Console Pipe File.
From S2P Require Import Args Syscall Sysfile.

Abbreviation UART0_IRQ := 10.
Abbreviation VIRTIO0_IRQ := 1.

Definition PLIC_SENABLE (hart : Z) : Z := PLIC + 0x2080 + hart * 0x100.
Definition PLIC_SPRIORITY (hart : Z) : Z := PLIC + 0x201000 + hart * 0x2000.
Definition PLIC_SCLAIM (hart : Z) : Z := PLIC + 0x201004 + hart * 0x2000.

Definition plicinit : M unit :=
  mmio_write (PLIC + UART0_IRQ * 4) 1 ;;;
  mmio_write (PLIC + VIRTIO0_IRQ * 4) 1.

Definition plicinithart : M unit :=
  let! hart := cpuid in
  mmio_write (PLIC_SENABLE hart) (Z.lor (Z.shiftl 1 UART0_IRQ) (Z.shiftl 1 VIRTIO0_IRQ)) ;;;
  mmio_write (PLIC_SPRIORITY hart) 0.

Definition plic_claim : M Z :=
  let! hart := cpuid in
  let! v := mmio_read (PLIC_SCLAIM hart) in
  ret (i32 v).

Definition plic_complete (irq : Z) : M unit :=
  let! hart := cpuid in
  mmio_write (PLIC_SCLAIM hart) (u32 irq).

Abbreviation SSTATUS_SPP := 256.
Abbreviation SSTATUS_SPIE := 32.

Section Trap.
Context {L : Linker}.
Context (virtio_disk_intr : M unit) (pad : list Z).

Definition r_csr {A} (f : hartst -> A) : M A := get (fun s => f (hart s)).
Definition w_csr (f : hartst -> hartst) : M unit := upd (fun s => set_hart (f (hart s)) s).

Definition trapinithart : M unit := w_csr (set_r_stvec k_kernelvec).

Definition intr_get : M bool := r_csr (fun h => has (r_sstatus h) SSTATUS_SIE).
Definition intr_off : M unit := w_csr (fun h => set_r_sstatus (Z.ldiff (r_sstatus h) SSTATUS_SIE) h).

Definition clockintr : M unit :=
  let! id := cpuid in
  (if id =? 0 then
     acquire LkTicks ;;;
     upd (fun s => set_ticks (u32 (ticks s + 1)) s) ;;;
     wakeup ChTicks ;;;
     release LkTicks
   else ret tt) ;;;
  w_csr (fun h => set_r_stimecmp (u64 (r_time h + 1000000)) h).

Definition devintr : M Z :=
  let! scause := r_csr r_scause in
  if scause =? 0x8000000000000009 then
    let! irq := plic_claim in
    (if irq =? UART0_IRQ then uartintr procdump
     else if irq =? VIRTIO0_IRQ then virtio_disk_intr
     else if negb (irq =? 0) then kprintf (lit "unexpected interrupt irq=%d" ++ newline) [VNum irq]
     else ret tt) ;;;
    (if negb (irq =? 0) then plic_complete irq else ret tt) ;;;
    ret 1
  else if scause =? 0x8000000000000005 then
    clockintr ;;;
    ret 2
  else ret 0.

Definition usertrapret : M Z :=
  let! p := myproc_ in
  intr_off ;;;
  w_csr (set_r_stvec (TRAMPOLINE + (k_uservec - k_trampoline))) ;;;
  let! satp := r_csr r_satp in
  tf_set p TF_KERNEL_SATP satp ;;;
  let! kstack := getp p p_kstack in
  tf_set p TF_KERNEL_SP (kstack + PGSIZE) ;;;
  tf_set p TF_KERNEL_TRAP k_usertrap ;;;
  let! tp := r_csr r_tp in
  tf_set p TF_KERNEL_HARTID tp ;;;
  w_csr (fun h => set_r_sstatus (Z.lor (Z.ldiff (r_sstatus h) SSTATUS_SPP) SSTATUS_SPIE) h) ;;;
  let! epc := tf_get p TF_EPC in
  w_csr (set_r_sepc epc) ;;;
  let! pt := getp p p_pagetable in
  ret (MAKE_SATP pt).

Definition usertrap : M Z :=
  let! sstatus := r_csr r_sstatus in
  if negb (Z.land sstatus SSTATUS_SPP =? 0) then panic "usertrap: not from user mode"
  else
    w_csr (set_r_stvec k_kernelvec) ;;;
    let! p := myproc_ in
    let! sepc := r_csr r_sepc in
    tf_set p TF_EPC sepc ;;;
    let! scause := r_csr r_scause in
    let! which_dev :=
      (if scause =? 8 then
         let! k := killed p in
         (if k then exit (-1) else ret tt) ;;;
         let! epc := tf_get p TF_EPC in
         tf_set p TF_EPC (u64 (epc + 4)) ;;;
         intr_on ;;;
         syscall pad ;;;
         ret 0
       else
         let! which_dev := devintr in
         if negb (which_dev =? 0) then ret which_dev
         else
           let! pid := getp p p_pid in
           kprintf (lit "usertrap(): unexpected scause 0x%lx pid=%d" ++ newline) [VNum scause; VNum pid] ;;;
           let! sepc := r_csr r_sepc in
           let! stval := r_csr r_stval in
           kprintf (lit "            sepc=0x%lx stval=0x%lx" ++ newline) [VNum sepc; VNum stval] ;;;
           setkilled p ;;;
           ret 0) in
    let! k := killed p in
    (if k then exit (-1) else ret tt) ;;;
    (if which_dev =? 2 then yield else ret tt) ;;;
    usertrapret.

Definition kerneltrap : M unit :=
  let! sepc := r_csr r_sepc in
  let! sstatus := r_csr r_sstatus in
  let! scause := r_csr r_scause in
  if Z.land sstatus SSTATUS_SPP =? 0 then panic "kerneltrap: not from supervisor mode"
  else
    let! on := intr_get in
    if on then panic "kerneltrap: interrupts enabled"
    else
      let! which_dev := devintr in
      if which_dev =? 0 then
        let! sepc := r_csr r_sepc in
        let! stval := r_csr r_stval in
        kprintf (lit "scause=0x%lx sepc=0x%lx stval=0x%lx" ++ newline) [VNum scause; VNum sepc; VNum stval] ;;;
        panic "kerneltrap"
      else
        let! p := myproc in
        (if (which_dev =? 2) && bool_decide (is_Some p) then yield else ret tt) ;;;
        w_csr (set_r_sepc sepc) ;;;
        w_csr (set_r_sstatus sstatus).

(** The first run of a process; the process that runs first sets up the file
    system. *)
Definition forkret : M Z :=
  let! p := myproc_ in
  release (LkProc p) ;;;
  let! f := get first in
  (if f then
     fsinit ROOTDEV ;;;
     upd (set_first false)
   else ret tt) ;;;
  usertrapret.
End Trap.
