(* ===== verification/Locks.v ===== *)
(** The spinlocks of the whole kernel: which ones a function takes, that it takes none it
    holds and releases only what it holds, and that it does not give up the CPU while it
    holds one.

    [lk o k F h c Q] is the judgement: run by the thread of process [o] with the locks [h] held on top of others that
    [c] does not take ([F] bounds those it takes), [c] ends with the locks that [Q] says.
    [Locks k F c] is the case of a function that ends with the locks it started with; it is
    a class, so that the proof for a function finds those for the functions it calls. *)
From S2P Require Import Prelude Types Riscv Str Kalloc Vm Sched Sleeplock Bio Log Fs Uart Printf Console Pipe File Proc.
From S2P Require Import Args Exec Syscall Sysfile Frame Trap.

(** ** The judgement *)

(** The checks of [acquire], [release] and [sched] on the locks of the caller. *)
Definition lock_msg (m : string) : bool :=
  bool_decide (m ∈ ["acquire"; "release"; "sched p->lock"; "sched running"]).

(** What a function may do while the caller holds locks of its own: never sleep; sleep,
    which [sched] refuses then; or sleep with a lock held of which the code knows that
    nobody else can want it ([iput]). *)
Inductive mode := NoSleep | Sleeps | Unchecked.

Definition mode_allows (k : mode) (base : list lockid) : Prop :=
  match k with NoSleep => False | Sleeps => base <> [] | Unchecked => True end.

(** A thread that has switched away holds its own lock, and no other unless [k] is
    [Unchecked]; [sched] checks that too. *)
Definition switched (s : kst) : Prop := exists p, cur s = Some p /\ held s = [LkProc p].

Definition lk {A} (o : option nat) (k : mode) (F : lockid -> bool) (h : list lockid) (c : M A)
    (Q : A -> list lockid -> Prop) : Prop :=
  forall s base, cur s = o -> held s = h ++ base -> (forall l, l ∈ base -> F l = false) ->
  match c s with
  | Ok a s' => cur s' = o /\ exists h', held s' = h' ++ base /\ Q a h'
  | Panic m => lock_msg m = false /\ (m = "sched locks" -> mode_allows k base)
  | Sleep _ s' => k <> NoSleep /\ switched s'
  | Diverge => True
  end.

Class Locks {A} (k : mode) (F : lockid -> bool) (c : M A) : Prop :=
  locks o : lk o k F [] c (fun _ h => h = []).

(** ** Rules *)

(** A function with mode [k'] called from one with mode [k] that holds [h]. *)
Definition mode_call (k' k : mode) (h : list lockid) : bool :=
  match k', k with
  | NoSleep, _ | _, Unchecked => true
  | Sleeps, Sleeps => bool_decide (h = [])
  | _, _ => false
  end.

Lemma mode_call_allows k' k h base :
  mode_call k' k h = true -> mode_allows k' (h ++ base) -> mode_allows k base.
Proof.
  destruct k', k; cbn; try done. intros ->%bool_decide_eq_true. done.
Qed.

Lemma lk_mono {A} o k F h (c : M A) (Q Q' : A -> list lockid -> Prop) :
  lk o k F h c Q -> (forall a h', Q a h' -> Q' a h') -> lk o k F h c Q'.
Proof.
  intros H HQ s base Hc Hh Hb. specialize (H s base Hc Hh Hb). destruct (c s); auto.
  destruct H as (? & h' & ? & ?). eauto 6.
Qed.

(** The frame rule: more locks held below, that [c] does not take. *)
Lemma lk_frame {A} o k' k F' F h h2 (c : M A) Q :
  lk o k' F' h c Q -> mode_call k' k h2 = true -> (forall l, F' l = true -> F l = true) ->
  forallb (fun l => negb (F' l)) h2 = true ->
  lk o k F (h ++ h2) c (fun a h' => exists h1, h' = h1 ++ h2 /\ Q a h1).
Proof.
  intros H Hk HF H2 s base Hc Hh Hb. rewrite <- app_assoc in Hh. specialize (H s (h2 ++ base) Hc Hh).
  lapply H.
  - clear H. intros H. destruct (c s) as [a s'|m|ch s'|]; auto.
    + destruct H as (? & h' & Hh' & HQ). split; [done|]. exists (h' ++ h2). rewrite <- app_assoc. eauto.
    + destruct H as [? H]. split; [done|]. intros E. by eapply mode_call_allows, H.
    + destruct H as [? H]. split; [|done]. intros ->. by destruct k'.
  - intros l [Hl|Hl]%elem_of_app.
    + rewrite forallb_forall in H2. apply negb_true_iff, H2, list_elem_of_In, Hl.
    + destruct (F' l) eqn:E; [|done]. by rewrite <- (Hb l Hl), (HF l E).
Qed.

Lemma lk_inst {A} o k' k F' F h (c : M A) :
  Locks k' F' c -> mode_call k' k h = true -> (forall l, F' l = true -> F l = true) ->
  forallb (fun l => negb (F' l)) h = true -> lk o k F h c (fun _ h' => h' = h).
Proof.
  intros H Hk HF Hh. eapply lk_mono; [by apply (lk_frame o k' k F' F [] h)|]. by intros a h' (h1 & -> & ->).
Qed.

Lemma lk_bind {A B} o k F h (c : M A) (f : A -> M B) R Q :
  lk o k F h c R -> (forall a h', R a h' -> lk o k F h' (f a) Q) -> lk o k F h (bind c f) Q.
Proof.
  intros H Hf s base Hc Hh Hb. specialize (H s base Hc Hh Hb). unfold bind. destruct (c s) as [a s'|m|ch s'|]; auto.
  destruct H as (Hc' & h' & Hh' & HR). by apply (Hf a h' HR s' base).
Qed.

(** The common case: the first part gives back the locks it took. *)
Lemma lk_seq {A B} o k F h (c : M A) (f : A -> M B) Q :
  lk o k F h c (fun _ h' => h' = h) -> (forall a, lk o k F h (f a) Q) -> lk o k F h (bind c f) Q.
Proof. intros H Hf. eapply lk_bind; [done|]. by intros a h' ->. Qed.

Lemma lk_ret {A} o k F h (a : A) (Q : A -> list lockid -> Prop) : Q a h -> lk o k F h (ret a) Q.
Proof. intros HQ s base Hc Hh Hb. cbn. eauto. Qed.
Lemma lk_get {A} o k F h (f : kst -> A) (Q : A -> list lockid -> Prop) :
  (forall a, Q a h) -> lk o k F h (get f) Q.
Proof. intros HQ s base Hc Hh Hb. cbn. eauto. Qed.
Lemma lk_panic {A} o k F h m (Q : A -> list lockid -> Prop) :
  lock_msg m = false -> m <> "sched locks" -> lk o k F h (panic m) Q.
Proof. intros Hm Hn s base Hc Hh Hb. cbn. by split. Qed.
Lemma lk_diverge {A} o k F h (Q : A -> list lockid -> Prop) : lk o k F h diverge Q.
Proof. by intros s base Hc Hh Hb. Qed.
Lemma lk_upd o k F h f (Q : unit -> list lockid -> Prop) :
  (forall s, held (f s) = held s /\ cur (f s) = cur s) -> Q tt h -> lk o k F h (upd f) Q.
Proof. intros H HQ s base Hc Hh Hb. cbn. destruct (H s) as [-> ->]. eauto. Qed.

Lemma lk_acquire o k F h l (Q : unit -> list lockid -> Prop) :
  F l = true -> l ∉ h -> Q tt (l :: h) -> lk o k F h (acquire l) Q.
Proof.
  intros Hl Hn HQ s base Hc Hh Hb. unfold acquire, holding. rewrite bool_decide_eq_false_2.
  - cbn. split; [done|]. exists (l :: h). by rewrite Hh.
  - rewrite Hh. intros [?|Hx]%elem_of_app; [done|]. by rewrite (Hb l Hx) in Hl.
Qed.

(** [release] of any lock of the caller's own; the last one taken and the one before it
    are the cases that occur. *)
Lemma lk_release o k F h l (Q : unit -> list lockid -> Prop) :
  F l = true -> l ∈ h -> Q tt (filter (fun x => x <> l) h) -> lk o k F h (release l) Q.
Proof.
  intros Hl Hn HQ s base Hc Hh Hb. unfold release, holding. rewrite bool_decide_eq_true_2.
  - cbn. split; [done|]. exists (filter (fun x => x <> l) h). rewrite Hh, filter_app. split; [|done]. f_equal.
    apply filter_ne_id. intros Hx. by rewrite (Hb l Hx) in Hl.
  - rewrite Hh. apply elem_of_app. by left.
Qed.
Lemma lk_release1 o k F h l (Q : unit -> list lockid -> Prop) :
  F l = true -> l ∉ h -> Q tt h -> lk o k F (l :: h) (release l) Q.
Proof.
  intros Hl Hn HQ. apply lk_release; [done|by left|].
  rewrite filter_cons_False by naive_solver. by rewrite filter_ne_id.
Qed.
Lemma lk_release2 o k F h l l' (Q : unit -> list lockid -> Prop) :
  F l = true -> l ∉ l' :: h -> Q tt (l' :: h) -> lk o k F (l' :: l :: h) (release l) Q.
Proof.
  intros Hl [Hne Hn]%not_elem_of_cons HQ. apply lk_release; [done|right; by left|].
  rewrite filter_cons_True by done. rewrite filter_cons_False by naive_solver. by rewrite filter_ne_id.
Qed.

(** Who runs. *)
Lemma lk_myproc_ {A} o k F h (f : nat -> M A) Q :
  (forall p, o = Some p -> lk o k F h (f p) Q) -> lk o k F h (bind myproc_ f) Q.
Proof.
  intros H s base Hc Hh Hb. unfold bind, myproc_, myproc, get, deref, bind. rewrite Hc.
  destruct o as [p|]; [|done]. by apply (H p).
Qed.

(** ** Switching away *)

(** [sched] is called with the caller's own lock, its state no longer [RUNNING]; it does
    not come back in this run. *)
Lemma lk_sched p s base :
  cur s = Some p -> held s = LkProc p :: base -> p_state (procat p s) <> RUNNING ->
  match sched s with
  | Ok _ _ => False
  | Panic m => lock_msg m = false /\ (m = "sched locks" -> base <> [])
  | Sleep _ s' => switched s'
  | Diverge => True
  end.
Proof.
  intros Hc Hh Hst. unfold sched. rewrite (bind_ok _ _ s p s) by (unfold myproc_, myproc, bind, get; by rewrite Hc).
  unfold bind, get, getp, holding. rewrite bool_decide_eq_true_2 by (rewrite Hh; by left). cbn [negb].
  destruct base as [|l base]; rewrite Hh; cbn; [|done].
  rewrite bool_decide_eq_false_2 by done. exists p. by rewrite Hh.
Qed.

Lemma set_state_parked p st s :
  st <> RUNNING -> p_state (procat p (set_procs (alter (set_p_state st) p (procs s)) s)) <> RUNNING.
Proof.
  intros Hst. unfold procat. cbn. destruct (Nat.lt_ge_cases p (length (procs s))).
  - by rewrite list_lookup_total_alter_eq.
  - by rewrite list_lookup_total_alt, lookup_ge_None_2 by (rewrite length_alter; lia).
Qed.

Lemma lk_switch {A} p F st (f : unit -> M A) Q :
  st <> RUNNING -> lk (Some p) Sleeps F [LkProc p] (updp p (set_p_state st) ;;; let! x := sched in f x) Q.
Proof.
  intros Hst s base Hc Hh Hb. unfold bind, updp, upd.
  pose proof (lk_sched p (set_procs (alter (set_p_state st) p (procs s)) s) base) as H.
  specialize (H Hc Hh (set_state_parked p st s Hst)). destruct (sched _); done.
Qed.

(** The end of [exit]. *)
Lemma lk_switch_exit p F l (f : unit -> M unit) Q :
  F l = true -> l <> LkProc p ->
  lk (Some p) Sleeps F [LkProc p; l] (updp p (set_p_state ZOMBIE) ;;; release l ;;; let! x := sched in f x) Q.
Proof.
  intros Hl Hn s base Hc Hh Hb. unfold bind at 1, updp, upd. set (s1 := set_procs _ s).
  assert (Hr : lk (Some p) Sleeps F [LkProc p; l] (release l) (fun _ h => h = [LkProc p])).
  { apply lk_release2; [done| |done]. rewrite not_elem_of_cons. split; [done|apply not_elem_of_nil]. }
  specialize (Hr s1 base Hc Hh Hb). unfold bind at 1. unfold release in *.
  destruct (holding l s1); [|done]. destruct Hr as (_ & h & Hh1 & ->).
  set (s2 := set_held _ s1) in *. pose proof (lk_sched p s2 base Hc Hh1) as H.
  unfold bind. lapply H; [|by apply set_state_parked]. by destruct (sched s2).
Qed.

(** ** Proving it of a function *)

Section Steps.
Context {A : Type} (o : option nat) (k : mode) (F : lockid -> bool) (Q : A -> list lockid -> Prop).
Implicit Types (l : lockid) (h : list lockid) (f : unit -> M A).

Lemma lk_acquire_then l h f :
  F l = true -> l ∉ h -> lk o k F (l :: h) (f tt) Q -> lk o k F h (bind (acquire l) f) Q.
Proof. intros Hl Hn H. eapply (lk_bind _ _ _ _ _ _ (fun _ h' => h' = l :: h)); [by apply lk_acquire|]. by intros [] ? ->. Qed.
Lemma lk_release1_then l h f :
  F l = true -> l ∉ h -> lk o k F h (f tt) Q -> lk o k F (l :: h) (bind (release l) f) Q.
Proof. intros Hl Hn H. eapply (lk_bind _ _ _ _ _ _ (fun _ h' => h' = h)); [by apply lk_release1|]. by intros [] ? ->. Qed.
Lemma lk_release2_then l l' h f :
  F l = true -> l ∉ l' :: h -> lk o k F (l' :: h) (f tt) Q ->
  lk o k F (l' :: l :: h) (bind (release l) f) Q.
Proof.
  intros Hl Hn H. eapply (lk_bind _ _ _ _ _ _ (fun _ h' => h' = l' :: h)); [by apply lk_release2|]. by intros [] ? ->.
Qed.
End Steps.

Lemma lk_updp o k F h i g (Q : unit -> list lockid -> Prop) : Q tt h -> lk o k F h (updp i g) Q.
Proof. by apply lk_upd. Qed.
(** [sleep] is called with the one lock it gives up; it does not come back in this run. *)
Lemma lk_sleep o k F c l (Q : unit -> list lockid -> Prop) :
  (forall i, F (LkProc i) = true) -> F l = true -> (forall i, l <> LkProc i) -> k <> NoSleep ->
  lk o k F [l] (sleep c l) Q.
Proof.
  intros HP HF Hl Hk.
  assert (H : lk o Sleeps F [l] (sleep c l) (fun _ _ => False)).
  { unfold sleep. apply lk_myproc_. intros p ->. apply lk_acquire_then; [done| |].
    { rewrite not_elem_of_cons. split; [by intros <-; eapply Hl|apply not_elem_of_nil]. }
    apply lk_release2_then; [done| |].
    { rewrite not_elem_of_cons. split; [done|apply not_elem_of_nil]. }
    apply lk_seq; [by apply lk_updp|]. intros _. by apply lk_switch. }
  intros s base Hc Hh Hb. specialize (H s base Hc Hh Hb). destruct (sleep c l s) as [? s'|m|ch s'|]; auto.
  - by destruct H as (_ & h & _ & []).
  - destruct H as [? H]. split; [done|]. intros E. destruct k; [done|by apply H|done].
  - by destruct H.
Qed.
Lemma lk_sleep_then {A} o k F c l (f : unit -> M A) Q :
  (forall i, F (LkProc i) = true) -> F l = true -> (forall i, l <> LkProc i) -> k <> NoSleep ->
  lk o k F [l] (bind (sleep c l) f) Q.
Proof. intros. eapply (lk_bind _ _ _ _ _ _ (fun _ _ => False)); [by apply lk_sleep|done]. Qed.

Ltac fresh_lock :=
  rewrite ?not_elem_of_cons; repeat split; first [discriminate | apply not_elem_of_nil | done].


Ltac lock1 :=
  lazymatch goal with
  | |- Locks _ _ _ => intros ?
  | |- lk _ _ _ _ (bind myproc_ _) _ => apply lk_myproc_; intros ? ->
  | |- lk _ _ _ _ (bind (bind _ _) _) _ => apply lk_seq; [|intros ?]
  | |- lk _ _ _ _ (bind (acquire _) _) _ => apply lk_acquire_then; [reflexivity|fresh_lock|]
  | |- lk _ _ _ (?l :: _) (bind (release ?l) _) _ => apply lk_release1_then; [reflexivity|fresh_lock|]
  | |- lk _ _ _ (_ :: ?l :: _) (bind (release ?l) _) _ => apply lk_release2_then; [reflexivity|fresh_lock|]
  | |- lk _ _ _ _ (bind (sleep _ _) _) _ =>
      apply lk_sleep_then; [reflexivity|reflexivity|discriminate|discriminate]
  | |- lk _ _ _ _ (sleep _ _) _ =>
      apply lk_sleep; [reflexivity|reflexivity|discriminate|discriminate]
  | |- lk _ _ _ _ (bind _ _) _ => apply lk_seq; [|intros ?]
  | |- lk _ _ _ _ (acquire _) _ => apply lk_acquire; [reflexivity|fresh_lock|try reflexivity]
  | |- lk _ _ _ (?l :: _) (release ?l) _ => apply lk_release1; [reflexivity|fresh_lock|try reflexivity]
  | |- lk _ _ _ (_ :: ?l :: _) (release ?l) _ => apply lk_release2; [reflexivity|fresh_lock|try reflexivity]
  | |- lk _ _ _ _ (ret _) _ => apply lk_ret; try reflexivity
  | |- lk _ _ _ _ (get _) _ => apply lk_get; intros ?; try reflexivity
  | |- lk _ _ _ _ (panic _) _ => apply lk_panic; [reflexivity|discriminate]
  | |- lk _ _ _ _ diverge _ => apply lk_diverge
  | |- lk _ _ _ _ (updp _ _) _ => apply lk_updp; try reflexivity
  | |- lk _ _ _ _ (upd _) _ => apply lk_upd; [by intros ?|try reflexivity]
  | |- lk _ _ _ _ (match d_read _ with _ => _ end) _ => idtac
  | |- lk _ _ _ _ (match d_write _ with _ => _ end) _ => idtac
  | |- lk _ _ _ _ (match ?x with _ => _ end) _ => destruct x
  | |- lk _ _ _ _ (let '_ := ?x in _) _ => destruct x
  | |- lk _ _ _ _ _ (fun _ _ => _ = _) =>
      eapply lk_inst; [typeclasses eauto|reflexivity|by intros []|reflexivity]
  | |- lk _ _ _ _ _ _ =>
      eapply lk_mono; [eapply lk_inst; [typeclasses eauto|reflexivity|by intros []|reflexivity]|
                       intros ? ? ->; try reflexivity]
  end.
Ltac lock := intros; cbn zeta; repeat (progress lock1).

#[export] Hint Mode Locks + - - ! : typeclass_instances.
#[export] Hint Opaque allocproc_scan filealloc_loop filealloc kprintf : typeclass_instances.

(** ** Footprints *)

Definition fp_none (l : lockid) : bool := false.
Definition fp_proc (l : lockid) : bool :=
  match l with LkProc _ => true | _ => false end.
Definition fp_kmem (l : lockid) : bool :=
  match l with LkKmem => true | _ => false end.
Definition fp_pr (l : lockid) : bool :=
  match l with LkPr => true | _ => false end.
Definition fp_pid (l : lockid) : bool :=
  match l with LkPid => true | _ => false end.
Definition fp_itable (l : lockid) : bool :=
  match l with LkItable => true | _ => false end.
Definition fp_ftable (l : lockid) : bool :=
  match l with LkFtable => true | _ => false end.
Definition fp_ticks (l : lockid) : bool :=
  match l with LkTicks | LkProc _ => true | _ => false end.
Definition fp_dev (l : lockid) : bool :=
  match l with LkProc _ | LkKmem | LkUart | LkCons => true | _ => false end.
Definition fp_pipe (l : lockid) : bool :=
  match l with LkPipe _ | LkProc _ | LkKmem => true | _ => false end.
Definition fp_isl (l : lockid) : bool :=
  match l with LkInode _ | LkProc _ => true | _ => false end.
Definition fp_bio (l : lockid) : bool :=
  match l with LkBuf _ | LkInode _ | LkProc _ | LkBcache | LkVdisk => true | _ => false end.
Definition fp_log (l : lockid) : bool :=
  match l with LkBuf _ | LkInode _ | LkProc _ | LkBcache | LkVdisk | LkLog | LkPr => true | _ => false end.
Definition fp_fs (l : lockid) : bool :=
  match l with LkBuf _ | LkInode _ | LkProc _ | LkBcache | LkVdisk | LkLog | LkPr | LkItable | LkKmem => true | _ => false end.
Definition fp_all (l : lockid) : bool := true.

Section Locks.
Context {L : Linker}.

#[global] Instance locks_deref {A} (x : option A) : Locks NoSleep fp_none (deref x).
Proof. unfold deref. lock. Qed.
#[global] Instance locks_updf f g : Locks NoSleep fp_none (updf f g).
Proof. unfold updf. lock. Qed.
#[global] Instance locks_memset_k a b c : Locks NoSleep fp_none (memset_k a b c).
Proof. unfold memset_k. lock. Qed.
#[global] Instance locks_kfree pa : Locks NoSleep fp_kmem (kfree pa).
Proof. unfold kfree. lock. Qed.
#[global] Instance locks_kalloc : Locks NoSleep fp_kmem kalloc.
Proof. unfold kalloc. lock. Qed.

(** ** Page tables and copies *)

#[global] Instance locks_ld64 a : Locks NoSleep fp_none (ld64 a).
Proof. unfold ld64. lock. Qed.
#[global] Instance locks_st64 a v : Locks NoSleep fp_none (st64 a v).
Proof. unfold st64. lock. Qed.
#[global] Instance locks_memmove_k dst src n : Locks NoSleep fp_none (memmove_k dst src n).
Proof. unfold memmove_k. lock. Qed.
#[global] Instance locks_write_k dst bs : Locks NoSleep fp_none (write_k dst bs).
Proof. unfold write_k. lock. Qed.
#[global] Instance locks_read_k src n : Locks NoSleep fp_none (read_k src n).
Proof. unfold read_k. lock. Qed.
#[global] Instance locks_walk_loop level pagetable va alloc : Locks NoSleep fp_kmem (walk_loop level pagetable va alloc).
Proof. revert pagetable va alloc. induction level as [|level IH]; intros; cbn [walk_loop]; lock. Qed.
#[global] Instance locks_walk pagetable va alloc : Locks NoSleep fp_kmem (walk pagetable va alloc).
Proof. unfold walk. lock. Qed.
#[global] Instance locks_walkaddr pagetable va : Locks NoSleep fp_kmem (walkaddr pagetable va).
Proof. unfold walkaddr. lock. Qed.
#[global] Instance locks_mappages_loop pagetable a last pa perm fuel : Locks NoSleep fp_kmem (mappages_loop pagetable a last pa perm fuel).
Proof. revert pagetable a last pa perm. induction fuel as [|fuel IH]; intros; cbn [mappages_loop]; lock. Qed.
#[global] Instance locks_mappages pagetable va size pa perm : Locks NoSleep fp_kmem (mappages pagetable va size pa perm).
Proof. unfold mappages. lock. Qed.
#[global] Instance locks_uvmunmap_loop pagetable a aend do_free fuel : Locks NoSleep fp_kmem (uvmunmap_loop pagetable a aend do_free fuel).
Proof. revert pagetable a aend do_free. induction fuel as [|fuel IH]; intros; cbn [uvmunmap_loop]; lock. Qed.
#[global] Instance locks_uvmunmap pagetable va npages do_free : Locks NoSleep fp_kmem (uvmunmap pagetable va npages do_free).
Proof. unfold uvmunmap. lock. Qed.
#[global] Instance locks_uvmcreate  : Locks NoSleep fp_kmem (uvmcreate).
Proof. unfold uvmcreate. lock. Qed.
#[global] Instance locks_uvmdealloc pagetable oldsz newsz : Locks NoSleep fp_kmem (uvmdealloc pagetable oldsz newsz).
Proof. unfold uvmdealloc. lock. Qed.
#[global] Instance locks_uvmalloc_loop pagetable a oldsz newsz xperm fuel : Locks NoSleep fp_kmem (uvmalloc_loop pagetable a oldsz newsz xperm fuel).
Proof. revert pagetable a oldsz newsz xperm. induction fuel as [|fuel IH]; intros; cbn [uvmalloc_loop]; lock. Qed.
#[global] Instance locks_uvmalloc pagetable oldsz newsz xperm : Locks NoSleep fp_kmem (uvmalloc pagetable oldsz newsz xperm).
Proof. unfold uvmalloc. lock. Qed.
#[global] Instance locks_freewalk_entries rec pagetable i k :
  (forall x, Locks NoSleep fp_kmem (rec x)) -> Locks NoSleep fp_kmem (freewalk_entries rec pagetable i k).
Proof. intros Hrec. revert pagetable i. induction k as [|k IH]; intros; cbn [freewalk_entries]; lock. Qed.
#[global] Instance locks_freewalk depth pagetable : Locks NoSleep fp_kmem (freewalk depth pagetable).
Proof. revert pagetable. induction depth as [|depth IH]; intros; cbn [freewalk]; lock. Qed.
#[global] Instance locks_uvmfree pagetable sz : Locks NoSleep fp_kmem (uvmfree pagetable sz).
Proof. unfold uvmfree. lock. Qed.
#[global] Instance locks_uvmcopy_loop old new sz i fuel : Locks NoSleep fp_kmem (uvmcopy_loop old new sz i fuel).
Proof. revert old new sz i. induction fuel as [|fuel IH]; intros; cbn [uvmcopy_loop]; lock. Qed.
#[global] Instance locks_uvmcopy old new sz : Locks NoSleep fp_kmem (uvmcopy old new sz).
Proof. unfold uvmcopy. lock. Qed.
#[global] Instance locks_uvmclear pagetable va : Locks NoSleep fp_kmem (uvmclear pagetable va).
Proof. unfold uvmclear. lock. Qed.
#[global] Instance locks_copyout_loop pagetable dstva src fuel : Locks NoSleep fp_kmem (copyout_loop pagetable dstva src fuel).
Proof. revert pagetable dstva src. induction fuel as [|fuel IH]; intros; cbn [copyout_loop]; lock. Qed.
#[global] Instance locks_copyout pagetable dstva src : Locks NoSleep fp_kmem (copyout pagetable dstva src).
Proof. unfold copyout. lock. Qed.
#[global] Instance locks_copyin_loop pagetable dst srcva len fuel : Locks NoSleep fp_kmem (copyin_loop pagetable dst srcva len fuel).
Proof. revert pagetable dst srcva len. induction fuel as [|fuel IH]; intros; cbn [copyin_loop]; lock. Qed.
#[global] Instance locks_copyin pagetable srcva len : Locks NoSleep fp_kmem (copyin pagetable srcva len).
Proof. unfold copyin. lock. Qed.
#[global] Instance locks_copyinstr_loop pagetable dst srcva max fuel : Locks NoSleep fp_kmem (copyinstr_loop pagetable dst srcva max fuel).
Proof. revert pagetable dst srcva max. induction fuel as [|fuel IH]; intros; cbn [copyinstr_loop]; lock. Qed.
#[global] Instance locks_copyinstr pagetable srcva max : Locks NoSleep fp_kmem (copyinstr pagetable srcva max).
Proof. unfold copyinstr. lock. Qed.

(** ** Processes *)

#[global] Instance locks_getp {A} i (f : proc -> A) : Locks NoSleep fp_none (getp i f).
Proof. unfold getp. lock. Qed.
#[global] Instance locks_myproc  : Locks NoSleep fp_none (myproc).
Proof. unfold myproc. lock. Qed.
#[global] Instance locks_myproc_  : Locks NoSleep fp_none (myproc_).
Proof. unfold myproc_. lock. Qed.
#[global] Instance locks_yield : Locks Sleeps fp_proc yield.
Proof. intros o. unfold yield. do 2 lock1. by apply lk_switch. Qed.
#[global] Instance locks_wakeup_loop c i k : Locks NoSleep fp_proc (wakeup_loop c i k).
Proof. revert c i. induction k as [|k IH]; intros; cbn [wakeup_loop]; lock. Qed.
#[global] Instance locks_wakeup c : Locks NoSleep fp_proc (wakeup c).
Proof. unfold wakeup. lock. Qed.
#[global] Instance locks_kill_loop pid i k : Locks NoSleep fp_proc (kill_loop pid i k).
Proof. revert pid i. induction k as [|k IH]; intros; cbn [kill_loop]; lock. Qed.
#[global] Instance locks_kill pid : Locks NoSleep fp_proc (kill pid).
Proof. unfold kill. lock. Qed.
#[global] Instance locks_setkilled i : Locks NoSleep fp_proc (setkilled i).
Proof. unfold setkilled. lock. Qed.
#[global] Instance locks_killed i : Locks NoSleep fp_proc (killed i).
Proof. unfold killed. lock. Qed.
#[global] Instance locks_either_copyout user_dst dst src : Locks NoSleep fp_kmem (either_copyout user_dst dst src).
Proof. unfold either_copyout. lock. Qed.
#[global] Instance locks_either_copyin user_src src len : Locks NoSleep fp_kmem (either_copyin user_src src len).
Proof. unfold either_copyin. lock. Qed.

(** ** Devices *)

#[global] Instance locks_getd {A} (f : devst -> A) : Locks NoSleep fp_none (getd f).
Proof. unfold getd. lock. Qed.
#[global] Instance locks_updd f : Locks NoSleep fp_none (updd f).
Proof. unfold updd. lock. Qed.
#[global] Instance locks_mmio_read a : Locks NoSleep fp_none (mmio_read a).
Proof. unfold mmio_read. lock. Qed.
#[global] Instance locks_mmio_write a v : Locks NoSleep fp_none (mmio_write a v).
Proof. unfold mmio_write. lock. Qed.
#[global] Instance locks_ReadReg reg : Locks NoSleep fp_none (ReadReg reg).
Proof. unfold ReadReg. lock. Qed.
#[global] Instance locks_WriteReg reg v : Locks NoSleep fp_none (WriteReg reg v).
Proof. unfold WriteReg. lock. Qed.
#[global] Instance locks_uartstart_loop fuel : Locks NoSleep fp_proc (uartstart_loop fuel).
Proof. induction fuel as [|fuel IH]; intros; cbn [uartstart_loop]; lock. Qed.
#[global] Instance locks_uartstart  : Locks NoSleep fp_proc (uartstart).
Proof. unfold uartstart. lock. Qed.
#[global] Instance locks_uartputc c : Locks Sleeps fp_dev (uartputc c).
Proof. unfold uartputc, uartputc_wait. lock. Qed.
#[global] Instance locks_tx_spin fuel : Locks NoSleep fp_none (tx_spin fuel).
Proof. induction fuel as [|fuel IH]; intros; cbn [tx_spin]; lock. Qed.
#[global] Instance locks_uartputc_sync c : Locks NoSleep fp_none (uartputc_sync c).
Proof. unfold uartputc_sync. lock. Qed.
#[global] Instance locks_consputc c : Locks NoSleep fp_none (consputc c).
Proof. unfold consputc. lock. Qed.
#[global] Instance locks_consputs l : Locks NoSleep fp_none (consputs l).
Proof. induction l as [|x l IH]; intros; cbn [consputs]; lock. Qed.
#[global] Instance locks_kprintf fmt args : Locks NoSleep fp_pr (kprintf fmt args).
Proof. unfold kprintf. lock. Qed.
#[global] Instance locks_consolewrite_loop user_src src n i fuel : Locks Sleeps fp_dev (consolewrite_loop user_src src n i fuel).
Proof. revert user_src src n i. induction fuel as [|fuel IH]; intros; cbn [consolewrite_loop]; lock. Qed.
#[global] Instance locks_consolewrite user_src src n : Locks Sleeps fp_dev (consolewrite user_src src n).
Proof. unfold consolewrite. lock. Qed.
Lemma lk_consoleread_loop o user_dst dst n target fuel :
  lk o Sleeps fp_dev [LkCons] (consoleread_loop user_dst dst n target fuel) (fun _ h => h = []).
Proof.
  revert dst n. induction fuel as [|fuel IH]; intros; cbn [consoleread_loop]; [lock|]. cbn zeta.
  destruct (0 <? n); [|lock]. apply lk_seq; [lock|intros e].
  eapply (lk_bind _ _ _ _ _ _ (fun stop h => h = if stop : bool then [] else [LkCons])).
  - destruct e; lock.
  - intros [] h ->; [lock|]. do 2 (apply lk_seq; [lock|intros ?]). destruct (_ =? _); [lock|].
    apply lk_seq; [lock|intros r]. destruct (r =? -1); [lock|]. destruct (_ =? 10); [lock|]. apply IH.
Qed.
#[global] Instance locks_consoleread user_dst dst n : Locks Sleeps fp_dev (consoleread user_dst dst n).
Proof. intros o. unfold consoleread. lock1. apply lk_consoleread_loop. Qed.

(** ** Pipes *)

#[global] Instance locks_getpi {A} pi (f : pipe -> A) : Locks NoSleep fp_none (getpi pi f).
Proof. unfold getpi. lock. Qed.
#[global] Instance locks_updpi pi f : Locks NoSleep fp_none (updpi pi f).
Proof. unfold updpi. lock. Qed.
#[global] Instance locks_pipe_new pi : Locks NoSleep fp_none (pipe_new pi).
Proof. unfold pipe_new. lock. Qed.
#[global] Instance locks_pipeclose pi writable : Locks NoSleep fp_pipe (pipeclose pi writable).
Proof. unfold pipeclose. lock. Qed.
Lemma lk_pipewrite_loop o pi pr addr n i fuel :
  lk o Sleeps fp_pipe [LkPipe pi] (pipewrite_loop pi pr addr n i fuel)
    (fun r h => h = match r with None => [] | Some _ => [LkPipe pi] end).
Proof.
  revert i. induction fuel as [|fuel IH]; intros; cbn [pipewrite_loop]; [lock|].
  destruct (i <? n); [|lock]. apply lk_seq; [lock|intros ro]. apply lk_seq; [lock|intros stop].
  destruct stop; [lock|]. apply lk_seq; [lock|intros full]. destruct full.
  - apply lk_seq; [lock|intros _]. apply lk_seq; [lock|intros _]. apply IH.
  - apply lk_seq; [lock|intros pt]. apply lk_seq; [lock|intros [r bs]]. destruct (r =? -1); [lock|].
    apply lk_seq; [lock|intros _]. apply IH.
Qed.
#[global] Instance locks_pipewrite pi addr n : Locks Sleeps fp_pipe (pipewrite pi addr n).
Proof.
  intros o. unfold pipewrite. do 2 lock1. eapply lk_bind; [apply lk_pipewrite_loop|]. intros [i|] h ->; lock.
Qed.
Lemma lk_piperead_wait o pi pr :
  lk o Sleeps fp_pipe [LkPipe pi] (piperead_wait pi pr) (fun k h => h = if k : bool then [] else [LkPipe pi]).
Proof. unfold piperead_wait. lock. Qed.
#[global] Instance locks_piperead_loop pi pr addr n i fuel : Locks NoSleep fp_kmem (piperead_loop pi pr addr n i fuel).
Proof. revert pi pr addr n i. induction fuel as [|fuel IH]; intros; cbn [piperead_loop]; lock. Qed.
#[global] Instance locks_piperead pi addr n : Locks Sleeps fp_pipe (piperead pi addr n).
Proof.
  intros o. unfold piperead. do 2 lock1. eapply lk_bind; [apply lk_piperead_wait|]. intros [] h ->; lock.
Qed.

(** ** Sleep locks and buffers *)

#[global] Instance locks_acquiresleep_buf i : Locks Sleeps fp_bio (acquiresleep (buf_sl i)).
Proof. unfold acquiresleep. cbn [buf_sl sl_lk]. lock. Qed.
#[global] Instance locks_releasesleep_buf i : Locks NoSleep fp_bio (releasesleep (buf_sl i)).
Proof. unfold releasesleep. cbn [buf_sl sl_lk]. lock. Qed.
#[global] Instance locks_holdingsleep_buf i : Locks NoSleep fp_bio (holdingsleep (buf_sl i)).
Proof. unfold holdingsleep. cbn [buf_sl sl_lk]. lock. Qed.
#[global] Instance locks_acquiresleep_inode i : Locks Sleeps fp_isl (acquiresleep (inode_sl i)).
Proof. unfold acquiresleep. cbn [inode_sl sl_lk]. lock. Qed.
#[global] Instance locks_releasesleep_inode i : Locks NoSleep fp_isl (releasesleep (inode_sl i)).
Proof. unfold releasesleep. cbn [inode_sl sl_lk]. lock. Qed.
#[global] Instance locks_holdingsleep_inode i : Locks NoSleep fp_isl (holdingsleep (inode_sl i)).
Proof. unfold holdingsleep. cbn [inode_sl sl_lk]. lock. Qed.
#[global] Instance locks_getb {A} i (f : buf -> A) : Locks NoSleep fp_none (getb i f).
Proof. unfold getb. lock. Qed.
#[global] Instance locks_updb i f : Locks NoSleep fp_none (updb i f).
Proof. unfold updb. lock. Qed.
(** The wait for the disk: [sched] refuses it while another lock is held. *)
Lemma lk_vdisk_wait o : lk o Sleeps fp_bio [LkVdisk] vdisk_wait (fun _ h => h = [LkVdisk]).
Proof.
  unfold vdisk_wait. lock1. lock1. lock1. intros s base Hc Hh Hb.
  unfold bind at 1, get. rewrite Hh. destruct base as [|l base]; [|done].
  assert (H : lk (Some p) Sleeps fp_bio [LkProc p] (release (LkProc p) ;;; acquire LkVdisk) (fun _ h => h = [LkVdisk]))
    by lock.
  exact (H s [] Hc Hh Hb).
Qed.
#[global] Instance locks_virtio_disk_rw i write : Locks Sleeps fp_bio (virtio_disk_rw i write).
Proof.
  intros o. unfold virtio_disk_rw. lock1; [lock|]. lock1. eapply lk_bind; [apply lk_vdisk_wait|].
  intros [] h ->. lock.
Qed.
#[global] Instance locks_bget_find dev blockno b fuel : Locks NoSleep fp_none (bget_find dev blockno b fuel).
Proof. revert dev blockno b. induction fuel as [|fuel IH]; intros; cbn [bget_find]; lock. Qed.
#[global] Instance locks_bget_unused b fuel : Locks NoSleep fp_none (bget_unused b fuel).
Proof. revert b. induction fuel as [|fuel IH]; intros; cbn [bget_unused]; lock. Qed.
#[global] Instance locks_bget dev blockno : Locks Sleeps fp_bio (bget dev blockno).
Proof. unfold bget. lock. Qed.
#[global] Instance locks_bread dev blockno : Locks Sleeps fp_bio (bread dev blockno).
Proof. unfold bread. lock. Qed.
#[global] Instance locks_bwrite b : Locks Sleeps fp_bio (bwrite b).
Proof. unfold bwrite. lock. Qed.
#[global] Instance locks_to_front b : Locks NoSleep fp_none (to_front b).
Proof. unfold to_front. lock. Qed.
#[global] Instance locks_brelse b : Locks NoSleep fp_bio (brelse b).
Proof. unfold brelse. lock. Qed.
#[global] Instance locks_bpin b : Locks NoSleep fp_bio (bpin b).
Proof. unfold bpin. lock. Qed.
#[global] Instance locks_bunpin b : Locks NoSleep fp_bio (bunpin b).
Proof. unfold bunpin. lock. Qed.

(** ** The log *)

#[global] Instance locks_getl {A} (f : logstate -> A) : Locks NoSleep fp_none (getl f).
Proof. unfold getl. lock. Qed.
#[global] Instance locks_updl f : Locks NoSleep fp_none (updl f).
Proof. unfold updl. lock. Qed.
#[global] Instance locks_install_trans_loop recovering tail k : Locks Sleeps fp_bio (install_trans_loop recovering tail k).
Proof. revert recovering tail. induction k as [|k IH]; intros; cbn [install_trans_loop]; lock. Qed.
#[global] Instance locks_install_trans recovering : Locks Sleeps fp_bio (install_trans recovering).
Proof. unfold install_trans. lock. Qed.
#[global] Instance locks_write_head  : Locks Sleeps fp_bio (write_head).
Proof. unfold write_head. lock. Qed.
#[global] Instance locks_begin_op  : Locks Sleeps fp_log (begin_op).
Proof. unfold begin_op. lock. Qed.
#[global] Instance locks_write_log_loop tail k : Locks Sleeps fp_bio (write_log_loop tail k).
Proof. revert tail. induction k as [|k IH]; intros; cbn [write_log_loop]; lock. Qed.
#[global] Instance locks_write_log  : Locks Sleeps fp_bio (write_log).
Proof. unfold write_log. lock. Qed.
#[global] Instance locks_commit  : Locks Sleeps fp_bio (commit).
Proof. unfold commit. lock. Qed.
#[global] Instance locks_end_op  : Locks Sleeps fp_log (end_op).
Proof. unfold end_op. lock. Qed.
#[global] Instance locks_log_write b : Locks NoSleep fp_log (log_write b).
Proof. unfold log_write. lock. Qed.

(** ** The file system *)

#[global] Instance locks_printf msg : Locks NoSleep fp_pr (printf msg).
Proof. unfold printf. lock. Qed.
#[global] Instance locks_bzero dev bno : Locks Sleeps fp_log (bzero dev bno).
Proof. unfold bzero. lock. Qed.
#[global] Instance locks_balloc_loop dev b fuel : Locks Sleeps fp_fs (balloc_loop dev b fuel).
Proof. revert dev b. induction fuel as [|fuel IH]; intros; cbn [balloc_loop]; lock. Qed.
#[global] Instance locks_balloc dev : Locks Sleeps fp_fs (balloc dev).
Proof. unfold balloc. lock. Qed.
#[global] Instance locks_bfree dev b : Locks Sleeps fp_log (bfree dev b).
Proof. unfold bfree. lock. Qed.
#[global] Instance locks_geti {A} i (f : inode -> A) : Locks NoSleep fp_none (geti i f).
Proof. unfold geti. lock. Qed.
#[global] Instance locks_updi i f : Locks NoSleep fp_none (updi i f).
Proof. unfold updi. lock. Qed.
#[global] Instance locks_iget dev inum : Locks NoSleep fp_itable (iget dev inum).
Proof. unfold iget. lock. Qed.
#[global] Instance locks_ialloc_loop dev type inum fuel : Locks Sleeps fp_fs (ialloc_loop dev type inum fuel).
Proof. revert dev type inum. induction fuel as [|fuel IH]; intros; cbn [ialloc_loop]; lock. Qed.
#[global] Instance locks_ialloc dev type : Locks Sleeps fp_fs (ialloc dev type).
Proof. unfold ialloc. lock. Qed.
#[global] Instance locks_iupdate i : Locks Sleeps fp_fs (iupdate i).
Proof. unfold iupdate. lock. Qed.
#[global] Instance locks_idup i : Locks NoSleep fp_itable (idup i).
Proof. unfold idup. lock. Qed.
#[global] Instance locks_ilock i : Locks Sleeps fp_fs (ilock i).
Proof. unfold ilock. lock. Qed.
#[global] Instance locks_iunlock i : Locks NoSleep fp_bio (iunlock i).
Proof. unfold iunlock. lock. Qed.
#[global] Instance locks_bmap_direct i k : Locks Sleeps fp_fs (bmap_direct i k).
Proof. unfold bmap_direct. lock. Qed.
#[global] Instance locks_bmap i bn : Locks Sleeps fp_fs (bmap i bn).
Proof. unfold bmap. lock. Qed.
#[global] Instance locks_itrunc_direct i k n : Locks Sleeps fp_fs (itrunc_direct i k n).
Proof. revert i k. induction n as [|n IH]; intros; cbn [itrunc_direct]; lock. Qed.
#[global] Instance locks_itrunc_indirect dev bp j n : Locks Sleeps fp_fs (itrunc_indirect dev bp j n).
Proof. revert dev bp j. induction n as [|n IH]; intros; cbn [itrunc_indirect]; lock. Qed.
#[global] Instance locks_itrunc i : Locks Sleeps fp_fs (itrunc i).
Proof. unfold itrunc. lock. Qed.
#[global] Instance locks_iput i : Locks Unchecked fp_fs (iput i).
Proof. unfold iput. lock. Qed.
#[global] Instance locks_iunlockput i : Locks Unchecked fp_fs (iunlockput i).
Proof. unfold iunlockput. lock. Qed.
#[global] Instance locks_stati i : Locks NoSleep fp_none (stati i).
Proof. unfold stati. lock. Qed.
#[global] Instance locks_copy_to dst bs : Locks NoSleep fp_kmem (copy_to dst bs).
Proof. unfold copy_to. lock. Qed.
#[global] Instance locks_readi_loop i dst off tot n out fuel : Locks Sleeps fp_fs (readi_loop i dst off tot n out fuel).
Proof. revert i dst off tot n out. induction fuel as [|fuel IH]; intros; cbn [readi_loop]; lock. Qed.
#[global] Instance locks_readi i dst off n : Locks Sleeps fp_fs (readi i dst off n).
Proof. unfold readi. lock. Qed.
#[global] Instance locks_copy_from src len : Locks NoSleep fp_kmem (copy_from src len).
Proof. unfold copy_from. lock. Qed.
#[global] Instance locks_writei_loop i src off tot n fuel : Locks Sleeps fp_fs (writei_loop i src off tot n fuel).
Proof. revert i src off tot n. induction fuel as [|fuel IH]; intros; cbn [writei_loop]; lock. Qed.
#[global] Instance locks_writei i src off n : Locks Sleeps fp_fs (writei i src off n).
Proof. unfold writei. lock. Qed.
#[global] Instance locks_dirlookup_loop dp name off fuel : Locks Sleeps fp_fs (dirlookup_loop dp name off fuel).
Proof. revert dp name off. induction fuel as [|fuel IH]; intros; cbn [dirlookup_loop]; lock. Qed.
#[global] Instance locks_dirlookup dp name : Locks Sleeps fp_fs (dirlookup dp name).
Proof. unfold dirlookup. lock. Qed.
#[global] Instance locks_dirlink_loop dp off fuel : Locks Sleeps fp_fs (dirlink_loop dp off fuel).
Proof. revert dp off. induction fuel as [|fuel IH]; intros; cbn [dirlink_loop]; lock. Qed.
#[global] Instance locks_dirlink dp name inum : Locks Unchecked fp_fs (dirlink dp name inum).
Proof. unfold dirlink. lock. Qed.
#[global] Instance locks_namex_loop ip path nameiparent name fuel : Locks Unchecked fp_fs (namex_loop ip path nameiparent name fuel).
Proof. revert ip path nameiparent name. induction fuel as [|fuel IH]; intros; cbn [namex_loop]; lock. Qed.
#[global] Instance locks_namex path nameiparent : Locks Unchecked fp_fs (namex path nameiparent).
Proof. unfold namex. lock. Qed.
#[global] Instance locks_namei path : Locks Unchecked fp_fs (namei path).
Proof. unfold namei. lock. Qed.
#[global] Instance locks_nameiparent path : Locks Unchecked fp_fs (nameiparent path).
Proof. unfold nameiparent. lock. Qed.

(** ** Open files *)

#[global] Instance locks_getf {A} f (g : file -> A) : Locks NoSleep fp_none (getf f g).
Proof. unfold getf. lock. Qed.
#[global] Instance locks_filestat pad f addr : Locks Sleeps fp_fs (filestat pad f addr).
Proof. unfold filestat. lock. Qed.
#[global] Instance locks_move_off f r : Locks NoSleep fp_none (move_off f r).
Proof. unfold move_off. lock. Qed.
Lemma locks_devsw m a b c :
  (forall rd, d_read (devsw m) = Some rd -> Locks Sleeps fp_dev (rd a b c)) /\
  (forall wr, d_write (devsw m) = Some wr -> Locks Sleeps fp_dev (wr a b c)).
Proof. unfold devsw. destruct (_ =? _); cbn; split; try done; intros ? [= <-]; apply _. Qed.
#[global] Instance locks_fileread f addr n : Locks Sleeps fp_all (fileread f addr n).
Proof.
  unfold fileread. lock. destruct (d_read _) as [rd|] eqn:E; [|lock].
  pose proof (proj1 (locks_devsw (f_major a) true addr n) rd E). lock.
Qed.
#[global] Instance locks_filewrite_loop f addr n i fuel : Locks Sleeps fp_all (filewrite_loop f addr n i fuel).
Proof. revert f addr n i. induction fuel as [|fuel IH]; intros; cbn [filewrite_loop]; lock. Qed.
#[global] Instance locks_filewrite f addr n : Locks Sleeps fp_all (filewrite f addr n).
Proof.
  unfold filewrite. lock. destruct (d_write _) as [wr|] eqn:E; [|lock].
  pose proof (proj2 (locks_devsw (f_major a) true addr n) wr E). lock.
Qed.

(** ** Process memory *)

#[global] Instance locks_tf_get p off : Locks NoSleep fp_none (tf_get p off).
Proof. unfold tf_get. lock. Qed.
#[global] Instance locks_tf_set p off v : Locks NoSleep fp_none (tf_set p off v).
Proof. unfold tf_set. lock. Qed.
#[global] Instance locks_allocpid  : Locks NoSleep fp_pid (allocpid).
Proof. unfold allocpid. lock. Qed.
#[global] Instance locks_proc_pagetable p : Locks NoSleep fp_kmem (proc_pagetable p).
Proof. unfold proc_pagetable. lock. Qed.
#[global] Instance locks_proc_freepagetable pagetable sz : Locks NoSleep fp_kmem (proc_freepagetable pagetable sz).
Proof. unfold proc_freepagetable. lock. Qed.
#[global] Instance locks_growproc n : Locks NoSleep fp_kmem (growproc n).
Proof. unfold growproc. lock. Qed.
#[global] Instance locks_reparent_loop p i k : Locks NoSleep fp_proc (reparent_loop p i k).
Proof. revert p i. induction k as [|k IH]; intros; cbn [reparent_loop]; lock. Qed.
#[global] Instance locks_reparent p : Locks NoSleep fp_proc (reparent p).
Proof. unfold reparent. lock. Qed.

(** ** System calls *)

#[global] Instance locks_fetchaddr addr : Locks NoSleep fp_kmem (fetchaddr addr).
Proof. unfold fetchaddr. lock. Qed.
#[global] Instance locks_fetchstr addr max : Locks NoSleep fp_kmem (fetchstr addr max).
Proof. unfold fetchstr. lock. Qed.
#[global] Instance locks_argraw n : Locks NoSleep fp_none (argraw n).
Proof. unfold argraw. lock. Qed.
#[global] Instance locks_argint n : Locks NoSleep fp_none (argint n).
Proof. unfold argint. lock. Qed.
#[global] Instance locks_argaddr n : Locks NoSleep fp_none (argaddr n).
Proof. unfold argaddr. lock. Qed.
#[global] Instance locks_argstr n max : Locks NoSleep fp_kmem (argstr n max).
Proof. unfold argstr. lock. Qed.
#[global] Instance locks_argfd n : Locks NoSleep fp_none (argfd n).
Proof. unfold argfd. lock. Qed.
#[global] Instance locks_loadseg_loop pagetable va ip offset sz i fuel : Locks Sleeps fp_fs (loadseg_loop pagetable va ip offset sz i fuel).
Proof. revert pagetable va ip offset sz i. induction fuel as [|fuel IH]; intros; cbn [loadseg_loop]; lock. Qed.
#[global] Instance locks_loadseg pagetable va ip offset sz : Locks Sleeps fp_fs (loadseg pagetable va ip offset sz).
Proof. unfold loadseg. lock. Qed.
#[global] Instance locks_load_segments pagetable ip off sz k : Locks Sleeps fp_fs (load_segments pagetable ip off sz k).
Proof. revert pagetable ip off sz. induction k as [|k IH]; intros; cbn [load_segments]; lock. Qed.
#[global] Instance locks_kstr a : Locks NoSleep fp_none (kstr a).
Proof. unfold kstr. lock. Qed.
#[global] Instance locks_push_args pagetable stackbase argv sp argc ustack : Locks NoSleep fp_kmem (push_args pagetable stackbase argv sp argc ustack).
Proof. revert sp argc ustack. induction argv as [|a argv IH]; intros; cbn [push_args]; lock. Qed.
#[global] Instance locks_exec_bad pagetable sz ip : Locks Unchecked fp_fs (exec_bad pagetable sz ip).
Proof. unfold exec_bad. lock. Qed.
#[global] Instance locks_exec_image p path argv entry pagetable sz : Locks Unchecked fp_fs (exec_image p path argv entry pagetable sz).
Proof. unfold exec_image. lock. Qed.
#[global] Instance locks_exec path argv : Locks Unchecked fp_fs (exec path argv).
Proof. unfold exec. lock. Qed.
#[global] Instance locks_sys_getpid  : Locks NoSleep fp_none (sys_getpid).
Proof. unfold sys_getpid. lock. Qed.
#[global] Instance locks_sys_sbrk  : Locks NoSleep fp_kmem (sys_sbrk).
Proof. unfold sys_sbrk. lock. Qed.
#[global] Instance locks_sys_sleep : Locks Sleeps fp_ticks sys_sleep.
Proof. unfold sys_sleep, sys_sleep_from. lock. Qed.
#[global] Instance locks_sys_kill  : Locks NoSleep fp_proc (sys_kill).
Proof. unfold sys_kill. lock. Qed.
#[global] Instance locks_sys_uptime  : Locks NoSleep fp_ticks (sys_uptime).
Proof. unfold sys_uptime. lock. Qed.
#[global] Instance locks_sys_read  : Locks Sleeps fp_all (sys_read).
Proof. unfold sys_read. lock. Qed.
#[global] Instance locks_sys_write  : Locks Sleeps fp_all (sys_write).
Proof. unfold sys_write. lock. Qed.
#[global] Instance locks_sys_fstat pad : Locks Sleeps fp_all (sys_fstat pad).
Proof. unfold sys_fstat. lock. Qed.
#[global] Instance locks_add_nlink i d : Locks Sleeps fp_fs (add_nlink i d).
Proof. unfold add_nlink. lock. Qed.
#[global] Instance locks_link_bad ip : Locks Unchecked fp_fs (link_bad ip).
Proof. unfold link_bad. lock. Qed.
#[global] Instance locks_sys_link  : Locks Unchecked fp_all (sys_link).
Proof. unfold sys_link. lock. Qed.
#[global] Instance locks_isdirempty_loop dp off fuel : Locks Sleeps fp_fs (isdirempty_loop dp off fuel).
Proof. revert dp off. induction fuel as [|fuel IH]; intros; cbn [isdirempty_loop]; lock. Qed.
#[global] Instance locks_isdirempty dp : Locks Sleeps fp_fs (isdirempty dp).
Proof. unfold isdirempty. lock. Qed.
#[global] Instance locks_unlink_bad dp : Locks Unchecked fp_fs (unlink_bad dp).
Proof. unfold unlink_bad. lock. Qed.
#[global] Instance locks_unlink_entry dp ip off : Locks Unchecked fp_fs (unlink_entry dp ip off).
Proof. unfold unlink_entry. lock. Qed.
#[global] Instance locks_sys_unlink  : Locks Unchecked fp_all (sys_unlink).
Proof. unfold sys_unlink. lock. Qed.
#[global] Instance locks_create_fail dp ip : Locks Unchecked fp_fs (create_fail dp ip).
Proof. unfold create_fail. lock. Qed.
#[global] Instance locks_create_new dp ip name type major minor : Locks Unchecked fp_fs (create_new dp ip name type major minor).
Proof. unfold create_new. lock. Qed.
#[global] Instance locks_create path type major minor : Locks Unchecked fp_fs (create path type major minor).
Proof. unfold create. lock. Qed.
#[global] Instance locks_sys_mkdir  : Locks Unchecked fp_all (sys_mkdir).
Proof. unfold sys_mkdir. lock. Qed.
#[global] Instance locks_sys_mknod  : Locks Unchecked fp_all (sys_mknod).
Proof. unfold sys_mknod. lock. Qed.
#[global] Instance locks_sys_chdir  : Locks Unchecked fp_all (sys_chdir).
Proof. unfold sys_chdir. lock. Qed.
#[global] Instance locks_exec_args uargv i argv k : Locks NoSleep fp_kmem (exec_args uargv i argv k).
Proof. revert uargv i argv. induction k as [|k IH]; intros; cbn [exec_args]; lock. Qed.
#[global] Instance locks_kfree_all l : Locks NoSleep fp_kmem (kfree_all l).
Proof. induction l as [|x l IH]; intros; cbn [kfree_all]; lock. Qed.
#[global] Instance locks_sys_exec  : Locks Unchecked fp_all (sys_exec).
Proof. unfold sys_exec. lock. Qed.
(** ** The file table *)

Lemma lk_filealloc_loop o f k : lk o NoSleep fp_ftable [LkFtable] (filealloc_loop f k) (fun _ h => h = []).
Proof. revert f. induction k as [|k IH]; intros; cbn [filealloc_loop]; [lock|]. lock1; [lock|]. lock1; [lock|]. apply IH. Qed.
#[global] Instance locks_filealloc : Locks NoSleep fp_ftable filealloc.
Proof. intros o. unfold filealloc. lock1. apply lk_filealloc_loop. Qed.
#[global] Instance locks_filedup f : Locks NoSleep fp_ftable (filedup f).
Proof. unfold filedup. lock. Qed.
#[global] Instance locks_fileclose f : Locks Unchecked fp_all (fileclose f).
Proof. unfold fileclose. lock. Qed.
#[global] Instance locks_close_opt f : Locks Unchecked fp_all (close_opt f).
Proof. unfold close_opt. lock. Qed.
#[global] Instance locks_pipealloc : Locks Unchecked fp_all pipealloc.
Proof. unfold pipealloc. lock. Qed.
#[global] Instance locks_set_ofile p fd f : Locks NoSleep fp_none (set_ofile p fd f).
Proof. unfold set_ofile. lock. Qed.
#[global] Instance locks_fdalloc_loop p f fd k : Locks NoSleep fp_none (fdalloc_loop p f fd k).
Proof. revert fd. induction k as [|k IH]; intros; cbn [fdalloc_loop]; lock. Qed.
#[global] Instance locks_fdalloc f : Locks NoSleep fp_none (fdalloc f).
Proof. unfold fdalloc. lock. Qed.
#[global] Instance locks_sys_dup : Locks NoSleep fp_ftable sys_dup.
Proof. unfold sys_dup. lock. Qed.
#[global] Instance locks_sys_close : Locks Unchecked fp_all sys_close.
Proof. unfold sys_close. lock. Qed.
#[global] Instance locks_open_inode ip omode : Locks Unchecked fp_all (open_inode ip omode).
Proof. unfold open_inode. lock. Qed.
#[global] Instance locks_sys_open : Locks Unchecked fp_all sys_open.
Proof. unfold sys_open. lock. Qed.
#[global] Instance locks_sys_pipe : Locks Unchecked fp_all sys_pipe.
Proof. unfold sys_pipe. lock. Qed.

(** ** Creation and end of processes *)

#[global] Instance locks_freeproc p : Locks NoSleep fp_kmem (freeproc p).
Proof. unfold freeproc. lock. Qed.

(** A free slot is returned with its lock held. *)
Definition slot_held (r : option nat) : list lockid := match r with Some p => [LkProc p] | None => [] end.
Definition fp_alloc (l : lockid) : bool := match l with LkProc _ | LkPid | LkKmem => true | _ => false end.

Lemma lk_allocproc_scan o i k : lk o NoSleep fp_alloc [] (allocproc_scan i k) (fun r h => h = slot_held r).
Proof.
  revert i. induction k as [|k IH]; intros; cbn [allocproc_scan]; [lock|]. do 2 lock1; [lock|].
  lock1; [lock|]. lock1. apply IH.
Qed.
Lemma lk_allocproc o : lk o NoSleep fp_alloc [] allocproc (fun r h => h = slot_held r).
Proof.
  unfold allocproc. eapply lk_bind; [apply lk_allocproc_scan|]. intros [p|] h ->; cbn [slot_held]; lock.
Qed.
#[global] Instance locks_fork_files p np i k : Locks NoSleep fp_ftable (fork_files p np i k).
Proof. revert i. induction k as [|k IH]; intros; cbn [fork_files]; lock. Qed.
#[global] Instance locks_fork : Locks NoSleep fp_all fork.
Proof.
  intros o. unfold fork. lock1. eapply lk_bind.
  - apply (lk_frame _ NoSleep NoSleep fp_alloc fp_all [] []); [apply lk_allocproc|done|done|done].
  - intros [np|] h (h1 & -> & ->); cbn [slot_held app]; lock.
Qed.
#[global] Instance locks_exit_files p fd k : Locks Unchecked fp_all (exit_files p fd k).
Proof. revert fd. induction k as [|k IH]; intros; cbn [exit_files]; lock. Qed.
Lemma lk_weaken {A} o h (c : M A) Q : lk o Sleeps fp_all h c Q -> lk o Unchecked fp_all h c Q.
Proof.
  intros H. rewrite <- (app_nil_r h). eapply lk_mono; [by apply (lk_frame _ Sleeps Unchecked fp_all)|].
  intros a h' (h1 & -> & ?). by rewrite app_nil_r.
Qed.
#[global] Instance locks_exit status : Locks Unchecked fp_all (exit status).
Proof.
  intros o. unfold exit. lock1. lock1; [lock|]. lock1; [lock|].
  do 7 (lock1; [lock|]). lock1. do 3 (lock1; [lock|]). lock1. lock1; [lock|].
  by apply lk_weaken, lk_switch_exit.
Qed.

Definition fp_wait (l : lockid) : bool := match l with LkProc _ | LkWait | LkKmem => true | _ => false end.

Lemma lk_wait_scan o p addr havekids i k :
  lk o Sleeps fp_wait [LkWait] (wait_scan p addr havekids i k)
    (fun r h => h = match r with inl _ => [] | inr _ => [LkWait] end).
Proof.
  revert havekids i. induction k as [|k IH]; intros; cbn [wait_scan]; [lock|]. lock1; [lock|].
  lock1; [|apply IH]. do 2 lock1; [lock|]. lock1; [lock|]. lock1. apply IH.
Qed.
#[global] Instance locks_wait addr : Locks Sleeps fp_wait (wait addr).
Proof.
  intros o. unfold wait. do 2 lock1. eapply lk_bind; [apply lk_wait_scan|]. intros [z|b] h ->; lock.
Qed.

(** ** The dispatcher *)

#[global] Instance locks_sys_exit : Locks Unchecked fp_all sys_exit.
Proof. unfold sys_exit. lock. Qed.
#[global] Instance locks_sys_fork : Locks NoSleep fp_all sys_fork.
Proof. unfold sys_fork. lock. Qed.
#[global] Instance locks_sys_wait : Locks Sleeps fp_wait sys_wait.
Proof. unfold sys_wait. lock. Qed.

(** Which system calls never wait, which may, and which go through [iput]. *)
Definition syscall_mode (num : Z) : mode :=
  match num with
  | 1 | 6 | 10 | 11 | 12 | 14 => NoSleep
  | 3 | 5 | 8 | 13 | 16 => Sleeps
  | _ => Unchecked
  end.

Lemma locks_mode {A} k' k F (c : M A) : Locks k' F c -> mode_call k' k [] = true -> Locks k fp_all c.
Proof. intros H Hk o. by apply (lk_inst o k' k F fp_all []). Qed.

Lemma locks_syscalls pad num handler :
  syscalls pad num = Some handler -> Locks (syscall_mode num) fp_all handler.
Proof.
  intros H.
  assert (Hn : num ∈ [1;2;3;4;5;6;7;8;9;10;11;12;13;14;15;16;17;18;19;20;21]).
  { destruct num as [|n|n]; [done| |done]. do 5 (destruct n as [n|n|]; try done; try set_solver). }
  repeat (apply elem_of_cons in Hn as [->|Hn]; [injection H as <-; eapply locks_mode; [typeclasses eauto|done]|]).
  by apply elem_of_nil in Hn.
Qed.

#[global] Instance locks_syscall pad : Locks Unchecked fp_all (syscall pad).
Proof.
  intros o. unfold syscall. lock1. lock1; [lock|]. cbn zeta.
  destruct (syscalls pad _) as [handler|] eqn:E; [|lock].
  pose proof (locks_mode _ Unchecked _ _ (locks_syscalls _ _ _ E) ltac:(by destruct (syscall_mode _))). lock.
Qed.

(** ** Interrupts *)

Definition fp_intr (l : lockid) : bool :=
  match l with LkCons | LkUart | LkPr | LkProc _ | LkTicks => true | _ => false end.

#[global] Instance locks_uartgetc : Locks NoSleep fp_none uartgetc.
Proof. unfold uartgetc. lock. Qed.
#[global] Instance locks_kill_line fuel : Locks NoSleep fp_none (kill_line fuel).
Proof. induction fuel as [|fuel IH]; intros; cbn [kill_line]; lock. Qed.
#[global] Instance locks_procdump_loop i k : Locks NoSleep fp_pr (procdump_loop i k).
Proof. revert i. induction k as [|k IH]; intros; cbn [procdump_loop]; lock. Qed.
#[global] Instance locks_procdump : Locks NoSleep fp_pr procdump.
Proof. unfold procdump. lock. Qed.
#[global] Instance locks_consoleintr c : Locks NoSleep fp_intr (consoleintr procdump c).
Proof. unfold consoleintr. lock. Qed.
#[global] Instance locks_uartintr_loop fuel : Locks NoSleep fp_intr (uartintr_loop (consoleintr procdump) fuel).
Proof. induction fuel as [|fuel IH]; intros; cbn [uartintr_loop]; lock. Qed.
#[global] Instance locks_uartintr : Locks NoSleep fp_intr (uartintr procdump).
Proof. unfold uartintr, uartintr_with. lock. Qed.
#[global] Instance locks_cpuid : Locks NoSleep fp_none cpuid.
Proof. unfold cpuid. lock. Qed.
#[global] Instance locks_w_csr f : Locks NoSleep fp_none (w_csr f).
Proof. unfold w_csr. lock. Qed.
#[global] Instance locks_clockintr : Locks NoSleep fp_intr clockintr.
Proof. unfold clockintr. lock. Qed.

(** ** A thread that is scheduled again *)

(** The scheduler gives the CPU back with the thread's own lock held; the rest of [sleep]
    exchanges it for the lock the caller of [sleep] had. *)
Lemma lk_sleep_resume p F l :
  (forall i, F (LkProc i) = true) -> F l = true -> l <> LkProc p ->
  lk (Some p) NoSleep F [LkProc p] (sleep_resume l) (fun _ h => h = [l]).
Proof.
  intros HP Hl Hn. unfold sleep_resume. apply lk_myproc_. intros p' [= <-].
  apply lk_seq; [by apply lk_updp|]. intros _. apply lk_release1_then; [done|apply not_elem_of_nil|].
  apply lk_acquire; [done|apply not_elem_of_nil|done].
Qed.

(** ** What it comes to *)

(** C8: a system call entered with no spinlock held, followed until it returns or first gives
    up the CPU in [sched] (in a wait for the disk only to the checks of [sched]), never takes a
    lock that it already holds and never releases one that it does not hold, whatever its
    arguments and the state of the kernel.  If it returns it holds none; if it gives up the
    CPU, it has given up every lock but its process's own.  [sched] can find another lock held only in the calls that drop
    an inode, where [iput] takes the inode's lock under the table's; and [fork], [kill],
    [dup], [getpid], [sbrk] and [uptime] do not wait at all. *)
Theorem syscall_lock_discipline pad num handler s :
  syscalls pad num = Some handler -> held s = [] ->
  match handler s with
  | Ok _ s' => held s' = [] /\ cur s' = cur s
  | Panic m => lock_msg m = false /\ (m = "sched locks" -> syscall_mode num = Unchecked)
  | Sleep _ s' => switched s' /\ syscall_mode num <> NoSleep
  | Diverge => True
  end.
Proof.
  intros Hs Hh. pose proof (locks_syscalls _ _ _ Hs (cur s) s [] eq_refl) as H. rewrite app_nil_r in H.
  specialize (H Hh ltac:(set_solver)). destruct (handler s) as [a s'|m|ch s'|]; [|..|done].
  - by destruct H as (? & h & Hh' & ->).
  - destruct H as [? H]. split; [done|]. intros E. specialize (H E). by destruct (syscall_mode num).
  - by destruct H.
Qed.
End Locks.
