(* ===== verification/Virtio.v ===== *)
(** [kernel/virtio_disk.c].  The driver's own state, and the part of the queue that
    lives in memory shared with the device, are a record of this file; the device is
    a relation on it.  [Bio] uses the driver through the abstract [virtio_disk_rw]
    it defines. *)
From S2P Require Import Prelude Types Riscv Str Kalloc Vm Sched Ring Uart.

Abbreviation NUM := 8%nat.
Abbreviation VRING_DESC_F_NEXT := 1.
Abbreviation VRING_DESC_F_WRITE := 2.
Abbreviation VIRTIO_BLK_T_IN := 0.
Abbreviation VIRTIO_BLK_T_OUT := 1.

Abbreviation VIRTIO_MMIO_MAGIC_VALUE := 0x000.
Abbreviation VIRTIO_MMIO_VERSION := 0x004.
Abbreviation VIRTIO_MMIO_DEVICE_ID := 0x008.
Abbreviation VIRTIO_MMIO_VENDOR_ID := 0x00c.
Abbreviation VIRTIO_MMIO_DEVICE_FEATURES := 0x010.
Abbreviation VIRTIO_MMIO_DRIVER_FEATURES := 0x020.
Abbreviation VIRTIO_MMIO_QUEUE_SEL := 0x030.
Abbreviation VIRTIO_MMIO_QUEUE_NUM_MAX := 0x034.
Abbreviation VIRTIO_MMIO_QUEUE_NUM := 0x038.
Abbreviation VIRTIO_MMIO_QUEUE_READY := 0x044.
Abbreviation VIRTIO_MMIO_STATUS := 0x070.
Abbreviation VIRTIO_MMIO_QUEUE_DESC_LOW := 0x080.
Abbreviation VIRTIO_MMIO_QUEUE_DESC_HIGH := 0x084.
Abbreviation VIRTIO_MMIO_DRIVER_DESC_LOW := 0x090.
Abbreviation VIRTIO_MMIO_DRIVER_DESC_HIGH := 0x094.
Abbreviation VIRTIO_MMIO_DEVICE_DESC_LOW := 0x0a0.
Abbreviation VIRTIO_MMIO_DEVICE_DESC_HIGH := 0x0a4.

(** ** Initialisation *)

Section Init.
Context {L : Linker}.

(** A register is a [volatile uint32]. *)
Definition R_get (r : Z) : M Z := let! v := mmio_read (VIRTIO0 + r) in ret (u32 v).
Definition R_set (r v : Z) : M unit := mmio_write (VIRTIO0 + r) (u32 v).

(** The chain of [||]: the registers are read up to the first that is wrong. *)
Fixpoint check_ids (l : list (Z * Z)) : M bool :=
  match l with
  | [] => ret true
  | (r, want) :: l' => let! v := R_get r in if v =? want then check_ids l' else ret false
  end.

(** The feature bits the driver clears. *)
Definition refused_features : list Z := [5; 7; 11; 12; 27; 29; 28].
Definition clear_features (f : Z) : Z :=
  fold_left (fun f b => Z.ldiff f (Z.shiftl 1 b)) refused_features f.

Definition zero_page (pa : Z) : M unit := write_k pa (replicate (Z.to_nat PGSIZE) 0).

(** The pages of the descriptors and of the two rings. *)
Definition virtio_disk_init : M (Z * Z * Z) :=
  let! ok := check_ids [(VIRTIO_MMIO_MAGIC_VALUE, 0x74726976); (VIRTIO_MMIO_VERSION, 2);
                        (VIRTIO_MMIO_DEVICE_ID, 2); (VIRTIO_MMIO_VENDOR_ID, 0x554d4551)] in
  if negb ok then panic "could not find virtio disk"
  else
    R_set VIRTIO_MMIO_STATUS 0 ;;;
    R_set VIRTIO_MMIO_STATUS 1 ;;;
    R_set VIRTIO_MMIO_STATUS 3 ;;;
    let! features := R_get VIRTIO_MMIO_DEVICE_FEATURES in
    R_set VIRTIO_MMIO_DRIVER_FEATURES (clear_features features) ;;;
    R_set VIRTIO_MMIO_STATUS 11 ;;;
    let! status := R_get VIRTIO_MMIO_STATUS in
    if Z.land status 8 =? 0 then panic "virtio disk FEATURES_OK unset"
    else
      R_set VIRTIO_MMIO_QUEUE_SEL 0 ;;;
      let! ready := R_get VIRTIO_MMIO_QUEUE_READY in
      if negb (ready =? 0) then panic "virtio disk should not be ready"
      else
        let! max := R_get VIRTIO_MMIO_QUEUE_NUM_MAX in
        if max =? 0 then panic "virtio disk has no queue 0"
        else if max <? Z.of_nat NUM then panic "virtio disk max queue too short"
        else
          let! desc := kalloc in
          let! avail := kalloc in
          let! used := kalloc in
          if (desc =? 0) || (avail =? 0) || (used =? 0) then panic "virtio disk kalloc"
          else
            zero_page desc ;;;
            zero_page avail ;;;
            zero_page used ;;;
            R_set VIRTIO_MMIO_QUEUE_NUM (Z.of_nat NUM) ;;;
            R_set VIRTIO_MMIO_QUEUE_DESC_LOW desc ;;;
            R_set VIRTIO_MMIO_QUEUE_DESC_HIGH (Z.shiftr desc 32) ;;;
            R_set VIRTIO_MMIO_DRIVER_DESC_LOW avail ;;;
            R_set VIRTIO_MMIO_DRIVER_DESC_HIGH (Z.shiftr avail 32) ;;;
            R_set VIRTIO_MMIO_DEVICE_DESC_LOW used ;;;
            R_set VIRTIO_MMIO_DEVICE_DESC_HIGH (Z.shiftr used 32) ;;;
            R_set VIRTIO_MMIO_QUEUE_READY 1 ;;;
            R_set VIRTIO_MMIO_STATUS (Z.lor status 4) ;;;
            ret (desc, avail, used).
End Init.

(** ** The queue *)

(** What a descriptor points at: the command header of a slot, a buffer's data, or the
    status byte of a slot. *)
Inductive daddr := DNull | DReq (i : nat) | DData (b : nat) | DStatus (i : nat).

Record virtq_desc := Desc {
  d_addr : daddr;
  d_len : Z;
  d_flags : Z;
  d_next : nat
}.
Definition desc0 : virtq_desc := Desc DNull 0 0 0.
#[global] Instance desc_inhabited : Inhabited virtq_desc := populate desc0.

Record blk_req := BlkReq { rq_type : Z; rq_sector : Z }.
#[global] Instance blk_req_inhabited : Inhabited blk_req := populate (BlkReq 0 0).

(** [disk.info[i]]: the buffer of the request whose chain starts at [i], and the status
    byte. *)
Record vinfo := Info { in_b : option nat; in_status : Z }.
#[global] Instance vinfo_inhabited : Inhabited vinfo := populate (Info None 0).

(** [v_avail] and [v_used] are the two rings with the 16-bit indices next to them;
    [v_used_idx] is how far the driver has looked in the used ring.  [v_seen] and
    [v_flight] belong to the device: how far it has looked in the available ring, and
    the chains it is working on.  [v_busy b] is [b->disk], [v_data] the buffers' data
    and [v_disk] the disk by 512-byte sector. *)
Record vst := Vst {
  v_desc : list virtq_desc;
  v_free : list bool;
  v_info : list vinfo;
  v_ops : list blk_req;
  v_avail : list Z;
  v_avail_idx : Z;
  v_used : list Z;
  v_used_at : Z;
  v_used_idx : Z;
  v_seen : Z;
  v_flight : list nat;
  v_busy : nat -> bool;
  v_data : nat -> list Z;
  v_disk : Z -> list Z
}.

Definition set_desc (i : nat) (d : virtq_desc) (s : vst) : vst :=
  Vst (<[i := d]> (v_desc s)) (v_free s) (v_info s) (v_ops s) (v_avail s) (v_avail_idx s)
    (v_used s) (v_used_at s) (v_used_idx s) (v_seen s) (v_flight s) (v_busy s) (v_data s)
    (v_disk s).
Definition set_free (i : nat) (f : bool) (s : vst) : vst :=
  Vst (v_desc s) (<[i := f]> (v_free s)) (v_info s) (v_ops s) (v_avail s) (v_avail_idx s)
    (v_used s) (v_used_at s) (v_used_idx s) (v_seen s) (v_flight s) (v_busy s) (v_data s)
    (v_disk s).
Definition set_info (i : nat) (x : vinfo) (s : vst) : vst :=
  Vst (v_desc s) (v_free s) (<[i := x]> (v_info s)) (v_ops s) (v_avail s) (v_avail_idx s)
    (v_used s) (v_used_at s) (v_used_idx s) (v_seen s) (v_flight s) (v_busy s) (v_data s)
    (v_disk s).
Definition set_op (i : nat) (r : blk_req) (s : vst) : vst :=
  Vst (v_desc s) (v_free s) (v_info s) (<[i := r]> (v_ops s)) (v_avail s) (v_avail_idx s)
    (v_used s) (v_used_at s) (v_used_idx s) (v_seen s) (v_flight s) (v_busy s) (v_data s)
    (v_disk s).
Definition set_avail (l : list Z) (s : vst) : vst :=
  Vst (v_desc s) (v_free s) (v_info s) (v_ops s) l (v_avail_idx s) (v_used s) (v_used_at s)
    (v_used_idx s) (v_seen s) (v_flight s) (v_busy s) (v_data s) (v_disk s).
Definition set_avail_idx (n : Z) (s : vst) : vst :=
  Vst (v_desc s) (v_free s) (v_info s) (v_ops s) (v_avail s) n (v_used s) (v_used_at s)
    (v_used_idx s) (v_seen s) (v_flight s) (v_busy s) (v_data s) (v_disk s).
Definition set_used (l : list Z) (s : vst) : vst :=
  Vst (v_desc s) (v_free s) (v_info s) (v_ops s) (v_avail s) (v_avail_idx s) l (v_used_at s)
    (v_used_idx s) (v_seen s) (v_flight s) (v_busy s) (v_data s) (v_disk s).
Definition set_used_at (n : Z) (s : vst) : vst :=
  Vst (v_desc s) (v_free s) (v_info s) (v_ops s) (v_avail s) (v_avail_idx s) (v_used s) n
    (v_used_idx s) (v_seen s) (v_flight s) (v_busy s) (v_data s) (v_disk s).
Definition set_used_idx (n : Z) (s : vst) : vst :=
  Vst (v_desc s) (v_free s) (v_info s) (v_ops s) (v_avail s) (v_avail_idx s) (v_used s)
    (v_used_at s) n (v_seen s) (v_flight s) (v_busy s) (v_data s) (v_disk s).
Definition set_seen (n : Z) (s : vst) : vst :=
  Vst (v_desc s) (v_free s) (v_info s) (v_ops s) (v_avail s) (v_avail_idx s) (v_used s)
    (v_used_at s) (v_used_idx s) n (v_flight s) (v_busy s) (v_data s) (v_disk s).
Definition set_flight (l : list nat) (s : vst) : vst :=
  Vst (v_desc s) (v_free s) (v_info s) (v_ops s) (v_avail s) (v_avail_idx s) (v_used s)
    (v_used_at s) (v_used_idx s) (v_seen s) l (v_busy s) (v_data s) (v_disk s).
Definition set_busy (b : nat) (v : bool) (s : vst) : vst :=
  Vst (v_desc s) (v_free s) (v_info s) (v_ops s) (v_avail s) (v_avail_idx s) (v_used s)
    (v_used_at s) (v_used_idx s) (v_seen s) (v_flight s)
    (fun k => if decide (k = b) then v else v_busy s k) (v_data s) (v_disk s).
Definition set_data (b : nat) (v : list Z) (s : vst) : vst :=
  Vst (v_desc s) (v_free s) (v_info s) (v_ops s) (v_avail s) (v_avail_idx s) (v_used s)
    (v_used_at s) (v_used_idx s) (v_seen s) (v_flight s) (v_busy s)
    (fun k => if decide (k = b) then v else v_data s k) (v_disk s).

(** The outcome of driver code. *)
Inductive vres (A : Type) := VOk (a : A) (s : vst) | VPanic (msg : string) | VSleep (s : vst) | VLoop.
Arguments VOk {A} a s.
Arguments VPanic {A} msg.
Arguments VSleep {A} s.
Arguments VLoop {A}.

Definition vbind {A B} (r : vres A) (k : A -> vst -> vres B) : vres B :=
  match r with
  | VOk a s => k a s
  | VPanic msg => VPanic msg
  | VSleep s => VSleep s
  | VLoop => VLoop
  end.

(** ** Descriptors *)

Fixpoint alloc_desc_loop (i k : nat) (s : vst) : option nat * vst :=
  match k with
  | O => (None, s)
  | S k' =>
      if nth i (v_free s) false then (Some i, set_free i false s)
      else alloc_desc_loop (S i) k' s
  end.

Definition alloc_desc (s : vst) : option nat * vst := alloc_desc_loop 0 NUM s.

(** The [wakeup] of threads that wait for a descriptor changes no state of the driver. *)
Definition free_desc (i : nat) (s : vst) : vres unit :=
  if (NUM <=? i)%nat then VPanic "free_desc 1"
  else if nth i (v_free s) false then VPanic "free_desc 2"
  else VOk tt (set_free i true (set_desc i desc0 s)).

(** A chain has no cycle, so it ends within [NUM] rounds. *)
Fixpoint free_chain_loop (i : nat) (k : nat) (s : vst) : vres unit :=
  match k with
  | O => VLoop
  | S k' =>
      let d := v_desc s !!! i in
      vbind (free_desc i s) (fun _ s =>
        if has (d_flags d) VRING_DESC_F_NEXT then free_chain_loop (d_next d) k' s else VOk tt s)
  end.

Definition free_chain (i : nat) (s : vst) : vres unit := free_chain_loop i NUM s.

(** The loop over [j] that undoes a partial allocation. *)
Fixpoint free_descs (l : list nat) (s : vst) : vres unit :=
  match l with
  | [] => VOk tt s
  | i :: l' => vbind (free_desc i s) (fun _ s => free_descs l' s)
  end.

(** [k] descriptors are still to be found; [got] are the ones so far. *)
Fixpoint alloc3_loop (got : list nat) (k : nat) (s : vst) : vres (option (list nat)) :=
  match k with
  | O => VOk (Some got) s
  | S k' =>
      match alloc_desc s with
      | (Some i, s) => alloc3_loop (got ++ [i]) k' s
      | (None, s) => vbind (free_descs got s) (fun _ s => VOk None s)
      end
  end.

Definition alloc3_desc (s : vst) : vres (option (list nat)) := alloc3_loop [] 3 s.

(** ** A request *)

Definition sector (blockno : Z) : Z := u32 (blockno * (BSIZE / 512)).

(** The three descriptors of [alloc3_desc].  The code sleeps when there are no three free
    ones, and tries again when woken. *)
Definition virtio_disk_alloc (s : vst) : vres (nat * nat * nat) :=
  vbind (alloc3_desc s) (fun o s =>
    match o with Some [i0; i1; i2] => VOk (i0, i1, i2) s | _ => VSleep s end).

(** The stores that fill in the three descriptors and hand the chain to the device, in the
    order of the code; the device may run between any two of them. *)
Definition request_writes (b : nat) (blockno : Z) (write : bool) (i0 i1 i2 : nat) : list (vst -> vst) :=
  [ set_op i0 (BlkReq (if write then VIRTIO_BLK_T_OUT else VIRTIO_BLK_T_IN) (sector blockno));
    set_desc i0 (Desc (DReq i0) 16 VRING_DESC_F_NEXT i1);
    set_desc i1 (Desc (DData b) BSIZE
      (Z.lor (if write then 0 else VRING_DESC_F_WRITE) VRING_DESC_F_NEXT) i2);
    (fun s => set_info i0 (Info (in_b (v_info s !!! i0)) 0xff) s);
    set_desc i2 (Desc (DStatus i0) 1 VRING_DESC_F_WRITE 0);
    set_busy b true;
    (fun s => set_info i0 (Info (Some b) (in_status (v_info s !!! i0))) s);
    (fun s => set_avail (rset (v_avail s) (v_avail_idx s) (Z.of_nat i0)) s);
    (fun s => set_avail_idx (u16 (v_avail_idx s + 1)) s) ].

(** The rest of [virtio_disk_rw], from the test of [b->disk] on. *)
Definition virtio_disk_finish (b i0 : nat) (s : vst) : vres unit :=
  if v_busy s b then VSleep s
  else free_chain i0 (set_info i0 (Info None (in_status (v_info s !!! i0))) s).

(** ** The interrupt handler *)

(** The loop's condition, and one round of its body. *)
Definition virtio_intr_test (s : vst) : bool := negb (v_used_idx s =? v_used_at s).

Definition virtio_intr_round (s : vst) : vres unit :=
  let id := Z.to_nat (rget (v_used s) (v_used_idx s)) in
  if negb (in_status (v_info s !!! id) =? 0) then VPanic "virtio_disk_intr status"
  else
    match in_b (v_info s !!! id) with
    | None => VPanic "kerneltrap"
    | Some b => VOk tt (set_used_idx (u16 (v_used_idx s + 1)) (set_busy b false s))
    end.

Fixpoint virtio_intr_loop (k : nat) (s : vst) : vres unit :=
  match k with
  | O => VLoop
  | S k' =>
      if virtio_intr_test s then vbind (virtio_intr_round s) (fun _ s => virtio_intr_loop k' s)
      else VOk tt s
  end.

(** The handler while the device is still: the used ring has [NUM] entries, so that many
    rounds and the last test suffice. *)
Definition virtio_disk_intr (s : vst) : vres unit := virtio_intr_loop (S NUM) s.
