(* ===== verification/Csr.v ===== *)
(** [kernel/riscv.h]: the accessors of the control and status registers, over a hart as the
    privileged architecture describes it.

    Each accessor is one instruction of inline assembly.  [csrr] and [csrw] say what the
    instruction does: [sstatus], [sie] and [sip] are views of the machine-mode registers,
    a delegation register takes only the bits that can be delegated, and the pending bit
    of the timer is the comparison of [time] with [stimecmp].  The kernel proper sees only the
    supervisor's registers, as [hartst] of [Types]; [CsrThms] joins the two. *)
From S2P Require Import Prelude.

Inductive csr :=
  | mhartid | mstatus | mepc | mie | mip | medeleg | mideleg | menvcfg | mcounteren
  | pmpcfg0 | pmpaddr0
  | sstatus | sie | sip | sepc | stvec | scause | stval | satp | stimecmp | time.
#[global] Instance csr_eq_dec : EqDecision csr.
Proof. solve_decision. Defined.

Inductive mode := UMode | SMode | MMode.
#[global] Instance mode_eq_dec : EqDecision mode.
Proof. solve_decision. Defined.

Record hartregs := HartRegs {
  csrs : csr -> Z;
  priv : mode;
  pc : Z;
  x_ra : Z;
  x_sp : Z;
  x_tp : Z
}.

(** The bits of the delegation registers that an implementation lets be set. *)
Class Isa := { can_delegate_exc : Z; can_delegate_int : Z }.

Abbreviation MSTATUS_MPP_MASK := (Z.shiftl 3 11).
Abbreviation MSTATUS_MPP_S := (Z.shiftl 1 11).
Abbreviation SIE_SEIE := (Z.shiftl 1 9).
Abbreviation SIE_STIE := (Z.shiftl 1 5).
Abbreviation SIE_SSIE := (Z.shiftl 1 1).
Abbreviation MIE_STIE := (Z.shiftl 1 5).
Abbreviation SSTATUS_SIE_BIT := 1.
Abbreviation SSTATUS_SPIE_BIT := 5.
Abbreviation SSTATUS_SPP_BIT := 8.
Abbreviation TIMER := 5.

(** The fields of [mstatus] that [sstatus] shows: SIE, SPIE, UBE, SPP, VS, FS, XS, SUM,
    MXR, UXL and SD. *)
Definition SSTATUS_MASK : Z := 0x80000003000DE762.

(** [field m x y] is [y] with the bits of [m] taken from [x]. *)
Definition field (m x y : Z) : Z := Z.lor (Z.ldiff y m) (Z.land x m).
Definition put_bit (i : Z) (b : bool) (x : Z) : Z := if b then Z.setbit x i else Z.clearbit x i.

Definition put (c : csr) (x : Z) (h : hartregs) : hartregs :=
  HartRegs (fun c' => if decide (c = c') then x else csrs h c')
    (priv h) (pc h) (x_ra h) (x_sp h) (x_tp h).
Definition go (m : mode) (a : Z) (h : hartregs) : hartregs :=
  HartRegs (csrs h) m a (x_ra h) (x_sp h) (x_tp h).

Section Csr.
Context {I : Isa}.

(** With the Sstc extension enabled the timer's pending bit cannot be written. *)
Definition pending_bits (h : hartregs) : Z :=
  if Z.testbit (csrs h menvcfg) 63
  then put_bit TIMER (csrs h stimecmp <=? csrs h time) (csrs h mip) else csrs h mip.

Definition csrr (c : csr) (h : hartregs) : Z :=
  match c with
  | sstatus => Z.land (csrs h mstatus) SSTATUS_MASK
  | sie => Z.land (csrs h mie) (csrs h mideleg)
  | sip => Z.land (pending_bits h) (csrs h mideleg)
  | mip => pending_bits h
  | _ => csrs h c
  end.

Definition csrw (c : csr) (x : Z) (h : hartregs) : hartregs :=
  match c with
  | sstatus => put mstatus (field SSTATUS_MASK x (csrs h mstatus)) h
  | sie => put mie (field (csrs h mideleg) x (csrs h mie)) h
  | sip => put mip (field (Z.land (csrs h mideleg) 2) x (csrs h mip)) h
  | medeleg => put medeleg (Z.land x can_delegate_exc) h
  | mideleg => put mideleg (Z.land x can_delegate_int) h
  | mepc => put mepc (Z.clearbit x 0) h
  | sepc => put sepc (Z.clearbit x 0) h
  | mhartid | time => h
  | _ => put c x h
  end.

(** ** The accessors *)

Definition r_mhartid (h : hartregs) : Z := csrr mhartid h.
Definition r_mstatus (h : hartregs) : Z := csrr mstatus h.
Definition w_mstatus (x : Z) (h : hartregs) : hartregs := csrw mstatus x h.
Definition w_mepc (x : Z) (h : hartregs) : hartregs := csrw mepc x h.
Definition r_sstatus (h : hartregs) : Z := csrr sstatus h.
Definition w_sstatus (x : Z) (h : hartregs) : hartregs := csrw sstatus x h.
Definition r_sip (h : hartregs) : Z := csrr sip h.
Definition w_sip (x : Z) (h : hartregs) : hartregs := csrw sip x h.
Definition r_sie (h : hartregs) : Z := csrr sie h.
Definition w_sie (x : Z) (h : hartregs) : hartregs := csrw sie x h.
Definition r_mie (h : hartregs) : Z := csrr mie h.
Definition w_mie (x : Z) (h : hartregs) : hartregs := csrw mie x h.
Definition w_sepc (x : Z) (h : hartregs) : hartregs := csrw sepc x h.
Definition r_sepc (h : hartregs) : Z := csrr sepc h.
Definition r_medeleg (h : hartregs) : Z := csrr medeleg h.
Definition w_medeleg (x : Z) (h : hartregs) : hartregs := csrw medeleg x h.
Definition r_mideleg (h : hartregs) : Z := csrr mideleg h.
Definition w_mideleg (x : Z) (h : hartregs) : hartregs := csrw mideleg x h.
Definition w_stvec (x : Z) (h : hartregs) : hartregs := csrw stvec x h.
Definition r_stvec (h : hartregs) : Z := csrr stvec h.
Definition r_stimecmp (h : hartregs) : Z := csrr stimecmp h.
Definition w_stimecmp (x : Z) (h : hartregs) : hartregs := csrw stimecmp x h.
Definition r_menvcfg (h : hartregs) : Z := csrr menvcfg h.
Definition w_menvcfg (x : Z) (h : hartregs) : hartregs := csrw menvcfg x h.
Definition w_pmpcfg0 (x : Z) (h : hartregs) : hartregs := csrw pmpcfg0 x h.
Definition w_pmpaddr0 (x : Z) (h : hartregs) : hartregs := csrw pmpaddr0 x h.
Definition w_satp (x : Z) (h : hartregs) : hartregs := csrw satp x h.
Definition r_satp (h : hartregs) : Z := csrr satp h.
Definition r_scause (h : hartregs) : Z := csrr scause h.
Definition r_stval (h : hartregs) : Z := csrr stval h.
Definition w_mcounteren (x : Z) (h : hartregs) : hartregs := csrw mcounteren x h.
Definition r_mcounteren (h : hartregs) : Z := csrr mcounteren h.
Definition r_time (h : hartregs) : Z := csrr time h.

Definition intr_on (h : hartregs) : hartregs := w_sstatus (Z.lor (r_sstatus h) (Z.shiftl 1 1)) h.
Definition intr_off (h : hartregs) : hartregs := w_sstatus (Z.ldiff (r_sstatus h) (Z.shiftl 1 1)) h.
Definition intr_get (h : hartregs) : bool := negb (Z.land (r_sstatus h) (Z.shiftl 1 1) =? 0).

Definition r_sp (h : hartregs) : Z := x_sp h.
Definition r_tp (h : hartregs) : Z := x_tp h.
Definition w_tp (x : Z) (h : hartregs) : hartregs :=
  HartRegs (csrs h) (priv h) (pc h) (x_ra h) (x_sp h) x.
Definition r_ra (h : hartregs) : Z := x_ra h.

(** ** Changing the privilege level *)

(** The field MPP of [mstatus] names the mode [mret] goes to. *)
Definition mode_of (x : Z) : mode :=
  if x =? 0 then UMode else if x =? 1 then SMode else MMode.

Definition mret (h : hartregs) : hartregs :=
  let st := csrs h mstatus in
  let to := mode_of (Z.land (Z.shiftr st 11) 3) in
  let st := put_bit 3 (Z.testbit st 7) st in
  let st := Z.setbit st 7 in
  let st := Z.ldiff st MSTATUS_MPP_MASK in
  let st := if decide (to = MMode) then st else Z.clearbit st 17 in
  go to (csrs h mepc) (put mstatus st h).

Definition sret (h : hartregs) : hartregs :=
  let st := csrs h mstatus in
  let to := if Z.testbit st SSTATUS_SPP_BIT then SMode else UMode in
  let st := put_bit SSTATUS_SIE_BIT (Z.testbit st SSTATUS_SPIE_BIT) st in
  let st := Z.setbit st SSTATUS_SPIE_BIT in
  let st := Z.clearbit st SSTATUS_SPP_BIT in
  let st := Z.clearbit st 17 in
  go to (csrs h sepc) (put mstatus st h).

(** Where a trap goes: in vectored mode an interrupt has an entry of its own. *)
Definition vector (cause : Z) (h : hartregs) : Z :=
  let v := csrs h stvec in
  if (Z.land v 3 =? 1) && Z.testbit cause 63
  then Z.ldiff v 3 + 4 * Z.clearbit cause 63 else Z.ldiff v 3.

(** A trap that is delegated to supervisor mode, which it comes from or from below. *)
Definition strap (cause tval : Z) (h : hartregs) : hartregs :=
  let st := csrs h mstatus in
  let st := put_bit SSTATUS_SPP_BIT (bool_decide (priv h = SMode)) st in
  let st := put_bit SSTATUS_SPIE_BIT (Z.testbit st SSTATUS_SIE_BIT) st in
  let st := Z.clearbit st SSTATUS_SIE_BIT in
  go SMode (vector cause h)
    (put mstatus st (put sepc (Z.clearbit (pc h) 0) (put scause cause (put stval tval h)))).

(** Supervisor interrupt [i] is taken: pending, enabled, and not masked as a whole. *)
Definition interrupted (i : Z) (h : hartregs) : bool :=
  Z.testbit (csrr sip h) i && Z.testbit (csrr sie h) i &&
  match priv h with
  | UMode => true
  | SMode => Z.testbit (csrs h mstatus) SSTATUS_SIE_BIT
  | MMode => false
  end.
Definition interrupt (i : Z) (h : hartregs) : hartregs := strap (2 ^ 63 + i) 0 h.

(** ** What supervisor mode may use *)

(** Whether an access to the register is legal: [time] wants the bit TM of [mcounteren],
    and [stimecmp] that and the bit STCE of [menvcfg]. *)
Definition csr_legal (c : csr) (h : hartregs) : bool :=
  match c with
  | sstatus | sie | sip | sepc | stvec | scause | stval | satp => bool_decide (priv h <> UMode)
  | time =>
      match priv h with MMode => true | SMode => Z.testbit (csrs h mcounteren) 1 | UMode => false end
  | stimecmp =>
      match priv h with
      | MMode => true
      | SMode => Z.testbit (csrs h mcounteren) 1 && Z.testbit (csrs h menvcfg) 63
      | UMode => false
      end
  | _ => bool_decide (priv h = MMode)
  end.

(** Physical memory protection by the first entry, in mode "top of range". *)
Definition pmp_allows (a : Z) (h : hartregs) : bool :=
  let cfg := csrs h pmpcfg0 in
  (Z.land (Z.shiftr cfg 3) 3 =? 1) && (Z.land cfg 7 =? 7) &&
  (0 <=? a) && (a <? 4 * csrs h pmpaddr0).

(** ** [start.c] *)

Definition timerinit (h : hartregs) : hartregs :=
  let h := w_mie (Z.lor (r_mie h) MIE_STIE) h in
  let h := w_menvcfg (Z.lor (r_menvcfg h) (Z.shiftl 1 63)) h in
  let h := w_mcounteren (Z.lor (r_mcounteren h) 2) h in
  w_stimecmp (u64 (r_time h + 1000000)) h.

(** [main] is the address of the function. *)
Definition start (main : Z) (h : hartregs) : hartregs :=
  let x := r_mstatus h in
  let x := Z.ldiff x MSTATUS_MPP_MASK in
  let x := Z.lor x MSTATUS_MPP_S in
  let h := w_mstatus x h in
  let h := w_mepc main h in
  let h := w_satp 0 h in
  let h := w_medeleg 0xffff h in
  let h := w_mideleg 0xffff h in
  let h := w_sie (Z.lor (Z.lor (Z.lor (r_sie h) SIE_SEIE) SIE_STIE) SIE_SSIE) h in
  let h := w_pmpaddr0 0x3fffffffffffff h in
  let h := w_pmpcfg0 0xf h in
  let h := timerinit h in
  let id := i32 (r_mhartid h) in
  let h := w_tp (u64 id) h in
  mret h.
End Csr.
