(* ===== verification/Main.v ===== *)
(** [kernel/main.c]: from the end of [start] to the scheduler.  [Csr] has [start]. *)
From S2P Require Import Prelude Types Riscv Kalloc Vm Sched Sleeplock Bio Log Fs Uart Printf Console Pipe File Proc.
From S2P Require Import Trap Virtio.

(** ** [main.c] *)

Section Main.
Context {L : Linker}.

(** The branch of hart 0, up to [started = 1].  [printfinit], [trapinit] and [fileinit]
    only initialise locks. *)
Definition boot_hart0 : M unit :=
  consoleinit ;;;
  kprintf newline [] ;;;
  kprintf (lit "xv6 kernel is booting" ++ newline) [] ;;;
  kprintf newline [] ;;;
  kinit ;;;
  kvminit ;;;
  kvminithart ;;;
  procinit ;;;
  trapinithart ;;;
  plicinit ;;;
  plicinithart ;;;
  binit ;;;
  iinit ;;;
  let! _ := virtio_disk_init in
  userinit.

(** The branch of the others, after they have seen [started]. *)
Definition boot_other : M unit :=
  let! id := cpuid in
  kprintf (lit "hart %d starting" ++ newline) [VNum id] ;;;
  kvminithart ;;;
  trapinithart ;;;
  plicinithart.

(** [scheduler] never returns; [rounds] of it are run. *)
Definition main (swtch : nat -> M unit) (wfi : M unit) (rounds : nat) : M unit :=
  let! id := cpuid in
  (if id =? 0 then boot_hart0 else boot_other) ;;;
  scheduler swtch wfi rounds.
End Main.
