(* ===== verification/Asm.v ===== *)
(** The assembly of the kernel: [swtch.S], [trampoline.S], [kernelvec.S] and
    [entry.S], run by a small RISC-V interpreter.

    Registers are numbered as in the ISA.  Memory is [mem] of the kernel state's type;
    a load or store translates its address with the page table in [satp] ([xlate], a
    parameter: walking the table is the hardware's part of [Vm.walk]). *)
From S2P Require Import Prelude Types.

(** ** Registers *)

Abbreviation ra := 1.
Abbreviation sp := 2.
Abbreviation gp := 3.
Abbreviation tp := 4.
Abbreviation t0 := 5.
Abbreviation t1 := 6.
Abbreviation t2 := 7.
Abbreviation s0 := 8.
Abbreviation s1 := 9.
Abbreviation a0 := 10.
Abbreviation a1 := 11.
Abbreviation a2 := 12.
Abbreviation a3 := 13.
Abbreviation a4 := 14.
Abbreviation a5 := 15.
Abbreviation a6 := 16.
Abbreviation a7 := 17.
Abbreviation s2 := 18.
Abbreviation s3 := 19.
Abbreviation s4 := 20.
Abbreviation s5 := 21.
Abbreviation s6 := 22.
Abbreviation s7 := 23.
Abbreviation s8 := 24.
Abbreviation s9 := 25.
Abbreviation s10 := 26.
Abbreviation s11 := 27.
Abbreviation t3 := 28.
Abbreviation t4 := 29.
Abbreviation t5 := 30.
Abbreviation t6 := 31.

Inductive csr := Satp | Sscratch | Mhartid.
#[global] Instance csr_eq_dec : EqDecision csr.
Proof. solve_decision. Defined.

Inductive instr :=
  | Sd (r : Z) (off : Z) (base : Z)
  | Ld (r : Z) (off : Z) (base : Z)
  | Li (r : Z) (v : Z)
  | Addi (r : Z) (r' : Z) (v : Z)
  | Add (r : Z) (r1 r2 : Z)
  | Mul (r : Z) (r1 r2 : Z)
  | Csrw (c : csr) (r : Z)
  | Csrr (r : Z) (c : csr)
  | Sfence.

(** How a sequence ends: [ret], [jr r] or a [call] with the address jumped to, or
    [sret]. *)
Inductive ending := Ret | Jr (r : Z) | Sret.

Record asmst := AsmSt {
  reg : Z -> Z;
  csrs : csr -> Z;
  amem : gmap Z Z
}.

Definition rd (r : Z) (s : asmst) : Z := if r =? 0 then 0 else reg s r.
Definition wr (r v : Z) (s : asmst) : asmst :=
  AsmSt (fun k => if k =? r then v else reg s k) (csrs s) (amem s).
Definition wcsr (c : csr) (v : Z) (s : asmst) : asmst :=
  AsmSt (reg s) (fun k => if decide (k = c) then v else csrs s k) (amem s).

Section Interp.
(** [xlate satp va]: the physical address. *)
Context (xlate : Z -> Z -> Z).

Definition step_instr (i : instr) (s : asmst) : asmst :=
  match i with
  | Sd r off base =>
      AsmSt (reg s) (csrs s) (store64 (amem s) (xlate (csrs s Satp) (u64 (rd base s + off))) (rd r s))
  | Ld r off base => wr r (load64 (amem s) (xlate (csrs s Satp) (u64 (rd base s + off)))) s
  | Li r v => wr r v s
  | Addi r r' v => wr r (u64 (rd r' s + v)) s
  | Add r r1 r2 => wr r (u64 (rd r1 s + rd r2 s)) s
  | Mul r r1 r2 => wr r (u64 (rd r1 s * rd r2 s)) s
  | Csrw c r => wcsr c (rd r s) s
  | Csrr r c => wr r (csrs s c) s
  | Sfence => s
  end.

Definition exec_instrs (l : list instr) (s : asmst) : asmst := fold_left (fun s i => step_instr i s) l s.
End Interp.

(** ** [swtch.S] *)

Definition context_regs : list (Z * Z) :=
  [(ra, 0); (sp, 8); (s0, 16); (s1, 24); (s2, 32); (s3, 40); (s4, 48); (s5, 56); (s6, 64);
   (s7, 72); (s8, 80); (s9, 88); (s10, 96); (s11, 104)].

Definition swtch : list instr :=
  [ Sd ra 0 a0; Sd sp 8 a0; Sd s0 16 a0; Sd s1 24 a0; Sd s2 32 a0; Sd s3 40 a0; Sd s4 48 a0;
    Sd s5 56 a0; Sd s6 64 a0; Sd s7 72 a0; Sd s8 80 a0; Sd s9 88 a0; Sd s10 96 a0; Sd s11 104 a0;
    Ld ra 0 a1; Ld sp 8 a1; Ld s0 16 a1; Ld s1 24 a1; Ld s2 32 a1; Ld s3 40 a1; Ld s4 48 a1;
    Ld s5 56 a1; Ld s6 64 a1; Ld s7 72 a1; Ld s8 80 a1; Ld s9 88 a1; Ld s10 96 a1; Ld s11 104 a1 ].
Definition swtch_end : ending := Ret.

(** ** [trampoline.S] *)

Definition uservec : list instr :=
  [ Csrw Sscratch a0; Li a0 TRAPFRAME;
    Sd ra 40 a0; Sd sp 48 a0; Sd gp 56 a0; Sd tp 64 a0; Sd t0 72 a0; Sd t1 80 a0; Sd t2 88 a0;
    Sd s0 96 a0; Sd s1 104 a0; Sd a1 120 a0; Sd a2 128 a0; Sd a3 136 a0; Sd a4 144 a0; Sd a5 152 a0;
    Sd a6 160 a0; Sd a7 168 a0; Sd s2 176 a0; Sd s3 184 a0; Sd s4 192 a0; Sd s5 200 a0; Sd s6 208 a0;
    Sd s7 216 a0; Sd s8 224 a0; Sd s9 232 a0; Sd s10 240 a0; Sd s11 248 a0; Sd t3 256 a0; Sd t4 264 a0;
    Sd t5 272 a0; Sd t6 280 a0;
    Csrr t0 Sscratch; Sd t0 112 a0;
    Ld sp 8 a0; Ld tp 32 a0; Ld t0 16 a0; Ld t1 0 a0;
    Sfence; Csrw Satp t1; Sfence ].
Definition uservec_end : ending := Jr t0.

Definition userret : list instr :=
  [ Sfence; Csrw Satp a0; Sfence; Li a0 TRAPFRAME;
    Ld ra 40 a0; Ld sp 48 a0; Ld gp 56 a0; Ld tp 64 a0; Ld t0 72 a0; Ld t1 80 a0; Ld t2 88 a0;
    Ld s0 96 a0; Ld s1 104 a0; Ld a1 120 a0; Ld a2 128 a0; Ld a3 136 a0; Ld a4 144 a0; Ld a5 152 a0;
    Ld a6 160 a0; Ld a7 168 a0; Ld s2 176 a0; Ld s3 184 a0; Ld s4 192 a0; Ld s5 200 a0; Ld s6 208 a0;
    Ld s7 216 a0; Ld s8 224 a0; Ld s9 232 a0; Ld s10 240 a0; Ld s11 248 a0; Ld t3 256 a0; Ld t4 264 a0;
    Ld t5 272 a0; Ld t6 280 a0;
    Ld a0 112 a0 ].
Definition userret_end : ending := Sret.

(** ** [kernelvec.S]: before and after the call of [kerneltrap] *)

Definition kernelvec_save : list instr :=
  [ Addi sp sp (-256);
    Sd ra 0 sp; Sd sp 8 sp; Sd gp 16 sp; Sd tp 24 sp; Sd t0 32 sp; Sd t1 40 sp; Sd t2 48 sp;
    Sd a0 72 sp; Sd a1 80 sp; Sd a2 88 sp; Sd a3 96 sp; Sd a4 104 sp; Sd a5 112 sp; Sd a6 120 sp;
    Sd a7 128 sp; Sd t3 216 sp; Sd t4 224 sp; Sd t5 232 sp; Sd t6 240 sp ].

Definition kernelvec_restore : list instr :=
  [ Ld ra 0 sp; Ld sp 8 sp; Ld gp 16 sp; Ld t0 32 sp; Ld t1 40 sp; Ld t2 48 sp;
    Ld a0 72 sp; Ld a1 80 sp; Ld a2 88 sp; Ld a3 96 sp; Ld a4 104 sp; Ld a5 112 sp; Ld a6 120 sp;
    Ld a7 128 sp; Ld t3 216 sp; Ld t4 224 sp; Ld t5 232 sp; Ld t6 240 sp;
    Addi sp sp 256 ].
Definition kernelvec_end : ending := Sret.

(** ** [entry.S]: [stack0] is the address of the stacks *)

Definition entry (stack0 : Z) : list instr :=
  [ Li sp stack0; Li a0 (1024 * 4); Csrr a1 Mhartid; Addi a1 a1 1; Mul a0 a0 a1; Add sp sp a0 ].

(** ** Runs of stores and loads *)

Definition saves (b : Z) (l : list (Z * Z)) : list instr := map (fun '(r, o) => Sd r o b) l.
Definition loads (b : Z) (l : list (Z * Z)) : list instr := map (fun '(r, o) => Ld r o b) l.

(** The memory after storing [f r] at offset [o] of [pa] for every pair of [l]. *)
Definition stored (f : Z -> Z) (pa : Z) (l : list (Z * Z)) (m : gmap Z Z) : gmap Z Z :=
  fold_left (fun m '(r, o) => store64 m (pa + o) (f r)) l m.

(** Offsets that go up in steps of a word at least. *)
Fixpoint spaced (lo : Z) (l : list (Z * Z)) : bool :=
  match l with
  | [] => true
  | (_, o) :: l' => (lo <=? o) && spaced (o + 8) l'
  end.

Lemma spaced_lo l : forall lo r o, spaced lo l = true -> (r, o) ∈ l -> lo <= o.
Proof.
  induction l as [|[r' o'] l IH]; intros lo r o H Hin; [by apply not_elem_of_nil in Hin|].
  cbn in H. apply andb_true_iff in H as [H1%Z.leb_le H2].
  apply elem_of_cons in Hin as [[= -> ->]|Hin]; [done|]. specialize (IH _ _ _ H2 Hin). lia.
Qed.

Lemma stored_out f pa l : forall m x,
  (forall r o, (r, o) ∈ l -> x + 8 <= pa + o \/ pa + o + 8 <= x) ->
  load64 (stored f pa l m) x = load64 m x.
Proof.
  induction l as [|[r o] l IH]; intros m x H; [done|].
  change (stored f pa ((r, o) :: l) m) with (stored f pa l (store64 m (pa + o) (f r))).
  rewrite IH; [|by intros; eapply H, list_elem_of_further].
  apply load64_store64_ne. apply (H r o). by left.
Qed.

Lemma stored_in f pa l : forall m lo r o,
  spaced lo l = true -> (r, o) ∈ l -> load64 (stored f pa l m) (pa + o) = u64 (f r).
Proof.
  induction l as [|[r' o'] l IH]; intros m lo r o H Hin; [by apply not_elem_of_nil in Hin|].
  cbn in H. apply andb_true_iff in H as [H1%Z.leb_le H2].
  change (stored f pa ((r', o') :: l) m) with (stored f pa l (store64 m (pa + o') (f r'))).
  apply elem_of_cons in Hin as [[= -> ->]|Hin]; [|by eapply IH].
  rewrite stored_out; [apply load64_store64|].
  intros r1 o1 Hin. pose proof (spaced_lo _ _ _ _ H2 Hin). lia.
Qed.

Lemma rd_wr r v r' s : r <> 0 -> rd r' (wr r v s) = if decide (r' = r) then v else rd r' s.
Proof.
  intros Hr. unfold rd, wr. cbn [reg]. destruct (Z.eqb_spec r' 0), (Z.eqb_spec r' r); case_decide; try lia; done.
Qed.

Lemma amem_wr r v s : amem (wr r v s) = amem s.
Proof. done. Qed.

Section Runs.
Context (xlate : Z -> Z -> Z).

(** The [n] bytes at virtual address [va] are at physical address [pa]. *)
Definition maps (satp va pa n : Z) : Prop :=
  forall o, 0 <= o < n -> xlate satp (u64 (va + o)) = pa + o.

Lemma exec_app l l' s : exec_instrs xlate (l ++ l') s = exec_instrs xlate l' (exec_instrs xlate l s).
Proof. apply fold_left_app. Qed.

Lemma exec_saves b l pa n : forall s,
  maps (csrs s Satp) (rd b s) pa n -> (forall r o, (r, o) ∈ l -> 0 <= o < n) ->
  exec_instrs xlate (saves b l) s = AsmSt (reg s) (csrs s) (stored (fun r => rd r s) pa l (amem s)).
Proof.
  induction l as [|[r o] l IH]; intros s Hm Ho; [by destruct s|].
  cbn [saves map exec_instrs fold_left step_instr]. rewrite Hm by (apply (Ho r o); by left).
  change (fold_left _ ?p ?s') with (exec_instrs xlate p s').
  rewrite (IH (AsmSt _ _ _)); [done|done|]. by intros; eapply Ho, list_elem_of_further.
Qed.

(** A run of loads gives every register it loads its word; it may load the base too, when
    that keeps its value. *)
Lemma exec_loads b l pa n : forall s,
  maps (csrs s Satp) (rd b s) pa n -> NoDup l.*1 -> 0 ∉ l.*1 ->
  (forall r o, (r, o) ∈ l -> 0 <= o < n /\ (r = b -> load64 (amem s) (pa + o) = rd b s)) ->
  exists s', exec_instrs xlate (loads b l) s = s' /\ csrs s' = csrs s /\ amem s' = amem s /\
    (forall r o, (r, o) ∈ l -> rd r s' = load64 (amem s) (pa + o)) /\
    (forall r, r ∉ l.*1 -> rd r s' = rd r s).
Proof.
  induction l as [|[r o] l IH]; intros s Hm Hnd H0 Ho; [exists s; set_solver|].
  cbn [loads map exec_instrs fold_left step_instr]. cbn [fmap list_fmap] in *.
  inversion Hnd as [|? ? Hr Hnd']; subst. apply not_elem_of_cons in H0 as [Hr0 H0].
  destruct (Ho r o) as [Hb Hv]; [by left|]. rewrite Hm by done.
  change (fold_left _ ?p ?s') with (exec_instrs xlate p s').
  set (s1 := wr r _ s).
  assert (rd b s1 = rd b s) as Eb.
  { unfold s1. rewrite rd_wr by done. case_decide; [|done]. subst. by apply Hv. }
  destruct (IH s1) as (s' & E & Ec & Em & Hin & Hout).
  - by rewrite Eb.
  - done.
  - done.
  - intros r1 o1 H1. destruct (Ho r1 o1) as [Hb1 Hv1]; [by right|]. split; [done|].
    rewrite Eb. exact Hv1.
  - exists s'. split; [done|]. split; [by rewrite Ec|]. split; [by rewrite Em|]. split.
    + intros r1 o1 H1. apply elem_of_cons in H1 as [[= -> ->]|H1].
      * rewrite Hout by done. unfold s1. rewrite rd_wr by done. by rewrite decide_True.
      * by apply Hin.
    + intros r1 H1. apply not_elem_of_cons in H1 as [Hne H1].
      rewrite Hout by done. unfold s1. rewrite rd_wr by done. by rewrite decide_False.
Qed.
End Runs.

(** ** Traps from user space *)

(** Where the trapframe keeps the user registers; [a0] goes through [sscratch]. *)
Definition user_regs : list (Z * Z) :=
  [(ra, 40); (sp, 48); (gp, 56); (tp, 64); (t0, 72); (t1, 80); (t2, 88); (s0, 96); (s1, 104); (a1, 120);
   (a2, 128); (a3, 136); (a4, 144); (a5, 152); (a6, 160); (a7, 168); (s2, 176); (s3, 184); (s4, 192);
   (s5, 200); (s6, 208); (s7, 216); (s8, 224); (s9, 232); (s10, 240); (s11, 248); (t3, 256); (t4, 264);
   (t5, 272); (t6, 280)].
Definition trapframe_regs : list (Z * Z) := (a0, 112) :: user_regs.

Lemma uservec_eq :
  uservec = [Csrw Sscratch a0; Li a0 TRAPFRAME] ++ saves a0 user_regs ++
            [Csrr t0 Sscratch] ++ saves a0 [(t0, 112)] ++ loads a0 [(sp, 8); (tp, 32); (t0, 16); (t1, 0)] ++
            [Sfence; Csrw Satp t1; Sfence].
Proof. done. Qed.

Lemma userret_eq :
  userret = [Sfence; Csrw Satp a0; Sfence; Li a0 TRAPFRAME] ++ loads a0 user_regs ++ [Ld a0 112 a0].
Proof. done. Qed.

Lemma user_regs_bounds r o : (r, o) ∈ user_regs -> 40 <= o <= 280 /\ o mod 8 = 0 /\ r <> 0 /\ r <> a0.
Proof.
  assert (Forall (fun p => 40 <= p.2 <= 280 /\ p.2 mod 8 = 0 /\ p.1 <> 0 /\ p.1 <> a0) user_regs) as H
    by (repeat constructor; cbn; lia).
  rewrite Forall_forall in H. intros Hin. exact (H _ Hin).
Qed.

Lemma user_regs_a0 r o : (r, o) ∈ user_regs -> o + 8 <= 112 \/ 112 + 8 <= o.
Proof.
  assert (Forall (fun p => p.2 + 8 <= 112 \/ 112 + 8 <= p.2) user_regs) as H
    by (apply (bool_decide_unpack _); by vm_compute).
  rewrite Forall_forall in H. intros Hin. exact (H _ Hin).
Qed.

Lemma user_regs_nodup : NoDup user_regs.*1.
Proof. apply (bool_decide_unpack _). by vm_compute. Qed.

Section UserTrap.
Context (xlate : Z -> Z -> Z).

(** [uservec] saves every user register in the trapframe, and leaves for [usertrap] with
    the kernel's stack, hart number and page table. *)
Lemma uservec_spec s pa :
  maps xlate (csrs s Satp) TRAPFRAME pa 288 -> (forall r, 0 <= rd r s < 2 ^ 64) ->
  exists s', exec_instrs xlate uservec s = s' /\
    (forall r o, (r, o) ∈ trapframe_regs -> load64 (amem s') (pa + o) = rd r s) /\
    (forall x, x < pa + 40 \/ pa + 288 <= x -> mget (amem s') x = mget (amem s) x) /\
    rd sp s' = load64 (amem s) (pa + 8) /\ rd tp s' = load64 (amem s) (pa + 32) /\
    rd t0 s' = load64 (amem s) (pa + 16) /\ csrs s' Satp = load64 (amem s) (pa + 0).
Proof.
  intros Hm Hr. rewrite uservec_eq, !exec_app.
  set (x1 := exec_instrs xlate [Csrw Sscratch a0; Li a0 TRAPFRAME] s).
  assert (forall r, r <> a0 -> rd r x1 = rd r s) as Hx1.
  { intros r Hne. unfold x1. cbn -[wcsr]. rewrite rd_wr by lia. by rewrite decide_False. }
  assert (forall y, rd a0 y = TRAPFRAME -> csrs y Satp = csrs s Satp ->
          maps xlate (csrs y Satp) (rd a0 y) pa 288) as Hmy by (intros y -> ->; done).
  rewrite (exec_saves xlate a0 user_regs pa 288); cycle 1.
  { by apply Hmy. }
  { intros r o Hin%user_regs_bounds. lia. }
  set (f := fun r => rd r x1).
  set (m1 := stored f pa user_regs (amem x1)).
  set (x2 := exec_instrs xlate [Csrr t0 Sscratch] (AsmSt (reg x1) (csrs x1) m1)).
  rewrite (exec_saves xlate a0 [(t0, 112)] pa 288); cycle 1.
  { by apply Hmy. }
  { intros r o Hin. apply list_elem_of_singleton in Hin as [= -> ->]. lia. }
  assert (rd t0 x2 = rd a0 s) as Ht0 by done.
  set (m2 := stored (fun r => rd r x2) pa [(t0, 112)] (amem x2)).
  assert (m2 = store64 m1 (pa + 112) (rd a0 s)) as Em2 by done.
  assert (forall x, x < pa + 40 \/ pa + 288 <= x -> mget m2 x = mget (amem s) x) as Hout.
  { intros x Hx. rewrite Em2, mget_store64_out by lia. unfold m1.
    change (amem s) with (amem x1). clear -Hx. generalize (amem x1).
    assert (forall r o, (r, o) ∈ user_regs -> 40 <= o <= 280) as Hb.
    { intros r o Hin%user_regs_bounds. lia. }
    induction user_regs as [|[r o] l IH]; intros m; [done|]. cbn.
    change (fold_left _ l ?m') with (stored f pa l m').
    rewrite IH by (intros; eapply Hb, list_elem_of_further; done).
    apply mget_store64_out. pose proof (Hb r o ltac:(by left)). lia. }
  assert (forall o, o + 8 <= 40 -> load64 m2 (pa + o) = load64 (amem s) (pa + o)) as Hlow.
  { intros o Ho. apply load64_ext. intros x Hx. apply Hout. lia. }
  destruct (exec_loads xlate a0 [(sp, 8); (tp, 32); (t0, 16); (t1, 0)] pa 288
              (AsmSt (reg x2) (csrs x2) m2)) as (x3 & E3 & Ec & Em & Hin & Hne).
  { by apply Hmy. }
  { apply (bool_decide_unpack _). by vm_compute. }
  { by vm_compute; intros H; repeat (apply elem_of_cons in H as [?|H]; [done|]); apply not_elem_of_nil in H. }
  { intros r o H. repeat (apply elem_of_cons in H as [[= -> ->]|H]; [split; [lia|done]|]).
    by apply not_elem_of_nil in H. }
  cbn [amem csrs] in *. rewrite E3.
  eexists. split; [reflexivity|]. cbn -[load64 TRAPFRAME]. rewrite Em. split_and!.
  - intros r o H. apply elem_of_cons in H as [[= -> ->]|H].
    + rewrite Em2, load64_store64. by apply Z.mod_small.
    + rewrite Em2, load64_store64_ne by (apply user_regs_a0 in H; lia). unfold m1.
      rewrite (stored_in f pa user_regs _ 40 r o) by done. apply user_regs_bounds in H.
      unfold f. rewrite Hx1 by apply H. by apply Z.mod_small.
  - done.
  - change (rd 2 x3 = load64 (amem s) (pa + 8)). rewrite (Hin 2 8) by set_solver. by apply Hlow.
  - change (rd 4 x3 = load64 (amem s) (pa + 32)). rewrite (Hin 4 32) by set_solver. by apply Hlow.
  - change (rd 5 x3 = load64 (amem s) (pa + 16)). rewrite (Hin 5 16) by set_solver. by apply Hlow.
  - change (rd 6 x3 = load64 (amem s) (pa + 0)). rewrite (Hin 6 0) by set_solver. by apply Hlow.
Qed.

(** [userret] loads every user register from the trapframe. *)
Lemma userret_spec s pa :
  maps xlate (rd a0 s) TRAPFRAME pa 288 ->
  exists s', exec_instrs xlate userret s = s' /\ csrs s' Satp = rd a0 s /\ amem s' = amem s /\
    forall r o, (r, o) ∈ trapframe_regs -> rd r s' = load64 (amem s) (pa + o).
Proof.
  intros Hm. rewrite userret_eq, !exec_app.
  set (x1 := exec_instrs xlate [Sfence; Csrw Satp a0; Sfence; Li a0 TRAPFRAME] s).
  destruct (exec_loads xlate a0 user_regs pa 288 x1) as (x2 & E2 & Ec & Em & Hin & Hne).
  { done. }
  { apply user_regs_nodup. }
  { intros H. apply list_elem_of_fmap in H as ([r o] & E & H). apply user_regs_bounds in H. cbn in E. lia. }
  { intros r o H. apply user_regs_bounds in H. lia. }
  rewrite E2. eexists. split; [reflexivity|]. cbn [exec_instrs fold_left step_instr].
  change (amem x1) with (amem s) in *.
  assert (xlate (csrs x2 Satp) (u64 (rd a0 x2 + 112)) = pa + 112) as E112.
  { rewrite Ec, Hne; [by apply Hm|]. intros H. apply list_elem_of_fmap in H as ([r o] & E & H).
    apply user_regs_bounds in H. cbn in E. lia. }
  rewrite E112, Em. split_and!.
  - cbn [csrs wr]. by rewrite Ec.
  - done.
  - intros r o H. rewrite rd_wr by lia. apply elem_of_cons in H as [[= -> ->]|H].
    + by rewrite decide_True.
    + rewrite decide_False by (apply user_regs_bounds in H; apply H). by apply Hin.
Qed.
End UserTrap.

(** A machine to run the code on: the trapframe page of every page table is the same
    physical page, all else is mapped to itself. *)
Definition demo_xlate (satp va : Z) : Z :=
  if (TRAPFRAME <=? va) && (va <? TRAPFRAME + PGSIZE) then 0x87000000 + (va - TRAPFRAME) else va.
Definition demo : asmst := AsmSt (fun r => 0x1000 * (r mod 32)) (fun _ => 1) ∅.

Lemma demo_regs r : 0 <= rd r demo < 2 ^ 64.
Proof.
  unfold rd, demo. cbn [reg]. pose proof (Z.mod_pos_bound r 32). destruct (Z.eqb_spec r 0); lia.
Qed.

Lemma demo_trapframe satp : maps demo_xlate satp TRAPFRAME 0x87000000 288.
Proof.
  intros o Ho. unfold demo_xlate, u64. rewrite Z.mod_small by lia.
  destruct (Z.leb_spec TRAPFRAME (TRAPFRAME + o)); [|lia].
  destruct (Z.ltb_spec (TRAPFRAME + o) (TRAPFRAME + PGSIZE)); [cbn [andb]; lia|lia].
Qed.

Lemma demo_identity satp va n : 0 <= va -> va + n <= TRAPFRAME -> maps demo_xlate satp va va n.
Proof.
  intros Hv Hn o Ho. unfold demo_xlate, u64. rewrite Z.mod_small by lia.
  destruct (Z.leb_spec TRAPFRAME (va + o)); [lia|]. done.
Qed.

(** C20: a trap from user space and the return from it.  [uservec] puts each of the 31
    user registers in its word of the trapframe and enters the kernel with the stack,
    hart number, handler address and page table that the trapframe holds; [userret]
    gives each register what its word holds then.  So a register whose word the
    kernel did not change comes back with its value, and a system call returns in
    [a0] what the kernel stored there. *)
Theorem trap_roundtrip xlate s pa k :
  maps xlate (csrs s Satp) TRAPFRAME pa 288 -> (forall r, 0 <= rd r s < 2 ^ 64) ->
  maps xlate (rd a0 k) TRAPFRAME pa 288 ->
  let entered := exec_instrs xlate uservec s in
  let back := exec_instrs xlate userret k in
  rd sp entered = load64 (amem s) (pa + 8) /\ rd tp entered = load64 (amem s) (pa + 32) /\
  rd t0 entered = load64 (amem s) (pa + 16) /\ csrs entered Satp = load64 (amem s) (pa + 0) /\
  csrs back Satp = rd a0 k /\
  (forall r, 1 <= r <= 31 -> exists o, (r, o) ∈ trapframe_regs) /\
  (forall r o, (r, o) ∈ trapframe_regs ->
     rd r back = load64 (amem k) (pa + o) /\
     (load64 (amem k) (pa + o) = load64 (amem entered) (pa + o) -> rd r back = rd r s)).
Proof.
  intros Hm Hr Hk. cbv zeta.
  destruct (uservec_spec xlate s pa Hm Hr) as (s1 & -> & Hsave & _ & H1 & H2 & H3 & H4).
  destruct (userret_spec xlate k pa Hk) as (s2 & -> & Hsatp & _ & Hload).
  split_and!; try done.
  - intros r H. assert (Forall (fun r => r ∈ trapframe_regs.*1) (seqZ 1 31)) as F
      by (apply (bool_decide_unpack _); by vm_compute).
    rewrite Forall_forall in F. destruct (proj1 (list_elem_of_fmap _ _ _) (F r ltac:(apply elem_of_seqZ; lia)))
      as ([r' o] & -> & Hin). by exists o.
  - intros r o H. split; [by apply Hload|]. intros E. by rewrite (Hload _ _ H), E, (Hsave _ _ H).
Qed.

Lemma trap_roundtrip_witness :
  rd s5 (exec_instrs demo_xlate userret (wr a0 1 (exec_instrs demo_xlate uservec demo))) = 0x15000.
Proof.
  destruct (trap_roundtrip demo_xlate demo 0x87000000 (wr a0 1 (exec_instrs demo_xlate uservec demo))
              (demo_trapframe _) demo_regs (demo_trapframe _)) as (_ & _ & _ & _ & _ & _ & H).
  destruct (H s5 200) as [_ E]; [apply (bool_decide_unpack _); vm_compute; exact I|].
  rewrite E; [reflexivity|]. rewrite amem_wr. reflexivity.
Defined.

(** ** [swtch] *)

Lemma swtch_eq : swtch = saves a0 context_regs ++ loads a1 context_regs.
Proof. done. Qed.

Lemma context_regs_bounds r o :
  (r, o) ∈ context_regs -> 0 <= o <= 104 /\ r <> 0 /\ r <> a1.
Proof.
  assert (Forall (fun p => 0 <= p.2 <= 104 /\ p.1 <> 0 /\ p.1 <> a1) context_regs) as H
    by (repeat constructor; cbn; lia).
  rewrite Forall_forall in H. intros Hin. exact (H _ Hin).
Qed.

Lemma swtch_spec xlate s old new :
  maps xlate (csrs s Satp) (rd a0 s) old 112 -> maps xlate (csrs s Satp) (rd a1 s) new 112 ->
  exists s', exec_instrs xlate swtch s = s' /\
    amem s' = stored (fun r => rd r s) old context_regs (amem s) /\
    (forall r o, (r, o) ∈ context_regs -> rd r s' = load64 (amem s') (new + o)) /\
    (forall r, r ∉ context_regs.*1 -> rd r s' = rd r s).
Proof.
  intros Ho Hn. rewrite swtch_eq, exec_app, (exec_saves xlate a0 context_regs old 112); cycle 1.
  { done. }
  { intros r o Hin%context_regs_bounds. lia. }
  destruct (exec_loads xlate a1 context_regs new 112
              (AsmSt (reg s) (csrs s) (stored (fun r => rd r s) old context_regs (amem s))))
    as (s' & E & _ & Em & Hin & Hne).
  { done. }
  { apply (bool_decide_unpack _). by vm_compute. }
  { intros H. apply list_elem_of_fmap in H as ([r o] & Ez & H). apply context_regs_bounds in H. cbn in Ez. lia. }
  { intros r o H. apply context_regs_bounds in H. lia. }
  exists s'. split; [done|]. rewrite Em. by split_and!.
Qed.

(** a context switch.  A thread that called [swtch] with its context at [A] comes
    back from that call, with its return address, stack pointer and callee-saved
    registers, when some thread later switches to [A], provided nobody wrote to the
    context in between. *)
Theorem swtch_resumes xlate s k A B C :
  (forall r, 0 <= rd r s < 2 ^ 64) ->
  maps xlate (csrs s Satp) (rd a0 s) A 112 -> maps xlate (csrs s Satp) (rd a1 s) B 112 ->
  maps xlate (csrs k Satp) (rd a0 k) C 112 -> maps xlate (csrs k Satp) (rd a1 k) A 112 ->
  C + 112 <= A \/ A + 112 <= C ->
  (forall x, A <= x < A + 112 -> mget (amem k) x = mget (amem (exec_instrs xlate swtch s)) x) ->
  forall r o, (r, o) ∈ context_regs -> rd r (exec_instrs xlate swtch k) = rd r s.
Proof.
  intros Hr HA HB HC HA' Hd Hx r o Hin.
  destruct (swtch_spec xlate s A B HA HB) as (s1 & E1 & Em1 & _).
  destruct (swtch_spec xlate k C A HC HA') as (s2 & -> & Em2 & Hl & _).
  pose proof (context_regs_bounds r o Hin). rewrite (Hl _ _ Hin), Em2, stored_out.
  2: { intros r1 o1 H1%context_regs_bounds. lia. }
  rewrite (load64_ext _ (amem s1)) by (intros x ?; rewrite <- E1; apply Hx; lia).
  rewrite Em1, (stored_in _ _ _ _ 0 r o) by done. by apply Z.mod_small.
Qed.

Lemma swtch_resumes_witness :
  rd sp (exec_instrs demo_xlate swtch
           (wr a0 0x30000 (wr a1 (0x1000 * a0) (exec_instrs demo_xlate swtch demo)))) = 0x2000.
Proof.
  rewrite (swtch_resumes demo_xlate demo
             (wr a0 0x30000 (wr a1 (0x1000 * a0) (exec_instrs demo_xlate swtch demo)))
             (0x1000 * a0) (0x1000 * a1) 0x30000 demo_regs) with (o := 8).
  - reflexivity.
  - apply demo_identity; lia.
  - apply demo_identity; lia.
  - apply demo_identity; lia.
  - apply demo_identity; lia.
  - lia.
  - intros x _. rewrite !amem_wr. reflexivity.
  - right. left.
Defined.

(** ** Traps in the kernel *)

Definition frame_regs : list (Z * Z) :=
  [(ra, 0); (sp, 8); (gp, 16); (tp, 24); (t0, 32); (t1, 40); (t2, 48); (a0, 72); (a1, 80); (a2, 88); (a3, 96);
   (a4, 104); (a5, 112); (a6, 120); (a7, 128); (t3, 216); (t4, 224); (t5, 232); (t6, 240)].
Definition frame_back : list (Z * Z) :=
  [(ra, 0); (sp, 8); (gp, 16); (t0, 32); (t1, 40); (t2, 48); (a0, 72); (a1, 80); (a2, 88); (a3, 96);
   (a4, 104); (a5, 112); (a6, 120); (a7, 128); (t3, 216); (t4, 224); (t5, 232); (t6, 240)].

Lemma frame_bounds r o : (r, o) ∈ frame_regs -> 0 <= o <= 240.
Proof.
  assert (Forall (fun p => 0 <= p.2 <= 240) frame_regs) as H by (repeat constructor; cbn; lia).
  rewrite Forall_forall in H. intros Hin. exact (H _ Hin).
Qed.

Lemma frame_back_sub r o : (r, o) ∈ frame_back -> (r, o) ∈ frame_regs /\ r <> 0 /\ (r = sp -> o = 8).
Proof.
  assert (Forall (fun p => p ∈ frame_regs /\ p.1 <> 0 /\ (p.1 = sp -> p.2 = 8)) frame_back) as H.
  { repeat (constructor; [split; [unfold frame_regs; set_solver|cbn; lia]|]). constructor. }
  rewrite Forall_forall in H. intros Hin. exact (H _ Hin).
Qed.

(** C32: an interrupt or exception in the kernel.  When [kerneltrap] follows the calling
    convention (it returns with the stack pointer, the callee-saved registers and the
    256 bytes of the frame as they were), [kernelvec] gives the interrupted code every
    register back except [tp], which stays that of the CPU it resumes on. *)
Theorem kernelvec_transparent xlate s k pa :
  (forall r, 0 <= rd r s < 2 ^ 64) -> 256 <= rd sp s ->
  maps xlate (csrs s Satp) (rd sp s - 256) pa 256 ->
  let called := exec_instrs xlate kernelvec_save s in
  maps xlate (csrs k Satp) (rd sp s - 256) pa 256 ->
  rd sp k = rd sp called ->
  (forall r, r ∉ frame_regs.*1 -> rd r k = rd r called) ->
  (forall x, pa <= x < pa + 256 -> mget (amem k) x = mget (amem called) x) ->
  let back := exec_instrs xlate kernelvec_restore k in
  rd tp back = rd tp k /\ forall r, 1 <= r <= 31 -> r <> tp -> rd r back = rd r s.
Proof.
  intros Hr Hsp Hm called Hmk Esp Hcs Hx back.
  set (x1 := wr sp (u64 (rd sp s + -256)) s).
  assert (rd sp x1 = rd sp s - 256) as E1.
  { unfold x1. rewrite rd_wr by lia. rewrite decide_True by done. pose proof (Hr sp).
    apply Z.mod_small. lia. }
  assert (called = AsmSt (reg x1) (csrs x1) (stored (fun r => rd r x1) pa frame_regs (amem x1))) as Ecalled.
  { unfold called. change kernelvec_save with ([Addi sp sp (-256)] ++ saves sp frame_regs).
    rewrite exec_app. apply (exec_saves xlate sp frame_regs pa 256 x1); [by rewrite E1|].
    intros r o Hin%frame_bounds. lia. }
  assert (rd sp called = rd sp s - 256) as Ecsp by (rewrite Ecalled; exact E1).
  assert (forall r o, (r, o) ∈ frame_regs -> load64 (amem k) (pa + o) = rd r x1) as Hframe.
  { intros r o Hin. pose proof (frame_bounds r o Hin).
    rewrite (load64_ext _ (amem called)) by (intros x ?; apply Hx; lia).
    rewrite Ecalled. cbn [amem]. rewrite (stored_in _ _ _ _ 0 r o) by done.
    apply Z.mod_small. unfold x1. rewrite rd_wr by lia. case_decide; [|apply Hr].
    apply Z.mod_pos_bound. lia. }
  destruct (exec_loads xlate sp frame_back pa 256 k) as (x2 & E2 & _ & _ & Hin & Hne).
  { by rewrite Esp, Ecsp. }
  { apply (bool_decide_unpack _). by vm_compute. }
  { intros H. apply list_elem_of_fmap in H as ([r o] & Ez & H). apply frame_back_sub in H. cbn in Ez. lia. }
  { intros r o H. apply frame_back_sub in H as (Hf & _ & Ho). pose proof (frame_bounds _ _ Hf).
    split; [lia|]. intros ->. rewrite (Hframe _ _ Hf), E1. by rewrite Esp, Ecsp. }
  assert (back = wr sp (u64 (rd sp x2 + 256)) x2) as Eback.
  { unfold back. change kernelvec_restore with (loads sp frame_back ++ [Addi sp sp 256]).
    by rewrite exec_app, E2. }
  assert (forall r o, (r, o) ∈ frame_back -> rd r x2 = rd r x1) as Hback.
  { intros r o H. rewrite (Hin _ _ H). apply Hframe. by apply frame_back_sub. }
  rewrite Eback. split.
  - rewrite rd_wr by lia. rewrite decide_False by done. apply Hne, (bool_decide_unpack _). by vm_compute.
  - intros r Hb Htp. rewrite rd_wr by lia. case_decide as Er.
    + subst r. rewrite (Hback sp 8) by by right; left. rewrite E1. pose proof (Hr sp).
      unfold u64. rewrite Z.mod_small; lia.
    + assert (rd r x1 = rd r s) as Ex by (unfold x1; rewrite rd_wr by lia; by rewrite decide_False).
      destruct (decide (r ∈ frame_back.*1)) as [Hm1|Hm1].
      * apply list_elem_of_fmap in Hm1 as ([r' o] & -> & Hm1). cbn in *. by rewrite (Hback _ _ Hm1).
      * rewrite Hne, Hcs by (clear -Hm1 Htp; cbn in *; set_solver). rewrite Ecalled. exact Ex.
Qed.

Lemma kernelvec_transparent_witness :
  rd a3 (exec_instrs demo_xlate kernelvec_restore (exec_instrs demo_xlate kernelvec_save demo)) = 0xd000.
Proof.
  destruct (kernelvec_transparent demo_xlate demo (exec_instrs demo_xlate kernelvec_save demo)
              (rd sp demo - 256) demo_regs) as [_ E].
  - reflexivity || (apply Z.leb_le; reflexivity).
  - apply demo_identity; apply Z.leb_le; reflexivity.
  - apply demo_identity; apply Z.leb_le; reflexivity.
  - reflexivity.
  - reflexivity.
  - reflexivity.
  - rewrite (E a3); [reflexivity|lia|lia].
Defined.
