(* ===== verification/Mkfs.v ===== *)
(** [mkfs/mkfs.c]: building the initial file system.  The image is a map from block
    numbers to blocks; the host's files are the parameter [files], names with contents.
    [None] is a failed [assert] or a call of [die].  The fields that the code keeps in
    little-endian order in memory are kept as numbers here and converted where they are written to a block, by
    [le_bytes], which is what [xshort] and [xint] do. *)
From S2P Require Import Prelude Types Str Printf.

Abbreviation NINODES := 200.
Definition nbitmap : Z := FSSIZE / BPB + 1.
Definition ninodeblocks : Z := NINODES / IPB + 1.
Abbreviation nlog := LOGSIZE.
Definition nmeta : Z := 2 + nlog + ninodeblocks + nbitmap.
Definition nblocks : Z := FSSIZE - nmeta.

(** The bytes in memory of the number returned. *)
Definition xshort (x : Z) : list Z := [u8 x; u8 (Z.shiftr x 8)].
Definition xint (x : Z) : list Z := [u8 x; u8 (Z.shiftr x 8); u8 (Z.shiftr x 16); u8 (Z.shiftr x 24)].

Lemma xshort_le x : xshort x = le_bytes 2 x.
Proof. unfold xshort, u8. by rewrite Z.shiftr_div_pow2. Qed.
Lemma xint_le x : xint x = le_bytes 4 x.
Proof. unfold xint, u8. rewrite !Z.shiftr_div_pow2 by done. cbn. by rewrite !Z.div_div. Qed.

(** The fields in the order of [struct superblock]. *)
Definition mkfs_sb : superblock :=
  SuperBlock FSMAGIC FSSIZE nblocks NINODES nlog 2 (2 + nlog) (2 + nlog + ninodeblocks).

Definition sb_bytes (v : superblock) : list Z :=
  flat_map xint
    [sb_magic v; sb_size v; sb_nblocks v; sb_ninodes v; sb_nlog v; sb_logstart v; sb_inodestart v; sb_bmapstart v].

(** ** State *)

Record img := Img {
  m_blocks : gmap Z (list Z);
  m_freeinode : Z;
  m_freeblock : Z
}.

Definition MK (A : Type) : Type := img -> option (A * img).
Definition mk_ret {A} (a : A) : MK A := fun s => Some (a, s).
Definition mk_bind {A B} (c : MK A) (k : A -> MK B) : MK B := fun s =>
  match c s with Some (a, s') => k a s' | None => None end.
Definition mk_die {A} : MK A := fun _ => None.
Declare Scope mkfs_scope.
Delimit Scope mkfs_scope with mkfs.
Notation "'let*' x := c 'in' k" := (mk_bind c (fun x => k))
  (at level 10, x pattern, c at level 100, k at level 200) : mkfs_scope.
Open Scope mkfs_scope.

Definition wsect (sec : Z) (buf : list Z) : MK unit := fun s =>
  Some (tt, Img (<[sec := buf]> (m_blocks s)) (m_freeinode s) (m_freeblock s)).
(** Reading past the end of the image gets less than a block. *)
Definition rsect (sec : Z) : MK (list Z) := fun s =>
  match m_blocks s !! sec with Some buf => Some (buf, s) | None => None end.

(** [freeblock++] and [freeinode++]. *)
Definition next_block : MK Z := fun s =>
  Some (m_freeblock s, Img (m_blocks s) (m_freeinode s) (u32 (m_freeblock s + 1))).
Definition next_inode : MK Z := fun s =>
  Some (m_freeinode s, Img (m_blocks s) (u32 (m_freeinode s + 1)) (m_freeblock s)).

(** ** Inodes: the 64 bytes of a [struct dinode] *)

Definition DINODE : nat := 64.
Definition ioff (inum : Z) : nat := DINODE * Z.to_nat (inum mod IPB).

Definition winode (inum : Z) (din : list Z) : MK unit :=
  let bn := IBLOCK inum (sb_inodestart mkfs_sb) in
  let* buf := rsect bn in
  wsect bn (take (ioff inum) buf ++ din ++ drop (ioff inum + DINODE) buf).

Definition rinode (inum : Z) : MK (list Z) :=
  let bn := IBLOCK inum (sb_inodestart mkfs_sb) in
  let* buf := rsect bn in
  mk_ret (take DINODE (drop (ioff inum) buf)).

Definition ialloc (type : Z) : MK Z :=
  let* inum := next_inode in
  let din := put32 (put16 (put16 (replicate DINODE 0) 0 type) 6 1) 8 0 in
  let* _ := winode inum din in
  mk_ret inum.

(** [din.addrs[k]]. *)
Definition din_addr (din : list Z) (k : Z) : Z := getu32 din (12 + 4 * Z.to_nat k).
Definition set_din_addr (din : list Z) (k v : Z) : list Z := put32 din (12 + 4 * Z.to_nat k) v.

(** [if(x == 0) x = freeblock++]: the inode with the entry filled in. *)
Definition need_addr (din : list Z) (k : Z) : MK (list Z) :=
  if din_addr din k =? 0 then
    let* b := next_block in
    mk_ret (set_din_addr din k b)
  else mk_ret din.

(** The block that holds file block [fbn], allocated when there is none. *)
Definition file_block (din : list Z) (fbn : Z) : MK (list Z * Z) :=
  if fbn <? NDIRECT then
    let* din := need_addr din fbn in
    mk_ret (din, din_addr din fbn)
  else
    let* din := need_addr din NDIRECT in
    let ib := din_addr din NDIRECT in
    let* indirect := rsect ib in
    let slot := (4 * Z.to_nat (fbn - NDIRECT))%nat in
    if getu32 indirect slot =? 0 then
      let* b := next_block in
      let indirect := put32 indirect slot b in
      let* _ := wsect ib indirect in
      mk_ret (din, getu32 indirect slot)
    else mk_ret (din, getu32 indirect slot).

(** The loop of [iappend]; every round writes at least one byte. *)
Fixpoint iappend_loop (din : list Z) (off : Z) (p : list Z) (fuel : nat) : MK (list Z * Z) :=
  match p, fuel with
  | [], _ => mk_ret (din, off)
  | _, O => mk_die
  | _, S fuel' =>
      let fbn := off / BSIZE in
      if fbn <? MAXFILE then
        let* (din, x) := file_block din fbn in
        let n1 := Z.min (Z.of_nat (length p)) ((fbn + 1) * BSIZE - off) in
        let* buf := rsect x in
        let o := Z.to_nat (off - fbn * BSIZE) in
        let* _ := wsect x (take o buf ++ take (Z.to_nat n1) p ++ drop (o + Z.to_nat n1) buf) in
        iappend_loop din (off + n1) (drop (Z.to_nat n1) p) fuel'
      else mk_die
  end.

Definition iappend (inum : Z) (p : list Z) : MK unit :=
  let* din := rinode inum in
  let* (din, off) := iappend_loop din (getu32 din 8) p (length p) in
  winode inum (put32 din 8 off).

(** ** The bitmap *)

Fixpoint bitmap_loop (buf : list Z) (i : Z) (k : nat) : list Z :=
  match k with
  | O => buf
  | S k' =>
      let j := Z.to_nat (i / 8) in
      bitmap_loop (<[j := Z.lor (nth j buf 0) (Z.shiftl 1 (i mod 8))]> buf) (i + 1) k'
  end.

Definition balloc (used : Z) : MK unit :=
  if used <? BPB then
    wsect (sb_bmapstart mkfs_sb) (bitmap_loop (replicate (Z.to_nat BSIZE) 0) 0 (Z.to_nat used))
  else mk_die.

(** ** [main] *)

Fixpoint zero_blocks (i : Z) (k : nat) : MK unit :=
  match k with
  | O => mk_ret tt
  | S k' =>
      let* _ := wsect i (replicate (Z.to_nat BSIZE) 0) in
      zero_blocks (i + 1) k'
  end.

(** A directory entry: [bzero], the number, and the name. *)
Definition dirent (inum : Z) (name : list Z) : list Z :=
  xshort (u16 inum) ++ strncpy (replicate 14 0) name DIRSIZ.

(** The [while] that copies a file in pieces of [BSIZE]. *)
Fixpoint append_file (inum : Z) (bs : list Z) (fuel : nat) : MK unit :=
  match bs, fuel with
  | [], _ => mk_ret tt
  | _, O => mk_die
  | _, S fuel' =>
      let* _ := iappend inum (take (Z.to_nat BSIZE) bs) in
      append_file inum (drop (Z.to_nat BSIZE) bs) fuel'
  end.

(** The name in the file system: without "user/" and without a leading underscore. *)
Definition strip_user (name : list Z) : list Z :=
  if strncmp name (lit "user/") 5 =? 0 then drop 5 name else name.
Definition strip_underscore (name : list Z) : list Z :=
  match name with c :: name' => if c =? 95 then name' else name | [] => [] end.

Fixpoint add_files (rootino : Z) (files : list (list Z * list Z)) : MK unit :=
  match files with
  | [] => mk_ret tt
  | (name, bs) :: files' =>
      let shortname := strip_user name in
      if existsb (Z.eqb 47) shortname then mk_die
      else
        let shortname := strip_underscore shortname in
        if negb (Z.of_nat (length shortname) <=? DIRSIZ) then mk_die
        else
          let* inum := ialloc T_FILE in
          let* _ := iappend rootino (dirent inum shortname) in
          let* _ := append_file inum bs (length bs) in
          add_files rootino files'
  end.

Definition build (files : list (list Z * list Z)) : MK unit :=
  let* _ := zero_blocks 0 (Z.to_nat FSSIZE) in
  let* _ := wsect 1 (sb_bytes mkfs_sb ++ replicate (Z.to_nat BSIZE - 32) 0) in
  let* rootino := ialloc T_DIR in
  if negb (rootino =? ROOTINO) then mk_die
  else
    let* _ := iappend rootino (dirent rootino (lit ".")) in
    let* _ := iappend rootino (dirent rootino (lit "..")) in
    let* _ := add_files rootino files in
    let* din := rinode rootino in
    let off := (getu32 din 8 / BSIZE + 1) * BSIZE in
    let* _ := winode rootino (put32 din 8 off) in
    fun s => balloc (m_freeblock s) s.

Definition mkfs (files : list (list Z * list Z)) : option (gmap Z (list Z)) :=
  option_map (fun p => m_blocks p.2) (build files (Img ∅ 1 nmeta)).
