(* ===== verification/PrintThms.v ===== *)
(** What [printf] prints for a number, and for which numbers [printint]'s buffer is
    large enough. *)
From S2P Require Import Prelude Types Sched Uart Printf.

(** ** Reading a number back *)

(** Decimal, and hexadecimal in either case. *)
Definition undigit (c : Z) : Z := if c <=? 57 then c - 48 else if c <=? 70 then c - 55 else c - 87.

(** Digits with the least significant one first. *)
Fixpoint digits_val (base : Z) (l : list Z) : Z :=
  match l with
  | [] => 0
  | c :: l' => undigit c + base * digits_val base l'
  end.

(** The number a printed string denotes. *)
Definition read_int (base : Z) (out : list Z) : Z :=
  match out with
  | 45 :: ds => - digits_val base (rev ds)
  | ds => digits_val base (rev ds)
  end.

Lemma undigit_digit d : 0 <= d < 16 -> undigit (digit d) = d /\ digit d <> 45.
Proof.
  intros H. assert (exists n, d = Z.of_nat n /\ (n < 16)%nat) as (n & -> & Hn) by (exists (Z.to_nat d); lia).
  do 16 (destruct n as [|n]; [done|]). lia.
Qed.

(** The loop gives the digits of [x] and stops after the last one that counts. *)
Lemma digits_loop_spec base fuel : forall x,
  2 <= base <= 16 -> 0 <= x < base ^ Z.of_nat fuel -> (0 < fuel)%nat ->
  digits_val base (digits_loop x base fuel) = x /\
  (forall c, c ∈ digits_loop x base fuel -> c <> 45) /\
  exists k, length (digits_loop x base fuel) = S k /\ (k < fuel)%nat /\
    x < base ^ Z.of_nat (S k) /\ ((0 < k)%nat -> base ^ Z.of_nat k <= x).
Proof.
  induction fuel as [|fuel IH]; intros x Hb Hx Hf; [lia|]. cbn [digits_loop].
  pose proof (Z.mod_pos_bound x base ltac:(lia)) as Hm. pose proof (Z.div_mod x base ltac:(lia)) as Hd.
  destruct (undigit_digit (x mod base) ltac:(lia)) as [Eu Hn].
  destruct (Z.eqb_spec (x / base) 0) as [E0|E0]; cbn [negb].
  - cbn [digits_val length]. split; [rewrite Eu; lia|]. split; [intros c Hc; by apply list_elem_of_singleton in Hc as ->|].
    exists 0%nat. split_and!; lia.
  - assert (0 <= x / base) by (apply Z.div_pos; lia).
    assert (0 < x / base < base ^ Z.of_nat fuel) as Hq.
    { split; [lia|]. apply Z.div_lt_upper_bound; [lia|].
      rewrite <- Z.pow_succ_r by lia. replace (Z.succ (Z.of_nat fuel)) with (Z.of_nat (S fuel)) by lia. lia. }
    assert (0 < fuel)%nat by (destruct fuel; [cbn in Hq; lia|lia]).
    destruct (IH (x / base) Hb ltac:(lia) ltac:(lia)) as (Ev & Hc & k & Hl & Hk & Hhi & Hlo).
    cbn [digits_val length]. split; [rewrite Eu, Ev; lia|]. split.
    { intros c Hin. apply elem_of_cons in Hin as [->|Hin]; [done|by apply Hc]. }
    exists (S k). rewrite Hl. split_and!; try lia.
    + replace (Z.of_nat (S (S k))) with (Z.succ (Z.of_nat (S k))) by lia. rewrite Z.pow_succ_r by lia. nia.
    + intros _. replace (Z.of_nat (S k)) with (Z.succ (Z.of_nat k)) by lia. rewrite Z.pow_succ_r by lia.
      destruct k as [|k]; [change (Z.of_nat 0) with 0; rewrite Z.pow_0_r; nia|].
      specialize (Hlo ltac:(lia)). nia.
Qed.

(** A 64-bit number in base 10 or 16: 64 rounds are enough, and the number of digits
    says how large it is. *)
Lemma digits_64 x base :
  base = 10 \/ base = 16 -> 0 <= x < 2 ^ 64 ->
  digits_val base (digits_loop x base 64) = x /\
  (forall c, c ∈ digits_loop x base 64 -> c <> 45) /\
  exists k, length (digits_loop x base 64) = S k /\
    x < base ^ Z.of_nat (S k) /\ ((0 < k)%nat -> base ^ Z.of_nat k <= x).
Proof.
  intros Hb Hx. assert (2 ^ 64 < base ^ Z.of_nat 64) by (destruct Hb as [-> | ->]; vm_compute; done).
  destruct (digits_loop_spec base 64 x) as (E & Hc & k & Hl & _ & H1 & H2); [lia..|].
  split; [done|]. split; [done|]. by exists k.
Qed.

(** The number [printint] prints. *)
Definition shown (xx : Z) (sign : bool) : Z := if sign then xx else u64 xx.

(** whenever the digits fit its buffer, [printint] prints the number it was given:
    read back in the same base, the output is the argument, signed or taken as
    unsigned. *)
Theorem printint_correct xx base sign out :
  base = 10 \/ base = 16 -> - 2 ^ 63 <= xx < 2 ^ 63 ->
  printint xx base sign = Some out -> read_int base out = shown xx sign.
Proof.
  intros Hb Hx. unfold printint, printint_buf, shown, u64. destruct (sign && (xx <? 0)) eqn:Es.
  - apply andb_true_iff in Es as [-> Hneg%Z.ltb_lt]. rewrite (Z.mod_small (- xx)) by lia.
    destruct (digits_64 (- xx) base Hb ltac:(lia)) as (Ev & _ & _).
    revert Ev. generalize (digits_loop (- xx) base 64) as ds. intros ds Ev.
    case_match; [|done]. intros [= <-]. rewrite rev_app_distr. cbn [rev app read_int].
    rewrite rev_involutive. lia.
  - pose proof (Z.mod_pos_bound xx (2 ^ 64) ltac:(lia)) as Hm.
    destruct (digits_64 (xx mod 2 ^ 64) base Hb ltac:(lia)) as (Ev & Hc & _).
    revert Ev Hc. generalize (digits_loop (xx mod 2 ^ 64) base 64) as ds. intros ds Ev Hc.
    case_match; [|done]. intros [= <-]. rewrite app_nil_r.
    assert (read_int base (rev ds) = digits_val base ds) as ->.
    { unfold read_int. destruct (rev ds) as [|c l] eqn:E.
      - by rewrite <- (rev_involutive ds), E.
      - assert (c <> 45) by (apply Hc; apply list_elem_of_In, in_rev; rewrite E; by left).
        rewrite <- (rev_involutive ds), E. by repeat case_match. }
    rewrite Ev. destruct sign; [|done]. cbn in Es. apply Z.ltb_ge in Es. apply Z.mod_small. lia.
Qed.

Lemma printint_correct_witness : read_int 10 (lit "-2147483648") = - 2147483648.
Proof. apply (printint_correct (- 2147483648) 10 true); [lia|lia|reflexivity]. Defined.

Lemma digits_len x base n :
  base = 10 \/ base = 16 -> 0 <= x < 2 ^ 64 ->
  (length (digits_loop x base 64) <= S n)%nat <-> x < base ^ Z.of_nat (S n).
Proof.
  intros Hb H. destruct (digits_64 x base Hb H) as (_ & _ & k & -> & Hhi & Hlo).
  assert (0 < base) by lia. split.
  - intros Hk. eapply Z.lt_le_trans; [exact Hhi|]. apply Z.pow_le_mono_r; lia.
  - intros Hn. destruct (decide (k <= n)%nat); [lia|].
    specialize (Hlo ltac:(lia)). assert (base ^ Z.of_nat (S n) <= base ^ Z.of_nat k)
      by (apply Z.pow_le_mono_r; lia). lia.
Qed.

Lemma printint_none xx base sign :
  printint xx base sign = None <-> ~ (length (printint_buf xx base sign) <= 16)%nat.
Proof.
  unfold printint. cbv zeta. destruct (Nat.leb_spec (length (printint_buf xx base sign)) 16); split; done || lia.
Qed.

(** The characters of a number that is printed without a sign, and with one. *)
Lemma printint_buf_plain xx base sign :
  sign && (xx <? 0) = false -> printint_buf xx base sign = digits_loop (u64 xx) base 64.
Proof. unfold printint_buf. intros ->. apply app_nil_r. Qed.

Lemma printint_buf_neg xx base :
  xx < 0 -> length (printint_buf xx base true) = S (length (digits_loop (u64 (- xx)) base 64)).
Proof.
  intros H. unfold printint_buf. rewrite (proj2 (Z.ltb_lt _ _) H). cbn [andb]. rewrite length_app. cbn [length]. lia.
Qed.

(** C39: which numbers fit.  Every hexadecimal number does; a decimal one does when it
    has at most 16 characters, sign included, and a longer one is written past the end
    of the buffer.  [printf] passes the argument of the unsigned conversion [%u] on as
    an [int] widened with its sign, so that every unsigned number from 2^31 on has 20
    digits there. *)
Theorem printint_bounds xx :
  - 2 ^ 63 <= xx < 2 ^ 63 ->
  is_Some (printint xx 16 false) /\
  (printint xx 10 false = None <-> 10 ^ 16 <= u64 xx) /\
  (printint xx 10 true = None <-> (xx <= - 10 ^ 15 \/ 10 ^ 16 <= xx)) /\
  (2 ^ 31 <= xx < 2 ^ 32 -> printint (i32 xx) 10 false = None).
Proof.
  intros Hx. assert (forall y, 0 <= u64 y < 2 ^ 64) as Hu by (intros y; apply Z.mod_pos_bound; lia).
  assert (forall y, printint y 10 false = None <-> 10 ^ 16 <= u64 y) as Hun.
  { intros y. rewrite printint_none, printint_buf_plain by done.
    rewrite (digits_len _ 10 15) by (try left; auto). change (Z.of_nat 16) with 16. lia. }
  split_and!.
  - apply not_eq_None_Some. rewrite printint_none, printint_buf_plain by done.
    rewrite (digits_len _ 16 15) by (try right; auto). specialize (Hu xx).
    change (16 ^ Z.of_nat 16) with (2 ^ 64). lia.
  - apply Hun.
  - rewrite printint_none. destruct (Z.ltb_spec xx 0) as [Hn|Hn].
    + rewrite printint_buf_neg by done.
      rewrite <- Nat.succ_le_mono, (digits_len _ 10 14) by (try left; auto). change (Z.of_nat 15) with 15.
      unfold u64. rewrite Z.mod_small by lia. lia.
    + rewrite printint_buf_plain by (rewrite andb_true_l; lia).
      rewrite (digits_len _ 10 15) by (try left; auto). change (Z.of_nat 16) with 16.
      unfold u64. rewrite Z.mod_small by lia. lia.
  - intros H. apply Hun. replace (i32 xx) with (xx - 2 ^ 32).
    + unfold u64. rewrite <- (Z.mod_unique (xx - 2 ^ 32) (2 ^ 64) (-1) (xx - 2 ^ 32 + 2 ^ 64)); lia.
    + unfold i32. rewrite <- (Z.mod_unique (xx + 2 ^ 31) (2 ^ 32) 1 (xx + 2 ^ 31 - 2 ^ 32)); lia.
Qed.

Lemma printint_bounds_witness :
  is_Some (printint 4294967295 16 false) /\
  (printint 4294967295 10 false = None <-> 10 ^ 16 <= u64 4294967295) /\
  (printint 4294967295 10 true = None <-> (4294967295 <= - 10 ^ 15 \/ 10 ^ 16 <= 4294967295)) /\
  (2 ^ 31 <= 4294967295 < 2 ^ 32 -> printint (i32 4294967295) 10 false = None).
Proof. apply (printint_bounds 4294967295). lia. Defined.
