(* ===== verification/Ulib.v ===== *)
(** [user/ulib.c]: the string functions of user programs.

    A C string is the list of its characters; reading past the end of the list gives
    the terminating NUL.  Memory is a map from addresses to bytes. *)
From S2P Require Import Prelude.
From Stdlib Require Ascii String.

(** The characters of a string literal. *)
Definition str (s : string) : list Z := map (fun a => Z.of_nat (Ascii.nat_of_ascii a)) (String.list_ascii_of_string s).

(** A literal that ends with a newline. *)
Definition line_of (s : string) : list Z := str s ++ [10].

Definition char_at (s : list Z) (i : nat) : Z := nth i s 0.

(** The characters before the terminating NUL. *)
Fixpoint cstring (s : list Z) : list Z :=
  match s with
  | [] => []
  | c :: s' => if c =? 0 then [] else c :: cstring s'
  end.

(** What [strcpy] leaves at [s]: the string, its NUL, and the rest of the array. *)
Fixpoint strcpy (s t : list Z) : list Z :=
  match t with
  | [] => 0 :: tail s
  | c :: t' => if c =? 0 then 0 :: tail s else c :: strcpy (tail s) t'
  end.

Fixpoint strcmp (p q : list Z) : Z :=
  match p with
  | [] => 0 - u8 (char_at q 0)
  | c :: p' =>
      if negb (c =? 0) && (c =? char_at q 0) then strcmp p' (tail q)
      else u8 c - u8 (char_at q 0)
  end.

Fixpoint strlen (s : list Z) : Z :=
  match s with
  | [] => 0
  | c :: s' => if c =? 0 then 0 else 1 + strlen s'
  end.

(** [strchr]: the position of the character in the C string. *)
Fixpoint strchr (s : list Z) (c : Z) : option nat :=
  match s with
  | [] => None
  | x :: s' => if x =? 0 then None else if x =? c then Some O else option_map S (strchr s' c)
  end.

(** The arithmetic is that of [int]. *)
Fixpoint atoi_loop (n : Z) (s : list Z) : Z :=
  match s with
  | [] => n
  | c :: s' => if (48 <=? c) && (c <=? 57) then atoi_loop (i32 (n * 10 + c - 48)) s' else n
  end.
Definition atoi (s : list Z) : Z := atoi_loop 0 s.

(** ** Memory *)

Fixpoint memset_loop (m : gmap Z Z) (dst c : Z) (i : Z) (k : nat) : gmap Z Z :=
  match k with
  | O => m
  | S k' => memset_loop (<[dst + i := u8 c]> m) dst c (i + 1) k'
  end.
Definition memset (m : gmap Z Z) (dst c n : Z) : gmap Z Z := memset_loop m dst c 0 (Z.to_nat n).

(** The two directions of [memmove]. *)
Fixpoint move_up (m : gmap Z Z) (dst src : Z) (n : nat) : gmap Z Z :=
  match n with
  | O => m
  | S n' => move_up (<[dst := mget m src]> m) (dst + 1) (src + 1) n'
  end.
Fixpoint move_down (m : gmap Z Z) (dst src : Z) (n : nat) : gmap Z Z :=
  match n with
  | O => m
  | S n' => move_down (<[dst - 1 := mget m (src - 1)]> m) (dst - 1) (src - 1) n'
  end.
Definition memmove (m : gmap Z Z) (dst src n : Z) : gmap Z Z :=
  if dst <? src then move_up m dst src (Z.to_nat n)
  else move_down m (dst + n) (src + n) (Z.to_nat n).
Definition memcpy (m : gmap Z Z) (dst src n : Z) : gmap Z Z := memmove m dst src n.

Fixpoint memcmp (s1 s2 : list Z) (n : nat) : Z :=
  match n with
  | O => 0
  | S n' =>
      if negb (char_at s1 0 =? char_at s2 0) then char_at s1 0 - char_at s2 0
      else memcmp (tail s1) (tail s2) n'
  end.

Lemma strchr_elem s c : Forall (fun x => x <> 0) s ->
  match strchr s c with Some _ => true | None => false end = bool_decide (c ∈ s).
Proof.
  induction 1 as [|x s Hx Hs IH]; [done|]. cbn. rewrite (proj2 (Z.eqb_neq _ _) Hx).
  destruct (Z.eqb_spec x c) as [->|Hn].
  - symmetry. apply bool_decide_eq_true. apply list_elem_of_here.
  - transitivity (bool_decide (c ∈ s)); [rewrite <- IH; by destruct (strchr s c)|].
    apply bool_decide_ext. rewrite elem_of_cons. naive_solver.
Qed.
