(* ===== verification/Usys.v ===== *)
(** User programs as trees of system calls, the parts of [user/ulib.c] that make some, and
    [user/printf.c]: formatted output, of which every character is a [write] of its
    own. *)
From S2P Require Import Prelude Ulib.

(** The fields of [struct stat] that programs look at. *)
Record ustat := UStat { us_type : Z; us_ino : Z; us_size : Z }.

(** A system call with what it gives back: the value in [a0], and what it stores through
    the pointers it was given.  [WriteFrom] and [ReadInto] are [write] and [read] with an
    address that is not a buffer of the program's; [Load] and [Store] access a byte at
    such an address, and do not come back if that faults. *)
Inductive sysc : Type -> Type :=
  | Fork : sysc Z
  | Wait : sysc (Z * Z)
  | PipeC : sysc (Z * (Z * Z))
  | Write (fd : Z) (l : list Z) : sysc Z
  | Read (fd n : Z) : sysc (Z * list Z)
  | Close (fd : Z) : sysc Z
  | Kill (pid : Z) : sysc Z
  | Exec (path : list Z) (argv : list (list Z)) : sysc Z
  | Open (path : list Z) (mode : Z) : sysc Z
  | Mknod (path : list Z) (major minor : Z) : sysc Z
  | Unlink (path : list Z) : sysc Z
  | Fstat (fd : Z) : sysc (Z * ustat)
  | Link (old new : list Z) : sysc Z
  | Mkdir (path : list Z) : sysc Z
  | Chdir (path : list Z) : sysc Z
  | Dup (fd : Z) : sysc Z
  | Getpid : sysc Z
  | Sbrk (n : Z) : sysc Z
  | Sleep (n : Z) : sysc Z
  | Uptime : sysc Z
  | WriteFrom (fd addr n : Z) : sysc Z
  | ReadInto (fd addr n : Z) : sysc Z
  | Load (addr : Z) : sysc Z
  | Store (addr v : Z) : sysc unit.

(** [Exit] does not return; [Spin] is a loop that ran out of its bound. *)
Inductive prog (A : Type) : Type :=
  | Ret (a : A)
  | Vis (R : Type) (e : sysc R) (k : R -> prog A)
  | Exit (status : Z)
  | Spin.
Arguments Ret {A} a.
Arguments Vis {A R} e k.
Arguments Exit {A} status.
Arguments Spin {A}.

Fixpoint bind {A B} (p : prog A) (f : A -> prog B) : prog B :=
  match p with
  | Ret a => f a
  | Vis e k => Vis e (fun r => bind (k r) f)
  | Exit s => Exit s
  | Spin => Spin
  end.
Definition call {R} (e : sysc R) : prog R := Vis e (fun r => Ret r).

#[export] Instance prog_ret : MRet prog := fun A a => Ret a.
#[export] Instance prog_bind : MBind prog := fun A B f p => bind p f.

(** ** Statements *)

(** [if] without [else]. *)
Definition when (b : bool) (p : prog unit) : prog unit := if b then p else Ret tt.

(** [for(i = start; ...; i += step)] with [n] rounds. *)
Fixpoint for_from (n : nat) (start step : Z) (body : Z -> prog unit) : prog unit :=
  match n with
  | O => Ret tt
  | S n' => body start ;; for_from n' (start + step) step body
  end.
Definition for_upto (n : nat) (body : Z -> prog unit) : prog unit := for_from n 0 1 body.

Fixpoint for_each {A} (l : list A) (body : A -> prog unit) : prog unit :=
  match l with
  | [] => Ret tt
  | a :: l' => body a ;; for_each l' body
  end.

(** A loop over the values its variables take: [inl] goes round again, [inr] is a
    [break]. *)
Fixpoint loop {A B} (fuel : nat) (body : A -> prog (A + B)) (a : A) : prog B :=
  match fuel with
  | O => Spin
  | S fuel' =>
      r ← body a;
      match r with
      | inl a' => loop fuel' body a'
      | inr b => Ret b
      end
  end.

(** A buffer after a [read] that returned [n] and the bytes [l]. *)
Definition refill (buf : list Z) (n : Z) (l : list Z) : list Z :=
  take (Z.to_nat n) l ++ drop (Z.to_nat n) buf.

(** ** [ulib.c] *)

(** [start]: [main] and then [exit(0)]. *)
Definition start (main : prog Z) : prog Z := main ;; Exit 0.

Definition stat (n : list Z) : prog (Z * ustat) :=
  fd ← call (Open n 0);
  if fd <? 0 then Ret (-1, UStat 0 0 0)
  else
    '(r, st) ← call (Fstat fd);
    call (Close fd) ;;
    Ret (r, st).

(** The characters [gets] stores before the NUL; [k] is how many there is still room
    for. *)
Fixpoint gets_loop (k : nat) : prog (list Z) :=
  match k with
  | O => Ret []
  | S k' =>
      '(cc, c) ← call (Read 0 1);
      if cc <? 1 then Ret []
      else
        let c := char_at c 0 in
        if (c =? 10) || (c =? 13) then Ret [c]
        else rest ← gets_loop k'; Ret (c :: rest)
  end.
Definition gets (max : nat) : prog (list Z) := gets_loop (max - 1).

(** What a caller passes for the dots: a number, or a string ([None]: a null pointer). *)
Inductive uarg := UNum (v : Z) | UStr (s : option (list Z)).

Definition udigit (d : Z) : Z := nth (Z.to_nat d) (str "0123456789ABCDEF") 0.

(** The [do] loop, the least significant digit first; 32 rounds are enough for 32
    bits. *)
Fixpoint udigits_loop (x base : Z) (fuel : nat) : list Z :=
  match fuel with
  | O => []
  | S fuel' =>
      udigit (x mod base) ::
      (if negb (x / base =? 0) then udigits_loop (x / base) base fuel' else [])
  end.

(** The characters in [buf] before they are printed backwards.  The parameter [xx] is an
    [int] and [x] is a [uint]. *)
Definition uprintint_buf (xx base : Z) (sgn : bool) : list Z :=
  let xx := i32 xx in
  let neg := sgn && (xx <? 0) in
  let x := if neg then u32 (- xx) else u32 xx in
  udigits_loop x base 32 ++ (if neg then [45] else []).

(** [None]: more characters than [buf] has room for. *)
Definition uprintint (xx base : Z) (sgn : bool) : option (list Z) :=
  let buf := uprintint_buf xx base sgn in
  if (length buf <=? 16)%nat then Some (rev buf) else None.

Fixpoint uprintptr_loop (x : Z) (k : nat) : list Z :=
  match k with
  | O => []
  | S k' => udigit (Z.shiftr x 60) :: uprintptr_loop (u64 (Z.shiftl x 4)) k'
  end.

Definition uprintptr (x : Z) : list Z := str "0x" ++ uprintptr_loop x 16.

(** What follows the percent sign, and how many characters it takes. *)
Inductive uconv :=
  | UInt (base : Z) (sgn : bool) (n : nat)
  | UPtr | USt | UPercent | UUnknown (c : Z).

Definition uconversion (f : list Z) : uconv :=
  let c0 := char_at f 0 in
  let c1 := if c0 =? 0 then 0 else char_at f 1 in
  let c2 := if c1 =? 0 then 0 else char_at f 2 in
  let d := 100 in let l := 108 in let u := 117 in let x := 120 in
  if c0 =? d then UInt 10 true 1
  else if (c0 =? l) && (c1 =? d) then UInt 10 true 2
  else if (c0 =? l) && (c1 =? l) && (c2 =? d) then UInt 10 true 3
  else if c0 =? u then UInt 10 false 1
  else if (c0 =? l) && (c1 =? u) then UInt 10 false 2
  else if (c0 =? l) && (c1 =? l) && (c2 =? u) then UInt 10 false 3
  else if c0 =? x then UInt 16 false 1
  else if (c0 =? l) && (c1 =? x) then UInt 16 false 2
  else if (c0 =? l) && (c1 =? l) && (c2 =? x) then UInt 16 false 3
  else if c0 =? 112 then UPtr
  else if c0 =? 115 then USt
  else if c0 =? 37 then UPercent
  else UUnknown c0.

(** The loop of [vprintf]: the characters passed to [putc], in order.  [state] is whether
    the last character was a percent sign.  [None]: an argument is missing or of the
    wrong kind, or a number does not fit its buffer. *)
Fixpoint vprintf_loop (state : bool) (f : list Z) (args : list uarg) (fuel : nat) : option (list Z) :=
  match fuel with
  | O => Some []
  | S fuel' =>
      let c0 := char_at f 0 in
      if c0 =? 0 then Some []
      else
        let put out f args := option_map (app out) (vprintf_loop false f args fuel') in
        if negb state then
          if c0 =? 37 then vprintf_loop true (tail f) args fuel' else put [c0] (tail f) args
        else
          match uconversion f, args with
          | UInt base sgn n, UNum v :: args =>
              match uprintint v base sgn with
              | Some out => put out (drop n f) args
              | None => None
              end
          | UPtr, UNum v :: args => put (uprintptr (u64 v)) (drop 1 f) args
          | USt, UStr s :: args => put (cstring (default (str "(null)") s)) (drop 1 f) args
          | UPercent, args => put [37] (drop 1 f) args
          | UUnknown c, args => put [37; c] (drop 1 f) args
          | _, _ => None
          end
  end.

Definition vprintf_bytes (fmt : list Z) (args : list uarg) : option (list Z) :=
  vprintf_loop false fmt args (S (length fmt)).

Definition putc (fd c : Z) : prog Z := call (Write fd [c]).

Fixpoint putcs (fd : Z) (l : list Z) : prog unit :=
  match l with
  | [] => Ret tt
  | c :: l' => putc fd c ;; putcs fd l'
  end.

Definition vprintf (fd : Z) (fmt : list Z) (args : list uarg) : prog unit :=
  match vprintf_bytes fmt args with
  | Some out => putcs fd out
  | None => Spin
  end.

Definition fprintf (fd : Z) (fmt : list Z) (args : list uarg) : prog unit := vprintf fd fmt args.
Definition printf (fmt : list Z) (args : list uarg) : prog unit := vprintf 1 fmt args.
