(* ===== verification/Progs.v ===== *)
(** The small user programs: [cat.c], [echo.c], [wc.c], [ls.c], [init.c], [kill.c], [ln.c],
    [mkdir.c], [rm.c], [zombie.c], [forktest.c] and [stressfs.c].

    [argv] are the arguments with the program's name in front.  Loops whose number of
    rounds depends on what the system calls return take it as a bound. *)
From S2P Require Import Prelude Ulib Usys.

Abbreviation O_RDONLY := 0.
Abbreviation O_RDWR := 2.
Abbreviation O_CREATE := 0x200.

(** ** cat.c *)

Fixpoint cat (fd : Z) (fuel : nat) : prog unit :=
  match fuel with
  | O => Spin
  | S fuel' =>
      '(n, buf) ← call (Read fd 512);
      if 0 <? n then
        r ← call (Write 1 (take (Z.to_nat n) buf));
        if negb (r =? n) then
          fprintf 2 (line_of "cat: write error") [] ;;
          Exit 1
        else cat fd fuel'
      else if n <? 0 then
        fprintf 2 (line_of "cat: read error") [] ;;
        Exit 1
      else Ret tt
  end.

Fixpoint cat_files (args : list (list Z)) (fuel : nat) : prog Z :=
  match args with
  | [] => Exit 0
  | f :: args' =>
      fd ← call (Open f O_RDONLY);
      if fd <? 0 then
        fprintf 2 (line_of "cat: cannot open %s") [UStr (Some f)] ;;
        Exit 1
      else
        cat fd fuel ;;
        call (Close fd) ;;
        cat_files args' fuel
  end.

Definition cat_main (argv : list (list Z)) (fuel : nat) : prog Z :=
  if (length argv <=? 1)%nat then cat 0 fuel ;; Exit 0
  else cat_files (tail argv) fuel.

(** ** echo.c *)

Fixpoint echo_args (args : list (list Z)) : prog Z :=
  match args with
  | [] => Exit 0
  | a :: args' =>
      call (Write 1 (take (Z.to_nat (strlen a)) a)) ;;
      match args' with
      | _ :: _ => call (Write 1 (str " "))
      | [] => call (Write 1 (line_of ""))
      end ;;
      echo_args args'
  end.
Definition echo_main (argv : list (list Z)) : prog Z := echo_args (tail argv).

(** ** wc.c *)

Record counts := Counts { wc_l : Z; wc_w : Z; wc_c : Z; wc_inword : bool }.

(** The [for] over a buffer. *)
Fixpoint wc_scan (s : counts) (buf : list Z) : counts :=
  match buf with
  | [] => s
  | ch :: buf' =>
      let c := wc_c s + 1 in
      let l := if ch =? 10 then wc_l s + 1 else wc_l s in
      let s' :=
        match strchr [32; 13; 9; 10; 11] ch with
        | Some _ => Counts l (wc_w s) c false
        | None => if wc_inword s then Counts l (wc_w s) c true else Counts l (wc_w s + 1) c true
        end in
      wc_scan s' buf'
  end.

Fixpoint wc_loop (fd : Z) (s : counts) (fuel : nat) : prog (Z * counts) :=
  match fuel with
  | O => Spin
  | S fuel' =>
      '(n, buf) ← call (Read fd 512);
      if 0 <? n then wc_loop fd (wc_scan s (take (Z.to_nat n) buf)) fuel' else Ret (n, s)
  end.

Definition wc (fd : Z) (name : list Z) (fuel : nat) : prog unit :=
  '(n, s) ← wc_loop fd (Counts 0 0 0 false) fuel;
  if n <? 0 then
    printf (line_of "wc: read error") [] ;;
    Exit 1
  else printf (line_of "%d %d %d %s") [UNum (wc_l s); UNum (wc_w s); UNum (wc_c s); UStr (Some name)].

Fixpoint wc_files (args : list (list Z)) (fuel : nat) : prog Z :=
  match args with
  | [] => Exit 0
  | f :: args' =>
      fd ← call (Open f O_RDONLY);
      if fd <? 0 then
        printf (line_of "wc: cannot open %s") [UStr (Some f)] ;;
        Exit 1
      else
        wc fd f fuel ;;
        call (Close fd) ;;
        wc_files args' fuel
  end.

Definition wc_main (argv : list (list Z)) (fuel : nat) : prog Z :=
  if (length argv <=? 1)%nat then wc 0 [] fuel ;; Exit 0
  else wc_files (tail argv) fuel.

(** ** ls.c *)

Abbreviation DIRSIZ := 14%nat.

(** The [for] of [fmtname]: [p] goes down from the end; the result is the offset after
    the slash it finds. *)
Fixpoint slash_back (path : list Z) (p : nat) : nat :=
  if char_at path p =? 47 then S p
  else match p with O => O | S p' => slash_back path p' end.

Definition fmtname (path : list Z) : list Z :=
  let p := drop (slash_back path (Z.to_nat (strlen path))) path in
  let n := Z.to_nat (strlen p) in
  if (DIRSIZ <=? n)%nat then p
  else take n p ++ replicate (DIRSIZ - n) 32.

Definition ls_line (path : list Z) (st : ustat) : prog unit :=
  printf (line_of "%s %d %d %d") [UStr (Some (fmtname path)); UNum (us_type st); UNum (us_ino st); UNum (i32 (us_size st))].

(** The [while] over directory entries; [de] is 16 bytes, the inode number first. *)
Fixpoint ls_entries (fd : Z) (path : list Z) (fuel : nat) : prog unit :=
  match fuel with
  | O => Spin
  | S fuel' =>
      '(n, de) ← call (Read fd 16);
      if negb (n =? 16) then Ret tt
      else if char_at de 0 + 256 * char_at de 1 =? 0 then ls_entries fd path fuel'
      else
        let buf := cstring (path ++ [47] ++ take DIRSIZ (drop 2 de)) in
        '(r, st) ← stat buf;
        (if r <? 0 then printf (line_of "ls: cannot stat %s") [UStr (Some buf)]
         else ls_line buf st) ;;
        ls_entries fd path fuel'
  end.

Definition ls (path : list Z) (fuel : nat) : prog unit :=
  fd ← call (Open path O_RDONLY);
  if fd <? 0 then fprintf 2 (line_of "ls: cannot open %s") [UStr (Some path)]
  else
    '(r, st) ← call (Fstat fd);
    if r <? 0 then
      fprintf 2 (line_of "ls: cannot stat %s") [UStr (Some path)] ;;
      call (Close fd) ;;
      Ret tt
    else
      (if (us_type st =? 3) || (us_type st =? 2) then ls_line path st
       else if us_type st =? 1 then
         if 512 <? strlen path + 1 + 14 + 1 then printf (line_of "ls: path too long") []
         else ls_entries fd path fuel
       else Ret tt) ;;
      call (Close fd) ;;
      Ret tt.

Fixpoint ls_args (args : list (list Z)) (fuel : nat) : prog Z :=
  match args with
  | [] => Exit 0
  | a :: args' => ls a fuel ;; ls_args args' fuel
  end.

Definition ls_main (argv : list (list Z)) (fuel : nat) : prog Z :=
  if (length argv <? 2)%nat then ls (str ".") fuel ;; Exit 0
  else ls_args (tail argv) fuel.

(** ** kill.c, ln.c, mkdir.c, rm.c, zombie.c *)

Fixpoint kill_args (args : list (list Z)) : prog Z :=
  match args with
  | [] => Exit 0
  | a :: args' => call (Kill (atoi a)) ;; kill_args args'
  end.
Definition kill_main (argv : list (list Z)) : prog Z :=
  if (length argv <? 2)%nat then fprintf 2 (line_of "usage: kill pid...") [] ;; Exit 1
  else kill_args (tail argv).

Definition ln_main (argv : list (list Z)) : prog Z :=
  match argv with
  | [_; old; new] =>
      r ← call (Link old new);
      (if r <? 0 then fprintf 2 (line_of "link %s %s: failed") [UStr (Some old); UStr (Some new)] else Ret tt) ;;
      Exit 0
  | _ => fprintf 2 (line_of "Usage: ln old new") [] ;; Exit 1
  end.

Fixpoint mkdir_args (args : list (list Z)) : prog Z :=
  match args with
  | [] => Exit 0
  | a :: args' =>
      r ← call (Mkdir a);
      if r <? 0 then fprintf 2 (line_of "mkdir: %s failed to create") [UStr (Some a)] ;; Exit 0
      else mkdir_args args'
  end.
Definition mkdir_main (argv : list (list Z)) : prog Z :=
  if (length argv <? 2)%nat then fprintf 2 (line_of "Usage: mkdir files...") [] ;; Exit 1
  else mkdir_args (tail argv).

Fixpoint rm_args (args : list (list Z)) : prog Z :=
  match args with
  | [] => Exit 0
  | a :: args' =>
      r ← call (Unlink a);
      if r <? 0 then fprintf 2 (line_of "rm: %s failed to delete") [UStr (Some a)] ;; Exit 0
      else rm_args args'
  end.
Definition rm_main (argv : list (list Z)) : prog Z :=
  if (length argv <? 2)%nat then fprintf 2 (line_of "Usage: rm files...") [] ;; Exit 1
  else rm_args (tail argv).

Definition zombie_main : prog Z :=
  pid ← call Fork;
  (if 0 <? pid then call (Sleep 5) else Ret 0) ;;
  Exit 0.

(** ** init.c *)

(** The inner loop: until the shell is gone. *)
Fixpoint init_wait (pid : Z) (fuel : nat) : prog unit :=
  match fuel with
  | O => Spin
  | S fuel' =>
      '(wpid, _) ← call Wait;
      if wpid =? pid then Ret tt
      else if wpid <? 0 then printf (line_of "init: wait returned an error") [] ;; Exit 1
      else init_wait pid fuel'
  end.

Fixpoint init_loop (fuel rounds : nat) : prog Z :=
  match rounds with
  | O => Spin
  | S rounds' =>
      printf (line_of "init: starting sh") [] ;;
      pid ← call Fork;
      if pid <? 0 then printf (line_of "init: fork failed") [] ;; Exit 1
      else if pid =? 0 then
        call (Exec (str "sh") [str "sh"]) ;;
        printf (line_of "init: exec sh failed") [] ;;
        Exit 1
      else
        init_wait pid fuel ;;
        init_loop fuel rounds'
  end.

Definition init_main (fuel rounds : nat) : prog Z :=
  fd ← call (Open (str "console") O_RDWR);
  (if fd <? 0 then
     call (Mknod (str "console") 1 0) ;;
     call (Open (str "console") O_RDWR)
   else Ret 0) ;;
  call (Dup 0) ;;
  call (Dup 0) ;;
  init_loop fuel rounds.

(** ** forktest.c *)

(** The first loop: the number of children, and whether it ended with a failed [fork]. *)
Fixpoint forktest_forks (n : nat) (k : nat) : prog nat :=
  match k with
  | O => Ret n
  | S k' =>
      pid ← call Fork;
      if pid <? 0 then Ret n
      else if pid =? 0 then Exit 0
      else forktest_forks (S n) k'
  end.

Definition print (s : list Z) : prog unit := call (Write 1 (cstring s)) ;; Ret tt.

Fixpoint forktest_waits (n : nat) : prog unit :=
  match n with
  | O => Ret tt
  | S n' =>
      '(pid, _) ← call Wait;
      if pid <? 0 then print (line_of "wait stopped early") ;; Exit 1
      else forktest_waits n'
  end.

Definition forktest (N : nat) : prog unit :=
  print (line_of "fork test") ;;
  n ← forktest_forks 0 N;
  if (n =? N)%nat then print (line_of "fork claimed to work N times!") ;; Exit 1
  else
    forktest_waits n ;;
    '(pid, _) ← call Wait;
    if negb (pid =? -1) then print (line_of "wait got too many") ;; Exit 1
    else print (line_of "fork test OK").

Definition forktest_main : prog Z := forktest 1000 ;; Exit 0.

(** ** stressfs.c *)

Fixpoint stressfs_forks (i : Z) (k : nat) : prog Z :=
  match k with
  | O => Ret i
  | S k' => pid ← call Fork; if 0 <? pid then Ret i else stressfs_forks (i + 1) k'
  end.

Fixpoint stressfs_writes (fd : Z) (data : list Z) (k : nat) : prog unit :=
  match k with O => Ret tt | S k' => call (Write fd data) ;; stressfs_writes fd data k' end.
Fixpoint stressfs_reads (fd n : Z) (k : nat) : prog unit :=
  match k with O => Ret tt | S k' => call (Read fd n) ;; stressfs_reads fd n k' end.

Definition stressfs_main : prog Z :=
  printf (line_of "stressfs starting") [] ;;
  i ← stressfs_forks 0 4;
  printf (line_of "write %d") [UNum i] ;;
  let path := str "stressfs" ++ [48 + i] in
  fd ← call (Open path (Z.lor O_CREATE O_RDWR));
  stressfs_writes fd (replicate 512 97) 20 ;;
  call (Close fd) ;;
  printf (line_of "read") [] ;;
  fd ← call (Open path O_RDONLY);
  stressfs_reads fd 512 20 ;;
  call (Close fd) ;;
  call Wait ;;
  Exit 0.
