(* ===== verification/ProgThms.v ===== *)
(** What the user programs write. *)
From S2P Require Import Prelude Printf PrintThms.
From S2P Require Import Ulib Usys Progs.

(** ** Numbers *)

Definition upcase (c : Z) : Z := if c <=? 57 then c else c - 32.

Lemma udigit_upcase d : 0 <= d < 16 -> udigit d = upcase (digit d).
Proof.
  intros H. assert (exists n, d = Z.of_nat n /\ (n < 16)%nat) as (n & -> & Hn) by (exists (Z.to_nat d); lia).
  do 16 (destruct n as [|n]; [done|]). lia.
Qed.

Lemma undigit_upcase d : 0 <= d < 16 -> undigit (upcase (digit d)) = d /\ upcase (digit d) <> 45.
Proof.
  intros H. assert (exists n, d = Z.of_nat n /\ (n < 16)%nat) as (n & -> & Hn) by (exists (Z.to_nat d); lia).
  do 16 (destruct n as [|n]; [done|]). lia.
Qed.

Lemma udigits_map base fuel : forall x, 2 <= base <= 16 -> udigits_loop x base fuel = map upcase (digits_loop x base fuel).
Proof.
  induction fuel as [|fuel IH]; intros x Hb; [done|]. cbn [udigits_loop digits_loop map].
  rewrite udigit_upcase by (pose proof (Z.mod_pos_bound x base); lia). f_equal.
  destruct (negb (x / base =? 0)); [by apply IH|done].
Qed.

Lemma udigits_val base fuel : forall x, 2 <= base <= 16 ->
  digits_val base (udigits_loop x base fuel) = digits_val base (digits_loop x base fuel) /\
  (forall c, c ∈ udigits_loop x base fuel -> c <> 45).
Proof.
  induction fuel as [|fuel IH]; intros x Hb; [split; [done|by intros c Hc%elem_of_nil]|].
  cbn [udigits_loop digits_loop digits_val]. pose proof (Z.mod_pos_bound x base ltac:(lia)) as Hm.
  rewrite udigit_upcase by lia. destruct (undigit_upcase (x mod base) ltac:(lia)) as [-> Hne].
  destruct (undigit_digit (x mod base) ltac:(lia)) as [-> _].
  destruct (negb (x / base =? 0)).
  - destruct (IH (x / base) Hb) as [-> Hin]. split; [done|]. intros c [->|Hc]%elem_of_cons; [done|by apply Hin].
  - split; [done|]. by intros c ->%list_elem_of_singleton.
Qed.

Lemma read_plain base ds : (forall c, c ∈ ds -> c <> 45) -> read_int base (rev ds) = digits_val base ds.
Proof.
  intros H. unfold read_int. destruct (rev ds) as [|c l] eqn:E.
  - by rewrite <- (rev_involutive ds), E.
  - assert (c <> 45) by (apply H; apply list_elem_of_In, in_rev; rewrite E; by left).
    rewrite <- (rev_involutive ds), E. by repeat case_match.
Qed.

(** The number [printint] of the user library shows for an argument. *)
Definition ushown (xx : Z) (sgn : bool) : Z := if sgn then i32 xx else u32 xx.

Lemma i32_range x : - 2 ^ 31 <= i32 x < 2 ^ 31.
Proof. unfold i32. pose proof (Z.mod_pos_bound (x + 2 ^ 31) (2 ^ 32)). lia. Qed.

Lemma uprintint_shown xx base sgn : base = 10 \/ base = 16 ->
  exists out, uprintint xx base sgn = Some out /\ read_int base out = ushown xx sgn.
Proof.
  intros Hb. pose proof (i32_range xx) as Hx. assert (Hb16 : 2 <= base <= 16) by lia.
  assert (Hd : forall x, 0 <= x < 2 ^ 32 -> digits_val base (udigits_loop x base 32) = x /\
    (length (udigits_loop x base 32) <= 10)%nat /\ forall c, c ∈ udigits_loop x base 32 -> c <> 45).
  { intros x Hxx. destruct (udigits_val base 32 x Hb16) as [-> Hne]. rewrite udigits_map, length_map by done.
    assert (2 ^ 32 < base ^ Z.of_nat 32) by (destruct Hb as [-> | ->]; vm_compute; done).
    destruct (digits_loop_spec base 32 x) as (E & _ & k & Hl & _ & H1 & H2); [lia..|].
    split; [done|]. split; [|by rewrite <- udigits_map]. rewrite Hl.
    destruct (decide (k <= 9)%nat); [lia|]. specialize (H2 ltac:(lia)).
    assert (base ^ 10 <= base ^ Z.of_nat k) by (apply Z.pow_le_mono_r; lia).
    assert (2 ^ 32 <= base ^ 10) by (destruct Hb as [-> | ->]; vm_compute; done). lia. }
  unfold uprintint, uprintint_buf, ushown. destruct (sgn && (i32 xx <? 0)) eqn:Es.
  - apply andb_true_iff in Es as [-> Hneg%Z.ltb_lt].
    assert (Hu : u32 (- i32 xx) = - i32 xx) by (unfold u32; apply Z.mod_small; lia). rewrite Hu.
    destruct (Hd (- i32 xx) ltac:(lia)) as (Ev & Hl & _). rewrite length_app, (proj2 (Nat.leb_le _ _)) by (cbn [length]; lia).
    eexists. split; [done|]. rewrite rev_app_distr. cbn [rev app read_int]. rewrite rev_involutive. lia.
  - assert (Hu : u32 (i32 xx) = u32 xx).
    { unfold u32, i32. rewrite Zminus_mod_idemp_l. f_equal. lia. }
    rewrite Hu, app_nil_r. destruct (Hd (u32 xx) ltac:(apply Z.mod_pos_bound; lia)) as (Ev & Hl & Hne).
    rewrite (proj2 (Nat.leb_le _ _)) by lia. eexists. split; [done|]. rewrite read_plain, Ev by done.
    destruct sgn; [|done]. cbn in Es. apply Z.ltb_ge in Es. rewrite <- Hu. apply Z.mod_small. lia.
Qed.

(** [printint] of the user library never overruns its buffer, and what it prints, read back in
    the same base, is its argument as an [int] or as a [uint].  The conversions [%ld],
    [%lu] and [%lx] hand it 64-bit numbers, of which the upper half is lost. *)
Theorem uprintint_correct xx base sgn : base = 10 \/ base = 16 ->
  exists out, uprintint xx base sgn = Some out /\ read_int base out = ushown xx sgn.
Proof. apply uprintint_shown. Qed.

Lemma uprintint_correct_witness : exists out, uprintint (2 ^ 32 + 7) 10 true = Some out /\ read_int 10 out = 7.
Proof. apply (uprintint_correct (2 ^ 32 + 7) 10 true). by left. Defined.

(** ** Running a program against its system calls *)

Inductive outcome (A : Type) := Done (a : A) | Exited (status : Z) | Looping.
Arguments Done {A} a.
Arguments Exited {A} status.
Arguments Looping {A}.

Section Run.
Context {S : Type} (h : forall R, sysc R -> S -> R * S).

Fixpoint run {A} (p : prog A) (s : S) : outcome A * S :=
  match p with
  | Ret a => (Done a, s)
  | Vis e k => let '(r, s) := h _ e s in run (k r) s
  | Exit st => (Exited st, s)
  | Spin => (Looping, s)
  end.

Lemma run_bind {A B} (p : prog A) (f : A -> prog B) : forall s,
  run (p ≫= f) s = match run p s with
                   | (Done a, s) => run (f a) s
                   | (Exited st, s) => (Exited st, s)
                   | (Looping, s) => (Looping, s)
                   end.
Proof.
  unfold mbind, prog_bind. induction p as [a|R e k IH|st|]; intros s; cbn [bind run]; try done.
  destruct (h R e s) as [r s']. apply IH.
Qed.

Lemma run_call {R B} (e : sysc R) (f : R -> prog B) s :
  run (call e ≫= f) s = let '(r, s) := h _ e s in run (f r) s.
Proof. rewrite run_bind. unfold call. cbn [run]. by destruct (h R e s). Qed.
End Run.

(** What [read] and [write] on open descriptors promise: [inp s fd] is what is still to be
    read from a descriptor, [out s fd] what has been written to it.  A [read] returns
    the next bytes, at least one unless there is none; a [write] takes them all.  (Calls that fail, on which
    the programs give up with a message, are left out.) *)
Class FdOk {S : Type} (h : forall R, sysc R -> S -> R * S) (inp out : S -> Z -> list Z) : Prop := {
  fd_read fd n s : 0 < n -> exists l s', h _ (Read fd n) s = ((Z.of_nat (length l), l), s') /\
    inp s fd = l ++ inp s' fd /\ Z.of_nat (length l) <= n /\ (l = [] -> inp s fd = []) /\
    (forall fd', out s' fd' = out s fd');
  fd_write fd l s : exists s', h _ (Write fd l) s = (Z.of_nat (length l), s') /\
    out s' fd = out s fd ++ l /\ (forall fd', fd' <> fd -> out s' fd' = out s fd') /\
    (forall fd', inp s' fd' = inp s fd')
}.

Section Files.
Context {S : Type} (h : forall R, sysc R -> S -> R * S) (inp out : S -> Z -> list Z) `{!FdOk h inp out}.

Lemma putcs_run fd l : forall s, exists s', run h (putcs fd l) s = (Done tt, s') /\ out s' fd = out s fd ++ l /\
  (forall fd', fd' <> fd -> out s' fd' = out s fd') /\ (forall fd', inp s' fd' = inp s fd').
Proof.
  induction l as [|c l IH]; intros s; cbn [putcs].
  - exists s. rewrite app_nil_r. done.
  - unfold putc. rewrite run_call. destruct (fd_write fd [c] s) as (s1 & -> & H1 & H2 & H3).
    destruct (IH s1) as (s2 & -> & G1 & G2 & G3). exists s2. split; [done|]. split_and!.
    + rewrite G1, H1, <- app_assoc. done.
    + intros fd' Hne. by rewrite G2, H2.
    + intros fd'. by rewrite G3, H3.
Qed.

Lemma cat_run fd fuel : forall s, (length (inp s fd) < fuel)%nat ->
  exists s', run h (cat fd fuel) s = (Done tt, s') /\ out s' 1 = out s 1 ++ inp s fd /\
    (forall fd', fd' <> 1 -> out s' fd' = out s fd').
Proof.
  induction fuel as [|fuel IH]; intros s Hf; [lia|]. cbn [cat]. rewrite run_call.
  destruct (fd_read fd 512 s ltac:(lia)) as (l & s1 & -> & Hin & Hlen & Hend & Hout).
  destruct l as [|c l]; [cbn [length Z.of_nat Z.ltb Z.compare]|].
  - exists s1. split; [done|]. rewrite (Hend eq_refl), app_nil_r. split; [apply Hout|done].
  - rewrite (proj2 (Z.ltb_lt 0 _)) by (cbn; lia). rewrite run_call, Nat2Z.id, firstn_all.
    destruct (fd_write 1 (c :: l) s1) as (s2 & -> & H1 & H2 & H3). rewrite Z.eqb_refl. cbn [negb].
    destruct (IH s2) as (s3 & -> & G1 & G2).
    { rewrite H3. rewrite Hin, length_app in Hf. cbn in Hf. lia. }
    exists s3. split; [done|]. split.
    + rewrite G1, H1, H3, Hout, Hin, <- app_assoc. done.
    + intros fd' Hne. by rewrite G2, H2, Hout.
Qed.

(** ** Word counts *)

Definition is_space (c : Z) : bool := bool_decide (c ∈ [32; 13; 9; 10; 11]).

(** A word starts where a character that is not white space follows one that is, or
    begins the input. *)
Definition starts_word (l : list Z) (i : nat) : bool :=
  negb (is_space (nth i l 0)) && match i with O => true | Datatypes.S j => is_space (nth j l 0) end.
Definition count (f : nat -> bool) (n : nat) : nat := length (List.filter f (seq 0 n)).
Definition lines_in (l : list Z) : Z := Z.of_nat (length (List.filter (fun c => c =? 10) l)).
Definition words_in (l : list Z) : Z := Z.of_nat (count (starts_word l) (length l)).

Lemma strchr_space c : match strchr [32; 13; 9; 10; 11] c with Some _ => is_space c = true | None => is_space c = false end.
Proof.
  unfold is_space. rewrite <- strchr_elem by (by repeat constructor). by destruct (strchr _ c).
Qed.

Lemma count_snoc l c : words_in (l ++ [c]) = words_in l + (if starts_word (l ++ [c]) (length l) then 1 else 0).
Proof.
  unfold words_in, count. rewrite length_app. cbn [length]. rewrite Nat.add_1_r, seq_S, List.filter_app, length_app.
  assert (List.filter (starts_word (l ++ [c])) (seq 0 (length l)) = List.filter (starts_word l) (seq 0 (length l))) as ->.
  { apply filter_ext_in. intros i Hi%in_seq. unfold starts_word. rewrite app_nth1 by lia.
    destruct i as [|j]; [done|]. by rewrite app_nth1 by lia. }
  cbn [List.filter Nat.add]. destruct (starts_word (l ++ [c]) (length l)); cbn [length]; lia.
Qed.

(** The counters after the input read so far. *)
Definition counted (l : list Z) : counts :=
  Counts (lines_in l) (words_in l) (Z.of_nat (length l)) (match rev l with [] => false | c :: _ => negb (is_space c) end).

Lemma wc_scan_spec buf : forall l, wc_scan (counted l) buf = counted (l ++ buf).
Proof.
  induction buf as [|c buf IH]; intros l; [by rewrite app_nil_r|].
  cbn [wc_scan]. replace (l ++ c :: buf) with ((l ++ [c]) ++ buf) by by rewrite <- app_assoc. rewrite <- IH. f_equal.
  assert (Hs : starts_word (l ++ [c]) (length l) =
    negb (is_space c) && match rev l with [] => true | d :: _ => is_space d end).
  { unfold starts_word. rewrite nth_middle. f_equal. destruct l as [|d l _] using rev_ind; [done|].
    rewrite length_app, rev_app_distr. cbn [length rev app]. rewrite Nat.add_1_r.
    rewrite app_nth1 by (rewrite length_app; cbn; lia). by rewrite nth_middle. }
  pose proof (strchr_space c) as Hc. unfold counted. rewrite count_snoc, Hs, rev_app_distr, length_app. cbn [rev app wc_l wc_w wc_c wc_inword].
  assert (Hl : lines_in (l ++ [c]) = if c =? 10 then lines_in l + 1 else lines_in l).
  { unfold lines_in. rewrite List.filter_app, length_app. cbn [List.filter]. destruct (c =? 10); cbn [length]; lia. }
  rewrite Hl. destruct (strchr _ c); rewrite Hc; cbn [negb andb].
  - f_equal; [lia|cbn [length]; lia].
  - destruct (rev l) as [|d r]; cbn [negb]; [f_equal; cbn [length]; lia|].
    destruct (is_space d); cbn [negb]; f_equal; cbn [length]; lia.
Qed.

Lemma wc_loop_run fd fuel : forall s l, (length (inp s fd) < fuel)%nat ->
  exists s', run h (wc_loop fd (counted l) fuel) s = (Done (0, counted (l ++ inp s fd)), s') /\
    (forall fd', out s' fd' = out s fd').
Proof.
  induction fuel as [|fuel IH]; intros s l0 Hf; [lia|]. cbn [wc_loop]. rewrite run_call.
  destruct (fd_read fd 512 s ltac:(lia)) as (l & s1 & -> & Hin & Hlen & Hend & Hout).
  destruct l as [|c l]; [cbn [length Z.of_nat Z.ltb Z.compare]|].
  - exists s1. split; [|done]. cbn [run]. by rewrite (Hend eq_refl), app_nil_r.
  - rewrite (proj2 (Z.ltb_lt 0 _)) by (cbn; lia). rewrite Nat2Z.id, firstn_all, wc_scan_spec.
    destruct (IH s1 (l0 ++ c :: l)) as (s2 & -> & G).
    { rewrite Hin, length_app in Hf. cbn in Hf. lia. }
    exists s2. rewrite Hin, app_assoc. split; [done|]. intros fd'. by rewrite G.
Qed.

(** The bytes that [printf] prints for three numbers and a string. *)
Lemma printf_counts a b c name oa ob oc :
  uprintint a 10 true = Some oa -> uprintint b 10 true = Some ob -> uprintint c 10 true = Some oc ->
  vprintf_bytes (line_of "%d %d %d %s") [UNum a; UNum b; UNum c; UStr (Some name)] =
  Some (oa ++ [32] ++ ob ++ [32] ++ oc ++ [32] ++ cstring name ++ [10]).
Proof.
  intros Ha Hb Hc. unfold vprintf_bytes. change (line_of "%d %d %d %s") with [37; 100; 32; 37; 100; 32; 37; 100; 32; 37; 115; 10].
  cbn -[uprintint app]. rewrite Ha. cbn -[uprintint app]. rewrite Hb. cbn -[uprintint app]. rewrite Hc. cbn -[uprintint app].
  by rewrite app_nil_r.
Qed.
End Files.

(** [wc] counts.  However the input is cut up by [read], the line it prints has the number of
    newlines, of words and of characters of the input and the name. *)
Theorem wc_correct {S : Type} (h : forall R, sysc R -> S -> R * S) (inp out : S -> Z -> list Z) fd name fuel s :
  FdOk h inp out -> (length (inp s fd) < fuel)%nat -> Z.of_nat (length (inp s fd)) < 2 ^ 31 ->
  exists s' l w c, run h (wc fd name fuel) s = (Done tt, s') /\
    out s' 1 = out s 1 ++ l ++ [32] ++ w ++ [32] ++ c ++ [32] ++ cstring name ++ [10] /\
    read_int 10 l = lines_in (inp s fd) /\ read_int 10 w = words_in (inp s fd) /\
    read_int 10 c = Z.of_nat (length (inp s fd)).
Proof.
  intros HF Hf Hmax. destruct (wc_loop_run h inp out fd fuel s [] Hf) as (s1 & Hr & Hout). cbn [app] in Hr.
  change (counted []) with (Counts 0 0 0 false) in Hr. set (inpt := inp s fd) in *.
  assert (Hb : forall x, 0 <= x < 2 ^ 31 -> exists o, uprintint x 10 true = Some o /\ read_int 10 o = x).
  { intros x Hx. destruct (uprintint_shown x 10 true (or_introl eq_refl)) as (o & Ho & Hv). exists o. split; [done|].
    rewrite Hv. unfold ushown, i32. rewrite Z.mod_small; lia. }
  assert (Hl : 0 <= lines_in inpt < 2 ^ 31).
  { unfold lines_in. pose proof (filter_length_le (fun c => c =? 10) inpt). lia. }
  assert (Hw : 0 <= words_in inpt < 2 ^ 31).
  { unfold words_in, count. pose proof (filter_length_le (starts_word inpt) (seq 0 (length inpt))) as H.
    rewrite length_seq in H. lia. }
  destruct (Hb _ Hl) as (l & El & Vl), (Hb _ Hw) as (w & Ew & Vw), (Hb (Z.of_nat (length inpt)) ltac:(lia)) as (c & Ec & Vc).
  destruct (putcs_run h inp out 1 (l ++ [32] ++ w ++ [32] ++ c ++ [32] ++ cstring name ++ [10]) s1) as (s2 & Hp & Ho & _).
  exists s2, l, w, c. split; [|rewrite Ho, Hout; done].
  unfold wc. rewrite run_bind, Hr. cbn [Z.ltb Z.compare]. unfold printf, vprintf, counted. cbn [wc_l wc_w wc_c].
  by rewrite (printf_counts _ _ _ name l w c El Ew Ec).
Qed.

(** ** Named files *)

(** Opening and closing: [content s path] is what a file holds.  The descriptors written to
    are not among the named files. *)
Class FilesOk {S : Type} (h : forall R, sysc R -> S -> R * S) (inp out : S -> Z -> list Z)
    (content : S -> list Z -> option (list Z)) : Prop := {
  files_fd :: FdOk h inp out;
  files_open path s : exists fd s', h _ (Open path 0) s = (fd, s') /\
    (forall p, content s' p = content s p) /\ (forall fd', out s' fd' = out s fd') /\
    match content s path with Some c => 0 <= fd /\ inp s' fd = c | None => fd < 0 end;
  files_close fd s : exists r s', h _ (Close fd) s = (r, s') /\
    (forall p, content s' p = content s p) /\ (forall fd', out s' fd' = out s fd');
  files_read fd n s r s' : h _ (Read fd n) s = (r, s') -> forall p, content s' p = content s p;
  files_write fd l s r s' : h _ (Write fd l) s = (r, s') -> forall p, content s' p = content s p
}.

(** The output and the status of [cat] on some files: it stops at the first that cannot be
    opened. *)
Fixpoint cat_spec (content : list Z -> option (list Z)) (args : list (list Z)) : list Z * Z :=
  match args with
  | [] => ([], 0)
  | f :: args' =>
      match content f with
      | None => ([], 1)
      | Some c => let '(o, st) := cat_spec content args' in (c ++ o, st)
      end
  end.

Lemma cat_spec_ext c1 c2 args : (forall p, c1 p = c2 p) -> cat_spec c1 args = cat_spec c2 args.
Proof. intros H. induction args as [|f args IH]; [done|]. cbn. by rewrite H, IH. Qed.

Section Cat.
Context {S : Type} (h : forall R, sysc R -> S -> R * S) (inp out : S -> Z -> list Z)
  (content : S -> list Z -> option (list Z)) `{!FilesOk h inp out content}.

Lemma putcs_content fd l : forall s s' o, run h (putcs fd l) s = (o, s') -> forall p, content s' p = content s p.
Proof.
  induction l as [|c l IH]; intros s s' o; cbn [putcs].
  - by intros [= _ <-].
  - unfold putc. rewrite run_call. destruct (h _ (Write fd [c]) s) as [r s1] eqn:E. intros Hr p.
    by rewrite (IH _ _ _ Hr), (files_write _ _ _ _ _ E).
Qed.

Lemma fprintf_content fd fmt args s s' o : run h (fprintf fd fmt args) s = (o, s') -> forall p, content s' p = content s p.
Proof.
  unfold fprintf, vprintf. destruct (vprintf_bytes fmt args); [apply putcs_content|]. by intros [= _ <-].
Qed.

Lemma cat_content fd fuel : forall s s' o, run h (cat fd fuel) s = (o, s') -> forall p, content s' p = content s p.
Proof.
  induction fuel as [|fuel IH]; intros s s' o; cbn [cat]; [by intros [= _ <-]|]. rewrite run_call.
  destruct (h _ (Read fd 512) s) as [[n buf] s1] eqn:E1. pose proof (files_read _ _ _ _ _ E1) as H1.
  destruct (0 <? n).
  - rewrite run_call. destruct (h _ (Write 1 _) s1) as [r s2] eqn:E2. pose proof (files_write _ _ _ _ _ E2) as H2.
    destruct (negb (r =? n)).
    + rewrite run_bind. destruct (run h (fprintf _ _ _) s2) as [o2 s3] eqn:E3. pose proof (fprintf_content _ _ _ _ _ _ E3) as H3.
      destruct o2; intros [= _ <-] p; by rewrite H3, H2, H1.
    + intros Hr p. by rewrite (IH _ _ _ Hr), H2, H1.
  - destruct (n <? 0).
    + rewrite run_bind. destruct (run h (fprintf _ _ _) s1) as [o2 s3] eqn:E3. pose proof (fprintf_content _ _ _ _ _ _ E3) as H3.
      destruct o2; intros [= _ <-] p; by rewrite H3, H1.
    + intros [= _ <-] p. by rewrite H1.
Qed.

Lemma cannot_open_bytes f : vprintf_bytes (line_of "cat: cannot open %s") [UStr (Some f)] =
  Some (str "cat: cannot open " ++ cstring f ++ [10]).
Proof.
  unfold vprintf_bytes.
  change (line_of "cat: cannot open %s") with [99; 97; 116; 58; 32; 99; 97; 110; 110; 111; 116; 32; 111; 112; 101; 110; 32; 37; 115; 10].
  cbn -[app]. done.
Qed.

Lemma cat_files_run fuel args : forall s, (forall p c, content s p = Some c -> (length c < fuel)%nat) ->
  exists s', run h (cat_files args fuel) s = (Exited (cat_spec (content s) args).2, s') /\
    out s' 1 = out s 1 ++ (cat_spec (content s) args).1.
Proof.
  induction args as [|f args IH]; intros s Hf; cbn [cat_files cat_spec].
  { exists s. by rewrite app_nil_r. }
  rewrite run_call. destruct (files_open f s) as (fd & s1 & -> & Hc1 & Ho1 & Hfd).
  destruct (content s f) as [c|] eqn:Ec.
  - destruct Hfd as [Hfd Hin]. rewrite (proj2 (Z.ltb_ge _ _) Hfd), run_bind.
    destruct (cat_run h inp out fd fuel s1) as (s2 & Hr & Ho2 & _); [rewrite Hin; by eapply Hf|].
    rewrite Hr, run_call. destruct (files_close fd s2) as (r & s3 & -> & Hc3 & Ho3).
    assert (Hsame : forall p, content s3 p = content s p).
    { intros p. by rewrite Hc3, (cat_content _ _ _ _ _ Hr), Hc1. }
    destruct (IH s3) as (s4 & -> & Ho4); [intros p c'; rewrite Hsame; apply Hf|].
    rewrite (cat_spec_ext (content s3) (content s)) in Ho4 |- * by done.
    destruct (cat_spec (content s) args) as [o st]. exists s4. split; [done|].
    cbn [fst] in *. by rewrite Ho4, Ho3, Ho2, Hin, Ho1, <- app_assoc.
  - rewrite (proj2 (Z.ltb_lt _ _) Hfd), run_bind. unfold fprintf, vprintf. rewrite cannot_open_bytes.
    destruct (putcs_run h inp out 2 (str "cat: cannot open " ++ cstring f ++ [10]) s1) as (s2 & -> & _ & Ho2 & _).
    exists s2. split; [done|]. cbn [fst]. rewrite app_nil_r, Ho2, Ho1; done.
Qed.
End Cat.

(** [cat] writes the contents of its files one after the other and exits with status 0, or it
    stops at the first file that cannot be opened and exits with 1.  Without arguments it
    copies its standard input. *)
Theorem cat_correct {S : Type} (h : forall R, sysc R -> S -> R * S) (inp out : S -> Z -> list Z)
    (content : S -> list Z -> option (list Z)) name args fuel s :
  FilesOk h inp out content -> (forall p c, content s p = Some c -> (length c < fuel)%nat) ->
  (length (inp s 0%Z) < fuel)%nat ->
  let '(o, st) := match args with [] => (inp s 0, 0) | _ => cat_spec (content s) args end in
  exists s', run h (cat_main (name :: args) fuel) s = (Exited st, s') /\ out s' 1 = out s 1 ++ o.
Proof.
  intros HF Hf H0. unfold cat_main. destruct args as [|a args]; cbn [length Nat.leb tail].
  - rewrite run_bind. destruct (cat_run h inp out 0 fuel s H0) as (s' & -> & Ho & _). by exists s'.
  - destruct (cat_files_run h inp out content fuel (a :: args) s Hf) as (s' & Hr & Ho).
    destruct (cat_spec (content s) (a :: args)) as [o st]. by exists s'.
Qed.

(** ** A small machine *)

(** Two named files; [read] returns at most three bytes at a time; descriptor 3 is the open
    one. *)
Record mini := Mini { mi_in : Z -> list Z; mi_out : Z -> list Z }.
Definition mini_files (p : list Z) : option (list Z) :=
  if decide (p = str "a") then Some (str "hello world") else if decide (p = str "b") then Some (line_of "") else None.
Definition upd {A} (f : Z -> A) (i : Z) (x : A) : Z -> A := fun j => if j =? i then x else f j.
Definition mini_call (R : Type) (e : sysc R) : mini -> R * mini :=
  match e with
  | Read fd n => fun s =>
      let l := take (Z.to_nat (Z.min n 3)) (mi_in s fd) in
      ((Z.of_nat (length l), l), Mini (upd (mi_in s) fd (drop (Z.to_nat (Z.min n 3)) (mi_in s fd))) (mi_out s))
  | Write fd l => fun s => (Z.of_nat (length l), Mini (mi_in s) (upd (mi_out s) fd (mi_out s fd ++ l)))
  | Open p _ => fun s =>
      match mini_files p with
      | Some c => (3, Mini (upd (mi_in s) 3 c) (mi_out s))
      | None => (-1, s)
      end
  | Fork => fun s => (-1, s) | Wait => fun s => ((-1, 0), s) | PipeC => fun s => ((-1, (0, 0)), s)
  | Close _ => fun s => (0, s) | Kill _ => fun s => (-1, s) | Exec _ _ => fun s => (-1, s)
  | Mknod _ _ _ => fun s => (-1, s) | Unlink _ => fun s => (-1, s)
  | Fstat _ => fun s => ((-1, UStat 0 0 0), s) | Link _ _ => fun s => (-1, s) | Mkdir _ => fun s => (-1, s)
  | Chdir _ => fun s => (-1, s) | Dup _ => fun s => (-1, s) | Sleep _ => fun s => (0, s)
  | Getpid => fun s => (1, s) | Sbrk _ => fun s => (-1, s) | Uptime => fun s => (0, s)
  | WriteFrom _ _ _ => fun s => (-1, s) | ReadInto _ _ _ => fun s => (-1, s)
  | Load _ => fun s => (0, s) | Store _ _ => fun s => (tt, s)
  end.

#[export] Instance mini_fd : FdOk mini_call mi_in mi_out.
Proof.
  split.
  - intros fd n s Hn. cbn. eexists _, _. split; [done|]. cbn. unfold upd. rewrite Z.eqb_refl. split_and!; [|rewrite length_take; lia| |done].
    + by rewrite take_drop.
    + intros E. destruct (mi_in s fd) as [|c l]; [done|]. exfalso. apply (f_equal length) in E. rewrite length_take in E. cbn in E. lia.
  - intros fd l s. cbn. eexists. split; [done|]. cbn. unfold upd. rewrite Z.eqb_refl. split_and!; [done| |done].
    intros fd' Hne. by rewrite (proj2 (Z.eqb_neq _ _) Hne).
Qed.

#[export] Instance mini_ok : FilesOk mini_call mi_in mi_out (fun _ => mini_files).
Proof.
  split; [apply _|..].
  - intros p s. cbn. destruct (mini_files p) as [c|]; eexists _, _; (split; [done|]); split_and!; try done.
  - intros fd s. cbn. eexists _, _. split; [done|]. done.
  - done.
  - done.
Qed.

Definition mini0 : mini := Mini (fun _ => str "one two") (fun _ => []).

Lemma cat_correct_witness : exists s', run mini_call (cat_main [str "cat"; str "a"; str "b"; str "c"] 20) mini0 = (Exited 1, s') /\
  mi_out s' 1 = [] ++ line_of "hello world".
Proof.
  apply (cat_correct mini_call mi_in mi_out (fun _ => mini_files) (str "cat") [str "a"; str "b"; str "c"] 20 mini0 _).
  - intros p c. unfold mini_files. repeat case_decide; intros [= <-]; vm_compute; lia.
  - vm_compute. lia.
Defined.

Lemma wc_correct_witness : exists s' l w c, run mini_call (wc 0 (str "x") 20) mini0 = (Done tt, s') /\
  mi_out s' 1 = [] ++ l ++ [32] ++ w ++ [32] ++ c ++ [32] ++ cstring (str "x") ++ [10] /\
  read_int 10 l = 0 /\ read_int 10 w = 2 /\ read_int 10 c = 7.
Proof. apply (wc_correct mini_call mi_in mi_out 0 (str "x") 20 mini0 _); [vm_compute; lia|vm_compute; done]. Defined.
