(* ===== verification/Sh.v ===== *)
(** The parser of [user/sh.c].

    The command line is an array of characters [buf] whose string ends at offset [es];
    pointers into it are offsets.  Parsed commands hold the offsets of the first
    character and of the end of each word; [nulterminate] then writes a NUL at each
    end, in place.  [malloc] is taken to succeed, as the code does. *)
From S2P Require Import Prelude Ulib.

Abbreviation MAXARGS := 10%nat.
Abbreviation O_RDONLY := 0.
Abbreviation O_WRONLY := 1.
Abbreviation O_CREATE := 0x200.
Abbreviation O_TRUNC := 0x400.

Inductive cmd :=
  | EXEC (argv : list (nat * nat))
  | REDIR (c : cmd) (file efile : nat) (mode fd : Z)
  | PIPE (left right : cmd)
  | LIST (left right : cmd)
  | BACK (c : cmd).

(** ** Constructors *)

Definition redircmd (subcmd : cmd) (file efile : nat) (mode fd : Z) : cmd := REDIR subcmd file efile mode fd.
Definition pipecmd (left right : cmd) : cmd := PIPE left right.
Definition listcmd (left right : cmd) : cmd := LIST left right.
Definition backcmd (subcmd : cmd) : cmd := BACK subcmd.

(** ** Tokens *)

Definition whitespace : list Z := [32; 9; 13; 10; 11].
Definition symbols : list Z := [60; 124; 62; 38; 59; 40; 41].

Definition found (o : option nat) : bool := match o with Some _ => true | None => false end.

Section Parser.
Context (buf : list Z) (es : nat).

(** [while(s < es && strchr(whitespace, *s)) s++]; [k] is [es - s]. *)
Fixpoint skip_ws (s k : nat) : nat :=
  match k with
  | O => s
  | S k' => if found (strchr whitespace (char_at buf s)) then skip_ws (S s) k' else s
  end.

Fixpoint skip_word (s k : nat) : nat :=
  match k with
  | O => s
  | S k' =>
      if negb (found (strchr whitespace (char_at buf s))) && negb (found (strchr symbols (char_at buf s)))
      then skip_word (S s) k' else s
  end.

(** The token, the offsets of its first character and of its end, and where the next
    one starts. *)
Definition gettoken (s : nat) : Z * nat * nat * nat :=
  let s := skip_ws s (es - s) in
  let q := s in
  let c := char_at buf s in
  let '(ret, s) :=
    if c =? 0 then (c, s)
    else if (c =? 124) || (c =? 40) || (c =? 41) || (c =? 59) || (c =? 38) || (c =? 60) then (c, S s)
    else if c =? 62 then if char_at buf (S s) =? 62 then (43, S (S s)) else (c, S s)
    else (97, skip_word s (es - s)) in
  (ret, q, s, skip_ws s (es - s)).

Definition peek (s : nat) (toks : list Z) : bool * nat :=
  let s := skip_ws s (es - s) in
  (negb (char_at buf s =? 0) && found (strchr toks (char_at buf s)), s).

(** ** The parser

    It threads the offset [*ps].  [Bad] is a call of [panic]; [Leftover] is the one for what
    is left of the line after a command. *)
Inductive pres (A : Type) := Got (a : A) (s : nat) | Bad (msg : string) | Leftover (s : nat) | Stuck.
Arguments Got {A} a s.
Arguments Bad {A} msg.
Arguments Leftover {A} s.
Arguments Stuck {A}.

Definition P (A : Type) : Type := nat -> pres A.
Definition pret {A} (a : A) : P A := fun s => Got a s.
Definition pbind {A B} (p : P A) (k : A -> P B) : P B := fun s =>
  match p s with Got a s' => k a s' | Bad msg => Bad msg | Leftover s' => Leftover s' | Stuck => Stuck end.
Definition bad {A} (msg : string) : P A := fun _ => Bad msg.
Definition token : P (Z * nat * nat) := fun s => let '(ret, q, eq, s') := gettoken s in Got (ret, q, eq) s'.
Definition peekp (toks : list Z) : P bool := fun s => let '(b, s') := peek s toks in Got b s'.

Notation "'do' x <- p ; k" := (pbind p (fun x => k)) (at level 10, x pattern, p at level 100, k at level 200).

(** The command that redirections are put around is filled in later through another
    pointer to it ([parseexec] adds arguments to it), so that the result is the
    command as a function of it. *)
Fixpoint parseredirs (cmd : Sh.cmd -> Sh.cmd) (k : nat) : P (Sh.cmd -> Sh.cmd) :=
  match k with
  | O => fun _ => Stuck
  | S k' =>
      do more <- peekp [60; 62];
      if more : bool then
        do (tok, _, _) <- token;
        do (t, q, eq) <- token;
        if negb (t =? 97) then bad "missing file for redirection"
        else
          let c := if tok =? 60 then fun x => redircmd (cmd x) q eq O_RDONLY 0
                   else if tok =? 62 then fun x => redircmd (cmd x) q eq (Z.lor O_WRONLY (Z.lor O_CREATE O_TRUNC)) 1
                   else if tok =? 43 then fun x => redircmd (cmd x) q eq (Z.lor O_WRONLY O_CREATE) 1
                   else cmd in
          parseredirs c k'
      else pret cmd
  end.

(** The [while] of [parseline]. *)
Fixpoint parseback (cmd : Sh.cmd) (k : nat) : P Sh.cmd :=
  match k with
  | O => fun _ => Stuck
  | S k' =>
      do more <- peekp [38];
      if more : bool then do _ <- token; parseback (backcmd cmd) k' else pret cmd
  end.

(** The [while] of [parseexec]; [ret] is the command around the one whose arguments are
    collected. *)
Fixpoint parseargs (ret : Sh.cmd -> Sh.cmd) (argv : list (nat * nat)) (k : nat) : P Sh.cmd :=
  match k with
  | O => fun _ => Stuck
  | S k' =>
      do stop <- peekp [124; 41; 38; 59];
      if stop : bool then pret (ret (EXEC argv))
      else
        do (tok, q, eq) <- token;
        if tok =? 0 then pret (ret (EXEC argv))
        else if negb (tok =? 97) then bad "syntax"
        else
          let argv := argv ++ [(q, eq)] in
          if (MAXARGS <=? length argv)%nat then bad "too many args"
          else
            do ret <- parseredirs ret (S es);
            parseargs ret argv k'
  end.

Fixpoint parseline (fuel : nat) : P Sh.cmd :=
  match fuel with
  | O => fun _ => Stuck
  | S fuel' =>
      do cmd <- parsepipe fuel';
      do cmd <- parseback cmd (S es);
      do semi <- peekp [59];
      if semi : bool then
        do _ <- token;
        do rcmd <- parseline fuel';
        pret (listcmd cmd rcmd)
      else pret cmd
  end
with parsepipe (fuel : nat) : P Sh.cmd :=
  match fuel with
  | O => fun _ => Stuck
  | S fuel' =>
      do cmd <- parseexec fuel';
      do bar <- peekp [124];
      if bar : bool then
        do _ <- token;
        do rcmd <- parsepipe fuel';
        pret (pipecmd cmd rcmd)
      else pret cmd
  end
with parseexec (fuel : nat) : P Sh.cmd :=
  match fuel with
  | O => fun _ => Stuck
  | S fuel' =>
      do paren <- peekp [40];
      if paren : bool then parseblock fuel'
      else
        do ret <- parseredirs (fun c => c) (S es);
        parseargs ret [] (S es)
  end
with parseblock (fuel : nat) : P Sh.cmd :=
  match fuel with
  | O => fun _ => Stuck
  | S fuel' =>
      do open <- peekp [40];
      if negb open then bad "parseblock"
      else
        do _ <- token;
        do cmd <- parseline fuel';
        do close <- peekp [41];
        if negb close then bad "syntax - missing )"
        else
          do _ <- token;
          do ret <- parseredirs (fun c => c) (S es);
          pret (ret cmd)
  end.
End Parser.

Arguments Got {A} a s.
Arguments Bad {A} msg.
Arguments Leftover {A} s.
Arguments Stuck {A}.

(** The list cells [argv] and [eargv] end with the first null pointer. *)
Fixpoint nulterminate (c : cmd) (buf : list Z) : list Z :=
  match c with
  | EXEC argv => fold_left (fun buf '(_, eq) => <[eq := 0]> buf) argv buf
  | REDIR c _ efile _ _ => <[efile := 0]> (nulterminate c buf)
  | PIPE l r | LIST l r => nulterminate r (nulterminate l buf)
  | BACK c => nulterminate c buf
  end.

(** The nesting of the parsing functions is bounded by four calls for every character. *)
Definition parsecmd (buf : list Z) : pres (cmd * list Z) :=
  let es := Z.to_nat (strlen buf) in
  match parseline buf es (4 * S (S es)) 0%nat with
  | Got cmd s =>
      let '(_, s) := peek buf es s [] in
      if negb (s =? es)%nat then Leftover s else Got (cmd, nulterminate cmd buf) s
  | Bad msg => Bad msg
  | Leftover s => Leftover s
  | Stuck => Stuck
  end.

(** The word at an offset of the buffer, read as a C string. *)
Definition word_of (b : list Z) (q : nat) : list Z := cstring (drop q b).
