(* ===== verification/ShThms.v ===== *)
(** The shell's parser against the grammar of its command language. *)
From S2P Require Import Prelude Ulib Sh.

(** ** Tokens *)

Inductive tok := TSym (c : Z) | TApp | TWord (w : list Z).

Definition is_ws (c : Z) : bool := bool_decide (c ∈ whitespace).
Definition is_sym (c : Z) : bool := bool_decide (c ∈ symbols).
Definition is_word (c : Z) : bool := negb (is_ws c) && negb (is_sym c).

(** White space separates; [>>] is one token, the other symbols are tokens by
    themselves, and everything else forms words. *)
Fixpoint lex (l : list Z) : list tok :=
  match l with
  | [] => []
  | c :: l' =>
      if is_ws c then lex l'
      else if is_sym c then
        match l' with
        | d :: l'' => if (c =? 62) && (d =? 62) then TApp :: lex l'' else TSym c :: lex l'
        | [] => [TSym c]
        end
      else
        match l' with
        | d :: _ =>
            if is_word d then
              match lex l' with TWord w :: ts => TWord (c :: w) :: ts | ts => TWord [c] :: ts end
            else TWord [c] :: lex l'
        | [] => [TWord [c]]
        end
  end.

(** ** The language *)

Inductive scmd :=
  | SExec (argv : list (list Z))
  | SRedir (c : scmd) (file : list Z) (mode fd : Z)
  | SPipe (left right : scmd)
  | SList (left right : scmd)
  | SBack (c : scmd).

Definition redirect (c : scmd) (rs : list (list Z * Z * Z)) : scmd :=
  fold_left (fun c '(f, mode, fd) => SRedir c f mode fd) rs c.
Definition back (n : nat) (c : scmd) : scmd := Nat.iter n SBack c.

Inductive Redirs : list tok -> list (list Z * Z * Z) -> list tok -> Prop :=
  | R_nil ts : Redirs ts [] ts
  | R_in f ts rs r : Redirs ts rs r -> Redirs (TSym 60 :: TWord f :: ts) ((f, O_RDONLY, 0) :: rs) r
  | R_out f ts rs r : Redirs ts rs r ->
      Redirs (TSym 62 :: TWord f :: ts) ((f, Z.lor O_WRONLY (Z.lor O_CREATE O_TRUNC), 1) :: rs) r
  | R_app f ts rs r : Redirs ts rs r ->
      Redirs (TApp :: TWord f :: ts) ((f, Z.lor O_WRONLY O_CREATE, 1) :: rs) r.

(** Words and redirections in any order. *)
Inductive Args : list tok -> list (list Z) -> list (list Z * Z * Z) -> list tok -> Prop :=
  | A_nil ts : Args ts [] [] ts
  | A_word w ts rs ts1 ws rs' r :
      Redirs ts rs ts1 -> Args ts1 ws rs' r -> Args (TWord w :: ts) (w :: ws) (rs ++ rs') r.

Inductive Line : list tok -> scmd -> list tok -> Prop :=
  | L_last ts c n r : Pipeline ts c (replicate n (TSym 38) ++ r) -> Line ts (back n c) r
  | L_list ts c n ts1 c2 r :
      Pipeline ts c (replicate n (TSym 38) ++ TSym 59 :: ts1) -> Line ts1 c2 r ->
      Line ts (SList (back n c) c2) r
with Pipeline : list tok -> scmd -> list tok -> Prop :=
  | P_last ts c r : Exec ts c r -> Pipeline ts c r
  | P_bar ts c ts1 c2 r : Exec ts c (TSym 124 :: ts1) -> Pipeline ts1 c2 r -> Pipeline ts (SPipe c c2) r
with Exec : list tok -> scmd -> list tok -> Prop :=
  | E_block ts c ts1 rs r :
      Line ts c (TSym 41 :: ts1) -> Redirs ts1 rs r -> Exec (TSym 40 :: ts) (redirect c rs) r
  | E_simple ts rs0 ts1 ws rs r :
      Redirs ts rs0 ts1 -> Args ts1 ws rs r -> (length ws < MAXARGS)%nat ->
      Exec ts (redirect (SExec ws) (rs0 ++ rs)) r.

Scheme Line_mind := Minimality for Line Sort Prop
  with Pipeline_mind := Minimality for Pipeline Sort Prop
  with Exec_mind := Minimality for Exec Sort Prop.
Combined Scheme grammar_ind from Line_mind, Pipeline_mind, Exec_mind.

(** ** Characters *)

Lemma found_strchr s c : Forall (fun x => x <> 0) s -> found (strchr s c) = bool_decide (c ∈ s).
Proof. apply strchr_elem. Qed.

Lemma ws_found c : found (strchr whitespace c) = is_ws c.
Proof. apply found_strchr. by repeat constructor. Qed.
Lemma sym_found c : found (strchr symbols c) = is_sym c.
Proof. apply found_strchr. by repeat constructor. Qed.

Lemma lex_ws c l : is_ws c = true -> lex (c :: l) = lex l.
Proof. intros H. cbn. by rewrite H. Qed.

Lemma lex_cons_word c l : is_word c = true ->
  lex (c :: l) =
  match l with
  | d :: _ =>
      if is_word d then match lex l with TWord w :: ts => TWord (c :: w) :: ts | ts => TWord [c] :: ts end
      else TWord [c] :: lex l
  | [] => [TWord [c]]
  end.
Proof.
  intros Hc. unfold is_word in Hc. apply andb_prop in Hc as [H1%negb_true_iff H2%negb_true_iff].
  cbn [lex]. by rewrite H1, H2.
Qed.

Lemma lex_word w l : Forall (fun c => is_word c = true) w -> w <> [] ->
  match l with c :: _ => is_word c = false | [] => True end -> lex (w ++ l) = TWord w :: lex l.
Proof.
  intros Hw Hne Hl. induction Hw as [|c w Hc Hw IH]; [done|].
  change ((c :: w) ++ l) with (c :: (w ++ l)). rewrite lex_cons_word by done. destruct w as [|d w].
  - cbn [app]. destruct l as [|d l]; [done|]. by rewrite Hl.
  - inversion Hw as [|? ? Hd Hw']. subst. rewrite IH by done. cbn [app]. by rewrite Hd.
Qed.

(** ** The lexer *)

Section Lexer.
Context (line tl : list Z) (Hnul : Forall (fun c => c <> 0) line).
Let buf := line ++ 0 :: tl.
Let es := length line.

(** What the parser has still to read at offset [s]. *)
Definition T (s : nat) : list tok := lex (drop s line).

Lemma char_in s : (s < es)%nat -> exists c, line !! s = Some c /\ char_at buf s = c /\ c <> 0 /\
  drop s line = c :: drop (S s) line.
Proof.
  intros Hs. destruct (lookup_lt_is_Some_2 line s Hs) as [c Hc]. exists c. split_and!; [done| |by eapply Forall_lookup_1 in Hnul|by apply drop_S].
  unfold char_at, buf. rewrite app_nth1 by done. by apply nth_lookup_Some.
Qed.

Lemma char_end : char_at buf es = 0.
Proof. unfold char_at, buf, es. rewrite app_nth2 by lia. by rewrite Nat.sub_diag. Qed.

Lemma T_end : T es = [].
Proof. unfold T, es. by rewrite drop_ge. Qed.

Lemma skip_ws_spec k : forall s, (s + k = es)%nat ->
  let s' := skip_ws buf s k in
  (s <= s' <= es)%nat /\ T s' = T s /\ (s' = es \/ is_ws (char_at buf s') = false).
Proof.
  induction k as [|k IH]; intros s Hk; cbn [skip_ws]; [split_and!; [lia|lia|done|left; lia]|].
  rewrite ws_found. destruct (is_ws (char_at buf s)) eqn:E.
  - destruct (IH (S s) ltac:(lia)) as (H1 & H2 & H3). split_and!; [lia|lia| |done]. rewrite H2.
    destruct (char_in s ltac:(lia)) as (c & _ & Hc & _ & Hd). unfold T. rewrite Hd, lex_ws; [done|congruence].
  - split_and!; [lia|lia|done|by right].
Qed.

Lemma skip_word_spec k : forall s, (s + k = es)%nat ->
  let s' := skip_word buf s k in
  (s <= s' <= es)%nat /\ Forall (fun c => is_word c = true) (take (s' - s) (drop s line)) /\
  (s' = es \/ is_word (char_at buf s') = false).
Proof.
  induction k as [|k IH]; intros s Hk; cbn [skip_word].
  { split_and!; [lia|lia| |left; lia]. by rewrite Nat.sub_diag. }
  rewrite ws_found, sym_found. fold (is_word (char_at buf s)). destruct (is_word (char_at buf s)) eqn:E.
  - destruct (IH (S s) ltac:(lia)) as (H1 & H2 & H3). split_and!; [lia|lia| |done].
    destruct (char_in s ltac:(lia)) as (c & _ & Hc & _ & Hd). rewrite Hd.
    replace (skip_word buf (S s) k - s)%nat with (S (skip_word buf (S s) k - S s)) by lia.
    cbn [take]. constructor; [congruence|done].
  - split_and!; [lia|lia| |by right]. by rewrite Nat.sub_diag.
Qed.

(** A word of the line, up to a character that cannot be in one. *)
Definition slice (q eq : nat) : list Z := take (eq - q) (drop q line).
Record word_at (w : nat * nat) : Prop := {
  wa_range : (w.1 < w.2 <= es)%nat;
  wa_word : Forall (fun c => is_word c = true) (slice w.1 w.2);
  wa_stop : w.2 = es \/ is_word (char_at buf w.2) = false
}.

Lemma skip_spec s : (s <= es)%nat ->
  let s' := skip_ws buf s (es - s) in
  (s <= s' <= es)%nat /\ T s' = T s /\ (s' = es \/ is_ws (char_at buf s') = false).
Proof. intros Hs. apply skip_ws_spec. lia. Qed.

(** What [gettoken] returns for the token in front. *)
Definition token_is (s : nat) (o : Z * nat * nat * nat) : Prop :=
  let '(ret, q, eq, s') := o in
  (s <= s' <= es)%nat /\
  match T s with
  | [] => ret = 0 /\ s' = es
  | TSym c :: r => ret = c /\ c ∈ symbols /\ T s' = r /\ (s < s')%nat
  | TApp :: r => ret = 43 /\ T s' = r /\ (s < s')%nat
  | TWord w :: r => ret = 97 /\ T s' = r /\ (s < s')%nat /\ word_at (q, eq) /\ w = slice q eq
  end.

Lemma after_token s q s1 ret eq : (s <= q)%nat -> (q < s1 <= es)%nat -> T q = T s ->
  (forall s2, T s2 = T s1 -> (s1 <= s2 <= es)%nat -> token_is q (ret, q, eq, s2)) ->
  token_is s (ret, q, eq, skip_ws buf s1 (es - s1)).
Proof.
  intros Hs Hq Ht H. destruct (skip_spec s1 ltac:(lia)) as (H1 & H2 & _).
  specialize (H _ H2 ltac:(lia)). unfold token_is in *. rewrite Ht in H. destruct H as [_ H]. split; [lia|].
  destruct (T s) as [|[c| |w] r]; [lia|..]; destruct_and!; split_and!; try done; lia.
Qed.

Lemma sym_not_word c : is_sym c = true -> is_word c = false.
Proof. unfold is_word. intros ->. by rewrite andb_false_r. Qed.

Lemma T_sym s c : (s < es)%nat -> char_at buf s = c -> is_sym c = true -> is_ws c = false ->
  (c = 62 -> char_at buf (S s) <> 62) -> T s = TSym c :: T (S s).
Proof.
  intros Hs Hc H1 H2 H3. destruct (char_in s Hs) as (c' & _ & Hc' & _ & Hd). unfold T. rewrite Hd.
  assert (c' = c) as -> by congruence. cbn [lex]. rewrite H1, H2.
  destruct (drop (S s) line) as [|d l] eqn:E; [done|].
  destruct (Z.eqb_spec c 62) as [->|]; [|done]. cbn [andb].
  destruct (Z.eqb_spec d 62) as [->|]; [|done]. exfalso. apply H3; [done|].
  assert (Hs' : (S s < es)%nat).
  { destruct (decide (S s < es)%nat); [done|]. rewrite drop_ge in E by (unfold es in *; lia). done. }
  destruct (char_in (S s) Hs') as (d & _ & -> & _ & Hd'). rewrite E in Hd'. by injection Hd'.
Qed.

Lemma T_app s : (s < es)%nat -> char_at buf s = 62 -> char_at buf (S s) = 62 ->
  (S (S s) <= es)%nat /\ T s = TApp :: T (S (S s)).
Proof.
  intros Hs Hc Hc2. destruct (char_in s Hs) as (c & _ & Hc' & _ & Hd). assert (c = 62) as -> by congruence.
  assert (Hs' : (S s < es)%nat).
  { destruct (decide (S s = es)) as [E|]; [|lia]. rewrite E, char_end in Hc2. done. }
  destruct (char_in (S s) Hs') as (d & _ & Hd2 & _ & Hd'). assert (d = 62) as -> by congruence.
  split; [lia|]. unfold T. rewrite Hd, Hd'. done.
Qed.

Lemma gettoken_spec s : (s <= es)%nat -> token_is s (gettoken buf es s).
Proof.
  intros Hs. unfold gettoken. destruct (skip_spec s Hs) as (H1 & H2 & H3).
  set (q := skip_ws buf s (es - s)) in *. set (c := char_at buf q).
  destruct (decide (q = es)) as [E|Hq].
  { assert (c = 0) as -> by (unfold c; rewrite E; apply char_end). cbn.
    rewrite E, Nat.sub_diag. cbn [skip_ws]. unfold token_is. rewrite <- H2, E, T_end. split; [lia|done]. }
  destruct H3 as [|H3]; [done|]. fold c in H3. destruct (char_in q ltac:(lia)) as (c' & _ & Hc & Hc0 & Hd).
  fold c in Hc. subst c'. rewrite (proj2 (Z.eqb_neq c 0)) by done.
  destruct ((c =? 124) || (c =? 40) || (c =? 41) || (c =? 59) || (c =? 38) || (c =? 60)) eqn:Esym.
  { assert (Hsym : c ∈ symbols /\ c <> 62).
    { rewrite !orb_true_iff, !Z.eqb_eq in Esym. unfold symbols. set_unfold. lia. }
    apply after_token; [lia|lia|done|]. intros s2 Ht2 Hr. unfold token_is.
    rewrite (T_sym q c); [|lia|done|by apply bool_decide_eq_true, Hsym|done|tauto].
    split_and!; [lia|lia|done|apply Hsym|done|lia]. }
  destruct (Z.eqb_spec c 62) as [E62|N62].
  { destruct (Z.eqb_spec (char_at buf (S q)) 62) as [E2|N2].
    - destruct (T_app q ltac:(lia) E62 E2) as [Hr Ht]. apply after_token; [lia|lia|done|].
      intros s2 Ht2 Hr2. unfold token_is. rewrite Ht. split_and!; [lia|lia|done|done|lia].
    - apply after_token; [lia|lia|done|]. intros s2 Ht2 Hr. unfold token_is.
      rewrite (T_sym q c); [|lia|done|rewrite E62; done|done|done].
      split_and!; [lia|lia|done|rewrite E62; unfold symbols; set_solver|done|lia]. }
  assert (Hw : is_word c = true).
  { unfold is_word. rewrite H3. cbn [negb andb]. apply negb_true_iff, bool_decide_eq_false.
    rewrite !orb_false_iff, !Z.eqb_neq in Esym. unfold symbols. set_unfold. lia. }
  destruct (skip_word_spec (es - q) q ltac:(lia)) as (W1 & W2 & W3).
  assert (Hlt : (q < skip_word buf q (es - q))%nat).
  { destruct (es - q)%nat as [|k] eqn:Ek; [lia|]. cbn [skip_word]. rewrite ws_found, sym_found.
    fold c. fold (is_word c). rewrite Hw. pose proof (skip_word_spec k (S q) ltac:(lia)). cbn in *. lia. }
  set (s1 := skip_word buf q (es - q)) in *.
  apply after_token; [lia|lia|done|]. intros s2 Ht2 Hr. unfold token_is.
  assert (Ht : T q = TWord (slice q s1) :: T s1).
  { unfold T, slice. rewrite <- (take_drop (s1 - q) (drop q line)) at 1. rewrite drop_drop.
    replace (q + (s1 - q))%nat with s1 by lia. apply lex_word; [done| |].
    - intros E. apply (f_equal length) in E. rewrite length_take, length_drop in E. cbn in E. unfold es in *. lia.
    - destruct W3 as [E|Hn].
      + rewrite drop_ge by (unfold es in *; lia). done.
      + destruct (decide (s1 = es)) as [E|Hs1]; [rewrite drop_ge by (unfold es in *; lia); done|].
        destruct (char_in s1 ltac:(lia)) as (d & _ & Hd2 & _ & ->). by rewrite <- Hd2. }
  rewrite Ht. split_and!; [lia|lia|done|done|lia| |done]. split; cbn; [lia|done|done].
Qed.

(** [peek] looks at the first character of the token in front. *)
Definition first_in (toks : list Z) (ts : list tok) : bool :=
  match ts with
  | TSym c :: _ => bool_decide (c ∈ toks)
  | TApp :: _ => bool_decide (62 ∈ toks)
  | _ => false
  end.

Lemma lex_lead c l : is_ws c = false ->
  exists t r, lex (c :: l) = t :: r /\
    (t = TSym c \/ (t = TApp /\ c = 62) \/ (exists w, t = TWord w /\ is_sym c = false)).
Proof.
  intros Hw. destruct (is_sym c) eqn:Es.
  - cbn [lex]. rewrite Hw, Es. destruct l as [|d l]; [eauto 10|].
    destruct (Z.eqb_spec c 62) as [->|]; cbn [andb]; [|eauto 10]. destruct (d =? 62); eauto 10.
  - rewrite lex_cons_word by (unfold is_word; by rewrite Hw, Es). destruct l as [|d l]; [eauto 10|].
    destruct (is_word d); [|eauto 10]. destruct (lex (d :: l)) as [|[| |w] r]; eauto 10.
Qed.

Lemma peek_spec s toks : (s <= es)%nat -> Forall (fun c => c ∈ symbols) toks ->
  let '(b, s') := peek buf es s toks in
  (s <= s' <= es)%nat /\ T s' = T s /\ (T s = [] -> s' = es) /\ b = first_in toks (T s).
Proof.
  intros Hs Htoks. unfold peek. destruct (skip_spec s Hs) as (H1 & H2 & H3).
  set (q := skip_ws buf s (es - s)) in *.
  assert (Hz : Forall (fun x => x <> 0) toks).
  { eapply Forall_impl; [done|]. intros c Hc ->. revert Hc. unfold symbols. set_unfold. lia. }
  rewrite found_strchr by done. destruct (decide (q = es)) as [E|Hq].
  { rewrite E, char_end, <- H2, E, T_end. cbn. split_and!; try done; lia. }
  destruct H3 as [|H3]; [done|]. destruct (char_in q ltac:(lia)) as (c & _ & Hc & Hc0 & Hd).
  rewrite Hc in *. rewrite (proj2 (Z.eqb_neq c 0)) by done. cbn [negb andb].
  destruct (lex_lead c (drop (S q) line) H3) as (t & r & Ht & Hl). rewrite <- Hd in Ht. change (T q = t :: r) in Ht.
  split_and!; [lia|lia|done|congruence|]. rewrite H2 in Ht. rewrite Ht.
  destruct Hl as [->|[[-> ->]|(w & -> & Hn)]]; [done|done|]. apply bool_decide_eq_false. intros Hin.
  apply bool_decide_eq_false in Hn. apply Hn. by eapply Forall_forall in Htoks.
Qed.

(** ** Rules for the parser's steps

    [bd] is what a [panic] is claimed to mean, [st] the same of an exhausted bound. *)
Definition pwp {A} (bd st : Prop) (o : pres A) (Q : A -> nat -> Prop) : Prop :=
  match o with Got a s => Q a s | Bad _ | Leftover _ => bd | Stuck => st end.

Section Rules.
Context (bd st : Prop).
Local Abbreviation pw := (pwp bd st).

Lemma pw_bind {A B} (p : P A) (k : A -> P B) s Q Q' :
  pw (p s) Q' -> (forall a s', Q' a s' -> pw (k a s') Q) -> pw (pbind p k s) Q.
Proof. unfold pbind, pwp. intros H1 H2. destruct (p s); [by apply H2|done|done|done]. Qed.

Lemma pw_mono {A} (o : pres A) (Q Q' : A -> nat -> Prop) :
  pw o Q' -> (forall a s', Q' a s' -> Q a s') -> pw o Q.
Proof. unfold pwp. intros H1 H2. destruct o; auto. Qed.

Lemma pw_token {B} (k : Z * nat * nat -> P B) s Q : (s <= es)%nat ->
  (forall ret q eq s', token_is s (ret, q, eq, s') -> pw (k (ret, q, eq) s') Q) ->
  pw (pbind (token buf es) k s) Q.
Proof.
  intros Hs H. unfold pbind, token. pose proof (gettoken_spec s Hs) as G.
  destruct (gettoken buf es s) as [[[ret q] eq] s']. by apply H.
Qed.

Lemma pw_peek {B} (k : bool -> P B) toks s Q : (s <= es)%nat -> Forall (fun c => c ∈ symbols) toks ->
  (forall s', (s <= s' <= es)%nat -> T s' = T s -> pw (k (first_in toks (T s)) s') Q) ->
  pw (pbind (peekp buf es toks) k s) Q.
Proof.
  intros Hs Htoks H. unfold pbind, peekp. pose proof (peek_spec s toks Hs Htoks) as G.
  destruct (peek buf es s toks) as [b s']. destruct G as (H1 & H2 & _ & ->). by apply H.
Qed.
End Rules.

Lemma token_word s q eq s' : token_is s (97, q, eq, s') ->
  T s = TWord (slice q eq) :: T s' /\ word_at (q, eq) /\ (s < s' <= es)%nat.
Proof.
  unfold token_is. intros [Hr H]. destruct (T s) as [|[c| |w] r].
  - by destruct H.
  - destruct H as (<- & Hc & _). exfalso. revert Hc. unfold symbols. set_unfold. lia.
  - by destruct H.
  - destruct H as (_ & <- & Hs & Hw & ->). split_and!; done || lia.
Qed.

Lemma token_sym s ret q eq s' c : token_is s (ret, q, eq, s') -> (exists r, T s = TSym c :: r) ->
  T s = TSym c :: T s' /\ ret = c /\ (s < s' <= es)%nat.
Proof. unfold token_is. intros [Hr H] [r E]. rewrite E in *. destruct_and!. subst. split_and!; done || lia. Qed.

Lemma first_sym toks ts : 62 ∉ toks -> first_in toks ts = true -> exists c r, c ∈ toks /\ ts = TSym c :: r.
Proof.
  intros Hn. destruct ts as [|[c| |w] r]; cbn; intros H; try done; apply bool_decide_eq_true in H; eauto. done.
Qed.

Lemma first_one c ts : c <> 62 -> first_in [c] ts = true -> exists r, ts = TSym c :: r.
Proof.
  intros Hc H. apply first_sym in H as (d & r & Hd & ->); [|set_solver]. apply list_elem_of_singleton in Hd as ->. eauto.
Qed.
(** ** Commands as texts *)

Fixpoint text (c : cmd) : scmd :=
  match c with
  | EXEC argv => SExec (map (fun w => slice w.1 w.2) argv)
  | REDIR c q eq mode fd => SRedir (text c) (slice q eq) mode fd
  | PIPE l r => SPipe (text l) (text r)
  | LIST l r => SList (text l) (text r)
  | BACK c => SBack (text c)
  end.

Fixpoint good (c : cmd) : Prop :=
  match c with
  | EXEC argv => Forall word_at argv
  | REDIR c q eq _ _ => good c /\ word_at (q, eq)
  | PIPE l r | LIST l r => good l /\ good r
  | BACK c => good c
  end.

(** [f] puts the redirections [rs] around a command. *)
Definition wraps (f : cmd -> cmd) (rs : list (list Z * Z * Z)) : Prop :=
  forall x, text (f x) = redirect (text x) rs /\ (good x -> good (f x)).

Lemma wraps_id : wraps (fun x => x) [].
Proof. done. Qed.

Lemma wraps_redir f rs q eq mode fd : wraps f rs -> word_at (q, eq) ->
  wraps (fun x => REDIR (f x) q eq mode fd) (rs ++ [(slice q eq, mode, fd)]).
Proof.
  intros H Hw x. destruct (H x) as [H1 H2]. cbn. split; [|auto].
  unfold redirect. rewrite fold_left_app. cbn. by rewrite H1.
Qed.

Lemma back_shift n c : back n (SBack c) = back (S n) c.
Proof. unfold back. by rewrite <- Nat.iter_succ_r. Qed.

Ltac syms := repeat constructor; unfold symbols; set_solver.

(** ** Soundness: what is parsed is derivable *)

Abbreviation sound o Q := (pwp True False o Q).

Lemma parseredirs_sound k : forall f rs0 s, (es - s < k)%nat -> (s <= es)%nat -> wraps f rs0 ->
  sound (parseredirs buf es f k s) (fun f' s' => (s <= s' <= es)%nat /\
    exists rs, Redirs (T s) rs (T s') /\ wraps f' (rs0 ++ rs)).
Proof.
  induction k as [|k IH]; intros f rs0 s Hk Hs Hf; [lia|]. cbn [parseredirs].
  apply pw_peek; [done|syms|]. intros s1 Hs1 Ht1. destruct (first_in [60; 62] (T s)) eqn:Ef.
  2: { split; [lia|]. exists []. rewrite app_nil_r, Ht1. split; [constructor|done]. }
  apply pw_token; [lia|]. intros tk q0 eq0 s2 G1.
  assert (Hs2 : (s2 <= es)%nat) by apply G1. apply pw_token; [done|].
  intros t q eq s3 G2. destruct (Z.eqb_spec t 97) as [->|]; [|done]. cbn [negb].
  apply token_word in G2 as (Ht2 & Hw & Hs3). destruct G1 as [Hr G1]. rewrite Ht1 in G1.
  assert (Hcase : exists mode fd, (forall rs r, Redirs (T s3) rs r -> Redirs (T s) ((slice q eq, mode, fd) :: rs) r) /\
    (if tk =? 60 then fun x : cmd => redircmd (f x) q eq O_RDONLY 0
     else if tk =? 62 then fun x => redircmd (f x) q eq (Z.lor O_WRONLY (Z.lor O_CREATE O_TRUNC)) 1
     else if tk =? 43 then fun x => redircmd (f x) q eq (Z.lor O_WRONLY O_CREATE) 1 else f) =
    (fun x => REDIR (f x) q eq mode fd)).
  { destruct (T s) as [|[c| |w] r]; [done| |..|done].
    - destruct G1 as (-> & _ & <- & _). cbn in Ef. apply bool_decide_eq_true in Ef.
      rewrite elem_of_cons, list_elem_of_singleton in Ef. rewrite Ht2.
      destruct Ef as [->| ->]; (eexists _, _; split; [|reflexivity]; intros rs r; constructor; done).
    - destruct G1 as (-> & <- & _). rewrite Ht2.
      eexists _, _; split; [|reflexivity]; intros rs r; constructor; done. }
  destruct Hcase as (mode & fd & HR & ->).
  eapply pw_mono; [apply IH; [lia|lia|by apply wraps_redir]|].
  intros f' s' (Hs' & rs & HRs & Hw'). split; [lia|]. eexists. split; [by apply HR|].
  by rewrite <- app_assoc in Hw'.
Qed.

Lemma parseback_sound k : forall c s, (es - s < k)%nat -> (s <= es)%nat -> good c ->
  sound (parseback buf es c k s) (fun c' s' => (s <= s' <= es)%nat /\ good c' /\
    exists n, T s = replicate n (TSym 38) ++ T s' /\ text c' = back n (text c)).
Proof.
  induction k as [|k IH]; intros c s Hk Hs Hc; [lia|]. cbn [parseback].
  apply pw_peek; [done|syms|]. intros s1 Hs1 Ht1. destruct (first_in [38] (T s)) eqn:Ef.
  2: { split_and!; [lia|lia|done|]. exists 0%nat. split; [by rewrite Ht1|done]. }
  apply first_one in Ef; [|done]. apply pw_token; [lia|]. intros tk q0 eq0 s2 G1.
  rewrite <- Ht1 in Ef |- *. destruct (token_sym _ _ _ _ _ _ G1 Ef) as (Ht & _ & Hr).
  eapply pw_mono; [apply (IH (BACK c)); [lia|lia|done]|]. intros c' s' (Hs' & Hg & n & Hn & Htx).
  split_and!; [lia|lia|done|]. exists (S n). split; [|by rewrite Htx, <- back_shift].
  rewrite Ht, Hn. done.
Qed.

Lemma parseargs_sound k : forall f rs0 argv s, (es - s < k)%nat -> (s <= es)%nat -> wraps f rs0 ->
  Forall word_at argv -> (length argv < MAXARGS)%nat ->
  sound (parseargs buf es f argv k s) (fun c s' => (s <= s' <= es)%nat /\ good c /\
    exists ws rs, Args (T s) ws rs (T s') /\ (length argv + length ws < MAXARGS)%nat /\
      text c = redirect (SExec (map (fun w => slice w.1 w.2) argv ++ ws)) (rs0 ++ rs)).
Proof.
  induction k as [|k IH]; intros f rs0 argv s Hk Hs Hf Hargv Hlen; [lia|]. cbn [parseargs].
  assert (Hdone : forall s', (s <= s' <= es)%nat -> T s' = T s ->
    sound (pret (f (EXEC argv)) s') (fun c s' => (s <= s' <= es)%nat /\ good c /\
    exists ws rs, Args (T s) ws rs (T s') /\ (length argv + length ws < MAXARGS)%nat /\
      text c = redirect (SExec (map (fun w => slice w.1 w.2) argv ++ ws)) (rs0 ++ rs))).
  { intros s' Hs' Ht. destruct (Hf (EXEC argv)) as [H1 H2]. cbn. split_and!; [lia|lia|by apply H2|].
    exists [], []. rewrite Ht, !app_nil_r. split_and!; [constructor|cbn; lia|done]. }
  apply pw_peek; [done|syms|]. intros s1 Hs1 Ht1.
  destruct (first_in [124; 41; 38; 59] (T s)); [by apply Hdone|].
  apply pw_token; [lia|]. intros tk q eq s2 G. destruct (Z.eqb_spec tk 0) as [->|Hn0].
  { destruct G as [Hr G]. apply Hdone; [lia|]. rewrite <- Ht1. destruct (T s1) as [|[c| |w] r].
    - destruct G as [_ ->]. apply T_end.
    - destruct G as (<- & Hc & _). exfalso. revert Hc. unfold symbols. set_unfold. lia.
    - by destruct G.
    - by destruct G. }
  destruct (Z.eqb_spec tk 97) as [->|]; [|done]. cbn [negb]. apply token_word in G as (Ht2 & Hw & Hr).
  destruct (Nat.leb_spec MAXARGS (length (argv ++ [(q, eq)]))) as [|Hl]; [done|].
  eapply pw_bind; [apply (parseredirs_sound (S es) f rs0); [lia|lia|done]|].
  intros f' s3 (Hs3 & rs & HR & Hf').
  eapply pw_mono; [apply (IH f' (rs0 ++ rs)); [lia|lia|done|by apply Forall_app_2, Forall_singleton|done]|].
  intros c s' (Hs' & Hg & ws & rs' & HA & Hlw & Htx). split_and!; [lia|lia|done|].
  exists (slice q eq :: ws), (rs ++ rs'). rewrite <- Ht1, Ht2. split_and!.
  - by eapply A_word.
  - rewrite length_app in Hlw. cbn in *. lia.
  - rewrite Htx, map_app, <- !app_assoc. done.
Qed.

Definition parsed (R : list tok -> scmd -> list tok -> Prop) (s : nat) (c : cmd) (s' : nat) : Prop :=
  (s <= s' <= es)%nat /\ good c /\ R (T s) (text c) (T s').

Lemma parser_sound fuel :
  (forall s, (s <= es)%nat -> (4 * (es - s) + 4 <= fuel)%nat -> sound (parseline buf es fuel s) (parsed Line s)) /\
  (forall s, (s <= es)%nat -> (4 * (es - s) + 3 <= fuel)%nat -> sound (parsepipe buf es fuel s) (parsed Pipeline s)) /\
  (forall s, (s <= es)%nat -> (4 * (es - s) + 2 <= fuel)%nat -> sound (parseexec buf es fuel s) (parsed Exec s)) /\
  (forall s, (s <= es)%nat -> (4 * (es - s) + 1 <= fuel)%nat -> sound (parseblock buf es fuel s) (parsed Exec s)).
Proof.
  induction fuel as [|fuel (IHl & IHp & IHe & IHb)]; [split_and!; intros; lia|].
  split_and!; intros s Hs Hf; cbn [parseline parsepipe parseexec parseblock].
  - eapply pw_bind; [apply IHp; lia|]. intros c s1 (Hs1 & Hg & HP).
    eapply pw_bind; [apply parseback_sound; [lia|lia|done]|]. intros c2 s2 (Hs2 & Hg2 & n & Hn & Htx).
    apply pw_peek; [lia|syms|]. intros s3 Hs3 Ht3. rewrite Hn in HP.
    destruct (first_in [59] (T s2)) eqn:Ef.
    2: { split_and!; [lia|lia|done|]. rewrite Htx, Ht3. by apply L_last. }
    apply first_one in Ef; [|done]. apply pw_token; [lia|]. intros tk q0 eq0 s4 G1.
    rewrite <- Ht3 in Ef, HP. destruct (token_sym _ _ _ _ _ _ G1 Ef) as (Ht & _ & Hr).
    eapply pw_bind; [apply IHl; lia|]. intros c5 s5 (Hs5 & Hg5 & HL).
    split_and!; [lia|lia|by split|]. cbn. rewrite Htx. rewrite Ht in HP. by eapply L_list.
  - eapply pw_bind; [apply IHe; lia|]. intros c s1 (Hs1 & Hg & HE).
    apply pw_peek; [lia|syms|]. intros s3 Hs3 Ht3. destruct (first_in [124] (T s1)) eqn:Ef.
    2: { split_and!; [lia|lia|done|]. rewrite Ht3. by apply P_last. }
    apply first_one in Ef; [|done]. apply pw_token; [lia|]. intros tk q0 eq0 s4 G1.
    rewrite <- Ht3 in Ef, HE. destruct (token_sym _ _ _ _ _ _ G1 Ef) as (Ht & _ & Hr).
    eapply pw_bind; [apply IHp; lia|]. intros c5 s5 (Hs5 & Hg5 & HL).
    split_and!; [lia|lia|by split|]. cbn. rewrite Ht in HE. by eapply P_bar.
  - apply pw_peek; [lia|syms|]. intros s1 Hs1 Ht1. destruct (first_in [40] (T s)).
    { eapply pw_mono; [apply IHb; lia|]. intros c s' (Hs' & Hg & HE). rewrite Ht1 in HE.
      split_and!; [lia|lia|done|done]. }
    eapply pw_bind; [apply (parseredirs_sound (S es) _ []); [lia|lia|apply wraps_id]|].
    intros f s2 (Hs2 & rs & HR & Hw).
    eapply pw_mono; [apply (parseargs_sound (S es) f rs []); [lia|lia|done|constructor|cbn; lia]|].
    intros c s' (Hs' & Hg & ws & rs' & HA & Hl & Htx). split_and!; [lia|lia|done|]. rewrite Htx, <- Ht1.
    by eapply E_simple.
  - apply pw_peek; [lia|syms|]. intros s1 Hs1 Ht1. destruct (first_in [40] (T s)) eqn:Ef; [|done]. cbn [negb].
    apply first_one in Ef; [|done]. apply pw_token; [lia|]. intros tk q0 eq0 s2 G1.
    rewrite <- Ht1 in Ef. destruct (token_sym _ _ _ _ _ _ G1 Ef) as (Ht & _ & Hr).
    eapply pw_bind; [apply IHl; lia|]. intros c s3 (Hs3 & Hg & HL).
    apply pw_peek; [lia|syms|]. intros s4 Hs4 Ht4. destruct (first_in [41] (T s3)) eqn:Ef2; [|done]. cbn [negb].
    apply first_one in Ef2; [|done]. apply pw_token; [lia|]. intros tk1 q1 eq1 s5 G2.
    rewrite <- Ht4 in Ef2, HL. destruct (token_sym _ _ _ _ _ _ G2 Ef2) as (Ht5 & _ & Hr5).
    eapply pw_bind; [apply (parseredirs_sound (S es) _ []); [lia|lia|apply wraps_id]|].
    intros f s6 (Hs6 & rs & HR & Hw). destruct (Hw c) as [Hw1 Hw2].
    split_and!; [lia|lia|by apply Hw2|]. rewrite Hw1, <- Ht1, Ht. rewrite Ht5 in HL. by eapply E_block.
Qed.
(** ** Completeness: what is derivable is parsed *)

Abbreviation complete o Q := (pwp False True o Q).

(** What may follow a phrase. *)
Definition ends (toks : list Z) (r : list tok) : Prop :=
  r = [] \/ exists c r', r = TSym c :: r' /\ c ∈ toks.

Definition result (s : nat) (sc : scmd) (r : list tok) (c : cmd) (s' : nat) : Prop :=
  (s <= s' <= es)%nat /\ text c = sc /\ T s' = r.

Lemma ends_not toks toks' r : ends toks r -> (forall c, c ∈ toks -> c ∉ toks') -> first_in toks' r = false.
Proof. intros [->|(c & r' & -> & Hc)] H; [done|]. by apply bool_decide_eq_false, H. Qed.

Lemma ends_mono toks toks' r : ends toks r -> toks ⊆ toks' -> ends toks' r.
Proof. intros [->|(c & r' & -> & Hc)] H; [by left|]. right. eauto 10. Qed.

Lemma pw_word {B} (k : Z * nat * nat -> P B) s w r Q : (s <= es)%nat -> T s = TWord w :: r ->
  (forall q eq s', (s < s' <= es)%nat -> T s' = r -> word_at (q, eq) -> w = slice q eq ->
     complete (k (97, q, eq) s') Q) ->
  complete (pbind (token buf es) k s) Q.
Proof.
  intros Hs Ht H. apply pw_token; [done|]. intros ret q eq s' [Hr G]. rewrite Ht in G.
  destruct G as (-> & G1 & G2 & G3 & G4). by apply H; [lia|..].
Qed.

Lemma pw_sym {B} (k : Z * nat * nat -> P B) s c r Q : (s <= es)%nat -> T s = TSym c :: r ->
  (forall q eq s', (s < s' <= es)%nat -> T s' = r -> complete (k (c, q, eq) s') Q) ->
  complete (pbind (token buf es) k s) Q.
Proof.
  intros Hs Ht H. apply pw_token; [done|]. intros ret q eq s' [Hr G]. rewrite Ht in G.
  destruct G as (-> & _ & G1 & G2). by apply H; [lia|..].
Qed.

Lemma pw_app {B} (k : Z * nat * nat -> P B) s r Q : (s <= es)%nat -> T s = TApp :: r ->
  (forall q eq s', (s < s' <= es)%nat -> T s' = r -> complete (k (43, q, eq) s') Q) ->
  complete (pbind (token buf es) k s) Q.
Proof.
  intros Hs Ht H. apply pw_token; [done|]. intros ret q eq s' [Hr G]. rewrite Ht in G.
  destruct G as (-> & G1 & G2). by apply H; [lia|..].
Qed.

Lemma parseredirs_complete ts rs r : Redirs ts rs r -> first_in [60; 62] r = false ->
  forall k f rs0 s, (s <= es)%nat -> wraps f rs0 -> T s = ts ->
  complete (parseredirs buf es f k s) (fun f' s' => (s <= s' <= es)%nat /\ T s' = r /\ wraps f' (rs0 ++ rs)).
Proof.
  intros H Hr. induction H as [ts|w ts rs r H IH|w ts rs r H IH|w ts rs r H IH];
    intros [|k] f rs0 s Hs Hf Ht; try done; cbn [parseredirs];
    (apply pw_peek; [done|syms|]); intros s1 Hs1 Ht1; rewrite Ht in *.
  { rewrite Hr. cbn. rewrite app_nil_r. split_and!; [lia|lia|done|done]. }
  all: cbn [first_in]; rewrite bool_decide_true by set_solver;
    first [eapply pw_sym; [lia|done|] | eapply pw_app; [lia|done|]]; intros q0 eq0 s2 Hs2 Ht2;
    (eapply pw_word; [lia|done|]); intros q eq s3 Hs3 Ht3 Hw ->; cbn -[parseredirs];
    (eapply pw_mono; [eapply (IH Hr k); [lia|by apply wraps_redir|done]|]);
    intros f' s' (Hs' & Ht' & Hf'); (split_and!; [lia|lia|done|by rewrite <- app_assoc in Hf']).
Qed.

Lemma parseback_complete n : forall r k c s, first_in [38] r = false -> (s <= es)%nat ->
  T s = replicate n (TSym 38) ++ r ->
  complete (parseback buf es c k s) (result s (back n (text c)) r).
Proof.
  induction n as [|n IH]; intros r [|k] c s Hr Hs Ht; try done; cbn [parseback];
    (apply pw_peek; [done|syms|]); intros s1 Hs1 Ht1; rewrite Ht in *.
  - cbn [replicate app]. rewrite Hr. split_and!; [lia|lia|done|done].
  - cbn [replicate app first_in] in *. rewrite bool_decide_true by set_solver.
    eapply pw_sym; [lia|done|]. intros q eq s2 Hs2 Ht2.
    eapply pw_mono; [apply (IH r k (BACK c)); [done|lia|done]|]. intros c' s' (Hs' & Htx & Ht').
    split_and!; [lia|lia|by rewrite Htx, <- back_shift|done].
Qed.

Lemma Args_first ts ws rs r : Args ts ws rs r -> ends [124; 41; 38; 59] r -> first_in [60; 62] ts = false.
Proof.
  intros H. destruct H; [|done]. intros He. eapply ends_not; [done|]. set_solver.
Qed.

Lemma parseargs_complete ts ws rs r : Args ts ws rs r -> ends [124; 41; 38; 59] r ->
  forall k f rs0 argv s, (s <= es)%nat -> wraps f rs0 -> T s = ts -> (length argv + length ws < MAXARGS)%nat ->
  complete (parseargs buf es f argv k s)
    (result s (redirect (SExec (map (fun w => slice w.1 w.2) argv ++ ws)) (rs0 ++ rs)) r).
Proof.
  intros H Hr. induction H as [ts|w ts rs ts1 ws rs' r HR HA IH]; intros [|k] f rs0 argv s Hs Hf Ht Hl; try done;
    cbn [parseargs]; (apply pw_peek; [done|syms|]); intros s1 Hs1 Ht1; rewrite Ht in *.
  - rewrite !app_nil_r. destruct (Hf (EXEC argv)) as [Hx _]. destruct Hr as [->|(c & r' & -> & Hc)].
    + cbn [first_in]. apply pw_token; [lia|]. intros tk q eq s2 [Hs2 G]. rewrite Ht1 in G. destruct G as [-> ->].
      split_and!; [lia|lia|done|apply T_end].
    + cbn [first_in]. rewrite bool_decide_true by done. split_and!; [lia|lia|done|done].
  - cbn [first_in]. eapply pw_word; [lia|done|]. intros q eq s2 Hs2 Ht2 Hw ->. change (97 =? 0) with false. change (97 =? 97) with true. cbn [negb].
    destruct (Nat.leb_spec MAXARGS (length (argv ++ [(q, eq)]))) as [Hbad|_].
    { rewrite length_app in Hbad. cbn in *. lia. }
    eapply pw_bind; [eapply (parseredirs_complete _ _ _ HR); [by eapply Args_first|lia|done|done]|].
    intros f' s3 (Hs3 & Ht3 & Hf').
    eapply pw_mono; [apply (IH Hr k f' (rs0 ++ rs)); [lia|done|done|]|].
    { rewrite length_app. cbn in *. lia. }
    intros c s' (Hs' & Htx & Ht'). split_and!; [lia|lia| |done].
    rewrite Htx, map_app, <- !app_assoc. done.
Qed.

Lemma ends_back n r toks : ends toks r -> 38 ∈ toks -> ends toks (replicate n (TSym 38) ++ r).
Proof. intros H Hin. destruct n; [done|]. right. cbn. eauto. Qed.

Lemma Redirs_first ts rs r : Redirs ts rs r -> first_in [40] r = false -> first_in [40] ts = false.
Proof. intros H. destruct H; done. Qed.

Lemma parser_complete :
  (forall ts sc r, Line ts sc r -> ends [41] r -> forall fuel s, (s <= es)%nat -> T s = ts ->
     complete (parseline buf es fuel s) (result s sc r)) /\
  (forall ts sc r, Pipeline ts sc r -> ends [41; 38; 59] r -> forall fuel s, (s <= es)%nat -> T s = ts ->
     complete (parsepipe buf es fuel s) (result s sc r)) /\
  (forall ts sc r, Exec ts sc r -> ends [124; 41; 38; 59] r -> forall fuel s, (s <= es)%nat -> T s = ts ->
     complete (parseexec buf es fuel s) (result s sc r)).
Proof.
  apply grammar_ind.
  - intros ts sc n r _ IH Hr [|fuel] s Hs Ht; [done|]. cbn [parseline].
    eapply pw_bind; [apply IH; [|done|done]|].
    { apply ends_back; [|set_solver]. eapply ends_mono; [done|set_solver]. }
    intros c s1 (Hs1 & Htx & Ht1).
    eapply pw_bind; [apply (parseback_complete n r); [|lia|done]|].
    { eapply ends_not; [done|]. set_solver. }
    intros c2 s2 (Hs2 & Htx2 & Ht2). apply pw_peek; [lia|syms|]. intros s3 Hs3 Ht3. rewrite Ht2 in *.
    rewrite (ends_not [41]) by (done || set_solver). split_and!; [lia|lia|by rewrite Htx2, Htx|done].
  - intros ts sc n ts1 sc2 r _ IHp _ IHl Hr [|fuel] s Hs Ht; [done|]. cbn [parseline].
    eapply pw_bind; [apply IHp; [|done|done]|].
    { apply ends_back; [|set_solver]. right. eexists _, _. split; [done|set_solver]. }
    intros c s1 (Hs1 & Htx & Ht1).
    eapply pw_bind; [apply (parseback_complete n (TSym 59 :: ts1)); [done|lia|done]|].
    intros c2 s2 (Hs2 & Htx2 & Ht2). apply pw_peek; [lia|syms|]. intros s3 Hs3 Ht3. rewrite Ht2 in *.
    change (first_in [59] (TSym 59 :: ts1)) with true. cbv match.
    eapply pw_sym; [lia|done|]. intros q eq s4 Hs4 Ht4.
    eapply pw_bind; [apply IHl; [done|lia|done]|]. intros c5 s5 (Hs5 & Htx5 & Ht5).
    split_and!; [lia|lia| |done]. cbn. by rewrite Htx2, Htx, Htx5.
  - intros ts sc r _ IH Hr [|fuel] s Hs Ht; [done|]. cbn [parsepipe].
    eapply pw_bind; [apply IH; [|done|done]|].
    { eapply ends_mono; [done|set_solver]. }
    intros c s1 (Hs1 & Htx & Ht1). apply pw_peek; [lia|syms|]. intros s3 Hs3 Ht3. rewrite Ht1 in *.
    rewrite (ends_not [41; 38; 59]) by (done || set_solver). split_and!; [lia|lia|done|done].
  - intros ts sc ts1 sc2 r _ IHe _ IHp Hr [|fuel] s Hs Ht; [done|]. cbn [parsepipe].
    eapply pw_bind; [apply IHe; [|done|done]|].
    { right. eexists _, _. split; [done|set_solver]. }
    intros c s1 (Hs1 & Htx & Ht1). apply pw_peek; [lia|syms|]. intros s3 Hs3 Ht3. rewrite Ht1 in *.
    change (first_in [124] (TSym 124 :: ts1)) with true. cbv match.
    eapply pw_sym; [lia|done|]. intros q eq s4 Hs4 Ht4.
    eapply pw_bind; [apply IHp; [done|lia|done]|]. intros c5 s5 (Hs5 & Htx5 & Ht5).
    split_and!; [lia|lia| |done]. cbn. by rewrite Htx, Htx5.
  - intros ts sc ts1 rs r _ IHl HR Hr [|[|fuel]] s Hs Ht; [done| |]; cbn [parseexec parseblock];
      (apply pw_peek; [lia|syms|]); intros s1 Hs1 Ht1; rewrite Ht in *;
      change (first_in [40] (TSym 40 :: ts)) with true; cbv match; [done|].
    apply pw_peek; [lia|syms|]. intros s2 Hs2 Ht2. rewrite Ht1 in *.
    change (first_in [40] (TSym 40 :: ts)) with true. cbn [negb].
    eapply pw_sym; [lia|done|]. intros q eq s3 Hs3 Ht3.
    eapply pw_bind; [apply IHl; [|lia|done]|].
    { right. eexists _, _. split; [done|set_solver]. }
    intros c s4 (Hs4 & Htx & Ht4). apply pw_peek; [lia|syms|]. intros s5 Hs5 Ht5. rewrite Ht4 in *.
    change (first_in [41] (TSym 41 :: ts1)) with true. cbn [negb].
    eapply pw_sym; [lia|done|]. intros q1 eq1 s6 Hs6 Ht6.
    assert (Hr' : first_in [60; 62] r = false) by (eapply ends_not; [done|set_solver]).
    eapply pw_bind; [apply (parseredirs_complete _ _ _ HR Hr' _ _ []); [lia|apply wraps_id|done]|].
    intros f s7 (Hs7 & Ht7 & Hw). destruct (Hw c) as [Hw1 _].
    split_and!; [lia|lia|by rewrite Hw1, Htx|done].
  - intros ts rs0 ts1 ws rs r HR HA Hl Hr [|fuel] s Hs Ht; [done|]. cbn [parseexec].
    apply pw_peek; [lia|syms|]. intros s1 Hs1 Ht1. rewrite Ht in *.
    rewrite (Redirs_first ts rs0 ts1 HR) by (destruct HA; [|done]; eapply ends_not; [done|set_solver]).
    assert (Hr' : first_in [60; 62] ts1 = false) by (by eapply Args_first).
    eapply pw_bind; [apply (parseredirs_complete _ _ _ HR Hr' _ _ []); [lia|apply wraps_id|done]|].
    intros f s2 (Hs2 & Ht2 & Hf).
    eapply pw_mono; [apply (parseargs_complete _ _ _ _ HA Hr _ f rs0 []); [lia|done|done|done]|].
    intros c s' (Hs' & Htx & Ht'). split_and!; [lia|lia|done|done].
Qed.
(** ** [nulterminate] *)

Fixpoint ends_of (c : cmd) : list nat :=
  match c with
  | EXEC argv => map snd argv
  | REDIR c _ eq _ _ => ends_of c ++ [eq]
  | PIPE l r | LIST l r => ends_of l ++ ends_of r
  | BACK c => ends_of c
  end.

Definition put_nul (b : list Z) (e : nat) : list Z := <[e := 0]> b.

Lemma nulterminate_ends c : forall b, nulterminate c b = fold_left put_nul (ends_of c) b.
Proof.
  induction c as [argv|c IH q eq mode fd|l IHl r IHr|l IHl r IHr|c IH]; intros b; cbn; rewrite ?fold_left_app.
  - revert b. induction argv as [|[q eq] argv IH]; intros b; [done|]. cbn. apply IH.
  - cbn. by rewrite IH.
  - by rewrite IHl, IHr.
  - by rewrite IHl, IHr.
  - apply IH.
Qed.

Lemma char_put b e i : char_at (put_nul b e) i = if decide (i = e) then 0 else char_at b i.
Proof.
  unfold char_at, put_nul. rewrite !nth_lookup. destruct (decide (i = e)) as [->|Hn].
  - destruct (decide (e < length b)%nat) as [Hl|Hl]; [by rewrite list_lookup_insert_eq|].
    rewrite lookup_ge_None_2; [done|]. rewrite length_insert. lia.
  - by rewrite list_lookup_insert_ne.
Qed.

Lemma char_puts l : forall b i, char_at (fold_left put_nul l b) i = if decide (i ∈ l) then 0 else char_at b i.
Proof.
  induction l as [|e l IH]; intros b i; cbn [fold_left]; [done|]. rewrite IH, char_put.
  repeat case_decide; set_solver.
Qed.

Lemma good_ends c : good c -> forall e, e ∈ ends_of c -> e = es \/ is_word (char_at buf e) = false.
Proof.
  induction c as [argv|c IH q eq mode fd|l IHl r IHr|l IHl r IHr|c IH]; cbn; intros Hg e He.
  - apply list_elem_of_fmap in He as (w & -> & Hw). eapply Forall_forall in Hg; [|done]. apply Hg.
  - destruct Hg as [Hg Hw]. apply elem_of_app in He as [He|He]; [by apply IH|].
    apply list_elem_of_singleton in He as ->. apply (wa_stop _ Hw).
  - destruct Hg. apply elem_of_app in He as []; auto.
  - destruct Hg. apply elem_of_app in He as []; auto.
  - auto.
Qed.

Lemma cstring_at b (n : nat) : forall q w, length w = n -> (forall i, (i < n)%nat -> char_at b (q + i) = char_at w i) ->
  Forall (fun c => c <> 0) w -> char_at b (q + n) = 0 -> word_of b q = w.
Proof.
  unfold word_of, char_at. induction n as [|n IH]; intros q w Hl Hi Hw H0.
  - destruct w; [|done]. rewrite Nat.add_0_r in H0. destruct (drop q b) as [|c l] eqn:E; [done|]. cbn.
    rewrite <- (Nat.add_0_r q), <- nth_skipn, E in H0. cbn in H0. by rewrite H0.
  - destruct w as [|c w]; [done|]. inversion Hw; subst. pose proof (Hi 0%nat ltac:(lia)) as H1.
    rewrite Nat.add_0_r in H1. cbn in H1. destruct (drop q b) as [|d l] eqn:E.
    { rewrite <- (Nat.add_0_r q), <- nth_skipn, E in H1. cbn in H1. done. }
    assert (d = c) as ->. { rewrite <- (Nat.add_0_r q), <- nth_skipn, E in H1. done. }
    assert (E' : drop (S q) b = l) by (rewrite <- Nat.add_1_r, <- drop_drop, E; done).
    cbn. rewrite (proj2 (Z.eqb_neq c 0)) by done. f_equal. rewrite <- E'. apply IH; [by injection Hl| |done|].
    + intros i Hlt. specialize (Hi (S i) ltac:(lia)). cbn in Hi. rewrite <- Hi. f_equal. lia.
    + by replace (S q + n)%nat with (q + S n)%nat by lia.
Qed.

Lemma word_char w i : word_at w -> (w.1 <= i < w.2)%nat -> is_word (char_at buf i) = true /\
  char_at (slice w.1 w.2) (i - w.1) = char_at buf i /\ char_at buf i <> 0.
Proof.
  intros [H1 H2 H3] Hi. destruct (char_in i ltac:(lia)) as (c & Hl & Hc & H0 & _).
  assert (E : slice w.1 w.2 !! (i - w.1)%nat = Some c).
  { unfold slice. rewrite lookup_take_lt, lookup_drop by lia. rewrite <- Hl. f_equal. lia. }
  rewrite Hc. split_and!; [by eapply Forall_lookup_1 in H2| |done]. unfold char_at. by apply nth_lookup_Some.
Qed.

Lemma word_nul c w b' : good c -> word_at w -> w.2 ∈ ends_of c -> nulterminate c buf = b' ->
  word_of b' w.1 = slice w.1 w.2.
Proof.
  intros Hg Hw Hin <-. pose proof (wa_range _ Hw) as Hr.
  assert (Hlen : length (slice w.1 w.2) = (w.2 - w.1)%nat).
  { unfold slice. rewrite length_take, length_drop. unfold es in *. lia. }
  rewrite nulterminate_ends. eapply cstring_at; [done| | |].
  - intros i Hi. destruct (word_char w (w.1 + i) Hw ltac:(lia)) as (H1 & H2 & _). rewrite char_puts, decide_False.
    + rewrite <- H2. f_equal. lia.
    + intros He. destruct (good_ends c Hg _ He) as [|He']; [lia|congruence].
  - apply Forall_lookup_2. intros i x Hx. pose proof (lookup_lt_Some _ _ _ Hx).
    destruct (word_char w (w.1 + i) Hw ltac:(lia)) as (_ & H2 & H3).
    replace (w.1 + i - w.1)%nat with i in H2 by lia. unfold char_at in H2 at 1. rewrite nth_lookup, Hx in H2. cbn in H2. congruence.
  - replace (w.1 + (w.2 - w.1))%nat with w.2 by lia. by rewrite char_puts, decide_True.
Qed.

(** A command with its words read as C strings. *)
Fixpoint reads (b : list Z) (c : cmd) : scmd :=
  match c with
  | EXEC argv => SExec (map (fun w => word_of b w.1) argv)
  | REDIR c q _ mode fd => SRedir (reads b c) (word_of b q) mode fd
  | PIPE l r => SPipe (reads b l) (reads b r)
  | LIST l r => SList (reads b l) (reads b r)
  | BACK c => SBack (reads b c)
  end.

Lemma reads_sub c0 : good c0 -> forall c, good c -> ends_of c ⊆ ends_of c0 ->
  reads (nulterminate c0 buf) c = text c.
Proof.
  intros Hg0. induction c as [argv|c IH q eq mode fd|l IHl r IHr|l IHl r IHr|c IH]; cbn; intros Hg Hsub.
  - f_equal. apply map_ext_in. intros w Hw%list_elem_of_In. eapply word_nul; [done| | |done].
    + by eapply Forall_forall in Hg.
    + apply Hsub. apply list_elem_of_fmap. eauto.
  - destruct Hg as [Hg Hw]. rewrite IH by (done || set_solver). f_equal.
    apply (word_nul c0 (q, eq)); [done|done| |done]. cbn. set_solver.
  - destruct Hg. rewrite IHl, IHr by (done || set_solver). done.
  - destruct Hg. rewrite IHl, IHr by (done || set_solver). done.
  - by rewrite IH.
Qed.

Lemma strlen_line : Z.to_nat (strlen buf) = es.
Proof.
  unfold buf, es. clear buf es. induction Hnul as [|c l Hc Hl IH]; [done|]. cbn.
  rewrite (proj2 (Z.eqb_neq c 0)) by done. cbn in *.
  assert (0 <= strlen (l ++ 0 :: tl)).
  { clear. induction (l ++ 0 :: tl) as [|x y IHy]; cbn; [done|]. destruct (x =? 0); lia. }
  rewrite <- IH by done. lia.
Qed.
End Lexer.

Lemma parsecmd_decides line tl : Forall (fun c => c <> 0) line ->
  match parsecmd (line ++ 0 :: tl) with
  | Got (c, b) _ => Line (lex line) (reads b c) [] /\ (forall sc, Line (lex line) sc [] -> sc = reads b c)
  | Bad _ | Leftover _ => forall sc, ~ Line (lex line) sc []
  | Stuck => False
  end.
Proof.
  intros Hnul. unfold parsecmd. rewrite strlen_line by done. set (es := length line).
  destruct (parser_sound line tl Hnul (4 * S (S es))) as (Hsound & _).
  specialize (Hsound 0%nat ltac:(lia) ltac:(unfold es; lia)). destruct (parser_complete line tl Hnul) as (Hcomp & _).
  assert (Hc : forall sc, Line (lex line) sc [] ->
    pwp False True (parseline (line ++ 0 :: tl) es (4 * S (S es)) 0%nat) (result line 0 sc [])).
  { intros sc HL. apply (Hcomp _ _ _ HL); [by left|lia|]. unfold T. by rewrite drop_0. }
  clear Hcomp. unfold es in *. destruct (parseline _ _ _ _) as [c s'|msg|s'|]; cbn [pwp] in *; [|exact Hc|exact Hc|done].
  destruct Hsound as (Hs & Hg & HL). pose proof (peek_spec line tl Hnul s' [] ltac:(lia) ltac:(constructor)) as G.
  destruct (peek _ _ s' []) as [b s2]. destruct G as (Hs2 & Ht2 & He & _).
  destruct (Nat.eqb_spec s2 (length line)) as [E|E]; cbn [negb].
  - assert (Ht : T line s' = []) by (rewrite <- Ht2, E; apply T_end).
    rewrite (reads_sub line tl Hnul c Hg c Hg) by done. rewrite Ht in HL. unfold T in HL. rewrite drop_0 in HL. split; [done|].
    intros sc HL'. destruct (Hc sc HL') as (_ & Htx & _). done.
  - intros sc HL'. destruct (Hc sc HL') as (_ & _ & Ht). by apply E, He.
Qed.

(** C34: [parsecmd] decides the shell's language. For a line (followed in its buffer by the
    terminating NUL and anything else) it returns within its bound of calls; it succeeds
    exactly when the line's tokens form a command of the grammar, and the command it
    builds, its words read as C strings from the buffer that [nulterminate] has cut up
    in place, is the one that the grammar assigns. *)
Theorem parsecmd_correct line tl : Forall (fun c => c <> 0) line ->
  match parsecmd (line ++ 0 :: tl) with
  | Got (c, b) _ => Line (lex line) (reads b c) [] /\ (forall sc, Line (lex line) sc [] -> sc = reads b c)
  | Bad _ | Leftover _ => forall sc, ~ Line (lex line) sc []
  | Stuck => False
  end.
Proof. apply parsecmd_decides. Qed.

(** [(ls;x)>f&] and [)], the first with another line's remains behind it. *)
Lemma parsecmd_correct_witness :
  let line := [40; 108; 115; 59; 120; 41; 62; 102; 38] in
  let sc := SBack (SRedir (SList (SExec [[108; 115]]) (SExec [[120]])) [102] 0x601 1) in
  Line (lex line) sc [] /\ (forall sc', ~ Line (lex [41]) sc' []).
Proof.
  intros line sc.
  assert (H1 := parsecmd_correct line [65]). assert (H2 := parsecmd_correct [41] []).
  assert (E2 : exists s, parsecmd ([41] ++ 0 :: []) = Leftover s) by (eexists; vm_compute; reflexivity).
  assert (E1 : exists c b s, parsecmd (line ++ 0 :: [65]) = Got (c, b) s /\ reads b c = sc)
    by (eexists _, _, _; split; vm_compute; reflexivity).
  destruct E1 as (c & b & s & E1 & <-), E2 as [s2 E2]. rewrite E1 in H1. rewrite E2 in H2.
  split; [apply H1|apply H2]; by repeat constructor.
Defined.
