(* ===== verification/ShRun.v ===== *)
(** The rest of [user/sh.c]: running parsed commands, and the command loop. *)
From S2P Require Import Prelude Ulib Usys Sh.

Definition panic {A} (s : list Z) : prog A :=
  fprintf 2 (line_of "%s") [UStr (Some s)] ;;
  Exit 1.

Definition fork1 : prog Z :=
  pid ← call Fork;
  if pid =? -1 then panic (str "fork") else Ret pid.

(** [b] is the line, cut up by [nulterminate].  It never returns: where the code runs a
    command in the child's branch of an [if], nothing follows. *)
Fixpoint runcmd (b : list Z) (c : cmd) : prog Z :=
  match c with
  | EXEC argv =>
      let argv := map (fun w => word_of b w.1) argv in
      match argv with
      | [] => Exit 1
      | a0 :: _ =>
          call (Exec a0 argv) ;;
          fprintf 2 (line_of "exec %s failed") [UStr (Some a0)] ;;
          Exit 0
      end
  | REDIR c file _ mode fd =>
      call (Close fd) ;;
      r ← call (Open (word_of b file) mode);
      if r <? 0 then
        fprintf 2 (line_of "open %s failed") [UStr (Some (word_of b file))] ;;
        Exit 1
      else runcmd b c
  | LIST l r =>
      pid ← fork1;
      if pid =? 0 then runcmd b l
      else
        call Wait ;;
        runcmd b r
  | PIPE l r =>
      '(e, (p0, p1)) ← call PipeC;
      if e <? 0 then panic (str "pipe")
      else
        pid ← fork1;
        if pid =? 0 then
          call (Close 1) ;;
          call (Dup p1) ;;
          call (Close p0) ;;
          call (Close p1) ;;
          runcmd b l
        else
          pid ← fork1;
          if pid =? 0 then
            call (Close 0) ;;
            call (Dup p0) ;;
            call (Close p0) ;;
            call (Close p1) ;;
            runcmd b r
          else
            call (Close p0) ;;
            call (Close p1) ;;
            call Wait ;;
            call Wait ;;
            Exit 0
  | BACK c =>
      pid ← fork1;
      if pid =? 0 then runcmd b c else Exit 0
  end.

(** [runcmd(parsecmd(buf))], with what [parsecmd] prints when it fails. *)
Definition run_line (buf : list Z) : prog Z :=
  match parsecmd buf with
  | Got (c, b) _ => runcmd b c
  | Bad msg => panic (str msg)
  | Leftover s =>
      fprintf 2 (line_of "leftovers: %s") [UStr (Some (drop s buf))] ;;
      panic (str "syntax")
  | Stuck => Spin
  end.

(** The line in a buffer of [nbuf] zeros, or [None] at the end of the input. *)
Definition getcmd (nbuf : nat) : prog (option (list Z)) :=
  call (Write 2 (str "$ ")) ;;
  l ← gets nbuf;
  let buf := l ++ replicate (nbuf - length l) 0 in
  Ret (if char_at buf 0 =? 0 then None else Some buf).

(** The [while] that makes sure that the first three descriptors are open. *)
Fixpoint open_console (fuel : nat) : prog unit :=
  match fuel with
  | O => Spin
  | S fuel' =>
      fd ← call (Open (str "console") 2);
      if fd <? 0 then Ret tt
      else if 3 <=? fd then call (Close fd) ;; Ret tt
      else open_console fuel'
  end.

Fixpoint sh_loop (rounds : nat) : prog Z :=
  match rounds with
  | O => Spin
  | S rounds' =>
      line ← getcmd 100;
      match line with
      | None => Exit 0
      | Some buf =>
          if (char_at buf 0 =? 99) && (char_at buf 1 =? 100) && (char_at buf 2 =? 32) then
            let buf := <[(Z.to_nat (strlen buf) - 1)%nat := 0]> buf in
            let dir := cstring (drop 3 buf) in
            r ← call (Chdir dir);
            (if r <? 0 then fprintf 2 (line_of "cannot cd %s") [UStr (Some dir)] else Ret tt) ;;
            sh_loop rounds'
          else
            pid ← fork1;
            if pid =? 0 then run_line buf
            else
              call Wait ;;
              sh_loop rounds'
      end
  end.

(** Each round of the first loop takes another descriptor, and a process has 16 of them. *)
Definition sh_main (rounds : nat) : prog Z :=
  open_console 17 ;;
  sh_loop rounds.
