(* ===== verification/ShRunThms.v ===== *)
(** Which programs the shell starts for a command, and what their descriptors are
    connected to. *)
From S2P Require Import Prelude Ulib Usys Sh ShThms ShRun.

(** ** Descriptors *)

(** What a descriptor refers to: something the shell was started with, an opened file, or an
    end of a pipe. *)
Inductive obj := Given (fd : Z) | Named (path : list Z) (mode : Z) | PipeR (p : nat) | PipeW (p : nat).
Abbreviation fds := (gmap Z obj).

(** The lowest free descriptor of the 16. *)
Definition lowest (σ : fds) : option Z := head (filter (fun fd => σ !! fd = None) (seqZ 0 16)).

(** What is seen of a line's processes: a program that is started, with its arguments and its
    descriptors, and a shell that waits for a child, with the descriptors it keeps open
    meanwhile. *)
Inductive happening := Started (argv : list (list Z)) (σ : fds) | Waits (σ : fds).
Definition open_fds (h : happening) : fds := match h with Started _ σ | Waits σ => σ end.
Definition prog_of (h : happening) : option (list (list Z)) :=
  match h with Started argv _ => Some argv | Waits _ => None end.

(** ** Processes

    The processes that come out of a program share no descriptor table, so that what each of
    them starts does not depend on the order in which they run.  [K r σ u R u'] stands for
    the rest of the program after the result [r]; [σ] are the process's descriptors, [u] the
    pipes that were made before, [R] what happens from here on in the process
    and its children, and [u'] the pipes made then.  With [fail] any call that may fail
    may do so. *)
Section Sem.
Context (fail : bool).

Definition sem {R : Type} (e : sysc R) : (R -> fds -> gset nat -> list happening -> gset nat -> Prop) ->
    fds -> gset nat -> list happening -> gset nat -> Prop :=
  match e in sysc R return (R -> fds -> gset nat -> list happening -> gset nat -> Prop) -> _ with
  | Fork => fun K σ u R u' =>
      (exists pid R1 u1 R2, 0 < pid /\ K 0 σ u R1 u1 /\ K pid σ u1 R2 u' /\ R = R1 ++ R2) \/
      (fail = true /\ K (-1) σ u R u')
  | Usys.Exec _ argv => fun K σ u R u' => (R = [Started argv σ] /\ u' = u) \/ (fail = true /\ K (-1) σ u R u')
  | Close fd => fun K σ u R u' => K (if decide (σ !! fd = None) then -1 else 0) (delete fd σ) u R u'
  | Dup fd => fun K σ u R u' =>
      match σ !! fd, lowest σ with
      | Some o, Some fd' => K fd' (<[fd' := o]> σ) u R u'
      | _, _ => K (-1) σ u R u'
      end
  | Open path mode => fun K σ u R u' =>
      (exists fd, lowest σ = Some fd /\ K fd (<[fd := Named path mode]> σ) u R u') \/
      ((fail = true \/ lowest σ = None) /\ K (-1) σ u R u')
  | PipeC => fun K σ u R u' =>
      (exists p r w, (p ∉ u) /\ lowest σ = Some r /\ lowest (<[r := PipeR p]> σ) = Some w /\
         K (0, (r, w)) (<[w := PipeW p]> (<[r := PipeR p]> σ)) ({[p]} ∪ u) R u') \/
      ((fail = true \/ lowest σ = None \/ (exists r p, lowest σ = Some r /\ lowest (<[r := PipeR p]> σ) = None)) /\
       K (-1, (0, 0)) σ u R u')
  | Wait => fun K σ u R u' => exists r R', K r σ u R' u' /\ R = Waits σ :: R'
  | _ => fun K σ u R u' => exists r, K r σ u R u'
  end.

Fixpoint spawns (p : prog Z) : fds -> gset nat -> list happening -> gset nat -> Prop :=
  match p with
  | Vis e k => sem e (fun r => spawns (k r))
  | Ret _ | Exit _ | Spin => fun σ u R u' => R = [] /\ u' = u
  end.

(** ** What a command should do

    [Plumbed c σ u R u']: with the descriptors [σ], the command [c] starts the programs in [R].  A pipe of its own
    joins the two sides of a bar; nothing else is added to a program's descriptors, and the
    shell that waits for the two sides, or for the first part of a list, has no more descriptors
    than it had before, so that it holds no end of the pipe it made. *)
Inductive Plumbed : scmd -> fds -> gset nat -> list happening -> gset nat -> Prop :=
  | PL_none c σ u u' : fail = true -> u ⊆ u' -> Plumbed c σ u [] u'
  | PL_empty σ u : Plumbed (SExec []) σ u [] u
  | PL_exec ws σ u : ws <> [] -> Plumbed (SExec ws) σ u [Started ws σ] u
  | PL_redir c f mode fd σ u R u' :
      Plumbed c (<[fd := Named f mode]> σ) u R u' -> Plumbed (SRedir c f mode fd) σ u R u'
  | PL_list l r σ u R1 u1 R2 u2 :
      Plumbed l σ u R1 u1 -> Plumbed r σ u1 R2 u2 -> Plumbed (SList l r) σ u (R1 ++ Waits σ :: R2) u2
  | PL_pipe l r σ p u R1 u1 R2 u2 :
      p ∉ u -> Plumbed l (<[1 := PipeW p]> σ) ({[p]} ∪ u) R1 u1 ->
      Plumbed r (<[0 := PipeR p]> σ) u1 R2 u2 -> Plumbed (SPipe l r) σ u (R1 ++ R2 ++ [Waits σ; Waits σ]) u2
  | PL_left l r σ p u R1 u1 :
      fail = true -> p ∉ u -> Plumbed l (<[1 := PipeW p]> σ) ({[p]} ∪ u) R1 u1 -> Plumbed (SPipe l r) σ u R1 u1
  | PL_back c σ u R u' : Plumbed c σ u R u' -> Plumbed (SBack c) σ u R u'.

(** ** Proof *)

(** A program that prints something and exits starts nothing. *)
Definition quiet {A} (p : prog A) : Prop :=
  forall (k : A -> prog Z) σ u R u', spawns (p ≫= k) σ u R u' -> R = [] /\ u' = u.

Lemma quiet_exit {A} fd fmt args st : quiet (fprintf fd fmt args ≫= fun _ => Exit (A := A) st).
Proof.
  unfold fprintf, vprintf. destruct (vprintf_bytes fmt args) as [l|]; [|by intros k σ u R u' H].
  induction l as [|c l IH]; intros k σ u R u'; [done|]. cbn. intros [r H]. by eapply IH.
Qed.

Lemma quiet_panic {A} s : quiet (panic (A := A) s).
Proof. apply quiet_exit. Qed.

Lemma quiet_end fd fmt args st σ u R u' :
  spawns (fprintf fd fmt args ≫= fun _ => Exit st) σ u R u' -> R = [] /\ u' = u.
Proof.
  unfold fprintf, vprintf. destruct (vprintf_bytes fmt args) as [l|]; [|done].
  induction l as [|c l IH]; [done|]. cbn. intros [r H]. by apply IH.
Qed.

Lemma quiet_two fd fmt args fd' fmt' args' st σ u R u' :
  spawns (fprintf fd fmt args ≫= fun _ => fprintf fd' fmt' args' ≫= fun _ => Exit st) σ u R u' -> R = [] /\ u' = u.
Proof.
  pose proof (quiet_end fd' fmt' args' st) as Hq. revert Hq. generalize (fprintf fd' fmt' args' ≫= fun _ => Exit (A := Z) st) as q.
  intros q Hq. unfold fprintf, vprintf. destruct (vprintf_bytes fmt args) as [l|]; [|done].
  induction l as [|c l IH]; [apply Hq|]. cbn. intros [r H]. by apply IH.
Qed.

Lemma spawns_fork1 k σ u R u' : spawns (fork1 ≫= k) σ u R u' ->
  (exists pid R1 u1 R2, pid <> 0 /\ spawns (k 0) σ u R1 u1 /\ spawns (k pid) σ u1 R2 u' /\ R = R1 ++ R2) \/
  (fail = true /\ R = [] /\ u' = u).
Proof.
  unfold fork1. cbn -[panic]. intros [(pid & R1 & u1 & R2 & Hp & H1 & H2 & ->)|[Hf H]].
  - left. exists pid, R1, u1, R2. split; [lia|]. destruct (Z.eqb_spec pid (-1)); [lia|]. done.
  - right. split; [done|]. by eapply (quiet_panic _ k).
Qed.

(** The three standard descriptors and no other. *)
Definition three (σ : fds) : Prop :=
  σ !! 0 <> None /\ σ !! 1 <> None /\ σ !! 2 <> None /\ forall fd, fd < 0 \/ 3 <= fd -> σ !! fd = None.

Lemma three_insert σ fd o : three σ -> 0 <= fd < 3 -> three (<[fd := o]> σ).
Proof.
  intros (H0 & H1 & H2 & Hn) Hfd. repeat split.
  1-3: rewrite lookup_insert; case_decide; done.
  intros x Hx. rewrite lookup_insert_ne by lia. by apply Hn.
Qed.

Ltac low := unfold lowest; change (seqZ 0 16) with [0; 1; 2; 3; 4; 5; 6; 7; 8; 9; 10; 11; 12; 13; 14; 15];
  repeat (rewrite filter_cons_False by (simplify_map_eq; done));
  rewrite filter_cons_True by (simplify_map_eq; done); reflexivity.

Lemma lowest_three σ : three σ -> lowest σ = Some 3.
Proof. intros (H0 & H1 & H2 & Hn). pose proof (Hn 3 ltac:(lia)). low. Qed.

Lemma lowest_four σ o : three σ -> lowest (<[3 := o]> σ) = Some 4.
Proof. intros (H0 & H1 & H2 & Hn). pose proof (Hn 4 ltac:(lia)). low. Qed.

Lemma lowest_delete σ σ' fd : three σ -> 0 <= fd <= 1 -> (forall x, 0 <= x < 3 -> σ' !! x = delete fd σ !! x) -> lowest σ' = Some fd.
Proof.
  intros (H0 & H1 & H2 & Hn) Hfd Hx. assert (fd = 0 \/ fd = 1) as [->| ->] by lia.
  - pose proof (Hx 0 ltac:(lia)) as E0. rewrite lookup_delete_eq in E0. low.
  - pose proof (Hx 0 ltac:(lia)) as E0. pose proof (Hx 1 ltac:(lia)) as E1.
    rewrite lookup_delete_ne in E0 by lia. rewrite lookup_delete_eq in E1. rewrite <- E0 in H0. low.
Qed.

(** The child's side of a pipe: [close(fd); dup(q); close(p0); close(p1)]. *)
Lemma spawns_side (k : prog Z) σ p fd q u R u' : three σ -> (fd = 0 /\ q = 3 \/ fd = 1 /\ q = 4) ->
  spawns (call (Close fd) ;; call (Dup q) ;; call (Close 3) ;; call (Close 4) ;; k)
    (<[4 := PipeW p]> (<[3 := PipeR p]> σ)) u R u' ->
  spawns k (<[fd := if fd =? 0 then PipeR p else PipeW p]> σ) u R u'.
Proof.
  intros Ht Hq. set (σ1 := <[4 := PipeW p]> (<[3 := PipeR p]> σ)). cbn -[lowest].
  rewrite (lowest_delete σ _ fd); [|done|lia|].
  2: { intros x Hx. unfold σ1. destruct (decide (x = fd)) as [->|Hne]; [by rewrite !lookup_delete_eq|].
       by rewrite !lookup_delete_ne, !lookup_insert_ne by lia. }
  assert (Ho : delete fd σ1 !! q = Some (if fd =? 0 then PipeR p else PipeW p)).
  { unfold σ1. rewrite lookup_delete_ne by lia. destruct Hq as [[-> ->]|[-> ->]]; by simplify_map_eq. }
  rewrite Ho. set (o := if fd =? 0 then PipeR p else PipeW p).
  assert (E : delete 4 (delete 3 (<[fd := o]> (delete fd σ1))) = <[fd := o]> σ).
  { destruct Ht as (_ & _ & _ & Hn). apply map_eq. intros x. unfold σ1.
    destruct (decide (x = fd)) as [->|Hne].
    - rewrite !lookup_delete_ne by lia. by rewrite !lookup_insert_eq.
    - rewrite (lookup_insert_ne σ) by done. destruct (decide (x = 4)) as [->|H4]; [rewrite lookup_delete_eq; by rewrite Hn by lia|].
      rewrite lookup_delete_ne by done. destruct (decide (x = 3)) as [->|H3]; [rewrite lookup_delete_eq; by rewrite Hn by lia|].
      by rewrite lookup_delete_ne, lookup_insert_ne, lookup_delete_ne, !lookup_insert_ne by done. }
  by rewrite E.
Qed.

(** The descriptors a command redirects. *)
Fixpoint redir_ok (c : cmd) : Prop :=
  match c with
  | EXEC _ => True
  | REDIR c _ _ _ fd => 0 <= fd <= 1 /\ redir_ok c
  | PIPE l r | LIST l r => redir_ok l /\ redir_ok r
  | BACK c => redir_ok c
  end.

(** The parent's [close(p[0]); close(p[1])]. *)
Lemma ends_closed σ p : three σ -> delete 4 (delete 3 (<[4 := PipeW p]> (<[3 := PipeR p]> σ))) = σ.
Proof.
  intros (_ & _ & _ & Hn). apply map_eq. intros x. destruct (decide (x = 4)) as [->|H4].
  - rewrite lookup_delete_eq. by rewrite Hn by lia.
  - rewrite lookup_delete_ne by done. destruct (decide (x = 3)) as [->|H3].
    + rewrite lookup_delete_eq. by rewrite Hn by lia.
    + by rewrite lookup_delete_ne, !lookup_insert_ne by done.
Qed.

Lemma runcmd_plumbed b c : forall σ u R u', redir_ok c -> three σ -> spawns (runcmd b c) σ u R u' ->
  Plumbed (reads b c) σ u R u'.
Proof.
  induction c as [argv|c IH q eq mode fd|l IHl r IHr|l IHl r IHr|c IH]; intros σ u R u' Hr Ht; cbn [runcmd reads redir_ok] in *.
  - destruct (map (fun w => word_of b w.1) argv) as [|a0 ws]; [intros [-> ->]; apply PL_empty|].
    cbn -[fprintf]. intros [[-> ->]|[Hf H]]; [by apply PL_exec|]. apply quiet_end in H as [-> ->]. by apply PL_none.
  - destruct Hr as [Hfd Hr]. cbn -[fprintf lowest].
    assert (Hl : lowest (delete fd σ) = Some fd) by (apply (lowest_delete σ); done).
    rewrite Hl. intros [(x & [= <-] & H)|[[Hf|HN] H]]; [| |done].
    + rewrite (proj2 (Z.ltb_ge fd 0)) in H by lia. rewrite insert_delete_eq in H.
      apply PL_redir. apply IH; [done|by apply three_insert; [|lia]|done].
    + cbn -[fprintf] in H. apply quiet_end in H as [-> ->]. by apply PL_none.
  - destruct Hr as [Hl Hr]. cbn -[fprintf lowest panic fork1]. rewrite lowest_three by done.
    intros [(p & x & w & Hp & Hx & Hw & H)|[[Hf|[HN|(x & p & Hx & Hw)]] H]]; [| |done|].
    3: { injection Hx as <-. by rewrite lowest_four in Hw. }
    2: { unfold panic in H. apply quiet_end in H as [-> ->]. by apply PL_none. }
    injection Hx as <-.
    rewrite lowest_four in Hw by done. injection Hw as <-. cbn [Z.ltb Z.compare] in H.
    apply spawns_fork1 in H as [(pid & R1 & u1 & R2 & Hpid & H1 & H2 & ->)|(Hf & -> & ->)]; [|apply PL_none; [done|set_solver]].
    cbn [Z.eqb] in H1. apply (spawns_side (runcmd b l) σ p 1 4) in H1; [|done|by right]. rewrite (proj2 (Z.eqb_neq pid 0)) in H2 by done.
    assert (HL : Plumbed (reads b l) (<[1 := PipeW p]> σ) ({[p]} ∪ u) R1 u1) by (apply IHl; [done|by apply three_insert; [|lia]|done]).
    apply spawns_fork1 in H2 as [(pid2 & R3 & u3 & R4 & Hpid2 & H3 & H4 & ->)|(Hf & -> & ->)].
    + cbn [Z.eqb] in H3. apply (spawns_side (runcmd b r) σ p 0 3) in H3; [|done|by left].
      rewrite (proj2 (Z.eqb_neq pid2 0)) in H4 by done. cbn in H4. destruct H4 as (_ & R5 & (_ & R6 & [-> ->] & ->) & ->).
      rewrite (ends_closed σ p Ht). eapply PL_pipe; [done|done|]. apply IHr; [done|by apply three_insert; [|lia]|done].
    + rewrite app_nil_r. by eapply PL_left.
  - destruct Hr as [Hl Hr]. intros H.
    apply spawns_fork1 in H as [(pid & R1 & u1 & R2 & Hpid & H1 & H2 & ->)|(Hf & -> & ->)]; [|by apply PL_none].
    cbn [Z.eqb] in H1. rewrite (proj2 (Z.eqb_neq pid 0)) in H2 by done. cbn in H2. destruct H2 as (_ & R3 & H2 & ->).
    eapply PL_list; [by apply IHl|by apply IHr].
  - intros H. apply spawns_fork1 in H as [(pid & R1 & u1 & R2 & Hpid & H1 & H2 & ->)|(Hf & -> & ->)]; [|by apply PL_none].
    cbn [Z.eqb] in H1. rewrite (proj2 (Z.eqb_neq pid 0)) in H2 by done. destruct H2 as [-> ->]. rewrite app_nil_r.
    apply PL_back. by apply IH.
Qed.

Lemma spawns_side_back (k : prog Z) σ p fd q u R u' : three σ -> (fd = 0 /\ q = 3 \/ fd = 1 /\ q = 4) ->
  spawns k (<[fd := if fd =? 0 then PipeR p else PipeW p]> σ) u R u' ->
  spawns (call (Close fd) ;; call (Dup q) ;; call (Close 3) ;; call (Close 4) ;; k)
    (<[4 := PipeW p]> (<[3 := PipeR p]> σ)) u R u'.
Proof.
  intros Ht Hq. set (σ1 := <[4 := PipeW p]> (<[3 := PipeR p]> σ)). cbn -[lowest].
  rewrite (lowest_delete σ _ fd); [|done|lia|].
  2: { intros x Hx. unfold σ1. destruct (decide (x = fd)) as [->|Hne]; [by rewrite !lookup_delete_eq|].
       by rewrite !lookup_delete_ne, !lookup_insert_ne by lia. }
  assert (Ho : delete fd σ1 !! q = Some (if fd =? 0 then PipeR p else PipeW p)).
  { unfold σ1. rewrite lookup_delete_ne by lia. destruct Hq as [[-> ->]|[-> ->]]; by simplify_map_eq. }
  rewrite Ho. set (o := if fd =? 0 then PipeR p else PipeW p).
  assert (E : delete 4 (delete 3 (<[fd := o]> (delete fd σ1))) = <[fd := o]> σ).
  { destruct Ht as (_ & _ & _ & Hn). apply map_eq. intros x. unfold σ1.
    destruct (decide (x = fd)) as [->|Hne].
    - rewrite !lookup_delete_ne by lia. by rewrite !lookup_insert_eq.
    - rewrite (lookup_insert_ne σ) by done. destruct (decide (x = 4)) as [->|H4]; [rewrite lookup_delete_eq; by rewrite Hn by lia|].
      rewrite lookup_delete_ne by done. destruct (decide (x = 3)) as [->|H3]; [rewrite lookup_delete_eq; by rewrite Hn by lia|].
      by rewrite lookup_delete_ne, lookup_insert_ne, lookup_delete_ne, !lookup_insert_ne by done. }
  by rewrite E.
Qed.

Lemma fork1_spawns k σ u R1 u1 R2 u2 : spawns (k 0) σ u R1 u1 -> spawns (k 1) σ u1 R2 u2 ->
  spawns (fork1 ≫= k) σ u (R1 ++ R2) u2.
Proof. intros H1 H2. unfold fork1. cbn -[panic]. left. exists 1, R1, u1, R2. done. Qed.

(** The programs of a command, in order. *)
Fixpoint progs (sc : scmd) : list (list (list Z)) :=
  match sc with
  | SExec [] => []
  | SExec ws => [ws]
  | SRedir c _ _ _ | SBack c => progs c
  | SPipe l r | SList l r => progs l ++ progs r
  end.

(** When nothing fails, every program of the command is started. *)
Lemma runcmd_starts b c : forall σ u, redir_ok c -> three σ ->
  exists R u', spawns (runcmd b c) σ u R u' /\ omap prog_of R = progs (reads b c).
Proof.
  induction c as [argv|c IH q eq mode fd|l IHl r IHr|l IHl r IHr|c IH]; intros σ u Hr Ht; cbn [runcmd reads redir_ok progs] in *.
  - destruct (map (fun w => word_of b w.1) argv) as [|a0 ws]; [by exists [], u|].
    exists [Started (a0 :: ws) σ], u. split; [|done]. cbn -[fprintf]. by left.
  - destruct Hr as [Hfd Hr]. assert (Hl : lowest (delete fd σ) = Some fd) by (apply (lowest_delete σ); done).
    destruct (IH (<[fd := Named (word_of b q) mode]> σ) u Hr) as (R & u' & H & E); [apply three_insert; [done|lia]|].
    exists R, u'. split; [|done]. cbn -[fprintf lowest]. left. exists fd. split; [done|].
    rewrite (proj2 (Z.ltb_ge fd 0)) by lia. by rewrite insert_delete_eq.
  - destruct Hr as [Hl Hr]. set (p := fresh u).
    destruct (IHl (<[1 := PipeW p]> σ) ({[p]} ∪ u) Hl) as (R1 & u1 & H1 & E1); [apply three_insert; [done|lia]|].
    destruct (IHr (<[0 := PipeR p]> σ) u1 Hr) as (R2 & u2 & H2 & E2); [apply three_insert; [done|lia]|].
    exists (R1 ++ R2 ++ [Waits σ; Waits σ]), u2. split; [|by rewrite !omap_app, E1, E2, app_nil_r]. cbn -[fprintf lowest panic fork1]. left.
    exists p, 3, 4. split; [apply is_fresh|]. split; [by apply lowest_three|]. split; [by apply lowest_four|].
    cbn [Z.ltb Z.compare]. apply (fork1_spawns _ _ _ R1 u1); [by apply (spawns_side_back (runcmd b l) σ p 1 4); [|right|]|].
    cbn [Z.eqb]. apply (fork1_spawns _ _ _ R2 u2); [by apply (spawns_side_back (runcmd b r) σ p 0 3); [|left|]|].
    cbn. rewrite (ends_closed σ p Ht). exists (0, 0), [Waits σ]. split; [|done]. by exists (0, 0), [].
  - destruct Hr as [Hl Hr]. destruct (IHl σ u Hl Ht) as (R1 & u1 & H1 & E1), (IHr σ u1 Hr Ht) as (R2 & u2 & H2 & E2).
    exists (R1 ++ Waits σ :: R2), u2. split; [|by rewrite omap_app, E1; cbn; rewrite E2].
    apply (fork1_spawns _ _ _ R1 u1); [done|]. cbn. by exists (0, 0), R2.
  - destruct (IH σ u Hr Ht) as (R & u' & H & E). exists R, u'. split; [|done].
    rewrite <- (app_nil_r R). by apply (fork1_spawns _ _ _ R u').
Qed.

Fixpoint sredir_ok (sc : scmd) : Prop :=
  match sc with
  | SExec _ => True
  | SRedir c _ _ fd => 0 <= fd <= 1 /\ sredir_ok c
  | SPipe l r | SList l r => sredir_ok l /\ sredir_ok r
  | SBack c => sredir_ok c
  end.

Lemma reads_redir b c : sredir_ok (reads b c) -> redir_ok c.
Proof. induction c; cbn; naive_solver. Qed.

Lemma Redirs_fd ts rs r : Redirs ts rs r -> Forall (fun x => 0 <= x.2 <= 1) rs.
Proof. induction 1; constructor; cbn; done. Qed.

Lemma Args_fd ts ws rs r : Args ts ws rs r -> Forall (fun x => 0 <= x.2 <= 1) rs.
Proof. induction 1 as [|w ts rs ts1 ws rs' r HR HA IH]; [constructor|]. apply Forall_app. split; [by eapply Redirs_fd|done]. Qed.

Lemma redirect_ok rs : forall c, sredir_ok c -> Forall (fun x => 0 <= x.2 <= 1) rs -> sredir_ok (redirect c rs).
Proof.
  unfold redirect. induction rs as [|[[f m] fd] rs IH]; intros c Hc Hr; [done|]. inversion Hr. subst. cbn. by apply IH.
Qed.

Lemma back_ok n c : sredir_ok c -> sredir_ok (back n c).
Proof. intros H. by induction n. Qed.

Lemma grammar_redir :
  (forall ts sc r, Line ts sc r -> sredir_ok sc) /\ (forall ts sc r, Pipeline ts sc r -> sredir_ok sc) /\
  (forall ts sc r, ShThms.Exec ts sc r -> sredir_ok sc).
Proof.
  apply grammar_ind; intros; cbn; try split; try (by apply back_ok); try done.
  - apply redirect_ok; [done|by eapply Redirs_fd].
  - apply redirect_ok; [done|]. apply Forall_app. split; [by eapply Redirs_fd|by eapply Args_fd].
Qed.

Lemma plumbed_three sc σ u R u' : Plumbed sc σ u R u' -> sredir_ok sc -> three σ -> Forall (fun h => three (open_fds h)) R.
Proof.
  induction 1; cbn; intros Hok Ht; try (by constructor).
  - apply IHPlumbed; [apply Hok|apply three_insert; [done|destruct Hok; lia]].
  - destruct Hok. apply Forall_app. split; [auto|]. constructor; auto.
  - destruct Hok. apply Forall_app. split; [apply IHPlumbed1; [done|]; apply three_insert; done || lia|].
    apply Forall_app. split; [apply IHPlumbed2; [done|]; apply three_insert; done || lia|].
    by rewrite !Forall_cons, Forall_nil.
  - destruct Hok. apply IHPlumbed; [done|]. apply three_insert; [done|lia].
  - auto.
Qed.
End Sem.

(** C35: the shell and a command line.  Whatever calls fail, the programs that a process
    running [runcmd(parsecmd(buf))] starts, itself or through its children, are programs of the line's command with
    the descriptors the command gives them: redirections in place, both sides of a bar on a pipe of their
    own, and no descriptor but the three.  A shell that waits for them keeps none but the three
    descriptors it had, neither end of the pipe it made, so that a pipe's reader sees its end.
    When no call fails every program of the command is started.  For a line that is no
    command nothing is. *)
Theorem shell_plumbing line tl σ u : Forall (fun c => c <> 0) line -> three σ ->
  (forall fail R u', spawns fail (run_line (line ++ 0 :: tl)) σ u R u' ->
     Forall (fun h => three (open_fds h)) R /\
     ((exists sc, Line (lex line) sc [] /\ Plumbed fail sc σ u R u') \/ ((forall sc, ~ Line (lex line) sc []) /\ R = []))) /\
  (forall sc, Line (lex line) sc [] ->
     exists R u', spawns false (run_line (line ++ 0 :: tl)) σ u R u' /\ omap prog_of R = progs sc).
Proof.
  intros Hn Ht. pose proof (parsecmd_decides line tl Hn) as HP. unfold run_line.
  destruct (parsecmd (line ++ 0 :: tl)) as [[c b] s|msg|s|].
  - destruct HP as [HL Hu]. pose proof (proj1 grammar_redir _ _ _ HL) as Hok. split.
    + intros fail R u' H. apply runcmd_plumbed in H; [|by eapply reads_redir|done].
      split; [by eapply plumbed_three|left; eauto].
    + intros sc HL'. rewrite (Hu sc HL'). apply runcmd_starts; [by eapply reads_redir|done].
  - split; [|intros sc HL; by destruct (HP sc)]. intros fail R u' H. apply quiet_end in H as [-> ->].
    split; [constructor|by right].
  - split; [|intros sc HL; by destruct (HP sc)]. intros fail R u' H. 
    apply quiet_two in H as [-> ->]. split; [constructor|by right].
  - done.
Qed.

Definition std : fds := {[0 := Given 0; 1 := Given 1; 2 := Given 2]}.
Lemma std_three : three std.
Proof.
  repeat split; [done..|]. intros fd Hfd. unfold std. by rewrite !lookup_insert_ne, lookup_singleton_ne by lia.
Qed.

(** [a|b] *)
Lemma shell_plumbing_witness :
  exists R u', spawns false (run_line ([97; 124; 98] ++ 0 :: [])) std ∅ R u' /\ omap prog_of R = [[[97]]; [[98]]].
Proof.
  destruct (shell_plumbing [97; 124; 98] [] std ∅ ltac:(by repeat constructor) std_three) as [_ H].
  assert (HP := parsecmd_decides [97; 124; 98] []).
  assert (E : exists c b s, parsecmd ([97; 124; 98] ++ 0 :: []) = Got (c, b) s /\ reads b c = SPipe (SExec [[97]]) (SExec [[98]]))
    by (eexists _, _, _; split; vm_compute; reflexivity).
  destruct E as (c & b & s & E & Ec). rewrite E in HP. apply (H (SPipe (SExec [[97]]) (SExec [[98]]))).
  rewrite <- Ec. apply HP. by repeat constructor.
Defined.
