(* ===== verification/Umalloc.v ===== *)
(** [user/umalloc.c]: the Kernighan and Ritchie allocator of user programs.  Its operations
    keep an invariant of the heap, and live blocks are disjoint and not touched.

    The headers are kept in a map from the address of a unit to the header there.  Pointers are
    byte addresses and a unit is 16 bytes.  [sbrk] is the system call, over a state [K]
    of the rest of the machine.  [None] stands for a scan that does not end. *)
From Stdlib Require Import Sorted.
From S2P Require Import Prelude.

Record header := Header { s_ptr : Z; s_size : Z }.
Abbreviation UNIT := 16.

Record heap := Heap { freep : Z; hmem : gmap Z header }.

Definition hd_at (h : heap) (p : Z) : header := default (Header 0 0) (hmem h !! p).
Definition hptr (h : heap) (p : Z) : Z := s_ptr (hd_at h p).
Definition hsize (h : heap) (p : Z) : Z := s_size (hd_at h p).
Definition put (h : heap) (p : Z) (x : header) : heap := Heap (freep h) (<[p := x]> (hmem h)).
Definition set_ptr (p v : Z) (h : heap) : heap := put h p (Header v (hsize h p)).
Definition set_size (p v : Z) (h : heap) : heap := put h p (Header (hptr h p) v).
Definition set_freep (p : Z) (h : heap) : heap := Heap p (hmem h).

(** The [for] of [free]. *)
Fixpoint free_scan (h : heap) (bp p : Z) (fuel : nat) : option Z :=
  match fuel with
  | O => None
  | S fuel' =>
      if (p <? bp) && (bp <? hptr h p) then Some p
      else if (hptr h p <=? p) && ((p <? bp) || (bp <? hptr h p)) then Some p
      else free_scan h bp (hptr h p) fuel'
  end.

(** A scan passes every header at most once. *)
Definition free (ap : Z) (h : heap) : option heap :=
  let bp := ap - UNIT in
  match free_scan h bp (freep h) (size (hmem h)) with
  | None => None
  | Some p =>
      let h :=
        if bp + UNIT * hsize h bp =? hptr h p then
          let h := set_size bp (u32 (hsize h bp + hsize h (hptr h p))) h in
          set_ptr bp (hptr h (hptr h p)) h
        else set_ptr bp (hptr h p) h in
      let h :=
        if p + UNIT * hsize h p =? bp then
          let h := set_size p (u32 (hsize h p + hsize h bp)) h in
          set_ptr p (hptr h bp) h
        else set_ptr p bp h in
      Some (set_freep p h)
  end.

Section Malloc.
Context {K : Type} (sbrk : Z -> K -> Z * K) (base : Z).

(** [sbrk] takes an [int]. *)
Definition morecore (nu : Z) (h : heap) (k : K) : option (Z * heap * K) :=
  let nu := if nu <? 4096 then 4096 else nu in
  let '(p, k) := sbrk (i32 (nu * UNIT)) k in
  if p =? -1 then Some (0, h, k)
  else
    match free (p + UNIT) (set_size p nu h) with
    | Some h => Some (freep h, h, k)
    | None => None
    end.

(** The [for] of [malloc]. *)
Fixpoint malloc_scan (nunits prevp p : Z) (h : heap) (k : K) (fuel : nat) : option (Z * heap * K) :=
  match fuel with
  | O => None
  | S fuel' =>
      if nunits <=? hsize h p then
        let '(p, h) :=
          if hsize h p =? nunits then (p, set_ptr prevp (hptr h p) h)
          else
            let h := set_size p (u32 (hsize h p - nunits)) h in
            let p := p + UNIT * hsize h p in
            (p, set_size p nunits h) in
        Some (p + UNIT, set_freep prevp h, k)
      else if p =? freep h then
        match morecore nunits h k with
        | None => None
        | Some (p, h, k) => if p =? 0 then Some (0, h, k) else malloc_scan nunits p (hptr h p) h k fuel'
        end
      else malloc_scan nunits p (hptr h p) h k fuel'
  end.

(** At most one round over the headers, [morecore], and another round. *)
Definition malloc (nbytes : Z) (h : heap) (k : K) : option (Z * heap * K) :=
  let nunits := u32 ((nbytes + UNIT - 1) / UNIT + 1) in
  let h := if freep h =? 0 then Heap base (<[base := Header base 0]> (hmem h)) else h in
  malloc_scan nunits (freep h) (hptr h (freep h)) h k (2 * size (hmem h) + 4).
End Malloc.

(** ** The invariant *)

(** The headers [l] are linked from [a] to [b]. *)
Fixpoint chain (m : gmap Z header) (l : list (Z * Z)) (a b : Z) : Prop :=
  match l with
  | [] => a = b
  | (x, s) :: l' => a = x /\ exists n, m !! x = Some (Header n s) /\ chain m l' n b
  end.

Definition stop (b : Z * Z) : Z := b.1 + UNIT * b.2.
(** In order, and not adjacent: adjacent free blocks are merged. *)
Definition before (b c : Z * Z) : Prop := stop b < c.1.
Definition sep (b c : Z * Z) : Prop := stop b <= c.1 \/ stop c <= b.1.
Definition total (l : list (Z * Z)) : Z := foldr (fun b n => b.2 + n) 0 l.

(** Addresses a header at which would overlap the block. *)
Definition touches (b : Z * Z) (x : Z) : Prop := b.1 - UNIT < x < stop b.

Section Heap.
Context (base : Z).

(** [F] are the free blocks, [A] the allocated ones with their sizes in units, headers
    included; [top] is the end of the process's memory. *)
Record blocks_ok (top : Z) (F : list (Z * Z)) (A : gmap Z Z) : Prop := {
  bo_sorted : StronglySorted before ((base, 0) :: F);
  bo_free : forall b, b ∈ F -> 0 < b.2 /\ base + UNIT <= b.1 /\ stop b <= top;
  bo_alloc : forall a s, A !! a = Some s -> 0 < s /\ base + UNIT <= a /\ stop (a, s) <= top;
  bo_fa : forall b a s, b ∈ F -> A !! a = Some s -> sep b (a, s);
  bo_aa : forall a s a' s', A !! a = Some s -> A !! a' = Some s' -> a <> a' -> sep (a, s) (a', s')
}.

Record ring_ok (h : heap) (F : list (Z * Z)) (A : gmap Z Z) : Prop := {
  ro_chain : chain (hmem h) ((base, 0) :: F) base base;
  ro_freep : exists s, (freep h, s) ∈ (base, 0) :: F;
  ro_alloc : forall a s, A !! a = Some s -> exists n, hmem h !! a = Some (Header n s)
}.

Definition heap_ok (h : heap) (top : Z) (F : list (Z * Z)) (A : gmap Z Z) : Prop :=
  blocks_ok top F A /\ (ring_ok h F A \/ (freep h = 0 /\ F = [] /\ A = ∅)).

(** ** Chains *)

Lemma chain_app m l1 : forall l2 a b, chain m (l1 ++ l2) a b <-> exists c, chain m l1 a c /\ chain m l2 c b.
Proof.
  induction l1 as [|[x s] l1 IH]; intros l2 a b; cbn [chain app].
  - split; [eauto|]. by intros (c & -> & H).
  - split.
    + intros (-> & n & Hn & H). apply IH in H as (c & H1 & H2). eauto 10.
    + intros (c & (-> & n & Hn & H1) & H2). split; [done|]. exists n. split; [done|]. apply IH. eauto.
Qed.

Lemma chain_put m l x v : forall a b, (forall s, (x, s) ∉ l) -> chain m l a b -> chain (<[x := v]> m) l a b.
Proof.
  induction l as [|[y s] l IH]; intros a b Hx; [done|]. cbn [chain]. intros (-> & n & Hn & H). split; [done|].
  exists n. split; [|apply IH; [intros t Ht; by apply (Hx t), list_elem_of_further|done]].
  rewrite lookup_insert_ne; [done|]. intros ->. by apply (Hx s), list_elem_of_here.
Qed.

Lemma chain_same m m' l : forall a b, (forall x s, (x, s) ∈ l -> m' !! x = m !! x) -> chain m l a b -> chain m' l a b.
Proof.
  induction l as [|[y s] l IH]; intros a b Hx; [done|]. cbn [chain]. intros (-> & n & Hn & H). split; [done|].
  exists n. split; [rewrite (Hx y s); [done|apply list_elem_of_here]|].
  apply IH; [intros t u Ht; by apply (Hx t u), list_elem_of_further|done].
Qed.

Lemma chain_dom m l a b : chain m l a b -> forall x s, (x, s) ∈ l -> exists n, m !! x = Some (Header n s).
Proof.
  revert a. induction l as [|[y t] l IH]; intros a H x s Hin; [by apply elem_of_nil in Hin|].
  cbn [chain] in H. destruct H as (-> & n & Hn & H). apply elem_of_cons in Hin as [[= -> ->]|Hin]; eauto.
Qed.

Lemma sorted_app l1 l2 : StronglySorted before (l1 ++ l2) ->
  StronglySorted before l1 /\ StronglySorted before l2 /\ forall b c, b ∈ l1 -> c ∈ l2 -> before b c.
Proof.
  induction l1 as [|x l1 IH]; intros H; [split_and!; [constructor|done|by intros b c Hb%elem_of_nil]|].
  cbn in H. inversion H as [|? ? Hs Hf]. subst. destruct (IH Hs) as (H1 & H2 & H3).
  apply Forall_app in Hf as [Hf1 Hf2]. split_and!; [by constructor|done|].
  intros b c [->|Hb]%elem_of_cons Hc; [by eapply Forall_forall in Hf2|by apply H3].
Qed.

Lemma sorted_join l1 l2 : StronglySorted before l1 -> StronglySorted before l2 ->
  (forall b c, b ∈ l1 -> c ∈ l2 -> before b c) -> StronglySorted before (l1 ++ l2).
Proof.
  induction 1 as [|x l1 H1 IH Hf]; intros H2 H; [done|]. cbn. constructor.
  - apply IH; [done|]. intros b c Hb. apply H. by apply list_elem_of_further.
  - apply Forall_app. split; [done|]. apply Forall_forall. intros c Hc. apply H; [apply list_elem_of_here|done].
Qed.

Lemma sorted_nodup l : StronglySorted before l -> (forall b, b ∈ l -> 0 <= b.2) -> NoDup (map fst l).
Proof.
  induction 1 as [|x l H IH Hf]; intros Hs; cbn; constructor.
  - intros (y & E & Hy)%list_elem_of_fmap. eapply Forall_forall in Hf; [|exact Hy].
    specialize (Hs x (list_elem_of_here _ _)). unfold before, stop in Hf. lia.
  - apply IH. intros b Hb. apply Hs. by apply list_elem_of_further.
Qed.

Section Blocks.
Context (top : Z) (F : list (Z * Z)) (A : gmap Z Z) (HB : blocks_ok top F A).
Let R := (base, 0) :: F.

Lemma ring_size b : b ∈ R -> 0 <= b.2 /\ base <= b.1.
Proof.
  intros [->|Hb]%elem_of_cons; [cbn; lia|]. destruct (bo_free _ _ _ HB b Hb). lia.
Qed.

Lemma ring_before l1 l2 b c : R = l1 ++ l2 -> b ∈ l1 -> c ∈ l2 -> stop b < c.1 /\ b.1 < c.1.
Proof.
  intros E Hb Hc. pose proof (bo_sorted _ _ _ HB) as H. fold R in H. rewrite E in H.
  apply sorted_app in H as (_ & _ & H). specialize (H b c Hb Hc). split; [exact H|].
  unfold before, stop in H. destruct (ring_size b); [rewrite E; set_solver|]. lia.
Qed.

Lemma ring_nodup : NoDup (map fst R).
Proof. apply sorted_nodup; [apply HB|]. intros b Hb. by apply ring_size. Qed.

Lemma ring_length m : chain m R base base -> (length R <= size m)%nat.
Proof.
  intros Hc. rewrite <- (length_map fst R), <- (size_list_to_set (C := gset Z)) by apply ring_nodup.
  rewrite <- size_dom. apply subseteq_size. intros x. rewrite elem_of_list_to_set.
  intros ([y s] & -> & Hy)%list_elem_of_fmap. destruct (chain_dom _ _ _ _ Hc _ _ Hy) as [n Hn].
  by apply elem_of_dom_2 in Hn.
Qed.

(** The free block below an address. *)
Lemma ring_split bp : base < bp -> (forall b, b ∈ F -> b.1 <> bp) ->
  exists l1 p l2, R = l1 ++ p :: l2 /\ (forall b, b ∈ l1 ++ [p] -> b.1 < bp) /\ (forall b, b ∈ l2 -> bp < b.1).
Proof.
  intros Hbp Hne. assert (Hgen : forall l p, (forall b, b ∈ l -> b.1 <> bp) -> StronglySorted before (p :: l) ->
    (forall b, b ∈ p :: l -> 0 <= b.2) -> p.1 < bp ->
    exists l1 q l2, p :: l = l1 ++ q :: l2 /\ (forall b, b ∈ l1 ++ [q] -> b.1 < bp) /\ (forall b, b ∈ l2 -> bp < b.1)).
  { induction l as [|x l IH]; intros p Hn Hs H0 Hp.
    - exists [], p, []. split; [done|]. split; [|by intros b Hb%elem_of_nil].
      intros b [->|Hb%elem_of_nil]%elem_of_cons; done.
    - inversion Hs as [|? ? Hs' Hf]. subst. destruct (decide (x.1 < bp)) as [Hx|Hx].
      + destruct (IH x) as (l1 & q & l2 & E & H1 & H2); [|done| |done|].
        * intros b Hb. apply Hn. by apply list_elem_of_further.
        * intros b Hb. apply H0. by apply list_elem_of_further.
        * exists (p :: l1), q, l2. rewrite E. split; [done|]. split; [|done].
          intros b [->|Hb]%elem_of_cons; [done|by apply H1].
      + exists [], p, (x :: l). split; [done|]. split.
        * intros b [->|Hb%elem_of_nil]%elem_of_cons; done.
        * pose proof (Hn x (list_elem_of_here _ _)). intros b [->|Hb]%elem_of_cons; [lia|].
          inversion Hs' as [|? ? _ Hf']. subst. eapply Forall_forall in Hf'; [|done].
          unfold before, stop in Hf'. specialize (H0 x ltac:(set_solver)). lia. }
  apply Hgen; [done|apply HB|apply ring_size|done].
Qed.
End Blocks.

(** ** [free] *)

Lemma hd_at_Some h p n s : hmem h !! p = Some (Header n s) -> hptr h p = n /\ hsize h p = s.
Proof. unfold hptr, hsize, hd_at. by intros ->. Qed.

(** Below [bp] the scan climbs to the block after which [bp] belongs. *)
Lemma scan_up h bp p s nx l : forall a fuel,
  chain (hmem h) (l ++ [(p, s)]) a nx -> StronglySorted before (l ++ [(p, s)]) ->
  (forall b, b ∈ l ++ [(p, s)] -> 0 <= b.2 /\ b.1 < bp) -> (bp < nx \/ nx <= p) -> (length l < fuel)%nat ->
  free_scan h bp a fuel = Some p.
Proof.
  induction l as [|[x t] l IH]; intros a [|fuel] Hc Hs Hb Hn Hf; try (cbn in Hf; lia); cbn [app chain] in Hc;
    destruct Hc as (-> & n & Hx & Hc); apply hd_at_Some in Hx as [Hp _]; cbn [free_scan]; rewrite Hp.
  - cbn in Hc. rewrite Hc. destruct (Hb (p, s) ltac:(set_solver)) as [_ Hlt]. cbn in Hlt.
    rewrite (proj2 (Z.ltb_lt _ _) Hlt). cbn [andb orb]. destruct (Z.ltb_spec bp nx); [done|].
    rewrite (proj2 (Z.leb_le nx p)) by lia. done.
  - assert (Hnext : x < n /\ n < bp).
    { assert (exists u, (n, u) ∈ l ++ [(p, s)]) as [u Hu].
      { destruct l as [|[y u] l]; cbn in Hc; destruct Hc as [Hc _]; rewrite Hc; eexists; apply list_elem_of_here. }
      destruct (Hb (n, u) ltac:(set_solver)) as [_ Hlt]. split; [|done].
      inversion Hs as [|? ? _ Hfa]. subst. eapply Forall_forall in Hfa; [|exact Hu].
      destruct (Hb (x, t) ltac:(set_solver)) as [Ht _]. unfold before, stop in Hfa. cbn in *. lia. }
    rewrite (proj2 (Z.ltb_ge bp n)), andb_false_r by lia. rewrite (proj2 (Z.leb_gt n x)) by lia. cbn [andb].
    apply IH; [done|by inversion Hs|intros b Hin; apply Hb; set_solver|done|cbn in Hf; lia].
Qed.

(** Above [bp] it passes over the blocks and wraps around. *)
Lemma scan_over h bp l : forall a fuel,
  chain (hmem h) l a base -> StronglySorted before l -> (forall b, b ∈ l -> 0 <= b.2 /\ bp < b.1) -> base < bp ->
  free_scan h bp a (length l + fuel) = free_scan h bp (match l with [] => a | _ => base end) fuel.
Proof.
  induction l as [|[x t] l IH]; intros a fuel Hc Hs Hb Hbase; [done|]. cbn [chain] in Hc.
  destruct Hc as (-> & n & Hx & Hc). apply hd_at_Some in Hx as [Hp _]. cbn [length Nat.add free_scan]. rewrite Hp.
  destruct (Hb (x, t) ltac:(set_solver)) as [Ht Hlt]. cbn in Hlt, Ht.
  rewrite (proj2 (Z.ltb_ge x bp)) by lia. cbn [andb orb].
  assert (Hcond : (n <=? x) && (bp <? n) = false).
  { destruct l as [|[y u] l]; cbn in Hc.
    - rewrite Hc, (proj2 (Z.ltb_ge bp base)) by lia. apply andb_false_r.
    - destruct Hc as [-> _]. inversion Hs as [|? ? _ Hfa]. subst. apply Forall_inv in Hfa.
      unfold before, stop in Hfa. cbn in Hfa. rewrite (proj2 (Z.leb_gt _ x)) by lia. done. }
  rewrite Hcond. rewrite (IH n fuel); [|done|by inversion Hs|intros b Hin; apply Hb; set_solver|done].
  destruct l as [|y l]; [by cbn in Hc; subst|done].
Qed.

Lemma free_scan_ok h top F A bp : blocks_ok top F A -> ring_ok h F A ->
  base < bp -> (forall b, b ∈ F -> b.1 <> bp) ->
  exists l1 p s l2, (base, 0) :: F = l1 ++ (p, s) :: l2 /\
    (forall b, b ∈ l1 ++ [(p, s)] -> b.1 < bp) /\ (forall b, b ∈ l2 -> bp < b.1) /\
    free_scan h bp (freep h) (size (hmem h)) = Some p.
Proof.
  intros HB [Hc [fs Hfp] _] Hbp Hne.
  destruct (ring_split _ _ _ HB bp Hbp Hne) as (l1 & [p s] & l2 & E & H1 & H2).
  exists l1, p, s, l2. split_and!; [done|done|done|].
  pose proof (ring_length _ _ _ HB _ Hc) as Hlen. pose proof (bo_sorted _ _ _ HB) as Hs.
  pose proof (fun b Hb => proj1 (ring_size _ _ _ HB b Hb)) as H0.
  rewrite E in Hc, Hfp, Hlen, Hs, H0. assert (E' : l1 ++ (p, s) :: l2 = (l1 ++ [(p, s)]) ++ l2) by by rewrite <- app_assoc.
  rewrite E' in *. apply chain_app in Hc as (nx & Hc1 & Hc2). apply sorted_app in Hs as (Hs1 & Hs2 & _).
  assert (Hnx : bp < nx \/ nx <= p).
  { destruct l2 as [|[y u] l2]; cbn in Hc2.
    - subst nx. right. destruct (ring_size _ _ _ HB (p, s)) as [_ Hle]; [rewrite E; set_solver|done].
    - destruct Hc2 as [-> _]. left. apply (H2 (y, u)). set_solver. }
  assert (Hup : forall fuel, (length l1 < fuel)%nat -> free_scan h bp base fuel = Some p).
  { intros fuel Hf. eapply scan_up; [exact Hc1|done| |done|done]. intros b Hb. split; [|by apply H1].
    apply H0. set_solver. }
  rewrite length_app in Hlen. cbn in Hlen.
  apply elem_of_app in Hfp as [Hin|Hin]; apply list_elem_of_split in Hin as (m1 & m2 & Em).
  - assert (exists m2', (freep h, fs) :: m2 = m2' ++ [(p, s)] /\ (length m2' <= length l1)%nat) as (m2' & Em2 & Hl).
    { destruct m2 as [|y m2 _] using rev_ind.
      - exists []. apply app_inj_tail in Em as [-> ->]. split; [done|]. cbn. lia.
      - rewrite app_comm_cons, app_assoc in Em. apply app_inj_tail in Em as [-> <-].
        exists ((freep h, fs) :: m2). split; [done|]. rewrite length_app. lia. }
    rewrite Em, Em2 in *. apply chain_app in Hc1 as (c & _ & Hc1).
    assert (c = freep h) as -> by (rewrite <- Em2 in Hc1; apply Hc1). apply sorted_app in Hs1 as (_ & Hs1 & _).
    eapply scan_up; [exact Hc1|done| |done|].
    + intros b Hb. split; [apply H0|apply H1]; set_solver.
    + rewrite length_app in Hlen. cbn in Hlen. rewrite length_app in *. cbn in *. lia.
  - rewrite Em in *. apply chain_app in Hc2 as (c & _ & Hc2).
    assert (c = freep h) as -> by apply Hc2. apply sorted_app in Hs2 as (_ & Hs2 & _).
    rewrite !length_app in Hlen. cbn in Hlen.
    replace (size (hmem h)) with (length ((freep h, fs) :: m2) + (size (hmem h) - length ((freep h, fs) :: m2)))%nat
      by (cbn [length]; lia).
    rewrite (scan_over h bp); [|done|done| |done].
    + apply Hup. cbn [length]. lia.
    + intros b Hb. split; [apply H0|apply H2]; set_solver.
Qed.

Context (top : Z) (Hbase : 0 < base) (Htop : top <= 2 ^ 36).


Lemma put_put h p n s : hmem (set_ptr p n (set_size p s h)) = <[p := Header n s]> (hmem h).
Proof.
  unfold set_ptr, set_size, put. cbn. rewrite insert_insert_eq. f_equal.
  unfold hsize, hd_at. cbn. by rewrite lookup_insert_eq.
Qed.

Lemma hptr_set_size h p v q : hptr (set_size p v h) q = hptr h q.
Proof.
  unfold hptr, hd_at, set_size, put. cbn. destruct (decide (p = q)) as [->|Hn].
  - by rewrite lookup_insert_eq.
  - by rewrite lookup_insert_ne.
Qed.

(** The block [bp] is joined with the free block above it when they touch. *)
Definition join_up (bp p : Z) (h : heap) : heap :=
  if bp + UNIT * hsize h bp =? hptr h p then
    let h := set_size bp (u32 (hsize h bp + hsize h (hptr h p))) h in
    set_ptr bp (hptr h (hptr h p)) h
  else set_ptr bp (hptr h p) h.

Lemma join_up_ok h bp p n s nx l :
  hmem h !! bp = Some (Header n s) -> hptr h p = nx -> chain (hmem h) l nx base ->
  StronglySorted before l -> 0 < s -> base < bp -> stop (bp, s) <= top ->
  (forall b, b ∈ l -> 0 < b.2 /\ stop (bp, s) <= b.1 /\ stop b <= top) ->
  exists nx' s' l', hmem (join_up bp p h) = <[bp := Header nx' s']> (hmem h) /\ freep (join_up bp p h) = freep h /\
    chain (hmem h) l' nx' base /\ StronglySorted before ((bp, s') :: l') /\ l' ⊆ l /\ s <= s' /\
    stop (bp, s') <= top /\ s' + total l' = s + total l /\
    (forall a t, 0 < t -> sep (bp, s) (a, t) -> (forall b, b ∈ l -> sep b (a, t)) -> sep (bp, s') (a, t)).
Proof.
  intros Hbp Hp Hc Hs Hs0 Hb Ht Hl. apply hd_at_Some in Hbp as [_ Hsz]. unfold join_up. rewrite Hp, Hsz.
  unfold stop in *. cbn [fst snd] in *.
  destruct (Z.eqb_spec (bp + UNIT * s) nx) as [E|Hne].
  - destruct l as [|[y t] l]; cbn in Hc; [lia|]. destruct Hc as (-> & n' & Hy & Hc).
    pose proof (hd_at_Some _ _ _ _ Hy) as [Hyp Hys].
    destruct (Hl (y, t) (list_elem_of_here _ _)) as (Ht0 & _ & Htt). cbn in Ht0, Htt.
    exists n', (s + t), l. rewrite put_put. split_and!.
    + rewrite !hptr_set_size, Hp, Hyp, Hys, u32_small by lia. done.
    + done.
    + done.
    + apply StronglySorted_inv in Hs as [Hs1 Hf]. constructor; [done|]. eapply Forall_impl; [exact Hf|].
      intros c. unfold before, stop. cbn [fst snd]. lia.
    + set_solver.
    + lia.
    + lia.
    + change (total ((y, t) :: l)) with (t + total l). lia.
    + intros a u Hu H1 H2. specialize (H2 (y, t) (list_elem_of_here _ _)). unfold sep, stop in *. cbn [fst snd] in *. lia.
  - exists nx, s, l. split_and!; try done.
    + unfold set_ptr, put. cbn. by rewrite Hsz.
    + constructor; [done|]. apply Forall_forall. intros c Hin. destruct (Hl c Hin) as (_ & Hle & _).
      unfold before, stop. cbn [fst snd]. destruct l as [|[y t] l]; [by apply elem_of_nil in Hin|]. cbn in Hc. destruct Hc as [-> _].
      apply elem_of_cons in Hin as [->|Hin]; [cbn [fst snd] in *; lia|]. apply StronglySorted_inv in Hs as [_ Hf].
      eapply Forall_forall in Hf; [|exact Hin]. unfold before, stop in Hf. cbn [fst snd] in Hf.
      destruct (Hl (y, t) (list_elem_of_here _ _)) as (Ht0 & Hle' & _). cbn [fst snd] in *. lia.
Qed.

(** Likewise with the free block [p] below. *)
Definition join_down (bp p : Z) (h : heap) : heap :=
  if p + UNIT * hsize h p =? bp then
    let h := set_size p (u32 (hsize h p + hsize h bp)) h in
    set_ptr p (hptr h bp) h
  else set_ptr p bp h.

Lemma join_down_ok h bp p n s nx s' :
  hmem h !! p = Some (Header n s) -> hmem h !! bp = Some (Header nx s') -> p < bp -> 0 <= s -> 0 < s' ->
  stop (p, s) <= bp -> stop (bp, s') <= top -> 0 < p ->
  exists l, hmem (join_down bp p h) = match l with
              | [] => <[p := Header nx (s + s')]> (hmem h)
              | _ => <[p := Header bp s]> (hmem h) end /\ freep (join_down bp p h) = freep h /\
    ((l = [] /\ stop (p, s) = bp) \/ (l = [(bp, s')] /\ stop (p, s) < bp)).
Proof.
  intros Hp Hbp Hlt Hs Hs' H1 H2 Hp0. pose proof (hd_at_Some _ _ _ _ Hp) as [_ Hps].
  pose proof (hd_at_Some _ _ _ _ Hbp) as [Hbn Hbs]. unfold join_down. rewrite Hps, Hbs. unfold stop in *. cbn [fst snd] in *.
  destruct (Z.eqb_spec (p + UNIT * s) bp) as [E|Hne].
  - exists []. rewrite put_put, u32_small by lia. split_and!; [|done|by left].
    by rewrite hptr_set_size, Hbn.
  - exists [(bp, s')]. split_and!; [|done|right; split; [done|lia]]. unfold set_ptr, put. cbn. by rewrite Hps.
Qed.

Lemma free_unfold ap h p : free_scan h (ap - UNIT) (freep h) (size (hmem h)) = Some p ->
  free ap h = Some (set_freep p (join_down (ap - UNIT) p (join_up (ap - UNIT) p h))).
Proof. unfold free. by intros ->. Qed.

(** What [free] and [malloc] leave alone: every header that would overlap a block of [A]. *)
Definition untouched (A : gmap Z Z) (h h' : heap) : Prop :=
  forall a s x, A !! a = Some s -> touches (a, s) x -> hmem h' !! x = hmem h !! x.

Lemma heap_total_app l1 l2 : total (l1 ++ l2) = total l1 + total l2.
Proof. unfold total. induction l1 as [|b l1 IH]; cbn [app foldr]; lia. Qed.

Lemma total_cons b l : total (b :: l) = b.2 + total l.
Proof. done. Qed.

(** A freed block [(a, s)] in the list: it goes after [p], has become [(a, s')] with the
    block above it, and [l] is the new list from [p] on. *)
Record placed (F : list (Z * Z)) (a s p sp : Z) (l1 l2 : list (Z * Z)) (s' : Z) (l2' l : list (Z * Z)) : Prop := {
  pl_ring : (base, 0) :: F = l1 ++ (p, sp) :: l2;
  pl_below : stop (p, sp) <= a;
  pl_sorted : StronglySorted before ((a, s') :: l2');
  pl_sub : l2' ⊆ l2;
  pl_size : s <= s';
  pl_top : stop (a, s') <= top;
  pl_total : s' + total l2' = s + total l2;
  pl_sep : forall b t, 0 < t -> sep (a, s) (b, t) -> (forall c, c ∈ l2 -> sep c (b, t)) -> sep (a, s') (b, t);
  pl_join : (l = (p, sp + s') :: l2' /\ stop (p, sp) = a) \/ (l = (p, sp) :: (a, s') :: l2' /\ stop (p, sp) < a)
}.

Lemma free_ring h F A a s : blocks_ok top F A -> ring_ok h F A -> A !! a = Some s ->
  exists h' p sp l1 l2 s' l2' l, free (a + UNIT) h = Some h' /\ placed F a s p sp l1 l2 s' l2' l /\
    chain (hmem h') (l1 ++ l) base base /\ freep h' = p /\
    (forall x, x <> p -> x <> a -> hmem h' !! x = hmem h !! x).
Proof.
  intros HB HR Ha. destruct (bo_alloc _ _ _ HB _ _ Ha) as (Hs0 & Hlow & Hhigh).
  destruct (ro_alloc _ _ _ HR _ _ Ha) as [na Hna].
  assert (Hne : forall b, b ∈ F -> b.1 <> a).
  { intros b Hb E. pose proof (bo_fa _ _ _ HB b a s Hb Ha) as Hsep. destruct (bo_free _ _ _ HB b Hb) as (H0 & _ & _).
    unfold sep, stop in *. cbn [fst snd] in *. lia. }
  destruct (free_scan_ok h top F A a HB HR ltac:(lia) Hne) as (l1 & p & sp & l2 & E & H1 & H2 & Hscan).
  pose proof (ro_chain _ _ _ HR) as Hc. pose proof (bo_sorted _ _ _ HB) as Hs. pose proof (ring_nodup _ _ _ HB) as Hnd.
  assert (Hp : 0 <= sp /\ base <= p) by (apply (ring_size _ _ _ HB (p, sp)); rewrite E; set_solver).
  assert (Hpa : p < a) by (apply (H1 (p, sp)); set_solver).
  rewrite E in Hc, Hs, Hnd. apply chain_app in Hc as (c & Hc1 & Hc2). cbn [chain] in Hc2.
  destruct Hc2 as (-> & nx & Hpm & Hc2). apply sorted_app in Hs as (_ & Hs2 & _). apply StronglySorted_inv in Hs2 as [Hs2 Hpf].
  assert (HF : forall b, b ∈ l2 -> b ∈ F).
  { intros b Hb. assert (Hin : b ∈ (base, 0) :: F) by (rewrite E; set_solver).
    apply elem_of_cons in Hin as [->|]; [|done]. specialize (H2 _ Hb). cbn in H2. lia. }
  assert (Hsp : stop (p, sp) <= a).
  { assert (Hin : (p, sp) ∈ (base, 0) :: F) by (rewrite E; set_solver).
    apply elem_of_cons in Hin as [[= -> ->]|Hin]; [unfold stop; cbn [fst snd]; lia|].
    pose proof (bo_fa _ _ _ HB _ _ _ Hin Ha) as Hsep. unfold sep, stop in *. cbn [fst snd] in *. lia. }
  destruct (join_up_ok h a p na s nx l2) as (nx' & s' & l2' & J1 & J2 & J3 & J4 & J5 & J6 & J7 & J8 & J9);
    [done|by apply hd_at_Some in Hpm as []|done|done|done|lia|done| |].
  { intros b Hb. destruct (bo_free _ _ _ HB b (HF b Hb)) as (B1 & _ & B2).
    pose proof (bo_fa _ _ _ HB _ _ _ (HF b Hb) Ha) as Hsep. specialize (H2 b Hb).
    unfold sep, stop in *. cbn [fst snd] in *. lia. }
  destruct (join_down_ok (join_up a p h) a p nx sp nx' s') as (l & D1 & D2 & D3);
    [by rewrite J1, lookup_insert_ne by lia|by rewrite J1, lookup_insert_eq|lia|lia|lia|done|done|lia|].
  assert (Hfree : free (a + UNIT) h = Some (set_freep p (join_down a p (join_up a p h)))).
  { rewrite (free_unfold _ _ p); replace (a + UNIT - UNIT) with a by lia; done. }
  (* the chain below and the chain above do not change *)
  assert (Hdis : forall x, x ∈ l1 ++ l2 -> x.1 <> p /\ x.1 <> a).
  { intros x Hx. split.
    - intros <-. rewrite map_app in Hnd. cbn in Hnd. apply NoDup_app in Hnd as (_ & Hd & Hnd). apply NoDup_cons in Hnd as [Hnd _].
      apply elem_of_app in Hx as [Hx|Hx]; [apply (Hd x.1); [|apply list_elem_of_here]|apply Hnd]; apply list_elem_of_fmap; eauto.
    - apply elem_of_app in Hx as [Hx|Hx]; [specialize (H1 x ltac:(set_solver))|specialize (H2 x Hx)]; lia. }
  assert (Hkeep : forall l' y z v w, chain (hmem h) l' y z -> l' ⊆ l1 ++ l2 -> chain (<[p := v]> (<[a := w]> (hmem h))) l' y z).
  { intros l' y z v w Hch Hsub. apply chain_put; [|apply chain_put; [|done]];
      intros t Ht; destruct (Hdis _ (Hsub _ Ht)); done. }
  set (h' := set_freep p (join_down a p (join_up a p h))) in *.
  exists h', p, sp, l1, l2, s', l2', (if decide (l = []) then (p, sp + s') :: l2' else (p, sp) :: (a, s') :: l2').
  split_and!; try done.
  - split; try done. destruct D3 as [[-> D3]|[-> D3]]; [left|right]; done.
  - apply chain_app. exists p. unfold h'. cbn [set_freep hmem]. rewrite D1, J1.
    destruct D3 as [[-> D3]|[-> D3]]; cbn [decide]; (split; [apply Hkeep; [done|set_solver]|]); cbn [chain].
    + split; [done|]. exists nx'. split; [by rewrite lookup_insert_eq|]. apply Hkeep; [done|set_solver].
    + split; [done|]. exists a. split; [by rewrite lookup_insert_eq|]. split; [done|]. exists nx'.
      split; [rewrite lookup_insert_ne, lookup_insert_eq by lia; done|]. apply Hkeep; [done|set_solver].
  - intros x Hxp Hxa. unfold h'. cbn [set_freep hmem]. rewrite D1, J1.
    destruct D3 as [[-> D3]|[-> D3]]; rewrite !lookup_insert_ne by done; done.
Qed.

Section Placed.
Context (F : list (Z * Z)) (A : gmap Z Z) (a s p sp : Z) (l1 l2 : list (Z * Z)) (s' : Z) (l2' l : list (Z * Z)).
Context (HB : blocks_ok top F A) (Ha : A !! a = Some s).
Context (HP : placed F a s p sp l1 l2 s' l2' l).

Lemma placed_in b : b ∈ l1 ++ (p, sp) :: l2 -> b = (base, 0) \/ b ∈ F.
Proof. rewrite <- (pl_ring _ _ _ _ _ _ _ _ _ _ HP). by intros Hb%elem_of_cons. Qed.

Lemma placed_pin : (p, sp) ∈ l1 ++ (p, sp) :: l2.
Proof. apply elem_of_app. right. apply list_elem_of_here. Qed.

Lemma placed_size : 0 <= sp.
Proof. apply (ring_size _ _ _ HB (p, sp)). rewrite (pl_ring _ _ _ _ _ _ _ _ _ _ HP). apply placed_pin. Qed.

Lemma placed_length : (length l2' <= length l2)%nat.
Proof.
  destruct HP as [E Hp J4 J5 J6 J7 J8 J9 Hl]. destruct (bo_alloc _ _ _ HB _ _ Ha) as (Hs0 & Hlow & Hhigh).
  pose proof placed_in as Hin. pose proof placed_pin as Hpin. pose proof placed_size as Hp0.
  apply StronglySorted_inv in J4 as [J4 _].
    assert (Hz : forall b, b ∈ l2 -> 0 <= b.2).
    { intros b Hb. apply (ring_size _ _ _ HB). rewrite E. set_solver. }
    rewrite <- (length_map fst l2'), <- (length_map fst l2). apply submseteq_length, NoDup_submseteq.
    - apply sorted_nodup; [done|]. intros b Hb. apply Hz, J5, Hb.
    - intros x (y & -> & Hy)%list_elem_of_fmap. apply list_elem_of_fmap. eauto.
Qed.

Lemma placed_list : exists F', l1 ++ l = (base, 0) :: F' /\
    (forall b, b ∈ F' -> b ∈ F \/ b = (a, s') \/ (b = (p, sp + s') /\ (p, sp) ∈ F /\ stop (p, sp) = a)) /\
    total F' = total F + s /\ (exists b, b ∈ F' /\ s <= b.2) /\ (length F' <= S (length F))%nat.
Proof.
  destruct HP as [E Hp J4 J5 J6 J7 J8 J9 Hl]. destruct (bo_alloc _ _ _ HB _ _ Ha) as (Hs0 & Hlow & Hhigh).
  pose proof placed_in as Hin. pose proof placed_pin as Hpin. pose proof placed_size as Hp0.
  pose proof placed_length as Hlen2.
  assert (HT : total F = total l1 + sp + total l2).
    { change (total F) with (total ((base, 0) :: F)). rewrite E, heap_total_app, total_cons. cbn [snd]. lia. }
    assert (HL : S (length F) = (length l1 + S (length l2))%nat).
    { change (S (length F)) with (length ((base, 0) :: F)). rewrite E, length_app. done. }
    destruct l1 as [|b0 k1]; cbn [app] in *.
    - injection E as <- <- ->. destruct Hl as [[-> Hst]|[-> Hst]]; [unfold stop in Hst; cbn [fst snd] in Hst; lia|].
      exists ((a, s') :: l2'). split; [done|]. split; [|split; [|split]].
      + intros b [->|Hb]%elem_of_cons; [auto|]. left. by apply J5.
      + rewrite total_cons. cbn [snd]. change (total []) with 0 in HT. lia.
      + exists (a, s'). split; [apply list_elem_of_here|done].
      + cbn [length] in *. lia.
    - injection E as <- ->. exists (k1 ++ l). split; [done|].
      assert (HpF : (p, sp) ∈ k1 ++ (p, sp) :: l2) by (apply elem_of_app; right; apply list_elem_of_here).
      rewrite heap_total_app, length_app. change (total ((base, 0) :: k1)) with (total k1) in HT.
      destruct Hl as [[-> Hst]|[-> Hst]]; rewrite ?total_cons; cbn [snd length] in *; (split; [|split; [lia|split; [|lia]]]).
      + intros b [Hb|[->|Hb]%elem_of_cons]%elem_of_app; [left|right; right; auto|left]; apply elem_of_app; [by left|right].
        apply list_elem_of_further. by apply J5.
      + assert (0 <= sp) by (apply (ring_size _ _ _ HB (p, sp)), list_elem_of_further, HpF).
        exists (p, sp + s'). split; [apply elem_of_app; right; apply list_elem_of_here|cbn [snd]; lia].
      + intros b [Hb|[->|[->|Hb]%elem_of_cons]%elem_of_cons]%elem_of_app; [left|left; done|auto|left]; apply elem_of_app; [by left|right].
        apply list_elem_of_further. by apply J5.
      + exists (a, s'). split; [apply elem_of_app; right; apply list_elem_of_further, list_elem_of_here|done].
Qed.

Lemma placed_blocks F' : l1 ++ l = (base, 0) :: F' ->
    (forall b, b ∈ F' -> b ∈ F \/ b = (a, s') \/ (b = (p, sp + s') /\ (p, sp) ∈ F /\ stop (p, sp) = a)) ->
  blocks_ok top F' (delete a A).
Proof.
  intros EF HF.
  destruct HP as [E Hp J4 J5 J6 J7 J8 J9 Hl]. destruct (bo_alloc _ _ _ HB _ _ Ha) as (Hs0 & Hlow & Hhigh).
  pose proof placed_in as Hin. pose proof placed_pin as Hpin. pose proof placed_size as Hp0.
  pose proof (bo_sorted _ _ _ HB) as Hs. rewrite E in Hs. apply sorted_app in Hs as (Hs1 & Hs2 & Hs3).
  apply StronglySorted_inv in Hs2 as [Hs2 Hpf]. rewrite Forall_forall in Hpf.
  split.
  + rewrite <- EF. apply sorted_join; [done| |].
    * destruct Hl as [[-> Hst]|[-> Hst]]; constructor; [exact (proj1 (StronglySorted_inv J4))| |done|].
      -- apply StronglySorted_inv in J4 as [_ J4]. eapply Forall_impl; [exact J4|]. intros c.
         unfold before, stop in *. cbn [fst snd] in *. lia.
      -- constructor; [exact Hst|]. apply Forall_forall. intros c Hcin. apply Hpf, J5, Hcin.
    * intros b c Hb Hcin. assert (Hbp : before b (p, sp)) by (apply Hs3; [done|apply list_elem_of_here]).
      assert (Hcase : c.1 = p \/ c.1 = a \/ c ∈ l2).
      { destruct Hl as [[-> _]|[-> _]].
        - apply elem_of_cons in Hcin as [->|Hcin]; [by left|right; right; by apply J5].
        - apply elem_of_cons in Hcin as [->|[->|Hcin]%elem_of_cons]; [by left|by right; left|right; right; by apply J5]. }
      unfold before, stop in *. cbn [fst snd] in *. destruct Hcase as [->|[->|Hc2]]; [lia|lia|].
      apply (Hs3 b c Hb). by apply list_elem_of_further.
  + intros b Hb. destruct (HF b Hb) as [HbF|[->|(-> & HpF & Hst)]]; [by apply (bo_free _ _ _ HB)| |].
    * cbn [fst snd]. split_and!; [lia|lia|done].
    * destruct (bo_free _ _ _ HB _ HpF) as (? & ? & _). unfold stop in *. cbn [fst snd] in *. split_and!; lia.
  + intros b u [_ Hb]%lookup_delete_Some. by apply (bo_alloc _ _ _ HB).
  + intros b b' u Hb [Hne Hu]%lookup_delete_Some. destruct (bo_alloc _ _ _ HB _ _ Hu) as (Hu0 & Hub & _).
    assert (Ha' : sep (a, s') (b', u)).
    { apply J9; [done|by apply (bo_aa _ _ _ HB)|]. intros c Hcin.
      assert (HcR : c ∈ l1 ++ (p, sp) :: l2) by (apply elem_of_app; right; by apply list_elem_of_further).
      destruct (Hin c HcR) as [->|HcF]; [|by apply (bo_fa _ _ _ HB)]. left. unfold stop. cbn [fst snd]. lia. }
    destruct (HF b Hb) as [HbF|[->|(-> & HpF & Hst)]]; [by apply (bo_fa _ _ _ HB)|done|].
    pose proof (bo_fa _ _ _ HB _ _ _ HpF Hu) as Hps. unfold sep, stop in *. cbn [fst snd] in *. lia.
  + intros b u b' u' [_ Hb]%lookup_delete_Some [_ Hb']%lookup_delete_Some. by apply (bo_aa _ _ _ HB).
Qed.

Lemma placed_not b u x : delete a A !! b = Some u -> touches (b, u) x -> x <> p /\ x <> a.
Proof.
  destruct HP as [E Hp J4 J5 J6 J7 J8 J9 Hl]. destruct (bo_alloc _ _ _ HB _ _ Ha) as (Hs0 & Hlow & Hhigh).
  pose proof placed_in as Hin. pose proof placed_pin as Hpin. pose proof placed_size as Hp0.
  intros [Hne Hb]%lookup_delete_Some [Hx1 Hx2]. split; intros ->.
  - destruct (Hin (p, sp) Hpin) as [[= -> ->]|HpF].
    * destruct (bo_alloc _ _ _ HB _ _ Hb) as (_ & ? & _). cbn [fst] in Hx1. lia.
    * pose proof (bo_fa _ _ _ HB _ _ _ HpF Hb) as Hps. destruct (bo_alloc _ _ _ HB _ _ Hb) as (? & _).
        destruct (bo_free _ _ _ HB _ HpF). unfold sep, stop in *. cbn [fst snd] in *. lia.
  - pose proof (bo_aa _ _ _ HB _ _ _ _ Ha Hb Hne) as Hps. unfold sep, stop in *. cbn [fst snd] in *. lia.
Qed.
End Placed.

Lemma free_ok h F A a s : blocks_ok top F A -> ring_ok h F A -> A !! a = Some s ->
  exists h' F', free (a + UNIT) h = Some h' /\ blocks_ok top F' (delete a A) /\ ring_ok h' F' (delete a A) /\
    untouched (delete a A) h h' /\ total F' = total F + s /\ (exists b, b ∈ F' /\ s <= b.2) /\
    (length F' <= S (length F))%nat.
Proof.
  intros HB HR Ha.
  destruct (free_ring h F A a s HB HR Ha) as (h' & p & sp & l1 & l2 & s' & l2' & l & Hf & HP & Hc & Hfp & Hsame).
  destruct (placed_list _ _ _ _ _ _ _ _ _ _ _ HB Ha HP) as (F' & EF & HF & HT & Hbig & Hlen).
  pose proof (placed_not _ _ _ _ _ _ _ _ _ _ _ HB Ha HP) as Hnot.
  exists h', F'. split_and!; try done.
  - by eapply placed_blocks.
  - split.
    + by rewrite <- EF.
    + rewrite <- EF, Hfp. destruct (pl_join _ _ _ _ _ _ _ _ _ _ HP) as [[-> _]|[-> _]]; eexists; apply elem_of_app; right; apply list_elem_of_here.
    + intros b u Hb. pose proof (proj2 (proj1 (lookup_delete_Some _ _ _ _) Hb)) as Hb'.
      destruct (ro_alloc _ _ _ HR _ _ Hb') as [n Hn]. exists n. rewrite Hsame; [done|..];
        apply (Hnot b u b Hb); destruct (bo_alloc _ _ _ HB _ _ Hb'); unfold touches, stop; cbn [fst snd]; lia.
  - intros b u x Hb Hx. by apply Hsame; apply (Hnot b u x Hb).
Qed.

(** ** Taking a block *)

Definition take_block (nunits prevp p : Z) (h : heap) : Z * heap :=
  let '(p, h) :=
    if hsize h p =? nunits then (p, set_ptr prevp (hptr h p) h)
    else
      let h := set_size p (u32 (hsize h p - nunits)) h in
      let p := p + UNIT * hsize h p in
      (p, set_size p nunits h) in
  (p + UNIT, set_freep prevp h).

(** A block taken out of the free list, or cut off the end of one. *)
Lemma blocks_take F A F' x sx y n : blocks_ok top F A -> (x, sx) ∈ F -> 0 < n ->
  StronglySorted before ((base, 0) :: F') ->
  (forall b, b ∈ F' -> (b ∈ F /\ sep b (x, sx)) \/ (b = (x, sx - n) /\ n < sx)) ->
  y = x + UNIT * (sx - n) -> n <= sx -> blocks_ok top F' (<[y := n]> A) /\ A !! y = None.
Proof.
  intros HB Hx Hn Hs HF Hy Hle. destruct (bo_free _ _ _ HB _ Hx) as (Hx0 & Hlow & Hhigh).
  assert (Hsub : forall b u, sep (x, sx) (b, u) -> sep (y, n) (b, u) /\ sep (x, sx - n) (b, u)).
  { intros b u. unfold sep, stop. cbn [fst snd]. lia. }
  split; [split|].
  - done.
  - intros b Hb. destruct (HF b Hb) as [[HbF _]|[-> Hlt]]; [by apply (bo_free _ _ _ HB)|].
    unfold stop in *. cbn [fst snd] in *. lia.
  - intros a s [[<- <-]|[_ Ha]]%lookup_insert_Some; [|by apply (bo_alloc _ _ _ HB)].
    unfold stop in *. cbn [fst snd] in *. lia.
  - intros b a s Hb [[<- <-]|[_ Ha]]%lookup_insert_Some; destruct (HF b Hb) as [[HbF Hsep]|[-> Hlt]].
    + unfold sep, stop in *. cbn [fst snd] in *. lia.
    + unfold sep, stop. cbn [fst snd]. lia.
    + by apply (bo_fa _ _ _ HB).
    + by apply Hsub, (bo_fa _ _ _ HB).
  - intros a s a' s' [[<- <-]|[_ Ha]]%lookup_insert_Some [[<- <-]|[_ Ha']]%lookup_insert_Some Hne; [done|..].
    + by apply Hsub, (bo_fa _ _ _ HB).
    + destruct (Hsub a s) as [[H|H] _]; [by apply (bo_fa _ _ _ HB)|by right|by left].
    + by apply (bo_aa _ _ _ HB).
  - apply eq_None_not_Some. intros [s Ha]. pose proof (bo_fa _ _ _ HB _ _ _ Hx Ha).
    destruct (bo_alloc _ _ _ HB _ _ Ha). unfold sep, stop in *. cbn [fst snd] in *. lia.
Qed.

(** No header of a free block lies in an allocated one. *)
Lemma free_not_touched F A b a s x : blocks_ok top F A -> b ∈ (base, 0) :: F -> A !! a = Some s ->
  (x = b.1 \/ (0 < b.2 /\ b.1 <= x <= stop b - UNIT)) -> ~ touches (a, s) x.
Proof.
  intros HB Hb Ha Hx [H1 H2]. destruct (bo_alloc _ _ _ HB _ _ Ha) as (Hs & Hlow & _). cbn [fst snd] in *.
  apply elem_of_cons in Hb as [->|Hb].
  - unfold stop in *. cbn [fst snd] in *. lia.
  - destruct (bo_free _ _ _ HB _ Hb) as (Hb0 & _). pose proof (bo_fa _ _ _ HB _ _ _ Hb Ha).
    unfold sep, stop in *. cbn [fst snd] in *. lia.
Qed.

Lemma sep_of_before b c : 0 <= b.2 -> 0 <= c.2 -> (before b c \/ before c b) -> sep b c.
Proof. unfold before, sep, stop. lia. Qed.

Section Take.
Context (h : heap) (F : list (Z * Z)) (A : gmap Z Z) (HB : blocks_ok top F A) (HR : ring_ok h F A).
Context (l1 : list (Z * Z)) (q sq x sx : Z) (l2 : list (Z * Z)) (E : (base, 0) :: F = l1 ++ (q, sq) :: (x, sx) :: l2).

Lemma take_split : exists m1, l1 ++ [(q, sq)] = (base, 0) :: m1 /\ F = m1 ++ (x, sx) :: l2.
Proof.
  destruct l1 as [|b k1]; cbn [app] in *.
  - injection E as <- <- ->. by exists [].
  - injection E as <- ->. exists (k1 ++ [(q, sq)]). by rewrite <- app_assoc.
Qed.

Lemma take_in : (x, sx) ∈ F /\ (q, sq) ∈ (base, 0) :: F.
Proof.
  split.
  - destruct take_split as (m1 & _ & ->). apply elem_of_app. right. apply list_elem_of_here.
  - rewrite E. apply elem_of_app. right. apply list_elem_of_here.
Qed.

Lemma take_order b : (b ∈ l1 ++ [(q, sq)] -> before b (x, sx) /\ b.1 < x) /\ (b ∈ l2 -> before (x, sx) b /\ x < b.1).
Proof.
  assert (E' : (base, 0) :: F = (l1 ++ [(q, sq)]) ++ (x, sx) :: l2) by by rewrite <- app_assoc.
  split; intros Hb.
  - apply (ring_before _ _ _ HB _ _ b (x, sx) E' Hb). apply list_elem_of_here.
  - rewrite cons_middle, app_assoc in E'. apply (ring_before _ _ _ HB _ _ (x, sx) b E'); [|done].
    apply elem_of_app. right. apply list_elem_of_here.
Qed.

Lemma take_other m1 b : F = m1 ++ (x, sx) :: l2 -> l1 ++ [(q, sq)] = (base, 0) :: m1 -> b ∈ m1 ++ l2 -> b ∈ F /\ sep b (x, sx).
Proof.
  intros EF Em Hb. assert (HbF : b ∈ F) by (rewrite EF; set_solver). split; [done|].
  destruct (bo_free _ _ _ HB _ HbF) as (? & _). destruct (bo_free _ _ _ HB _ (proj1 take_in)) as (? & _).
  apply sep_of_before; [lia|cbn [snd] in *; lia|].
  apply elem_of_app in Hb as [Hb|Hb]; [left|right]; apply (take_order b); [rewrite Em; by apply list_elem_of_further|done].
Qed.

Lemma take_addr y b : x <= y < stop (x, sx) -> b ∈ l1 ++ (q, sq) :: l2 -> b.1 <> y.
Proof.
  intros Hy Hb. destruct take_split as (m1 & Em & EF).
  destruct (bo_free _ _ _ HB _ (proj1 take_in)) as (_ & Hlow & _). cbn [fst] in Hlow.
  assert (Hb' : b ∈ (base, 0) :: m1 ++ l2) by (rewrite app_comm_cons, <- Em, <- app_assoc; done).
  apply elem_of_cons in Hb' as [->|Hb']; [cbn [fst]; lia|]. destruct (take_other m1 b EF Em Hb') as [HbF Hsep].
  destruct (bo_free _ _ _ HB _ HbF) as (? & _). unfold sep, stop in *. cbn [fst snd] in *. lia.
Qed.

Lemma take_q_new b : b ∈ l1 ++ l2 -> b.1 <> q.
Proof.
  pose proof (ring_nodup _ _ _ HB) as Hnd. rewrite E, map_app in Hnd. cbn [map fst] in Hnd.
  apply NoDup_app in Hnd as (_ & Hd & Hnd). apply NoDup_cons in Hnd as [Hnd _].
  intros Hb <-. apply elem_of_app in Hb as [Hb|Hb].
  - apply (Hd b.1); [apply list_elem_of_fmap; eauto|apply list_elem_of_here].
  - apply Hnd. apply list_elem_of_further, list_elem_of_fmap. eauto.
Qed.

(** The whole block. *)
Lemma take_whole h' : freep h' = q -> (forall n2, hmem h !! x = Some (Header n2 sx) -> hmem h' = <[q := Header n2 sq]> (hmem h)) ->
  exists F', blocks_ok top F' (<[x := sx]> A) /\ ring_ok h' F' (<[x := sx]> A) /\ untouched A h h' /\
    A !! x = None /\ total F' + sx = total F /\ (length F' <= length F)%nat.
Proof.
  intros Hfp Hm. destruct take_split as (m1 & Em & EF). destruct take_in as [HxF HqR].
  destruct (bo_free _ _ _ HB _ HxF) as (Hx0 & _).
  pose proof (ro_chain _ _ _ HR) as Hc. rewrite E in Hc. apply chain_app in Hc as (c & Hc1 & Hc2). cbn [chain] in Hc2.
  destruct Hc2 as (-> & nx & Hqm & -> & n2 & Hxm & Hc2). specialize (Hm n2 Hxm).
  assert (ER : l1 ++ (q, sq) :: l2 = (base, 0) :: m1 ++ l2) by (rewrite cons_middle, app_assoc, Em; done).
  destruct (blocks_take F A (m1 ++ l2) x sx x sx HB HxF ltac:(cbn in Hx0; lia)) as [HB' HN];
    [|intros b Hb; left; by apply (take_other m1)|lia|lia|].
  { rewrite <- ER. pose proof (bo_sorted _ _ _ HB) as Hs. rewrite E in Hs.
    rewrite cons_middle, app_assoc in Hs |- *. apply sorted_app in Hs as (Hs1 & Hs2 & Hs3).
    apply StronglySorted_inv in Hs2 as [Hs2 _]. apply sorted_join; [done|done|].
    intros b c Hb Hcin. apply Hs3; [done|by apply list_elem_of_further]. }
  exists (m1 ++ l2). split_and!; [done| |..].
  - assert (Hk : forall l y z, chain (hmem h) l y z -> l ⊆ l1 ++ l2 -> chain (hmem h') l y z).
    { intros l y z Hch Hsub. rewrite Hm. apply chain_put; [|done]. intros s Hs%Hsub. by apply take_q_new in Hs. }
    split.
    + rewrite <- ER. apply chain_app. exists q. split; [apply Hk; [done|set_solver]|]. cbn [chain]. split; [done|].
      exists n2. split; [by rewrite Hm, lookup_insert_eq|]. apply Hk; [done|set_solver].
    + rewrite <- ER, Hfp. exists sq. apply elem_of_app. right. apply list_elem_of_here.
    + intros a s [[<- <-]|[Hne Ha]]%lookup_insert_Some.
      * exists n2. rewrite Hm, lookup_insert_ne; [done|]. intros Eq.
        destruct (take_order (q, sq)) as [[_ H] _]; [apply elem_of_app; right; apply list_elem_of_here|]. cbn in H. lia.
      * destruct (ro_alloc _ _ _ HR _ _ Ha) as [n Hn]. exists n. rewrite Hm, lookup_insert_ne; [done|].
        intros <-. destruct (bo_alloc _ _ _ HB _ _ Ha) as (Hs & _).
        apply (free_not_touched F A (q, sq) q s q HB HqR Ha); [by left|]. unfold touches, stop. cbn [fst snd]. lia.
  - intros a s y Ha Hy. rewrite Hm, lookup_insert_ne; [done|]. intros <-.
    by apply (free_not_touched F A (q, sq) a s q HB HqR Ha); [left|].
  - done.
  - rewrite EF, !heap_total_app, total_cons. cbn [snd]. lia.
  - rewrite EF, !length_app. cbn [length]. lia.
Qed.

(** The end of it. *)
Lemma take_part h' n y v : freep h' = q -> 0 < n < sx -> y = x + UNIT * (sx - n) ->
  (forall n2, hmem h !! x = Some (Header n2 sx) -> hmem h' = <[y := Header v n]> (<[x := Header n2 (sx - n)]> (hmem h))) ->
  exists F', blocks_ok top F' (<[y := n]> A) /\ ring_ok h' F' (<[y := n]> A) /\ untouched A h h' /\
    A !! y = None /\ total F' + n = total F /\ (length F' <= length F)%nat.
Proof.
  intros Hfp Hn Hy Hm. destruct take_split as (m1 & Em & EF). destruct take_in as [HxF HqR].
  destruct (bo_free _ _ _ HB _ HxF) as (Hx0 & Hxlow & Hxtop). cbn [fst snd] in *.
  pose proof (ro_chain _ _ _ HR) as Hc. rewrite E in Hc. apply chain_app in Hc as (c & Hc1 & Hc2). cbn [chain] in Hc2.
  destruct Hc2 as (-> & nx & Hqm & -> & n2 & Hxm & Hc2). specialize (Hm n2 Hxm).
  set (F' := m1 ++ (x, sx - n) :: l2).
  assert (ER : l1 ++ (q, sq) :: (x, sx - n) :: l2 = (base, 0) :: F').
  { unfold F'. rewrite (cons_middle (q, sq)), app_assoc, Em. done. }
  assert (Hyr : forall b, b ∈ l1 ++ (q, sq) :: l2 -> b.1 <> x /\ b.1 <> y).
  { intros b Hb. split; apply take_addr; try done; unfold stop; cbn [fst snd]; lia. }
  destruct (blocks_take F A F' x sx y n HB HxF ltac:(lia)) as [HB' HN]; [| |done|lia|].
  { rewrite <- ER. pose proof (bo_sorted _ _ _ HB) as Hs. rewrite E in Hs.
    rewrite (cons_middle (q, sq)), app_assoc in Hs |- *. apply sorted_app in Hs as (Hs1 & Hs2 & Hs3).
    apply StronglySorted_inv in Hs2 as [Hs2 Hf]. apply sorted_join; [done|constructor; [done|]|].
    - eapply Forall_impl; [exact Hf|]. intros b. unfold before, stop. cbn [fst snd]. lia.
    - intros b c Hb [->|Hcin]%elem_of_cons; [|apply Hs3; [done|by apply list_elem_of_further]].
      exact (Hs3 b (x, sx) Hb (list_elem_of_here _ _)). }
  { intros b [Hb|[->|Hb]%elem_of_cons]%elem_of_app; [left|right; split; [done|lia]|left]; apply (take_other m1); set_solver. }
  exists F'. split_and!; [done| |..].
  - assert (Hk : forall l w z, chain (hmem h) l w z -> l ⊆ l1 ++ (q, sq) :: l2 -> chain (hmem h') l w z).
    { intros l w z Hch Hsub. rewrite Hm. apply chain_put; [|apply chain_put; [|done]]; intros s Hs%Hsub; by apply Hyr in Hs as []. }
    assert (Hq : q <> x /\ q <> y) by (apply (Hyr (q, sq)); apply elem_of_app; right; apply list_elem_of_here).
    split.
    + rewrite <- ER. apply chain_app. exists q. split; [apply Hk; [done|set_solver]|]. cbn [chain]. split; [done|].
      exists x. split; [rewrite Hm, !lookup_insert_ne by (intros ->; by destruct Hq); done|]. split; [done|].
      exists n2. split; [rewrite Hm, lookup_insert_ne, lookup_insert_eq by lia; done|]. apply Hk; [done|set_solver].
    + rewrite <- ER, Hfp. exists sq. apply elem_of_app. right. apply list_elem_of_here.
    + intros a s [[<- <-]|[Hne Ha]]%lookup_insert_Some.
      * exists v. by rewrite Hm, lookup_insert_eq.
      * destruct (ro_alloc _ _ _ HR _ _ Ha) as [m Hmm]. exists m. rewrite Hm, !lookup_insert_ne; [done| |done].
        intros <-. destruct (bo_alloc _ _ _ HB _ _ Ha) as (Hs & _).
        apply (free_not_touched F A (x, sx) x s x HB); [by apply list_elem_of_further|done|by left|].
        unfold touches, stop. cbn [fst snd]. lia.
  - intros a s z Ha Hz. rewrite Hm, !lookup_insert_ne; [done|..]; intros <-;
      (eapply (free_not_touched F A (x, sx)); [done|by apply list_elem_of_further|exact Ha| |exact Hz]); right; unfold stop; cbn [fst snd]; lia.
  - done.
  - unfold F'. rewrite EF, !heap_total_app, !total_cons. cbn [snd]. lia.
  - unfold F'. rewrite EF, !length_app. cbn [length]. lia.
Qed.

Lemma take_ok n : 0 < n <= sx ->
  exists F' r h', take_block n q x h = (r, h') /\ blocks_ok top F' (<[r - UNIT := n]> A) /\
    ring_ok h' F' (<[r - UNIT := n]> A) /\ untouched A h h' /\
    A !! (r - UNIT) = None /\ total F' + n = total F /\ (length F' <= length F)%nat.
Proof.
  intros Hn. destruct take_in as [HxF HqR]. destruct (bo_free _ _ _ HB _ HxF) as (Hx0 & Hxlow & Hxtop).
  unfold stop in Hxtop. cbn [fst snd] in *.
  assert (Hxm : exists n2, hmem h !! x = Some (Header n2 sx)).
  { eapply chain_dom; [apply HR|]. by apply list_elem_of_further. }
  assert (Hqm : exists n2, hmem h !! q = Some (Header n2 sq)).
  { eapply chain_dom; [apply HR|]. done. }
  destruct Hxm as [n2 Hxm], Hqm as [n1 Hqm]. pose proof (hd_at_Some _ _ _ _ Hxm) as [Hxp Hxs].
  pose proof (hd_at_Some _ _ _ _ Hqm) as [_ Hqs]. unfold take_block. rewrite Hxs.
  destruct (Z.eqb_spec sx n) as [Ex|Hne].
  - subst n. destruct (take_whole (set_freep q (set_ptr q (hptr h x) h))) as (F' & HF'); [done| |].
    { intros m Hm'. cbn. unfold set_ptr, put. cbn. rewrite Hqs. congruence. }
    exists F', (x + UNIT), (set_freep q (set_ptr q (hptr h x) h)). replace (x + UNIT - UNIT) with x by lia. by split.
  - rewrite u32_small by lia.
    assert (Hsz : hsize (set_size x (sx - n) h) x = sx - n).
    { unfold hsize, hd_at, set_size, put. cbn. by rewrite lookup_insert_eq. }
    rewrite Hsz. set (y := x + UNIT * (sx - n)).
    set (h' := set_freep q (set_size y n (set_size x (sx - n) h))).
    destruct (take_part h' n y (hptr (set_size x (sx - n) h) y)) as (F' & HF'); [done|lia|done| |].
    { intros m Hm'. unfold h'. cbn. unfold set_size at 1, put. cbn. do 2 f_equal. congruence. }
    exists F', (y + UNIT), h'. replace (y + UNIT - UNIT) with y by lia. by split.
Qed.
End Take.
End Heap.

(** ** [malloc] *)

(** What the system call promises: for a positive argument it fails and changes nothing, or it returns
    the old end of the process's memory, which grows by [n] bytes. *)
Class SbrkOk {K : Type} (sbrk : Z -> K -> Z * K) (ksize : K -> Z) : Prop := {
  sbrk_grows n k : 0 < n ->
    (exists k', sbrk n k = (-1, k') /\ ksize k' = ksize k) \/
    (exists k', sbrk n k = (ksize k, k') /\ ksize k' = ksize k + n /\ ksize k' <= 2 ^ 36)
}.

Section MallocThms.
Context {K : Type} (sbrk : Z -> K -> Z * K) (ksize : K -> Z) `{!SbrkOk sbrk ksize}.
Context (base : Z) (Hbase : 0 < base).

Definition taken (o : Z * heap) (k : K) : option (Z * heap * K) := Some (o.1, o.2, k).

Lemma scan_fits n prevp p h k fuel : n <= hsize h p ->
  malloc_scan sbrk n prevp p h k (S fuel) = taken (take_block n prevp p h) k.
Proof. intros H. cbn [malloc_scan]. rewrite (proj2 (Z.leb_le _ _) H). unfold taken, take_block. by destruct (hsize h p =? n). Qed.

Lemma scan_next n prevp p h k fuel : hsize h p < n -> p <> freep h ->
  malloc_scan sbrk n prevp p h k (S fuel) = malloc_scan sbrk n p (hptr h p) h k fuel.
Proof.
  intros H Hp. cbn [malloc_scan]. rewrite (proj2 (Z.leb_gt _ _) H). by rewrite (proj2 (Z.eqb_neq _ _) Hp).
Qed.

(** What happens when the scan is back at [freep]. *)
Definition after_core (n : Z) (h : heap) (k : K) (fuel : nat) : option (Z * heap * K) :=
  match morecore sbrk n h k with
  | None => None
  | Some (p, h, k) => if p =? 0 then Some (0, h, k) else malloc_scan sbrk n p (hptr h p) h k fuel
  end.

Lemma scan_end n prevp p h k fuel : hsize h p < n -> p = freep h ->
  malloc_scan sbrk n prevp p h k (S fuel) = after_core n h k fuel.
Proof. intros H ->. cbn [malloc_scan]. rewrite (proj2 (Z.leb_gt _ _) H), Z.eqb_refl. done. Qed.

(** A stretch of the ring without [freep]: the first block that fits is taken, or the scan
    comes out at the other end. *)
Lemma scan_stretch n h l : forall q sq e, chain (hmem h) ((q, sq) :: l) q e -> (forall b, b ∈ l -> b.1 <> freep h) ->
  (exists l1 b c l2, (q, sq) :: l = l1 ++ b :: c :: l2 /\ n <= c.2 /\
     forall k fuel, (length l <= fuel)%nat -> malloc_scan sbrk n q (hptr h q) h k fuel = taken (take_block n b.1 c.1 h) k) \/
  ((forall c, c ∈ l -> c.2 < n) /\ exists l1 b, (q, sq) :: l = l1 ++ [b] /\
     forall k fuel, malloc_scan sbrk n q (hptr h q) h k (length l + fuel) = malloc_scan sbrk n b.1 e h k fuel).
Proof.
  induction l as [|[x sx] l IH]; intros q sq e Hc Hf.
  - right. split; [by intros c Hc'%elem_of_nil|]. exists [], (q, sq). split; [done|]. intros k fuel. cbn in *.
    destruct Hc as (_ & n0 & Hq & <-). by apply hd_at_Some in Hq as [-> _].
  - cbn [chain] in Hc. destruct Hc as (_ & n0 & Hq & -> & n1 & Hx & Hc). apply hd_at_Some in Hq as [-> _].
    pose proof (hd_at_Some _ _ _ _ Hx) as [Hxp Hxs]. destruct (decide (n <= sx)) as [Hfit|Hnf].
    + left. exists [], (q, sq), (x, sx), l. split; [done|]. split; [done|]. intros k [|fuel] Hl; [cbn in Hl; lia|].
      apply scan_fits. cbn. lia.
    + assert (Hstep : forall k fuel, malloc_scan sbrk n q x h k (S fuel) = malloc_scan sbrk n x (hptr h x) h k fuel).
      { intros k fuel. apply scan_next; [lia|]. apply (Hf (x, sx)), list_elem_of_here. }
      destruct (IH x sx e) as [(l1 & b & c & l2 & E & Hc2 & Hs)|(Hsm & l1 & b & E & Hs)].
      * cbn [chain]. eauto.
      * intros b Hb. apply Hf. by apply list_elem_of_further.
      * left. exists ((q, sq) :: l1), b, c, l2. split; [by rewrite E|]. split; [done|]. intros k [|fuel] Hl; [cbn in Hl; lia|].
        rewrite Hstep. apply Hs. cbn in Hl. lia.
      * right. split; [intros c [->|Hcin]%elem_of_cons; [cbn; lia|by apply Hsm]|].
        exists ((q, sq) :: l1), b. split; [by rewrite E|]. intros k fuel. cbn [length Nat.add]. by rewrite Hstep, Hs.
Qed.

(** One round: a block that fits is taken, or there is none and the scan asks for more. *)
Lemma scan_round n h top F A : blocks_ok base top F A -> ring_ok base h F A -> 0 < n ->
  (exists l1 b c l2, (base, 0) :: F = l1 ++ b :: c :: l2 /\ n <= c.2 /\
     forall k fuel, (length F < fuel)%nat ->
       malloc_scan sbrk n (freep h) (hptr h (freep h)) h k fuel = taken (take_block n b.1 c.1 h) k) \/
  ((forall c, c ∈ F -> c.2 < n) /\
     forall k fuel, malloc_scan sbrk n (freep h) (hptr h (freep h)) h k (S (length F) + fuel) = after_core n h k fuel).
Proof.
  intros HB [Hc [fs Hfp] _] Hn. pose proof (ring_nodup _ _ _ _ HB) as Hnd.
  assert (Hb0 : hsize h base = 0) by (cbn [chain] in Hc; destruct Hc as (_ & n0 & Hq & _); by apply hd_at_Some in Hq as []).
  apply elem_of_cons in Hfp as [[= Ef ->]|Hfp].
  - destruct (scan_stretch n h F base 0 base Hc) as [(l1 & b & c & l2 & E & Hc2 & Hs)|(Hsm & l1 & b & E & Hs)].
    { intros b Hb E. cbn in Hnd. apply NoDup_cons in Hnd as [Hnd _]. apply Hnd. rewrite <- Ef, <- E. apply list_elem_of_fmap. eauto. }
    + left. exists l1, b, c, l2. split; [done|]. split; [done|]. intros k fuel Hl. rewrite Ef. apply Hs. lia.
    + right. split; [done|]. intros k fuel. rewrite Ef, Nat.add_succ_comm, Hs. apply scan_end; [lia|done].
  - apply list_elem_of_split in Hfp as (m1 & m2 & EF). subst F. rewrite app_comm_cons in Hc, Hnd |- *.
    apply chain_app in Hc as (c0 & Hc1 & Hc2). assert (c0 = freep h) as -> by apply Hc2.
    rewrite map_app in Hnd. apply NoDup_app in Hnd as (_ & Hd & Hnd). cbn [map fst] in Hnd, Hd. apply NoDup_cons in Hnd as [Hnd _].
    assert (Hm1 : forall b, b ∈ (base, 0) :: m1 -> b.1 <> freep h).
    { intros b Hb E. apply (Hd b.1); [|rewrite E; apply list_elem_of_here].
      change (b.1 ∈ map fst ((base, 0) :: m1)). apply list_elem_of_fmap. eauto. }
    destruct (scan_stretch n h m2 (freep h) fs base Hc2) as [(l1 & b & c & l2 & E & Hn2 & Hs)|(Hsm & l1 & b & E & Hs)].
    { intros b Hb E. apply Hnd. rewrite <- E. apply list_elem_of_fmap. eauto. }
    { left. exists (((base, 0) :: m1) ++ l1), b, c, l2. split; [by rewrite E, app_assoc|]. split; [done|].
      intros k fuel Hl. apply Hs. rewrite length_app in Hl. cbn in Hl. lia. }
    assert (Hbase' : forall k fuel, malloc_scan sbrk n (freep h) (hptr h (freep h)) h k (length m2 + S fuel) =
      malloc_scan sbrk n base (hptr h base) h k fuel).
    { intros k fuel. rewrite Hs. apply scan_next; [lia|]. apply (Hm1 (base, 0)), list_elem_of_here. }
    destruct (scan_stretch n h m1 base 0 (freep h) Hc1) as [(l1' & b' & c & l2 & E' & Hn2 & Hs')|(Hsm' & l1' & b' & E' & Hs')].
    { intros b2 Hb. apply Hm1. by apply list_elem_of_further. }
    { left. exists l1', b', c, (l2 ++ (freep h, fs) :: m2). split; [by rewrite E', <- app_assoc|]. split; [done|].
      intros k fuel Hl. rewrite length_app in Hl. cbn in Hl.
      replace fuel with (length m2 + S (fuel - length m2 - 1))%nat by lia. rewrite Hbase'. apply Hs'. lia. }
    cbn [chain] in Hc2. destruct Hc2 as (_ & nf & Hf & _). apply hd_at_Some in Hf as [_ Hf].
    destruct (decide (n <= fs)) as [Hfit|Hnf].
    + left. exists l1', b', (freep h, fs), m2. split; [by rewrite E', <- app_assoc|]. split; [done|].
      intros k fuel Hl. rewrite length_app in Hl. cbn in Hl.
      replace fuel with (length m2 + S (length m1 + S (fuel - length m2 - length m1 - 2)))%nat by lia.
      rewrite Hbase', Hs'. apply scan_fits. cbn [fst]. lia.
    + right. split; [intros c [Hcin|[->|Hcin]%elem_of_cons]%elem_of_app; [by apply Hsm'|cbn; lia|by apply Hsm]|].
      intros k fuel. rewrite length_app. cbn [length].
      replace (S (length m1 + S (length m2)) + fuel)%nat with (length m2 + S (length m1 + S fuel))%nat by lia.
      rewrite Hbase', Hs'. apply scan_end; [lia|done].
Qed.

Lemma blocks_top top top' F A : blocks_ok base top F A -> top <= top' -> blocks_ok base top' F A.
Proof.
  intros [H1 H2 H3 H4 H5] Hle. split; try done.
  - intros b Hb. destruct (H2 b Hb) as (? & ? & ?). split_and!; lia.
  - intros a s Ha. destruct (H3 a s Ha) as (? & ? & ?). split_and!; lia.
Qed.

(** Memory from [sbrk] as one more allocated block. *)
Lemma blocks_sbrk top F A nu : blocks_ok base top F A -> base + UNIT <= top -> 0 < nu ->
  blocks_ok base (top + UNIT * nu) F (<[top := nu]> A) /\ A !! top = None.
Proof.
  intros HB Hb Hnu. split; [|apply eq_None_not_Some; intros [s Ha]; destruct (bo_alloc _ _ _ _ HB _ _ Ha) as (? & ? & ?); unfold stop in *; cbn [fst snd] in *; lia].
  destruct (blocks_top top (top + UNIT * nu) F A HB ltac:(lia)) as [H1 H2 H3 H4 H5]. destruct HB as [_ G2 G3 _ _].
  split; try done.
  - intros a s [[<- <-]|[_ Ha]]%lookup_insert_Some; [|by apply H3]. unfold stop. cbn [fst snd]. lia.
  - intros b a s Hin [[<- <-]|[_ Ha]]%lookup_insert_Some; [|by apply H4]. left. by apply G2.
  - intros a s a' s' [[<- <-]|[_ Ha]]%lookup_insert_Some [[<- <-]|[_ Ha']]%lookup_insert_Some Hne; [done|..|by apply H5].
    + right. by apply G3.
    + left. by apply G3.
Qed.

Lemma ring_sbrk h top F A nu : blocks_ok base top F A -> ring_ok base h F A -> base + UNIT <= top ->
  ring_ok base (set_size top nu h) F (<[top := nu]> A).
Proof.
  intros HB [Hc Hf Ha] Hb. split.
  - unfold set_size, put. cbn [hmem]. apply chain_put; [|done]. intros s [[= E _]|Hin]%elem_of_cons; [lia|].
    destruct (bo_free _ _ _ _ HB _ Hin) as (? & ? & ?). unfold stop in *. cbn [fst snd] in *. lia.
  - done.
  - intros a s [[<- <-]|[Hne Hin]]%lookup_insert_Some; cbn; [rewrite lookup_insert_eq; eauto|].
    rewrite lookup_insert_ne by done. by apply Ha.
Qed.

Lemma set_size_untouched h top F A nu : blocks_ok base top F A -> untouched A h (set_size top nu h).
Proof.
  intros HB a s x Ha [H1 H2]. cbn. rewrite lookup_insert_ne; [done|]. intros <-.
  destruct (bo_alloc _ _ _ _ HB _ _ Ha) as (? & ? & ?). lia.
Qed.

Lemma untouched_trans A h1 h2 h3 : untouched A h1 h2 -> untouched A h2 h3 -> untouched A h1 h3.
Proof. intros H1 H2 a s x Ha Hx. by rewrite (H2 a s x), (H1 a s x). Qed.

Definition core_size (n : Z) : Z := if n <? 4096 then 4096 else n.

Lemma morecore_ok n h k F A : blocks_ok base (ksize k) F A -> ring_ok base h F A ->
  base + UNIT <= ksize k -> 0 < n < 2 ^ 27 ->
  (exists k', morecore sbrk n h k = Some (0, h, k') /\ ksize k' = ksize k) \/
  (exists h' k' F', morecore sbrk n h k = Some (freep h', h', k') /\ freep h' <> 0 /\
     ksize k' = ksize k + UNIT * core_size n /\ ksize k' <= 2 ^ 36 /\
     blocks_ok base (ksize k') F' A /\ ring_ok base h' F' A /\ untouched A h h' /\
     total F' = total F + core_size n /\ (exists b, b ∈ F' /\ n <= b.2) /\ (length F' <= S (length F))%nat).
Proof.
  intros HB HR Hk Hn. unfold morecore. fold (core_size n). set (nu := core_size n).
  assert (Hnu : n <= nu /\ 0 < nu < 2 ^ 27) by (unfold nu, core_size; destruct (Z.ltb_spec n 4096); lia).
  assert (Hi : i32 (nu * UNIT) = UNIT * nu).
  { unfold i32. rewrite Z.mod_small; lia. }
  rewrite Hi. destruct (sbrk_grows (UNIT * nu) k ltac:(lia)) as [(k' & -> & Hk')|(k' & -> & Hk' & Hmax)].
  - left. exists k'. by split.
  - right. rewrite (proj2 (Z.eqb_neq (ksize k) (-1))) by lia.
    destruct (blocks_sbrk _ _ _ nu HB Hk ltac:(lia)) as [HB' HN].
    pose proof (ring_sbrk h _ _ _ nu HB HR Hk) as HR'.
    destruct (free_ok base (ksize k + UNIT * nu) Hbase ltac:(lia) _ _ _ (ksize k) nu HB' HR' (lookup_insert_eq _ _ _))
      as (h' & F' & -> & HB2 & HR2 & Hu & HT & (b & Hb & Hbs) & Hlen).
    rewrite delete_insert_id in HB2, HR2, Hu by done.
    exists h', k', F'. rewrite Hk'. split_and!; try done; try lia.
    + destruct HR2 as [_ [s Hs] _]. destruct (ring_size _ _ _ _ HB2 _ Hs). cbn [fst] in *. lia.
    + eapply untouched_trans; [|exact Hu]. by eapply set_size_untouched.
    + exists b. split; [done|]. lia.
Qed.

(** The result of an allocation of [n] units. *)
Definition allocated (n : Z) (h h' : heap) (k k' : K) (F : list (Z * Z)) (A : gmap Z Z) (r : Z) : Prop :=
  exists F', blocks_ok base (ksize k') F' (<[r - UNIT := n]> A) /\ ring_ok base h' F' (<[r - UNIT := n]> A) /\
    A !! (r - UNIT) = None /\ untouched A h h' /\
    (k' = k /\ total F' + n = total F \/
     ksize k' = ksize k + UNIT * core_size n /\ ksize k' <= 2 ^ 36 /\ total F' + n = total F + core_size n).

Lemma take_allocated n h k F A l1 b c l2 : ksize k <= 2 ^ 36 -> blocks_ok base (ksize k) F A -> ring_ok base h F A ->
  (base, 0) :: F = l1 ++ b :: c :: l2 -> 0 < n <= c.2 ->
  exists r h' F', taken (take_block n b.1 c.1 h) k = Some (r, h', k) /\
    blocks_ok base (ksize k) F' (<[r - UNIT := n]> A) /\ ring_ok base h' F' (<[r - UNIT := n]> A) /\
    A !! (r - UNIT) = None /\ untouched A h h' /\ total F' + n = total F.
Proof.
  intros Hmax HB HR E Hn. destruct b as [q sq], c as [x sx].
  destruct (take_ok base (ksize k) Hbase Hmax h F A HB HR l1 q sq x sx l2 E n Hn) as (F' & r & h' & Et & H1 & H2 & H3 & H4 & H5 & _).
  exists r, h', F'. unfold taken. cbn [fst]. rewrite Et. done.
Qed.

Lemma scan_ok n h k F A fuel : ksize k <= 2 ^ 36 -> blocks_ok base (ksize k) F A -> ring_ok base h F A ->
  base + UNIT <= ksize k -> 0 < n < 2 ^ 27 -> (2 * length F + 3 <= fuel)%nat ->
  (exists r h' k', malloc_scan sbrk n (freep h) (hptr h (freep h)) h k fuel = Some (r, h', k') /\ r <> 0 /\
     allocated n h h' k k' F A r) \/
  (exists k', malloc_scan sbrk n (freep h) (hptr h (freep h)) h k fuel = Some (0, h, k') /\ ksize k' = ksize k /\
     forall b, b ∈ F -> b.2 < n).
Proof.
  intros Hmax HB HR Hk Hn Hfuel.
  assert (Hpos : forall r F' top A', blocks_ok base top F' (<[r - UNIT := n]> A') -> r <> 0).
  { intros r F' top A' HB'. destruct (bo_alloc _ _ _ _ HB' (r - UNIT) n (lookup_insert_eq _ _ _)) as (_ & ? & _). lia. }
  destruct (scan_round n h _ F A HB HR ltac:(lia)) as [(l1 & b & c & l2 & E & Hfit & Hs)|[Hsm Hs]].
  - left. rewrite Hs by lia.
    destruct (take_allocated n h k F A l1 b c l2 Hmax HB HR E ltac:(lia)) as (r & h' & F' & Et & H1 & H2 & H3 & H4 & H5).
    exists r, h', k. split; [done|]. split; [by eapply Hpos|]. exists F'. split_and!; try done. by left.
  - replace fuel with (S (length F) + (fuel - S (length F)))%nat by lia. rewrite Hs. unfold after_core.
    destruct (morecore_ok n h k F A HB HR Hk Hn) as
      [(k' & -> & Hk')|(h1 & k' & F1 & -> & Hne & Hk' & Hmax' & HB1 & HR1 & Hu1 & HT1 & Hbig & Hlen)].
    { right. exists k'. done. }
    left. rewrite (proj2 (Z.eqb_neq _ _) Hne).
    destruct (scan_round n h1 _ F1 A HB1 HR1 ltac:(lia)) as [(l1 & b & c & l2 & E & Hfit & Hs1)|[Hsm1 _]].
    + rewrite Hs1 by lia.
      destruct (take_allocated n h1 k' F1 A l1 b c l2 Hmax' HB1 HR1 E ltac:(lia)) as (r & h' & F' & Et & H1 & H2 & H3 & H4 & H5).
      exists r, h', k'. split; [done|]. split; [by eapply Hpos|]. exists F'. split_and!; try done; [by eapply untouched_trans|].
      right. split; [done|]. split; [done|]. lia.
    + destruct Hbig as (b & Hb & Hbn). specialize (Hsm1 b Hb). lia.
Qed.

Lemma heap_ready h top F A : heap_ok base h top F A ->
  let h1 := if freep h =? 0 then Heap base (<[base := Header base 0]> (hmem h)) else h in
  ring_ok base h1 F A /\ untouched A h h1.
Proof.
  intros [HB [HR|(Hf & -> & ->)]].
  - assert (Hne : freep h <> 0).
    { destruct HR as [_ [s Hs] _]. destruct (ring_size _ _ _ _ HB _ Hs). cbn [fst] in *. lia. }
    rewrite (proj2 (Z.eqb_neq _ _) Hne). split; [done|]. by intros a s x.
  - rewrite Hf. cbn [Z.eqb]. split; [|by intros a s x Ha]. split.
    + cbn. split; [done|]. exists base. by rewrite lookup_insert_eq.
    + exists 0. apply list_elem_of_here.
    + by intros a s Ha.
Qed.

Definition nunits (nbytes : Z) : Z := (nbytes + 15) / 16 + 1.

Lemma nunits_bounds nbytes : 0 <= nbytes <= 2 ^ 31 - 32 ->
  0 < nunits nbytes < 2 ^ 27 /\ nbytes <= UNIT * (nunits nbytes - 1) /\ u32 ((nbytes + UNIT - 1) / UNIT + 1) = nunits nbytes.
Proof.
  intros H. unfold nunits. replace (nbytes + UNIT - 1) with (nbytes + 15) by lia.
  pose proof (Z.div_mod (nbytes + 15) 16 ltac:(lia)). pose proof (Z.mod_pos_bound (nbytes + 15) 16 ltac:(lia)).
  split; [lia|]. split; [lia|]. apply u32_small. lia.
Qed.

Lemma malloc_ok nbytes h k F A : heap_ok base h (ksize k) F A -> base + UNIT <= ksize k -> ksize k <= 2 ^ 36 ->
  0 <= nbytes <= 2 ^ 31 - 32 ->
  exists r h' k', malloc sbrk base nbytes h k = Some (r, h', k') /\ untouched A h h' /\
    ksize k <= ksize k' <= 2 ^ 36 /\
    (r = 0 /\ ksize k' = ksize k /\ heap_ok base h' (ksize k') F A /\ (forall b, b ∈ F -> b.2 < nunits nbytes) \/
     r <> 0 /\ A !! (r - UNIT) = None /\ exists F', heap_ok base h' (ksize k') F' (<[r - UNIT := nunits nbytes]> A)).
Proof.
  intros HO Hk Hmax Hn. destruct (nunits_bounds nbytes Hn) as (Hn1 & Hn2 & Hn3).
  destruct (heap_ready h (ksize k) F A HO) as [HR Hu]. destruct HO as [HB _].
  unfold malloc. rewrite Hn3. set (h1 := if freep h =? 0 then _ else h) in *.
  pose proof (ring_length _ _ _ _ HB _ (ro_chain _ _ _ _ HR)) as Hlen. cbn [length] in Hlen.
  destruct (scan_ok (nunits nbytes) h1 k F A (2 * size (hmem h1) + 4) Hmax HB HR Hk Hn1 ltac:(lia)) as
    [(r & h' & k' & -> & Hr & F' & H1 & H2 & H3 & H4 & H5)|(k' & -> & Hk' & Hsm)].
  - exists r, h', k'. split; [done|]. split; [by eapply untouched_trans|].
    split; [|right; split; [done|]; split; [done|]; exists F'; split; [done|by left]].
    destruct H5 as [[-> _]|(Hk' & Hm' & _)]; [lia|]. split; [|done].
    unfold core_size in Hk'. destruct (nunits nbytes <? 4096); lia.
  - exists 0, h1, k'. split; [done|]. split; [done|]. split; [lia|]. left. split; [done|]. split; [done|].
    split; [|done]. rewrite Hk'. split; [done|by left].
Qed.
End MallocThms.

(** ** The theorems *)

(** [malloc] returns.  It gives a block that was not in use, of at least the size asked for, or
    0 when no free block is large enough and [sbrk] fails; the invariant of the heap is
    kept, and no header or byte of a block in use is written.  The request has to fit
    the [int] argument of [sbrk]. *)
Theorem malloc_correct {K : Type} (sbrk : Z -> K -> Z * K) (ksize : K -> Z) (base nbytes : Z) h k F A :
  SbrkOk sbrk ksize -> 0 < base -> heap_ok base h (ksize k) F A -> base + UNIT <= ksize k -> ksize k <= 2 ^ 36 ->
  0 <= nbytes <= 2 ^ 31 - 32 ->
  match malloc sbrk base nbytes h k with
  | None => False
  | Some (r, h', k') =>
      untouched A h h' /\
      if r =? 0 then
        heap_ok base h' (ksize k') F A /\ (forall b, b ∈ F -> UNIT * (b.2 - 1) < nbytes)
      else
        exists n F', nbytes <= UNIT * (n - 1) /\ A !! (r - UNIT) = None /\
          heap_ok base h' (ksize k') F' (<[r - UNIT := n]> A)
  end.
Proof.
  intros HS Hb HO Hk Hmax Hn.
  destruct (malloc_ok sbrk ksize base Hb nbytes h k F A HO Hk Hmax Hn) as
    (r & h' & k' & -> & Hu & _ & [(-> & _ & HO' & Hsm)|(Hr & HN & F' & HO')]); (split; [done|]).
  - cbn [Z.eqb]. split; [done|]. intros b Hin. specialize (Hsm b Hin). unfold nunits in Hsm.
    assert (b.2 - 1 < (nbytes + 15) / 16) as Hlt by lia. apply Z.lt_le_pred in Hlt.
    pose proof (Z.div_mod (nbytes + 15) 16 ltac:(lia)). pose proof (Z.mod_pos_bound (nbytes + 15) 16 ltac:(lia)). lia.
  - rewrite (proj2 (Z.eqb_neq _ _) Hr). exists (nunits nbytes), F'. split; [|done]. by apply nunits_bounds.
Qed.

(** [free] returns: the block goes back to the free list, merged with its neighbours, nothing is
    lost, and no header or byte of another block in use is written. *)
Theorem free_correct (base top : Z) h F A a s :
  0 < base -> top <= 2 ^ 36 -> heap_ok base h top F A -> A !! a = Some s ->
  exists h' F', free (a + UNIT) h = Some h' /\ heap_ok base h' top F' (delete a A) /\
    untouched (delete a A) h h' /\ total F' = total F + s.
Proof.
  intros Hb Htop [HB [HR|(_ & _ & ->)]] Ha; [|done].
  destruct (free_ok base top Hb Htop h F A a s HB HR Ha) as (h' & F' & Hf & HB' & HR' & Hu & HT & _).
  exists h', F'. split; [done|]. split; [split; [done|by left]|done].
Qed.

(** ** Programs that use the heap *)

Section Client.
Context {K : Type} (sbrk : Z -> K -> Z * K) (ksize : K -> Z) (base : Z).

(** [hs_live] are the payloads in use, with the sizes they were asked for. *)
Record hstate := HState { hs_heap : heap; hs_k : K; hs_live : gmap Z Z }.

(** A program may allocate, free what it has, and write to the bytes it was given: every header
    that overlaps them may change. *)
Inductive hstep : hstate -> hstate -> Prop :=
  | HMalloc h k L n r h' k' :
      0 <= n <= 2 ^ 31 - 32 -> malloc sbrk base n h k = Some (r, h', k') ->
      hstep (HState h k L) (HState h' k' (if r =? 0 then L else <[r := n]> L))
  | HFree h k L r n h' :
      L !! r = Some n -> free r h = Some h' -> hstep (HState h k L) (HState h' k (delete r L))
  | HWrite h k L r n h' :
      L !! r = Some n -> freep h' = freep h ->
      (forall x, x + UNIT <= r \/ r + n <= x -> hmem h' !! x = hmem h !! x) ->
      hstep (HState h k L) (HState h' k L).

Definition keeps (L : gmap Z Z) (h h' : heap) : Prop :=
  forall r n x, L !! r = Some n -> r - UNIT < x < r + n -> hmem h' !! x = hmem h !! x.

Record heap_safe (st : hstate) : Prop := {
  sf_inside r n : hs_live st !! r = Some n -> base + UNIT <= r /\ r + n <= ksize (hs_k st);
  sf_disjoint r n r' n' : hs_live st !! r = Some n -> hs_live st !! r' = Some n' -> r <> r' ->
    r + n <= r' \/ r' + n' <= r;
  sf_malloc n : 0 <= n <= 2 ^ 31 - 32 -> exists r h' k', malloc sbrk base n (hs_heap st) (hs_k st) = Some (r, h', k') /\
    keeps (hs_live st) (hs_heap st) h';
  sf_free r n : hs_live st !! r = Some n -> exists h', free r (hs_heap st) = Some h' /\
    keeps (delete r (hs_live st)) (hs_heap st) h'
}.

Definition live_in (L : gmap Z Z) (A : gmap Z Z) : Prop :=
  forall r n, L !! r = Some n -> exists s, A !! (r - UNIT) = Some s /\ 0 <= n <= UNIT * (s - 1).

Definition hinv (st : hstate) : Prop :=
  base + UNIT <= ksize (hs_k st) <= 2 ^ 36 /\
  exists F A, heap_ok base (hs_heap st) (ksize (hs_k st)) F A /\ live_in (hs_live st) A.

Lemma live_untouched L A h h' : live_in L A -> untouched A h h' -> keeps L h h'.
Proof.
  intros HL HU r n x Hr Hx. destruct (HL r n Hr) as (s & Hs & Hn). apply (HU (r - UNIT) s x Hs).
  unfold touches, stop. cbn [fst snd]. lia.
Qed.

Lemma live_delete L A r : live_in L A -> live_in (delete r L) (delete (r - UNIT) A).
Proof.
  intros HL r' n [Hne Hr]%lookup_delete_Some. destruct (HL r' n Hr) as (s & Hs & Hn). exists s. split; [|done].
  rewrite lookup_delete_ne; [done|lia].
Qed.

Context (HS : SbrkOk sbrk ksize) (Hbase : 0 < base).

Lemma heap_write h h' top F A a s r n : heap_ok base h top F A -> A !! a = Some s -> a = r - UNIT -> 0 <= n <= UNIT * (s - 1) ->
  freep h' = freep h -> (forall x, x + UNIT <= r \/ r + n <= x -> hmem h' !! x = hmem h !! x) -> heap_ok base h' top F A.
Proof.
  intros [HB [HR|(_ & _ & ->)]] Ha Ear Hn Hf Hx; [|done]. split; [done|]. left. destruct HR as [Hc Hfp HA].
  destruct (bo_alloc _ _ _ _ HB _ _ Ha) as (Hs & Hlow & _).
  assert (Hout : forall b t, sep (b, t) (a, s) -> 0 < t -> b + UNIT <= r \/ r + n <= b).
  { intros b t. unfold sep, stop. cbn [fst snd]. lia. }
  split.
  - eapply chain_same; [|exact Hc]. intros x t [[= -> ->]|Hin]%elem_of_cons; apply Hx; [left; lia|].
    apply (Hout x t); [by apply (bo_fa _ _ _ _ HB)|by apply (bo_free _ _ _ _ HB) in Hin as []].
  - by rewrite Hf.
  - intros b t Hb. rewrite Hx; [by apply HA|]. destruct (decide (b = a)) as [->|Hne]; [left; lia|].
    apply (Hout b t); [by apply (bo_aa _ _ _ _ HB)|by apply (bo_alloc _ _ _ _ HB) in Hb as []].
Qed.

Lemma hstep_inv st st' : hstep st st' -> hinv st -> hinv st'.
Proof.
  destruct 1 as [h k L n r h' k' Hn Hm|h k L r n h' Hr Hf|h k L r n h' Hr Hf Hx]; intros ([Hk Hmax] & F & A & HO & HL);
    cbn [hs_heap hs_k hs_live] in *.
  - destruct (malloc_ok sbrk ksize base Hbase n h k F A HO Hk Hmax Hn) as (r1 & h1 & k1 & E & _ & Hk' & Hc).
    rewrite Hm in E. injection E as <- <- <-. split; [cbn; lia|]. cbn.
    destruct Hc as [(-> & _ & HO' & _)|(Hr & HN & F' & HO')]; [by exists F, A|].
    rewrite (proj2 (Z.eqb_neq _ _) Hr). exists F', (<[r - UNIT := nunits n]> A). split; [done|].
    intros r' n' [[<- <-]|[Hne Hr']]%lookup_insert_Some.
    + exists (nunits n). split; [by rewrite lookup_insert_eq|]. split; [lia|by apply nunits_bounds].
    + destruct (HL r' n' Hr') as (s & Hs & Hn'). exists s. split; [|done]. rewrite lookup_insert_ne; [done|lia].
  - split; [done|]. destruct (HL r n Hr) as (s & Hs & Hn). cbn.
    destruct HO as [HB [HR|(_ & _ & ->)]]; [|done].
    destruct (free_ok base _ Hbase Hmax h F A _ s HB HR Hs) as (h1 & F' & Hf1 & HB' & HR' & _).
    replace (r - UNIT + UNIT) with r in Hf1 by lia. rewrite Hf in Hf1. injection Hf1 as <-.
    exists F', (delete (r - UNIT) A). split; [split; [done|by left]|by apply live_delete].
  - split; [done|]. cbn. exists F, A. split; [|done]. destruct (HL r n Hr) as (s & Hs & Hn).
    by eapply (heap_write h h' _ F A (r - UNIT) s r n).
Qed.

Lemma hinv_safe st : hinv st -> heap_safe st.
Proof.
  intros ([Hk Hmax] & F & A & HO & HL). pose proof (proj1 HO) as HB. split.
  - intros r n Hr. destruct (HL r n Hr) as (s & Hs & Hn). destruct (bo_alloc _ _ _ _ HB _ _ Hs) as (? & ? & ?).
    unfold stop in *. cbn [fst snd] in *. lia.
  - intros r n r' n' Hr Hr' Hne. destruct (HL r n Hr) as (s & Hs & Hn), (HL r' n' Hr') as (s' & Hs' & Hn').
    pose proof (bo_aa _ _ _ _ HB _ _ _ _ Hs Hs' ltac:(lia)) as Hsep. unfold sep, stop in *. cbn [fst snd] in *. lia.
  - intros n Hn. destruct (malloc_ok sbrk ksize base Hbase n _ _ F A HO Hk Hmax Hn) as (r & h' & k' & E & HU & _).
    exists r, h', k'. split; [done|by eapply live_untouched].
  - intros r n Hr. destruct (HL r n Hr) as (s & Hs & Hn). destruct HO as [_ [HR|(_ & _ & ->)]]; [|done].
    destruct (free_ok base _ Hbase Hmax _ F A _ s HB HR Hs) as (h' & F' & Hf & _ & _ & HU & _).
    exists h'. replace (r - UNIT + UNIT) with r in Hf by lia. split; [done|].
    eapply live_untouched; [by apply live_delete|done].
Qed.
End Client.

Arguments HState {K} hs_heap hs_k hs_live.

(** C36: from the start of a program that leaves [sbrk] to [malloc] on, whatever sequence of
    allocations of up to 2^31 - 32 bytes, frees and writes to its own blocks it makes, the live blocks lie inside the heap and are disjoint,
    [malloc] and [free] return, and they never change a byte of a live block. *)
Theorem heap_client_safe {K : Type} (sbrk : Z -> K -> Z * K) (ksize : K -> Z) (base : Z) k m st :
  SbrkOk sbrk ksize -> 0 < base -> base + UNIT <= ksize k <= 2 ^ 36 ->
  rtc (hstep sbrk base) (HState (Heap 0 m) k ∅) st -> heap_safe sbrk ksize base st.
Proof.
  intros HS Hb Hk Hr. apply hinv_safe; [done|done|].
  assert (H0 : hinv ksize base (HState (Heap 0 m) k ∅)).
  { split; [done|]. exists [], ∅. split; [|by intros r n]. split; [|by right]. split.
    - repeat constructor.
    - by intros b Hin%elem_of_nil.
    - by intros a s.
    - by intros b a s Hin%elem_of_nil.
    - by intros a s a' s'. }
  induction Hr as [|x y z Hxy _ IH]; [done|]. apply IH. by eapply hstep_inv.
Qed.

(** the size for [sbrk] is computed in 64 bits and passed as an [int].  For the largest request it
    comes out as 16 bytes: memory grows by one unit, and [malloc] returns a block whose
    header says that it has 2^28+1 of them. *)
Theorem malloc_huge {K : Type} (sbrk : Z -> K -> Z * K) (base top : Z) k k' :
  0 < base < top -> sbrk 16 k = (top, k') ->
  exists h', malloc sbrk base (2 ^ 32 - 1) (Heap 0 ∅) k = Some (top + UNIT, h', k') /\
    hsize h' top = 2 ^ 28 + 1.
Proof.
  intros Hb Hs. unfold malloc. change (u32 ((2 ^ 32 - 1 + UNIT - 1) / UNIT + 1)) with (2 ^ 28 + 1).
  set (N := 2 ^ 28 + 1). assert (HN : N = 268435457) by done. clearbody N.
  cbn [freep Z.eqb hmem]. rewrite map_size_insert_None, map_size_empty by apply lookup_empty.
  change (2 * 1 + 4)%nat with (S (S 4)).
  set (h0 := Heap base (<[base := Header base 0]> ∅)).
  assert (E0 : hptr h0 base = base /\ hsize h0 base = 0).
  { apply hd_at_Some. cbn. by rewrite lookup_insert_eq. }
  destruct E0 as [Ep Es]. rewrite Ep, scan_end by (rewrite ?Es; done || lia). unfold after_core, morecore.
  rewrite (proj2 (Z.ltb_ge N 4096)) by lia. replace (i32 (N * UNIT)) with 16 by (rewrite HN; done). rewrite Hs.
  rewrite (proj2 (Z.eqb_neq top (-1))) by lia.
  set (h1 := set_size top N h0).
  assert (E1 : forall q v, hmem h1 !! q = Some v -> hd_at h1 q = v) by (intros q v Hv; unfold hd_at; by rewrite Hv).
  assert (Eb : hd_at h1 base = Header base 0).
  { apply E1. cbn. rewrite lookup_insert_ne by lia. apply lookup_insert_eq. }
  assert (Et : exists v, hd_at h1 top = Header v N) by (eexists; apply E1; cbn; apply lookup_insert_eq).
  destruct Et as [v Et].
  assert (Hscan : free_scan h1 top base (size (hmem h1)) = Some base).
  { assert (exists f, size (hmem h1) = S f) as [f ->].
    { cbn. rewrite map_size_insert_None, map_size_insert_None, map_size_empty;
        [eauto|apply lookup_empty|rewrite lookup_insert_ne by lia; apply lookup_empty]. }
    cbn [free_scan]. unfold hptr. rewrite Eb. cbn [s_ptr].
    rewrite (proj2 (Z.ltb_ge top base)), (proj2 (Z.ltb_lt base top)) by lia. by rewrite Z.leb_refl. }
  rewrite (free_unfold (top + UNIT) h1 base) by (by replace (top + UNIT - UNIT) with top by lia).
  replace (top + UNIT - UNIT) with top by lia.
  assert (Eu : join_up top base h1 = put h1 top (Header base N)).
  { unfold join_up. assert (hsize h1 top = N) as -> by (unfold hsize; by rewrite Et).
    assert (hptr h1 base = base) as -> by (unfold hptr; by rewrite Eb). rewrite (proj2 (Z.eqb_neq _ base)) by lia.
    unfold set_ptr, hsize. by rewrite Et. }
  assert (Ed : join_down top base (put h1 top (Header base N)) = put (put h1 top (Header base N)) base (Header top 0)).
  { assert (Es' : hsize (put h1 top (Header base N)) base = 0).
    { unfold hsize, hd_at, put. cbn [hmem]. rewrite lookup_insert_ne by lia. unfold hd_at in Eb. by rewrite Eb. }
    unfold join_down. rewrite Es', (proj2 (Z.eqb_neq _ top)) by lia. unfold set_ptr. by rewrite Es'. }
  rewrite Eu, Ed. set (h2 := set_freep base _). cbn [freep h2 set_freep]. rewrite (proj2 (Z.eqb_neq base 0)) by lia.
  assert (Hp2 : hptr h2 base = top) by (unfold hptr, hd_at, h2; cbn; by rewrite lookup_insert_eq).
  assert (Hs2 : hsize h2 top = N).
  { unfold hsize, hd_at, h2. cbn. by rewrite lookup_insert_ne, lookup_insert_eq by lia. }
  rewrite Hp2, scan_fits by lia. unfold taken, take_block. rewrite Hs2, Z.eqb_refl. cbn [fst snd].
  eexists. split; [done|]. unfold hsize, hd_at. cbn. unfold hsize, hd_at, h2 in Hs2. cbn in Hs2.
  by rewrite lookup_insert_ne by lia.
Qed.

(** ** Witnesses *)

(** A process that may have at most a megabyte. *)
Definition mega_sbrk (n k : Z) : Z * Z := if k + n <=? 2 ^ 20 then (k, k + n) else (-1, k).

Instance mega_sbrk_ok : SbrkOk mega_sbrk (fun k => k).
Proof.
  split. intros n k Hn. unfold mega_sbrk. destruct (Z.leb_spec (k + n) (2 ^ 20)).
  - right. exists (k + n). split_and!; [done|done|lia].
  - left. by exists k.
Qed.

Lemma fresh_ok m top : heap_ok 4096 (Heap 0 m) top [] ∅.
Proof.
  split; [|by right]. split; [repeat constructor|by intros b Hin%elem_of_nil|by intros a s| |by intros a s a' s'].
  by intros b a s Hin%elem_of_nil.
Qed.

Lemma malloc_correct_witness :
  exists n F', 100 <= UNIT * (n - 1) /\ (∅ : gmap Z Z) !! (73616 - UNIT) = None /\
    exists h', heap_ok 4096 h' 73728 F' (<[73616 - UNIT := n]> ∅).
Proof.
  pose proof (malloc_correct mega_sbrk (fun k => k) 4096 100 (Heap 0 ∅) 8192 [] ∅ mega_sbrk_ok ltac:(lia)
    (fresh_ok ∅ 8192) ltac:(lia) ltac:(lia) ltac:(lia)) as H.
  assert (E : exists h', malloc mega_sbrk 4096 100 (Heap 0 ∅) 8192 = Some (73616, h', 73728)) by (eexists; vm_compute; reflexivity).
  destruct E as [h' E]. rewrite E in H. destruct H as (_ & n & F' & H1 & H2 & H3). exists n, F'. split; [done|]. split; [done|]. by exists h'.
Defined.

Definition two_blocks : heap := Heap 4096
  (<[4096 := Header 8192 0]> (<[8192 := Header 4096 2]> (<[8240 := Header 0 3]> ∅))).

Lemma two_blocks_ok : heap_ok 4096 two_blocks 12288 [(8192, 2)] {[8240 := 3]}.
Proof.
  split; [|left]; split.
  - repeat constructor.
  - intros b ->%list_elem_of_singleton. by vm_compute.
  - intros a s [<- <-]%lookup_singleton_Some. by vm_compute.
  - intros b a s ->%list_elem_of_singleton [<- <-]%lookup_singleton_Some. left. by vm_compute.
  - intros a s a' s' [<- <-]%lookup_singleton_Some [<- <-]%lookup_singleton_Some. done.
  - cbn. split; [done|]. exists 8192. split; [done|]. split; [done|]. by exists 4096.
  - exists 0. apply list_elem_of_here.
  - intros a s [<- <-]%lookup_singleton_Some. by exists 0.
Qed.

Lemma free_correct_witness : exists h' F', free (8240 + UNIT) two_blocks = Some h' /\
  heap_ok 4096 h' 12288 F' (delete 8240 {[8240 := 3]}) /\ untouched (delete 8240 {[8240 := 3]}) two_blocks h' /\
  total F' = total [(8192, 2)] + 3.
Proof. apply (free_correct 4096 12288 two_blocks [(8192, 2)] {[8240 := 3]} 8240 3); [lia|lia|apply two_blocks_ok|done]. Defined.

(** Two allocations: the second block lies below the first. *)
Lemma heap_client_safe_witness : 73600 + 0 <= 73616 \/ 73616 + 100 <= 73600.
Proof.
  assert (E1 : exists h1, malloc mega_sbrk 4096 100 (Heap 0 ∅) 8192 = Some (73616, h1, 73728) /\
    exists h2, malloc mega_sbrk 4096 0 h1 73728 = Some (73600, h2, 73728)).
  { eexists. split; [vm_compute; reflexivity|]. eexists. vm_compute. reflexivity. }
  destruct E1 as (h1 & E1 & h2 & E2).
  pose proof (heap_client_safe mega_sbrk (fun k => k) 4096 8192 ∅ (HState h2 73728 (<[73600 := 0]> (<[73616 := 100]> ∅)))
    mega_sbrk_ok ltac:(lia) ltac:(lia)) as H.
  destruct H as [_ Hd _ _].
  - eapply rtc_l; [exact (HMalloc mega_sbrk 4096 _ _ ∅ 100 73616 h1 73728 ltac:(lia) E1)|].
    eapply rtc_l; [exact (HMalloc mega_sbrk 4096 _ _ _ 0 73600 h2 73728 ltac:(lia) E2)|]. apply rtc_refl.
  - apply (Hd 73600 0 73616 100); [done|done|lia].
Defined.

Lemma malloc_huge_witness : exists h', malloc mega_sbrk 4096 (2 ^ 32 - 1) (Heap 0 ∅) 8192 = Some (8192 + UNIT, h', 8208) /\
  hsize h' 8192 = 2 ^ 28 + 1.
Proof. apply (malloc_huge mega_sbrk 4096 8192 8192 8208); [lia|reflexivity]. Defined.
