(* ===== verification/Grep.v ===== *)
(** [user/grep.c]: the matcher, and the loop that cuts its input into lines.

    A C string is the list of its characters before the terminating NUL. *)
From S2P Require Import Prelude Ulib Usys ProgThms.

Abbreviation CARET := 94.
Abbreviation DOLLAR := 36.
Abbreviation DOT := 46.
Abbreviation STAR := 42.
Abbreviation NEWLINE := 10.

(** ** The matcher *)

(** [re[0] == '.' || re[0] == *text]. *)
Definition accepts (c t : Z) : bool := (c =? DOT) || (c =? t).

(** [matchstar] for the rest of the pattern given by [here]. *)
Fixpoint matchstar (here : list Z -> bool) (c : Z) (text : list Z) : bool :=
  here text ||
  match text with
  | [] => false
  | t :: text' => if accepts c t then matchstar here c text' else false
  end.

Fixpoint matchhere (re text : list Z) : bool :=
  match re with
  | [] => true
  | c :: re1 =>
      match re1 with
      | 42 :: re2 => matchstar (matchhere re2) c text
      | _ =>
          if (c =? DOLLAR) && (match re1 with [] => true | _ => false end)
          then match text with [] => true | _ => false end
          else
            match text with
            | [] => false
            | t :: text' => if accepts c t then matchhere re1 text' else false
            end
      end
  end.

(** The [do] loop: the text from each of its positions, the end included. *)
Fixpoint match_any (re text : list Z) : bool :=
  matchhere re text ||
  match text with
  | [] => false
  | _ :: text' => match_any re text'
  end.

Definition match_re (re text : list Z) : bool :=
  match re with
  | 94 :: re' => matchhere re' text
  | _ => match_any re text
  end.

(** ** The language of a pattern *)

(** A pattern matches at the beginning of a text. *)
Inductive Here : list Z -> list Z -> Prop :=
  | H_nil text : Here [] text
  | H_star c re pre post :
      Forall (fun t => c = DOT \/ c = t) pre -> Here re post -> Here (c :: STAR :: re) (pre ++ post)
  | H_end : Here [DOLLAR] []
  | H_one c re t text :
      head re <> Some STAR -> (c, re) <> (DOLLAR, []) -> c = DOT \/ c = t -> Here re text ->
      Here (c :: re) (t :: text).

Lemma accepts_spec c t : accepts c t = true <-> c = DOT \/ c = t.
Proof. unfold accepts. rewrite orb_true_iff, !Z.eqb_eq. done. Qed.

Lemma matchstar_spec here c text :
  matchstar here c text = true <->
  exists pre post, text = pre ++ post /\ Forall (fun t => c = DOT \/ c = t) pre /\ here post = true.
Proof.
  induction text as [|t text IH]; cbn [matchstar]; rewrite orb_true_iff.
  - split.
    + intros [H|H]; [|done]. by exists [], [].
    + intros (pre & post & E & _ & H). left. by destruct pre, post.
  - split.
    + intros [H|H]; [by exists [], (t :: text)|].
      destruct (accepts c t) eqn:E; [|done]. apply IH in H as (pre & post & -> & Hp & H).
      exists (t :: pre), post. split; [done|]. split; [|done]. constructor; [by apply accepts_spec|done].
    + intros (pre & post & E & Hp & H). destruct pre as [|t' pre]; [left; by rewrite E|]. right.
      injection E as <- ->. inversion Hp; subst. rewrite (proj2 (accepts_spec c t)) by done.
      apply IH. by exists pre, post.
Qed.

(** The equation of [matchhere] for a pattern that does not start with a starred
    character. *)
Lemma matchhere_one c re text :
  head re <> Some STAR ->
  matchhere (c :: re) text =
    if (c =? DOLLAR) && bool_decide (re = []) then bool_decide (text = [])
    else match text with [] => false | t :: text' => if accepts c t then matchhere re text' else false end.
Proof.
  intros Hs. destruct re as [|r re]; [by destruct text|]. cbn [matchhere].
  assert (r <> 42) by (cbn in Hs; congruence).
  rewrite (bool_decide_eq_false_2 (r :: re = [])) by done. by repeat case_match.
Qed.

(** One step of the pattern: a character that is not starred. *)
Lemma here_one c re t text :
  head re <> Some STAR -> (c, re) <> (DOLLAR, []) ->
  (forall text, matchhere re text = true <-> Here re text) ->
  (if accepts c t then matchhere re text else false) = true <-> Here (c :: re) (t :: text).
Proof.
  intros Hs Hd IH. split.
  - destruct (accepts c t) eqn:E; [|done]. intros H%IH. by constructor; [..|apply accepts_spec|].
  - inversion 1; subst; [done|]. rewrite (proj2 (accepts_spec c t)) by done. by apply IH.
Qed.

Lemma here_nil c re : head re <> Some STAR -> (c, re) <> (DOLLAR, []) -> ~ Here (c :: re) [].
Proof. intros Hs Hd. inversion 1; subst; [done|by destruct Hd]. Qed.

Lemma matchhere_spec n : forall re text,
  (length re <= n)%nat -> matchhere re text = true <-> Here re text.
Proof.
  induction n as [|n IH]; intros re text Hn.
  { destruct re; [split; [constructor|done]|cbn in Hn; lia]. }
  destruct re as [|c re]; [split; [constructor|done]|]. cbn [length] in Hn.
  destruct (decide (head re = Some STAR)) as [Hs|Hs].
  - destruct re as [|r re]; [done|]. injection Hs as ->. cbn [length] in Hn.
    change (matchhere (c :: STAR :: re) text) with (matchstar (matchhere re) c text).
    rewrite matchstar_spec. split.
    + intros (pre & post & -> & Hp & H). constructor; [done|]. apply IH; [lia|done].
    + inversion 1; subst; [|done]. exists pre, post. split; [done|]. split; [done|]. apply IH; [lia|done].
  - rewrite matchhere_one by done.
    destruct ((c =? DOLLAR) && bool_decide (re = [])) eqn:E.
    + apply andb_true_iff in E as [->%Z.eqb_eq ->%bool_decide_eq_true]. rewrite bool_decide_eq_true.
      split; [intros ->; constructor|]. by inversion 1; subst.
    + assert ((c, re) <> (DOLLAR, [])) as Hd by (intros [= -> ->]; by rewrite bool_decide_eq_true_2 in E).
      destruct text as [|t text].
      * split; [done|]. by intros H%here_nil.
      * apply here_one; [done..|]. intros text'. apply IH. lia.
Qed.

Lemma match_any_spec re text :
  match_any re text = true <-> exists pre post, text = pre ++ post /\ Here re post.
Proof.
  induction text as [|t text IH]; cbn [match_any]; rewrite orb_true_iff, (matchhere_spec (length re)) by done.
  - split; [intros [H|H]; [by exists [], []|done]|]. intros (pre & post & E & H). left. by destruct pre, post.
  - split.
    + intros [H|H]; [by exists [], (t :: text)|]. apply IH in H as (pre & post & -> & H).
      by exists (t :: pre), post.
    + intros (pre & post & E & H). destruct pre as [|t' pre]; [left; by rewrite E|]. right.
      injection E as <- ->. apply IH. by exists pre, post.
Qed.

(** C37: [matchhere] decides whether the pattern matches at the beginning of the text,
    and [match] whether it does at the beginning (after a caret) or anywhere. *)
Theorem match_correct re text :
  (matchhere re text = true <-> Here re text) /\
  (match_re re text = true <->
   match re with
   | 94 :: re' => Here re' text
   | _ => exists pre post, text = pre ++ post /\ Here re post
   end).
Proof.
  split; [by apply (matchhere_spec (length re))|].
  destruct re as [|c re]; [apply match_any_spec|]. unfold match_re.
  destruct (decide (c = 94)) as [->|Hc]; [by apply (matchhere_spec (length re))|].
  by repeat (case_match; try apply match_any_spec).
Qed.

(** ** Lines *)

(** The inner [while], which ends with the text from [p] on.  Every round drops a character at
    least. *)
Fixpoint grep_lines (pattern p : list Z) (fuel : nat) : prog (list Z) :=
  match strchr p NEWLINE, fuel with
  | Some q, S fuel' =>
      (if match_re pattern (take q p) then call (Write 1 (take (S q) p)) ;; Ret tt else Ret tt) ;;
      grep_lines pattern (drop (S q) p) fuel'
  | Some _, O => Spin
  | None, _ => Ret p
  end.

Abbreviation BUFSZ := 1024.

(** [held] are the [m] bytes kept in the buffer. *)
Fixpoint grep_loop (pattern : list Z) (fd : Z) (held : list Z) (fuel : nat) : prog unit :=
  match fuel with
  | O => Spin
  | S fuel' =>
      '(n, bs) ← call (Read fd (BUFSZ - Z.of_nat (length held) - 1));
      if 0 <? n then
        let buf := held ++ take (Z.to_nat n) bs in
        p ← grep_lines pattern buf (length buf);
        grep_loop pattern fd p fuel'
      else Ret tt
  end.

Definition grep (pattern : list Z) (fd : Z) (fuel : nat) : prog unit := grep_loop pattern fd [] fuel.

Fixpoint grep_files (pattern : list Z) (files : list (list Z)) (fuel : nat) : prog Z :=
  match files with
  | [] => Exit 0
  | f :: files' =>
      fd ← call (Open f 0);
      if fd <? 0 then
        printf (line_of "grep: cannot open %s") [UStr (Some f)] ;;
        Exit 1
      else
        grep pattern fd fuel ;;
        call (Close fd) ;;
        grep_files pattern files' fuel
  end.

Definition grep_main (argv : list (list Z)) (fuel : nat) : prog Z :=
  match argv with
  | [] | [_] =>
      fprintf 2 (line_of "usage: grep pattern [file ...]") [] ;;
      Exit 1
  | [_; pattern] => grep (cstring pattern) 0 fuel ;; Exit 0
  | _ :: pattern :: files => grep_files (cstring pattern) files fuel
  end.

(** ** The lines of a text *)

(** The lines that end in a newline, without it, and what is left. *)
Fixpoint lines_of (s : list Z) : list (list Z) * list Z :=
  match s with
  | [] => ([], [])
  | c :: s' =>
      let '(ls, r) := lines_of s' in
      if c =? NEWLINE then ([] :: ls, r)
      else match ls with [] => ([], c :: r) | l :: ls' => ((c :: l) :: ls', r) end
  end.

(** The matching lines, each with its newline. *)
Definition selected (pattern : list Z) (ls : list (list Z)) : list Z :=
  flat_map (fun l => if match_re pattern l then l ++ [NEWLINE] else []) ls.

(** A text has no NUL. *)
Abbreviation no_nul := (Forall (fun c => c <> 0)).

Lemma strchr_none p : no_nul p -> strchr p NEWLINE = None -> lines_of p = ([], p).
Proof.
  induction 1 as [|c p Hc Hp IH]; [done|]. cbn. rewrite (proj2 (Z.eqb_neq _ _) Hc).
  destruct (c =? NEWLINE); [done|]. destruct (strchr p NEWLINE); [done|]. intros _. by rewrite IH.
Qed.

Lemma strchr_some p : forall q, strchr p NEWLINE = Some q ->
  (q < length p)%nat /\ take (S q) p = take q p ++ [NEWLINE] /\
  lines_of p = (take q p :: (lines_of (drop (S q) p)).1, (lines_of (drop (S q) p)).2).
Proof.
  induction p as [|c p IH]; intros q; [done|]. cbn [strchr]. destruct (c =? 0); [done|].
  destruct (Z.eqb_spec c NEWLINE) as [->|Hc].
  - intros [= <-]. cbn [drop take length app]. rewrite take_0, drop_0. split; [lia|]. split; [done|].
    cbn [lines_of]. by destruct (lines_of p).
  - destruct (strchr p NEWLINE) as [q'|]; [|done]. intros [= <-]. destruct (IH q' eq_refl) as (Hl & Ht & E).
    cbn [length]. split; [lia|]. split; [change (c :: take (S q') p = c :: (take q' p ++ [NEWLINE])); by rewrite Ht|].
    cbn [lines_of]. rewrite E. apply Z.eqb_neq in Hc. by rewrite Hc.
Qed.

Lemma lines_app a b :
  lines_of (a ++ b) =
  ((lines_of a).1 ++ (lines_of ((lines_of a).2 ++ b)).1, (lines_of ((lines_of a).2 ++ b)).2).
Proof.
  induction a as [|c a IH]; [cbn; by destruct (lines_of b)|].
  change ((c :: a) ++ b) with (c :: (a ++ b)). cbn [lines_of]. rewrite IH.
  destruct (lines_of a) as [ls r]. cbn [fst snd]. destruct (Z.eqb_spec c NEWLINE) as [->|Hc]; [done|].
  destruct ls as [|l ls]; [|done]. cbn [fst snd app lines_of].
  apply Z.eqb_neq in Hc. rewrite Hc. by destruct (lines_of (r ++ b)) as [[|? ?] ?].
Qed.

Lemma lines_rest_free s : lines_of (lines_of s).2 = ([], (lines_of s).2).
Proof.
  induction s as [|c s IH]; [done|]. cbn [lines_of]. destruct (lines_of s) as [ls r].
  destruct (Z.eqb_spec c NEWLINE) as [->|Hc]; [done|]. destruct ls as [|l ls]; [|done].
  cbn [snd lines_of] in *. rewrite IH. apply Z.eqb_neq in Hc. by rewrite Hc.
Qed.

Lemma lines_rest_nul s : no_nul s -> no_nul (lines_of s).2.
Proof.
  induction 1 as [|c s Hc Hs IH]; [constructor|]. cbn [lines_of]. destruct (lines_of s) as [ls r].
  destruct (c =? NEWLINE); [done|]. destruct ls; [|done]. cbn [snd] in *. by constructor.
Qed.

(** No line, complete or not, is longer than the buffer allows. *)
Definition short_lines (s : list Z) : Prop :=
  Forall (fun l => (length l <= 1022)%nat) ((lines_of s).1 ++ [(lines_of s).2]).

Lemma lines_free_app a b :
  lines_of a = ([], a) ->
  lines_of (a ++ b) =
  match (lines_of b).1 with
  | [] => ([], a ++ (lines_of b).2)
  | l :: ls => ((a ++ l) :: ls, (lines_of b).2)
  end.
Proof.
  induction a as [|c a IH]; intros Ha; [cbn; by destruct (lines_of b) as [[|? ?] ?]|].
  cbn [lines_of app] in *. destruct (lines_of a) as [la ra] eqn:Ea.
  destruct (c =? NEWLINE) eqn:Hc; [done|]. destruct la; [|done]. injection Ha as ->.
  rewrite IH by done. by destruct (lines_of b) as [[|? ?] ?].
Qed.

Lemma short_held a b : lines_of a = ([], a) -> short_lines (a ++ b) -> (length a <= 1022)%nat.
Proof.
  intros Ha. unfold short_lines. rewrite (lines_free_app a b Ha).
  destruct (lines_of b) as [[|l ls] r]; cbn [fst snd app]; intros H;
    inversion H as [|? ? H1 _]; rewrite length_app in H1; lia.
Qed.

Section Run.
Context {S : Type} (h : forall R, sysc R -> S -> R * S) (inp out : S -> Z -> list Z) `{!FdOk h inp out}.

(** Only [l] has been written to the standard output, and nothing read. *)
Definition wrote (s : S) (l : list Z) (s' : S) : Prop :=
  out s' 1 = out s 1 ++ l /\ (forall fd, fd <> 1 -> out s' fd = out s fd) /\ (forall fd, inp s' fd = inp s fd).

Lemma wrote_trans s1 l1 s2 l2 s3 : wrote s1 l1 s2 -> wrote s2 l2 s3 -> wrote s1 (l1 ++ l2) s3.
Proof.
  intros (A1 & A2 & A3) (B1 & B2 & B3). split; [by rewrite B1, A1, app_assoc|]. split.
  - intros fd H. by rewrite B2, A2.
  - intros fd. by rewrite B3, A3.
Qed.

Lemma grep_lines_run pattern fuel : forall p s,
  no_nul p -> (length p <= fuel)%nat ->
  exists s', run h (grep_lines pattern p fuel) s = (Done (lines_of p).2, s') /\
    wrote s (selected pattern (lines_of p).1) s'.
Proof.
  induction fuel as [|fuel IH]; intros p s Hz Hp.
  - destruct p; [|cbn in Hp; lia]. exists s. split; [done|]. split; [by rewrite app_nil_r|done].
  - cbn [grep_lines]. destruct (strchr p NEWLINE) as [q|] eqn:E.
    + destruct (strchr_some p q E) as (Hq & Ht & ->). cbn [fst snd]. rewrite run_bind.
      cbn [selected flat_map]. destruct (match_re pattern (take q p)).
      * rewrite run_call. destruct (fd_write 1 (take (Datatypes.S q) p) s) as (s1 & -> & H1 & H2 & H3). cbn [run].
        destruct (IH (drop (Datatypes.S q) p) s1) as (s2 & -> & W); [by apply Forall_drop|rewrite length_drop; lia|].
        exists s2. split; [done|]. rewrite <-Ht. eapply wrote_trans, W. done.
      * cbn [run app]. destruct (IH (drop (Datatypes.S q) p) s) as (s2 & -> & W);
          [by apply Forall_drop|rewrite length_drop; lia|]. by exists s2.
    + rewrite (strchr_none p Hz E). exists s. split; [done|]. split; [by rewrite app_nil_r|done].
Qed.

Lemma grep_loop_run pattern fd fuel : forall held s,
  no_nul (held ++ inp s fd) -> lines_of held = ([], held) -> short_lines (held ++ inp s fd) ->
  (length (inp s fd) < fuel)%nat ->
  exists s', run h (grep_loop pattern fd held fuel) s = (Done tt, s') /\
    out s' 1 = out s 1 ++ selected pattern (lines_of (held ++ inp s fd)).1 /\
    (forall fd', fd' <> 1 -> out s' fd' = out s fd').
Proof.
  induction fuel as [|fuel IH]; intros held s Hz Hh Hs Hf; [lia|]. cbn [grep_loop]. rewrite run_call.
  pose proof (short_held held _ Hh Hs) as Hl.
  destruct (fd_read fd (BUFSZ - Z.of_nat (length held) - 1) s ltac:(lia)) as (l & s1 & -> & Hin & Hlen & Hend & Hout).
  destruct (decide (l = [])) as [->|Hne].
  { exists s1. split; [done|]. rewrite (Hend eq_refl), app_nil_r, Hh. cbn. rewrite app_nil_r. split; [apply Hout|done]. }
  assert (Hpos : (0 < length l)%nat) by (destruct l; [done|cbn; lia]).
  rewrite (proj2 (Z.ltb_lt 0 _)) by lia. rewrite Nat2Z.id, firstn_all, run_bind.
  rewrite Hin, app_assoc in Hz, Hs |- *. apply Forall_app in Hz as [Hz1 Hz2].
  destruct (grep_lines_run pattern (length (held ++ l)) (held ++ l) s1 Hz1 ltac:(done)) as (s2 & -> & W1 & W2 & W3).
  unfold short_lines in Hs. rewrite (lines_app (held ++ l)) in Hs |- *. cbn [fst snd] in *.
  destruct (IH (lines_of (held ++ l)).2 s2) as (s3 & -> & G1 & G2).
  - rewrite W3. apply Forall_app. split; [by apply lines_rest_nul|done].
  - apply lines_rest_free.
  - rewrite W3. unfold short_lines. rewrite <- app_assoc in Hs. by apply Forall_app in Hs as [_ ?].
  - rewrite W3. rewrite Hin, length_app in Hf. lia.
  - exists s3. split; [done|]. split.
    + rewrite G1, W1, W3, Hout, <-app_assoc. unfold selected. by rewrite flat_map_app.
    + intros fd' H. by rewrite G2, W2, Hout.
Qed.
End Run.

(** C38: [grep] prints the lines that match, each with its newline, in order, whatever
    sizes the reads return, as long as the input has no NUL and no line is longer than its
    buffer; the part of the input after the last newline is not looked at. *)
Theorem grep_correct {S : Type} (h : forall R, sysc R -> S -> R * S) (inp out : S -> Z -> list Z) pattern fd fuel s :
  FdOk h inp out -> no_nul (inp s fd) -> short_lines (inp s fd) -> (length (inp s fd) < fuel)%nat ->
  exists s', run h (grep pattern fd fuel) s = (Done tt, s') /\
    out s' 1 = out s 1 ++ selected pattern (lines_of (inp s fd)).1 /\
    (forall fd', fd' <> 1 -> out s' fd' = out s fd').
Proof. intros H Hz Hs Hf. by apply (grep_loop_run h inp out pattern fd fuel []). Qed.

(** "ab", "cd" and an unfinished "ab", read in pieces of three bytes. *)
Definition grep_in : mini := Mini (fun _ => [97; 98; 10; 99; 100; 10; 97; 98]) (fun _ => []).

Lemma grep_correct_witness :
  exists s', run mini_call (grep [97] 0 20) grep_in = (Done tt, s') /\ mi_out s' 1 = [] ++ [97; 98; 10].
Proof.
  destruct (grep_correct mini_call mi_in mi_out [97] 0 20 grep_in mini_fd) as (s' & Hr & Ho & _).
  - repeat constructor; discriminate.
  - repeat constructor; apply Nat.leb_le; reflexivity.
  - cbn. lia.
  - by exists s'.
Defined.
