(* ===== verification/Grind.v ===== *)
(** [user/grind.c]: system calls at random, for ever, and its random numbers.

    The program's variables that live across rounds are a record; the endless loops take the
    number of rounds to run. *)
From S2P Require Import Prelude Ulib Usys.

Abbreviation O_RDWR := 2.
Abbreviation O_CREATE := 0x200.

(** ** Random numbers *)

(** The state after the call and the number returned. *)
Definition do_rand (ctx : Z) : Z * Z :=
  let x := ctx mod 0x7ffffffe + 1 in
  let hi := x / 127773 in
  let lo := x mod 127773 in
  let x := 16807 * lo - 2836 * hi in
  let x := if x <? 0 then x + 0x7fffffff else x in
  let x := x - 1 in
  (u64 x, i32 x).

Record gst := GSt {
  g_fd : Z;
  g_buf : list Z;
  g_iters : Z;
  g_rand : Z
}.

Definition rand (s : gst) : Z * gst :=
  let '(next, x) := do_rand (g_rand s) in (x, GSt (g_fd s) (g_buf s) (g_iters s) next).

(** ** One round of [go] *)

Definition set_fd (fd : Z) (s : gst) : gst := GSt fd (g_buf s) (g_iters s) (g_rand s).

Definition open_create (path : list Z) : prog Z := call (Open path (Z.lor O_CREATE O_RDWR)).
Definition touch (path : list Z) : prog unit := fd ← open_create path; call (Close fd) ;; Ret tt.
Definition abort_with {A} (msg : string) : prog A := printf (line_of msg) [] ;; Exit 1.

(** The choices from 1 to 12: files and directories. *)
Definition go_files (what : Z) (s : gst) : prog gst :=
  if what =? 1 then touch (str "grindir/../a") ;; Ret s
  else if what =? 2 then touch (str "grindir/../grindir/../b") ;; Ret s
  else if what =? 3 then call (Unlink (str "grindir/../a")) ;; Ret s
  else if what =? 4 then
    r ← call (Chdir (str "grindir"));
    if negb (r =? 0) then abort_with "grind: chdir grindir failed"
    else
      call (Unlink (str "../b")) ;;
      call (Chdir (str "/")) ;;
      Ret s
  else if what =? 5 then
    call (Close (g_fd s)) ;;
    fd ← open_create (str "/grindir/../a");
    Ret (set_fd fd s)
  else if what =? 6 then
    call (Close (g_fd s)) ;;
    fd ← open_create (str "/./grindir/./../b");
    Ret (set_fd fd s)
  else if what =? 7 then call (Write (g_fd s) (g_buf s)) ;; Ret s
  else if what =? 8 then
    '(n, l) ← call (Read (g_fd s) 999);
    let n := Z.to_nat n in
    Ret (GSt (g_fd s) (take n l ++ drop n (g_buf s)) (g_iters s) (g_rand s))
  else if what =? 9 then
    call (Mkdir (str "grindir/../a")) ;;
    touch (str "a/../a/./a") ;;
    call (Unlink (str "a/a")) ;;
    Ret s
  else if what =? 10 then
    call (Mkdir (str "/../b")) ;;
    touch (str "grindir/../b/b") ;;
    call (Unlink (str "b/b")) ;;
    Ret s
  else if what =? 11 then
    call (Unlink (str "b")) ;;
    call (Link (str "../grindir/./../a") (str "../b")) ;;
    Ret s
  else if what =? 12 then
    call (Unlink (str "../grindir/../a")) ;;
    call (Link (str ".././b") (str "/grindir/../a")) ;;
    Ret s
  else Ret s.

(** 15 and 16: memory. *)
Definition go_mem (break0 what : Z) (s : gst) : prog gst :=
  if what =? 15 then call (Sbrk 6011) ;; Ret s
  else if what =? 16 then
    b ← call (Sbrk 0);
    if break0 <? b then
      b ← call (Sbrk 0);
      call (Sbrk (i32 (- (b - break0)))) ;;
      Ret s
    else Ret s
  else Ret s.

(** The child runs [child], the parent [parent]; a failed [fork] ends the program. *)
Definition with_child (child : prog gst) (parent : Z -> prog gst) : prog gst :=
  pid ← call Fork;
  if pid =? 0 then child
  else if pid <? 0 then abort_with "grind: fork failed"
  else parent pid.

(** 13 and 14: processes that do nothing. *)
Definition go_forks (what : Z) (s : gst) : prog gst :=
  if what =? 13 then with_child (Exit 0) (fun _ => call Wait ;; Ret s)
  else if what =? 14 then
    with_child (call Fork ;; call Fork ;; Exit 0) (fun _ => call Wait ;; Ret s)
  else Ret s.

(** From 17 to 20: processes that race with their parent. *)
Definition go_procs (what : Z) (s : gst) : prog gst :=
  if what =? 17 then
    with_child (touch (str "a") ;; Exit 0) (fun pid =>
      r ← call (Chdir (str "../grindir/.."));
      if negb (r =? 0) then abort_with "grind: chdir failed"
      else
        call (Kill pid) ;;
        call Wait ;;
        Ret s)
  else if what =? 18 then
    with_child (me ← call Getpid; call (Kill me) ;; Exit 0) (fun _ => call Wait ;; Ret s)
  else if what =? 19 then
    '(e, (p0, p1)) ← call PipeC;
    if e <? 0 then abort_with "grind: pipe failed"
    else
      with_child
        (call Fork ;;
         call Fork ;;
         w ← call (Write p1 (str "x"));
         (if negb (w =? 1) then printf (line_of "grind: pipe write failed") [] else Ret tt) ;;
         '(r, _) ← call (Read p0 1);
         (if negb (r =? 1) then printf (line_of "grind: pipe read failed") [] else Ret tt) ;;
         Exit 0)
        (fun _ =>
         call (Close p0) ;;
         call (Close p1) ;;
         call Wait ;;
         Ret s)
  else if what =? 20 then
    with_child
      (call (Unlink (str "a")) ;;
       call (Mkdir (str "a")) ;;
       call (Chdir (str "a")) ;;
       call (Unlink (str "../a")) ;;
       open_create (str "x") ;;
       call (Unlink (str "x")) ;;
       Exit 0)
      (fun _ => call Wait ;; Ret s)
  else Ret s.

(** Choice 21: a file can always be created. *)
Definition go_create (s : gst) : prog gst :=
  call (Unlink (str "c")) ;;
  fd1 ← open_create (str "c");
  if fd1 <? 0 then abort_with "grind: create c failed"
  else
    w ← call (Write fd1 (str "x"));
    if negb (w =? 1) then abort_with "grind: write c failed"
    else
      '(r, st) ← call (Fstat fd1);
      if negb (r =? 0) then abort_with "grind: fstat failed"
      else if negb (us_size st =? 1) then
        printf (line_of "grind: fstat reports wrong size %d") [UNum (i32 (us_size st))] ;; Exit 1
      else if 200 <? us_ino st then
        printf (line_of "grind: fstat reports crazy i-number %d") [UNum (us_ino st)] ;; Exit 1
      else
        call (Close fd1) ;;
        call (Unlink (str "c")) ;;
        Ret s.

Definition fail {A} (msg : string) (status : Z) : prog A := fprintf 2 (line_of msg) [] ;; Exit status.

(** Choice 22: [echo hi | cat].  The two children. *)
Definition go_echo (a0 a1 b0 b1 : Z) : prog gst :=
  call (Close b0) ;;
  call (Close b1) ;;
  call (Close a0) ;;
  call (Close 1) ;;
  d ← call (Dup a1);
  if negb (d =? 1) then fail "grind: dup failed" 1
  else
    call (Close a1) ;;
    call (Exec (str "grindir/../echo") [str "echo"; str "hi"]) ;;
    fail "grind: echo: not found" 2.

Definition go_cat (a0 a1 b0 b1 : Z) : prog gst :=
  call (Close a1) ;;
  call (Close b0) ;;
  call (Close 0) ;;
  d ← call (Dup a0);
  if negb (d =? 0) then fail "grind: dup failed" 4
  else
    call (Close a0) ;;
    call (Close 1) ;;
    d ← call (Dup b1);
    if negb (d =? 1) then fail "grind: dup failed" 5
    else
      call (Close b1) ;;
      call (Exec (str "/cat") [str "cat"]) ;;
      fail "grind: cat: not found" 6.

(** One [read] of one byte into [buf], which is zero before. *)
Definition read1 (fd : Z) : prog Z := '(n, l) ← call (Read fd 1); Ret (if 0 <? n then char_at l 0 else 0).

(** The parent reads what comes out.  [st1] and [st2] are what [wait] stored. *)
Definition go_collect (a0 a1 b0 b1 : Z) (s : gst) : prog gst :=
  call (Close a0) ;;
  call (Close a1) ;;
  call (Close b1) ;;
  c0 ← read1 b0;
  c1 ← read1 b0;
  c2 ← read1 b0;
  call (Close b0) ;;
  '(_, st1) ← call Wait;
  '(_, st2) ← call Wait;
  let buf := [c0; c1; c2; 0] in
  if negb (st1 =? 0) || negb (st2 =? 0) || negb (strcmp buf (line_of "hi") =? 0) then
    printf (str "grind: exec pipeline failed %d %d " ++ [34] ++ str "%s" ++ [34; 10])
      [UNum st1; UNum st2; UStr (Some buf)] ;;
    Exit 1
  else Ret s.

Definition go_pipeline (s : gst) : prog gst :=
  '(e, (a0, a1)) ← call PipeC;
  if e <? 0 then fail "grind: pipe failed" 1
  else
    '(e, (b0, b1)) ← call PipeC;
    if e <? 0 then fail "grind: pipe failed" 1
    else
      pid1 ← call Fork;
      if pid1 =? 0 then go_echo a0 a1 b0 b1
      else if pid1 <? 0 then fail "grind: fork failed" 3
      else
        pid2 ← call Fork;
        if pid2 =? 0 then go_cat a0 a1 b0 b1
        else if pid2 <? 0 then fail "grind: fork failed" 7
        else go_collect a0 a1 b0 b1 s.

Definition go_round (which_child : bool) (break0 : Z) (s : gst) : prog gst :=
  let s := GSt (g_fd s) (g_buf s) (u64 (g_iters s + 1)) (g_rand s) in
  (if g_iters s mod 500 =? 0 then call (Write 1 (str (if which_child then "B" else "A"))) ;; Ret tt else Ret tt) ;;
  let '(r, s) := rand s in
  let what := Z.rem r 23 in
  s ← go_files what s;
  s ← go_forks what s;
  s ← go_mem break0 what s;
  s ← go_procs what s;
  if what =? 21 then go_create s
  else if what =? 22 then go_pipeline s
  else Ret s.

Fixpoint go_loop (which_child : bool) (break0 : Z) (s : gst) (rounds : nat) : prog unit :=
  match rounds with
  | O => Spin
  | S rounds' => s ← go_round which_child break0 s; go_loop which_child break0 s rounds'
  end.

Definition go (which_child : bool) (rand_next : Z) (rounds : nat) : prog unit :=
  break0 ← call (Sbrk 0);
  call (Mkdir (str "grindir")) ;;
  r ← call (Chdir (str "grindir"));
  if negb (r =? 0) then abort_with "grind: chdir grindir failed"
  else
    call (Chdir (str "/")) ;;
    go_loop which_child break0 (GSt (-1) (replicate 999 0) 0 rand_next) rounds.

(** ** [iter] and [main] *)

(** [wait] stores the status only when there was a child. *)
Definition wait_for (st : Z) : prog Z := '(r, st') ← call Wait; Ret (if r <? 0 then st else st').

Definition iter (rand_next : Z) (rounds : nat) : prog Z :=
  call (Unlink (str "a")) ;;
  call (Unlink (str "b")) ;;
  pid1 ← call Fork;
  if pid1 <? 0 then abort_with "grind: fork failed"
  else if pid1 =? 0 then go false (Z.lxor rand_next 31) rounds ;; Exit 0
  else
    pid2 ← call Fork;
    if pid2 <? 0 then abort_with "grind: fork failed"
    else if pid2 =? 0 then go true (Z.lxor rand_next 7177) rounds ;; Exit 0
    else
      st1 ← wait_for (-1);
      (if negb (st1 =? 0) then call (Kill pid1) ;; call (Kill pid2) ;; Ret tt else Ret tt) ;;
      st2 ← wait_for (-1);
      Exit 0.

Fixpoint grind_loop (rand_next : Z) (rounds k : nat) : prog Z :=
  match k with
  | O => Spin
  | S k' =>
      pid ← call Fork;
      if pid =? 0 then iter rand_next rounds ;; Exit 0
      else
        (if 0 <? pid then call Wait ;; Ret tt else Ret tt) ;;
        call (Sleep 20) ;;
        grind_loop (u64 (rand_next + 1)) rounds k'
  end.
Definition grind_main (rounds k : nat) : prog Z := grind_loop 1 rounds k.

(** ** The random numbers are those of the article *)

Abbreviation MODULUS := (2 ^ 31 - 1).

(** Schrage's way to multiply; the product is never a multiple of the modulus. *)
Lemma park_miller x : 1 <= x < MODULUS ->
  let y := 16807 * (x mod 127773) - 2836 * (x / 127773) in
  (if y <? 0 then y + MODULUS else y) = (16807 * x) mod MODULUS /\
  1 <= (16807 * x) mod MODULUS /\ - 2 ^ 31 <= y < 2 ^ 31.
Proof.
  intros Hx y. pose proof (Z.div_mod x 127773 ltac:(lia)) as E. pose proof (Z.mod_pos_bound x 127773 ltac:(lia)) as Hm.
  set (hi := x / 127773) in *. set (lo := x mod 127773) in *. assert (Hhi : 0 <= hi <= 16807) by lia.
  assert (Ey : 16807 * x = y + MODULUS * hi) by (unfold y; lia).
  assert (Hy : - MODULUS < y < MODULUS) by (unfold y; lia).
  assert (Hne : y mod MODULUS <> 0).
  { intros H. assert (D : (MODULUS | 16807 * x)).
    { apply Z.mod_divide; [done|]. rewrite Ey, Z.mul_comm, Z_mod_plus_full. done. }
    apply Z.gauss in D; [|by vm_compute]. apply Z.divide_pos_le in D; lia. }
  rewrite Ey, (Z.mul_comm MODULUS hi), Z_mod_plus_full.
  assert (Em : (if y <? 0 then y + MODULUS else y) = y mod MODULUS).
  { destruct (Z.ltb_spec y 0).
    - apply Z.mod_unique with (q := -1); lia.
    - symmetry. apply Z.mod_small. lia. }
  split; [done|]. split; [|lia]. pose proof (Z.mod_pos_bound y MODULUS ltac:(lia)). lia.
Qed.

(** [do_rand] computes [16807 * x mod (2^31 - 1)] for [x] between 1 and [2^31 - 2], as its
    comment says, without leaving the 32-bit numbers on the way; the state and the result
    are that number less one, between 0 and [2^31 - 3]. *)
Theorem do_rand_correct ctx :
  let x := ctx mod 0x7ffffffe + 1 in
  let r := (16807 * x) mod MODULUS - 1 in
  do_rand ctx = (r, r) /\ 0 <= r <= 0x7ffffffd.
Proof.
  intros x r. pose proof (Z.mod_pos_bound ctx 0x7ffffffe ltac:(lia)).
  destruct (park_miller x) as (E & H1 & _); [unfold x; lia|].
  pose proof (Z.mod_pos_bound (16807 * x) MODULUS ltac:(lia)).
  unfold do_rand. fold x. change 0x7fffffff with MODULUS. cbv zeta in E |- *. rewrite E. fold r.
  rewrite u64_small, i32_small by (unfold r; lia). split; [done|unfold r; lia].
Qed.
