(* ===== verification/Usertests.v ===== *)
(** [user/usertests.c]: tests that use files and directories, tests that use processes and
    memory, and the program that runs them.

    A test takes the name it is listed under, and returns if it found nothing wrong.  [buf] is
    the program's global buffer, which holds zeros when a test starts.  A test whose
    loop ends when a system call says so takes a bound for its rounds; [for(;;);] is
    [Spin].  The lists of tests are arguments, pairs of a test and its name. *)
From S2P Require Import Prelude Ulib Usys.

Abbreviation O_RDONLY := 0.
Abbreviation O_WRONLY := 1.
Abbreviation O_RDWR := 2.
Abbreviation O_CREATE := 0x200.
Abbreviation O_TRUNC := 0x400.
Abbreviation BSIZE := 1024.
Abbreviation MAXFILE := 268%nat.
Abbreviation MAXPATH := 128%nat.
Abbreviation PGSIZE := 4096.
(** [sizeof(buf)], and the buffer at the start of a test. *)
Abbreviation BUFSZ := 12288.
Abbreviation buf := (replicate (Z.to_nat BUFSZ) 0).

(** Print a message and [exit(1)]; most messages begin with the test's name. *)
Abbreviation quit msg args := (printf (line_of msg) args ;; Exit 1).
Abbreviation fails s msg := (printf (line_of msg) [UStr (Some s)] ;; Exit 1).
Abbreviation failed s msg := (printf (str msg) [UStr (Some s)] ;; Exit 1).

(** ** Bad pointers *)

Definition copyin (s : list Z) : prog unit :=
  for_each [0x80000000; 0x3fffffe000; 0x3ffffff000; 0x4000000000; 0xffffffffffffffff] (fun addr =>
    fd ← call (Open (str "copyin1") (Z.lor O_CREATE O_WRONLY));
    when (fd <? 0) (quit "open(copyin1) failed" []) ;;
    n ← call (WriteFrom fd addr 8192);
    when (0 <=? n) (quit "write(fd, %p, 8192) returned %d, not -1" [UNum addr; UNum n]) ;;
    call (Close fd) ;;
    call (Unlink (str "copyin1")) ;;
    n ← call (WriteFrom 1 addr 8192);
    when (0 <? n) (quit "write(1, %p, 8192) returned %d, not -1 or 0" [UNum addr; UNum n]) ;;
    '(r, (fds0, fds1)) ← call PipeC;
    when (r <? 0) (quit "pipe() failed" []) ;;
    n ← call (WriteFrom fds1 addr 8192);
    when (0 <? n) (quit "write(pipe, %p, 8192) returned %d, not -1 or 0" [UNum addr; UNum n]) ;;
    call (Close fds0) ;;
    call (Close fds1) ;;
    Ret tt).

Definition copyout (s : list Z) : prog unit :=
  for_each [0; 0x80000000; 0x3fffffe000; 0x3ffffff000; 0x4000000000; 0xffffffffffffffff] (fun addr =>
    fd ← call (Open (str "README") 0);
    when (fd <? 0) (quit "open(README) failed" []) ;;
    n ← call (ReadInto fd addr 8192);
    when (0 <? n) (quit "read(fd, %p, 8192) returned %d, not -1 or 0" [UNum addr; UNum n]) ;;
    call (Close fd) ;;
    '(r, (fds0, fds1)) ← call PipeC;
    when (r <? 0) (quit "pipe() failed" []) ;;
    n ← call (Write fds1 (str "x"));
    when (negb (n =? 1)) (quit "pipe write failed" []) ;;
    n ← call (ReadInto fds0 addr 8192);
    when (0 <? n) (quit "read(pipe, %p, 8192) returned %d, not -1 or 0" [UNum addr; UNum n]) ;;
    call (Close fds0) ;;
    call (Close fds1) ;;
    Ret tt).

(** The messages about [exec] print [fd]. *)
Definition copyinstr2 (s : list Z) : prog unit :=
  let b := replicate MAXPATH 120 in
  ret ← call (Unlink b);
  when (negb (ret =? -1)) (quit "unlink(%s) returned %d, not -1" [UStr (Some b); UNum ret]) ;;
  fd ← call (Open b (Z.lor O_CREATE O_WRONLY));
  when (negb (fd =? -1)) (quit "open(%s) returned %d, not -1" [UStr (Some b); UNum fd]) ;;
  ret ← call (Link b b);
  when (negb (ret =? -1)) (quit "link(%s, %s) returned %d, not -1" [UStr (Some b); UStr (Some b); UNum ret]) ;;
  ret ← call (Exec b [str "xx"]);
  when (negb (ret =? -1)) (quit "exec(%s) returned %d, not -1" [UStr (Some b); UNum fd]) ;;
  pid ← call Fork;
  when (pid <? 0) (quit "fork failed" []) ;;
  when (pid =? 0) (
    let big := replicate (Z.to_nat PGSIZE) 120 in
    ret ← call (Exec (str "echo") [big; big; big]);
    when (negb (ret =? -1)) (quit "exec(echo, BIG) returned %d, not -1" [UNum fd]) ;;
    Exit 747) ;;
  '(_, st) ← call Wait;
  when (negb (st =? 747)) (quit "exec(echo, BIG) succeeded, should have failed" []).

Definition rwsbrk (s : list Z) : prog unit :=
  a ← call (Sbrk 8192);
  when (u64 a =? 0xffffffffffffffff) (quit "sbrk(rwsbrk) failed" []) ;;
  r ← call (Sbrk (-8192));
  when (u64 r =? 0xffffffffffffffff) (quit "sbrk(rwsbrk) shrink failed" []) ;;
  fd ← call (Open (str "rwsbrk") (Z.lor O_CREATE O_WRONLY));
  when (fd <? 0) (quit "open(rwsbrk) failed" []) ;;
  n ← call (WriteFrom fd (u64 (a + 4096)) 1024);
  when (0 <=? n) (quit "write(fd, %p, 1024) returned %d, not -1" [UNum (a + 4096); UNum n]) ;;
  call (Close fd) ;;
  call (Unlink (str "rwsbrk")) ;;
  fd ← call (Open (str "README") O_RDONLY);
  when (fd <? 0) (quit "open(rwsbrk) failed" []) ;;
  n ← call (ReadInto fd (u64 (a + 4096)) 10);
  when (0 <=? n) (quit "read(fd, %p, 10) returned %d, not -1" [UNum (a + 4096); UNum n]) ;;
  call (Close fd) ;;
  Exit 0.

(** ** Truncation *)

Definition truncate1 (s : list Z) : prog unit :=
  let path := str "truncfile" in
  call (Unlink path) ;;
  fd1 ← call (Open path (Z.lor O_CREATE (Z.lor O_WRONLY O_TRUNC)));
  call (Write fd1 (str "abcd")) ;;
  call (Close fd1) ;;
  fd2 ← call (Open path O_RDONLY);
  '(n, _) ← call (Read fd2 32);
  when (negb (n =? 4)) (quit "%s: read %d bytes, wanted 4" [UStr (Some s); UNum n]) ;;
  fd1 ← call (Open path (Z.lor O_WRONLY O_TRUNC));
  fd3 ← call (Open path O_RDONLY);
  '(n, _) ← call (Read fd3 32);
  when (negb (n =? 0)) (
    printf (line_of "aaa fd3=%d") [UNum fd3] ;;
    quit "%s: read %d bytes, wanted 0" [UStr (Some s); UNum n]) ;;
  '(n, _) ← call (Read fd2 32);
  when (negb (n =? 0)) (
    printf (line_of "bbb fd2=%d") [UNum fd2] ;;
    quit "%s: read %d bytes, wanted 0" [UStr (Some s); UNum n]) ;;
  call (Write fd1 (str "abcdef")) ;;
  '(n, _) ← call (Read fd3 32);
  when (negb (n =? 6)) (quit "%s: read %d bytes, wanted 6" [UStr (Some s); UNum n]) ;;
  '(n, _) ← call (Read fd2 32);
  when (negb (n =? 2)) (quit "%s: read %d bytes, wanted 2" [UStr (Some s); UNum n]) ;;
  call (Unlink path) ;;
  call (Close fd1) ;;
  call (Close fd2) ;;
  call (Close fd3) ;;
  Ret tt.

Definition truncate3 (s : list Z) : prog unit :=
  let path := str "truncfile" in
  fd ← call (Open path (Z.lor O_CREATE (Z.lor O_TRUNC O_WRONLY)));
  call (Close fd) ;;
  pid ← call Fork;
  when (pid <? 0) (fails s "%s: fork failed") ;;
  when (pid =? 0) (
    for_upto 100 (fun _ =>
      fd ← call (Open path O_WRONLY);
      when (fd <? 0) (fails s "%s: open failed") ;;
      n ← call (Write fd (str "1234567890"));
      when (negb (n =? 10)) (quit "%s: write got %d, expected 10" [UStr (Some s); UNum n]) ;;
      call (Close fd) ;;
      fd ← call (Open path O_RDONLY);
      call (Read fd 32) ;;
      call (Close fd) ;;
      Ret tt) ;;
    Exit 0) ;;
  for_upto 150 (fun _ =>
    fd ← call (Open path (Z.lor O_CREATE (Z.lor O_WRONLY O_TRUNC)));
    when (fd <? 0) (fails s "%s: open failed") ;;
    n ← call (Write fd (str "xxx"));
    when (negb (n =? 3)) (quit "%s: write got %d, expected 3" [UStr (Some s); UNum n]) ;;
    call (Close fd) ;;
    Ret tt) ;;
  '(_, xstatus) ← call Wait;
  call (Unlink path) ;;
  Exit xstatus.

(** ** Reading and writing *)

Definition writetest (s : list Z) : prog unit :=
  fd ← call (Open (str "small") (Z.lor O_CREATE O_RDWR));
  when (fd <? 0) (fails s "%s: error: creat small failed!") ;;
  for_upto 100 (fun i =>
    r ← call (Write fd (str "aaaaaaaaaa"));
    when (negb (r =? 10)) (quit "%s: error: write aa %d new file failed" [UStr (Some s); UNum i]) ;;
    r ← call (Write fd (str "bbbbbbbbbb"));
    when (negb (r =? 10)) (quit "%s: error: write bb %d new file failed" [UStr (Some s); UNum i])) ;;
  call (Close fd) ;;
  fd ← call (Open (str "small") O_RDONLY);
  when (fd <? 0) (fails s "%s: error: open small failed!") ;;
  '(i, _) ← call (Read fd 2000);
  when (negb (i =? 2000)) (fails s "%s: read failed") ;;
  call (Close fd) ;;
  r ← call (Unlink (str "small"));
  when (r <? 0) (fails s "%s: unlink small failed").

(** The first [int] of the buffer numbers the blocks. *)
Definition writebig (s : list Z) (fuel : nat) : prog unit :=
  fd ← call (Open (str "big") (Z.lor O_CREATE O_RDWR));
  when (fd <? 0) (fails s "%s: error: creat big failed!") ;;
  for_upto MAXFILE (fun i =>
    r ← call (Write fd (take (Z.to_nat BSIZE) (put32 buf 0 i)));
    when (negb (r =? BSIZE)) (quit "%s: error: write big file failed i=%d" [UStr (Some s); UNum i])) ;;
  call (Close fd) ;;
  fd ← call (Open (str "big") O_RDONLY);
  when (fd <? 0) (fails s "%s: error: open big failed!") ;;
  loop fuel (fun '(n, b) =>
    '(i, l) ← call (Read fd BSIZE);
    let b := refill b i l in
    if i =? 0 then
      when (negb (n =? Z.of_nat MAXFILE)) (
        printf (str "%s: read only %d blocks from big") [UStr (Some s); UNum n] ;;
        Exit 1) ;;
      Ret (inr tt)
    else if negb (i =? BSIZE) then quit "%s: read failed %d" [UStr (Some s); UNum i]
    else if negb (get32 b 0 =? n) then
      quit "%s: read content of block %d is %d" [UStr (Some s); UNum n; UNum (get32 b 0)]
    else Ret (inl (n + 1, b))) (0, put32 buf 0 (Z.of_nat MAXFILE - 1)) ;;
  call (Close fd) ;;
  r ← call (Unlink (str "big"));
  when (r <? 0) (fails s "%s: unlink big failed").

(** The child does not return from [exec] unless it fails; the bytes of [buf] that [read] does not
    write are not looked at.  [xstatus] has no value before [wait] writes it. *)
Definition exectest (s : list Z) : prog unit :=
  call (Unlink (str "echo-ok")) ;;
  pid ← call Fork;
  when (pid <? 0) (fails s "%s: fork failed") ;;
  when (pid =? 0) (
    call (Close 1) ;;
    fd ← call (Open (str "echo-ok") (Z.lor O_CREATE O_WRONLY));
    when (fd <? 0) (fails s "%s: create failed") ;;
    when (negb (fd =? 1)) (fails s "%s: wrong fd") ;;
    r ← call (Exec (str "echo") [str "echo"; str "OK"]);
    when (r <? 0) (fails s "%s: exec echo failed")) ;;
  '(w, xstatus) ← call Wait;
  when (negb (w =? pid)) (printf (line_of "%s: wait failed!") [UStr (Some s)]) ;;
  when (negb (xstatus =? 0)) (Exit xstatus) ;;
  fd ← call (Open (str "echo-ok") O_RDONLY);
  when (fd <? 0) (fails s "%s: open failed") ;;
  '(n, l) ← call (Read fd 2);
  when (negb (n =? 2)) (fails s "%s: read failed") ;;
  call (Unlink (str "echo-ok")) ;;
  if (char_at l 0 =? 79) && (char_at l 1 =? 75) then Exit 0
  else fails s "%s: wrong output".

(** Both processes write through the same descriptor.  The counting loop looks at the whole
    buffer, whatever [read] returned. *)
Definition sharedfd (s : list Z) (fuel : nat) : prog unit :=
  call (Unlink (str "sharedfd")) ;;
  fd ← call (Open (str "sharedfd") (Z.lor O_CREATE O_RDWR));
  when (fd <? 0) (failed s "%s: cannot open sharedfd for writing") ;;
  pid ← call Fork;
  let b := replicate 10 (if pid =? 0 then 99 else 112) in
  for_upto 1000 (fun _ =>
    r ← call (Write fd b);
    when (negb (r =? 10)) (fails s "%s: write sharedfd failed")) ;;
  when (pid =? 0) (Exit 0) ;;
  '(_, xstatus) ← call Wait;
  when (negb (xstatus =? 0)) (Exit xstatus) ;;
  call (Close fd) ;;
  fd ← call (Open (str "sharedfd") 0);
  when (fd <? 0) (fails s "%s: cannot open sharedfd for reading") ;;
  '(nc, np) ← loop fuel (fun '(nc, np, b) =>
    '(n, l) ← call (Read fd 10);
    let b := refill b n l in
    let count (c : Z) := Z.of_nat (length (List.filter (fun x => x =? c) b)) in
    if 0 <? n then Ret (inl (nc + count 99, np + count 112, b))
    else Ret (inr (nc, np))) (0, 0, b);
  call (Close fd) ;;
  call (Unlink (str "sharedfd")) ;;
  if (nc =? 10000) && (np =? 10000) then Exit 0
  else fails s "%s: nc/np test fails".

Definition fourfiles (s : list Z) (fuel : nat) : prog unit :=
  let fname (i : Z) := str "f" ++ [48 + i] in
  for_upto 4 (fun pi =>
    call (Unlink (fname pi)) ;;
    pid ← call Fork;
    when (pid <? 0) (fails s "%s: fork failed") ;;
    when (pid =? 0) (
      fd ← call (Open (fname pi) (Z.lor O_CREATE O_RDWR));
      when (fd <? 0) (fails s "%s: create failed") ;;
      for_upto 12 (fun _ =>
        n ← call (Write fd (replicate 500 (48 + pi)));
        when (negb (n =? 500)) (quit "write failed %d" [UNum n])) ;;
      Exit 0)) ;;
  for_upto 4 (fun _ =>
    '(_, xstatus) ← call Wait;
    when (negb (xstatus =? 0)) (Exit xstatus)) ;;
  for_upto 4 (fun i =>
    fd ← call (Open (fname i) 0);
    total ← loop fuel (fun total =>
      '(n, l) ← call (Read fd BUFSZ);
      if 0 <? n then
        if forallb (fun c => c =? 48 + i) (take (Z.to_nat n) l) then Ret (inl (total + n))
        else fails s "%s: wrong char"
      else Ret (inr total)) 0;
    call (Close fd) ;;
    when (negb (total =? 6000)) (quit "wrong length %d" [UNum total]) ;;
    call (Unlink (fname i)) ;;
    Ret tt).

(** [char] is unsigned; the data never exceed 19. *)
Definition bigfile (s : list Z) (fuel : nat) : prog unit :=
  call (Unlink (str "bigfile.dat")) ;;
  fd ← call (Open (str "bigfile.dat") (Z.lor O_CREATE O_RDWR));
  when (fd <? 0) (failed s "%s: cannot create bigfile") ;;
  for_upto 20 (fun i =>
    r ← call (Write fd (replicate 600 i));
    when (negb (r =? 600)) (fails s "%s: write bigfile failed")) ;;
  call (Close fd) ;;
  fd ← call (Open (str "bigfile.dat") 0);
  when (fd <? 0) (fails s "%s: cannot open bigfile") ;;
  total ← loop fuel (fun '(i, total) =>
    '(cc, l) ← call (Read fd 300);
    if cc <? 0 then fails s "%s: read bigfile failed"
    else if cc =? 0 then Ret (inr total)
    else if negb (cc =? 300) then fails s "%s: short read bigfile"
    else if negb (char_at l 0 =? i / 2) || negb (char_at l 299 =? i / 2) then fails s "%s: read bigfile wrong data"
    else Ret (inl (i + 1, total + cc))) (0, 0);
  call (Close fd) ;;
  when (negb (total =? 12000)) (fails s "%s: read bigfile wrong total") ;;
  call (Unlink (str "bigfile.dat")) ;;
  Ret tt.

(** ** Names *)

Definition createdelete (s : list Z) : prog unit :=
  let name (pi i : Z) := [112 + pi; 48 + i] in
  for_upto 4 (fun pi =>
    pid ← call Fork;
    when (pid <? 0) (fails s "%s: fork failed") ;;
    when (pid =? 0) (
      for_upto 20 (fun i =>
        fd ← call (Open (name pi i) (Z.lor O_CREATE O_RDWR));
        when (fd <? 0) (fails s "%s: create failed") ;;
        call (Close fd) ;;
        when ((0 <? i) && (i mod 2 =? 0)) (
          r ← call (Unlink (name pi (i / 2)));
          when (r <? 0) (fails s "%s: unlink failed"))) ;;
      Exit 0)) ;;
  for_upto 4 (fun _ =>
    '(_, xstatus) ← call Wait;
    when (negb (xstatus =? 0)) (Exit 1)) ;;
  for_upto 20 (fun i =>
    for_upto 4 (fun pi =>
      fd ← call (Open (name pi i) 0);
      (if ((i =? 0) || (10 <=? i)) && (fd <? 0) then
         quit "%s: oops createdelete %s didn't exist" [UStr (Some s); UStr (Some (name pi i))]
       else when ((1 <=? i) && (i <? 10) && (0 <=? fd)) (
         quit "%s: oops createdelete %s did exist" [UStr (Some s); UStr (Some (name pi i))])) ;;
      when (0 <=? fd) (call (Close fd) ;; Ret tt))) ;;
  for_upto 20 (fun i =>
    for_upto 4 (fun pi =>
      call (Unlink (name pi i)) ;;
      Ret tt)).

Definition unlinkread (s : list Z) : prog unit :=
  let path := str "unlinkread" in
  fd ← call (Open path (Z.lor O_CREATE O_RDWR));
  when (fd <? 0) (fails s "%s: create unlinkread failed") ;;
  call (Write fd (str "hello")) ;;
  call (Close fd) ;;
  fd ← call (Open path O_RDWR);
  when (fd <? 0) (fails s "%s: open unlinkread failed") ;;
  r ← call (Unlink path);
  when (negb (r =? 0)) (fails s "%s: unlink unlinkread failed") ;;
  fd1 ← call (Open path (Z.lor O_CREATE O_RDWR));
  call (Write fd1 (str "yyy")) ;;
  call (Close fd1) ;;
  '(n, l) ← call (Read fd BUFSZ);
  let b := refill buf n l in
  when (negb (n =? 5)) (failed s "%s: unlinkread read failed") ;;
  when (negb (char_at b 0 =? 104)) (fails s "%s: unlinkread wrong data") ;;
  r ← call (Write fd (take 10 b));
  when (negb (r =? 10)) (fails s "%s: unlinkread write failed") ;;
  call (Close fd) ;;
  call (Unlink path) ;;
  Ret tt.

Definition linktest (s : list Z) : prog unit :=
  let lf1 := str "lf1" in
  let lf2 := str "lf2" in
  call (Unlink lf1) ;;
  call (Unlink lf2) ;;
  fd ← call (Open lf1 (Z.lor O_CREATE O_RDWR));
  when (fd <? 0) (fails s "%s: create lf1 failed") ;;
  r ← call (Write fd (str "hello"));
  when (negb (r =? 5)) (fails s "%s: write lf1 failed") ;;
  call (Close fd) ;;
  r ← call (Link lf1 lf2);
  when (r <? 0) (fails s "%s: link lf1 lf2 failed") ;;
  call (Unlink lf1) ;;
  r ← call (Open lf1 0);
  when (0 <=? r) (fails s "%s: unlinked lf1 but it is still there!") ;;
  fd ← call (Open lf2 0);
  when (fd <? 0) (fails s "%s: open lf2 failed") ;;
  '(n, _) ← call (Read fd BUFSZ);
  when (negb (n =? 5)) (fails s "%s: read lf2 failed") ;;
  call (Close fd) ;;
  r ← call (Link lf2 lf2);
  when (0 <=? r) (fails s "%s: link lf2 lf2 succeeded! oops") ;;
  call (Unlink lf2) ;;
  r ← call (Link lf2 lf1);
  when (0 <=? r) (fails s "%s: link non-existent succeeded! oops") ;;
  r ← call (Link (str ".") lf1);
  when (0 <=? r) (fails s "%s: link . lf1 succeeded! oops").

(** [de] is what the directory entry holds before the first [read]. *)
Definition concreate (s : list Z) (de : list Z) (fuel : nat) : prog unit :=
  let file (i : Z) := [67; 48 + i] in
  for_upto 40 (fun i =>
    call (Unlink (file i)) ;;
    pid ← call Fork;
    (if negb (pid =? 0) && (i mod 3 =? 1) then call (Link (str "C0") (file i)) ;; Ret tt
     else if (pid =? 0) && (i mod 5 =? 1) then call (Link (str "C0") (file i)) ;; Ret tt
     else
       fd ← call (Open (file i) (Z.lor O_CREATE O_RDWR));
       when (fd <? 0) (quit "concreate create %s failed" [UStr (Some (file i))]) ;;
       call (Close fd) ;;
       Ret tt) ;;
    if pid =? 0 then Exit 0
    else
      '(_, xstatus) ← call Wait;
      when (negb (xstatus =? 0)) (Exit 1)) ;;
  fd ← call (Open (str ".") 0);
  n ← loop fuel (fun '(fa, n, de) =>
    '(r, l) ← call (Read fd 16);
    if 0 <? r then
      let de := refill de r l in
      let name := drop 2 de in
      if getu16 de 0 =? 0 then Ret (inl (fa, n, de))
      else if (char_at name 0 =? 67) && (char_at name 2 =? 0) then
        let i := char_at name 1 - 48 in
        if (i <? 0) || (40 <=? i) then quit "%s: concreate weird file %s" [UStr (Some s); UStr (Some name)]
        else if negb (nth (Z.to_nat i) fa 0 =? 0) then
          quit "%s: concreate duplicate file %s" [UStr (Some s); UStr (Some name)]
        else Ret (inl (<[Z.to_nat i := 1]> fa, n + 1, de))
      else Ret (inl (fa, n, de))
    else Ret (inr n)) (replicate 40 0, 0, de);
  call (Close fd) ;;
  when (negb (n =? 40)) (fails s "%s: concreate not enough files in directory listing") ;;
  for_upto 40 (fun i =>
    pid ← call Fork;
    when (pid <? 0) (fails s "%s: fork failed") ;;
    (if ((i mod 3 =? 0) && (pid =? 0)) || ((i mod 3 =? 1) && negb (pid =? 0)) then
       for_upto 6 (fun _ => fd ← call (Open (file i) 0); call (Close fd) ;; Ret tt)
     else for_upto 6 (fun _ => call (Unlink (file i)) ;; Ret tt)) ;;
    if pid =? 0 then Exit 0 else call Wait ;; Ret tt).

(** [subdir] up to the last [chdir]. *)
Definition subdir_make (s : list Z) : prog unit :=
  call (Unlink (str "ff")) ;;
  r ← call (Mkdir (str "dd"));
  when (negb (r =? 0)) (fails s "%s: mkdir dd failed") ;;
  fd ← call (Open (str "dd/ff") (Z.lor O_CREATE O_RDWR));
  when (fd <? 0) (fails s "%s: create dd/ff failed") ;;
  call (Write fd (str "ff")) ;;
  call (Close fd) ;;
  r ← call (Unlink (str "dd"));
  when (0 <=? r) (fails s "%s: unlink dd (non-empty dir) succeeded!") ;;
  r ← call (Mkdir (str "/dd/dd"));
  when (negb (r =? 0)) (fails s "%s: subdir mkdir dd/dd failed") ;;
  fd ← call (Open (str "dd/dd/ff") (Z.lor O_CREATE O_RDWR));
  when (fd <? 0) (fails s "%s: create dd/dd/ff failed") ;;
  call (Write fd (str "FF")) ;;
  call (Close fd) ;;
  fd ← call (Open (str "dd/dd/../ff") 0);
  when (fd <? 0) (fails s "%s: open dd/dd/../ff failed") ;;
  '(cc, l) ← call (Read fd BUFSZ);
  when (negb (cc =? 2) || negb (char_at (refill buf cc l) 0 =? 102)) (fails s "%s: dd/dd/../ff wrong content") ;;
  call (Close fd) ;;
  r ← call (Link (str "dd/dd/ff") (str "dd/dd/ffff"));
  when (negb (r =? 0)) (fails s "%s: link dd/dd/ff dd/dd/ffff failed") ;;
  r ← call (Unlink (str "dd/dd/ff"));
  when (negb (r =? 0)) (fails s "%s: unlink dd/dd/ff failed") ;;
  r ← call (Open (str "dd/dd/ff") O_RDONLY);
  when (0 <=? r) (fails s "%s: open (unlinked) dd/dd/ff succeeded") ;;
  r ← call (Chdir (str "dd"));
  when (negb (r =? 0)) (fails s "%s: chdir dd failed") ;;
  r ← call (Chdir (str "dd/../../dd"));
  when (negb (r =? 0)) (fails s "%s: chdir dd/../../dd failed") ;;
  r ← call (Chdir (str "dd/../../../dd"));
  when (negb (r =? 0)) (fails s "%s: chdir dd/../../../dd failed") ;;
  r ← call (Chdir (str "./.."));
  when (negb (r =? 0)) (fails s "%s: chdir ./.. failed").

(** The rest of it. *)
Definition subdir (s : list Z) : prog unit :=
  subdir_make s ;;
  fd ← call (Open (str "dd/dd/ffff") 0);
  when (fd <? 0) (fails s "%s: open dd/dd/ffff failed") ;;
  '(n, _) ← call (Read fd BUFSZ);
  when (negb (n =? 2)) (fails s "%s: read dd/dd/ffff wrong len") ;;
  call (Close fd) ;;
  r ← call (Open (str "dd/dd/ff") O_RDONLY);
  when (0 <=? r) (fails s "%s: open (unlinked) dd/dd/ff succeeded!") ;;
  r ← call (Open (str "dd/ff/ff") (Z.lor O_CREATE O_RDWR));
  when (0 <=? r) (fails s "%s: create dd/ff/ff succeeded!") ;;
  r ← call (Open (str "dd/xx/ff") (Z.lor O_CREATE O_RDWR));
  when (0 <=? r) (fails s "%s: create dd/xx/ff succeeded!") ;;
  r ← call (Open (str "dd") O_CREATE);
  when (0 <=? r) (fails s "%s: create dd succeeded!") ;;
  r ← call (Open (str "dd") O_RDWR);
  when (0 <=? r) (fails s "%s: open dd rdwr succeeded!") ;;
  r ← call (Open (str "dd") O_WRONLY);
  when (0 <=? r) (fails s "%s: open dd wronly succeeded!") ;;
  r ← call (Link (str "dd/ff/ff") (str "dd/dd/xx"));
  when (r =? 0) (fails s "%s: link dd/ff/ff dd/dd/xx succeeded!") ;;
  r ← call (Link (str "dd/xx/ff") (str "dd/dd/xx"));
  when (r =? 0) (fails s "%s: link dd/xx/ff dd/dd/xx succeeded!") ;;
  r ← call (Link (str "dd/ff") (str "dd/dd/ffff"));
  when (r =? 0) (fails s "%s: link dd/ff dd/dd/ffff succeeded!") ;;
  r ← call (Mkdir (str "dd/ff/ff"));
  when (r =? 0) (fails s "%s: mkdir dd/ff/ff succeeded!") ;;
  r ← call (Mkdir (str "dd/xx/ff"));
  when (r =? 0) (fails s "%s: mkdir dd/xx/ff succeeded!") ;;
  r ← call (Mkdir (str "dd/dd/ffff"));
  when (r =? 0) (fails s "%s: mkdir dd/dd/ffff succeeded!") ;;
  r ← call (Unlink (str "dd/xx/ff"));
  when (r =? 0) (fails s "%s: unlink dd/xx/ff succeeded!") ;;
  r ← call (Unlink (str "dd/ff/ff"));
  when (r =? 0) (fails s "%s: unlink dd/ff/ff succeeded!") ;;
  r ← call (Chdir (str "dd/ff"));
  when (r =? 0) (fails s "%s: chdir dd/ff succeeded!") ;;
  r ← call (Chdir (str "dd/xx"));
  when (r =? 0) (fails s "%s: chdir dd/xx succeeded!") ;;
  r ← call (Unlink (str "dd/dd/ffff"));
  when (negb (r =? 0)) (fails s "%s: unlink dd/dd/ff failed") ;;
  r ← call (Unlink (str "dd/ff"));
  when (negb (r =? 0)) (fails s "%s: unlink dd/ff failed") ;;
  r ← call (Unlink (str "dd"));
  when (r =? 0) (fails s "%s: unlink non-empty dd succeeded!") ;;
  r ← call (Unlink (str "dd/dd"));
  when (r <? 0) (fails s "%s: unlink dd/dd failed") ;;
  r ← call (Unlink (str "dd"));
  when (r <? 0) (fails s "%s: unlink dd failed").

(** A name is cut after 14 characters. *)
Definition fourteen (s : list Z) : prog unit :=
  r ← call (Mkdir (str "12345678901234"));
  when (negb (r =? 0)) (fails s "%s: mkdir 12345678901234 failed") ;;
  r ← call (Mkdir (str "12345678901234/123456789012345"));
  when (negb (r =? 0)) (fails s "%s: mkdir 12345678901234/123456789012345 failed") ;;
  fd ← call (Open (str "123456789012345/123456789012345/123456789012345") O_CREATE);
  when (fd <? 0) (fails s "%s: create 123456789012345/123456789012345/123456789012345 failed") ;;
  call (Close fd) ;;
  fd ← call (Open (str "12345678901234/12345678901234/12345678901234") 0);
  when (fd <? 0) (fails s "%s: open 12345678901234/12345678901234/12345678901234 failed") ;;
  call (Close fd) ;;
  r ← call (Mkdir (str "12345678901234/12345678901234"));
  when (r =? 0) (fails s "%s: mkdir 12345678901234/12345678901234 succeeded!") ;;
  r ← call (Mkdir (str "123456789012345/12345678901234"));
  when (r =? 0) (fails s "%s: mkdir 12345678901234/123456789012345 succeeded!") ;;
  call (Unlink (str "123456789012345/12345678901234")) ;;
  call (Unlink (str "12345678901234/12345678901234")) ;;
  call (Unlink (str "12345678901234/12345678901234/12345678901234")) ;;
  call (Unlink (str "123456789012345/123456789012345/123456789012345")) ;;
  call (Unlink (str "12345678901234/123456789012345")) ;;
  call (Unlink (str "12345678901234")) ;;
  Ret tt.

Definition dirfile (s : list Z) : prog unit :=
  fd ← call (Open (str "dirfile") O_CREATE);
  when (fd <? 0) (fails s "%s: create dirfile failed") ;;
  call (Close fd) ;;
  r ← call (Chdir (str "dirfile"));
  when (r =? 0) (fails s "%s: chdir dirfile succeeded!") ;;
  fd ← call (Open (str "dirfile/xx") 0);
  when (0 <=? fd) (fails s "%s: create dirfile/xx succeeded!") ;;
  fd ← call (Open (str "dirfile/xx") O_CREATE);
  when (0 <=? fd) (fails s "%s: create dirfile/xx succeeded!") ;;
  r ← call (Mkdir (str "dirfile/xx"));
  when (r =? 0) (fails s "%s: mkdir dirfile/xx succeeded!") ;;
  r ← call (Unlink (str "dirfile/xx"));
  when (r =? 0) (fails s "%s: unlink dirfile/xx succeeded!") ;;
  r ← call (Link (str "README") (str "dirfile/xx"));
  when (r =? 0) (fails s "%s: link to dirfile/xx succeeded!") ;;
  r ← call (Unlink (str "dirfile"));
  when (negb (r =? 0)) (fails s "%s: unlink dirfile failed!") ;;
  fd ← call (Open (str ".") O_RDWR);
  when (0 <=? fd) (fails s "%s: open . for writing succeeded!") ;;
  fd ← call (Open (str ".") 0);
  r ← call (Write fd (str "x"));
  when (0 <? r) (fails s "%s: write . succeeded!") ;;
  call (Close fd) ;;
  Ret tt.

(** ** Large directories and a full disk *)

Definition bigdir (s : list Z) : prog unit :=
  let name (i : Z) := [120; 48 + i / 64; 48 + i mod 64] in
  call (Unlink (str "bd")) ;;
  fd ← call (Open (str "bd") O_CREATE);
  when (fd <? 0) (fails s "%s: bigdir create failed") ;;
  call (Close fd) ;;
  for_upto 500 (fun i =>
    r ← call (Link (str "bd") (name i));
    when (negb (r =? 0))
      (quit "%s: bigdir i=%d link(bd, %s) failed" [UStr (Some s); UNum i; UStr (Some (name i))])) ;;
  call (Unlink (str "bd")) ;;
  for_upto 500 (fun i =>
    r ← call (Unlink (name i));
    when (negb (r =? 0)) (failed s "%s: bigdir unlink failed")).

Definition manywrites (s : list Z) : prog unit :=
  for_upto 4 (fun ci =>
    pid ← call Fork;
    when (pid <? 0) (quit "fork failed" []) ;;
    when (pid =? 0) (
      let name := [98; 97 + ci] in
      call (Unlink name) ;;
      for_upto 30 (fun _ =>
        for_upto (Z.to_nat (ci + 1)) (fun _ =>
          fd ← call (Open name (Z.lor O_CREATE O_RDWR));
          when (fd <? 0) (quit "%s: cannot create %s" [UStr (Some s); UStr (Some name)]) ;;
          cc ← call (Write fd buf);
          when (negb (cc =? BUFSZ)) (quit "%s: write(%d) ret %d" [UStr (Some s); UNum BUFSZ; UNum cc]) ;;
          call (Close fd) ;;
          Ret tt) ;;
        call (Unlink name) ;;
        Ret tt) ;;
      call (Unlink name) ;;
      Exit 0)) ;;
  for_upto 4 (fun _ =>
    '(_, st) ← call Wait;
    when (negb (st =? 0)) (Exit st)) ;;
  Exit 0.

(** [junk] is what the buffer on the stack holds.  After a short write the file is closed
    twice. *)
Definition diskfull (s : list Z) (junk : list Z) : prog unit :=
  let big (i : Z) := str "big" ++ [48 + i] in
  let zz (i : Z) := str "zz" ++ [48 + i / 32; 48 + i mod 32] in
  call (Unlink (str "diskfulldir")) ;;
  loop 80 (fun fi =>
    if 48 + fi <? 127 then
      call (Unlink (big fi)) ;;
      fd ← call (Open (big fi) (Z.lor O_CREATE (Z.lor O_RDWR O_TRUNC)));
      if fd <? 0 then
        printf (line_of "%s: could not create file %s") [UStr (Some s); UStr (Some (big fi))] ;;
        Ret (inr tt)
      else
        full ← loop 269 (fun i =>
          if i <? Z.of_nat MAXFILE then
            r ← call (Write fd (take (Z.to_nat BSIZE) junk));
            if negb (r =? BSIZE) then call (Close fd) ;; Ret (inr true) else Ret (inl (i + 1))
          else Ret (inr false)) 0;
        call (Close fd) ;;
        if (full : bool) then Ret (inr tt) else Ret (inl (fi + 1))
    else Ret (inr tt)) 0 ;;
  loop 129 (fun i =>
    if i <? 128 then
      call (Unlink (zz i)) ;;
      fd ← call (Open (zz i) (Z.lor O_CREATE (Z.lor O_RDWR O_TRUNC)));
      if fd <? 0 then Ret (inr tt) else call (Close fd) ;; Ret (inl (i + 1))
    else Ret (inr tt)) 0 ;;
  r ← call (Mkdir (str "diskfulldir"));
  when (r =? 0) (printf (line_of "%s: mkdir(diskfulldir) unexpectedly succeeded!") [UStr (Some s)]) ;;
  call (Unlink (str "diskfulldir")) ;;
  for_upto 128 (fun i => call (Unlink (zz i)) ;; Ret tt) ;;
  for_upto 79 (fun i => call (Unlink (big i)) ;; Ret tt).

(** No list of tests has it.  [nfiles] files are made, each as long as the disk allows. *)
Definition fsfull (fuel : nat) : prog unit :=
  let name (n : Z) := [102; 48 + n / 1000; 48 + (n mod 1000) / 100; 48 + (n mod 100) / 10; 48 + n mod 10] in
  printf (line_of "fsfull test") [] ;;
  nfiles ← loop fuel (fun nfiles =>
    printf (line_of "writing %s") [UStr (Some (name nfiles))] ;;
    fd ← call (Open (name nfiles) (Z.lor O_CREATE O_RDWR));
    if fd <? 0 then
      printf (line_of "open %s failed") [UStr (Some (name nfiles))] ;;
      Ret (inr nfiles)
    else
      total ← loop fuel (fun total =>
        cc ← call (Write fd (take (Z.to_nat BSIZE) buf));
        if cc <? BSIZE then Ret (inr total) else Ret (inl (total + cc))) 0;
      printf (line_of "wrote %d bytes") [UNum total] ;;
      call (Close fd) ;;
      if total =? 0 then Ret (inr nfiles) else Ret (inl (nfiles + 1))) 0;
  for_from (Z.to_nat (nfiles + 1)) nfiles (-1) (fun n => call (Unlink (name n)) ;; Ret tt) ;;
  printf (line_of "fsfull test finished") [].

Abbreviation BIG := (100 * 1024 * 1024).
(** What [sbrk] returns when it fails. *)
Abbreviation NOMEM := 0xffffffffffffffff.

(** ** Processes *)

(** The child sends 5 times 1033 bytes, numbered modulo 256; the parent reads 1, 2, 4, ...
    of them.  If one is wrong it prints a message and returns. *)
Definition pipe1 (s : list Z) (fuel : nat) : prog unit :=
  '(r, (fds0, fds1)) ← call PipeC;
  when (negb (r =? 0)) (fails s "%s: pipe() failed") ;;
  pid ← call Fork;
  if pid =? 0 then
    call (Close fds0) ;;
    for_upto 5 (fun n =>
      r ← call (Write fds1 (map u8 (seqZ (n * 1033) 1033)));
      when (negb (r =? 1033)) (fails s "%s: pipe1 oops 1")) ;;
    Exit 0
  else if 0 <? pid then
    call (Close fds1) ;;
    total ← loop fuel (fun '(seq, total, cc) =>
      '(n, l) ← call (Read fds0 cc);
      if 0 <? n then
        if forallb (fun p => Z.land p.1 0xff =? Z.land p.2 0xff) (zip (take (Z.to_nat n) l) (seqZ seq n)) then
          let cc := cc * 2 in
          Ret (inl (seq + n, total + n, if BUFSZ <? cc then BUFSZ else cc))
        else
          printf (line_of "%s: pipe1 oops 2") [UStr (Some s)] ;;
          Ret (inr None)
      else Ret (inr (Some total))) (0, 0, 1);
    match total with
    | None => Ret tt
    | Some total =>
        when (negb (total =? 5 * 1033)) (quit "%s: pipe1 oops 3 total %d" [UStr (Some s); UNum total]) ;;
        call (Close fds0) ;;
        '(_, xstatus) ← call Wait;
        Exit xstatus
    end
  else fails s "%s: fork() failed".

Definition preempt (s : list Z) : prog unit :=
  pid1 ← call Fork;
  when (pid1 <? 0) (failed s "%s: fork failed") ;;
  when (pid1 =? 0) Spin ;;
  pid2 ← call Fork;
  when (pid2 <? 0) (fails s "%s: fork failed") ;;
  when (pid2 =? 0) Spin ;;
  '(_, (pfds0, pfds1)) ← call PipeC;
  pid3 ← call Fork;
  when (pid3 <? 0) (fails s "%s: fork failed") ;;
  when (pid3 =? 0) (
    call (Close pfds0) ;;
    r ← call (Write pfds1 (str "x"));
    when (negb (r =? 1)) (printf (str "%s: preempt write error") [UStr (Some s)]) ;;
    call (Close pfds1) ;;
    Spin) ;;
  call (Close pfds1) ;;
  '(n, _) ← call (Read pfds0 BUFSZ);
  if negb (n =? 1) then printf (str "%s: preempt read error") [UStr (Some s)]
  else
    call (Close pfds0) ;;
    printf (str "kill... ") [] ;;
    call (Kill pid1) ;;
    call (Kill pid2) ;;
    call (Kill pid3) ;;
    printf (str "wait... ") [] ;;
    call Wait ;;
    call Wait ;;
    call Wait ;;
    Ret tt.

(** ** Memory *)

Definition sbrkbasic (s : list Z) : prog unit :=
  let TOOMUCH := 1024 * 1024 * 1024 in
  pid ← call Fork;
  when (pid <? 0) (quit "fork failed in sbrkbasic" []) ;;
  when (pid =? 0) (
    a ← call (Sbrk TOOMUCH);
    when (u64 a =? NOMEM) (Exit 0) ;;
    for_from (Z.to_nat (TOOMUCH / 4096)) a 4096 (fun b => call (Store b 99)) ;;
    Exit 1) ;;
  '(_, xstatus) ← call Wait;
  when (xstatus =? 1) (fails s "%s: too much memory allocated!") ;;
  a ← call (Sbrk 0);
  a ← loop (Z.to_nat 5001) (fun '(i, a) =>
    if i <? 5000 then
      b ← call (Sbrk 1);
      when (negb (b =? a)) (quit "%s: sbrk test failed %d %p %p" [UStr (Some s); UNum i; UNum a; UNum b]) ;;
      call (Store b 1) ;;
      Ret (inl (i + 1, b + 1))
    else Ret (inr a)) (0, a);
  pid ← call Fork;
  when (pid <? 0) (fails s "%s: sbrk test fork failed") ;;
  call (Sbrk 1) ;;
  c ← call (Sbrk 1);
  when (negb (c =? a + 1)) (fails s "%s: sbrk test failed post-fork") ;;
  when (pid =? 0) (Exit 0) ;;
  '(_, xstatus) ← call Wait;
  Exit xstatus.

Definition sbrkmuch (s : list Z) : prog unit :=
  oldbrk ← call (Sbrk 0);
  a ← call (Sbrk 0);
  p ← call (Sbrk (i32 (BIG - a)));
  when (negb (p =? a)) (fails s "%s: sbrk test failed to grow big address space; enough phys mem?") ;;
  eee ← call (Sbrk 0);
  for_from (Z.to_nat ((eee - a + 4095) / 4096)) a 4096 (fun pp => call (Store pp 1)) ;;
  let lastaddr := BIG - 1 in
  call (Store lastaddr 99) ;;
  a ← call (Sbrk 0);
  c ← call (Sbrk (- PGSIZE));
  when (u64 c =? NOMEM) (fails s "%s: sbrk could not deallocate") ;;
  c ← call (Sbrk 0);
  when (negb (c =? a - PGSIZE))
    (quit "%s: sbrk deallocation produced wrong address, a %p c %p" [UStr (Some s); UNum a; UNum c]) ;;
  a ← call (Sbrk 0);
  c ← call (Sbrk PGSIZE);
  bad ← (if negb (c =? a) then Ret true else r ← call (Sbrk 0); Ret (negb (r =? a + PGSIZE)));
  when bad (quit "%s: sbrk re-allocation failed, a %p c %p" [UStr (Some s); UNum a; UNum c]) ;;
  v ← call (Load lastaddr);
  when (v =? 99) (fails s "%s: sbrk de-allocation didn't really deallocate") ;;
  a ← call (Sbrk 0);
  top ← call (Sbrk 0);
  c ← call (Sbrk (i32 (- (top - oldbrk))));
  when (negb (c =? a)) (quit "%s: sbrk downsize failed, a %p c %p" [UStr (Some s); UNum a; UNum c]).

Definition sbrkfail (s : list Z) (fuel : nat) : prog unit :=
  '(r, (fds0, fds1)) ← call PipeC;
  when (negb (r =? 0)) (fails s "%s: pipe() failed") ;;
  pids ← loop 11 (fun pids =>
    if (length pids <? 10)%nat then
      pid ← call Fork;
      when (pid =? 0) (
        top ← call (Sbrk 0);
        call (Sbrk (i32 (BIG - top))) ;;
        call (Write fds1 (str "x")) ;;
        loop fuel (fun _ => call (Sleep 1000) ;; Ret (inl tt)) tt) ;;
      when (negb (pid =? -1)) (call (Read fds0 1) ;; Ret tt) ;;
      Ret (inl (pids ++ [pid]))
    else Ret (inr pids)) [];
  c ← call (Sbrk PGSIZE);
  for_each pids (fun pid =>
    when (negb (pid =? -1)) (
      call (Kill pid) ;;
      call Wait ;;
      Ret tt)) ;;
  when (u64 c =? NOMEM) (fails s "%s: failed sbrk leaked memory") ;;
  pid ← call Fork;
  when (pid <? 0) (fails s "%s: fork failed") ;;
  when (pid =? 0) (
    a ← call (Sbrk 0);
    call (Sbrk (10 * BIG)) ;;
    n ← loop (Z.to_nat (10 * BIG / PGSIZE + 1)) (fun '(i, n) =>
      if i <? 10 * BIG then v ← call (Load (a + i)); Ret (inl (i + PGSIZE, i32 (n + v)))
      else Ret (inr n)) (0, 0);
    quit "%s: allocate a lot of memory succeeded %d" [UStr (Some s); UNum n]) ;;
  '(_, xstatus) ← call Wait;
  when (negb (xstatus =? -1) && negb (xstatus =? 2)) (Exit 1).

Definition sbrkbugs (s : list Z) : prog unit :=
  pid ← call Fork;
  when (pid <? 0) (quit "fork failed" []) ;;
  when (pid =? 0) (
    r ← call (Sbrk 0);
    let sz := i32 r in
    call (Sbrk (i32 (- sz))) ;;
    Exit 0) ;;
  call Wait ;;
  pid ← call Fork;
  when (pid <? 0) (quit "fork failed" []) ;;
  when (pid =? 0) (
    r ← call (Sbrk 0);
    let sz := i32 r in
    call (Sbrk (i32 (- (sz - 3500)))) ;;
    Exit 0) ;;
  call Wait ;;
  pid ← call Fork;
  when (pid <? 0) (quit "fork failed" []) ;;
  when (pid =? 0) (
    r ← call (Sbrk 0);
    call (Sbrk (i32 (10 * 4096 + 2048 - r))) ;;
    call (Sbrk (-10)) ;;
    Exit 0) ;;
  call Wait ;;
  Exit 0.

(** ** Running the tests *)

Abbreviation test := ((list Z -> prog unit) * list Z)%type.

Definition run_test (f : list Z -> prog unit) (s : list Z) : prog bool :=
  printf (str "test %s: ") [UStr (Some s)] ;;
  pid ← call Fork;
  when (pid <? 0) (quit "runtest: fork error" []) ;;
  if pid =? 0 then f s ;; Exit 0
  else
    '(_, xstatus) ← call Wait;
    printf (if negb (xstatus =? 0) then line_of "FAILED" else line_of "OK") [] ;;
    Ret (xstatus =? 0).

(** [justone] is the null pointer unless a name was given. *)
Fixpoint runtests (tests : list test) (justone : option (list Z)) (continuous : Z) : prog Z :=
  match tests with
  | [] => Ret 0
  | (f, s) :: tests' =>
      if match justone with None => true | Some j => strcmp s j =? 0 end then
        ok ← run_test f s;
        if negb ok && negb (continuous =? 2) then
          printf (line_of "SOME TESTS FAILED") [] ;;
          Ret 1
        else runtests tests' justone continuous
      else runtests tests' justone continuous
  end.

(** The child allocates pages until there are none and sends a byte for each; the parent
    counts the bytes. *)
Definition countfree (fuel : nat) : prog Z :=
  '(r, (fds0, fds1)) ← call PipeC;
  when (r <? 0) (quit "pipe() failed in countfree()" []) ;;
  pid ← call Fork;
  when (pid <? 0) (quit "fork failed in countfree()" []) ;;
  when (pid =? 0) (
    call (Close fds0) ;;
    loop fuel (fun _ =>
      a ← call (Sbrk 4096);
      if u64 a =? NOMEM then Ret (inr tt)
      else
        call (Store (a + 4096 - 1) 1) ;;
        r ← call (Write fds1 (str "x"));
        when (negb (r =? 1)) (quit "write() failed in countfree()" []) ;;
        Ret (inl tt)) tt ;;
    Exit 0) ;;
  call (Close fds1) ;;
  n ← loop fuel (fun n =>
    '(cc, _) ← call (Read fds0 1);
    if cc <? 0 then quit "read() failed in countfree()" []
    else if cc =? 0 then Ret (inr n)
    else Ret (inl (n + 1))) 0;
  call (Close fds0) ;;
  call Wait ;;
  Ret n.

Definition drivetests (quicktests slowtests : list test) (quick : bool) (continuous : Z)
    (justone : option (list Z)) (fuel : nat) : prog Z :=
  loop fuel (fun _ =>
    printf (line_of "usertests starting") [] ;;
    free0 ← countfree fuel;
    r ← runtests quicktests justone continuous;
    if negb (r =? 0) && negb (continuous =? 2) then Ret (inr 1)
    else
      r ← (if quick then Ret 0
           else
             when (match justone with None => true | Some _ => false end)
               (printf (line_of "usertests slow tests starting") []) ;;
             runtests slowtests justone continuous);
      if negb (r =? 0) && negb (continuous =? 2) then Ret (inr 1)
      else
        free1 ← countfree fuel;
        when (free1 <? free0)
          (printf (line_of "FAILED -- lost some free pages %d (out of %d)") [UNum free1; UNum free0]) ;;
        if (free1 <? free0) && negb (continuous =? 2) then Ret (inr 1)
        else if negb (continuous =? 0) then Ret (inl tt)
        else Ret (inr 0)) tt.

Definition usertests_main (quicktests slowtests : list test) (argv : list (list Z)) (fuel : nat) : prog Z :=
  let drive quick continuous justone :=
    r ← drivetests quicktests slowtests quick continuous justone fuel;
    if negb (r =? 0) then Exit 1
    else
      printf (line_of "ALL TESTS PASSED") [] ;;
      Exit 0 in
  match argv with
  | [_; a] =>
      if strcmp a (str "-q") =? 0 then drive true 0 None
      else if strcmp a (str "-c") =? 0 then drive false 1 None
      else if strcmp a (str "-C") =? 0 then drive false 2 None
      else if negb (char_at a 0 =? 45) then drive false 0 (Some a)
      else quit "Usage: usertests [-c] [-C] [-q] [testname]" []
  | _ :: _ :: _ => quit "Usage: usertests [-c] [-C] [-q] [testname]" []
  | _ => drive false 0 None
  end.
