(* ===== verification/UsertestsThms.v ===== *)
(** What the test program of [user/usertests.c] reports. *)
From S2P Require Import Prelude Printf PrintThms.
From S2P Require Import Ulib Usys Progs ProgThms Usertests.

(** ** Data through a pipe *)

Lemma numbered_match l : forall q, Forall (fun c => 0 <= c < 256) l ->
  forallb (fun p => Z.land p.1 0xff =? Z.land p.2 0xff) (zip l (seqZ q (Z.of_nat (length l)))) =
  bool_decide (l = map u8 (seqZ q (Z.of_nat (length l)))).
Proof.
  induction l as [|c l IH]; intros q Hl; [done|]. apply Forall_cons in Hl as [Hc Hl].
  cbn [length]. rewrite Nat2Z.inj_succ, seqZ_cons, Z.pred_succ by lia. cbn [zip_with forallb map fst snd].
  rewrite IH by done. change 0xff with (Z.ones 8). rewrite !Z.land_ones by lia. fold (u8 q).
  rewrite (Z.mod_small c) by lia.
  destruct (Z.eqb_spec c (u8 q)) as [->|Hne]; cbn [andb]; [|by rewrite bool_decide_eq_false_2 by congruence].
  apply bool_decide_ext. split; [by intros <-|by injection 1].
Qed.

Lemma numbered_app (l1 l2 : list Z) q : map u8 (seqZ q (Z.of_nat (length (l1 ++ l2)))) =
  map u8 (seqZ q (Z.of_nat (length l1))) ++ map u8 (seqZ (q + Z.of_nat (length l1)) (Z.of_nat (length l2))).
Proof. rewrite length_app, Nat2Z.inj_add, seqZ_app, map_app by lia. done. Qed.

Lemma run_when {S A} (h : forall R, sysc R -> S -> R * S) (p : prog unit) (k : prog A) s :
  run h (when false p ;; k) s = run h k s.
Proof. by rewrite run_bind. Qed.

Section Pipe1.
Context {S : Type} (h : forall R, sysc R -> S -> R * S) (inp out : S -> Z -> list Z) `{!FdOk h inp out}.

Lemma printf_run fmt args o s : vprintf_bytes fmt args = Some o ->
  exists s', run h (printf fmt args) s = (Done tt, s').
Proof.
  intros E. unfold printf, vprintf. rewrite E. destruct (putcs_run h inp out 1 o s) as (s' & -> & _). by exists s'.
Qed.

Lemma oops2_bytes s : vprintf_bytes (line_of "%s: pipe1 oops 2") [UStr (Some s)] = Some (cstring s ++ line_of ": pipe1 oops 2").
Proof. done. Qed.

(** The reading loop of [pipe1], after the bytes [pre]. *)
Lemma pipe1_read s fd fuel : forall pre cc σ,
  Forall (fun c => 0 <= c < 256) (pre ++ inp σ fd) -> pre = map u8 (seqZ 0 (Z.of_nat (length pre))) ->
  0 < cc -> (length (inp σ fd) < fuel)%nat ->
  let data := pre ++ inp σ fd in
  exists σ', run h (loop fuel (fun '(seq, total, cc) =>
      '(n, l) ← call (Read fd cc);
      if 0 <? n then
        if forallb (fun p => Z.land p.1 0xff =? Z.land p.2 0xff) (zip (take (Z.to_nat n) l) (seqZ seq n)) then
          let cc := cc * 2 in
          Ret (inl (seq + n, total + n, if BUFSZ <? cc then BUFSZ else cc))
        else
          printf (line_of "%s: pipe1 oops 2") [UStr (Some s)] ;;
          Ret (inr None)
      else Ret (inr (Some total))) (Z.of_nat (length pre), Z.of_nat (length pre), cc)) σ =
    (Done (if decide (data = map u8 (seqZ 0 (Z.of_nat (length data)))) then Some (Z.of_nat (length data)) else None), σ').
Proof.
  induction fuel as [|fuel IH]; intros pre cc σ Hb Hpre Hcc Hf; [lia|]. cbn [loop]. cbv zeta.
  rewrite run_bind, run_call. destruct (fd_read fd cc σ Hcc) as (l & σ1 & -> & Hin & Hlen & Hend & _).
  destruct l as [|c l].
  - cbn [length Z.of_nat Z.ltb Z.compare run]. exists σ1. rewrite (Hend eq_refl), app_nil_r. by rewrite decide_True.
  - set (l' := c :: l) in *. assert (0 < Z.of_nat (length l')) by (cbn; lia). rewrite (proj2 (Z.ltb_lt 0 _)) by done.
    rewrite Nat2Z.id, firstn_all. rewrite Hin, app_assoc in Hb |- *.
    assert (Forall (fun c => 0 <= c < 256) l') by (apply Forall_app in Hb as [[_ ?]%Forall_app _]; done).
    rewrite numbered_match by done.
    case_bool_decide as Hl; cbn [run].
    + assert (Hsz : forall x, 0 < x -> 0 < (if BUFSZ <? x then BUFSZ else x)) by (intros x Hx; by case_match).
      rewrite <- Nat2Z.inj_add, <- length_app. apply IH; [done| |apply Hsz; lia|rewrite Hin, length_app in Hf; cbn in Hf; lia].
      by rewrite numbered_app, <- Hpre, Z.add_0_l, <- Hl.
    + rewrite run_bind. destruct (printf_run _ _ _ σ1 (oops2_bytes s)) as (σ2 & ->). exists σ2. cbn [run].
      rewrite decide_False; [done|]. rewrite <- app_assoc, numbered_app, <- Hpre, Z.add_0_l. intros E%app_inv_head.
      rewrite numbered_app in E. apply Hl. apply (f_equal (take (length l'))) in E.
      rewrite take_app_length, take_app_length' in E; [done|]. by rewrite length_map, length_seqZ, Nat2Z.id.
Qed.

Lemma oops3_bytes s n o : uprintint n 10 true = Some o ->
  vprintf_bytes (line_of "%s: pipe1 oops 3 total %d") [UStr (Some s); UNum n] =
  Some (cstring s ++ str ": pipe1 oops 3 total " ++ o ++ [10]).
Proof.
  intros Ho. unfold vprintf_bytes.
  let f := eval vm_compute in (line_of "%s: pipe1 oops 3 total %d") in change (line_of "%s: pipe1 oops 3 total %d") with f.
  cbn -[uprintint app]. rewrite Ho. done.
Qed.
End Pipe1.

(** C40: the verdict of [pipe1]'s parent on what comes through the pipe.  However [read] cuts the
    stream up, the test ends with the child's status if the stream is the 5165 numbered
    bytes, and fails if bytes are missing or too many come; but if a byte is wrong it
    returns, and a test that returns has passed. *)
Theorem pipe1_verdict {S : Type} (h : forall R, sysc R -> S -> R * S) (inp out : S -> Z -> list Z)
    s fuel σ σ1 σ2 σ3 r w pid x st :
  FdOk h inp out ->
  h _ PipeC σ = ((0, (r, w)), σ1) -> h _ Fork σ1 = (pid, σ2) -> 0 < pid -> h _ (Close w) σ2 = (x, σ3) ->
  (forall σ, exists σ', h _ Wait σ = ((pid, st), σ')) ->
  Forall (fun c => 0 <= c < 256) (inp σ3 r) -> (length (inp σ3 r) < fuel)%nat ->
  let data := inp σ3 r in
  (run h (pipe1 s fuel ;; (Exit 0 : prog unit)) σ).1 =
    Exited (if decide (data = map u8 (seqZ 0 (Z.of_nat (length data)))) then
              if Z.of_nat (length data) =? 5 * 1033 then st else 1
            else 0).
Proof.
  intros HF Hp Hfk Hpid Hc Hw Hb Hf. cbv zeta. unfold pipe1. rewrite run_bind, run_call, Hp. cbn [Z.eqb negb].
  rewrite run_when, run_call, Hfk. rewrite (proj2 (Z.eqb_neq pid 0)), (proj2 (Z.ltb_lt 0 pid)) by lia. rewrite run_call, Hc, run_bind.
  destruct (pipe1_read h inp out s r fuel [] 1 σ3) as (σ4 & E); [done..|]. change (Z.of_nat (length [])) with 0 in E. cbn [app] in E. rewrite E.
  case_decide; [|done]. destruct (Z.of_nat (length (inp σ3 r)) =? 5 * 1033); cbn [negb].
  - rewrite run_when, run_call. destruct (h _ (Close r) σ4) as [y σ5]. rewrite run_call.
    destruct (Hw σ5) as (σ6 & ->). done.
  - rewrite run_bind. unfold when.
    destruct (uprintint_shown (Z.of_nat (length (inp σ3 r))) 10 true (or_introl eq_refl)) as (o & Ho & _).
    rewrite run_bind. edestruct (printf_run h inp out (line_of "%s: pipe1 oops 3 total %d")) as (σ5 & ->); [|done].
    apply (oops3_bytes s _ _ Ho).
Qed.

(** A pipe that delivers three bytes, the second of them wrong. *)
Definition pipe_call (R : Type) (e : sysc R) : mini -> R * mini :=
  match e with
  | PipeC => fun s => ((0, (3, 4)), Mini (upd (mi_in s) 3 [0; 9; 2]) (mi_out s))
  | Fork => fun s => (5, s)
  | Wait => fun s => ((5, 0), s)
  | e => mini_call _ e
  end.
#[export] Instance pipe_fd : FdOk pipe_call mi_in mi_out.
Proof. split; intros; [by apply (fd_read (h := mini_call))|by apply (fd_write (h := mini_call))]. Qed.

Lemma pipe1_verdict_witness :
  (run pipe_call (pipe1 (str "pipe1") 10 ;; (Exit 0 : prog unit)) (Mini (fun _ => []) (fun _ => []))).1 = Exited 0.
Proof.
  apply (pipe1_verdict pipe_call mi_in mi_out (str "pipe1") 10 (Mini (fun _ => []) (fun _ => []))
    (Mini (upd (fun _ => []) 3 [0; 9; 2]) (fun _ => [])) (Mini (upd (fun _ => []) 3 [0; 9; 2]) (fun _ => []))
    (Mini (upd (fun _ => []) 3 [0; 9; 2]) (fun _ => [])) 3 4 5 0 0); try reflexivity.
  - apply _.
  - intros σ. by eexists.
  - repeat constructor; cbn; lia.
  - cbn. lia.
Defined.

(** ** The list of tests *)

(** Processes one after the other: a forked child runs to its end before its parent goes
    on.  [h] answers the other calls, [None] if the process is killed; its answer to
    [Fork] is the child's number, or negative.  [q] are the children that have exited and
    were not waited for. *)
Section Seq.
Context {S : Type} (h : forall R, sysc R -> S -> option R * S).

Definition seq_step {A R} (e : sysc R) :
    (R -> list (Z * Z) -> S -> outcome A * S) -> list (Z * Z) -> S -> outcome A * S :=
  match e in sysc R return (R -> list (Z * Z) -> S -> outcome A * S) -> _ with
  | Fork => fun K q s =>
      match h _ Fork s with
      | (Some pid, s) =>
          if 0 <? pid then
            match K 0 [] s with
            | (Exited st, s) => K pid (q ++ [(pid, st)]) s
            | (Done _, s) => K pid (q ++ [(pid, 0)]) s
            | (Looping, s) => (Looping, s)
            end
          else K pid q s
      | (None, s) => (Exited (-1), s)
      end
  | Wait => fun K q s =>
      match q with
      | [] => K (-1, 0) [] s
      | r :: q => K r q s
      end
  | e => fun K q s =>
      match h _ e s with
      | (Some r, s) => K r q s
      | (None, s) => (Exited (-1), s)
      end
  end.

Fixpoint seq_run {A} (p : prog A) (q : list (Z * Z)) (s : S) : outcome A * S :=
  match p with
  | Ret a => (Done a, s)
  | Vis e k => seq_step e (fun r q s => seq_run (k r) q s) q s
  | Exit st => (Exited st, s)
  | Spin => (Looping, s)
  end.

(** The rest of a program is not reached from a test that ends in [exit]. *)
Definition ended {A B} (o : outcome A) : outcome B :=
  match o with Done _ => Exited 0 | Exited st => Exited st | Looping => Looping end.

Lemma seq_step_ended {A B R} (e : sysc R) (K : R -> list (Z * Z) -> S -> outcome B * S) (L : R -> list (Z * Z) -> S -> outcome A * S) :
  (forall r q s, K r q s = (ended (L r q s).1, (L r q s).2)) ->
  forall q s, seq_step e K q s = (ended (seq_step e L q s).1, (seq_step e L q s).2).
Proof.
  intros H q s. destruct e; cbn [seq_step]; try (by case_match; case_match; rewrite ?H).
  - destruct (h Z Fork s) as [[pid|] s1]; [|done]. destruct (0 <? pid); [|apply H]. rewrite H.
    destruct (L 0 [] s1) as [[a|st|] s2]; cbn [fst snd ended]; [apply H..|done].
  - destruct q; apply H.
Qed.

Lemma seq_step_ext {A R} (e : sysc R) (K L : R -> list (Z * Z) -> S -> outcome A * S) :
  (forall r q s, K r q s = L r q s) -> forall q s, seq_step e K q s = seq_step e L q s.
Proof.
  intros H q s. destruct e; cbn [seq_step]; try (by case_match; case_match; rewrite ?H).
  - destruct (h Z Fork s) as [[pid|] s1]; [|done]. rewrite !H. destruct (0 <? pid); [|done].
    destruct (L 0 [] s1) as [[a|st|] s2]; [by rewrite H..|done].
  - destruct q; apply H.
Qed.

Lemma seq_run_assoc {A B C} (p : prog A) (f : A -> prog B) (g : B -> prog C) : forall q s,
  seq_run ((p ≫= f) ≫= g) q s = seq_run (p ≫= (fun x => f x ≫= g)) q s.
Proof.
  unfold mbind, prog_bind. induction p as [a|R e k IH|st|]; intros q s; cbn [bind seq_run]; try done.
  apply seq_step_ext. intros r q' s'. apply IH.
Qed.

Lemma seq_run_call {A R} (e : sysc R) (f : R -> prog A) q s :
  seq_run (call e ≫= f) q s = seq_step e (fun r q s => seq_run (f r) q s) q s.
Proof. done. Qed.

Lemma seq_run_when {A} (p : prog unit) (k : prog A) q s : seq_run (when false p ;; k) q s = seq_run k q s.
Proof. done. Qed.

Lemma seq_run_exit {A B} (p : prog unit) (K : A -> prog B) : forall q s,
  seq_run ((p ;; Exit 0) ≫= K) q s =
  (ended (seq_run (p ;; (Exit 0 : prog unit)) q s).1, (seq_run (p ;; (Exit 0 : prog unit)) q s).2).
Proof.
  unfold mbind, prog_bind. induction p as [a|R e k IH|st|]; intros q s; cbn [bind seq_run]; try done.
  apply seq_step_ended. intros r q' s'. apply IH.
Qed.
End Seq.

(** What the program needs of the kernel itself: [fork] works, and so does the console;
    [cons s] is what was written to it. *)
Class ConsoleOk {S : Type} (h : forall R, sysc R -> S -> option R * S) (cons : S -> list Z) : Prop := {
  con_write l s : exists s', h _ (Write 1 l) s = (Some (Z.of_nat (length l)), s') /\ cons s' = cons s ++ l;
  con_fork s : exists pid s', h _ Fork s = (Some pid, s') /\ 0 < pid /\ cons s' = cons s
}.

Definition byte_str (l : list Z) : Prop := Forall (fun c => 0 <= c < 256) l.

Lemma strcmp_eq p : forall q, byte_str p -> byte_str q -> strcmp p q = 0 <-> cstring p = cstring q.
Proof.
  assert (Hu : forall c, 0 <= c < 256 -> u8 c = c) by (intros c Hc; apply Z.mod_small; done).
  assert (Hq : forall q, byte_str q -> 0 <= char_at q 0 < 256 /\ byte_str (tail q)).
  { intros q Hq. destruct q as [|d q]; [done|]. by apply Forall_cons in Hq as [? ?]. }
  assert (Hc : forall q, cstring q = if char_at q 0 =? 0 then [] else char_at q 0 :: cstring (tail q)) by (by intros []).
  induction p as [|c p IH]; intros q Hp Hbq; destruct (Hq q Hbq) as [Hd Ht]; cbn [strcmp]; rewrite (Hc q).
  - rewrite Hu by done. cbn [cstring]. destruct (Z.eqb_spec (char_at q 0) 0) as [->|]; [done|]. split; [lia|done].
  - apply Forall_cons in Hp as [Hcb Hp]. rewrite (Hc (c :: p)). cbn [char_at nth tail].
    destruct (Z.eqb_spec c 0) as [->|Hn]; cbn [negb andb].
    + rewrite !Hu by done. destruct (Z.eqb_spec (char_at q 0) 0) as [->|]; [done|]. split; [lia|done].
    + destruct (Z.eqb_spec c (char_at q 0)) as [->|Hne].
      * rewrite IH by done. destruct (Z.eqb_spec (char_at q 0) 0); [done|]. split; [by intros ->|by injection 1].
      * rewrite !Hu by done. destruct (char_at q 0 =? 0); (split; [lia|congruence]).
Qed.

Section Tests.
Context {S : Type} (h : forall R, sysc R -> S -> option R * S) (cons : S -> list Z) `{!ConsoleOk h cons}.
(** The status a test ends with and what it prints. *)
Context (status : list Z -> Z) (says : list Z -> list Z).

Definition test_ok (t : test) : Prop := byte_str t.2 /\
  forall s, exists s', seq_run h (t.1 t.2 ;; (Exit 0 : prog unit)) [] s = (Exited (status t.2), s') /\
    cons s' = cons s ++ says t.2.
Definition chosen (justone : option (list Z)) (t : test) : bool :=
  match justone with None => true | Some j => bool_decide (cstring t.2 = cstring j) end.
Definition passes (t : test) : bool := status t.2 =? 0.
(** The line of a test in the report. *)
Definition test_line (t : test) : list Z :=
  str "test " ++ cstring t.2 ++ str ": " ++ says t.2 ++ (if passes t then line_of "OK" else line_of "FAILED").

Lemma seq_putcs {A} (f : unit -> prog A) q l : forall s, exists s',
  cons s' = cons s ++ l /\ seq_run h (putcs 1 l ≫= f) q s = seq_run h (f tt) q s'.
Proof.
  unfold mbind, prog_bind. induction l as [|c l IH]; intros s; cbn [putcs].
  - exists s. by rewrite app_nil_r.
  - cbn. destruct (con_write [c] s) as (s1 & -> & H1). destruct (IH s1) as (s2 & H2 & E). exists s2.
    split; [|exact E]. by rewrite H2, H1, <- app_assoc.
Qed.

Lemma seq_printf {A} fmt args o (f : unit -> prog A) q s : vprintf_bytes fmt args = Some o -> exists s',
  cons s' = cons s ++ o /\ seq_run h (printf fmt args ≫= f) q s = seq_run h (f tt) q s'.
Proof. intros E. unfold printf, vprintf. rewrite E. apply seq_putcs. Qed.

Lemma test_name_bytes n : vprintf_bytes (str "test %s: ") [UStr (Some n)] = Some (str "test " ++ cstring n ++ str ": ").
Proof. done. Qed.

Lemma seq_run_test {A} (K : bool -> prog A) t s : test_ok t -> exists s',
  cons s' = cons s ++ test_line t /\ seq_run h (run_test t.1 t.2 ≫= K) [] s = seq_run h (K (passes t)) [] s'.
Proof.
  intros [_ Ht]. unfold run_test. rewrite seq_run_assoc.
  edestruct (seq_printf (A := A)) as (s1 & H1 & ->); [apply (test_name_bytes t.2)|]. rewrite seq_run_assoc.
  destruct (con_fork s1) as (pid & s2 & Hfk & Hp & H2). rewrite seq_run_call. cbn [seq_step].
  rewrite Hfk, (proj2 (Z.ltb_lt 0 pid)) by done. rewrite seq_run_assoc. cbn [Z.ltb Z.compare Z.eqb]. rewrite seq_run_when, seq_run_exit.
  destruct (Ht s2) as (s3 & -> & H3). cbn [fst snd ended app]. rewrite seq_run_assoc.
  rewrite (proj2 (Z.ltb_ge pid 0)), (proj2 (Z.eqb_neq pid 0)) by lia. rewrite seq_run_when, seq_run_assoc, seq_run_call.
  cbn [seq_step]. rewrite seq_run_assoc. fold (passes t).
  edestruct (seq_printf (A := A) (if negb (passes t) then line_of "FAILED" else line_of "OK") []
      (if passes t then line_of "OK" else line_of "FAILED")) as (s4 & H4 & ->);
    [by destruct (passes t)|].
  exists s4. split; [|done]. rewrite H4, H3, H2, H1. unfold test_line. rewrite <- !app_assoc. by destruct (passes t).
Qed.

Lemma seq_runtests justone continuous : (match justone with Some j => byte_str j | None => True end) ->
  forall tests s, Forall test_ok tests ->
  let sel := List.filter (chosen justone) tests in
  exists r s', seq_run h (runtests tests justone continuous) [] s = (Done r, s') /\
    ((r = 0 /\ (continuous = 2 \/ forallb passes sel = true) /\ cons s' = cons s ++ concat (map test_line sel)) \/
     (r = 1 /\ continuous <> 2 /\ exists pre t post, sel = pre ++ t :: post /\ forallb passes pre = true /\ passes t = false /\
        cons s' = cons s ++ concat (map test_line (pre ++ [t])) ++ line_of "SOME TESTS FAILED")).
Proof.
  intros Hj. induction tests as [|[f n] tests IH]; intros s Hok; cbn [runtests List.filter].
  - exists 0, s. split; [done|]. left. rewrite app_nil_r. split_and!; auto.
  - apply Forall_cons in Hok as [Ht Hok]. specialize (fun s => IH s Hok). cbv zeta in IH.
    assert (Hc : (match justone with None => true | Some j => strcmp n j =? 0 end) = chosen justone (f, n)).
    { unfold chosen. destruct justone as [j|]; [|done]. destruct Ht as [Hn _]. pose proof (strcmp_eq n j Hn Hj) as E.
      case_bool_decide as Hd; [by apply Z.eqb_eq, E|]. apply Z.eqb_neq. intros E'. by apply Hd, E. }
    rewrite Hc. destruct (chosen justone (f, n)); [|apply IH].
    destruct (seq_run_test (fun ok => if negb ok && negb (continuous =? 2) then printf (line_of "SOME TESTS FAILED") [] ;; Ret 1
        else runtests tests justone continuous) (f, n) s Ht) as (s1 & H1 & E). cbn [fst snd] in E. rewrite E.
    destruct (negb (passes (f, n)) && negb (continuous =? 2)) eqn:Hf.
    + apply andb_true_iff in Hf as [Hp%negb_true_iff Hc2%negb_true_iff%Z.eqb_neq].
      edestruct (seq_printf (A := Z) (line_of "SOME TESTS FAILED") [] (line_of "SOME TESTS FAILED")) as (s2 & H2 & ->); [done|].
      exists 1, s2. split; [done|]. right. split_and!; [done..|]. exists [], (f, n), (List.filter (chosen justone) tests). split_and!; [done..|].
      rewrite H2, H1. cbn [map app concat]. by rewrite app_nil_r, <- !app_assoc.
    + destruct (IH s1) as (r & s2 & -> & Hr). exists r, s2. split; [done|].
      assert (Hp : continuous = 2 \/ passes (f, n) = true).
      { destruct (passes (f, n)); [by right|left]. by apply negb_false_iff, Z.eqb_eq in Hf. }
      destruct Hr as [(-> & Ha & H2)|(-> & Hc2 & pre & t & post & -> & Ha & Hn & H2)]; [left|right].
      * split_and!; [done| |by rewrite H2, H1, <- !app_assoc]. cbn [forallb]. destruct Hp as [?| ->]; [by left|]. done.
      * split_and!; [done..|]. exists ((f, n) :: pre), t, post. destruct Hp as [?|Hp]; [done|]. cbn [forallb]. rewrite Hp, Ha.
        split_and!; [done..|]. rewrite H2, H1. cbn [map app concat]. by rewrite <- !app_assoc.
Qed.
End Tests.

(** [runtests] reports the tests.  Whatever name was asked for, it runs the tests of that
    name, or all of them, in order; each gets the line that its process's exit status
    calls for; and the result is 0 exactly if all of them passed, or the program was told
    to go on after failures. *)
Theorem runtests_correct {S : Type} (h : forall R, sysc R -> S -> option R * S) (cons : S -> list Z)
    (status : list Z -> Z) (says : list Z -> list Z) justone continuous tests s :
  ConsoleOk h cons -> (match justone with Some j => byte_str j | None => True end) ->
  Forall (test_ok h cons status says) tests ->
  let sel := List.filter (chosen justone) tests in
  exists r s', seq_run h (runtests tests justone continuous) [] s = (Done r, s') /\
    ((r = 0 /\ (continuous = 2 \/ forallb (passes status) sel = true) /\
      cons s' = cons s ++ concat (map (test_line status says) sel)) \/
     (r = 1 /\ continuous <> 2 /\ exists pre t post, sel = pre ++ t :: post /\
        forallb (passes status) pre = true /\ passes status t = false /\
        cons s' = cons s ++ concat (map (test_line status says) (pre ++ [t])) ++ line_of "SOME TESTS FAILED")).
Proof. intros HC Hj Hok. by apply seq_runtests. Qed.

(** A kernel that has a console and processes, and whose other calls fail: [copyinstr2] passes
    and [linktest] does not. *)
Definition bare_call (R : Type) (e : sysc R) : list Z -> option R * list Z :=
  match e with
  | Write 1 l => fun s => (Some (Z.of_nat (length l)), s ++ l)
  | Write _ _ => fun s => (Some (-1), s)
  | Fork => fun s => (Some 3, s)
  | Load _ => fun s => (None, s) | Store _ _ => fun s => (None, s)
  | Wait => fun s => (Some (-1, 0), s) | PipeC => fun s => (Some (-1, (0, 0)), s)
  | Read _ _ => fun s => (Some (-1, []), s) | Fstat _ => fun s => (Some (-1, UStat 0 0 0), s)
  | Close _ | Kill _ | Exec _ _ | Open _ _ | Mknod _ _ _ | Unlink _ | Link _ _ | Mkdir _ | Chdir _ | Dup _
  | Getpid | Sbrk _ | Sleep _ | Uptime | WriteFrom _ _ _ | ReadInto _ _ _ => fun s => (Some (-1), s)
  end.
#[export] Instance bare_ok : ConsoleOk bare_call (fun s => s).
Proof. split; [intros l s; by eexists|intros s; by eexists 3, s]. Qed.

Definition bare_says (n : list Z) : list Z := if decide (n = str "linktest") then line_of "linktest: create lf1 failed" else [].
Definition bare_status (n : list Z) : Z := if decide (n = str "linktest") then 1 else 0.
Definition bare_tests : list test := [(copyinstr2, str "copyinstr2"); (linktest, str "linktest")].

Lemma bare_tests_ok : Forall (test_ok bare_call (fun s => s) bare_status bare_says) bare_tests.
Proof.
  repeat constructor; try (cbn; lia).
  - intros s. exists s. split; [|cbn; by rewrite app_nil_r]. vm_compute. reflexivity.
  - intros s. destruct (seq_putcs bare_call (fun s => s) (fun _ => Exit 1 : prog unit) [] (bare_says (str "linktest")) s) as (s' & Hs & E).
    exists s'. split; [exact E|exact Hs].
Qed.

Lemma runtests_correct_witness : exists r s',
  seq_run bare_call (runtests bare_tests None 0) [] [] = (Done r, s') /\ r = 1 /\
  s' = line_of "test copyinstr2: OK" ++ line_of "test linktest: linktest: create lf1 failed" ++ line_of "FAILED" ++ line_of "SOME TESTS FAILED".
Proof.
  destruct (runtests_correct bare_call (fun s => s) bare_status bare_says None 0 bare_tests [] bare_ok I bare_tests_ok)
    as (r & s' & E & [(_ & [H|H] & _)|(Hr & _ & pre & t & post & Hs & Hp & Ht & Ho)]); [discriminate H|discriminate H|].
  exists r, s'. split; [exact E|]. split; [exact Hr|]. rewrite Ho.
  destruct pre as [|t1 [|t2 pre]]; [injection Hs as <- _; discriminate Ht| |destruct pre; discriminate Hs].
  injection Hs as <- <- _. reflexivity.
Defined.
