(* ===== verification/VirtioThms.v ===== *)
(** The disk driver of [Virtio] together with a device that follows the VIRTIO
    specification: what the two share, the steps of each, the disk they implement,
    on which a request is one atomic action, and that they implement it. *)
From S2P Require Import Prelude Types Riscv Ring Virtio.

(** ** Lists and 16-bit counters *)

Lemma nth_updated {A} (l : list A) i j v d :
  (j < length l)%nat -> nth i (<[j := v]> l) d = if decide (i = j) then v else nth i l d.
Proof. intros Hj. rewrite nth_insert by done. repeat case_decide; congruence. Qed.

Lemma total_insert {A} `{!Inhabited A} (l : list A) i j v :
  (j < length l)%nat -> <[j := v]> l !!! i = if decide (i = j) then v else l !!! i.
Proof.
  intros Hj. case_decide as E.
  - subst. by apply list_lookup_total_insert_eq.
  - by apply list_lookup_total_insert_ne.
Qed.

(** The entries of a ring of eight between two 16-bit indices. *)
Definition in16 (a : Z) : Prop := in_width 16 a.
Definition rqueue (data : list Z) (r w : Z) : list nat := Z.to_nat <$> queue 16 data r w.

Lemma u16_range a : in16 (u16 a).
Proof. by apply wrap_range. Qed.

Lemma ring8_div (data : list Z) : length data = 8%nat -> (Z.of_nat (length data) | 2 ^ 16).
Proof. intros ->. by exists (2 ^ 13). Qed.

Lemma rqueue_nil data r w : in16 r -> in16 w -> rqueue data r w = [] <-> r = w.
Proof.
  intros Hr Hw. unfold rqueue. rewrite <- (queue_nil 16 ltac:(done) data r w) by done.
  split; [|by intros ->]. by destruct (queue 16 data r w).
Qed.

Lemma rqueue_take data r w : length data = 8%nat -> in16 r -> in16 w -> r <> w ->
  rqueue data r w = Z.to_nat (rget data r) :: rqueue data (u16 (r + 1)) w.
Proof.
  intros Hl Hr Hw Hn. unfold rqueue. by rewrite queue_take by (done || by apply ring8_div).
Qed.

Lemma rqueue_put data r w v : length data = 8%nat -> (length (rqueue data r w) < 8)%nat ->
  rqueue (rset data w v) r (u16 (w + 1)) = rqueue data r w ++ [Z.to_nat v].
Proof.
  intros Hl Hk. unfold rqueue in *. rewrite length_fmap, length_queue in Hk.
  unfold u16. rewrite queue_put, fmap_app; [done|done|by apply ring8_div|rewrite Hl; lia|lia].
Qed.

Lemma rset_rget data i : length data = 8%nat -> rset data i (rget data i) = data.
Proof.
  intros Hl. unfold rset, rget. apply list_insert_id. rewrite nth_lookup, Hl.
  destruct (lookup_lt_is_Some_2 data (Z.to_nat (i mod Z.of_nat 8))) as [v ->]; [|done].
  rewrite Hl. pose proof (Z.mod_pos_bound i (Z.of_nat 8)). lia.
Qed.

Lemma rget_put data i v : length data = 8%nat -> rget (rset data i v) i = v.
Proof. intros Hl. rewrite rget_rset by lia. by rewrite decide_True. Qed.

(** An entry that is in the ring already becomes visible when the index moves past it. *)
Lemma rqueue_publish data r w : length data = 8%nat -> (length (rqueue data r w) < 8)%nat ->
  rqueue data r (u16 (w + 1)) = rqueue data r w ++ [Z.to_nat (rget data w)].
Proof. intros Hl Hk. by rewrite <- (rqueue_put data r w) by done; rewrite rset_rget. Qed.

(** An entry outside the queue is invisible. *)
Lemma rqueue_hidden data r w v : length data = 8%nat -> (length (rqueue data r w) < 8)%nat ->
  rqueue (rset data w v) r w = rqueue data r w.
Proof.
  intros Hl Hk. pose proof (rqueue_put data r w v Hl Hk) as H1.
  rewrite rqueue_publish in H1; [|by rewrite length_rset|].
  - by apply app_inj_tail in H1 as [? _].
  - unfold rqueue in *. rewrite length_fmap, length_queue in *. done.
Qed.

(** ** The device *)

Definition load_sectors (d : Z -> list Z) (sec len : Z) : list Z :=
  concat (map d (seqZ sec (len / 512))).
Definition store_sectors (d : Z -> list Z) (sec len : Z) (bs : list Z) : Z -> list Z :=
  fun k => if decide (sec <= k < sec + len / 512) then take 512 (drop (Z.to_nat (512 * (k - sec))) bs)
           else d k.

(** The request of a chain: a header, a buffer of some length that the device may write
    or not, and a status byte that it may write. *)
Definition request (s : vst) (id : nat) : option (blk_req * nat * Z * bool * nat) :=
  let d0 := v_desc s !!! id in
  let d1 := v_desc s !!! d_next d0 in
  let d2 := v_desc s !!! d_next d1 in
  if has (d_flags d0) VRING_DESC_F_NEXT && has (d_flags d1) VRING_DESC_F_NEXT &&
     has (d_flags d2) VRING_DESC_F_WRITE && negb (has (d_flags d2) VRING_DESC_F_NEXT)
     && (d_len d0 =? 16) && (d_len d2 =? 1)
  then match d_addr d0, d_addr d1, d_addr d2 with
       | DReq r, DData b, DStatus k =>
           Some (v_ops s !!! r, b, d_len d1, has (d_flags d1) VRING_DESC_F_WRITE, k)
       | _, _, _ => None
       end
  else None.

(** The status byte is written and the chain goes to the used ring. *)
Definition complete (st : Z) (id k : nat) (f : list nat) (s : vst) : vst :=
  let s := set_info k (Info (in_b (v_info s !!! k)) st) s in
  let s := set_flight f s in
  let s := set_used (rset (v_used s) (v_used_at s) (Z.of_nat id)) s in
  set_used_at (u16 (v_used_at s + 1)) s.

Definition set_sectors (d : Z -> list Z) (s : vst) : vst :=
  Vst (v_desc s) (v_free s) (v_info s) (v_ops s) (v_avail s) (v_avail_idx s) (v_used s)
    (v_used_at s) (v_used_idx s) (v_seen s) (v_flight s) (v_busy s) (v_data s) d.

(** What the specification allows a device to do: fetch the next chain from the
    available ring, or end one of the chains it has fetched, in any order.  A request may
    end with an error status, and then nothing is known of the sectors it was to write or
    of the buffer it was to fill.  With a chain that is no request a device may do
    anything. *)
Inductive dev_spec : vst -> vst -> Prop :=
  | Dev_fetch s :
      v_seen s <> v_avail_idx s ->
      dev_spec s (set_seen (u16 (v_seen s + 1))
                   (set_flight (v_flight s ++ [Z.to_nat (rget (v_avail s) (v_seen s))]) s))
  | Dev_write s f1 id f2 sec b len k :
      v_flight s = f1 ++ id :: f2 -> request s id = Some (BlkReq VIRTIO_BLK_T_OUT sec, b, len, false, k) ->
      dev_spec s (complete 0 id k (f1 ++ f2) (set_sectors (store_sectors (v_disk s) sec len (v_data s b)) s))
  | Dev_read s f1 id f2 sec b len k :
      v_flight s = f1 ++ id :: f2 -> request s id = Some (BlkReq VIRTIO_BLK_T_IN sec, b, len, true, k) ->
      dev_spec s (complete 0 id k (f1 ++ f2) (set_data b (load_sectors (v_disk s) sec len) s))
  | Dev_write_fail s f1 id f2 sec b len k st d :
      v_flight s = f1 ++ id :: f2 -> request s id = Some (BlkReq VIRTIO_BLK_T_OUT sec, b, len, false, k) ->
      st <> 0 -> (forall j, length (d j) = 512%nat) ->
      (forall j, ~ (sec <= j < sec + len / 512) -> d j = v_disk s j) ->
      dev_spec s (complete st id k (f1 ++ f2) (set_sectors d s))
  | Dev_read_fail s f1 id f2 sec b len k st bs :
      v_flight s = f1 ++ id :: f2 -> request s id = Some (BlkReq VIRTIO_BLK_T_IN sec, b, len, true, k) ->
      st <> 0 -> length bs = Z.to_nat len ->
      dev_spec s (complete st id k (f1 ++ f2) (set_data b bs s))
  | Dev_invalid s id s' :
      id ∈ v_flight s ->
      (forall sec b len k, request s id <> Some (BlkReq VIRTIO_BLK_T_OUT sec, b, len, false, k)) ->
      (forall sec b len k, request s id <> Some (BlkReq VIRTIO_BLK_T_IN sec, b, len, true, k)) ->
      dev_spec s s'.

(** ** Threads, driver and device together *)

(** A thread inside [virtio_disk_rw], waiting for its request. *)
Record thr := Thr { t_b : nat; t_blk : Z; t_write : bool; t_i0 : nat; t_i1 : nat; t_i2 : nat }.
#[global] Instance thr_eq_dec : EqDecision thr.
Proof. solve_decision. Defined.
Definition t_idx (t : thr) : list nat := [t_i0 t; t_i1 t; t_i2 t].

(** Where the holder of [vdisk_lock] is: nobody holds it, a thread has done [n] of the
    stores of its request, or the interrupt handler is at its loop's condition or in the
    loop's body. *)
Inductive vpc := PIdle | PWrite (t : thr) (n : nat) | PTest | PRound.

Record sys := Sys { drv : vst; thrs : list thr; at_pc : vpc }.

(** A call of [virtio_disk_rw] issues its request and later returns; between calls the
    owner of a buffer may change its data. *)
Inductive event := EIssue (b : nat) (blk : Z) (write : bool) | EReturn (b : nat) | EFill (b : nat) (d : list Z).

Definition t_writes (t : thr) : list (vst -> vst) :=
  request_writes (t_b t) (t_blk t) (t_write t) (t_i0 t) (t_i1 t) (t_i2 t).

(** The caller holds the buffer's sleep-lock, so a buffer has at most one request. *)
Definition unused (b : nat) (ts : list thr) : Prop := b ∉ (t_b <$> ts).
Definition writing (pc : vpc) : list thr := match pc with PWrite t _ => [t] | _ => [] end.

Section Steps.
Context (device : vst -> vst -> Prop).

(** Driver code runs with [vdisk_lock] held, up to the next point where it sleeps or
    releases the lock; the device, and the owners of buffers without a request, run at any
    time.  A request is issued by the last store, which the device can see. *)
Inductive vstep : sys -> list event -> sys -> Prop :=
  | S_begin s ts b blk w i0 i1 i2 s' :
      unused b ts -> 0 <= blk < 2 ^ 31 -> virtio_disk_alloc s = VOk (i0, i1, i2) s' ->
      vstep (Sys s ts PIdle) [] (Sys s' ts (PWrite (Thr b blk w i0 i1 i2) 0))
  | S_wait s ts s' :
      virtio_disk_alloc s = VSleep s' -> vstep (Sys s ts PIdle) [] (Sys s' ts PIdle)
  | S_write s ts t n f :
      t_writes t !! n = Some f -> (S n < length (t_writes t))%nat ->
      vstep (Sys s ts (PWrite t n)) [] (Sys (f s) ts (PWrite t (S n)))
  | S_issue s ts t n f :
      t_writes t !! n = Some f -> S n = length (t_writes t) ->
      vstep (Sys s ts (PWrite t n)) [EIssue (t_b t) (t_blk t) (t_write t)] (Sys (f s) (t :: ts) PIdle)
  | S_return s ts1 t ts2 s' :
      virtio_disk_finish (t_b t) (t_i0 t) s = VOk tt s' ->
      vstep (Sys s (ts1 ++ t :: ts2) PIdle) [EReturn (t_b t)] (Sys s' (ts1 ++ ts2) PIdle)
  | S_intr s ts :
      vstep (Sys s ts PIdle) [] (Sys s ts PTest)
  | S_test s ts :
      vstep (Sys s ts PTest) [] (Sys s ts (if virtio_intr_test s then PRound else PIdle))
  | S_round s ts s' :
      virtio_intr_round s = VOk tt s' -> vstep (Sys s ts PRound) [] (Sys s' ts PTest)
  | S_fill s ts pc b d :
      unused b (writing pc ++ ts) -> length d = 1024%nat ->
      vstep (Sys s ts pc) [EFill b d] (Sys (set_data b d s) ts pc)
  | S_device s ts pc s' :
      device s s' -> vstep (Sys s ts pc) [] (Sys s' ts pc).

Inductive vruns : sys -> list event -> sys -> Prop :=
  | VR_refl x : vruns x [] x
  | VR_step x tr y l z : vruns x tr y -> vstep y l z -> vruns x (tr ++ l) z.
End Steps.

(** After [virtio_disk_init]: the pages are zero and all descriptors are free. *)
Definition vboot (data : nat -> list Z) (disk : Z -> list Z) : vst :=
  Vst (replicate NUM desc0) (replicate NUM true) (replicate NUM (Info None 0))
    (replicate NUM (BlkReq 0 0)) (replicate NUM 0) 0 (replicate NUM 0) 0 0 0 [] (fun _ => false) data disk.

(** ** The abstract disk

    A request is executed at one moment between its issue and its return, or fails at one
    and then never returns. *)
Inductive phase := Queued | Executed | Failed.

Record adisk := ADisk {
  a_disk : Z -> list Z;
  a_data : nat -> list Z;
  a_out : nat -> option (Z * bool * phase)
}.

Definition upd {K A} `{EqDecision K} (f : K -> A) (k : K) (v : A) : K -> A :=
  fun j => if decide (j = k) then v else f j.

Inductive astep : adisk -> list event -> adisk -> Prop :=
  | A_tau x : astep x [] x
  | A_issue d m o b blk w :
      o b = None -> astep (ADisk d m o) [EIssue b blk w] (ADisk d m (upd o b (Some (blk, w, Queued))))
  | A_write d m o b blk :
      o b = Some (blk, true, Queued) ->
      astep (ADisk d m o) [] (ADisk (upd d blk (m b)) m (upd o b (Some (blk, true, Executed))))
  | A_read d m o b blk :
      o b = Some (blk, false, Queued) ->
      astep (ADisk d m o) [] (ADisk d (upd m b (d blk)) (upd o b (Some (blk, false, Executed))))
  | A_write_fail d m o b blk v :
      o b = Some (blk, true, Queued) -> length v = 1024%nat ->
      astep (ADisk d m o) [] (ADisk (upd d blk v) m (upd o b (Some (blk, true, Failed))))
  | A_read_fail d m o b blk v :
      o b = Some (blk, false, Queued) -> length v = 1024%nat ->
      astep (ADisk d m o) [] (ADisk d (upd m b v) (upd o b (Some (blk, false, Failed))))
  | A_return d m o b blk w :
      o b = Some (blk, w, Executed) -> astep (ADisk d m o) [EReturn b] (ADisk d m (upd o b None))
  | A_fill d m o b v :
      o b = None -> astep (ADisk d m o) [EFill b v] (ADisk d (upd m b v) o).

Inductive aruns : adisk -> list event -> adisk -> Prop :=
  | AR_refl x : aruns x [] x
  | AR_step x tr y l z : aruns x tr y -> astep y l z -> aruns x (tr ++ l) z.

(** Block [n] of a disk of sectors. *)
Definition blk_of (d : Z -> list Z) (n : Z) : list Z := d (2 * n) ++ d (2 * n + 1).

(** ** The invariant *)

Definition qavail (s : vst) : list nat := rqueue (v_avail s) (v_seen s) (v_avail_idx s).
Definition qused (s : vst) : list nat := rqueue (v_used s) (v_used_idx s) (v_used_at s).
(** Requests the device has still to execute. *)
Definition pending (s : vst) : list nat := qavail s ++ v_flight s.

Definition idxs (ts : list thr) : list nat := ts ≫= t_idx.

(** The three descriptors of a thread's request. *)
Record formatted (s : vst) (t : thr) : Prop := {
  fm_d0 : v_desc s !!! t_i0 t = Desc (DReq (t_i0 t)) 16 VRING_DESC_F_NEXT (t_i1 t);
  fm_d1 : v_desc s !!! t_i1 t =
    Desc (DData (t_b t)) BSIZE (Z.lor (if t_write t then 0 else VRING_DESC_F_WRITE) VRING_DESC_F_NEXT) (t_i2 t);
  fm_d2 : v_desc s !!! t_i2 t = Desc (DStatus (t_i0 t)) 1 VRING_DESC_F_WRITE 0;
  fm_op : v_ops s !!! t_i0 t =
    BlkReq (if t_write t then VIRTIO_BLK_T_OUT else VIRTIO_BLK_T_IN) (2 * t_blk t);
  fm_b : in_b (v_info s !!! t_i0 t) = Some (t_b t);
  fm_blk : 0 <= t_blk t < 2 ^ 31
}.

(** [ack] are the heads of the chains whose completion the interrupt handler has seen, and
    [rsv] the descriptors of a request that is not issued yet. *)
Record vinv (s : vst) (rsv : list nat) (ts : list thr) (ack : list nat) : Prop := {
  vi_lens : length (v_desc s) = 8%nat /\ length (v_free s) = 8%nat /\ length (v_info s) = 8%nat /\
    length (v_ops s) = 8%nat /\ length (v_avail s) = 8%nat /\ length (v_used s) = 8%nat;
  vi_idx : in16 (v_avail_idx s) /\ in16 (v_seen s) /\ in16 (v_used_at s) /\ in16 (v_used_idx s);
  vi_perm : pending s ++ qused s ++ ack ≡ₚ t_i0 <$> ts;
  vi_nodup : NoDup (rsv ++ idxs ts);
  vi_free i : nth i (v_free s) false = true <-> (i < 8)%nat /\ i ∉ rsv ++ idxs ts;
  vi_range i : i ∈ rsv ++ idxs ts -> (i < 8)%nat;
  vi_bufs : NoDup (t_b <$> ts);
  vi_fmt t : t ∈ ts -> formatted s t;
  vi_busy t : t ∈ ts -> v_busy s (t_b t) = negb (bool_decide (t_i0 t ∈ ack));
  vi_status t : t ∈ ts -> t_i0 t ∈ ack -> in_status (v_info s !!! t_i0 t) = 0;
  vi_data b : length (v_data s b) = 1024%nat;
  vi_sec k : length (v_disk s k) = 512%nat
}.

Definition phase_of (s : vst) (t : thr) : phase :=
  if bool_decide (t_i0 t ∈ pending s) then Queued
  else if in_status (v_info s !!! t_i0 t) =? 0 then Executed else Failed.

(** The abstract disk of a state. *)
Record vsim (s : vst) (ts : list thr) (x : adisk) : Prop := {
  vs_disk n : 0 <= n < 2 ^ 31 -> a_disk x n = blk_of (v_disk s) n;
  vs_data b : a_data x b = v_data s b;
  vs_out t : t ∈ ts -> a_out x (t_b t) = Some (t_blk t, t_write t, phase_of s t);
  vs_none b : unused b ts -> a_out x b = None
}.

(** What the first [n] stores of a request have left, up to the one that issues it. *)
Record forming (s : vst) (t : thr) (n : nat) : Prop := {
  fo_op : (1 <= n)%nat -> v_ops s !!! t_i0 t =
    BlkReq (if t_write t then VIRTIO_BLK_T_OUT else VIRTIO_BLK_T_IN) (2 * t_blk t);
  fo_d0 : (2 <= n)%nat -> v_desc s !!! t_i0 t = Desc (DReq (t_i0 t)) 16 VRING_DESC_F_NEXT (t_i1 t);
  fo_d1 : (3 <= n)%nat -> v_desc s !!! t_i1 t =
    Desc (DData (t_b t)) BSIZE (Z.lor (if t_write t then 0 else VRING_DESC_F_WRITE) VRING_DESC_F_NEXT) (t_i2 t);
  fo_d2 : (5 <= n)%nat -> v_desc s !!! t_i2 t = Desc (DStatus (t_i0 t)) 1 VRING_DESC_F_WRITE 0;
  fo_busy : (6 <= n)%nat -> v_busy s (t_b t) = true;
  fo_b : (7 <= n)%nat -> in_b (v_info s !!! t_i0 t) = Some (t_b t);
  fo_ring : (8 <= n)%nat -> rget (v_avail s) (v_avail_idx s) = Z.of_nat (t_i0 t);
  fo_blk : 0 <= t_blk t < 2 ^ 31;
  fo_n : (n <= 8)%nat
}.

(** The invariant at each point of the driver. *)
Definition vinv_at (y : sys) (ack : list nat) : Prop :=
  match at_pc y with
  | PWrite t n => vinv (drv y) (t_idx t) (thrs y) ack /\ forming (drv y) t n /\ unused (t_b t) (thrs y)
  | PRound => vinv (drv y) [] (thrs y) ack /\ qused (drv y) <> []
  | PIdle | PTest => vinv (drv y) [] (thrs y) ack
  end.

Lemma vinv_boot data disk :
  (forall b, length (data b) = 1024%nat) -> (forall k, length (disk k) = 512%nat) ->
  vinv (vboot data disk) [] [] [] /\ vsim (vboot data disk) [] (ADisk (blk_of disk) data (fun _ => None)).
Proof.
  intros Hd Hk. split; [|split; try done; intros ? H; by apply elem_of_nil in H].
  split; try done; try apply NoDup_nil_2; try (intros ? H; by apply elem_of_nil in H).
  intros i. cbn [v_free vboot]. rewrite nth_lookup. destruct (decide (i < 8)%nat).
  - rewrite lookup_replicate_2 by done. cbn. split; [|done]. split; [done|apply not_elem_of_nil].
  - rewrite lookup_ge_None_2 by (rewrite length_replicate; lia). cbn. split; [done|]. intros [? _]. lia.
Qed.

(** *** Consequences *)

Lemma idxs_cons t ts : idxs (t :: ts) = t_idx t ++ idxs ts.
Proof. done. Qed.

Lemma idxs_app ts1 ts2 : idxs (ts1 ++ ts2) = idxs ts1 ++ idxs ts2.
Proof. apply bind_app. Qed.

Lemma elem_of_idxs i ts : i ∈ idxs ts <-> exists t, i ∈ t_idx t /\ t ∈ ts.
Proof. unfold idxs. rewrite list_elem_of_bind. done. Qed.

Lemma idx_unique ts t t' i :
  NoDup (idxs ts) -> t ∈ ts -> t' ∈ ts -> i ∈ t_idx t -> i ∈ t_idx t' -> t = t'.
Proof.
  induction ts as [|u ts IH]; [by intros _ ?%elem_of_nil|].
  rewrite idxs_cons, NoDup_app. intros (_ & Hd & Hn) Ht Ht' Hi Hi'.
  apply elem_of_cons in Ht as [->|Ht], Ht' as [->|Ht']; [done| | |auto].
  - destruct (Hd i Hi). apply elem_of_idxs. eauto.
  - destruct (Hd i Hi'). apply elem_of_idxs. eauto.
Qed.

Lemma fmap_inj_elem {A B} (f : A -> B) l x y :
  NoDup (f <$> l) -> x ∈ l -> y ∈ l -> f x = f y -> x = y.
Proof.
  induction l as [|z l IH]; [by intros _ ?%elem_of_nil|]. cbn. intros [Hz Hn]%NoDup_cons Hx Hy E.
  apply elem_of_cons in Hx as [->|Hx], Hy as [->|Hy]; [done| | |auto].
  - destruct Hz. rewrite E. apply list_elem_of_fmap. eauto.
  - destruct Hz. rewrite <- E. apply list_elem_of_fmap. eauto.
Qed.

Lemma head_idx t : t_i0 t ∈ t_idx t.
Proof. apply list_elem_of_here. Qed.

Lemma head_unique ts t t' : NoDup (idxs ts) -> t ∈ ts -> t' ∈ ts -> t_i0 t = t_i0 t' -> t = t'.
Proof.
  intros Hn Ht Ht' E. eapply idx_unique; [done|done|done|apply head_idx|]. rewrite E. apply head_idx.
Qed.

Lemma length_idxs ts : length (idxs ts) = (3 * length ts)%nat.
Proof. induction ts as [|t ts IH]; [done|]. rewrite idxs_cons, length_app, IH. cbn. lia. Qed.

Section Inv.
Context (s : vst) (rsv : list nat) (ts : list thr) (ack : list nat) (I : vinv s rsv ts ack).

Lemma idxs_nodup : NoDup (idxs ts).
Proof. by destruct (proj1 (NoDup_app _ _) (vi_nodup _ _ _ _ I)) as (_ & _ & H). Qed.

Lemma few_threads : (length ts <= 2)%nat.
Proof.
  assert (H : (length (idxs ts) <= length (seq 0 8))%nat).
  { apply NoDup_incl_length; [apply NoDup_ListNoDup, idxs_nodup|]. intros i Hi. apply in_seq.
    apply list_elem_of_In in Hi. pose proof (vi_range _ _ _ _ I i ltac:(rewrite elem_of_app; tauto)). lia. }
  rewrite length_idxs in H. cbn in H. lia.
Qed.

Lemma few_heads :
  (length (qavail s) + length (v_flight s) + length (qused s) + length ack = length ts)%nat.
Proof.
  pose proof (Permutation_length (vi_perm _ _ _ _ I)) as H. unfold pending in H.
  rewrite !length_app, length_fmap in H. lia.
Qed.

Lemma heads_nodup : NoDup (t_i0 <$> ts).
Proof.
  pose proof idxs_nodup as H. clear I. induction ts as [|t l IH]; [constructor|].
  rewrite idxs_cons in H. apply NoDup_app in H as (_ & Hd & Hn). cbn. constructor; [|by apply IH].
  intros (t' & E & Ht')%list_elem_of_fmap. destruct (Hd (t_i0 t) (head_idx t)).
  apply elem_of_idxs. exists t'. rewrite E. split; [apply head_idx|done].
Qed.

Lemma head_thread i : i ∈ pending s ++ qused s ++ ack -> exists t, t ∈ ts /\ t_i0 t = i.
Proof.
  rewrite (vi_perm _ _ _ _ I). intros (t & -> & Ht)%list_elem_of_fmap. eauto.
Qed.

Lemma heads_disjoint : NoDup (pending s ++ qused s ++ ack).
Proof. rewrite (vi_perm _ _ _ _ I). apply heads_nodup. Qed.

Lemma thread_range t : t ∈ ts -> (t_i0 t < 8)%nat /\ (t_i1 t < 8)%nat /\ (t_i2 t < 8)%nat.
Proof.
  intros Ht. split_and!; apply (vi_range _ _ _ _ I), elem_of_app; right; apply elem_of_idxs; exists t; (split; [|done]); unfold t_idx; set_solver.
Qed.

End Inv.

(** ** Descriptors *)

Definition clear_free (l : list nat) (s : vst) : vst := fold_left (fun s i => set_free i false s) l s.

Lemma alloc_desc_loop_spec k : forall i s,
  match alloc_desc_loop i k s with
  | (Some j, s') => (i <= j < i + k)%nat /\ nth j (v_free s) false = true /\ s' = set_free j false s
  | (None, s') => s' = s
  end.
Proof.
  induction k as [|k IH]; intros i s; cbn [alloc_desc_loop]; [done|].
  destruct (nth i (v_free s) false) eqn:E; [split_and!; [lia|lia|done|done]|].
  specialize (IH (S i) s). destruct (alloc_desc_loop (S i) k s) as [[j|] s']; [|done].
  destruct IH as (? & ? & ?). split_and!; [lia|lia|done|done].
Qed.

Lemma free_desc_ok i s : (i < 8)%nat -> nth i (v_free s) false = false ->
  free_desc i s = VOk tt (set_free i true (set_desc i desc0 s)).
Proof. intros Hi Hf. unfold free_desc. rewrite (proj2 (Nat.leb_gt _ _)) by done. by rewrite Hf. Qed.

Lemma free_range s i : length (v_free s) = 8%nat -> nth i (v_free s) false = true -> (i < 8)%nat.
Proof.
  intros Hl Hf. destruct (decide (i < 8)%nat); [done|]. rewrite nth_overflow in Hf by lia. done.
Qed.

Lemma nth_set_free s i j v : length (v_free s) = 8%nat -> (j < 8)%nat ->
  nth i (v_free (set_free j v s)) false = if decide (i = j) then v else nth i (v_free s) false.
Proof. intros Hl Hj. cbn. apply nth_updated. lia. Qed.

(** The descriptors [l], free in [s], have been taken, and perhaps others taken and given
    back: only entries that are free in [s] differ. *)
Record dtaken (s : vst) (l : list nat) (s' : vst) : Prop := {
  dt_state : s' = Vst (v_desc s') (v_free s') (v_info s) (v_ops s) (v_avail s) (v_avail_idx s) (v_used s)
    (v_used_at s) (v_used_idx s) (v_seen s) (v_flight s) (v_busy s) (v_data s) (v_disk s);
  dt_len : length (v_desc s') = 8%nat /\ length (v_free s') = 8%nat;
  dt_free i : nth i (v_free s') false = negb (bool_decide (i ∈ l)) && nth i (v_free s) false;
  dt_desc i : nth i (v_free s) false = false -> v_desc s' !!! i = v_desc s !!! i;
  dt_in i : i ∈ l -> (i < 8)%nat /\ nth i (v_free s) false = true
}.

Lemma dtaken_nil s : length (v_free s) = 8%nat -> length (v_desc s) = 8%nat -> dtaken s [] s.
Proof. intros Hl Hd. split; try done; [by destruct s|]. intros i Hi. by apply elem_of_nil in Hi. Qed.

Lemma dtaken_alloc s l s' i : length (v_free s) = 8%nat -> dtaken s l s' ->
  nth i (v_free s') false = true -> (i ∉ l) /\ dtaken s (i :: l) (set_free i false s').
Proof.
  intros Hl [E [El1 El2] F D N] Hi. pose proof (free_range s' i El2 Hi) as Hr.
  rewrite F in Hi. apply andb_prop in Hi as [Hn%negb_true_iff%bool_decide_eq_false Hf].
  split; [done|]. split.
  - rewrite E. done.
  - cbn. rewrite length_insert. done.
  - intros j. rewrite nth_set_free by done. case_decide as Ej.
    + subst. rewrite bool_decide_eq_true_2 by apply list_elem_of_here. done.
    + rewrite F. f_equal. f_equal. apply bool_decide_ext. rewrite elem_of_cons. naive_solver.
  - done.
  - intros j [->|Hj]%elem_of_cons; [done|by apply N].
Qed.

Lemma dtaken_undo s l s' i : dtaken s l s' -> i ∈ l ->
  exists s'', free_desc i s' = VOk tt s'' /\ dtaken s (filter (fun j => j <> i) l) s''.
Proof.
  intros [E [El1 El2] F D N] Hi. destruct (N i Hi) as [Hr Hf].
  exists (set_free i true (set_desc i desc0 s')). split.
  { apply free_desc_ok; [done|]. by rewrite F, bool_decide_eq_true_2. }
  split.
  - rewrite E. done.
  - cbn. rewrite !length_insert. done.
  - intros j. rewrite nth_set_free by done. case_decide as Ej.
    + subst. rewrite bool_decide_eq_false_2, Hf; [done|]. rewrite list_elem_of_filter. naive_solver.
    + cbn [v_free set_desc]. rewrite F. f_equal. f_equal. apply bool_decide_ext.
      rewrite list_elem_of_filter. naive_solver.
  - intros j Hj. cbn. rewrite total_insert by lia. case_decide; [by subst; rewrite Hf in Hj|]. by apply D.
  - intros j [_ Hj]%list_elem_of_filter. by apply N.
Qed.

Lemma alloc_desc_spec s l s' : length (v_free s) = 8%nat -> dtaken s l s' ->
  match alloc_desc s' with
  | (Some i, s'') => (i ∉ l) /\ dtaken s (i :: l) s''
  | (None, s'') => s'' = s'
  end.
Proof.
  intros Hl T. pose proof (alloc_desc_loop_spec NUM 0 s') as H. unfold alloc_desc.
  destruct (alloc_desc_loop 0 NUM s') as [[i|] s'']; [|done]. destruct H as (_ & Hf & ->).
  by apply dtaken_alloc.
Qed.

(** A partial allocation is undone. *)
Lemma free_descs_spec s got : forall l s', dtaken s l s' -> NoDup got -> (forall i, i ∈ l <-> i ∈ got) ->
  exists s'', free_descs got s' = VOk tt s'' /\ dtaken s [] s''.
Proof.
  induction got as [|i got IH]; intros l s' T Hn Hl; cbn [free_descs].
  { exists s'. split; [done|]. destruct l as [|j l]; [done|]. destruct (proj1 (elem_of_nil j)).
    apply Hl, list_elem_of_here. }
  apply NoDup_cons in Hn as [Hi Hn].
  destruct (dtaken_undo s l s' i T) as (s1 & -> & T1); [apply Hl, list_elem_of_here|]. cbn [vbind].
  apply (IH _ _ T1 Hn). intros j. rewrite list_elem_of_filter, Hl, elem_of_cons. naive_solver.
Qed.

Lemma alloc3_spec s : length (v_free s) = 8%nat -> length (v_desc s) = 8%nat ->
  (exists i0 i1 i2 s', NoDup [i0; i1; i2] /\ dtaken s [i2; i1; i0] s' /\
     alloc3_desc s = VOk (Some [i0; i1; i2]) s') \/
  (exists s', dtaken s [] s' /\ alloc3_desc s = VOk None s').
Proof.
  intros Hl Hd. unfold alloc3_desc. cbn [alloc3_loop app]. pose proof (dtaken_nil s Hl Hd) as T.
  pose proof (alloc_desc_spec s [] s Hl T) as H0.
  destruct (alloc_desc s) as [[i0|] s0]; [|subst; right; by exists s].
  destruct H0 as [N0 T0]. pose proof (alloc_desc_spec s _ s0 Hl T0) as H1.
  assert (Hu : forall got l s', dtaken s l s' -> NoDup got -> (forall i, i ∈ l <-> i ∈ got) ->
    exists s'', dtaken s [] s'' /\ vbind (free_descs got s') (fun _ s => VOk None s) = @VOk (option (list nat)) None s'').
  { intros got l s' T' Hn Hg. destruct (free_descs_spec s got l s' T' Hn Hg) as (s'' & -> & ?). by exists s''. }
  destruct (alloc_desc s0) as [[i1|] s1].
  2: { subst. right. apply (Hu _ _ _ T0); [|done]. constructor; [set_solver|constructor]. }
  destruct H1 as [N1 T1]. pose proof (alloc_desc_spec s _ s1 Hl T1) as H2.
  apply not_elem_of_cons in N1 as [N1 _].
  destruct (alloc_desc s1) as [[i2|] s2].
  2: { subst. right. apply (Hu _ _ _ T1); [|intros i; rewrite !elem_of_cons; tauto].
       constructor; [set_solver|constructor; [set_solver|constructor]]. }
  destruct H2 as [N2 T2]. apply not_elem_of_cons in N2 as [N2 N2'].
  left. exists i0, i1, i2, s2. split_and!; [|done|done].
  constructor; [set_solver|constructor; [set_solver|constructor; [set_solver|constructor]]].
Qed.

(** ** The steps preserve the invariant and are simulated *)

Ltac idx_in := unfold t_idx; cbn; rewrite !elem_of_cons; tauto.

(** What the threads' requests depend on. *)
Lemma formatted_ext s s' t :
  (forall i, i ∈ t_idx t -> v_desc s' !!! i = v_desc s !!! i) ->
  v_ops s' !!! t_i0 t = v_ops s !!! t_i0 t ->
  in_b (v_info s' !!! t_i0 t) = in_b (v_info s !!! t_i0 t) -> formatted s t -> formatted s' t.
Proof.
  intros Hd Ho Hi [H0 H1 H2 H3 H4 H5]. split; rewrite ?Hd by idx_in; congruence.
Qed.

Lemma negb_bool_decide_ext (P Q : Prop) `{!Decision P} `{!Decision Q} :
  (P <-> Q) -> negb (bool_decide P) = negb (bool_decide Q).
Proof. intros H. f_equal. by apply bool_decide_ext. Qed.

Lemma phase_ext s s' t : (t_i0 t ∈ pending s' <-> t_i0 t ∈ pending s) ->
  in_status (v_info s' !!! t_i0 t) = in_status (v_info s !!! t_i0 t) -> phase_of s' t = phase_of s t.
Proof. intros Hp Hs. unfold phase_of. rewrite Hs. by rewrite (bool_decide_ext _ _ Hp). Qed.

(** What the unfinished request depends on. *)
Lemma forming_ext s s' t n :
  (forall i, i ∈ t_idx t -> v_desc s' !!! i = v_desc s !!! i) ->
  v_ops s' !!! t_i0 t = v_ops s !!! t_i0 t -> in_b (v_info s' !!! t_i0 t) = in_b (v_info s !!! t_i0 t) ->
  v_busy s' = v_busy s -> v_avail s' = v_avail s -> v_avail_idx s' = v_avail_idx s ->
  forming s t n -> forming s' t n.
Proof.
  intros Hd Ho Hi Hb Ha Hx [H1 H2 H3 H4 H5 H6 H7 H8 H9]. split; rewrite ?Hd, ?Ho, ?Hi, ?Hb, ?Ha, ?Hx by idx_in; done.
Qed.

(** The allocation of descriptors takes them from the free ones and touches nothing a
    request depends on. *)
Lemma vinv_taken s s' l rsv ts ack x : vinv s [] ts ack -> vsim s ts x -> dtaken s l s' ->
  NoDup rsv -> (forall i, i ∈ rsv <-> i ∈ l) -> vinv s' rsv ts ack /\ vsim s' ts x.
Proof.
  intros I X [E [El1 El2] F D N] Hn Hl. destruct (vi_lens _ _ _ _ I) as (L1 & L2 & L3 & L4 & L5 & L6).
  assert (Hnew : forall i, i ∈ l -> i ∉ idxs ts).
  { intros i Hi. destruct (N i Hi) as [_ Hf]. by apply (vi_free _ _ _ _ I) in Hf as [_ ?]. }
  assert (Hf : forall t, t ∈ ts -> formatted s' t).
  { intros t Ht. eapply formatted_ext; [| | |by apply (vi_fmt _ _ _ _ I)]; [|by rewrite E..].
    intros i Hi. apply D. destruct (nth i (v_free s) false) eqn:Ef; [|done].
    apply (vi_free _ _ _ _ I) in Ef as [_ []]. apply elem_of_idxs. eauto. }
  split.
  - split; try done; try (rewrite E; apply I).
    + rewrite E. cbn. done.
    + apply NoDup_app. split_and!; [done| |apply I]. intros i Hi. by apply Hnew, Hl.
    + intros i. rewrite F, andb_true_iff, (vi_free _ _ _ _ I), negb_true_iff, bool_decide_eq_false.
      change ([] ++ idxs ts) with (idxs ts). rewrite not_elem_of_app, <- Hl. tauto.
    + intros i [Hi%Hl%N|Hi]%elem_of_app; [tauto|]. by apply (vi_range _ _ _ _ I).
    + apply I.
  - split; try apply X; rewrite E; apply X.
Qed.

(** The stores of a request before the one that issues it change reserved descriptors, a
    buffer without a request and a part of the ring the device does not look at. *)
Lemma vinv_private s s' rsv ts ack x : vinv s rsv ts ack -> vsim s ts x ->
  s' = Vst (v_desc s') (v_free s) (v_info s') (v_ops s') (v_avail s') (v_avail_idx s) (v_used s)
    (v_used_at s) (v_used_idx s) (v_seen s) (v_flight s) (v_busy s') (v_data s) (v_disk s) ->
  length (v_desc s') = 8%nat /\ length (v_info s') = 8%nat /\ length (v_ops s') = 8%nat /\ length (v_avail s') = 8%nat ->
  qavail s' = qavail s ->
  (forall i, i ∉ rsv -> v_desc s' !!! i = v_desc s !!! i /\ v_ops s' !!! i = v_ops s !!! i /\
     v_info s' !!! i = v_info s !!! i) ->
  (forall t, t ∈ ts -> v_busy s' (t_b t) = v_busy s (t_b t)) ->
  vinv s' rsv ts ack /\ vsim s' ts x.
Proof.
  intros I X E (K1 & K3 & K4 & K5) Eq Hd Hb. destruct (vi_lens _ _ _ _ I) as (L1 & L2 & L3 & L4 & L5 & L6).
  assert (Hout : forall t i, t ∈ ts -> i ∈ t_idx t -> i ∉ rsv).
  { intros t i Ht Hi Hr. destruct (proj1 (NoDup_app _ _) (vi_nodup _ _ _ _ I)) as (_ & H & _).
    apply (H i Hr), elem_of_idxs. eauto. }
  assert (Ep : pending s' = pending s) by (unfold pending; rewrite Eq, E; done).
  assert (Eu : qused s' = qused s) by (rewrite E; done).
  split.
  - split; try apply I; try (rewrite E; apply I).
    + rewrite E. cbn. done.
    + rewrite Ep, Eu. apply I.
    + intros t Ht. eapply formatted_ext; [| | |by apply (vi_fmt _ _ _ _ I)].
      * intros i Hi. by apply Hd, (Hout t).
      * apply Hd, (Hout t); [done|apply head_idx].
      * f_equal. apply Hd, (Hout t); [done|apply head_idx].
    + intros t Ht. rewrite Hb by done. by apply I.
    + intros t Ht Ha. destruct (Hd (t_i0 t)) as (_ & _ & ->); [apply (Hout t); [done|apply head_idx]|].
      by apply (vi_status _ _ _ _ I).
  - split; try apply X; try (rewrite E; apply X). intros t Ht. rewrite (vs_out _ _ _ X) by done.
    f_equal. f_equal. symmetry. apply phase_ext; [by rewrite Ep|]. f_equal.
    apply Hd, (Hout t); [done|apply head_idx].
Qed.

Section Issue.
Context (s : vst) (t : thr) (ts : list thr) (ack : list nat) (x : adisk).
Context (I : vinv s (t_idx t) ts ack) (X : vsim s ts x) (Hb : unused (t_b t) ts).

Lemma issue_fresh i : i ∈ t_idx t -> (i < 8)%nat /\ (i ∉ idxs ts).
Proof.
  intros Hi. destruct (proj1 (NoDup_app _ _) (vi_nodup _ _ _ _ I)) as (_ & H & _).
  split; [|by apply H]. apply (vi_range _ _ _ _ I), elem_of_app. by left.
Qed.

Lemma issue_distinct : t_i0 t <> t_i1 t /\ t_i0 t <> t_i2 t /\ t_i1 t <> t_i2 t.
Proof.
  destruct (proj1 (NoDup_app _ _) (vi_nodup _ _ _ _ I)) as (H & _). unfold t_idx in H.
  rewrite !NoDup_cons, !not_elem_of_cons in H. tauto.
Qed.

Lemma issue_head : t_i0 t ∉ pending s ++ qused s ++ ack.
Proof.
  intros (t' & Ht' & E)%(head_thread _ _ _ _ I). apply (proj2 (issue_fresh (t_i0 t) (head_idx t))).
  apply elem_of_idxs. exists t'. rewrite <- E. split; [apply head_idx|done].
Qed.

Lemma issue_few : (length (qavail s) < 8)%nat.
Proof. pose proof (few_heads _ _ _ _ I). pose proof (few_threads _ _ _ _ I). lia. Qed.

Lemma outside i : i ∉ t_idx t -> i <> t_i0 t /\ i <> t_i1 t /\ i <> t_i2 t.
Proof. unfold t_idx. rewrite !not_elem_of_cons. tauto. Qed.

Lemma busy_other t' : t' ∈ ts -> t_b t' <> t_b t.
Proof. intros Ht' E. apply Hb. rewrite <- E. apply list_elem_of_fmap. eauto. Qed.

(** Each store but the last. *)
Lemma vinv_write n f : forming s t n -> t_writes t !! n = Some f -> (n < 8)%nat ->
  vinv (f s) (t_idx t) ts ack /\ vsim (f s) ts x.
Proof.
  intros Fo Hf Hn. destruct (vi_lens _ _ _ _ I) as (L1 & L2 & L3 & L4 & L5 & L6).
  destruct (issue_fresh (t_i0 t) ltac:(idx_in)) as [R0 _], (issue_fresh (t_i1 t) ltac:(idx_in)) as [R1 _],
    (issue_fresh (t_i2 t) ltac:(idx_in)) as [R2 _].
  do 8 (destruct n as [|n]; [injection Hf as <-; apply (vinv_private s); [exact I|exact X|done|..]; cbn;
    [by rewrite ?length_insert, ?length_rset
    |first [done|apply rqueue_hidden; [done|apply issue_few]]
    |intros i (N0 & N1 & N2)%outside; rewrite ?total_insert by lia; by rewrite ?decide_False by done
    |intros t' Ht'; by rewrite ?decide_False by (by apply busy_other)]|]).
  lia.
Qed.

Lemma forming_write n f : forming s t n -> t_writes t !! n = Some f -> (n < 8)%nat -> forming (f s) t (S n).
Proof.
  intros [F1 F2 F3 F4 F5 F6 F7 F8 F9] Hf Hn. destruct (vi_lens _ _ _ _ I) as (L1 & L2 & L3 & L4 & L5 & L6).
  destruct (issue_fresh (t_i0 t) ltac:(idx_in)) as [R0 _], (issue_fresh (t_i1 t) ltac:(idx_in)) as [R1 _],
    (issue_fresh (t_i2 t) ltac:(idx_in)) as [R2 _]. destruct issue_distinct as (A1 & A2 & A3).
  assert (Es : sector (t_blk t) = 2 * t_blk t).
  { unfold sector. change (BSIZE / 512) with 2. by rewrite u32_small, Z.mul_comm by lia. }
  do 8 (destruct n as [|n]; [injection Hf as <-; split; cbn; intros; try lia;
    rewrite ?total_insert by lia;
    repeat ((rewrite decide_True by done) || (rewrite decide_False by (intros ?; congruence))); rewrite ?Es; cbn;
    first [done|match goal with F : _ -> ?G |- ?G => apply F; lia end|apply rget_put; lia]|]).
  lia.
Qed.

(** The last store: the request is visible and complete. *)
Lemma publish_queue : forming s t 8 ->
  qavail (set_avail_idx (u16 (v_avail_idx s + 1)) s) = qavail s ++ [t_i0 t].
Proof.
  intros Fo. unfold qavail. cbn. destruct (vi_lens _ _ _ _ I) as (_ & _ & _ & _ & L5 & _).
  rewrite rqueue_publish by (done || apply issue_few). by rewrite (fo_ring _ _ _ Fo), Nat2Z.id by lia.
Qed.

Lemma forming_formatted : forming s t 8 -> formatted s t.
Proof. intros [F1 F2 F3 F4 F5 F6 F7 F8 F9]. split; auto with lia. Qed.

Lemma vinv_publish : forming s t 8 -> vinv (set_avail_idx (u16 (v_avail_idx s + 1)) s) [] (t :: ts) ack.
Proof.
  intros Fo. pose proof (publish_queue Fo) as Eq. pose proof issue_head as Hh. rewrite !not_elem_of_app in Hh.
  destruct Hh as (_ & _ & Hna). split; try apply I.
  - destruct (vi_idx _ _ _ _ I) as (X1 & X2 & X3 & X4). split_and!; try done. apply u16_range.
  - unfold pending. rewrite Eq. cbn. rewrite <- (vi_perm _ _ _ _ I). unfold pending.
    rewrite <- !app_assoc. cbn. symmetry. apply Permutation_middle.
  - cbn. constructor; [exact Hb|apply I].
  - intros t' [->|Ht']%elem_of_cons.
    + by eapply formatted_ext; [..|by apply forming_formatted].
    + by eapply formatted_ext; [..|by apply (vi_fmt _ _ _ _ I)].
  - intros t' [->|Ht']%elem_of_cons; [|by apply I]. cbn. rewrite (fo_busy _ _ _ Fo) by lia.
    by rewrite bool_decide_eq_false_2.
  - intros t' [->|Ht']%elem_of_cons; [done|]. by apply (vi_status _ _ _ _ I).
Qed.

Lemma vsim_publish : forming s t 8 -> vsim (set_avail_idx (u16 (v_avail_idx s + 1)) s) (t :: ts)
  (ADisk (a_disk x) (a_data x) (upd (a_out x) (t_b t) (Some (t_blk t, t_write t, Queued)))).
Proof.
  intros Fo. pose proof (publish_queue Fo) as Eq. set (s' := set_avail_idx _ s) in *.
  assert (Hp : forall i, i ∈ pending s' <-> i = t_i0 t \/ i ∈ pending s).
  { intros i. unfold pending. rewrite Eq, !elem_of_app, elem_of_cons, elem_of_nil. cbn. tauto. }
  split; cbn; try apply X.
  - intros t' [->|Ht']%elem_of_cons; unfold upd.
    + rewrite decide_True by done. unfold phase_of. rewrite bool_decide_eq_true_2; [done|]. apply Hp. by left.
    + rewrite decide_False by (by apply busy_other). rewrite (vs_out _ _ _ X) by done. f_equal. f_equal.
      symmetry. apply phase_ext; [|done]. rewrite Hp. split; [|tauto]. intros [E|]; [|done].
      destruct (proj2 (issue_fresh (t_i0 t) (head_idx t))). apply elem_of_idxs. exists t'. rewrite <- E.
      split; [apply head_idx|done].
  - intros b' Hu. unfold unused in Hu. cbn in Hu. apply not_elem_of_cons in Hu as [H1 H2].
    unfold upd. rewrite decide_False by done. by apply (vs_none _ _ _ X).
Qed.
End Issue.

Lemma vinv_fill s rsv ts ack x b d : vinv s rsv ts ack -> vsim s ts x -> length d = 1024%nat ->
  vinv (set_data b d s) rsv ts ack /\ vsim (set_data b d s) ts (ADisk (a_disk x) (upd (a_data x) b d) (a_out x)).
Proof.
  intros I X Hd. split.
  - split; try apply I.
    + intros t Ht. eapply formatted_ext; [..|by apply (vi_fmt _ _ _ _ I)]; done.
    + intros b'. cbn. case_decide; [done|apply I].
  - split; try apply X. intros b'. cbn. unfold upd. case_decide; [done|apply X].
Qed.

(** ** The device's steps *)

(** What the driver and the unfinished request depend on, and the device leaves alone. *)
Record dev_keeps (s s' : vst) (rsv : list nat) : Prop := {
  dk_desc : v_desc s' = v_desc s;
  dk_ops : v_ops s' = v_ops s;
  dk_busy : v_busy s' = v_busy s;
  dk_avail : v_avail s' = v_avail s;
  dk_avail_idx : v_avail_idx s' = v_avail_idx s;
  dk_info i : i ∈ rsv -> v_info s' !!! i = v_info s !!! i;
  dk_used : qused s <> [] -> qused s' <> []
}.

Lemma dev_keeps_forming s s' t n : dev_keeps s s' (t_idx t) -> forming s t n -> forming s' t n.
Proof.
  intros [H1 H2 H3 H4 H5 H6 _] F. eapply forming_ext; [..|exact F]; try done.
  - intros i _. by rewrite H1.
  - by rewrite H2.
  - f_equal. apply H6, head_idx.
Qed.

Lemma vinv_fetch s rsv ts ack x : vinv s rsv ts ack -> vsim s ts x -> v_seen s <> v_avail_idx s ->
  let s' := set_seen (u16 (v_seen s + 1))
    (set_flight (v_flight s ++ [Z.to_nat (rget (v_avail s) (v_seen s))]) s) in
  vinv s' rsv ts ack /\ vsim s' ts x.
Proof.
  intros I X Hn s'. destruct (vi_lens _ _ _ _ I) as (_ & _ & _ & _ & L5 & _).
  destruct (vi_idx _ _ _ _ I) as (X1 & X2 & X3 & X4).
  assert (Hp : pending s' ≡ₚ pending s).
  { unfold pending, qavail. rewrite (rqueue_take (v_avail s) (v_seen s)) by done. cbn.
    rewrite app_assoc. symmetry. apply Permutation_cons_append. }
  split.
  - split; try apply I.
    + split_and!; try done. apply u16_range.
    + rewrite Hp. apply I.
    + intros t Ht. eapply formatted_ext; [..|by apply (vi_fmt _ _ _ _ I)]; done.
  - split; try apply X. intros t Ht. rewrite (vs_out _ _ _ X) by done. f_equal. f_equal.
    symmetry. apply phase_ext; [by rewrite Hp|done].
Qed.

(** The device reads from a chain what the driver put into it. *)
Lemma request_formatted s t : formatted s t ->
  request s (t_i0 t) =
    Some (BlkReq (if t_write t then VIRTIO_BLK_T_OUT else VIRTIO_BLK_T_IN) (2 * t_blk t), t_b t, BSIZE,
      negb (t_write t), t_i0 t).
Proof.
  intros [H0 H1 H2 H3 _ _]. unfold request. rewrite H0. cbn [d_next]. rewrite H1. cbn [d_next]. rewrite H2. cbn.
  rewrite H3. by destruct (t_write t).
Qed.

Section Complete.
Context (s s0 : vst) (rsv : list nat) (ts : list thr) (ack : list nat) (t : thr) (f1 f2 : list nat) (st : Z).
Context (I : vinv s rsv ts ack) (Ht : t ∈ ts) (Hf : v_flight s = f1 ++ t_i0 t :: f2).
Context (E : s0 = Vst (v_desc s) (v_free s) (v_info s) (v_ops s) (v_avail s) (v_avail_idx s) (v_used s)
    (v_used_at s) (v_used_idx s) (v_seen s) (v_flight s) (v_busy s) (v_data s0) (v_disk s0)).
Context (Hd : forall b, length (v_data s0 b) = 1024%nat) (Hk : forall k, length (v_disk s0 k) = 512%nat).
Let s' := complete st (t_i0 t) (t_i0 t) (f1 ++ f2) s0.

Lemma complete_fields : qavail s' = qavail s /\ v_flight s' = f1 ++ f2 /\ qused s' = qused s ++ [t_i0 t] /\
  v_info s' = <[t_i0 t := Info (in_b (v_info s !!! t_i0 t)) st]> (v_info s).
Proof.
  destruct (vi_lens _ _ _ _ I) as (_ & _ & _ & _ & _ & L6). destruct (vi_idx _ _ _ _ I) as (X1 & X2 & X3 & X4).
  unfold s', complete, qavail, qused. rewrite E. cbn. split_and!; try done.
  rewrite rqueue_put, Nat2Z.id; try done.
  pose proof (few_heads _ _ _ _ I). pose proof (few_threads _ _ _ _ I). unfold qused in *. lia.
Qed.

Lemma complete_perm : pending s' ++ qused s' ++ ack ≡ₚ pending s ++ qused s ++ ack.
Proof.
  destruct complete_fields as (Ea & Ef & Eu & _). unfold pending. rewrite Ea, Ef, Eu, Hf.
  rewrite <- !app_assoc. cbn. apply Permutation_app_head.
  rewrite (app_assoc f1 f2). rewrite (app_assoc (f1 ++ f2)). rewrite <- Permutation_middle.
  rewrite <- Permutation_middle. by rewrite <- !app_assoc.
Qed.

Lemma complete_pending t' : t' ∈ ts -> t' <> t -> t_i0 t' ∈ pending s' <-> t_i0 t' ∈ pending s.
Proof.
  intros Ht' Hne. destruct complete_fields as (Ea & Ef & _). unfold pending. rewrite Ea, Ef, Hf.
  rewrite !elem_of_app, elem_of_cons. split; [tauto|]. intros [?|[?|[E'|?]]]; try tauto.
  destruct Hne. eapply head_unique; [by eapply idxs_nodup|done..].
Qed.

Lemma complete_done : t_i0 t ∈ pending s /\ t_i0 t ∉ pending s'.
Proof.
  split.
  - unfold pending. rewrite Hf, !elem_of_app, elem_of_cons. tauto.
  - pose proof (heads_disjoint _ _ _ _ I) as H. rewrite <- complete_perm in H.
    apply NoDup_app in H as (_ & H & _). intros Hp. apply (H _ Hp).
    destruct complete_fields as (_ & _ & -> & _). rewrite !elem_of_app, elem_of_cons. tauto.
Qed.

Lemma vinv_complete : vinv s' rsv ts ack.
Proof.
  destruct complete_fields as (Ea & Ef & Eu & Ei).
  destruct (vi_lens _ _ _ _ I) as (L1 & L2 & L3 & L4 & L5 & L6). destruct (vi_idx _ _ _ _ I) as (X1 & X2 & X3 & X4).
  destruct (thread_range _ _ _ _ I t Ht) as (R0 & _).
  assert (Eb : v_busy s' = v_busy s) by (unfold s', complete; rewrite E; done).
  assert (Efr : v_free s' = v_free s) by (unfold s', complete; rewrite E; done).
  split; try apply I.
  - unfold s', complete. rewrite E. cbn. rewrite length_insert, length_rset. done.
  - unfold s', complete. rewrite E. cbn. split_and!; try done. apply u16_range.
  - rewrite complete_perm. apply I.
  - rewrite Efr. apply I.
  - intros t' Ht'. eapply formatted_ext; [| | |by apply (vi_fmt _ _ _ _ I)].
    + intros i _. unfold s', complete. by rewrite E.
    + unfold s', complete. by rewrite E.
    + rewrite Ei, total_insert by lia. case_decide as Ej; [by rewrite Ej|done].
  - rewrite Eb. apply I.
  - intros t' Ht' Ha. rewrite Ei, total_insert by lia. case_decide as Ej; [|by apply (vi_status _ _ _ _ I)].
    destruct (proj1 (NoDup_app _ _) (heads_disjoint _ _ _ _ I)) as (_ & H & _).
    destruct (H (t_i0 t)); [apply complete_done|]. rewrite <- Ej, elem_of_app. tauto.
  - exact Hd.
  - exact Hk.
Qed.

(** The abstract disk executes the request. *)
Lemma vsim_complete x d m :
  vsim s ts x -> (forall n, 0 <= n < 2 ^ 31 -> d n = blk_of (v_disk s0) n) -> (forall b, m b = v_data s0 b) ->
  vsim s' ts (ADisk d m (upd (a_out x) (t_b t)
    (Some (t_blk t, t_write t, if st =? 0 then Executed else Failed)))).
Proof.
  intros X Hdd Hm. destruct complete_fields as (_ & _ & _ & Ei).
  destruct (vi_lens _ _ _ _ I) as (_ & _ & L3 & _). destruct (thread_range _ _ _ _ I t Ht) as (R0 & _).
  split; cbn; [done|done| |].
  - intros t' Ht'. unfold upd. case_decide as Eb.
    + assert (t' = t) as ->.
      { eapply (fmap_inj_elem t_b); [apply I|done..]. }
      unfold phase_of. rewrite bool_decide_eq_false_2 by apply complete_done.
      by rewrite Ei, total_insert, decide_True by lia.
    + rewrite (vs_out _ _ _ X) by done. f_equal. f_equal. symmetry.
      assert (Hne : t' <> t) by congruence. apply phase_ext; [by apply complete_pending|].
      rewrite Ei, total_insert by lia. rewrite decide_False; [done|]. intros E'. apply Hne.
      eapply head_unique; [by eapply idxs_nodup|done..].
  - intros b Hb. unfold upd. rewrite decide_False; [by apply (vs_none _ _ _ X)|].
    intros ->. apply Hb, list_elem_of_fmap. eauto.
Qed.

Lemma keeps_complete : dev_keeps s s' rsv.
Proof.
  destruct complete_fields as (_ & _ & Eu & Ei).
  destruct (vi_lens _ _ _ _ I) as (_ & _ & L3 & _). destruct (thread_range _ _ _ _ I t Ht) as (R0 & _).
  split; try (unfold s', complete; rewrite E; done).
  - intros i Hi. rewrite Ei, total_insert by lia. rewrite decide_False; [done|]. intros ->.
    destruct (proj1 (NoDup_app _ _) (vi_nodup _ _ _ _ I)) as (_ & H & _). apply (H _ Hi).
    apply elem_of_idxs. exists t. split; [apply head_idx|done].
  - intros _. rewrite Eu. by destruct (qused s).
Qed.
End Complete.

Lemma blk_store d blk bs n : length bs = 1024%nat -> 0 <= blk -> 0 <= n ->
  blk_of (store_sectors d (2 * blk) BSIZE bs) n = if decide (n = blk) then bs else blk_of d n.
Proof.
  intros Hl Hb Hn. unfold blk_of, store_sectors. change (BSIZE / 512) with 2.
  destruct (decide (n = blk)) as [->|E].
  - rewrite !decide_True by lia.
    replace (Z.to_nat (512 * (2 * blk - 2 * blk))) with 0%nat by lia.
    replace (Z.to_nat (512 * (2 * blk + 1 - 2 * blk))) with 512%nat by lia. rewrite drop_0.
    rewrite (take_ge (drop 512 bs)) by (rewrite length_drop; lia). apply take_drop.
  - by rewrite !decide_False by lia.
Qed.

Lemma length_store d blk bs k : length bs = 1024%nat -> length (d k) = 512%nat ->
  length (store_sectors d (2 * blk) BSIZE bs k) = 512%nat.
Proof.
  intros Hl Hd. unfold store_sectors. change (BSIZE / 512) with 2. case_decide; [|done].
  rewrite length_take, length_drop. lia.
Qed.

Lemma blk_load d blk : load_sectors d (2 * blk) BSIZE = blk_of d blk.
Proof.
  unfold load_sectors, blk_of. change (seqZ (2 * blk) (BSIZE / 512)) with [0 + 2 * blk; 1 + 2 * blk].
  cbn [map concat]. rewrite app_nil_r. f_equal; f_equal; lia.
Qed.

(** A device step the specification allows is a step of the abstract disk. *)
Section Device.
Context (s : vst) (rsv : list nat) (ts : list thr) (ack : list nat) (x : adisk).
Context (I : vinv s rsv ts ack) (X : vsim s ts x).
Let good s' := vinv s' rsv ts ack /\ dev_keeps s s' rsv /\ exists x', astep x [] x' /\ vsim s' ts x'.

Lemma flight_thread f1 id f2 : v_flight s = f1 ++ id :: f2 -> exists t, t ∈ ts /\ t_i0 t = id /\
  request s id = Some (BlkReq (if t_write t then VIRTIO_BLK_T_OUT else VIRTIO_BLK_T_IN) (2 * t_blk t), t_b t, BSIZE,
      negb (t_write t), t_i0 t) /\
  a_out x (t_b t) = Some (t_blk t, t_write t, Queued).
Proof.
  intros E. assert (Hp : id ∈ pending s) by (unfold pending; rewrite E, !elem_of_app, elem_of_cons; tauto).
  destruct (head_thread _ _ _ _ I id) as (t & Ht & <-); [rewrite elem_of_app; tauto|].
  exists t. split_and!; [done|done|by apply request_formatted, (vi_fmt _ _ _ _ I)|].
  rewrite (vs_out _ _ _ X) by done. unfold phase_of. by rewrite bool_decide_eq_true_2.
Qed.

(** The request of [t] ends with status [st], the sectors [d] and the buffers [m]. *)
Lemma good_complete t f1 f2 st d m a am :
  t ∈ ts -> v_flight s = f1 ++ t_i0 t :: f2 ->
  (forall b, length (m b) = 1024%nat) -> (forall k, length (d k) = 512%nat) ->
  astep x [] (ADisk a am (upd (a_out x) (t_b t) (Some (t_blk t, t_write t, if st =? 0 then Executed else Failed)))) ->
  (forall n, 0 <= n < 2 ^ 31 -> a n = blk_of d n) -> (forall b, am b = m b) ->
  good (complete st (t_i0 t) (t_i0 t) (f1 ++ f2)
    (Vst (v_desc s) (v_free s) (v_info s) (v_ops s) (v_avail s) (v_avail_idx s) (v_used s)
      (v_used_at s) (v_used_idx s) (v_seen s) (v_flight s) (v_busy s) m d)).
Proof.
  intros Ht Ef Hm Hd A Ha Ham. split_and!.
  - by apply (vinv_complete s _ rsv ts ack t f1 f2 st I Ht Ef).
  - by apply (keeps_complete s _ rsv ts ack t f1 f2 st I Ht).
  - eexists. split; [exact A|]. by apply (vsim_complete s _ rsv ts ack t f1 f2 st I Ht Ef).
Qed.

Lemma thread_blk t : t ∈ ts -> 0 <= t_blk t < 2 ^ 31.
Proof. intros Ht. apply (fm_blk s). by apply (vi_fmt _ _ _ _ I). Qed.

Lemma good_write f1 id f2 sec b len k :
  v_flight s = f1 ++ id :: f2 -> request s id = Some (BlkReq VIRTIO_BLK_T_OUT sec, b, len, false, k) ->
  good (complete 0 id k (f1 ++ f2) (set_sectors (store_sectors (v_disk s) sec len (v_data s b)) s)).
Proof.
  intros Ef Er. destruct (flight_thread f1 id f2 Ef) as (t & Ht & <- & Er' & Ho). rewrite Er in Er'.
  destruct (t_write t) eqn:Ew; [|done]. simplify_eq. pose proof (thread_blk t Ht) as Hb.
  apply (good_complete t f1 f2 0 _ _ (upd (a_disk x) (t_blk t) (a_data x (t_b t))) (a_data x)); [done|done|apply I|..].
  - intros k. apply length_store; [apply I|apply I].
  - rewrite Ew in *. destruct x. by apply A_write.
  - intros n Hn. rewrite blk_store by (done || lia || apply (vi_data _ _ _ _ I)).
    unfold upd. by rewrite (vs_disk _ _ _ X n Hn), (vs_data _ _ _ X).
  - apply (vs_data _ _ _ X).
Qed.

Lemma good_read f1 id f2 sec b len k :
  v_flight s = f1 ++ id :: f2 -> request s id = Some (BlkReq VIRTIO_BLK_T_IN sec, b, len, true, k) ->
  good (complete 0 id k (f1 ++ f2) (set_data b (load_sectors (v_disk s) sec len) s)).
Proof.
  intros Ef Er. destruct (flight_thread f1 id f2 Ef) as (t & Ht & <- & Er' & Ho). rewrite Er in Er'.
  destruct (t_write t) eqn:Ew; [done|]. simplify_eq. pose proof (thread_blk t Ht) as Hb. rewrite blk_load.
  apply (good_complete t f1 f2 0 _ _ (a_disk x) (upd (a_data x) (t_b t) (a_disk x (t_blk t)))); [done|done|..].
  - intros b. case_decide; [|apply I]. unfold blk_of. by rewrite length_app, !(vi_sec _ _ _ _ I).
  - apply I.
  - rewrite Ew in *. destruct x. by apply A_read.
  - apply (vs_disk _ _ _ X).
  - intros b. unfold upd. by rewrite (vs_disk _ _ _ X _ Hb), (vs_data _ _ _ X).
Qed.

Lemma good_write_fail f1 id f2 sec b len k st d :
  v_flight s = f1 ++ id :: f2 -> request s id = Some (BlkReq VIRTIO_BLK_T_OUT sec, b, len, false, k) ->
  st <> 0 -> (forall j, length (d j) = 512%nat) ->
  (forall j, ~ (sec <= j < sec + len / 512) -> d j = v_disk s j) ->
  good (complete st id k (f1 ++ f2) (set_sectors d s)).
Proof.
  intros Ef Er Hst Hl Hd. destruct (flight_thread f1 id f2 Ef) as (t & Ht & <- & Er' & Ho). rewrite Er in Er'.
  destruct (t_write t) eqn:Ew; [|done]. simplify_eq. pose proof (thread_blk t Ht) as Hb.
  apply (good_complete t f1 f2 st _ _ (upd (a_disk x) (t_blk t) (blk_of d (t_blk t))) (a_data x)); [done|done|apply I|done|..].
  - rewrite Ew, (proj2 (Z.eqb_neq _ _) Hst) in *. destruct x. apply A_write_fail; [done|].
    unfold blk_of. by rewrite length_app, !Hl.
  - intros n Hn. unfold upd. case_decide as En; [by rewrite En|]. rewrite (vs_disk _ _ _ X n Hn).
    unfold blk_of. change (BSIZE / 512) with 2 in Hd. by rewrite !Hd by lia.
  - apply (vs_data _ _ _ X).
Qed.

Lemma good_read_fail f1 id f2 sec b len k st bs :
  v_flight s = f1 ++ id :: f2 -> request s id = Some (BlkReq VIRTIO_BLK_T_IN sec, b, len, true, k) ->
  st <> 0 -> length bs = Z.to_nat len -> good (complete st id k (f1 ++ f2) (set_data b bs s)).
Proof.
  intros Ef Er Hst Hl. destruct (flight_thread f1 id f2 Ef) as (t & Ht & <- & Er' & Ho). rewrite Er in Er'.
  destruct (t_write t) eqn:Ew; [done|]. simplify_eq.
  apply (good_complete t f1 f2 st _ _ (a_disk x) (upd (a_data x) (t_b t) bs)); [done|done|..].
  - intros b. case_decide; [done|apply I].
  - apply I.
  - rewrite Ew, (proj2 (Z.eqb_neq _ _) Hst) in *. destruct x. by apply A_read_fail.
  - apply (vs_disk _ _ _ X).
  - intros b. unfold upd. case_decide; [done|apply (vs_data _ _ _ X)].
Qed.

Lemma vinv_device s' : dev_spec s s' -> good s'.
Proof.
  intros H. inversion H as [? Hn|? f1 id f2 sec b len k Ef Er|? f1 id f2 sec b len k Ef Er
    |? f1 id f2 sec b len k st d Ef Er Hst Hl Hd|? f1 id f2 sec b len k st bs Ef Er Hst Hl|? id ? Hid N1 N2]; subst.
  - destruct (vinv_fetch s rsv ts ack x I X Hn) as [I' X']. split_and!; [done|by split|].
    exists x. split; [constructor|done].
  - by apply (good_write f1 id f2 sec b len k).
  - by apply (good_read f1 id f2 sec b len k).
  - by apply (good_write_fail f1 id f2 sec b len k).
  - by apply (good_read_fail f1 id f2 sec b len k).
  - apply list_elem_of_split in Hid as (f1 & f2 & Ef).
    destruct (flight_thread f1 id f2 Ef) as (t & Ht & <- & Er & _).
    destruct (t_write t); [by destruct (N1 _ _ _ _ Er)|by destruct (N2 _ _ _ _ Er)].
Qed.
End Device.

(** ** The interrupt handler *)

Lemma used_test s rsv ts ack : vinv s rsv ts ack -> virtio_intr_test s = true <-> qused s <> [].
Proof.
  intros I. destruct (vi_idx _ _ _ _ I) as (X1 & X2 & X3 & X4). unfold virtio_intr_test, qused.
  rewrite rqueue_nil by done. rewrite negb_true_iff. apply Z.eqb_neq.
Qed.

(** One completion: the head of the used queue is acknowledged. *)
Lemma vinv_ack s rsv ts ack x id q t : vinv s rsv ts ack -> vsim s ts x -> qused s = id :: q ->
  t ∈ ts -> t_i0 t = id -> in_status (v_info s !!! id) = 0 ->
  let s' := set_used_idx (u16 (v_used_idx s + 1)) (set_busy (t_b t) false s) in
  vinv s' rsv ts (id :: ack) /\ vsim s' ts x /\ qused s' = q.
Proof.
  intros I X Hq Ht E Hst s'. destruct (vi_idx _ _ _ _ I) as (X1 & X2 & X3 & X4).
  destruct (vi_lens _ _ _ _ I) as (_ & _ & _ & _ & _ & L6).
  assert (Hne : v_used_idx s <> v_used_at s).
  { intros En. apply (rqueue_nil (v_used s)) in En; [|done..]. unfold qused in Hq. congruence. }
  assert (Hq' : qused s' = q).
  { unfold qused in *. rewrite rqueue_take in Hq by done. by simplify_eq. }
  split_and!; [| |done].
  - split; try apply I.
    + split_and!; try done. apply u16_range.
    + rewrite Hq'. rewrite <- (vi_perm _ _ _ _ I), Hq. cbn. apply Permutation_app_head.
      symmetry. apply Permutation_middle.
    + intros t' Ht'. eapply formatted_ext; [..|by apply (vi_fmt _ _ _ _ I)]; done.
    + intros t' Ht'. cbn. destruct (decide (t' = t)) as [->|Hn].
      * rewrite decide_True by done. rewrite bool_decide_eq_true_2; [done|]. rewrite E. apply list_elem_of_here.
      * rewrite decide_False. 2: { intros Eb. apply Hn. eapply (fmap_inj_elem t_b); [apply I|done..]. }
        rewrite (vi_busy _ _ _ _ I) by done. apply negb_bool_decide_ext. rewrite elem_of_cons.
        split; [tauto|]. intros [E'|]; [|done]. destruct Hn.
        eapply head_unique; [by eapply idxs_nodup|done|done|congruence].
    + intros t' Ht' [E'|Ha]%elem_of_cons; [by rewrite E'|]. by apply (vi_status _ _ _ _ I).
  - split; apply X.
Qed.

(** A round panics exactly when the device has reported an error. *)
Lemma round_spec s rsv ts ack x : vinv s rsv ts ack -> vsim s ts x -> qused s <> [] ->
  exists t q, t ∈ ts /\ qused s = t_i0 t :: q /\
    if in_status (v_info s !!! t_i0 t) =? 0
    then exists s', virtio_intr_round s = VOk tt s' /\ vinv s' rsv ts (t_i0 t :: ack) /\ vsim s' ts x /\
      qused s' = q /\ pending s' = pending s /\ v_info s' = v_info s
    else virtio_intr_round s = VPanic "virtio_disk_intr status".
Proof.
  intros I X Hn. destruct (vi_idx _ _ _ _ I) as (X1 & X2 & X3 & X4).
  destruct (vi_lens _ _ _ _ I) as (_ & _ & _ & _ & _ & L6).
  assert (Hne : v_used_idx s <> v_used_at s) by (by intros En%(rqueue_nil (v_used s))).
  pose proof (rqueue_take (v_used s) (v_used_idx s) (v_used_at s) L6 X4 X3 Hne) as Hq.
  change (rqueue (v_used s) (v_used_idx s) (v_used_at s)) with (qused s) in Hq.
  destruct (head_thread _ _ _ _ I (Z.to_nat (rget (v_used s) (v_used_idx s)))) as (t & Ht & E).
  { rewrite Hq, !elem_of_app, elem_of_cons. tauto. }
  eexists t, _. split_and!; [done|by rewrite E|]. unfold virtio_intr_round. rewrite <- E in Hq |- *.
  destruct (Z.eqb_spec (in_status (v_info s !!! t_i0 t)) 0) as [Hst|Hst]; [|done]. cbn [negb].
  rewrite (fm_b _ _ (vi_fmt _ _ _ _ I t Ht)). eexists. split; [done|].
  destruct (vinv_ack s rsv ts ack x _ _ t I X Hq Ht eq_refl Hst) as (I' & X' & Hq'). done.
Qed.

Lemma virtio_intr_spec k : forall s ts ack x, vinv s [] ts ack -> vsim s ts x -> (length (qused s) < k)%nat ->
  (forall t, t ∈ ts -> t_i0 t ∈ qused s -> in_status (v_info s !!! t_i0 t) = 0) ->
  exists s' ack', virtio_intr_loop k s = VOk tt s' /\ vinv s' [] ts ack' /\ vsim s' ts x /\ qused s' = [] /\
    pending s' = pending s.
Proof.
  induction k as [|k IH]; intros s ts ack x I X Hk Hok; [lia|]. cbn [virtio_intr_loop].
  destruct (virtio_intr_test s) eqn:Et.
  - apply (used_test _ _ _ _ I) in Et. destruct (round_spec s [] ts ack x I X Et) as (t & q & Ht & Hq & H).
    rewrite Hok in H by (done || rewrite Hq; apply list_elem_of_here).
    destruct H as (s' & -> & I' & X' & Hq' & Hp & Ei). cbn [vbind].
    destruct (IH s' ts _ x I' X') as (s2 & ack2 & E2 & I2 & X2 & Q2 & P2).
    + rewrite Hq'. rewrite Hq in Hk. cbn in Hk. lia.
    + intros t' Ht' Hin. rewrite Ei. apply Hok; [done|]. rewrite Hq, elem_of_cons. rewrite Hq' in Hin. by right.
    + exists s2, ack2. split_and!; try done. congruence.
  - exists s, ack. split_and!; try done. destruct (qused s) eqn:Eq; [done|].
    assert (qused s <> []) as H by congruence. apply (used_test _ _ _ _ I) in H. congruence.
Qed.

(** ** The end of a request *)

Lemma free_chain_spec s ts ack t : vinv s [] ts ack -> t ∈ ts ->
  free_chain (t_i0 t) (set_info (t_i0 t) (Info None (in_status (v_info s !!! t_i0 t))) s) =
    VOk tt (set_free (t_i2 t) true (set_desc (t_i2 t) desc0
      (set_free (t_i1 t) true (set_desc (t_i1 t) desc0
        (set_free (t_i0 t) true (set_desc (t_i0 t) desc0
          (set_info (t_i0 t) (Info None (in_status (v_info s !!! t_i0 t))) s))))))).
Proof.
  intros I Ht. pose proof (vi_fmt _ _ _ _ I t Ht) as F. destruct (thread_range _ _ _ _ I t Ht) as (R0 & R1 & R2).
  destruct (vi_lens _ _ _ _ I) as (L1 & L2 & _).
  assert (t_i0 t <> t_i1 t /\ t_i0 t <> t_i2 t /\ t_i1 t <> t_i2 t) as (A1 & A2 & A3).
  { apply list_elem_of_split in Ht as (l1 & l2 & ->). pose proof (idxs_nodup _ _ _ _ I) as Hn.
    rewrite idxs_app, idxs_cons in Hn. apply NoDup_app in Hn as (_ & _ & Hn). apply NoDup_app in Hn as (Hn & _).
    unfold t_idx in Hn. rewrite !NoDup_cons, !not_elem_of_cons in Hn. clear -Hn. tauto. }
  assert (Hf : forall i, i ∈ t_idx t -> nth i (v_free s) false = false).
  { intros i Hi. destruct (nth i (v_free s) false) eqn:Ef; [|done].
    apply (vi_free _ _ _ _ I) in Ef as [_ []]. apply elem_of_idxs. eauto. }
  unfold free_chain. cbn [free_chain_loop]. cbn [v_desc set_info]. rewrite (fm_d0 _ _ F).
  rewrite free_desc_ok by (done || apply Hf; idx_in). cbn [vbind d_flags d_next].
  change (has VRING_DESC_F_NEXT VRING_DESC_F_NEXT) with true. cbv iota.
  cbn [v_desc set_free set_desc set_info v_free]. rewrite total_insert by lia. rewrite decide_False by done.
  rewrite (fm_d1 _ _ F). cbn [d_flags d_next].
  rewrite free_desc_ok; [|done|cbn [v_free set_free set_desc set_info]; rewrite nth_updated by lia;
    rewrite decide_False by done; apply Hf; idx_in].
  cbn [vbind].
  replace (has _ VRING_DESC_F_NEXT) with true by (by destruct (t_write t)).
  cbn [v_desc set_free set_desc set_info v_free]. rewrite !total_insert by (rewrite ?length_insert; lia).
  rewrite !decide_False by done. rewrite (fm_d2 _ _ F). cbn [d_flags d_next].
  rewrite free_desc_ok; [|done|cbn [v_free set_free set_desc set_info]; rewrite !nth_updated by (rewrite ?length_insert; lia);
    rewrite !decide_False by done; apply Hf; idx_in].
  done.
Qed.

Section Return.
Context (s : vst) (ts1 ts2 : list thr) (t : thr) (ack : list nat) (x : adisk).
Context (I : vinv s [] (ts1 ++ t :: ts2) ack) (X : vsim s (ts1 ++ t :: ts2) x).
Let ts := ts1 ++ t :: ts2.
Let s' := set_free (t_i2 t) true (set_desc (t_i2 t) desc0
  (set_free (t_i1 t) true (set_desc (t_i1 t) desc0
    (set_free (t_i0 t) true (set_desc (t_i0 t) desc0
      (set_info (t_i0 t) (Info None (in_status (v_info s !!! t_i0 t))) s)))))).

Lemma return_in : t ∈ ts.
Proof. unfold ts. rewrite elem_of_app, elem_of_cons. tauto. Qed.

Lemma return_buf t' : t' ∈ ts1 ++ ts2 -> t' ∈ ts /\ t_b t' <> t_b t.
Proof.
  intros Ht'. assert (t' ∈ ts) by (unfold ts; rewrite elem_of_app, elem_of_cons in *; tauto). split; [done|].
  intros E. pose proof (vi_bufs _ _ _ _ I) as Hn. rewrite fmap_app, fmap_cons in Hn.
  apply NoDup_app in Hn as (_ & H1 & [H2 _]%NoDup_cons). apply elem_of_app in Ht' as [Ht'|Ht'].
  - apply (H1 (t_b t)); [|apply list_elem_of_here]. apply list_elem_of_fmap. eauto.
  - apply H2, list_elem_of_fmap. eauto.
Qed.

Lemma return_idx i t' : t' ∈ ts1 ++ ts2 -> i ∈ t_idx t' -> i <> t_i0 t /\ i <> t_i1 t /\ i <> t_i2 t.
Proof.
  intros Ht' Hi. destruct (return_buf t' Ht') as [Hin Hne].
  split_and!; intros ->; apply Hne; f_equal;
    (eapply idx_unique; [apply I|done|apply return_in|exact Hi|idx_in]).
Qed.

Lemma elem_of_return_idx i : i ∈ idxs ts <-> i ∈ t_idx t \/ i ∈ idxs (ts1 ++ ts2).
Proof. unfold ts. rewrite !idxs_app, idxs_cons, !elem_of_app. tauto. Qed.

Lemma return_free i : nth i (v_free s') false = true <-> (i < 8)%nat /\ i ∉ idxs (ts1 ++ ts2).
Proof.
  destruct (thread_range _ _ _ _ I t return_in) as (R0 & R1 & R2).
  destruct (vi_lens _ _ _ _ I) as (L1 & L2 & _).
  cbn. rewrite !nth_updated by (rewrite ?length_insert; lia).
  destruct (decide (i ∈ t_idx t)) as [Hi|Hi]; assert (Hi' := Hi); unfold t_idx in Hi'.
  - rewrite !elem_of_cons, elem_of_nil in Hi'. split.
    + intros _. split; [clear -Hi' R0 R1 R2; lia|]. intros (t' & Hit' & Ht')%elem_of_idxs.
      destruct (return_idx i t' Ht' Hit') as (N0 & N1 & N2). tauto.
    + intros _. repeat (case_decide; [done|]). tauto.
  - rewrite !not_elem_of_cons in Hi'. rewrite !decide_False by tauto.
    rewrite (vi_free _ _ _ _ I). change (ts1 ++ t :: ts2) with ts. rewrite elem_of_return_idx. tauto.
Qed.

Lemma return_perm ack' : ack ≡ₚ t_i0 t :: ack' -> pending s ++ qused s ++ ack' ≡ₚ t_i0 <$> ts1 ++ ts2.
Proof.
  intros Hack. apply (Permutation_cons_inv (a := t_i0 t)).
  rewrite app_assoc, (Permutation_middle _ ack'), <- Hack, <- app_assoc.
  rewrite (vi_perm _ _ _ _ I). rewrite !fmap_app, fmap_cons. symmetry. apply Permutation_middle.
Qed.

Lemma nodup_drop {A} (l1 l2 l3 : list A) : NoDup (l1 ++ l2 ++ l3) -> NoDup (l1 ++ l3).
Proof.
  intros (H1 & H2 & (_ & _ & H3)%NoDup_app)%NoDup_app. apply NoDup_app. split_and!; [done| |done].
  intros i Hi Hi'. apply (H2 i Hi). rewrite elem_of_app. tauto.
Qed.

Lemma vinv_return ack' : ack ≡ₚ t_i0 t :: ack' -> vinv s' [] (ts1 ++ ts2) ack'.
Proof.
  intros Hack. pose proof return_in as Ht. destruct (thread_range _ _ _ _ I t Ht) as (R0 & R1 & R2).
  destruct (vi_lens _ _ _ _ I) as (L1 & L2 & L3 & L4 & L5 & L6).
  assert (Hsub : forall t', t' ∈ ts1 ++ ts2 -> t' ∈ ts) by apply return_buf.
  assert (Hi0 : forall t', t' ∈ ts1 ++ ts2 -> t_i0 t' <> t_i0 t).
  { intros t' Ht'. by apply (return_idx _ t' Ht'), head_idx. }
  split; try apply I.
  - cbn. rewrite !length_insert. done.
  - by apply return_perm.
  - pose proof (idxs_nodup _ _ _ _ I) as Hn. rewrite idxs_app, idxs_cons in Hn. cbn [app]. rewrite idxs_app.
    by eapply nodup_drop.
  - apply return_free.
  - intros i Hi. apply (vi_range _ _ _ _ I). apply elem_of_return_idx. by right.
  - pose proof (vi_bufs _ _ _ _ I) as Hn. rewrite fmap_app, fmap_cons in Hn. rewrite fmap_app.
    by apply (nodup_drop _ [t_b t]).
  - intros t' Ht'. eapply formatted_ext; [| | |by apply (vi_fmt _ _ _ _ I), Hsub].
    + intros i Hi. destruct (return_idx i t' Ht' Hi) as (N0 & N1 & N2). cbn.
      rewrite !total_insert by (rewrite ?length_insert; lia). by rewrite !decide_False.
    + done.
    + cbn. rewrite total_insert by lia. by rewrite decide_False by auto.
  - intros t' Ht'. cbn. rewrite (vi_busy _ _ _ _ I) by (by apply Hsub). apply negb_bool_decide_ext.
    rewrite Hack, elem_of_cons. pose proof (Hi0 t' Ht'). tauto.
  - intros t' Ht' Hq. pose proof (Hi0 t' Ht'). cbn.
    rewrite total_insert by lia. rewrite decide_False by done. apply (vi_status _ _ _ _ I); [by apply Hsub|].
    rewrite Hack, elem_of_cons. tauto.
Qed.

Lemma vsim_return : vsim s' (ts1 ++ ts2) (ADisk (a_disk x) (a_data x) (upd (a_out x) (t_b t) None)).
Proof.
  split; cbn; try apply X.
  - intros t' Ht'. destruct (return_buf t' Ht') as [Hin Hne]. unfold upd. rewrite decide_False by done.
    rewrite (vs_out _ _ _ X) by done. f_equal. f_equal. symmetry. apply phase_ext; [done|]. cbn.
    destruct (vi_lens _ _ _ _ I) as (_ & _ & L3 & _). destruct (thread_range _ _ _ _ I t return_in) as (R0 & _).
    rewrite total_insert by lia. rewrite decide_False; [done|]. by apply (return_idx _ t' Ht'), head_idx.
  - intros b Hb. unfold upd. case_decide as Eb; [done|]. apply (vs_none _ _ _ X). unfold unused in *.
    rewrite fmap_app in *. rewrite fmap_cons. rewrite elem_of_app, elem_of_cons in *. tauto.
Qed.

(** A thread returns exactly when its completion has been seen. *)
Lemma finish_spec :
  virtio_disk_finish (t_b t) (t_i0 t) s = if decide (t_i0 t ∈ ack) then VOk tt s' else VSleep s.
Proof.
  unfold virtio_disk_finish. rewrite (vi_busy _ _ _ _ I) by apply return_in.
  case_bool_decide; [rewrite decide_True by done|by rewrite decide_False]. cbn [negb].
  by rewrite (free_chain_spec s ts ack t I return_in).
Qed.

Lemma acked_done : t_i0 t ∈ ack -> a_out x (t_b t) = Some (t_blk t, t_write t, Executed).
Proof.
  intros Ha. rewrite (vs_out _ _ _ X) by apply return_in. unfold phase_of.
  rewrite (vi_status _ _ _ _ I) by (done || apply return_in). rewrite bool_decide_eq_false_2; [done|].
  pose proof (heads_disjoint _ _ _ _ I) as H. apply NoDup_app in H as (_ & H & _). intros Hp. apply (H _ Hp).
  rewrite elem_of_app. tauto.
Qed.

End Return.

(** ** Simulation *)

Definition vsafe {A} (r : vres A) : bool :=
  match r with VOk _ _ | VSleep _ => true | VPanic _ | VLoop => false end.

Lemma alloc_spec s ts ack x : vinv s [] ts ack -> vsim s ts x ->
  match virtio_disk_alloc s with
  | VOk (i0, i1, i2) s' => vinv s' [i0; i1; i2] ts ack /\ vsim s' ts x
  | VSleep s' => vinv s' [] ts ack /\ vsim s' ts x
  | VPanic _ | VLoop => False
  end.
Proof.
  intros I X. destruct (vi_lens _ _ _ _ I) as (L1 & L2 & _). unfold virtio_disk_alloc.
  destruct (alloc3_spec s L2 L1) as [(i0 & i1 & i2 & s1 & Hn & T & ->)|(s1 & T & ->)]; cbn [vbind].
  - eapply vinv_taken; [exact I|exact X|exact T|done|]. intros i. rewrite !elem_of_cons. tauto.
  - eapply vinv_taken; [exact I|exact X|exact T|constructor|done].
Qed.

(** When the device has nothing left to do, the interrupt handler leaves every waiting
    thread able to return. *)
Lemma intr_idle s ts ack x : vinv s [] ts ack -> vsim s ts x ->
  (forall t, t ∈ ts -> t_i0 t ∈ qused s -> in_status (v_info s !!! t_i0 t) = 0) ->
  exists s', virtio_disk_intr s = VOk tt s' /\
    (v_seen s = v_avail_idx s -> v_flight s = [] ->
     forall t, t ∈ ts -> exists s'', virtio_disk_finish (t_b t) (t_i0 t) s' = VOk tt s'').
Proof.
  intros I X Hok. destruct (virtio_intr_spec (S NUM) s ts ack x I X) as (s' & ack' & E & I' & X' & Hq & Hp); [|done|].
  { pose proof (few_heads _ _ _ _ I). pose proof (few_threads _ _ _ _ I). lia. }
  exists s'. split; [done|]. intros Hs Hf t Ht. assert (Hin := Ht).
  apply list_elem_of_split in Ht as (ts1 & ts2 & ->). rewrite (finish_spec s' ts1 ts2 t ack' I').
  rewrite decide_True; [eauto|].
  destruct (vi_idx _ _ _ _ I) as (X1 & X2 & _). apply (rqueue_nil (v_avail s)) in Hs; [|done..].
  change (qavail s = []) in Hs. assert (Hpe : pending s' = []) by (rewrite Hp; unfold pending; by rewrite Hs, Hf).
  pose proof (vi_perm _ _ _ _ I') as P. rewrite Hq, Hpe in P. cbn [app] in P. rewrite P.
  apply list_elem_of_fmap. eauto.
Qed.

Definition reserved (pc : vpc) : list nat := match pc with PWrite t _ => t_idx t | _ => [] end.

Lemma vinv_at_vinv y ack : vinv_at y ack -> vinv (drv y) (reserved (at_pc y)) (thrs y) ack.
Proof. unfold vinv_at, reserved. destruct (at_pc y); tauto. Qed.

(** A step outside the driver keeps the invariant at the driver's point. *)
Lemma vinv_at_keeps s s' ts pc ack : vinv_at (Sys s ts pc) ack -> vinv s' (reserved pc) ts ack ->
  dev_keeps s s' (reserved pc) -> vinv_at (Sys s' ts pc) ack.
Proof.
  unfold vinv_at. cbn [at_pc drv thrs]. intros H I K. destruct pc as [|t n| |]; try exact I; cbn in *.
  - destruct H as (_ & F & U). split_and!; [done|by eapply dev_keeps_forming|done].
  - destruct H as [_ H]. split; [done|]. by apply (dk_used _ _ _ K).
Qed.

Section Refine.
Context (device : vst -> vst -> Prop) (device_follows_spec : forall s s', device s s' -> dev_spec s s').

Let simulated x l y := exists ack' x', vinv_at y ack' /\ astep x l x' /\ vsim (drv y) (thrs y) x'.

Lemma issue_sim s ts t n f ack x : vinv_at (Sys s ts (PWrite t n)) ack -> vsim s ts x ->
  t_writes t !! n = Some f -> S n = length (t_writes t) ->
  simulated x [EIssue (t_b t) (t_blk t) (t_write t)] (Sys (f s) (t :: ts) PIdle).
Proof.
  intros (I & F & U) X Hf Hn. cbn in *. assert (n = 8%nat) as -> by lia. injection Hf as <-.
  eexists ack, _. split_and!; [exact (vinv_publish s t ts ack I U F)| |exact (vsim_publish s t ts ack x I X U F)].
  pose proof (vs_none _ _ _ X _ U). destruct x. by constructor.
Qed.

Lemma return_sim s ts1 t ts2 s' ack x : vinv s [] (ts1 ++ t :: ts2) ack -> vsim s (ts1 ++ t :: ts2) x ->
  virtio_disk_finish (t_b t) (t_i0 t) s = VOk tt s' -> simulated x [EReturn (t_b t)] (Sys s' (ts1 ++ ts2) PIdle).
Proof.
  intros I X E. rewrite (finish_spec s ts1 ts2 t ack I) in E. case_decide as Ha; [|done]. simplify_eq.
  apply elem_of_Permutation in Ha as Ha'. destruct Ha' as [ack' Hack].
  eexists ack', _. split_and!; [by eapply vinv_return| |by apply (vsim_return s ts1 ts2 t ack x I X)].
  pose proof (acked_done s ts1 ts2 t ack x I X Ha). destruct x. by eapply A_return.
Qed.

Lemma fill_sim s ts pc b d ack x : vinv_at (Sys s ts pc) ack -> vsim s ts x ->
  unused b (writing pc ++ ts) -> length d = 1024%nat -> simulated x [EFill b d] (Sys (set_data b d s) ts pc).
Proof.
  intros I X U Hd. destruct (vinv_fill s _ ts ack x b d (vinv_at_vinv _ _ I) X Hd) as [I' X'].
  eexists ack, _. split_and!; [eapply vinv_at_keeps; [exact I|exact I'|by split]| |exact X'].
  assert (unused b ts) as U' by (unfold unused in *; rewrite fmap_app, not_elem_of_app in U; tauto).
  pose proof (vs_none _ _ _ X b U'). destruct x. by constructor.
Qed.

Lemma vstep_sim y ack x l z : vinv_at y ack -> vsim (drv y) (thrs y) x -> vstep device y l z -> simulated x l z.
Proof.
  intros I X H. destruct H as [s ts b blk w i0 i1 i2 s' Hu Hb E|s ts s' E|s ts t n f Hf Hn|s ts t n f Hf Hn
    |s ts1 t ts2 s' E|s ts|s ts|s ts s' E|s ts pc b d Hu Hd|s ts pc s' D]; cbn [drv thrs] in X.
  - pose proof (alloc_spec s ts ack x I X) as Hs. rewrite E in Hs. destruct Hs as [I' X'].
    exists ack, x. split_and!; [|constructor|done]. split_and!; [done| |done]. split; try lia. done.
  - pose proof (alloc_spec s ts ack x I X) as Hs. rewrite E in Hs. destruct Hs as [I' X'].
    exists ack, x. split_and!; [done|constructor|done].
  - destruct I as (I & F & U). cbn in I, F, U, Hn.
    destruct (vinv_write s t ts ack x I X U n f F Hf) as [I' X']; [lia|].
    exists ack, x. split_and!; [|constructor|done]. split_and!; [done| |done].
    apply (forming_write s t ts ack I); [done|done|lia].
  - by eapply issue_sim.
  - exact (return_sim s ts1 t ts2 s' ack x I X E).
  - exists ack, x. split_and!; [done|constructor|done].
  - exists ack, x. split_and!; [|constructor|done]. destruct (virtio_intr_test s) eqn:Et; [|done].
    split; [exact I|]. by apply (used_test _ _ _ _ I).
  - destruct I as [I Hq]. destruct (round_spec s [] ts ack x I X Hq) as (t & q & Ht & _ & Hr).
    destruct (in_status (v_info s !!! t_i0 t) =? 0); [|congruence].
    destruct Hr as (s2 & E' & I' & X' & _). rewrite E in E'. simplify_eq.
    eexists _, x. split_and!; [exact I'|constructor|done].
  - by eapply fill_sim.
  - destruct (vinv_device s _ ts ack x (vinv_at_vinv _ _ I) X s' (device_follows_spec _ _ D)) as (I' & K & x' & A & X').
    exists ack, x'. split_and!; [by eapply vinv_at_keeps|done|done].
Qed.

Lemma vruns_sim data disk tr y :
  (forall b, length (data b) = 1024%nat) -> (forall k, length (disk k) = 512%nat) ->
  vruns device (Sys (vboot data disk) [] PIdle) tr y ->
  exists ack x, vinv_at y ack /\
    aruns (ADisk (blk_of disk) data (fun _ => None)) tr x /\ vsim (drv y) (thrs y) x.
Proof.
  intros Hd Hk H. remember (Sys (vboot data disk) [] PIdle) as x0 eqn:E0.
  induction H as [x|x tr y l z H IH S]; subst.
  - destruct (vinv_boot data disk Hd Hk) as [I X]. eexists _, _. split_and!; [exact I|constructor|exact X].
  - destruct (IH eq_refl) as (ack & x & I & A & X).
    destruct (vstep_sim y ack x l z I X S) as (ack' & x' & I' & A' & X').
    exists ack', x'. split_and!; [done|by eapply AR_step|done].
Qed.

End Refine.

(** C7: Threads in [virtio_disk_rw], the interrupt handler and a device that completes
    requests in any order implement an atomic disk.  The device runs between any two stores
    of a thread that writes its request, and between the test and the body of each round of
    the handler; it may fail a request, and does as it likes with a chain that is not a
    complete one.  Each request is executed exactly once, after the store that issues it
    and before its return, on exactly the block and the buffer it names, and the sectors
    and buffers hold what the atomic disk holds; a request the device failed never
    returns. *)
Theorem virtio_refines device data disk tr y :
  (forall s s', device s s' -> dev_spec s s') ->
  (forall b, length (data b) = 1024%nat) -> (forall k, length (disk k) = 512%nat) ->
  vruns device (Sys (vboot data disk) [] PIdle) tr y ->
  exists x, aruns (ADisk (blk_of disk) data (fun _ => None)) tr x /\
    (forall n, 0 <= n < 2 ^ 31 -> blk_of (v_disk (drv y)) n = a_disk x n) /\
    (forall b, v_data (drv y) b = a_data x b) /\
    (forall t, t ∈ thrs y -> a_out x (t_b t) = Some (t_blk t, t_write t, phase_of (drv y) t)) /\
    (forall b, unused b (thrs y) -> a_out x b = None).
Proof.
  intros Hdev Hd Hk H. destruct (vruns_sim device Hdev data disk tr y Hd Hk H) as (ack & x & I & A & X).
  exists x. split_and!; [done|intros; by rewrite (vs_disk _ _ _ X)|intros; by rewrite (vs_data _ _ _ X)|apply X|apply X].
Qed.

(** C26: In every reachable state, with a request half written or the handler in the middle
    of its loop too, every chain the device has fetched is the complete request of a waiting
    thread.  The driver's code neither panics nor runs on when it takes descriptors or ends a
    request; a round of the interrupt handler panics exactly when the device has reported an
    error for the request at the head of the used ring.  When the device has reported none
    and has nothing left to do, one run of the handler lets every waiting thread return: no
    completion is lost. *)
Theorem virtio_safe device data disk tr s ts pc :
  (forall s s', device s s' -> dev_spec s s') ->
  (forall b, length (data b) = 1024%nat) -> (forall k, length (disk k) = 512%nat) ->
  vruns device (Sys (vboot data disk) [] PIdle) tr (Sys s ts pc) ->
  (forall id, id ∈ v_flight s -> exists t, t ∈ ts /\ t_i0 t = id /\ request s id =
     Some (BlkReq (if t_write t then VIRTIO_BLK_T_OUT else VIRTIO_BLK_T_IN) (2 * t_blk t), t_b t, BSIZE,
       negb (t_write t), t_i0 t)) /\
  (pc = PRound -> exists t q, t ∈ ts /\ qused s = t_i0 t :: q /\
     if in_status (v_info s !!! t_i0 t) =? 0 then exists s', virtio_intr_round s = VOk tt s'
     else virtio_intr_round s = VPanic "virtio_disk_intr status") /\
  (pc = PIdle -> vsafe (virtio_disk_alloc s) = true /\
     (forall t, t ∈ ts -> vsafe (virtio_disk_finish (t_b t) (t_i0 t) s) = true) /\
     ((forall t, t ∈ ts -> t_i0 t ∈ qused s -> in_status (v_info s !!! t_i0 t) = 0) ->
      exists s', virtio_disk_intr s = VOk tt s' /\
        (v_seen s = v_avail_idx s -> v_flight s = [] ->
         forall t, t ∈ ts -> exists s'', virtio_disk_finish (t_b t) (t_i0 t) s' = VOk tt s''))).
Proof.
  intros Hdev Hd Hk H. destruct (vruns_sim device Hdev data disk tr _ Hd Hk H) as (ack & x & I & _ & X).
  cbn [drv thrs] in X. split_and!.
  - intros id (f1 & f2 & Ef)%list_elem_of_split.
    destruct (flight_thread s _ ts ack x (vinv_at_vinv _ _ I) X f1 id f2 Ef) as (t & Ht & E & Er & _). eauto.
  - intros ->. destruct I as [I Hq]. destruct (round_spec s [] ts ack x I X Hq) as (t & q & Ht & Eq & Hr).
    exists t, q. split_and!; [done|done|]. destruct (in_status _ =? 0); [|done]. destruct Hr as (s' & E & _). eauto.
  - intros ->. change (vinv s [] ts ack) in I. split_and!.
    + pose proof (alloc_spec s ts ack x I X) as Hs. by destruct (virtio_disk_alloc s).
    + intros t Ht. apply list_elem_of_split in Ht as (ts1 & ts2 & ->).
      rewrite (finish_spec s ts1 ts2 t ack I). by case_decide.
    + by apply (intr_idle s ts ack x I X).
Qed.

(** ** A device *)

(** It fetches what there is and then completes the oldest chain. *)
Definition step_device (s : vst) : option vst :=
  if negb (v_seen s =? v_avail_idx s) then
    Some (set_seen (u16 (v_seen s + 1))
           (set_flight (v_flight s ++ [Z.to_nat (rget (v_avail s) (v_seen s))]) s))
  else match v_flight s with
       | [] => None
       | id :: f =>
           match request s id with
           | Some (BlkReq 1 sec, b, len, false, k) =>
               Some (complete 0 id k f (set_sectors (store_sectors (v_disk s) sec len (v_data s b)) s))
           | Some (BlkReq 0 sec, b, len, true, k) =>
               Some (complete 0 id k f (set_data b (load_sectors (v_disk s) sec len) s))
           | _ => None
           end
       end.
Definition disk_device (s s' : vst) : Prop := step_device s = Some s'.

Lemma disk_device_spec s s' : disk_device s s' -> dev_spec s s'.
Proof.
  unfold disk_device, step_device. destruct (Z.eqb_spec (v_seen s) (v_avail_idx s)); cbn [negb].
  2: { intros [= <-]. by constructor. }
  destruct (v_flight s) as [|id f] eqn:Ef; [done|].
  destruct (request s id) as [[[[[[ty sec] b] len] w] k]|] eqn:Er; [|done].
  destruct ty as [|[| |]|]; try done; destruct w; try done; intros [= <-].
  - by apply (Dev_read s [] id f sec b len k).
  - by apply (Dev_write s [] id f sec b len k).
Qed.

Definition v0 : vst := vboot (fun _ => replicate 1024 7) (fun _ => replicate 512 0).

Definition after {A} (r : vres A) : vst := match r with VOk _ s => s | _ => v0 end.
Definition dev1 (s : vst) : vst := default s (step_device s).
Definition write_some (t : thr) (k : nat) (s : vst) : vst := fold_left (fun s f => f s) (take k (t_writes t)) s.

(** Block 5 is written from buffer 3 while buffer 4 waits for a read of the same block; the
    device fetches the first request while the second is being made. *)
Definition writer : thr := Thr 3 5 true 0 1 2.
Definition reader : thr := Thr 4 5 false 3 4 5.
Definition v1 : vst := write_some writer 9 (after (virtio_disk_alloc v0)).
Definition v2 : vst := write_some reader 9 (dev1 (after (virtio_disk_alloc v1))).
Definition v3 : vst := dev1 (dev1 v2).
Definition v4 : vst := after (virtio_intr_round v3).
Definition v5 : vst := after (virtio_disk_finish 3 0 v4).

(** A silent step at the end of a run. *)
Lemma vruns_tau device x tr y z : vruns device x tr y -> vstep device y [] z -> vruns device x tr z.
Proof. intros H S. rewrite <- (app_nil_r tr). by eapply VR_step. Qed.

Lemma run_some device x tr s ts t k : (k < length (t_writes t))%nat ->
  vruns device x tr (Sys s ts (PWrite t 0)) -> vruns device x tr (Sys (write_some t k s) ts (PWrite t k)).
Proof.
  intros Hk H. induction k as [|k IH]; [done|]. destruct (lookup_lt_is_Some_2 (t_writes t) k) as [f Hf]; [lia|].
  eapply vruns_tau; [apply IH; lia|]. unfold write_some. rewrite (take_S_r _ _ f Hf), fold_left_app.
  by apply S_write.
Qed.

Lemma run_writes device x tr s ts t : vruns device x tr (Sys s ts (PWrite t 0)) ->
  vruns device x (tr ++ [EIssue (t_b t) (t_blk t) (t_write t)]) (Sys (write_some t 9 s) (t :: ts) PIdle).
Proof.
  intros H. eapply VR_step; [apply (run_some device x tr s ts t 8); [cbn; lia|exact H]|].
  exact (S_issue _ (write_some t 8 s) ts t 8 _ eq_refl eq_refl).
Qed.

Lemma disk_run : vruns disk_device (Sys v0 [] PIdle) [EIssue 3 5 true; EIssue 4 5 false; EReturn 3] (Sys v5 [reader] PIdle).
Proof.
  apply (VR_step _ _ [EIssue 3 5 true; EIssue 4 5 false] (Sys v4 [reader; writer] PIdle) [EReturn 3]).
  2: { apply (S_return _ _ [reader] writer []). vm_compute. reflexivity. }
  eapply vruns_tau; [|apply (S_test _ v4)].
  eapply vruns_tau; [|apply (S_round _ v3); vm_compute; reflexivity].
  eapply vruns_tau; [|apply (S_test _ v3)].
  eapply vruns_tau; [|apply S_intr].
  eapply vruns_tau; [|apply (S_device _ (dev1 v2)); vm_compute; reflexivity].
  eapply vruns_tau; [|apply (S_device _ v2); vm_compute; reflexivity].
  apply (run_writes _ _ [EIssue 3 5 true] _ _ reader).
  eapply vruns_tau; [|apply (S_device _ (after (virtio_disk_alloc v1))); vm_compute; reflexivity].
  eapply vruns_tau; [|apply (S_begin _ v1); [unfold unused; cbn; set_solver|lia|vm_compute; reflexivity]].
  apply (run_writes _ _ [] _ _ writer).
  eapply vruns_tau; [|apply (S_begin _ v0); [apply not_elem_of_nil|lia|vm_compute; reflexivity]].
  constructor.
Qed.

#[local] Opaque v5.

Lemma virtio_refines_witness :
  exists x, aruns (ADisk (blk_of (fun _ => replicate 512 0)) (fun _ => replicate 1024 7) (fun _ => None))
      [EIssue 3 5 true; EIssue 4 5 false; EReturn 3] x /\
    (forall n, 0 <= n < 2 ^ 31 -> blk_of (v_disk v5) n = a_disk x n) /\
    (forall b, v_data v5 b = a_data x b) /\
    (forall t, t ∈ [reader] -> a_out x (t_b t) = Some (t_blk t, t_write t, phase_of v5 t)) /\
    (forall b, unused b [reader] -> a_out x b = None).
Proof.
  exact (virtio_refines disk_device (fun _ => replicate 1024 7) (fun _ => replicate 512 0) _ (Sys v5 [reader] PIdle)
    disk_device_spec (fun _ => length_replicate _ _) (fun _ => length_replicate _ _) disk_run).
Defined.

Lemma virtio_safe_witness :
  vsafe (virtio_disk_alloc v5) = true /\
  (forall t, t ∈ [reader] -> vsafe (virtio_disk_finish (t_b t) (t_i0 t) v5) = true) /\
  ((forall t, t ∈ [reader] -> t_i0 t ∈ qused v5 -> in_status (v_info v5 !!! t_i0 t) = 0) ->
   exists s', virtio_disk_intr v5 = VOk tt s' /\
    (v_seen v5 = v_avail_idx v5 -> v_flight v5 = [] ->
     forall t, t ∈ [reader] -> exists s'', virtio_disk_finish (t_b t) (t_i0 t) s' = VOk tt s'')).
Proof.
  exact (proj2 (proj2 (virtio_safe disk_device (fun _ => replicate 1024 7) (fun _ => replicate 512 0) _ v5 [reader] PIdle
    disk_device_spec (fun _ => length_replicate _ _) (fun _ => length_replicate _ _) disk_run)) eq_refl).
Defined.
