(* ===== verification/FsBlk.v ===== *)
(** Block operations inside a transaction: reading and changing blocks through the
    cache and the log, and the bitmap operations [balloc] and [bfree] of [Fs]. *)
From S2P Require Import Prelude Types Str Kalloc Vm Sched Sleeplock Bio BioSess.
From S2P Require Import Log LogSpec Crash LogOps Fs.

Section FsBlk.
Context {L : Linker}.
Implicit Types (P : list Z) (K : list (nat * Z)) (b : Z).

(** ** A system call inside a transaction

    Process [me] runs in a transaction that has logged the blocks [P], with the
    buffers [K] locked. *)
Record fx (s : kst) (me : nat) P K : Prop := {
  fx_sess : bsess s me P K;
  fx_txn : txn (log s) P;
  fx_lk : LkLog ∉ held s;
  fx_out : 1 <= l_outstanding (log s);
  fx_size : l_size (log s) <= 30;
  fx_len : length (l_block (log s)) = 30%nat
}.

(** What file-system code leaves alone: everything but the cache, the log, the
    inode table and the run states of other processes. *)
Record fstep (s s' : kst) : Prop := {
  fs_state : s' = set_procs (procs s') (set_log (log s') (set_bufs (bufs s') (set_inodes (inodes s') s)));
  fs_procs : same_procs s s';
  fs_log : same_log (log s) (log s')
}.

Lemma fstep_refl s : fstep s s.
Proof. split; [by destruct s|apply same_procs_refl|apply same_log_refl]. Qed.

Lemma fstep_trans s s1 s2 : fstep s s1 -> fstep s1 s2 -> fstep s s2.
Proof.
  intros [E1 P1 L1] [E2 P2 L2]. split.
  - rewrite E2, E1. done.
  - by eapply same_procs_trans.
  - by eapply same_log_trans.
Qed.

Lemma fstep_bufs s bs : fstep s (set_bufs bs s).
Proof. split; [by destruct s|by apply same_procs_eq|apply same_log_refl]. Qed.

Lemma fstep_inodes s l : fstep s (set_inodes l s).
Proof. split; [by destruct s|by apply same_procs_eq|apply same_log_refl]. Qed.

(** The fields it keeps. *)
Lemma fstep_sb s s' : fstep s s' -> sb s' = sb s.
Proof. intros [E _ _]. by rewrite E. Qed.
Lemma fstep_disk s s' : fstep s s' -> disk s' = disk s.
Proof. intros [E _ _]. by rewrite E. Qed.
Lemma fstep_held s s' : fstep s s' -> held s' = held s.
Proof. intros [E _ _]. by rewrite E. Qed.
Lemma fstep_cur s s' : fstep s s' -> cur s' = cur s.
Proof. intros [E _ _]. by rewrite E. Qed.
Lemma fstep_mem s s' : fstep s s' -> mem s' = mem s.
Proof. intros [E _ _]. by rewrite E. Qed.

(** Block contents as a function, and one block replaced. *)
Definition bset (C : Z -> list Z) b (d : list Z) : Z -> list Z :=
  fun b' => if decide (b' = b) then d else C b'.

(** Log slots for [k] more blocks, and a buffer beside those of [k] more blocks. *)
Definition slots (s : kst) P (k : nat) : Prop := Z.of_nat (length P + k) <= l_size (log s) - 1.
Definition room P K (k : nat) : Prop := (length P + length K + k < NBUF)%nat.

(** A block the log may hold. *)
Definition loggable (l : logstate) b : Prop :=
  0 <= b < 2 ^ 31 /\ ~ (l_start l <= b < l_start l + l_size l).

Lemma loggable_same l l' b : same_log l l' -> loggable l b -> loggable l' b.
Proof. intros [Es Ez _ _ _ _]. unfold loggable. by rewrite Es, Ez. Qed.

Lemma length_logged P b : (length (logged P b) <= S (length P))%nat.
Proof. unfold logged. case_decide; rewrite ?length_app; cbn; lia. Qed.

Lemma elem_of_logged P b : b ∈ logged P b.
Proof. unfold logged. case_decide; set_solver. Qed.

Lemma logged_sub P b b' : b' ∈ P -> b' ∈ logged P b.
Proof. unfold logged. case_decide; set_solver. Qed.

(** ** Reading and writing one block *)

Lemma wp_fx_bread s me P K b (Q : nat -> kst -> Prop) :
  fx s me P K -> b ∉ K.*2 -> room P K 0 ->
  (forall i s', fstep s s' -> inodes s' = inodes s -> log s' = log s ->
     fx s' me P ((i, b) :: K) -> b_data (bufat i s') = bcontent s b ->
     (b ∈ P \/ b_data (bufat i s') = dget (disk s) b) ->
     (forall b', bcontent s' b' = bcontent s b') ->
     (forall j, j ∈ K.*1 -> bufat j s' = bufat j s) -> Q i s') ->
  wp (bread ROOTDEV b) Q s.
Proof.
  intros [B T Hl Ho Hz Hn] Hb Hr HQ. eapply wp_sbread; [done|done|right; unfold room in Hr; lia|].
  intros i s' E B' Ed Ec Ej. apply HQ; try done.
  - rewrite E. apply fstep_bufs.
  - by rewrite E.
  - by rewrite E.
  - by split; [|rewrite E..].
  - destruct (decide (b ∈ P)) as [|Hp]; [by left|right]. rewrite Ed. by eapply sess_clean.
Qed.

Lemma wp_fx_brelse s me P K i b (Q : unit -> kst -> Prop) :
  fx s me P K -> (i, b) ∈ K -> (b ∈ P \/ b_data (bufat i s) = dget (disk s) b) ->
  (forall s', fstep s s' -> inodes s' = inodes s -> log s' = log s ->
     fx s' me P (drop_buf i K) -> (forall b', bcontent s' b' = bcontent s b') ->
     (forall j, j ∈ K.*1 -> j <> i -> b_data (bufat j s') = b_data (bufat j s)) -> Q tt s') ->
  wp (brelse i) Q s.
Proof.
  intros [B T Hl Ho Hz Hn] Hin Hc HQ. eapply wp_sbrelse; [done..|].
  intros s' E Sp B' Ec Ej. apply HQ; try done.
  - split; [|done|rewrite E; apply same_log_refl]. rewrite E. by destruct s.
  - by rewrite E.
  - by rewrite E.
  - by split; [|rewrite E..].
Qed.

Lemma wp_fx_modify s me P K i b d (Q : unit -> kst -> Prop) :
  fx s me P K -> (i, b) ∈ K -> slots s P 1 -> loggable (log s) b -> length d = 1024%nat ->
  (forall s', fstep s s' -> inodes s' = inodes s ->
     fx s' me (logged P b) K -> b_data (bufat i s') = d ->
     (forall j, j <> i -> b_data (bufat j s') = b_data (bufat j s)) ->
     (forall b', bcontent s' b' = bset (bcontent s) b d b') -> Q tt s') ->
  wp (updb i (set_b_data d) ;;; log_write i) Q s.
Proof.
  intros [B T Hl Ho Hz Hn] Hin Hr [Hb Hout] Hd HQ. unfold slots in Hr. wp_step. apply wp_upd.
  destruct (sess_set_data s me P K i b d B Hin Hd) as (B2 & Ed2 & Ej2 & Ec2).
  eapply wp_log_write; [done|done|done|done|done|done|done|cbn [log set_bufs]; lia|done|done|].
  intros s' E B' T' G Ec Ed. apply HQ.
  - split; [|apply same_procs_eq; by rewrite E|exact G]. rewrite E. by destruct s.
  - by rewrite E.
  - destruct G as [_ Gz Go _ _ Gl]. cbn [log set_bufs] in *.
    split; [done|done|by rewrite E|by rewrite Go|by rewrite Gz|by rewrite Gl].
  - by rewrite Ed.
  - intros j Hj. by rewrite Ed, Ej2.
  - intros b'. by rewrite Ec, Ec2.
Qed.

(** ** Bitmaps *)

Lemma land_bit x k : (Z.land x (Z.shiftl 1 (Z.of_nat k)) =? 0) = negb (Z.testbit x (Z.of_nat k)).
Proof.
  rewrite Z.shiftl_1_l. destruct (Z.testbit x (Z.of_nat k)) eqn:E; cbn.
  - apply Z.eqb_neq. intros H. apply (f_equal (fun z => Z.testbit z (Z.of_nat k))) in H.
    rewrite Z.land_spec, Z.pow2_bits_true, E, Z.bits_0 in H by lia. done.
  - apply Z.eqb_eq. apply Z.bits_inj'. intros n Hn. rewrite Z.land_spec, Z.bits_0.
    rewrite Z.pow2_bits_eqb by lia. destruct (Z.eqb_spec (Z.of_nat k) n) as [<-|]; [by rewrite E|].
    apply andb_false_r.
Qed.

Definition bit (d : list Z) (bi : nat) : bool := Z.testbit (nth (bi / 8) d 0) (Z.of_nat (bi mod 8)).

Lemma bit_clear_bit d bi : bit_clear d bi = negb (bit d bi).
Proof. apply land_bit. Qed.

Lemma bit_index bi bj : (bi / 8 = bj / 8)%nat -> (bi mod 8 = bj mod 8)%nat -> bi = bj.
Proof. intros H1 H2. rewrite (Nat.div_mod_eq bi 8), (Nat.div_mod_eq bj 8). by rewrite H1, H2. Qed.

Lemma bit_set d bi bj : (bi / 8 < length d)%nat ->
  bit (set_bit d bi) bj = if decide (bi = bj) then true else bit d bj.
Proof.
  intros Hl. unfold bit, set_bit, bit_mask. rewrite nth_insert, Z.shiftl_1_l by done.
  destruct (decide (bi = bj)) as [<-|Hne].
  - rewrite decide_True by done. rewrite Z.lor_spec, Z.pow2_bits_true by lia. apply orb_true_r.
  - case_decide as Hd; [|done].
    rewrite Z.lor_spec, Z.pow2_bits_false, orb_false_r; [by rewrite Hd|].
    intros Hm. apply Hne. apply bit_index; [done|lia].
Qed.

Lemma bit_unset d bi bj : (bi / 8 < length d)%nat ->
  bit (clear_bit d bi) bj = if decide (bi = bj) then false else bit d bj.
Proof.
  intros Hl. unfold bit, clear_bit, bit_mask. rewrite nth_insert, Z.shiftl_1_l by done.
  destruct (decide (bi = bj)) as [<-|Hne].
  - rewrite decide_True by done. rewrite Z.land_spec, Z.lnot_spec, Z.pow2_bits_true by lia.
    apply andb_false_r.
  - case_decide as Hd; [|done].
    assert (Z.of_nat (bi mod 8) <> Z.of_nat (bj mod 8)) by (intros Hm; apply Hne, bit_index; [done|lia]).
    rewrite Z.land_spec, Z.lnot_spec, Z.pow2_bits_false by lia. cbn [negb]. rewrite andb_true_r.
    by rewrite Hd.
Qed.

Lemma length_set_bit d bi : length (set_bit d bi) = length d.
Proof. apply length_insert. Qed.
Lemma length_clear_bit d bi : length (clear_bit d bi) = length d.
Proof. apply length_insert. Qed.

(** The scan of a bitmap block finds its first free bit below [size]. *)
Lemma balloc_scan_spec d b size k : forall bi,
  match balloc_scan d b size bi k with
  | Some bj => (bi <= bj < bi + k)%nat /\ b + Z.of_nat bj < size /\ bit d bj = false /\
      forall j, (bi <= j < bj)%nat -> bit d j = true
  | None => forall j, (bi <= j < bi + k)%nat -> b + Z.of_nat j < size -> bit d j = true
  end.
Proof.
  induction k as [|k IH]; intros bi; cbn [balloc_scan]; [intros; lia|].
  destruct (Z.ltb_spec (b + Z.of_nat bi) size); [|intros; lia].
  rewrite bit_clear_bit. destruct (bit d bi) eqn:E; cbn [negb].
  - specialize (IH (S bi)). destruct (balloc_scan d b size (S bi) k) as [bj|].
    + destruct IH as (H1 & H2 & H3 & H4). split_and!; try done; try lia. intros j Hj.
      destruct (decide (j = bi)) as [->|]; [done|]. apply H4. lia.
    + intros j Hj Hs. destruct (decide (j = bi)) as [->|]; [done|]. apply IH; lia.
  - split_and!; try done; lia.
Qed.

(** ** The layout of the disk *)

Record geom (v : superblock) (l : logstate) : Prop := {
  g_start : l_start l = sb_logstart v;
  g_size : l_size l = sb_nlog v;
  g_log : 1 < sb_logstart v /\ 0 < sb_nlog v;
  g_inode : sb_logstart v + sb_nlog v <= sb_inodestart v;
  g_bmap : 0 <= sb_ninodes v /\ sb_inodestart v + sb_ninodes v / IPB + 1 <= sb_bmapstart v;
  g_data : sb_bmapstart v + sb_size v / BPB + 1 <= sb_size v;
  g_max : sb_size v < 2 ^ 31
}.

Lemma geom_same v l l' : same_log l l' -> geom v l -> geom v l'.
Proof. intros [Es Ez _ _ _ _] [? ? ? ? ? ? ?]. split; try done; congruence. Qed.

Definition data_start (v : superblock) : Z := sb_bmapstart v + sb_size v / BPB + 1.

(** The bitmap block with the bit of block [b], and that bit. *)
Definition bmblock (v : superblock) b : Z := sb_bmapstart v + b / BPB.
Definition used (v : superblock) (C : Z -> list Z) b : bool :=
  bit (C (bmblock v b)) (Z.to_nat (b mod BPB)).

(** The blocks before the data blocks are never free. *)
Definition meta_used (v : superblock) (C : Z -> list Z) : Prop :=
  forall b, 0 <= b < data_start v -> used v C b = true.

Lemma div_range a b n : 0 <= a <= b -> 0 < n -> 0 <= a / n <= b / n.
Proof. intros. split; [apply Z.div_pos; lia|apply Z.div_le_mono; lia]. Qed.

Lemma bmblock_range v l b : geom v l -> 0 <= b < sb_size v ->
  sb_bmapstart v <= bmblock v b < data_start v.
Proof.
  intros [_ _ _ _ _ _ _] Hb. unfold bmblock, data_start.
  pose proof (div_range b (sb_size v) BPB). lia.
Qed.

Lemma geom_bmap v l : geom v l -> 3 < sb_bmapstart v /\ data_start v <= sb_size v /\ 0 <= sb_size v / BPB.
Proof.
  intros [_ _ [? ?] ? [? ?] ? _]. unfold data_start.
  pose proof (Z.div_pos (sb_ninodes v) IPB ltac:(lia) ltac:(lia)).
  destruct (decide (0 <= sb_size v)); [pose proof (Z.div_pos (sb_size v) BPB ltac:(lia) ltac:(lia)); lia|].
  assert (sb_size v / BPB <= -1) by (Z.div_mod_to_equations; lia).
  assert (sb_size v <= sb_size v / BPB) by (Z.div_mod_to_equations; lia). lia.
Qed.

Lemma BBLOCK_eq v l b : geom v l -> 0 <= b < sb_size v -> BBLOCK b (sb_bmapstart v) = bmblock v b.
Proof.
  intros G Hb. pose proof (bmblock_range v l b G Hb). pose proof (geom_bmap v l G).
  destruct G. unfold BBLOCK. rewrite u32_small; unfold bmblock in *; lia.
Qed.

Lemma loggable_data v l b : geom v l -> sb_bmapstart v <= b < sb_size v -> loggable l b.
Proof.
  intros G Hb. pose proof (geom_bmap v l G). destruct G as [Es Ez ? ? [? ?] ? ?].
  pose proof (Z.div_pos (sb_ninodes v) IPB ltac:(lia) ltac:(lia)).
  unfold loggable. rewrite Es, Ez. lia.
Qed.

Lemma used_bset_other v C b0 d b : bmblock v b <> b0 -> used v (bset C b0 d) b = used v C b.
Proof. intros H. unfold used, bset. by rewrite decide_False. Qed.

Lemma bm_index b : 0 <= b -> (Z.to_nat (b mod BPB) / 8 < 1024)%nat.
Proof.
  intros Hb. pose proof (Z.mod_pos_bound b BPB ltac:(lia)).
  apply Nat.Div0.div_lt_upper_bound. lia.
Qed.

Lemma bm_inj v b b' : bmblock v b = bmblock v b' -> b mod BPB = b' mod BPB -> b = b'.
Proof. unfold bmblock. intros. Z.div_mod_to_equations. lia. Qed.

Lemma used_set v C b b' : 0 <= b -> length (C (bmblock v b)) = 1024%nat ->
  used v (bset C (bmblock v b) (set_bit (C (bmblock v b)) (Z.to_nat (b mod BPB)))) b' =
    if decide (b' = b) then true else used v C b'.
Proof.
  intros Hb Hl. unfold used, bset. destruct (decide (bmblock v b' = bmblock v b)) as [E|E].
  - rewrite bit_set by (rewrite Hl; by apply bm_index).
    pose proof (Z.mod_pos_bound b BPB ltac:(lia)). pose proof (Z.mod_pos_bound b' BPB ltac:(lia)).
    destruct (decide (b' = b)) as [->|Hne]; [by rewrite decide_True|].
    rewrite decide_False, E; [done|]. intros Em. apply Hne. eapply bm_inj; [done|lia].
  - rewrite decide_False; [done|]. by intros ->.
Qed.

Lemma used_unset v C b b' : 0 <= b -> length (C (bmblock v b)) = 1024%nat ->
  used v (bset C (bmblock v b) (clear_bit (C (bmblock v b)) (Z.to_nat (b mod BPB)))) b' =
    if decide (b' = b) then false else used v C b'.
Proof.
  intros Hb Hl. unfold used, bset. destruct (decide (bmblock v b' = bmblock v b)) as [E|E].
  - rewrite bit_unset by (rewrite Hl; by apply bm_index).
    pose proof (Z.mod_pos_bound b BPB ltac:(lia)). pose proof (Z.mod_pos_bound b' BPB ltac:(lia)).
    destruct (decide (b' = b)) as [->|Hne]; [by rewrite decide_True|].
    rewrite decide_False, E; [done|]. intros Em. apply Hne. eapply bm_inj; [done|lia].
  - rewrite decide_False; [done|]. by intros ->.
Qed.

(** ** [bzero], [balloc] and [bfree] *)

Lemma logged2_length P b1 b2 : (length (logged (logged P b1) b2) <= length P + 2)%nat.
Proof. pose proof (length_logged P b1). pose proof (length_logged (logged P b1) b2). lia. Qed.

(** Buffers that stay locked keep their data. *)
Definition keeps K (s s' : kst) : Prop :=
  forall j, j ∈ K.*1 -> b_data (bufat j s') = b_data (bufat j s).

Lemma keeps_trans K s s1 s2 : keeps K s s1 -> keeps K s1 s2 -> keeps K s s2.
Proof. intros H1 H2 j Hj. by rewrite H2, H1. Qed.

(** The number of a locked buffer tells it from the others. *)
Lemma fx_fresh s me P i b K : fx s me P ((i, b) :: K) -> i ∉ K.*1.
Proof. intros [B _ _ _ _ _]. pose proof (bs_K _ _ _ _ B) as H. by apply NoDup_cons in H as [? _]. Qed.

Lemma fx_drop s me P i b K : fx s me P ((i, b) :: K) -> drop_buf i ((i, b) :: K) = K.
Proof. intros F. apply drop_buf_head. by eapply fx_fresh. Qed.

Lemma wp_fx_put s me P K b i d (Q : unit -> kst -> Prop) :
  fx s me P ((i, b) :: K) -> slots s P 1 -> loggable (log s) b -> length d = 1024%nat ->
  (forall s', fstep s s' -> inodes s' = inodes s -> fx s' me (logged P b) K -> keeps K s s' ->
     (forall b', bcontent s' b' = bset (bcontent s) b d b') -> Q tt s') ->
  wp (updb i (set_b_data d) ;;; log_write i ;;; brelse i) Q s.
Proof.
  intros F Hr Hb Hd HQ. pose proof (fx_fresh _ _ _ _ _ _ F) as Hi.
  wp_step. apply wp_upd. wp_step.
  pose proof (wp_fx_modify s me P ((i, b) :: K) i b d
    (fun _ s1 => wp (brelse i) Q s1) F ltac:(set_solver) Hr Hb Hd) as H.
  unfold wp at 1, bind in H. cbn [updb upd] in H. apply H. clear H.
  intros s1 S1 E1 F1 Ed1 Ej1 C1.
  eapply (wp_fx_brelse s1 me _ _ i b); [done|set_solver|left; apply elem_of_logged|].
  intros s2 S2 E2 _ F2 C2 Ej2. rewrite (fx_drop _ _ _ _ _ _ F1) in F2.
  apply HQ; [by eapply fstep_trans|congruence|done| |].
  - intros j Hj. assert (j <> i) by (by intros ->). rewrite Ej2, Ej1; [done|done|set_solver|done].
  - intros b'. by rewrite C2, C1.
Qed.

(** A block that is read and released again. *)
Lemma wp_fx_release s s0 me P K i b (Q : unit -> kst -> Prop) :
  fx s me P ((i, b) :: K) -> (b ∈ P \/ b_data (bufat i s) = dget (disk s0) b) -> disk s = disk s0 ->
  (forall s', fstep s s' -> inodes s' = inodes s -> log s' = log s -> fx s' me P K -> keeps K s s' ->
     (forall b', bcontent s' b' = bcontent s b') -> Q tt s') ->
  wp (brelse i) Q s.
Proof.
  intros F Hc Ed HQ. pose proof (fx_fresh _ _ _ _ _ _ F) as Hi.
  eapply (wp_fx_brelse s me _ _ i b); [done|set_solver|by rewrite Ed|].
  intros s2 S2 E2 L2 F2 C2 Ej2. rewrite (fx_drop _ _ _ _ _ _ F) in F2.
  apply HQ; try done. intros j Hj. apply Ej2; [set_solver|]. by intros ->.
Qed.

Lemma wp_bzero s me P K b (Q : unit -> kst -> Prop) :
  fx s me P K -> b ∉ K.*2 -> slots s P 1 -> room P K 0 -> loggable (log s) b ->
  (forall s', fstep s s' -> inodes s' = inodes s -> fx s' me (logged P b) K -> keeps K s s' ->
     (forall b', bcontent s' b' = bset (bcontent s) b (replicate 1024 0) b') -> Q tt s') ->
  wp (bzero ROOTDEV b) Q s.
Proof.
  intros F Hb Hs Hr Hl HQ. unfold bzero. wp_step.
  eapply wp_fx_bread; [done|done|done|].
  intros i s1 S1 E1 L1 F1 _ _ C1 Ej1. eapply (wp_fx_put s1 me P K b i); [done|unfold slots; by rewrite L1|by rewrite L1|done|].
  - intros s2 S2 E2 F2 K2 C2. apply HQ; [by eapply fstep_trans|congruence|done| |].
    + intros j Hj. rewrite K2 by done. by rewrite Ej1.
    + intros b'. rewrite C2. unfold bset. by case_decide.
Qed.

Lemma fx_blen s me P K b : fx s me P K -> length (bcontent s b) = 1024%nat.
Proof. intros [B _ _ _ _ _]. apply bcontent_len. apply B. Qed.

(** Locked buffers hold data blocks in use, so that allocating does not meet them. *)
Definition data_locked (v : superblock) (C : Z -> list Z) K : Prop :=
  forall b, b ∈ K.*2 -> data_start v <= b < sb_size v /\ used v C b = true.

(** The contents after allocating [b], and after freeing it. *)
Definition alloc_block (v : superblock) (C : Z -> list Z) b : Z -> list Z :=
  bset (bset C (bmblock v b) (set_bit (C (bmblock v b)) (Z.to_nat (b mod BPB)))) b (replicate 1024 0).
Definition free_block (v : superblock) (C : Z -> list Z) b : Z -> list Z :=
  bset C (bmblock v b) (clear_bit (C (bmblock v b)) (Z.to_nat (b mod BPB))).

Definition balloc_post (s : kst) me P K (r : Z) (s' : kst) : Prop :=
  fstep s s' /\ inodes s' = inodes s /\ keeps K s s' /\
  ((r = 0 /\ fx s' me P K /\ (forall b, bcontent s' b = bcontent s b) /\
    forall b, 0 <= b < sb_size (sb s) -> used (sb s) (bcontent s) b = true) \/
   (data_start (sb s) <= r < sb_size (sb s) /\ used (sb s) (bcontent s) r = false /\
    fx s' me (logged (logged P (bmblock (sb s) r)) r) K /\
    forall b, bcontent s' b = alloc_block (sb s) (bcontent s) r b)).

Lemma used_ext v C C' b : (forall b', C' b' = C b') -> used v C' b = used v C b.
Proof. intros H. unfold used. by rewrite H. Qed.

(** The scan found the free bit of block [r]. *)
Lemma wp_balloc_take s s1 me P K i r :
  let v := sb s in
  fstep s s1 -> inodes s1 = inodes s -> log s1 = log s -> fx s1 me P ((i, bmblock v r) :: K) ->
  keeps K s s1 -> (forall b, bcontent s1 b = bcontent s b) ->
  geom v (log s) -> meta_used v (bcontent s) -> data_locked v (bcontent s) K ->
  slots s P 2 -> room P K 1 -> 0 <= r < sb_size v -> used v (bcontent s) r = false ->
  wp (updb i (set_b_data (set_bit (bcontent s (bmblock v r)) (Z.to_nat (r mod BPB)))) ;;;
      log_write i ;;; brelse i ;;; bzero ROOTDEV r ;;; ret r) (balloc_post s me P K) s1.
Proof.
  intros v S1 E1 L1 F1 K1 C1 G M D Hs Hr Hrs Hru.
  assert (Hrd : data_start v <= r < sb_size v).
  { split; [|lia]. destruct (decide (r < data_start v)); [|lia]. rewrite (M r) in Hru by lia. done. }
  pose proof (bmblock_range v (log s) r G Hrs) as Hbm. pose proof (geom_bmap v (log s) G) as (Hg & Hg2 & _).
  pose proof (length_logged P (bmblock v r)) as Hlen.
  apply wp_seq3. eapply (wp_fx_put s1 me P K (bmblock v r) i);
    [done|unfold slots in *; rewrite L1; lia|rewrite L1; apply (loggable_data v); [done|lia]| |].
  { rewrite length_set_bit, <- C1. by eapply fx_blen. }
  intros s2 S2 E2 F2 K2 C2. pose proof (fs_log _ _ (fstep_trans _ _ _ S1 S2)) as L2. wp_step.
  eapply wp_bzero; [done| | |unfold room in *; lia| |].
  { intros Hin. destruct (D r Hin) as [_ Hd]. congruence. }
  { unfold slots in *. rewrite (sg_size _ _ L2). lia. }
  { eapply loggable_same; [done|]. apply (loggable_data v); [done|lia]. }
  intros s3 S3 E3 F3 K3 C3. wp_step. split_and!.
  - by do 2 (eapply fstep_trans; [done|]).
  - congruence.
  - by do 2 (eapply keeps_trans; [done|]).
  - right. fold v. split_and!; [lia|lia|done|done|]. intros b'. rewrite C3. unfold alloc_block, bset.
    case_decide; [done|]. rewrite C2. unfold bset. case_decide; [done|]. apply C1.
Qed.

(** What [balloc] does after block contents that are the same. *)
Lemma balloc_post_ext s s2 me P K r s3 :
  fstep s s2 -> inodes s2 = inodes s -> keeps K s s2 -> (forall b, bcontent s2 b = bcontent s b) ->
  balloc_post s2 me P K r s3 -> balloc_post s me P K r s3.
Proof.
  intros S2 E2 K2 C2 (S3 & E3 & K3 & Hc). rewrite (fstep_sb _ _ S2) in Hc.
  split_and!; [by eapply fstep_trans|congruence|by eapply keeps_trans|].
  destruct Hc as [(-> & F3 & C3 & U3)|(R3 & U3 & F3 & C3)]; [left|right].
  - split_and!; [done|done|intros; by rewrite C3, C2|].
    intros b' Hb'. rewrite <- (used_ext _ (bcontent s) (bcontent s2)) by done. by apply U3.
  - split_and!; [lia|lia|by rewrite (used_ext _ (bcontent s)) in U3|done|].
    intros b'. rewrite C3. unfold alloc_block, bset. repeat case_decide; rewrite ?C2; done.
Qed.

(** A message changes nothing of the file system. *)
Lemma wp_printf s msg (Q : unit -> kst -> Prop) : bio_locks s -> Q tt s -> wp (printf msg) Q s.
Proof.
  intros Hl HQ. unfold printf. wp_step. apply wp_acquire; [by apply bl_free|].
  eapply wp_release; [done|by apply bl_free|]. by destruct s.
Qed.

Lemma wp_balloc_loop fuel : forall s me P K b,
  let v := sb s in
  fx s me P K -> geom v (log s) -> meta_used v (bcontent s) -> data_locked v (bcontent s) K ->
  slots s P 2 -> room P K 1 -> 0 <= b -> b mod BPB = 0 -> sb_size v <= b + Z.of_nat fuel * BPB ->
  (forall b', 0 <= b' < b -> b' < sb_size v -> used v (bcontent s) b' = true) ->
  wp (balloc_loop ROOTDEV b fuel) (balloc_post s me P K) s.
Proof.
  induction fuel as [|fuel IH]; intros s me P K b v F G M D Hs Hr Hb Ha Hf Hu; cbn [balloc_loop];
    wp_step; apply wp_get; fold v;
    (destruct (Z.ltb_spec b (sb_size v)); [|wp_step; apply wp_printf; [apply F|]; apply wp_ret; split_and!;
      [apply fstep_refl|done|by intros j|left; split_and!; [done|done|done|fold v; intros b' Hb'; apply Hu; lia]]]);
    [lia|].
  rewrite (BBLOCK_eq v (log s)) by (done || lia).
  pose proof (bmblock_range v (log s) b G ltac:(lia)) as Hbm.
  pose proof (geom_bmap v (log s) G) as (Hg1 & Hg2 & _).
  wp_step. eapply wp_fx_bread; [done| |unfold room in *; lia|].
  { intros Hin. destruct (D _ Hin). lia. }
  intros i s1 S1 E1 L1 F1 Ed1 Cl1 C1 Ej1. wp_step. apply wp_get. rewrite Ed1.
  assert (K1 : keeps K s s1) by (intros j Hj; by rewrite Ej1).
  pose proof (balloc_scan_spec (bcontent s (bmblock v b)) b (sb_size v) (Z.to_nat BPB) 0) as Hsc.
  assert (Hidx : forall j, b <= j < b + BPB -> j mod BPB = j - b /\ bmblock v j = bmblock v b).
  { intros j Hj. unfold bmblock. Z.div_mod_to_equations. lia. }
  destruct (balloc_scan _ _ _ _ _) as [bi|].
  - destruct Hsc as (Hbi & Hlt & Hfree & _). set (r := b + Z.of_nat bi).
    destruct (Hidx r) as [Hrm Hrb]; [unfold r; lia|].
    assert (Ebi : bi = Z.to_nat (r mod BPB)) by lia. rewrite Ebi, <- Hrb in *.
    apply (wp_balloc_take s s1 me P K i r); try done. fold v. unfold r. lia.
  - wp_step. eapply (wp_fx_release s1 s); [done|done|apply (fstep_disk _ _ S1)|].
    intros s2 S2 E2 L2 F2 K2 C2.
    assert (C02 : forall b', bcontent s2 b' = bcontent s b') by (intros; rewrite C2; apply C1).
    assert (Eb2 : sb s2 = v) by (rewrite (fstep_sb _ _ S2); apply (fstep_sb _ _ S1)).
    assert (El2 : log s2 = log s) by congruence.
    assert (HU : forall b', used v (bcontent s2) b' = used v (bcontent s) b') by (intros; by apply used_ext).
    eapply wp_mono; [apply (IH s2 me P K (b + BPB)); rewrite ?Eb2, ?El2; try done; try lia|].
    + intros b' Hb'. rewrite HU. by apply M.
    + intros b' Hb'. rewrite HU. by apply D.
    + unfold slots. by rewrite El2.
    + rewrite <- Z.add_mod_idemp_r, Z_mod_same_full, Z.add_0_r by lia. done.
    + intros b' Hb' Hsz. rewrite HU. destruct (decide (b' < b)); [by apply Hu; lia|].
      destruct (Hidx b') as [Hm1 Hm2]; [lia|]. unfold used. rewrite Hm1, Hm2. apply Hsc; lia.
    + intros r s3. apply balloc_post_ext; [by eapply fstep_trans|congruence|by eapply keeps_trans|done].
Qed.

Lemma wp_balloc s me P K :
  fx s me P K -> geom (sb s) (log s) -> meta_used (sb s) (bcontent s) ->
  data_locked (sb s) (bcontent s) K -> slots s P 2 -> room P K 1 ->
  wp (balloc ROOTDEV) (balloc_post s me P K) s.
Proof.
  intros F G M D Hs Hr. unfold balloc. wp_step. apply wp_get.
  pose proof (geom_bmap _ _ G) as (_ & _ & Hg).
  apply wp_balloc_loop; try done; [|intros; lia].
  rewrite Z2Nat.id by lia. Z.div_mod_to_equations. lia.
Qed.

Lemma wp_bfree s me P K b (Q : unit -> kst -> Prop) :
  let v := sb s in
  fx s me P K -> geom v (log s) -> data_locked v (bcontent s) K -> slots s P 1 -> room P K 0 ->
  0 <= b < sb_size v -> used v (bcontent s) b = true ->
  (forall s', fstep s s' -> inodes s' = inodes s -> keeps K s s' ->
     fx s' me (logged P (bmblock v b)) K ->
     (forall b', bcontent s' b' = free_block v (bcontent s) b b') -> Q tt s') ->
  wp (bfree ROOTDEV b) Q s.
Proof.
  intros v F G D Hs Hr Hb Hu HQ. unfold bfree. wp_step. apply wp_get. fold v.
  rewrite (BBLOCK_eq v (log s)) by done.
  pose proof (bmblock_range v (log s) b G Hb) as Hbm. pose proof (geom_bmap v (log s) G) as (Hg & Hg2 & _).
  wp_step. eapply wp_fx_bread; [done| |done|].
  { intros Hin. destruct (D _ Hin). lia. }
  intros i s1 S1 E1 L1 F1 Ed1 _ C1 Ej1. wp_step. apply wp_get. rewrite Ed1.
  rewrite bit_clear_bit. unfold used in Hu. rewrite Hu. cbn [negb].
  eapply (wp_fx_put s1 me P K (bmblock v b) i); [done|unfold slots; by rewrite L1|
    rewrite L1; apply (loggable_data v); [done|lia]|rewrite length_clear_bit; by eapply fx_blen|].
  intros s2 S2 E2 F2 K2 C2. apply HQ; [by eapply fstep_trans|congruence| |done|].
  - intros j Hj. rewrite K2 by done. by rewrite Ej1.
  - intros b'. rewrite C2. unfold free_block, bset. case_decide; [done|apply C1].
Qed.

End FsBlk.
