(* ===== verification/FsFile.v ===== *)
(** The contents of a file: the blocks of an inode, what [bmap] does to them, and
    [readi] and [writei] of [Fs]. *)
From S2P Require Import Prelude Types Str Kalloc Vm Sched Sleeplock Bio BioSess.
From S2P Require Import Log LogSpec Crash LogOps Fs FsBlk.

Section FsFile.
Context {L : Linker}.
Implicit Types (P : list Z) (K : list (nat * Z)) (b r bn off : Z) (C : Z -> list Z)
  (v : superblock) (ip : inode).

(** ** The blocks of a file

    Block [bn] of the file, 0 where there is none; number 268 is the block of
    indirect addresses. *)
Definition iblock C ip bn : Z :=
  if bn <? NDIRECT then addr ip (Z.to_nat bn)
  else if bn =? MAXFILE then addr ip 12
  else if addr ip 12 =? 0 then 0
  else getu32 (C (addr ip 12)) (4 * Z.to_nat (bn - NDIRECT)).

(** The byte at [off]; a hole reads as zeros. *)
Definition fbyte C ip off : Z :=
  let b := iblock C ip (off / BSIZE) in
  if b =? 0 then 0 else nth (Z.to_nat (off mod BSIZE)) (C b) 0.

(** A data block in use. *)
Definition in_use v C b : Prop := 0 < b /\ data_start v <= b < sb_size v /\ used v C b = true.

Record file_wf v C ip : Prop := {
  fw_dev : i_dev ip = ROOTDEV;
  fw_len : length (i_addrs ip) = 13%nat;
  fw_block bn : 0 <= bn <= MAXFILE -> iblock C ip bn = 0 \/ in_use v C (iblock C ip bn);
  fw_inj bn bn' : 0 <= bn <= MAXFILE -> 0 <= bn' <= MAXFILE -> iblock C ip bn = iblock C ip bn' ->
    iblock C ip bn <> 0 -> bn = bn';
  fw_size : 0 <= i_size ip <= MAXFILE * BSIZE
}.

(** [bmap] may give the file more blocks; it keeps the file's bytes, and every
    block in use other than the bitmap and the file's own indirect block. *)
Record fext v C ip C' ip' : Prop := {
  fe_inode : ip' = set_i_addrs (i_addrs ip') ip;
  fe_used b : 0 <= b < sb_size v -> used v C b = true -> used v C' b = true;
  fe_meta b : b < sb_bmapstart v -> C' b = C b;
  fe_data b : in_use v C b -> b <> addr ip 12 -> C' b = C b;
  fe_new bn : 0 <= bn <= MAXFILE -> iblock C' ip' bn = iblock C ip bn \/
    (0 < iblock C' ip' bn < sb_size v /\ used v C (iblock C' ip' bn) = false);
  fe_keep bn : 0 <= bn <= MAXFILE -> iblock C ip bn <> 0 -> iblock C' ip' bn = iblock C ip bn;
  fe_byte off : 0 <= off < MAXFILE * BSIZE -> fbyte C' ip' off = fbyte C ip off
}.

Lemma fext_refl v C ip : fext v C ip C ip.
Proof. split; try done; [by destruct ip|intros; by left]. Qed.

Lemma fext_eq v C C' ip : (forall b, C' b = C b) -> fext v C ip C' ip.
Proof.
  intros H. assert (Hi : forall bn, iblock C' ip bn = iblock C ip bn).
  { intros bn. unfold iblock. by rewrite H. }
  split; try done; [by destruct ip|intros; by rewrite (used_ext v C)|intros; by left|].
  intros off _. unfold fbyte. by rewrite Hi, H.
Qed.

Lemma fext_trans v C ip C1 ip1 C2 ip2 :
  fext v C ip C1 ip1 -> fext v C1 ip1 C2 ip2 -> fext v C ip C2 ip2.
Proof.
  intros [I1 U1 M1 D1 N1 K1 B1] [I2 U2 M2 D2 N2 K2 B2]. split.
  - rewrite I2, I1. done.
  - auto.
  - intros b Hb. by rewrite M2, M1.
  - intros b (H0 & Hb & Hu) Hne. rewrite D2, D1; try done.
    + split_and!; [done|lia|lia|]. apply U1; [lia|done].
    + destruct (N1 MAXFILE ltac:(lia)) as [E|[_ Hf]]; change (iblock _ ?p MAXFILE) with (addr p 12) in *;
        [by rewrite E|]. intros ->. congruence.
  - intros bn Hbn. destruct (N2 bn Hbn) as [->|[Hr Hf]]; [by apply N1|].
    right. split; [done|]. destruct (used v C (iblock C2 ip2 bn)) eqn:E; [|done].
    rewrite U1 in Hf by (lia || done). done.
  - intros bn Hbn Hn. rewrite K2, K1; try done. by rewrite K1.
  - intros off Ho. by rewrite B2, B1.
Qed.

(** ** Allocating a block *)

Section Alloc.
Context v l (G : geom v l) C (r : Z) (Hr : data_start v <= r < sb_size v)
  (Hlen : forall b, length (C b) = 1024%nat).

Lemma data_pos : 3 < data_start v.
Proof.
  pose proof (geom_bmap v l G) as (? & ? & ?). unfold data_start. lia.
Qed.

Lemma bm_not_data b b' : 0 <= b < sb_size v -> data_start v <= b' -> bmblock v b <> b'.
Proof. intros Hb Hb'. pose proof (bmblock_range v l b G Hb). lia. Qed.

Lemma alloc_used b : 0 <= b < sb_size v ->
  used v (alloc_block v C r) b = if decide (b = r) then true else used v C b.
Proof.
  intros Hb. pose proof data_pos. unfold alloc_block.
  rewrite used_bset_other by (apply bm_not_data; [done|lia]).
  apply used_set; [lia|apply Hlen].
Qed.

Lemma alloc_same b : b <> r -> b <> bmblock v r -> alloc_block v C r b = C b.
Proof. intros H1 H2. unfold alloc_block, bset. by rewrite !decide_False. Qed.

Lemma alloc_new : alloc_block v C r r = replicate 1024 0.
Proof. unfold alloc_block, bset. by rewrite decide_True. Qed.

Lemma alloc_data b : data_start v <= b -> b <> r -> alloc_block v C r b = C b.
Proof.
  intros Hb Hne. apply alloc_same; [done|]. intros ->. pose proof data_pos.
  pose proof (bmblock_range v l r G ltac:(lia)). lia.
Qed.

Lemma alloc_in_use b : in_use v C b -> in_use v (alloc_block v C r) b.
Proof.
  intros (H0 & Hb & Hu). split_and!; [done|lia|lia|]. rewrite alloc_used by lia. by case_decide.
Qed.

Lemma alloc_meta b : b < sb_bmapstart v -> alloc_block v C r b = C b.
Proof.
  intros Hb. pose proof data_pos. pose proof (bmblock_range v l r G ltac:(lia)).
  apply alloc_same; unfold data_start in *; lia.
Qed.

Lemma alloc_len b : length (alloc_block v C r b) = 1024%nat.
Proof.
  unfold alloc_block, bset. repeat case_decide; [done| |apply Hlen].
  rewrite length_set_bit. apply Hlen.
Qed.

Lemma alloc_meta_used : meta_used v C -> meta_used v (alloc_block v C r).
Proof.
  intros M b Hb. rewrite alloc_used by lia. case_decide; [done|]. by apply M.
Qed.

(** The new block becomes block [bk] of the file. *)
Lemma ext_slot C' ip ip' bk :
  file_wf v C ip -> used v C r = false -> 0 <= bk <= MAXFILE -> iblock C ip bk = 0 ->
  (forall bn, 0 <= bn <= MAXFILE -> iblock C' ip' bn = if decide (bn = bk) then r else iblock C ip bn) ->
  (forall b, 0 <= b < sb_size v -> used v C' b = if decide (b = r) then true else used v C b) ->
  (forall b, b < sb_bmapstart v -> C' b = C b) ->
  (forall b, data_start v <= b -> b <> r -> b <> addr ip 12 -> C' b = C b) ->
  (bk < MAXFILE -> C' r = replicate 1024 0) ->
  ip' = set_i_addrs (i_addrs ip') ip -> length (i_addrs ip') = 13%nat ->
  file_wf v C' ip' /\ fext v C ip C' ip'.
Proof.
  intros W Hf Hbk H0 Hib Hu Hm Hd Hz Hip Hl. pose proof data_pos as Hp.
  pose proof W as [Wd _ Wb Wi Ws].
  assert (Hne : forall bn, 0 <= bn <= MAXFILE -> iblock C ip bn <> r).
  { intros bn Hbn E. destruct (Wb bn Hbn) as [?|(_ & _ & ?)]; [lia|congruence]. }
  assert (Hind : forall ip C, iblock C ip MAXFILE = addr ip 12) by done.
  split; split.
  - rewrite Hip. done.
  - done.
  - intros bn Hbn. rewrite Hib by done. case_decide as E.
    + right. split_and!; [lia|lia|lia|]. rewrite Hu, decide_True by (done || lia). done.
    + destruct (Wb bn Hbn) as [->|(A1 & A2 & A3)]; [by left|right]. split_and!; [lia|lia|lia|].
      rewrite Hu by lia. by case_decide.
  - intros bn bn' Hbn Hbn'. rewrite !Hib by done.
    pose proof (Hne bn Hbn). pose proof (Hne bn' Hbn'). repeat case_decide; try congruence.
    intros E Hn. by apply Wi.
  - rewrite Hip. done.
  - done.
  - intros b Hb Hub. rewrite Hu by done. by case_decide.
  - done.
  - intros b (A1 & A2 & A3) Hbi. apply Hd; [lia| |done]. intros ->. congruence.
  - intros bn Hbn. rewrite Hib by done. case_decide; [right; split; [lia|done]|by left].
  - intros bn Hbn Hn. rewrite Hib by done. case_decide; [congruence|done].
  - intros off Ho. assert (0 <= off / BSIZE < MAXFILE) as Hbn by (Z.div_mod_to_equations; lia).
    unfold fbyte. rewrite Hib by lia. case_decide as E.
    + rewrite E, H0, Z.eqb_refl. destruct (r =? 0); [done|]. rewrite Hz by lia. apply nth_replicate.
    + destruct (Z.eqb_spec (iblock C ip (off / BSIZE)) 0) as [|Hn]; [done|]. rewrite Hd; [done| |apply Hne; lia|].
      * destruct (Wb (off / BSIZE) ltac:(lia)) as [?|(_ & ? & _)]; [done|lia].
      * rewrite <- (Hind ip C). intros Ei. apply Wi in Ei; [lia|lia|lia|done].
Qed.

Lemma addr_set_addr ip k j : length (i_addrs ip) = 13%nat -> (k < 13)%nat ->
  addr (set_addr k r ip) j = if decide (k = j) then r else addr ip j.
Proof. intros Hl Hk. unfold addr, set_addr. cbn. apply nth_insert. lia. Qed.

Lemma getu32_zeros o n : getu32 (replicate n 0) o = 0.
Proof.
  unfold getu32. rewrite drop_replicate, take_replicate.
  generalize (4 `min` (n - o))%nat. intros k. induction k as [|k IH]; [done|]. cbn. by rewrite IH.
Qed.

(** [ip->addrs[k] = r]. *)
Lemma ext_addr ip k :
  file_wf v C ip -> used v C r = false -> (k <= 12)%nat -> addr ip k = 0 ->
  file_wf v (alloc_block v C r) (set_addr k r ip) /\
  fext v C ip (alloc_block v C r) (set_addr k r ip).
Proof.
  intros W Hf Hk H0. pose proof data_pos as Hp. pose proof (fw_len _ _ _ W) as Hl.
  pose proof (addr_set_addr ip k) as Ha.
  apply (ext_slot _ _ _ (if decide (k = 12%nat) then MAXFILE else Z.of_nat k)); try done.
  - case_decide; lia.
  - unfold iblock. case_decide as E; cbn; [by rewrite <- E|].
    rewrite (proj2 (Z.ltb_lt _ _)) by lia. by rewrite Nat2Z.id.
  - intros bn Hbn. unfold iblock. rewrite !Ha by lia.
    destruct (Z.ltb_spec bn NDIRECT).
    + repeat case_decide; try lia; done.
    + destruct (Z.eqb_spec bn MAXFILE) as [->|].
      * destruct (decide (k = 12%nat)); [by rewrite decide_True|]. by rewrite decide_False by lia.
      * destruct (decide (k = 12%nat)) as [->|].
        -- rewrite H0, decide_False, alloc_new, getu32_zeros by done. cbn. by destruct (r =? 0).
        -- rewrite decide_False by lia. destruct (Z.eqb_spec (addr ip 12) 0) as [|Hn]; [done|].
           rewrite alloc_data; [done| |].
           ++ destruct (fw_block _ _ _ W MAXFILE ltac:(lia)) as [?|(_ & ? & _)]; [done|].
              change (iblock C ip MAXFILE) with (addr ip 12) in *. lia.
           ++ intros E. destruct (fw_block _ _ _ W MAXFILE ltac:(lia)) as [?|(_ & _ & Hx)]; [done|].
              change (iblock C ip MAXFILE) with (addr ip 12) in *. congruence.
  - intros b Hb. by apply alloc_used.
  - apply alloc_meta.
  - intros b Hb Hn _. by apply alloc_data.
  - intros _. apply alloc_new.
  - unfold set_addr. cbn. by rewrite length_insert.
Qed.

(** [a[j] = r] in the indirect block. *)
Lemma ext_indirect ip j :
  let ind := addr ip 12 in
  let C' := bset (alloc_block v C r) ind (put32 (C ind) (4 * j) r) in
  file_wf v C ip -> used v C r = false -> (j < 256)%nat -> ind <> 0 -> getu32 (C ind) (4 * j) = 0 ->
  file_wf v C' ip /\ fext v C ip C' ip.
Proof.
  intros ind C' W Hf Hj Hn H0. pose proof data_pos as Hp.
  destruct (fw_block _ _ _ W MAXFILE ltac:(lia)) as [?|(Hi1 & Hi2 & Hi3)]; [done|].
  change (iblock C ip MAXFILE) with ind in *.
  assert (Hir : ind <> r) by congruence.
  assert (Hin : (ind =? 0) = false) by lia.
  assert (Hind : C' ind = put32 (C ind) (4 * j) r) by (unfold C', bset; by rewrite decide_True).
  assert (Hother : forall b, b <> ind -> C' b = alloc_block v C r b).
  { intros b Hb. unfold C', bset. by rewrite decide_False. }
  apply (ext_slot _ _ _ (NDIRECT + Z.of_nat j)); try done.
  - lia.
  - unfold iblock. rewrite (proj2 (Z.ltb_ge _ _)), (proj2 (Z.eqb_neq _ _)) by lia. fold ind.
    rewrite Hin. by replace (Z.to_nat (12 + Z.of_nat j - 12)) with j by lia.
  - intros bn Hbn. unfold iblock. fold ind. rewrite Hin, Hind.
    destruct (Z.ltb_spec bn NDIRECT); [by rewrite decide_False by lia|].
    destruct (Z.eqb_spec bn MAXFILE); [by rewrite decide_False by lia|].
    case_decide as E.
    + subst bn. replace (Z.to_nat (12 + Z.of_nat j - 12)) with j by lia.
      rewrite getu32_put32 by (rewrite Hlen; lia). apply u32_small.
      pose proof (g_max v l G). lia.
    + apply getu32_put32_ne; [rewrite Hlen; lia|]. lia.
  - intros b Hb. unfold C'. rewrite used_bset_other by (apply bm_not_data; [done|lia]). by apply alloc_used.
  - intros b Hb. rewrite Hother; [by apply alloc_meta|]. pose proof (geom_bmap v l G). unfold data_start in *. lia.
  - intros b Hb Hne Hne'. rewrite Hother by done. by apply alloc_data.
  - intros _. rewrite Hother by done. apply alloc_new.
  - by destruct ip.
  - apply W.
Qed.

End Alloc.

(** ** [bmap] *)

(** A system call in a transaction works on the file of table entry [i]. *)
Record fctx (s : kst) me P K (i : nat) : Prop := {
  fc_fx : fx s me P K;
  fc_geom : geom (sb s) (log s);
  fc_meta : meta_used (sb s) (bcontent s);
  fc_locked : data_locked (sb s) (bcontent s) K;
  fc_i : (i < length (inodes s))%nat;
  fc_wf : file_wf (sb s) (bcontent s) (inodeat i s)
}.

(** It has grown the file, logging at most [c] more blocks. *)
Record fgrow (s : kst) me P K (i : nat) (s' : kst) P' (c : nat) : Prop := {
  fg_step : fstep s s';
  fg_keeps : keeps K s s';
  fg_ctx : fctx s' me P' K i;
  fg_sub b : b ∈ P -> b ∈ P';
  fg_len : (length P' <= length P + c)%nat;
  fg_other j : j <> i -> inodeat j s' = inodeat j s;
  fg_table : length (inodes s') = length (inodes s);
  fg_ext : fext (sb s) (bcontent s) (inodeat i s) (bcontent s') (inodeat i s')
}.

Definition disk_full (s : kst) : Prop :=
  forall b, 0 <= b < sb_size (sb s) -> used (sb s) (bcontent s) b = true.

Lemma inodeat_alter s i f j : (i < length (inodes s))%nat ->
  inodeat j (set_inodes (alter f i (inodes s)) s) = if decide (i = j) then f (inodeat i s) else inodeat j s.
Proof.
  intros Hi. unfold inodeat. cbn. case_decide as E; [subst; by apply list_lookup_total_alter_eq|].
  by rewrite list_lookup_total_alter_ne.
Qed.

Lemma file_wf_eq v C C' ip : (forall b, C' b = C b) -> file_wf v C ip -> file_wf v C' ip.
Proof.
  intros H [Wd Wl Wb Wi Ws]. assert (Hi : forall bn, iblock C' ip bn = iblock C ip bn).
  { intros bn. unfold iblock. by rewrite H. }
  split; try done; intros bn; unfold in_use; [rewrite !Hi, (used_ext v C) by done; auto|].
  intros bn'. rewrite !Hi. auto.
Qed.

(** Reading blocks does not change the file. *)
Lemma fctx_same s s' me P K i :
  fctx s me P K i -> fx s' me P K -> fstep s s' -> inodes s' = inodes s ->
  (forall b, bcontent s' b = bcontent s b) -> fctx s' me P K i.
Proof.
  intros [F G M D Hi W] F' S E C. pose proof (fstep_sb _ _ S) as Eb.
  assert (Ei : inodeat i s' = inodeat i s) by (unfold inodeat; by rewrite E).
  split; rewrite ?Eb, ?E, ?Ei; try done.
  - eapply geom_same; [apply (fs_log _ _ S)|done].
  - intros b Hb. rewrite (used_ext _ (bcontent s)) by done. by apply M.
  - intros b Hb. rewrite (used_ext _ (bcontent s)) by done. by apply D.
  - by eapply file_wf_eq.
Qed.

Lemma fgrow_same s s' me P K i :
  fctx s me P K i -> fx s' me P K -> fstep s s' -> keeps K s s' -> inodes s' = inodes s ->
  (forall b, bcontent s' b = bcontent s b) -> fgrow s me P K i s' P 0.
Proof.
  intros F F' S Kp E C.
  assert (Ei : forall j, inodeat j s' = inodeat j s) by (intros; unfold inodeat; by rewrite E).
  split; try done; [by eapply fctx_same|lia|by rewrite E|]. rewrite Ei. by apply fext_eq.
Qed.

Lemma fgrow_refl s me P K i : fctx s me P K i -> fgrow s me P K i s P 0.
Proof. intros F. apply fgrow_same; try done; [apply F|apply fstep_refl]. Qed.

Lemma fgrow_trans s me P K i s1 P1 c1 s2 P2 c2 :
  fgrow s me P K i s1 P1 c1 -> fgrow s1 me P1 K i s2 P2 c2 -> fgrow s me P K i s2 P2 (c1 + c2).
Proof.
  intros [S1 K1 F1 B1 L1 O1 T1 E1] [S2 K2 F2 B2 L2 O2 T2 E2]. split; try done.
  - by eapply fstep_trans.
  - by eapply keeps_trans.
  - auto.
  - lia.
  - intros j Hj. by rewrite O2, O1.
  - congruence.
  - rewrite (fstep_sb _ _ S1) in E2. by eapply fext_trans.
Qed.

Lemma fgrow_le s me P K i s' P' c c' :
  fgrow s me P K i s' P' c -> (c <= c')%nat -> fgrow s me P K i s' P' c'.
Proof. intros [? ? ? ? ? ? ? ?] Hc. split; try done. lia. Qed.

Lemma fctx_len s me P K i b : fctx s me P K i -> length (bcontent s b) = 1024%nat.
Proof. intros F. eapply fx_blen, F. Qed.

Lemma fx_inodes s me P K l : fx s me P K -> fx (set_inodes l s) me P K.
Proof.
  intros [B T Hl Ho Hz Hn]. split; try done.
  apply (bsess_ext s); try done. apply B.
Qed.

(** The block [balloc] found, stored in the inode. *)
Lemma fgrow_addr s me P K i k r s1 :
  fctx s me P K i -> (k <= 12)%nat -> addr (inodeat i s) k = 0 ->
  data_start (sb s) <= r < sb_size (sb s) -> used (sb s) (bcontent s) r = false ->
  fstep s s1 -> inodes s1 = inodes s -> keeps K s s1 ->
  fx s1 me (logged (logged P (bmblock (sb s) r)) r) K ->
  (forall b, bcontent s1 b = alloc_block (sb s) (bcontent s) r b) ->
  let s2 := set_inodes (alter (set_addr k r) i (inodes s1)) s1 in
  fgrow s me P K i s2 (logged (logged P (bmblock (sb s) r)) r) 2 /\ addr (inodeat i s2) k = r.
Proof.
  intros [F G M D Hi W] Hk H0 Hr Hf S1 E1 K1 F1 C1 s2. set (v := sb s) in *.
  assert (Hl : forall b, length (bcontent s b) = 1024%nat) by (intros; by eapply fx_blen).
  destruct (ext_addr v (log s) G (bcontent s) r Hr Hl (inodeat i s) k W Hf Hk H0) as [W' X'].
  assert (Hi1 : (i < length (inodes s1))%nat) by (by rewrite E1).
  assert (Ei : forall j, inodeat j s2 = if decide (i = j) then set_addr k r (inodeat i s) else inodeat j s).
  { intros j. unfold s2. rewrite inodeat_alter by done. unfold inodeat. by rewrite E1. }
  assert (Eii : inodeat i s2 = set_addr k r (inodeat i s)) by (by rewrite Ei, decide_True).
  assert (C2 : forall b, bcontent s2 b = alloc_block v (bcontent s) r b) by (intros; apply C1).
  assert (S2 : fstep s s2) by (eapply fstep_trans; [exact S1|apply fstep_inodes]).
  assert (HU : forall b, used v (bcontent s2) b = used v (alloc_block v (bcontent s) r) b)
    by (intros; by apply used_ext).
  split.
  - split; [done|exact K1| | |apply logged2_length| | |].
    + split; rewrite ?(fstep_sb _ _ S2); fold v.
      * by apply fx_inodes.
      * eapply geom_same; [apply (fs_log _ _ S2)|done].
      * intros b Hb. rewrite HU. by apply (alloc_meta_used v (log s)).
      * intros b Hb. rewrite HU. destruct (D b Hb) as [? Hu]. split; [done|].
        pose proof (data_pos v (log s) G). rewrite (alloc_used v (log s)) by (done || lia). by case_decide.
      * unfold s2. cbn. by rewrite length_alter.
      * rewrite Eii. by eapply file_wf_eq.
    + intros b Hb. by apply logged_sub, logged_sub.
    + intros j Hj. by rewrite Ei, decide_False.
    + unfold s2. cbn. by rewrite length_alter, E1.
    + rewrite Eii. eapply fext_trans; [done|]. by apply fext_eq.
  - rewrite Eii, addr_set_addr by (apply W || lia). by rewrite decide_True.
Qed.

Lemma disk_full_ext s s' : sb s' = sb s -> (forall b, bcontent s' b = bcontent s b) ->
  disk_full s -> disk_full s'.
Proof. intros Eb C U b. rewrite Eb, (used_ext _ (bcontent s)) by done. apply U. Qed.

Lemma wp_bmap_direct s me P K i k :
  fctx s me P K i -> (k <= 12)%nat -> slots s P 2 -> room P K 1 ->
  wp (bmap_direct i k) (fun r s' => exists P', fgrow s me P K i s' P' 2 /\
    r = addr (inodeat i s') k /\ (r = 0 -> disk_full s')) s.
Proof.
  intros F Hk Hs Hr. pose proof F as [Fx G M D Hi W]. unfold bmap_direct. wp_step. apply wp_get.
  destruct (Z.eqb_spec (addr (inodeat i s) k) 0) as [E0|Hn].
  2:{ wp_step. exists P. split_and!; [|done|done]. eapply fgrow_le; [by apply fgrow_refl|lia]. }
  rewrite (fw_dev _ _ _ W). wp_step. eapply wp_mono; [by apply wp_balloc|].
  intros r s1 (S1 & E1 & K1 & [(-> & F1 & C1 & U1)|(R1 & U1 & F1 & C1)]).
  - rewrite Z.eqb_refl. wp_step. exists P.
    assert (Ei : inodeat i s1 = inodeat i s) by (unfold inodeat; by rewrite E1).
    split_and!; [eapply fgrow_le; [by apply fgrow_same|lia]|by rewrite Ei|].
    intros _. eapply (disk_full_ext s); [apply (fstep_sb _ _ S1)|done|exact U1].
  - pose proof (data_pos _ _ G). rewrite (proj2 (Z.eqb_neq _ _)) by lia.
    wp_step. apply wp_upd. wp_step.
    destruct (fgrow_addr s me P K i k r s1 F Hk E0 R1 U1 S1 E1 K1 F1 C1) as [X Ea].
    eexists. split_and!; [exact X|done|lia].
Qed.

(** The allocated block, stored in the locked indirect block. *)
Lemma fgrow_indirect s me P i j r s1 s2 ind :
  fctx s me P [] i -> ind = addr (inodeat i s) 12 -> (j < 256)%nat -> ind <> 0 ->
  getu32 (bcontent s ind) (4 * j) = 0 ->
  data_start (sb s) <= r < sb_size (sb s) -> used (sb s) (bcontent s) r = false ->
  fstep s s2 -> inodes s2 = inodes s ->
  fx s2 me (logged (logged (logged P (bmblock (sb s) r)) r) ind) [] ->
  (forall b, bcontent s1 b = alloc_block (sb s) (bcontent s) r b) ->
  (forall b, bcontent s2 b = bset (bcontent s1) ind (put32 (bcontent s ind) (4 * j) r) b) ->
  fgrow s me P [] i s2 (logged (logged (logged P (bmblock (sb s) r)) r) ind) 3 /\
  r = iblock (bcontent s2) (inodeat i s2) (NDIRECT + Z.of_nat j).
Proof.
  intros [F G M D Hi W] -> Hj Hn H0 Hr Hf S2 E2 F2 C1 C2. set (v := sb s) in *.
  set (ip := inodeat i s) in *. set (ind := addr ip 12) in *.
  assert (Hl : forall b, length (bcontent s b) = 1024%nat) by (intros; by eapply fx_blen).
  destruct (ext_indirect v (log s) G (bcontent s) r Hr Hl ip j W Hf Hj Hn H0) as [W' X'].
  set (C' := bset _ _ _) in W', X'.
  assert (C2' : forall b, bcontent s2 b = C' b).
  { intros b. rewrite C2. unfold C', bset. repeat case_decide; try done; apply C1. }
  assert (Ei : forall k, inodeat k s2 = inodeat k s) by (intros; unfold inodeat; by rewrite E2).
  pose proof (data_pos v (log s) G) as Hp.
  assert (Hmb : forall b, 0 <= b < sb_size v -> used v (bcontent s) b = true -> used v (bcontent s2) b = true).
  { intros b Hb Hu. rewrite (used_ext v C') by done. by apply (fe_used _ _ _ _ _ X'). }
  split.
  - split; [done|intros k Hk; by apply elem_of_nil in Hk| | | | | |].
    + split; rewrite ?(fstep_sb _ _ S2), ?E2, ?Ei; fold v; try done.
      * eapply geom_same; [apply (fs_log _ _ S2)|done].
      * intros b Hb. apply Hmb; [unfold v in *; pose proof (geom_bmap _ _ G); lia|by apply M].
      * intros b Hb. by apply elem_of_nil in Hb.
      * by eapply file_wf_eq.
    + intros b Hb. by do 3 apply logged_sub.
    + pose proof (logged2_length P (bmblock v r) r).
      pose proof (length_logged (logged (logged P (bmblock v r)) r) ind). lia.
    + done.
    + by rewrite E2.
    + rewrite Ei. eapply fext_trans; [exact X'|]. by apply fext_eq.
  - rewrite Ei. fold ip. unfold iblock. rewrite (proj2 (Z.ltb_ge _ _)), (proj2 (Z.eqb_neq _ _)) by lia.
    fold ind. rewrite (proj2 (Z.eqb_neq _ _)) by done. rewrite C2'. unfold C', bset.
    rewrite decide_True by done. replace (Z.to_nat (12 + Z.of_nat j - 12)) with j by lia.
    rewrite getu32_put32 by (rewrite Hl; lia). rewrite u32_small; [done|].
    pose proof (g_max v _ G). lia.
Qed.

Definition bmap_post (s : kst) me P (i : nat) bn (r : Z) (s' : kst) : Prop :=
  exists P', fgrow s me P [] i s' P' 5 /\ r = iblock (bcontent s') (inodeat i s') bn /\
    (r = 0 -> disk_full s').

Lemma fctx_locked s me P i j b s1 :
  fctx s me P [] i -> in_use (sb s) (bcontent s) b -> fstep s s1 -> inodes s1 = inodes s ->
  log s1 = log s -> fx s1 me P [(j, b)] -> (forall b', bcontent s1 b' = bcontent s b') ->
  geom (sb s1) (log s1) /\ meta_used (sb s1) (bcontent s1) /\ data_locked (sb s1) (bcontent s1) [(j, b)].
Proof.
  intros [F G M D Hi W] (_ & Hb & Hu) S E El F1 C. rewrite (fstep_sb _ _ S), El. split_and!; [done|..].
  - intros b' Hb'. rewrite (used_ext _ (bcontent s)) by done. by apply M.
  - intros b' ->%list_elem_of_singleton. by rewrite (used_ext _ (bcontent s)).
Qed.

(** The entry of the indirect block that is in place. *)
Lemma wp_bmap_indirect s me P i j :
  let ind := addr (inodeat i s) 12 in
  fctx s me P [] i -> ind <> 0 -> (j < 256)%nat -> slots s P 3 -> room P [] 3 ->
  wp (let! dev := geti i i_dev in
      let! bp := bread dev ind in
      let! d := getb bp b_data in
      let a := getu32 d (4 * j) in
      let! a' :=
        (if a =? 0 then
           let! a' := balloc dev in
           (if a' =? 0 then ret tt
            else
              updb bp (fun x => set_b_data (put32 (b_data x) (4 * j) a') x) ;;;
              log_write bp) ;;;
           ret a'
         else ret a) in
      brelse bp ;;;
      ret a')
    (fun r s' => exists P', fgrow s me P [] i s' P' 3 /\
      r = iblock (bcontent s') (inodeat i s') (NDIRECT + Z.of_nat j) /\ (r = 0 -> disk_full s')) s.
Proof.
  intros ind F Hn Hj Hs Hr. pose proof F as [Fx G M D Hi W]. set (v := sb s) in *.
  assert (Hin : in_use v (bcontent s) ind).
  { destruct (fw_block _ _ _ W MAXFILE ltac:(lia)); [done|]. done. }
  assert (Hib : forall C', (forall b, C' b = bcontent s b) ->
    iblock C' (inodeat i s) (NDIRECT + Z.of_nat j) = getu32 (bcontent s ind) (4 * j)).
  { intros C' HC. unfold iblock. rewrite (proj2 (Z.ltb_ge _ _)), (proj2 (Z.eqb_neq _ _)) by lia. fold ind.
    rewrite (proj2 (Z.eqb_neq _ _)) by done. rewrite HC.
    by replace (Z.to_nat (12 + Z.of_nat j - 12)) with j by lia. }
  wp_step. apply wp_get. rewrite (fw_dev _ _ _ W). wp_step.
  eapply wp_fx_bread; [done|apply not_elem_of_nil|unfold room in *; lia|].
  intros bp s1 S1 E1 L1 F1 Ed1 Cl1 C1 _. wp_step. apply wp_get. rewrite Ed1. cbv zeta. wp_step.
  destruct (fctx_locked s me P i bp ind s1 F Hin S1 E1 L1 F1 C1) as (G1 & M1 & D1).
  assert (Hsame : forall r, getu32 (bcontent s ind) (4 * j) = r -> forall s2, fx s2 me P [(bp, ind)] ->
    fstep s1 s2 -> inodes s2 = inodes s1 -> keeps [(bp, ind)] s1 s2 ->
    (forall b, bcontent s2 b = bcontent s b) -> (r = 0 -> disk_full s2) ->
    wp (brelse bp ;;; ret r) (fun r s' => exists P', fgrow s me P [] i s' P' 3 /\
      r = iblock (bcontent s') (inodeat i s') (NDIRECT + Z.of_nat j) /\ (r = 0 -> disk_full s')) s2).
  { intros r <- s2 F2 S2 E2 K2 C2 U2. wp_step. eapply (wp_fx_release s2 s); [done| | |].
    { rewrite K2 by (by apply list_elem_of_singleton). exact Cl1. }
    { by rewrite (fstep_disk _ _ S2), (fstep_disk _ _ S1). }
    intros s3 S3 E3 L3 F3 _ C3. wp_step. exists P.
    assert (S03 : fstep s s3) by (eapply fstep_trans; [exact S1|by eapply fstep_trans]).
    split_and!.
    - eapply fgrow_le; [apply (fgrow_same s s3); [done|done|done| |congruence|]|lia].
      + intros k Hk. by apply elem_of_nil in Hk.
      + intros b. by rewrite C3.
    - assert (inodeat i s3 = inodeat i s) as -> by (unfold inodeat; congruence).
      rewrite Hib; [done|]. intros b. by rewrite C3.
    - intros H0. eapply disk_full_ext; [apply (fstep_sb _ _ S3)|done|by apply U2]. }
  destruct (Z.eqb_spec (getu32 (bcontent s ind) (4 * j)) 0) as [E0|Hn0].
  2:{ wp_step. apply (Hsame _ eq_refl); try done. apply fstep_refl. }
  wp_step. eapply wp_mono; [apply (wp_balloc s1 me P [(bp, ind)]); try done|].
  { unfold slots in *. rewrite L1. lia. }
  { unfold room in *. cbn in *. lia. }
  intros r s2 (S2 & E2 & K2 & [(-> & F2 & C2 & U2)|(R2 & U2 & F2 & C2)]).
  - rewrite Z.eqb_refl. wp_step. wp_step. wp_step. apply (Hsame 0); try done; [by intros b; rewrite C2|].
    intros _. eapply (disk_full_ext s1); [apply (fstep_sb _ _ S2)|done|exact U2].
  - pose proof (data_pos _ _ G1). rewrite (proj2 (Z.eqb_neq _ _)) by lia.
    pose proof (fstep_sb _ _ S1) as Eb1. rewrite Eb1 in *. fold v in R2, U2, F2, C2, D1, M1, G1.
    assert (Ed2 : b_data (bufat bp s2) = bcontent s ind).
    { rewrite K2 by (by apply list_elem_of_singleton). exact Ed1. }
    rewrite (used_ext v (bcontent s)) in U2 by done.
    assert (C2' : forall b, bcontent s2 b = alloc_block v (bcontent s) r b).
    { intros b. rewrite C2. unfold alloc_block, bset. repeat case_decide; rewrite ?C1; done. }
    wp_step. apply (wp_updb_data s2 bp (fun x => put32 x (4 * j) r) _ _ _ eq_refl). rewrite Ed2.
    pose proof (fs_log _ _ (fstep_trans _ _ _ S1 S2)) as L2.
    pose proof (logged2_length P (bmblock v r) r) as Hlen.
    eapply wp_fx_modify; [done|by apply list_elem_of_singleton| | | |].
    { unfold slots in *. rewrite (sg_size _ _ L2). lia. }
    { eapply loggable_same; [done|]. apply (loggable_data v); [done|]. destruct Hin as (_ & ? & _).
      pose proof (geom_bmap _ _ G). unfold data_start in *. lia. }
    { rewrite length_put32; rewrite (fx_blen s me P []) by done; lia. }
    intros s3 S3 E3 F3 _ _ C3. wp_step. wp_step.
    eapply (wp_fx_brelse s3 me _ _ bp ind); [done|by apply list_elem_of_singleton|left; apply elem_of_logged|].
    intros s4 S4 E4 _ F4 C4 _. wp_step. rewrite (fx_drop _ _ _ _ _ _ F3) in F4.
    destruct (fgrow_indirect s me P i j r s2 s4 ind) as [X Hx]; try done.
    + by do 3 (eapply fstep_trans; [done|]).
    + congruence.
    + intros b. rewrite C4, C3. done.
    + eexists. split_and!; [exact X|exact Hx|]. intros ->. fold v in H. lia.
Qed.

Lemma wp_bmap s me P i bn :
  fctx s me P [] i -> 0 <= bn < MAXFILE -> slots s P 5 -> room P [] 5 ->
  wp (bmap i bn) (bmap_post s me P i bn) s.
Proof.
  intros F Hbn Hs Hr. unfold bmap. destruct (Z.ltb_spec bn NDIRECT) as [Hd|Hd].
  - eapply wp_mono; [apply (wp_bmap_direct s me P []); [done|lia|unfold slots in *; lia|unfold room in *; lia]|].
    intros r s1 (P1 & X & -> & U). exists P1. split_and!; [eapply fgrow_le; [exact X|lia]| |done].
    unfold iblock. by rewrite (proj2 (Z.ltb_lt _ _)).
  - rewrite (proj2 (Z.ltb_lt _ _)) by lia. wp_step.
    eapply wp_mono; [apply (wp_bmap_direct s me P []); [done|lia|unfold slots in *; lia|unfold room in *; lia]|].
    intros ind s1 (P1 & X & Ei & U). change (Z.to_nat NDIRECT) with 12%nat in Ei.
    destruct (Z.eqb_spec ind 0) as [E0|Hn].
    { wp_step. exists P1. split_and!; [eapply fgrow_le; [exact X|lia]| |by intros; apply U].
      unfold iblock. rewrite (proj2 (Z.ltb_ge _ _)), (proj2 (Z.eqb_neq _ _)) by lia.
      by rewrite <- Ei, E0. }
    pose proof (fg_len _ _ _ _ _ _ _ _ X) as Hl. pose proof (fs_log _ _ (fg_step _ _ _ _ _ _ _ _ X)) as El.
    pose proof (wp_bmap_indirect s1 me P1 i (Z.to_nat (bn - NDIRECT))) as Hw. cbv zeta in Hw.
    rewrite <- Ei in Hw. eapply wp_mono; [apply Hw; clear Hw|].
    + apply X.
    + done.
    + lia.
    + unfold slots in *. rewrite (sg_size _ _ El). lia.
    + unfold room in *. lia.
    + intros r s2 (P2 & X2 & -> & U2). exists P2. split_and!; [|f_equal; lia|done].
      eapply fgrow_le; [by eapply fgrow_trans|lia].
Qed.

(** On a file without a hole at [bn], [bmap] only looks the block up. *)
Lemma wp_bmap_hit s me P i bn (Q : Z -> kst -> Prop) :
  fctx s me P [] i -> 0 <= bn < MAXFILE -> room P [] 0 ->
  iblock (bcontent s) (inodeat i s) bn <> 0 ->
  (forall s', fstep s s' -> inodes s' = inodes s -> log s' = log s -> fctx s' me P [] i ->
     (forall b, bcontent s' b = bcontent s b) ->
     Q (iblock (bcontent s) (inodeat i s) bn) s') ->
  wp (bmap i bn) Q s.
Proof.
  intros F Hbn Hr Hn HQ. pose proof F as [Fx G M D Hi W].
  unfold bmap, bmap_direct. destruct (Z.ltb_spec bn NDIRECT) as [Hd|Hd].
  - unfold iblock in *. rewrite (proj2 (Z.ltb_lt _ _)) in * by lia.
    wp_step. apply wp_get. rewrite (proj2 (Z.eqb_neq _ _)) by done. wp_step.
    apply HQ; try done. apply fstep_refl.
  - rewrite (proj2 (Z.ltb_lt _ _)) by lia.
    assert (E : iblock (bcontent s) (inodeat i s) bn =
      getu32 (bcontent s (addr (inodeat i s) 12)) (4 * Z.to_nat (bn - NDIRECT)) /\ addr (inodeat i s) 12 <> 0).
    { unfold iblock in *. rewrite (proj2 (Z.ltb_ge _ _)), (proj2 (Z.eqb_neq bn _)) in * by lia.
      destruct (Z.eqb_spec (addr (inodeat i s) 12) 0); done. }
    destruct E as [E Hi0]. rewrite E in *. wp_step. wp_step. apply wp_get.
    change (Z.to_nat NDIRECT) with 12%nat. rewrite (proj2 (Z.eqb_neq _ _)) by done. wp_step.
    rewrite (proj2 (Z.eqb_neq _ _)) by done. wp_step. apply wp_get. rewrite (fw_dev _ _ _ W).
    wp_step. eapply wp_fx_bread; [done|apply not_elem_of_nil|done|].
    intros bp s1 S1 E1 L1 F1 Ed1 Cl1 C1 _. wp_step. apply wp_get. rewrite Ed1. cbv zeta.
    rewrite (proj2 (Z.eqb_neq _ _)) by done. wp_step. wp_step. wp_step.
    eapply (wp_fx_release s1 s); [done|done|apply (fstep_disk _ _ S1)|].
    intros s2 S2 E2 L2 F2 _ C2. wp_step.
    assert (S02 : fstep s s2) by (by eapply fstep_trans).
    assert (C02 : forall b, bcontent s2 b = bcontent s b) by (intros; by rewrite C2).
    apply HQ; try done; [congruence|congruence|]. eapply fctx_same; try done. congruence.
Qed.

(** ** [readi] *)

Definition fread C ip off (n : nat) : list Z := (fun k => fbyte C ip (off + Z.of_nat k)) <$> seq 0 n.

Lemma length_fread C ip off n : length (fread C ip off n) = n.
Proof. unfold fread. by rewrite length_fmap, length_seq. Qed.

Lemma fread_lookup C ip off n k : (k < n)%nat -> fread C ip off n !! k = Some (fbyte C ip (off + Z.of_nat k)).
Proof. intros Hk. unfold fread. rewrite list_lookup_fmap, lookup_seq_lt by done. done. Qed.

Lemma fread_app C ip off n m :
  fread C ip off (n + m) = fread C ip off n ++ fread C ip (off + Z.of_nat n) m.
Proof.
  unfold fread. rewrite seq_app, fmap_app. f_equal. cbn.
  replace (seq n m) with (Nat.add n <$> seq 0 m) by (rewrite fmap_add_seq; f_equal; lia).
  rewrite <- list_fmap_compose. apply list_fmap_ext. intros ? k _. cbn. f_equal. lia.
Qed.

Lemma fread_ext C C' ip off n : (forall b, C' b = C b) -> fread C' ip off n = fread C ip off n.
Proof.
  intros H. unfold fread. apply list_fmap_ext. intros _ k _. unfold fbyte.
  assert (forall bn, iblock C' ip bn = iblock C ip bn) as E by (intros; unfold iblock; by rewrite H).
  by rewrite E, H.
Qed.

(** Bytes of one block of the file are contiguous in it. *)
Lemma fread_chunk C ip off (m : nat) :
  0 <= off -> off mod BSIZE + Z.of_nat m <= BSIZE -> iblock C ip (off / BSIZE) <> 0 ->
  length (C (iblock C ip (off / BSIZE))) = 1024%nat ->
  take m (drop (Z.to_nat (off mod BSIZE)) (C (iblock C ip (off / BSIZE)))) = fread C ip off m.
Proof.
  intros Ho Hm Hb Hl. pose proof (Z.mod_pos_bound off BSIZE ltac:(lia)).
  apply list_eq. intros k. destruct (decide (k < m)%nat) as [Hk|Hk].
  - rewrite lookup_take_lt, lookup_drop, fread_lookup by done. unfold fbyte.
    assert ((off + Z.of_nat k) / BSIZE = off / BSIZE) as -> by (Z.div_mod_to_equations; lia).
    assert ((off + Z.of_nat k) mod BSIZE = off mod BSIZE + Z.of_nat k) as -> by (Z.div_mod_to_equations; lia).
    rewrite (proj2 (Z.eqb_neq _ _)) by done.
    replace (Z.to_nat (off mod BSIZE + Z.of_nat k)) with (Z.to_nat (off mod BSIZE) + k)%nat by lia.
    destruct (lookup_lt_is_Some_2 (C (iblock C ip (off / BSIZE))) (Z.to_nat (off mod BSIZE) + k)) as [x Hx];
      [rewrite Hl; lia|]. rewrite Hx. f_equal. symmetry. by apply nth_lookup_Some.
  - rewrite lookup_take_ge by lia. symmetry. apply lookup_ge_None. rewrite length_fread. lia.
Qed.

Lemma chunk_range n tot off : 0 <= off -> tot < n ->
  0 < chunk n tot off <= n - tot /\ off mod BSIZE + chunk n tot off <= BSIZE /\
  (chunk n tot off = n - tot \/ (off + chunk n tot off) mod BSIZE = 0).
Proof.
  intros Ho Ht. unfold chunk. pose proof (Z.mod_pos_bound off BSIZE ltac:(lia)).
  split; [lia|]. split; [lia|].
  destruct (Z.min_spec (n - tot) (BSIZE - off mod BSIZE)) as [[_ ->]|[_ ->]]; [by left|right].
  Z.div_mod_to_equations. lia.
Qed.

(** The file has blocks for all of [[off, off + n)]. *)
Definition no_hole C ip off n : Prop :=
  forall x, off <= x < off + n -> iblock C ip (x / BSIZE) <> 0.

Lemma no_hole_ext C C' ip off n : (forall b, C' b = C b) -> no_hole C ip off n -> no_hole C' ip off n.
Proof. intros H N x Hx. unfold iblock. rewrite H. by apply N. Qed.

(** What a function that only reads leaves. *)
Record unchanged (s : kst) me P (i : nat) (s' : kst) : Prop := {
  un_step : fstep s s';
  un_inodes : inodes s' = inodes s;
  un_log : log s' = log s;
  un_ctx : fctx s' me P [] i;
  un_content b : bcontent s' b = bcontent s b
}.

Lemma unchanged_refl s me P i : fctx s me P [] i -> unchanged s me P i s.
Proof. intros F. split; try done. apply fstep_refl. Qed.

Lemma unchanged_trans s me P i s1 s2 :
  unchanged s me P i s1 -> unchanged s1 me P i s2 -> unchanged s me P i s2.
Proof.
  intros [S1 E1 L1 F1 C1] [S2 E2 L2 F2 C2]. split; [by eapply fstep_trans|congruence|congruence|done|].
  intros b. by rewrite C2.
Qed.

Lemma unchanged_inode s me P i s' j : unchanged s me P i s' -> inodeat j s' = inodeat j s.
Proof. intros U. unfold inodeat. by rewrite (un_inodes _ _ _ _ _ U). Qed.

Lemma wp_readi_loop fuel : forall s me P i off tot n out,
  let ip := inodeat i s in
  fctx s me P [] i -> room P [] 0 -> 0 <= off -> 0 <= tot <= n -> off + (n - tot) <= MAXFILE * BSIZE ->
  no_hole (bcontent s) ip off (n - tot) -> n - tot <= Z.of_nat fuel ->
  wp (readi_loop i DLocal off tot n out fuel) (fun '(r, bs) s' =>
    r = n /\ bs = out ++ fread (bcontent s) ip off (Z.to_nat (n - tot)) /\ unchanged s me P i s') s.
Proof.
  induction fuel as [|fuel IH]; intros s me P i off tot n out ip F Hr Ho Ht Hmax Hh Hf; cbn [readi_loop];
    (destruct (Z.ltb_spec tot n); [|wp_step; split_and!; [lia| |by apply unchanged_refl];
      replace (Z.to_nat (n - tot)) with 0%nat by lia; by rewrite app_nil_r]); [lia|].
  destruct (chunk_range n tot off) as (Hm1 & Hm2 & Hm3); [done..|]. set (m := chunk n tot off) in *.
  assert (Hb : 0 <= off / BSIZE < MAXFILE) by (Z.div_mod_to_equations; lia).
  wp_step. eapply wp_bmap_hit; [done|done|done|apply Hh; lia|]. fold ip.
  intros s1 S1 E1 L1 F1 C1. set (b := iblock (bcontent s) ip (off / BSIZE)).
  assert (Hn : b <> 0) by (apply Hh; lia). rewrite (proj2 (Z.eqb_neq _ _)) by done.
  wp_step. apply wp_get. rewrite (fw_dev _ _ _ (fc_wf _ _ _ _ _ F1)).
  wp_step. eapply wp_fx_bread; [apply F1|apply not_elem_of_nil|done|].
  intros bp s2 S2 E2 L2 F2 Ed2 Cl2 C2 _. wp_step. apply wp_get. rewrite Ed2, C1.
  wp_step. cbn [copy_to]. wp_step. change (0 =? -1) with false. cbv iota.
  wp_step. eapply (wp_fx_release s2 s1); [done|done|apply (fstep_disk _ _ S2)|].
  intros s3 S3 E3 L3 F3 _ C3.
  assert (U : unchanged s me P i s3).
  { assert (C03 : forall b, bcontent s3 b = bcontent s b) by (intros; by rewrite C3, C2, C1).
    assert (S03 : fstep s s3) by (eapply fstep_trans; [done|by eapply fstep_trans]).
    split; try done; try congruence. apply (fctx_same s); try done; congruence. }
  pose proof (unchanged_inode _ _ _ _ _ i U) as Ei. cbn [advance].
  unfold b. rewrite (fread_chunk (bcontent s) ip off (Z.to_nat m)); [|done|lia|done|eapply fctx_len, F].
  eapply wp_mono; [apply (IH s3); rewrite ?Ei; fold ip; try done; try lia|].
  - apply U.
  - replace (n - (tot + m)) with (n - tot - m) by lia.
    eapply no_hole_ext; [apply U|]. intros x Hx. apply Hh. lia.
  - intros [r bs] s4 (-> & -> & U4). split_and!; [done| |by eapply unchanged_trans].
    rewrite Ei. fold ip. rewrite (fread_ext (bcontent s) (bcontent s3)) by apply U. rewrite <- app_assoc. f_equal.
    replace (Z.to_nat (n - tot)) with (Z.to_nat m + Z.to_nat (n - (tot + m)))%nat by lia.
    rewrite fread_app. do 2 f_equal. lia.
Qed.

(** [readi] into a local variable: the bytes of the file, cut off at its end. *)
Lemma wp_readi s me P i off n :
  let ip := inodeat i s in
  fctx s me P [] i -> room P [] 0 -> 0 <= off -> 0 <= n < 2 ^ 31 -> off <= i_size ip ->
  no_hole (bcontent s) ip 0 (i_size ip) ->
  let m := Z.min n (i_size ip - off) in
  wp (readi i DLocal off n) (fun '(r, bs) s' =>
    r = m /\ bs = fread (bcontent s) ip off (Z.to_nat m) /\ unchanged s me P i s') s.
Proof.
  intros ip F Hr Ho Hn Hs Hh m. pose proof (fw_size _ _ _ (fc_wf _ _ _ _ _ F)) as Hsz. fold ip in Hsz.
  unfold readi. wp_step. apply wp_get. fold ip.
  rewrite (u32_small (off + n)) by lia. rewrite !(proj2 (Z.ltb_ge _ _)) by lia. cbn [orb].
  assert (Em : (if i_size ip <? off + n then i_size ip - off else n) = m).
  { unfold m. destruct (Z.ltb_spec (i_size ip) (off + n)); lia. }
  rewrite Em. eapply wp_mono; [apply (wp_readi_loop _ s me P i off 0 m []); try done; try lia|].
  - intros x Hx. apply Hh. fold ip. lia.
  - intros [r bs] s' (-> & -> & U). rewrite Z.sub_0_r. done.
Qed.

End FsFile.
