(* ===== verification/FsWrite.v ===== *)
(** [iupdate] and [writei] of [Fs]: inodes on disk, and writing a file's bytes. *)
From S2P Require Import Prelude Types Str Kalloc Vm Sched Sleeplock Bio BioSess.
From S2P Require Import Log LogSpec Crash LogOps Fs FsBlk FsFile.

Section FsWrite.
Context {L : Linker}.
Implicit Types (P : list Z) (K : list (nat * Z)) (b r bn off : Z) (C : Z -> list Z)
  (v : superblock) (ip : inode).

(** ** Inodes on disk *)

(** A field written by a sequence of stores, read back. *)
Lemma length_put_addrs addrs : forall d o,
  (o + 4 * length addrs <= length d)%nat -> length (put_addrs d o addrs) = length d.
Proof.
  induction addrs as [|a addrs IH]; intros d o H; cbn in *; [done|].
  rewrite IH; rewrite length_put32; lia.
Qed.

Lemma put_addrs_other addrs : forall d o o' n,
  (o + 4 * length addrs <= length d)%nat -> (o' + n <= o \/ o + 4 * length addrs <= o')%nat ->
  take n (drop o' (put_addrs d o addrs)) = take n (drop o' d).
Proof.
  induction addrs as [|a addrs IH]; intros d o o' n H Ho; cbn in *; [done|].
  rewrite IH; [|rewrite length_put32; lia|lia]. apply put32_other; lia.
Qed.

Lemma put_addrs_nth addrs : forall d o k,
  (o + 4 * length addrs <= length d)%nat -> (k < length addrs)%nat ->
  getu32 (put_addrs d o addrs) (o + 4 * k) = u32 (nth k addrs 0).
Proof.
  induction addrs as [|a addrs IH]; intros d o [|k] H Hk; cbn in *; try lia.
  - unfold getu32. rewrite put_addrs_other; [|rewrite length_put32; lia|lia].
    rewrite Nat.add_0_r. change (getu32 (put32 d o a) o = u32 a). apply getu32_put32. lia.
  - replace (o + S (k + S (k + S (k + S (k + 0)))))%nat with (o + 4 + 4 * k)%nat by lia.
    apply IH; [rewrite length_put32; lia|lia].
Qed.

(** Offsets in a block after stores to it. *)
Ltac put_len :=
  first [lia | rewrite length_put32; put_len | rewrite length_put16; put_len
        | rewrite length_put_addrs; put_len].

(** The fields are of the C types' width. *)
Definition short (x : Z) : Prop := - 2 ^ 15 <= x < 2 ^ 15.
Record inode_ok ip : Prop := {
  io_type : short (i_type ip);
  io_major : short (i_major ip);
  io_minor : short (i_minor ip);
  io_nlink : short (i_nlink ip);
  io_size : 0 <= i_size ip < 2 ^ 32;
  io_len : length (i_addrs ip) = 13%nat;
  io_addrs : Forall (fun a => 0 <= a < 2 ^ 32) (i_addrs ip)
}.

Lemma get16_put16 l o x : (o + 2 <= length l)%nat -> short x -> get16 (put16 l o x) o = x.
Proof.
  intros Hl Hx. unfold get16. rewrite put16_same by done. rewrite le_val_le_bytes.
  change (2 ^ (8 * Z.of_nat 2)) with (2 ^ 16). unfold i16, short in *.
  rewrite Zplus_mod_idemp_l, Z.mod_small; lia.
Qed.

Section Dinode.
Context (d : list Z) (o : nat) ip (Hd : (o + 64 <= length d)%nat) (Hip : length (i_addrs ip) = 13%nat).

Lemma length_put_dinode : length (put_dinode d o ip) = length d.
Proof.
  unfold put_dinode. put_len.
Qed.

(** An inode stored and loaded again. *)
Lemma load_put_dinode ip' : inode_ok ip ->
  load_dinode (put_dinode d o ip) o ip' =
    Inode (i_dev ip') (i_inum ip') (i_ref ip') (i_lock ip') (i_valid ip')
      (i_type ip) (i_major ip) (i_minor ip) (i_nlink ip) (i_size ip) (i_addrs ip).
Proof.
  intros [Ht Hma Hmi Hnl Hs _ Ha]. unfold load_dinode.
  assert (H16 : forall k, (k = 0 \/ k = 2 \/ k = 4 \/ k = 6)%nat ->
    get16 (put_dinode d o ip) (o + k) =
      nth (k / 2) [i_type ip; i_major ip; i_minor ip; i_nlink ip] 0).
  { intros k Hk. unfold put_dinode, get16.
    rewrite put_addrs_other, put32_other by put_len.
    destruct Hk as [->|[->|[->| ->]]];
      repeat (rewrite put16_other by put_len);
      rewrite ?Nat.add_0_r; apply get16_put16; (done || put_len). }
  pose proof (H16 0%nat ltac:(lia)) as H0. rewrite Nat.add_0_r in H0. rewrite H0, !H16 by lia.
  f_equal; try reflexivity.
  - unfold put_dinode, getu32. rewrite put_addrs_other by put_len.
    rewrite put32_same, le_val_le_bytes by put_len. by apply u32_small.
  - apply list_eq. intros k. unfold di_addrs.
    change (map ?f ?l) with (f <$> l). rewrite list_lookup_fmap.
    destruct (decide (k < 13)%nat).
    + rewrite lookup_seq_lt by done. cbn [fmap option_fmap option_map Nat.add].
      destruct (lookup_lt_is_Some_2 (i_addrs ip) k) as [x Hx]; [lia|]. rewrite Hx. f_equal.
      unfold put_dinode. rewrite put_addrs_nth by put_len.
      rewrite (nth_lookup_Some _ _ _ _ Hx). apply u32_small. by eapply Forall_lookup_1 in Ha.
    + rewrite lookup_seq_ge by lia. symmetry. apply lookup_ge_None. lia.
Qed.

End Dinode.

(** The block of an inode is between the log and the bitmap. *)
Definition inum_ok v (inum : Z) : Prop := 0 <= inum < sb_ninodes v.
Definition inum_block v (inum : Z) : Z := sb_inodestart v + inum / IPB.

Lemma inum_block_range v l inum : geom v l -> inum_ok v inum ->
  sb_inodestart v <= inum_block v inum < sb_bmapstart v.
Proof.
  intros [_ _ _ _ [_ ?] _ _] [? ?]. unfold inum_block.
  pose proof (div_range inum (sb_ninodes v) IPB). lia.
Qed.

Lemma IBLOCK_eq v l inum : geom v l -> inum_ok v inum -> IBLOCK inum (sb_inodestart v) = inum_block v inum.
Proof.
  intros G H. pose proof (inum_block_range v l inum G H). pose proof (geom_bmap v l G).
  destruct G. unfold IBLOCK. rewrite u32_small; unfold inum_block in *; unfold data_start in *; lia.
Qed.

Lemma loggable_inode v l inum : geom v l -> inum_ok v inum -> loggable l (inum_block v inum).
Proof.
  intros G H. pose proof (inum_block_range v l inum G H). pose proof (geom_bmap v l G).
  destruct G as [Es Ez ? ? ? ? ?]. unfold loggable, data_start in *. rewrite Es, Ez. lia.
Qed.

Lemma di_off_range inum : (di_off inum + 64 <= 1024)%nat.
Proof. unfold di_off. pose proof (Z.mod_pos_bound inum IPB ltac:(lia)). lia. Qed.

(** A change of a block before the bitmap leaves the files alone. *)
Lemma bset_meta v l C b0 d ip : geom v l -> b0 < sb_bmapstart v -> file_wf v C ip ->
  (forall b, 0 <= b < sb_size v -> used v (bset C b0 d) b = used v C b) /\
  (forall b, sb_bmapstart v <= b -> bset C b0 d b = C b) /\
  (forall bn, 0 <= bn <= MAXFILE -> iblock (bset C b0 d) ip bn = iblock C ip bn) /\
  file_wf v (bset C b0 d) ip /\
  (forall off, 0 <= off < MAXFILE * BSIZE -> fbyte (bset C b0 d) ip off = fbyte C ip off).
Proof.
  intros G Hb W. pose proof (geom_bmap v l G) as (Hg & Hg2 & Hg3). unfold data_start in Hg2.
  assert (Hd : forall b, sb_bmapstart v <= b -> bset C b0 d b = C b).
  { intros b Hb'. unfold bset. by rewrite decide_False by lia. }
  assert (Hu : forall b, 0 <= b < sb_size v -> used v (bset C b0 d) b = used v C b).
  { intros b Hb'. apply used_bset_other. pose proof (bmblock_range v l b G Hb'). lia. }
  assert (Hin : forall bn, 0 <= bn <= MAXFILE -> iblock C ip bn = 0 \/ sb_bmapstart v <= iblock C ip bn).
  { intros bn Hbn. destruct (fw_block _ _ _ W bn Hbn) as [|(_ & ? & _)]; [by left|right].
    unfold data_start in *. lia. }
  assert (Hib : forall bn, 0 <= bn <= MAXFILE -> iblock (bset C b0 d) ip bn = iblock C ip bn).
  { intros bn Hbn. unfold iblock. destruct (bn <? NDIRECT); [done|]. destruct (bn =? MAXFILE); [done|].
    destruct (Z.eqb_spec (addr ip 12) 0); [done|].
    destruct (Hin MAXFILE ltac:(lia)); [done|]. by rewrite Hd. }
  split_and!; try done.
  - destruct W as [Wd Wl Wb Wi Ws]. split; try done.
    + intros bn Hbn. rewrite Hib by done. unfold in_use. destruct (Wb bn Hbn) as [|(? & ? & ?)]; [by left|right].
      unfold data_start in *. rewrite Hu by lia. done.
    + intros bn bn' Hbn Hbn'. rewrite !Hib by done. by apply Wi.
  - intros off Ho. assert (0 <= off / BSIZE < MAXFILE) by (Z.div_mod_to_equations; lia).
    unfold fbyte. rewrite Hib by lia. destruct (Z.eqb_spec (iblock C ip (off / BSIZE)) 0); [done|].
    destruct (Hin (off / BSIZE) ltac:(lia)); [done|]. by rewrite Hd.
Qed.

Lemma wp_iupdate s me P i (Q : unit -> kst -> Prop) :
  let v := sb s in let ip := inodeat i s in let b := inum_block v (i_inum ip) in
  fctx s me P [] i -> inum_ok v (i_inum ip) -> slots s P 1 -> room P [] 0 ->
  (forall s', fstep s s' -> inodes s' = inodes s -> fctx s' me (logged P b) [] i ->
     (forall b', bcontent s' b' =
        bset (bcontent s) b (put_dinode (bcontent s b) (di_off (i_inum ip)) ip) b') -> Q tt s') ->
  wp (iupdate i) Q s.
Proof.
  intros v ip b F Hi Hs Hr HQ. pose proof F as [Fx G M D Hlt W]. fold v in G. unfold iupdate.
  wp_step. apply wp_get. fold ip. wp_step. apply wp_get. fold v.
  rewrite (IBLOCK_eq v (log s)) by done. fold b. rewrite (fw_dev _ _ ip W).
  wp_step. eapply wp_fx_bread; [done|apply not_elem_of_nil|done|].
  intros bp s1 S1 E1 L1 F1 Ed1 _ C1 _.
  apply (wp_updb_data s1 bp (fun x => put_dinode x (di_off (i_inum ip)) ip) _ _ _ eq_refl). rewrite Ed1.
  pose proof (di_off_range (i_inum ip)) as Hoff.
  eapply wp_fx_put; [done|unfold slots; by rewrite L1|rewrite L1; by apply (loggable_inode v)| |].
  { pose proof (fx_blen s me P [] b Fx). rewrite length_put_dinode; [done|lia|apply W]. }
  intros s2 S2 E2 F2 _ C2.
  assert (S02 : fstep s s2) by (by eapply fstep_trans).
  assert (E02 : inodes s2 = inodes s) by congruence.
  assert (C02 : forall b', bcontent s2 b' =
    bset (bcontent s) b (put_dinode (bcontent s b) (di_off (i_inum ip)) ip) b').
  { intros b'. rewrite C2. unfold bset. case_decide; [done|apply C1]. }
  apply HQ; try done.
  destruct (bset_meta v (log s) (bcontent s) b (put_dinode (bcontent s b) (di_off (i_inum ip)) ip) ip)
    as (HU & _ & _ & W' & _); [done|by apply (inum_block_range v (log s))|done|].
  assert (Ei : inodeat i s2 = ip) by (unfold inodeat; by rewrite E02).
  split; rewrite ?(fstep_sb _ _ S02), ?E02, ?Ei; fold v; try done.
  - eapply geom_same; [apply (fs_log _ _ S02)|done].
  - intros b' Hb'. pose proof (geom_bmap v _ G).
    rewrite (used_ext v (bset (bcontent s) b (put_dinode (bcontent s b) (di_off (i_inum ip)) ip))) by done.
    rewrite HU by lia. by apply M.
  - intros b' Hb'. by apply elem_of_nil in Hb'.
  - by eapply file_wf_eq.
Qed.

(** ** Writing bytes *)

Lemma length_splice d o w : (o + length w <= length d)%nat -> length (splice d o w) = length d.
Proof. intros H. unfold splice. rewrite !length_app, length_take, length_drop. lia. Qed.

Lemma nth_splice d o w k : (o + length w <= length d)%nat ->
  nth k (splice d o w) 0 = if decide (o <= k < o + length w)%nat then nth (k - o) w 0 else nth k d 0.
Proof.
  intros H. unfold splice. destruct (decide (k < o)%nat).
  - rewrite decide_False by lia. rewrite app_nth1 by (rewrite length_take; lia). rewrite nth_firstn, (proj2 (Nat.ltb_lt _ _)) by lia. done.
  - rewrite app_nth2 by (rewrite length_take; lia). rewrite length_take, Nat.min_l by lia.
    case_decide.
    + rewrite app_nth1 by lia. done.
    + rewrite app_nth2 by lia. rewrite nth_skipn. f_equal. lia.
Qed.

(** Bytes [w] have been written to the file at [off]. *)
Record fwrote v C ip C' ip' off (w : list Z) : Prop := {
  fr_inode : ip' = set_i_addrs (i_addrs ip') ip;
  fr_used b : 0 <= b < sb_size v -> used v C b = true -> used v C' b = true;
  fr_meta b : b < sb_bmapstart v -> C' b = C b;
  fr_data b : in_use v C b -> (forall bn, 0 <= bn <= MAXFILE -> iblock C ip bn <> b) -> C' b = C b;
  fr_new bn : 0 <= bn <= MAXFILE -> iblock C' ip' bn = iblock C ip bn \/
    (0 < iblock C' ip' bn < sb_size v /\ used v C (iblock C' ip' bn) = false);
  fr_keep bn : 0 <= bn <= MAXFILE -> iblock C ip bn <> 0 -> iblock C' ip' bn = iblock C ip bn;
  fr_byte x : 0 <= x < MAXFILE * BSIZE -> fbyte C' ip' x =
    if decide (off <= x < off + Z.of_nat (length w)) then nth (Z.to_nat (x - off)) w 0 else fbyte C ip x;
  fr_there x : 0 <= x < MAXFILE * BSIZE -> off <= x < off + Z.of_nat (length w) ->
    iblock C' ip' (x / BSIZE) <> 0
}.

Lemma fext_fwrote v C ip C' ip' off : fext v C ip C' ip' -> fwrote v C ip C' ip' off [].
Proof.
  intros [I U M D N K B]. split; try done.
  - intros b Hb Hn. apply D; [done|]. intros ->. by apply (Hn MAXFILE ltac:(lia)).
  - intros x Hx. rewrite B by done. rewrite decide_False; [done|]. cbn. lia.
  - cbn. lia.
Qed.

Lemma fwrote_trans v C ip C1 ip1 C2 ip2 off w1 w2 :
  fwrote v C ip C1 ip1 off w1 -> fwrote v C1 ip1 C2 ip2 (off + Z.of_nat (length w1)) w2 ->
  fwrote v C ip C2 ip2 off (w1 ++ w2).
Proof.
  intros [I1 U1 M1 D1 N1 K1 B1 H1] [I2 U2 M2 D2 N2 K2 B2 H2]. split.
  - rewrite I2, I1. done.
  - auto.
  - intros b Hb. by rewrite M2, M1.
  - intros b (H0 & Hb & Hu) Hn. rewrite D2, D1; try done.
    + split_and!; [done|lia|lia|]. apply U1; [lia|done].
    + intros bn Hbn E. destruct (N1 bn Hbn) as [E'|[_ Hf]]; [by apply (Hn bn Hbn); congruence|congruence].
  - intros bn Hbn. destruct (N2 bn Hbn) as [->|[Hr Hf]]; [by apply N1|].
    right. split; [done|]. destruct (used v C (iblock C2 ip2 bn)) eqn:E; [|done].
    rewrite U1 in Hf by (lia || done). done.
  - intros bn Hbn Hn. rewrite K2, K1; try done. by rewrite K1.
  - intros x Hx. rewrite B2, B1 by done. rewrite length_app, Nat2Z.inj_add.
    repeat case_decide; try lia; try done.
    + rewrite app_nth2 by lia. f_equal. lia.
    + rewrite app_nth1 by lia. done.
  - intros x Hx. rewrite length_app, Nat2Z.inj_add. intros Hw.
    destruct (decide (x < off + Z.of_nat (length w1))); [|apply H2; [done|lia]].
    rewrite K2; [apply H1; [done|lia]| |apply H1; [done|lia]]. Z.div_mod_to_equations. lia.
Qed.

Section WriteBlock.
Context v l (G : geom v l) C ip (W : file_wf v C ip) bn (Hbn : 0 <= bn < MAXFILE) (d : list Z).
Let r := iblock C ip bn.
Context (Hr : r <> 0).

Lemma wb_in_use : in_use v C r.
Proof. destruct (fw_block _ _ _ W bn ltac:(lia)); done. Qed.

Lemma wb_ind : r <> addr ip 12.
Proof. intros E. assert (bn = MAXFILE); [|lia]. apply (fw_inj _ _ _ W); [lia|lia|exact E|exact Hr]. Qed.

Lemma wb_iblock bn' : iblock (bset C r d) ip bn' = iblock C ip bn'.
Proof.
  unfold iblock. destruct (bn' <? NDIRECT); [done|]. destruct (bn' =? MAXFILE); [done|].
  destruct (addr ip 12 =? 0); [done|]. unfold bset.
  rewrite decide_False by (intros E; by apply wb_ind). done.
Qed.

Lemma wb_used b : 0 <= b < sb_size v -> used v (bset C r d) b = used v C b.
Proof.
  intros Hb. apply used_bset_other. apply (bm_not_data v l G); [done|].
  destruct wb_in_use as (_ & ? & _). lia.
Qed.

Lemma wb_wf : file_wf v (bset C r d) ip.
Proof.
  pose proof W as [Wd Wl Wb Wi Ws]. split; try done.
  - intros bn' Hbn'. rewrite wb_iblock. destruct (Wb bn' Hbn') as [|(? & ? & ?)]; [by left|right].
    pose proof (data_pos v l G). split_and!; try lia. rewrite wb_used by lia. done.
  - intros bn1 bn2 H1 H2. rewrite !wb_iblock. by apply Wi.
Qed.

Lemma wb_byte x : 0 <= x < MAXFILE * BSIZE -> fbyte (bset C r d) ip x =
  if decide (x / BSIZE = bn) then nth (Z.to_nat (x mod BSIZE)) d 0 else fbyte C ip x.
Proof.
  intros Hx. assert (0 <= x / BSIZE < MAXFILE) by (Z.div_mod_to_equations; lia).
  unfold fbyte. rewrite wb_iblock. case_decide as E.
  - rewrite E. fold r. rewrite (proj2 (Z.eqb_neq _ _)) by done. unfold bset. by rewrite decide_True.
  - destruct (Z.eqb_spec (iblock C ip (x / BSIZE)) 0) as [|Hn]; [done|]. unfold bset.
    rewrite decide_False; [done|]. intros Er. apply E. apply (fw_inj _ _ _ W); [lia|lia|done|done].
Qed.

End WriteBlock.

(** One block: [bmap], then the bytes stored in it. *)
Lemma fwrote_chunk v l C ip C1 ip1 off w :
  geom v l -> fext v C ip C1 ip1 -> file_wf v C1 ip1 ->
  0 <= off -> off + Z.of_nat (length w) <= MAXFILE * BSIZE -> (0 < length w)%nat ->
  off mod BSIZE + Z.of_nat (length w) <= BSIZE ->
  let r := iblock C1 ip1 (off / BSIZE) in r <> 0 -> length (C1 r) = 1024%nat ->
  fwrote v C ip (bset C1 r (splice (C1 r) (Z.to_nat (off mod BSIZE)) w)) ip1 off w.
Proof.
  intros G X W1 Ho Hmax Hw Hm r Hr Hl. set (d := splice _ _ _).
  assert (Hbn : 0 <= off / BSIZE < MAXFILE) by (Z.div_mod_to_equations; lia).
  pose proof (Z.mod_pos_bound off BSIZE ltac:(lia)) as Hmod.
  pose proof (wb_iblock v C1 ip1 W1 (off / BSIZE) Hbn d Hr) as Hib. fold r in Hib.
  pose proof X as [I U M D N K B]. split.
  - done.
  - intros b Hb Hu. unfold r. rewrite (wb_used v l G C1 ip1 W1 (off / BSIZE) Hbn d Hr b Hb). by apply U.
  - intros b Hb. unfold bset. rewrite decide_False; [by apply M|]. intros ->.
    destruct (wb_in_use v C1 ip1 W1 (off / BSIZE) Hbn Hr) as (_ & H1 & _).
    pose proof (geom_bmap v l G). unfold data_start in *. fold r in H1. lia.
  - intros b Hb Hn. unfold bset. rewrite decide_False.
    + apply D; [done|]. intros ->. by apply (Hn MAXFILE ltac:(lia)).
    + intros ->. destruct (N (off / BSIZE) ltac:(lia)) as [E|[_ Hf]].
      * apply (Hn (off / BSIZE) ltac:(lia)). by rewrite <- E.
      * destruct Hb as (_ & _ & Hu). fold r in Hf. congruence.
  - intros bn Hb. rewrite Hib. by apply N.
  - intros bn Hb Hn. rewrite Hib. by apply K.
  - intros x Hx. unfold r. rewrite (wb_byte v C1 ip1 W1 (off / BSIZE) Hbn d Hr x Hx).
    case_decide as E.
    + unfold d. rewrite nth_splice by lia.
      pose proof (Z.mod_pos_bound x BSIZE ltac:(lia)).
      assert (x mod BSIZE = x - off / BSIZE * BSIZE) by (Z.div_mod_to_equations; lia).
      assert (off mod BSIZE = off - off / BSIZE * BSIZE) by (Z.div_mod_to_equations; lia).
      destruct (decide (off <= x < off + Z.of_nat (length w))).
      * rewrite decide_True by lia. f_equal. lia.
      * rewrite decide_False by lia. rewrite <- B by done. unfold fbyte. rewrite E. fold r.
        by rewrite (proj2 (Z.eqb_neq _ _)).
    + rewrite decide_False; [by apply B|]. intros Hin. apply E. Z.div_mod_to_equations. lia.
  - intros x Hx Hin. rewrite Hib.
    replace (x / BSIZE) with (off / BSIZE) by (Z.div_mod_to_equations; lia). exact Hr.
Qed.

(** ** [writei] *)

(** The file of entry [i] has been written, logging at most [c] more blocks. *)
Record fput (s : kst) me P (i : nat) (s' : kst) P' (c : nat) off (w : list Z) : Prop := {
  fp_step : fstep s s';
  fp_ctx : fctx s' me P' [] i;
  fp_len : (length P' <= length P + c)%nat;
  fp_other j : j <> i -> inodeat j s' = inodeat j s;
  fp_table : length (inodes s') = length (inodes s);
  fp_ext : fwrote (sb s) (bcontent s) (inodeat i s) (bcontent s') (inodeat i s') off w
}.

Lemma fgrow_fput s me P i s' P' c off : fgrow s me P [] i s' P' c -> fput s me P i s' P' c off [].
Proof. intros [? ? ? ? ? ? ? ?]. split; try done. by apply fext_fwrote. Qed.

Lemma fput_trans s me P i s1 P1 c1 s2 P2 c2 off w1 w2 :
  fput s me P i s1 P1 c1 off w1 -> fput s1 me P1 i s2 P2 c2 (off + Z.of_nat (length w1)) w2 ->
  fput s me P i s2 P2 (c1 + c2) off (w1 ++ w2).
Proof.
  intros [S1 F1 L1 O1 T1 E1] [S2 F2 L2 O2 T2 E2]. split; try done.
  - by eapply fstep_trans.
  - lia.
  - intros j Hj. by rewrite O2, O1.
  - congruence.
  - rewrite (fstep_sb _ _ S1) in E2. by eapply fwrote_trans.
Qed.

Lemma fput_le s me P i s' P' c c' off w :
  fput s me P i s' P' c off w -> (c <= c')%nat -> fput s me P i s' P' c' off w.
Proof. intros [? ? ? ? ? ?] Hc. split; try done. lia. Qed.

(** The source gives the bytes [bs], whatever part of them is asked for, as long as only the
    file system runs. *)
Definition gives (src : source) (bs : list Z) (s : kst) : Prop :=
  forall k m s1, fstep s s1 -> 0 <= k -> 0 <= m -> k + m <= Z.of_nat (length bs) ->
    copy_from (advance_src src k) m s1 = Ok (0, take (Z.to_nat m) (drop (Z.to_nat k) bs)) s1.

Lemma advance_src_add src k m : 0 <= k -> 0 <= m -> advance_src (advance_src src k) m = advance_src src (k + m).
Proof. intros. destruct src; cbn; f_equal; [lia..|]. rewrite drop_drop. f_equal. lia. Qed.
Lemma advance_src_0 src : advance_src src 0 = src.
Proof. destruct src; cbn; f_equal; lia || done. Qed.

Lemma gives_step src bs s s' : fstep s s' -> gives src bs s -> gives src bs s'.
Proof. intros S G k m s1 S1. apply G. by eapply fstep_trans. Qed.
Lemma gives_drop src bs s m :
  0 <= m <= Z.of_nat (length bs) -> gives src bs s -> gives (advance_src src m) (drop (Z.to_nat m) bs) s.
Proof.
  intros Hm G k n s1 S1 Hk Hn Hl. rewrite length_drop in Hl. rewrite advance_src_add, G by (done || lia).
  rewrite drop_drop. do 4 f_equal. lia.
Qed.
Lemma gives_local bs s : gives (SLocal bs) bs s.
Proof. by intros k m s1 _ _ _ _. Qed.

(** One round of the loop: [m] bytes into one block of the file. *)
Lemma wp_write_chunk {A} s s1 me P P1 i off w src m (fail : nat -> M A) (k : M A) (Q : A -> kst -> Prop) :
  let r := iblock (bcontent s1) (inodeat i s1) (off / BSIZE) in
  fgrow s me P [] i s1 P1 5 -> 0 <= off -> off + Z.of_nat (length w) <= MAXFILE * BSIZE ->
  (0 < length w)%nat -> off mod BSIZE + Z.of_nat (length w) <= BSIZE -> r <> 0 ->
  slots s P 6 -> room P [] 6 -> (forall s0, fstep s s0 -> copy_from src m s0 = Ok (0, w) s0) ->
  (forall s' P', fput s me P i s' P' 6 off w -> wp k Q s') ->
  wp (let! dev := geti i i_dev in
      let! bp := bread dev r in
      let! (rc, bs) := copy_from src m in
      updb bp (fun x => set_b_data (splice (b_data x) (Z.to_nat (off mod BSIZE)) bs) x) ;;;
      if rc =? -1 then fail bp else log_write bp ;;; brelse bp ;;; k) Q s1.
Proof.
  intros r X Ho Hmax Hw Hm Hr Hs Hro Hsrc HQ. pose proof (fg_ctx _ _ _ _ _ _ _ _ X) as F1.
  pose proof F1 as [Fx1 G1 M1 D1 Hi1 W1]. set (v := sb s1) in *.
  pose proof (fg_len _ _ _ _ _ _ _ _ X) as Hl. pose proof (fs_log _ _ (fg_step _ _ _ _ _ _ _ _ X)) as El.
  assert (Hbn : 0 <= off / BSIZE < MAXFILE) by (Z.div_mod_to_equations; lia).
  destruct (wb_in_use v (bcontent s1) (inodeat i s1) W1 (off / BSIZE) Hbn Hr) as (Hr0 & Hrd & Hru).
  fold r in Hr0, Hrd, Hru. pose proof (Z.mod_pos_bound off BSIZE ltac:(lia)).
  wp_step. apply wp_get. rewrite (fw_dev _ _ _ W1).
  wp_step. eapply wp_fx_bread; [done|apply not_elem_of_nil|unfold room in *; lia|].
  intros bp s2 S2 E2 L2 F2 Ed2 _ C2 _.
  wp_step. unfold wp at 1. rewrite Hsrc by (eapply fstep_trans; [apply X|done]). change (0 =? -1) with false. cbv iota.
  apply (wp_updb_data s2 bp (fun x => splice x (Z.to_nat (off mod BSIZE)) w) _ _ _ eq_refl). rewrite Ed2.
  assert (Hlr : length (bcontent s1 r) = 1024%nat) by (by eapply fx_blen).
  apply wp_seq3. eapply wp_fx_put; [done| | |rewrite length_splice; lia|].
  { unfold slots in *. rewrite L2, (sg_size _ _ El). lia. }
  { rewrite L2. apply (loggable_data v); [done|]. pose proof (geom_bmap _ _ G1). unfold data_start in *. lia. }
  intros s3 S3 E3 F3 _ C3.
  assert (S13 : fstep s1 s3) by (by eapply fstep_trans).
  assert (E13 : inodes s3 = inodes s1) by congruence.
  assert (Ei : forall j, inodeat j s3 = inodeat j s1) by (intros; unfold inodeat; by rewrite E13).
  set (C' := bset (bcontent s1) r (splice (bcontent s1 r) (Z.to_nat (off mod BSIZE)) w)).
  assert (C13 : forall b, bcontent s3 b = C' b).
  { intros b. rewrite C3. unfold C', bset. case_decide; [done|apply C2]. }
  assert (Ev : v = sb s) by (apply (fstep_sb _ _ (fg_step _ _ _ _ _ _ _ _ X))).
  apply (HQ s3 (logged P1 r)). split.
  - eapply fstep_trans; [apply X|done].
  - assert (HU : forall b, 0 <= b < sb_size v -> used v (bcontent s3) b = used v (bcontent s1) b).
    { intros b Hb. rewrite (used_ext v C') by done. by apply (wb_used v (log s1)). }
    split; rewrite ?(fstep_sb _ _ S13), ?E13, ?Ei; fold v; try done.
    + eapply geom_same; [apply (fs_log _ _ S13)|done].
    + intros b Hb. pose proof (geom_bmap _ _ G1). rewrite HU by lia. by apply M1.
    + intros b Hb. by apply elem_of_nil in Hb.
    + eapply (file_wf_eq v C'); [done|]. by apply (wb_wf v (log s1)).
  - pose proof (length_logged P1 r). lia.
  - intros j Hj. rewrite Ei. by apply (fg_other _ _ _ _ _ _ _ _ X).
  - rewrite E13. apply (fg_table _ _ _ _ _ _ _ _ X).
  - rewrite Ei, <- Ev.
    pose proof (fwrote_chunk v (log s1) (bcontent s) (inodeat i s) (bcontent s1) (inodeat i s1) off w) as Hc.
    cbv zeta in Hc. rewrite Ev in Hc at 2. specialize (Hc G1 (fg_ext _ _ _ _ _ _ _ _ X) W1 Ho Hmax Hw Hm Hr Hlr).
    rewrite <- (app_nil_r w). eapply fwrote_trans; [exact Hc|]. apply fext_fwrote, fext_eq. exact C13.
Qed.

Lemma wp_writei_loop fuel : forall nb s me P i src bs off tot n,
  gives src bs s -> fctx s me P [] i -> slots s P (6 * nb) -> room P [] (6 * nb) -> 0 <= off -> 0 <= tot <= n ->
  off + (n - tot) <= MAXFILE * BSIZE -> n - tot <= Z.of_nat (length bs) -> n - tot <= Z.of_nat fuel ->
  (tot < n -> off mod BSIZE + (n - tot) <= Z.of_nat nb * BSIZE) ->
  wp (writei_loop i src off tot n fuel) (fun '(tot', off') s' => exists P',
    tot <= tot' <= n /\ off' = off + (tot' - tot) /\
    (tot' < n -> disk_full s' /\ (tot' = tot \/ off' mod BSIZE = 0)) /\
    fput s me P i s' P' (6 * nb) off (take (Z.to_nat (tot' - tot)) bs)) s.
Proof.
  induction fuel as [|fuel IH]; intros nb s me P i src bs off tot n G F Hs Hr Ho Ht Hmax Hl Hf Hnb;
    cbn [writei_loop];
    (destruct (Z.ltb_spec tot n); [|wp_step; exists P; split_and!; [lia|lia|lia|lia|];
      replace (Z.to_nat (tot - tot)) with 0%nat by lia; rewrite take_0;
      eapply fput_le; [apply fgrow_fput; by apply fgrow_refl|lia]]); [lia|].
  specialize (Hnb ltac:(lia)). destruct nb as [|nb]; [pose proof (Z.mod_pos_bound off BSIZE); lia|].
  destruct (chunk_range n tot off) as (Hm1 & Hm2 & Hm3); [done..|]. set (m := chunk n tot off) in *.
  assert (Hbn : 0 <= off / BSIZE < MAXFILE) by (Z.div_mod_to_equations; lia).
  wp_step. eapply wp_mono; [apply (wp_bmap s me P i); [done|done|unfold slots in *; lia|unfold room in *; lia]|].
  intros r s1 (P1 & X & Er & U).
  destruct (Z.eqb_spec r 0) as [E0|Hn].
  { wp_step. exists P1. split_and!; [lia|lia|lia|intros; split; [by apply U|by left]|].
    replace (Z.to_nat (tot - tot)) with 0%nat by lia. rewrite take_0.
    eapply fput_le; [by apply fgrow_fput|lia]. }
  set (w := take (Z.to_nat m) bs).
  assert (Hlw : length w = Z.to_nat m) by (unfold w; rewrite length_take; lia).
  assert (Hgo : forall s' P', fput s me P i s' P' 6 off w ->
    wp (writei_loop i (advance_src src m) (off + m) (tot + m) n fuel)
      (fun '(tot', off') s' => exists P', tot <= tot' <= n /\ off' = off + (tot' - tot) /\
        (tot' < n -> disk_full s' /\ (tot' = tot \/ off' mod BSIZE = 0)) /\
        fput s me P i s' P' (6 * S nb) off (take (Z.to_nat (tot' - tot)) bs)) s').
  { intros s' P' Y. pose proof (fp_len _ _ _ _ _ _ _ _ _ Y) as Hl'.
    pose proof (fs_log _ _ (fp_step _ _ _ _ _ _ _ _ _ Y)) as El.
    eapply wp_mono; [apply (IH nb s' me P' i _ (drop (Z.to_nat m) bs)); try lia|].
    - eapply gives_step; [apply Y|]. apply gives_drop; [lia|done].
    - apply Y.
    - unfold slots in *. rewrite (sg_size _ _ El). lia.
    - unfold room in *. cbn in *. lia.
    - rewrite length_drop. lia.
    - intros Hlt. destruct Hm3 as [|Hm3]; [lia|]. rewrite Hm3.
      assert (off mod BSIZE + m = BSIZE); [|lia]. Z.div_mod_to_equations. lia.
    - intros [tot' off'] s2 (P2 & H1 & -> & H3 & Y2). exists P2.
      split_and!; [lia|lia|lia| |].
      { intros Hlt. destruct (H3 Hlt) as [? H4]. split; [done|]. right.
        destruct H4 as [->|H4]; [|exact H4]. destruct Hm3 as [|Hm3]; [lia|].
        by replace (off + m + (tot + m - (tot + m))) with (off + m) by lia. }
      replace (off + m) with (off + Z.of_nat (length w)) in Y2 by lia.
      apply (fput_le _ _ _ _ _ _ (6 + 6 * nb)); [|lia].
      replace (take (Z.to_nat (tot' - tot)) bs) with (w ++ take (Z.to_nat (tot' - (tot + m))) (drop (Z.to_nat m) bs)).
      + eapply fput_trans; [exact Y|exact Y2].
      + unfold w. rewrite take_take_drop. f_equal. lia. }
  rewrite Er. eapply (wp_write_chunk s s1 me P P1 i off w src m); try done; try lia;
    [unfold slots in *; lia|unfold room in *; lia|].
  intros s0 S0. rewrite <- (advance_src_0 src), G by (done || lia). by rewrite drop_0.
Qed.

(** What [writei] leaves: the bytes [w] are in the file, its size covers them, and
    the inode is on disk. *)
Record written (s : kst) me P (i : nat) off (w : list Z) (s' : kst) P' : Prop := {
  wr_step : fstep s s';
  wr_ctx : fctx s' me P' [] i;
  wr_other j : j <> i -> inodeat j s' = inodeat j s;
  wr_inode : inodeat i s' =
    set_i_size (Z.max (i_size (inodeat i s)) (off + Z.of_nat (length w)))
      (set_i_addrs (i_addrs (inodeat i s')) (inodeat i s));
  wr_byte x : 0 <= x < MAXFILE * BSIZE -> fbyte (bcontent s') (inodeat i s') x =
    if decide (off <= x < off + Z.of_nat (length w)) then nth (Z.to_nat (x - off)) w 0
    else fbyte (bcontent s) (inodeat i s) x;
  wr_there x : 0 <= x < MAXFILE * BSIZE -> off <= x < off + Z.of_nat (length w) ->
    iblock (bcontent s') (inodeat i s') (x / BSIZE) <> 0;
  wr_keep bn : 0 <= bn <= MAXFILE -> iblock (bcontent s) (inodeat i s) bn <> 0 ->
    iblock (bcontent s') (inodeat i s') bn = iblock (bcontent s) (inodeat i s) bn;
  wr_data b : in_use (sb s) (bcontent s) b ->
    (forall bn, 0 <= bn <= MAXFILE -> iblock (bcontent s) (inodeat i s) bn <> b) ->
    bcontent s' b = bcontent s b;
  wr_disk : let b := inum_block (sb s) (i_inum (inodeat i s)) in
    bcontent s' b = put_dinode (bcontent s b) (di_off (i_inum (inodeat i s))) (inodeat i s');
  wr_meta b : b < sb_bmapstart (sb s) -> b <> inum_block (sb s) (i_inum (inodeat i s)) ->
    bcontent s' b = bcontent s b;
  wr_table : length (inodes s') = length (inodes s)
}.

Lemma fctx_size s me P i z :
  fctx s me P [] i -> 0 <= z <= MAXFILE * BSIZE ->
  fctx (set_inodes (alter (set_i_size z) i (inodes s)) s) me P [] i.
Proof.
  intros [F G M D Hi W] Hz. split; try done.
  - by apply fx_inodes.
  - cbn. by rewrite length_alter.
  - rewrite inodeat_alter, decide_True by done. destruct W. by split.
Qed.

Lemma wp_writei_src s me P i src off bs nb :
  let v := sb s in let ip := inodeat i s in let n := Z.of_nat (length bs) in
  gives src bs s -> fctx s me P [] i -> inum_ok v (i_inum ip) -> 0 <= off <= i_size ip -> off + n <= MAXFILE * BSIZE ->
  off mod BSIZE + n <= Z.of_nat nb * BSIZE -> slots s P (6 * nb + 1) -> room P [] (6 * nb) ->
  wp (writei i src off n) (fun r s' => exists P',
    0 <= r <= n /\ (r < n -> disk_full s' /\ (r = 0 \/ (off + r) mod BSIZE = 0)) /\ (length P' <= length P + (6 * nb + 1))%nat /\
    written s me P i off (take (Z.to_nat r) bs) s' P') s.
Proof.
  intros v ip n G F Hin Ho Hmax Hnb Hs Hr. unfold writei. wp_step. apply wp_get. fold ip.
  pose proof (fw_size _ _ _ (fc_wf _ _ _ _ _ F)) as Hsz. fold ip in Hsz.
  rewrite (u32_small (off + n)) by lia. rewrite !(proj2 (Z.ltb_ge _ _)) by lia. cbn [orb]. wp_step.
  eapply wp_mono; [apply (wp_writei_loop _ nb s me P i src bs off 0 n); try done; try lia;
    unfold slots in *; lia|].
  intros [tot off'] s1 (P1 & Ht & -> & U & Y). rewrite Z.sub_0_r in *.
  set (w := take (Z.to_nat tot) bs) in *.
  assert (Hlw : Z.of_nat (length w) = tot) by (unfold w; rewrite length_take; unfold n in *; lia).
  pose proof Y as [S1 F1 L1 O1 T1 [I1 U1 M1 D1 N1 K1 B1 H1]]. fold ip v in I1, U1, M1, D1, N1, K1, B1.
  assert (Esz : i_size (inodeat i s1) = i_size ip) by (rewrite I1; done).
  assert (Ein : i_inum (inodeat i s1) = i_inum ip) by (rewrite I1; done).
  wp_step. apply wp_get. rewrite Esz.
  set (s2 := set_inodes (alter (set_i_size (Z.max (i_size ip) (off + tot))) i (inodes s1)) s1).
  assert (Hi1 : (i < length (inodes s1))%nat) by (apply F1).
  assert (H2 : (if i_size ip <? off + tot then updi i (set_i_size (off + tot)) else ret tt) s1 = Ok tt s2).
  { destruct (Z.ltb_spec (i_size ip) (off + tot)).
    - unfold s2. rewrite Z.max_r by lia. done.
    - unfold s2. rewrite Z.max_l by lia. rewrite <- Esz. unfold ret. f_equal.
      rewrite list_alter_same; [by destruct s1|]. unfold inodeat. by destruct (inodes s1 !!! i). }
  wp_step. unfold wp at 1. rewrite H2. clear H2.
  assert (Ei2 : inodeat i s2 = set_i_size (Z.max (i_size ip) (off + tot)) (inodeat i s1))
    by (unfold s2; by rewrite inodeat_alter, decide_True).
  assert (S12 : fstep s1 s2) by apply fstep_inodes.
  assert (C12 : forall b, bcontent s2 b = bcontent s1 b) by done.
  assert (Eo2 : forall j, j <> i -> inodeat j s2 = inodeat j s1).
  { intros j Hj. unfold s2. by rewrite inodeat_alter, decide_False by done. }
  assert (Et2 : length (inodes s2) = length (inodes s1)) by (unfold s2; cbn; by rewrite length_alter).
  assert (F2 : fctx s2 me P1 [] i) by (apply fctx_size; [done|lia]).
  assert (Ev2 : sb s2 = v) by apply (fstep_sb _ _ S1).
  assert (En2 : i_inum (inodeat i s2) = i_inum ip) by (rewrite Ei2; exact Ein).
  clearbody s2. wp_step. eapply wp_iupdate; [done|by rewrite En2, Ev2| |unfold room in *; lia|].
  { unfold slots in *. rewrite (sg_size _ _ (fs_log _ _ (fstep_trans _ _ _ S1 S12))). lia. }
  rewrite En2, Ev2. intros s3 S3 E3 F3 C3. wp_step.
  set (b0 := inum_block v (i_inum ip)) in *.
  pose proof (inum_block_range v (log s) (i_inum ip) (fc_geom _ _ _ _ _ F) Hin) as Hb0. fold b0 in Hb0.
  set (d0 := put_dinode _ _ _) in C3.
  assert (Ei3 : forall j, inodeat j s3 = inodeat j s2) by (intros; unfold inodeat; by rewrite E3).
  assert (Hg2 : geom v (log s2)) by (rewrite <- Ev2; apply F2).
  destruct (bset_meta v (log s2) (bcontent s2) b0 d0 (inodeat i s2)) as (HU & HD & HI & _ & HB);
    [done|lia|rewrite <- Ev2; apply F2|].
  exists (logged P1 b0). split_and!; [lia|lia| | |].
  - intros Hlt. split; [|apply U; lia]. intros b Hb. rewrite (fstep_sb _ _ S3), Ev2 in *. rewrite (used_ext v (bset (bcontent s2) b0 d0)) by done.
    rewrite HU by done. rewrite (used_ext v (bcontent s1)) by done.
    pose proof (proj1 (U ltac:(lia)) b) as Hu. rewrite (fstep_sb _ _ S1) in Hu. by apply Hu.
  - pose proof (length_logged P1 b0). lia.
  - assert (Hib : forall bn, 0 <= bn <= MAXFILE ->
      iblock (bcontent s3) (inodeat i s3) bn = iblock (bcontent s1) (inodeat i s1) bn).
    { intros bn Hbn. rewrite Ei3, Ei2. transitivity (iblock (bset (bcontent s2) b0 d0) (inodeat i s2) bn).
      - rewrite Ei2. unfold iblock. by rewrite C3.
      - rewrite HI, Ei2 by done. unfold iblock. by rewrite C12. }
    split; fold v ip b0 w; try done.
    + by do 2 (eapply fstep_trans; [done|]).
    + intros j Hj. rewrite Ei3, Eo2 by done. by apply O1.
    + rewrite Ei3, Ei2, I1, Hlw. by destruct ip.
    + intros x Hx. rewrite <- B1 by done.
      transitivity (fbyte (bset (bcontent s2) b0 d0) (inodeat i s2) x).
      * unfold fbyte. rewrite Ei3. unfold iblock. by rewrite !C3.
      * rewrite HB, Ei2 by done. unfold fbyte, iblock. by rewrite !C12.
    + intros x Hx Hw. rewrite Hib by (Z.div_mod_to_equations; lia). by apply H1.
    + intros bn Hbn Hn. rewrite Hib by done. by apply K1.
    + intros b Hb Hne. rewrite C3, HD; [rewrite C12; by apply D1|].
      destruct Hb as (_ & ? & _). pose proof (geom_bmap v _ Hg2). unfold data_start in *. lia.
    + cbv zeta. fold b0. rewrite C3. unfold bset. rewrite decide_True by done. unfold d0. rewrite C12, M1 by lia.
      by rewrite Ei3.
    + intros b Hb Hne. rewrite C3. unfold bset. rewrite decide_False by done. rewrite C12. by apply M1.
    + by rewrite E3, Et2, T1.
Qed.

(** The same for bytes of the kernel's own. *)
Lemma wp_writei s me P i off bs nb :
  let v := sb s in let ip := inodeat i s in let n := Z.of_nat (length bs) in
  fctx s me P [] i -> inum_ok v (i_inum ip) -> 0 <= off <= i_size ip -> off + n <= MAXFILE * BSIZE ->
  off mod BSIZE + n <= Z.of_nat nb * BSIZE -> slots s P (6 * nb + 1) -> room P [] (6 * nb) ->
  wp (writei i (SLocal bs) off n) (fun r s' => exists P',
    0 <= r <= n /\ (r < n -> disk_full s' /\ (r = 0 \/ (off + r) mod BSIZE = 0)) /\ (length P' <= length P + (6 * nb + 1))%nat /\
    written s me P i off (take (Z.to_nat r) bs) s' P') s.
Proof. intros. by apply wp_writei_src; [apply gives_local|..]. Qed.

End FsWrite.
