(* ===== verification/Dirs.v ===== *)
(** Directories: the entries that the bytes of a directory's file hold, and what
    [dirlookup], [dirlink] and [isdirempty] do in terms of them.

    A directory is a list of slots, each empty or a name with an inode number; [dfind] and
    [dput] are the specification of looking a name up and of filling a slot. *)
From S2P Require Import Prelude Types Str Kalloc Vm Sched Sleeplock Bio BioSess Printf.
From S2P Require Import Log LogSpec Crash LogOps Fs FsBlk FsFile FsWrite Sysfile.

(** ** Names *)

Section Names.
Implicit Types (p q s t : list Z).

(** A name as the directory code compares it: at most [DIRSIZ] characters, up to the
    terminator. *)
Definition fname (l : list Z) : list Z := cstr (take 14 l).

Definition bytes (l : list Z) : Prop := Forall (fun x => 0 <= x < 256) l.

Lemma ch_byte p i : bytes p -> 0 <= ch p i < 256.
Proof.
  intros H. unfold ch. destruct (nth_in_or_default i p 0) as [Hi| ->]; [|lia].
  unfold bytes in H. rewrite Forall_forall in H. apply H. by apply list_elem_of_In.
Qed.

Lemma cstr_step p i k :
  cstr (take (S k) (drop i p)) = if ch p i =? 0 then [] else ch p i :: cstr (take k (drop (S i) p)).
Proof.
  unfold ch. destruct (p !! i) as [x|] eqn:E.
  - rewrite (nth_lookup_Some p i 0 x E), (drop_S p x i E). cbn. done.
  - rewrite nth_overflow by (by apply lookup_ge_None). rewrite drop_ge by (by apply lookup_ge_None). done.
Qed.

Lemma strncmp_loop_eq p q i k :
  bytes p -> bytes q ->
  strncmp_loop p q i k = 0 <-> cstr (take k (drop i p)) = cstr (take k (drop i q)).
Proof.
  intros Hp Hq. revert i. induction k as [|k IH]; intros i; [done|]. cbn [strncmp_loop].
  rewrite !cstr_step. pose proof (ch_byte p i Hp). pose proof (ch_byte q i Hq).
  destruct (Z.eqb_spec (ch p i) 0) as [E|E]; cbn [negb andb].
  - rewrite E. unfold u8. rewrite !Z.mod_small by lia. destruct (Z.eqb_spec (ch q i) 0); [split; [done|lia]|].
    split; [lia|done].
  - destruct (Z.eqb_spec (ch p i) (ch q i)) as [E'|E'].
    + rewrite IH. rewrite (proj2 (Z.eqb_neq (ch q i) 0)) by lia. rewrite E'. split; [by intros ->|by intros [= ?]].
    + unfold u8. rewrite !Z.mod_small by lia. split; [lia|]. destruct (_ =? _); [done|]. by intros [= ?].
Qed.

Lemma namecmp_eq p q : bytes p -> bytes q -> namecmp p q = 0 <-> fname p = fname q.
Proof. intros Hp Hq. unfold namecmp, strncmp. rewrite strncmp_loop_eq by done. by rewrite !drop_0. Qed.

(** [strncpy] copies up to the terminator and pads with zeros. *)
Lemma strncpy_loop_eq s t i pad k :
  length s = (i + k)%nat ->
  strncpy_loop s t i pad k =
    take i s ++ (let l := if pad then [] else cstr (take k (drop i t)) in l ++ replicate (k - length l) 0).
Proof.
  revert s i pad. induction k as [|k IH]; intros s i pad Hs; cbn [strncpy_loop].
  - rewrite take_ge by lia. destruct pad; cbn; by rewrite ?app_nil_r.
  - assert (Hx : forall x, take (S i) (<[i:=x]> s) = take i s ++ [x]).
    { intros x. rewrite (take_S_r _ _ x) by (apply list_lookup_insert_eq; lia). by rewrite take_insert_ge. }
    destruct pad.
    + rewrite IH by (rewrite length_insert; lia). rewrite Hx. cbn. by rewrite <- app_assoc, Nat.sub_0_r.
    + rewrite IH by (rewrite length_insert; lia). rewrite Hx, cstr_step, <- app_assoc. cbn zeta.
      destruct (Z.eqb_spec (ch t i) 0) as [->|]; cbn; [by rewrite Nat.sub_0_r|done].
Qed.

Lemma cstr_clean l z : 0 ∉ l -> cstr (l ++ 0 :: z) = l.
Proof.
  induction l as [|x l IH]; intros H; cbn; [done|]. apply not_elem_of_cons in H as [H1 H2].
  rewrite (proj2 (Z.eqb_neq x 0)) by done. by rewrite IH.
Qed.
Lemma cstr_clean_end l : 0 ∉ l -> cstr l = l.
Proof.
  induction l as [|x l IH]; intros H; cbn; [done|]. apply not_elem_of_cons in H as [H1 H2].
  rewrite (proj2 (Z.eqb_neq x 0)) by done. by rewrite IH.
Qed.
Lemma cstr_no_nul l : 0 ∉ cstr l.
Proof.
  induction l as [|x l IH]; cbn; [apply not_elem_of_nil|]. destruct (Z.eqb_spec x 0); [apply not_elem_of_nil|].
  apply not_elem_of_cons. done.
Qed.
Lemma length_cstr l : (length (cstr l) <= length l)%nat.
Proof. induction l as [|x l IH]; cbn; [done|]. destruct (_ =? _); cbn; lia. Qed.
Lemma cstr_bytes l : bytes l -> bytes (cstr l).
Proof. induction 1 as [|x l Hx Hl IH]; cbn; [by constructor|]. destruct (_ =? _); by constructor. Qed.

Lemma fname_length l : (length (fname l) <= 14)%nat.
Proof. unfold fname. pose proof (length_cstr (take 14 l)). rewrite length_take in *. lia. Qed.

Lemma strncpy_name t :
  strncpy (replicate 14 0) t DIRSIZ = fname t ++ replicate (14 - length (fname t)) 0.
Proof. unfold strncpy. rewrite strncpy_loop_eq by done. by rewrite drop_0. Qed.

Lemma fname_padded l : 0 ∉ l -> (length l <= 14)%nat -> fname (l ++ replicate (14 - length l) 0) = l.
Proof.
  intros H Hl. unfold fname. rewrite take_ge by (rewrite length_app, length_replicate; lia).
  destruct (14 - length l)%nat; [rewrite app_nil_r; by apply cstr_clean_end|]. by apply cstr_clean.
Qed.
End Names.

(** ** Slots *)

Definition slot := option (list Z * Z).

Definition dentry (de : list Z) : slot :=
  if de_inum de =? 0 then None else Some (fname (de_name de), de_inum de).

Fixpoint dfind (nm : list Z) (D : list slot) (k : nat) : option (nat * Z) :=
  match D with
  | [] => None
  | Some (nm', inum) :: D' => if bool_decide (nm' = nm) then Some (k, inum) else dfind nm D' (S k)
  | None :: D' => dfind nm D' (S k)
  end.

(** The first empty slot, or the one after the last. *)
Fixpoint dfree (D : list slot) : nat :=
  match D with
  | Some _ :: D' => S (dfree D')
  | _ => 0
  end.

Definition dput (k : nat) (e : slot) (D : list slot) : list slot :=
  if decide (k < length D)%nat then <[k := e]> D else D ++ [e].

Lemma mk_dirent_entry inum name :
  0 < inum < 2 ^ 16 -> dentry (mk_dirent inum name) = Some (fname name, inum).
Proof.
  intros Hi. unfold mk_dirent, dentry, de_inum, de_name, getu16. rewrite drop_0.
  rewrite take_app_length', drop_app_length' by (by rewrite length_le_bytes).
  rewrite le_val_le_bytes, Z.mod_small by lia. rewrite (proj2 (Z.eqb_neq _ _)) by lia. do 2 f_equal.
  rewrite strncpy_name. pose proof (fname_length name).
  rewrite take_ge by (rewrite length_app, length_replicate; lia).
  apply fname_padded; [apply cstr_no_nul|done].
Qed.

Lemma length_mk_dirent inum name : length (mk_dirent inum name) = 16%nat.
Proof.
  unfold mk_dirent. rewrite strncpy_name, !length_app, length_le_bytes, length_replicate.
  pose proof (fname_length name). lia.
Qed.

Lemma mk_dirent_bytes inum name : bytes name -> bytes (mk_dirent inum name).
Proof.
  intros H. unfold mk_dirent, bytes. rewrite strncpy_name. apply Forall_app. split; [apply le_bytes_range|].
  apply Forall_app. split; [by apply cstr_bytes, Forall_take|]. by apply Forall_replicate.
Qed.

Lemma dput_cons_S k e x D : dput (S k) e (x :: D) = x :: dput k e D.
Proof. unfold dput. cbn [length]. repeat case_decide; try lia; done. Qed.

Lemma dfree_le D : (dfree D <= length D)%nat.
Proof. induction D as [|[] D IH]; cbn; lia. Qed.

(** The name just entered is found, and every other name as before. *)
Lemma dfind_dput_same nm inum D k :
  dfind nm D k = None -> dfind nm (dput (dfree D) (Some (nm, inum)) D) k = Some ((k + dfree D)%nat, inum).
Proof.
  revert k. induction D as [|[[nm' i']|] D IH]; intros k H; cbn [dfree].
  - unfold dput. rewrite decide_False by (cbn; lia). cbn. rewrite bool_decide_eq_true_2 by done. by rewrite Nat.add_0_r.
  - rewrite dput_cons_S. cbn in *. destruct (bool_decide _); [done|]. rewrite IH by done. do 2 f_equal. lia.
  - unfold dput. rewrite decide_True by (cbn; lia). cbn. rewrite bool_decide_eq_true_2 by done. by rewrite Nat.add_0_r.
Qed.
Lemma dfind_dput_other nm nm' inum D k :
  nm' <> nm -> dfind nm' (dput (dfree D) (Some (nm, inum)) D) k = dfind nm' D k.
Proof.
  intros Hn. revert k. induction D as [|[[nm1 i1]|] D IH]; intros k; cbn [dfree].
  - unfold dput. rewrite decide_False by (cbn; lia). cbn. by rewrite bool_decide_eq_false_2 by done.
  - rewrite dput_cons_S. cbn. destruct (bool_decide _); [done|]. by rewrite IH.
  - unfold dput. rewrite decide_True by (cbn; lia). cbn. by rewrite bool_decide_eq_false_2 by done.
Qed.

Lemma dfind_lookup nm D k r inum :
  dfind nm D k = Some (r, inum) -> (k <= r)%nat /\ D !! (r - k)%nat = Some (Some (nm, inum)).
Proof.
  revert k. induction D as [|[[nm1 i1]|] D IH]; intros k; cbn; [done| |].
  - destruct (bool_decide_reflect (nm1 = nm)) as [->|].
    + intros [= -> ->]. split; [lia|]. by rewrite Nat.sub_diag.
    + intros [? H]%IH. split; [lia|]. by replace (r - k)%nat with (S (r - S k)) by lia.
  - intros [? H]%IH. split; [lia|]. by replace (r - k)%nat with (S (r - S k)) by lia.
Qed.

(** No name is in two slots. *)
Definition unique_names (D : list slot) : Prop :=
  forall j k nm a b, D !! j = Some (Some (nm, a)) -> D !! k = Some (Some (nm, b)) -> j = k.

Lemma dfind_none nm D k : dfind nm D k = None <-> forall j inum, D !! j <> Some (Some (nm, inum)).
Proof.
  revert k. induction D as [|[[nm1 i1]|] D IH]; intros k; cbn; [done| |].
  - destruct (bool_decide_reflect (nm1 = nm)) as [->|Hne].
    + split; [done|]. intros H. by destruct (H 0%nat i1).
    + rewrite IH. split; [intros H [|j] inum; cbn; [congruence|apply H]|intros H j inum; apply (H (S j))].
  - rewrite IH. split; intros H j inum; [destruct j; [done|apply H]|apply (H (S j))].
Qed.

(** Emptying the slot of a name removes that name and no other. *)
Lemma dfind_erase nm D r inum nm' :
  unique_names D -> dfind nm D 0 = Some (r, inum) ->
  dfind nm' (<[r := None]> D) 0 = if bool_decide (nm' = nm) then None else dfind nm' D 0.
Proof.
  intros U H%dfind_lookup. rewrite Nat.sub_0_r in H. destruct H as [_ H].
  destruct (bool_decide_reflect (nm' = nm)) as [->|Hne].
  - apply dfind_none. intros j i Hj. destruct (decide (j = r)) as [->|Hjr].
    + rewrite list_lookup_insert_eq in Hj; [done|]. by eapply lookup_lt_Some.
    + rewrite list_lookup_insert_ne in Hj by done. by pose proof (U _ _ _ _ _ Hj H).
  - clear U. revert r H. generalize 0%nat. induction D as [|x D IH]; intros k r H; [done|].
    destruct r as [|r]; cbn in H |- *.
    + injection H as ->. by rewrite bool_decide_eq_false_2 by done.
    + destruct x as [[nm1 i1]|]; [|by apply IH]. destruct (bool_decide _); [done|by apply IH].
Qed.

(** ** The inode table *)

Section Iget.
Implicit Types (l : list inode) (dev inum : Z).

Definition is_inode dev inum (ip : inode) : Prop := 0 < i_ref ip /\ i_dev ip = dev /\ i_inum ip = inum.

Lemma is_inode_test dev inum ip :
  (0 <? i_ref ip) && (i_dev ip =? dev) && (i_inum ip =? inum) = true <-> is_inode dev inum ip.
Proof. unfold is_inode. rewrite !andb_true_iff, Z.ltb_lt, !Z.eqb_eq. tauto. Qed.

Lemma iget_scan_spec l dev inum i e :
  match iget_scan l dev inum i e with
  | inl j => (i <= j)%nat /\ exists ip, l !! (j - i)%nat = Some ip /\ is_inode dev inum ip
  | inr r => (forall ip, ip ∈ l -> ~ is_inode dev inum ip) /\
      match r with
      | Some j => e = Some j \/ (i <= j)%nat /\ exists ip, l !! (j - i)%nat = Some ip /\ i_ref ip = 0
      | None => e = None /\ forall ip, ip ∈ l -> i_ref ip <> 0
      end
  end.
Proof.
  revert i e. induction l as [|ip l IH]; intros i e; cbn.
  - split; [by intros ? ?%elem_of_nil|]. destruct e; [by left|]. split; [done|]. by intros ? ?%elem_of_nil.
  - destruct (_ && _ && _) eqn:E.
    + apply is_inode_test in E. split; [lia|]. exists ip. rewrite Nat.sub_diag. done.
    + assert (Hn : ~ is_inode dev inum ip) by (rewrite <- is_inode_test; congruence).
      specialize (IH (S i) (match e with None => if i_ref ip =? 0 then Some i else None | Some _ => e end)).
      destruct (iget_scan _ _ _ _ _) as [j|r].
      * destruct IH as (? & x & Hx & ?). split; [lia|]. exists x. by replace (j - i)%nat with (S (j - S i)) by lia.
      * destruct IH as [IH1 IH2]. split; [by intros x [->|?]%elem_of_cons; [|apply IH1]|].
        destruct r as [j|]; [|].
        -- destruct IH2 as [He|(? & x & Hx & ?)].
           ++ destruct e; [by left|]. destruct (Z.eqb_spec (i_ref ip) 0); [|done]. injection He as <-.
              right. split; [lia|]. exists ip. by rewrite Nat.sub_diag.
           ++ right. split; [lia|]. exists x. by replace (j - i)%nat with (S (j - S i)) by lia.
        -- destruct IH2 as [He Ha]. destruct e; [done|]. destruct (Z.eqb_spec (i_ref ip) 0); [done|].
           split; [done|]. by intros x [->|?]%elem_of_cons; [|apply Ha].
Qed.

(** A reference to the inode: its entry counts one more, or a free entry has been taken for
    it, whose contents are still to be read. *)
Record igot (s : kst) dev inum (j : nat) (s' : kst) : Prop := {
  ig_lt : (j < length (inodes s))%nat;
  ig_state : s' = set_inodes (inodes s') s;
  ig_length : length (inodes s') = length (inodes s);
  ig_other k : k <> j -> inodeat k s' = inodeat k s;
  ig_entry : let ip := inodeat j s in
    is_inode dev inum ip /\ inodeat j s' = set_i_ref (i_ref ip + 1) ip \/
    i_ref ip = 0 /\ (forall x, x ∈ inodes s -> ~ is_inode dev inum x) /\
      inodeat j s' = set_i_valid false (set_i_ref 1 (set_i_inum inum (set_i_dev dev ip)))
}.

(** The table has the inode or room for it. *)
Definition iroom (s : kst) dev inum : Prop :=
  exists ip, ip ∈ inodes s /\ (is_inode dev inum ip \/ i_ref ip = 0).

Lemma lookup_inodeat s j ip : inodes s !! j = Some ip -> inodeat j s = ip.
Proof. intros H. unfold inodeat. by apply list_lookup_total_correct. Qed.

Lemma wp_iget {L : Linker} s dev inum :
  LkItable ∉ held s -> iroom s dev inum -> wp (iget dev inum) (igot s dev inum) s.
Proof.
  intros Hh (ip0 & Hin & Hroom). unfold iget. wp_step. apply wp_acquire; [done|]. wp_step. apply wp_get.
  change (inodes (set_held _ s)) with (inodes s).
  pose proof (iget_scan_spec (inodes s) dev inum 0 None) as H. destruct (iget_scan _ _ _ _ _) as [j|[j|]].
  - destruct H as (_ & ip & Hj & Hip). rewrite Nat.sub_0_r in Hj. pose proof (lookup_lt_Some _ _ _ Hj).
    wp_step. apply wp_upd. wp_step. eapply wp_release; [done|done|]. wp_step. cbn.
    pose proof (lookup_inodeat _ _ _ Hj) as E.
    split; cbn; [done|by destruct s|by rewrite length_alter| |]; unfold inodeat; cbn.
    + intros k Hk. by rewrite list_lookup_total_alter_ne.
    + left. fold (inodeat j s). rewrite E. split; [done|]. rewrite list_lookup_total_alter_eq by done.
      fold (inodeat j s). by rewrite E.
  - destruct H as (Hno & [?|(_ & ip & Hj & Hr)]); [done|]. rewrite Nat.sub_0_r in Hj. pose proof (lookup_lt_Some _ _ _ Hj).
    do 4 (wp_step; apply wp_upd). wp_step. eapply wp_release; [done|done|]. wp_step. cbn.
    pose proof (lookup_inodeat _ _ _ Hj) as E.
    split; cbn; [done|by destruct s|by rewrite !length_alter| |]; unfold inodeat; cbn.
    + intros k Hk. by rewrite !list_lookup_total_alter_ne.
    + right. fold (inodeat j s). rewrite E. split; [done|]. split; [done|].
      rewrite !list_lookup_total_alter_eq by (rewrite ?length_alter; done). fold (inodeat j s). by rewrite E.
  - destruct H as (Hno & _ & Hr). destruct Hroom as [Hx|Hx]; [by destruct (Hno _ Hin)|by destruct (Hr _ Hin)].
Qed.
End Iget.

(** ** A directory's file *)

Section Dirs.
Context {L : Linker}.
Implicit Types (P : list Z) (C : Z -> list Z) (ip : inode) (name : list Z).

Definition dslot C ip (k : nat) : list Z := fread C ip (DESIZE * Z.of_nat k) 16.
Definition dcount ip : nat := Z.to_nat (i_size ip / DESIZE).
Definition dir C ip : list slot := (fun k => dentry (dslot C ip k)) <$> seq 0 (dcount ip).

Record dir_wf C ip : Prop := {
  dw_type : i_type ip = T_DIR;
  dw_align : i_size ip mod DESIZE = 0;
  dw_hole : no_hole C ip 0 (i_size ip);
  dw_bytes x : 0 <= x < i_size ip -> 0 <= fbyte C ip x < 256
}.

(** A system call in a transaction works on the directory of table entry [i], which it has
    locked, and does not hold the table's lock. *)
Record dctx (s : kst) me P (i : nat) : Prop := {
  dc_file : fctx s me P [] i;
  dc_dir : dir_wf (bcontent s) (inodeat i s);
  dc_ref : 0 < i_ref (inodeat i s);
  dc_lk : LkItable ∉ held s
}.

Lemma length_dir C ip : length (dir C ip) = dcount ip.
Proof. unfold dir. by rewrite length_fmap, length_seq. Qed.

Lemma dir_lookup C ip k : (k < dcount ip)%nat -> dir C ip !! k = Some (dentry (dslot C ip k)).
Proof. intros Hk. unfold dir. rewrite list_lookup_fmap, lookup_seq_lt by done. done. Qed.

Lemma drop_dir C ip k :
  drop k (dir C ip) = if decide (k < dcount ip)%nat then dentry (dslot C ip k) :: drop (S k) (dir C ip) else [].
Proof.
  case_decide as Hk; [by apply drop_S, dir_lookup|]. apply drop_ge. rewrite length_dir. lia.
Qed.

Lemma dcount_size C ip : dir_wf C ip -> 0 <= i_size ip -> i_size ip = DESIZE * Z.of_nat (dcount ip).
Proof. intros W H. pose proof (dw_align _ _ W). unfold dcount. Z.div_mod_to_equations. lia. Qed.

Lemma dslot_bytes C ip k : dir_wf C ip -> 0 <= i_size ip -> (k < dcount ip)%nat -> bytes (dslot C ip k).
Proof.
  intros W Hs Hk. pose proof (dcount_size _ _ W Hs). unfold bytes. apply Forall_forall. intros x Hx.
  apply list_elem_of_fmap in Hx as (j & -> & Hj%elem_of_seq). apply W. lia.
Qed.

Lemma de_name_bytes de : bytes de -> bytes (de_name de).
Proof. intros H. unfold de_name. by apply Forall_take, Forall_drop. Qed.

Lemma dir_ext C C' ip : (forall b, C' b = C b) -> dir C' ip = dir C ip.
Proof. intros H. unfold dir. apply list_fmap_ext. intros _ k _. unfold dslot. by rewrite (fread_ext C C'). Qed.

Lemma dir_wf_ext C C' ip : (forall b, C' b = C b) -> dir_wf C ip -> dir_wf C' ip.
Proof.
  intros H [T A N B]. split; [done|done|by eapply no_hole_ext|]. intros x Hx. specialize (B x Hx).
  unfold fbyte, iblock in *. by rewrite !H.
Qed.

Lemma dctx_unchanged s me P i s' : dctx s me P i -> unchanged s me P i s' -> dctx s' me P i.
Proof.
  intros [F W R K] U. pose proof (unchanged_inode _ _ _ _ _ i U) as E. split; rewrite ?E; [apply U| |done|].
  - eapply dir_wf_ext; [apply U|done].
  - by rewrite (fstep_held _ _ (un_step _ _ _ _ _ U)).
Qed.

(** Reading slot [k]. *)
Lemma wp_read_slot s me P i k :
  dctx s me P i -> room P [] 0 -> (k < dcount (inodeat i s))%nat ->
  wp (readi i DLocal (DESIZE * Z.of_nat k) DESIZE) (fun '(r, de) s' =>
    r = DESIZE /\ de = dslot (bcontent s) (inodeat i s) k /\ unchanged s me P i s') s.
Proof.
  intros [F W R K] Hr Hk. pose proof (fw_size _ _ _ (fc_wf _ _ _ _ _ F)) as Hsz.
  pose proof (dcount_size _ _ W ltac:(lia)) as Es.
  eapply wp_mono; [apply (wp_readi s me P i (DESIZE * Z.of_nat k) DESIZE); try done; try lia; apply W|].
  intros [r de] s' (-> & -> & U). rewrite Z.min_l by lia. done.
Qed.

(** ** [dirlookup] *)

(** What a lookup that the specification answers with [x] returns. *)
Definition dlooked (s : kst) me P (i : nat) (x : option (nat * Z)) (r : option (nat * Z)) (s' : kst) : Prop :=
  match x with
  | None => r = None /\ unchanged s me P i s'
  | Some (k, inum) => exists j s1,
      r = Some (j, DESIZE * Z.of_nat k) /\ unchanged s me P i s1 /\ igot s1 ROOTDEV inum j s'
  end.

Lemma dlooked_unchanged s me P i s1 x r s' :
  unchanged s me P i s1 -> dlooked s1 me P i x r s' -> dlooked s me P i x r s'.
Proof.
  intros U. destruct x as [[k inum]|]; cbn.
  - intros (j & s2 & -> & U2 & G). exists j, s2. split_and!; [done|by eapply unchanged_trans|done].
  - intros [-> U2]. split; [done|by eapply unchanged_trans].
Qed.

Lemma dentry_cases de :
  (de_inum de =? 0) = true /\ dentry de = None \/
  (de_inum de =? 0) = false /\ dentry de = Some (fname (de_name de), de_inum de).
Proof. unfold dentry. destruct (de_inum de =? 0); auto. Qed.

Lemma size_test s me P i k :
  dctx s me P i -> (DESIZE * Z.of_nat k <? i_size (inodeat i s)) = bool_decide (k < dcount (inodeat i s))%nat.
Proof.
  intros [F W R K]. pose proof (fw_size _ _ _ (fc_wf _ _ _ _ _ F)). pose proof (dcount_size _ _ W ltac:(lia)).
  destruct (Z.ltb_spec (DESIZE * Z.of_nat k) (i_size (inodeat i s))); symmetry; [apply bool_decide_eq_true|apply bool_decide_eq_false]; lia.
Qed.

Lemma wp_dirlookup_loop fuel : forall s me P i name k,
  let D := dir (bcontent s) (inodeat i s) in
  dctx s me P i -> room P [] 0 -> bytes name -> (dcount (inodeat i s) <= k + fuel)%nat ->
  (forall r inum, dfind (fname name) (drop k D) k = Some (r, inum) -> iroom s ROOTDEV inum) ->
  wp (dirlookup_loop i name (DESIZE * Z.of_nat k) fuel)
    (dlooked s me P i (dfind (fname name) (drop k D) k)) s.
Proof.
  induction fuel as [|fuel IH]; intros s me P i name k D Hd Hr Hn Hf Hroom; cbn [dirlookup_loop];
    wp_step; apply wp_get; rewrite (size_test s me P i k Hd);
    (case_bool_decide as Hk; [|wp_step; unfold D; rewrite drop_dir, decide_False by lia;
      split; [done|apply unchanged_refl, Hd]]); [lia|].
  wp_step. eapply wp_mono; [by apply (wp_read_slot s me P i k)|]. intros [r de] s1 (-> & -> & U).
  rewrite Z.eqb_refl. cbn [negb]. pose proof (unchanged_inode _ _ _ _ _ i U) as Ei.
  pose proof (dctx_unchanged _ _ _ _ _ Hd U) as Hd1.
  assert (HD : dir (bcontent s1) (inodeat i s1) = D) by (rewrite Ei; apply dir_ext, U).
  assert (Hnext : dfind (fname name) (drop k D) k = dfind (fname name) (drop (S k) D) (S k) ->
    wp (dirlookup_loop i name (DESIZE * Z.of_nat k + DESIZE) fuel)
      (dlooked s me P i (dfind (fname name) (drop k D) k)) s1).
  { intros E. rewrite E in *. replace (DESIZE * Z.of_nat k + DESIZE) with (DESIZE * Z.of_nat (S k)) by lia.
    eapply wp_mono; [apply (IH s1 me P i name (S k)); try done; rewrite ?HD, ?Ei; [lia|]|].
    - intros ? ? H. destruct (Hroom _ _ H) as (x & ? & ?). exists x. by rewrite (un_inodes _ _ _ _ _ U).
    - intros r s2. rewrite HD. by apply dlooked_unchanged. }
  unfold D in Hnext, Hroom |- *. rewrite drop_dir, decide_True in Hnext, Hroom |- * by done.
  fold D in Hnext, Hroom |- *. set (de := dslot _ _ k) in *.
  destruct (dentry_cases de) as [[-> E]|[-> E]]; rewrite E in *; [by apply Hnext|].
  cbn [dfind] in Hnext, Hroom |- *.
  assert (Hb : bytes (de_name de)).
  { apply de_name_bytes, dslot_bytes; [apply Hd|apply (fc_wf _ _ _ _ _ (dc_file _ _ _ _ Hd))|done]. }
  destruct (Z.eqb_spec (namecmp name (de_name de)) 0) as [Ec|Ec]; rewrite namecmp_eq in Ec by done.
  - rewrite bool_decide_eq_true_2 in Hroom |- * by done. wp_step. apply wp_get.
    rewrite (fw_dev _ _ _ (fc_wf _ _ _ _ _ (dc_file _ _ _ _ Hd1))). wp_step.
    eapply wp_mono; [apply wp_iget; [apply Hd1|]|].
    + destruct (Hroom _ _ eq_refl) as (x & ? & ?). exists x. by rewrite (un_inodes _ _ _ _ _ U).
    + intros j s2 G. wp_step. by exists j, s1.
  - rewrite bool_decide_eq_false_2 in Hnext, Hroom |- * by done. by apply Hnext.
Qed.

Lemma wp_dirlookup s me P i name :
  let x := dfind (fname name) (dir (bcontent s) (inodeat i s)) 0 in
  dctx s me P i -> room P [] 0 -> bytes name ->
  (forall k inum, x = Some (k, inum) -> iroom s ROOTDEV inum) ->
  wp (dirlookup i name) (dlooked s me P i x) s.
Proof.
  intros x Hd Hr Hn Hroom. unfold dirlookup. wp_step. apply wp_get.
  rewrite (dw_type _ _ (dc_dir _ _ _ _ Hd)), Z.eqb_refl. cbn [negb].
  change 0 with (DESIZE * Z.of_nat 0). pose proof (fw_size _ _ _ (fc_wf _ _ _ _ _ (dc_file _ _ _ _ Hd))).
  apply wp_dirlookup_loop; try done. unfold dcount. pose proof (Z.div_pos (i_size (inodeat i s)) DESIZE). lia.
Qed.

(** ** Writing a slot *)

Lemma fread_fbyte C ip C' ip' off n :
  (forall j, (j < n)%nat -> fbyte C' ip' (off + Z.of_nat j) = fbyte C ip (off + Z.of_nat j)) ->
  fread C' ip' off n = fread C ip off n.
Proof.
  intros H. unfold fread. apply list_fmap_ext. intros j x Hx. apply lookup_seq in Hx as [-> ?]. by apply H.
Qed.
Lemma fread_list C ip off l :
  (forall j, (j < length l)%nat -> fbyte C ip (off + Z.of_nat j) = nth j l 0) -> fread C ip off (length l) = l.
Proof.
  intros H. apply (nth_ext _ _ 0 0); rewrite length_fread; [done|]. intros j Hj.
  rewrite (nth_lookup_Some _ _ _ _ (fread_lookup _ _ _ _ _ Hj)). by apply H.
Qed.

Section WriteSlot.
Context (s s' : kst) (me : nat) (P P' : list Z) (i k : nat) (de : list Z).
Context (Hd : dctx s me P i) (Hk : (k <= dcount (inodeat i s))%nat) (Hde : length de = 16%nat) (Hb : bytes de).
Context (Hmax : DESIZE * Z.of_nat k + DESIZE <= MAXFILE * BSIZE).
Context (W : written s me P i (DESIZE * Z.of_nat k) de s' P').

Let ip := inodeat i s.
Let ip' := inodeat i s'.

Lemma slot_size : i_size ip' = DESIZE * Z.of_nat (Nat.max (dcount ip) (S k)).
Proof.
  unfold ip'. rewrite (wr_inode _ _ _ _ _ _ _ _ W). cbn. rewrite Hde.
  pose proof (fw_size _ _ _ (fc_wf _ _ _ _ _ (dc_file _ _ _ _ Hd))).
  rewrite (dcount_size _ _ (dc_dir _ _ _ _ Hd)) by lia. fold ip. lia.
Qed.
Lemma slot_count : dcount ip' = Nat.max (dcount ip) (S k).
Proof. unfold dcount at 1. rewrite slot_size. rewrite Z.mul_comm, Z.div_mul by lia. lia. Qed.

Lemma slot_fbyte x : 0 <= x < i_size ip' ->
  fbyte (bcontent s') ip' x =
    if decide (DESIZE * Z.of_nat k <= x < DESIZE * Z.of_nat k + DESIZE)
    then nth (Z.to_nat (x - DESIZE * Z.of_nat k)) de 0 else fbyte (bcontent s) ip x.
Proof.
  intros Hx. pose proof (fw_size _ _ _ (fc_wf _ _ _ _ _ (wr_ctx _ _ _ _ _ _ _ _ W))). fold ip' in H.
  unfold ip'. rewrite (wr_byte _ _ _ _ _ _ _ _ W) by lia. by rewrite Hde.
Qed.

Lemma slot_slot j : (j < dcount ip')%nat ->
  dslot (bcontent s') ip' j = if decide (j = k) then de else dslot (bcontent s) ip j.
Proof.
  rewrite slot_count. intros Hj. unfold dslot. case_decide as E.
  - subst j. rewrite <- Hde. apply fread_list. intros j Hj'. rewrite slot_fbyte by (rewrite slot_size; lia).
    rewrite decide_True by lia. f_equal. lia.
  - apply fread_fbyte. intros x Hx. rewrite slot_fbyte by (rewrite slot_size; lia).
    by rewrite decide_False by lia.
Qed.

Lemma slot_dir : dir (bcontent s') ip' = dput k (dentry de) (dir (bcontent s) ip).
Proof.
  assert (Hk0 : (k <= dcount ip)%nat) by done.
  apply list_eq. intros j. unfold dput. rewrite length_dir. destruct (decide (j < dcount ip')%nat) as [Hj|Hj].
  - rewrite dir_lookup, slot_slot by done. rewrite slot_count in Hj. destruct (decide (k < dcount ip)%nat) as [Hk'|Hk'].
    + destruct (decide (j = k)) as [->|]; [by rewrite list_lookup_insert_eq by (by rewrite length_dir)|].
      rewrite list_lookup_insert_ne by done. rewrite dir_lookup by lia. done.
    + destruct (decide (j = k)) as [->|].
      * replace k with (length (dir (bcontent s) ip)) by (rewrite length_dir; lia). by rewrite lookup_app_r, Nat.sub_diag.
      * rewrite lookup_app_l by (rewrite length_dir; lia). rewrite dir_lookup by lia. done.
  - rewrite (lookup_ge_None_2 (dir (bcontent s') ip')) by (rewrite length_dir; lia).
    rewrite slot_count in Hj. symmetry. apply lookup_ge_None. case_decide; rewrite ?length_insert, ?length_app, length_dir; cbn; lia.
Qed.

Lemma slot_ctx : dctx s' me P' i.
Proof.
  pose proof Hd as [F Wf R K]. pose proof (fw_size _ _ _ (fc_wf _ _ _ _ _ F)) as Hsz. fold ip in Hsz.
  pose proof (dcount_size _ _ Wf ltac:(fold ip; lia)) as Es. fold ip in Es.
  assert (Hk0 : (k <= dcount ip)%nat) by done.
  split; [apply W| | |].
  - fold ip'. split.
    + unfold ip'. rewrite (wr_inode _ _ _ _ _ _ _ _ W). cbn. apply Wf.
    + rewrite slot_size, Z.mul_comm. apply Z.mod_mul. lia.
    + intros x Hx. rewrite slot_size in Hx.
      destruct (decide (DESIZE * Z.of_nat k <= x < DESIZE * Z.of_nat k + DESIZE)).
      * apply (wr_there _ _ _ _ _ _ _ _ W); rewrite ?Hde; lia.
      * assert (Hb' : iblock (bcontent s) ip (x / BSIZE) <> 0) by (apply (dw_hole _ _ Wf); fold ip; lia).
        unfold ip'. rewrite (wr_keep _ _ _ _ _ _ _ _ W); [done| |done]. Z.div_mod_to_equations. lia.
    + intros x Hx. rewrite slot_fbyte by done. rewrite slot_size in Hx. case_decide.
      * by apply (ch_byte de).
      * apply (dw_bytes _ _ Wf). fold ip. lia.
  - unfold ip'. rewrite (wr_inode _ _ _ _ _ _ _ _ W). cbn. apply R.
  - by rewrite (fstep_held _ _ (wr_step _ _ _ _ _ _ _ _ W)).
Qed.
End WriteSlot.

(** A write that stored nothing. *)
Lemma empty_written s me P i off s' P' :
  dctx s me P i -> 0 <= off <= i_size (inodeat i s) -> written s me P i off [] s' P' ->
  dctx s' me P' i /\ dir (bcontent s') (inodeat i s') = dir (bcontent s) (inodeat i s).
Proof.
  intros [F W R K] Ho Wr. pose proof (fw_size _ _ _ (fc_wf _ _ _ _ _ F)) as Hsz.
  assert (Hip : inodeat i s' = set_i_addrs (i_addrs (inodeat i s')) (inodeat i s)).
  { rewrite (wr_inode _ _ _ _ _ _ _ _ Wr) at 1. cbn [length]. rewrite Z.max_l by lia. by destruct (inodeat i s). }
  assert (Hs : i_size (inodeat i s') = i_size (inodeat i s)) by (by rewrite Hip).
  assert (Hby : forall x, 0 <= x < i_size (inodeat i s) ->
    fbyte (bcontent s') (inodeat i s') x = fbyte (bcontent s) (inodeat i s) x).
  { intros x Hx. rewrite (wr_byte _ _ _ _ _ _ _ _ Wr) by lia. cbn [length]. by rewrite decide_False by lia. }
  split.
  - split; [apply Wr| | |].
    + split; rewrite ?Hs.
      * rewrite Hip. apply W.
      * apply W.
      * intros x Hx. assert (Hb : iblock (bcontent s) (inodeat i s) (x / BSIZE) <> 0) by (apply W; lia).
        rewrite (wr_keep _ _ _ _ _ _ _ _ Wr); [done| |done]. Z.div_mod_to_equations. lia.
      * intros x Hx. rewrite Hby by done. by apply W.
    + rewrite Hip. apply R.
    + by rewrite (fstep_held _ _ (wr_step _ _ _ _ _ _ _ _ Wr)).
  - unfold dir, dcount. rewrite Hs. apply list_fmap_ext. intros j k Hj. apply lookup_seq in Hj as [-> Hj].
    unfold dslot. f_equal. apply fread_fbyte. intros x Hx. apply Hby.
    pose proof (dcount_size _ _ W ltac:(lia)). unfold dcount in *. lia.
Qed.

Lemma wp_write_slot s me P i k de :
  let D := dir (bcontent s) (inodeat i s) in
  dctx s me P i -> inum_ok (sb s) (i_inum (inodeat i s)) -> (k <= dcount (inodeat i s))%nat ->
  length de = 16%nat -> bytes de -> DESIZE * Z.of_nat k + DESIZE <= MAXFILE * BSIZE ->
  slots s P 7 -> room P [] 6 ->
  wp (writei i (SLocal de) (DESIZE * Z.of_nat k) DESIZE) (fun r s' => exists P',
    dctx s' me P' i /\ (length P' <= length P + 7)%nat /\
    written s me P i (DESIZE * Z.of_nat k) (take (Z.to_nat r) de) s' P' /\
    (r = DESIZE /\ dir (bcontent s') (inodeat i s') = dput k (dentry de) D \/
     r = 0 /\ disk_full s' /\ dir (bcontent s') (inodeat i s') = D)) s.
Proof.
  intros D Hd Hi Hk Hl Hb Hmax Hs Hr.
  pose proof (fw_size _ _ _ (fc_wf _ _ _ _ _ (dc_file _ _ _ _ Hd))) as Hsz.
  pose proof (dcount_size _ _ (dc_dir _ _ _ _ Hd) ltac:(lia)) as Es.
  pose proof (wp_writei s me P i (DESIZE * Z.of_nat k) de 1) as H. cbv zeta in H. rewrite Hl in H.
  eapply wp_mono; [apply H; try done; try lia|].
  { apply Hd. }
  { Z.div_mod_to_equations. lia. }
  intros r s' (P' & Hr' & Hfull & HP & W). exists P'. change (Z.of_nat 16) with 16 in *.
  assert (Hc : r = DESIZE \/ r = 0 /\ disk_full s').
  { destruct (decide (r < 16)) as [Hlt|]; [|left; lia]. destruct (Hfull ltac:(lia)) as [? [?|Hm]]; [by right|].
    destruct (decide (r = 0)); [by right|]. exfalso. Z.div_mod_to_equations. lia. }
  destruct Hc as [->|[-> Hu]].
  - rewrite take_ge in W by (rewrite Hl; done). rewrite take_ge by (rewrite Hl; done). split_and!.
    + by eapply slot_ctx.
    + lia.
    + done.
    + left. split; [done|]. by eapply slot_dir.
  - change (take (Z.to_nat 0) de) with (@nil Z) in *.
    destruct (empty_written s me P i (DESIZE * Z.of_nat k) s' P') as [? ?]; [done|lia|done|]. split_and!; [done|lia|done|].
    right. done.
Qed.

(** ** [iput] of a reference that is not the last to an inode without links *)

Lemma wp_iput_drop s j :
  LkItable ∉ held s ->
  (i_ref (inodeat j s) =? 1) && i_valid (inodeat j s) && (i_nlink (inodeat j s) =? 0) = false ->
  wp (iput j) (fun _ s' => s' = set_inodes (alter (fun ip => set_i_ref (i_ref ip - 1) ip) j (inodes s)) s) s.
Proof.
  intros Hh Hc. unfold iput. wp_step. apply wp_acquire; [done|]. wp_step. apply wp_get.
  change (inodeat j (set_held _ s)) with (inodeat j s). rewrite Hc.
  wp_step. wp_step. wp_step. apply wp_upd. eapply wp_release; [done|done|]. by destruct s.
Qed.

Lemma dctx_inodes s me P i l :
  dctx s me P i -> length l = length (inodes s) -> 0 < i_ref (l !!! i) ->
  l !!! i = set_i_ref (i_ref (l !!! i)) (inodeat i s) -> dctx (set_inodes l s) me P i.
Proof.
  intros [[F G M Lk Hi Wf] [T A N B] R K] Hl Hr E.
  assert (Ei : inodeat i (set_inodes l s) = set_i_ref (i_ref (l !!! i)) (inodeat i s)) by exact E.
  split; [split| | |done].
  - by apply fx_inodes.
  - done.
  - done.
  - done.
  - cbn. by rewrite Hl.
  - rewrite Ei. destruct Wf. by split.
  - rewrite Ei. by split.
  - rewrite Ei. done.
Qed.

(** A reference got for [i]'s lookup leaves the directory as it is. *)
Lemma igot_dctx s me P i inum j s' :
  dctx s me P i -> igot s ROOTDEV inum j s' ->
  dctx s' me P i /\ dir (bcontent s') (inodeat i s') = dir (bcontent s) (inodeat i s).
Proof.
  intros Hd [Hlt Hst Hlen Hoth Hent]. cbv zeta in Hent.
  assert (E : inodeat i s' = set_i_ref (i_ref (inodeat i s')) (inodeat i s) /\ 0 < i_ref (inodeat i s')).
  { destruct (decide (i = j)) as [->|Hne].
    - destruct Hent as [[(Hr & _) ->]|[Hr _]]; [cbn; split; [done|lia]|]. pose proof (dc_ref _ _ _ _ Hd). lia.
    - rewrite Hoth by done. split; [by destruct (inodeat i s)|apply Hd]. }
  destruct E as [E Hr]. rewrite Hst. split.
  - by apply dctx_inodes.
  - change (inodeat i (set_inodes (inodes s') s)) with (inodeat i s'). rewrite E. done.
Qed.

(** ** [dirlink] *)

Lemma wp_dirlink_loop fuel : forall s me P i k,
  let D := dir (bcontent s) (inodeat i s) in
  dctx s me P i -> room P [] 0 -> (k <= dcount (inodeat i s) <= k + fuel)%nat ->
  wp (dirlink_loop i (DESIZE * Z.of_nat k) fuel)
    (fun off s' => off = DESIZE * Z.of_nat (k + dfree (drop k D)) /\ unchanged s me P i s') s.
Proof.
  induction fuel as [|fuel IH]; intros s me P i k D Hd Hr Hf; cbn [dirlink_loop];
    wp_step; apply wp_get; rewrite (size_test s me P i k Hd);
    (case_bool_decide as Hk; [|wp_step; unfold D; rewrite drop_dir, decide_False by lia;
      split; [cbn; lia|apply unchanged_refl, Hd]]); [lia|].
  wp_step. eapply wp_mono; [by apply (wp_read_slot s me P i k)|]. intros [r de] s1 (-> & -> & U).
  rewrite Z.eqb_refl. cbn [negb]. pose proof (unchanged_inode _ _ _ _ _ i U) as Ei.
  unfold D. rewrite drop_dir, decide_True by done. fold D. set (de := dslot _ _ k) in *.
  destruct (dentry_cases de) as [[-> E]|[-> E]]; rewrite E; cbn [dfree].
  - wp_step. split; [lia|done].
  - replace (DESIZE * Z.of_nat k + DESIZE) with (DESIZE * Z.of_nat (S k)) by lia.
    assert (HD : dir (bcontent s1) (inodeat i s1) = D) by (rewrite Ei; apply dir_ext, U).
    eapply wp_mono; [apply (IH s1 me P i (S k)); rewrite ?Ei; [by eapply dctx_unchanged|done|lia]|].
    intros off s2 [-> U2]. rewrite HD. split; [lia|by eapply unchanged_trans].
Qed.

(** The references counted in the table, and what they are to, are the same. *)
Definition same_refs (s s' : kst) : Prop :=
  length (inodes s') = length (inodes s) /\
  forall j, i_ref (inodeat j s') = i_ref (inodeat j s) /\
    (0 < i_ref (inodeat j s) -> i_dev (inodeat j s') = i_dev (inodeat j s) /\ i_inum (inodeat j s') = i_inum (inodeat j s)).

Lemma same_refs_eq s s' : inodes s' = inodes s -> same_refs s s'.
Proof. intros E. unfold same_refs, inodeat. by rewrite E. Qed.

Lemma same_refs_trans s s1 s2 : same_refs s s1 -> same_refs s1 s2 -> same_refs s s2.
Proof.
  intros [L1 H1] [L2 H2]. split; [congruence|]. intros j. destruct (H1 j) as [R1 D1], (H2 j) as [R2 D2].
  split; [congruence|]. intros Hr. destruct (D1 Hr), D2; [lia|]. split; congruence.
Qed.

Lemma same_refs_iroom s s' dev inum : same_refs s s' -> iroom s dev inum -> iroom s' dev inum.
Proof.
  intros [Hl H] (ip & [j Hj]%list_elem_of_lookup & Hc). pose proof (lookup_lt_Some _ _ _ Hj) as Hlt.
  destruct (lookup_lt_is_Some_2 (inodes s') j) as [ip' Hj']; [by rewrite Hl|].
  exists ip'. split; [by eapply list_elem_of_lookup_2|]. destruct (H j) as [Hr Hd].
  rewrite (lookup_inodeat _ _ _ Hj), (lookup_inodeat _ _ _ Hj') in *.
  destruct Hc as [(H1 & H2 & H3)|H1]; [left|right; congruence]. destruct (Hd H1). split_and!; [lia|congruence|congruence].
Qed.

Lemma written_same_refs s me P i off w s' P' : written s me P i off w s' P' -> same_refs s s'.
Proof.
  intros W. split; [exact (wr_table _ _ _ _ _ _ _ _ W)|]. intros j. destruct (decide (j = i)) as [->|Hj]; [|by rewrite (wr_other _ _ _ _ _ _ _ _ W)].
  by rewrite (wr_inode _ _ _ _ _ _ _ _ W).
Qed.

(** Entering [name] with [inum] in the directory. *)
Definition dlinked (s : kst) me P (i : nat) name inum (r : Z) (s' : kst) : Prop :=
  let D := dir (bcontent s) (inodeat i s) in
  exists P', dctx s' me P' i /\ (length P' <= length P + 7)%nat /\ same_refs s s' /\
  match dfind (fname name) D 0 with
  | Some _ => r = -1 /\ dir (bcontent s') (inodeat i s') = D
  | None =>
      r = 0 /\ dir (bcontent s') (inodeat i s') = dput (dfree D) (Some (fname name, inum)) D \/
      r = -1 /\ disk_full s' /\ dir (bcontent s') (inodeat i s') = D
  end.

Lemma wp_dirlink s me P i name inum :
  let D := dir (bcontent s) (inodeat i s) in
  dctx s me P i -> inum_ok (sb s) (i_inum (inodeat i s)) -> bytes name -> 0 < inum < 2 ^ 16 ->
  i_size (inodeat i s) + DESIZE <= MAXFILE * BSIZE -> slots s P 7 -> room P [] 6 ->
  (forall k inum', dfind (fname name) D 0 = Some (k, inum') -> iroom s ROOTDEV inum') ->
  wp (dirlink i name inum) (dlinked s me P i name inum) s.
Proof.
  intros D Hd Hi Hn Hinum Hmax Hs Hr Hroom. unfold dirlink, dlinked. fold D. wp_step.
  eapply wp_mono; [apply (wp_dirlookup s me P i name); try done; unfold room in *; lia|].
  intros r s1. fold D. destruct (dfind (fname name) D 0) as [[k inum']|] eqn:E; cbn [dlooked].
  - intros (j & s0 & -> & U & G). pose proof (dctx_unchanged _ _ _ _ _ Hd U) as Hd0.
    destruct (igot_dctx _ _ _ _ _ _ _ Hd0 G) as [Hd1 ED]. pose proof G as [Hlt Hst Hlen Hoth Hent]. cbv zeta in Hent.
    wp_step. eapply wp_mono; [apply wp_iput_drop; [apply Hd1|]|].
    { destruct Hent as [[(? & _) ->]|(_ & _ & ->)]; cbn; [|done].
      rewrite (proj2 (Z.eqb_neq _ _)) by lia. done. }
    intros [] s2 ->. wp_step. exists P.
    assert (Ei : (alter (fun ip => set_i_ref (i_ref ip - 1) ip) j (inodes s1)) !!! i = inodeat i s0).
    { destruct (decide (i = j)) as [->|Hne].
      - rewrite list_lookup_total_alter_eq by lia. fold (inodeat j s1).
        destruct Hent as [[_ ->]|[Hr0 _]]; [|pose proof (dc_ref _ _ _ _ Hd0); lia].
        cbn. rewrite Z.add_simpl_r. by destruct (inodeat j s0).
      - rewrite list_lookup_total_alter_ne by done. fold (inodeat i s1). by rewrite Hoth. }
    assert (Hd2 : dctx (set_inodes (alter (fun ip => set_i_ref (i_ref ip - 1) ip) j (inodes s1)) s1) me P i).
    { rewrite Hst at 2. apply (dctx_inodes s0).
      - done.
      - rewrite length_alter. done.
      - rewrite Ei. apply Hd0.
      - rewrite Ei. by destruct (inodeat i s0). }
    split_and!; [done|lia| |done|].
    { split; [cbn; rewrite length_alter, Hlen; by rewrite (un_inodes _ _ _ _ _ U)|]. intros k'.
      assert (Ek : inodeat k' s = inodeat k' s0) by (symmetry; by eapply unchanged_inode). rewrite Ek.
      rewrite !inodeat_alter by lia. case_decide as Ej; [subst k'|by rewrite Hoth].
      destruct Hent as [[_ ->]|(Hr0 & _ & ->)]; cbn; (split; [lia|]); [done|lia]. }
    unfold inodeat at 1. cbn [inodes set_inodes]. rewrite Ei.
    rewrite (unchanged_inode _ _ _ _ _ i U). etrans; [|apply dir_ext, U]. rewrite Hst. done.
  - intros [-> U]. pose proof (dctx_unchanged _ _ _ _ _ Hd U) as Hd1. pose proof (unchanged_inode _ _ _ _ _ i U) as Ei.
    assert (HD : dir (bcontent s1) (inodeat i s1) = D) by (rewrite Ei; apply dir_ext, U).
    pose proof (fw_size _ _ _ (fc_wf _ _ _ _ _ (dc_file _ _ _ _ Hd1))) as Hsz.
    pose proof (dcount_size _ _ (dc_dir _ _ _ _ Hd1) ltac:(lia)) as Es.
    wp_step. apply wp_get. wp_step. change 0 with (DESIZE * Z.of_nat 0).
    eapply wp_mono; [apply (wp_dirlink_loop _ s1 me P i 0); [done|unfold room in *; lia|]|].
    { unfold dcount. pose proof (Z.div_pos (i_size (inodeat i s1)) DESIZE). lia. }
    intros off s2 [-> U2]. rewrite HD, drop_0. cbn [Nat.add]. pose proof (dctx_unchanged _ _ _ _ _ Hd1 U2) as Hd2.
    pose proof (unchanged_inode _ _ _ _ _ i U2) as Ei2.
    assert (HD2 : dir (bcontent s2) (inodeat i s2) = D) by (rewrite Ei2, <- HD; apply dir_ext, U2).
    assert (U02 : unchanged s me P i s2) by (by eapply unchanged_trans).
    pose proof (dfree_le D) as Hfree. unfold D in Hfree at 2. rewrite length_dir, <- Ei, <- Ei2 in Hfree.
    wp_step. eapply wp_mono; [apply (wp_write_slot s2 me P i (dfree D) (mk_dirent inum name)); try done|].
    + by rewrite Ei2, Ei, (fstep_sb _ _ (un_step _ _ _ _ _ U02)).
    + apply length_mk_dirent.
    + by apply mk_dirent_bytes.
    + rewrite Ei2 in Hfree. rewrite Ei in *. lia.
    + unfold slots in *. rewrite (un_log _ _ _ _ _ U02). lia.
    + intros r s3 (P' & Hd3 & HP & W & Hc).
      assert (SR : same_refs s s3).
      { eapply same_refs_trans; [apply same_refs_eq, (un_inodes _ _ _ _ _ U02)|by eapply written_same_refs]. } rewrite HD2, mk_dirent_entry in Hc by done.
      destruct Hc as [[-> HD3]|(-> & Hfull & HD3)].
      * change (negb (DESIZE =? DESIZE)) with false. cbv iota. wp_step. exists P'. split_and!; [done|done|done|by left].
      * change (negb (0 =? DESIZE)) with true. cbv iota. wp_step. exists P'. split_and!; [done|done|done|by right].
Qed.

(** ** [isdirempty] *)

Definition dempty (D : list slot) : bool := forallb (fun e => match e with None => true | Some _ => false end) (drop 2 D).

Lemma wp_isdirempty_loop fuel : forall s me P i k,
  let D := dir (bcontent s) (inodeat i s) in
  dctx s me P i -> room P [] 0 -> (dcount (inodeat i s) <= k + fuel)%nat ->
  wp (isdirempty_loop i (DESIZE * Z.of_nat k) fuel) (fun r s' =>
    r = forallb (fun e => match e with None => true | Some _ => false end) (drop k D) /\ unchanged s me P i s') s.
Proof.
  induction fuel as [|fuel IH]; intros s me P i k D Hd Hr Hf; cbn [isdirempty_loop];
    wp_step; apply wp_get; rewrite (size_test s me P i k Hd);
    (case_bool_decide as Hk; [|wp_step; unfold D; rewrite drop_dir, decide_False by lia;
      split; [done|apply unchanged_refl, Hd]]); [lia|].
  wp_step. eapply wp_mono; [by apply (wp_read_slot s me P i k)|]. intros [r de] s1 (-> & -> & U).
  rewrite Z.eqb_refl. cbn [negb]. pose proof (unchanged_inode _ _ _ _ _ i U) as Ei.
  unfold D. rewrite drop_dir, decide_True by done. fold D. set (de := dslot _ _ k) in *.
  destruct (dentry_cases de) as [[-> E]|[-> E]]; rewrite E; cbn [negb forallb andb].
  - replace (DESIZE * Z.of_nat k + DESIZE) with (DESIZE * Z.of_nat (S k)) by lia.
    assert (HD : dir (bcontent s1) (inodeat i s1) = D) by (rewrite Ei; apply dir_ext, U).
    eapply wp_mono; [apply (IH s1 me P i (S k)); rewrite ?Ei; [by eapply dctx_unchanged|done|lia]|].
    intros b s2 [-> U2]. rewrite HD. split; [done|by eapply unchanged_trans].
  - wp_step. done.
Qed.

Lemma wp_isdirempty s me P i :
  dctx s me P i -> room P [] 0 ->
  wp (isdirempty i) (fun r s' => r = dempty (dir (bcontent s) (inodeat i s)) /\ unchanged s me P i s') s.
Proof.
  intros Hd Hr. unfold isdirempty. wp_step. apply wp_get. change (2 * DESIZE) with (DESIZE * Z.of_nat 2).
  pose proof (fw_size _ _ _ (fc_wf _ _ _ _ _ (dc_file _ _ _ _ Hd))).
  apply wp_isdirempty_loop; try done. unfold dcount. pose proof (Z.div_pos (i_size (inodeat i s)) DESIZE). lia.
Qed.
End Dirs.
