(* ===== verification/Concrete.v ===== *)
(** Concrete machines: a kernel image, a physical memory with an address space of
    one page, and a file-system state with an open transaction.  They satisfy the
    invariants of the components, so the theorems about those are not vacuous. *)
From S2P Require Import Prelude Types Riscv Kalloc Vm PtRep PtOps Uvm Grow Copy.
From S2P Require Import Sched Sleeplock Bio BioSess Log LogSpec LogOps.

(** ** The image *)

#[export] Instance image : Linker := {|
  k_end := 0x80022000; k_etext := 0x80008000; k_trampoline := 0x80007000;
  k_uservec := 0x80007000; k_userret := 0x8000709c; k_kernelvec := 0x80005800;
  k_usertrap := 0x80001c00; k_forkret := 0x800019e0
|}.

#[export] Instance image_ok : LinkerOk image.
Proof. split; by vm_compute. Qed.

Definition hart0 : hartst := Hart 0 0 0 0 0 0 0 0 0.
Definition log0 : logstate := Log 0 0 0 false 0 0 (replicate 30 0).
Definition sb0 : superblock := SuperBlock FSMAGIC FSSIZE 1954 200 30 2 32 45.

(** A UART that is always ready to send and never has input. *)
Definition dev0 : devst :=
  Dev (replicate 128 0) 0 0 0 (replicate 32 0) 0 0 false (fun _ _ => 32) 0 [] 100.

(** Everything zero, as [entry.S] leaves the data segment. *)
Definition machine : kst :=
  KSt hart0 [] None ∅ 0 0 (replicate NPROC proc0) 1 None 0
    (replicate (S NBUF) buf0) ∅ [] log0 sb0 [] [] ∅ true dev0.

(** The state a computation ends in. *)
Definition end_state {A} (c : M A) (s : kst) : kst :=
  match c s with Ok _ s' => s' | _ => s end.

Lemma end_state_wp {A} (c : M A) (Q : A -> kst -> Prop) s :
  wp c Q s -> exists a, Q a (end_state c s).
Proof. unfold wp, end_state. destruct (c s); [eauto|done..]. Qed.

(** ** Physical memory

    Pages 0 to 2 are the tables of an address space with page 3 at address 0;
    pages 4 to 9 are free. *)

Definition pg (i : Z) : Z := 0x80030000 + i * 4096.

Definition frame_perm : Z := Z.lor (Z.lor PTE_R PTE_U) PTE_W.

Definition ram : gmap Z Z :=
  let m := store64 ∅ (pg 0) (Z.lor (PA2PTE (pg 1)) PTE_V) in
  let m := store64 m (pg 1) (Z.lor (PA2PTE (pg 2)) PTE_V) in
  let m := store64 m (pg 2) (leaf_pte (pg 3) frame_perm) in
  let m := store64 m (pg 4) (pg 5) in
  let m := store64 m (pg 5) (pg 6) in
  let m := store64 m (pg 6) (pg 7) in
  let m := store64 m (pg 7) (pg 8) in
  let m := store64 m (pg 8) (pg 9) in
  <[pg 3 := 104]> (<[pg 3 + 1 := 105]> m).

Definition ram_free : list Z := [pg 4; pg 5; pg 6; pg 7; pg 8; pg 9].
Definition ram_tables : gmap Z role :=
  {[ pg 0 := Root; pg 1 := Mid 0; pg 2 := Low 0 0 ]}.
Definition ram_frames : gmap Z Z := {[ 0 := pg 3 ]}.

Definition ram_machine : kst := set_mem ram (set_freelist (pg 4) machine).

Lemma ram_kmem : kmem_inv ram_machine ram_free.
Proof.
  split.
  - cbn. repeat split; by vm_compute.
  - apply (bool_decide_unpack _). by vm_compute.
  - unfold page_ok. repeat (apply Forall_cons; split; [split; [by vm_compute|cbn; unfold pg; lia]|]).
    apply Forall_nil. done.
  - cbn. set_solver.
Qed.

(** Properties of the 512 entries of a table, checked one by one. *)
Lemma entries_forall (f : Z -> bool) :
  forallb f (seqZ 0 512) = true -> forall i, 0 <= i < 512 -> f i = true.
Proof.
  intros H i Hi. rewrite forallb_forall in H. apply H.
  apply list_elem_of_In, elem_of_seqZ. lia.
Qed.

Definition only_first (t e i : Z) : bool :=
  load64 ram (t + 8 * i) =? (if i =? 0 then e else 0).

Lemma ram_entries i : 0 <= i < 512 ->
  load64 ram (pg 0 + 8 * i) = (if i =? 0 then Z.lor (PA2PTE (pg 1)) PTE_V else 0) /\
  load64 ram (pg 1 + 8 * i) = (if i =? 0 then Z.lor (PA2PTE (pg 2)) PTE_V else 0) /\
  load64 ram (pg 2 + 8 * i) = (if i =? 0 then leaf_pte (pg 3) frame_perm else 0).
Proof.
  intros Hi.
  assert (H : forall t e, forallb (only_first t e) (seqZ 0 512) = true ->
            load64 ram (t + 8 * i) = (if i =? 0 then e else 0)).
  { intros t e H. apply Z.eqb_eq. by apply (entries_forall (only_first t e)). }
  split_and!; apply H; by vm_compute.
Qed.

Lemma ram_lookup :
  ram_tables !! pg 0 = Some Root /\ ram_tables !! pg 1 = Some (Mid 0) /\
  ram_tables !! pg 2 = Some (Low 0 0).
Proof. by vm_compute. Qed.

Lemma table_entry i : 0 <= i < 10 ->
  has (Z.lor (PA2PTE (pg i)) PTE_V) PTE_V = true /\ PTE2PA (Z.lor (PA2PTE (pg i)) PTE_V) = pg i.
Proof.
  intros Hi. assert (page_ok (pg i)) by (split; cbn; unfold pg; [|lia]; Z.div_mod_to_equations; lia).
  split; [by apply has_V_table|by apply PTE2PA_table].
Qed.

(** The other pages are zero. *)
Lemma ram_zero i x : 10 <= i < 14 -> in_page (pg i) x -> mget ram x = 0.
Proof.
  intros Hi Hx. unfold in_page, pg in *. unfold ram, pg.
  unfold mget. rewrite !lookup_insert_ne by lia.
  match goal with |- default 0 (?m !! x) = 0 => change (mget m x = 0) end. rewrite !mget_store64_out by lia. done.
Qed.

#[local] Opaque ram load64 PA2PTE PTE2PA has leaf_pte pg.

Lemma ram_role t ρ : ram_tables !! t = Some ρ ->
  (t = pg 0 /\ ρ = Root) \/ (t = pg 1 /\ ρ = Mid 0) \/ (t = pg 2 /\ ρ = Low 0 0).
Proof.
  unfold ram_tables. intros H.
  apply lookup_insert_Some in H as [[<- <-]|[_ H]]; [by left|].
  apply lookup_insert_Some in H as [[<- <-]|[_ H]]; [by auto|].
  apply lookup_singleton_Some in H as [<- <-]. auto.
Qed.

Lemma ram_page t ρ : ram_tables !! t = Some ρ -> page_ok t.
Proof.
  intros H. apply ram_role in H as [[-> _]|[[-> _]|[-> _]]]; split; by vm_compute.
Qed.

Lemma ram_wf : pt_wf ram (pg 0) ram_tables.
Proof.
  destruct ram_lookup as (L0 & L1 & L2). split.
  - exact L0.
  - intros t H. apply ram_role in H as [[-> _]|[[_ ?]|[_ ?]]]; congruence.
  - apply ram_page.
  - intros t ρ i H Hd Hi Hv. destruct (ram_entries i Hi) as (E0 & E1 & _).
    apply ram_role in H as [[-> ->]|[[-> ->]|[-> ->]]]; [..|destruct Hd].
    + rewrite E0 in *. destruct (Z.eqb_spec i 0) as [->|]; [|rewrite has_0 in Hv; destruct Hv].
      exists (pg 1). split; [reflexivity|exact L1].
    + rewrite E1 in *. destruct (Z.eqb_spec i 0) as [->|]; [|rewrite has_0 in Hv; destruct Hv].
      exists (pg 2). split; [reflexivity|exact L2].
  - intros t ρ i t' H Hd Hi H'. destruct (ram_entries i Hi) as (E0 & E1 & _).
    apply ram_role in H as [[-> ->]|[[-> ->]|[-> ->]]]; [..|destruct Hd]; cbn [child] in H';
      apply ram_role in H' as [[-> ?]|[[-> ?]|[-> ?]]]; try congruence.
    + assert (i = 0) as -> by congruence. exact E0.
    + assert (i = 0) as -> by congruence. exact E1.
  - intros t i H. apply ram_role in H as [[_ ?]|[[_ ?]|[_ ?]]]; try congruence.
    assert (i = 0) as -> by congruence. lia.
  - intros t i j H. apply ram_role in H as [[_ ?]|[[_ ?]|[_ ?]]]; try congruence.
    assert (i = 0 /\ j = 0) as [-> ->] by (split; congruence). split; [lia|]. exists (pg 1). exact L1.
Qed.

Lemma ram_own : pt_own ram_machine (pg 0) ram_tables ram_free.
Proof.
  split; [apply ram_wf|apply ram_kmem|]. intros t [ρ H].
  apply ram_role in H as [[-> _]|[[-> _]|[-> _]]]; apply (bool_decide_unpack _); by vm_compute.
Qed.

Lemma ram_pte va : pte_at ram (pg 0) va =
  if (PX 2 va =? 0) && (PX 1 va =? 0) && (PX 0 va =? 0) then leaf_pte (pg 3) frame_perm else 0.
Proof.
  unfold pte_at, pt_slot.
  destruct (ram_entries (PX 2 va) (PX_range 2 va ltac:(lia))) as (-> & _ & _).
  destruct (PX 2 va =? 0); [|done]. destruct (table_entry 1 ltac:(lia)) as [-> ->].
  destruct (ram_entries (PX 1 va) (PX_range 1 va ltac:(lia))) as (_ & -> & _).
  destruct (PX 1 va =? 0); [|done]. destruct (table_entry 2 ltac:(lia)) as [-> ->].
  destruct (ram_entries (PX 0 va) (PX_range 0 va ltac:(lia))) as (_ & _ & ->).
  by destruct (PX 0 va =? 0).
Qed.

Lemma ram_pte_out va : PGSIZE <= va < MAXVA -> pte_at ram (pg 0) va = 0.
Proof.
  intros H. rewrite ram_pte.
  destruct (PX 2 va =? 0) eqn:E2, (PX 1 va =? 0) eqn:E1, (PX 0 va =? 0) eqn:E0; try done.
  apply Z.eqb_eq in E2, E1, E0. exfalso.
  pose proof (PX_page va ltac:(lia)) as Hi. rewrite E2, E1, E0 in Hi. Z.div_mod_to_equations. lia.
Qed.

Lemma ram_pte_at va : pte_at ram (pg 0) va = leaf_pte (pg 3) frame_perm \/ pte_at ram (pg 0) va = 0.
Proof. rewrite ram_pte. destruct (_ && _); auto. Qed.

Lemma ram_pte0 : pte_at ram (pg 0) 0 = leaf_pte (pg 3) frame_perm.
Proof. by rewrite ram_pte. Qed.

Lemma ram_frame va pa : ram_frames !! va = Some pa -> va = 0 /\ pa = pg 3.
Proof. unfold ram_frames. intros H. by apply lookup_singleton_Some in H as [<- <-]. Qed.

Lemma ram_uvm : uvm_own ram_machine (pg 0) ram_tables ram_free ram_frames.
Proof.
  split.
  - apply ram_own.
  - intros va pa [-> ->]%ram_frame. split; [done|lia].
  - intros va pa [-> ->]%ram_frame. split; [split; by vm_compute|]. split; [|by vm_compute].
    apply (bool_decide_unpack _). by vm_compute.
  - intros va pa [-> ->]%ram_frame. exists frame_perm. split; [apply ram_pte0|].
    split; by vm_compute.
  - intros va vb pa [-> _]%ram_frame [-> _]%ram_frame. done.
Qed.

Lemma ram_no_zero_page : no_zero_page ram (pg 0).
Proof.
  intros va _. unfold ureadable. destruct (ram_pte_at va) as [->| ->].
  - intros _. by vm_compute.
  - by rewrite has_0, andb_false_r.
Qed.

Lemma ram_writable_owned : writable_owned ram (pg 0) ram_frames.
Proof.
  intros va H0 H. destruct (decide (va < PGSIZE)) as [Hva|Hva].
  - assert (PGROUNDDOWN va = 0) as ->.
    { rewrite PGROUNDDOWN_eq. Z.div_mod_to_equations. lia. }
    exists (pg 3). unfold ram_frames. by apply lookup_singleton_Some.
  - unfold uwritable, ureadable in H. destruct (Z.ltb_spec va MAXVA); [|destruct H].
    rewrite ram_pte_out, has_0 in H by lia. destruct H.
Qed.

(** An empty address space beside it, as [uvmcreate] makes one. *)
Definition child_tables : gmap Z role := {[ pg 10 := Root ]}.

Lemma child_entries i : 0 <= i < 512 -> load64 ram (pg 10 + 8 * i) = 0.
Proof.
  intros Hi. apply Z.eqb_eq.
  apply (entries_forall (fun i => load64 ram (pg 10 + 8 * i) =? 0)); [by vm_compute|done].
Qed.

Lemma child_role t ρ : child_tables !! t = Some ρ -> t = pg 10 /\ ρ = Root.
Proof. unfold child_tables. intros H. by apply lookup_singleton_Some in H as [<- <-]. Qed.

Lemma child_pte va : pte_at ram (pg 10) va = 0.
Proof.
  unfold pte_at, pt_slot. rewrite child_entries by (apply PX_range; lia). by rewrite has_0.
Qed.

Lemma child_uvm : uvm_own ram_machine (pg 10) child_tables ram_free ∅.
Proof.
  split; [|intros *; rewrite lookup_empty; discriminate..].
  split; [split|apply ram_kmem|].
  - unfold child_tables. by apply lookup_singleton_Some.
  - intros t H. by apply child_role in H as [-> _].
  - intros t ρ H. apply child_role in H as [-> _]. split; by vm_compute.
  - intros t ρ i H _ Hi Hv. apply child_role in H as [-> _]. cbn [mem set_mem ram_machine] in Hv.
    rewrite child_entries, has_0 in Hv by done. destruct Hv.
  - intros t ρ i t' H _ _ H'. apply child_role in H as [_ ->], H' as [_ [=]].
  - intros t i H. apply child_role in H as [_ [=]].
  - intros t i j H. apply child_role in H as [_ [=]].
  - intros t [ρ H]. apply child_role in H as [-> _]. apply (bool_decide_unpack _). by vm_compute.
Qed.

Lemma child_separate : separate ram_tables ram_frames child_tables ∅.
Proof.
  split.
  - intros t [ρ H]. apply ram_role in H as [[-> _]|[[-> _]|[-> _]]]; by vm_compute.
  - intros va p [-> ->]%ram_frame. by vm_compute.
Qed.

(** ** The file system: process 0 inside a transaction on an empty disk *)

Definition fs_log : logstate := Log 2 30 1 false ROOTDEV 0 (replicate 30 0).

Definition fs_machine : kst :=
  set_log fs_log
    (set_procs (alter (fun p => set_p_state RUNNING (set_p_pid 1 p)) 0%nat (procs machine))
      (set_cur (Some 0%nat) machine)).

Definition fs_boot : kst := end_state binit fs_machine.

(** It writes block 50. *)
Definition fs_write : M unit :=
  let! i := bread ROOTDEV 50 in
  updb i (set_b_data (replicate 1024 7)) ;;;
  log_write i ;;;
  brelse i.

Definition fs_tx : kst := end_state fs_write fs_boot.

Lemma dget_empty b : dget ∅ b = replicate 1024 0.
Proof. unfold dget. by rewrite lookup_empty. Qed.

Lemma fs_boot_ok :
  fs_boot = set_bufs (bufs fs_boot) fs_machine /\ bio_inv fs_boot /\
  forall b, bcontent fs_boot b = dget ∅ b.
Proof.
  destruct (end_state_wp binit _ _ (wp_binit fs_machine ltac:(done)
    ltac:(intros b; cbn [disk fs_machine machine set_log set_procs set_cur]; by rewrite dget_empty)))
    as [_ H]. exact H.
Qed.

Lemma fs_boot_idle i : (i < NBUF)%nat ->
  b_refcnt (bufat i fs_boot) = 0 /\ sl_locked (b_lock (bufat i fs_boot)) = false.
Proof.
  assert (H : forallb (fun i => let b := bufat i fs_boot in
                (b_refcnt b =? 0) && negb (sl_locked (b_lock b))) (seq 0 NBUF) = true) by (by vm_compute).
  intros Hi. rewrite forallb_forall in H.
  specialize (H i (proj2 (in_seq _ _ _) (conj (Nat.le_0_l i) Hi))).
  apply andb_prop in H as [H1%Z.eqb_eq H2%negb_true_iff]. exact (conj H1 H2).
Qed.

Lemma fs_boot_invalid i : (i < NBUF)%nat -> b_valid (bufat i fs_boot) = false.
Proof.
  assert (H : forallb (fun i => negb (b_valid (bufat i fs_boot))) (seq 0 NBUF) = true) by (by vm_compute).
  intros Hi. rewrite forallb_forall in H.
  specialize (H i (proj2 (in_seq _ _ _) (conj (Nat.le_0_l i) Hi))). apply negb_true_iff in H. exact H.
Qed.

#[global] Opaque fs_boot.

Lemma sess_idle s me :
  bio_inv s -> running s me -> bio_locks s ->
  (forall i, (i < NBUF)%nat -> b_refcnt (bufat i s) = 0 /\ sl_locked (b_lock (bufat i s)) = false) ->
  bsess s me [] [].
Proof.
  intros I R B H. split; [exact I|exact R|exact B|constructor| | |constructor| |].
  - intros i b Hi. by apply elem_of_nil in Hi.
  - intros i Hi _. by apply H.
  - intros b Hb. by apply elem_of_nil in Hb.
  - intros i Hi. destruct (H i Hi) as [-> _]. unfold pins, locks. rewrite !decide_False; [done|..]; set_solver.
Qed.

Lemma fs_boot_field {A} (f : kst -> A) :
  (forall bs s, f (set_bufs bs s) = f s) -> f fs_boot = f fs_machine.
Proof. intros Hf. destruct fs_boot_ok as (E & _). rewrite E. apply Hf. Qed.

Lemma fs_boot_log : log fs_boot = fs_log /\ disk fs_boot = ∅ /\
  held fs_boot = [] /\ cur fs_boot = Some 0%nat /\ length (procs fs_boot) = 64%nat.
Proof.
  rewrite (fs_boot_field log), (fs_boot_field disk), (fs_boot_field held), (fs_boot_field cur),
    (fs_boot_field procs) by reflexivity.
  split_and!; reflexivity.
Qed.

Lemma fs_boot_sess : bsess fs_boot 0 [] [].
Proof.
  destruct fs_boot_ok as (_ & I & _). destruct fs_boot_log as (_ & _ & Eh & Ec & El).
  apply sess_idle; [exact I| | |exact fs_boot_idle].
  - clear I. split; [exact Ec|rewrite El; lia|]. intros j. rewrite Eh. apply not_elem_of_nil.
  - exact Eh.
Qed.

(** The same machine with another disk. *)
Lemma sess_disk s me d : bsess s me [] [] -> (forall i, (i < NBUF)%nat -> b_valid (bufat i s) = false) ->
  (forall b, length (dget d b) = 1024%nat) -> bsess (set_disk d s) me [] [].
Proof.
  intros [[Il Iu Iq If Ir Id Ic Iv Ik] [Rc Rl Rk] Hl HK Hlk HU HN HP HR] Hv Hd. split; try done.
  - split; try done. intros i Hi _ Hv'. exfalso. change (b_valid (bufat i s) = true) in Hv'.
    by rewrite Hv in Hv'.
  - intros i b Hk. by apply elem_of_nil in Hk.
Qed.

Lemma fs_boot_disk d : (forall b, length (dget d b) = 1024%nat) -> bsess (set_disk d fs_boot) 0 [] [].
Proof. exact (sess_disk fs_boot 0 d fs_boot_sess fs_boot_invalid). Qed.

Lemma fs_log_txn : txn fs_log [].
Proof. split; cbn; try lia; try done; try constructor; set_solver. Qed.

Record fs_tx_spec (s : kst) : Prop := {
  ft_sess : bsess s 0 [50] [];
  ft_txn : txn (log s) [50];
  ft_log : same_log fs_log (log s);
  ft_disk : disk s = ∅;
  ft_held : held s = []
}.

Lemma fs_write_ok s :
  bsess s 0 [] [] -> log s = fs_log -> disk s = ∅ -> held s = [] ->
  wp fs_write (fun _ s' => fs_tx_spec s') s.
Proof.
  intros B El Ed Eh.
  unfold fs_write. wp_step. eapply (wp_sbread _ 0 [] []); [exact B|set_solver|right; cbn; lia|].
  intros i s1 E1 B1 _ _ _. wp_step. apply wp_upd.
  destruct (sess_set_data s1 0 [] [(i, 50)] i 50 (replicate 1024 7) B1) as (B2 & _);
    [set_solver|done|].
  set (s2 := set_bufs (alter (set_b_data _) i _) s1) in *.
  assert (L2 : log s2 = fs_log) by (unfold s2; rewrite E1; done).
  assert (D2 : disk s2 = ∅) by (unfold s2; rewrite E1; exact Ed).
  assert (H2 : held s2 = []) by (unfold s2; rewrite E1; exact Eh).
  clearbody s2. wp_step. eapply (wp_log_write s2 0 [] [(i, 50)] i 50); rewrite ?L2; try done;
    try (cbn; lia); [set_solver|apply fs_log_txn|rewrite H2; set_solver|].
  intros s3 E3 B3 T3 G3 _ _.
  eapply (wp_sbrelse s3 0 [50] [(i, 50)] i 50); [exact B3|set_solver|left; set_solver|].
  intros s4 E4 _ B4 _ _. split.
  - unfold drop_buf in B4. rewrite filter_cons_False in B4 by (cbn; congruence). exact B4.
  - rewrite E4. exact T3.
  - rewrite E4. exact G3.
  - rewrite E4, E3. exact D2.
  - rewrite E4, E3. exact H2.
Qed.

Lemma fs_tx_ok : fs_tx_spec fs_tx.
Proof.
  destruct fs_boot_log as (El & Ed & Eh & _).
  destruct (end_state_wp _ _ _ (fs_write_ok fs_boot fs_boot_sess El Ed Eh)) as [_ H]. exact H.
Qed.

#[global] Opaque fs_tx ram.
