(* ===== verification/PipeThms.v ===== *)
(** The pipe as a bounded queue: [pipewrite] appends the writer's bytes, [piperead] takes
    them from the front, and both go to sleep only on a full or an empty pipe. *)
From S2P Require Import Prelude Types Riscv Str Kalloc Vm PtRep PtOps Uvm Copy Sched Ring Pipe Concrete.

(** ** The queue *)

Definition pipe_len (p : pipe) : Z := u32 (pi_nwrite p - pi_nread p).
Definition pqueue (p : pipe) : list Z := ring (pi_data p) (pi_nread p) (Z.to_nat (pipe_len p)).

Record pipe_wf (p : pipe) : Prop := {
  pw_data : length (pi_data p) = 512%nat;
  pw_nread : 0 <= pi_nread p < 2 ^ 32;
  pw_nwrite : 0 <= pi_nwrite p < 2 ^ 32;
  pw_len : pipe_len p <= PIPESIZE
}.

Lemma pipe_len_nonneg p : 0 <= pipe_len p.
Proof. apply Z.mod_pos_bound. lia. Qed.

Lemma length_pqueue p : Z.of_nat (length (pqueue p)) = pipe_len p.
Proof. unfold pqueue. rewrite length_ring. pose proof (pipe_len_nonneg p). lia. Qed.

(** The distance between two 32-bit counters, and what an increment does to it. *)
Lemma u32_sub_eq a b : 0 <= a < 2 ^ 32 -> 0 <= b < 2 ^ 32 ->
  u32 (a - b) = a - b \/ u32 (a - b) = a - b + 2 ^ 32.
Proof.
  intros Ha Hb. unfold u32. destruct (Z_le_dec b a).
  - left. apply Z.mod_small. lia.
  - right. symmetry. apply Z.mod_unique with (-1); lia.
Qed.

Lemma u32_succ a : 0 <= a < 2 ^ 32 -> u32 (a + 1) = a + 1 \/ (a + 1 = 2 ^ 32 /\ u32 (a + 1) = 0).
Proof.
  intros Ha. destruct (decide (a + 1 = 2 ^ 32)) as [E|]; [right|left].
  - split; [done|]. unfold u32. rewrite E. by apply Z.mod_same.
  - apply Z.mod_small. lia.
Qed.

Lemma pipe_full_spec p : pipe_wf p -> pipe_full p = (pipe_len p =? PIPESIZE).
Proof.
  intros [_ Hr Hw _]. unfold pipe_full, pipe_len.
  pose proof (u32_range (pi_nread p + 512)) as H1.
  assert (u32 (pi_nread p + 512) = pi_nread p + 512 \/ u32 (pi_nread p + 512) = pi_nread p + 512 - 2 ^ 32) as H2.
  { unfold u32. destruct (Z_lt_dec (pi_nread p + 512) (2 ^ 32)).
    - left. apply Z.mod_small. lia.
    - right. symmetry. apply Z.mod_unique with 1; lia. }
  pose proof (u32_sub_eq _ _ Hw Hr). pose proof (u32_range (pi_nwrite p - pi_nread p)).
  destruct (Z.eqb_spec (pi_nwrite p) (u32 (pi_nread p + 512))), (Z.eqb_spec (u32 (pi_nwrite p - pi_nread p)) 512);
    try done; lia.
Qed.

Lemma pipe_empty_spec p : pipe_wf p -> pipe_empty p = (pipe_len p =? 0).
Proof.
  intros [_ Hr Hw _]. unfold pipe_empty, pipe_len.
  pose proof (u32_sub_eq _ _ Hw Hr). pose proof (u32_range (pi_nwrite p - pi_nread p)).
  destruct (Z.eqb_spec (pi_nread p) (pi_nwrite p)), (Z.eqb_spec (u32 (pi_nwrite p - pi_nread p)) 0); try done; lia.
Qed.

(** Appending a byte to a pipe that is not full. *)
Lemma pipe_put_spec p ch :
  pipe_wf p -> pipe_len p < PIPESIZE ->
  pipe_wf (pipe_put ch p) /\ pqueue (pipe_put ch p) = pqueue p ++ [ch].
Proof.
  intros [Hd Hr Hw Hl] Hlt.
  assert (pipe_len (pipe_put ch p) = pipe_len p + 1) as El.
  { unfold pipe_len, pipe_put in *. cbn [pi_nwrite pi_nread set_pi_nwrite set_pi_data] in *.
    pose proof (u32_range (pi_nwrite p + 1)) as Hs. pose proof (u32_succ _ Hw).
    pose proof (u32_sub_eq _ _ Hs Hr). pose proof (u32_sub_eq _ _ Hw Hr).
    pose proof (u32_range (u32 (pi_nwrite p + 1) - pi_nread p)). pose proof (u32_range (pi_nwrite p - pi_nread p)).
    lia. }
  split.
  - constructor.
    + cbn. by rewrite length_rset.
    + done.
    + apply u32_range.
    + lia.
  - unfold pqueue. rewrite El. pose proof (pipe_len_nonneg p).
    replace (Z.to_nat (pipe_len p + 1)) with (S (Z.to_nat (pipe_len p))) by lia.
    unfold pipe_put. cbn [pi_nwrite pi_nread pi_data set_pi_nwrite set_pi_data].
    apply ring_put; [lia|]. rewrite Hd, Z2Nat.id by done. unfold pipe_len.
    pose proof (u32_sub_eq _ _ Hw Hr) as [-> | ->].
    + f_equal. lia.
    + replace (pi_nread p + (pi_nwrite p - pi_nread p + 2 ^ 32)) with (pi_nwrite p + 2 ^ 23 * Z.of_nat 512) by lia.
      by rewrite Z.mod_add.
Qed.

(** Taking one from a pipe that is not empty. *)
Lemma pipe_take_spec p :
  pipe_wf p -> 0 < pipe_len p ->
  pipe_wf (pipe_take p) /\ pqueue p = pipe_ch p :: pqueue (pipe_take p).
Proof.
  intros [Hd Hr Hw Hl] Hlt.
  assert (pipe_len (pipe_take p) = pipe_len p - 1) as El.
  { unfold pipe_len, pipe_take in *. cbn [pi_nwrite pi_nread set_pi_nread] in *.
    pose proof (u32_range (pi_nread p + 1)) as Hs. pose proof (u32_succ _ Hr).
    pose proof (u32_sub_eq _ _ Hw Hs). pose proof (u32_sub_eq _ _ Hw Hr).
    pose proof (u32_range (pi_nwrite p - u32 (pi_nread p + 1))). pose proof (u32_range (pi_nwrite p - pi_nread p)).
    lia. }
  split.
  - constructor; [done|apply u32_range|done|lia].
  - unfold pqueue. rewrite El.
    replace (Z.to_nat (pipe_len p)) with (S (Z.to_nat (pipe_len p - 1))) by lia. cbn [ring].
    unfold pipe_take, pipe_ch. cbn [pi_nread pi_data set_pi_nread]. f_equal.
    apply ring_mod. rewrite Hd. unfold u32. symmetry. apply wrap_mod. by exists (2 ^ 23).
Qed.

(** ** [pipewrite] *)

Section PipeSpec.
Context {L : Linker} {LOk : LinkerOk L}.

Definition with_pipe (pi : Z) (p : pipe) (s : kst) : kst := set_pipes (<[pi := p]> (pipes s)) s.

Lemma pipeat_some pi p s : pipes s !! pi = Some p -> pipeat pi s = p.
Proof. intros H. unfold pipeat. by rewrite (lookup_total_correct _ _ _ H). Qed.

Lemma with_pipe_id pi p s : pipes s !! pi = Some p -> with_pipe pi p s = s.
Proof. intros H. unfold with_pipe. rewrite insert_id by done. by destruct s. Qed.

Lemma with_pipe_twice pi p p' s : with_pipe pi p' (with_pipe pi p s) = with_pipe pi p' s.
Proof. unfold with_pipe. cbn. by rewrite insert_insert_eq. Qed.

(** Process [me] is running, with page table [r]. *)
Record runs_as (s : kst) (me : nat) (r : Z) (O : gmap Z role) : Prop := {
  ra_cur : cur s = Some me;
  ra_me : (me < length (procs s))%nat;
  ra_pt : p_pagetable (procat me s) = r;
  ra_wf : pt_wf (mem s) r O;
  ra_zero : no_zero_page (mem s) r
}.

(** [p'] is [p] with the [k] bytes at user address [a] appended. *)
Definition sent (s : kst) (r a : Z) (p : pipe) (k : nat) (p' : pipe) : Prop :=
  pipe_wf p' /\ pqueue p' = pqueue p ++ uread (mem s) r a k /\
  pi_readopen p' = pi_readopen p /\ pi_writeopen p' = pi_writeopen p.

(** Everybody who waits for data is woken. *)
Definition woke (ch : chan) (s : kst) : kst := set_procs (woken (cur s) ch 0 NPROC (procs s)) s.

Lemma wps_pipewrite_loop pi me r O addr n fuel : forall s p i,
  runs_as s me r O -> held s = [LkPipe pi] -> pipes s !! pi = Some p -> pipe_wf p ->
  0 <= i -> Z.max 0 (n - i) < Z.of_nat fuel -> 0 <= addr -> addr + n <= 2 ^ 64 - PGSIZE ->
  wps (pipewrite_loop pi me addr n i fuel)
    (fun o s' => exists k p', sent s r (addr + i) p k p' /\
       match o with
       | Some j => j = i + Z.of_nat k /\ (n <= j \/ ureadable (mem s) r (addr + j) = false) /\
                   s' = with_pipe pi p' s
       | None => (pi_readopen p = false \/ p_killed (procat me s) = true) /\
                 s' = set_held [] (with_pipe pi p' s)
       end)
    (fun ch s' => exists k p', sent s r (addr + i) p k p' /\ i + Z.of_nat k < n /\
       pipe_len p' = PIPESIZE /\ ch = ChPipeWrite pi /\
       s' = asleep me ch (woke (ChPipeRead pi) (with_pipe pi p' s))) s.
Proof.
  induction fuel as [|fuel IH]; intros s p i R Hh Hp Hwf Hi Hf Ha Hmax; cbn [pipewrite_loop]; [lia|].
  pose proof R as [Hc Hme Hpt Hw Hz].
  assert (sent s r (addr + i) p 0 p) as H0 by (split; [done|]; by rewrite app_nil_r).
  destruct (Z.ltb_spec i n) as [Hin|Hin].
  2: { apply wps_wp, wp_ret. exists 0%nat, p. split; [done|]. split; [lia|]. split; [left; lia|].
       by rewrite with_pipe_id. }
  wp_step. apply wp_get. rewrite (pipeat_some _ _ _ Hp). wp_step.
  assert (wp (if pi_readopen p then killed me else ret true)
                      (fun stop s' => s' = s /\ (stop = true -> pi_readopen p = false \/ p_killed (procat me s) = true)) s)
    as Hstop.
  { destruct (pi_readopen p); [|apply wp_ret; auto].
    apply wp_killed; [rewrite Hh; set_solver|]. auto. }
  eapply wp_mono; [apply Hstop|]. intros stop s' [-> Hwhy]. destruct stop.
  { apply wps_wp. wp_step. eapply wp_release; [done|set_solver|]. apply wp_ret.
    exists 0%nat, p. split; [done|]. split; [by apply Hwhy|]. by rewrite with_pipe_id. }
  wp_step. apply wp_get. rewrite (pipeat_some _ _ _ Hp), (pipe_full_spec p Hwf).
  destruct (Z.eqb_spec (pipe_len p) PIPESIZE) as [Hfull|Hroom].
  - wp_step. apply wp_wakeup; [intros j _; rewrite Hh; set_solver|].
    apply wps_bind. eapply (wps_sleep _ _ (woke (ChPipeRead pi) s)).
    + done.
    + cbn. by rewrite length_woken.
    + done.
    + done.
    + exists 0%nat, p. split; [done|]. split; [lia|]. split; [done|]. split; [done|]. by rewrite with_pipe_id.
  - wp_step. apply wp_get. rewrite Hpt. wp_step.
    rewrite u64_small by lia. eapply wp_mono; [eapply (wp_copyin s r O); [done..|lia|lia]|].
    intros [res out] s' [-> [(-> & Hrd & ->)|(-> & m & Hm & Hun & _)]].
    + cbn [Z.eqb]. wp_step. apply wp_upd. rewrite (pipeat_some _ _ _ Hp).
      change (nth 0 (uread (mem s) r (addr + i) (Z.to_nat 1)) 0) with (ubyte (mem s) r (addr + i)).
      set (ch := ubyte (mem s) r (addr + i)).
      pose proof (pw_len _ Hwf). destruct (pipe_put_spec p ch Hwf ltac:(lia)) as [Hwf1 Hq1].
      change (set_pipes _ s) with (with_pipe pi (pipe_put ch p) s).
      assert (forall k p', sent s r (addr + (i + 1)) (pipe_put ch p) k p' -> sent s r (addr + i) p (S k) p') as Hsent.
      { intros k p' (W & Q & E1 & E2). split; [done|]. split; [|done].
        rewrite Q, Hq1, <- app_assoc. cbn [uread app]. by replace (addr + i + 1) with (addr + (i + 1)) by lia. }
      eapply wps_mono.
      * apply (IH (with_pipe pi (pipe_put ch p) s) (pipe_put ch p)); try done; [apply lookup_insert_eq|lia|lia].
      * intros o s' (k & p' & Hs & Ho). exists (S k), p'. split; [by apply Hsent|].
        rewrite with_pipe_twice in Ho. destruct o as [j|].
        -- destruct Ho as (-> & Hd & ->). split; [lia|]. by split.
        -- destruct Ho as (Hd & ->). by split.
      * intros c s' (k & p' & Hs & Hk & Hl & -> & ->). exists (S k), p'. split; [by apply Hsent|].
        split; [lia|]. split; [done|]. split; [done|]. by rewrite with_pipe_twice.
    + cbn [Z.eqb]. apply wps_wp, wp_ret. exists 0%nat, p. split; [done|]. split; [lia|].
      split; [right; by replace (addr + i) with (addr + i + m) by lia|]. by rewrite with_pipe_id.
Qed.

Lemma set_held_with pi p h h' s : set_held h (with_pipe pi p (set_held h' s)) = set_held h (with_pipe pi p s).
Proof. by destruct s. Qed.

Lemma woke_held ch h pi p s :
  set_held [] (woke ch (with_pipe pi p (set_held h s))) = set_held [] (woke ch (with_pipe pi p s)).
Proof. by destruct s. Qed.

(** What a call of [pipewrite] does. *)
Definition pipewrite_post pi me r addr n s p (ret : Z) (s' : kst) : Prop :=
  exists k p', sent s r addr p k p' /\
    ((ret = Z.of_nat k /\ (n <= ret \/ ureadable (mem s) r (addr + ret) = false) /\
      s' = woke (ChPipeRead pi) (with_pipe pi p' s)) \/
     (ret = -1 /\ (pi_readopen p = false \/ p_killed (procat me s) = true) /\ s' = with_pipe pi p' s)).

Definition pipewrite_sleeps pi me r addr n s p (ch : chan) (s' : kst) : Prop :=
  exists k p', sent s r addr p k p' /\ Z.of_nat k < n /\ pipe_len p' = PIPESIZE /\ ch = ChPipeWrite pi /\
    s' = asleep me ch (woke (ChPipeRead pi) (with_pipe pi p' s)).

Lemma wps_pipewrite pi me r O addr n s p :
  runs_as s me r O -> held s = [] -> pipes s !! pi = Some p -> pipe_wf p ->
  0 <= addr -> addr + n <= 2 ^ 64 - PGSIZE ->
  wps (pipewrite pi addr n) (pipewrite_post pi me r addr n s p) (pipewrite_sleeps pi me r addr n s p) s.
Proof.
  intros R Hh Hp Hwf Ha Hmax. pose proof R as [Hc Hme Hpt Hw Hz]. unfold pipewrite.
  wp_step. eapply wp_myproc_; [done|]. wp_step. apply wp_acquire; [rewrite Hh; set_solver|]. rewrite Hh.
  apply wps_bind. eapply wps_mono.
  { apply (wps_pipewrite_loop pi me r O addr n _ (set_held [LkPipe pi] s) p 0); try done; lia. }
  2: { intros ch s' (k & p' & Hs & Hk & Hl & -> & ->). exists k, p'. rewrite Z.add_0_r in Hs.
       split; [done|]. split; [done|]. split; [done|]. split; [done|].
       unfold asleep, woke, with_pipe. by destruct s. }
  intros o s' (k & p' & Hs & Ho). rewrite Z.add_0_r in Hs. destruct o as [j|].
  - destruct Ho as (-> & Hd & ->). apply wps_wp. wp_step.
    apply wp_wakeup; [intros j' _; cbn; set_solver|]. wp_step.
    eapply wp_release; [done|set_solver|]. apply wp_ret. exists k, p'. split; [done|]. left.
    split; [done|]. split; [done|].
    change (set_procs _ ?x) with (woke (ChPipeRead pi) x) at 1. rewrite woke_held.
    unfold woke, with_pipe. destruct s. cbn in Hh. by subst.
  - destruct Ho as (Hd & ->). apply wps_wp, wp_ret. exists k, p'. split; [done|]. right.
    split; [done|]. split; [done|]. rewrite set_held_with. destruct s. cbn in Hh. by subst.
Qed.

(** ** [piperead] *)

Lemma uvm_own_ext s s' r O fl U :
  uvm_own s r O fl U -> mem s' = mem s -> freelist s' = freelist s -> held s' = held s ->
  uvm_own s' r O fl U.
Proof.
  intros [[Hw [K1 K2 K3 K4] Hd] Hva Hfr Hpte Hinj] Em Ef Eh.
  split; [split; [by rewrite Em|split; rewrite ?Em, ?Ef, ?Eh; done|done]|done|done|by rewrite Em|done].
Qed.

(** [s] with the memory of [s1]. *)
Definition with_mem (s s1 : kst) : kst := set_mem (mem s1) s.

Lemma copied_with_pipe pi p s r O fl U dst src n s1 :
  copied (with_pipe pi p s) r O fl U dst src n s1 ->
  copied s r O fl U dst src n (with_mem s s1) /\ s1 = with_pipe pi p (with_mem s s1).
Proof.
  intros [Ho Es Hp Hb Hf]. split; [|by rewrite Es; destruct s].
  split; [|by destruct s|done..].
  eapply uvm_own_ext; [exact Ho|done|..]; by rewrite Es.
Qed.

(** [k] bytes have been delivered and [c] taken out of the pipe; they differ when the
    user's buffer could not be written, and then the byte is lost. *)
Definition received pi r O fl U s p (i addr n : Z) (j : Z) (s' : kst) : Prop :=
  exists k c p' s1, j = i + Z.of_nat k /\ (c <= length (pqueue p))%nat /\ pipe_wf p' /\
    pqueue p' = drop c (pqueue p) /\ pi_readopen p' = pi_readopen p /\ pi_writeopen p' = pi_writeopen p /\
    copied s r O fl U (addr + i) (pqueue p) (Z.of_nat k) s1 /\ s' = with_pipe pi p' s1 /\
    ((c = k /\ (n <= j \/ c = length (pqueue p))) \/
     (c = S k /\ j < n /\ uwritable (mem s) r (addr + j) = false)).

Lemma wp_piperead_loop pi me r O fl U addr n fuel : forall s p i,
  uvm_own s r O fl U -> writable_owned (mem s) r U -> p_pagetable (procat me s) = r ->
  pipes s !! pi = Some p -> pipe_wf p ->
  0 <= i -> Z.max 0 (n - i) < Z.of_nat fuel -> 0 <= addr -> addr + n <= 2 ^ 64 - PGSIZE ->
  wp (piperead_loop pi me addr n i fuel) (received pi r O fl U s p i addr n) s.
Proof.
  induction fuel as [|fuel IH]; intros s p i Own Hwo Hpt Hp Hwf Hi Hf Ha Hmax; cbn [piperead_loop]; [lia|].
  assert (forall c, c = 0%nat /\ (n <= i \/ c = length (pqueue p)) -> received pi r O fl U s p i addr n i s) as Hstop.
  { intros c [-> H]. exists 0%nat, 0%nat, p, s. split_and!; [lia|lia|done|done|done|done| | |by left].
    - by apply copied_refl.
    - by rewrite with_pipe_id. }
  destruct (Z.ltb_spec i n) as [Hin|Hin]; [|apply wp_ret, (Hstop 0%nat); split; [done|by left]].
  wp_step. apply wp_get. rewrite (pipeat_some _ _ _ Hp), (pipe_empty_spec p Hwf).
  pose proof (length_pqueue p) as Hlen.
  destruct (Z.eqb_spec (pipe_len p) 0) as [E0|E0].
  { apply wp_ret, (Hstop 0%nat). split; [done|]. right. lia. }
  pose proof (pipe_len_nonneg p).
  destruct (pipe_take_spec p Hwf ltac:(lia)) as [Hwf1 Hq].
  wp_step. apply wp_get. rewrite (pipeat_some _ _ _ Hp). wp_step. apply wp_upd.
  rewrite (pipeat_some _ _ _ Hp). change (set_pipes _ s) with (with_pipe pi (pipe_take p) s).
  wp_step. apply wp_get. change (procat me (with_pipe pi (pipe_take p) s)) with (procat me s). rewrite Hpt.
  wp_step. rewrite u64_small by lia. eapply wp_mono.
  { eapply (wp_copyout (with_pipe pi (pipe_take p) s) r O fl U); [by eapply uvm_own_ext|done|lia|cbn [length]; lia]. }
  intros res s1 [(-> & Hwr & Hcp)|(-> & m & Hm & Hnw & Hcp)]; cbn [Z.eqb length] in *.
  - apply copied_with_pipe in Hcp as [Hcp Es1]. set (s2 := with_mem s s1) in *. rewrite Es1.
    assert (copied s r O fl U (addr + i) (pqueue p) 1 s2) as Hcp1.
    { destruct Hcp as [C1 C2 C3 C4 C5]. split; [done|done|done| |done].
      intros vb Hvb. rewrite C4 by done. change (Z.of_nat 1) with 1. case_decide; [|done].
      replace (Z.to_nat (vb - (addr + i))) with 0%nat by lia. by rewrite Hq. }
    eapply wp_mono.
    { eapply (IH (with_pipe pi (pipe_take p) s2) (pipe_take p) (i + 1)); try done.
      - eapply uvm_own_ext; [apply (cp_own _ _ _ _ _ _ _ _ _ Hcp)|done..].
      - intros va Hva. rewrite (uwritable_ext s s2 r (cp_pte _ _ _ _ _ _ _ _ _ Hcp)). by apply Hwo.
      - apply lookup_insert_eq.
      - lia.
      - lia. }
    intros j s' (k & c & p' & s3 & -> & Hc & Hwf' & Hq' & Hro & Hwo' & Hcp3 & -> & Hd).
    apply copied_with_pipe in Hcp3 as [Hcp3 Es3]. set (s4 := with_mem s2 s3) in *.
    exists (S k), (S c), p', s4. rewrite Hq. cbn [length drop]. split_and!; [lia|lia|done|done|done|done| | |].
    + replace (Z.of_nat (S k)) with (1 + Z.of_nat k) by lia.
      eapply copied_step; [rewrite Hq in Hlen; cbn [length]; lia|lia| |by rewrite <- Hq|].
      * rewrite Hq in Hlen. cbn [length] in *. destruct Hd as [[-> _]|[-> _]]; lia.
      * by replace (addr + i + 1) with (addr + (i + 1)) by lia.
    + rewrite Es3. apply with_pipe_twice.
    + destruct Hd as [[-> Hd]|(-> & Hj & Hnw)]; [left|right]; (split; [done|]).
      * destruct Hd as [Hd| ->]; [left; lia|by right].
      * split; [lia|]. rewrite <- (uwritable_ext s s2 r (cp_pte _ _ _ _ _ _ _ _ _ Hcp)). done.
  - assert (m = 0) as -> by lia. apply copied_with_pipe in Hcp as [Hcp Es1]. apply wp_ret.
    exists 0%nat, 1%nat, (pipe_take p), (with_mem s s1). rewrite Hq. cbn [length drop].
    split_and!; [lia|lia|done|done|done|done| |done|right; split; [done|]].
    + destruct Hcp as [C1 C2 C3 C4 C5]. split; [done|done|done| |done].
      intros vb Hvb. rewrite C4 by done. by rewrite !decide_False by lia.
    + split; [lia|]. by replace (addr + i) with (addr + i + 0) by lia.
Qed.

Lemma copied_held h s r O fl U dst src n s1 :
  LkKmem ∉ held s -> copied (set_held h s) r O fl U dst src n s1 ->
  copied s r O fl U dst src n (with_mem s s1) /\ s1 = set_held h (with_mem s s1).
Proof.
  intros Hk [Ho Es Hp Hb Hf]. split; [|by rewrite Es; destruct s].
  split; [|by destruct s|done..].
  destruct Ho as [[Hw [K1 K2 K3 _] Hd] Hva Hfr Hpte Hinj].
  split; [split; [done|split; [|done..]|done]|done..]. by rewrite Es in K1.
Qed.

Definition piperead_post pi me r O fl U addr n s p (ret : Z) (s' : kst) : Prop :=
  (ret = -1 /\ pqueue p = [] /\ pi_writeopen p = true /\ p_killed (procat me s) = true /\ s' = s) \/
  ((pqueue p <> [] \/ pi_writeopen p = false) /\
   exists s1, received pi r O fl U s p 0 addr n ret s1 /\ s' = woke (ChPipeWrite pi) s1).

Definition piperead_sleeps pi me s p (ch : chan) (s' : kst) : Prop :=
  pqueue p = [] /\ pi_writeopen p = true /\ ch = ChPipeRead pi /\ s' = asleep me ch s.

Lemma pqueue_nil p : pipe_wf p -> pqueue p = [] <-> pipe_len p = 0.
Proof. intros _. pose proof (length_pqueue p). destruct (pqueue p); cbn [length] in *; split; done || lia. Qed.

Lemma wps_piperead pi me r O fl U addr n s p :
  cur s = Some me -> (me < length (procs s))%nat -> p_pagetable (procat me s) = r ->
  uvm_own s r O fl U -> writable_owned (mem s) r U ->
  held s = [] -> pipes s !! pi = Some p -> pipe_wf p ->
  0 <= addr -> addr + n <= 2 ^ 64 - PGSIZE ->
  wps (piperead pi addr n) (piperead_post pi me r O fl U addr n s p) (piperead_sleeps pi me s p) s.
Proof.
  intros Hc Hme Hpt Own Hwo Hh Hp Hwf Ha Hmax. unfold piperead.
  wp_step. eapply wp_myproc_; [done|]. wp_step. apply wp_acquire; [rewrite Hh; set_solver|]. rewrite Hh.
  set (s0 := set_held [LkPipe pi] s).
  assert (set_held [] s = s) as Eid by (destruct s; cbn in Hh; by subst).
  apply wps_bind. unfold piperead_wait. wp_step. apply wp_get.
  rewrite (pipeat_some _ p s0 Hp), (pipe_empty_spec p Hwf).
  pose proof (pqueue_nil p Hwf) as Hnil.
  destruct ((pipe_len p =? 0) && pi_writeopen p) eqn:Ew.
  - apply andb_true_iff in Ew as [E0%Z.eqb_eq Ewo]. wp_step. apply wp_killed; [set_solver|].
    change (procat me s0) with (procat me s). destruct (p_killed (procat me s)) eqn:Ek.
    + apply wps_wp. wp_step. eapply wp_release; [done|set_solver|]. apply wp_ret. apply wps_wp, wp_ret.
      left. split; [done|]. split; [by apply Hnil|]. split; [done|]. split; [done|]. exact Eid.
    + apply wps_bind. eapply (wps_sleep _ _ s0); [done|done|done|done|].
      split; [by apply Hnil|]. split; [done|]. split; [done|]. unfold asleep, s0. by destruct s.
  - apply wps_wp, wp_ret. apply wps_wp. wp_step.
    assert (LkKmem ∉ held s) as Hk by (rewrite Hh; set_solver).
    assert (uvm_own s0 r O fl U) as Own0.
    { destruct Own as [[Hw [K1 K2 K3 _] Hd] Hva Hfr Hpte Hinj].
      split; [split; [done|split; [done|done|done|cbn; set_solver]|done]|done..]. }
    eapply wp_mono.
    { eapply (wp_piperead_loop pi me r O fl U addr n _ s0 p 0); try done; lia. }
    intros j s1 (k & c & p' & s2 & Ej & Hcl & Hwf' & Hq & Hro & Hwo' & Hcp & -> & Hd).
    apply copied_held in Hcp as [Hcp Es2]; [|done]. wp_step.
    apply wp_wakeup; [intros j' _; rewrite Es2; cbn; set_solver|]. wp_step.
    eapply wp_release; [by rewrite Es2|set_solver|]. apply wp_ret. right. split.
    { rewrite Hnil. destruct (Z.eqb_spec (pipe_len p) 0); [right|left; done]. by destruct (pi_writeopen p). }
    exists (with_pipe pi p' (with_mem s s2)). split.
    + exists k, c, p', (with_mem s s2). by split_and!.
    + rewrite Es2. unfold woke, with_pipe, with_mem. cbn. destruct s. cbn in Hh. by subst.
Qed.
End PipeSpec.

Section Thms.
Context {L : Linker} {LOk : LinkerOk L}.

(** C28: [pipewrite] is the append operation of a queue of at most 512 bytes, through
    32-bit counters that wrap.  It appends the writer's bytes in order, up to the first
    that cannot be read, and returns how many; when the queue is full it wakes the
    readers and goes to sleep; when the read end is closed or the process has been
    killed it gives up with -1.  It neither panics nor spins, and changes nothing
    else. *)
Theorem pipewrite_correct pi me r O addr n s p :
  runs_as s me r O -> held s = [] -> pipes s !! pi = Some p -> pipe_wf p ->
  0 <= addr -> addr + n <= 2 ^ 64 - PGSIZE ->
  wps (pipewrite pi addr n) (pipewrite_post pi me r addr n s p) (pipewrite_sleeps pi me r addr n s p) s.
Proof. apply wps_pipewrite. Qed.

(** C29: [piperead] takes bytes from the front of the queue and stores them at the
    reader's address.  It sleeps only while the queue is empty and the write end open,
    returns 0 at the end of the data, and otherwise returns at most [n] bytes: all
    there are, or as many as fit, or as many as could be stored, in which case the next
    byte is lost. *)
Theorem piperead_correct pi me r O fl U addr n s p :
  cur s = Some me -> (me < length (procs s))%nat -> p_pagetable (procat me s) = r ->
  uvm_own s r O fl U -> writable_owned (mem s) r U ->
  held s = [] -> pipes s !! pi = Some p -> pipe_wf p ->
  0 <= addr -> addr + n <= 2 ^ 64 - PGSIZE ->
  wps (piperead pi addr n) (piperead_post pi me r O fl U addr n s p) (piperead_sleeps pi me s p) s.
Proof. apply wps_piperead. Qed.
End Thms.

(** ** A process with one page of memory and a pipe about to wrap around *)

Definition demo_pipe : pipe :=
  Pipe (replicate 512 7) (2 ^ 32 - 2) 1 true true.
Definition pipe_procs : list proc := set_p_pagetable (pg 0) proc0 :: replicate 63 proc0.
Definition pipe_machine : kst :=
  set_cur (Some 0%nat) (set_procs pipe_procs (set_pipes {[ pg 9 := demo_pipe ]} ram_machine)).

Lemma demo_pipe_wf : pipe_wf demo_pipe.
Proof. split; by vm_compute. Qed.

Lemma pipe_machine_runs : runs_as pipe_machine 0 (pg 0) ram_tables.
Proof. split; [done|cbn; lia|done|apply ram_wf|apply ram_no_zero_page]. Qed.

Lemma pipe_machine_pipe : pipes pipe_machine !! pg 9 = Some demo_pipe.
Proof. apply lookup_singleton_eq. Qed.

Lemma pipewrite_correct_witness :
  wps (pipewrite (pg 9) 16 600) (pipewrite_post (pg 9) 0 (pg 0) 16 600 pipe_machine demo_pipe)
      (pipewrite_sleeps (pg 9) 0 (pg 0) 16 600 pipe_machine demo_pipe) pipe_machine.
Proof.
  apply (pipewrite_correct (pg 9) 0 (pg 0) ram_tables 16 600 pipe_machine demo_pipe);
    [apply pipe_machine_runs|reflexivity|apply pipe_machine_pipe|apply demo_pipe_wf|lia|lia].
Defined.

Lemma piperead_correct_witness :
  wps (piperead (pg 9) 16 2)
      (piperead_post (pg 9) 0 (pg 0) ram_tables ram_free ram_frames 16 2 pipe_machine demo_pipe)
      (piperead_sleeps (pg 9) 0 pipe_machine demo_pipe) pipe_machine.
Proof.
  apply (piperead_correct (pg 9) 0 (pg 0) ram_tables ram_free ram_frames 16 2 pipe_machine demo_pipe);
    [reflexivity|apply Nat.ltb_lt; reflexivity|reflexivity| |apply ram_writable_owned|reflexivity
    |apply pipe_machine_pipe|apply demo_pipe_wf|lia|lia].
  eapply uvm_own_ext; [apply ram_uvm|reflexivity|reflexivity|reflexivity].
Defined.
