(* ===== verification/MemThms.v ===== *)
(** The theorems about physical and virtual memory: [kalloc.c], the page tables of
    [vm.c] and the copies between kernel and user memory. *)
From S2P Require Import Prelude Types Riscv Str Kalloc Vm PtRep PtOps Uvm Grow Uvmfree Copy Concrete.

Section Memory.
Context {L : Linker} {LOk : LinkerOk L}.
Implicit Types (O : gmap Z role) (U : gmap Z Z) (fl src : list Z) (r p : Z).

(** ** The page allocator *)

(** [kinit] puts every page between the end of the kernel and [PHYSTOP] on
    the free list, each once, and nothing else; only memory and the list head
    change. *)
Theorem kinit_frees_all_pages s :
  freelist s = 0 -> LkKmem ∉ held s ->
  wp kinit (fun _ s' => only_mem s s' /\
    exists fl, kmem_inv s' fl /\ forall p, p ∈ fl <-> page_ok p) s.
Proof. apply wp_kinit. Qed.

(** [kalloc] returns the first free page filled with 5s and takes it off the
    list, or 0 with nothing changed when the list is empty; no other byte of
    memory changes. *)
Theorem kalloc_correct s fl :
  kmem_inv s fl ->
  wp kalloc (fun p s' =>
    match fl with
    | [] => p = 0 /\ s' = s
    | q :: fl' => p = q /\ only_mem s s' /\ kmem_inv s' fl' /\
        forall x, mget (mem s') x = if decide (in_page p x) then 5 else mget (mem s) x
    end) s.
Proof.
  intros K. destruct fl as [|q fl']; [by apply wp_kalloc_empty|].
  eapply wp_kalloc; [done|]. auto.
Qed.

(** [kfree] puts an allocated page back at the head of the list and changes no
    other page; on an address that is not a page it may free, it panics. *)
Theorem kfree_correct s p fl :
  kmem_inv s fl ->
  (page_ok p -> p ∉ fl ->
   wp (kfree p) (fun _ s' => only_mem s s' /\ kmem_inv s' (p :: fl) /\
     forall x, ~ in_page p x -> mget (mem s') x = mget (mem s) x) s) /\
  (~ page_ok p -> kfree p s = Panic "kfree").
Proof.
  intros K. split.
  - intros Hp Hn. eapply wp_kfree; eauto.
  - intros Hp. unfold kfree. destruct (Z.eqb_spec (p mod PGSIZE) 0); [|done].
    destruct (Z.ltb_spec p k_end); [done|]. destruct (Z.leb_spec PHYSTOP p); [done|].
    destruct Hp. split; [done|lia].
Qed.

(** ** Page tables *)

(** [mappages] on an unmapped range installs exactly the leaves of that range:
    afterwards the walk of every address in it gives the entry for its physical
    page with the permissions asked for, and every other address walks as before.
    It fails only when the free list ran out, and then a prefix of whole pages is
    mapped. *)
Theorem mappages_correct s r O fl va size pa perm :
  pt_own s r O fl ->
  va mod PGSIZE = 0 -> 0 <= va -> size mod PGSIZE = 0 -> 0 < size -> va + size <= MAXVA ->
  pa mod PGSIZE = 0 -> 0 <= pa -> pa + size <= 2 ^ 54 -> 0 <= perm < 1024 ->
  (forall vb, va <= vb < va + size -> has (pte_at (mem s) r vb) PTE_V = false) ->
  wp (mappages r va size pa perm) (map_post s r O fl va size pa perm) s.
Proof. apply wp_mappages. Qed.

(** [uvmalloc] grows an address space from [oldsz] to [newsz]: every new page
    gets its own zeroed frame from the free list with the permissions asked for,
    and nothing else of the address space changes; when memory runs out it
    returns 0 with the address space and all frames as they were. *)
Theorem uvmalloc_correct s r O fl U oldsz newsz xperm :
  let lo := PGROUNDUP oldsz in let hi := PGROUNDUP newsz in
  uvm_own s r O fl U -> 0 <= oldsz <= newsz -> newsz <= MAXVA -> 0 <= xperm < 1024 ->
  (forall va, lo <= va < hi -> U !! va = None) ->
  (forall vb, lo <= vb < hi -> pte_at (mem s) r vb = 0) ->
  wp (uvmalloc r oldsz newsz xperm) (alloc_post xperm lo hi newsz s r O fl U) s.
Proof. apply wp_uvmalloc. Qed.

(** [uvmdealloc] shrinks an address space: it unmaps exactly the pages between
    the two sizes, returns their frames to the free list and keeps the rest. *)
Theorem uvmdealloc_correct s r O fl U oldsz newsz :
  uvm_own s r O fl U -> 0 <= newsz < oldsz -> oldsz <= MAXVA ->
  (forall vb, PGROUNDUP newsz <= vb < PGROUNDUP oldsz -> vb mod PGSIZE = 0 -> is_Some (U !! vb)) ->
  wp (uvmdealloc r oldsz newsz)
    (fun res s' => res = newsz /\
       unmap_post s r O fl U (PGROUNDUP newsz) (PGROUNDUP oldsz - PGROUNDUP newsz) s') s.
Proof. apply wp_uvmdealloc. Qed.

(** C11: [uvmcopy] gives the child fresh frames with the parent's contents and
    permissions for every page below [sz] and leaves the parent untouched.  It returns -1
    only when memory ran out: there were no more free pages, those that became tables of
    the child aside, than pages to copy.  Then the child maps what it mapped before and every
    page that was to hold a copy is free again; page-table pages allocated on the way stay in
    the child's page table. *)
Theorem uvmcopy_correct s old O' U' r O fl U sz :
  let hi := PGROUNDUP sz in
  uvm_own s old O' fl U' -> uvm_own s r O fl U -> separate O' U' O U ->
  0 <= sz <= MAXVA ->
  (forall va, 0 <= va < hi -> va mod PGSIZE = 0 -> is_Some (U' !! va)) ->
  (forall va, 0 <= va < hi -> U !! va = None) ->
  (forall vb, 0 <= vb < hi -> pte_at (mem s) r vb = 0) ->
  wp (uvmcopy old r sz) (copy_post hi s old r O fl U) s.
Proof. apply wp_uvmcopy. Qed.

(** C19: [uvmfree] leaks nothing: afterwards the free list holds exactly the old free
    pages, the frames of the address space and all of its page-table pages. *)
Theorem uvmfree_correct s r O fl U sz :
  uvm_own s r O fl U -> 0 <= sz <= MAXVA ->
  (forall va, is_Some (U !! va) <-> 0 <= va < PGROUNDUP sz /\ va mod PGSIZE = 0) ->
  (forall vb, PGROUNDUP sz <= vb < MAXVA -> has (pte_at (mem s) r vb) PTE_V = false) ->
  wp (uvmfree r sz) (fun _ s' => exists fl', kmem_inv s' fl' /\ only_mem s s' /\
    (forall p, p ∈ fl' <-> p ∈ fl \/ is_Some (O !! p) \/ exists va, U !! va = Some p) /\
    (forall x, (forall p, p ∈ fl' -> ~ in_page p x) -> mget (mem s') x = mget (mem s) x)) s.
Proof. apply wp_uvmfree. Qed.

(** ** Copies *)

(** C27: [copyout] writes the bytes at the user's addresses and nothing else, and
    succeeds exactly when every page of the range is a writable user page;
    otherwise it returns -1 at the first address that is not, having written the
    bytes before it. *)
Theorem copyout_correct s r O fl U dstva src :
  uvm_own s r O fl U -> writable_owned (mem s) r U ->
  0 <= dstva -> dstva + Z.of_nat (length src) <= 2 ^ 64 - PGSIZE ->
  wp (copyout r dstva src) (copyout_post s r O fl U dstva src) s.
Proof. apply wp_copyout. Qed.

(** [copyinstr] returns the user's string with its NUL when there is one within
    [max] readable bytes, and -1 otherwise, whether because no NUL came in [max]
    bytes or because the string runs into an unmapped page. *)
Theorem copyinstr_correct s r O srcva max :
  pt_wf (mem s) r O -> no_zero_page (mem s) r ->
  0 <= srcva -> 0 <= max -> srcva + max <= 2 ^ 64 - PGSIZE ->
  wp (copyinstr r srcva max) (fun '(res, out) s' =>
    s' = s /\ copyinstr_post s r [] srcva max res out) s.
Proof. apply wp_copyinstr. Qed.

Lemma copied_no_zero s r O fl U dstva src n s' :
  copied s r O fl U dstva src n s' -> no_zero_page (mem s) r -> no_zero_page (mem s') r.
Proof.
  intros C Hz va H0. unfold ureadable. rewrite (cp_pte _ _ _ _ _ _ _ _ _ C).
  intros Hr. by apply Hz.
Qed.

Lemma copied_uread s r O fl U dstva src s' :
  copied s r O fl U dstva src (Z.of_nat (length src)) s' ->
  (forall vb, dstva <= vb < dstva + Z.of_nat (length src) -> is_Some (U !! PGROUNDDOWN vb)) ->
  uread (mem s') r dstva (length src) = src.
Proof.
  intros C HU. apply (nth_ext _ _ 0 0); rewrite length_uread; [done|].
  intros i Hi. rewrite uread_nth by done.
  rewrite (cp_byte _ _ _ _ _ _ _ _ _ C) by (apply HU; lia).
  rewrite decide_True by lia. f_equal. lia.
Qed.

(** what [copyout] wrote, [copyin] reads back: after a successful [copyout] of
    [src] to a user address, [copyin] of as many bytes from there succeeds with
    [src]. *)
Theorem copyout_copyin s r O fl U va src :
  uvm_own s r O fl U -> writable_owned (mem s) r U -> no_zero_page (mem s) r ->
  0 <= va -> va + Z.of_nat (length src) <= 2 ^ 64 - PGSIZE ->
  wp (let! res := copyout r va src in
      let! back := copyin r va (Z.of_nat (length src)) in ret (res, back))
     (fun '(res, (res', out)) _ => res = 0 -> res' = 0 /\ out = src) s.
Proof.
  intros Own Hw Hz H0 Hmax. wp_step. eapply wp_mono; [by eapply wp_copyout|].
  intros res s1 [(-> & Hwr & C)|(-> & n & Hn & _ & C)]; wp_step.
  - eapply wp_mono; [apply (wp_copyin s1 r O)|]; [apply C|by eapply copied_no_zero|done|lia|].
    intros [res' out] s2 [_ Hpost]. wp_step. intros _.
    destruct Hpost as [(-> & _ & ->)|(_ & k & Hk & Hrd & _)].
    + split; [done|]. rewrite Nat2Z.id. eapply copied_uread; [done|].
      intros vb Hvb. apply Hw; [lia|by apply Hwr].
    + specialize (Hwr (va + k) ltac:(lia)). unfold uwritable in Hwr.
      unfold ureadable in Hrd. rewrite (cp_pte _ _ _ _ _ _ _ _ _ C) in Hrd.
      unfold ureadable in Hwr. rewrite Hrd in Hwr. done.
  - eapply wp_mono; [apply (wp_copyin s1 r O)|]; [apply C|by eapply copied_no_zero|done|lia|].
    intros [res' out] s2 _. by wp_step.
Qed.

End Memory.

(** ** The theorems at a concrete machine *)

Lemma kinit_frees_all_pages_witness :
  wp kinit (fun _ s' => only_mem machine s' /\
    exists fl, kmem_inv s' fl /\ forall p, p ∈ fl <-> page_ok p) machine.
Proof. apply (kinit_frees_all_pages machine); [reflexivity|cbn; set_solver]. Defined.

Lemma kalloc_correct_witness :
  wp kalloc (fun p s' => p = pg 4 /\ kmem_inv s' [pg 5; pg 6; pg 7; pg 8; pg 9]) ram_machine.
Proof.
  eapply wp_mono; [apply (kalloc_correct ram_machine ram_free ram_kmem)|].
  cbv beta iota delta [ram_free]. intros p s' (Hp & _ & K & _). exact (conj Hp K).
Defined.

Lemma pg_ok i : 0 <= i < 1000 -> page_ok (pg i).
Proof.
  intros H. split; cbn [image k_end]; unfold pg; [|lia].
  change 0x80030000 with (0x80030 * 4096). rewrite <- Z.mul_add_distr_r. by apply Z.mod_mul.
Qed.

Lemma kfree_correct_witness :
  wp (kfree (pg 3)) (fun _ s' => kmem_inv s' (pg 3 :: ram_free)) ram_machine /\
  kfree (pg 3 + 8) ram_machine = Panic "kfree".
Proof.
  split.
  - eapply wp_mono; [apply (kfree_correct ram_machine (pg 3) ram_free ram_kmem)|].
    + apply pg_ok. lia.
    + apply (bool_decide_unpack _). vm_compute. reflexivity.
    + cbv beta. intros _ s' (_ & K & _). exact K.
  - apply (kfree_correct ram_machine (pg 3 + 8) ram_free ram_kmem). intros [H _].
    vm_compute in H. discriminate.
Defined.

Lemma mappages_correct_witness :
  wp (mappages (pg 0) 4096 8192 0x80100000 (Z.lor PTE_R PTE_W))
     (map_post ram_machine (pg 0) ram_tables ram_free 4096 8192 0x80100000 (Z.lor PTE_R PTE_W))
     ram_machine.
Proof.
  apply (mappages_correct ram_machine (pg 0) ram_tables ram_free 4096 8192 0x80100000 (Z.lor PTE_R PTE_W));
    [apply ram_own|reflexivity|lia|reflexivity|lia|lia|reflexivity|lia|lia|vm_compute; split; congruence|].
  intros vb H. change (mem ram_machine) with ram. rewrite ram_pte_out by lia. apply has_0.
Defined.

Lemma uvmalloc_correct_witness :
  wp (uvmalloc (pg 0) 100 5000 PTE_W)
     (alloc_post PTE_W 4096 8192 5000 ram_machine (pg 0) ram_tables ram_free ram_frames) ram_machine.
Proof.
  apply (uvmalloc_correct ram_machine (pg 0) ram_tables ram_free ram_frames 100 5000 PTE_W);
    [apply ram_uvm|lia|lia|lia| |].
  - intros va H. change (4096 <= va < 8192) in H. destruct (ram_frames !! va) eqn:E; [|reflexivity].
    apply ram_frame in E. lia.
  - intros vb H. change (4096 <= vb < 8192) in H. change (mem ram_machine) with ram.
    apply ram_pte_out. lia.
Defined.

Lemma ram_frames0 va : is_Some (ram_frames !! va) <-> va = 0.
Proof.
  split; [intros [p H]; by apply ram_frame in H as [? _]|intros ->]. exists (pg 3). by vm_compute.
Qed.

Lemma page_zero va n : 0 < n <= 4096 -> 0 <= va < PGROUNDUP n -> va mod PGSIZE = 0 -> va = 0.
Proof.
  intros Hn. rewrite PGROUNDUP_eq by lia. intros. Z.div_mod_to_equations. lia.
Qed.

Lemma uvmdealloc_correct_witness :
  wp (uvmdealloc (pg 0) 4096 0)
    (fun res s' => res = 0 /\
       unmap_post ram_machine (pg 0) ram_tables ram_free ram_frames 0 4096 s') ram_machine.
Proof.
  apply (uvmdealloc_correct ram_machine (pg 0) ram_tables ram_free ram_frames 4096 0);
    [apply ram_uvm|lia|lia|].
  intros vb H1 H2. apply ram_frames0. apply (page_zero vb 4096); [lia|exact H1|exact H2].
Defined.

Lemma uvmcopy_correct_witness :
  wp (uvmcopy (pg 0) (pg 10) 4000)
     (copy_post 4096 ram_machine (pg 0) (pg 10) child_tables ram_free ∅) ram_machine.
Proof.
  apply (uvmcopy_correct ram_machine (pg 0) ram_tables ram_frames (pg 10) child_tables ram_free ∅ 4000);
    [apply ram_uvm|apply child_uvm|apply child_separate|lia| | |].
  - intros va H1 H2. apply ram_frames0. apply (page_zero va 4000); [lia|exact H1|exact H2].
  - intros va _. apply lookup_empty.
  - intros vb _. apply child_pte.
Defined.

Lemma uvmfree_correct_witness :
  wp (uvmfree (pg 0) 4000) (fun _ s' => exists fl', kmem_inv s' fl' /\ pg 0 ∈ fl' /\ pg 3 ∈ fl')
    ram_machine.
Proof.
  eapply wp_mono;
    [apply (uvmfree_correct ram_machine (pg 0) ram_tables ram_free ram_frames 4000)|].
  - apply ram_uvm.
  - lia.
  - intros va. rewrite ram_frames0. split.
    + intros ->. split; [vm_compute; split; congruence|reflexivity].
    + intros [H1 H2]. apply (page_zero va 4000); [lia|exact H1|exact H2].
  - intros vb H. change (4096 <= vb < MAXVA) in H. change (mem ram_machine) with ram.
    rewrite ram_pte_out by lia. apply has_0.
  - intros _ s' (fl' & K & _ & Hfl & _). exists fl'. split; [exact K|]. split; apply Hfl; right.
    + left. exists Root. apply ram_lookup.
    + right. exists 0. vm_compute. reflexivity.
Defined.

Lemma copyout_correct_witness :
  wp (copyout (pg 0) 4090 [1; 2; 3; 4; 5; 6; 7; 8])
     (copyout_post ram_machine (pg 0) ram_tables ram_free ram_frames 4090 [1; 2; 3; 4; 5; 6; 7; 8])
     ram_machine.
Proof.
  apply (copyout_correct ram_machine (pg 0) ram_tables ram_free ram_frames 4090
           [1; 2; 3; 4; 5; 6; 7; 8]);
    [apply ram_uvm|apply ram_writable_owned|lia|cbn; lia].
Defined.

Lemma copyinstr_correct_witness :
  wp (copyinstr (pg 0) 0 16) (fun '(res, out) s' =>
    s' = ram_machine /\ copyinstr_post ram_machine (pg 0) [] 0 16 res out) ram_machine.
Proof.
  apply (copyinstr_correct ram_machine (pg 0) ram_tables 0 16);
    [apply ram_wf|apply ram_no_zero_page|lia|lia|lia].
Defined.

Lemma copyout_copyin_witness :
  wp (let! res := copyout (pg 0) 100 [7; 8; 9] in
      let! back := copyin (pg 0) 100 3 in ret (res, back))
     (fun '(res, (res', out)) _ => res = 0 -> res' = 0 /\ out = [7; 8; 9]) ram_machine.
Proof.
  apply (copyout_copyin ram_machine (pg 0) ram_tables ram_free ram_frames 100 [7; 8; 9]);
    [apply ram_uvm|apply ram_writable_owned|apply ram_no_zero_page|lia|cbn; lia].
Defined.
