(* ===== verification/LogThms.v ===== *)
(** The theorems about the buffer cache and the log: what a transaction does to the
    disk, and what a crash in the middle of it leaves. *)
From S2P Require Import Prelude Types Str Kalloc Vm Sched Sleeplock Bio BioSess.
From S2P Require Import Log LogSpec Crash LogOps Concrete.

Section LogThms.
Context {L : Linker}.
Implicit Types (P blocks : list Z) (K : list (nat * Z)).

(** C1: [commit] is atomic with respect to crashes.  It returns, having appended some
    writes to the disk; after every prefix [pre] of those writes, recovery turns
    the disk into either the state before the transaction or the state the
    transaction's system calls see, on every block outside the log. *)
Theorem commit_atomic s me blocks :
  let st := l_start (log s) in let size := l_size (log s) in
  txn (log s) blocks -> blocks <> [] -> bsess s me blocks [] ->
  hdr_n (dget (disk s) st) = 0 ->
  wp commit (fun _ s' => exists ws,
    dwrites s' = dwrites s ++ ws /\ disk s' = apply_writes (disk s) ws /\
    same_outside st size (dget (disk s')) (bcontent s) /\
    forall pre, pre `prefix_of` ws ->
      let d := apply_writes (disk s) pre in
      same_outside st size (dget (recovered st d)) (dget (disk s)) \/
      same_outside st size (dget (recovered st d)) (bcontent s)) s.
Proof.
  intros st size T Hne B H0. eapply wp_commit; [done|done|done|].
  intros s' [_ _ W D] L' B' C'. exists (commit_writes s blocks). split_and!; [exact W|exact D| |].
  - intros b Hb. rewrite <- (C' b Hb). symmetry.
    eapply sess_clean; [done|set_solver|set_solver].
  - intros pre Hp. by eapply commit_crash.
Qed.

(** C3: [recover_from_log] returns on every well-formed log, its writes turn the disk
    into [recovered], which redoes the logged blocks and empties the log, and no
    buffer is left locked or pinned. *)
Theorem recover_correct s me :
  let l := log s in let st := l_start l in
  bsess s me [] [] -> log_wf st (l_size l) (disk s) -> l_dev l = ROOTDEV -> 0 <= st ->
  st + l_size l < 2 ^ 31 -> length (l_block l) = 30%nat ->
  wp recover_from_log (fun _ s' =>
    disk s' = recovered st (disk s) /\ dwrites s' = dwrites s ++ recovery st (disk s) /\
    bsess s' me [] [] /\ l_n (log s') = 0) s.
Proof.
  intros l st B W Hd Hs He Hl. eapply wp_recover; [done..|].
  intros s' [_ _ Ww D] B' Hn _ _ _ _ _ _. done.
Qed.

(** C24: recovery can itself be interrupted.  [recover_from_log] returns, having appended
    some writes to the disk; if the machine stops after any prefix [pre] of them and
    [recover_from_log] is run on what is then on the disk, it returns too, with an empty log
    and the disk that the complete run gives, outside the log. *)
Theorem recovery_idempotent s me :
  let l := log s in let st := l_start l in
  bsess s me [] [] -> log_wf st (l_size l) (disk s) -> l_dev l = ROOTDEV -> 0 <= st ->
  st + l_size l < 2 ^ 31 -> length (l_block l) = 30%nat ->
  wp recover_from_log (fun _ s1 => exists ws,
    dwrites s1 = dwrites s ++ ws /\ disk s1 = apply_writes (disk s) ws /\
    forall pre s2 me2, pre `prefix_of` ws -> disk s2 = apply_writes (disk s) pre ->
      bsess s2 me2 [] [] -> l_start (log s2) = st -> l_size (log s2) = l_size l ->
      l_dev (log s2) = ROOTDEV -> length (l_block (log s2)) = 30%nat ->
      wp recover_from_log (fun _ s3 =>
        same_outside st (l_size l) (dget (disk s3)) (dget (disk s1)) /\
        hdr_n (dget (disk s3) st) = 0 /\ l_n (log s3) = 0) s2) s.
Proof.
  intros l st B W Hd Hs He Hl. eapply wp_recover; [done..|].
  intros s1 [_ _ Ww D] _ _ _ _ _ _ _ _. exists (recovery st (disk s)). split_and!; [exact Ww|exact D|].
  intros pre s2 me2 Hp D2 B2 Es Ez Ed El.
  assert (Hh : length (dget (disk s) st) = 1024%nat) by apply (bi_disk _ (bs_inv _ _ _ _ B)).
  assert (Hh2 : length (dget (disk s2) st) = 1024%nat) by apply (bi_disk _ (bs_inv _ _ _ _ B2)).
  pose proof (log_wf_prefix _ _ _ _ W Hh Hp) as W2. rewrite <- D2 in W2.
  destruct (log_wf_committed _ _ _ W Hh) as [C Cm].
  eapply (wp_recover s2 me2); rewrite ?Es, ?Ez; [done..|].
  intros s3 [_ _ _ D3] _ Hn _ _ _ _ _ _. change (disk s3 = recovered st (disk s2)) in D3.
  change (disk s1 = recovered st (disk s)) in D. rewrite D3, D. split_and!; [|by apply recovered_head|done].
  rewrite D2. by eapply recovery_restart.
Qed.

(** [log_write] adds the buffer's block to the transaction, or absorbs it when it is
    there already; the buffer is pinned exactly once, and no block's contents
    change. *)
Theorem log_write_correct s me P K i b :
  let l := log s in
  bsess s me P K -> (i, b) ∈ K -> txn l P -> LkLog ∉ held s ->
  1 <= l_outstanding l -> l_size l <= 30 -> length (l_block l) = 30%nat ->
  Z.of_nat (length P) < l_size l - 1 ->
  0 <= b < 2 ^ 31 -> ~ (l_start l <= b < l_start l + l_size l) ->
  wp (log_write i) (fun _ s' =>
    bsess s' me (logged P b) K /\ txn (log s') (logged P b) /\ same_log l (log s') /\
    disk s' = disk s /\ dwrites s' = dwrites s /\
    forall b', bcontent s' b' = bcontent s b') s.
Proof.
  intros l B Hin T Hlk Ho Hsz Hlb Hcap Hb Hout. eapply wp_log_write; [done..|].
  intros s' E B' T' G C' _. rewrite E. split_and!; try done; by rewrite E in *.
Qed.

(** C25: the [end_op] of the last system call of a transaction commits it: it returns
    with every block outside the log on the disk as the system calls left it, and with the
    log empty, in memory and, by the header block, on the disk.  If no block was logged the
    disk is not touched. *)
Theorem end_op_commits s me blocks :
  let l := log s in
  bsess s me blocks [] -> txn l blocks -> held s = [] ->
  l_committing l = false -> l_outstanding l = 1 ->
  wp end_op (fun _ s' =>
    bsess s' me [] [] /\ log s' = set_l_n 0 (set_l_outstanding 0 l) /\ held s' = [] /\
    same_outside (l_start l) (l_size l) (dget (disk s')) (bcontent s) /\
    if decide (blocks = []) then disk s' = disk s else hdr_n (dget (disk s') (l_start l)) = 0) s.
Proof.
  intros l B T Hh Hc Ho. eapply wp_end_op_commit; [done..|].
  intros s' B' L' H' _ _ S' _ D'. split_and!; [done..|]. case_decide; [done|].
  rewrite D'. by eapply commit_clears.
Qed.

(** [begin_op] admits a system call exactly when no commit is running and the
    log has room for the worst case of all admitted calls; otherwise the process
    sleeps on the log, and nothing but its own sleep state changes. *)
Theorem begin_op_admission s me :
  running s me -> held s = [] ->
  if may_begin (log s)
  then begin_op s = Ok tt (set_log (set_l_outstanding (l_outstanding (log s) + 1) (log s)) s)
  else begin_op s = Sleep ChLog (asleep me ChLog s).
Proof.
  intros R Hh.
  pose proof (wps_begin_op s me
    (fun _ s' => may_begin (log s) = true /\
       s' = set_log (set_l_outstanding (l_outstanding (log s) + 1) (log s)) s)
    (fun c s' => may_begin (log s) = false /\ c = ChLog /\ s' = asleep me ChLog s) R Hh) as H.
  unfold wps in H. destruct (may_begin (log s)).
  - specialize (H (conj eq_refl eq_refl)). destruct (begin_op s) as [[] ?| | |]; try done.
    + by destruct H as [_ ->].
    + by destruct H.
  - specialize (H (conj eq_refl (conj eq_refl eq_refl))).
    destruct (begin_op s); try done; [by destruct H|]. by destruct H as (_ & -> & ->).
Qed.

(** ** The buffer cache *)

(** [bread] returns a locked buffer with the block's current contents, be it
    cached, recycled or read from the disk, and changes no block's contents. *)
Theorem bread_correct s me P K b :
  bsess s me P K -> b ∉ K.*2 -> (b ∈ P \/ (length P + length K < NBUF)%nat) ->
  wp (bread ROOTDEV b) (fun i s' =>
    s' = set_bufs (bufs s') s /\ bsess s' me P ((i, b) :: K) /\
    b_data (bufat i s') = bcontent s b /\
    forall b', bcontent s' b' = bcontent s b') s.
Proof. intros B HK Hav. eapply wp_sbread; [done..|]. auto. Qed.

(** [brelse] of a clean or pinned buffer gives up the lock and the reference, and
    no block's contents change, however the buffer is recycled later. *)
Theorem brelse_correct s me P K i b :
  bsess s me P K -> (i, b) ∈ K -> (b ∈ P \/ b_data (bufat i s) = dget (disk s) b) ->
  wp (brelse i) (fun _ s' =>
    bsess s' me P (drop_buf i K) /\ disk s' = disk s /\
    forall b', bcontent s' b' = bcontent s b') s.
Proof.
  intros B Hin Hc. eapply wp_sbrelse; [done..|]. intros s' E _ B' C' _.
  split_and!; [done|by rewrite E|done].
Qed.

(** ** Reservations *)

(** A run that ends in a panic after a part that returns. *)
Lemma wp_then {A B} (c : M A) (f : A -> M B) Q r s :
  wp c Q s -> (forall a s', Q a s' -> f a s' = r) -> bind c f s = r.
Proof. unfold wp, bind. intros H Hf. destruct (c s); try done. by apply Hf. Qed.

Lemma wp_admitted s me P p : bsess s me P [] -> (p < length (procs s))%nat -> may_begin (log s) = true ->
  wp (by_proc p begin_op) (fun _ s' =>
    s' = set_log (set_l_outstanding (l_outstanding (log s) + 1) (log s)) (set_cur (Some p) s)) s.
Proof.
  intros B Hp Hm. pose proof (bsess_cur s me P p B Hp) as B1. unfold by_proc, wp, bind, upd.
  pose proof (begin_op_admission _ p (bs_run _ _ _ _ B1) (bs_locks _ _ _ _ B1)) as H.
  change (log (set_cur (Some p) s)) with (log s) in H. rewrite Hm in H. by rewrite H.
Qed.

Lemma wp_by_proc {A} p (c : M A) Q s : wp c Q (set_cur (Some p) s) -> wp (by_proc p c) Q s.
Proof. done. Qed.

(** A call's blocks, in a transaction that has room for them. *)
Lemma wp_call_blocks s q p P bs : in_txn s q P -> (p < length (procs s))%nat ->
  Z.of_nat (length P + length bs) < l_size (log s) -> NoDup (P ++ bs) ->
  (forall b, b ∈ bs -> 0 <= b < 2 ^ 31 /\ ~ (l_start (log s) <= b < l_start (log s) + l_size (log s))) ->
  wp (by_proc p (log_blocks bs)) (fun _ s' => in_txn s' p (P ++ bs) /\ same_log (log s) (log s') /\
    length (procs s') = length (procs s)) s.
Proof. intros T Hp Hz Hn Hb. apply wp_by_proc, (wp_log_blocks bs _ p P); try done. by eapply in_txn_cur. Qed.

(** A call with one block more than there is room for. *)
Lemma call_blocks_full s q p P bs : in_txn s q P -> (p < length (procs s))%nat ->
  Z.of_nat (length P + length bs) = l_size (log s) -> bs <> [] -> NoDup (P ++ bs) ->
  (forall b, b ∈ bs -> 0 <= b < 2 ^ 31 /\ ~ (l_start (log s) <= b < l_start (log s) + l_size (log s))) ->
  by_proc p (log_blocks bs) s = Panic "too big a transaction".
Proof.
  intros T Hp Hz Hne Hn Hb. destruct bs as [|b bs _] using rev_ind; [done|].
  rewrite length_app in Hz. cbn in Hz. unfold by_proc, bind, upd. rewrite log_blocks_app.
  rewrite app_assoc in Hn. apply NoDup_app in Hn as (Hn & _).
  eapply (wp_then _ _ (fun _ s' => in_txn s' p (P ++ bs) /\ same_log (log s) (log s'))).
  - apply (wp_log_blocks bs _ p P); [by eapply in_txn_cur|cbn; lia|done| |].
    + intros b' Hb'. apply Hb. rewrite elem_of_app. by left.
    + intros s' T' G' _. exact (conj T' G').
  - cbn beta. intros [] s' [T' [_ Gz _ _ _ _]]. cbn [log_blocks]. unfold bind.
    pose proof (it_size _ _ _ T'). rewrite (log_block_full s' p (P ++ bs) b T'); [done|..];
      rewrite length_app; cbn in *; lia.
Qed.

(** C33: the log [mkfs] lays out is one block too small for what [begin_op] promises.  Three
    system calls are admitted; each logs [MAXOPBLOCKS] blocks, as every call may, all of them
    distinct; and the last [log_write] of the third panics. *)
Theorem reservations_gap s p1 p2 p3 bs1 bs2 bs3 :
  let l := log s in
  bsess s p1 [] [] -> (p2 < length (procs s))%nat -> (p3 < length (procs s))%nat ->
  txn l [] -> l_size l = LOGSIZE -> length (l_block l) = 30%nat ->
  l_outstanding l = 0 -> l_committing l = false ->
  length bs1 = Z.to_nat MAXOPBLOCKS -> length bs2 = Z.to_nat MAXOPBLOCKS -> length bs3 = Z.to_nat MAXOPBLOCKS ->
  NoDup (bs1 ++ bs2 ++ bs3) ->
  (forall b, b ∈ bs1 ++ bs2 ++ bs3 -> 0 <= b < 2 ^ 31 /\ ~ (l_start l <= b < l_start l + l_size l)) ->
  (by_proc p1 begin_op ;;; by_proc p2 begin_op ;;; by_proc p3 begin_op ;;;
   by_proc p1 (log_blocks bs1) ;;; by_proc p2 (log_blocks bs2) ;;; by_proc p3 (log_blocks bs3)) s =
  Panic "too big a transaction".
Proof.
  intros l B Hp2 Hp3 T Hz Hlb Ho Hc E1 E2 E3 Hn Hout. change (Z.to_nat MAXOPBLOCKS) with 10%nat in *.
  assert (Hp1 : (p1 < length (procs s))%nat) by apply (bs_run _ _ _ _ B).
  change LOGSIZE with 30 in Hz. pose proof (tx_n _ _ T) as Hn0. cbn in Hn0.
  assert (Hm : forall k, 0 <= k <= 2 -> may_begin (set_l_outstanding k l) = true).
  { intros k Hk. unfold may_begin. cbn. rewrite Hc, Hn0. cbn. apply Z.leb_le. lia. }
  assert (El : set_l_outstanding 0 l = l) by (rewrite <- Ho; by destruct l).
  eapply wp_then; [eapply (wp_admitted s p1 []); [done|done|fold l; rewrite <- El; by apply Hm]|].
  fold l. rewrite Ho. intros _ s1 ->. set (s1 := set_log _ _).
  assert (B1 : bsess s1 p1 [] []) by (apply bsess_log; by eapply bsess_cur).
  eapply wp_then; [eapply (wp_admitted s1 p1 []); [done|done|by apply (Hm 1)]|].
  intros _ s2 ->. set (s2 := set_log _ _). assert (B2 : bsess s2 p2 [] []) by (apply bsess_log; by eapply bsess_cur).
  eapply wp_then; [eapply (wp_admitted s2 p2 []); [done|done|by apply (Hm 2)]|].
  intros _ s3 ->. set (s3 := set_log _ _). assert (B3 : bsess s3 p3 [] []) by (apply bsess_log; by eapply bsess_cur).
  assert (T3 : in_txn s3 p3 []) by (split; [done|by destruct T|cbn; lia|cbn; lia|done]).
  assert (Hsub : forall bs : list Z, (forall b, b ∈ bs -> b ∈ bs1 ++ bs2 ++ bs3) -> forall b, b ∈ bs ->
     0 <= b < 2 ^ 31 /\ ~ (l_start l <= b < l_start l + l_size l)) by (intros bs Hbs b Hb; by apply Hout, Hbs).
  rewrite (app_assoc bs1 bs2) in Hn. pose proof (proj1 (NoDup_app _ _) Hn) as (Hn12 & _).
  pose proof (proj1 (NoDup_app _ _) Hn12) as (Hn1 & _).
  eapply wp_then; [apply (wp_call_blocks s3 p3 p1 [] bs1 T3); [done|cbn; lia|done|]|].
  { apply Hsub. intros b. rewrite !elem_of_app. tauto. }
  intros [] s4 (T4 & [Gs Gz _ _ _ _] & P4).
  eapply wp_then; [apply (wp_call_blocks s4 p1 p2 bs1 bs2 T4); [by rewrite P4|rewrite Gz; cbn; lia|done|]|].
  { rewrite Gs, Gz. apply Hsub. intros b. rewrite !elem_of_app. tauto. }
  intros [] s5 (T5 & [Gs' Gz' _ _ _ _] & P5).
  apply (call_blocks_full s5 p2 p3 (bs1 ++ bs2) bs3 T5); [by rewrite P5, P4| |by destruct bs3|done|].
  - rewrite Gz', Gz, length_app. cbn. lia.
  - rewrite Gs', Gz', Gs, Gz. apply Hsub. intros b. rewrite !elem_of_app. tauto.
Qed.

End LogThms.

(** ** The theorems at a concrete machine *)

Lemma fs_tx_start : l_start (log fs_tx) = 2 /\ l_size (log fs_tx) = 30 /\
  l_committing (log fs_tx) = false /\ l_outstanding (log fs_tx) = 1 /\ length (l_block (log fs_tx)) = 30%nat.
Proof. destruct (ft_log _ fs_tx_ok) as [-> -> -> -> _ ->]. done. Qed.

Lemma zero_head b : hdr_n (dget ∅ b) = 0.
Proof. rewrite dget_empty. reflexivity. Qed.

Lemma commit_atomic_witness :
  wp commit (fun _ s' => exists ws,
    dwrites s' = dwrites fs_tx ++ ws /\ disk s' = apply_writes (disk fs_tx) ws /\
    same_outside (l_start (log fs_tx)) (l_size (log fs_tx)) (dget (disk s')) (bcontent fs_tx) /\
    forall pre, pre `prefix_of` ws ->
      let d := apply_writes (disk fs_tx) pre in
      same_outside (l_start (log fs_tx)) (l_size (log fs_tx))
        (dget (recovered (l_start (log fs_tx)) d)) (dget (disk fs_tx)) \/
      same_outside (l_start (log fs_tx)) (l_size (log fs_tx))
        (dget (recovered (l_start (log fs_tx)) d)) (bcontent fs_tx)) fs_tx.
Proof.
  apply (commit_atomic fs_tx 0 [50]); [exact (ft_txn _ fs_tx_ok)|discriminate|
    exact (ft_sess _ fs_tx_ok)|rewrite (ft_disk _ fs_tx_ok); apply zero_head].
Defined.

Lemma empty_log_wf : log_wf 2 30 ∅.
Proof.
  assert (E : hdr_blocks (dget ∅ 2) = []) by (rewrite dget_empty; reflexivity).
  split; rewrite ?E, ?zero_head; cbn; [lia|lia|constructor|set_solver].
Qed.

Lemma recover_correct_witness :
  wp recover_from_log (fun _ s' =>
    disk s' = recovered (l_start (log fs_boot)) (disk fs_boot) /\
    dwrites s' = dwrites fs_boot ++ recovery (l_start (log fs_boot)) (disk fs_boot) /\
    bsess s' 0 [] [] /\ l_n (log s') = 0) fs_boot.
Proof.
  destruct fs_boot_log as (El & Ed & _).
  apply (recover_correct fs_boot 0); [exact fs_boot_sess|rewrite El, Ed|rewrite El..];
    [exact empty_log_wf|reflexivity|cbn; lia|cbn; lia|reflexivity].
Defined.

(** A disk whose header names block 50, with its new content in the first slot. *)
Definition crash_disk : gmap Z (list Z) :=
  <[3 := replicate 1024 7]> {[ 2 := put32 (put32 (replicate 1024 0) 0 1) 4 50 ]}.


(** A machine that boots from that disk. *)
Definition crash_boot : kst := set_disk crash_disk fs_boot.

Lemma crash_disk_len b : length (dget crash_disk b) = 1024%nat.
Proof.
  unfold crash_disk. rewrite dget_insert. case_decide; [reflexivity|]. rewrite <- insert_empty, dget_insert.
  case_decide; [by vm_compute|]. rewrite dget_empty. reflexivity.
Qed.

Lemma crash_disk_wf : log_wf 2 30 crash_disk.
Proof.
  assert (E : hdr_blocks (dget crash_disk 2) = [50]) by (vm_compute; reflexivity).
  assert (En : hdr_n (dget crash_disk 2) = 1) by (vm_compute; reflexivity).
  split; rewrite ?E, ?En; cbn; [lia|lia|apply NoDup_singleton|]. intros b ->%list_elem_of_singleton. lia.
Qed.

Lemma set_disk_log d s : log (set_disk d s) = log s.
Proof. reflexivity. Qed.
Lemma set_disk_disk d s : disk (set_disk d s) = d.
Proof. reflexivity. Qed.

Lemma recovery_idempotent_witness :
  wp recover_from_log (fun _ s1 =>
    wp recover_from_log (fun _ s3 =>
      same_outside 2 30 (dget (disk s3)) (dget (disk s1)) /\ l_n (log s3) = 0) crash_boot) crash_boot.
Proof.
  destruct fs_boot_log as (El & _). assert (Ec : log crash_boot = fs_log) by (rewrite <- El; apply set_disk_log).
  assert (Ed : disk crash_boot = crash_disk) by apply set_disk_disk.
  assert (B : bsess crash_boot 0 [] []) by exact (fs_boot_disk _ crash_disk_len).
  pose proof (recovery_idempotent crash_boot 0 B) as H. cbv zeta in H. rewrite Ec, Ed in H.
  specialize (H crash_disk_wf eq_refl ltac:(cbn; lia) ltac:(cbn; lia) eq_refl).
  eapply wp_mono; [exact H|]. intros _ s1 (ws & _ & _ & H1).
  eapply wp_mono; [apply (H1 [] crash_boot 0%nat); rewrite ?Ec; [apply prefix_nil|exact Ed|exact B|reflexivity..]|].
  intros _ s3 (H3 & _ & H4). exact (conj H3 H4).
Defined.

Lemma set_bufs_log bs s : log (set_bufs bs s) = log s.
Proof. reflexivity. Qed.
Lemma set_bufs_held bs s : held (set_bufs bs s) = held s.
Proof. reflexivity. Qed.

Lemma log_write_correct_witness :
  let c := (let! i := bread ROOTDEV 60 in log_write i) in
  wp c (fun _ s' => txn (log s') [50; 60]) fs_tx.
Proof.
  destruct fs_tx_start as (Es & Ez & _ & Eo & El). pose proof fs_tx_ok as [B T G D H].
  apply wp_bind. eapply (wp_sbread _ 0 [50] []); [exact B|apply not_elem_of_nil|right; cbn; lia|].
  intros i s1 E1 B1 _ _ _. assert (E : log s1 = log fs_tx) by (rewrite E1; apply set_bufs_log).
  eapply wp_mono.
  - apply (log_write_correct s1 0 [50] [(i, 60)] i 60); rewrite ?E, ?Eo, ?Es, ?Ez, ?El;
      [exact B1|apply list_elem_of_singleton; reflexivity|exact T| |lia|lia|reflexivity|cbn; lia|lia|lia].
    rewrite E1, set_bufs_held, H. apply not_elem_of_nil.
  - intros _ s' (_ & T' & _). exact T'.
Defined.

Lemma end_op_commits_witness :
  wp end_op (fun _ s' => l_n (log s') = 0 /\ bsess s' 0 [] []) fs_tx.
Proof.
  destruct fs_tx_start as (_ & _ & Ec & Eo & _).
  eapply wp_mono; [apply (end_op_commits fs_tx 0 [50] (ft_sess _ fs_tx_ok) (ft_txn _ fs_tx_ok)
    (ft_held _ fs_tx_ok) Ec Eo)|].
  intros _ s' (B & -> & _). split; [reflexivity|exact B].
Defined.

Lemma begin_op_admission_witness :
  begin_op fs_boot = Ok tt (set_log (set_l_outstanding 2 fs_log) fs_boot).
Proof.
  destruct fs_boot_log as (El & _ & Eh & _).
  pose proof (begin_op_admission fs_boot 0 (bs_run _ _ _ _ fs_boot_sess) Eh) as H.
  rewrite El in H. exact H.
Defined.

Lemma bread_correct_witness :
  wp (bread ROOTDEV 50) (fun i s' => b_data (bufat i s') = bcontent fs_tx 50) fs_tx.
Proof.
  eapply wp_mono; [apply (bread_correct fs_tx 0 [50] [] 50 (ft_sess _ fs_tx_ok))|].
  - apply not_elem_of_nil.
  - left. apply list_elem_of_singleton. reflexivity.
  - intros i s' (_ & _ & H & _). exact H.
Defined.

Lemma brelse_correct_witness :
  let c := (let! i := bread ROOTDEV 50 in brelse i) in
  wp c (fun _ s' => bcontent s' 50 = bcontent fs_tx 50) fs_tx.
Proof.
  apply wp_bind. eapply (wp_sbread _ 0 [50] []);
    [exact (ft_sess _ fs_tx_ok)|apply not_elem_of_nil|right; cbn; lia|].
  intros i s1 E1 B1 _ C1 _. eapply wp_mono.
  - apply (brelse_correct s1 0 [50] [(i, 50)] i 50 B1); [|left]; apply list_elem_of_singleton; reflexivity.
  - intros _ s' (_ & _ & H). rewrite H. apply C1.
Defined.


(** Thirty blocks behind the log, in three calls. *)
Definition gap_calls (k : nat) : list Z := (fun i => 40 + Z.of_nat (10 * k + i)) <$> seq 0 10.

Definition idle_boot : kst := set_log (set_l_outstanding 0 fs_log) fs_boot.

Lemma set_log_log l s : log (set_log l s) = l.
Proof. reflexivity. Qed.
Lemma set_log_procs l s : procs (set_log l s) = procs s.
Proof. reflexivity. Qed.

Lemma reservations_gap_witness :
  (by_proc 0 begin_op ;;; by_proc 1 begin_op ;;; by_proc 2 begin_op ;;;
   by_proc 0 (log_blocks (gap_calls 0)) ;;; by_proc 1 (log_blocks (gap_calls 1)) ;;;
   by_proc 2 (log_blocks (gap_calls 2))) idle_boot = Panic "too big a transaction".
Proof.
  destruct fs_boot_log as (_ & _ & _ & _ & Ep).
  assert (El : log idle_boot = set_l_outstanding 0 fs_log) by apply set_log_log.
  assert (En : length (procs idle_boot) = 64%nat) by (unfold idle_boot; rewrite set_log_procs; exact Ep).
  apply (reservations_gap idle_boot 0 1 2 (gap_calls 0) (gap_calls 1) (gap_calls 2));
    rewrite ?El, ?En; [exact (bsess_log fs_boot 0 [] [] _ fs_boot_sess)|lia|lia| |reflexivity..| |].
  - destruct fs_log_txn. split; assumption.
  - change (gap_calls 0 ++ gap_calls 1 ++ gap_calls 2) with ((fun i => 40 + Z.of_nat i) <$> seq 0 30).
    apply NoDup_fmap_2; [|apply NoDup_seq]. intros i j. lia.
  - intros b Hb. assert (H : forallb (fun b => (32 <=? b) && (b <? 100)) (gap_calls 0 ++ gap_calls 1 ++ gap_calls 2) = true)
      by reflexivity.
    rewrite forallb_forall in H. apply list_elem_of_In, H in Hb. cbn. lia.
Defined.
