(* ===== verification/FsThms.v ===== *)
(** Properties of the file system's blocks and files. *)
From S2P Require Import Prelude Types Str Kalloc Vm Sched Sleeplock Bio BioSess.
From S2P Require Import PtRep Uvm Copy Log LogSpec Crash LogOps Fs FsBlk FsFile FsWrite Concrete.

Section Thms.
Context {L : Linker}.
Implicit Types (P : list Z) (K : list (nat * Z)) (b r bn off : Z) (bs : list Z).

(** A write within or at the end of a file without holes leaves none. *)
Lemma written_no_hole s me P i off bs s' P' :
  fctx s me P [] i -> 0 <= off <= i_size (inodeat i s) ->
  no_hole (bcontent s) (inodeat i s) 0 (i_size (inodeat i s)) ->
  written s me P i off bs s' P' ->
  no_hole (bcontent s') (inodeat i s') 0 (i_size (inodeat i s')).
Proof.
  intros F Ho Hh W x Hx. rewrite (wr_inode _ _ _ _ _ _ _ _ W) in Hx. cbn in Hx.
  pose proof (fw_size _ _ _ (fc_wf _ _ _ _ _ F)) as Hsz.
  destruct (decide (x < i_size (inodeat i s))); [|apply (wr_there _ _ _ _ _ _ _ _ W); [|lia]].
  2: { pose proof (fw_size _ _ _ (fc_wf _ _ _ _ _ (wr_ctx _ _ _ _ _ _ _ _ W))) as Hsz'.
       rewrite (wr_inode _ _ _ _ _ _ _ _ W) in Hsz'. cbn in Hsz'. lia. }
  assert (Hb : iblock (bcontent s) (inodeat i s) (x / BSIZE) <> 0) by (apply Hh; lia).
  rewrite (wr_keep _ _ _ _ _ _ _ _ W); [done| |done]. Z.div_mod_to_equations. lia.
Qed.

(** C9: What [writei] wrote, [readi] returns: a read of as many bytes at the same offset
    gives exactly the bytes, and changes nothing. *)
Theorem writei_readi s me P i off bs nb :
  fctx s me P [] i -> inum_ok (sb s) (i_inum (inodeat i s)) -> 0 <= off <= i_size (inodeat i s) ->
  no_hole (bcontent s) (inodeat i s) 0 (i_size (inodeat i s)) ->
  off + Z.of_nat (length bs) <= MAXFILE * BSIZE ->
  off mod BSIZE + Z.of_nat (length bs) <= Z.of_nat nb * BSIZE ->
  slots s P (6 * nb + 1) -> room P [] (6 * nb + 1) ->
  wp (let! r := writei i (SLocal bs) off (Z.of_nat (length bs)) in
      let! x := readi i DLocal off r in ret (r, x))
    (fun '(r, (m, out)) s' => 0 <= r <= Z.of_nat (length bs) /\ m = r /\ out = take (Z.to_nat r) bs /\
       (r < Z.of_nat (length bs) -> disk_full s')) s.
Proof.
  intros F Hi Ho Hh Hmax Hnb Hs Hr. wp_step.
  eapply wp_mono; [apply (wp_writei s me P i off bs nb); try done; unfold room in *; lia|].
  intros r s1 (P1 & Hr1 & Hfull & Hlen & W). wp_step.
  pose proof (written_no_hole _ _ _ _ _ _ _ _ F Ho Hh W) as Hh1.
  pose proof W as [S1 F1 _ Hin Hby _ _ _ _ _ _].
  assert (Hlt : Z.of_nat (length (take (Z.to_nat r) bs)) = r) by (rewrite length_take; lia).
  assert (Hsz : i_size (inodeat i s1) = Z.max (i_size (inodeat i s)) (off + r)).
  { rewrite Hin. cbn [i_size set_i_size]. by rewrite Hlt. }
  eapply wp_mono; [apply (wp_readi s1 me P1 i off r); try done; unfold room in *; try lia|].
  intros [m out] s2 (-> & -> & U). wp_step. rewrite Hsz, Z.min_l by lia.
  split_and!; [lia|lia|done| |].
  - apply (nth_ext _ _ 0 0); rewrite length_fread; [lia|]. intros k Hk.
    rewrite (nth_lookup_Some _ _ _ _ (fread_lookup _ _ _ _ _ Hk)), Hby, Hlt by lia.
    rewrite decide_True by lia. f_equal. lia.
  - intros Hlt' b Hb. rewrite (fstep_sb _ _ (un_step _ _ _ _ _ U)) in *.
    rewrite (used_ext _ (bcontent s1)) by apply U. by apply (proj1 (Hfull Hlt')).
Qed.

(** [balloc] returns a data block that was free, zeroed and marked in use, with all
    other blocks' contents and marks as they were, or 0 when every block is in use and
    then nothing has changed. *)
Theorem balloc_correct s me P K :
  fx s me P K -> geom (sb s) (log s) -> meta_used (sb s) (bcontent s) ->
  data_locked (sb s) (bcontent s) K -> slots s P 2 -> room P K 1 ->
  wp (balloc ROOTDEV) (fun r s' => balloc_post s me P K r s' /\
    forall b, 0 <= b < sb_size (sb s) ->
      used (sb s) (bcontent s') b = used (sb s) (bcontent s) b || (b =? r) && negb (r =? 0)) s.
Proof.
  intros F G M D Hs Hr. eapply wp_mono; [by apply wp_balloc|]. intros r s' Hp. split; [done|].
  intros b Hb. destruct Hp as (_ & _ & _ & [(-> & _ & C & _)|(Hr0 & Hu & _ & C)]).
  - rewrite (used_ext _ (bcontent s)) by done. change (negb (0 =? 0)) with false. by rewrite andb_false_r, orb_false_r.
  - rewrite (used_ext _ (alloc_block (sb s) (bcontent s) r)) by done.
    rewrite (alloc_used (sb s) (log s) G (bcontent s) r Hr0 ltac:(intros; by eapply fx_blen) b Hb).
    pose proof (geom_bmap _ _ G) as (? & ? & ?). unfold data_start in *. rewrite (proj2 (Z.eqb_neq r 0)) by (pose proof (div_range 0 (sb_size (sb s)) BPB); lia).
    rewrite andb_true_r. case_decide; subst; rewrite ?Z.eqb_refl, ?orb_true_r; [done|].
    by rewrite (proj2 (Z.eqb_neq _ _)), orb_false_r.
Qed.

End Thms.

(** ** Where the bytes come from *)

Section Sources.
Context {L : Linker} {LOk : LinkerOk L}.
Implicit Types (P : list Z) (off : Z) (bs : list Z).

(** [bs] are the bytes of the source: those of a kernel variable, those at an address of the
    kernel, or those the process [me] has, and may read, at an address of its own. *)
Definition sourced (s : kst) (me : nat) (src : source) bs : Prop :=
  match src with
  | SLocal l => l = bs
  | SPhys pa => mread (mem s) pa (length bs) = bs
  | SUser va =>
      let r := p_pagetable (procat me s) in let n := Z.of_nat (length bs) in
      (exists O, pt_wf (mem s) r O) /\ no_zero_page (mem s) r /\ 0 <= va /\ va + n <= 2 ^ 64 - PGSIZE /\
      ureadable_range (mem s) r va n /\ uread (mem s) r va (length bs) = bs
  end.

Lemma uread_part m r va n k l :
  (k + l <= n)%nat -> take l (drop k (uread m r va n)) = uread m r (va + Z.of_nat k) l.
Proof.
  intros H. replace n with (k + (l + (n - k - l)))%nat by lia. rewrite !uread_app.
  rewrite drop_app_length' by (by rewrite length_uread). by rewrite take_app_length' by (by rewrite length_uread).
Qed.
Lemma mread_part m a n k l :
  (k + l <= n)%nat -> take l (drop k (mread m a n)) = mread m (a + Z.of_nat k) l.
Proof.
  intros H. apply (nth_ext _ _ 0 0); rewrite length_take, length_drop, !length_mread; [lia|].
  intros i Hi. rewrite !nth_lookup, lookup_take_lt, lookup_drop, <- !nth_lookup by lia.
  rewrite !mread_nth by lia. f_equal. lia.
Qed.

Lemma sourced_gives s me src bs : cur s = Some me -> sourced s me src bs -> gives src bs s.
Proof.
  intros Hc H k m s1 S1 Hk Hm Hl. destruct src as [va|pa|l]; cbn in H.
  - destruct H as ((O & W) & Hz & H0 & Hmax & Hr & Hb). cbn [advance_src copy_from]. unfold either_copyin.
    assert (Ep : p_pagetable (procat me s1) = p_pagetable (procat me s))
      by (exact (f_equal p_pagetable (sp_sim _ _ (fs_procs _ _ S1) me))).
    rewrite (bind_ok _ _ s1 (Some me) s1) by (unfold myproc, get; by rewrite (fstep_cur _ _ S1), Hc).
    cbn [deref]. unfold bind, ret, getp, get. rewrite Ep.
    pose proof (wp_copyin s1 (p_pagetable (procat me s)) O (va + k) m) as Hcp.
    rewrite (fstep_mem _ _ S1) in Hcp. specialize (Hcp W Hz ltac:(lia) ltac:(lia)). unfold wp in Hcp.
    destruct (copyin _ _ m s1) as [[res out] s2| | |]; try done.
    destruct Hcp as [-> [(-> & _ & ->)|(-> & n & Hn & Hf & _)]].
    + rewrite <- Hb, uread_part by lia. do 3 f_equal. lia.
    + pose proof (Hr (va + k + n) ltac:(lia)) as Hy. by rewrite Hf in Hy.
  - cbn [advance_src copy_from]. unfold either_copyin, read_k, myproc, bind, get, ret.
    rewrite (fstep_mem _ _ S1), <- H, mread_part by lia. do 3 f_equal. lia.
  - by subst l.
Qed.

(** C15: [writei] writes the bytes it is given, from a kernel buffer or from memory the user
    may read, at an offset up to the end of the file,
    allocating blocks as needed.  It stops short only when no block of the disk is free,
    before the first byte or at the end of a block; the bytes written are then a prefix.  The size covers them, the inode is written to its place on disk,
    all other bytes of the file, all other files' blocks, the other inodes and the rest of
    the metadata keep their contents, blocks in use stay in use, and at most six blocks per
    block of the range (and the inode's) are logged. *)
Theorem writei_correct s me P i src off bs nb :
  sourced s me src bs ->
  fctx s me P [] i -> inum_ok (sb s) (i_inum (inodeat i s)) -> 0 <= off <= i_size (inodeat i s) ->
  off + Z.of_nat (length bs) <= MAXFILE * BSIZE ->
  off mod BSIZE + Z.of_nat (length bs) <= Z.of_nat nb * BSIZE ->
  slots s P (6 * nb + 1) -> room P [] (6 * nb) ->
  wp (writei i src off (Z.of_nat (length bs))) (fun r s' => exists P',
    0 <= r <= Z.of_nat (length bs) /\
    (r < Z.of_nat (length bs) -> disk_full s' /\ (r = 0 \/ (off + r) mod BSIZE = 0)) /\
    (length P' <= length P + (6 * nb + 1))%nat /\
    written s me P i off (take (Z.to_nat r) bs) s' P') s.
Proof.
  intros Hsrc F. apply wp_writei_src; [|done]. eapply sourced_gives; [|done]. apply (fx_sess _ _ _ _ (fc_fx _ _ _ _ _ F)).
Qed.
End Sources.

(** ** Machines with a given disk and inode table, after [binit] *)

Section Boot.
Context (d : gmap Z (list Z)) (l : list inode) (Hlen : forall b, length (dget d b) = 1024%nat).

Definition boot_machine : kst := set_inodes l (set_sb sb0 (set_disk d fs_machine)).
Definition boot : kst := end_state binit boot_machine.

Lemma boot_ok : boot = set_bufs (bufs boot) boot_machine /\ bio_inv boot /\ forall b, bcontent boot b = dget d b.
Proof. by destruct (end_state_wp binit _ _ (wp_binit boot_machine ltac:(done) Hlen)) as [_ H]. Qed.

Lemma boot_idle i : (i < NBUF)%nat ->
  b_refcnt (bufat i boot) = 0 /\ sl_locked (b_lock (bufat i boot)) = false.
Proof.
  assert (H : forallb (fun i => let b := bufat i boot in
                (b_refcnt b =? 0) && negb (sl_locked (b_lock b))) (seq 0 NBUF) = true) by (by vm_compute).
  intros Hi. rewrite forallb_forall in H.
  specialize (H i (proj2 (in_seq _ _ _) (conj (Nat.le_0_l i) Hi))).
  apply andb_prop in H as [H1%Z.eqb_eq H2%negb_true_iff]. exact (conj H1 H2).
Qed.
#[local] Opaque boot.

Lemma boot_field {A} (f : kst -> A) : (forall bs s, f (set_bufs bs s) = f s) -> f boot = f boot_machine.
Proof. intros Hf. destruct boot_ok as (E & _). rewrite E. apply Hf. Qed.

Lemma boot_fields : log boot = fs_log /\ sb boot = sb0 /\ inodes boot = l /\
  held boot = [] /\ cur boot = Some 0%nat /\ length (procs boot) = 64%nat.
Proof.
  rewrite (boot_field log), (boot_field sb), (boot_field inodes), (boot_field held), (boot_field cur),
    (boot_field procs) by reflexivity.
  split_and!; reflexivity.
Qed.

Lemma boot_fx : fx boot 0 [] [].
Proof.
  destruct boot_ok as (_ & I & _). destruct boot_fields as (El & _ & _ & Eh & Ec & Ep).
  assert (B : bsess boot 0 [] []).
  { apply sess_idle; [exact I| | |exact boot_idle]; clear I.
    - split; [exact Ec|rewrite Ep; lia|]. intros j. rewrite Eh. apply not_elem_of_nil.
    - split; intros; rewrite Eh; apply not_elem_of_nil. }
  clear I. split; rewrite ?El, ?Eh; [exact B|apply fs_log_txn|apply not_elem_of_nil|done|done|done].
Qed.

Lemma boot_geom : geom (sb boot) (log boot).
Proof. destruct boot_fields as (-> & -> & _). split; by vm_compute. Qed.
End Boot.

(** ** A formatted disk with one file

    Blocks 0 to 46 are in use; block 46 is the only block of the file of inode 2,
    which has ten bytes. *)

Definition fmt_disk : gmap Z (list Z) :=
  {[ 45 := replicate 5 255 ++ 127 :: replicate 1018 0; 46 := replicate 1024 65 ]}.
Definition fmt_inode : inode :=
  Inode ROOTDEV 2 1 (SleepLock true 1) true T_FILE 0 0 1 10 (46 :: replicate 12 0).
Definition fmt_boot : kst := boot fmt_disk [fmt_inode].

Lemma fmt_len b : length (dget fmt_disk b) = 1024%nat.
Proof.
  unfold dget, fmt_disk. destruct (decide (b = 45)) as [->|]; [by vm_compute|].
  destruct (decide (b = 46)) as [->|]; [by vm_compute|]. by rewrite lookup_insert_ne, lookup_singleton_ne.
Qed.

Lemma fmt_content b : bcontent fmt_boot b = dget fmt_disk b.
Proof. by apply (boot_ok fmt_disk [fmt_inode] fmt_len). Qed.

Lemma fmt_fields : log fmt_boot = fs_log /\ sb fmt_boot = sb0 /\ inodes fmt_boot = [fmt_inode] /\
  held fmt_boot = [] /\ cur fmt_boot = Some 0%nat /\ length (procs fmt_boot) = 64%nat.
Proof. exact (boot_fields fmt_disk [fmt_inode] fmt_len). Qed.

Lemma fmt_fx : fx fmt_boot 0 [] [].
Proof. exact (boot_fx fmt_disk [fmt_inode] fmt_len). Qed.
Lemma fmt_geom : geom (sb fmt_boot) (log fmt_boot).
Proof. exact (boot_geom fmt_disk [fmt_inode] fmt_len). Qed.
#[local] Opaque fmt_boot.

(** What the bitmap of the formatted disk says. *)
Lemma fmt_used b : 0 <= b < 64 -> used sb0 (bcontent fmt_boot) b = (b <? 47).
Proof.
  intros Hb. rewrite (used_ext _ (dget fmt_disk)) by exact fmt_content.
  assert (H : forallb (fun b => eqb (used sb0 (dget fmt_disk) b) (b <? 47)) (seqZ 0 64) = true)
    by (by vm_compute).
  rewrite forallb_forall in H. apply eqb_prop, H, list_elem_of_In, elem_of_seqZ. lia.
Qed.

Lemma fmt_meta : meta_used (sb fmt_boot) (bcontent fmt_boot).
Proof.
  destruct fmt_fields as (_ & -> & _). intros b Hb. change (data_start sb0) with 46 in Hb.
  rewrite fmt_used by lia. lia.
Qed.

Lemma fmt_iblock bn : 0 <= bn <= MAXFILE ->
  iblock (bcontent fmt_boot) fmt_inode bn = if bn =? 0 then 46 else 0.
Proof.
  intros Hb. unfold iblock. change (addr fmt_inode 12 =? 0) with true. change (addr fmt_inode 12) with 0.
  destruct (Z.ltb_spec bn NDIRECT).
  - assert (H' : forallb (fun bn => addr fmt_inode (Z.to_nat bn) =? (if bn =? 0 then 46 else 0)) (seqZ 0 12) = true)
      by (by vm_compute).
    rewrite forallb_forall in H'. apply Z.eqb_eq, H', list_elem_of_In, elem_of_seqZ. lia.
  - rewrite (proj2 (Z.eqb_neq bn 0)) by lia. by destruct (bn =? MAXFILE).
Qed.

Lemma fmt_fctx : fctx fmt_boot 0 [] [] 0.
Proof.
  destruct fmt_fields as (_ & Es & Ei & _).
  assert (E0 : inodeat 0 fmt_boot = fmt_inode) by (unfold inodeat; by rewrite Ei).
  split; [exact fmt_fx|exact fmt_geom|exact fmt_meta| |rewrite Ei; cbn; lia|].
  - intros b Hb. destruct (proj1 (elem_of_nil b) Hb).
  - rewrite E0, Es. generalize fmt_iblock, fmt_used. generalize (bcontent fmt_boot). intros C Hib Hus.
    split; [reflexivity|reflexivity| | |split; by vm_compute].
    + intros bn Hb. rewrite Hib by done. destruct (bn =? 0); [right|by left].
      split; [done|]. change (data_start sb0) with 46. split; [split; [lia|by vm_compute]|].
      rewrite Hus by lia. done.
    + intros bn bn' Hb Hb'. rewrite !Hib by done.
      destruct (Z.eqb_spec bn 0), (Z.eqb_spec bn' 0); lia.
Qed.

Lemma fmt_no_hole : no_hole (bcontent fmt_boot) (inodeat 0 fmt_boot) 0 (i_size (inodeat 0 fmt_boot)).
Proof.
  destruct fmt_fields as (_ & _ & Ei & _).
  assert (inodeat 0 fmt_boot = fmt_inode) as -> by (unfold inodeat; by rewrite Ei).
  intros x Hx. change (i_size fmt_inode) with 10 in Hx. rewrite Z.div_small by lia. rewrite fmt_iblock by lia. done.
Qed.

Lemma fmt_inode_at : inodeat 0 fmt_boot = fmt_inode.
Proof. destruct fmt_fields as (_ & _ & Ei & _). unfold inodeat. by rewrite Ei. Qed.

Lemma fmt_slots : slots fmt_boot [] 13.
Proof. destruct fmt_fields as (El & _). unfold slots. rewrite El. cbn. lia. Qed.

Lemma fmt_side (bs : list Z) : length bs = 1500%nat ->
  inum_ok (sb fmt_boot) (i_inum (inodeat 0 fmt_boot)) /\ 0 <= 7 <= i_size (inodeat 0 fmt_boot) /\
  7 + Z.of_nat (length bs) <= MAXFILE * BSIZE /\ 7 mod BSIZE + Z.of_nat (length bs) <= Z.of_nat 2 * BSIZE.
Proof.
  intros ->. rewrite fmt_inode_at. destruct fmt_fields as (_ & -> & _). split; [split; by vm_compute|].
  split_and!; by vm_compute.
Qed.

Lemma writei_correct_witness :
  wp (writei 0 (SLocal (replicate 1500 9)) 7 1500) (fun r s' => exists P',
    0 <= r <= 1500 /\ (r < 1500 -> disk_full s' /\ (r = 0 \/ (7 + r) mod BSIZE = 0)) /\
    (length P' <= 13)%nat /\
    written fmt_boot 0 [] 0 7 (take (Z.to_nat r) (replicate 1500 9)) s' P') fmt_boot.
Proof.
  destruct (fmt_side (replicate 1500 9)) as (H1 & H2 & H3 & H4); [apply length_replicate|].
  pose proof (writei_correct fmt_boot 0 [] 0 (SLocal (replicate 1500 9)) 7 (replicate 1500 9) 2 eq_refl fmt_fctx H1 H2 H3 H4 fmt_slots ltac:(unfold room; cbn; lia)) as H.
  rewrite length_replicate in H. exact H.
Defined.

Lemma writei_readi_witness :
  wp (let! r := writei 0 (SLocal (replicate 1500 9)) 7 1500 in
      let! x := readi 0 DLocal 7 r in ret (r, x))
    (fun '(r, (m, out)) s' => 0 <= r <= 1500 /\ m = r /\ out = take (Z.to_nat r) (replicate 1500 9) /\
       (r < 1500 -> disk_full s')) fmt_boot.
Proof.
  destruct (fmt_side (replicate 1500 9)) as (H1 & H2 & H3 & H4); [apply length_replicate|].
  pose proof (writei_readi fmt_boot 0 [] 0 7 (replicate 1500 9) 2 fmt_fctx H1 H2 fmt_no_hole H3 H4 fmt_slots
    ltac:(unfold room; cbn; lia)) as H.
  rewrite length_replicate in H. exact H.
Defined.

Lemma balloc_correct_witness :
  wp (balloc ROOTDEV) (fun r s' => balloc_post fmt_boot 0 [] [] r s' /\
    forall b, 0 <= b < sb_size (sb fmt_boot) ->
      used (sb fmt_boot) (bcontent s') b =
      used (sb fmt_boot) (bcontent fmt_boot) b || (b =? r) && negb (r =? 0)) fmt_boot.
Proof.
  apply (balloc_correct fmt_boot 0 [] []);
    [exact fmt_fx|exact fmt_geom|exact fmt_meta| | |unfold room; cbn; lia].
  - intros b Hb. destruct (proj1 (elem_of_nil b) Hb).
  - destruct fmt_fields as (El & _). unfold slots. rewrite El. cbn. lia.
Defined.
