(* ===== verification/FdThms.v ===== *)
(** Descriptors and the table of open files: every file's reference count is the number of
    descriptors that refer to it, across all system calls. *)
From S2P Require Import Prelude Types Riscv Str Kalloc Vm Sched Sleeplock Bio Log Fs Uart Printf Console Pipe File Proc.
From S2P Require Import Args Exec Syscall Sysfile Frame Concrete.

(** ** Counting *)

Definition one (o : option nat) (f : nat) : Z := if decide (o = Some f) then 1 else 0.

Fixpoint fcount (f : nat) (l : list (option nat)) : Z :=
  match l with [] => 0 | o :: l => one o f + fcount f l end.

(** The number of descriptors, of all the processes, that refer to file [f]. *)
Fixpoint refs (f : nat) (ps : list proc) : Z :=
  match ps with [] => 0 | p :: ps => fcount f (p_ofile p) + refs f ps end.

Lemma one_range o f : 0 <= one o f <= 1.
Proof. unfold one. case_decide; lia. Qed.

Lemma fcount_range f l : 0 <= fcount f l <= Z.of_nat (length l).
Proof. induction l as [|o l IH]; cbn [fcount length]; [lia|]. pose proof (one_range o f). lia. Qed.

Lemma fcount_insert f l i o :
  (i < length l)%nat -> fcount f (<[i := o]> l) = fcount f l + one o f - one (l !!! i) f.
Proof.
  revert i. induction l as [|o' l IH]; intros [|i] Hi; cbn in *; [lia|lia|lia|].
  rewrite IH by lia. unfold lookup_total. lia.
Qed.

Lemma fcount_none f n : fcount f (replicate n None) = 0.
Proof. by induction n. Qed.

Lemma refs_range f ps n :
  Forall (fun p => length (p_ofile p) <= n)%nat ps ->
  0 <= refs f ps <= Z.of_nat (length ps * n).
Proof.
  induction 1 as [|p ps Hp _ IH]; cbn [refs length]; [lia|].
  pose proof (fcount_range f (p_ofile p)). lia.
Qed.

Lemma refs_alter f ps i g :
  (i < length ps)%nat ->
  refs f (alter g i ps) = refs f ps + fcount f (p_ofile (g (ps !!! i))) - fcount f (p_ofile (ps !!! i)).
Proof.
  revert i. induction ps as [|p ps IH]; intros [|i] Hi; cbn in *; [lia|lia|lia|].
  change (list_alter g i ps) with (alter g i ps). rewrite IH by lia. unfold lookup_total. lia.
Qed.

Lemma refs_ext f ps ps' :
  length ps' = length ps -> (forall i, p_ofile (ps' !!! i) = p_ofile (ps !!! i)) -> refs f ps' = refs f ps.
Proof.
  revert ps'. induction ps as [|p ps IH]; intros [|p' ps'] Hl H; try done. cbn.
  rewrite (H 0%nat : p_ofile p' = p_ofile p), (IH ps'); [done|by injection Hl|]. intros i. apply (H (S i)).
Qed.

Lemma fcount_pos f l fd : l !! fd = Some (Some f) -> 1 <= fcount f l.
Proof.
  revert fd. induction l as [|o l IH]; intros [|fd] H; try done; cbn [fcount].
  - injection H as ->. pose proof (fcount_range f l). unfold one. rewrite decide_True by done. lia.
  - apply IH in H. pose proof (one_range o f). lia.
Qed.

Lemma refs_pos f ps i fd :
  (i < length ps)%nat -> p_ofile (ps !!! i) !! fd = Some (Some f) -> 1 <= refs f ps.
Proof.
  revert i. induction ps as [|p ps IH]; intros [|i] Hi Hf; cbn in Hi; [lia|lia| |]; cbn [refs].
  - apply fcount_pos in Hf. cbn in Hf.
    assert (0 <= refs f ps) by (clear; induction ps as [|q ps IH]; cbn; [lia|];
      pose proof (fcount_range f (p_ofile q)); lia). lia.
  - apply (IH i) in Hf; [|lia]. pose proof (fcount_range f (p_ofile p)). lia.
Qed.

(** ** The invariant *)

(** [x f] references to file [f] are not in a descriptor but in the hands of the code that
    runs; it is negative when a descriptor refers to the file before it is counted. *)
Record counted (x : nat -> Z) (s : kst) : Prop := {
  ct_procs : length (procs s) = NPROC;
  ct_files : length (files s) = NFILE;
  ct_ofile p : (p < NPROC)%nat -> length (p_ofile (procat p s)) = NOFILE;
  ct_fd p fd f : (p < NPROC)%nat -> p_ofile (procat p s) !! fd = Some (Some f) -> (f < NFILE)%nat;
  ct_dead p : (p < NPROC)%nat -> dead (p_state (procat p s)) = true ->
    p_ofile (procat p s) = replicate NOFILE None;
  ct_ref f : (f < NFILE)%nat -> f_ref (fileat f s) = refs f (procs s) + x f
}.

(** [counted], while the live process [p] runs. *)
Record fd_inv (p : nat) (x : nat -> Z) (s : kst) : Prop := {
  fi_counted : counted x s;
  fi_cur : cur s = Some p;
  fi_lt : (p < NPROC)%nat;
  fi_live : dead (p_state (procat p s)) = false
}.

Lemma counted_ext x y s : (forall f, x f = y f) -> counted x s -> counted y s.
Proof. intros E []. split; auto. intros f Hf. rewrite <-E. auto. Qed.

Lemma counted_same x s s' : same s s' -> counted x s -> counted x s'.
Proof.
  intros S []. split; intros.
  - by rewrite (same_procs _ _ S).
  - by rewrite (same_files _ _ S).
  - rewrite (same_ofile _ _ S). auto.
  - eapply ct_fd0; [done|]. by rewrite <-(same_ofile _ _ S).
  - rewrite (same_ofile _ _ S). apply ct_dead0; [done|]. by apply (same_dead _ _ S).
  - rewrite (same_ref _ _ S), ct_ref0 by done. f_equal. symmetry. apply refs_ext.
    + apply (same_procs _ _ S).
    + intros i. apply (same_ofile _ _ S).
Qed.

Lemma fd_inv_same p x s s' : same s s' -> fd_inv p x s -> fd_inv p x s'.
Proof.
  intros S []. split.
  - by eapply counted_same.
  - by rewrite (same_cur _ _ S).
  - done.
  - destruct (dead (p_state (procat p s'))) eqn:E; [|done].
    apply (same_dead _ _ S) in E. congruence.
Qed.

Lemma fd_inv_ext p x y s : (forall f, x f = y f) -> fd_inv p x s -> fd_inv p y s.
Proof. intros E []. split; auto. by eapply counted_ext. Qed.

(** Fewer descriptors than an [int] can count. *)
Lemma refs_bound x s f : counted x s -> 0 <= refs f (procs s) <= 1024.
Proof.
  intros C. assert (H : 0 <= refs f (procs s) <= Z.of_nat (length (procs s) * NOFILE)).
  2: { rewrite (ct_procs _ _ C) in H. lia. }
  apply refs_range, Forall_lookup. intros i p Hp.
  assert (Hi : (i < NPROC)%nat) by (rewrite <-(ct_procs _ _ C); by eapply lookup_lt_Some).
  pose proof (ct_ofile _ _ C i Hi) as H. unfold procat in H.
  rewrite (list_lookup_total_correct _ _ _ Hp) in H. lia.
Qed.

(** ** Changes of one descriptor or one count *)

Definition with_fd (p fd : nat) (o : option nat) (s : kst) : kst :=
  set_procs (alter (fun x => set_p_ofile (<[fd := o]> (p_ofile x)) x) p (procs s)) s.
Definition with_ref (f : nat) (r : Z) (s : kst) : kst := set_files (alter (set_f_ref r) f (files s)) s.

Lemma procat_with_fd p fd o s q :
  (p < length (procs s))%nat ->
  procat q (with_fd p fd o s) =
    if decide (p = q) then set_p_ofile (<[fd := o]> (p_ofile (procat p s))) (procat p s) else procat q s.
Proof. intros Hp. unfold with_fd. by rewrite procat_alter. Qed.

Lemma counted_with_fd x s p fd o :
  counted x s -> (p < NPROC)%nat -> (fd < NOFILE)%nat -> dead (p_state (procat p s)) = false ->
  (forall f, o = Some f -> (f < NFILE)%nat) ->
  counted (fun f => x f - one o f + one (p_ofile (procat p s) !!! fd) f) (with_fd p fd o s).
Proof.
  intros C Hp Hfd Hd Ho. pose proof (ct_procs _ _ C) as El. pose proof (ct_ofile _ _ C p Hp) as Eo.
  assert (Hp' : (p < length (procs s))%nat) by (by rewrite El).
  split; intros; rewrite ?procat_with_fd by done.
  - cbn. by rewrite length_alter.
  - apply C.
  - case_decide; [cbn; by rewrite length_insert|by apply C].
  - rewrite procat_with_fd in H0 by done. case_decide; [|by eapply C].
    cbn in H0. destruct (decide (fd = fd0)) as [<-|Hne].
    + rewrite list_lookup_insert_eq in H0 by lia. injection H0. auto.
    + rewrite list_lookup_insert_ne in H0 by done. by eapply (ct_fd _ _ C p).
  - rewrite procat_with_fd in H0 by done. case_decide; [|by apply C]. subst. cbn in H0. congruence.
  - rewrite (ct_ref _ _ C f H : f_ref (fileat f (with_fd p fd o s)) = _).
    unfold with_fd. cbn [procs set_procs]. rewrite refs_alter by done. cbn.
    rewrite fcount_insert by (fold (procat p s); lia). unfold procat. lia.
Qed.

Lemma counted_with_ref x s f r :
  counted x s -> (f < NFILE)%nat ->
  counted (fun g => x g + (if decide (g = f) then r - f_ref (fileat f s) else 0)) (with_ref f r s).
Proof.
  intros C Hf. pose proof (ct_files _ _ C) as El.
  split; try apply C.
  - cbn. by rewrite length_alter.
  - intros g Hg. unfold fileat, with_ref. cbn [files set_files procs]. case_decide as Hd.
    + subst. rewrite list_lookup_total_alter_eq by (by rewrite El). cbn.
      pose proof (ct_ref _ _ C f Hf) as E. unfold fileat in E. lia.
    + rewrite list_lookup_total_alter_ne by done. pose proof (ct_ref _ _ C g Hg) as E. unfold fileat in E. lia.
Qed.

(** A process without descriptors may die. *)
Lemma counted_die x s i st :
  counted x s -> (i < NPROC)%nat -> p_ofile (procat i s) = replicate NOFILE None ->
  counted x (set_procs (alter (set_p_state st) i (procs s)) s).
Proof.
  intros C Hi Hcl. pose proof (ct_procs _ _ C) as El.
  assert (Hi' : (i < length (procs s))%nat) by (by rewrite El).
  assert (Eo : forall q, p_ofile (procat q (set_procs (alter (set_p_state st) i (procs s)) s)) = p_ofile (procat q s)).
  { intros q. rewrite procat_alter by done. case_decide; by subst. }
  split; intros; rewrite ?Eo.
  - cbn. by rewrite length_alter.
  - apply C.
  - by apply C.
  - rewrite Eo in H0. by eapply C.
  - rewrite procat_alter in H0 by done. case_decide; [by subst|by apply C].
  - rewrite (ct_ref _ _ C f H : f_ref (fileat f (set_procs _ s)) = _). f_equal. symmetry.
    apply refs_ext; [cbn; apply length_alter|exact Eo].
Qed.

(** ** Runs that fail no check on counts *)

Definition none_held : nat -> Z := fun _ => 0.
Definition zombie_ok (s : kst) : Prop :=
  forall p, cur s = Some p -> p_state (procat p s) = ZOMBIE -> counted none_held s.

(** References in the hands of the code: those of a list of at most two. *)
Definition in_hands (x : nat -> Z) : Prop :=
  exists l : list nat, (length l <= 2)%nat /\ forall f, x f = fcount f (Some <$> l).

(** [exit] has given up the last reference to a file, and the descriptor for it is still there. *)
Definition closing (s : kst) : Prop :=
  exists p fd f, cur s = Some p /\ dead (p_state (procat p s)) = false /\
    p_ofile (procat p s) !! fd = Some (Some f) /\ f_ref (fileat f s) = 0 /\
    counted (fun g => - one (Some f) g) s.

(** The counts, where a call may switch away; [closes] tells whether it is [exit]. *)
Definition accounted (closes : bool) (s : kst) : Prop :=
  (exists x, in_hands x /\ counted x s) \/ (closes = true /\ closing s).

Lemma accounted_same closes s s' : same s s' -> accounted closes s -> accounted closes s'.
Proof.
  intros S [(x & Hx & C)|(E & p & fd & f & Hc & Hd & Hf & Hr & C)]; [left; exists x; split; [done|by eapply counted_same]|].
  right. split; [done|]. exists p, fd, f. rewrite (same_cur _ _ S), (same_ofile _ _ S), (same_ref _ _ S).
  split_and!; try done; [|by eapply counted_same].
  destruct (dead (p_state (procat p s'))) eqn:E'; [|done]. apply (same_dead _ _ S) in E'. congruence.
Qed.

Lemma accounted_inv closes p x s : fd_inv p x s -> in_hands x -> accounted closes s.
Proof. intros I Hx. left. exists x. split; [done|apply I]. Qed.
Lemma in_hands_none : in_hands none_held.
Proof. exists []. by split; [cbn; lia|]. Qed.
#[local] Hint Resolve accounted_inv in_hands_none : core.

Section Ops.
Context {L : Linker} (closes : bool).

(** [fine c Q s]: when [c] returns, [Q]; it panics only for other reasons than the counts; when
    it switches away everything is accounted for, and when it has done so for good, the dead process has left
    everything counted. *)
Definition fine {A} (c : M A) (Q : A -> kst -> Prop) (s : kst) : Prop :=
  match c s with
  | Ok a s' => Q a s'
  | Panic m => good_msg m = true
  | Sleep _ s' => zombie_ok s' /\ accounted closes s'
  | Diverge => True
  end.

Section Fine.
Context {A B : Type}.
Implicit Types (c : M A) (k : A -> M B).

Lemma fine_bind c k Q s : fine c (fun a s' => fine (k a) Q s') s -> fine (bind c k) Q s.
Proof. unfold fine, bind. by destruct (c s). Qed.
Lemma fine_mono c (Q Q' : A -> kst -> Prop) s :
  fine c Q s -> (forall a s', Q a s' -> Q' a s') -> fine c Q' s.
Proof. unfold fine. destruct (c s); auto. Qed.
Lemma fine_wp c Q s : wp c Q s -> fine c Q s.
Proof. unfold fine, wp. by destruct (c s). Qed.
Lemma fine_keeps c `{!Keeps c} (Q : A -> kst -> Prop) s :
  accounted closes s -> (forall a s', same s s' -> Q a s') -> fine c Q s.
Proof.
  intros Ha H. pose proof (keeps (c := c) s) as K. unfold kept in K. unfold fine.
  destruct (c s); auto. destruct K as (S & p & Hc & Hz).
  split; [intros q Hq Hz'; congruence|by eapply accounted_same].
Qed.
Lemma fine_keeps_bind c `{!Keeps c} k Q s :
  accounted closes s -> (forall a s', same s s' -> fine (k a) Q s') -> fine (bind c k) Q s.
Proof. intros Ha H. apply fine_bind, fine_keeps; [done|done|]. exact H. Qed.
Lemma fine_get_bind (f : kst -> A) k Q s : fine (k (f s)) Q s -> fine (bind (get f) k) Q s.
Proof. done. Qed.
End Fine.

Lemma fine_upd_bind {B} f (k : unit -> M B) Q s : fine (k tt) Q (f s) -> fine (bind (upd f) k) Q s.
Proof. done. Qed.
Lemma fine_acquire_bind {B} lk (k : unit -> M B) Q s :
  (forall h, fine (k tt) Q (set_held h s)) -> fine (bind (acquire lk) k) Q s.
Proof. intros H. unfold fine, bind, acquire. destruct (holding lk s); [done|]. apply H. Qed.
Lemma fine_release_bind {B} lk (k : unit -> M B) Q s :
  (forall h, fine (k tt) Q (set_held h s)) -> fine (bind (release lk) k) Q s.
Proof. intros H. unfold fine, bind, release. destruct (holding lk s); [|done]. apply H. Qed.
Lemma fine_release lk (Q : unit -> kst -> Prop) s :
  (forall h, Q tt (set_held h s)) -> fine (release lk) Q s.
Proof. intros H. unfold fine, release. destruct (holding lk s); [|done]. apply H. Qed.
Lemma fine_myproc_bind {B} p (k : nat -> M B) Q s :
  cur s = Some p -> fine (k p) Q s -> fine (bind myproc_ k) Q s.
Proof. intros Hc H. apply fine_bind, fine_wp. by eapply wp_myproc_. Qed.

Lemma fine_tf_get_bind {B} p off (k : Z -> M B) Q s :
  fine (k (load64 (mem s) (p_trapframe (procat p s) + off))) Q s -> fine (bind (tf_get p off) k) Q s.
Proof. done. Qed.

Lemma held_same h s : same s (set_held h s).
Proof. by split. Qed.

Implicit Types (p f np : nat) (x : nat -> Z).

(** ** [filealloc], [filedup], [fileclose] *)

(** One reference more, or one less, in the hands of the code. *)
Definition plus x f : nat -> Z := fun g => x g + one (Some f) g.
Definition minus x f : nat -> Z := fun g => x g - one (Some f) g.

Lemma one_some f g : one (Some f) g = if decide (g = f) then 1 else 0.
Proof. unfold one. repeat case_decide; congruence. Qed.

Lemma fd_inv_with_ref p x s f r y :
  fd_inv p x s -> (f < NFILE)%nat ->
  (forall g, y g = x g + (if decide (g = f) then r - f_ref (fileat f s) else 0)) ->
  fd_inv p y (with_ref f r s).
Proof.
  intros I Hf E. destruct I as [C Hc Hp Hd]. split; try done.
  eapply counted_ext; [|by apply counted_with_ref]. intros g. by rewrite E.
Qed.

(** What a function does to the running process's descriptors and to the others. *)
Definition ofiles (s s' : kst) : Prop := forall q, p_ofile (procat q s') = p_ofile (procat q s).

Lemma same_ofiles s s' : same s s' -> ofiles s s'.
Proof. intros S q. apply (same_ofile _ _ S). Qed.

Lemma fine_filealloc_loop p x k : forall f s,
  fd_inv p x s -> (f + k <= NFILE)%nat ->
  fine (filealloc_loop f k) (fun o s' => ofiles s s' /\
    match o with Some f => (f < NFILE)%nat /\ fd_inv p (plus x f) s' | None => fd_inv p x s' end) s.
Proof.
  induction k as [|k IH]; intros f s I Hf; cbn [filealloc_loop].
  - apply fine_release_bind. intros h. split; [done|]. by eapply fd_inv_same; [apply held_same|].
  - apply fine_get_bind. destruct (Z.eqb_spec (f_ref (fileat f s)) 0) as [E|E].
    + apply fine_upd_bind, fine_release_bind. intros h. split; [done|]. split; [lia|].
      eapply fd_inv_same; [apply held_same|]. eapply (fd_inv_with_ref p x s f 1); [done|lia|].
      intros g. unfold plus. rewrite one_some, E. case_decide; lia.
    + apply IH; [done|lia].
Qed.

Lemma fine_filealloc p x s :
  fd_inv p x s ->
  fine filealloc (fun o s' => ofiles s s' /\
    match o with Some f => (f < NFILE)%nat /\ fd_inv p (plus x f) s' | None => fd_inv p x s' end) s.
Proof.
  intros I. apply fine_acquire_bind. intros h.
  eapply fine_mono; [apply (fine_filealloc_loop p x); [by eapply fd_inv_same; [apply held_same|]|lia]|].
  intros o s' [Ho H]. split; [exact Ho|exact H].
Qed.

Lemma fine_filedup p x s f :
  fd_inv p x s -> (f < NFILE)%nat -> 1 <= refs f (procs s) + x f -> x f <= 1 ->
  fine (filedup f) (fun r s' => r = f /\ procs s' = procs s /\ fd_inv p (plus x f) s') s.
Proof.
  intros I Hf H1 Hx. apply fine_acquire_bind. intros h. apply fine_get_bind.
  pose proof (fi_counted _ _ _ I) as C. pose proof (ct_ref _ _ C f Hf) as E. pose proof (refs_bound _ _ f C) as Hb.
  change (fileat f (set_held h s)) with (fileat f s).
  destruct (Z.ltb_spec (f_ref (fileat f s)) 1); [lia|].
  apply fine_upd_bind, fine_release_bind. intros h'. split; [done|]. split; [done|].
  eapply fd_inv_same; [apply held_same|]. rewrite i32_small by lia.
  eapply (fd_inv_with_ref p x (set_held h s)); [by eapply fd_inv_same; [apply held_same|]|done|].
  intros g. unfold plus. rewrite one_some. change (fileat f (set_held h s)) with (fileat f s). case_decide; lia.
Qed.

Lemma fine_fileclose p x s f :
  fd_inv p x s -> (f < NFILE)%nat -> 1 <= refs f (procs s) + x f ->
  (forall s', fd_inv p (minus x f) s' -> ofiles s s' -> f_ref (fileat f s') = 0 -> accounted closes s') ->
  fine (fileclose f) (fun _ s' => ofiles s s' /\ fd_inv p (minus x f) s') s.
Proof.
  intros I Hf H1 Ha. apply fine_acquire_bind. intros h. apply fine_get_bind.
  pose proof (ct_ref _ _ (fi_counted _ _ _ I) f Hf) as E.
  change (fileat f (set_held h s)) with (fileat f s). set (r := f_ref (fileat f s)) in *.
  destruct (Z.ltb_spec r 1); [lia|]. apply fine_upd_bind.
  assert (I1 : fd_inv p (minus x f) (with_ref f (r - 1) (set_held h s))).
  { eapply (fd_inv_with_ref p x (set_held h s)); [by eapply fd_inv_same; [apply held_same|]|done|].
    intros g. unfold minus. rewrite one_some. change (fileat f (set_held h s)) with (fileat f s).
    fold r. case_decide; lia. }
  set (s1 := with_ref f (r - 1) (set_held h s)) in *.
  change (set_files (alter (set_f_ref (r - 1)) f (files (set_held h s))) (set_held h s)) with s1.
  assert (O1 : ofiles s s1) by done.
  assert (R1 : f_ref (fileat f s1) = r - 1).
  { unfold s1, fileat. cbn. rewrite list_lookup_total_alter_eq; [done|].
    by rewrite (ct_files _ _ (fi_counted _ _ _ I)). }
  clearbody s1. destruct (Z.ltb_spec 0 (r - 1)).
  - apply fine_release. intros h'. split; [done|]. by eapply fd_inv_same; [apply held_same|].
  - apply fine_get_bind, fine_upd_bind.
    assert (I2 : fd_inv p (minus x f) (with_ref f 0 s1)).
    { eapply fd_inv_with_ref; [exact I1|done|]. intros g. case_decide; [subst g|]; lia. }
    set (s2 := with_ref f 0 s1) in *.
    change (set_files (alter (set_f_ref 0) f (files s1)) s1) with s2.
    assert (R2 : f_ref (fileat f s2) = 0).
    { unfold s2, fileat. cbn. rewrite list_lookup_total_alter_eq; [done|]. by rewrite (ct_files _ _ (fi_counted _ _ _ I1)). }
    apply fine_keeps; [keep|by apply Ha|]. intros _ s3 S3. split; [|by eapply fd_inv_same].
    intros q. rewrite (same_ofile _ _ S3 q). apply O1.
Qed.

(** ** Descriptors *)

Lemma fd_inv_with_fd p x s q fd o y :
  fd_inv p x s -> (q < NPROC)%nat -> (fd < NOFILE)%nat -> dead (p_state (procat q s)) = false ->
  (forall f, o = Some f -> (f < NFILE)%nat) ->
  (forall f, y f = x f - one o f + one (p_ofile (procat q s) !!! fd) f) ->
  fd_inv p y (with_fd q fd o s).
Proof.
  intros I Hq Hfd Hd Ho E. destruct I as [C Hc Hp Hdp]. split; try done.
  - eapply counted_ext; [|by apply counted_with_fd]. intros f. by rewrite E.
  - rewrite procat_with_fd by (by rewrite (ct_procs _ _ C)). case_decide; by subst.
Qed.

(** The slots of a process that are in use, by their file. *)
Lemma nth_ofile x s p fd :
  counted x s -> (p < NPROC)%nat -> (fd < NOFILE)%nat ->
  p_ofile (procat p s) !! fd = Some (nth fd (p_ofile (procat p s)) None) /\
  p_ofile (procat p s) !!! fd = nth fd (p_ofile (procat p s)) None.
Proof.
  intros C Hp Hfd. pose proof (ct_ofile _ _ C p Hp) as E.
  destruct (lookup_lt_is_Some_2 (p_ofile (procat p s)) fd) as [o Ho]; [lia|].
  rewrite (nth_lookup_Some _ _ _ _ Ho). split; [done|]. by apply list_lookup_total_correct.
Qed.

Definition fd_given (p f : nat) x (s : kst) (fd : Z) (s' : kst) : Prop :=
  (fd = -1 /\ s' = s) \/
  (exists n, fd = Z.of_nat n /\ (n < NOFILE)%nat /\ nth n (p_ofile (procat p s)) None = None /\
     s' = with_fd p n (Some f) s /\ fd_inv p (minus x f) s').

Lemma fine_fdalloc p x s f :
  fd_inv p x s -> (f < NFILE)%nat -> fine (fdalloc f) (fd_given p f x s) s.
Proof.
  intros I Hf. eapply fine_myproc_bind; [apply I|].
  assert (H : forall k fd, (fd + k <= NOFILE)%nat -> fine (fdalloc_loop p f fd k) (fd_given p f x s) s).
  2: by apply H.
  induction k as [|k IH]; intros fd Hk; cbn [fdalloc_loop]; [by left|].
  apply fine_get_bind. destruct (nth fd (p_ofile (procat p s)) None) as [g|] eqn:E; [apply IH; lia|].
  apply fine_upd_bind. right. exists fd. split_and!; [done|lia|done|done|].
  destruct (nth_ofile x s p fd) as [_ E2]; [apply I|apply I|lia|].
  eapply fd_inv_with_fd; [exact I|apply I|lia|apply I|naive_solver|].
  intros g. rewrite E2, E. unfold minus. unfold one at 3. rewrite decide_False by done. lia.
Qed.

Lemma fine_argfd p x s n :
  fd_inv p x s -> in_hands x ->
  fine (argfd n) (fun a s' => fd_inv p x s' /\
    match a with
    | Some (fd, f) => (fd < NOFILE)%nat /\ nth fd (p_ofile (procat p s')) None = Some f /\ (f < NFILE)%nat /\
                      1 <= refs f (procs s')
    | None => True
    end) s.
Proof.
  intros I Hx. unfold argfd. apply fine_keeps_bind; [apply _|eauto|]. intros v s1 S1.
  assert (I1 := fd_inv_same _ _ _ _ S1 I). destruct ((v <? 0) || (Z.of_nat NOFILE <=? v)) eqn:Eb; [by split|].
  apply orb_false_iff in Eb as [Ev1 Ev2]. apply Z.ltb_ge in Ev1. apply Z.leb_gt in Ev2.
  eapply fine_myproc_bind; [apply I1|]. apply fine_get_bind. split; [done|].
  destruct (nth _ _ None) as [f|] eqn:E; [|done]. cbn. split; [lia|]. split; [done|].
  destruct (nth_ofile x s1 p (Z.to_nat v)) as [El _]; [apply I1|apply I1|lia|]. rewrite E in El.
  split; [by eapply (ct_fd _ _ (fi_counted _ _ _ I1)), El; apply I1|].
  eapply refs_pos, El. rewrite (ct_procs _ _ (fi_counted _ _ _ I1)). apply I1.
Qed.

Definition good {A} p (c : M A) : Prop :=
  forall s, fd_inv p none_held s -> fine c (fun _ s' => fd_inv p none_held s') s.

Lemma good_keeps {A} p (c : M A) : Keeps c -> good p c.
Proof. intros K s I. apply fine_keeps; [done|eauto|]. intros a s' S. by eapply fd_inv_same. Qed.

Lemma good_sys_dup p : good p sys_dup.
Proof.
  intros s I. unfold sys_dup. eapply fine_bind, fine_mono; [by apply fine_argfd; [|apply in_hands_none]|].
  intros [[fd f]|] s1 [I1 H]; [|done]. destruct H as (_ & _ & Hf & Hr).
  eapply fine_bind, fine_mono; [by apply fine_fdalloc|].
  intros v s2 [(-> & ->)|(n & -> & Hn & En & E2 & I2)]; [done|].
  destruct (Z.ltb_spec (Z.of_nat n) 0); [lia|].
  eapply fine_bind, fine_mono; [apply (fine_filedup p); [exact I2|done| |]|].
  - rewrite <-(ct_ref _ _ (fi_counted _ _ _ I2) f Hf). subst s2.
    change (fileat f (with_fd p n (Some f) s1)) with (fileat f s1).
    rewrite (ct_ref _ _ (fi_counted _ _ _ I1) f Hf). unfold none_held. lia.
  - unfold minus, none_held. pose proof (one_range (Some f) f). lia.
  - intros r s3 (_ & _ & I3). eapply fd_inv_ext, I3. intros g. unfold plus, minus, none_held. lia.
Qed.

Lemma fd_inv_close p x s fd f :
  fd_inv p x s -> (fd < NOFILE)%nat -> nth fd (p_ofile (procat p s)) None = Some f ->
  fd_inv p (plus x f) (with_fd p fd None s).
Proof.
  intros I Hfd E. destruct (nth_ofile x s p fd) as [_ E2]; [apply I|apply I|done|].
  eapply fd_inv_with_fd; [exact I|apply I|lia|apply I|done|].
  intros g. rewrite E2, E. unfold plus. unfold one at 2. rewrite decide_False by done. lia.
Qed.

(** A reference in hand is a reference that counts. *)
Lemma in_hand p x s f : fd_inv p x s -> 1 <= x f -> 1 <= refs f (procs s) + x f.
Proof. intros I H. pose proof (refs_bound _ _ f (fi_counted _ _ _ I)). lia. Qed.

Lemma plus_same x f : 0 <= x f -> 1 <= plus x f f.
Proof. intros H. unfold plus. rewrite one_some, decide_True by done. lia. Qed.
Lemma plus_le x f g : x g <= plus x f g.
Proof. unfold plus. pose proof (one_range (Some f) g). lia. Qed.
Lemma plus_minus x f g : minus (plus x f) f g = x g.
Proof. unfold plus, minus. lia. Qed.

Lemma in_hands_pos x f : in_hands x -> 0 <= x f.
Proof. intros (l & _ & ->). apply fcount_range. Qed.
Lemma in_hands_one f : in_hands (plus none_held f).
Proof. exists [f]. split; [cbn; lia|]. intros g. unfold plus, none_held. cbn. lia. Qed.
Lemma in_hands_two f g : in_hands (plus (plus none_held f) g).
Proof. exists [f; g]. split; [cbn; lia|]. intros i. unfold plus, none_held. cbn. lia. Qed.
#[local] Hint Resolve in_hands_one in_hands_two : core.

(** Giving back a reference in hand. *)
Lemma fine_drop p x s f :
  fd_inv p (plus x f) s -> in_hands x -> (f < NFILE)%nat ->
  fine (fileclose f) (fun _ s' => ofiles s s' /\ fd_inv p x s') s.
Proof.
  intros I Hx Hf. eapply fine_mono; [apply (fine_fileclose p (plus x f)); [exact I|done| |]|].
  - by eapply in_hand, plus_same, in_hands_pos.
  - intros s' I' _ _. eapply accounted_inv, Hx. eapply fd_inv_ext, I'. apply plus_minus.
  - intros _ s' [O I']. split; [done|]. eapply fd_inv_ext, I'. apply plus_minus.
Qed.

Lemma good_sys_close p : good p sys_close.
Proof.
  intros s I. unfold sys_close. eapply fine_bind, fine_mono; [by apply fine_argfd; [|apply in_hands_none]|].
  intros [[fd f]|] s1 [I1 H]; [|done]. destruct H as (Hfd & En & Hf & Hr).
  eapply fine_myproc_bind; [apply I1|]. apply fine_upd_bind.
  assert (I2 := fd_inv_close _ _ _ _ _ I1 Hfd En).
  eapply fine_bind, fine_mono; [by apply (fine_drop p none_held); [|apply in_hands_none|]|]. by intros _ s3 [_ I3].
Qed.

Lemma good_open_inode p ip omode : good p (open_inode ip omode).
Proof.
  intros s I. unfold open_inode. do 2 apply fine_get_bind.
  destruct (_ && _); [apply good_keeps; [keep|done]|].
  eapply fine_bind, fine_mono; [by apply fine_filealloc|].
  intros [f|] s1 [_ H]; [|apply fine_bind; apply good_keeps; [keep|done]].
  destruct H as [Hf I1]. eapply fine_bind, fine_mono; [by apply fine_fdalloc|].
  intros v s2 [(-> & ->)|(n & -> & Hn & En & E2 & I2)].
  - change (-1 <? 0) with true. eapply fine_bind, fine_mono; [by apply (fine_drop p none_held); [|apply in_hands_none|]|].
    intros _ s3 [_ I3]. apply good_keeps; [keep|done].
  - destruct (Z.ltb_spec (Z.of_nat n) 0); [lia|].
    apply good_keeps; [keep|]. eapply fd_inv_ext, I2. apply plus_minus.
Qed.

Lemma good_bind {A B} p (c : M A) (k : A -> M B) :
  good p c -> (forall a, good p (k a)) -> good p (bind c k).
Proof.
  intros Hc Hk s I. eapply fine_bind, fine_mono; [by apply Hc|]. intros a s' I'. by apply Hk.
Qed.

Lemma good_sys_open p : good p sys_open.
Proof.
  unfold sys_open.
  apply good_bind; [apply good_keeps; keep|intros omode].
  apply good_bind; [apply good_keeps; keep|intros [n path]].
  destruct (n <? 0); [apply good_keeps; keep|].
  apply good_bind; [apply good_keeps; keep|intros _]. destruct (has omode O_CREATE).
  - apply good_bind; [apply good_keeps; keep|intros [ip|]]; [apply good_open_inode|apply good_keeps; keep].
  - apply good_bind; [apply good_keeps; keep|intros [ip|]]; [|apply good_keeps; keep].
    apply good_bind; [apply good_keeps; keep|intros _].
    apply good_bind; [apply good_keeps; keep|intros ty].
    destruct (_ && _); [apply good_keeps; keep|apply good_open_inode].
Qed.

(** ** Pipes *)

Lemma nth_with_fd x s p n o i :
  counted x s -> (p < NPROC)%nat -> (n < NOFILE)%nat ->
  nth i (p_ofile (procat p (with_fd p n o s))) None =
    if decide (i = n) then o else nth i (p_ofile (procat p s)) None.
Proof.
  intros C Hp Hn. rewrite procat_with_fd, decide_True by (done || by rewrite (ct_procs _ _ C)). cbn.
  pose proof (ct_ofile _ _ C p Hp) as El. rewrite !nth_lookup. case_decide as E.
  - subst. by rewrite list_lookup_insert_eq by lia.
  - by rewrite list_lookup_insert_ne by done.
Qed.

Lemma fine_pipealloc p s :
  fd_inv p none_held s ->
  fine pipealloc (fun o s' =>
    match o with
    | Some (rf, wf) => (rf < NFILE)%nat /\ (wf < NFILE)%nat /\ fd_inv p (plus (plus none_held rf) wf) s'
    | None => fd_inv p none_held s'
    end) s.
Proof.
  intros I. unfold pipealloc. eapply fine_bind, fine_mono; [by apply fine_filealloc|].
  intros [a|] s1 [_ H1]; [|exact H1].
  destruct H1 as [Ha I1].
  eapply fine_bind, fine_mono; [by apply fine_filealloc|]. intros [b|] s2 [_ H2].
  - destruct H2 as [Hb I2]. apply fine_keeps_bind; [apply _|eauto|]. intros pi s3 S3.
    assert (I3 := fd_inv_same _ _ _ _ S3 I2). destruct (pi =? 0).
    + eapply fine_bind, fine_mono.
      { apply (fine_drop p (plus none_held b)); [|done|done].
        eapply fd_inv_ext, I3. intros g. unfold plus. lia. }
      intros _ s4 [_ I4]. eapply fine_bind, fine_mono; [by apply (fine_drop p none_held); [|apply in_hands_none|]|]. by intros _ s5 [_ I5].
    + apply fine_keeps_bind; [apply _|eauto|]. intros _ s4 S4. assert (I4 := fd_inv_same _ _ _ _ S4 I3).
      apply fine_keeps_bind; [keep|eauto|]. intros _ s5 S5. assert (I5 := fd_inv_same _ _ _ _ S5 I4).
      apply fine_keeps_bind; [keep|eauto|]. intros _ s6 S6.
      split; [done|]. split; [done|]. by eapply fd_inv_same.
  - apply fine_bind. eapply fine_bind, fine_mono; [by apply (fine_drop p none_held); [|apply in_hands_none|]|]. by intros _ s5 [_ I5].
Qed.

Lemma good_sys_pipe p : good p sys_pipe.
Proof.
  intros s I. unfold sys_pipe. eapply fine_myproc_bind; [apply I|].
  apply fine_keeps_bind; [apply _|eauto|]. intros fdarray s1 S1. assert (I1 := fd_inv_same _ _ _ _ S1 I).
  eapply fine_bind, fine_mono; [by apply fine_pipealloc|]. intros [[rf wf]|] s2 H2; [|exact H2].
  destruct H2 as (Hr & Hw & I2).
  assert (Hdrop : forall s, fd_inv p (plus (plus none_held rf) wf) s ->
    fine (fileclose rf ;;; fileclose wf ;;; ret (-1)) (fun _ s' => fd_inv p none_held s') s).
  { clear -Hr Hw. intros s I. eapply fine_bind, fine_mono.
    { apply (fine_drop p (plus none_held wf)); [|done|done].
      eapply fd_inv_ext, I. intros g. unfold plus. lia. }
    intros _ s4 [_ I4]. eapply fine_bind, fine_mono; [by apply (fine_drop p none_held); [|apply in_hands_none|]|]. by intros _ s5 [_ I5]. }
  eapply fine_bind, fine_mono; [by apply fine_fdalloc|].
  intros v s3 [(-> & ->)|(n & -> & Hn & En & E3 & I3)].
  { change (-1 <? 0) with true. cbn iota. apply fine_bind.
    change (fine (fileclose rf ;;; fileclose wf ;;; ret (-1)) (fun _ s' => fd_inv p none_held s') s2). by apply Hdrop. }
  destruct (Z.ltb_spec (Z.of_nat n) 0); [lia|].
  eapply fine_bind, fine_mono; [by apply fine_fdalloc|].
  intros v s4 [(-> & ->)|(m & -> & Hm & Em & E4 & I4)].
  - change (-1 <? 0) with true. cbn [orb]. destruct (Z.leb_spec 0 (Z.of_nat n)); [|lia].
    rewrite Nat2Z.id. apply fine_upd_bind. apply Hdrop.
    eapply fd_inv_ext, (fd_inv_close p _ s3 n rf I3 Hn); [intros g; unfold plus, minus; lia|].
    subst s3. by rewrite (nth_with_fd _ _ _ _ _ _ (fi_counted _ _ _ I2)), decide_True by (done || apply I2).
  - destruct (Z.ltb_spec (Z.of_nat m) 0); [lia|]. cbn [orb]. rewrite !Nat2Z.id.
    assert (I4' : fd_inv p none_held s4) by (eapply fd_inv_ext, I4; intros g; unfold plus, minus; lia).
    apply fine_get_bind. apply fine_keeps_bind; [apply _|eauto|]. intros r1 s5 S5.
    assert (I5 := fd_inv_same _ _ _ _ S5 I4'). apply fine_keeps_bind; [keep|eauto|]. intros r2 s6 S6.
    assert (S : same s4 s6) by by etrans. assert (I6' := fd_inv_same _ _ _ _ S I4'). clear r1 s5 S5 I5 S6.
    destruct (r2 <? 0); [|done]. do 2 apply fine_upd_bind. apply Hdrop.
    assert (E3n : nth n (p_ofile (procat p s3)) None = Some rf)
      by (subst s3; by rewrite (nth_with_fd _ _ _ _ _ _ (fi_counted _ _ _ I2)), decide_True by (done || apply I2)).
    assert (E6 : forall i, nth i (p_ofile (procat p s6)) None =
      if decide (i = m) then Some wf else nth i (p_ofile (procat p s3)) None).
    { intros i. rewrite (same_ofile _ _ S p). subst s4.
      apply (nth_with_fd _ _ _ _ _ _ (fi_counted _ _ _ I3)); [apply I3|done]. }
    assert (I7 := fd_inv_close p _ s6 n rf I6' Hn). rewrite E6, decide_False in I7 by congruence.
    specialize (I7 E3n). apply (fd_inv_close p _ _ m wf I7 Hm).
    rewrite (nth_with_fd _ _ _ _ _ _ (fi_counted _ _ _ I6')) by (done || apply I6').
    by rewrite decide_False, E6, decide_True by congruence.
Qed.

(** ** Processes *)

Definition closed (i : nat) (s : kst) : Prop := p_ofile (procat i s) = replicate NOFILE None.

Lemma fd_inv_die p x s i st :
  fd_inv p x s -> (i < NPROC)%nat -> i <> p -> closed i s ->
  fd_inv p x (set_procs (alter (set_p_state st) i (procs s)) s).
Proof.
  intros [C Hc Hp Hd] Hi Hne Hcl. split; [by apply counted_die|done|done|].
  rewrite procat_alter by (by rewrite (ct_procs _ _ C)). by rewrite decide_False.
Qed.

(** All of [freeproc] but its last assignment is harmless. *)
Lemma fine_freeproc p x s i :
  fd_inv p x s -> in_hands x -> (i < NPROC)%nat -> i <> p -> closed i s ->
  fine (freeproc i) (fun _ s' => fd_inv p x s') s.
Proof.
  intros I Hx Hi Hne Hcl. unfold freeproc.
  repeat (lazymatch goal with
    | |- fine (bind _ _) _ ?s =>
        apply fine_keeps_bind; [keep|eauto|];
        let s' := fresh "s" in let S := fresh "S" in intros ? s' S;
        apply (fd_inv_same _ _ _ _ S) in I; unfold closed in Hcl; rewrite <-(same_ofile _ _ S i) in Hcl; clear S
    end).
  by apply fd_inv_die.
Qed.

Lemma fine_allocproc_scan k : forall i s,
  accounted closes s ->
  fine (allocproc_scan i k) (fun o s' => same s s' /\
    match o with Some j => p_state (procat j s') = UNUSED /\ (j < i + k)%nat | None => True end) s.
Proof.
  induction k as [|k IH]; intros i s Ha; cbn [allocproc_scan]; [by split|].
  apply fine_keeps_bind; [apply _|eauto|]. intros _ s1 S1. apply fine_get_bind. case_bool_decide as E.
  - split; [done|]. split; [done|lia].
  - apply fine_keeps_bind; [apply _|by eapply accounted_same|]. intros _ s2 S2. eapply fine_mono; [apply IH; by do 2 (eapply accounted_same; [eassumption|])|].
    intros o s3 [S3 H]. split; [by etrans; [|etrans]|]. destruct o; [|done]. destruct H. split; [done|lia].
Qed.

(** The new process: another one, without descriptors. *)
Definition newborn p x np (s : kst) : Prop :=
  fd_inv p x s /\ (np < NPROC)%nat /\ np <> p /\ closed np s.

Lemma newborn_same p x np s s' : same s s' -> newborn p x np s -> newborn p x np s'.
Proof.
  intros S (I & H1 & H2 & H3). split; [by eapply fd_inv_same|]. split_and!; [done|done|].
  unfold closed. by rewrite (same_ofile _ _ S).
Qed.

(** Once it has been taken, it is live. *)
Definition infant p x np (s : kst) : Prop := newborn p x np s /\ dead (p_state (procat np s)) = false.

Lemma infant_same p x np s s' : same s s' -> infant p x np s -> infant p x np s'.
Proof.
  intros S [N H]. split; [by eapply newborn_same|]. destruct (dead (p_state (procat np s'))) eqn:E; [|done].
  apply (same_dead _ _ S) in E. congruence.
Qed.

(** Harmless code keeps what [same] keeps. *)
Lemma fine_stable {A B} (P : kst -> Prop) (c : M A) (k : A -> M B) Q s :
  Keeps c -> accounted closes s -> (forall s', same s s' -> P s -> P s') -> P s ->
  (forall a s', P s' -> fine (k a) Q s') -> fine (bind c k) Q s.
Proof. intros K Ha HP H Hk. apply fine_keeps_bind; [done|done|]. intros a s' S. apply Hk. by apply HP. Qed.

(** Run a harmless step of the function at hand, keeping what is known of the new process. *)
Ltac newborn_step :=
  match goal with N : newborn ?p ?x ?np ?s |- fine _ _ ?s =>
    apply (fine_stable (newborn p x np)); [keep|eapply accounted_inv; [apply N|done]|let S := fresh in intros ? S; exact (newborn_same _ _ _ _ _ S)|exact N|]
  end.
Ltac infant_step :=
  match goal with N : infant ?p ?x ?np ?s |- fine _ _ ?s =>
    apply (fine_stable (infant p x np)); [keep|eapply accounted_inv; [apply N|done]|let S := fresh in intros ? S; exact (infant_same _ _ _ _ _ S)|exact N|]
  end.

Lemma fine_free_newborn {A} p x np s (a : A) (Q : A -> kst -> Prop) :
  newborn p x np s -> in_hands x -> (forall s', fd_inv p x s' -> Q a s') ->
  fine (freeproc np ;;; release (LkProc np) ;;; ret a) Q s.
Proof.
  intros (I & H1 & H2 & H3) Hx HQ. eapply fine_bind, fine_mono; [by apply (fine_freeproc p x)|].
  intros ? s' I'. cbv beta in I'. apply fine_keeps_bind; [apply _|eauto|]. intros _ s2 S2. apply HQ. by eapply fd_inv_same.
Qed.

Lemma fine_allocproc p x s :
  fd_inv p x s -> in_hands x ->
  fine allocproc (fun o s' =>
    match o with
    | Some np => infant p x np s'
    | None => fd_inv p x s'
    end) s.
Proof.
  intros I Hx. unfold allocproc. eapply fine_bind, fine_mono; [apply fine_allocproc_scan; eauto|].
  intros [np|] s1 [S1 H]; [|by eapply fd_inv_same]. destruct H as [Est Hnp].
  assert (I1 := fd_inv_same _ _ _ _ S1 I).
  assert (N : newborn p x np s1).
  { split; [done|]. split; [lia|]. split.
    - intros ->. pose proof (fi_live _ _ _ I1) as Hl. by rewrite Est in Hl.
    - apply (ct_dead _ _ (fi_counted _ _ _ I1)); [lia|by rewrite Est]. }
  newborn_step. intros pid s2 N2. newborn_step. intros _ s3 N3. apply fine_upd_bind.
  assert (N4 : infant p x np (set_procs (alter (set_p_state USED) np (procs s3)) s3)).
  { assert (E := keeps_updp np (set_p_state USED) ltac:(by intros []) s3). apply (newborn_same _ _ _ _ _ E) in N3 as N4.
    split; [done|]. destruct N3 as (I3 & H3 & _). rewrite procat_alter, decide_True; [done|done|].
    by rewrite (ct_procs _ _ (fi_counted _ _ _ I3)). }
  infant_step. intros tf s5 N5. infant_step. intros _ s6 N6.
  destruct (tf =? 0); [by eapply fine_free_newborn; [apply N6|done|]|].
  infant_step. intros pt s7 N7. infant_step. intros _ s8 N8.
  destruct (pt =? 0); [by eapply fine_free_newborn; [apply N8|done|]|].
  infant_step. by intros _ s9 N9.
Qed.

(** [fork] has copied the descriptors below [i]. *)
Definition filling p np (i : nat) (s : kst) : Prop :=
  fd_inv p none_held s /\ (np < NPROC)%nat /\ np <> p /\ dead (p_state (procat np s)) = false /\
  forall j, (i <= j)%nat -> nth j (p_ofile (procat np s)) None = None.

Lemma filling_next p np i s :
  filling p np i s -> (i < NOFILE)%nat ->
  fine (match nth i (p_ofile (procat p s)) None with
        | Some f => let! f := filedup f in updp np (fun q => set_p_ofile (<[i := Some f]> (p_ofile q)) q)
        | None => ret tt
        end) (fun _ s' => filling p np (S i) s') s.
Proof.
  intros (I & Hnp & Hne & Hd & Hj) Hi. pose proof (fi_counted _ _ _ I) as C.
  destruct (nth i (p_ofile (procat p s)) None) as [f|] eqn:E.
  2: { split_and!; auto. intros j H. apply Hj. lia. }
  destruct (nth_ofile _ s p i C) as [El _]; [apply I|done|]. rewrite E in El.
  assert (Hf : (f < NFILE)%nat) by (eapply (ct_fd _ _ C p); [apply I|exact El]).
  assert (Hr : 1 <= refs f (procs s)).
  { eapply refs_pos, El. rewrite (ct_procs _ _ C). apply I. }
  eapply fine_bind, fine_mono; [apply (fine_filedup p none_held); [done|done|unfold none_held; lia|done]|].
  intros f' s1 (-> & Ep & I1). change (filling p np (S i) (with_fd np i (Some f) s1)).
  assert (Eq : forall q, procat q s1 = procat q s) by (intros q; unfold procat; by rewrite Ep).
  pose proof (fi_counted _ _ _ I1) as C1.
  destruct (nth_ofile _ s1 np i C1 Hnp Hi) as [_ E1]. rewrite Eq, Hj in E1 by lia.
  split_and!; [| done|done| |].
  - eapply (fd_inv_with_fd p (plus none_held f) s1 np i (Some f));
      [done|done|done|by rewrite Eq|by intros ? [= <-]|].
    intros g. rewrite Eq, E1. unfold plus, none_held. unfold one at 3. rewrite decide_False by done. lia.
  - rewrite procat_with_fd, decide_True by (done || by rewrite (ct_procs _ _ C1)). by rewrite Eq.
  - intros j H. rewrite (nth_with_fd _ _ _ _ _ _ C1 Hnp Hi), decide_False, Eq by lia. apply Hj. lia.
Qed.

Lemma fine_fork_files p np k : forall i s,
  filling p np i s -> (i + k <= NOFILE)%nat ->
  fine (fork_files p np i k) (fun _ s' => fd_inv p none_held s') s.
Proof.
  induction k as [|k IH]; intros i s F Hk; cbn [fork_files]; [apply F|].
  apply fine_get_bind. eapply fine_bind, fine_mono; [apply filling_next; [exact F|lia]|].
  intros ? s' F'. apply IH; [exact F'|lia].
Qed.

Lemma good_fork p : good p fork.
Proof.
  intros s I. unfold fork. eapply fine_myproc_bind; [apply I|].
  eapply fine_bind, fine_mono; [by apply fine_allocproc; [|apply in_hands_none]|]. intros [np|] s1 N1; [|exact N1].
  change (infant p none_held np s1) in N1. do 3 (infant_step; intros ? ? ?).
  infant_step. intros r s2 N2. destruct (r <? 0); [by eapply fine_free_newborn; [apply N2|done|]|].
  do 5 (infant_step; intros ? ? ?). infant_step. intros ? s3 ((I3 & Hnp & Hne & Hcl) & Hd).
  eapply fine_bind, fine_mono; [apply fine_fork_files; [|lia]|].
  - split_and!; [done|done|done|done|]. intros j _. rewrite Hcl, nth_lookup.
    destruct (replicate NOFILE None !! j) as [o|] eqn:E; [|done]. by apply lookup_replicate in E as [-> _].
  - intros ? s4 I4. apply good_keeps; [keep|done].
Qed.

(** [exit] has closed the descriptors below [fd]. *)
Definition emptied p (fd : nat) (s : kst) : Prop :=
  fd_inv p none_held s /\ forall j, (j < fd)%nat -> nth j (p_ofile (procat p s)) None = None.

Lemma emptied_next p fd s :
  closes = true -> emptied p fd s -> (fd < NOFILE)%nat ->
  fine (match nth fd (p_ofile (procat p s)) None with
        | Some f => fileclose f ;;; updp p (fun q => set_p_ofile (<[fd := None]> (p_ofile q)) q)
        | None => ret tt
        end) (fun _ s' => emptied p (S fd) s') s.
Proof.
  intros Hcl (I & Hj) Hfd. pose proof (fi_counted _ _ _ I) as C.
  destruct (nth fd (p_ofile (procat p s)) None) as [f|] eqn:E.
  2: { split; [done|]. intros j H. destruct (decide (j = fd)) as [->|]; [done|apply Hj; lia]. }
  destruct (nth_ofile _ s p fd C) as [El _]; [apply I|done|]. rewrite E in El.
  assert (Hf : (f < NFILE)%nat) by (eapply (ct_fd _ _ C p); [apply I|exact El]).
  assert (Hr : 1 <= refs f (procs s)).
  { eapply refs_pos, El. rewrite (ct_procs _ _ C). apply I. }
  eapply fine_bind, fine_mono; [apply (fine_fileclose p none_held); [done|done|unfold none_held; lia|]|].
  { intros s' I' O' R'. right. split; [done|]. exists p, fd, f. rewrite (O' p). split_and!; [apply I'|apply I'|done|done|].
    eapply counted_ext; [|apply I']. intros g. unfold minus, none_held. lia. }
  intros _ s1 [O1 I1]. change (emptied p (S fd) (with_fd p fd None s1)). pose proof (fi_counted _ _ _ I1) as C1.
  split.
  - eapply fd_inv_ext, (fd_inv_close p _ s1 fd f I1 Hfd); [intros g; unfold plus, minus, none_held; lia|].
    by rewrite O1.
  - intros j H. rewrite (nth_with_fd _ _ _ _ _ _ C1) by (done || apply I1). rewrite O1.
    case_decide; [done|]. apply Hj. lia.
Qed.

Lemma fine_exit_files p k : closes = true -> forall fd s,
  emptied p fd s -> (fd + k = NOFILE)%nat ->
  fine (exit_files p fd k) (fun _ s' => fd_inv p none_held s' /\ closed p s') s.
Proof.
  intros Hcl. induction k as [|k IH]; intros fd s F Hk; cbn [exit_files].
  - destruct F as [I Hj]. split; [done|]. pose proof (ct_ofile _ _ (fi_counted _ _ _ I) p (fi_lt _ _ _ I)) as El.
    apply list_eq. intros j. destruct (decide (j < NOFILE)%nat) as [Hlt|Hge].
    + destruct (nth_ofile _ s p j (fi_counted _ _ _ I)) as [E _]; [apply I|done|].
      rewrite E, Hj, lookup_replicate_2 by lia. done.
    + rewrite !lookup_ge_None_2; [done|rewrite length_replicate; lia|lia].
  - apply fine_get_bind. eapply fine_bind, fine_mono; [apply emptied_next; [done|exact F|lia]|].
    intros ? s' F'. apply IH; [exact F'|lia].
Qed.

Definition leaving p (s : kst) : Prop := fd_inv p none_held s /\ closed p s.
Lemma leaving_same p s s' : same s s' -> leaving p s -> leaving p s'.
Proof. intros S [I H]. split; [by eapply fd_inv_same|]. unfold closed. by rewrite (same_ofile _ _ S). Qed.
Ltac leaving_step :=
  match goal with N : leaving ?p ?s |- fine _ _ ?s =>
    apply (fine_stable (leaving p)); [keep|eapply accounted_inv; [apply N|done]|let S := fresh in intros ? S; exact (leaving_same _ _ _ S)|exact N|];
    clear N; intros ? ? ?
  end.

Lemma good_exit p st : closes = true -> good p (exit st).
Proof.
  intros Hcl s I. unfold exit. eapply fine_myproc_bind; [apply I|]. apply fine_get_bind.
  destruct (bool_decide _); [done|].
  eapply fine_bind, fine_mono; [apply (fine_exit_files p); [done|split; [done|lia]|done]|].
  intros ? s1 N. change (leaving p s1) in N. do 12 leaving_step.
  destruct H as [I2 Hno]. apply fine_upd_bind, fine_release_bind. intros h.
  set (s2 := set_held h _).
  assert (C2 : counted none_held s2).
  { eapply counted_same; [apply held_same|]. apply counted_die; [apply I2|apply I2|done]. }
  unfold fine, bind. destruct (sched_cases p s2) as [(m & -> & Hm)| ->]; [apply I2|done|].
  split; [by intros ? _ _|]. left. by exists none_held.
Qed.

Lemma fine_wait_scan p addr k : forall i havekids s,
  fd_inv p none_held s -> (i + k <= NPROC)%nat ->
  fine (wait_scan p addr havekids i k) (fun _ s' => fd_inv p none_held s') s.
Proof.
  induction k as [|k IH]; intros i havekids s I Hk; cbn [wait_scan]; [done|].
  apply fine_get_bind. case_bool_decide; [|apply IH; [done|lia]].
  apply fine_keeps_bind; [apply _|eauto|]. intros _ s1 S1. assert (I1 := fd_inv_same _ _ _ _ S1 I).
  apply fine_get_bind. case_bool_decide as Ez.
  - apply fine_get_bind. apply fine_keeps_bind; [keep|eauto|]. intros r s2 S2.
    assert (I2 := fd_inv_same _ _ _ _ S2 I1). destruct (r <? 0); [apply good_keeps; [keep|done]|].
    eapply fine_bind, fine_mono; [apply (fine_freeproc p none_held s2 i); [done|done|lia| |]|].
    + intros ->. pose proof (fi_live _ _ _ I1) as Hl. by rewrite Ez in Hl.
    + unfold closed. rewrite (same_ofile _ _ S2). apply (ct_dead _ _ (fi_counted _ _ _ I1)); [lia|by rewrite Ez].
    + intros ? s3 I3. apply good_keeps; [keep|done].
  - apply fine_keeps_bind; [apply _|eauto|]. intros _ s2 S2. apply IH; [by eapply fd_inv_same|lia].
Qed.

Lemma good_wait p addr : good p (wait addr).
Proof.
  intros s I. unfold wait. eapply fine_myproc_bind; [apply I|].
  apply fine_keeps_bind; [apply _|eauto|]. intros _ s1 S1. assert (I1 := fd_inv_same _ _ _ _ S1 I).
  eapply fine_bind, fine_mono; [apply fine_wait_scan; [done|lia]|].
  intros [pid|kids] s2 I2; apply good_keeps; (keep || done).
Qed.

End Ops.

Section Calls.
Context {L : Linker}.

Lemma good_syscalls p pad num h : syscalls pad num = Some h -> good (bool_decide (num = 2)) p h.
Proof.
  assert (Hex : good true p sys_exit).
  { apply good_bind; [apply good_keeps; keep|intros st].
    apply good_bind; [by apply good_exit|intros _; apply good_keeps; keep]. }
  assert (Hw : good false p sys_wait).
  { apply good_bind; [apply good_keeps; keep|intros a; apply good_wait]. }
  unfold syscalls. intros E.
  repeat (case_match; simplify_eq); auto using good_fork, good_sys_pipe, good_sys_dup, good_sys_open, good_sys_close;
    apply good_keeps; keep.
Qed.

(** C17: Descriptors are well typed.  As long as every descriptor of every process names an
    entry of the file table, a dead process has none, and the reference count of each
    file is the number of descriptors that name it, a system call whatever its number
    and arguments has not broken this when it returns, also where it fails half-way and undoes what it did; and
    the checks of [filedup] and [fileclose] never fail.  When a call gives up the CPU on the
    way, the counts are those of the descriptors and of at most two files it has in its hands; only in [exit],
    which clears a descriptor after it has closed the file, can there be a descriptor, of the
    process that exits itself, for a file whose count is 0.  When a process has exited,
    what it had open is closed and counted.  The counts cannot overflow. *)
Theorem descriptors_counted p pad s :
  let num := i32 (load64 (mem s) (p_trapframe (procat p s) + TF_A7)) in
  fd_inv p none_held s ->
  match syscall pad s with
  | Ok _ s' => fd_inv p none_held s'
  | Panic m => m <> "filedup" /\ m <> "fileclose"
  | Sleep _ s' =>
      (cur s' = Some p -> p_state (procat p s') = ZOMBIE -> counted none_held s') /\
      ((exists x, in_hands x /\ counted x s') \/ (num = 2 /\ closing s'))
  | Diverge => True
  end.
Proof.
  intros num I. assert (F : fine (bool_decide (num = 2)) (syscall pad) (fun _ s' => fd_inv p none_held s') s).
  { unfold syscall. eapply fine_myproc_bind; [apply I|]. apply fine_tf_get_bind. cbv zeta. fold num.
    destruct (syscalls pad num) as [h|] eqn:E.
    - eapply fine_bind, fine_mono; [by eapply good_syscalls|]. intros r s2 I2. apply good_keeps; [keep|done].
    - apply good_keeps; [keep|done]. }
  unfold fine in F. destruct (syscall pad s) as [a s'|m|c s'|]; [done| | |done].
  - unfold good_msg in F. apply negb_true_iff, bool_decide_eq_false in F. set_solver.
  - destruct F as [Fz Fa]. split; [by intros H; apply Fz|]. destruct Fa as [Fa|[Fe Fc]]; [by left|].
    right. by apply bool_decide_eq_true in Fe.
Qed.
End Calls.

(** ** A process that duplicates its only descriptor *)

Definition fd_base : kst := set_cur (Some 0%nat) (set_files (replicate NFILE file0) machine).
Definition fd_running : kst :=
  set_procs (alter (set_p_state RUNNING) 0%nat (procs fd_base)) fd_base.
(** Its trap frame holds the number of [dup] and the argument 0. *)
Definition fd_demo : kst :=
  set_mem (store64 ∅ (pg 2 + TF_A7) 10)
    (set_procs (alter (set_p_trapframe (pg 2)) 0%nat (procs (with_fd 0 0 (Some 0%nat) (with_ref 0 1 fd_running))))
      (with_fd 0 0 (Some 0%nat) (with_ref 0 1 fd_running))).

Lemma fd_base_counted : counted none_held fd_base.
Proof.
  assert (Ep : forall q, procat q fd_base = proc0).
  { intros q. unfold procat. rewrite list_lookup_total_alt. cbn [procs fd_base set_cur set_files machine].
    destruct (replicate NPROC proc0 !! q) as [r|] eqn:E; [|done]. by apply lookup_replicate in E as [-> _]. }
  split; try done; intros; rewrite ?Ep; try done.
  - rewrite Ep in H0. by apply lookup_replicate in H0 as [? _].
  - transitivity 0; [|by vm_compute]. unfold fileat.
    rewrite list_lookup_total_alt. cbn [files fd_base set_cur set_files].
    destruct (replicate NFILE file0 !! f) as [r|] eqn:E; [|done]. by apply lookup_replicate in E as [-> _].
Qed.

Lemma fd_demo_inv : fd_inv 0 none_held fd_demo.
Proof.
  assert (C1 : counted none_held fd_running) by (apply (counted_die none_held fd_base 0 RUNNING fd_base_counted); [lia|done]).
  assert (I1 : fd_inv 0 none_held fd_running) by (split; [done|done|lia|done]).
  assert (I2 : fd_inv 0 (plus none_held 0) (with_ref 0 1 fd_running)).
  { eapply fd_inv_with_ref; [exact I1|lia|]. intros g. unfold plus. rewrite one_some. by case_decide. }
  assert (I3 : fd_inv 0 none_held (with_fd 0 0 (Some 0%nat) (with_ref 0 1 fd_running))).
  { eapply fd_inv_with_fd; [exact I2|lia|lia|done|intros f [= <-]; lia|]. intros g. unfold plus, none_held.
    change (p_ofile (procat 0 (with_ref 0 1 fd_running)) !!! 0%nat) with (@None nat).
    assert (one None g = 0) by done. lia. }
  eapply fd_inv_same; [|exact I3].
  set (s0 := with_fd 0 0 (Some 0%nat) (with_ref 0 1 fd_running)).
  transitivity (set_procs (alter (set_p_trapframe (pg 2)) 0%nat (procs s0)) s0); [|by split].
  exact (keeps_updp 0 (set_p_trapframe (pg 2)) ltac:(by intros []) s0).
Qed.

Lemma descriptors_counted_witness :
  exists s', @syscall image [] fd_demo = Ok tt s' /\ fd_inv 0 none_held s' /\
    nth 1 (p_ofile (procat 0 s')) None = Some 0%nat /\ f_ref (fileat 0 s') = 2.
Proof.
  assert (H := descriptors_counted (L := image) 0 [] fd_demo fd_demo_inv).
  destruct (@syscall image [] fd_demo) as [[] s'| | |] eqn:E;
    [|by vm_compute in E|by vm_compute in E|by vm_compute in E].
  exists s'. split; [reflexivity|]. split; [exact H|].
  assert (X : s' = end_state (@syscall image []) fd_demo) by (unfold end_state; by rewrite E).
  split; rewrite X; vm_compute; reflexivity.
Defined.
