(* ===== verification/ForkThms.v ===== *)
(** [fork], [exit] and [wait]: a child is a copy of its parent, and the parent gets the
    child's exit status once. *)
From S2P Require Import Prelude Types Riscv Str Kalloc Vm PtRep PtOps Uvm Grow Uvmfree Copy Sched Sleeplock Bio Log Fs Uart Printf Pipe File Proc.
From S2P Require Import Args Exec Syscall Sysfile Frame ProcMem Concrete FdThms.

Section Thms.
Context {L : Linker} {LOk : LinkerOk L}.

(** ** Descriptors *)

Definition more_refs (n : Z) (f : file) : file := set_f_ref (f_ref f + n) f.

Lemma more_refs_0 f : more_refs 0 f = f.
Proof. unfold more_refs. rewrite Z.add_0_r. by destruct f. Qed.

Lemma wp_filedup s f :
  LkFtable ∉ held s -> 1 <= f_ref (fileat f s) < 2 ^ 31 - 1 ->
  wp (filedup f) (fun r s' => r = f /\ s' = set_files (alter (more_refs 1) f (files s)) s) s.
Proof.
  intros Hh Hr. unfold filedup. wp_step. apply wp_acquire; [done|]. wp_step. apply wp_get.
  change (fileat f (set_held _ s)) with (fileat f s). rewrite (proj2 (Z.ltb_ge _ _)) by lia.
  wp_step. apply wp_upd. wp_step. eapply wp_release; [done|done|]. wp_step. split; [done|]. cbn. unfold set_files, set_held.
  destruct s. cbn. f_equal. apply list_eq. intros j. destruct (decide (f = j)) as [->|].
  - rewrite !list_lookup_alter_eq. destruct (files !! j) as [x|] eqn:E; [|done]. cbn. f_equal. unfold more_refs. f_equal.
    unfold fileat in Hr. cbn in Hr. rewrite (list_lookup_total_correct _ _ _ E) in Hr.
    unfold fileat. cbn. rewrite (list_lookup_total_correct _ _ _ E). apply i32_small. lia.
  - by rewrite !list_lookup_alter_ne.
Qed.

(** The files with the references of a list of descriptors added. *)
Definition dup_all (l : list (option nat)) (fs fs' : list file) : Prop :=
  length fs' = length fs /\ forall f, (f < length fs)%nat -> fs' !!! f = more_refs (fcount f l) (fs !!! f).

Lemma upmod_id i f s : f (procat i s) = procat i s -> upmod i f s = s.
Proof.
  intros E. unfold upmod. transitivity (set_procs (procs s) s); [|by destruct s]. f_equal. apply list_eq. intros j.
  destruct (decide (i = j)) as [->|]; [|by rewrite list_lookup_alter_ne]. rewrite list_lookup_alter_eq.
  destruct (procs s !! j) as [x|] eqn:Ex; [|done]. cbn. unfold procat in E. rewrite (list_lookup_total_correct _ _ _ Ex) in E. by rewrite E.
Qed.

Lemma dup_all_cons o l fs fs' :
  (forall f, o = Some f -> (f < length fs)%nat) ->
  dup_all l (match o with Some f => alter (more_refs 1) f fs | None => fs end) fs' -> dup_all (o :: l) fs fs'.
Proof.
  intros Ho [Hl H]. destruct o as [f|].
  - rewrite length_alter in *. split; [done|]. intros f' Hf'. rewrite H by done. cbn [fcount]. unfold one.
    destruct (decide (f = f')) as [->|Hne].
    + rewrite list_lookup_total_alter_eq, decide_True by auto. unfold more_refs, set_f_ref. cbn. f_equal. lia.
    + rewrite list_lookup_total_alter_ne, decide_False by congruence. done.
  - split; [done|]. intros f' Hf'. rewrite H by done. cbn [fcount]. unfold one. by rewrite decide_False.
Qed.

Lemma wp_fork_files p np l k : forall i s,
  (p < length (procs s))%nat -> (np < length (procs s))%nat -> p <> np -> LkFtable ∉ held s ->
  p_ofile (procat p s) = l -> length l = (i + k)%nat -> p_ofile (procat np s) = take i l ++ replicate k None ->
  (forall f, Some f ∈ drop i l -> (f < length (files s))%nat /\ 1 <= f_ref (fileat f s) < 2 ^ 31 - Z.of_nat k) ->
  wp (fork_files p np i k) (fun _ s' => exists fs, dup_all (drop i l) (files s) fs /\
    s' = set_files fs (upmod np (set_p_ofile l) s)) s.
Proof.
  induction k as [|k IH]; intros i s Hp Hnp Hne Hh El Hl Enp Hf; cbn [fork_files].
  { wp_step. exists (files s). rewrite drop_ge by lia. split.
    - split; [done|]. intros f Hfl. cbn [fcount]. by rewrite more_refs_0.
    - rewrite take_ge, app_nil_r in Enp by lia. rewrite upmod_id; [by destruct s|]. destruct (procat np s). cbn in *. by subst. }
  destruct (lookup_lt_is_Some_2 l i ltac:(lia)) as [o Ho]. pose proof (drop_S l o i Ho) as Ed. pose proof (take_S_r l i o Ho) as Et.
  wp_step. apply wp_get. rewrite El, (nth_lookup_Some _ _ _ _ Ho). wp_step.
  assert (Hs : forall s1, (p < length (procs s1))%nat -> (np < length (procs s1))%nat -> LkFtable ∉ held s1 ->
    p_ofile (procat p s1) = l -> p_ofile (procat np s1) = take (S i) l ++ replicate k None ->
    upmod np (set_p_ofile l) s1 = set_files (files s1) (upmod np (set_p_ofile l) s) ->
    files s1 = match o with Some f => alter (more_refs 1) f (files s) | None => files s end ->
    wp (fork_files p np (S i) k) (fun _ s' => exists fs, dup_all (drop i l) (files s) fs /\
      s' = set_files fs (upmod np (set_p_ofile l) s)) s1).
  { intros s1 Hp1 Hnp1 Hh1 El1 Enp1 Eu Efs.
    assert (Hof : forall f, o = Some f -> (f < length (files s))%nat) by (intros f ->; apply Hf; rewrite Ed; set_solver).
    eapply wp_mono; [apply (IH (S i) s1); try done; [lia|]|].
    - intros f Hfd. destruct (Hf f ltac:(rewrite Ed; set_solver)) as [Hfl Hfr]. unfold fileat in *. rewrite Efs. destruct o as [f'|]; [|split; [done|lia]].
      rewrite length_alter. split; [done|]. destruct (decide (f' = f)) as [->|].
      + rewrite list_lookup_total_alter_eq by done. cbn. lia.
      + rewrite list_lookup_total_alter_ne by done. lia.
    - intros [] s2 (fs & Hd & ->). exists fs. rewrite Efs in Hd. rewrite Ed. split; [by apply dup_all_cons|]. rewrite Eu. done. }
  destruct o as [f|].
  - destruct (Hf f ltac:(rewrite Ed; set_solver)) as [Hfl Hfr]. wp_step. eapply wp_mono; [apply wp_filedup; [done|lia]|].
    intros r s1 [-> ->]. apply wp_updp. set (s1 := set_files _ s). apply Hs; rewrite ?length_upmod; try done.
    + rewrite (procat_upmod np _ s1 p) by done. by rewrite decide_False by congruence.
    + rewrite (procat_upmod np _ s1 np), decide_True by done. cbn. change (procat np s1) with (procat np s). rewrite Enp, Et.
      rewrite insert_app_r_alt by (rewrite length_take; lia). rewrite length_take, Nat.min_l, Nat.sub_diag by lia. cbn. by rewrite <- app_assoc.
    + rewrite upmod_upmod. done.
  - wp_step. apply Hs; try done.
    rewrite Enp, Et. cbn. by rewrite <- app_assoc.
Qed.

(** ** Memory *)

(** The pages below [sz] have the same contents and permissions. *)
Definition same_user (m : gmap Z Z) r (m' : gmap Z Z) r' sz : Prop :=
  forall va, 0 <= va < PGROUNDUP sz ->
    PTE_FLAGS (pte_at m' r' va) = PTE_FLAGS (pte_at m r va) /\ ubyte m' r' va = ubyte m r va.

Lemma user_page s r O fl U tf sz va :
  space s r O fl U tf sz -> 0 <= va < PGROUNDUP sz ->
  exists p perm, U !! PGROUNDDOWN va = Some p /\ page_ok p /\ pte_at (mem s) r va = leaf_pte p perm /\ 0 <= perm < 1024.
Proof.
  intros Sp Hva. assert (Hd : PGROUNDDOWN va mod PGSIZE = 0 /\ 0 <= PGROUNDDOWN va <= va /\ PGROUNDDOWN va / 4096 = va / 4096).
  { rewrite PGROUNDDOWN_eq by lia. Z.div_mod_to_equations. lia. }
  destruct (proj2 (sp_user _ _ _ _ _ _ _ Sp (PGROUNDDOWN va))) as [p Hp]; [lia|].
  destruct (uvm_pte _ _ _ _ _ (sp_own _ _ _ _ _ _ _ Sp) _ _ Hp) as (perm & E & Hperm & _).
  exists p, perm. split_and!; [done| | |lia|lia].
  - by apply (uvm_frame _ _ _ _ _ (sp_own _ _ _ _ _ _ _ Sp) _ _ Hp).
  - rewrite <- E. symmetry. apply pte_at_page. apply Hd.
Qed.

(** Frames keep their contents where memory does. *)
Lemma same_user_frame s s' r O fl U tf sz :
  space s r O fl U tf sz -> (forall vb, pte_at (mem s') r vb = pte_at (mem s) r vb) ->
  (forall p x, (exists va, U !! va = Some p) -> in_page p x -> mget (mem s') x = mget (mem s) x) ->
  same_user (mem s) r (mem s') r sz.
Proof.
  intros Sp HP HM va Hva. rewrite HP. split; [done|]. destruct (user_page _ _ _ _ _ _ _ _ Sp Hva) as (p & perm & HU & Hok & E & Hperm).
  unfold ubyte. rewrite HP, E, leaf_PA by (done || by apply page_ok_pa_ok). apply (HM p); [by eexists|].
  unfold in_page. pose proof (Z.mod_pos_bound va PGSIZE ltac:(lia)). lia.
Qed.

Lemma same_user_trans m r m' r' m'' r'' sz : same_user m r m' r' sz -> same_user m' r' m'' r'' sz -> same_user m r m'' r'' sz.
Proof. intros H1 H2 va Hva. destruct (H2 va Hva) as [-> ->]. by apply H1. Qed.

Lemma copied_space s old O' U' tf sz r O fl ntf s2 O2 fl2 U2 :
  space s old O' fl U' tf sz -> space s r O fl ∅ ntf 0 -> separate O' U' O ∅ ->
  grown (copy_perm s old) (copy_cont s old) 0 (PGROUNDUP sz) s r O fl ∅ s2 O2 fl2 U2 ->
  space s2 r O2 fl2 U2 ntf sz /\ space s2 old O' fl2 U' tf sz /\
  same_user (mem s) old (mem s2) r sz /\ same_user (mem s) old (mem s2) old sz.
Proof.
  intros Sp Spn Sep G. pose proof (sp_sz _ _ _ _ _ _ _ Sp) as Hsz. pose proof (space_round sz (sp_sz _ _ _ _ _ _ _ Sp)) as Hr. pose proof G as [Own2 E2 Sub2 Pg2 Old2 New2 Pte2 Fr2].
  destruct (grown_other_own _ _ _ _ _ _ _ _ _ _ _ _ _ old O' U' G (sp_own _ _ _ _ _ _ _ Sp) Sep) as [Owno Po].
  assert (Spo : space s2 old O' fl2 U' tf sz).
  { destruct Sp as [A1 A2 A3 A4 A5 A6]. split; rewrite ?Po; try done. intros vb Hvb. rewrite Po. by apply A6. }
  assert (Hso : same_user (mem s) old (mem s2) old sz).
  { eapply same_user_frame; [exact Sp|exact Po|]. intros p x [va HU] Hx.
    destruct (uvm_frame _ _ _ _ _ (sp_own _ _ _ _ _ _ _ Sp) _ _ HU) as (Hok & Hnf & _).
    eapply grown_other; [exact G|done|done| | |done].
    - by apply (sep_frames _ _ _ _ Sep va).
    - apply (sp_own _ _ _ _ _ _ _ Sp). }
  split_and!; [|done| |done].
  - destruct Spn as [B1 B2 B3 B4 B5 B6]. split; [done|apply Sp| | | |].
    + intros va. split.
      * intros [p Hp]. destruct (uvm_va _ _ _ _ _ Own2 _ _ Hp) as [Hal Hva]. split; [|done].
        destruct (decide (0 <= va < PGROUNDUP sz)) as [|Hn]; [done|]. rewrite Old2 in Hp by done. by rewrite lookup_empty in Hp.
      * intros [Hva Hal]. destruct (New2 va Hva Hal) as (p & Hp & _). by exists p.
    + rewrite Pte2; [done|lia|lia].
    + rewrite Pte2; [done|lia|lia].
    + intros vb Hvb. rewrite Pte2 by lia. apply B6. change (PGROUNDUP 0) with 0. lia.
  - intros va Hva.
    assert (Hd : PGROUNDDOWN va mod PGSIZE = 0 /\ 0 <= PGROUNDDOWN va <= va /\ PGROUNDDOWN va / 4096 = va / 4096 /\ va = PGROUNDDOWN va + va mod PGSIZE).
    { rewrite PGROUNDDOWN_eq by lia. Z.div_mod_to_equations. lia. }
    destruct Hd as (Hd1 & Hd2 & Hd3 & Hd4).
    destruct (New2 (PGROUNDDOWN va)) as (p & Hp & Ept & Hc); [lia|done|].
    destruct (user_page _ _ _ _ _ _ _ _ Sp Hva) as (q & perm & HU & Hok & E & Hperm).
    assert (Hpok : page_ok p) by (by apply (uvm_frame _ _ _ _ _ Own2 _ _ Hp)).
    assert (Ecp : copy_perm s old (PGROUNDDOWN va) = Z.lor perm PTE_V).
    { unfold copy_perm. rewrite (pte_at_page _ _ (PGROUNDDOWN va) va), E by done. apply leaf_FLAGS; [by apply page_ok_pa_ok|done]. }
    assert (0 <= Z.lor perm PTE_V < 1024) by (apply perm_lor_range; lia).
    unfold ubyte. rewrite <- (pte_at_page (mem s2) r (PGROUNDDOWN va) va), Ept, Ecp, E by done.
    rewrite !leaf_FLAGS, !leaf_PA by (done || by apply page_ok_pa_ok). split; [by rewrite <- Z.lor_assoc, Z.lor_diag|].
    rewrite Hc by (apply Z.mod_pos_bound; lia). unfold copy_cont. rewrite (pte_at_page _ _ (PGROUNDDOWN va) va), E by done.
    by rewrite leaf_PA by (done || by apply page_ok_pa_ok).
Qed.

(** ** [fork] *)

(** What [fork] relies on: process [p] runs, with its address space, its trapframe, its
    files and its directory; unused slots of the table are as [freeproc] and [exit] leave them. *)
Record forkable (s : kst) (p : nat) O fl U : Prop := {
  fk_cur : cur s = Some p;
  fk_held : held s = [];
  fk_table : length (procs s) = NPROC;
  fk_p : (p < NPROC)%nat;
  fk_used : p_state (procat p s) <> UNUSED;
  fk_slot j : p_state (procat j s) = UNUSED ->
    p_pagetable (procat j s) = 0 /\ p_sz (procat j s) = 0 /\ p_ofile (procat j s) = replicate NOFILE None;
  fk_space : space s (p_pagetable (procat p s)) O fl U (p_trapframe (procat p s)) (p_sz (procat p s));
  fk_tf : page_ok (p_trapframe (procat p s)) /\ (p_trapframe (procat p s) ∉ fl);
  fk_ofile : length (p_ofile (procat p s)) = NOFILE;
  fk_files f : Some f ∈ p_ofile (procat p s) -> (f < length (files s))%nat /\ 1 <= f_ref (fileat f s) < 2 ^ 31 - Z.of_nat NOFILE;
  fk_cwd : is_Some (p_cwd (procat p s))
}.

(** A page that is not free keeps its contents. *)
Lemma outside_page s fl s' q x : outside fl s s' -> kmem_inv s fl -> page_ok q -> q ∉ fl -> in_page q x -> mget (mem s') x = mget (mem s) x.
Proof.
  intros Ho K Hq Hn Hx. apply Ho. intros q' Hq' Hx'. eapply (in_page_neq q q'); [done|by eapply kmem_page| |done|done]. intros ->. done.
Qed.

(** The parent's space beside what [allocproc] made. *)
Lemma born_parent s p O fl U np s1 fl1 O1 tf1 pt1 :
  forkable s p O fl U -> born s fl np s1 fl1 O1 tf1 pt1 ->
  let x := procat p s in
  np <> p /\ procat p s1 = x /\ space s1 (p_pagetable x) O fl1 U (p_trapframe x) (p_sz x) /\ separate O U O1 ∅ /\
  same_user (mem s) (p_pagetable x) (mem s1) (p_pagetable x) (p_sz x).
Proof.
  intros Fk B x. pose proof (fk_space _ _ _ _ _ Fk) as Sp. fold x in Sp. pose proof (sp_own _ _ _ _ _ _ _ Sp) as Own.
  assert (K : kmem_inv s fl) by apply Own. assert (Hne : np <> p) by (intros ->; by apply (fk_used _ _ _ _ _ Fk), (bn_unused _ _ _ _ _ _ _ _ B)).
  assert (Hsub : forall q, q ∈ fl1 -> q ∈ fl) by (intros q Hq; apply (bn_pages _ _ _ _ _ _ _ _ B); tauto).
  assert (Ht : forall t y, is_Some (O !! t) -> in_page t y -> mget (mem s1) y = mget (mem s) y).
  { intros t y [ρ HO]. eapply outside_page; [apply B|done|by eapply (pt_page _ _ _ (own_wf _ _ _ _ (uvm_pt _ _ _ _ _ Own)))|].
    apply (own_disj _ _ _ _ (uvm_pt _ _ _ _ _ Own)). by exists ρ. }
  destruct (space_frame s s1 _ O fl fl1 U _ _ Sp) as [Sp1 P1]; [apply (bn_space _ _ _ _ _ _ _ _ B)|done|done|].
  split_and!; [done| |done| |].
  - unfold procat. rewrite (bn_procs _ _ _ _ _ _ _ _ B). by rewrite list_lookup_total_alter_ne.
  - split.
    + intros t HO. apply eq_None_not_Some. intros HO1. apply (own_disj _ _ _ _ (uvm_pt _ _ _ _ _ Own) t HO), (bn_pages _ _ _ _ _ _ _ _ B). tauto.
    + intros va q HU. apply eq_None_not_Some. intros HO1. apply (uvm_frame _ _ _ _ _ Own va q HU), (bn_pages _ _ _ _ _ _ _ _ B). tauto.
  - eapply same_user_frame; [exact Sp|exact P1|]. intros q y [va HU]. destruct (uvm_frame _ _ _ _ _ Own _ _ HU) as (Hok & Hnf & _).
    by eapply outside_page; [apply B|..].
Qed.

(** The two address spaces, when memory has been copied. *)
Record twins (s : kst) (p : nat) O fl U (s' : kst) fl' O' U' (tf pt : Z) : Prop := {
  tw_child : space s' pt O' fl' U' tf (p_sz (procat p s));
  tw_parent : space s' (p_pagetable (procat p s)) O fl' U (p_trapframe (procat p s)) (p_sz (procat p s));
  tw_image : same_user (mem s) (p_pagetable (procat p s)) (mem s') pt (p_sz (procat p s));
  tw_pimage : same_user (mem s) (p_pagetable (procat p s)) (mem s') (p_pagetable (procat p s)) (p_sz (procat p s));
  tw_tf : page_ok tf /\ (tf ∉ fl') /\ O' !! tf = None /\ forall va, U' !! va <> Some tf;
  tw_pages q : q ∈ fl <-> q = tf \/ q ∈ fl' \/ is_Some (O' !! q) \/ exists va, U' !! va = Some q;
  tw_out : outside fl s s'
}.

Lemma grown_outside perm cont hi s r O fl s2 O2 fl2 U2 :
  grown perm cont 0 hi s r O fl ∅ s2 O2 fl2 U2 -> forall fl0, (forall q, q ∈ fl \/ is_Some (O !! q) -> q ∈ fl0) -> outside fl0 s s2.
Proof.
  intros G fl0 H x Hx. apply (g_frame _ _ _ _ _ _ _ _ _ _ _ _ _ G). intros t Ht. apply Hx, H.
  destruct Ht as [Ht|Ht]; [|by left]. destruct (O !! t) eqn:E; [right; by eexists|].
  left. apply (g_pages _ _ _ _ _ _ _ _ _ _ _ _ _ G). tauto.
Qed.

Lemma wp_fork_copy s p O fl U np s1 fl1 O1 tf pt :
  forkable s p O fl U -> born s fl np s1 fl1 O1 tf pt ->
  wp (uvmcopy (p_pagetable (procat p s)) pt (p_sz (procat p s))) (fun r s2 => only_mem s1 s2 /\
    ((r = 0 /\ exists fl2 O2 U2, twins s p O fl U s2 fl2 O2 U2 tf pt) \/
     (r = -1 /\ exists fl2 O2, space s2 pt O2 fl2 ∅ tf 0 /\ O2 !! tf = None /\ (tf ∉ fl2) /\
        (forall q, q ∈ fl <-> q ∈ fl2 \/ q = tf \/ is_Some (O2 !! q)) /\ outside fl s s2))) s1.
Proof.
  intros Fk B. destruct (born_parent _ _ _ _ _ _ _ _ _ _ _ Fk B) as (Hne & Ep & Sp1 & Sep & Im1). set (x := procat p s) in *.
  pose proof B as [_ _ _ _ _ _ Spn Hpt (Htf & Htfl & HtO) Hpg Hout].
  pose proof (sp_sz _ _ _ _ _ _ _ Sp1) as Hsz. pose proof (space_round _ Hsz) as Hr.
  eapply wp_mono; [apply (wp_uvmcopy s1 (p_pagetable x) O U pt O1 fl1 ∅ (p_sz x)); try done|].
  { apply Sp1. }
  { apply Spn. }
  { lia. }
  { intros va Hva Hal. by apply (sp_user _ _ _ _ _ _ _ Sp1). }
  { intros vb Hvb. apply (sp_free _ _ _ _ _ _ _ Spn). change (PGROUNDUP 0) with 0. lia. }
  assert (Hall : forall q, q ∈ fl1 \/ is_Some (O1 !! q) -> q ∈ fl) by (intros q Hq; apply Hpg; tauto).
  intros r s2 [(-> & O2 & fl2 & U2 & G)|(-> & O2 & fl2 & U2 & G & _)]; (split; [apply G|]); [left|right]; (split; [done|]);
    pose proof G as [Own2 E2 Sub2 Pg2 Old2 New2 Pte2 Fr2]; pose proof (grown_outside _ _ _ _ _ _ _ _ _ _ _ G fl Hall) as F2.
  - destruct (copied_space _ _ _ _ _ _ _ _ _ _ _ _ _ _ Sp1 Spn Sep G) as (Sc & So & Ic & Io).
    exists fl2, O2, U2. split; [done|done|by eapply same_user_trans|by eapply same_user_trans| | |by eapply outside_trans].
    + split; [done|]. split; [intros Hin; apply Htfl, Pg2; by left|]. split.
      * apply eq_None_not_Some. intros HO. apply Htfl, Pg2. right; left. done.
      * intros va HU. apply Htfl, Pg2. right; right. exists va. split; [|done].
        apply (sp_user _ _ _ _ _ _ _ Sc). by eexists.
    + intros q. rewrite Hpg, Pg2. split.
      * intros [->|[[?|[[? ?]|(va & ? & ?)]]|[ρ ?]]]; [by left|tauto|tauto|by eauto 6|]. right; right; left. exists ρ. by eapply lookup_weaken.
      * intros [->|[?|[HO|[va HU]]]]; [by left|tauto| |].
        -- destruct (O1 !! q) eqn:E; [right; right; by eexists|]. right; left; right; left. done.
        -- right; left; right; right. exists va. split; [|done]. apply (sp_user _ _ _ _ _ _ _ Sc). by eexists.
  - assert (U2 = ∅) as ->.
    { apply map_eq. intros va. rewrite Old2 by lia. done. }
    exists fl2, O2. split_and!; [| | | |by eapply outside_trans].
    + destruct Spn as [B1 B2 B3 B4 B5 B6]. split; [done|done|done| | |].
      * rewrite Pte2; [done|lia|lia].
      * rewrite Pte2; [done|lia|lia].
      * intros vb Hvb. change (PGROUNDUP 0) with 0 in *. rewrite Pte2 by lia. by apply B6.
    + apply eq_None_not_Some. intros HO. apply Htfl, Pg2. right; left. done.
    + intros Hin. apply Htfl, Pg2. by left.
    + intros q. rewrite Hpg, Pg2. split.
      * intros [->|[[?|[[? ?]|(va & ? & HU)]]|[ρ ?]]]; [tauto|tauto|tauto|lia|]. right; right. exists ρ. by eapply lookup_weaken.
      * intros [?|[->|HO]]; [tauto|by left|]. destruct (O1 !! q) eqn:E; [right; right; by eexists|]. right; left; right; left. done.
Qed.

(** What [fork] makes of slot [np]. *)
Definition child_proc (p : nat) (pid tf pt : Z) (x c : proc) : proc :=
  Proc RUNNABLE (p_chan c) (p_killed c) (p_xstate c) pid (Some p) (p_kstack c) (p_sz x) pt tf
    (Ctx k_forkret (p_kstack c + PGSIZE) (replicate 12 0)) (p_ofile x) (p_cwd x) (safestrcpy (p_name c) (p_name x) 16).

Definition one_more_ref (ip : inode) : inode := set_i_ref (i_ref ip + 1) ip.

(** The state after a [fork] that succeeds: the child in slot [np] is its parent's twin. *)
Record forked (s : kst) (p : nat) O fl U (np : nat) (s' : kst) fl' O' U' (tf pt : Z) : Prop := {
  fd_slot : (np < NPROC)%nat /\ p_state (procat np s) = UNUSED;
  fd_procs : procs s' = alter (child_proc p (nextpid s) tf pt (procat p s)) np (procs s);
  fd_pid : nextpid s' = i32 (nextpid s + 1);
  fd_twins : twins s p O fl U s' fl' O' U' tf pt;
  fd_regs i : 0 <= i < TF_SIZE ->
    mget (mem s') (tf + i) = if decide (TF_A0 <= i < TF_A0 + 8) then 0 else mget (mem s) (p_trapframe (procat p s) + i);
  fd_files : dup_all (p_ofile (procat p s)) (files s) (files s');
  fd_inodes c : p_cwd (procat p s) = Some c -> inodes s' = alter one_more_ref c (inodes s);
  fd_rest : s' = set_inodes (inodes s') (set_files (files s') (set_nextpid (nextpid s') (set_procs (procs s')
    (set_freelist (freelist s') (set_mem (mem s') s)))))
}.

Lemma wp_idup c s : LkItable ∉ held s -> wp (idup c) (fun r s' => r = c /\ s' = set_inodes (alter one_more_ref c (inodes s)) s) s.
Proof.
  intros Hh. unfold idup. wp_step. apply wp_acquire; [done|]. wp_step. apply wp_upd. wp_step. eapply wp_release; [done|done|].
  wp_step. split; [done|]. by destruct s.
Qed.

(** A write to the child's trapframe. *)
Lemma twins_write s p O fl U s1 fl' O' U' tf pt m :
  twins s p O fl U s1 fl' O' U' tf pt -> kmem_inv s fl -> (forall va q, U !! va = Some q -> (q ∉ fl) /\ page_ok q) ->
  (forall t, is_Some (O !! t) -> (t ∉ fl) /\ page_ok t) ->
  (forall x, ~ in_page tf x -> mget m x = mget (mem s1) x) -> twins s p O fl U (set_mem m s1) fl' O' U' tf pt.
Proof.
  intros [Tc Tp Ti Tpi (Hok & Hnf & HO & HU) Tpg To] K HUp HOp Hm.
  assert (Hin : tf ∈ fl) by (apply Tpg; by left).
  assert (Hne : forall q y, page_ok q -> q <> tf -> in_page q y -> mget m y = mget (mem s1) y).
  { intros q y Hq Hqt Hy. apply Hm. by eapply in_page_neq. }
  assert (K1 : kmem_inv s1 fl') by apply Tc.
  assert (K2 : kmem_inv (set_mem m s1) fl').
  { eapply kmem_inv_frame; [exact K1|done|apply K1|]. intros q y Hq. cbn. apply Hne; [by eapply kmem_page|]. intros ->. done. }
  destruct (space_frame s1 (set_mem m s1) pt O' fl' fl' U' tf _ Tc K2) as [Tc' Pc]; [done| |].
  { intros t y [ρ Ht]. apply Hne; [by eapply (pt_page _ _ _ (own_wf _ _ _ _ (uvm_pt _ _ _ _ _ (sp_own _ _ _ _ _ _ _ Tc))))|]. congruence. }
  destruct (space_frame s1 (set_mem m s1) _ O fl' fl' U _ _ Tp K2) as [Tp' Pp]; [done| |].
  { intros t y Ht. destruct (HOp t Ht). apply Hne; [done|]. intros ->. done. }
  split; [done|done| | |done|done|].
  - eapply same_user_trans; [exact Ti|]. eapply same_user_frame; [exact Tc|exact Pc|]. intros q y [va Hq].
    apply Hne; [by apply (uvm_frame _ _ _ _ _ (sp_own _ _ _ _ _ _ _ Tc) _ _ Hq)|]. intros ->. by apply (HU va).
  - eapply same_user_trans; [exact Tpi|]. eapply same_user_frame; [exact Tp|exact Pp|]. intros q y [va Hq].
    destruct (HUp va q Hq). apply Hne; [done|]. intros ->. done.
  - intros y Hy. cbn. rewrite Hm; [by apply To|]. by apply Hy.
Qed.

Lemma twins_same s p O fl U s1 s2 fl' O' U' tf pt :
  same_mem s1 s2 -> twins s p O fl U s1 fl' O' U' tf pt -> twins s p O fl U s2 fl' O' U' tf pt.
Proof.
  intros Sm [Tc Tp Ti Tpi Htf Tpg To]. pose proof (sm_mem _ _ Sm) as Em.
  split; [by eapply space_same|by eapply space_same|by rewrite Em|by rewrite Em|done|done|]. intros y Hy. rewrite Em. by apply To.
Qed.

(** Everything after the registers have been copied, and after memory has. *)
Definition fork_share (p np : nat) : M Z :=
  fork_files p np 0 NOFILE ;;;
  let! cwd := getp p p_cwd in
  let! cwd := deref cwd in
  let! cwd := idup cwd in
  updp np (set_p_cwd (Some cwd)) ;;;
  let! name := getp p p_name in
  updp np (fun x => set_p_name (safestrcpy (p_name x) name 16) x) ;;;
  let! pid := getp np p_pid in
  release (LkProc np) ;;;
  acquire LkWait ;;;
  updp np (set_p_parent (Some p)) ;;;
  release LkWait ;;;
  acquire (LkProc np) ;;;
  updp np (set_p_state RUNNABLE) ;;;
  release (LkProc np) ;;;
  ret pid.
Definition fork_rest (p np : nat) (sz : Z) : M Z :=
  updp np (set_p_sz sz) ;;;
  let! tf := getp p p_trapframe in
  let! ntf := getp np p_trapframe in
  let! regs := read_k tf TF_SIZE in
  write_k ntf regs ;;;
  tf_set np TF_A0 0 ;;;
  fork_share p np.

(** A trapframe copied over another one, with [a0] zero. *)
Lemma mget_copied_regs m tf tf' y :
  mget (mwrite (mwrite m tf' (mread m tf (Z.to_nat TF_SIZE))) (tf' + TF_A0) (le_bytes 8 0)) y =
  if decide (tf' <= y < tf' + TF_SIZE) then
    if decide (tf' + TF_A0 <= y < tf' + TF_A0 + 8) then 0 else mget m (tf + (y - tf'))
  else mget m y.
Proof.
  rewrite mget_mwrite, length_le_bytes, mget_mwrite, length_mread.
  change (Z.of_nat 8) with 8. change (Z.of_nat (Z.to_nat TF_SIZE)) with 288.
  destruct (decide (tf' <= y < tf' + TF_SIZE)).
  - destruct (decide (tf' + TF_A0 <= y < tf' + TF_A0 + 8)).
    + apply nth_replicate with (n := 8%nat).
    + rewrite mread_nth by lia. f_equal. lia.
  - by rewrite decide_False by lia.
Qed.

(** The child has its memory, size and registers; its lock is held. *)
Record regs_copied (s : kst) (p : nat) O fl U (np : nat) (s' : kst) fl' O' U' (tf pt : Z) : Prop := {
  rc_procs : procs s' = alter (fun c => set_p_sz (p_sz (procat p s)) (fresh_proc (nextpid s) tf pt c)) np (procs s);
  rc_held : held s' = [LkProc np];
  rc_only : proc_only s s';
  rc_pid : nextpid s' = i32 (nextpid s + 1);
  rc_twins : twins s p O fl U s' fl' O' U' tf pt;
  rc_regs i : 0 <= i < TF_SIZE ->
    mget (mem s') (tf + i) = if decide (TF_A0 <= i < TF_A0 + 8) then 0 else mget (mem s) (p_trapframe (procat p s) + i)
}.

(** Only slot [np] of the process table changed. *)
Lemma procat_others s p np f s' : np <> p -> procs s' = alter f np (procs s) -> procat p s' = procat p s.
Proof. intros Hne E. unfold procat. rewrite E. by apply list_lookup_total_alter_ne. Qed.
Lemma procat_altered s np f s' : (np < length (procs s))%nat -> procs s' = alter f np (procs s) -> procat np s' = f (procat np s).
Proof. intros Hl E. unfold procat. rewrite E. by apply list_lookup_total_alter_eq. Qed.

Lemma wp_fork_share s p O fl U np s5 fl2 O2 U2 tf pt :
  forkable s p O fl U -> (np < NPROC)%nat -> np <> p -> p_state (procat np s) = UNUSED ->
  regs_copied s p O fl U np s5 fl2 O2 U2 tf pt ->
  wp (fork_share p np) (fun r s' => r = nextpid s /\ forked s p O fl U np s' fl2 O2 U2 tf pt) s5.
Proof.
  intros Fk Hnp Hne Hun [Ep5 Eh5 Er5 En5 T5 Hregs]. pose proof (fk_table _ _ _ _ _ Fk) as Hlen. pose proof (fk_p _ _ _ _ _ Fk) as Hp.
  set (x := procat p s) in *. unfold fork_share.
  assert (Hln : (np < length (procs s))%nat) by (by rewrite Hlen).
  destruct (fk_slot _ _ _ _ _ Fk np Hun) as (_ & _ & Hof). pose proof (fk_ofile _ _ _ _ _ Fk) as Hlo. fold x in Hlo.
  assert (Efs : files s5 = files s) by (by rewrite Er5). assert (Eis : inodes s5 = inodes s) by (by rewrite Er5).
  assert (Hl5 : length (procs s5) = NPROC) by (by rewrite Ep5, length_alter).
  wp_step. eapply wp_mono; [apply (wp_fork_files p np (p_ofile x) NOFILE 0 s5)|];
    [by rewrite Hl5|by rewrite Hl5|done|rewrite Eh5; set_solver|by rewrite (procat_others _ _ _ _ _ Hne Ep5)|done
    |rewrite (procat_altered _ _ _ _ Hln Ep5); exact Hof|unfold fileat; rewrite drop_0, Efs; apply Fk|].
  rewrite drop_0, Efs. intros [] s6 (fs & Hdup & E6).
  assert (Ep6 : procs s6 = alter (fun c => set_p_ofile (p_ofile x) (set_p_sz (p_sz x) (fresh_proc (nextpid s) tf pt c))) np (procs s)).
  { rewrite E6. unfold upmod. cbn. by rewrite Ep5, list_alter_alter. }
  wp_step. apply wp_get. rewrite (procat_others _ _ _ _ _ Hne Ep6). destruct (fk_cwd _ _ _ _ _ Fk) as [c Hc]. fold x in Hc |- *. rewrite Hc.
  wp_step. eapply wp_deref; [done|]. wp_step.
  assert (Eh6 : held s6 = [LkProc np]) by (by rewrite E6).
  eapply wp_mono; [apply wp_idup; rewrite Eh6; set_solver|]. intros c' s7 [-> E7].
  assert (Ep7 : procs s7 = procs s6) by (by rewrite E7). rewrite Ep6 in Ep7. assert (Eh7 : held s7 = [LkProc np]) by (by rewrite E7).
  wp_step. apply wp_updp. wp_step. apply wp_get. rewrite procat_upmod by (by rewrite Ep7, length_alter, Hlen).
  rewrite decide_False by done. rewrite (procat_others _ _ _ _ _ Hne Ep7). fold x.
  wp_step. apply wp_updp. rewrite upmod_upmod. wp_step. apply wp_get. rewrite procat_upmod by (by rewrite Ep7, length_alter, Hlen).
  rewrite decide_True, (procat_altered _ _ _ _ Hln Ep7) by done. cbn [p_pid set_p_name set_p_cwd set_p_ofile set_p_sz fresh_proc].
  wp_step. eapply wp_release; [exact Eh7|apply not_elem_of_nil|].
  wp_step. apply wp_acquire; [apply not_elem_of_nil|]. wp_step. apply wp_updp. wp_step. eapply wp_release; [done|apply not_elem_of_nil|].
  wp_step. apply wp_acquire; [apply not_elem_of_nil|]. wp_step. apply wp_updp. wp_step. eapply wp_release; [done|apply not_elem_of_nil|].
  wp_step. split; [done|]. match goal with |- forked _ _ _ _ _ _ ?st _ _ _ _ _ => set (s8 := st) end.
  assert (Sm : same_mem s5 s8) by (split; [unfold s8; cbn; by rewrite E7, E6..|intros _; apply not_elem_of_nil]).
  split; [done| |unfold s8; cbn; by rewrite E7, E6|by eapply twins_same|by rewrite (sm_mem _ _ Sm)|unfold s8; cbn; by rewrite E7, E6| |].
  - unfold s8, upmod. cbn. rewrite Ep7, !list_alter_alter. apply list_alter_ext; [|done]. intros y _. unfold child_proc. fold x. by rewrite Hc.
  - fold x. rewrite Hc. intros c' [= <-]. unfold s8. cbn. rewrite E7, E6. cbn. by rewrite Eis.
  - unfold s8. cbn. rewrite E7, E6. cbn. rewrite Er5. pose proof (fk_held _ _ _ _ _ Fk) as Hh. destruct s. cbn in *. by subst.
Qed.

Lemma wp_fork_rest s p O fl U np s1 fl1 O1 tf pt s2 fl2 O2 U2 :
  forkable s p O fl U -> (np < NPROC)%nat -> born s fl np s1 fl1 O1 tf pt -> only_mem s1 s2 -> twins s p O fl U s2 fl2 O2 U2 tf pt ->
  wp (fork_rest p np (p_sz (procat p s))) (fun r s' => r = nextpid s /\ forked s p O fl U np s' fl2 O2 U2 tf pt) s2.
Proof.
  intros Fk Hnp B E2 T2. destruct (born_parent _ _ _ _ _ _ _ _ _ _ _ Fk B) as (Hne & _ & _).
  assert (Hln : (np < length (procs s))%nat) by (by rewrite (fk_table _ _ _ _ _ Fk)).
  assert (Ep2 : procs s2 = alter (fresh_proc (nextpid s) tf pt) np (procs s)) by (rewrite E2; apply B).
  set (x := procat p s) in *. unfold fork_rest. wp_step. apply wp_updp. set (s3 := upmod np (set_p_sz (p_sz x)) s2).
  assert (Ep3 : procs s3 = alter (fun c => set_p_sz (p_sz x) (fresh_proc (nextpid s) tf pt c)) np (procs s)).
  { unfold s3, upmod. cbn. by rewrite Ep2, list_alter_alter. }
  wp_step. apply wp_get. rewrite (procat_others _ _ _ _ _ Hne Ep3). wp_step. apply wp_get. rewrite (procat_altered _ _ _ _ Hln Ep3).
  cbn [p_trapframe set_p_sz fresh_proc]. wp_step. apply wp_get. wp_step. apply wp_upd. set (s4 := set_mem _ s3).
  wp_step. unfold tf_set. wp_step. apply wp_get. rewrite (procat_altered _ _ _ s4 Hln Ep3). cbn [p_trapframe set_p_sz fresh_proc]. apply wp_upd.
  set (m5 := mwrite (mem s4) (tf + TF_A0) (le_bytes 8 0)).
  assert (Hm5 : forall y, mget m5 y = _) by (intros y; exact (mget_copied_regs (mem s2) (p_trapframe x) tf y)).
  pose proof (sp_own _ _ _ _ _ _ _ (fk_space _ _ _ _ _ Fk)) as Own. pose proof (tw_tf _ _ _ _ _ _ _ _ _ _ _ T2) as (Htf & _).
  assert (K : kmem_inv s fl) by apply Own. apply (wp_fork_share s p O fl U); [done|done|done|apply B|]. split.
  - exact Ep3.
  - change (held s2 = [LkProc np]). rewrite E2. cbn. rewrite (bn_held _ _ _ _ _ _ _ _ B). by rewrite (fk_held _ _ _ _ _ Fk).
  - eapply proc_only_trans; [eapply proc_only_trans; [apply B|by apply proc_only_mem]|]. by destruct s2.
  - change (nextpid s2 = i32 (nextpid s + 1)). rewrite E2. apply B.
  - change (set_mem m5 s4) with (set_mem m5 s3). apply twins_write; [|done| | |].
    + eapply twins_same; [apply upmod_same_mem|done].
    + intros va q HU. by destruct (uvm_frame _ _ _ _ _ Own _ _ HU) as (? & ? & _).
    + intros t [ρ HO]. split; [apply (own_disj _ _ _ _ (uvm_pt _ _ _ _ _ Own)); by eexists|].
      by eapply (pt_page _ _ _ (own_wf _ _ _ _ (uvm_pt _ _ _ _ _ Own))).
    + intros y Hy. rewrite Hm5. rewrite decide_False; [done|]. unfold in_page in Hy. lia.
  - intros i Hi. fold x. change (mem (set_mem m5 s4)) with m5. rewrite Hm5, decide_True by lia.
    destruct (decide (TF_A0 <= i < TF_A0 + 8)); [by rewrite decide_True by lia|].
    rewrite decide_False by lia. replace (tf + i - tf) with i by lia. destruct (fk_tf _ _ _ _ _ Fk) as [Hok Hnf]. fold x in Hok, Hnf.
    eapply outside_page; [apply T2|done|exact Hok|exact Hnf|]. unfold in_page. lia.
Qed.

Lemma born_making s fl np s1 fl1 O1 tf pt s2 :
  born s fl np s1 fl1 O1 tf pt -> only_mem s1 s2 -> making s np (fresh_proc (nextpid s) tf pt) s2.
Proof. intros B E. eapply making_mem; [|exact E]. split; apply B. Qed.

(** When [fork] fails the parent's memory is as it was. *)
Lemma unborn_parent s p O fl U s' :
  forkable s p O fl U -> unborn s fl s' ->
  let x := procat p s in
  procat p s' = x /\ exists fl', space s' (p_pagetable x) O fl' U (p_trapframe x) (p_sz x) /\ (forall q, q ∈ fl' <-> q ∈ fl) /\
    same_user (mem s) (p_pagetable x) (mem s') (p_pagetable x) (p_sz x).
Proof.
  intros Fk Hu x. pose proof (fk_space _ _ _ _ _ Fk) as Sp. fold x in Sp. pose proof (sp_own _ _ _ _ _ _ _ Sp) as Own.
  assert (K : kmem_inv s fl) by apply Own.
  destruct Hu as [[-> _]|(j & c & fl' & _ & _ & Ep & Hun & K' & Hpg & Ho)]; [by split; [|exists fl]|].
  destruct (space_frame s s' _ O fl fl' U _ _ Sp K') as [Sp' P'].
  { intros q. apply Hpg. }
  { intros t y [ρ HO]. eapply outside_page; [done|done|by eapply (pt_page _ _ _ (own_wf _ _ _ _ (uvm_pt _ _ _ _ _ Own)))|].
    apply (own_disj _ _ _ _ (uvm_pt _ _ _ _ _ Own)). by exists ρ. }
  split.
  - unfold procat. rewrite Ep. apply list_lookup_total_alter_ne. intros ->. by apply (fk_used _ _ _ _ _ Fk).
  - exists fl'. split_and!; [done|done|]. eapply same_user_frame; [exact Sp|exact P'|]. intros q y [va HU].
    destruct (uvm_frame _ _ _ _ _ Own _ _ HU) as (Hok & Hnf & _). by eapply outside_page.
Qed.

Lemma wp_fork s p O fl U :
  forkable s p O fl U ->
  wp fork (fun r s' =>
    (r = -1 /\ unborn s fl s' /\ procat p s' = procat p s /\
     exists fl', space s' (p_pagetable (procat p s)) O fl' U (p_trapframe (procat p s)) (p_sz (procat p s)) /\ (forall q, q ∈ fl' <-> q ∈ fl) /\
       same_user (mem s) (p_pagetable (procat p s)) (mem s') (p_pagetable (procat p s)) (p_sz (procat p s))) \/
    (r = nextpid s /\ exists np fl' O' U' tf pt, forked s p O fl U np s' fl' O' U' tf pt)) s.
Proof.
  intros Fk. pose proof Fk as [Hc Hh Hlen Hp Hus Hsl Sp Htf Hof Hf Hcwd]. unfold fork. wp_step. eapply wp_myproc_; [done|].
  assert (Hfail : forall s', unborn s fl s' -> -1 = -1 /\ unborn s fl s' /\ procat p s' = procat p s /\
     exists fl', space s' (p_pagetable (procat p s)) O fl' U (p_trapframe (procat p s)) (p_sz (procat p s)) /\ (forall q, q ∈ fl' <-> q ∈ fl) /\
       same_user (mem s) (p_pagetable (procat p s)) (mem s') (p_pagetable (procat p s)) (p_sz (procat p s))).
  { intros s' Hu. split_and!; [done|done|..]; by eapply unborn_parent. }
  wp_step. eapply wp_mono; [apply (wp_allocproc s fl); [apply Sp|intros j; rewrite Hh; apply not_elem_of_nil|rewrite Hh; apply not_elem_of_nil|done|intros j Hj; by destruct (Hsl j Hj) as (? & ? & _)]|].
  intros [np|] s1; [|intros Hu; wp_step; left; by apply Hfail]. intros (Hnp & fl1 & O1 & tf & pt & B).
  destruct (born_parent _ _ _ _ _ _ _ _ _ _ _ Fk B) as (Hne & Ep & _). set (x := procat p s) in *.
  wp_step. apply wp_get. rewrite Ep. wp_step. apply wp_get.
  assert (procat np s1 = fresh_proc (nextpid s) tf pt (procat np s)) as ->.
  { unfold procat. rewrite (bn_procs _ _ _ _ _ _ _ _ B). apply list_lookup_total_alter_eq. by rewrite Hlen. }
  wp_step. apply wp_get. rewrite Ep. cbn [p_pagetable fresh_proc].
  wp_step. eapply wp_mono; [by apply (wp_fork_copy s p O fl U np s1 fl1 O1 tf pt)|].
  intros r s2 [E2 [(-> & fl2 & O2 & U2 & T)|(-> & fl2 & O2 & Sp2 & HO & Hnf & Hpg & Ho)]].
  - change (0 <? 0) with false. cbv iota. eapply wp_mono; [by eapply (wp_fork_rest s p O fl U np s1)|].
    intros r s' [-> F]. right. split; [done|]. by eexists _, _, _, _, _, _.
  - change (-1 <? 0) with true. cbv iota. pose proof (born_making _ _ _ _ _ _ _ _ _ B E2) as M.
    pose proof B as [Hun _ _ _ _ _ _ Hpt (Htfo & _) _ _]. destruct (Hsl np Hun) as (_ & Hsz & _).
    eapply wp_mono; [apply (wp_unmake (-1) s fl np _ (fun x => Ctx k_forkret (p_kstack x + PGSIZE) (replicate 12 0)) s2 fl2 (fun q => q = tf \/ is_Some (O2 !! q)) M);
      [done|by rewrite Hlen|done|rewrite Hh; apply not_elem_of_nil|apply Sp2| |done|done]|].
    + right; right. rewrite (making_procat _ _ _ _ _ M), decide_True by (done || by rewrite Hlen). cbn. rewrite Hsz.
      split_and!; [done|done|done|]. exists O2, ∅. split_and!; [done|done|done|]. intros q. split; [tauto|].
      intros [?|[?|[va Hva]]]; [tauto|tauto|]. by rewrite lookup_empty in Hva.
    + intros r s' [-> Hu]. left. by apply Hfail.
Qed.

(** C6: [fork] makes a twin or nothing.  When it succeeds it returns a fresh process id and
    one slot that was unused holds a runnable child of the caller with that id: its memory
    has the same contents and permissions page by page in frames of its own, its trapframe
    is the parent's but for the return value 0, its descriptors are the parent's with one
    more reference to each file, and so is its directory; the parent, and every other
    process, is as before.  Every page taken from the free list is the child's trapframe,
    one of its tables or one of its frames.  Otherwise, at whatever point
    it gave up, it returns -1: no process, file or inode has changed and all pages are
    free again; a process id may have been used up. *)
Theorem fork_correct s p O fl U :
  forkable s p O fl U ->
  wp fork (fun r s' =>
    (r = -1 /\ unborn s fl s' /\ procat p s' = procat p s /\
     exists fl', space s' (p_pagetable (procat p s)) O fl' U (p_trapframe (procat p s)) (p_sz (procat p s)) /\ (forall q, q ∈ fl' <-> q ∈ fl) /\
       same_user (mem s) (p_pagetable (procat p s)) (mem s') (p_pagetable (procat p s)) (p_sz (procat p s))) \/
    (r = nextpid s /\ exists np fl' O' U' tf pt, forked s p O fl U np s' fl' O' U' tf pt)) s.
Proof. apply wp_fork. Qed.
End Thms.

(** ** A process of one page

    The address space of [ram_machine], with tables 11 and 12 for the top of it: the
    trampoline and the trapframe, page 13.  Pages 4 to 9 are free. *)

Lemma own_add_table {L : Linker} {LOk : LinkerOk L} s r O fl t ρ i q :
  pt_own s r O fl -> O !! t = Some ρ -> is_dir ρ -> 0 <= i < 512 -> (ρ = Root -> i < 256) ->
  has (load64 (mem s) (t + 8 * i)) PTE_V = false -> page_ok q -> q ∉ fl -> O !! q = None ->
  (forall x, in_page q x -> mget (mem s) x = 0) ->
  let s' := set_mem (store64 (mem s) (t + 8 * i) (Z.lor (PA2PTE q) PTE_V)) s in
  pt_own s' r (<[q := child ρ i]> O) fl /\ forall va, pte_at (mem s') r va = pte_at (mem s) r va.
Proof.
  intros [W K D] Ht Hd Hi Htop HnV Hq Hqf HqO Hz s'. assert (Htp : page_ok t) by (by eapply pt_page).
  destruct (pt_add (mem s) (mem s') r O t ρ i q) as [W' P']; try done.
  - intros x Hx. cbn. rewrite mget_store64_out; [by apply Hz|]. intros Hx'. eapply (in_page_neq q t); [done|done| |done|by apply (entry_in_page t i)].
    congruence.
  - cbn. rewrite load64_store64. apply u64_small. destruct (page_ok_pa q Hq). pose proof (mk_pte_range q PTE_V). lia.
  - intros u x Hu Hx Hx'. cbn. by apply mget_store64_out.
  - split; [|done]. split; [done| |].
    + apply kmem_store; [done|done|apply D; by eexists|done].
    + intros u [ρu Hu] Hin. rewrite lookup_insert in Hu. case_decide; [subst; done|]. apply (D u); [by eexists|done].
Qed.

Definition ram1 : kst := set_mem (store64 ram (pg 0 + 8 * 255) (Z.lor (PA2PTE (pg 11)) PTE_V)) ram_machine.
Definition ram2 : kst := set_mem (store64 (mem ram1) (pg 11 + 8 * 511) (Z.lor (PA2PTE (pg 12)) PTE_V)) ram1.
Definition ram3 : kst := set_mem (store64 (mem ram2) (pg 12 + 8 * 511) (leaf_pte k_trampoline (Z.lor PTE_R PTE_X))) ram2.
Definition ram4 : kst := set_mem (store64 (mem ram3) (pg 12 + 8 * 510) (leaf_pte (pg 13) (Z.lor PTE_R PTE_W))) ram3.
Definition fork_tables : gmap Z role := <[pg 12 := Low 255 511]> (<[pg 11 := Mid 255]> ram_tables).

#[local] Opaque ram load64 PA2PTE PTE2PA has leaf_pte pg.

Lemma ram1_own : pt_own ram1 (pg 0) (<[pg 11 := Mid 255]> ram_tables) ram_free /\ forall va, pte_at (mem ram1) (pg 0) va = pte_at ram (pg 0) va.
Proof.
  unfold ram1. change ram with (mem ram_machine).
  apply (own_add_table ram_machine (pg 0) ram_tables ram_free (pg 0) Root 255 (pg 11));
    [exact ram_own|apply ram_lookup|done|lia|lia| |split; by vm_compute|apply (bool_decide_unpack _); by vm_compute|by vm_compute|].
  - change (mem ram_machine) with ram. destruct (ram_entries 255 ltac:(lia)) as [E _]. rewrite E. apply has_0.
  - intros x Hx. change (mem ram_machine) with ram. by apply (ram_zero 11).
Qed.

Lemma ram2_own : pt_own ram2 (pg 0) fork_tables ram_free /\ forall va, pte_at (mem ram2) (pg 0) va = pte_at ram (pg 0) va.
Proof.
  destruct ram1_own as [Own1 P1].
  assert (Hz : forall i x, 11 <= i < 14 -> in_page (pg i) x -> mget (mem ram1) x = 0).
  { intros i x Hi Hx. change (mem ram1) with (store64 ram (pg 0 + 8 * 255) (Z.lor (PA2PTE (pg 11)) PTE_V)).
    rewrite mget_store64_out; [by apply (ram_zero i); [lia|]|]. Transparent pg. unfold in_page, pg in *. Opaque pg. lia. }
  destruct (own_add_table ram1 (pg 0) (<[pg 11 := Mid 255]> ram_tables) ram_free (pg 11) (Mid 255) 511 (pg 12)) as [Own2 P2];
    [exact Own1|by vm_compute|done|lia|done| |split; by vm_compute|apply (bool_decide_unpack _); by vm_compute|by vm_compute| |].
  - rewrite load64_zero; [apply has_0|]. intros x Hx. apply (Hz 11); [lia|]. by apply (entry_in_page (pg 11) 511).
  - intros x Hx. by apply (Hz 12).
  - split; [exact Own2|]. intros va. change (mem ram2) with (mem (set_mem (store64 (mem ram1) (pg 11 + 8 * 511) (Z.lor (PA2PTE (pg 12)) PTE_V)) ram1)).
    by rewrite P2, P1.
Qed.

Lemma ram4_own : pt_own ram4 (pg 0) fork_tables ram_free /\ forall va, 0 <= va < MAXVA -> pte_at (mem ram4) (pg 0) va =
  if decide (va / 4096 = TRAPFRAME / 4096) then leaf_pte (pg 13) (Z.lor PTE_R PTE_W)
  else if decide (va / 4096 = TRAMPOLINE / 4096) then leaf_pte k_trampoline (Z.lor PTE_R PTE_X) else pte_at ram (pg 0) va.
Proof.
  destruct ram2_own as [Own2 P2].
  destruct (own_set_leaf ram2 (pg 0) fork_tables ram_free TRAMPOLINE (pg 12) (leaf_pte k_trampoline (Z.lor PTE_R PTE_X)) Own2) as (Own3 & _ & P3);
    [lia|by vm_compute|].
  destruct (own_set_leaf ram3 (pg 0) fork_tables ram_free TRAPFRAME (pg 12) (leaf_pte (pg 13) (Z.lor PTE_R PTE_W)) Own3) as (Own4 & _ & P4);
    [lia|by vm_compute|].
  split; [exact Own4|]. intros va Hva. change (mem ram4) with (mem (set_mem (store64 (mem ram3) (pg 12 + 8 * 510) (leaf_pte (pg 13) (Z.lor PTE_R PTE_W))) ram3)).
  change (PX 0 TRAPFRAME) with 510 in P4. change (PX 0 TRAMPOLINE) with 511 in P3. rewrite P4 by done.
  rewrite leaf_u64 by (done || split; by vm_compute). case_decide; [done|].
  change (mem ram3) with (mem (set_mem (store64 (mem ram2) (pg 12 + 8 * 511) (leaf_pte k_trampoline (Z.lor PTE_R PTE_X))) ram2)).
  rewrite P3 by done. rewrite leaf_u64 by (done || split; by vm_compute). case_decide; [done|]. apply P2.
Qed.

Definition fork_proc : proc := Proc RUNNING ChNull false 0 1 None 0 4096 (pg 0) (pg 13) ctx0 (replicate NOFILE None) (Some 0%nat) [].
Definition fork_machine : kst :=
  set_cur (Some 0%nat) (set_nextpid 2 (set_inodes [set_i_ref 1 inode0] (set_procs (fork_proc :: replicate 63 proc0) ram4))).

Lemma fork_machine_slots j : j <> 0%nat -> procat j fork_machine = proc0.
Proof.
  intros Hj. unfold procat. destruct j as [|j]; [done|]. change (procs fork_machine !!! S j) with (replicate 63 proc0 !!! j).
  destruct (decide (j < 63)%nat) as [Hl|Hl]; [by rewrite lookup_total_replicate_2|].
  rewrite list_lookup_total_alt, lookup_ge_None_2; [done|rewrite length_replicate; lia].
Qed.

Lemma fork_machine_ok : forkable fork_machine 0 fork_tables ram_free ram_frames.
Proof.
  destruct ram4_own as [Own P]. assert (Hx : procat 0 fork_machine = fork_proc) by done.
  pose proof fork_machine_slots as Hj.
  split; rewrite ?Hx; try done.
  - lia.
  - intros j. destruct (decide (j = 0%nat)) as [->|Hne]; [by rewrite Hx|]. by rewrite Hj.
  - cbn [p_pagetable p_trapframe p_sz fork_proc].
    assert (Sm : same_mem ram4 fork_machine) by (split; [done|done|intros _; apply not_elem_of_nil]).
    eapply space_same; [exact Sm|]. split.
    + split; [exact Own| | | |].
      * intros va pa [-> ->]%ram_frame. split; [done|lia].
      * intros va pa [-> ->]%ram_frame. split; [split; by vm_compute|]. split; [|by vm_compute]. apply (bool_decide_unpack _). by vm_compute.
      * intros va pa [-> ->]%ram_frame. exists frame_perm. rewrite P by lia. rewrite !decide_False by (by vm_compute).
        split; [apply ram_pte0|]. split; by vm_compute.
      * intros va vb pa [-> _]%ram_frame [-> _]%ram_frame. done.
    + lia.
    + intros va. change (PGROUNDUP 4096) with 4096. split.
      * intros [pa [-> _]%ram_frame]. split; [lia|done].
      * intros [Hva Hal]. assert (va = 0) as -> by (Z.div_mod_to_equations; lia). exists (pg 3). unfold ram_frames. by apply lookup_singleton_Some.
    + rewrite P by lia. rewrite decide_False, decide_True by (by vm_compute). done.
    + rewrite P by lia. by rewrite decide_True.
    + intros vb Hvb. change (PGROUNDUP 4096) with 4096 in Hvb. rewrite P by lia.
      rewrite !decide_False by (Z.div_mod_to_equations; lia). apply ram_pte_out. lia.
  - cbn. split; [split; by vm_compute|]. apply (bool_decide_unpack _). by vm_compute.
  - intros f Hf. apply (elem_of_replicate NOFILE None (Some f)) in Hf as [? _]. done.
Qed.

Lemma fork_correct_witness :
  wp fork (fun r s' => (r = -1 /\ procat 0 s' = fork_proc) \/
    (r = 2 /\ exists np, p_state (procat np s') = RUNNABLE /\ p_pid (procat np s') = 2 /\ p_parent (procat np s') = Some 0%nat)) fork_machine.
Proof.
  eapply wp_mono; [apply (fork_correct fork_machine 0 fork_tables ram_free ram_frames fork_machine_ok)|].
  intros r s' [(-> & _ & E & _)|(-> & np & fl' & O' & U' & tf & pt & F)]; [left; split; [done|exact E]|right].
  split; [done|]. exists np. destruct (fd_slot _ _ _ _ _ _ _ _ _ _ _ _ F) as [Hnp _].
  assert (E : procat np s' = child_proc 0 2 tf pt fork_proc (procat np fork_machine)).
  { unfold procat. rewrite (fd_procs _ _ _ _ _ _ _ _ _ _ _ _ F). apply list_lookup_total_alter_eq. exact Hnp. }
  rewrite E. done.
Defined.
