(* ===== verification/WaitThms.v ===== *)
(** [wait] and [exit]: the end of a process. *)
From S2P Require Import Prelude Types Riscv Str Kalloc Vm PtRep PtOps Uvm Grow Uvmfree Copy Sched Sleeplock Bio Log Fs Uart Printf Pipe File Proc.
From S2P Require Import Args Exec Syscall Sysfile Frame Dirs ProcMem Concrete FdThms ForkThms.

Section Thms.
Context {L : Linker} {LOk : LinkerOk L}.
Implicit Types (O : gmap Z role) (U : gmap Z Z) (fl : list Z).

(** The user's writable pages are the frames of the process. *)
Lemma space_writable s r O fl U tf sz : space s r O fl U tf sz -> pa_ok tf -> writable_owned (mem s) r U.
Proof.
  intros Sp Htf va H0 Hw. pose proof (sp_sz _ _ _ _ _ _ _ Sp) as Hsz. pose proof (space_round _ Hsz) as Hr.
  unfold uwritable, ureadable in Hw. apply Is_true_eq_true in Hw. apply andb_prop in Hw as [Hw _]. apply andb_prop in Hw as [Hw Hu].
  apply andb_prop in Hw as [Hm Hv]. apply Z.ltb_lt in Hm.
  destruct (decide (va < PGROUNDUP sz)) as [Hlt|Hge].
  - destruct (user_page _ _ _ _ _ _ _ _ Sp (conj H0 Hlt)) as (p & perm & HU & _). by eexists.
  - exfalso. destruct (decide (va < TRAPFRAME)); [rewrite (sp_free _ _ _ _ _ _ _ Sp), has_0 in Hv by lia; done|].
    destruct (decide (va < TRAMPOLINE)).
    + rewrite (pte_at_page _ _ va TRAPFRAME) in Hu by (Z.div_mod_to_equations; lia).
      rewrite (sp_tf _ _ _ _ _ _ _ Sp), leaf_has in Hu by done. done.
    + rewrite (pte_at_page _ _ va TRAMPOLINE) in Hu by (Z.div_mod_to_equations; lia).
      rewrite (sp_tramp _ _ _ _ _ _ _ Sp), leaf_has in Hu by (done || apply trampoline_pa_ok). done.
Qed.

(** ** [wait] *)

Definition zombie_of (p : nat) (s : kst) (z : nat) : Prop := p_parent (procat z s) = Some p /\ p_state (procat z s) = ZOMBIE.
Definition has_kids (p : nat) (s : kst) : Prop := exists i, (i < NPROC)%nat /\ p_parent (procat i s) = Some p.

(** The part of the scan before a child that has exited. *)
Lemma wp_wait_scan_skip p addr k (Q : Z + bool -> kst -> Prop) n : forall i hk s, (forall j, LkProc j ∉ held s) ->
  (forall j, (i <= j < i + k)%nat -> ~ zombie_of p s j) ->
  (forall hk', (hk' = true <-> hk = true \/ exists j, (i <= j < i + k)%nat /\ p_parent (procat j s) = Some p) ->
    wp (wait_scan p addr hk' (i + k) n) Q s) -> wp (wait_scan p addr hk i (k + n)) Q s.
Proof.
  induction k as [|k IH]; intros i hk s Hh Hz HQ.
  { rewrite Nat.add_0_r in HQ. apply HQ. split; [by left|]. intros [?|(j & ? & _)]; [done|lia]. }
  cbn [Nat.add wait_scan]. wp_step. apply wp_get. destruct (bool_decide_reflect (p_parent (procat i s) = Some p)) as [Hp|Hp].
  - wp_step. apply wp_acquire; [done|]. wp_step. apply wp_get. change (procat i (set_held _ s)) with (procat i s).
    rewrite bool_decide_eq_false_2 by (intros Hst; by apply (Hz i ltac:(lia))).
    wp_step. eapply wp_release; [done|done|]. replace (set_held (held s) _) with s by (by destruct s).
    apply IH; [done|intros j Hj; apply Hz; lia|]. intros hk' Hk'. rewrite Nat.add_succ_comm. apply HQ. rewrite Hk'.
    split; [intros _; right; exists i; split; [lia|done]|by left].
  - apply IH; [done|intros j Hj; apply Hz; lia|]. intros hk' Hk'. rewrite Nat.add_succ_comm. apply HQ. rewrite Hk'. split.
    + intros [?|(j & ? & ?)]; [by left|right]. exists j. split; [lia|done].
    + intros [?|(j & ? & ?)]; [by left|right]. exists j. split; [|done]. destruct (decide (j = i)) as [->|]; [done|lia].
Qed.

(** The caller's memory, for the exit status. *)
Definition status_bytes (x : Z) : list Z := le_bytes 4 (u32 x).

(** The process that waits. *)
Record waiter (s : kst) (p : nat) O fl U : Prop := {
  wt_cur : cur s = Some p;
  wt_held : held s = [];
  wt_table : length (procs s) = NPROC;
  wt_p : (p < NPROC)%nat;
  wt_space : space s (p_pagetable (procat p s)) O fl U (p_trapframe (procat p s)) (p_sz (procat p s));
  wt_tf : pa_ok (p_trapframe (procat p s))
}.

(** The bytes of the exit status in the caller's memory, when it asked for them. *)
Definition told (s : kst) r sz addr x (s' : kst) : Prop :=
  forall vb, 0 <= vb < PGROUNDUP sz -> ubyte (mem s') r vb =
    if decide (addr <> 0 /\ addr <= vb < addr + 4) then nth (Z.to_nat (vb - addr)) (status_bytes x) 0 else ubyte (mem s) r vb.

(** A child's pages are not touched by a write to the parent's frames. *)
Lemma pages_of_frame s s' z fl R r O U :
  pages_of s z fl R -> procat z s' = procat z s -> kmem_inv s' fl -> uvm_own s r O fl U ->
  (forall q va, R q -> U !! va <> Some q) ->
  (forall x, (forall va q, U !! va = Some q -> ~ in_page q x) -> mget (mem s') x = mget (mem s) x) -> pages_of s' z fl R.
Proof.
  intros Hp Ez K Own HR Hm. unfold pages_of in *. rewrite Ez.
  destruct Hp as [?|[?|(Hok & Hnf & Hpt & O' & U' & Sp & HO & HU & HRR)]]; [by left|by right; left|right; right].
  split_and!; [done|done|done|]. exists O', U'. split_and!; [|done|done|done].
  apply (space_frame_free s s' _ O' fl fl U' _ _ Sp K).
  - intros q Hq. by eapply space_free.
  - intros t x Ht Hx. apply Hm. intros va q Hq Hxq. assert (Rt : R t) by (apply HRR; by right; left).
    destruct Ht as [ρ Ht]. eapply (in_page_neq t q); [by eapply (pt_page _ _ _ (own_wf _ _ _ _ (uvm_pt _ _ _ _ _ (sp_own _ _ _ _ _ _ _ Sp))))| | |exact Hx|exact Hxq].
    + by apply (uvm_frame _ _ _ _ _ Own _ _ Hq).
    + intros ->. by apply (HR q va).
Qed.

(** The status is written, or an address is bad. *)
Lemma wp_tell s p O fl U z addr :
  let x := procat p s in
  waiter s p O fl U -> 0 <= addr <= 2 ^ 64 - PGSIZE - 4 ->
  forall h, LkKmem ∉ h -> let s2 := set_held h s in
  wp (if negb (addr =? 0) then
        let! pt := getp p p_pagetable in
        let! xs := getp z p_xstate in
        copyout pt addr (status_bytes xs)
      else ret 0)
    (fun r s3 => s3 = set_mem (mem s3) s2 /\ uvm_own s3 (p_pagetable x) O fl U /\
       (forall y, (forall va q, U !! va = Some q -> ~ in_page q y) -> mget (mem s3) y = mget (mem s) y) /\
       (forall vb, pte_at (mem s3) (p_pagetable x) vb = pte_at (mem s) (p_pagetable x) vb) /\
       ((r = 0 /\ told s (p_pagetable x) (p_sz x) addr (p_xstate (procat z s)) s3 /\
         (addr <> 0 -> forall vb, addr <= vb < addr + 4 -> uwritable (mem s) (p_pagetable x) vb)) \/
        (r = -1 /\ addr <> 0 /\ exists vb, addr <= vb < addr + 4 /\ uwritable (mem s) (p_pagetable x) vb = false))) s2.
Proof.
  intros x Wt Ha h Hh s2. pose proof (wt_space _ _ _ _ _ Wt) as Sp. fold x in Sp.
  assert (Sm : same_mem s s2) by (by split). assert (Sp2 : space s2 (p_pagetable x) O fl U (p_trapframe x) (p_sz x)) by (by eapply space_same).
  pose proof (sp_own _ _ _ _ _ _ _ Sp2) as Own2.
  destruct (Z.eqb_spec addr 0) as [->|Hne]; cbn [negb].
  { wp_step. split_and!; [by destruct s|done|done|done|]. left. split_and!; [done| |done]. intros vb Hvb. by rewrite decide_False by tauto. }
  wp_step. apply wp_get. wp_step. apply wp_get. change (procat p s2) with x. change (procat z s2) with (procat z s).
  assert (Hl : length (status_bytes (p_xstate (procat z s))) = 4%nat) by apply length_le_bytes.
  eapply wp_mono; [apply (wp_copyout s2 (p_pagetable x) O fl U addr); [done| |lia|rewrite Hl; lia]|].
  { change (mem s2) with (mem s). by apply (space_writable s _ O fl U (p_trapframe x) (p_sz x)); [|apply Wt]. }
  intros r s3 Hc.
  assert (Hcp : forall n, 0 <= n -> copied s2 (p_pagetable x) O fl U addr (status_bytes (p_xstate (procat z s))) n s3 ->
    s3 = set_mem (mem s3) s2 /\ uvm_own s3 (p_pagetable x) O fl U /\
    (forall y, (forall va q, U !! va = Some q -> ~ in_page q y) -> mget (mem s3) y = mget (mem s) y) /\
    (forall vb, pte_at (mem s3) (p_pagetable x) vb = pte_at (mem s) (p_pagetable x) vb)).
  { intros n Hn [C1 C2 C3 C4 C5]. split_and!; [done|done| |done]. intros y Hy. apply C5. intros vb q _ HU. by eapply Hy. }
  destruct Hc as [(-> & Hw & C)|(-> & n & Hn & Hbad & C)]; rewrite Hl in *.
  - destruct (Hcp 4 ltac:(lia) C) as (A1 & A2 & A3 & A4). split_and!; [done|done|done|done|]. left. split_and!; [done| |done].
    intros vb Hvb. destruct (user_page _ _ _ _ _ _ _ _ Sp Hvb) as (q & perm & HU & _).
    rewrite (cp_byte _ _ _ _ _ _ _ _ _ C) by (by eexists). change (Z.of_nat 4) with 4.
    destruct (decide (addr <= vb < addr + 4)); [by rewrite decide_True|by rewrite decide_False by tauto].
  - destruct (Hcp n ltac:(lia) C) as (A1 & A2 & A3 & A4). split_and!; [done|done|done|done|]. right. split_and!; [done|done|].
    exists (addr + n). split; [lia|done].
Qed.

(** A child that has exited is reaped. *)
Lemma wp_wait_zombie s p O fl U z R addr :
  let x := procat p s in
  waiter s p O fl U -> 0 <= addr <= 2 ^ 64 - PGSIZE - 4 -> (z < NPROC)%nat -> zombie_of p s z ->
  (forall j, (j < z)%nat -> ~ zombie_of p s j) -> pages_of s z fl R -> (forall q, R q -> O !! q = None /\ forall va, U !! va <> Some q) ->
  wp (wait addr) (fun r s' =>
    (r = p_pid (procat z s) /\ mem_proc z reaped s s' /\
     (exists fl', space s' (p_pagetable x) O fl' U (p_trapframe x) (p_sz x) /\ forall q, q ∈ fl' <-> q ∈ fl \/ R q) /\
     told s (p_pagetable x) (p_sz x) addr (p_xstate (procat z s)) s' /\
     (addr <> 0 -> forall vb, addr <= vb < addr + 4 -> uwritable (mem s) (p_pagetable x) vb)) \/
    (r = -1 /\ s' = set_mem (mem s') s /\ addr <> 0 /\ exists vb, addr <= vb < addr + 4 /\ uwritable (mem s) (p_pagetable x) vb = false)) s.
Proof.
  intros x Wt Ha Hz [Hpar Hst] Hfirst Hp HR. pose proof Wt as [Hc Hh Hlen Hpl Sp Htf]. fold x in Sp, Htf.
  unfold wait. wp_step. eapply wp_myproc_; [done|]. wp_step. apply wp_acquire; [rewrite Hh; apply not_elem_of_nil|]. rewrite Hh. wp_step.
  replace NPROC with (z + S (NPROC - S z))%nat by lia.
  apply wp_wait_scan_skip; [intros j; cbn; set_solver|intros j Hj; apply (Hfirst j); lia|]. intros hk _. cbn [Nat.add wait_scan].
  set (s1 := set_held _ s). change (procat z s1) with (procat z s). wp_step. apply wp_get. change (procat z s1) with (procat z s).
  rewrite bool_decide_eq_true_2 by done. wp_step. apply wp_acquire; [cbn; set_solver|]. cbn [held set_held s1].
  set (h := [LkProc z; LkWait]). change (set_held h s1) with (set_held h s). set (s2 := set_held h s).
  wp_step. apply wp_get. change (procat z s2) with (procat z s). rewrite bool_decide_eq_true_2 by done.
  wp_step. apply wp_get. change (procat z s2) with (procat z s). wp_step.
  assert (Hkh : LkKmem ∉ h) by (unfold h; set_solver).
  eapply wp_mono; [apply (wp_tell s p O fl U z addr Wt Ha h Hkh)|]. fold x.
  intros r s3 (E3 & Own3 & F3 & P3 & Hr). fold s2 in E3.
  assert (Eh3 : held s3 = [LkProc z; LkWait]) by (by rewrite E3).
  destruct Hr as [(-> & Htold & Hw)|(-> & Hne & Hbad)].
  2: { change (-1 <? 0) with true. cbv iota. wp_step. eapply wp_release; [exact Eh3|set_solver|].
    wp_step. eapply wp_release; [done|apply not_elem_of_nil|]. wp_step. cbv beta iota. wp_step. right. split_and!; [done| |done|done].
    cbn. rewrite E3. destruct s. cbn in *. by subst. }
  change (0 <? 0) with false. cbv iota.
  assert (K3 : kmem_inv s3 fl) by apply Own3.
  assert (Ez3 : procat z s3 = procat z s) by (by rewrite E3).
  assert (Hp3 : pages_of s3 z fl R).
  { eapply (pages_of_frame s s3 z fl R (p_pagetable x) O U); [done|done|done|apply Sp|by intros q va Hq; apply HR|done]. }
  wp_step. eapply wp_mono; [apply (wp_freeproc s3 z fl R K3); [by rewrite E3; cbn; rewrite Hlen|done]|].
  intros [] s4 (fl4 & K4 & E4 & Hp4 & F4).
  assert (Eh4 : held s4 = [LkProc z; LkWait]) by (rewrite E4; exact Eh3).
  wp_step. eapply wp_release; [exact Eh4|set_solver|]. wp_step. eapply wp_release; [done|apply not_elem_of_nil|]. wp_step. cbv beta iota. wp_step.
  cbn [set_held]. match goal with |- context [told _ _ _ _ _ ?st] => set (s5 := st) end. left.
  assert (Sm5 : same_mem s4 s5) by (split; [done|done|intros _; apply not_elem_of_nil]).
  assert (Sp3 : space s3 (p_pagetable x) O fl U (p_trapframe x) (p_sz x)).
  { destruct Sp as [A1 A2 A3 A4 A5 A6]. split; rewrite ?P3; try done. intros vb Hvb. rewrite P3. by apply A6. }
  assert (Hd4 : forall q, q ∈ fl4 -> O !! q = None /\ forall va, U !! va <> Some q).
  { intros q [Hq|Hq]%Hp4; [by eapply space_free|by apply HR]. }
  assert (Hk4 : forall q y, page_ok q -> q ∉ fl4 -> in_page q y -> mget (mem s4) y = mget (mem s3) y).
  { intros q y Hq Hn Hy. apply F4. intros q' Hq' Hy'. eapply (in_page_neq q q'); [done|by eapply kmem_page| |exact Hy|exact Hy'].
    intros ->. done. }
  destruct (space_frame_free s3 s4 _ O fl fl4 U _ _ Sp3 K4 Hd4) as [Sp4 P4].
  { intros t y [ρ Ht]. apply Hk4; [by eapply (pt_page _ _ _ (own_wf _ _ _ _ (uvm_pt _ _ _ _ _ Own3)))|]. intros Hin. destruct (Hd4 t Hin). congruence. }
  split_and!; [done| | | |done].
  - unfold mem_proc, only_mem, s5. rewrite E4, E3. unfold s2, upmod. destruct s. cbn in *. by subst.
  - exists fl4. split; [by eapply space_same|done].
  - intros vb Hvb. rewrite (sm_mem _ _ Sm5), <- Htold by done.
    apply (same_user_frame s3 s4 _ O fl U (p_trapframe x) (p_sz x) Sp3 P4); [|done]. intros q y [va HU].
    apply Hk4; [by apply (uvm_frame _ _ _ _ _ Own3 _ _ HU)|]. intros Hin. by apply (proj2 (Hd4 q Hin) va).
Qed.

(** With no such child, it returns or waits. *)
Lemma wps_wait_none s p O fl U addr :
  waiter s p O fl U -> (forall j, (j < NPROC)%nat -> ~ zombie_of p s j) ->
  wps (wait addr)
    (fun r s' => r = -1 /\ s' = s /\ (~ has_kids p s \/ p_killed (procat p s) = true))
    (fun ch s' => ch = ChProc p /\ s' = asleep p (ChProc p) s /\ has_kids p s /\ p_killed (procat p s) = false) s.
Proof.
  intros Wt Hz. pose proof Wt as [Hc Hh Hlen Hpl _ _]. unfold wait. wp_step. eapply wp_myproc_; [done|].
  wp_step. apply wp_acquire; [rewrite Hh; apply not_elem_of_nil|]. rewrite Hh. set (s1 := set_held [LkWait] s).
  assert (Es : set_held [] s1 = s) by (destruct s; cbn in *; by subst).
  wp_step. replace NPROC with (NPROC + 0)%nat by lia.
  apply wp_wait_scan_skip; [intros j; cbn; set_solver|intros j Hj; apply (Hz j); lia|]. intros hk Hk. cbn [wait_scan]. wp_step.
  assert (Hkids : hk = true <-> has_kids p s).
  { rewrite Hk. split; [intros [?|(j & Hj & ?)]; [done|exists j; split; [lia|done]]|intros (j & Hj & ?); right; exists j; split; [lia|done]]. }
  cbv beta iota. destruct hk.
  - wp_step. eapply wp_killed; [cbn; set_solver|]. change (procat p s1) with (procat p s). destruct (p_killed (procat p s)) eqn:Ek.
    + wp_step. eapply wp_release; [done|apply not_elem_of_nil|]. apply wps_wp. wp_step. rewrite Es. split_and!; [done|done|by right].
    + apply wps_bind. eapply wps_sleep; [exact Hc|change (procs s1) with (procs s); by rewrite Hlen|done|done|]. split_and!; [done| |by apply Hkids|done].
      unfold asleep, s1. by destruct s.
  - wp_step. wp_step. wp_step. eapply wp_release; [done|apply not_elem_of_nil|]. apply wps_wp. wp_step. rewrite Es. split_and!; [done|done|]. left. intros H%Hkids. done.
Qed.

(** ** [exit], of a process whose files and directory others have too *)

Definition drop_all (l : list (option nat)) (fs fs' : list file) : Prop :=
  length fs' = length fs /\ forall f, (f < length fs)%nat -> fs' !!! f = more_refs (- fcount f l) (fs !!! f).

Lemma more_refs_add n k f : more_refs n (more_refs k f) = more_refs (k + n) f.
Proof. unfold more_refs, set_f_ref. cbn. f_equal. lia. Qed.

Lemma wp_fileclose_shared s f :
  LkFtable ∉ held s -> (f < length (files s))%nat -> 2 <= f_ref (fileat f s) ->
  wp (fileclose f) (fun _ s' => s' = set_files (alter (more_refs (-1)) f (files s)) s) s.
Proof.
  intros Hh Hf Hr. unfold fileclose. wp_step. apply wp_acquire; [done|]. wp_step. apply wp_get.
  change (fileat f (set_held _ s)) with (fileat f s). rewrite (proj2 (Z.ltb_ge _ _)) by lia. wp_step. apply wp_upd.
  rewrite (proj2 (Z.ltb_lt _ _)) by lia. eapply wp_release; [done|done|]. cbn. destruct s. unfold set_files, set_held. cbn in *. f_equal.
  apply list_eq. intros j. destruct (decide (f = j)) as [->|]; [|by rewrite !list_lookup_alter_ne].
  rewrite !list_lookup_alter_eq. destruct (files !! j) as [x|] eqn:E; [|done]. cbn. unfold fileat. cbn.
  rewrite (list_lookup_total_correct _ _ _ E). done.
Qed.

Lemma drop_all_cons o l fs fs' :
  (forall f, o = Some f -> (f < length fs)%nat) ->
  drop_all l (match o with Some f => alter (more_refs (-1)) f fs | None => fs end) fs' -> drop_all (o :: l) fs fs'.
Proof.
  intros Ho [Hl H]. destruct o as [f|].
  - rewrite length_alter in *. split; [done|]. intros f' Hf'. rewrite H by done. cbn [fcount]. unfold one.
    destruct (decide (f = f')) as [->|Hne].
    + rewrite list_lookup_total_alter_eq, decide_True, more_refs_add by auto. f_equal. lia.
    + rewrite list_lookup_total_alter_ne, decide_False by congruence. done.
  - split; [done|]. intros f' Hf'. rewrite H by done. cbn [fcount]. unfold one. by rewrite decide_False.
Qed.

Lemma wp_exit_files np k : forall l i s,
  (np < length (procs s))%nat -> LkFtable ∉ held s -> p_ofile (procat np s) = replicate i None ++ l -> length l = k ->
  (forall f, Some f ∈ l -> (f < length (files s))%nat /\ fcount f l < f_ref (fileat f s)) ->
  wp (exit_files np i k) (fun _ s' => exists fs, drop_all l (files s) fs /\
    s' = set_files fs (upmod np (set_p_ofile (replicate (i + k) None)) s)) s.
Proof.
  induction k as [|k IH]; intros l i s Hnp Hh El Hl Hf; cbn [exit_files].
  { destruct l; [|done]. wp_step. exists (files s). split.
    - split; [done|]. intros f Hfl. cbn [fcount]. by rewrite more_refs_0.
    - rewrite Nat.add_0_r, app_nil_r in *. rewrite upmod_id; [by destruct s|]. destruct (procat np s). cbn in *. by subst. }
  destruct l as [|o l]; [done|]. injection Hl as Hl. wp_step. apply wp_get. rewrite El, app_nth2 by (rewrite length_replicate; lia).
  rewrite length_replicate, Nat.sub_diag. cbn [nth]. wp_step.
  assert (Hs : forall s1, (np < length (procs s1))%nat -> LkFtable ∉ held s1 -> p_ofile (procat np s1) = replicate (S i) None ++ l ->
    upmod np (set_p_ofile (replicate (i + S k) None)) s1 = set_files (files s1) (upmod np (set_p_ofile (replicate (i + S k) None)) s) ->
    files s1 = match o with Some f => alter (more_refs (-1)) f (files s) | None => files s end ->
    wp (exit_files np (S i) k) (fun _ s' => exists fs, drop_all (o :: l) (files s) fs /\
      s' = set_files fs (upmod np (set_p_ofile (replicate (i + S k) None)) s)) s1).
  { intros s1 Hnp1 Hh1 El1 Eu Efs.
    assert (Hof : forall f, o = Some f -> (f < length (files s))%nat) by (intros f ->; apply Hf; by left).
    eapply wp_mono; [apply (IH l (S i) s1); try done|].
    - intros f Hfd. destruct (Hf f ltac:(by right)) as [Hfl Hfr]. cbn [fcount] in Hfr. unfold one in Hfr. unfold fileat in *. rewrite Efs.
      destruct o as [f'|]; [|rewrite decide_False in Hfr by done; split; [done|lia]].
      rewrite length_alter. split; [done|]. destruct (decide (f' = f)) as [->|Hne].
      + rewrite decide_True in Hfr by done. rewrite list_lookup_total_alter_eq by done. cbn. lia.
      + rewrite decide_False in Hfr by congruence. rewrite list_lookup_total_alter_ne by done. lia.
    - intros [] s2 (fs & Hd & ->). exists fs. rewrite Efs in Hd. split; [by apply drop_all_cons|]. rewrite Nat.add_succ_comm, Eu. done. }
  destruct o as [f|].
  - destruct (Hf f ltac:(by left)) as [Hfl Hfr]. cbn [fcount] in Hfr. unfold one in Hfr. rewrite decide_True in Hfr by done.
    pose proof (fcount_range f l). wp_step. eapply wp_mono; [apply wp_fileclose_shared; [done|done|lia]|].
    intros [] s1 ->. apply wp_updp. set (s1 := set_files _ s). apply Hs; rewrite ?length_upmod; try done.
    + rewrite (procat_upmod np _ s1 np), decide_True by done. cbn [p_ofile set_p_ofile]. change (procat np s1) with (procat np s). rewrite El.
      rewrite insert_app_r_alt by (rewrite length_replicate; lia). rewrite length_replicate, Nat.sub_diag. cbn [insert list_insert].
      rewrite cons_middle, app_assoc. f_equal. rewrite <- replicate_cons_app. done.
    + rewrite upmod_upmod. done.
  - wp_step. apply Hs; try done. rewrite El, cons_middle, app_assoc. f_equal. by rewrite <- replicate_cons_app.
Qed.

(** No system call is in a transaction. *)
Record idle (l : logstate) : Prop := {
  id_commit : l_committing l = false;
  id_n : l_n l = 0;
  id_out : l_outstanding l = 0
}.

Lemma wp_begin_op_idle s : LkLog ∉ held s -> idle (log s) ->
  wp begin_op (fun _ s' => s' = set_log (set_l_outstanding 1 (log s)) s) s.
Proof.
  intros Hh [H1 H2 H3]. unfold begin_op. wp_step. apply wp_acquire; [done|]. wp_step. apply wp_get.
  change (log (set_held _ s)) with (log s). rewrite H1, H2, H3. change (LOGSIZE <? _) with false. cbv iota.
  wp_step. apply wp_upd. eapply wp_release; [done|done|]. by destruct s.
Qed.

Lemma wp_end_op_empty s l : LkLog ∉ held s -> (forall j, LkProc j ∉ held s) -> idle l -> log s = set_l_outstanding 1 l ->
  wp end_op (fun _ s' => s' = set_procs (woken (cur s) ChLog 0 NPROC (procs s)) (set_log l s)) s.
Proof.
  intros Hh Hp [H1 H2 H3] El. unfold end_op. wp_step. apply wp_acquire; [done|]. wp_step. apply wp_get.
  change (log (set_held _ s)) with (log s). wp_step. apply wp_upd. rewrite El. cbn [l_committing set_l_outstanding l_outstanding]. rewrite H1.
  change (1 - 1 =? 0) with true. cbv iota. wp_step. apply wp_upd. wp_step. eapply wp_release; [done|done|].
  wp_step. unfold commit. wp_step. apply wp_get. cbn [log set_held set_log l_n set_l_committing set_l_outstanding].
  assert (l_n (log s) = 0) as -> by (by rewrite El). change (0 <? 0) with false. cbv iota. wp_step.
  wp_step. apply wp_acquire; [done|]. wp_step. apply wp_upd. wp_step. apply wp_wakeup; [intros j _; cbn; set_solver|].
  eapply wp_release; [done|done|]. destruct s, l. cbn in *. subst. done.
Qed.

Lemma wp_reparent_none np k : forall i s, (forall j, p_parent (procat j s) <> Some np) ->
  wp (reparent_loop np i k) (fun _ s' => s' = s) s.
Proof.
  induction k as [|k IH]; intros i s H; cbn [reparent_loop]; [by wp_step|]. wp_step. apply wp_get.
  rewrite bool_decide_eq_false_2 by done. wp_step. wp_step. by apply IH.
Qed.

(** A process that may have been woken. *)
Definition roused (x y : proc) : Prop := y = x \/ (p_state x = SLEEPING /\ y = set_p_state RUNNABLE x).

Lemma wake_roused c x y : roused x y -> roused x (wake c y).
Proof.
  intros [->|[Hs ->]]; unfold wake.
  - destruct (bool_decide_reflect (p_state x = SLEEPING)); cbn [andb]; [|by left]. case_bool_decide; [by right|by left].
  - right. split; [done|]. done.
Qed.

Lemma woken_lookup me c ps j : woken me c 0 NPROC ps !!! j =
  (if decide (j < length ps)%nat then if decide (j < NPROC)%nat then if decide (me = Some j) then ps !!! j else wake c (ps !!! j) else ps !!! j else ps !!! j).
Proof.
  unfold woken. rewrite !list_lookup_total_alt, list_lookup_imap. destruct (decide (j < length ps)%nat) as [Hl|Hl].
  - destruct (lookup_lt_is_Some_2 _ _ Hl) as [x Hx]. rewrite Hx. cbn. destruct (decide (j < NPROC)%nat); [by rewrite decide_True by lia|by rewrite decide_False by lia].
  - by rewrite lookup_ge_None_2 by lia.
Qed.

Lemma woken_roused me c ps j x : roused x (ps !!! j) -> roused x (woken me c 0 NPROC ps !!! j).
Proof. intros H. rewrite woken_lookup. repeat case_decide; try done. by apply wake_roused. Qed.
Lemma woken_me me c ps : woken (Some me) c 0 NPROC ps !!! me = ps !!! me.
Proof. rewrite woken_lookup. by repeat case_decide. Qed.
Definition gone_proc (status : Z) (x : proc) : proc :=
  Proc ZOMBIE (p_chan x) (p_killed x) status (p_pid x) (p_parent x) (p_kstack x) (p_sz x) (p_pagetable x) (p_trapframe x)
    (p_context x) (replicate NOFILE None) None (p_name x).

Record exitable (s : kst) (np c : nat) : Prop := {
  ex_cur : cur s = Some np;
  ex_held : held s = [];
  ex_table : length (procs s) = NPROC;
  ex_np : (np < NPROC)%nat;
  ex_init : initproc s <> Some np;
  ex_ofile : length (p_ofile (procat np s)) = NOFILE;
  ex_files f : Some f ∈ p_ofile (procat np s) -> (f < length (files s))%nat /\ fcount f (p_ofile (procat np s)) < f_ref (fileat f s);
  ex_cwd : p_cwd (procat np s) = Some c /\ i_ref (inodeat c s) <> 1;
  ex_log : idle (log s);
  ex_kids j : p_parent (procat j s) <> Some np
}.

Record exited (s : kst) (np c : nat) status (s' : kst) : Prop := {
  et_self : procat np s' = gone_proc status (procat np s);
  et_others j : j <> np -> roused (procat j s) (procat j s');
  et_table : length (procs s') = length (procs s);
  et_files : drop_all (p_ofile (procat np s)) (files s) (files s');
  et_inodes : inodes s' = alter (fun ip => set_i_ref (i_ref ip - 1) ip) c (inodes s);
  et_held : held s' = [LkProc np];
  et_rest : s' = set_held (held s') (set_inodes (inodes s') (set_files (files s') (set_procs (procs s') s)))
}.

Lemma wps_exit s np c status :
  exitable s np c -> wps (exit status) (fun _ _ => False) (fun _ s' => exited s np c status s') s.
Proof.
  intros [Hc Hh Hlen Hnp Hi Hof Hf [Hcwd Href] Hlog Hk]. unfold exit. wp_step. eapply wp_myproc_; [done|]. wp_step. apply wp_get.
  rewrite bool_decide_eq_false_2 by congruence. set (x := procat np s) in *.
  wp_step. eapply wp_mono; [apply (wp_exit_files np NOFILE (p_ofile x) 0 s); try done; [by rewrite Hlen|rewrite Hh; apply not_elem_of_nil]|].
  intros [] s1 (fs & Hd & E1). change (0 + NOFILE)%nat with NOFILE in E1.
  wp_step. eapply wp_mono; [apply (wp_begin_op_idle s1); rewrite E1; [cbn; rewrite Hh; apply not_elem_of_nil|exact Hlog]|]. intros [] s2 E2.
  assert (Hx2 : procat np s2 = set_p_ofile (replicate NOFILE None) x).
  { rewrite E2, E1. unfold procat. cbn. rewrite list_lookup_total_alter_eq by (by rewrite Hlen). done. }
  wp_step. apply wp_get. rewrite Hx2. cbn [p_cwd set_p_ofile]. rewrite Hcwd. wp_step. eapply wp_deref; [done|].
  assert (Ei2 : inodeat c s2 = inodeat c s) by (by rewrite E2, E1).
  wp_step. eapply wp_mono; [apply wp_iput_drop; [rewrite E2, E1; cbn; rewrite Hh; apply not_elem_of_nil|]|].
  { rewrite Ei2. by rewrite (proj2 (Z.eqb_neq _ _)) by done. }
  intros [] s3 E3. wp_step. eapply wp_mono; [apply (wp_end_op_empty s3 (log s)); [| |done|]|].
  1,2: rewrite E3, E2, E1; cbn; rewrite Hh; intros; apply not_elem_of_nil.
  { by rewrite E3, E2, E1. }
  intros [] s4 E4.
  assert (Ep4 : procs s4 = woken (Some np) ChLog 0 NPROC (alter (set_p_ofile (replicate NOFILE None)) np (procs s))).
  { rewrite E4. cbn. rewrite E3, E2, E1. unfold upmod. cbn. by rewrite Hc. }
  assert (Hl4 : length (procs s4) = NPROC) by (by rewrite Ep4, length_woken, length_alter).
  assert (Eh4 : held s4 = []) by (by rewrite E4, E3, E2, E1). assert (Ec4 : cur s4 = Some np) by (by rewrite E4, E3, E2, E1).
  assert (Hx4 : procat np s4 = set_p_ofile (replicate NOFILE None) x).
  { unfold procat. rewrite Ep4, woken_me, list_lookup_total_alter_eq by (by rewrite Hlen). done. }
  assert (Ho4 : forall j, j <> np -> roused (procat j s) (procat j s4)).
  { intros j Hj. unfold procat. rewrite Ep4. apply woken_roused. rewrite list_lookup_total_alter_ne by done. by left. }
  assert (Hr4 : s4 = set_inodes (alter (fun ip => set_i_ref (i_ref ip - 1) ip) c (inodes s)) (set_files fs (set_procs (procs s4) s))).
  { rewrite E4, E3, E2, E1. cbn. by destruct s. }
  clear E1 E2 E3 E4 Hx2 Ei2 Ep4 s1 s2 s3. wp_step. apply wp_updp. set (s5 := upmod np (set_p_cwd None) s4).
  wp_step. apply wp_acquire; [change (held s5) with (held s4); rewrite Eh4; apply not_elem_of_nil|].
  change (held s5) with (held s4). rewrite Eh4. set (s6 := set_held [LkWait] s5).
  assert (Hx6 : forall j, procat j s6 = if decide (np = j) then set_p_cwd None (procat np s4) else procat j s4).
  { intros j. change (procat j s6) with (procat j s5). apply procat_upmod. by rewrite Hl4. }
  wp_step. eapply wp_mono; [apply (wp_reparent_none np NPROC 0 s6)|].
  { intros j. rewrite Hx6. destruct (decide (np = j)) as [<-|Hj]; [rewrite Hx4; apply Hk|].
    destruct (Ho4 j) as [->|[_ ->]]; [done|apply Hk|apply Hk]. }
  intros [] s6' ->. wp_step. apply wp_get. wp_step. apply wp_wakeup; [intros j _; cbn; set_solver|].
  change (cur s6) with (cur s4). rewrite Ec4. set (ch := pchan _). set (s7 := set_procs _ s6).
  wp_step. apply wp_acquire; [cbn; set_solver|]. wp_step. apply wp_updp. wp_step. apply wp_updp. rewrite upmod_upmod.
  wp_step. unfold wp, release, holding. cbn [held set_held upmod set_procs s7 s6]. rewrite bool_decide_eq_true_2 by set_solver.
  rewrite filter_cons_True by done. rewrite filter_cons_False by naive_solver. rewrite filter_nil.
  match goal with |- wps _ _ _ ?st => set (s8 := st) end.
  assert (Ep8 : procs s8 = alter (fun y => set_p_state ZOMBIE (set_p_xstate status y)) np (woken (Some np) ch 0 NPROC (procs s6))) by done.
  assert (Hx8 : procat np s8 = gone_proc status x).
  { unfold procat. rewrite Ep8, list_lookup_total_alter_eq, woken_me by (rewrite length_woken; cbn; rewrite length_alter, Hl4; done).
    change (procs s6 !!! np) with (procat np s6). rewrite Hx6, decide_True, Hx4 by done. done. }
  apply wps_bind, (wps_sched np); [exact Ec4|done|by rewrite Hx8|].
  assert (Ef : files s8 = fs) by (change (files s8) with (files s4); by rewrite Hr4).
  assert (Ei : inodes s8 = alter (fun ip => set_i_ref (i_ref ip - 1) ip) c (inodes s)) by (change (inodes s8) with (inodes s4); by rewrite Hr4).
  split.
  - exact Hx8.
  - intros j Hj. unfold procat. rewrite Ep8, list_lookup_total_alter_ne by done. apply woken_roused.
    change (procs s6 !!! j) with (procat j s6). rewrite Hx6, decide_False by done. by apply Ho4.
  - rewrite Ep8, length_alter, length_woken. cbn. by rewrite length_alter, Hl4.
  - by rewrite Ef.
  - exact Ei.
  - done.
  - rewrite Ef, Ei. unfold s8, s7, s6, s5, upmod. rewrite Hr4. cbn. done.
Qed.

(** ** From [fork] to [wait] *)

(** The scheduler runs process [i] next. *)
Definition switch_to (i : nat) (s : kst) : kst := set_cur (Some i) (set_held [] (upmod i (set_p_state RUNNING) s)).

Lemma switch_procat i s j : (i < length (procs s))%nat ->
  procat j (switch_to i s) = if decide (i = j) then set_p_state RUNNING (procat i s) else procat j s.
Proof. apply procat_upmod. Qed.

(** Where the life of a child begins: the caller of [fork] has no child that has exited,
    nobody is the child of an unused slot, no system call is under way. *)
Record nursery (s : kst) (p c : nat) O fl U : Prop := {
  nu_fork : forkable s p O fl U;
  nu_cwd : p_cwd (procat p s) = Some c /\ (c < length (inodes s))%nat /\ 1 <= i_ref (inodeat c s);
  nu_kids i j : p_state (procat j s) = UNUSED -> p_parent (procat i s) <> Some j;
  nu_zombie i : ~ zombie_of p s i;
  nu_init j : p_state (procat j s) = UNUSED -> initproc s <> Some j;
  nu_log : idle (log s)
}.

Section Life.
Context (s : kst) (p c : nat) (O : gmap Z role) (fl : list Z) (U : gmap Z Z).
Context (Nu : nursery s p c O fl U).
Context (np : nat) (s1 : kst) (fl' : list Z) (O' : gmap Z role) (U' : gmap Z Z) (tf pt : Z).
Context (Fd : forked s p O fl U np s1 fl' O' U' tf pt).
Let x := procat p s.
Let Fk := nu_fork _ _ _ _ _ _ Nu.

Lemma life_ne : np <> p.
Proof. intros ->. apply (fk_used _ _ _ _ _ Fk). apply Fd. Qed.

Lemma life_procat j : procat j s1 = if decide (np = j) then child_proc p (nextpid s) tf pt x (procat np s) else procat j s.
Proof.
  unfold procat. rewrite (fd_procs _ _ _ _ _ _ _ _ _ _ _ _ Fd). destruct (decide (np = j)) as [<-|Hne].
  - apply list_lookup_total_alter_eq. rewrite (fk_table _ _ _ _ _ Fk). apply Fd.
  - by apply list_lookup_total_alter_ne.
Qed.

Lemma life_table : length (procs s1) = NPROC.
Proof. rewrite (fd_procs _ _ _ _ _ _ _ _ _ _ _ _ Fd), length_alter. apply Fk. Qed.

Lemma life_exitable : exitable (switch_to np s1) np c.
Proof.
  pose proof life_table as Hl. destruct (fd_slot _ _ _ _ _ _ _ _ _ _ _ _ Fd) as [Hnp Hun].
  assert (Hx : procat np (switch_to np s1) = set_p_state RUNNING (child_proc p (nextpid s) tf pt x (procat np s))).
  { rewrite switch_procat, decide_True, life_procat, decide_True by (done || by rewrite Hl). done. }
  destruct (nu_cwd _ _ _ _ _ _ Nu) as (Hc & Hcl & Hcr). fold x in Hc.
  pose proof (fd_rest _ _ _ _ _ _ _ _ _ _ _ _ Fd) as Hr. destruct (fd_files _ _ _ _ _ _ _ _ _ _ _ _ Fd) as [Hfl Hff].
  split; rewrite ?Hx.
  - done.
  - done.
  - cbn. by rewrite length_alter.
  - done.
  - cbn. rewrite Hr. cbn. by apply (nu_init _ _ _ _ _ _ Nu).
  - apply Fk.
  - intros f Hf. cbn [p_ofile set_p_state child_proc] in *. destruct (fk_files _ _ _ _ _ Fk f Hf) as [Hlt Href].
    cbn. rewrite Hfl. split; [done|]. unfold fileat. cbn. rewrite Hff by done. unfold fileat in Href. cbn. fold x. lia.
  - split; [exact Hc|]. unfold inodeat. cbn. rewrite (fd_inodes _ _ _ _ _ _ _ _ _ _ _ _ Fd c Hc), list_lookup_total_alter_eq by done.
    unfold inodeat in Hcr. cbn. lia.
  - cbn. rewrite Hr. apply Nu.
  - intros j. rewrite switch_procat by (by rewrite Hl). destruct (decide (np = j)) as [<-|Hne].
    + rewrite life_procat, decide_True by done. cbn. intros [=]. by apply life_ne.
    + rewrite life_procat, decide_False by done. by apply (nu_kids _ _ _ _ _ _ Nu).
Qed.

Context (status : Z) (s2 : kst) (Ex : exited (switch_to np s1) np c status s2).
Let sP := switch_to p s2.

Lemma life_mem : same_mem s1 sP.
Proof. split; [| |intros _; apply not_elem_of_nil]; cbn; by rewrite (et_rest _ _ _ _ _ Ex). Qed.

Lemma life_child : procat np sP = gone_proc status (child_proc p (nextpid s) tf pt x (procat np s)).
Proof.
  pose proof life_table as Hl. pose proof life_ne. unfold sP. rewrite switch_procat, decide_False by (try congruence; rewrite (et_table _ _ _ _ _ Ex); cbn; rewrite length_alter, Hl; apply Fk).
  rewrite (et_self _ _ _ _ _ Ex), switch_procat, decide_True, life_procat, decide_True by (done || rewrite Hl; apply Fd). done.
Qed.

Lemma life_other j : j <> np -> j <> p -> roused (procat j s) (procat j sP).
Proof.
  intros Hj Hjp. pose proof life_table as Hl. unfold sP.
  rewrite switch_procat, decide_False by (try congruence; rewrite (et_table _ _ _ _ _ Ex); cbn; rewrite length_alter, Hl; apply Fk).
  pose proof (et_others _ _ _ _ _ Ex j Hj) as Hr. rewrite switch_procat, decide_False in Hr by (try congruence; rewrite Hl; apply Fd).
  by rewrite life_procat, decide_False in Hr.
Qed.

(** The parent may have been woken, and runs again. *)
Lemma life_parent : procat p sP = set_p_state RUNNING x.
Proof.
  pose proof life_table as Hl. pose proof life_ne as Hne. unfold sP.
  rewrite switch_procat, decide_True by (try done; rewrite (et_table _ _ _ _ _ Ex); cbn; rewrite length_alter, Hl; apply Fk).
  pose proof (et_others _ _ _ _ _ Ex p ltac:(congruence)) as Hr. rewrite switch_procat, decide_False in Hr by (try congruence; rewrite Hl; apply Fd).
  rewrite life_procat, decide_False in Hr by done. destruct Hr as [->|[_ ->]]; done.
Qed.

Lemma life_waiter : waiter sP p O fl' U.
Proof.
  pose proof life_parent as Ex'. pose proof (fd_twins _ _ _ _ _ _ _ _ _ _ _ _ Fd) as Tw. split; rewrite ?Ex'.
  - done.
  - done.
  - cbn. rewrite length_alter, (et_table _ _ _ _ _ Ex). cbn. rewrite length_alter. apply life_table.
  - apply Fk.
  - cbn [p_pagetable p_trapframe p_sz set_p_state]. eapply space_same; [apply life_mem|apply Tw].
  - apply page_ok_pa_ok. apply Fk.
Qed.

Definition child_pages q : Prop := q = tf \/ is_Some (O' !! q) \/ exists va, U' !! va = Some q.

Lemma life_pages : pages_of sP np fl' child_pages.
Proof.
  pose proof (fd_twins _ _ _ _ _ _ _ _ _ _ _ _ Fd) as Tw. destruct (tw_tf _ _ _ _ _ _ _ _ _ _ _ Tw) as (Hok & Hnf & HO & HU).
  right; right. rewrite life_child. cbn [p_trapframe p_pagetable p_sz gone_proc child_proc]. pose proof (tw_child _ _ _ _ _ _ _ _ _ _ _ Tw) as Sp.
  assert (Hpt : page_ok pt).
  { pose proof (own_wf _ _ _ _ (uvm_pt _ _ _ _ _ (sp_own _ _ _ _ _ _ _ Sp))) as W. eapply (pt_page _ _ _ W). apply W. }
  pose proof (page_ok_bounds _ Hpt). split_and!; [done|done|lia|]. exists O', U'. split_and!; [|done|done|done].
  eapply space_same; [apply life_mem|exact Sp].
Qed.

Lemma life_disjoint q : child_pages q -> O !! q = None /\ forall va, U !! va <> Some q.
Proof.
  intros Hq. pose proof (fd_twins _ _ _ _ _ _ _ _ _ _ _ _ Fd) as Tw. eapply space_free; [apply (fk_space _ _ _ _ _ Fk)|].
  apply (tw_pages _ _ _ _ _ _ _ _ _ _ _ Tw). unfold child_pages in Hq. tauto.
Qed.

Lemma life_files : files s2 = files s.
Proof.
  destruct (et_files _ _ _ _ _ Ex) as [Hl2 H2]. destruct (fd_files _ _ _ _ _ _ _ _ _ _ _ _ Fd) as [Hl1 H1]. cbn in Hl2.
  apply list_eq_same_length with (length (files s)); [done|congruence|]. intros f y z Hf Hy Hz.
  apply list_lookup_total_correct in Hy, Hz. rewrite <- Hy, <- Hz, H2 by (cbn; congruence). cbn. rewrite H1 by done. rewrite more_refs_add.
  rewrite switch_procat, decide_True, life_procat, decide_True by (done || rewrite life_table; apply Fd). cbn [p_ofile set_p_state child_proc].
  unfold x. rewrite Z.add_opp_diag_r. apply more_refs_0.
Qed.

Lemma life_inodes : inodes s2 = inodes s.
Proof.
  destruct (nu_cwd _ _ _ _ _ _ Nu) as (Hc & Hcl & Hcr). rewrite (et_inodes _ _ _ _ _ Ex). cbn. rewrite (fd_inodes _ _ _ _ _ _ _ _ _ _ _ _ Fd c Hc).
  rewrite list_alter_alter. apply list_alter_id. intros ip. unfold one_more_ref, set_i_ref. destruct ip. cbn. f_equal. lia.
Qed.
End Life.

(** C16: [wait] reaps children that have exited, and only those.  With such a child it takes
    the first one in the table: it writes the child's exit status to the caller's memory
    at [addr], if that is not 0, returns the child's process id, and gives every page of the child back
    to the free list and its slot back to the table, the caller's memory otherwise
    untouched; when a byte at [addr] is not writable it returns -1 and the child stays.
    With no such child it returns -1 at once when there are no children or the
    caller has been killed, and otherwise sleeps on itself. *)
Theorem wait_correct s p O fl U addr :
  let x := procat p s in
  waiter s p O fl U -> 0 <= addr <= 2 ^ 64 - PGSIZE - 4 ->
  (forall z R, (z < NPROC)%nat -> zombie_of p s z -> (forall j, (j < z)%nat -> ~ zombie_of p s j) ->
     pages_of s z fl R -> (forall q, R q -> O !! q = None /\ forall va, U !! va <> Some q) ->
     wp (wait addr) (fun r s' =>
       (r = p_pid (procat z s) /\ mem_proc z reaped s s' /\
        (exists fl', space s' (p_pagetable x) O fl' U (p_trapframe x) (p_sz x) /\ forall q, q ∈ fl' <-> q ∈ fl \/ R q) /\
        told s (p_pagetable x) (p_sz x) addr (p_xstate (procat z s)) s' /\
        (addr <> 0 -> forall vb, addr <= vb < addr + 4 -> uwritable (mem s) (p_pagetable x) vb)) \/
       (r = -1 /\ s' = set_mem (mem s') s /\ addr <> 0 /\ exists vb, addr <= vb < addr + 4 /\ uwritable (mem s) (p_pagetable x) vb = false)) s) /\
  ((forall j, (j < NPROC)%nat -> ~ zombie_of p s j) ->
   wps (wait addr)
     (fun r s' => r = -1 /\ s' = s /\ (~ has_kids p s \/ p_killed (procat p s) = true))
     (fun ch s' => ch = ChProc p /\ s' = asleep p (ChProc p) s /\ has_kids p s /\ p_killed (procat p s) = false) s).
Proof.
  intros x Wt Ha. split.
  - intros z R Hz Hzo Hf Hp HR. by apply (wp_wait_zombie s p O fl U z R addr).
  - intros Hn. by apply (wps_wait_none s p O fl U addr).
Qed.

(** A slot of the process table that is free, as [freeproc] leaves it; only the saved
    context and the name are left over from the process that had it. *)
Definition vacant (kstack : Z) (y : proc) : Prop :=
  exists ctx name, y = Proc UNUSED ChNull false 0 0 None kstack 0 0 0 ctx (replicate NOFILE None) None name.

Lemma life_end s p c O fl U np s1 fl' O' U' tf pt status s2 s3 :
  nursery s p c O fl U -> forked s p O fl U np s1 fl' O' U' tf pt -> exited (switch_to np s1) np c status s2 ->
  mem_proc np reaped (switch_to p s2) s3 ->
  vacant (p_kstack (procat np s)) (procat np s3) /\ procat p s3 = set_p_state RUNNING (procat p s) /\
  (forall j, j <> np -> j <> p -> roused (procat j s) (procat j s3)) /\ files s3 = files s /\ inodes s3 = inodes s.
Proof.
  intros Nu Fd Ex Em. pose proof (life_ne _ _ _ _ _ _ Nu _ _ _ _ _ _ _ Fd) as Hne.
  pose proof (life_child _ _ _ _ _ _ Nu _ _ _ _ _ _ _ Fd _ _ Ex) as Ec.
  pose proof (life_parent _ _ _ _ _ _ Nu _ _ _ _ _ _ _ Fd _ _ Ex) as Ep.
  destruct (fd_slot _ _ _ _ _ _ _ _ _ _ _ _ Fd) as [Hnp _].
  assert (Hl : (np < length (procs (switch_to p s2)))%nat).
  { cbn. rewrite length_alter, (et_table _ _ _ _ _ Ex). cbn. rewrite length_alter, (life_table _ _ _ _ _ _ Nu _ _ _ _ _ _ _ Fd). exact Hnp. }
  assert (Hj : forall j, procat j s3 = if decide (np = j) then reaped (procat np (switch_to p s2)) else procat j (switch_to p s2)).
  { intros j. rewrite <- procat_upmod by exact Hl. rewrite Em. done. }
  split_and!.
  - rewrite Hj, decide_True, Ec by done. eexists _, _. done.
  - rewrite Hj, decide_False by done. exact Ep.
  - intros j Hjn Hjp. rewrite Hj, decide_False by congruence.
    exact (life_other _ _ _ _ _ _ Nu _ _ _ _ _ _ _ Fd _ _ Ex j Hjn Hjp).
  - rewrite Em. cbn. exact (life_files _ _ _ _ _ _ Nu _ _ _ _ _ _ _ Fd _ _ Ex).
  - rewrite Em. cbn. exact (life_inodes _ _ _ _ _ _ Nu _ _ _ _ _ _ _ Fd _ _ Ex).
Qed.

(** C2: the life of a process leaves no trace but its exit status.  A process none of whose
    children has exited forks; the child calls [exit] with a status, which never returns; the
    parent calls [wait].  Then [wait] returns the id that [fork] returned and stores the
    status.  The child's slot of the process table is free with all its fields cleared, but for
    the saved context and the name; the parent's slot is as before the fork, and so is every
    other, except that a process that slept may have been woken.  Every page that was free
    before the fork is free again, and the reference counts of all open files and inodes are
    what they were; the parent's memory has changed in the four bytes of the status only.
    (Or the address for the status was bad, and [wait] says so.) *)
Theorem process_life s p c O fl U status addr :
  let x := procat p s in
  nursery s p c O fl U -> 0 <= addr <= 2 ^ 64 - PGSIZE - 4 ->
  wp fork (fun pid s1 => pid = -1 \/ exists np, (np < NPROC)%nat /\ p_state (procat np s) = UNUSED /\
    wps (exit status) (fun _ _ => False) (fun _ s2 =>
      wp (wait addr) (fun r s3 =>
        (r = pid /\ told s (p_pagetable x) (p_sz x) addr status s3 /\
         vacant (p_kstack (procat np s)) (procat np s3) /\ procat p s3 = set_p_state RUNNING x /\
         (forall j, j <> np -> j <> p -> roused (procat j s) (procat j s3)) /\
         files s3 = files s /\ inodes s3 = inodes s /\
         exists fl3, space s3 (p_pagetable x) O fl3 U (p_trapframe x) (p_sz x) /\ forall q, q ∈ fl3 <-> q ∈ fl) \/
        (r = -1 /\ addr <> 0 /\ exists vb, addr <= vb < addr + 4 /\ uwritable (mem s1) (p_pagetable x) vb = false))
      (switch_to p s2)) (switch_to np s1)) s.
Proof.
  intros x Nu Ha. eapply wp_mono; [apply (wp_fork s p O fl U), Nu|].
  intros pid s1 [[-> _]|(-> & np & fl' & O' & U' & tf & pt & Fd)]; [by left|right]. destruct (fd_slot _ _ _ _ _ _ _ _ _ _ _ _ Fd) as [Hnp Hun].
  exists np. split_and!; [done|done|]. eapply wps_mono; [by apply (wps_exit _ np c status), (life_exitable s p c O fl U Nu np s1 fl' O' U' tf pt Fd)|done|]. intros ch s2 Ex. cbv beta in Ex.
  pose proof (life_child _ _ _ _ _ _ Nu _ _ _ _ _ _ _ Fd _ _ Ex) as Ec. pose proof (life_parent _ _ _ _ _ _ Nu _ _ _ _ _ _ _ Fd _ _ Ex) as Ep.
  assert (Sm : same_mem s1 (switch_to p s2)) by (by eapply life_mem). fold x in Ep, Ec.
  pose proof (life_waiter _ _ _ _ _ _ Nu _ _ _ _ _ _ _ Fd _ _ Ex) as Wt.
  pose proof (fd_twins _ _ _ _ _ _ _ _ _ _ _ _ Fd) as Tw.
  assert (Hz : zombie_of p (switch_to p s2) np) by (unfold zombie_of; by rewrite Ec).
  assert (Hnz : forall j, (j < np)%nat -> ~ zombie_of p (switch_to p s2) j).
  { intros j Hj [Hpar Hst]. destruct (decide (j = p)) as [->|Hjp]; [by rewrite Ep in Hst|].
    apply (nu_zombie _ _ _ _ _ _ Nu j). pose proof (life_other _ _ _ _ _ _ Nu _ _ _ _ _ _ _ Fd _ _ Ex j ltac:(lia) Hjp) as [E|[_ E]].
    + rewrite E in *. done.
    + by rewrite E in Hst. }
  eapply wp_mono; [apply (wp_wait_zombie (switch_to p s2) p O fl' U np (child_pages O' U' tf) addr Wt Ha Hnp Hz Hnz)|].
  - exact (life_pages _ _ _ _ _ _ Nu _ _ _ _ _ _ _ Fd _ _ Ex).
  - exact (life_disjoint _ _ _ _ _ _ Nu _ _ _ _ _ _ _ Fd).
  - rewrite Ep, Ec. cbn [p_pagetable p_sz p_trapframe p_pid p_xstate set_p_state gone_proc child_proc].
    intros r s3 [(-> & Em & (fl3 & Sp3 & Hfl3) & Ht & Hw)|(-> & _ & Hne & vb & Hvb & Hbad)]; [left|right].
    + destruct (life_end s p c O fl U np s1 fl' O' U' tf pt status s2 s3 Nu Fd Ex Em) as (V & Pp & Po & Pf & Pi).
      split_and!; [done| |done..|].
      * intros vb Hvb. rewrite Ht by done. case_decide; [done|]. rewrite (sm_mem _ _ Sm). by apply (tw_pimage _ _ _ _ _ _ _ _ _ _ _ Tw).
      * exists fl3. split; [done|]. intros q. rewrite Hfl3, (tw_pages _ _ _ _ _ _ _ _ _ _ _ Tw). unfold child_pages. tauto.
    + split_and!; [done|done|]. exists vb. split; [done|]. by rewrite <- (sm_mem _ _ Sm).
Qed.
End Thms.

(** ** A process that forks, and one that waits *)

Lemma fork_machine_nursery : nursery fork_machine 0 0 fork_tables ram_free ram_frames.
Proof.
  assert (Hx : forall j, p_parent (procat j fork_machine) = None /\ p_state (procat j fork_machine) <> ZOMBIE).
  { intros j. destruct (decide (j = 0%nat)) as [->|Hj]; [done|]. by rewrite (fork_machine_slots j Hj). }
  split.
  - exact fork_machine_ok.
  - split; [done|]. split; [cbn; lia|done].
  - intros i j _. by rewrite (proj1 (Hx i)).
  - intros i [_ H]. by apply (Hx i).
  - intros j _. done.
  - done.
Qed.

Lemma process_life_witness :
  wp fork (fun pid s1 => pid = -1 \/ exists np,
    wps (exit 7) (fun _ _ => False) (fun _ s2 =>
      wp (wait 8) (fun r s3 => (r = pid /\ files s3 = files fork_machine /\ vacant (p_kstack (procat np fork_machine)) (procat np s3)) \/ r = -1)
      (switch_to 0 s2)) (switch_to np s1)) fork_machine.
Proof.
  eapply wp_mono; [apply (process_life fork_machine 0 0 fork_tables ram_free ram_frames 7 8 fork_machine_nursery); lia|].
  intros pid s1 [H|(np & _ & _ & H)]; [by left|right]. exists np. eapply wps_mono; [exact H|done|].
  intros ch s2 H2. eapply wp_mono; [exact H2|]. intros r s3 [(-> & _ & Hs & _ & _ & Hf & _)|(-> & _)]; [left|by right].
  exact (conj eq_refl (conj Hf Hs)).
Defined.

(** Process 1 is a child that has exited with status 7. *)
Definition zombie_proc : proc := Proc ZOMBIE ChNull false 7 5 (Some 0%nat) 0 0 0 0 ctx0 (replicate NOFILE None) None [].
Definition wait_machine : kst := set_procs (fork_proc :: zombie_proc :: replicate 62 proc0) fork_machine.

Lemma wait_machine_ok : waiter wait_machine 0 fork_tables ram_free ram_frames.
Proof.
  destruct fork_machine_ok as [_ _ _ _ _ _ Sp Htf _ _ _]. split; [reflexivity|reflexivity|reflexivity|lia| |].
  - eapply space_same; [|exact Sp]. split; [done|done|intros _; apply not_elem_of_nil].
  - apply page_ok_pa_ok. apply Htf.
Qed.

Lemma wait_correct_witness : wp (wait 0) (fun r s' => r = 5 /\ p_state (procat 1 s') = UNUSED) wait_machine.
Proof.
  destruct (wait_correct wait_machine 0 fork_tables ram_free ram_frames 0 wait_machine_ok) as [H _]; [lia|].
  eapply wp_mono; [apply (H 1%nat (fun _ => False))|].
  - lia.
  - done.
  - intros j Hj [Hp _]. assert (j = 0%nat) as -> by lia. done.
  - left. split_and!; [done|done|intros q []].
  - intros q [].
  - intros r s' [(-> & Em & _)|(_ & _ & Hne & _)]; [|done]. split; [done|]. rewrite Em. done.
Defined.
