(* ===== verification/SchedThms.v ===== *)
(** The scheduler of [kernel/proc.c]: one pass over the process table leaves no
    process that could run waiting. *)
From Stdlib Require Import Sorted.
From S2P Require Import Prelude Types Sched Proc Concrete.
From S2P Require Import Syscall Locks.

(** What the scheduler relies on when it switches to a process: the process comes back from
    [sched] with the one lock it was given.  Everything else may have changed, the other
    processes included.  [ran] is the history of this hart's switches, in whatever part of
    the state it is kept.  (That [swtch] itself gives back the registers of the thread it
    returns to is [swtch_resumes] of [Asm].) *)
Class Switches (swtch : nat -> M unit) (ran : kst -> list nat) : Prop := {
  swtch_returns p s :
    cur s = Some p -> held s = [LkProc p] -> (p < length (procs s))%nat ->
    p_state (procat p s) = RUNNING ->
    wp (swtch p) (fun _ s' =>
      held s' = [LkProc p] /\ length (procs s') = length (procs s) /\ ran s' = ran s ++ [p]) s;
  ran_held h s : ran (set_held h s) = ran s;
  ran_procs ps s : ran (set_procs ps s) = ran s;
  ran_cur c s : ran (set_cur c s) = ran s
}.

(** What other harts do: they change processes as they like, but not this hart's locks. *)
Definition other_harts (ran : kst -> list nat) (s s' : kst) : Prop :=
  held s' = held s /\ length (procs s') = length (procs s) /\ ran s' = ran s.

Section Scheduler.
Context {swtch : nat -> M unit} {ran : kst -> list nat} {SW : Switches swtch ran}.

(** [k] turns from process [i] on, with [others] before each; [turns] are the states at
    which the turns begin. *)
Inductive pass (others : kst -> kst -> Prop) : nat -> nat -> bool -> kst -> list kst -> bool -> kst -> Prop :=
  | P_end i found s : pass others i 0 found s [] found s
  | P_turn i k found s s1 b s2 turns found' s' :
      others s s1 -> scheduler_turn swtch found i s1 = Ok b s2 ->
      pass others (S i) k b s2 turns found' s' -> pass others i (S k) found s (s1 :: turns) found' s'.

(** The processes that were runnable when their turn came. *)
Fixpoint due (i : nat) (turns : list kst) : list nat :=
  match turns with
  | [] => []
  | s :: turns' => (if bool_decide (p_state (procat i s) = RUNNABLE) then [i] else []) ++ due (S i) turns'
  end.

Definition ready (s : kst) : Prop := held s = [] /\ length (procs s) = NPROC.

(** One turn: process [i] is run if it is runnable. *)
Definition turn_post (i : nat) (found : bool) (s : kst) (b : bool) (s' : kst) : Prop :=
  ready s' /\
  if bool_decide (p_state (procat i s) = RUNNABLE) then ran s' = ran s ++ [i] /\ b = true
  else ran s' = ran s /\ b = found.

Lemma wp_scheduler_turn i found s : ready s -> (i < NPROC)%nat ->
  wp (scheduler_turn swtch found i) (turn_post i found s) s.
Proof.
  intros [Hh Hl] Hi. unfold scheduler_turn, turn_post. wp_step. apply wp_acquire; [rewrite Hh; set_solver|]. rewrite Hh.
  wp_step. apply wp_get. change (procat i (set_held [LkProc i] s)) with (procat i s). wp_step.
  case_bool_decide as E.
  - do 2 (wp_step; apply wp_upd). wp_step.
    eapply wp_mono; [apply swtch_returns; cbn; [done|done|by rewrite length_alter, Hl|]|].
    { unfold procat. cbn. by rewrite list_lookup_total_alter_eq by (by rewrite Hl). }
    intros _ s' (Hh' & Hl' & Hr). wp_step. apply wp_upd. wp_step. wp_step. eapply wp_release; [exact Hh'|set_solver|].
    wp_step. cbn in *. rewrite length_alter in Hl'. rewrite ran_cur, ran_procs, ran_held in Hr.
    rewrite ran_held, ran_cur. split; [split; [done|cbn; lia]|done].
  - wp_step. wp_step. eapply wp_release; [done|set_solver|]. wp_step. rewrite !ran_held. split; [by split|done].
Qed.

Lemma turn_ok i found s b s' : ready s -> (i < NPROC)%nat -> scheduler_turn swtch found i s = Ok b s' -> turn_post i found s b s'.
Proof. intros Hr Hi E. pose proof (wp_scheduler_turn i found s Hr Hi) as H. unfold wp in H. by rewrite E in H. Qed.

Lemma pass_spec others i k found s turns found' s' :
  (forall s s', others s s' -> other_harts ran s s') -> pass others i k found s turns found' s' ->
  ready s -> (i + k <= NPROC)%nat ->
  length turns = k /\ ready s' /\ ran s' = ran s ++ due i turns /\ found' = found || bool_decide (due i turns <> []).
Proof.
  intros Ho. induction 1 as [i found s|i k found s s1 b s2 turns found' s' H1 H2 H IH]; intros Hr Hi.
  { cbn [due]. rewrite app_nil_r, bool_decide_eq_false_2, orb_false_r by auto. done. }
  destruct (Ho _ _ H1) as (Eh & El & Er). assert (R1 : ready s1) by (destruct Hr; split; congruence).
  destruct (turn_ok i found s1 b s2 R1 ltac:(lia) H2) as [R2 T].
  destruct (IH R2 ltac:(lia)) as (Hlen & R' & Hran & Hf). cbn [due length]. split_and!; [lia|done|..].
  - destruct (decide (p_state (procat i s1) = RUNNABLE)) as [E|E];
      [rewrite (bool_decide_eq_true_2 _ E) in *|rewrite (bool_decide_eq_false_2 _ E) in *];
      destruct T as [T _]; rewrite Hran, T, Er; cbn [app]; [by rewrite <- app_assoc|done].
  - rewrite Hf. destruct (decide (p_state (procat i s1) = RUNNABLE)) as [E|E];
      [rewrite (bool_decide_eq_true_2 _ E) in *|rewrite (bool_decide_eq_false_2 _ E) in *];
      destruct T as [_ ->]; cbn [app]; [|done].
    rewrite (bool_decide_eq_true_2 (i :: due (S i) turns <> [])) by done. by rewrite orb_true_r.
Qed.

(** The code's loop is a pass in which no other hart interferes. *)
Lemma wp_scheduler_scan k : forall i found s, ready s -> (i + k <= NPROC)%nat ->
  wp (scheduler_scan swtch found i k) (fun found' s' => exists turns, pass eq i k found s turns found' s') s.
Proof.
  induction k as [|k IH]; intros i found s Hr Hi; cbn [scheduler_scan]; [wp_step; eexists; constructor|].
  pose proof (wp_scheduler_turn i found s Hr ltac:(lia)) as H. unfold wp, bind in *.
  destruct (scheduler_turn swtch found i s) as [b s2| | |] eqn:E; try done.
  specialize (IH (S i) b s2 (proj1 H) ltac:(lia)). destruct (scheduler_scan swtch b (S i) k s2); try done.
  destruct IH as [turns P]. eexists. by econstructor.
Qed.

Lemma due_range i turns : Forall (fun j => i <= j)%nat (due i turns).
Proof.
  revert i. induction turns as [|s turns IH]; intros i; cbn [due]; [constructor|]. apply Forall_app. split.
  - case_bool_decide; repeat constructor.
  - eapply Forall_impl; [apply IH|]. cbn. lia.
Qed.

Lemma elem_of_due i turns j s : turns !! j = Some s ->
  (i + j)%nat ∈ due i turns <-> p_state (procat (i + j) s) = RUNNABLE.
Proof.
  revert i j. induction turns as [|t turns IH]; intros i j Hj; [done|]. cbn [due]. rewrite elem_of_app.
  destruct j as [|j]; cbn in Hj; simplify_eq.
  - rewrite Nat.add_0_r. pose proof (due_range (S i) turns) as Hf. rewrite Forall_forall in Hf. split.
    + intros [H|H%Hf]; [|lia]. case_bool_decide; [done|by apply elem_of_nil in H].
    + intros E. left. rewrite bool_decide_eq_true_2 by done. apply list_elem_of_here.
  - replace (i + S j)%nat with (S i + j)%nat by lia. rewrite <- IH by done. split; [|tauto].
    intros [H|H]; [|done]. case_bool_decide; [|by apply elem_of_nil in H]. apply list_elem_of_singleton in H. lia.
Qed.

Lemma due_sorted i turns : StronglySorted lt (due i turns).
Proof.
  revert i. induction turns as [|s turns IH]; intros i; cbn [due]; [constructor|].
  case_bool_decide; cbn [app]; [|done]. constructor; [done|]. eapply Forall_impl; [apply due_range|]. cbn. lia.
Qed.

(** C22: the scheduler starves no process.  Whatever the other harts do between the turns of a
    pass of [scheduler] over the table, and whatever happens while a process runs, as long as
    each process that is switched to comes back through [sched] with its lock: every turn
    returns without a panic; the pass looks at each slot once, and switches to a process
    exactly when it is runnable as its turn comes, so in the order of the table and to none
    twice; it ends with no lock held, and reports that there was nothing to run, and so
    waits for an interrupt, only when it has switched to no process.  The loop of [scheduler]
    is such a pass. *)
Theorem scheduler_fair s :
  ready s ->
  (forall i found s1, ready s1 -> (i < NPROC)%nat -> wp (scheduler_turn swtch found i) (fun _ s2 => ready s2) s1) /\
  (forall others turns found s', (forall s s', others s s' -> other_harts ran s s') ->
     pass others 0 NPROC false s turns found s' ->
     exists new, ran s' = ran s ++ new /\ StronglySorted lt new /\
       (forall j, (j < NPROC)%nat -> exists sj, turns !! j = Some sj /\ (j ∈ new <-> p_state (procat j sj) = RUNNABLE)) /\
       found = bool_decide (new <> []) /\ ready s') /\
  wp (scheduler_scan swtch false 0 NPROC) (fun found s' => exists turns, pass eq 0 NPROC false s turns found s') s.
Proof.
  intros Hr. split_and!.
  - intros i found s1 H1 Hi. eapply wp_mono; [by apply wp_scheduler_turn|]. by intros b s2 [? _].
  - intros others turns found s' Ho P. destruct (pass_spec _ _ _ _ _ _ _ _ Ho P Hr ltac:(lia)) as (Hl & R' & Hran & Hf).
    exists (due 0 turns). split_and!; [done|apply due_sorted| |done|done].
    intros j Hj. destruct (lookup_lt_is_Some_2 turns j) as [sj E]; [lia|]. exists sj. split; [done|].
    by rewrite <- (elem_of_due 0 turns j sj E).
  - apply wp_scheduler_scan; [done|lia].
Qed.
End Scheduler.

(** ** Three processes, of which one wakes another up *)

(** The history is kept among the disk writes.  A process runs by going to sleep;
    process 2 wakes process 5 up first, and another hart takes process 7. *)
Definition demo_swtch (p : nat) : M unit :=
  upd (fun s => set_dwrites (dwrites s ++ [(Z.of_nat p, [])]) s) ;;;
  (if (p =? 2)%nat then updp 5 (set_p_state RUNNABLE) ;;; updp 7 (set_p_state RUNNING) else ret tt) ;;;
  updp p (set_p_state SLEEPING).
Definition demo_ran (s : kst) : list nat := (fun w => Z.to_nat w.1) <$> dwrites s.
Definition demo_run : kst :=
  set_procs (alter (set_p_state RUNNABLE) 2%nat (alter (set_p_state RUNNABLE) 7%nat (procs machine))) machine.

Lemma demo_switches : Switches demo_swtch demo_ran.
Proof.
  constructor; [|done|done|done].
  intros p s _ Hh Hp _. unfold demo_swtch. wp_step. apply wp_upd. wp_step.
  assert (Hr : demo_ran (set_dwrites (dwrites s ++ [(Z.of_nat p, [])]) s) = demo_ran s ++ [p])
    by (unfold demo_ran; cbn; rewrite fmap_app; cbn; by rewrite Nat2Z.id).
  destruct (p =? 2)%nat; [wp_step; apply wp_upd; apply wp_upd|wp_step]; apply wp_upd; cbn; rewrite !length_alter; done.
Qed.

Lemma scheduler_fair_witness :
  ready demo_run /\
  wp (scheduler_scan demo_swtch false 0 NPROC)
    (fun found s' => exists turns, pass (swtch := demo_swtch) eq 0 NPROC false demo_run turns found s') demo_run.
Proof.
  assert (R : ready demo_run) by (split; reflexivity). split; [exact R|].
  exact (proj2 (proj2 (@scheduler_fair demo_swtch demo_ran demo_switches demo_run R))).
Defined.

(** [uptime] takes and releases [tickslock]. *)
Lemma syscall_lock_discipline_witness :
  match sys_uptime machine with
  | Ok r s' => r = 0 /\ held s' = [] /\ cur s' = cur machine
  | _ => False
  end.
Proof.
  pose proof (syscall_lock_discipline [] 14 sys_uptime machine eq_refl eq_refl) as H.
  assert (E : match sys_uptime machine with Ok r _ => r = 0 | _ => False end) by (vm_compute; reflexivity).
  destruct (sys_uptime machine) as [r s'| | |]; [exact (conj E H)|destruct E..].
Defined.
