(* ===== verification/CsrThms.v ===== *)
(** The registers of a hart across boot, timer interrupts and the return to user mode.

    [supervisor] is what the kernel proper sees of a hart; the theorems about traps take the
    kernel's code from [Trap] and the hardware's part from [Csr]. *)
From S2P Require Import Prelude Types Sched Vm Proc Trap Concrete Csr.

(** ** Bits *)

Lemma testbit_field m x y i : 0 <= i ->
  Z.testbit (field m x y) i = if Z.testbit m i then Z.testbit x i else Z.testbit y i.
Proof.
  intros Hi. unfold field. rewrite Z.lor_spec, Z.ldiff_spec, Z.land_spec.
  by destruct (Z.testbit m i), (Z.testbit x i), (Z.testbit y i).
Qed.

Lemma testbit_put_bit i b x j : 0 <= i ->
  Z.testbit (put_bit i b x) j = if i =? j then b else Z.testbit x j.
Proof.
  intros Hi. unfold put_bit. destruct b.
  - rewrite Z.setbit_eqb by done. by destruct (i =? j).
  - rewrite Z.clearbit_eqb. destruct (i =? j); [apply andb_false_r|apply andb_true_r].
Qed.

Create Rewrite HintDb bits.
#[local] Hint Rewrite Z.lor_spec Z.land_spec Z.ldiff_spec Z.clearbit_eqb : bits.
#[local] Hint Rewrite testbit_field testbit_put_bit Z.setbit_eqb using lia : bits.

(** Decide the bits of the constants; what is left is bits of the old registers. *)
Ltac bits :=
  autorewrite with bits;
  repeat match goal with
  | |- context [Z.testbit ?x ?i] =>
      let b := eval vm_compute in (Z.testbit x i) in
      lazymatch b with true => idtac | false => idtac end; change (Z.testbit x i) with b
  end; cbn [negb];
  rewrite ?andb_false_r, ?orb_true_r, ?andb_true_r, ?orb_false_r; cbn -[Z.testbit].

(** Evaluate register accesses, but not the words in them. *)
Ltac hart_eval :=
  lazy -[Z.land Z.lor Z.ldiff Z.shiftl Z.shiftr Z.testbit Z.clearbit Z.setbit Z.add Z.mul Z.pow
         field put_bit u64 i32 mode_of SSTATUS_MASK can_delegate_int can_delegate_exc].

Section Thms.
Context {I : Isa}.

Lemma even_clearbit x : Z.even x = true -> Z.clearbit x 0 = x.
Proof.
  intros H. apply Z.bits_inj'. intros i Hi. rewrite Z.clearbit_eqb.
  destruct (Z.eqb_spec 0 i) as [<-|]; [|apply andb_true_r].
  rewrite andb_false_r, Z.bit0_odd, <-Z.negb_even, H. done.
Qed.

(** The registers that the kernel uses in supervisor mode. *)
Definition kernel_csrs : list csr :=
  [sstatus; sie; sip; sepc; stvec; scause; stval; satp; stimecmp; time].

(** The machine-mode registers after [start]. *)
Lemma start_csrs main h :
  let h' := start main h in
  let deleg := Z.land 0xffff can_delegate_int in
  priv h' = SMode /\ x_tp h' = u64 (i32 (csrs h mhartid)) /\
  pc h' = Z.clearbit main 0 /\ csrs h' satp = 0 /\ csrs h' mideleg = deleg /\
  csrs h' mie = Z.lor (field deleg
    (Z.lor (Z.lor (Z.lor (Z.land (csrs h mie) deleg) SIE_SEIE) SIE_STIE) SIE_SSIE) (csrs h mie)) MIE_STIE /\
  csrs h' menvcfg = Z.lor (csrs h menvcfg) (Z.shiftl 1 63) /\
  csrs h' mcounteren = Z.lor (csrs h mcounteren) 2 /\
  csrs h' pmpcfg0 = 0xf /\ csrs h' pmpaddr0 = 0x3fffffffffffff /\
  csrs h' stimecmp = u64 (csrs h time + 1000000) /\
  Z.testbit (csrs h' mstatus) SSTATUS_SIE_BIT = Z.testbit (csrs h mstatus) SSTATUS_SIE_BIT.
Proof.
  destruct h as [f m a ra sp tp].
  assert (E : Z.land (Z.shiftr (Z.lor (Z.ldiff (f mstatus) MSTATUS_MPP_MASK) MSTATUS_MPP_S) 11) 3 = 1).
  { apply Z.bits_inj'. intros i Hi. rewrite Z.land_spec, Z.shiftr_spec by done.
    destruct (decide (i = 0)) as [->|]; [change (0 + 11) with 11; by bits|].
    destruct (decide (i = 1)) as [->|]; [change (1 + 11) with 12; by bits|].
    rewrite (Z.bits_above_log2 3 i), (Z.bits_above_log2 1 i) by (cbn; lia). apply andb_false_r. }
  unfold start, mret. hart_eval. rewrite E. change (mode_of 1) with SMode. hart_eval.
  split_and!; try done. by bits.
Qed.

(** The switch for all interrupts is a bit of [mstatus]. *)
Lemma intr_get_bit h : intr_get h = Z.testbit (csrs h mstatus) SSTATUS_SIE_BIT.
Proof.
  unfold intr_get, r_sstatus, csrr. rewrite <-Z.land_assoc.
  change (Z.land SSTATUS_MASK (Z.shiftl 1 1)) with (2 ^ 1).
  destruct (Z.testbit (csrs h mstatus) 1) eqn:E.
  - destruct (Z.eqb_spec (Z.land (csrs h mstatus) (2 ^ 1)) 0) as [H|]; [|done].
    apply (f_equal (fun x => Z.testbit x 1)) in H. rewrite Z.land_spec, E in H. done.
  - apply negb_false_iff, Z.eqb_eq, Z.bits_inj'. intros i Hi. rewrite Z.land_spec, Z.bits_0.
    destruct (Z.eqb_spec i 1) as [->|]; [by rewrite E|].
    rewrite (Z.pow2_bits_false 1 i) by lia. apply andb_false_r.
Qed.

(** C30: [start] takes a hart from machine mode to [main] in supervisor mode, whatever the
    registers held at reset: with paging off, its number in [tp], every register that the
    kernel uses legal to access, the timer, external and software interrupts delegated
    and enabled one by one while the switch for all of them is left alone, all of the
    physical memory below 2^56 - 4 open to the supervisor, and the first tick of the clock asked for. *)
Theorem start_enters_main main h :
  Z.even main = true ->
  (forall i, i ∈ [1; 5; 9] -> Z.testbit can_delegate_int i = true) ->
  let h' := start main h in
  priv h' = SMode /\ pc h' = main /\ r_satp h' = 0 /\
  r_tp h' = u64 (i32 (r_mhartid h)) /\
  (forall c, c ∈ kernel_csrs -> csr_legal c h' = true) /\
  (forall i, i ∈ [1; 5; 9] -> Z.testbit (r_sie h') i = true) /\
  intr_get h' = intr_get h /\
  (forall a, 0 <= a < 2 ^ 56 - 4 -> pmp_allows a h' = true) /\
  r_stimecmp h' = u64 (r_time h + 1000000).
Proof.
  intros Hm Hi h'.
  destruct (start_csrs main h) as (Ep & Et & Epc & Esa & Ed & Eie & Een & Eco & Ecf & Ead & Etc & Esi).
  fold h' in Ep, Et, Epc, Esa, Ed, Eie, Een, Eco, Ecf, Ead, Etc, Esi. clearbody h'.
  split_and!.
  - done.
  - by rewrite Epc, even_clearbit.
  - done.
  - done.
  - intros c Hc. unfold kernel_csrs in Hc. unfold csr_legal. rewrite Ep, Eco, Een.
    repeat (apply elem_of_cons in Hc as [->|Hc]; [by bits|]). by apply elem_of_nil in Hc.
  - intros i Hx. specialize (Hi i Hx). unfold r_sie, csrr. rewrite Eie, Ed.
    repeat (apply elem_of_cons in Hx as [->|Hx]; [bits; by rewrite Hi|]). by apply elem_of_nil in Hx.
  - by rewrite !intr_get_bit, Esi.
  - intros x Hx. unfold pmp_allows. rewrite Ecf, Ead. cbn.
    apply andb_true_iff; split; [apply Z.leb_le|apply Z.ltb_lt]; lia.
  - done.
Qed.
End Thms.

(** ** The supervisor's view *)

Definition supervisor {I : Isa} (h : hartregs) : hartst :=
  Hart (x_tp h) (csrr sstatus h) (csrs h stvec) (csrs h sepc) (csrs h scause) (csrs h stval)
    (csrs h satp) (csrs h time) (csrs h stimecmp).

Section Traps.
Context {I : Isa} {L : Linker} (virtio_disk_intr : M unit) (pad : list Z).

Lemma land_field m x y : Z.land (field m x y) m = Z.land x m.
Proof.
  apply Z.bits_inj'. intros i Hi. rewrite !Z.land_spec, testbit_field by done.
  by destruct (Z.testbit m i); rewrite ?andb_false_r.
Qed.

(** A write to [sstatus] that only touches the fields it shows is a write to the view. *)
Lemma supervisor_sstatus x h :
  Z.land x SSTATUS_MASK = x -> supervisor (w_sstatus x h) = set_r_sstatus x (supervisor h).
Proof.
  intros Hx. destruct h. hart_eval. by rewrite land_field, Hx.
Qed.

Lemma sub_ldiff a b m : Z.land a m = a -> Z.land (Z.ldiff a b) m = Z.ldiff a b.
Proof.
  intros H. rewrite <-H at 2. apply Z.bits_inj'. intros i Hi.
  rewrite !Z.land_spec, !Z.ldiff_spec, !Z.land_spec. by destruct (Z.testbit a i), (Z.testbit m i), (Z.testbit b i).
Qed.
Lemma sub_lor a b m : Z.land a m = a -> Z.land b m = b -> Z.land (Z.lor a b) m = Z.lor a b.
Proof. intros Ha Hb. by rewrite Z.land_lor_distr_l, Ha, Hb. Qed.
Lemma sub_view h : Z.land (csrr sstatus h) SSTATUS_MASK = csrr sstatus h.
Proof. unfold csrr. by rewrite <-Z.land_assoc, Z.land_diag. Qed.

Lemma wp_tf_set p off v s (Q : unit -> kst -> Prop) :
  Q tt (set_mem (store64 (mem s) (p_trapframe (procat p s) + off) v) s) ->
  wp (tf_set p off v) Q s.
Proof. intros H. unfold tf_set. wp_step. apply wp_get. by apply wp_upd. Qed.

Lemma wp_tf_get p off s (Q : Z -> kst -> Prop) :
  Q (load64 (mem s) (p_trapframe (procat p s) + off)) s -> wp (tf_get p off) Q s.
Proof. intros H. unfold tf_get. wp_step. apply wp_get. by apply wp_get. Qed.

(** The registers that [usertrapret] leaves to [sret]. *)
Definition resume_regs (epc : Z) (h : hartregs) : hartregs :=
  let h := w_stvec (TRAMPOLINE + (k_uservec - k_trampoline)) (intr_off h) in
  let x := r_sstatus h in
  let x := Z.ldiff x SSTATUS_SPP in
  let x := Z.lor x SSTATUS_SPIE in
  w_sepc epc (w_sstatus x h).

Lemma supervisor_resume epc h :
  Z.even epc = true ->
  supervisor (resume_regs epc h) =
    set_r_sepc epc
      (set_r_sstatus (Z.lor (Z.ldiff (Z.ldiff (Types.r_sstatus (supervisor h)) SSTATUS_SIE) SSTATUS_SPP) SSTATUS_SPIE)
        (set_r_stvec (TRAMPOLINE + (k_uservec - k_trampoline)) (supervisor h))).
Proof.
  intros He. unfold resume_regs, intr_off.
  set (x1 := Z.ldiff (r_sstatus h) _). set (h1 := w_sstatus x1 h).
  assert (E1 : supervisor h1 = set_r_sstatus x1 (supervisor h)).
  { apply supervisor_sstatus, sub_ldiff, sub_view. }
  set (h2 := w_stvec _ h1). set (x2 := Z.lor _ _).
  assert (E2 : supervisor h2 = set_r_stvec (TRAMPOLINE + (k_uservec - k_trampoline)) (supervisor h1)) by done.
  assert (Er : r_sstatus h2 = x1) by exact (f_equal Types.r_sstatus E1).
  assert (E3 : supervisor (w_sstatus x2 h2) = set_r_sstatus x2 (supervisor h2)).
  { apply supervisor_sstatus, sub_lor; [apply sub_ldiff, sub_view|done]. }
  transitivity (set_r_sepc (Z.clearbit epc 0) (supervisor (w_sstatus x2 h2))); [done|].
  rewrite even_clearbit, E3, E2, E1 by done. subst x2. by rewrite Er.
Qed.

Lemma sret_resume epc h :
  let h' := sret (resume_regs epc h) in
  priv h' = UMode /\ pc h' = Z.clearbit epc 0 /\ intr_get h' = true /\
  r_stvec h' = TRAMPOLINE + (k_uservec - k_trampoline) /\ r_sie h' = r_sie h /\ x_tp h' = x_tp h.
Proof.
  cbn zeta. rewrite intr_get_bit. destruct h as [f m a ra sp tp].
  assert (E : Z.testbit (csrs (resume_regs epc (HartRegs f m a ra sp tp)) mstatus) SSTATUS_SPP_BIT = false).
  { hart_eval. by bits. }
  assert (E' : Z.testbit (csrs (resume_regs epc (HartRegs f m a ra sp tp)) mstatus) SSTATUS_SPIE_BIT = true).
  { hart_eval. by bits. }
  unfold sret. rewrite E, E'. split_and!; try done.
  unfold go, put. cbn [csrs]. rewrite decide_True by done.
  generalize (csrs (resume_regs epc (HartRegs f m a ra sp tp)) mstatus). intros st. by bits.
Qed.

(** What [usertrapret] leaves in the trap frame for the next trap. *)
Definition frame_ready (tf kstack : Z) (h : hartregs) (m : gmap Z Z) : Prop :=
  load64 m (tf + TF_KERNEL_SATP) = u64 (r_satp h) /\
  load64 m (tf + TF_KERNEL_SP) = u64 (kstack + PGSIZE) /\
  load64 m (tf + TF_KERNEL_TRAP) = u64 k_usertrap /\
  load64 m (tf + TF_KERNEL_HARTID) = u64 (r_tp h).

(** C23: The way back to user mode.  [usertrapret] leaves in the trap frame what the next trap
    needs, returns the page table of the process for [satp], and sets the registers so
    that [sret] goes to user mode at the address saved in the trap frame, with
    interrupts on, none of them disabled that was enabled, and traps to [uservec] in the
    trampoline page. *)
Theorem usertrapret_resumes p h s :
  let tf := p_trapframe (procat p s) in
  let epc := load64 (mem s) (tf + TF_EPC) in
  cur s = Some p -> hart s = supervisor h -> Z.even epc = true ->
  wp usertrapret (fun satp s' =>
    satp = MAKE_SATP (p_pagetable (procat p s)) /\
    frame_ready tf (p_kstack (procat p s)) h (mem s') /\
    exists h1, hart s' = supervisor h1 /\
      let h2 := sret h1 in
      priv h2 = UMode /\ pc h2 = epc /\ intr_get h2 = true /\ r_sie h2 = r_sie h /\
      r_stvec h2 = TRAMPOLINE + (k_uservec - k_trampoline)) s.
Proof.
  intros tf epc Hc Hh He. unfold usertrapret.
  wp_step. eapply wp_myproc_; [done|]. unfold Trap.intr_off, w_csr, r_csr.
  do 2 (wp_step; apply wp_upd). wp_step. apply wp_get. wp_step. apply wp_tf_set.
  wp_step. apply wp_get. wp_step. apply wp_tf_set. wp_step. apply wp_tf_set.
  wp_step. apply wp_get. wp_step. apply wp_tf_set.
  wp_step. apply wp_upd. wp_step. apply wp_tf_get. wp_step. apply wp_upd. wp_step. apply wp_get. wp_step.
  unfold procat. cbn [procs set_procs set_mem set_hart mem]. fold (procat p s). fold tf.
  rewrite !(load64_store64_ne _ (tf + _) _ (tf + TF_EPC)) by lia. fold epc.
  split; [done|]. split.
  - unfold frame_ready. cbn [hart set_hart set_mem]. rewrite Hh.
    split_and!; repeat rewrite load64_store64_ne by lia; by rewrite load64_store64.
  - exists (resume_regs epc h). split.
    + rewrite supervisor_resume by done. cbn [hart set_hart set_mem]. by rewrite Hh.
    + destruct (sret_resume epc h) as (Ep & Epc & Ei & Ev & Es & _).
      rewrite even_clearbit in Epc by done. done.
Qed.

(** ** The clock *)

(** What [clockintr] does: on the first CPU it counts and wakes up the sleepers on the
    clock; everywhere it asks for the next tick. *)
Definition ticked (s : kst) : kst :=
  let s1 := if i32 (Types.r_tp (hart s)) =? 0
            then set_procs (woken (cur s) ChTicks 0 NPROC (procs s)) (set_ticks (u32 (ticks s + 1)) s)
            else s in
  set_hart (set_r_stimecmp (u64 (Types.r_time (hart s) + 1000000)) (hart s)) s1.

Lemma wp_clockintr s (Q : unit -> kst -> Prop) :
  held s = [] -> Q tt (ticked s) -> wp clockintr Q s.
Proof.
  intros Hh HQ. unfold clockintr, cpuid. wp_step. apply wp_get. wp_step. unfold ticked in HQ.
  destruct (i32 (Types.r_tp (hart s)) =? 0).
  - wp_step. apply wp_acquire; [rewrite Hh; set_solver|]. wp_step. apply wp_upd.
    wp_step. apply wp_wakeup; [intros j _; cbn; rewrite Hh; set_solver|].
    eapply wp_release; [cbn; by rewrite Hh|set_solver|]. apply wp_upd.
    cbn in *. destruct s. cbn in *. by subst.
  - wp_step. by apply wp_upd.
Qed.

Lemma procat_ticked p s : cur s = Some p -> procat p (ticked s) = procat p s.
Proof.
  intros Hc. unfold ticked, procat. destruct (_ =? 0); [|done]. cbn [procs set_procs set_hart].
  unfold woken. rewrite Hc, !list_lookup_total_alt, list_lookup_imap.
  destruct (procs s !! p); [|done]. cbn. case_decide; [|done]. by rewrite decide_True.
Qed.

Lemma ticked_fields s :
  cur (ticked s) = cur s /\ length (procs (ticked s)) = length (procs s) /\
  held (ticked s) = held s /\ mem (ticked s) = mem s /\
  ticks (ticked s) = (if i32 (Types.r_tp (hart s)) =? 0 then u32 (ticks s + 1) else ticks s) /\
  Types.r_stimecmp (hart (ticked s)) = u64 (Types.r_time (hart s) + 1000000).
Proof.
  unfold ticked. destruct (_ =? 0); cbn [cur procs held mem ticks hart set_hart set_procs set_ticks];
    rewrite ?length_woken; done.
Qed.

(** A trap by the timer from user mode, as the kernel's registers show it. *)
Lemma timer_trap h :
  priv h = UMode ->
  let v := supervisor (interrupt TIMER h) in
  Types.r_scause v = 0x8000000000000005 /\ Z.land (Types.r_sstatus v) SSTATUS_SPP = 0 /\
  Types.r_sepc v = Z.clearbit (pc h) 0 /\ Types.r_tp v = x_tp h /\ Types.r_time v = csrs h time.
Proof.
  intros Hp v. subst v. destruct h as [f m a ra sp tp]. cbn in Hp. subst m. split_and!; try done.
  apply Z.bits_inj'. intros i Hi. rewrite Z.land_spec, Z.bits_0.
  destruct (decide (i = 8)) as [->|Hne].
  - apply andb_false_intro1. hart_eval. by bits.
  - change SSTATUS_SPP with (2 ^ 8). rewrite (Z.pow2_bits_false 8 i) by lia. apply andb_false_r.
Qed.

(** The process has given up the CPU: it can run, the address it was at is in its trap
    frame, and its lock is with the scheduler. *)
Definition preempted (p : nat) (at_pc : Z) (s s' : kst) : Prop :=
  p_state (procat p s') = RUNNABLE /\ held s' = [LkProc p] /\
  load64 (mem s') (p_trapframe (procat p s) + TF_EPC) = u64 at_pc /\
  ticks s' = (if i32 (Types.r_tp (hart s)) =? 0 then u32 (ticks s + 1) else ticks s) /\
  Types.r_stimecmp (hart s') = u64 (Types.r_time (hart s) + 1000000).

Lemma wps_usertrap_timer p s :
  Types.r_scause (hart s) = 0x8000000000000005 ->
  Z.land (Types.r_sstatus (hart s)) SSTATUS_SPP = 0 ->
  cur s = Some p -> (p < length (procs s))%nat -> held s = [] -> p_killed (procat p s) = false ->
  wps (usertrap virtio_disk_intr pad) (fun _ _ => False)
    (fun _ s' => preempted p (Types.r_sepc (hart s)) s s') s.
Proof.
  intros Hsc Hspp Hc Hp Hh Hk. unfold usertrap, w_csr, r_csr.
  wp_step. apply wp_get. rewrite Hspp. cbn [Z.eqb negb]. wp_step. apply wp_upd.
  wp_step. eapply wp_myproc_; [done|]. wp_step. apply wp_get. wp_step. apply wp_tf_set.
  wp_step. apply wp_get. cbn [hart set_hart set_mem]. wp_step.
  change (Types.r_scause (set_r_stvec k_kernelvec (hart s))) with (Types.r_scause (hart s)).
  rewrite Hsc. change (0x8000000000000005 =? 8) with false. cbn iota.
  unfold devintr, r_csr. do 2 wp_step. apply wp_get. cbn [hart set_hart set_mem].
  change (Types.r_scause (set_r_stvec k_kernelvec (hart s))) with (Types.r_scause (hart s)).
  rewrite Hsc. change (0x8000000000000005 =? 0x8000000000000009) with false.
  change (0x8000000000000005 =? 0x8000000000000005) with true. cbn iota.
  wp_step. apply wp_clockintr; [done|]. wp_step. change (negb (2 =? 0)) with true. cbn iota. wp_step.
  set (s1 := set_mem _ _). destruct (ticked_fields s1) as (Ec & El & Eh & Em & Et & Eht).
  assert (E1 : procat p (ticked s1) = procat p s) by (by rewrite (procat_ticked p s1)).
  wp_step. apply wp_killed; [rewrite Eh; cbn; rewrite Hh; set_solver|]. rewrite E1, Hk.
  wp_step. wp_step. change (2 =? 2) with true. cbn iota.
  apply wps_bind, (wps_yield p); [by rewrite Ec|by rewrite El|by rewrite Eh|].
  unfold preempted. split_and!.
  - unfold procat. cbn [procs set_procs set_held].
    by rewrite list_lookup_total_alter_eq by (by rewrite El).
  - done.
  - cbn [mem set_procs set_held]. rewrite Em. apply load64_store64.
  - cbn [ticks set_procs set_held]. by rewrite Et.
  - cbn [hart set_procs set_held]. by rewrite Eht.
Qed.

(** C21: No user program keeps a CPU.  When the clock reaches the time asked for, a hart that runs a
    user program with the timer interrupt enabled is interrupted, whatever the program is
    doing: it enters supervisor mode at the trap vector, with interrupts off.  [usertrap],
    run on the registers as the trap left them, asks for the next tick, saves the
    program's address in the trap frame and gives the CPU back to the scheduler, with
    the process ready to run again; it does not return to the program first, whatever
    interrupts the disk may raise. *)
Theorem timer_preempts p h s :
  priv h = UMode -> Z.testbit (csrs h menvcfg) 63 = true -> Z.testbit (r_sie h) TIMER = true ->
  r_stimecmp h <= r_time h ->
  hart s = supervisor (interrupt TIMER h) ->
  cur s = Some p -> (p < length (procs s))%nat -> held s = [] -> p_killed (procat p s) = false ->
  interrupted TIMER h = true /\
  priv (interrupt TIMER h) = SMode /\ intr_get (interrupt TIMER h) = false /\
  (Z.land (r_stvec h) 3 = 0 -> pc (interrupt TIMER h) = r_stvec h) /\
  wps (usertrap virtio_disk_intr pad) (fun _ _ => False)
    (fun _ s' => preempted p (Z.clearbit (pc h) 0) s s') s.
Proof.
  intros Hu Htc Hie Ht Hs Hc Hp Hh Hk. split_and!.
  - unfold interrupted, csrr, pending_bits. rewrite Hu, Htc, andb_true_r.
    unfold r_sie, csrr in Hie. rewrite Hie. rewrite Z.land_spec in Hie |- *.
    apply andb_true_iff in Hie as [_ ->]. rewrite testbit_put_bit, !andb_true_r by lia.
    change (5 =? 5) with true. by apply Z.leb_le.
  - done.
  - rewrite intr_get_bit. destruct h. hart_eval. by bits.
  - intros Hv. unfold interrupt, strap, go, vector. cbn [pc]. unfold r_stvec, csrr in *.
    rewrite Hv. cbn [Z.eqb andb]. apply Z.bits_inj'. intros i Hi.
    apply (f_equal (fun x => Z.testbit x i)) in Hv. rewrite Z.land_spec, Z.bits_0 in Hv.
    rewrite Z.ldiff_spec. by destruct (Z.testbit (csrs h stvec) i), (Z.testbit 3 i).
  - destruct (timer_trap h Hu) as (Esc & Espp & Epc & _). rewrite <-Hs in Esc, Espp, Epc.
    rewrite <-Epc. by apply wps_usertrap_timer.
Qed.
End Traps.

(** ** Concrete harts *)

#[local] Instance all_delegated : Isa := {| can_delegate_exc := 0xb3ff; can_delegate_int := 0x222 |}.

(** Hart 3 at reset, and hart 0 in a user program, late for its tick. *)
Definition hart_reset : hartregs :=
  HartRegs (fun c => if decide (c = mhartid) then 3 else if decide (c = time) then 77 else 0)
    MMode 0x1000 0 0 0.
Definition hart_user : hartregs :=
  HartRegs (fun c => match c with
                     | mideleg => 0x222 | mie => 0x222 | menvcfg => 2 ^ 63 | mstatus => 2
                     | stvec => 0x3ffffff000 | stimecmp => 1000 | time => 1005 | _ => 0
                     end)
    UMode 0x18 0 0 0.
(** The kernel with process 1 running, as the interrupt left the registers. *)
Definition kernel_user : kst :=
  set_hart (supervisor (interrupt TIMER hart_user))
    (set_cur (Some 1%nat)
      (set_procs (alter (set_p_state RUNNING) 1%nat (alter (set_p_trapframe (pg 2)) 1%nat (procs machine))) machine)).

Lemma start_enters_main_witness :
  priv (start 0x80000e00 hart_reset) = SMode /\ pc (start 0x80000e00 hart_reset) = 0x80000e00.
Proof.
  destruct (start_enters_main 0x80000e00 hart_reset) as (H1 & H2 & _);
    [reflexivity| |exact (conj H1 H2)].
  intros i Hi. repeat (apply elem_of_cons in Hi as [->|Hi]; [reflexivity|]).
  by apply elem_of_nil in Hi.
Defined.

Lemma usertrapret_resumes_witness :
  exists s', (exists satp, @usertrapret image kernel_user = Ok satp s') /\
    exists h1, hart s' = supervisor h1 /\ priv (sret h1) = UMode /\ pc (sret h1) = 0.
Proof.
  destruct (proj1 (wp_ok _ _ _) (usertrapret_resumes (L := image) 1 (interrupt TIMER hart_user) kernel_user
    eq_refl eq_refl eq_refl)) as (satp & s' & E & _ & _ & h1 & Eh & Ep & Epc & _).
  exists s'. split; [by exists satp|]. exists h1. split; [exact Eh|]. split; [exact Ep|exact Epc].
Defined.

Lemma timer_preempts_witness :
  interrupted TIMER hart_user = true /\
  wps (@usertrap image (ret tt) []) (fun _ _ => False)
    (fun _ s' => preempted 1 0x18 kernel_user s') kernel_user.
Proof.
  destruct (timer_preempts (L := image) (ret tt) [] 1 hart_user kernel_user) as (H1 & _ & _ & _ & H2);
    [reflexivity|reflexivity|reflexivity|cbn; lia|reflexivity|reflexivity|cbn; lia|reflexivity|reflexivity|].
  exact (conj H1 H2).
Defined.
