(* ===== verification/ConsoleThms.v ===== *)
(** The console's line discipline: [consoleintr] is a line editor. *)
From S2P Require Import Prelude Types Vm Sched Ring Uart Console Concrete.

(** ** The editor

    [h] are the characters of finished lines that nobody has read yet, [l] those of the
    line being typed. *)
Definition edit (c : Z) (v : list Z * list Z) : list Z * list Z :=
  let '(h, l) := v in
  if c =? C 85 then (h, [])
  else if (c =? C 72) || (c =? 127) then (h, removelast l)
  else if (c =? 0) || (128 <=? length h + length l)%nat then (h, l)
  else
    let c := if c =? 13 then 10 else c in
    if (c =? 10) || (c =? C 68) || (length h + length l =? 127)%nat then (h ++ l ++ [c], [])
    else (h, l ++ [c]).

(** What appears on the screen: backspace, space and backspace erase a character. *)
Definition erase : list Z := [8; 32; 8].
Definition echo (c : Z) (v : list Z * list Z) : list Z :=
  let '(h, l) := v in
  if c =? C 85 then concat (replicate (length l) erase)
  else if (c =? C 72) || (c =? 127) then match l with [] => [] | _ => erase end
  else if (c =? 0) || (128 <=? length h + length l)%nat then []
  else [if c =? 13 then 10 else c].

(** ** The buffer *)

Definition cons_q (d : devst) : list Z := queue 32 (cons_buf d) (cons_r d) (cons_e d).
Definition handed (d : devst) : list Z := take (dist 32 (cons_w d) (cons_r d)) (cons_q d).
Definition typed (d : devst) : list Z := drop (dist 32 (cons_w d) (cons_r d)) (cons_q d).

Record cons_wf (d : devst) : Prop := {
  cw_buf : length (cons_buf d) = 128%nat;
  cw_idx : in_width 32 (cons_r d) /\ in_width 32 (cons_w d) /\ in_width 32 (cons_e d);
  cw_len : (dist 32 (cons_w d) (cons_r d) <= dist 32 (cons_e d) (cons_r d) <= 128)%nat;
  cw_line : 10 ∉ typed d
}.

(** The UART becomes idle within the polls that are made, and nobody has panicked. *)
Record tx_ready (d : devst) : Prop := {
  tr_panic : panicked d = false;
  tr_idle n : exists j, (j < u_polls d)%nat /\
    Z.land (u8 (u_read d (n + j)%nat (UART0 + LSR))) LSR_TX_IDLE <> 0
}.

(** Bytes have been sent. *)
Definition sent (bs : list Z) (d d' : devst) : Prop :=
  exists k, d' = set_u_out (u_out d ++ ((fun c => (UART0 + THR, c)) <$> bs)) (set_u_reads k d).

Lemma sent_nil d : sent [] d d.
Proof. exists (u_reads d). rewrite app_nil_r. by destruct d. Qed.

Lemma sent_app bs bs' d d1 d2 : sent bs d d1 -> sent bs' d1 d2 -> sent (bs ++ bs') d d2.
Proof. intros [k ->] [k' ->]. exists k'. rewrite fmap_app. destruct d. cbn. by rewrite app_assoc. Qed.

Lemma sent_ready bs d d' : sent bs d d' -> tx_ready d -> tx_ready d'.
Proof. intros [k ->] [? ?]. by destruct d. Qed.

(** The console's buffer is not concerned. *)
Lemma sent_cons bs d d' : sent bs d d' -> cons_wf d ->
  cons_wf d' /\ handed d' = handed d /\ typed d' = typed d /\ cons_e d' = cons_e d /\ cons_w d' = cons_w d /\
  cons_r d' = cons_r d /\ cons_buf d' = cons_buf d.
Proof. intros [k ->] [? ? ? ?]. by destruct d. Qed.

(** ** Editing the buffer *)

Lemma buf_div (d : devst) : length (cons_buf d) = 128%nat -> (Z.of_nat (length (cons_buf d)) | 2 ^ 32).
Proof. intros ->. by exists (2 ^ 25). Qed.

Lemma length_typed d : cons_wf d ->
  length (handed d) = dist 32 (cons_w d) (cons_r d) /\
  (length (handed d) + length (typed d))%nat = dist 32 (cons_e d) (cons_r d).
Proof.
  intros [_ _ Hl _]. unfold handed, typed, cons_q. rewrite length_take, length_drop, length_queue. lia.
Qed.

Lemma typed_nil d : cons_wf d -> typed d = [] <-> cons_e d = cons_w d.
Proof.
  intros W. destruct (length_typed d W) as [H1 H2]. destruct (cw_idx _ W) as (Hr & Hw & He). split.
  - intros E. rewrite E in H2. cbn in H2. apply (dist_inj 32 ltac:(done) _ _ (cons_r d)); [done|done|lia].
  - intros E. rewrite E in H2. apply nil_length_inv. lia.
Qed.

(** The last character typed is taken back. *)
Lemma cons_backspace d : cons_wf d -> cons_e d <> cons_w d ->
  let d' := set_cons_e (u32 (cons_e d - 1)) d in
  cons_wf d' /\ handed d' = handed d /\ typed d = typed d' ++ [rget (cons_buf d) (u32 (cons_e d - 1))].
Proof.
  intros W Hne d'. pose proof W as [Hb (Hr & Hw & He) Hl Hn]. destruct (length_typed d W) as [H1 H2].
  assert (Hpos : (dist 32 (cons_w d) (cons_r d) < dist 32 (cons_e d) (cons_r d))%nat).
  { destruct (decide (dist 32 (cons_w d) (cons_r d) = dist 32 (cons_e d) (cons_r d))) as [E|]; [|lia].
    destruct Hne. symmetry. by apply (dist_inj 32 ltac:(done) _ _ (cons_r d)). }
  assert (Hre : cons_r d <> cons_e d) by (intros E; rewrite E, (dist_refl 32 (cons_e d)) in Hpos; lia).
  pose proof (queue_unput 32 ltac:(done) (cons_buf d) (buf_div d Hb) _ _ Hr He Hre) as Hq.
  assert (Hd : S (dist 32 (cons_e d') (cons_r d)) = dist 32 (cons_e d) (cons_r d)).
  { apply (f_equal length) in Hq. rewrite length_app, !length_queue in Hq. cbn in *. unfold u32. lia. }
  assert (Ht : typed d = typed d' ++ [rget (cons_buf d) (u32 (cons_e d - 1))]).
  { unfold typed, cons_q. rewrite Hq, drop_app_le; [done|]. rewrite length_queue. cbn in *. unfold u32 in *. lia. }
  assert (Hh : handed d' = handed d).
  { unfold handed, cons_q. rewrite Hq, take_app_le; [done|]. rewrite length_queue. cbn in *. unfold u32 in *. lia. }
  split_and!; [|done|done]. split.
  - done.
  - split_and!; [done|done|by apply wrap_range].
  - cbn in *. lia.
  - rewrite Ht, elem_of_app in Hn. tauto.
Qed.

(** A character is added. *)
Lemma cons_put d c : cons_wf d -> (dist 32 (cons_e d) (cons_r d) < 128)%nat -> 0 <= c < 256 ->
  let d' := set_cons_e (u32 (cons_e d + 1)) (set_cons_buf (rset (cons_buf d) (cons_e d) (u8 c)) d) in
  handed d' = handed d /\ typed d' = typed d ++ [c] /\
  dist 32 (cons_e d') (cons_r d') = S (dist 32 (cons_e d) (cons_r d)) /\
  (c <> 10 -> cons_wf d') /\
  (let d2 := set_cons_w (cons_e d') d' in cons_wf d2 /\ handed d2 = handed d ++ typed d ++ [c] /\ typed d2 = []).
Proof.
  intros W Hroom Hc d'. pose proof W as [Hb (Hr & Hw & He) Hl Hn].
  assert (Hu : u8 c = c) by (by apply Z.mod_small).
  assert (Hq : cons_q d' = cons_q d ++ [c]).
  { unfold cons_q. cbn. unfold u32. rewrite queue_put; [by rewrite Hu|done|by apply buf_div|rewrite Hb; lia|lia]. }
  assert (Hd : dist 32 (cons_e d') (cons_r d') = S (dist 32 (cons_e d) (cons_r d))).
  { apply (f_equal length) in Hq. unfold cons_q in Hq. rewrite length_app, !length_queue in Hq. rewrite Hq. cbn. lia. }
  assert (Hlq : length (cons_q d) = dist 32 (cons_e d) (cons_r d)) by apply length_queue.
  assert (Hh : handed d' = handed d).
  { unfold handed at 1. rewrite Hq. cbn. rewrite take_app_le by lia. done. }
  assert (Ht : typed d' = typed d ++ [c]).
  { unfold typed at 1. rewrite Hq. cbn. rewrite drop_app_le by lia. done. }
  split_and!; try done.
  - intros H10. split; [cbn; by rewrite length_rset| |cbn in *; lia|rewrite Ht, elem_of_app; set_solver].
    split_and!; [done|done|by apply wrap_range].
  - intros d2. assert (Ht2 : typed d2 = []) by (apply drop_ge; unfold cons_q; rewrite length_queue; apply Nat.le_refl).
    assert (Hh2 : handed d2 = handed d ++ typed d ++ [c]).
    { rewrite app_assoc. unfold handed at 2, typed. rewrite take_drop. rewrite <- Hq. apply take_ge.
      unfold cons_q. rewrite length_queue. apply Nat.le_refl. }
    split_and!; [|done|done]. split; [cbn; by rewrite length_rset| |cbn in *; lia|rewrite Ht2; set_solver].
    split_and!; [done|by apply wrap_range|by apply wrap_range].
Qed.

(** ** Characters sent *)

Section Console.
Context {L : Linker}.

Lemma wp_tx_spin fuel : forall s (Q : unit -> kst -> Prop),
  (exists j, (j < fuel)%nat /\ Z.land (u8 (u_read (dev s) (u_reads (dev s) + j)%nat (UART0 + LSR))) LSR_TX_IDLE <> 0) ->
  (forall k, Q tt (set_dev (set_u_reads k (dev s)) s)) -> wp (tx_spin fuel) Q s.
Proof.
  induction fuel as [|fuel IH]; intros s Q (j & Hj & Hi) HQ; [lia|]. cbn [tx_spin].
  unfold ReadReg, mmio_read, getd, updd. wp_step. wp_step. wp_step. apply wp_get. wp_step. apply wp_upd.
  wp_step. wp_step. destruct (Z.eqb_spec (Z.land (u8 (u_read (dev s) (u_reads (dev s)) (UART0 + LSR))) LSR_TX_IDLE) 0) as [E|E].
  - destruct j as [|j]; [by rewrite Nat.add_0_r in Hi|]. apply IH.
    + exists j. split; [lia|]. cbn. by rewrite <- Nat.add_succ_r in *.
    + intros k. destruct s as [? ? ? ? ? ? ? ? ? ? ? ? ? ? ? ? ? ? ? d]. destruct d. apply HQ.
  - apply wp_ret. apply HQ.
Qed.

Lemma wp_uartputc_sync c s (Q : unit -> kst -> Prop) :
  tx_ready (dev s) -> (forall d', sent [u8 c] (dev s) d' -> Q tt (set_dev d' s)) -> wp (uartputc_sync c) Q s.
Proof.
  intros R HQ. unfold uartputc_sync, getd. wp_step. apply wp_get. rewrite (tr_panic _ R). wp_step. apply wp_get.
  wp_step. apply wp_tx_spin; [apply R|]. intros k. unfold WriteReg, mmio_write, updd. apply wp_upd.
  replace (set_dev _ (set_dev _ s)) with (set_dev (set_u_out (u_out (dev s) ++ [(UART0 + THR, u8 c)]) (set_u_reads k (dev s))) s).
  - apply HQ. by exists k.
  - destruct s as [? ? ? ? ? ? ? ? ? ? ? ? ? ? ? ? ? ? ? d]. by destruct d.
Qed.

Lemma set_dev_twice d d' s : set_dev d' (set_dev d s) = set_dev d' s.
Proof. by destruct s. Qed.

Lemma wp_consputc c s (Q : unit -> kst -> Prop) :
  tx_ready (dev s) ->
  (forall d', sent (if c =? BACKSPACE then erase else [u8 c]) (dev s) d' -> Q tt (set_dev d' s)) ->
  wp (consputc c) Q s.
Proof.
  intros R HQ. unfold consputc. destruct (c =? BACKSPACE); [|by apply wp_uartputc_sync].
  wp_step. apply wp_uartputc_sync; [done|]. intros d1 S1.
  wp_step. apply wp_uartputc_sync; [by eapply sent_ready|]. cbn [dev set_dev]. intros d2 S2.
  apply wp_uartputc_sync; [eapply sent_ready; [exact S2|by eapply sent_ready]|]. cbn [dev set_dev]. intros d3 S3.
  rewrite !set_dev_twice. apply HQ. change erase with ([u8 8] ++ [u8 32] ++ [u8 8]).
  eapply sent_app; [exact S1|]. by eapply sent_app.
Qed.

(** ** The interrupt handler *)

(** The buffer holds [h] and [l], and [bs] have been sent. *)
Record edited (d : devst) (h l bs : list Z) (d' : devst) : Prop := {
  ed_wf : cons_wf d';
  ed_handed : handed d' = h;
  ed_typed : typed d' = l;
  ed_out : u_out d' = u_out d ++ ((fun c => (UART0 + THR, c)) <$> bs);
  ed_r : cons_r d' = cons_r d;
  ed_tx : tx_buf d' = tx_buf d /\ tx_w d' = tx_w d /\ tx_r d' = tx_r d;
  ed_ready : tx_ready d'
}.

Lemma edited_refl d : cons_wf d -> tx_ready d -> edited d (handed d) (typed d) [] d.
Proof. intros W R. split; try done. by rewrite app_nil_r. Qed.

Lemma edited_trans d h l bs d1 h2 l2 bs2 d2 :
  edited d h l bs d1 -> edited d1 h2 l2 bs2 d2 -> edited d h2 l2 (bs ++ bs2) d2.
Proof.
  intros [W H T O Hr (X1 & X2 & X3) R] [W2 H2 T2 O2 Hr2 (Y1 & Y2 & Y3) R2]. split; try done.
  - by rewrite O2, O, fmap_app, app_assoc.
  - congruence.
  - split_and!; congruence.
Qed.

(** Erasing one character. *)
Lemma erase_edited d d' : cons_wf d -> tx_ready d -> cons_e d <> cons_w d ->
  sent erase (set_cons_e (u32 (cons_e d - 1)) d) d' ->
  edited d (handed d) (removelast (typed d)) erase d'.
Proof.
  intros W R Hne S. destruct (cons_backspace d W Hne) as (W1 & H1 & T1).
  destruct (sent_cons _ _ _ S W1) as (W2 & H2 & T2 & E2 & _ & E3 & _).
  split; [done|congruence| | | | |].
  - rewrite T2, T1. symmetry. apply removelast_last.
  - destruct S as [k ->]. by destruct d.
  - rewrite E3. by destruct d.
  - destruct S as [k ->]. by destruct d.
  - eapply sent_ready; [done|]. destruct R. by destruct d.
Qed.

Lemma wp_kill_line fuel : forall s, tx_ready (dev s) -> cons_wf (dev s) -> (length (typed (dev s)) < fuel)%nat ->
  wp (kill_line fuel) (fun _ s' => exists d', s' = set_dev d' s /\
    edited (dev s) (handed (dev s)) [] (concat (replicate (length (typed (dev s))) erase)) d') s.
Proof.
  induction fuel as [|fuel IH]; intros s R W Hf; [lia|]. cbn [kill_line]. unfold getd, updd.
  wp_step. apply wp_get. destruct (Z.eqb_spec (cons_e (dev s)) (cons_w (dev s))) as [E|Hne]; cbn [negb andb].
  { apply wp_ret. exists (dev s). split; [by destruct s|]. apply typed_nil in E; [|done].
    pose proof (edited_refl _ W R) as X. rewrite E in *. exact X. }
  destruct (cons_backspace (dev s) W Hne) as (W1 & H1 & T1).
  assert (Hc : rget (cons_buf (dev s)) (u32 (cons_e (dev s) - 1)) <> 10).
  { pose proof (cw_line _ W) as Hn. rewrite T1, elem_of_app in Hn. set_solver. }
  rewrite (proj2 (Z.eqb_neq _ _)) by done. cbn [negb andb]. wp_step. apply wp_upd.
  wp_step. apply wp_consputc; [destruct R; by destruct (dev s)|]. cbn [dev set_dev].
  change (BACKSPACE =? BACKSPACE) with true. cbv iota. intros d1 S1.
  pose proof (erase_edited (dev s) d1 W R Hne S1) as X. rewrite set_dev_twice.
  assert (Hlen : length (typed (dev s)) = S (length (removelast (typed (dev s))))).
  { rewrite T1, removelast_last, length_app. cbn. lia. }
  eapply wp_mono; [apply IH; cbn [dev set_dev]; [apply X|apply X|rewrite (ed_typed _ _ _ _ _ X); lia]|].
  cbn [dev set_dev]. intros _ s' (d' & -> & X'). exists d'. rewrite set_dev_twice. split; [done|].
  rewrite (ed_handed _ _ _ _ _ X), (ed_typed _ _ _ _ _ X) in X'. rewrite Hlen. cbn [replicate concat].
  by eapply edited_trans.
Qed.

(** Nobody has been woken, or, when a line has been finished, everybody who waits for one. *)
Definition line_done (s : kst) (d' : devst) : list proc :=
  if decide (handed d' = handed (dev s)) then procs s else woken (cur s) ChCons 0 NPROC (procs s).

Definition intr_post (c : Z) (s : kst) (s' : kst) : Prop :=
  let v := (handed (dev s), typed (dev s)) in
  exists d', s' = set_dev d' (set_procs (line_done s d') s) /\
    edited (dev s) (edit c v).1 (edit c v).2 (echo c v) d'.

Lemma set_dev_same d s : set_dev d (set_procs (procs s) s) = set_dev d s.
Proof. by destruct s. Qed.

(** An ordinary character, of which carriage return becomes newline. *)
Definition put_char (c : Z) : M unit :=
  consputc c ;;;
  updd (fun d => set_cons_buf (rset (cons_buf d) (cons_e d) (u8 c)) d) ;;;
  updd (fun d => set_cons_e (u32 (cons_e d + 1)) d) ;;;
  let! whole := getd (fun d => (c =? 10) || (c =? C 68) ||
                               (u32 (cons_e d - cons_r d) =? INPUT_BUF_SIZE)) in
  if whole then
    updd (fun d => set_cons_w (cons_e d) d) ;;;
    wakeup ChCons
  else ret tt.

Lemma dist_eqb a b n : (u32 (a - b) =? Z.of_nat n) = (dist 32 a b =? n)%nat.
Proof.
  unfold dist, u32. pose proof (Z.mod_pos_bound (a - b) (2 ^ 32) ltac:(done)).
  destruct (Z.eqb_spec ((a - b) mod 2 ^ 32) (Z.of_nat n)), (Nat.eqb_spec (Z.to_nat ((a - b) mod 2 ^ 32)) n); done || lia.
Qed.

Lemma wp_put_char c s :
  (forall j, LkProc j ∉ held s) -> tx_ready (dev s) -> cons_wf (dev s) -> 0 <= c < 256 ->
  (dist 32 (cons_e (dev s)) (cons_r (dev s)) < 128)%nat ->
  let h := handed (dev s) in let l := typed (dev s) in
  let fin := (c =? 10) || (c =? C 68) || (length h + length l =? 127)%nat in
  wp (put_char c) (fun _ s' => exists d', s' = set_dev d' (set_procs (line_done s d') s) /\
    edited (dev s) (if fin then h ++ l ++ [c] else h) (if fin then [] else l ++ [c]) [c] d') s.
Proof.
  intros Hp R W Hc Hroom h l fin. unfold put_char, getd, updd. wp_step. apply wp_consputc; [done|].
  rewrite (proj2 (Z.eqb_neq c BACKSPACE)) by lia. unfold u8 at 1. rewrite Z.mod_small by lia.
  intros d1 S1. destruct (sent_cons _ _ _ S1 W) as (W1 & H1 & T1 & E1 & Ew1 & Er1 & _).
  pose proof (sent_ready _ _ _ S1 R) as R1. destruct (length_typed _ W) as [_ Hlen].
  destruct (cons_put d1 c W1) as (H2 & T2 & D2 & W2 & W3 & H3 & T3); [by rewrite E1, Er1|done|].
  wp_step. apply wp_upd. wp_step. apply wp_upd. cbn [dev set_dev]. rewrite !set_dev_twice.
  wp_step. apply wp_get. cbn [dev set_dev].
  set (d2 := set_cons_e (u32 (cons_e d1 + 1)) (set_cons_buf (rset (cons_buf d1) (cons_e d1) (u8 c)) d1)) in *.
  change (set_cons_e _ _) with d2.
  assert (Efin : (c =? 10) || (c =? C 68) || (u32 (cons_e d2 - cons_r d2) =? INPUT_BUF_SIZE) = fin).
  { unfold fin. f_equal. change INPUT_BUF_SIZE with (Z.of_nat 128). rewrite dist_eqb, D2, E1, Er1. unfold h, l. rewrite Hlen. done. }
  rewrite Efin.
  assert (Hout : u_out d1 = u_out (dev s) ++ [(UART0 + THR, c)]) by (by destruct S1 as [k ->]; destruct (dev s)).
  assert (Htx : tx_buf d1 = tx_buf (dev s) /\ tx_w d1 = tx_w (dev s) /\ tx_r d1 = tx_r (dev s))
    by (by destruct S1 as [k ->]; destruct (dev s)).
  assert (R2 : forall w, tx_ready (set_cons_w w d2)) by (intros w; destruct R1; by destruct d1).
  rewrite T1, H1 in *. destruct fin eqn:Ef.
  - wp_step. apply wp_upd. cbn [dev set_dev]. rewrite set_dev_twice. apply wp_wakeup; [intros; apply Hp|].
    exists (set_cons_w (cons_e d2) d2). split; [|by split].
    unfold line_done. rewrite decide_False; [done|]. rewrite H3. intros E. apply (f_equal length) in E.
    rewrite !length_app in E. cbn in E. lia.
  - apply wp_ret. exists d2. split.
    + unfold line_done. rewrite decide_True by done. by rewrite set_dev_same.
    + split; try done; [|by destruct R1; destruct d1]. apply W2. unfold fin in Ef. intros ->. done.
Qed.

Lemma wp_consoleintr procdump c s :
  LkCons ∉ held s -> (forall j, LkProc j ∉ held s) -> tx_ready (dev s) -> cons_wf (dev s) ->
  0 <= c < 256 -> c <> C 80 -> wp (consoleintr procdump c) (fun _ s' => intr_post c s s') s.
Proof.
  intros Hl Hp R W Hc HP. unfold consoleintr. wp_step. apply wp_acquire; [done|].
  set (s0 := set_held (LkCons :: held s) s).
  assert (Hfin : forall s', intr_post c s0 s' -> wp (release LkCons) (fun _ s' => intr_post c s s') s').
  { intros s' (d' & -> & X). eapply wp_release; [done|done|]. exists d'. split; [by destruct s|done]. }
  assert (Hs : forall d', set_dev d' s0 = set_dev d' (set_procs (procs s0) s0)) by (intros; by destruct s).
  wp_step. apply (wp_mono _ (fun _ s' => intr_post c s0 s')); [|intros [] s' H; apply Hfin, H]. change (dev s) with (dev s0) in *.
  assert (Hp0 : forall j, LkProc j ∉ held s0) by (intros j; cbn; rewrite elem_of_cons; naive_solver).
  clearbody s0. clear Hl Hp Hfin. rewrite (proj2 (Z.eqb_neq _ _) HP).
  destruct (length_typed _ W) as [_ Hlen].
  unfold intr_post, edit, echo. destruct (c =? C 85).
  { eapply wp_mono; [apply wp_kill_line; [done|done|pose proof (cw_len _ W); lia]|]. intros _ s' (d' & -> & X).
    exists d'. unfold line_done. rewrite decide_True by apply X. rewrite <- Hs. done. }
  destruct ((c =? C 72) || (c =? 127)).
  { unfold getd, updd. wp_step. apply wp_get.
    destruct (Z.eqb_spec (cons_e (dev s0)) (cons_w (dev s0))) as [E|Hne]; cbn [negb].
    - apply wp_ret. exists (dev s0). unfold line_done. rewrite decide_True by done. rewrite <- Hs.
      split; [by destruct s0|]. apply typed_nil in E; [|done]. pose proof (edited_refl _ W R) as X. rewrite E in *. exact X.
    - wp_step. apply wp_upd. apply wp_consputc; [destruct R; by destruct (dev s0)|].
      change (BACKSPACE =? BACKSPACE) with true. cbv iota. cbn [dev set_dev]. intros d1 S1.
      pose proof (erase_edited _ _ W R Hne S1) as X. exists d1. unfold line_done.
      rewrite decide_True by apply X. rewrite <- Hs, set_dev_twice. split; [done|].
      destruct (typed (dev s0)) eqn:Et; [by apply typed_nil in Et|]. rewrite <- Et in *. exact X. }
  unfold getd. wp_step. apply wp_get.
  assert (Hroom : (u32 (cons_e (dev s0) - cons_r (dev s0)) <? INPUT_BUF_SIZE) =
    negb (128 <=? length (handed (dev s0)) + length (typed (dev s0)))%nat).
  { rewrite Hlen. unfold dist, u32. pose proof (Z.mod_pos_bound (cons_e (dev s0) - cons_r (dev s0)) (2 ^ 32) ltac:(done)).
    destruct (Z.ltb_spec ((cons_e (dev s0) - cons_r (dev s0)) mod 2 ^ 32) INPUT_BUF_SIZE),
      (Nat.leb_spec 128 (Z.to_nat ((cons_e (dev s0) - cons_r (dev s0)) mod 2 ^ 32))); done || lia. }
  rewrite Hroom, <- negb_orb.
  destruct ((c =? 0) || (128 <=? length (handed (dev s0)) + length (typed (dev s0)))%nat) eqn:Eig; cbn [negb].
  { apply wp_ret. exists (dev s0). unfold line_done. rewrite decide_True by done. rewrite <- Hs.
    split; [by destruct s0|by apply edited_refl]. }
  apply orb_false_iff in Eig as [_ Hlt%Nat.leb_gt]. cbv zeta. set (c' := if c =? 13 then 10 else c).
  eapply wp_mono; [apply (wp_put_char c' s0); try done; [unfold c'; destruct (c =? 13); lia|lia]|].
  intros _ s' (d' & -> & X). exists d'. split; [done|]. cbv zeta in X.
  by destruct ((c' =? 10) || (c' =? C 68) || (length (handed (dev s0)) + length (typed (dev s0)) =? 127)%nat).
Qed.
End Console.

(** C31: The console's interrupt handler is a line editor: control-U erases the line being
    typed, backspace and delete its last character, any other character is appended (a
    carriage return as a newline) while there is room for it, and a newline, control-D
    or a full buffer hands the line to the readers and wakes them.  What is echoed erases and shows the
    same characters; finished lines are never changed, and the indices may wrap. *)
Theorem consoleintr_correct {L : Linker} procdump c s :
  LkCons ∉ held s -> (forall j, LkProc j ∉ held s) -> tx_ready (dev s) -> cons_wf (dev s) ->
  0 <= c < 256 -> c <> C 80 -> wp (consoleintr procdump c) (fun _ s' => intr_post c s s') s.
Proof. apply wp_consoleintr. Qed.

(** ** A line being typed across the wrap of the indices *)

Definition demo_dev : devst :=
  Dev (rset (rset (replicate 128 0) (2 ^ 32 - 1) 97) 0 98) (2 ^ 32 - 1) (2 ^ 32 - 1) 1
    (replicate 32 0) 0 0 false (fun _ _ => 32) 0 [] 100.
Definition cons_machine : kst := set_dev demo_dev machine.

Lemma demo_dev_ready : tx_ready demo_dev.
Proof. split; [done|]. intros n. exists 0%nat. cbn. split; [lia|done]. Qed.

Lemma demo_dev_wf : cons_wf demo_dev.
Proof.
  split; [done|by split_and!|vm_compute; lia|].
  replace (typed demo_dev) with [97; 98] by (by vm_compute). set_solver.
Qed.

Lemma consoleintr_correct_witness :
  wp (consoleintr (ret tt) 13) (fun _ s' => intr_post 13 cons_machine s') cons_machine.
Proof.
  apply (consoleintr_correct (ret tt) 13 cons_machine);
    [apply not_elem_of_nil|intros; apply not_elem_of_nil|apply demo_dev_ready|apply demo_dev_wf|lia|done].
Defined.
