(* ===== verification/PathThms.v ===== *)
(** Path names: [skipelem] and [namex] against the list of a path's components. *)
From S2P Require Import Prelude Types Str Vm Sched Fs.

(** ** The components of a path *)

(** The characters of a C string. *)
Fixpoint before_nul (l : list Z) : list Z :=
  match l with
  | [] => []
  | c :: l' => if c =? 0 then [] else c :: before_nul l'
  end.

(** The pieces between slashes. *)
Fixpoint split (l : list Z) : list (list Z) :=
  match l with
  | [] => [[]]
  | c :: l' => if c =? SLASH then [] :: split l'
               else match split l' with [] => [[c]] | w :: ws => (c :: w) :: ws end
  end.

Definition nonempty (w : list Z) : bool := match w with [] => false | _ => true end.
Definition words (l : list Z) : list (list Z) := List.filter nonempty (split l).
Definition components (path : list Z) : list (list Z) := take (Z.to_nat DIRSIZ) <$> words (before_nul path).

(** ** [skipelem] *)

Lemma split_cons l : exists w ws, split l = w :: ws.
Proof.
  destruct l as [|c l]; [by exists [], []|]. cbn. destruct (c =? SLASH); [eauto|].
  destruct (split l) as [|w ws]; eauto.
Qed.

Lemma components_skip path : components (skip_slashes path) = components path.
Proof.
  induction path as [|c path IH]; [done|]. cbn [skip_slashes]. destruct (Z.eqb_spec c SLASH) as [->|]; [|done].
  rewrite IH. done.
Qed.

Lemma split_app e l w ws : Forall (fun c => c <> SLASH) e -> split l = w :: ws -> split (e ++ l) = (e ++ w) :: ws.
Proof.
  intros He Hl. induction He as [|c e Hc He IH]; [done|]. cbn. rewrite (proj2 (Z.eqb_neq _ _)) by done.
  by rewrite IH.
Qed.

Lemma path_elem_spec path e rest : path_elem path = (e, rest) ->
  path = e ++ rest /\ Forall (fun c => c <> SLASH /\ c <> 0) e /\
  match rest with [] => True | c :: _ => c = SLASH \/ c = 0 end.
Proof.
  revert e rest. induction path as [|c path IH]; intros e rest; cbn [path_elem]; [by intros [= <- <-]|].
  destruct (Z.eqb_spec c SLASH), (Z.eqb_spec c 0); cbn [orb]; try (intros [= <- <-]; split_and!; by auto).
  destruct (path_elem path) as [e' rest'] eqn:E. intros [= <- <-].
  destruct (IH e' rest' eq_refl) as (-> & H1 & H2). split_and!; [done|by constructor|done].
Qed.

Lemma before_nul_app e rest : Forall (fun c => c <> SLASH /\ c <> 0) e -> before_nul (e ++ rest) = e ++ before_nul rest.
Proof.
  induction 1 as [|c e [_ Hc] He IH]; [done|]. cbn. rewrite (proj2 (Z.eqb_neq _ _)) by done. by rewrite IH.
Qed.

Lemma components_elem e rest : Forall (fun c => c <> SLASH /\ c <> 0) e -> e <> [] ->
  match rest with [] => True | c :: _ => c = SLASH \/ c = 0 end ->
  components (e ++ rest) = take (Z.to_nat DIRSIZ) e :: components rest.
Proof.
  intros He Hne Hr. unfold components, words. rewrite before_nul_app by done.
  assert (Hs : exists ws, split (before_nul rest) = [] :: ws).
  { destruct rest as [|c rest]; [by exists []|]. destruct Hr as [->| ->]; cbn; eauto. }
  destruct Hs as [ws Hs]. rewrite (split_app e _ [] ws), Hs, app_nil_r; [|eapply Forall_impl; [exact He|by intros ? [? _]]|done].
  by destruct e.
Qed.

Lemma length_skip path : (length (skip_slashes path) <= length path)%nat.
Proof. induction path as [|c path IH]; cbn; [lia|]. destruct (c =? SLASH); cbn; lia. Qed.

Lemma skip_slashes_head path : match skip_slashes path with c :: _ => c <> SLASH | [] => True end.
Proof. induction path as [|c path IH]; cbn; [done|]. destruct (Z.eqb_spec c SLASH); done. Qed.

Lemma skipelem_spec path :
  match skipelem path with
  | Some (name, rest) => components path = name :: components rest /\ (length rest < length path)%nat /\
      (ch rest 0 =? 0) = bool_decide (components rest = [])
  | None => components path = []
  end.
Proof.
  assert (Hend : forall p, ch (skip_slashes p) 0 = 0 -> components p = []).
  { intros p H. rewrite <- components_skip. pose proof (skip_slashes_head p).
    destruct (skip_slashes p) as [|c l]; [done|]. unfold ch in H. cbn in H. by subst. }
  unfold skipelem. destruct (Z.eqb_spec (ch (skip_slashes path) 0) 0) as [E|E]; [by apply Hend|].
  pose proof (skip_slashes_head path) as Hh. destruct (path_elem (skip_slashes path)) as [e rest] eqn:Ep.
  destruct (path_elem_spec _ _ _ Ep) as (Hp & He & Hr).
  assert (Hne : e <> []).
  { intros ->. cbn in Hp. rewrite Hp in *. destruct rest as [|c l]; [done|]. unfold ch in E. cbn in E. by destruct Hr. }
  split_and!.
  - rewrite <- components_skip, Hp, components_elem by done. by rewrite components_skip.
  - pose proof (length_skip path). pose proof (length_skip rest). rewrite Hp, length_app in *.
    destruct e; [done|]. cbn in *. lia.
  - rewrite components_skip. destruct (Z.eqb_spec (ch (skip_slashes rest) 0) 0) as [E0|E0].
    + by rewrite bool_decide_eq_true_2 by (by apply Hend).
    + rewrite bool_decide_eq_false_2; [done|]. rewrite <- components_skip. pose proof (skip_slashes_head rest) as Hh'.
      destruct (skip_slashes rest) as [|c l]; [done|]. unfold ch in E0. cbn in E0.
      destruct (path_elem (c :: l)) as [e' rest'] eqn:Ep'. destruct (path_elem_spec _ _ _ Ep') as (Hp' & He' & Hr').
      assert (e' <> []). { intros ->. cbn in Hp'. subst rest'. by destruct Hr'. }
      rewrite Hp', components_elem by done. done.
Qed.

(** ** [namex] *)

Section Namex.
Context {L : Linker}.

(** The walk along a list of names. *)
Fixpoint walk_names (ip : nat) (cs : list (list Z)) (nameiparent : bool) (name : list Z) : M (option nat * list Z) :=
  match cs with
  | [] => if nameiparent then iput ip ;;; ret (None, name) else ret (Some ip, name)
  | c :: cs' =>
      ilock ip ;;;
      let! t := geti ip i_type in
      if negb (t =? T_DIR) then iunlockput ip ;;; ret (None, c)
      else if nameiparent && bool_decide (cs' = []) then iunlock ip ;;; ret (Some ip, c)
      else
        let! next := dirlookup ip c in
        match next with
        | None => iunlockput ip ;;; ret (None, c)
        | Some (next, _) => iunlockput ip ;;; walk_names next cs' nameiparent c
        end
  end.

Lemma bind_ext {A B} (c : M A) (k k' : A -> M B) s :
  (forall a s', k a s' = k' a s') -> bind c k s = bind c k' s.
Proof. intros H. unfold bind. by destruct (c s). Qed.

Lemma namex_loop_walk np fuel : forall ip path name s, (length path <= fuel)%nat ->
  namex_loop ip path np name fuel s = walk_names ip (components path) np name s.
Proof.
  induction fuel as [|fuel IH]; intros ip path name s Hf; pose proof (skipelem_spec path) as Hs;
    cbn [namex_loop]; (destruct (skipelem path) as [[c rest]|]; [|by rewrite Hs]);
    destruct Hs as (-> & Hl & Hc); [lia|].
  cbn [walk_names]. apply bind_ext. intros _ s1. apply bind_ext. intros t s2. destruct (negb (t =? T_DIR)); [done|].
  rewrite Hc. destruct (np && bool_decide (components rest = [])); [done|].
  apply bind_ext. intros [[next off]|] s3; [|done]. apply bind_ext. intros _ s4. apply IH. lia.
Qed.

(** [namex] walks the components of its path, that is the pieces between slashes of the C
    string, empty ones left out and each cut to [DIRSIZ] characters: the loop with
    [skipelem] always ends and does, on every state and for every path, exactly what the structural walk
    over that list does, with the last component left to the caller for
    [nameiparent]. *)
Lemma namex_components path np s :
  namex path np s =
  (let! ip := (if ch path 0 =? SLASH then iget ROOTDEV ROOTINO
               else let! p := myproc_ in
                    let! cwd := getp p p_cwd in
                    let! cwd := deref cwd in
                    idup cwd) in
   walk_names ip (components path) np []) s.
Proof. unfold namex. apply bind_ext. intros ip s'. by apply namex_loop_walk. Qed.

End Namex.
