(* ===== verification/Inodes.v ===== *)
(** The inode table as a cache of the inodes on disk: [ilock], [iunlock] and [iput] of
    [Fs], and the walk of a path in terms of the directories on disk. *)
From S2P Require Import Prelude Types Str Kalloc Vm Sched Sleeplock Bio BioSess Printf.
From S2P Require Import Log LogSpec Crash LogOps Fs FsBlk FsFile FsWrite Sysfile Dirs PathThms.

Section Inodes.
Context {L : Linker}.
Implicit Types (P : list Z) (C : Z -> list Z) (v : superblock) (ip : inode) (inum : Z) (R : nat -> Z).

(** ** What reading leaves alone

    From [s0] to [s] the table of inodes may have changed, and buffers and processes as
    reading needs it, but no block's contents and nothing of the log. *)
Record still (s0 : kst) (me : nat) P (s : kst) : Prop := {
  st_step : fstep s0 s;
  st_log : log s = log s0;
  st_fx : fx s me P [];
  st_content b : bcontent s b = bcontent s0 b;
  st_table : length (inodes s) = length (inodes s0)
}.

Lemma still_trans s0 me P s1 s2 : still s0 me P s1 -> still s1 me P s2 -> still s0 me P s2.
Proof.
  intros [S1 L1 F1 C1 T1] [S2 L2 F2 C2 T2]. split; [by eapply fstep_trans|congruence|done| |congruence].
  intros b. by rewrite C2.
Qed.

Lemma still_inodes s me P l : fx s me P [] -> length l = length (inodes s) -> still s me P (set_inodes l s).
Proof. intros F Hl. split; [apply fstep_inodes|done|by apply fx_inodes|done|done]. Qed.

Lemma fx_procs s me P K ps :
  same_procs s (set_procs ps s) -> fx s me P K -> fx (set_procs ps s) me P K.
Proof.
  intros Sp [B T Hl Ho Hz Hn]. split; try done. destruct B as [[? ? ? ? ? ? ? ? ?] Rn Lk ND Lkd U NP Pin Ref].
  split; try done.
  - by eapply running_same.
  - intros i b Hk. destruct (Lkd i b Hk). split; try done. by rewrite (same_pid _ _ me Sp).
Qed.

Lemma still_procs s me P ps :
  same_procs s (set_procs ps s) -> fx s me P [] -> still s me P (set_procs ps s).
Proof.
  intros Sp F. split; [|done|by apply fx_procs|done|done]. split; [by destruct s|done|apply same_log_refl].
Qed.

Lemma unchanged_still s me P i s' : unchanged s me P i s' -> still s me P s'.
Proof. intros [S E Lg F C]. split; [done|done|apply F|done|by rewrite E]. Qed.

(** ** Inodes on disk *)

(** An entry with its contents read. *)
Definition full C v ip : inode :=
  set_i_valid true (load_dinode (C (inum_block v (i_inum ip))) (di_off (i_inum ip)) ip).

(** Inode [inum] as it is on disk. *)
Definition dinode C v inum : inode :=
  full C v (Inode ROOTDEV inum 1 (SleepLock false 0) false 0 0 0 0 0 []).

(** The same contents, whatever the references and the lock. *)
Lemma full_content C v ip :
  i_dev ip = ROOTDEV -> full C v ip = set_i_lock (i_lock ip) (set_i_ref (i_ref ip) (dinode C v (i_inum ip))).
Proof. destruct ip. cbn. intros ->. done. Qed.

Lemma full_ext C C' v ip : (forall b, C' b = C b) -> full C' v ip = full C v ip.
Proof. intros H. unfold full. by rewrite H. Qed.

(** The tree: a set [T] of inodes in use, closed under the entries of its directories. *)
Record tree_ok C v (T : Z -> Prop) : Prop := {
  tr_inum n : T n -> inum_ok v n;
  tr_type n : T n -> i_type (dinode C v n) <> 0;
  tr_nlink n : T n -> i_nlink (dinode C v n) <> 0;
  tr_file n : T n -> file_wf v C (dinode C v n);
  tr_dir n : T n -> i_type (dinode C v n) = T_DIR -> dir_wf C (dinode C v n);
  tr_entry n k nm n' : T n -> i_type (dinode C v n) = T_DIR ->
    dir C (dinode C v n) !! k = Some (Some (nm, n')) -> T n'
}.

Lemma tree_ok_ext C C' v T : (forall b, C' b = C b) -> tree_ok C v T -> tree_ok C' v T.
Proof.
  intros Cs [T1 T2 T3 T4 T5 T6].
  assert (Ed : forall n, dinode C' v n = dinode C v n) by (intros; by apply full_ext).
  split; intros n; rewrite ?Ed; auto.
  - intros HT. by eapply file_wf_eq, T4.
  - intros HT Hty. by eapply dir_wf_ext, T5.
  - intros k nm n' HT Hty. rewrite (dir_ext C) by done. by apply T6.
Qed.

(** The entries in use are of inodes of the tree, and valid ones hold what is on disk.  The
    process with identifier [pid] has locked the inode [o], no other is locked. *)
Record icache (s : kst) C v (T : Z -> Prop) (pid : Z) (o : option nat) : Prop := {
  ic_ref k : 0 <= i_ref (inodeat k s);
  ic_tree k : 0 < i_ref (inodeat k s) -> i_dev (inodeat k s) = ROOTDEV /\ T (i_inum (inodeat k s));
  ic_valid k : 0 < i_ref (inodeat k s) -> i_valid (inodeat k s) = true -> inodeat k s = full C v (inodeat k s);
  ic_lock k : if decide (o = Some k)
    then i_lock (inodeat k s) = SleepLock true pid /\ i_valid (inodeat k s) = true /\ 0 < i_ref (inodeat k s)
    else sl_locked (i_lock (inodeat k s)) = false
}.

(** The locks that the code below takes. *)
Record ilocks (s : kst) : Prop := {
  il_table : LkItable ∉ held s;
  il_inode k : LkInode k ∉ held s
}.

Lemma ilocks_still s0 me P s : still s0 me P s -> ilocks s0 -> ilocks s.
Proof. intros St [H1 H2]. split; intros; by rewrite (fstep_held _ _ (st_step _ _ _ _ St)). Qed.

Lemma inode_sl_ok i : sl_ok (inode_sl i).
Proof. by split. Qed.

Lemma wp_ok_eq {A} (c : M A) a s s' : wp c (fun a' s'' => a' = a /\ s'' = s') s -> c s = Ok a s'.
Proof. unfold wp. destruct (c s); [|done..]. by intros [-> ->]. Qed.

Lemma fx_running s me P K : fx s me P K -> running s me.
Proof. intros F. apply (bs_run _ _ _ _ (fx_sess _ _ _ _ F)). Qed.

(** ** [ilock] *)

Lemma full_type C v T ip :
  tree_ok C v T -> i_dev ip = ROOTDEV -> T (i_inum ip) -> i_type (full C v ip) <> 0 /\ i_nlink (full C v ip) <> 0.
Proof. intros H Hd HT. rewrite full_content by done. cbn. split; by eapply H. Qed.

Lemma wp_ilock_entry s me P T pid k :
  let v := sb s in let C := bcontent s in
  fx s me P [] -> geom v (log s) -> ilocks s -> icache s C v T pid None -> tree_ok C v T -> room P [] 0 ->
  (k < length (inodes s))%nat -> 0 < i_ref (inodeat k s) ->
  wp (ilock k) (fun _ s' => still s me P s' /\ (forall j, j <> k -> inodeat j s' = inodeat j s) /\
    inodeat k s' = set_i_lock (SleepLock true (p_pid (procat me s))) (full C v (inodeat k s))) s.
Proof.
  intros v C F G [Hlt Hli] I Tr Hr Hk Href. destruct (ic_tree _ _ _ _ _ _ I k Href) as [Hdev HT].
  destruct (full_type C v T (inodeat k s) Tr Hdev HT) as [Hty _].
  unfold ilock. wp_step. apply wp_get. rewrite (proj2 (Z.ltb_ge _ _)) by lia.
  wp_step. eapply wp_acquiresleep; [apply inode_sl_ok|by eapply fx_running|apply Hli|exact (ic_lock _ _ _ _ _ _ I k)|].
  cbn [inode_sl sl_set]. set (lk := SleepLock true _). set (s1 := set_inodes _ s).
  assert (E1 : inodeat k s1 = set_i_lock lk (inodeat k s)) by (unfold s1; by rewrite inodeat_alter, decide_True).
  assert (O1 : forall j, j <> k -> inodeat j s1 = inodeat j s).
  { intros j Hj. unfold s1. by rewrite inodeat_alter, decide_False by done. }
  assert (St1 : still s me P s1) by (apply still_inodes; [done|by rewrite length_alter]).
  wp_step. apply wp_get. rewrite E1. destruct (i_valid (set_i_lock lk (inodeat k s))) eqn:Ev.
  { wp_step. split_and!; [done|done|]. rewrite E1. f_equal. by apply (ic_valid _ _ _ _ _ _ I). }
  clearbody s1. wp_step. apply wp_get. rewrite (fstep_sb _ _ (st_step _ _ _ _ St1)). fold v.
  change (i_inum (set_i_lock lk (inodeat k s))) with (i_inum (inodeat k s)).
  change (i_dev (set_i_lock lk (inodeat k s))) with (i_dev (inodeat k s)). rewrite Hdev.
  rewrite (IBLOCK_eq v (log s)) by (done || by eapply Tr). set (b := inum_block v (i_inum (inodeat k s))).
  wp_step. eapply (wp_fx_bread s1); [apply St1|apply not_elem_of_nil|done|].
  intros bp s2 S2 I2 L2 F2 Ed2 Cl2 C2 _. wp_step. apply wp_get. rewrite Ed2, (st_content _ _ _ _ St1). fold C.
  assert (E2 : inodeat k s2 = set_i_lock lk (inodeat k s)) by (unfold inodeat; rewrite I2; exact E1).
  assert (Hk2 : (k < length (inodes s2))%nat) by (by rewrite I2, (st_table _ _ _ _ St1)).
  wp_step. apply wp_upd. set (s3 := set_inodes _ s2).
  assert (E3 : inodeat k s3 = load_dinode (C b) (di_off (i_inum (inodeat k s))) (set_i_lock lk (inodeat k s))).
  { unfold s3. by rewrite inodeat_alter, decide_True, E2 by done. }
  assert (O3 : forall j, j <> k -> inodeat j s3 = inodeat j s).
  { intros j Hj. unfold s3. rewrite inodeat_alter, decide_False by done. unfold inodeat at 1. rewrite I2. by apply O1. }
  assert (T3 : length (inodes s3) = length (inodes s)).
  { unfold s3. cbn. by rewrite length_alter, I2, (st_table _ _ _ _ St1). }
  assert (S3 : fstep s s3).
  { eapply fstep_trans; [apply St1|]. eapply fstep_trans; [exact S2|]. apply fstep_inodes. }
  assert (C3 : forall b', bcontent s3 b' = C b').
  { intros b'. change (bcontent s3 b') with (bcontent s2 b'). by rewrite C2, (st_content _ _ _ _ St1). }
  assert (F3 : fx s3 me P [(bp, b)]) by (by apply fx_inodes).
  assert (L3 : log s3 = log s) by (change (log s2 = log s); by rewrite L2, (st_log _ _ _ _ St1)).
  assert (Cl3 : b ∈ P \/ b_data (bufat bp s3) = dget (disk s1) b) by exact Cl2.
  assert (D3 : disk s3 = disk s1) by (exact (fstep_disk _ _ S2)). clearbody s3.
  wp_step. eapply (wp_fx_release s3 s1); [done|done|done|].
  intros s4 S4 I4 L4 F4 _ C4. wp_step. apply wp_upd. set (s5 := set_inodes _ s4).
  assert (E4 : inodeat k s4 = inodeat k s3) by (unfold inodeat; by rewrite I4).
  assert (Hk4 : (k < length (inodes s4))%nat) by (by rewrite I4, T3).
  assert (E5 : inodeat k s5 = set_i_lock lk (full C v (inodeat k s))).
  { unfold s5. rewrite inodeat_alter, decide_True, E4, E3 by done. done. }
  wp_step. apply wp_get. rewrite E5. rewrite (proj2 (Z.eqb_neq _ _)) by exact Hty. wp_step.
  split_and!; [|intros j Hj; unfold s5; rewrite inodeat_alter, decide_False by done;
    unfold inodeat at 1; rewrite I4; by apply O3|done].
  split.
  - eapply fstep_trans; [exact S3|]. eapply fstep_trans; [exact S4|]. apply fstep_inodes.
  - change (log s4 = log s). congruence.
  - by apply fx_inodes.
  - intros b'. change (bcontent s4 b' = C b'). by rewrite C4, C3.
  - unfold s5. cbn. by rewrite length_alter, I4.
Qed.

(** ** [iunlock] *)

Lemma wp_iunlock s me P k :
  fx s me P [] -> ilocks s -> (k < length (inodes s))%nat -> 0 < i_ref (inodeat k s) ->
  i_lock (inodeat k s) = SleepLock true (p_pid (procat me s)) ->
  wp (iunlock k) (fun _ s' => still s me P s' /\ (forall j, j <> k -> inodeat j s' = inodeat j s) /\
    inodeat k s' = set_i_lock (SleepLock false 0) (inodeat k s)) s.
Proof.
  intros F [Hlt Hli] Hk Href Hl. unfold iunlock. wp_step.
  eapply wp_holdingsleep; [apply inode_sl_ok|by eapply fx_running|apply Hli|]. cbn [inode_sl sl_get]. rewrite Hl. cbn [sl_locked sl_pid andb].
  rewrite Z.eqb_refl. wp_step. apply wp_get. rewrite (proj2 (Z.ltb_ge _ _)) by lia. cbn [negb orb].
  eapply wp_releasesleep; [apply inode_sl_ok|by eapply fx_running|apply Hli|done|].
  cbn [inode_sl sl_set sl_chan]. set (s1 := set_inodes _ s). set (ps := woken _ _ _ _ _).
  assert (Sp : same_procs s1 (set_procs ps s1)).
  { split; [apply length_woken|]. intros j. unfold procat. apply woken_psim. }
  assert (St1 : still s me P s1) by (apply still_inodes; [done|by rewrite length_alter]).
  split_and!.
  - eapply still_trans; [exact St1|]. apply still_procs; [done|apply St1].
  - intros j Hj. change (inodeat j s1 = inodeat j s). unfold s1. by rewrite inodeat_alter, decide_False by done.
  - change (inodeat k s1 = set_i_lock (SleepLock false 0) (inodeat k s)). unfold s1. by rewrite inodeat_alter, decide_True by done.
Qed.

(** ** The cache *)

Lemma inodeat_beyond s k : (length (inodes s) <= k)%nat -> inodeat k s = inode0.
Proof. intros H. unfold inodeat. rewrite list_lookup_total_alt, lookup_ge_None_2 by done. done. Qed.

Lemma ref_lt s k : 0 < i_ref (inodeat k s) -> (k < length (inodes s))%nat.
Proof. intros H. destruct (Nat.lt_ge_cases k (length (inodes s))); [done|]. by rewrite inodeat_beyond in H. Qed.

(** Which inode each entry in use refers to, and how often. *)
Definition same_entries (s s' : kst) : Prop :=
  forall k, i_ref (inodeat k s') = i_ref (inodeat k s) /\ i_inum (inodeat k s') = i_inum (inodeat k s).

Lemma icache_ext s C C' v T pid o : (forall b, C' b = C b) -> icache s C v T pid o -> icache s C' v T pid o.
Proof. intros H [R T' V Lk]. split; [done|done| |done]. intros k. rewrite (full_ext C C') by done. apply V. Qed.

Lemma icache_inodes s s' C v T pid o :
  (forall k, inodeat k s' = inodeat k s) -> icache s C v T pid o -> icache s' C v T pid o.
Proof. intros E [A1 A2 A3 A4]. split; intros k; rewrite E; [apply A1|apply A2|apply A3|apply A4]. Qed.

Lemma full_lock C v l ip : full C v (set_i_lock l ip) = set_i_lock l (full C v ip).
Proof. done. Qed.
Lemma full_ref C v r ip : full C v (set_i_ref r ip) = set_i_ref r (full C v ip).
Proof. done. Qed.

Lemma wp_ilock s me P T k :
  let v := sb s in let C := bcontent s in let pid := p_pid (procat me s) in
  fx s me P [] -> geom v (log s) -> ilocks s -> icache s C v T pid None -> tree_ok C v T -> room P [] 0 ->
  0 < i_ref (inodeat k s) ->
  wp (ilock k) (fun _ s' => still s me P s' /\ icache s' C v T pid (Some k) /\ same_entries s s') s.
Proof.
  intros v C pid F G Li I Tr Hr Href. pose proof (ref_lt _ _ Href) as Hk.
  eapply wp_mono; [by apply (wp_ilock_entry s me P T pid k)|]. fold v C pid. intros [] s' (St & O & E).
  destruct (ic_tree _ _ _ _ _ _ I k Href) as [Hdev HT].
  split_and!; [done| |].
  - split; intros j; destruct (decide (j = k)) as [->|Hj].
    + rewrite E. cbn. lia.
    + rewrite O by done. apply I.
    + rewrite E. cbn. done.
    + rewrite O by done. apply I.
    + rewrite E. done.
    + rewrite O by done. apply I.
    + rewrite decide_True by done. rewrite E. cbn. done.
    + rewrite decide_False by congruence. rewrite O by done. apply (ic_lock _ _ _ _ _ _ I j).
  - intros j. destruct (decide (j = k)) as [->|Hj]; [by rewrite E|by rewrite O].
Qed.

Lemma wp_iunlock_cache s me P C v T k :
  let pid := p_pid (procat me s) in
  fx s me P [] -> ilocks s -> icache s C v T pid (Some k) ->
  wp (iunlock k) (fun _ s' => still s me P s' /\ icache s' C v T pid None /\ same_entries s s' /\
    inodeat k s' = set_i_lock (SleepLock false 0) (inodeat k s)) s.
Proof.
  intros pid F Li I. pose proof (ic_lock _ _ _ _ _ _ I k) as Hl. rewrite decide_True in Hl by done.
  destruct Hl as (Hl & Hv & Href). pose proof (ref_lt _ _ Href) as Hk.
  eapply wp_mono; [by apply (wp_iunlock s me P k)|]. intros [] s' (St & O & E). split_and!; [done| | |done].
  - split; intros j; (destruct (decide (j = k)) as [->|Hj]; [rewrite E|rewrite O by done]).
    + apply I.
    + apply I.
    + apply I.
    + apply I.
    + intros ? ?. rewrite full_lock. f_equal. by apply (ic_valid _ _ _ _ _ _ I).
    + apply I.
    + by rewrite decide_False by done.
    + rewrite decide_False by done. pose proof (ic_lock _ _ _ _ _ _ I j) as Hj'. by rewrite decide_False in Hj' by congruence.
  - intros j. destruct (decide (j = k)) as [->|Hj]; [by rewrite E|by rewrite O].
Qed.

(** [iput] of an inode of the tree, which has links, only drops the reference. *)
Lemma wp_iput_cache s me P C v T pid k :
  fx s me P [] -> ilocks s -> tree_ok C v T -> icache s C v T pid None -> 0 < i_ref (inodeat k s) ->
  wp (iput k) (fun _ s' => still s me P s' /\ icache s' C v T pid None /\
    forall j, i_inum (inodeat j s') = i_inum (inodeat j s) /\
      i_ref (inodeat j s') = i_ref (inodeat j s) - (if decide (j = k) then 1 else 0)) s.
Proof.
  intros F Li Tr I Href. pose proof (ref_lt _ _ Href) as Hk. destruct (ic_tree _ _ _ _ _ _ I k Href) as [Hdev HT].
  eapply wp_mono; [apply wp_iput_drop; [apply Li|]|].
  { destruct (i_valid (inodeat k s)) eqn:Ev; [|by rewrite andb_false_r].
    rewrite (ic_valid _ _ _ _ _ _ I k Href Ev). destruct (full_type C v T (inodeat k s) Tr Hdev HT) as [_ Hn].
    rewrite (proj2 (Z.eqb_neq (i_nlink _) 0)) by done. by rewrite andb_false_r. }
  intros [] s' ->. set (f := fun ip : inode => set_i_ref (i_ref ip - 1) ip).
  assert (E : forall j, inodeat j (set_inodes (alter f k (inodes s)) s) = if decide (k = j) then f (inodeat k s) else inodeat j s).
  { intros j. by apply inodeat_alter. }
  split_and!; [apply still_inodes; [done|by rewrite length_alter]| |].
  - split; intros j; rewrite E; (destruct (decide (k = j)) as [<-|Hj]; [cbn|apply I]).
    + lia.
    + intros _. done.
    + intros _ Hv. unfold f. rewrite full_ref. f_equal. by apply (ic_valid _ _ _ _ _ _ I).
    + rewrite decide_False by done. exact (ic_lock _ _ _ _ _ _ I k).
  - intros j. rewrite E. destruct (decide (k = j)) as [<-|Hj]; cbn.
    + by rewrite decide_True by done.
    + rewrite decide_False by congruence. split; [done|lia].
Qed.

Lemma still_pid s me P s' : still s me P s' -> p_pid (procat me s') = p_pid (procat me s).
Proof. intros St. apply same_pid, (fs_procs _ _ (st_step _ _ _ _ St)). Qed.

Lemma wp_iunlockput s me P C v T k :
  let pid := p_pid (procat me s) in
  fx s me P [] -> ilocks s -> tree_ok C v T -> icache s C v T pid (Some k) ->
  wp (iunlockput k) (fun _ s' => still s me P s' /\ icache s' C v T pid None /\
    forall j, i_inum (inodeat j s') = i_inum (inodeat j s) /\
      i_ref (inodeat j s') = i_ref (inodeat j s) - (if decide (j = k) then 1 else 0)) s.
Proof.
  intros pid F Li Tr I. pose proof (ic_lock _ _ _ _ _ _ I k) as Hl. rewrite decide_True in Hl by done.
  destruct Hl as (Hl & Hv & Href). unfold iunlockput. wp_step.
  eapply wp_mono; [by apply (wp_iunlock_cache s me P C v T k)|]. intros [] s1 (St1 & I1 & Se & _).
  eapply wp_mono; [apply (wp_iput_cache s1 me P C v T pid k); [apply St1|by eapply ilocks_still|done|done|]|].
  - by rewrite (proj1 (Se k)).
  - intros [] s2 (St2 & I2 & H). split_and!; [by eapply still_trans|done|]. intros j.
    destruct (H j) as [-> ->], (Se j) as [-> ->]. done.
Qed.

Lemma wp_idup_cache s me P C v T pid k :
  fx s me P [] -> ilocks s -> icache s C v T pid None -> 0 < i_ref (inodeat k s) ->
  wp (idup k) (fun r s' => r = k /\ still s me P s' /\ icache s' C v T pid None /\
    forall j, i_ref (inodeat j s') = i_ref (inodeat j s) + (if decide (j = k) then 1 else 0) /\
      i_inum (inodeat j s') = i_inum (inodeat j s)) s.
Proof.
  intros F [Hlt _] I Href. pose proof (ref_lt _ _ Href) as Hk. set (f := fun ip : inode => set_i_ref (i_ref ip + 1) ip).
  assert (H : idup k s = Ok k (set_inodes (alter f k (inodes s)) s)).
  { apply wp_ok_eq. unfold idup. wp_step. apply wp_acquire; [done|]. wp_step. apply wp_upd. wp_step.
    eapply wp_release; [done|done|]. wp_step. split; [done|]. by destruct s. }
  unfold wp. rewrite H. split; [done|].
  assert (E : forall j, inodeat j (set_inodes (alter f k (inodes s)) s) = if decide (k = j) then f (inodeat k s) else inodeat j s).
  { intros j. by apply inodeat_alter. }
  split; [apply still_inodes; [done|by rewrite length_alter]|]. split.
  - split; intros j; rewrite E; (destruct (decide (k = j)) as [<-|Hne]; [cbn|apply I]).
    + lia.
    + intros _. by apply I.
    + intros _ Hv. unfold f. rewrite full_ref. f_equal. by apply (ic_valid _ _ _ _ _ _ I).
    + rewrite decide_False by done. exact (ic_lock _ _ _ _ _ _ I k).
  - intros j. rewrite E. destruct (decide (k = j)) as [<-|Hne]; cbn; [by rewrite decide_True by done|].
    rewrite decide_False by congruence. split; [lia|done].
Qed.

(** A new reference. *)
Lemma igot_cache s C v T pid o n j s' :
  icache s C v T pid o -> T n -> igot s ROOTDEV n j s' ->
  icache s' C v T pid o /\ 0 < i_ref (inodeat j s') /\ i_inum (inodeat j s') = n /\
  (forall k, i_ref (inodeat k s') = i_ref (inodeat k s) + (if decide (k = j) then 1 else 0)) /\
  (forall k, 0 < i_ref (inodeat k s) -> i_inum (inodeat k s') = i_inum (inodeat k s)).
Proof.
  intros I HT [Hlt Hst Hlen O Ent]. cbv zeta in Ent. pose proof (ic_lock _ _ _ _ _ _ I j) as Lj.
  assert (Hj : 0 < i_ref (inodeat j s') /\ i_inum (inodeat j s') = n /\ i_dev (inodeat j s') = ROOTDEV /\
    i_ref (inodeat j s') = i_ref (inodeat j s) + 1 /\ (0 < i_ref (inodeat j s) -> i_inum (inodeat j s') = i_inum (inodeat j s)) /\
    i_lock (inodeat j s') = i_lock (inodeat j s) /\
    (i_valid (inodeat j s') = true -> inodeat j s' = full C v (inodeat j s')) /\
    (i_valid (inodeat j s) = true -> 0 < i_ref (inodeat j s) -> i_valid (inodeat j s') = true)).
  { destruct Ent as [[(H1 & H2 & H3) ->]|(H1 & _ & ->)]; cbn; split_and!; try done; try lia.
    intros Hv. rewrite full_ref. f_equal. by apply (ic_valid _ _ _ _ _ _ I). }
  destruct Hj as (J1 & J2 & J3 & J4 & J5 & J6 & J7 & J8). split_and!; [|done|done| |].
  - split; intros k; (destruct (decide (k = j)) as [->|Hk]; [|rewrite O by done; apply I]).
    + lia.
    + by rewrite J2.
    + done.
    + destruct (decide (o = Some j)); rewrite J6; [|done]. destruct Lj as (? & ? & ?). split_and!; auto.
  - intros k. destruct (decide (k = j)) as [->|E]; [done|]. rewrite O by done. lia.
  - intros k Hk. destruct (decide (k = j)) as [->|E]; [by apply J5|by rewrite O].
Qed.

(** ** Paths *)

(** The inode that the names [cs] lead to from inode [n]; with [np], the one that holds the
    last of them. *)
Fixpoint resolve C v (n : Z) (cs : list (list Z)) (np : bool) : option Z :=
  match cs with
  | [] => if np then None else Some n
  | c :: cs' =>
      let ip := dinode C v n in
      if negb (i_type ip =? T_DIR) then None
      else if np && bool_decide (cs' = []) then Some n
      else match dfind (fname c) (dir C ip) 0 with
           | Some (_, n') => resolve C v n' cs' np
           | None => None
           end
  end.

Lemma resolve_ext C C' v n cs np : (forall b, C' b = C b) -> resolve C' v n cs np = resolve C v n cs np.
Proof.
  intros Cs. revert n. induction cs as [|c cs IH]; intros n; cbn [resolve]; [done|].
  assert (dinode C' v n = dinode C v n) as -> by (by apply full_ext). rewrite (dir_ext C) by done.
  destruct (negb _); [done|]. destruct (_ && _); [done|]. destruct (dfind _ _ _) as [[? ?]|]; [apply IH|done].
Qed.

Section Walk.
Context (s0 : kst) (me : nat) (P : list Z) (T : Z -> Prop) (R : nat -> Z).
Let C := bcontent s0.
Let v := sb s0.
Let pid := p_pid (procat me s0).
Context (G : geom v (log s0)) (M : meta_used v C) (Li : ilocks s0) (Tr : tree_ok C v T).
Context (Hr : room P [] 0).

(** The references are those of [R], and one more to entry [o]. *)
Record walking (s : kst) (o : option nat) : Prop := {
  wk_still : still s0 me P s;
  wk_cache : icache s C v T pid None;
  wk_refs k : i_ref (inodeat k s) = R k + (if decide (o = Some k) then 1 else 0)
}.

(** Two entries are free, so that one is while the walk holds a reference. *)
Context (R0 : forall k, 0 <= R k).
Context (Hfree : exists k1 k2, k1 <> k2 /\ (k1 < length (inodes s0))%nat /\ (k2 < length (inodes s0))%nat /\ R k1 = 0 /\ R k2 = 0).

Lemma free_entry s j dev n :
  length (inodes s) = length (inodes s0) ->
  (forall k, k <> j -> i_ref (inodeat k s) = R k) -> iroom s dev n.
Proof.
  intros Hl Href. destruct Hfree as (k1 & k2 & Hne & H1 & H2 & E1 & E2).
  assert (exists k, k <> j /\ (k < length (inodes s0))%nat /\ R k = 0) as (k & Hk & Hlt & E).
  { destruct (decide (k1 = j)) as [<-|]; [exists k2|exists k1]; done. }
  rewrite <- Hl in Hlt. destruct (lookup_lt_is_Some_2 _ _ Hlt) as [ip Hip]. exists ip. split; [by eapply list_elem_of_lookup_2|].
  right. rewrite <- (lookup_inodeat _ _ _ Hip). by rewrite Href.
Qed.

Lemma still_data s : still s0 me P s ->
  sb s = v /\ geom v (log s) /\ meta_used v (bcontent s) /\ ilocks s /\ p_pid (procat me s) = pid /\ fx s me P [].
Proof.
  intros St. split_and!.
  - apply (fstep_sb _ _ (st_step _ _ _ _ St)).
  - by rewrite (st_log _ _ _ _ St).
  - intros b Hb. rewrite (used_ext v C) by apply St. by apply M.
  - by eapply ilocks_still.
  - by eapply still_pid.
  - apply St.
Qed.

(** An inode of the tree, locked, is the one on disk. *)
Lemma locked_file s j :
  still s0 me P s -> icache s C v T pid (Some j) ->
  let n := i_inum (inodeat j s) in
  fctx s me P [] j /\ T n /\ 0 < i_ref (inodeat j s) /\
  inodeat j s = set_i_lock (i_lock (inodeat j s)) (set_i_ref (i_ref (inodeat j s)) (dinode C v n)).
Proof.
  intros St I n. destruct (still_data s St) as (Ev & Gs & Ms & Ls & _ & Fs).
  pose proof (ic_lock _ _ _ _ _ _ I j) as Hl. rewrite decide_True in Hl by done. destruct Hl as (Hl & Hv & Href).
  destruct (ic_tree _ _ _ _ _ _ I j Href) as [Hdev HT]. pose proof (ic_valid _ _ _ _ _ _ I j Href Hv) as E.
  rewrite full_content in E by done. fold n in E.
  assert (Wf : file_wf v C (inodeat j s)) by (rewrite E; destruct (tr_file _ _ _ Tr n HT); by split).
  assert (Cs : forall b, bcontent s b = C b) by apply St. split_and!; [|done|done|done].
  split; rewrite ?Ev; try done.
  - intros b Hb. by apply elem_of_nil in Hb.
  - by apply ref_lt.
  - by eapply file_wf_eq.
Qed.

(** A directory of the tree, locked. *)
Lemma locked_dir s j :
  still s0 me P s -> icache s C v T pid (Some j) -> i_type (dinode C v (i_inum (inodeat j s))) = T_DIR ->
  dctx s me P j /\ dir (bcontent s) (inodeat j s) = dir C (dinode C v (i_inum (inodeat j s))).
Proof.
  intros St I Hty. destruct (locked_file s j St I) as (F & HT & Hrf & E). destruct (still_data s St) as (_ & _ & _ & Ls & _).
  assert (Wd : dir_wf C (inodeat j s)) by (rewrite E; destruct (tr_dir _ _ _ Tr _ HT Hty); by split).
  assert (Cs : forall b, bcontent s b = C b) by apply St. split.
  - split; [done|by eapply dir_wf_ext|done|apply Ls].
  - rewrite (dir_ext C) by done. rewrite E at 1. done.
Qed.

Lemma locked_type s j :
  icache s C v T pid (Some j) -> i_type (inodeat j s) = i_type (dinode C v (i_inum (inodeat j s))).
Proof.
  intros I. pose proof (ic_lock _ _ _ _ _ _ I j) as Hl. rewrite decide_True in Hl by done. destruct Hl as (Hl & Hv & Href).
  destruct (ic_tree _ _ _ _ _ _ I j Href) as [Hdev _]. pose proof (ic_valid _ _ _ _ _ _ I j Href Hv) as E.
  rewrite full_content in E by done. rewrite E at 1. done.
Qed.

Lemma walking_icache s o : walking s o -> icache s (bcontent s) (sb s) T (p_pid (procat me s)) None.
Proof.
  intros [St I _]. destruct (still_data s St) as (-> & _ & _ & _ & -> & _).
  eapply icache_ext; [|exact I]. apply St.
Qed.
Lemma walking_tree s o : walking s o -> tree_ok (bcontent s) (sb s) T.
Proof.
  intros [St _ _]. destruct (still_data s St) as (-> & _). eapply tree_ok_ext; [|exact Tr]. apply St.
Qed.

(** What a walk that the specification answers with [x] returns. *)
Definition walked (x : option Z) (r : option nat) (s : kst) : Prop :=
  match x with
  | Some n => exists j, r = Some j /\ walking s (Some j) /\ i_inum (inodeat j s) = n
  | None => r = None /\ walking s None
  end.

Lemma walk_unlockput s j :
  still s0 me P s -> icache s C v T pid (Some j) -> (forall k, i_ref (inodeat k s) = R k + (if decide (Some j = Some k) then 1 else 0)) ->
  wp (iunlockput j) (fun _ s' => walking s' None) s.
Proof.
  intros St I Href. destruct (still_data s St) as (_ & _ & _ & Ls & Ep & Fs).
  pose proof (wp_iunlockput s me P C v T j) as H. cbv zeta in H. rewrite Ep in H.
  eapply wp_mono; [by apply H|]. intros [] s' (St' & I' & H'). split; [by eapply still_trans|done|].
  intros k. rewrite (proj2 (H' k)), Href. repeat case_decide; try lia; congruence.
Qed.

Lemma wp_walk_names cs np : forall s j name,
  walking s (Some j) -> Forall bytes cs ->
  wp (walk_names j cs np name) (fun '(r, nm) s' =>
    walked (resolve C v (i_inum (inodeat j s)) cs np) r s' /\
    (np = true -> r <> None -> last cs = Some nm)) s.
Proof.
  induction cs as [|c cs IH]; intros s j name W Hcs; cbn [walk_names resolve].
  - destruct np.
    + destruct W as [St I Href]. destruct (still_data s St) as (_ & _ & _ & Ls & Ep & Fs).
      wp_step. eapply wp_mono; [apply (wp_iput_cache s me P C v T pid j); [done|done|done|done|]|].
      { rewrite Href, decide_True by done. specialize (R0 j). lia. }
      intros [] s' (St' & I' & H'). wp_step. split; [|done]. split; [done|]. split; [by eapply still_trans|done|].
      intros k. rewrite (proj2 (H' k)), Href. repeat case_decide; try lia; congruence.
    + wp_step. split; [|done]. by exists j.
  - inversion Hcs as [|? ? Hc Hcs']; subst. pose proof W as [St I Href].
    destruct (still_data s St) as (Ev & Gs & Ms & Ls & Ep & Fs).
    pose proof (wp_ilock s me P T j) as Hil. cbv zeta in Hil. rewrite Ev, Ep in Hil.
    pose proof (walking_icache s _ W) as Iw. rewrite Ev, Ep in Iw. pose proof (walking_tree s _ W) as Tw. rewrite Ev in Tw.
    wp_step. eapply wp_mono; [apply Hil; try done|].
    { rewrite Href, decide_True by done. specialize (R0 j). lia. }
    intros [] s1 (St1 & I1 & Se). clear Hil.
    assert (Cs : forall b, C b = bcontent s b) by (intros; symmetry; apply St).
    apply (icache_ext _ _ C) in I1; [|exact Cs].
    assert (St01 : still s0 me P s1) by (by eapply still_trans).
    assert (Href1 : forall k, i_ref (inodeat k s1) = R k + (if decide (Some j = Some k) then 1 else 0)).
    { intros k. by rewrite (proj1 (Se k)). }
    pose proof (proj2 (Se j)) as En. wp_step. apply wp_get. rewrite (locked_type s1 j I1), En.
    set (n := i_inum (inodeat j s)) in *.
    destruct (Z.eqb_spec (i_type (dinode C v n)) T_DIR) as [Hty|Hty]; cbn [negb].
    2: { wp_step. eapply wp_mono; [by apply walk_unlockput|]. intros [] s2 W2. wp_step. done. }
    destruct (np && bool_decide (cs = [])) eqn:Enp.
    { destruct (still_data s1 St01) as (_ & _ & _ & Ls1 & Ep1 & Fs1).
      pose proof (wp_iunlock_cache s1 me P C v T j) as Hul. cbv zeta in Hul. rewrite Ep1 in Hul.
      wp_step. eapply wp_mono; [by apply Hul|]. intros [] s2 (St2 & I2 & Se2 & _). wp_step.
      apply andb_prop in Enp as [-> ->%bool_decide_eq_true]. split; [|done]. exists j. split_and!; [done| |].
      - split; [by eapply still_trans|done|]. intros k. by rewrite (proj1 (Se2 k)).
      - by rewrite (proj2 (Se2 j)). }
    destruct (locked_dir s1 j St01 I1) as [Hd HD]; [by rewrite En|]. rewrite En in HD. fold n in HD.
    assert (HT : T n).
    { pose proof (ic_lock _ _ _ _ _ _ I1 j) as Hl. rewrite decide_True in Hl by done. destruct Hl as (_ & _ & Hrf).
      rewrite <- En. by apply (ic_tree _ _ _ _ _ _ I1 j). }
    wp_step. eapply wp_mono; [apply (wp_dirlookup s1 me P j c); try done|].
    { intros k n' _. apply (free_entry s1 j); [by rewrite (st_table _ _ _ _ St01)|].
      intros k' Hk'. rewrite Href1, decide_False by congruence. lia. }
    rewrite HD. intros x s2. destruct (dfind (fname c) (dir C (dinode C v n)) 0) as [[kk n']|] eqn:Ef; cbn [dlooked].
    + intros (j2 & s1' & -> & U & Got). pose proof (unchanged_still _ _ _ _ _ U) as StU.
      assert (HT' : T n').
      { apply dfind_lookup in Ef as [_ Ef]. by eapply Tr. }
      assert (I1' : icache s1' C v T pid (Some j)).
      { eapply icache_inodes; [|exact I1]. intros k. by eapply unchanged_inode. }
      destruct (igot_cache _ _ _ _ _ _ _ _ _ I1' HT' Got) as (I2 & Hr2 & En2 & Href2 & Hin2).
      assert (St2 : still s0 me P s2).
      { eapply still_trans; [eapply still_trans; [exact St01|exact StU]|]. rewrite (ig_state _ _ _ _ _ Got).
        apply still_inodes; [apply StU|apply Got]. }
      destruct (still_data s2 St2) as (_ & _ & _ & Ls2 & Ep2 & Fs2).
      pose proof (wp_iunlockput s2 me P C v T j) as H. cbv zeta in H. rewrite Ep2 in H.
      wp_step. eapply wp_mono; [by apply H|]. intros [] s3 (St3 & I3 & H3).
      assert (W3 : walking s3 (Some j2)).
      { split; [by eapply still_trans|done|]. intros k. rewrite (proj2 (H3 k)), Href2, (unchanged_inode _ _ _ _ _ k U), Href1.
        repeat case_decide; try lia; congruence. }
      eapply wp_mono; [by apply (IH s3 j2 c)|]. intros [r nm] s4 [W4 Hnm].
      rewrite (proj1 (H3 j2)), En2 in W4. split; [done|]. intros -> Hr4. specialize (Hnm eq_refl Hr4).
      destruct cs; [by destruct r|done].
    + intros [-> U]. pose proof (unchanged_still _ _ _ _ _ U) as StU. wp_step.
      eapply wp_mono; [apply walk_unlockput; [by eapply still_trans| |]|].
      * eapply icache_inodes; [|exact I1]. intros k. by eapply unchanged_inode.
      * intros k. by rewrite (unchanged_inode _ _ _ _ _ k U).
      * intros [] s3 W3. wp_step. done.
Qed.
End Walk.
End Inodes.
