(* ===== verification/NameThms.v ===== *)
(** Directories, and path resolution from the names to the inodes on disk. *)
From S2P Require Import Prelude Types Str Kalloc Vm Sched Sleeplock Bio BioSess Uart Printf Log LogSpec Crash LogOps Fs.
From S2P Require Import FsBlk FsFile FsWrite Sysfile Dirs PathThms Inodes Concrete FsThms.

Section Thms.
Context {L : Linker}.

Lemma before_nul_bytes l : bytes l -> bytes (before_nul l).
Proof. induction 1 as [|x l Hx Hl IH]; cbn; [by constructor|]. destruct (_ =? _); by constructor. Qed.

Lemma split_bytes l : bytes l -> Forall bytes (split l).
Proof.
  induction 1 as [|x l Hx Hl IH]; cbn; [by apply Forall_singleton, Forall_nil|].
  destruct (_ =? _); [constructor; [by apply Forall_nil|done]|].
  destruct (split l) as [|w ws]; [by apply Forall_singleton, Forall_singleton|]. inversion IH; subst. constructor; [by constructor|done].
Qed.

Lemma components_bytes path : bytes path -> Forall bytes (components path).
Proof.
  intros H. unfold components, words. apply Forall_fmap, Forall_forall. intros w Hw.
  apply list_elem_of_In, filter_In in Hw as [Hw%list_elem_of_In _].
  pose proof (split_bytes _ (before_nul_bytes _ H)) as Hs. rewrite Forall_forall in Hs. apply Forall_take. by apply Hs.
Qed.

Lemma wp_eq_at {A} (c c' : M A) Q s : c s = c' s -> wp c' Q s -> wp c Q s.
Proof. unfold wp. by intros ->. Qed.

Lemma wp_namex s me (P : list Z) (T : Z -> Prop) path np cwd :
  let C := bcontent s in let v := sb s in let pid := p_pid (procat me s) in
  fx s me P [] -> geom v (log s) -> meta_used v C -> ilocks s -> room P [] 0 ->
  tree_ok C v T -> icache s C v T pid None -> T ROOTINO -> bytes path ->
  (exists k1 k2, k1 <> k2 /\ (k1 < length (inodes s))%nat /\ (k2 < length (inodes s))%nat /\
     i_ref (inodeat k1 s) = 0 /\ i_ref (inodeat k2 s) = 0) ->
  (ch path 0 <> SLASH -> p_cwd (procat me s) = Some cwd /\ 0 < i_ref (inodeat cwd s)) ->
  let start := if ch path 0 =? SLASH then ROOTINO else i_inum (inodeat cwd s) in
  wp (namex path np) (fun '(r, nm) s' =>
    still s me P s' /\ icache s' C v T pid None /\
    match resolve C v start (components path) np with
    | Some n => exists j, r = Some j /\ i_inum (inodeat j s') = n /\
        forall k, i_ref (inodeat k s') = i_ref (inodeat k s) + (if decide (k = j) then 1 else 0)
    | None => r = None /\ forall k, i_ref (inodeat k s') = i_ref (inodeat k s)
    end /\ (np = true -> r <> None -> last (components path) = Some nm)) s.
Proof.
  intros C v pid F G M Li Hr Tr I HT Hb Hfree Hcwd start. eapply wp_eq_at; [apply namex_components|].
  set (R := fun k => i_ref (inodeat k s)).
  assert (Hgo : forall s1 j, walking s me P T R s1 (Some j) -> i_inum (inodeat j s1) = start ->
    wp (walk_names j (components path) np []) (fun '(r, nm) s' =>
      still s me P s' /\ icache s' C v T pid None /\
      match resolve C v start (components path) np with
      | Some n => exists j, r = Some j /\ i_inum (inodeat j s') = n /\
          forall k, i_ref (inodeat k s') = i_ref (inodeat k s) + (if decide (k = j) then 1 else 0)
      | None => r = None /\ forall k, i_ref (inodeat k s') = i_ref (inodeat k s)
      end /\ (np = true -> r <> None -> last (components path) = Some nm)) s1).
  { intros s1 j W E. eapply wp_mono.
    - apply (wp_walk_names s me P T R); try done; [intros k; apply I|by apply components_bytes].
    - fold C v. rewrite E. intros [r nm] s' [Wd Hn]. unfold walked in Wd.
      destruct (resolve C v start (components path) np) as [n|].
      + destruct Wd as (j' & -> & [St I' Hrf] & En). split_and!; [done|done| |done]. exists j'. split_and!; [done|done|].
        intros k. rewrite Hrf. unfold R. repeat case_decide; congruence || lia.
      + destruct Wd as (-> & [St I' Hrf]). split_and!; [done|done|done| |done].
        intros k. rewrite Hrf, decide_False by done. unfold R. lia. }
  wp_step. unfold start in Hgo. destruct (Z.eqb_spec (ch path 0) SLASH) as [Eq|Eq].
  - eapply wp_mono; [apply wp_iget; [apply Li|]|].
    + destruct Hfree as (k1 & _ & _ & Hk & _ & Hr1 & _). destruct (lookup_lt_is_Some_2 _ _ Hk) as [ip Hip].
      exists ip. split; [by eapply list_elem_of_lookup_2|]. right. by rewrite <- (lookup_inodeat _ _ _ Hip).
    + intros j s1 Got. destruct (igot_cache _ _ _ _ _ _ _ _ _ I HT Got) as (I1 & Hr1 & En & Hrf & _).
      apply Hgo; [|done]. split; [|done|].
      * rewrite (ig_state _ _ _ _ _ Got). apply still_inodes; [done|apply Got].
      * intros k. rewrite Hrf. unfold R. repeat case_decide; congruence || lia.
  - destruct (Hcwd Eq) as [Ec Hrc]. pose proof (fx_running _ _ _ _ F) as [Hcur Hp _].
    wp_step. eapply wp_myproc_; [done|]. wp_step. apply wp_get. rewrite Ec. wp_step. eapply wp_deref; [done|].
    eapply wp_mono; [by apply (wp_idup_cache s me P C v T pid cwd)|].
    intros j s1 (-> & St & I1 & H). apply Hgo; [|apply H]. split; [done|done|].
    intros k. rewrite (proj1 (H k)). unfold R. repeat case_decide; congruence || lia.
Qed.

(** C12: [namex] resolves a path to the inode that the directories on disk give for its
    components, starting at the root or the current directory: it returns a reference to
    that inode, or nothing exactly when a component is missing or an inner one is not a
    directory.  With [nameiparent] it stops at the directory of the last component and
    returns its name.  Every reference and every lock taken on the way is given back, on
    the failing branches too: the counts of all entries are as before, but for one more
    reference to the entry returned.  No block changes, and the entries of the table keep
    agreeing with the disk. *)
Theorem namex_correct s me (P : list Z) (T : Z -> Prop) path np cwd :
  let C := bcontent s in let v := sb s in let pid := p_pid (procat me s) in
  fx s me P [] -> geom v (log s) -> meta_used v C -> ilocks s -> room P [] 0 ->
  tree_ok C v T -> icache s C v T pid None -> T ROOTINO -> bytes path ->
  (exists k1 k2, k1 <> k2 /\ (k1 < length (inodes s))%nat /\ (k2 < length (inodes s))%nat /\
     i_ref (inodeat k1 s) = 0 /\ i_ref (inodeat k2 s) = 0) ->
  (ch path 0 <> SLASH -> p_cwd (procat me s) = Some cwd /\ 0 < i_ref (inodeat cwd s)) ->
  let start := if ch path 0 =? SLASH then ROOTINO else i_inum (inodeat cwd s) in
  wp (namex path np) (fun '(r, nm) s' =>
    still s me P s' /\ icache s' C v T pid None /\
    match resolve C v start (components path) np with
    | Some n => exists j, r = Some j /\ i_inum (inodeat j s') = n /\
        forall k, i_ref (inodeat k s') = i_ref (inodeat k s) + (if decide (k = j) then 1 else 0)
    | None => r = None /\ forall k, i_ref (inodeat k s') = i_ref (inodeat k s)
    end /\ (np = true -> r <> None -> last (components path) = Some nm)) s.
Proof. apply wp_namex. Qed.
End Thms.

(** ** A disk with a root directory

    The root directory, inode 1, has the entries [.], [..] and [init]; the last is inode 2,
    an empty file.  The table of inodes is empty. *)

Definition root_dirents : list Z :=
  mk_dirent 1 (lit ".") ++ mk_dirent 1 (lit "..") ++ mk_dirent 2 (lit "init") ++ replicate 976 0.
Definition root_inode : inode :=
  Inode ROOTDEV 1 0 (SleepLock false 0) false T_DIR 0 0 1 48 (46 :: replicate 12 0).
Definition init_inode : inode :=
  Inode ROOTDEV 2 0 (SleepLock false 0) false T_FILE 0 0 1 0 (replicate 13 0).
Definition root_iblock : list Z :=
  put_dinode (put_dinode (replicate 1024 0) 64 root_inode) 128 init_inode.
Definition root_disk : gmap Z (list Z) :=
  {[ 32 := root_iblock; 45 := replicate 5 255 ++ 127 :: replicate 1018 0; 46 := root_dirents ]}.
Definition root_boot : kst := boot root_disk [inode0; inode0; inode0].
Definition root_tree (n : Z) : Prop := n = 1 \/ n = 2.

Lemma root_len b : length (dget root_disk b) = 1024%nat.
Proof.
  unfold dget, root_disk. destruct (decide (b = 32)) as [->|]; [by vm_compute|].
  destruct (decide (b = 45)) as [->|]; [by vm_compute|]. destruct (decide (b = 46)) as [->|]; [by vm_compute|].
  by rewrite !lookup_insert_ne, lookup_singleton_ne.
Qed.

Lemma root_ok : fx root_boot 0 [] [] /\ geom (sb root_boot) (log root_boot) /\
  (forall b, bcontent root_boot b = dget root_disk b) /\ sb root_boot = sb0 /\
  inodes root_boot = [inode0; inode0; inode0] /\ held root_boot = [].
Proof.
  set (l := [inode0; inode0; inode0]). pose proof (boot_fields root_disk l root_len) as (_ & E2 & E3 & E4 & _).
  split_and!; [exact (boot_fx root_disk l root_len)|exact (boot_geom root_disk l root_len)| |done|done|done].
  by apply (boot_ok root_disk l root_len).
Qed.
#[local] Opaque root_boot.

Lemma root_used b : 0 <= b < 64 -> used sb0 (dget root_disk) b = (b <? 47).
Proof.
  intros Hb.
  assert (H : forallb (fun b => eqb (used sb0 (dget root_disk) b) (b <? 47)) (seqZ 0 64) = true) by (by vm_compute).
  rewrite forallb_forall in H. apply eqb_prop, H, list_elem_of_In, elem_of_seqZ. lia.
Qed.

(** The two inodes as they are on disk. *)
Lemma root_dinode :
  dinode (dget root_disk) sb0 1 = Inode ROOTDEV 1 1 (SleepLock false 0) true T_DIR 0 0 1 48 (46 :: replicate 12 0) /\
  dinode (dget root_disk) sb0 2 = Inode ROOTDEV 2 1 (SleepLock false 0) true T_FILE 0 0 1 0 (replicate 13 0).
Proof. split; by vm_compute. Qed.

Lemma root_file_wf n ty sz a : a = 0 \/ a = 46 -> 0 <= sz <= MAXFILE * BSIZE ->
  file_wf sb0 (dget root_disk) (Inode ROOTDEV n 1 (SleepLock false 0) true ty 0 0 1 sz (a :: replicate 12 0)).
Proof.
  intros Ha Hsz. set (ip := Inode _ _ _ _ _ _ _ _ _ _ _).
  assert (Hib : forall bn, 0 <= bn <= MAXFILE -> iblock (dget root_disk) ip bn = if bn =? 0 then a else 0).
  { intros bn Hb. unfold iblock. change (addr ip 12) with 0. change (0 =? 0) with true.
    destruct (Z.ltb_spec bn NDIRECT); [|rewrite (proj2 (Z.eqb_neq bn 0)) by lia; by destruct (bn =? MAXFILE)].
    unfold addr, ip. cbn [i_addrs]. destruct (Z.eqb_spec bn 0) as [->|]; [done|].
    replace (Z.to_nat bn) with (S (Z.to_nat (bn - 1))) by lia. cbn [nth]. rewrite nth_lookup.
    destruct (replicate 12 0 !! Z.to_nat (bn - 1)) eqn:E; [|done]. by apply lookup_replicate in E as [-> _]. }
  split; [done|done| | |done].
  - intros bn Hb. rewrite Hib by done. destruct (bn =? 0); [|by left]. destruct Ha as [->| ->]; [by left|right].
    split; [done|]. change (data_start sb0) with 46. split; [split; [lia|by vm_compute]|]. by rewrite root_used.
  - intros bn bn' Hb Hb'. rewrite !Hib by done. destruct (Z.eqb_spec bn 0), (Z.eqb_spec bn' 0); lia.
Qed.

Lemma root_dir :
  dir (dget root_disk) (dinode (dget root_disk) sb0 1) = [Some (lit ".", 1); Some (lit "..", 1); Some (lit "init", 2)].
Proof. by vm_compute. Qed.

Lemma root_dir_wf : dir_wf (dget root_disk) (dinode (dget root_disk) sb0 1).
Proof.
  rewrite (proj1 root_dinode). set (ip := Inode _ _ _ _ _ _ _ _ _ _ _). split; [done|done| |].
  - intros x Hx. change (i_size ip) with 48 in Hx. rewrite Z.div_small by lia. done.
  - intros x Hx. change (i_size ip) with 48 in Hx.
    assert (H : forallb (fun x => (0 <=? fbyte (dget root_disk) ip x) && (fbyte (dget root_disk) ip x <? 256)) (seqZ 0 48) = true)
      by (by vm_compute).
    rewrite forallb_forall in H. specialize (H x ltac:(apply list_elem_of_In, elem_of_seqZ; lia)).
    apply andb_prop in H as [?%Z.leb_le ?%Z.ltb_lt]. done.
Qed.

Lemma root_tree_ok : tree_ok (dget root_disk) sb0 root_tree.
Proof.
  destruct root_dinode as [E1 E2]. split.
  - intros n [->| ->]; split; by vm_compute.
  - intros n [->| ->]; [rewrite E1|rewrite E2]; done.
  - intros n [->| ->]; [rewrite E1|rewrite E2]; done.
  - intros n [->| ->]; [rewrite E1|rewrite E2].
    + apply root_file_wf; [by right|split; by vm_compute].
    + apply (root_file_wf 2 T_FILE 0 0); [by left|split; by vm_compute].
  - intros n [->| ->]; [intros _; exact root_dir_wf|]. rewrite E2. done.
  - intros n k nm n' [->| ->]; [|by rewrite E2]. intros _. rewrite root_dir.
    destruct k as [|[|[|k]]]; cbn; intros [=]; subst; [by left|by left|by right].
Qed.

Lemma namex_correct_witness :
  wp (namex (lit "/./../init") false) (fun '(r, _) s' =>
    exists j, r = Some j /\ i_inum (inodeat j s') = 2 /\ i_ref (inodeat j s') = 1 /\
      forall k, k <> j -> i_ref (inodeat k s') = 0) root_boot.
Proof.
  destruct root_ok as (F & G & Cs & Es & Ei & Eh).
  assert (Hk : forall k, inodeat k root_boot = inode0).
  { intros k. unfold inodeat. rewrite Ei. destruct k as [|[|[|k]]]; done. }
  eapply wp_mono; [apply (namex_correct root_boot 0 [] root_tree (lit "/./../init") false 0)|].
  - exact F.
  - exact G.
  - rewrite Es. intros b Hb. change (data_start sb0) with 46 in Hb. rewrite (used_ext _ (dget root_disk)) by exact Cs.
    rewrite root_used by lia. lia.
  - split; intros; rewrite Eh; apply not_elem_of_nil.
  - unfold room. cbn. lia.
  - rewrite Es. eapply tree_ok_ext; [exact Cs|exact root_tree_ok].
  - split; intros k; rewrite Hk; done.
  - by left.
  - by apply (bool_decide_unpack (bytes _)); vm_compute.
  - exists 0%nat, 1%nat. rewrite Ei, !Hk. cbn. split_and!; [done|lia|lia|done|done].
  - intros H. by destruct H.
  - rewrite Es. intros [r nm] s' (_ & _ & H & _). rewrite (resolve_ext (dget root_disk)) in H by exact Cs.
    assert (E : resolve (dget root_disk) sb0 1 (components (lit "/./../init")) false = Some 2) by (by vm_compute).
    change (ch (lit "/./../init") 0 =? SLASH) with true in H. cbv iota in H. change ROOTINO with 1 in H. rewrite E in H.
    destruct H as (j & -> & En & Hr). exists j. split_and!; [done|done| |].
    + rewrite Hr, decide_True by done. by rewrite Hk.
    + intros k Hne. rewrite Hr, decide_False by done. by rewrite Hk.
Defined.

Section Thms.
Context {L : Linker}.
Implicit Types (P : list Z) (name : list Z).

(** [dirlookup] returns, for every name and every well-formed directory, what the
    directory's slots say: nothing when no slot in use has the name, and otherwise the
    offset of the first one that has it, with a reference to the inode it names (the entry
    the inode has in the table counts one more, or a free entry has been taken for it).
    Neither the disk's contents nor the directory change. *)
Theorem dirlookup_correct s me P i name :
  let D := dir (bcontent s) (inodeat i s) in
  dctx s me P i -> room P [] 0 -> bytes name ->
  (forall k inum, dfind (fname name) D 0 = Some (k, inum) -> iroom s ROOTDEV inum) ->
  wp (dirlookup i name) (fun r s' =>
    dctx s' me P i /\ dir (bcontent s') (inodeat i s') = D /\ (forall b, bcontent s' b = bcontent s b) /\
    match dfind (fname name) D 0 with
    | None => r = None /\ inodes s' = inodes s
    | Some (k, inum) => exists j, r = Some (j, DESIZE * Z.of_nat k) /\
        is_inode ROOTDEV inum (inodeat j s') /\ i_ref (inodeat j s') = Z.max 0 (i_ref (inodeat j s)) + 1 /\
        forall j', j' <> j -> inodeat j' s' = inodeat j' s
    end) s.
Proof.
  intros D Hd Hr Hn Hroom. eapply wp_mono; [by apply (wp_dirlookup s me P i name)|]. fold D.
  intros r s'. destruct (dfind _ D 0) as [[k inum]|]; cbn [dlooked].
  - intros (j & s1 & -> & U & G). pose proof (dctx_unchanged _ _ _ _ _ Hd U) as Hd1.
    destruct (igot_dctx _ _ _ _ _ _ _ Hd1 G) as [Hd2 ED]. pose proof G as [Hlt Hst Hlen Hoth Hent]. cbv zeta in Hent.
    pose proof (unchanged_inode _ _ _ _ _ i U) as Ei. pose proof (unchanged_inode _ _ _ _ _ j U) as Ej.
    split_and!; [done| |intros b; rewrite Hst; apply U|].
    { rewrite ED, Ei. apply dir_ext, U. }
    exists j. split; [done|]. split_and!.
    + destruct Hent as [[(? & ? & ?) ->]|(_ & _ & ->)]; (split_and!; [cbn; lia|done|done]).
    + rewrite <- Ej. destruct Hent as [[(? & _) ->]|(Hr0 & _ & ->)]; cbn; lia.
    + intros j' Hj. rewrite Hoth by done. by eapply unchanged_inode.
  - intros [-> U]. pose proof (unchanged_inode _ _ _ _ _ i U) as Ei.
    split_and!; [by eapply dctx_unchanged| |apply U|done|apply U]. rewrite Ei. apply dir_ext, U.
Qed.

(** C14: A name entered with [dirlink] is found by [dirlookup], with the inode it was
    entered for; every other name is found as before.  [dirlink] fails exactly when the
    name is there already or the disk is full, and then the directory is as it was. *)
Theorem dirlink_dirlookup s me P i name inum :
  let D := dir (bcontent s) (inodeat i s) in
  dctx s me P i -> inum_ok (sb s) (i_inum (inodeat i s)) -> bytes name -> 0 < inum < 2 ^ 16 ->
  i_size (inodeat i s) + DESIZE <= MAXFILE * BSIZE -> slots s P 7 -> room P [] 7 ->
  iroom s ROOTDEV inum ->
  (forall k inum', dfind (fname name) D 0 = Some (k, inum') -> iroom s ROOTDEV inum') ->
  wp (let! r := dirlink i name inum in
      if r <? 0 then ret (r, None)
      else let! x := dirlookup i name in ret (r, x))
    (fun '(r, x) s' =>
      let D' := dir (bcontent s') (inodeat i s') in
      r = -1 /\ D' = D /\ (dfind (fname name) D 0 <> None \/ disk_full s') \/
      r = 0 /\ dfind (fname name) D 0 = None /\
      (exists j, x = Some (j, DESIZE * Z.of_nat (dfree D)) /\ is_inode ROOTDEV inum (inodeat j s')) /\
      forall nm, nm <> fname name -> dfind nm D' 0 = dfind nm D 0) s.
Proof.
  intros D Hd Hi Hn Hinum Hmax Hs Hr Hiroom Hroom. wp_step.
  eapply wp_mono; [apply (wp_dirlink s me P i name inum); try done; unfold room in *; lia|].
  intros r s1 (P1 & Hd1 & HP & SR & Hc). fold D in Hc.
  destruct (dfind (fname name) D 0) as [[k inum']|] eqn:E.
  { destruct Hc as [-> HD]. change (-1 <? 0) with true. cbv iota. wp_step. left. split_and!; [done|done|by left]. }
  destruct Hc as [[-> HD]|(-> & Hfull & HD)]; [change (0 <? 0) with false|change (-1 <? 0) with true]; cbv iota.
  2: { wp_step. left. split_and!; [done|done|by right]. }
  wp_step. pose proof (dfind_dput_same (fname name) inum D 0 E) as Ef. rewrite <- HD in Ef.
  eapply wp_mono; [apply (wp_dirlookup s1 me P1 i name); try done; [unfold room in *; lia|]|].
  { rewrite Ef. intros k inum' [= <- <-]. by eapply same_refs_iroom. }
  rewrite Ef. cbn [dlooked]. intros x s2 (j & s0 & -> & U & G).
  pose proof (dctx_unchanged _ _ _ _ _ Hd1 U) as Hd0. destruct (igot_dctx _ _ _ _ _ _ _ Hd0 G) as [_ ED].
  assert (HD2 : dir (bcontent s2) (inodeat i s2) = dput (dfree D) (Some (fname name, inum)) D).
  { rewrite ED, (unchanged_inode _ _ _ _ _ i U), <- HD. apply dir_ext, U. }
  wp_step. right. split_and!; [done|done| |].
  - exists j. split; [done|]. destruct (ig_entry _ _ _ _ _ G) as [[(? & ? & ?) ->]|(_ & _ & ->)]; (split_and!; [cbn; lia|done|done]).
  - intros nm Hnm. rewrite HD2. by apply dfind_dput_other.
Qed.
End Thms.

(** ** A directory with one entry

    Block 46 of the formatted disk of [FsThms] is full of the letter A, which is one entry
    with a name of fourteen letters when the file is a directory of 16 bytes. *)

#[local] Opaque fmt_boot.

Definition dir_inode : inode :=
  Inode ROOTDEV 2 1 (SleepLock true 1) true T_DIR 0 0 1 16 (46 :: replicate 12 0).
Definition dir_boot : kst := set_inodes [dir_inode; inode0] fmt_boot.

Lemma dir_boot_fbyte x : 0 <= x < 16 -> fbyte (bcontent fmt_boot) dir_inode x = 65.
Proof.
  intros Hx. unfold fbyte. rewrite Z.div_small, Z.mod_small by lia.
  assert (iblock (bcontent fmt_boot) dir_inode 0 = 46) as -> by reflexivity.
  change (46 =? 0) with false. cbv iota. rewrite fmt_content.
  assert (dget fmt_disk 46 = replicate 1024 65) as -> by (by vm_compute).
  rewrite nth_lookup, lookup_replicate_2 by lia. done.
Qed.

Lemma dir_boot_file : file_wf (sb fmt_boot) (bcontent fmt_boot) dir_inode.
Proof.
  pose proof (fc_wf _ _ _ _ _ fmt_fctx) as [_ _ Wb Wi _]. rewrite fmt_inode_at in Wb, Wi.
  split; [done|done|exact Wb|exact Wi|split; by vm_compute].
Qed.

Lemma dir_boot_wf : dir_wf (bcontent fmt_boot) dir_inode.
Proof.
  split.
  - done.
  - done.
  - intros x Hx. change (i_size dir_inode) with 16 in Hx. rewrite Z.div_small by lia. done.
  - intros x Hx. rewrite dir_boot_fbyte by exact Hx. lia.
Qed.

(** Another table over the same disk. *)
Lemma dctx_table s me P j l i :
  fctx s me P [] j -> LkItable ∉ held s -> (i < length l)%nat ->
  file_wf (sb s) (bcontent s) (l !!! i) -> dir_wf (bcontent s) (l !!! i) -> 0 < i_ref (l !!! i) ->
  dctx (set_inodes l s) me P i.
Proof. intros [F G M D _ _] Hh Hi Wf Wd Hr. split; [split|..]; try done. by apply fx_inodes. Qed.

Lemma set_inodes_same l s :
  bcontent (set_inodes l s) = bcontent s /\ sb (set_inodes l s) = sb s /\ log (set_inodes l s) = log s.
Proof. done. Qed.

Lemma dir_boot_ctx : dctx dir_boot 0 [] 0.
Proof.
  unfold dir_boot. apply (dctx_table _ _ _ _ _ _ fmt_fctx).
  - destruct fmt_fields as (_ & _ & _ & -> & _). apply not_elem_of_nil.
  - apply Nat.lt_0_succ.
  - exact dir_boot_file.
  - exact dir_boot_wf.
  - apply Z.lt_0_1.
Qed.

Lemma dir_boot_dir : dir (bcontent dir_boot) (inodeat 0 dir_boot) = [Some (replicate 14 65, 16705)].
Proof.
  change (inodeat 0 dir_boot) with dir_inode. unfold dir_boot.
  rewrite (proj1 (set_inodes_same _ _)). unfold dir. change (dcount dir_inode) with 1%nat. cbn [seq fmap list_fmap].
  assert (dslot (bcontent fmt_boot) dir_inode 0 = replicate 16 65) as ->; [|by vm_compute].
  apply (fread_list _ _ _ (replicate 16 65)). intros j Hj. rewrite length_replicate in Hj.
  rewrite dir_boot_fbyte by lia. symmetry. rewrite nth_lookup, lookup_replicate_2 by done. done.
Qed.

Lemma dir_boot_room inum : iroom dir_boot ROOTDEV inum.
Proof. exists inode0. split; [right; by left|by right]. Qed.

(** The name that is there, and one that is not. *)
Lemma dirlookup_correct_witness :
  wp (dirlookup 0 (lit "AAAAAAAAAAAAAAxyz")) (fun r s' => exists j,
    r = Some (j, 0) /\ i_inum (inodeat j s') = 16705 /\ 0 < i_ref (inodeat j s')) dir_boot.
Proof.
  eapply wp_mono; [apply (dirlookup_correct dir_boot 0 [] 0 (lit "AAAAAAAAAAAAAAxyz"))|].
  - exact dir_boot_ctx.
  - unfold room. cbn. lia.
  - by apply (bool_decide_unpack (bytes _)); vm_compute.
  - intros. apply dir_boot_room.
  - intros r s' (_ & _ & _ & H). rewrite dir_boot_dir in H.
    destruct H as (j & -> & (? & _ & ?) & _). exists j. done.
Defined.

Lemma dirlink_dirlookup_witness :
  wp (let! r := dirlink 0 (lit "init") 7 in
      if r <? 0 then ret (r, None)
      else let! x := dirlookup 0 (lit "init") in ret (r, x))
    (fun '(r, x) s' => r = -1 /\ disk_full s' \/
      r = 0 /\ exists j, x = Some (j, 16) /\ is_inode ROOTDEV 7 (inodeat j s')) dir_boot.
Proof.
  eapply wp_mono; [apply (dirlink_dirlookup dir_boot 0 [] 0 (lit "init") 7)|].
  - exact dir_boot_ctx.
  - destruct fmt_fields as (_ & Es & _). unfold dir_boot. rewrite (proj1 (proj2 (set_inodes_same _ _))), Es. split; by vm_compute.
  - by apply (bool_decide_unpack (bytes _)); vm_compute.
  - lia.
  - by vm_compute.
  - pose proof fmt_slots as H. unfold slots, dir_boot in *. rewrite (proj2 (proj2 (set_inodes_same _ _))). lia.
  - unfold room. cbn. lia.
  - apply dir_boot_room.
  - intros. apply dir_boot_room.
  - intros [r x] s'. rewrite dir_boot_dir. intros [(-> & _ & [H|H])|(-> & _ & (j & -> & H) & _)].
    + by destruct H.
    + by left.
    + right. split; [done|]. exists j. done.
Defined.
