(* ===== verification/MkfsSpec.v ===== *)
(** What [mkfs] builds, seen through the definitions that the kernel reads the disk with:
    the blocks of the files it writes, and the invariant that its operations keep. *)
From S2P Require Import Prelude Types Str Printf Fs FsBlk FsFile FsWrite Sysfile Dirs Inodes Mkfs.
From S2P Require Import Kalloc Vm Sched Sleeplock Bio.

Implicit Types (C : Z -> list Z) (ip : inode) (I : Z -> inode) (F : Z -> list Z) (fi fb n bn off : Z) (w : list Z).

(** Functions on numbers, changed at one place. *)
Definition fset {A} (f : Z -> A) (n : Z) (x : A) : Z -> A := fun m => if decide (m = n) then x else f m.

Lemma fset_eq {A} (f : Z -> A) n x : fset f n x n = x.
Proof. unfold fset. by rewrite decide_True. Qed.
Lemma fset_ne {A} (f : Z -> A) n x m : m <> n -> fset f n x m = f m.
Proof. intros. unfold fset. by rewrite decide_False. Qed.

Lemma nmeta_eq : nmeta = 46.
Proof. done. Qed.

(** ** The blocks of the files

    Inodes 1 to [fi - 1] are in use, [I n] being the inode and [F n] the contents; blocks
    from [fb] on are free and zero. *)
Record minv C I fi fb F : Prop := {
  mi_len b : length (C b) = 1024%nat;
  mi_fb : nmeta <= fb <= FSSIZE;
  mi_zero b : fb <= b < FSSIZE -> C b = replicate 1024 0;
  mi_addrs n : 1 <= n < fi -> length (i_addrs (I n)) = 13%nat;
  mi_range n bn : 1 <= n < fi -> 0 <= bn <= MAXFILE -> iblock C (I n) bn <> 0 -> nmeta <= iblock C (I n) bn < fb;
  mi_inj n bn n' bn' : 1 <= n < fi -> 0 <= bn <= MAXFILE -> 1 <= n' < fi -> 0 <= bn' <= MAXFILE ->
    iblock C (I n) bn = iblock C (I n') bn' -> iblock C (I n) bn <> 0 -> n = n' /\ bn = bn';
  mi_byte n x : 1 <= n < fi -> 0 <= x < MAXFILE * BSIZE -> fbyte C (I n) x = nth (Z.to_nat x) (F n) 0
}.

(** The blocks of a file of [l] bytes, and no others; block 268 is the one of addresses. *)
Definition exact C ip (l : Z) : Prop :=
  forall bn, 0 <= bn <= MAXFILE ->
  (iblock C ip bn <> 0 <-> (if bn =? MAXFILE then NDIRECT else bn) * BSIZE < l).

(** The addresses are all that counts. *)
Lemma iblock_addrs C ip ip' bn : i_addrs ip' = i_addrs ip -> iblock C ip' bn = iblock C ip bn.
Proof. intros E. unfold iblock, addr. by rewrite E. Qed.
Lemma fbyte_addrs C ip ip' x : i_addrs ip' = i_addrs ip -> fbyte C ip' x = fbyte C ip x.
Proof. intros E. unfold fbyte. by rewrite (iblock_addrs C ip ip') by done. Qed.

Lemma minv_ext C I I' fi fb F F' :
  (forall m, 1 <= m < fi -> i_addrs (I' m) = i_addrs (I m)) -> (forall m, 1 <= m < fi -> F' m = F m) ->
  minv C I fi fb F -> minv C I' fi fb F'.
Proof.
  intros EI EF [A1 A2 A3 A4 A5 A6 A7].
  assert (Eb : forall m bn, 1 <= m < fi -> iblock C (I' m) bn = iblock C (I m) bn) by (intros; by apply iblock_addrs, EI).
  split; try done.
  - intros n Hn. rewrite EI by done. by apply A4.
  - intros n bn Hn. rewrite Eb by done. by apply A5.
  - intros n bn n' bn' Hn Hb Hn'. rewrite !Eb by done. by apply A6.
  - intros n x Hn. rewrite (fbyte_addrs C (I n)), EF by auto. by apply A7.
Qed.

Lemma iblock_same C C' ip bn :
  (addr ip 12 <> 0 -> C' (addr ip 12) = C (addr ip 12)) -> iblock C' ip bn = iblock C ip bn.
Proof.
  intros H. unfold iblock. destruct (bn <? NDIRECT); [done|]. destruct (bn =? MAXFILE); [done|].
  destruct (Z.eqb_spec (addr ip 12) 0); [done|]. by rewrite H.
Qed.

Lemma iblock_ind C ip : iblock C ip MAXFILE = addr ip 12.
Proof. done. Qed.

(** File [n] gets block [fb] as its block [bk]. *)
Section Add.
Context C I fi fb F (H : minv C I fi fb F) (n bk : Z) (Hn : 1 <= n < fi).
Context C' ip' (Hfree : iblock C (I n) bk = 0) (Hfb : fb < FSSIZE) (Hl : length (i_addrs ip') = 13%nat).
Context (Hib : forall bn, 0 <= bn <= MAXFILE -> iblock C' ip' bn = if decide (bn = bk) then fb else iblock C (I n) bn).
Context (Hlen : forall b, length (C' b) = 1024%nat).
Context (HC : forall b, b <> addr (I n) 12 \/ addr (I n) 12 = 0 -> C' b = C b).

Lemma add_other m bn : m <> n -> 1 <= m < fi -> 0 <= bn <= MAXFILE -> iblock C' (I m) bn = iblock C (I m) bn.
Proof.
  intros Hne Hm Hbn. apply iblock_same. intros H0. apply HC.
  destruct (decide (addr (I n) 12 = 0)); [by right|left]. intros E.
  destruct (mi_inj _ _ _ _ _ H m MAXFILE n MAXFILE) as [? _]; try done; try lia.
Qed.

Lemma add_block_eq m bn :
  1 <= m < fi -> 0 <= bn <= MAXFILE ->
  iblock C' (fset I n ip' m) bn = if decide (m = n /\ bn = bk) then fb else iblock C (I m) bn.
Proof.
  intros Hm Hbn. destruct (decide (m = n)) as [->|Hne].
  - rewrite fset_eq, Hib by done. destruct (decide (bn = bk)); [by rewrite decide_True|]. by rewrite decide_False by (by intros [_ ?]).
  - rewrite fset_ne, add_other by done. by rewrite decide_False by (by intros [? _]).
Qed.

(** A data block in use keeps its contents. *)
Lemma add_data m bn : 1 <= m < fi -> 0 <= bn < MAXFILE -> iblock C (I m) bn <> 0 -> C' (iblock C (I m) bn) = C (iblock C (I m) bn).
Proof.
  intros Hm Hbn H0. apply HC. destruct (decide (addr (I n) 12 = 0)); [by right|left]. intros E.
  destruct (mi_inj _ _ _ _ _ H m bn n MAXFILE) as [_ ?]; try done; lia.
Qed.

Lemma minv_add : minv C' (fset I n ip') fi (fb + 1) F.
Proof.
  pose proof H as [Hl' Hfb' Hz Ha Hr Hi Hb]. split.
  - done.
  - lia.
  - intros b Hb'. rewrite HC; [apply Hz; lia|]. destruct (decide (addr (I n) 12 = 0)); [by right|left].
    pose proof (Hr n MAXFILE Hn ltac:(lia) ltac:(done)). rewrite iblock_ind in *. lia.
  - intros m Hm. destruct (decide (m = n)) as [->|]; [by rewrite fset_eq|]. rewrite fset_ne by done. by apply Ha.
  - intros m bn Hm Hbn. rewrite add_block_eq by done. destruct (decide _); [lia|]. intros Hnz. pose proof (Hr m bn Hm Hbn Hnz). lia.
  - intros m bn m' bn' Hm Hbn Hm' Hbn'. rewrite !add_block_eq by done.
    assert (Hx : forall m bn, 1 <= m < fi -> 0 <= bn <= MAXFILE -> iblock C (I m) bn <> fb).
    { intros m0 bn0 H1 H2 E. rewrite nmeta_eq in *. pose proof (Hr m0 bn0 H1 H2 ltac:(rewrite E; lia)). lia. }
    destruct (decide (m = n /\ bn = bk)) as [[-> ->]|H1], (decide (m' = n /\ bn' = bk)) as [[-> ->]|H2]; intros E Hnz.
    + done.
    + by destruct (Hx m' bn').
    + by destruct (Hx m bn).
    + by apply Hi.
  - intros m x Hm Hx. rewrite <- Hb by done. unfold fbyte.
    assert (Hbn : 0 <= x / BSIZE < MAXFILE) by (Z.div_mod_to_equations; lia).
    rewrite add_block_eq by lia. case_decide as E.
    + destruct E as [-> ->]. rewrite Hfree. cbn [Z.eqb]. rewrite (proj2 (Z.eqb_neq fb 0)) by (rewrite nmeta_eq in *; lia).
      rewrite HC.
      * rewrite Hz by lia. rewrite nth_lookup. destruct (replicate 1024 0 !! _) eqn:E; [|done]. by apply lookup_replicate in E as [-> _].
      * destruct (decide (addr (I n) 12 = 0)); [by right|left].
        pose proof (Hr n MAXFILE Hn ltac:(lia) ltac:(done)). rewrite iblock_ind in *. lia.
    + destruct (Z.eqb_spec (iblock C (I m) (x / BSIZE)) 0); [done|]. by rewrite add_data by lia.
Qed.
End Add.

(** File [n] gets the bytes [w] at its end, within one block. *)
Section Write.
Context C I fi fb F (H : minv C I fi fb F) (n : Z) (w : list Z) (Hn : 1 <= n < fi).
Let off := Z.of_nat (length (F n)).
Let x := iblock C (I n) (off / BSIZE).
Let d := splice (C x) (Z.to_nat (off mod BSIZE)) w.
Context (Hmax : off < MAXFILE * BSIZE) (Hx : x <> 0) (Hw : off mod BSIZE + Z.of_nat (length w) <= BSIZE).

Lemma write_bn : 0 <= off / BSIZE < MAXFILE.
Proof. unfold off in *. Z.div_mod_to_equations. lia. Qed.
Lemma write_x : nmeta <= x < fb.
Proof. pose proof write_bn. apply (mi_range _ _ _ _ _ H n); [done|lia|done]. Qed.
Lemma write_len : length d = 1024%nat.
Proof.
  pose proof write_x. pose proof (mi_fb _ _ _ _ _ H). rewrite nmeta_eq in *.
  unfold d. rewrite length_splice; rewrite (mi_len _ _ _ _ _ H) by lia; [done|].
  pose proof (Z.mod_pos_bound off BSIZE). lia.
Qed.

Lemma write_iblock m bn : 1 <= m < fi -> 0 <= bn <= MAXFILE -> iblock (bset C x d) (I m) bn = iblock C (I m) bn.
Proof.
  intros Hm Hbn. apply iblock_same. intros H0. unfold bset. rewrite decide_False; [done|]. intros E. pose proof write_bn.
  destruct (mi_inj _ _ _ _ _ H m MAXFILE n (off / BSIZE)) as [_ ?]; try done; lia.
Qed.

Lemma minv_write : minv (bset C x d) I fi fb (fset F n (F n ++ w)).
Proof.
  pose proof H as [Hl Hfb Hz Ha Hr Hi Hb]. pose proof write_x as Hxr. pose proof write_bn as Hbn0. rewrite nmeta_eq in *. split.
  - intros b. unfold bset. case_decide; [apply write_len|by apply Hl].
  - rewrite nmeta_eq. lia.
  - intros b Hb'. unfold bset. rewrite decide_False by lia. by apply Hz.
  - done.
  - intros m bn Hm Hbn. rewrite write_iblock, nmeta_eq by done. by apply Hr.
  - intros m bn m' bn' Hm Hbn Hm' Hbn'. rewrite !write_iblock by done. by apply Hi.
  - intros m y Hm Hy. pose proof (Hb m y Hm Hy) as Hby. unfold fbyte in *.
    assert (Hbn : 0 <= y / BSIZE < MAXFILE) by (Z.div_mod_to_equations; lia).
    rewrite write_iblock by lia. unfold bset. destruct (decide (iblock C (I m) (y / BSIZE) = x)) as [E|E].
    + destruct (Hi m (y / BSIZE) n (off / BSIZE) Hm ltac:(lia) Hn ltac:(lia) E ltac:(by rewrite E)) as [-> Ebn].
      rewrite fset_eq. rewrite E in *. rewrite (proj2 (Z.eqb_neq x 0)) in * by done. unfold d.
      pose proof (Z.mod_pos_bound off BSIZE ltac:(lia)). pose proof (Z.mod_pos_bound y BSIZE ltac:(lia)).
      rewrite nth_splice by (rewrite Hl by lia; lia).
      assert (Ho : off = Z.of_nat (length (F n))) by done.
      case_decide as Hc.
      * rewrite app_nth2 by (Z.div_mod_to_equations; lia). f_equal. Z.div_mod_to_equations. lia.
      * rewrite Hby. destruct (decide (y < off)); [rewrite app_nth1 by lia; done|].
        rewrite !nth_overflow; [done|rewrite length_app|]; Z.div_mod_to_equations; lia.
    + destruct (decide (m = n)) as [->|Hne]; [|by rewrite fset_ne].
      rewrite fset_eq, Hby. destruct (decide (y < off)); [rewrite app_nth1 by (unfold off in *; lia); done|].
      rewrite nth_overflow by (unfold off in *; lia).
      destruct (decide (y < off + Z.of_nat (length w))); [|rewrite nth_overflow; [done|rewrite length_app; unfold off in *; lia]].
      exfalso. apply E. unfold x. f_equal. Z.div_mod_to_equations. lia.
Qed.
End Write.

(** ** Inodes in memory *)

(** The inode that the 64 bytes [din] are. *)
Definition ipof (din : list Z) n : inode :=
  set_i_valid true (load_dinode din 0 (Inode ROOTDEV n 1 (SleepLock false 0) false 0 0 0 0 0 [])).

Lemma take_drop_slice {A} (l : list A) o j k m :
  (j + k <= m)%nat -> take k (drop j (take m (drop o l))) = take k (drop (o + j) l).
Proof.
  intros H. apply list_eq. intros i. destruct (decide (i < k)%nat).
  - rewrite !lookup_take_lt, !lookup_drop by lia. rewrite lookup_take_lt, lookup_drop by lia. f_equal. lia.
  - by rewrite !lookup_take_ge by lia.
Qed.

Lemma ipof_slice (d : list Z) o n :
  ipof (take 64 (drop o d)) n = set_i_valid true (load_dinode d o (Inode ROOTDEV n 1 (SleepLock false 0) false 0 0 0 0 0 [])).
Proof.
  assert (H32 : forall j, (j + 4 <= 64)%nat -> getu32 (take 64 (drop o d)) j = getu32 d (o + j)).
  { intros j Hj. unfold getu32. by rewrite take_drop_slice. }
  assert (H16 : forall j, (j + 2 <= 64)%nat -> get16 (take 64 (drop o d)) j = get16 d (o + j)).
  { intros j Hj. unfold get16. by rewrite take_drop_slice. }
  unfold ipof, load_dinode. cbn [i_dev i_inum i_ref i_lock i_valid]. rewrite !H16, H32 by lia. rewrite Nat.add_0_r. cbn [Nat.add].
  f_equal. f_equal. unfold di_addrs. apply map_ext_in. intros k Hk%in_seq. cbn [Nat.add]. rewrite H32 by lia. f_equal. lia.
Qed.

Lemma dinode_ipof C n : dinode C mkfs_sb n = ipof (take 64 (drop (di_off n) (C (inum_block mkfs_sb n)))) n.
Proof. by rewrite ipof_slice. Qed.

Lemma addr_ipof din n k : (k < 13)%nat -> addr (ipof din n) k = getu32 din (12 + 4 * k).
Proof.
  intros Hk. unfold addr, ipof. cbn [i_addrs set_i_valid load_dinode]. unfold di_addrs. rewrite nth_lookup, list_lookup_fmap, lookup_seq_lt by done.
  done.
Qed.

Lemma ipof_set_addr din n (k : Z) b :
  length din = 64%nat -> 0 <= k < 13 -> 0 <= b < 2 ^ 32 ->
  ipof (set_din_addr din k b) n = set_addr (Z.to_nat k) b (ipof din n).
Proof.
  intros Hl Hk Hb. unfold set_din_addr, ipof, load_dinode, set_addr, set_i_valid, set_i_addrs. cbn [i_dev i_inum i_ref i_lock i_valid i_addrs set_i_valid set_i_addrs
    i_type i_major i_minor i_nlink i_size].
  assert (H16 : forall j, (j + 2 <= 12)%nat -> get16 (put32 din (12 + 4 * Z.to_nat k) b) j = get16 din j).
  { intros j Hj. unfold get16. by rewrite put32_other by lia. }
  rewrite !H16 by lia. rewrite getu32_put32_ne by lia. f_equal.
  unfold di_addrs. apply list_eq. intros j. destruct (decide (j < 13)%nat) as [Hj|Hj].
  2: { rewrite !lookup_ge_None_2; rewrite ?length_insert, ?length_map, ?length_seq; done || lia. }
  rewrite list_lookup_fmap, lookup_seq_lt by done. cbn [fmap option_fmap option_map Nat.add].
  destruct (decide (j = Z.to_nat k)) as [->|Hne].
  - rewrite list_lookup_insert_eq by (by rewrite length_map, length_seq). rewrite getu32_put32, u32_small by lia. done.
  - rewrite list_lookup_insert_ne by done. rewrite list_lookup_fmap, lookup_seq_lt by done. cbn [fmap option_fmap option_map Nat.add].
    by rewrite getu32_put32_ne by lia.
Qed.

Lemma ipof_set_size din n sz :
  length din = 64%nat -> 0 <= sz < 2 ^ 32 -> ipof (put32 din 8 sz) n = set_i_size sz (ipof din n).
Proof.
  intros Hl Hs. unfold ipof, load_dinode, set_i_valid, set_i_size. cbn [i_dev i_inum i_ref i_lock i_valid i_addrs set_i_valid set_i_size
    i_type i_major i_minor i_nlink i_size].
  assert (H16 : forall j, (j + 2 <= 8)%nat -> get16 (put32 din 8 sz) j = get16 din j).
  { intros j Hj. unfold get16. by rewrite put32_other by lia. }
  rewrite !H16 by lia. rewrite getu32_put32, u32_small by lia. f_equal.
  unfold di_addrs. apply map_ext_in. intros j Hj%in_seq. by rewrite getu32_put32_ne by lia.
Qed.

(** ** New blocks *)

Lemma addr_at_slot k b ip j :
  length (i_addrs ip) = 13%nat -> (k < 13)%nat -> addr (set_addr k b ip) j = if decide (j = k) then b else addr ip j.
Proof.
  intros Hl Hk. unfold addr, set_addr. cbn [i_addrs set_i_addrs]. rewrite !nth_lookup. case_decide as E.
  - subst. by rewrite list_lookup_insert_eq by lia.
  - by rewrite list_lookup_insert_ne by done.
Qed.

Lemma iblock_direct C ip k b bn :
  length (i_addrs ip) = 13%nat -> 0 <= k < NDIRECT -> 0 <= bn <= MAXFILE ->
  iblock C (set_addr (Z.to_nat k) b ip) bn = if decide (bn = k) then b else iblock C ip bn.
Proof.
  intros Hl Hk Hbn. unfold iblock. rewrite !addr_at_slot by (done || lia).
  rewrite (decide_False (P := 12%nat = Z.to_nat k)) by lia. destruct (Z.ltb_spec bn NDIRECT).
  - repeat case_decide; lia || done.
  - rewrite decide_False by lia. done.
Qed.

Lemma getu32_zero k : getu32 (replicate 1024 0) k = 0.
Proof.
  unfold getu32. rewrite drop_replicate, take_replicate. generalize (Nat.min 4 (1024 - k)). intros m.
  induction m as [|m IH]; [done|]. cbn. by rewrite IH.
Qed.

Lemma iblock_indirect C ip b bn :
  length (i_addrs ip) = 13%nat -> addr ip 12 = 0 -> b <> 0 -> C b = replicate 1024 0 -> 0 <= bn <= MAXFILE ->
  iblock C (set_addr 12 b ip) bn = if decide (bn = MAXFILE) then b else iblock C ip bn.
Proof.
  intros Hl H0 Hb HC Hbn. unfold iblock. rewrite !addr_at_slot by (done || lia). rewrite (decide_True (P := 12%nat = 12%nat)) by done.
  destruct (Z.ltb_spec bn NDIRECT); [rewrite !decide_False by lia; done|].
  destruct (Z.eqb_spec bn MAXFILE); [by rewrite decide_True|]. rewrite decide_False by done.
  rewrite (proj2 (Z.eqb_neq b 0)) by done. rewrite H0, HC, getu32_zero. done.
Qed.

Lemma iblock_slot C ip bk b bn :
  let ind := addr ip 12 in
  ind <> 0 -> length (C ind) = 1024%nat -> NDIRECT <= bk < MAXFILE -> 0 <= bn <= MAXFILE -> 0 <= b < 2 ^ 32 ->
  iblock (bset C ind (put32 (C ind) (4 * Z.to_nat (bk - NDIRECT)) b)) ip bn =
    if decide (bn = bk) then b else iblock C ip bn.
Proof.
  intros ind H0 Hl Hbk Hbn Hb. unfold iblock. fold ind. destruct (Z.ltb_spec bn NDIRECT); [by rewrite decide_False by lia|].
  destruct (Z.eqb_spec bn MAXFILE); [by rewrite decide_False by lia|].
  rewrite (proj2 (Z.eqb_neq ind 0)) by done. unfold bset. rewrite (decide_True (P := ind = ind)) by done. case_decide as E.
  - subst bn. rewrite getu32_put32, u32_small by lia. done.
  - by rewrite getu32_put32_ne by lia.
Qed.

(** ** Running [mkfs]

    [mwp c Q s]: from [s], [c] neither dies nor fails an assertion, and ends with [Q]. *)
Definition mwp {A} (c : MK A) (Q : A -> img -> Prop) (s : img) : Prop :=
  match c s with Some (a, s') => Q a s' | None => False end.

Lemma mwp_ret {A} (a : A) (Q : A -> img -> Prop) s : Q a s -> mwp (mk_ret a) Q s.
Proof. done. Qed.
Lemma mwp_bind {A B} (c : MK A) (k : A -> MK B) Q s :
  mwp c (fun a s' => mwp (k a) Q s') s -> mwp (mk_bind c k) Q s.
Proof. unfold mwp, mk_bind. by destruct (c s) as [[a s']|]. Qed.
Lemma mwp_mono {A} (c : MK A) (Q Q' : A -> img -> Prop) s :
  mwp c Q s -> (forall a s', Q a s' -> Q' a s') -> mwp c Q' s.
Proof. unfold mwp. destruct (c s) as [[a s']|]; auto. Qed.

(** The image and the two counters. *)
Record mrep (s : img) C fi fb : Prop := {
  mr_present b : 0 <= b < FSSIZE -> is_Some (m_blocks s !! b);
  mr_cont b : dget (m_blocks s) b = C b;
  mr_fi : m_freeinode s = fi;
  mr_fb : m_freeblock s = fb
}.

Lemma mwp_rsect s C fi fb b (Q : list Z -> img -> Prop) :
  mrep s C fi fb -> 0 <= b < FSSIZE -> Q (C b) s -> mwp (rsect b) Q s.
Proof.
  intros [Hp Hc _ _] Hb HQ. unfold mwp, rsect. specialize (Hc b). unfold dget in Hc.
  destruct (Hp b Hb) as [d E]. rewrite E in *. cbn in Hc. by subst.
Qed.

Lemma mwp_wsect s C fi fb b d (Q : unit -> img -> Prop) :
  mrep s C fi fb -> (forall s', mrep s' (bset C b d) fi fb -> Q tt s') -> mwp (wsect b d) Q s.
Proof.
  intros [Hp Hc Hi Hf] HQ. unfold mwp, wsect. apply HQ. split; [| |done|done].
  - intros b' Hb'. cbn. destruct (decide (b = b')) as [<-|]; [by rewrite lookup_insert_eq; eauto|].
    rewrite lookup_insert_ne by done. by apply Hp.
  - intros b'. unfold dget, bset. cbn. case_decide as E; [subst; by rewrite lookup_insert_eq|].
    rewrite lookup_insert_ne by done. apply Hc.
Qed.

Lemma mwp_next_block s C fi fb (Q : Z -> img -> Prop) :
  mrep s C fi fb -> 0 <= fb < FSSIZE -> (forall s', mrep s' C fi (fb + 1) -> Q fb s') -> mwp next_block Q s.
Proof.
  intros [Hp Hc Hi Hf] Hb HQ. unfold mwp, next_block. rewrite Hf. apply HQ. split; try done. cbn. apply u32_small. lia.
Qed.
Lemma mwp_next_inode s C fi fb (Q : Z -> img -> Prop) :
  mrep s C fi fb -> 0 <= fi < NINODES -> (forall s', mrep s' C (fi + 1) fb -> Q fi s') -> mwp next_inode Q s.
Proof.
  intros [Hp Hc Hi Hf] Hb HQ. unfold mwp, next_inode. rewrite Hi. apply HQ. split; try done. cbn. apply u32_small. lia.
Qed.

(** ** The block for a byte of a file *)

(** The number of blocks of a file of [l] bytes. *)
Definition nb (l : Z) : Z := (l + 1023) / BSIZE + (if NDIRECT * BSIZE <? l then 1 else 0).

Lemma nb_mono l l' : l <= l' -> nb l <= nb l'.
Proof. intros H. unfold nb. pose proof (Z.div_le_mono (l + 1023) (l' + 1023) BSIZE). destruct (Z.ltb_spec (NDIRECT * BSIZE) l), (Z.ltb_spec (NDIRECT * BSIZE) l'); lia. Qed.

(** The state while file [n] is extended; [din] is its inode in memory. *)
Record mapp (s : img) C I fi fb F n (din : list Z) (l : Z) : Prop := {
  ma_rep : mrep s C fi fb;
  ma_inv : minv C (fset I n (ipof din n)) fi fb F;
  ma_din : length din = 64%nat;
  ma_exact : exact C (ipof din n) l
}.

(** What is left alone: the blocks before the data, and which blocks other files have. *)
Record mkeep C I fi n C' (din din' : list Z) : Prop := {
  mk_meta b : b < nmeta -> C' b = C b;
  mk_other m bn : m <> n -> 1 <= m < fi -> 0 <= bn <= MAXFILE -> iblock C' (I m) bn = iblock C (I m) bn;
  mk_inode : ipof din' n = set_i_addrs (i_addrs (ipof din' n)) (ipof din n)
}.

Lemma mkeep_refl C I fi n din : mkeep C I fi n C din din.
Proof. by split. Qed.
Lemma mkeep_trans C I fi n C1 C2 din din1 din2 :
  mkeep C I fi n C1 din din1 -> mkeep C1 I fi n C2 din1 din2 -> mkeep C I fi n C2 din din2.
Proof.
  intros [M1 O1 I1] [M2 O2 I2]. split.
  - intros b Hb. by rewrite M2, M1.
  - intros m bn Hm Hf Hb. by rewrite O2, O1.
  - rewrite I2, I1. done.
Qed.

(** A block of addresses or data for an entry of the inode. *)
Lemma mwp_need_addr s C I fi fb F n din k :
  mrep s C fi fb -> minv C (fset I n (ipof din n)) fi fb F -> length din = 64%nat -> 1 <= n < fi -> 0 <= k <= NDIRECT ->
  let bk := if k =? NDIRECT then MAXFILE else k in
  let new := addr (ipof din n) (Z.to_nat k) =? 0 in
  fb + (if new then 1 else 0) <= FSSIZE ->
  mwp (need_addr din k) (fun din' s' => exists fb', fb' = fb + (if new then 1 else 0) /\
    mrep s' C fi fb' /\ minv C (fset I n (ipof din' n)) fi fb' F /\ length din' = 64%nat /\
    mkeep C I fi n C din din' /\ addr (ipof din' n) (Z.to_nat k) <> 0 /\
    forall bn, 0 <= bn <= MAXFILE -> iblock C (ipof din' n) bn =
      if new then (if decide (bn = bk) then fb else iblock C (ipof din n) bn) else iblock C (ipof din n) bn) s.
Proof.
  intros Hs Hi Hl Hn Hk bk new Hfb. unfold need_addr, din_addr.
  rewrite <- (addr_ipof din n) by lia. fold new. destruct new eqn:E; unfold new in E.
  - apply Z.eqb_eq in E. apply mwp_bind. pose proof (mi_fb _ _ _ _ _ Hi) as Hfb'. rewrite nmeta_eq in Hfb'.
    eapply mwp_next_block; [done|lia|]. intros s1 Hs1. apply mwp_ret. exists (fb + 1). split; [done|]. split; [done|].
    assert (Ei : ipof (set_din_addr din k fb) n = set_addr (Z.to_nat k) fb (ipof din n)) by (apply ipof_set_addr; [done|lia|lia]).
    assert (Hib : forall bn, 0 <= bn <= MAXFILE -> iblock C (set_addr (Z.to_nat k) fb (ipof din n)) bn =
        if decide (bn = bk) then fb else iblock C (ipof din n) bn).
    { intros bn Hbn. unfold bk. destruct (Z.eqb_spec k NDIRECT) as [->|].
      - apply iblock_indirect; [done|done|lia| |done]. apply (mi_zero _ _ _ _ _ Hi). lia.
      - apply iblock_direct; [done|lia|done]. }
    assert (H0 : iblock C (ipof din n) bk = 0).
    { unfold bk, iblock. destruct (Z.eqb_spec k NDIRECT) as [->|]; [exact E|]. by rewrite (proj2 (Z.ltb_lt _ _)) by lia. }
    rewrite Ei. split_and!.
    + pose proof (minv_add C (fset I n (ipof din n)) fi fb F Hi n bk Hn C (set_addr (Z.to_nat k) fb (ipof din n))) as Ha.
      rewrite fset_eq in Ha. specialize (Ha H0 ltac:(lia)).
      assert (Hlen : length (i_addrs (set_addr (Z.to_nat k) fb (ipof din n))) = 13%nat) by (unfold set_addr; cbn [i_addrs set_i_addrs]; by rewrite length_insert).
      specialize (Ha Hlen Hib (mi_len _ _ _ _ _ Hi) ltac:(done)).
      eapply minv_ext; [| |exact Ha]; [|done]. intros m _. unfold fset. by case_decide.
    + unfold set_din_addr. rewrite length_put32 by lia. done.
    + split; [done|done|]. rewrite Ei. done.
    + rewrite addr_at_slot by (done || lia). rewrite decide_True by done. lia.
    + exact Hib.
  - apply Z.eqb_neq in E. apply mwp_ret. exists fb. rewrite Z.add_0_r. split_and!; done.
Qed.

(** How many blocks the first byte after [l] needs. *)
Lemma nb_step l l' :
  0 <= l -> l < l' <= (l / BSIZE + 1) * BSIZE ->
  nb l' - nb l = (if l mod BSIZE =? 0 then 1 else 0) + (if l =? NDIRECT * BSIZE then 1 else 0).
Proof.
  intros H0 Hl. unfold nb.
  assert ((l' + 1023) / BSIZE = l / BSIZE + 1) as -> by (Z.div_mod_to_equations; lia).
  assert ((l + 1023) / BSIZE = l / BSIZE + (if l mod BSIZE =? 0 then 0 else 1)) as ->
    by (destruct (Z.eqb_spec (l mod BSIZE) 0); Z.div_mod_to_equations; lia).
  destruct (Z.eqb_spec (l mod BSIZE) 0), (Z.eqb_spec l (NDIRECT * BSIZE)), (Z.ltb_spec (NDIRECT * BSIZE) l),
    (Z.ltb_spec (NDIRECT * BSIZE) l'); try lia; exfalso; Z.div_mod_to_equations; lia.
Qed.

(** Block [bn] of a file, other than that of the byte after [l], is there for [l'] bytes
    when it is there for [l]. *)
Lemma exact_other l l' bn :
  0 <= l -> l < l' <= (l / BSIZE + 1) * BSIZE -> bn <> l / BSIZE \/ l mod BSIZE <> 0 -> (bn * BSIZE < l' <-> bn * BSIZE < l).
Proof. intros H0 Hl Hb. Z.div_mod_to_equations. lia. Qed.

Section FileBlock.
Context (s : img) C I fi fb F n (din : list Z) (l l' : Z).
Context (Hm : mapp s C I fi fb F n din l) (Hn : 1 <= n < fi) (Hl : 0 <= l < MAXFILE * BSIZE).
Context (Hl' : l < l' <= (l / BSIZE + 1) * BSIZE) (Hfb : fb + (nb l' - nb l) <= FSSIZE).

Definition fb_post (r : list Z * Z) (s' : img) : Prop :=
  exists C', mapp s' C' I fi (fb + (nb l' - nb l)) F n r.1 l' /\ mkeep C I fi n C' din r.1 /\
    r.2 = iblock C' (ipof r.1 n) (l / BSIZE) /\ r.2 <> 0.

Lemma fb_bn : 0 <= l / BSIZE < MAXFILE.
Proof. Z.div_mod_to_equations. lia. Qed.

(** The block is missing exactly at the start of a block. *)
Lemma fb_missing : (iblock C (ipof din n) (l / BSIZE) =? 0) = (l mod BSIZE =? 0).
Proof.
  pose proof fb_bn. pose proof (ma_exact _ _ _ _ _ _ _ _ _ Hm (l / BSIZE) ltac:(lia)) as Hxb.
  rewrite (proj2 (Z.eqb_neq (l / BSIZE) MAXFILE)) in Hxb by lia.
  destruct (Z.eqb_spec (iblock C (ipof din n) (l / BSIZE)) 0) as [E|E], (Z.eqb_spec (l mod BSIZE) 0); try done; exfalso.
  - destruct (proj2 Hxb); [|done]. Z.div_mod_to_equations. lia.
  - apply Hxb in E. Z.div_mod_to_equations. lia.
Qed.

(** What the blocks are for [l'] bytes. *)
Lemma fb_exact C' ip' b :
  (forall bn, 0 <= bn <= MAXFILE -> bn <> MAXFILE \/ l <> NDIRECT * BSIZE -> iblock C' ip' bn =
     if decide (bn = l / BSIZE /\ l mod BSIZE = 0) then b else iblock C (ipof din n) bn) ->
  (l = NDIRECT * BSIZE -> iblock C' ip' MAXFILE <> 0) -> b <> 0 -> exact C' ip' l'.
Proof.
  intros Hib Hmx Hb bn Hbn. pose proof fb_bn. pose proof (ma_exact _ _ _ _ _ _ _ _ _ Hm bn Hbn) as Hxb.
  destruct (decide (bn = MAXFILE /\ l = NDIRECT * BSIZE)) as [[-> E]|Hne].
  { rewrite Z.eqb_refl. split; [lia|]. intros _. by apply Hmx. }
  rewrite (Hib bn Hbn) by (destruct (decide (bn = MAXFILE)); [right|left]; naive_solver).
  destruct (decide (bn = l / BSIZE /\ l mod BSIZE = 0)) as [[-> E]|E].
  - rewrite (proj2 (Z.eqb_neq (l / BSIZE) MAXFILE)) by lia. split; [|done]. intros _. Z.div_mod_to_equations. lia.
  - rewrite Hxb. rewrite (exact_other l l'); [done|lia|done|].
    destruct (Z.eqb_spec bn MAXFILE) as [->|]; [|destruct (decide (bn = l / BSIZE)); [right|left]; naive_solver].
    destruct (decide (NDIRECT = l / BSIZE)); [right|by left]. intros E0. apply Hne. split; [done|]. Z.div_mod_to_equations. lia.
Qed.

Lemma fb_direct : l / BSIZE < NDIRECT -> mwp (file_block din (l / BSIZE)) fb_post s.
Proof.
  intros Hdir. pose proof fb_bn as Hbn. pose proof Hm as [Hs Hi Hd Hx]. pose proof (nb_step l l' ltac:(lia) Hl') as Enb.
  assert (El : (l =? NDIRECT * BSIZE) = false) by (apply Z.eqb_neq; Z.div_mod_to_equations; lia). rewrite El, Z.add_0_r in Enb.
  unfold file_block. rewrite (proj2 (Z.ltb_lt _ _)) by done. apply mwp_bind.
  pose proof (mwp_need_addr s C I fi fb F n din (l / BSIZE) Hs Hi Hd Hn ltac:(lia)) as Hna. cbv zeta in Hna.
  assert (Ea : addr (ipof din n) (Z.to_nat (l / BSIZE)) = iblock C (ipof din n) (l / BSIZE)).
  { unfold iblock. by rewrite (proj2 (Z.ltb_lt _ _)) by done. }
  rewrite (proj2 (Z.eqb_neq (l / BSIZE) NDIRECT)), Ea, fb_missing, <- Enb in Hna by lia.
  eapply mwp_mono; [by apply Hna|]. intros din1 s1 (fb' & -> & Hs1 & Hi1 & Hd1 & Hk1 & Ha1 & Hib1).
  apply mwp_ret. exists C. split_and!; [|done| |]; cbn [fst snd].
  - split; try done. apply (fb_exact C (ipof din1 n) fb).
    + intros bn Hb _. rewrite Hib1 by done. destruct (Z.eqb_spec (l mod BSIZE) 0); repeat case_decide; naive_solver.
    + intros ->. done.
    + pose proof (mi_fb _ _ _ _ _ Hi). rewrite nmeta_eq in *. lia.
  - unfold iblock, din_addr. rewrite (proj2 (Z.ltb_lt _ _)) by done. by rewrite addr_ipof by lia.
  - unfold din_addr. by rewrite <- (addr_ipof din1 n) by lia.
Qed.

Lemma fb_indirect : NDIRECT <= l / BSIZE -> mwp (file_block din (l / BSIZE)) fb_post s.
Proof.
  intros Hind. pose proof fb_bn as Hbn. pose proof Hm as [Hs Hi Hd Hx]. pose proof (nb_step l l' ltac:(lia) Hl') as Enb.
  unfold file_block. rewrite (proj2 (Z.ltb_ge _ _)) by done. apply mwp_bind.
  pose proof (mwp_need_addr s C I fi fb F n din NDIRECT Hs Hi Hd Hn ltac:(lia)) as Hna. cbv zeta in Hna.
  change (NDIRECT =? NDIRECT) with true in Hna. cbv iota in Hna. change (Z.to_nat NDIRECT) with 12%nat in Hna.
  assert (E12 : (addr (ipof din n) 12 =? 0) = (l =? NDIRECT * BSIZE)).
  { pose proof (Hx MAXFILE ltac:(lia)) as Hxm. rewrite Z.eqb_refl, iblock_ind in Hxm.
    destruct (Z.eqb_spec (addr (ipof din n) 12) 0) as [E|E], (Z.eqb_spec l (NDIRECT * BSIZE)); try done; exfalso.
    - destruct (proj2 Hxm); [|done]. Z.div_mod_to_equations. lia.
    - apply Hxm in E. lia. }
  rewrite E12 in Hna. set (fb1 := fb + (if l =? NDIRECT * BSIZE then 1 else 0)) in *.
  eapply mwp_mono; [apply Hna; destruct (l mod BSIZE =? 0); lia|].
  intros din1 s1 (fb' & -> & Hs1 & Hi1 & Hd1 & Hk1 & Ha1 & Hib1). clear Hna.
  set (ib := addr (ipof din1 n) 12) in *. cbv zeta.
  assert (Ei : din_addr din1 NDIRECT = ib) by (unfold din_addr, ib; by rewrite addr_ipof by lia). rewrite Ei.
  assert (Hibr : 46 <= ib < fb1).
  { pose proof (mi_range _ _ _ _ _ Hi1 n MAXFILE Hn ltac:(lia)) as Hr. rewrite fset_eq, iblock_ind, nmeta_eq in Hr. by apply Hr. }
  pose proof (mi_fb _ _ _ _ _ Hi1) as Hfb1. rewrite nmeta_eq in Hfb1.
  apply mwp_bind. eapply mwp_rsect; [exact Hs1|lia|]. set (slot := (4 * Z.to_nat (l / BSIZE - NDIRECT))%nat).
  assert (Eib : getu32 (C ib) slot = iblock C (ipof din1 n) (l / BSIZE)).
  { unfold iblock. rewrite (proj2 (Z.ltb_ge _ _)), (proj2 (Z.eqb_neq (l / BSIZE) MAXFILE)) by lia. fold ib. by rewrite (proj2 (Z.eqb_neq ib 0)) by lia. }
  assert (Eold : iblock C (ipof din1 n) (l / BSIZE) = iblock C (ipof din n) (l / BSIZE)).
  { rewrite Hib1 by lia. rewrite decide_False by lia. by destruct (l =? NDIRECT * BSIZE). }
  rewrite Eib, Eold, fb_missing. destruct (Z.eqb_spec (l mod BSIZE) 0) as [E0|E0].
  - assert (Hf1 : fb1 < FSSIZE) by lia. apply mwp_bind. eapply mwp_next_block; [exact Hs1|lia|]. intros s2 Hs2.
    apply mwp_bind. eapply mwp_wsect; [exact Hs2|]. intros s3 Hs3. apply mwp_ret.
    assert (Hlen : length (C ib) = 1024%nat) by apply (mi_len _ _ _ _ _ Hi1).
    set (C' := bset C ib (put32 (C ib) slot fb1)) in *.
    assert (Hib2 : forall bn, 0 <= bn <= MAXFILE -> iblock C' (ipof din1 n) bn =
        if decide (bn = l / BSIZE) then fb1 else iblock C (ipof din1 n) bn).
    { intros bn Hb. apply (iblock_slot C (ipof din1 n)); fold ib; lia || done. }
    pose proof (minv_add C (fset I n (ipof din1 n)) fi fb1 F Hi1 n (l / BSIZE) Hn C' (ipof din1 n)) as Ha.
    rewrite fset_eq in Ha. specialize (Ha ltac:(rewrite Eold; apply Z.eqb_eq; rewrite fb_missing; by apply Z.eqb_eq) Hf1 ltac:(done) Hib2).
    lapply Ha; clear Ha; [intros Ha; lapply Ha; clear Ha; [intros Ha|]|].
    2: { intros b Hb. unfold C', bset. rewrite decide_False; [done|]. fold ib in Hb. lia. }
    2: { intros b. unfold C', bset. case_decide; [rewrite length_put32; [done|unfold slot; lia]|by apply (mi_len _ _ _ _ _ Hi1)]. }
    assert (Eg : getu32 (put32 (C ib) slot fb1) slot = fb1) by (rewrite getu32_put32, u32_small; [done|lia|unfold slot; lia]).
    exists C'. cbn [fst snd]. rewrite Eg. split_and!.
    + rewrite Enb. replace (fb + (1 + (if l =? NDIRECT * BSIZE then 1 else 0))) with (fb1 + 1) by (unfold fb1; lia).
      split; [done| |done|].
      * eapply minv_ext; [| |exact Ha]; [|done]. intros m _. unfold fset. by case_decide.
      * apply (fb_exact C' (ipof din1 n) fb1); [| |lia].
        -- intros bn Hb Hc. rewrite Hib2 by done. rewrite Hib1 by done.
           destruct (Z.eqb_spec l (NDIRECT * BSIZE)); repeat case_decide; naive_solver.
        -- intros _. rewrite Hib2, decide_False, iblock_ind by lia. fold ib. lia.
    + eapply mkeep_trans; [exact Hk1|]. split; [| |by destruct (ipof din1 n)].
      * intros b Hb. unfold C', bset. rewrite nmeta_eq in Hb. by rewrite decide_False by lia.
      * intros m bn Hne Hm' Hb. apply iblock_same. intros H0. unfold C', bset. rewrite decide_False; [done|]. intros E.
        destruct (mi_inj _ _ _ _ _ Hi1 m MAXFILE n MAXFILE) as [? _]; rewrite ?fset_eq, ?fset_ne, ?iblock_ind by done; try done; lia.
    + rewrite Hib2 by lia. by rewrite decide_True.
    + lia.
  - apply mwp_ret. exists C. cbn [fst snd]. split_and!; [|done|done|].
    + rewrite Enb, Z.add_0_l. fold fb1. split; [done|done|done|]. apply (fb_exact C (ipof din1 n) fb1); [| |lia].
      * intros bn Hb Hc. rewrite Hib1 by done. rewrite (decide_False (P := bn = l / BSIZE /\ l mod BSIZE = 0)) by naive_solver.
        destruct (Z.eqb_spec l (NDIRECT * BSIZE)); [|done]. rewrite decide_False by naive_solver. done.
      * intros ->. done.
    + intros E. apply E0. apply Z.eqb_eq. rewrite <- fb_missing. by apply Z.eqb_eq.
Qed.

Lemma mwp_file_block : mwp (file_block din (l / BSIZE)) fb_post s.
Proof. destruct (decide (l / BSIZE < NDIRECT)); [by apply fb_direct|apply fb_indirect; lia]. Qed.
End FileBlock.

(** ** [iappend] *)

(** Bytes written at the end of the file, in a block that it has. *)
Lemma mapp_write s C I fi fb F n din l w :
  let off := Z.of_nat (length (F n)) in
  let x := iblock C (ipof din n) (off / BSIZE) in
  let d := splice (C x) (Z.to_nat (off mod BSIZE)) w in
  mapp s C I fi fb F n din l -> 1 <= n < fi -> off < MAXFILE * BSIZE -> x <> 0 ->
  off mod BSIZE + Z.of_nat (length w) <= BSIZE ->
  nmeta <= x < FSSIZE /\
  forall s', mrep s' (bset C x d) fi fb ->
    mapp s' (bset C x d) I fi fb (fset F n (F n ++ w)) n din l /\ mkeep C I fi n (bset C x d) din din.
Proof.
  intros off x d [Hs Hi Hd Hx] Hn Hmax H0 Hw.
  assert (Hbn : 0 <= off / BSIZE < MAXFILE) by (unfold off in *; Z.div_mod_to_equations; lia).
  pose proof (mi_range _ _ _ _ _ Hi n (off / BSIZE) Hn ltac:(lia)) as Hr. rewrite fset_eq in Hr. fold x in Hr. specialize (Hr H0).
  pose proof (mi_fb _ _ _ _ _ Hi). split; [lia|]. intros s' Hs'.
  pose proof (minv_write C (fset I n (ipof din n)) fi fb F Hi n w Hn Hmax) as Hmw.
  pose proof (write_iblock C (fset I n (ipof din n)) fi fb F Hi n w Hn Hmax) as Hwi.
  rewrite fset_eq in Hmw, Hwi. fold off x d in Hmw, Hwi. specialize (Hmw H0 Hw). split.
  - split; [done|done|done|]. intros bn Hb. specialize (Hwi n bn Hn Hb). rewrite fset_eq in Hwi. rewrite Hwi. by apply Hx.
  - split; [| |by destruct (ipof din n)].
    + intros b Hb. unfold bset. by rewrite decide_False by lia.
    + intros m bn Hne Hm Hb. specialize (Hwi m bn Hm Hb). by rewrite fset_ne in Hwi.
Qed.

Lemma mwp_iappend_loop fuel : forall p s C I fi fb F n din,
  let off := Z.of_nat (length (F n)) in let l := off + Z.of_nat (length p) in
  mapp s C I fi fb F n din off -> 1 <= n < fi -> (length p <= fuel)%nat -> l <= MAXFILE * BSIZE ->
  fb + (nb l - nb off) <= FSSIZE ->
  mwp (iappend_loop din off p fuel) (fun '(din', off') s' => off' = l /\ exists C',
    mapp s' C' I fi (fb + (nb l - nb off)) (fset F n (F n ++ p)) n din' l /\ mkeep C I fi n C' din din') s.
Proof.
  induction fuel as [|fuel IH]; intros p s C I fi fb F n din off l Hm Hn Hf Hmax Hfb.
  - destruct p; [|cbn in Hf; lia]. cbn [iappend_loop]. apply mwp_ret. unfold l. cbn [length]. rewrite Z.add_0_r, Z.sub_diag, Z.add_0_r.
    split; [done|]. exists C. rewrite app_nil_r. split; [|apply mkeep_refl]. destruct Hm as [A1 A2 A3 A4]. split; try done.
    eapply minv_ext; [| |exact A2]; [done|]. intros m _. unfold fset. case_decide; by subst.
  - destruct (decide (p = [])) as [->|Hp].
    { cbn [iappend_loop]. apply mwp_ret. unfold l. cbn [length]. rewrite Z.add_0_r, Z.sub_diag, Z.add_0_r.
      split; [done|]. exists C. rewrite app_nil_r. split; [|apply mkeep_refl]. destruct Hm as [A1 A2 A3 A4]. split; try done.
      eapply minv_ext; [| |exact A2]; [done|]. intros m _. unfold fset. case_decide; by subst. }
    assert (Hlp : 0 < Z.of_nat (length p)) by (destruct p; [done|cbn; lia]).
    assert (Hoff : 0 <= off < MAXFILE * BSIZE) by (unfold off, l in *; lia).
    destruct p as [|c p']; [done|]. set (p := c :: p') in *. cbn [iappend_loop]. fold p.
    assert (Hbn : 0 <= off / BSIZE < MAXFILE) by (Z.div_mod_to_equations; lia).
    rewrite (proj2 (Z.ltb_lt (off / BSIZE) MAXFILE)) by lia. set (n1 := Z.min _ _).
    assert (Hn1 : 0 < n1 <= Z.of_nat (length p) /\ off + n1 <= (off / BSIZE + 1) * BSIZE) by (unfold n1; Z.div_mod_to_equations; lia).
    pose proof (nb_mono (off + n1) l ltac:(unfold l; lia)) as Hnb.
    apply mwp_bind. eapply mwp_mono; [apply (mwp_file_block s C I fi fb F n din off (off + n1)); try done; lia|].
    intros [din1 x] s1 (C1 & Hm1 & Hk1 & Ex & Hx0). cbn [fst snd] in *.
    set (w := take (Z.to_nat n1) p). assert (Hw : length w = Z.to_nat n1) by (unfold w; rewrite length_take; lia).
    pose proof (mapp_write s1 C1 I fi (fb + (nb (off + n1) - nb off)) F n din1 (off + n1) w) as Hmw. cbv zeta in Hmw. fold off in Hmw.
    rewrite <- Ex in Hmw. destruct Hmw as [Hxr Hwr]; [done|done|lia|done|rewrite Hw; Z.div_mod_to_equations; lia|].
    rewrite nmeta_eq in Hxr. apply mwp_bind. eapply mwp_rsect; [apply Hm1|lia|].
    assert (Eo : Z.to_nat (off - off / BSIZE * BSIZE) = Z.to_nat (off mod BSIZE)) by (f_equal; Z.div_mod_to_equations; lia).
    rewrite Eo. apply mwp_bind. eapply mwp_wsect; [apply Hm1|]. intros s2 Hs2.
    rewrite <- Hw in Hs2.
    destruct (Hwr s2 Hs2) as [Hm2 Hk2]. set (C2 := bset C1 x _) in *.
    specialize (IH (drop (Z.to_nat n1) p) s2 C2 I fi (fb + (nb (off + n1) - nb off)) (fset F n (F n ++ w)) n din1). cbv zeta in IH.
    rewrite fset_eq in IH. assert (El1 : Z.of_nat (length (F n ++ w)) = off + n1) by (rewrite length_app, Hw; unfold off; lia).
    rewrite El1 in IH. assert (El : off + n1 + Z.of_nat (length (drop (Z.to_nat n1) p)) = l) by (rewrite length_drop; unfold l; lia).
    rewrite El in IH. eapply mwp_mono; [apply IH; try done; rewrite ?length_drop; lia|].
    intros [din' off'] s' (-> & C' & Hm' & Hk'). split; [done|]. exists C'. split.
    + replace (fb + (nb l - nb off)) with (fb + (nb (off + n1) - nb off) + (nb l - nb (off + n1))) by lia.
      destruct Hm' as [A1 A2 A3 A4]. split; try done. eapply minv_ext; [| |exact A2]; [done|].
      intros m _. unfold fset. case_decide; [|done]. subst. rewrite <- app_assoc. f_equal. unfold w. by rewrite take_drop.
    + eapply mkeep_trans; [exact Hk1|]. by eapply mkeep_trans.
Qed.

(** ** The image between the operations *)

(** Blocks before the data do not hold file contents. *)
Lemma minv_meta C C' I fi fb F :
  (forall b, nmeta <= b -> C' b = C b) -> (forall b, length (C' b) = 1024%nat) ->
  minv C I fi fb F -> minv C' I fi fb F.
Proof.
  intros HC Hl H. pose proof H as [A1 A2 A3 A4 A5 A6 A7].
  assert (Eb : forall n bn, 1 <= n < fi -> iblock C' (I n) bn = iblock C (I n) bn).
  { intros n bn Hn. apply iblock_same. intros H0. apply HC. by apply (A5 n MAXFILE Hn ltac:(lia)). }
  split; try done.
  - intros b Hb. rewrite HC by lia. by apply A3.
  - intros n bn Hn. rewrite Eb by done. by apply A5.
  - intros n bn n' bn' Hn Hb Hn'. rewrite !Eb by done. by apply A6.
  - intros n x Hn Hx. rewrite <- A7 by done. unfold fbyte. rewrite Eb by done.
    destruct (Z.eqb_spec (iblock C (I n) (x / BSIZE)) 0); [done|]. rewrite HC; [done|].
    apply (A5 n (x / BSIZE)); [done| |done]. Z.div_mod_to_equations. lia.
Qed.

Fixpoint total F (k : nat) : Z :=
  match k with O => 0 | S k' => total F k' + nb (Z.of_nat (length (F (Z.of_nat k)))) end.

Lemma total_ext F F' k : (forall n, 1 <= n <= Z.of_nat k -> F' n = F n) -> total F' k = total F k.
Proof.
  induction k as [|k IH]; intros H; [done|]. cbn [total]. rewrite IH by (intros; apply H; lia). by rewrite H by lia.
Qed.
Lemma total_fset F k n f :
  1 <= n <= Z.of_nat k ->
  total (fset F n f) k = total F k + (nb (Z.of_nat (length f)) - nb (Z.of_nat (length (F n)))).
Proof.
  induction k as [|k IH]; intros Hn; [lia|]. cbn [total]. destruct (decide (n = Z.of_nat (S k))) as [->|Hne].
  - rewrite fset_eq. rewrite (total_ext F) by (intros; rewrite fset_ne by lia; done). lia.
  - rewrite fset_ne by done. rewrite IH by lia. lia.
Qed.

(** The whole image: inodes 1 to [fi - 1] are on disk, of type [ty n], with one link and the
    contents [F n], in the first blocks after the metadata. *)
Record ginv (s : img) C fi fb F (ty : Z -> Z) : Prop := {
  gi_rep : mrep s C fi fb;
  gi_fi : 1 <= fi <= NINODES;
  gi_inv : minv C (dinode C mkfs_sb) fi fb F;
  gi_exact n : 1 <= n < fi -> exact C (dinode C mkfs_sb n) (Z.of_nat (length (F n)));
  gi_size n : 1 <= n < fi -> i_size (dinode C mkfs_sb n) = Z.of_nat (length (F n)) /\ Z.of_nat (length (F n)) <= MAXFILE * BSIZE;
  gi_type n : 1 <= n < fi -> i_type (dinode C mkfs_sb n) = ty n /\ i_nlink (dinode C mkfs_sb n) = 1;
  gi_fb : fb = nmeta + total F (Z.to_nat (fi - 1))
}.

(** ** Reading and writing inodes *)

Lemma mkfs_inode_block n : 0 <= n < NINODES -> IBLOCK n (sb_inodestart mkfs_sb) = inum_block mkfs_sb n /\ 32 <= inum_block mkfs_sb n < 45.
Proof.
  intros Hn. assert (0 <= n / IPB <= 12) by (Z.div_mod_to_equations; lia).
  unfold IBLOCK, inum_block. change (sb_inodestart mkfs_sb) with 32. rewrite u32_small by lia. lia.
Qed.
Lemma ioff_eq n : 0 <= n -> ioff n = di_off n.
Proof. intros Hn. unfold ioff, di_off, DINODE. pose proof (Z.mod_pos_bound n IPB ltac:(lia)). lia. Qed.

Lemma mwp_rinode s C fi fb n (Q : list Z -> img -> Prop) :
  mrep s C fi fb -> 0 <= n < NINODES -> (forall b, length (C b) = 1024%nat) ->
  (forall din, length din = 64%nat -> ipof din n = dinode C mkfs_sb n -> Q din s) -> mwp (rinode n) Q s.
Proof.
  intros Hs Hn Hl HQ. destruct (mkfs_inode_block n Hn) as [E Hb]. unfold rinode. apply mwp_bind. rewrite E.
  eapply mwp_rsect; [done|lia|]. apply mwp_ret. rewrite ioff_eq by lia. unfold DINODE. apply HQ; [|by rewrite dinode_ipof].
  rewrite length_take, length_drop, Hl by lia. pose proof (di_off_range n). lia.
Qed.

(** The inode blocks with inode [n] replaced. *)
Definition put_inode C n (din : list Z) : Z -> list Z :=
  let b := inum_block mkfs_sb n in bset C b (splice (C b) (di_off n) din).

Lemma put_inode_same C n din :
  length (C (inum_block mkfs_sb n)) = 1024%nat -> length din = 64%nat -> dinode (put_inode C n din) mkfs_sb n = ipof din n.
Proof.
  intros Hl Hd. pose proof (di_off_range n). rewrite dinode_ipof. f_equal. unfold put_inode, bset, splice. rewrite decide_True by done.
  pose proof (splice_same (C (inum_block mkfs_sb n)) din (di_off n)) as H'. rewrite Hd in *. apply H'. lia.
Qed.

Lemma put_inode_other C n m din :
  length (C (inum_block mkfs_sb n)) = 1024%nat -> length din = 64%nat -> 0 <= n -> 0 <= m -> m <> n ->
  dinode (put_inode C n din) mkfs_sb m = dinode C mkfs_sb m.
Proof.
  intros Hl Hd Hn Hm Hne. rewrite !dinode_ipof. f_equal. unfold put_inode, bset. case_decide as E; [|done]. rewrite E.
  unfold splice. pose proof (di_off_range n). pose proof (splice_other (C (inum_block mkfs_sb n)) din (di_off n) (di_off m) 64) as H'.
  rewrite Hd in *. apply H'; [lia|]. unfold inum_block in E. unfold di_off. Z.div_mod_to_equations. lia.
Qed.

Lemma mwp_winode s C fi fb n din (Q : unit -> img -> Prop) :
  mrep s C fi fb -> 0 <= n < NINODES -> length din = 64%nat ->
  (forall s', mrep s' (put_inode C n din) fi fb -> Q tt s') -> mwp (winode n din) Q s.
Proof.
  intros Hs Hn Hd HQ. destruct (mkfs_inode_block n Hn) as [E Hb]. unfold winode. apply mwp_bind. rewrite E.
  eapply mwp_rsect; [done|lia|]. rewrite ioff_eq by lia. unfold DINODE. eapply mwp_wsect; [done|].
  intros s' Hs'. apply HQ. unfold put_inode, splice. by rewrite Hd.
Qed.

(** The file's inode is written back. *)
Lemma ginv_winode s C C1 fi fb fb1 F ty n din din1 p :
  let l := Z.of_nat (length (F n ++ p)) in
  ginv s C fi fb F ty -> 1 <= n < fi -> l <= MAXFILE * BSIZE -> ipof din n = dinode C mkfs_sb n ->
  fb1 = fb + (nb l - nb (Z.of_nat (length (F n)))) ->
  minv C1 (fset (dinode C mkfs_sb) n (ipof din1 n)) fi fb1 (fset F n (F n ++ p)) -> length din1 = 64%nat ->
  exact C1 (ipof din1 n) l -> mkeep C (dinode C mkfs_sb) fi n C1 din din1 ->
  forall s', mrep s' (put_inode C1 n (put32 din1 8 l)) fi fb1 ->
  ginv s' (put_inode C1 n (put32 din1 8 l)) fi fb1 (fset F n (F n ++ p)) ty.
Proof.
  intros l [Gr Gf Gi Gx Gs Gt Gb] Hn Hl Ed -> Hi1 Hd1 Hx1 [Km Ko Ki] s' Hs'.
  assert (Hlen : forall b, length (C1 b) = 1024%nat) by apply Hi1.
  assert (Hn200 : 0 <= n < NINODES) by lia. destruct (mkfs_inode_block n Hn200) as [_ Hb].
  assert (Hd2 : length (put32 din1 8 l) = 64%nat) by (rewrite length_put32; lia).
  set (C2 := put_inode C1 n (put32 din1 8 l)) in *.
  assert (E2 : dinode C2 mkfs_sb n = set_i_size l (ipof din1 n)).
  { unfold C2. rewrite put_inode_same by (try apply Hlen; lia). apply ipof_set_size; [done|]. unfold l in *. lia. }
  assert (Eo : forall m, 1 <= m < fi -> m <> n -> dinode C2 mkfs_sb m = dinode C mkfs_sb m).
  { intros m Hm Hne. unfold C2. rewrite put_inode_other by (try apply Hlen; lia).
    destruct (mkfs_inode_block m ltac:(lia)) as [_ Hbm]. unfold dinode, full. cbn [i_inum]. by rewrite Km by (rewrite nmeta_eq; lia). }
  assert (HC2 : forall b, nmeta <= b -> C2 b = C1 b).
  { intros b Hb'. unfold C2, put_inode, bset. rewrite nmeta_eq in *. by rewrite decide_False by lia. }
  assert (Hi2 : minv C2 (dinode C2 mkfs_sb) fi (fb + (nb l - nb (Z.of_nat (length (F n))))) (fset F n (F n ++ p))).
  { eapply minv_ext; [|done|eapply minv_meta; [exact HC2| |exact Hi1]].
    - intros m Hm. destruct (decide (m = n)) as [->|]; [by rewrite fset_eq, E2|]. by rewrite fset_ne, Eo.
    - intros b. unfold C2, put_inode, bset. case_decide; [|by apply Hlen].
      pose proof (di_off_range n). rewrite length_splice; rewrite Hlen by lia; lia. }
  assert (Eib : forall ip bn, (addr ip 12 <> 0 -> nmeta <= addr ip 12) -> iblock C2 ip bn = iblock C1 ip bn).
  { intros ip bn H. apply iblock_same. intros H0. by apply HC2, H. }
  split; [done|done|done| | | |].
  - intros m Hm bn Hbn. destruct (decide (m = n)) as [->|Hne].
    + rewrite fset_eq, E2. change (iblock C2 (set_i_size l (ipof din1 n)) bn) with (iblock C2 (ipof din1 n) bn).
      rewrite Eib; [by apply Hx1|]. intros H0. pose proof (mi_range _ _ _ _ _ Hi1 n MAXFILE Hn ltac:(lia)) as Hr.
      rewrite fset_eq, iblock_ind in Hr. by apply Hr.
    + rewrite fset_ne, Eo by done. rewrite Eib, Ko by done || (intros H0; by apply (mi_range _ _ _ _ _ Gi m MAXFILE)).
      by apply Gx.
  - intros m Hm. destruct (decide (m = n)) as [->|Hne]; [by rewrite fset_eq, E2|]. rewrite fset_ne, Eo by done. by apply Gs.
  - intros m Hm. destruct (decide (m = n)) as [->|Hne]; [|rewrite Eo by done; by apply Gt]. rewrite E2.
    rewrite Ki, Ed. by apply Gt.
  - rewrite total_fset by lia. fold l. lia.
Qed.

Lemma mwp_iappend s C fi fb F ty n p :
  let l := Z.of_nat (length (F n ++ p)) in let fb1 := fb + (nb l - nb (Z.of_nat (length (F n)))) in
  ginv s C fi fb F ty -> 1 <= n < fi -> l <= MAXFILE * BSIZE -> fb1 <= FSSIZE ->
  mwp (iappend n p) (fun _ s' => exists C', ginv s' C' fi fb1 (fset F n (F n ++ p)) ty /\
    forall b, b < 32 -> C' b = C b) s.
Proof.
  intros l fb1 G Hn Hl Hfb. pose proof G as [Gr Gf Gi Gx Gs Gt Gb]. unfold iappend. apply mwp_bind.
  eapply mwp_rinode; [done|lia|apply Gi|]. intros din Hd Ed.
  assert (Esz : getu32 din 8 = Z.of_nat (length (F n))).
  { destruct (Gs n Hn) as [<- _]. rewrite <- Ed. done. }
  rewrite Esz. assert (El : Z.of_nat (length (F n)) + Z.of_nat (length p) = l) by (unfold l; rewrite length_app; lia).
  assert (Hm : mapp s C (dinode C mkfs_sb) fi fb F n din (Z.of_nat (length (F n)))).
  { split; [done| |done|rewrite Ed; by apply Gx]. eapply minv_ext; [|done|exact Gi].
    intros m _. destruct (decide (m = n)) as [->|]; [by rewrite fset_eq, Ed|by rewrite fset_ne]. }
  apply mwp_bind. eapply mwp_mono; [apply (mwp_iappend_loop _ p s C (dinode C mkfs_sb) fi fb F n din); try done; rewrite El; done|].
  rewrite El. intros [din1 off'] s1 (-> & C1 & [Hs1 Hi1 Hd1 Hx1] & Hk). eapply mwp_winode; [done|lia|rewrite length_put32; lia|].
  intros s2 Hs2. exists (put_inode C1 n (put32 din1 8 l)). split.
  - by eapply (ginv_winode s C C1 fi fb).
  - intros b Hb. destruct (mkfs_inode_block n ltac:(lia)) as [_ Hbn]. unfold put_inode, bset. rewrite decide_False by lia.
    apply Hk. rewrite nmeta_eq. lia.
Qed.
