(* ===== verification/MkfsThms.v ===== *)
(** The image that [mkfs] builds, as the kernel sees it: a kernel on the disk that [mkfs]
    made finds the host's files by name and reads what the host had. *)
From S2P Require Import Prelude Types Str Kalloc Vm Sched Sleeplock Bio BioSess Uart Printf Log LogSpec Crash LogOps Concrete.
From S2P Require Import Fs FsBlk FsFile FsWrite Sysfile Dirs PathThms Inodes FsThms NameThms Mkfs MkfsSpec.

Implicit Types (C : Z -> list Z) (F : Z -> list Z) (ty : Z -> Z) (fi fb n : Z) (name bs : list Z).

(** ** [ialloc] *)

Definition new_dinode (type : Z) : list Z := put32 (put16 (put16 (replicate DINODE 0) 0 type) 6 1) 8 0.

Lemma ipof_new type n : 0 <= type < 2 ^ 15 ->
  ipof (new_dinode type) n = Inode ROOTDEV n 1 (SleepLock false 0) true type 0 0 1 0 (replicate 13 0).
Proof.
  intros Ht. assert (0 <= type / 256 < 128) by (Z.div_mod_to_equations; lia).
  assert (E : new_dinode type = [type mod 256; type / 256 mod 256] ++ replicate 4 0 ++ [1; 0] ++ replicate 56 0).
  { unfold new_dinode, put16, put32. reflexivity. }
  rewrite E. unfold ipof, load_dinode. cbn -[Z.div Z.modulo Z.mul Z.add]. unfold set_i_valid. cbn -[Z.div Z.modulo Z.mul Z.add]. f_equal.
  unfold get16. cbn -[Z.div Z.modulo Z.mul Z.add i16]. rewrite (Z.mod_small (type / 256)) by lia.
  replace (type mod 256 + 256 * (type / 256 + 256 * 0)) with type by (Z.div_mod_to_equations; lia). unfold i16. rewrite Z.mod_small; lia.
Qed.

(** Block contents below the inodes. *)
Definition low_same C C' : Prop := forall b, b < 32 -> C' b = C b.

Lemma mwp_ialloc s C fi fb F ty t :
  ginv s C fi fb F ty -> fi < NINODES -> 0 <= t < 2 ^ 15 ->
  mwp (ialloc t) (fun r s' => r = fi /\ exists C',
    ginv s' C' (fi + 1) fb (fset F fi []) (fset ty fi t) /\ low_same C C') s.
Proof.
  intros G Hfi Ht. pose proof G as [Gr Gf Gi Gx Gs Gt Gb]. unfold ialloc. apply mwp_bind.
  eapply mwp_next_inode; [done|lia|]. intros s1 Hs1. fold (new_dinode t). apply mwp_bind.
  eapply mwp_winode; [exact Hs1|lia|done|]. intros s2 Hs2. apply mwp_ret. split; [done|].
  destruct (mkfs_inode_block fi ltac:(lia)) as [_ Hb]. assert (Hlen : forall b, length (C b) = 1024%nat) by apply Gi.
  set (C2 := put_inode C fi (new_dinode t)) in *. exists C2. split.
  2: { intros b Hb'. unfold C2, put_inode, bset. by rewrite decide_False by lia. }
  assert (E2 : dinode C2 mkfs_sb fi = Inode ROOTDEV fi 1 (SleepLock false 0) true t 0 0 1 0 (replicate 13 0)).
  { unfold C2. rewrite put_inode_same; [by apply ipof_new|apply Hlen; lia|done]. }
  assert (Eo : forall m, 1 <= m < fi -> dinode C2 mkfs_sb m = dinode C mkfs_sb m).
  { intros m Hm. unfold C2. apply put_inode_other; [apply Hlen; lia|done|lia|lia|lia]. }
  assert (HC2 : forall b, nmeta <= b -> C2 b = C b).
  { intros b Hb'. unfold C2, put_inode, bset. rewrite nmeta_eq in *. by rewrite decide_False by lia. }
  assert (Hi2 : minv C2 (dinode C2 mkfs_sb) fi fb F).
  { eapply minv_ext; [|done|eapply minv_meta; [exact HC2| |exact Gi]]; [intros m Hm; by rewrite Eo|].
    intros b. unfold C2, put_inode, bset. case_decide; [|by apply Hlen].
    pose proof (di_off_range fi). rewrite length_splice; rewrite Hlen by lia; change (length (new_dinode t)) with 64%nat; lia. }
  assert (Hz : forall bn, 0 <= bn <= MAXFILE -> iblock C2 (dinode C2 mkfs_sb fi) bn = 0).
  { intros bn Hbn. rewrite E2. unfold iblock, addr. cbn [i_addrs]. destruct (Z.ltb_spec bn NDIRECT).
    - rewrite nth_lookup. destruct (replicate 13 0 !! _) eqn:E; [|done]. by apply lookup_replicate in E as [-> _].
    - by destruct (bn =? MAXFILE). }
  assert (Eib : forall m bn, 1 <= m < fi -> iblock C2 (dinode C2 mkfs_sb m) bn = iblock C (dinode C mkfs_sb m) bn).
  { intros m bn Hm. rewrite Eo by done. apply iblock_same. intros H0. apply HC2. by apply (mi_range _ _ _ _ _ Gi m MAXFILE). }
  split; [done|lia| | | | |].
  - destruct Hi2 as [A1 A2 A3 A4 A5 A6 A7]. split; [done|done|done| | | |].
    + intros m Hm. destruct (decide (m = fi)) as [->|]; [by rewrite E2|]. apply A4. lia.
    + intros m bn Hm Hbn. destruct (decide (m = fi)) as [->|]; [by rewrite Hz|]. apply A5; [lia|done].
    + intros m bn m' bn' Hm Hbn Hm' Hbn' E H0. destruct (decide (m = fi)) as [->|]; [by rewrite Hz in H0|].
      destruct (decide (m' = fi)) as [->|]; [rewrite Hz in E by done; by rewrite E in H0|]. apply A6; try done; lia.
    + intros m x Hm Hx. destruct (decide (m = fi)) as [->|].
      * rewrite fset_eq. unfold fbyte. rewrite Hz by (Z.div_mod_to_equations; lia). by destruct (Z.to_nat x).
      * rewrite fset_ne by done. apply A7; [lia|done].
  - intros m Hm bn Hbn. destruct (decide (m = fi)) as [->|].
    + rewrite fset_eq, Hz by done. cbn [length]. destruct (Z.eqb_spec bn MAXFILE); lia.
    + rewrite fset_ne, Eib by lia. apply Gx; [lia|done].
  - intros m Hm. destruct (decide (m = fi)) as [->|]; [rewrite fset_eq, E2; split; [done|cbn; lia]|].
    rewrite fset_ne, Eo by lia. apply Gs. lia.
  - intros m Hm. destruct (decide (m = fi)) as [->|]; [by rewrite fset_eq, E2|]. rewrite fset_ne, Eo by lia. apply Gt. lia.
  - rewrite Gb. replace (Z.to_nat (fi + 1 - 1)) with (S (Z.to_nat (fi - 1))) by lia. cbn [total].
    rewrite (total_ext F (fset F fi [])) by (intros; rewrite fset_ne by lia; done).
    replace (Z.of_nat (S (Z.to_nat (fi - 1)))) with fi by lia. rewrite fset_eq.
    change (nb (Z.of_nat (length []))) with 0. lia.
Qed.

Lemma ginv_ext s C fi fb F F' ty ty' :
  (forall m, 1 <= m < fi -> F' m = F m) -> (forall m, 1 <= m < fi -> ty' m = ty m) ->
  ginv s C fi fb F ty -> ginv s C fi fb F' ty'.
Proof.
  intros EF Et [Gr Gf Gi Gx Gs Gt Gb]. split; [done|done| | | | |].
  - by eapply minv_ext; [| |exact Gi].
  - intros n Hn. rewrite EF by done. by apply Gx.
  - intros n Hn. rewrite EF by done. by apply Gs.
  - intros n Hn. rewrite Et by done. by apply Gt.
  - rewrite Gb. f_equal. symmetry. apply total_ext. intros m Hm. apply EF. lia.
Qed.

(** ** Copying the files *)

Lemma mwp_append_file fuel : forall s C fi fb F ty n bs,
  let l := Z.of_nat (length (F n ++ bs)) in let fb1 := fb + (nb l - nb (Z.of_nat (length (F n)))) in
  ginv s C fi fb F ty -> 1 <= n < fi -> l <= MAXFILE * BSIZE -> fb1 <= FSSIZE -> (length bs <= fuel)%nat ->
  mwp (append_file n bs fuel) (fun _ s' => exists C', ginv s' C' fi fb1 (fset F n (F n ++ bs)) ty /\ low_same C C') s.
Proof.
  induction fuel as [|fuel IH]; intros s C fi fb F ty n bs l fb1 G Hn Hl Hfb Hf.
  all: destruct bs as [|c bs']; [|try (cbn in Hf; lia)].
  1,2: apply mwp_ret; exists C; split; [|done]; subst fb1 l; rewrite app_nil_r, Z.sub_diag, Z.add_0_r;
    apply (ginv_ext _ _ _ _ F _ ty); [|done|done]; intros m _; destruct (decide (m = n)) as [->|];
    [by rewrite fset_eq|by rewrite fset_ne].
  cbn [append_file]. set (bs := c :: bs') in *. set (w := take (Z.to_nat BSIZE) bs). set (r := drop (Z.to_nat BSIZE) bs).
  assert (E : bs = w ++ r) by (unfold w, r; by rewrite take_drop).
  assert (Hw : (0 < length w)%nat) by (unfold w, bs; rewrite length_take; cbn [length]; lia).
  assert (El : l = Z.of_nat (length ((F n ++ w) ++ r))) by (unfold l; by rewrite E, app_assoc).
  assert (Hlw : Z.of_nat (length (F n ++ w)) <= l) by (rewrite El, (length_app _ r); lia).
  pose proof (nb_mono _ _ Hlw) as Hnb.
  apply mwp_bind. eapply mwp_mono; [apply (mwp_iappend s C fi fb F ty n w); [done|done|lia|unfold fb1 in *; lia]|].
  intros _ s1 (C1 & G1 & HC1). eapply mwp_mono.
  - apply (IH s1 C1 fi _ _ ty n r G1 Hn); rewrite ?fset_eq, <- ?El; [lia|unfold fb1 in *; lia|].
    unfold r. rewrite length_drop. change (Z.to_nat BSIZE) with 1024%nat. lia.
  - intros _ s2 (C2 & G2 & HC2). exists C2. split; [|intros b Hb; by rewrite HC2, HC1].
    rewrite !fset_eq, <- El in G2. replace (fb + _ + _) with fb1 in G2 by (unfold fb1; lia).
    eapply ginv_ext; [|done|exact G2]. intros m _. rewrite E, app_assoc.
    destruct (decide (m = n)) as [->|]; [by rewrite !fset_eq|by rewrite !fset_ne].
Qed.

(** The name a host file gets. *)
Definition shortname name : list Z := strip_underscore (strip_user name).
(** The type of the inodes: the first is the root directory. *)
Definition ftype n : Z := if n =? ROOTINO then T_DIR else T_FILE.

(** The entries of the root directory for the files, the first being inode [fi], and the
    number of blocks of the files. *)
Fixpoint dirents fi (files : list (list Z * list Z)) : list Z :=
  match files with [] => [] | (name, _) :: fs => dirent fi (shortname name) ++ dirents (fi + 1) fs end.
Definition data_blocks (files : list (list Z * list Z)) : Z := foldr (fun f n => nb (Z.of_nat (length f.2)) + n) 0 files.

(** What [mkfs] asks of a host file: no directory in its name, at most 14 characters, and
    a size that an inode can hold. *)
Record file_fits (f : list Z * list Z) : Prop := {
  ff_slash : 47 ∉ strip_user f.1;
  ff_name : (length (shortname f.1) <= 14)%nat;
  ff_size : Z.of_nat (length f.2) <= MAXFILE * BSIZE
}.

Lemma length_dirent i name : length (dirent i name) = 16%nat.
Proof. unfold dirent. rewrite length_app, strncpy_name, length_app, length_replicate. pose proof (fname_length name). cbn [length xshort]. lia. Qed.
Lemma length_dirents fi files : length (dirents fi files) = (16 * length files)%nat.
Proof. revert fi. induction files as [|[nm bs] fs IH]; intros fi; cbn [dirents length]; [done|]. rewrite length_app, length_dirent, IH. lia. Qed.
Lemma data_blocks_cons f files : data_blocks (f :: files) = nb (Z.of_nat (length f.2)) + data_blocks files.
Proof. done. Qed.
Lemma data_blocks_nonneg files : 0 <= data_blocks files.
Proof.
  induction files as [|f fs IH]; [done|]. rewrite data_blocks_cons.
  pose proof (nb_mono 0 (Z.of_nat (length f.2)) ltac:(lia)). change (nb 0) with 0 in *. lia.
Qed.

Lemma mwp_add_files files : forall s C fi fb F,
  let r := Z.of_nat (length (F ROOTINO)) in let k := Z.of_nat (length files) in
  let fb1 := fb + (nb (r + 16 * k) - nb r) + data_blocks files in
  ginv s C fi fb F ftype -> 2 <= fi -> fi + k <= NINODES -> Forall file_fits files ->
  r + 16 * k <= MAXFILE * BSIZE -> fb1 <= FSSIZE ->
  mwp (add_files ROOTINO files) (fun _ s' => exists C' F',
    ginv s' C' (fi + k) fb1 F' ftype /\ low_same C C' /\ F' ROOTINO = F ROOTINO ++ dirents fi files /\
    (forall i f, files !! i = Some f -> F' (fi + Z.of_nat i) = f.2) /\ (forall m, 1 < m < fi -> F' m = F m)) s.
Proof.
  induction files as [|[name bs] fs IH]; intros s C fi fb F r k fb1 G Hfi Hk Hok Hr Hfb.
  { apply mwp_ret. exists C, F. unfold k, fb1, r in *. cbn [length dirents data_blocks foldr Z.of_nat Z.mul] in *.
    rewrite app_nil_r, Z.mul_0_r, !Z.add_0_r, Z.sub_diag, Z.add_0_r. split_and!; try done. }
  inversion Hok as [|? ? [Hsl Hnm Hsz] Hok']; subst. cbn [fst snd] in *. cbn [add_files].
  destruct (existsb (Z.eqb 47) (strip_user name)) eqn:Esl.
  { apply existsb_exists in Esl as (x & Hx%list_elem_of_In & <-%Z.eqb_eq). done. }
  fold (shortname name). rewrite (proj2 (Z.leb_le _ _)) by lia. cbn [negb].
  set (k' := Z.of_nat (length fs)). assert (Ek : k = k' + 1) by (unfold k, k'; cbn [length]; lia).
  assert (Efb : fb1 = fb + (nb (r + 16) - nb r) + nb (Z.of_nat (length bs)) + (nb (r + 16 + 16 * k') - nb (r + 16)) + data_blocks fs).
  { unfold fb1. rewrite Ek. replace (r + 16 * (k' + 1)) with (r + 16 + 16 * k') by lia. rewrite data_blocks_cons. cbn [snd]. lia. }
  pose proof (data_blocks_nonneg fs). pose proof (nb_mono (r + 16) (r + 16 + 16 * k') ltac:(lia)).
  pose proof (nb_mono 0 (Z.of_nat (length bs)) ltac:(lia)) as Hb0. change (nb 0) with 0 in Hb0.
  apply mwp_bind. eapply mwp_mono; [apply (mwp_ialloc s C fi fb F ftype T_FILE G); lia|].
  intros i s1 (-> & C1 & G1 & HC1). set (F1 := fset F fi []) in *.
  assert (E1 : F1 ROOTINO = F ROOTINO) by (unfold F1; by rewrite fset_ne by lia).
  assert (El : Z.of_nat (length (F1 ROOTINO ++ dirent fi (shortname name))) = r + 16) by (rewrite E1, length_app, length_dirent; unfold r; lia).
  apply mwp_bind. eapply mwp_mono; [apply (mwp_iappend s1 C1 _ _ _ _ _ (dirent fi (shortname name)) G1); rewrite ?El, ?E1; fold r; lia|].
  rewrite El, E1. fold r. intros _ s2 (C2 & G2 & HC2). set (F2 := fset F1 ROOTINO _) in *.
  assert (E2 : F2 fi = []) by (unfold F2, F1; by rewrite fset_ne, fset_eq by lia).
  apply mwp_bind. eapply mwp_mono.
  { apply (mwp_append_file (length bs) s2 C2 _ _ _ _ fi bs G2); rewrite ?E2; cbn [app length]; change (nb (Z.of_nat 0)) with 0; lia. }
  rewrite E2. cbn [app length]. change (nb (Z.of_nat 0)) with 0. rewrite Z.sub_0_r. intros _ s3 (C3 & G3 & HC3). set (F3 := fset F2 fi bs) in *.
  assert (E3 : F3 ROOTINO = F ROOTINO ++ dirent fi (shortname name)) by (unfold F3, F2; by rewrite fset_ne, fset_eq by lia).
  assert (Er : Z.of_nat (length (F3 ROOTINO)) = r + 16) by (rewrite E3, <- E1; done).
  eapply ginv_ext in G3 as G3'; [eapply mwp_mono; [eapply (IH s3 C3 _ _ F3 G3')|]|done|].
  1-5: rewrite ?Er; fold k'; try lia; done.
  2: { intros m Hm. unfold fset, ftype. case_decide; [|done]. by rewrite (proj2 (Z.eqb_neq m ROOTINO)) by lia. }
  - rewrite Er. fold k'. intros _ s4 (C4 & F4 & G4 & HC4 & E4 & H4 & H4'). exists C4, F4.
    rewrite <- Efb in G4. replace (fi + 1 + k') with (fi + k) in G4 by lia. split_and!; [done| | | |].
    + intros b Hb. by rewrite HC4, HC3, HC2, HC1.
    + rewrite E4, E3. cbn [dirents]. by rewrite app_assoc.
    + intros [|i] f Hf; cbn in Hf.
      * injection Hf as <-. rewrite Z.add_0_r, H4' by lia. unfold F3. by rewrite fset_eq.
      * replace (fi + Z.of_nat (S i)) with (fi + 1 + Z.of_nat i) by lia. by apply H4.
    + intros m Hm. rewrite H4' by lia. unfold F3, F2, F1. by rewrite !fset_ne by lia.
Qed.

(** ** The bitmap *)

Lemma length_bitmap_loop buf i k : length (bitmap_loop buf i k) = length buf.
Proof. revert buf i. induction k as [|k IH]; intros buf i; [done|]. cbn [bitmap_loop]. by rewrite IH, length_insert. Qed.

Lemma bit_bitmap_loop k : forall buf (i j : nat),
  (i + k <= 8 * length buf)%nat ->
  bit (bitmap_loop buf (Z.of_nat i) k) j = bit buf j || bool_decide (i <= j < i + k)%nat.
Proof.
  induction k as [|k IH]; intros buf i j Hl; cbn [bitmap_loop].
  { rewrite bool_decide_eq_false_2, orb_false_r by lia. done. }
  assert (Hi : (i / 8 < length buf)%nat) by (apply Nat.Div0.div_lt_upper_bound; lia).
  replace (<[_ := _]> buf) with (set_bit buf i).
  2: { unfold set_bit, bit_mask. change 8 with (Z.of_nat 8). rewrite <- Nat2Z.inj_div, <- Nat2Z.inj_mod, Nat2Z.id. done. }
  replace (Z.of_nat i + 1) with (Z.of_nat (S i)) by lia. rewrite IH by (rewrite length_set_bit; lia).
  rewrite bit_set by done. case_decide as E.
  - subst. rewrite (bool_decide_eq_true_2 (j <= j < _)%nat) by lia. by rewrite orb_true_r.
  - f_equal. apply bool_decide_ext. lia.
Qed.

Definition bitmap fb : list Z := bitmap_loop (replicate (Z.to_nat BSIZE) 0) 0 (Z.to_nat fb).

Lemma bitmap_used C fb b :
  C 45 = bitmap fb -> 0 <= fb <= BPB -> 0 <= b < BPB -> used mkfs_sb C b = (b <? fb).
Proof.
  intros E Hfb Hb. unfold used, bmblock. change (sb_bmapstart mkfs_sb) with 45. rewrite Z.div_small, Z.mod_small by lia.
  rewrite Z.add_0_r, E. unfold bitmap. change 0 with (Z.of_nat 0) at 2. rewrite bit_bitmap_loop by (rewrite length_replicate; lia).
  replace (bit (replicate _ 0) _) with false; [|unfold bit; rewrite nth_replicate, Z.testbit_0_l; done].
  cbn [orb]. destruct (Z.ltb_spec b fb); [apply bool_decide_eq_true_2|apply bool_decide_eq_false_2]; lia.
Qed.

(** ** The start *)

Lemma mwp_zero_blocks k : forall s i (Q : unit -> img -> Prop),
  (forall s', (forall b, m_blocks s' !! b = if decide (i <= b < i + Z.of_nat k) then Some (replicate 1024 0) else m_blocks s !! b) ->
     m_freeinode s' = m_freeinode s -> m_freeblock s' = m_freeblock s -> Q tt s') -> mwp (zero_blocks i k) Q s.
Proof.
  induction k as [|k IH]; intros s i Q HQ; cbn [zero_blocks].
  { apply mwp_ret, HQ; [|done|done]. intros b. by rewrite decide_False by lia. }
  unfold mk_bind, wsect, mwp. apply IH. intros s' Hb E1 E2. apply HQ; [|done|done]. intros b. rewrite Hb. cbn [m_blocks].
  destruct (decide (b = i)) as [->|].
  - rewrite decide_False by lia. rewrite decide_True by lia. by rewrite lookup_insert_eq.
  - rewrite lookup_insert_ne by done. destruct (decide (i + 1 <= b < i + 1 + Z.of_nat k)); [rewrite decide_True by lia|rewrite decide_False by lia]; done.
Qed.

Definition sb_block : list Z := sb_bytes mkfs_sb ++ replicate (Z.to_nat BSIZE - 32) 0.

Lemma ginv_start s ty : mrep s (bset (fun _ => replicate 1024 0) 1 sb_block) 1 nmeta ->
  ginv s (bset (fun _ => replicate 1024 0) 1 sb_block) 1 nmeta (fun _ => []) ty.
Proof.
  intros Hs. split; [done|lia| |intros; lia|intros; lia|intros; lia|done].
  split; try (intros; lia).
  - intros b. unfold bset. case_decide; [done|]. apply length_replicate.
  - rewrite nmeta_eq. lia.
  - intros b Hb. rewrite nmeta_eq in *. unfold bset. by rewrite decide_False by lia.
Qed.

(** ** The finished image *)

(** The first two entries of the root directory, and all of them. *)
Definition root_bytes (files : list (list Z * list Z)) : list Z :=
  dirent ROOTINO (lit ".") ++ dirent ROOTINO (lit "..") ++ dirents 2 files.
(** The first block that is free, and the size of the root directory: whole blocks. *)
Definition image_end (files : list (list Z * list Z)) : Z :=
  nmeta + nb (16 * (Z.of_nat (length files) + 2)) + data_blocks files.
Definition root_size (files : list (list Z * list Z)) : Z :=
  (16 * (Z.of_nat (length files) + 2) / BSIZE + 1) * BSIZE.
Definition file_bytes (files : list (list Z * list Z)) n : list Z :=
  if n =? ROOTINO then root_bytes files else (nth (Z.to_nat (n - 2)) files ([], [])).2.

Record disk_image C (files : list (list Z * list Z)) : Prop := {
  im_sb : C 1 = sb_block;
  im_inv : minv C (dinode C mkfs_sb) (2 + Z.of_nat (length files)) (image_end files) (file_bytes files);
  im_exact n : 1 <= n < 2 + Z.of_nat (length files) -> exact C (dinode C mkfs_sb n) (Z.of_nat (length (file_bytes files n)));
  im_type n : 1 <= n < 2 + Z.of_nat (length files) -> i_type (dinode C mkfs_sb n) = ftype n /\ i_nlink (dinode C mkfs_sb n) = 1;
  im_size n : 1 <= n < 2 + Z.of_nat (length files) ->
    i_size (dinode C mkfs_sb n) = if n =? ROOTINO then root_size files else Z.of_nat (length (file_bytes files n));
  im_used b : 0 <= b < FSSIZE -> used mkfs_sb C b = (b <? image_end files)
}.

(** What [mkfs] needs of the files together. *)
Record files_fit (files : list (list Z * list Z)) : Prop := {
  fs_each : Forall file_fits files;
  fs_inodes : Z.of_nat (length files) + 2 <= NINODES;
  fs_blocks : image_end files <= FSSIZE
}.

Lemma length_root_bytes files : Z.of_nat (length (root_bytes files)) = 16 * (Z.of_nat (length files) + 2).
Proof. unfold root_bytes. rewrite !length_app, !length_dirent, length_dirents. lia. Qed.

Lemma image_finish files s C fb F din :
  let k := Z.of_nat (length files) in
  files_fit files -> ginv s C (2 + k) (image_end files) F ftype -> fb = image_end files -> C 1 = sb_block ->
  (forall n, 1 <= n < 2 + k -> F n = file_bytes files n) -> length din = 64%nat -> ipof din ROOTINO = dinode C mkfs_sb ROOTINO ->
  disk_image (bset (put_inode C ROOTINO (put32 din 8 (root_size files))) 45 (bitmap fb)) files.
Proof.
  intros k [_ Hk Hfb] G -> H1 HF Hd Ed. eapply ginv_ext in G; [|intros; symmetry; by apply HF|done].
  destruct G as [Gr Gf Gi Gx Gs Gt _]. fold k in Hk. pose proof (mi_fb _ _ _ _ _ Gi) as Hfb1. rewrite nmeta_eq in Hfb1.
  assert (Hlen : forall b, length (C b) = 1024%nat) by apply Gi.
  assert (Hsz : 0 <= root_size files < 2 ^ 32) by (unfold root_size; fold k; Z.div_mod_to_equations; lia).
  set (C1 := put_inode C ROOTINO (put32 din 8 (root_size files))). set (C2 := bset C1 45 _).
  assert (HB : inum_block mkfs_sb ROOTINO = 32) by done.
  assert (E0 : forall n, 1 <= n < 2 + k -> dinode C2 mkfs_sb n = dinode C1 mkfs_sb n).
  { intros n Hn. destruct (mkfs_inode_block n ltac:(lia)) as [_ Hb]. unfold dinode, full. cbn [i_inum]. unfold C2, bset.
    by rewrite decide_False by lia. }
  assert (Er : dinode C2 mkfs_sb ROOTINO = set_i_size (root_size files) (dinode C mkfs_sb ROOTINO)).
  { rewrite E0 by lia. unfold C1. rewrite put_inode_same, ipof_set_size, Ed; rewrite ?length_put32, ?HB; try apply Hlen; lia || done. }
  assert (Eo : forall n, 1 <= n < 2 + k -> n <> ROOTINO -> dinode C2 mkfs_sb n = dinode C mkfs_sb n).
  { intros n Hn Hne. rewrite E0 by done. unfold C1. apply put_inode_other; rewrite ?length_put32, ?HB; try apply Hlen; lia. }
  assert (HC : forall b, nmeta <= b -> C2 b = C b).
  { intros b Hb. rewrite nmeta_eq in Hb. unfold C2, C1, put_inode, bset. rewrite HB. by rewrite !decide_False by lia. }
  assert (Eib : forall n bn, 1 <= n < 2 + k -> iblock C2 (dinode C2 mkfs_sb n) bn = iblock C (dinode C mkfs_sb n) bn).
  { intros n bn Hn. transitivity (iblock C2 (dinode C mkfs_sb n) bn).
    - apply iblock_addrs. destruct (decide (n = ROOTINO)) as [->|]; [by rewrite Er|by rewrite Eo].
    - apply iblock_same. intros H0. apply HC. by apply (mi_range _ _ _ _ _ Gi n MAXFILE). }
  split; fold k.
  - unfold C2, C1, put_inode, bset. rewrite HB. by rewrite !decide_False by lia.
  - eapply minv_ext; [|done|eapply minv_meta; [exact HC| |exact Gi]].
    + intros n Hn. destruct (decide (n = ROOTINO)) as [->|]; [by rewrite Er|by rewrite Eo].
    + intros b. unfold C2, C1, put_inode, bset. case_decide; [unfold bitmap; by rewrite length_bitmap_loop, length_replicate|].
      case_decide; [|by apply Hlen]. rewrite HB. pose proof (di_off_range ROOTINO).
      rewrite length_splice; rewrite Hlen by lia; rewrite ?length_put32, ?Hd; lia.
  - intros n Hn bn Hbn. rewrite Eib by done. by apply Gx.
  - intros n Hn. destruct (decide (n = ROOTINO)) as [->|]; [rewrite Er|rewrite Eo by done]; by apply Gt.
  - intros n Hn. destruct (Z.eqb_spec n ROOTINO) as [->|]; [by rewrite Er|]. rewrite Eo by done. by apply Gs.
  - intros b Hb. apply bitmap_used; [|lia|lia]. unfold C2, bset. by rewrite decide_True.
Qed.

(** The root directory with its first two entries. *)
Lemma mwp_root s C fb : ginv s C 2 fb (fun _ => []) ftype -> fb + 1 <= FSSIZE ->
  mwp (let* _ := iappend ROOTINO (dirent ROOTINO (lit ".")) in iappend ROOTINO (dirent ROOTINO (lit "..")))
    (fun _ s' => exists C', low_same C C' /\
      ginv s' C' 2 (fb + 1) (fun _ => dirent ROOTINO (lit ".") ++ dirent ROOTINO (lit "..")) ftype) s.
Proof.
  intros G Hfb. apply mwp_bind. eapply mwp_mono; [apply (mwp_iappend s C _ _ _ _ _ _ G)|].
  1-3: cbn [app]; rewrite ?length_dirent; change (nb (Z.of_nat 16)) with 1; change (nb (Z.of_nat (length []))) with 0; change MAXFILE with 268; lia.
  intros _ s1 (C1 & G1 & HC1). eapply mwp_mono; [apply (mwp_iappend s1 C1 _ _ _ _ _ _ G1)|].
  1-3: rewrite ?fset_eq; cbn [app]; rewrite ?length_app, ?length_dirent; change (nb (Z.of_nat (16 + 16))) with 1; change (nb (Z.of_nat 16)) with 1; change (nb (Z.of_nat (length []))) with 0; change MAXFILE with 268; lia.
  intros _ s2 (C2 & G2 & HC2). exists C2. split; [intros b Hb; by rewrite HC2, HC1|].
  rewrite !fset_eq in G2. cbn [app] in G2. rewrite length_app, !length_dirent in G2.
  change (nb (Z.of_nat (16 + 16))) with 1 in G2. change (nb (Z.of_nat 16)) with 1 in G2. change (nb (Z.of_nat (length []))) with 0 in G2.
  replace (fb + (1 - 0) + (1 - 1)) with (fb + 1) in G2 by lia.
  eapply ginv_ext; [|done|exact G2]. intros m Hm. replace m with ROOTINO by lia. by rewrite !fset_eq.
Qed.

Lemma mwp_bind_assoc {A B D} (c : MK A) (k : A -> MK B) (k' : B -> MK D) Q s :
  mwp (mk_bind (mk_bind c k) k') Q s -> mwp (mk_bind c (fun a => mk_bind (k a) k')) Q s.
Proof. unfold mwp, mk_bind. by destruct (c s) as [[a s']|]. Qed.

Lemma minv_content C C' fi fb F :
  (forall b, C' b = C b) -> minv C (dinode C mkfs_sb) fi fb F -> minv C' (dinode C' mkfs_sb) fi fb F.
Proof.
  intros H M. eapply minv_ext; [|done|eapply minv_meta; [intros; apply H| |exact M]].
  - intros n _. unfold dinode. by rewrite (full_ext C C').
  - intros b. rewrite H. by apply M.
Qed.

Lemma image_content C C' files : (forall b, C' b = C b) -> disk_image C files -> disk_image C' files.
Proof.
  intros H [A1 A2 A3 A4 A5 A6].
  assert (Ed : forall n, dinode C' mkfs_sb n = dinode C mkfs_sb n) by (intros; unfold dinode; by apply full_ext).
  split; [by rewrite H|by apply (minv_content C)| | | |].
  - intros n Hn bn Hbn. rewrite Ed. rewrite (iblock_same C C') by (intros; apply H). by apply A3.
  - intros n. rewrite Ed. apply A4.
  - intros n. rewrite Ed. apply A5.
  - intros b Hb. rewrite (used_ext _ C) by done. by apply A6.
Qed.

Lemma mwp_build files : files_fit files ->
  mwp (build files) (fun _ s' => disk_image (dget (m_blocks s')) files) (Img ∅ 1 nmeta).
Proof.
  intros Fit. pose proof Fit as [Hok Hk Hfb]. set (k := Z.of_nat (length files)) in *. pose proof (data_blocks_nonneg files) as Hdb.
  assert (Hnb : 1 <= nb (16 * (k + 2))) by (apply (nb_mono 32); lia). unfold image_end in Hfb. rewrite nmeta_eq in Hfb. fold k in Hfb.
  unfold build. apply mwp_bind, mwp_zero_blocks. intros s0 Hb0 Ei Ef.
  assert (R0 : mrep s0 (fun _ => replicate 1024 0) 1 nmeta).
  { split; [| |done|done]; intros b; rewrite ?Hb0; [intros Hb; rewrite decide_True by lia; by eexists|].
    unfold dget. rewrite Hb0. by case_decide. }
  apply mwp_bind. eapply mwp_wsect; [exact R0|]. fold sb_block. intros s1 R1. apply (ginv_start s1 ftype) in R1 as G1.
  apply mwp_bind. eapply mwp_mono; [apply (mwp_ialloc s1 _ _ _ _ _ T_DIR G1); lia|]. intros r s2 (-> & C2 & G2 & HC2). cbn [Z.eqb negb Pos.eqb].
  apply mwp_bind_assoc, mwp_bind. eapply mwp_mono; [apply (mwp_root s2 C2 nmeta)|].
  { eapply ginv_ext; [| |exact G2]; intros m Hm; replace m with ROOTINO by lia; by rewrite fset_eq. }
  { rewrite nmeta_eq. lia. }
  intros _ s3 (C3 & HC3 & G3). set (F3 := fun _ : Z => dirent ROOTINO (lit ".") ++ dirent ROOTINO (lit "..")) in *.
  assert (E3 : Z.of_nat (length (F3 ROOTINO)) = 32) by (unfold F3; by rewrite length_app, !length_dirent).
  assert (Eend : nmeta + 1 + (nb (32 + 16 * k) - nb 32) + data_blocks files = image_end files).
  { unfold image_end. fold k. change (nb 32) with 1. replace (16 * (k + 2)) with (32 + 16 * k) by lia. lia. }
  apply mwp_bind. eapply mwp_mono; [apply (mwp_add_files files s3 C3 2 _ F3 G3)|]; rewrite ?E3; fold k; rewrite ?Eend.
  1-5: try done; unfold image_end; fold k; rewrite ?nmeta_eq; change MAXFILE with 268; lia.
  intros _ s4 (C4 & F4 & G4 & HC4 & Er & Ef4 & _).
  assert (HF : forall n, 1 <= n < 2 + k -> F4 n = file_bytes files n).
  { intros n Hn. unfold file_bytes. destruct (Z.eqb_spec n ROOTINO) as [->|Hne].
    - rewrite Er. unfold F3, root_bytes. by rewrite app_assoc.
    - destruct (lookup_lt_is_Some_2 files (Z.to_nat (n - 2))) as [f Hf]; [lia|]. erewrite nth_lookup_Some by done.
      rewrite <- (Ef4 _ _ Hf). f_equal. lia. }
  pose proof (gi_rep _ _ _ _ _ _ G4) as R4. apply mwp_bind. eapply mwp_rinode; [exact R4|lia|apply G4|]. intros din Hd Ed.
  assert (Esz : getu32 din 8 = 16 * (k + 2)).
  { destruct (gi_size _ _ _ _ _ _ G4 ROOTINO ltac:(lia)) as [E _]. rewrite <- Ed, HF in E by lia.
    change (i_size (ipof din ROOTINO)) with (getu32 din 8) in E. rewrite E. apply length_root_bytes. }
  rewrite Esz. fold (root_size files). apply mwp_bind. eapply mwp_winode; [exact R4|lia|rewrite length_put32; lia|]. intros s5 R5.
  match goal with |- mwp _ ?Q _ => change (mwp (balloc (m_freeblock s5)) Q s5) end. rewrite (mr_fb _ _ _ _ R5). unfold balloc. rewrite (proj2 (Z.ltb_lt _ _)) by (unfold image_end; fold k; rewrite nmeta_eq; lia).
  eapply mwp_wsect; [exact R5|]. fold (bitmap (image_end files)). intros s6 R6.
  eapply image_content; [apply R6|]. eapply image_finish; try done. by rewrite HC4, HC3, HC2.
Qed.

(** ** The root directory *)

(** The entries, and what the kernel reads of them. *)
Fixpoint file_entries fi (files : list (list Z * list Z)) : list (Z * list Z) :=
  match files with [] => [] | (name, _) :: fs => (fi, shortname name) :: file_entries (fi + 1) fs end.
Definition root_entries (files : list (list Z * list Z)) : list (Z * list Z) :=
  (ROOTINO, lit ".") :: (ROOTINO, lit "..") :: file_entries 2 files.
Definition pack (es : list (Z * list Z)) : list Z := mjoin ((fun e => dirent e.1 e.2) <$> es).

Lemma root_bytes_pack files : root_bytes files = pack (root_entries files).
Proof.
  unfold root_bytes, root_entries, pack. cbn [fmap list_fmap mjoin list_join fst snd]. do 2 f_equal. generalize 2.
  induction files as [|[nm bs] fs IH]; intros i; [done|]. cbn [dirents file_entries fmap list_fmap mjoin list_join fst snd]. by rewrite IH.
Qed.

Lemma lookup_file_entries i files j : file_entries i files !! j = (fun f => (i + Z.of_nat j, shortname f.1)) <$> files !! j.
Proof.
  revert i j. induction files as [|[nm bs] fs IH]; intros i [|j]; cbn [file_entries lookup list_lookup fmap option_fmap option_map]; try done.
  - by rewrite Z.add_0_r.
  - rewrite IH. destruct (fs !! j); cbn; [|done]. do 2 f_equal. lia.
Qed.

Lemma nth_pack es (k j : nat) : (j < 16)%nat ->
  nth (16 * k + j) (pack es) 0 = match es !! k with Some e => nth j (dirent e.1 e.2) 0 | None => 0 end.
Proof.
  revert k. unfold pack. induction es as [|e es IH]; intros k Hj; cbn [fmap list_fmap mjoin list_join].
  { by destruct (16 * k + j)%nat. }
  destruct k as [|k]; cbn [lookup list_lookup].
  - rewrite app_nth1 by (rewrite length_dirent; lia). done.
  - rewrite app_nth2; rewrite length_dirent; [|lia]. rewrite <- IH by done. f_equal. lia.
Qed.

Lemma dirent_mk i name : 0 <= i < 2 ^ 16 -> dirent i name = mk_dirent i name.
Proof. intros Hi. unfold dirent, mk_dirent. rewrite xshort_le. unfold u16. by rewrite Z.mod_small. Qed.

(** Names as C has them. *)
Definition name_ok name : Prop := bytes name /\ 0 ∉ name.

Lemma shortname_ok name : name_ok name -> name_ok (shortname name).
Proof.
  assert (Hsub : forall l l', l' `suffix_of` l -> name_ok l -> name_ok l').
  { intros l l' [p ->] [Hb H0]. unfold bytes in Hb. rewrite Forall_app in Hb. rewrite elem_of_app in H0. split; [apply Hb|tauto]. }
  intros H. apply (Hsub name); [|done]. unfold shortname. trans (strip_user name).
  - unfold strip_underscore. destruct (strip_user name) as [|c l]; [done|]. destruct (c =? 95); [by eexists [c]|done].
  - unfold strip_user. destruct (_ =? 0); [|done]. exists (take 5 name). by rewrite take_drop.
Qed.

Lemma fname_short name : name_ok name -> (length name <= 14)%nat -> fname name = name.
Proof. intros [_ H0] Hl. unfold fname. rewrite take_ge by done. by apply cstr_clean_end. Qed.

Lemma dirent_bytes i name : bytes name -> bytes (dirent i name).
Proof.
  intros H. unfold dirent, bytes. rewrite xshort_le, strncpy_name. rewrite !Forall_app. split_and!.
  - repeat constructor; apply Z.mod_pos_bound; lia.
  - unfold fname. by apply cstr_bytes, Forall_take.
  - apply Forall_replicate. lia.
Qed.

(** ** What the kernel finds *)

Lemma dfind_first nm D k j a :
  D !! j = Some (Some (nm, a)) -> (forall j' b, (j' < j)%nat -> D !! j' <> Some (Some (nm, b))) -> dfind nm D k = Some ((k + j)%nat, a).
Proof.
  revert k j. induction D as [|e D IH]; intros k j Hj Hb; [done|]. destruct j as [|j].
  - injection Hj as ->. cbn. rewrite bool_decide_eq_true_2 by done. by rewrite Nat.add_0_r.
  - assert (E : dfind nm D (S k) = Some ((k + S j)%nat, a)).
    { rewrite (IH (S k) j Hj); [do 2 f_equal; lia|]. intros j' b Hj'. apply (Hb (S j')). lia. }
    destruct e as [[nm' b]|]; cbn; [|done]. rewrite bool_decide_eq_false_2; [done|]. intros ->. by apply (Hb 0%nat b); [lia|].
Qed.

Section Image.
Context (C : Z -> list Z) (files : list (list Z * list Z)).
Context (Im : disk_image C files) (Fit : files_fit files) (Hnames : Forall (fun f => name_ok f.1) files).
Let k := Z.of_nat (length files).
(** The last block of the root directory is not full. *)
Context (Hlast : (k + 2) mod 64 <> 0).

#[local] Abbreviation ino := (dinode C mkfs_sb).
Definition in_image n : Prop := 1 <= n < 2 + Z.of_nat (length files).

Lemma image_end_range : nmeta < image_end files <= FSSIZE.
Proof.
  split; [|apply Fit]. unfold image_end. pose proof (data_blocks_nonneg files). pose proof (nb_mono 32 (16 * (k + 2)) ltac:(lia)).
  change (nb 32) with 1 in *. fold k. lia.
Qed.

Lemma image_meta : meta_used mkfs_sb C.
Proof.
  intros b Hb. change (data_start mkfs_sb) with 46 in Hb. pose proof image_end_range as He. rewrite nmeta_eq in He.
  rewrite (im_used _ _ Im) by lia. lia.
Qed.

Lemma length_file_bytes n : in_image n -> Z.of_nat (length (file_bytes files n)) <= MAXFILE * BSIZE.
Proof.
  intros Hn. unfold file_bytes. pose proof (fs_inodes _ Fit). destruct (Z.eqb_spec n ROOTINO).
  - rewrite length_root_bytes. change MAXFILE with 268. lia.
  - unfold in_image in Hn. destruct (lookup_lt_is_Some_2 files (Z.to_nat (n - 2))) as [f Hf]; [lia|]. erewrite nth_lookup_Some by done.
    pose proof (fs_each _ Fit) as He. rewrite Forall_lookup in He. by apply (He _ _ Hf).
Qed.

Lemma root_size_range : 0 <= root_size files <= MAXFILE * BSIZE.
Proof. unfold root_size. pose proof (fs_inodes _ Fit). change MAXFILE with 268. Z.div_mod_to_equations. lia. Qed.

Lemma image_file_wf n : in_image n -> file_wf mkfs_sb C (ino n).
Proof.
  intros Hn. pose proof (im_inv _ _ Im) as M. pose proof image_end_range as He. split.
  - done.
  - by apply M.
  - intros bn Hbn. destruct (decide (iblock C (ino n) bn = 0)) as [|Hne]; [by left|right].
    pose proof (mi_range _ _ _ _ _ M n bn Hn Hbn Hne) as Hr. rewrite nmeta_eq in Hr. change (data_start mkfs_sb) with 46.
    unfold in_use. change (data_start mkfs_sb) with 46. change (sb_size mkfs_sb) with 2000.
    split_and!; [lia|lia|lia|]. rewrite (im_used _ _ Im) by lia. lia.
  - intros bn bn' Hbn Hbn' E H0. by apply (mi_inj _ _ _ _ _ M n bn n bn').
  - rewrite (im_size _ _ Im) by done. destruct (n =? ROOTINO); [apply root_size_range|]. pose proof (length_file_bytes n Hn). lia.
Qed.

Lemma image_byte n x : in_image n -> 0 <= x < MAXFILE * BSIZE -> fbyte C (ino n) x = nth (Z.to_nat x) (file_bytes files n) 0.
Proof. apply (im_inv _ _ Im). Qed.

(** Reading a whole file gives its bytes. *)
Lemma image_read n : in_image n -> fread C (ino n) 0 (length (file_bytes files n)) = file_bytes files n.
Proof.
  intros Hn. pose proof (length_file_bytes n Hn). apply list_eq_same_length with (length (file_bytes files n)); [done|by rewrite length_fread|].
  intros i x y Hi Hx Hy. rewrite fread_lookup in Hx by done. injection Hx as <-. rewrite image_byte by (done || lia).
  replace (Z.to_nat (0 + Z.of_nat i)) with i by lia. by apply nth_lookup_Some.
Qed.

Lemma root_in : in_image ROOTINO.
Proof. unfold in_image. lia. Qed.

Lemma root_entry_ok e : e ∈ root_entries files -> in_image e.1 /\ name_ok e.2 /\ (length e.2 <= 14)%nat.
Proof.
  intros [j Hj]%list_elem_of_lookup. destruct j as [|[|j]]; cbn in Hj.
  1,2: injection Hj as <-; split; [apply root_in|]; split; [|cbn; lia]; split; [by apply (bool_decide_unpack (bytes _)); vm_compute|];
    by apply (bool_decide_unpack (0 ∉ _)); vm_compute.
  rewrite lookup_file_entries in Hj. destruct (files !! j) as [f|] eqn:Hf; [|done]. injection Hj as <-. cbn [fst snd].
  pose proof (lookup_lt_Some _ _ _ Hf). pose proof (fs_each _ Fit) as He. pose proof Hnames as Hn. rewrite Forall_lookup in He, Hn.
  split; [unfold in_image; lia|]. split; [by apply shortname_ok, (Hn _ _ Hf)|by apply (He _ _ Hf)].
Qed.

Lemma root_slot j : (Z.of_nat j < root_size files / 16) ->
  dslot C (ino ROOTINO) j = match root_entries files !! j with Some e => dirent e.1 e.2 | None => replicate 16 0 end.
Proof.
  intros Hj. pose proof root_size_range as Hs. set (d := match _ with Some _ => _ | None => _ end).
  assert (Hd : length d = 16%nat) by (unfold d; destruct (_ !! j); [apply length_dirent|done]).
  apply list_eq_same_length with 16%nat; [done|apply length_fread|]. intros i x y Hi Hx Hy. unfold dslot in Hx.
  rewrite fread_lookup in Hx by done. injection Hx as <-. rewrite image_byte by (apply root_in || (Z.div_mod_to_equations; lia)).
  change (file_bytes files ROOTINO) with (root_bytes files). rewrite root_bytes_pack.
  replace (Z.to_nat _) with (16 * j + i)%nat by lia. rewrite nth_pack by done. apply nth_lookup_Some with (d := 0) in Hy. rewrite <- Hy.
  unfold d. destruct (_ !! j); [done|]. by rewrite nth_replicate.
Qed.

Definition root_dir : list slot :=
  [Some (lit ".", ROOTINO); Some (lit "..", ROOTINO)] ++ imap (fun i f => Some (shortname f.1, 2 + Z.of_nat i)) files ++
  replicate (Z.to_nat (root_size files / 16) - (length files + 2)) None.

Lemma lookup_root_dir j : (j < Z.to_nat (root_size files / 16))%nat ->
  root_dir !! j = Some ((fun e => (e.2, e.1)) <$> root_entries files !! j).
Proof.
  intros Hj. unfold root_dir, root_entries. destruct j as [|[|j]]; [done|done|].
  rewrite lookup_app_r by (cbn; lia). replace (S (S j) - _)%nat with j by (cbn; lia).
  change ((_ :: _ :: ?l) !! S (S j)) with (l !! j). rewrite lookup_file_entries. destruct (files !! j) as [f|] eqn:Hf.
  - rewrite lookup_app_l by (rewrite length_imap; by eapply lookup_lt_Some). by rewrite list_lookup_imap, Hf.
  - apply lookup_ge_None in Hf. rewrite lookup_app_r by (by rewrite length_imap). rewrite length_imap.
    apply lookup_replicate_2. lia.
Qed.

Lemma root_count : Z.of_nat (length files) + 2 <= root_size files / 16 <= 200 * 16.
Proof. unfold root_size. pose proof (fs_inodes _ Fit). Z.div_mod_to_equations. lia. Qed.

Lemma length_root_dir : length root_dir = Z.to_nat (root_size files / 16).
Proof. unfold root_dir. rewrite !length_app, length_imap, length_replicate. cbn [length]. pose proof root_count. lia. Qed.

Lemma root_isize : i_size (ino ROOTINO) = root_size files.
Proof. by rewrite (im_size _ _ Im) by apply root_in. Qed.

Lemma image_dir : dir C (ino ROOTINO) = root_dir.
Proof.
  assert (Hc : dcount (ino ROOTINO) = Z.to_nat (root_size files / 16)) by (unfold dcount; by rewrite root_isize).
  apply list_eq_same_length with (Z.to_nat (root_size files / 16)); [apply length_root_dir|unfold dir; by rewrite length_fmap, length_seq|].
  intros j x y Hj Hx Hy. rewrite lookup_root_dir in Hy by done. injection Hy as <-. unfold dir in Hx.
  rewrite list_lookup_fmap, lookup_seq_lt in Hx by lia. injection Hx as <-. cbn [Nat.add]. rewrite root_slot by lia.
  destruct (root_entries files !! j) as [e|] eqn:He; [|done].
  destruct (root_entry_ok e) as (Hi & Hn & Hl); [by eapply list_elem_of_lookup_2|]. unfold in_image in Hi. pose proof (fs_inodes _ Fit).
  rewrite dirent_mk, mk_dirent_entry, fname_short by (done || lia). done.
Qed.

Lemma image_dir_wf : dir_wf C (ino ROOTINO).
Proof.
  pose proof root_size_range as Hs. pose proof root_in as Hi. pose proof root_count as Hc. split; rewrite ?root_isize.
  - by apply (im_type _ _ Im ROOTINO Hi).
  - unfold root_size. Z.div_mod_to_equations. lia.
  - intros x Hx. rewrite Z.add_0_l in Hx.
    apply (im_exact _ _ Im ROOTINO Hi (x / BSIZE)); [Z.div_mod_to_equations; lia|].
    change (file_bytes files ROOTINO) with (root_bytes files). rewrite length_root_bytes. fold k.
    assert (x / BSIZE < MAXFILE) by (Z.div_mod_to_equations; lia). rewrite (proj2 (Z.eqb_neq _ _)) by lia.
    unfold root_size in Hx. fold k in Hx. clear -Hx Hlast. Z.div_mod_to_equations. lia.
  - intros x Hx. rewrite image_byte by (done || lia). change (file_bytes files ROOTINO) with (root_bytes files).
    rewrite root_bytes_pack. destruct (nth_in_or_default (Z.to_nat x) (pack (root_entries files)) 0) as [H| ->]; [|lia].
    revert H. generalize (nth (Z.to_nat x) (pack (root_entries files)) 0). intros y Hy%list_elem_of_In. unfold pack in Hy.
    apply list_elem_of_join in Hy as (l & Hy & Hl). apply list_elem_of_fmap in Hl as (e & -> & He).
    destruct (root_entry_ok e He) as (_ & [Hb _] & _). pose proof (dirent_bytes e.1 e.2 Hb) as H. unfold bytes in H.
    rewrite Forall_forall in H. by apply H.
Qed.

Lemma image_type n : in_image n -> i_type (ino n) = T_DIR -> n = ROOTINO.
Proof. intros Hn. rewrite (proj1 (im_type _ _ Im n Hn)). unfold ftype. by destruct (Z.eqb_spec n ROOTINO). Qed.

Lemma image_tree : tree_ok C mkfs_sb in_image.
Proof.
  split.
  - intros n Hn. unfold in_image in Hn. unfold inum_ok. pose proof (fs_inodes _ Fit). change (sb_ninodes mkfs_sb) with 200. lia.
  - intros n Hn. rewrite (proj1 (im_type _ _ Im n Hn)). unfold ftype. by destruct (_ =? _).
  - intros n Hn. by rewrite (proj2 (im_type _ _ Im n Hn)).
  - apply image_file_wf.
  - intros n Hn ->%image_type; [|done]. apply image_dir_wf.
  - intros n j nm n' Hn ->%image_type; [|done]. rewrite image_dir. intros Hj.
    assert (j < Z.to_nat (root_size files / 16))%nat by (rewrite <- length_root_dir; by eapply lookup_lt_Some).
    rewrite lookup_root_dir in Hj by done. destruct (root_entries files !! j) as [e|] eqn:He; [|done]. injection Hj as <- <-.
    by apply (root_entry_ok e); eapply list_elem_of_lookup_2.
Qed.

(** Looking a file up by its name. *)
Lemma image_resolve i f :
  files !! i = Some f -> shortname f.1 <> lit "." -> shortname f.1 <> lit ".." ->
  (forall j g, (j < i)%nat -> files !! j = Some g -> shortname g.1 <> shortname f.1) ->
  resolve C mkfs_sb ROOTINO [shortname f.1] false = Some (2 + Z.of_nat i).
Proof.
  intros Hf H1 H2 Hfirst. cbn [resolve]. rewrite (proj1 (im_type _ _ Im ROOTINO root_in)). change (negb (ftype ROOTINO =? T_DIR)) with false.
  cbn [andb]. pose proof (lookup_lt_Some _ _ _ Hf) as Hi. pose proof root_count as Hc.
  pose proof (fs_each _ Fit) as He. pose proof Hnames as Hn. rewrite Forall_lookup in He, Hn.
  rewrite fname_short by (apply shortname_ok, (Hn _ _ Hf) || apply (He _ _ Hf)). rewrite image_dir.
  erewrite (dfind_first _ _ 0 (S (S i))); [done| |].
  - rewrite lookup_root_dir by lia. unfold root_entries. change ((_ :: _ :: ?l) !! S (S i)) with (l !! i). by rewrite lookup_file_entries, Hf.
  - intros j b Hj. rewrite lookup_root_dir by lia. unfold root_entries. destruct j as [|[|j]]; [intros [= E _]; by apply H1|intros [= E _]; by apply H2|].
    change ((_ :: _ :: ?l) !! S (S j)) with (l !! j). rewrite lookup_file_entries. intros E.
    destruct (files !! j) as [g|] eqn:Hg; [|done]. injection E as E _. by apply (Hfirst j g); [lia| |].
Qed.

Lemma image_no_hole n : in_image n -> n <> ROOTINO -> no_hole C (ino n) 0 (i_size (ino n)).
Proof.
  intros Hn Hne x Hx. rewrite Z.add_0_l, (im_size _ _ Im), (proj2 (Z.eqb_neq _ _)) in Hx by done.
  pose proof (length_file_bytes n Hn). apply (im_exact _ _ Im n Hn (x / BSIZE)); [Z.div_mod_to_equations; lia|].
  assert (x / BSIZE < MAXFILE) by (Z.div_mod_to_equations; lia). rewrite (proj2 (Z.eqb_neq _ _)) by lia. Z.div_mod_to_equations. lia.
Qed.

Lemma file_bytes_lookup i f : files !! i = Some f -> in_image (2 + Z.of_nat i) /\ file_bytes files (2 + Z.of_nat i) = f.2.
Proof.
  intros Hf. pose proof (lookup_lt_Some _ _ _ Hf). split; [unfold in_image; lia|]. unfold file_bytes.
  rewrite (proj2 (Z.eqb_neq _ _)) by lia. replace (Z.to_nat _) with i by lia. by erewrite nth_lookup_Some.
Qed.

Lemma image_file i f : files !! i = Some f ->
  let ip := ino (2 + Z.of_nat i) in
  i_type ip = T_FILE /\ i_nlink ip = 1 /\ i_size ip = Z.of_nat (length f.2) /\
  no_hole C ip 0 (i_size ip) /\ fread C ip 0 (length f.2) = f.2.
Proof.
  intros Hf ip. destruct (file_bytes_lookup i f Hf) as [Hi Eb]. assert (Hne : 2 + Z.of_nat i <> ROOTINO) by lia.
  destruct (im_type _ _ Im _ Hi) as [Ht Hk]. pose proof (im_size _ _ Im _ Hi) as Hs. pose proof (image_read _ Hi) as Hr.
  rewrite Eb in Hs, Hr. unfold ftype in Ht. rewrite (proj2 (Z.eqb_neq _ _) Hne) in Hs, Ht.
  split_and!; [done|done|done|by apply image_no_hole|done].
Qed.
End Image.

Lemma image_sb C files : disk_image C files -> get_superblock (C 1) = mkfs_sb.
Proof. intros Im. rewrite (im_sb _ _ Im). by vm_compute. Qed.

Lemma mwp_elim {A} (c : MK A) Q s : mwp c Q s -> exists a s', c s = Some (a, s') /\ Q a s'.
Proof. unfold mwp. destruct (c s) as [[a s']|]; [eauto|done]. Qed.

Lemma mkfs_image files : files_fit files -> exists img, mkfs files = Some img /\ disk_image (dget img) files.
Proof.
  intros Fit. destruct (mwp_elim _ _ _ (mwp_build files Fit)) as (u & s & E & Im). exists (m_blocks s). split; [|exact Im].
  unfold mkfs. rewrite E. reflexivity.
Qed.

(** C10: What [mkfs] builds is a file system that the kernel can use.  For all host files
    that fit (names of at most 14 characters without a slash after "user/", at most 198
    files, sizes up to [MAXFILE] blocks, and enough blocks for all) [mkfs] succeeds.  Of the image: the
    kernel reads the superblock it was built with; the bitmap marks the metadata and the
    blocks given out and no others; no two places in files share a block; every inode is well formed
    ([tree_ok], what path resolution and the file operations assume); the root directory
    has ".", "..", and the files in order with their inode numbers, then free
    entries; and reading each file's inode through the kernel's block map
    gives the host file's bytes, with no holes. *)
Theorem mkfs_correct files :
  files_fit files -> Forall (fun f => name_ok f.1) files -> (Z.of_nat (length files) + 2) mod 64 <> 0 ->
  exists img, mkfs files = Some img /\ let C := dget img in let ino := dinode C mkfs_sb in
    get_superblock (C 1) = mkfs_sb /\ meta_used mkfs_sb C /\ tree_ok C mkfs_sb (in_image files) /\
    (forall b, 0 <= b < FSSIZE -> used mkfs_sb C b = (b <? image_end files)) /\
    (forall n bn n' bn', in_image files n -> 0 <= bn <= MAXFILE -> in_image files n' -> 0 <= bn' <= MAXFILE ->
       iblock C (ino n) bn = iblock C (ino n') bn' -> iblock C (ino n) bn <> 0 -> n = n' /\ bn = bn') /\
    dir C (ino ROOTINO) = root_dir files /\
    forall i f, files !! i = Some f -> let ip := ino (2 + Z.of_nat i) in
      i_type ip = T_FILE /\ i_nlink ip = 1 /\ i_size ip = Z.of_nat (length f.2) /\
      no_hole C ip 0 (i_size ip) /\ fread C ip 0 (length f.2) = f.2.
Proof.
  intros Fit Hn Hl. destruct (mkfs_image files Fit) as (img & E & Im). exists img. split; [exact E|clear E]. cbv zeta. split_and!.
  - by apply (image_sb _ files).
  - by apply (image_meta _ files).
  - by apply image_tree.
  - apply Im.
  - apply (im_inv _ _ Im).
  - by apply image_dir.
  - intros i f Hf. by apply (image_file _ files).
Qed.

(** When the entries fill whole blocks the size is still rounded up by one, so the root
    directory ends in a block that it does not have. *)
Lemma mkfs_root_hole files :
  files_fit files -> (Z.of_nat (length files) + 2) mod 64 = 0 ->
  exists img, mkfs files = Some img /\ let ip := dinode (dget img) mkfs_sb ROOTINO in
    let bn := (Z.of_nat (length files) + 2) / 64 in bn * BSIZE < i_size ip /\ iblock (dget img) ip bn = 0.
Proof.
  intros Fit Hl. destruct (mkfs_image files Fit) as (img & E & Im). exists img. split; [exact E|clear E]. cbv zeta.
  pose proof (fs_inodes _ Fit) as Hk. pose proof (root_in files) as Hi. set (k := Z.of_nat (length files)) in *.
  rewrite (im_size _ _ Im ROOTINO Hi). change (ROOTINO =? ROOTINO) with true. cbv iota. unfold root_size. fold k. split; [Z.div_mod_to_equations; lia|].
  destruct (decide (iblock (dget img) (dinode (dget img) mkfs_sb ROOTINO) ((k + 2) / 64) = 0)) as [|Hne]; [done|].
  apply (im_exact _ _ Im ROOTINO Hi) in Hne; [|change MAXFILE with 268; Z.div_mod_to_equations; lia].
  change (file_bytes files ROOTINO) with (root_bytes files) in Hne. rewrite length_root_bytes in Hne. fold k in Hne.
  rewrite (proj2 (Z.eqb_neq _ _)) in Hne by (change MAXFILE with 268; Z.div_mod_to_equations; lia). Z.div_mod_to_equations. lia.
Qed.

Lemma before_nul_clean l : 0 ∉ l -> before_nul l = l.
Proof.
  induction l as [|c l IH]; intros H; cbn; [done|]. apply not_elem_of_cons in H as [Hc H]. rewrite (proj2 (Z.eqb_neq c 0)) by done.
  by rewrite IH.
Qed.
Lemma split_clean l : 47 ∉ l -> split l = [l].
Proof.
  induction l as [|c l IH]; intros H; cbn; [done|]. apply not_elem_of_cons in H as [Hc H]. rewrite (proj2 (Z.eqb_neq c SLASH)) by done.
  by rewrite IH.
Qed.

(** An absolute path of one name. *)
Lemma components_one l : 0 ∉ l -> 47 ∉ l -> l <> [] -> (length l <= 14)%nat -> components (SLASH :: l) = [l].
Proof.
  intros H0 H1 Hne Hl. unfold components, words. cbn [before_nul]. rewrite before_nul_clean by done. cbn. rewrite split_clean by done.
  destruct l; [done|]. cbn. by rewrite take_ge.
Qed.

Lemma shortname_slash f : file_fits f -> 47 ∉ shortname f.1.
Proof.
  intros [H _ _]. unfold shortname, strip_underscore. destruct (strip_user f.1) as [|c l]; [done|].
  destruct (c =? 95); [|done]. by apply not_elem_of_cons in H as [_ H].
Qed.

Section Thms.
Context {L : Linker}.

(** Open by name, and read. *)
Definition read_by_name (path : list Z) (n : Z) : M (Z * list Z) :=
  let! ip := namei path in
  match ip with
  | None => ret (-1, [])
  | Some ip => ilock ip ;;; readi ip DLocal 0 n
  end.

(** A kernel with an image's disk and no inode in use. *)
Record fresh (s : kst) me P (img : gmap Z (list Z)) : Prop := {
  fr_fx : fx s me P [];
  fr_geom : geom (sb s) (log s);
  fr_sb : sb s = get_superblock (dget img 1);
  fr_disk b : bcontent s b = dget img b;
  fr_locks : ilocks s;
  fr_room : room P [] 0;
  fr_inodes k : i_ref (inodeat k s) = 0 /\ sl_locked (i_lock (inodeat k s)) = false;
  fr_table : (2 <= length (inodes s))%nat
}.

Lemma fresh_cache s me P img C v T : fresh s me P img -> icache s C v T (p_pid (procat me s)) None.
Proof.
  intros Fr. split; intros k; destruct (fr_inodes _ _ _ _ Fr k) as [E1 E2]; rewrite ?E1; try lia. by rewrite decide_False.
Qed.

(** C4: What the host put in a file, the kernel reads from it.  [mkfs] on host files that fit
    makes an image on which [namei] of "/" and the file's short name, [ilock] and [readi]
    return the bytes of the host file, all of them, in any kernel state with that disk, the superblock
    read from it and no inode in use; of files of the same name it is the first. *)
Theorem mkfs_readi files i f :
  files_fit files -> Forall (fun f => name_ok f.1) files -> (Z.of_nat (length files) + 2) mod 64 <> 0 ->
  files !! i = Some f -> shortname f.1 <> [] -> shortname f.1 <> lit "." -> shortname f.1 <> lit ".." ->
  (forall j g, (j < i)%nat -> files !! j = Some g -> shortname g.1 <> shortname f.1) ->
  exists img, mkfs files = Some img /\ forall s me P, fresh s me P img ->
    wp (read_by_name (SLASH :: shortname f.1) (Z.of_nat (length f.2)))
      (fun '(r, bs) s' => r = Z.of_nat (length f.2) /\ bs = f.2 /\ still s me P s') s.
Proof.
  intros Fit Hn Hlast Hf H0 H1 H2 Hfirst. destruct (mkfs_image files Fit) as (img & E & Im). exists img. split; [exact E|clear E].
  intros s me P Fr. pose proof Fr as [F G Es Cs Li Hr Hi Htab]. rewrite (image_sb _ _ Im) in Es.
  assert (Tr : tree_ok (bcontent s) (sb s) (in_image files)) by (rewrite Es; eapply tree_ok_ext; [exact Cs|by apply image_tree]).
  assert (Mu : meta_used (sb s) (bcontent s)).
  { rewrite Es. intros b Hb. rewrite (used_ext _ (dget img)) by exact Cs. by apply (image_meta _ files). }
  pose proof (fs_each _ Fit) as He. pose proof Hn as Hn'. rewrite Forall_lookup in He, Hn'.
  destruct (shortname_ok _ (Hn' _ _ Hf)) as [Hb Hnul]. pose proof (ff_name _ (He _ _ Hf)) as Hlen.
  assert (Ec : components (SLASH :: shortname f.1) = [shortname f.1]) by (apply components_one; try done; by apply shortname_slash, (He _ _ Hf)).
  unfold read_by_name, namei. wp_step. wp_step.
  eapply wp_mono; [apply (wp_namex s me P (in_image files) (SLASH :: shortname f.1) false 0); try done|].
  { by apply (fresh_cache s me P img). }
  { apply root_in. }
  { constructor; [lia|done]. }
  { exists 0%nat, 1%nat. split_and!; [done|lia|lia|apply Hi|apply Hi]. }
  change (ch (SLASH :: shortname f.1) 0 =? SLASH) with true. cbv iota. rewrite Ec, Es, (resolve_ext (dget img)) by exact Cs.
  rewrite (image_resolve (dget img) files) with (i := i) by done.
  intros [r nm] s1 (St & I & (j & -> & En & Href) & _). wp_step. wp_step.
  pose proof (still_data s me P G Mu Li s1 St) as (Ev & Gs & Ms & Ls & Ep & Fs).
  assert (Cs1 : forall b, bcontent s1 b = bcontent s b) by apply St.
  assert (I1 : icache s1 (bcontent s1) (sb s1) (in_image files) (p_pid (procat me s1)) None).
  { rewrite Ev, Ep. eapply icache_ext; [exact Cs1|]. by rewrite Es. }
  eapply wp_mono; [apply (wp_ilock s1 me P (in_image files) j); try done; rewrite ?Ev|].
  { done. }
  { eapply tree_ok_ext; [exact Cs1|done]. }
  { rewrite Href, decide_True by done. destruct (Hi j) as [-> _]. lia. }
  intros [] s2 (St2 & I2 & Se). rewrite Ev, Ep in I2. eapply icache_ext in I2; [|intros b; symmetry; apply Cs1].
  assert (St02 : still s me P s2) by (by eapply still_trans).
  destruct (locked_file s me P (in_image files) G Mu Li Tr s2 j St02 I2) as (F2 & _ & _ & E2).
  assert (En2 : i_inum (inodeat j s2) = 2 + Z.of_nat i) by (by rewrite (proj2 (Se j)), En). rewrite En2 in E2.
  assert (Cs2 : forall b, bcontent s2 b = dget img b) by (intros b; rewrite (st_content _ _ _ _ St02); apply Cs).
  assert (E3 : dinode (bcontent s) (sb s) (2 + Z.of_nat i) = dinode (dget img) mkfs_sb (2 + Z.of_nat i)) by (rewrite Es; by apply full_ext).
  rewrite E3 in E2. set (ip := dinode (dget img) mkfs_sb (2 + Z.of_nat i)) in *.
  destruct (image_file (dget img) files Im Fit Hlast i f Hf) as (_ & _ & Hsz & Hh & Hrd). fold ip in Hsz, Hh, Hrd.
  assert (Hsz2 : i_size (inodeat j s2) = Z.of_nat (length f.2)) by (rewrite E2; done).
  assert (Hmax : Z.of_nat (length f.2) <= MAXFILE * BSIZE) by apply (He _ _ Hf). change MAXFILE with 268 in Hmax.
  eapply wp_mono; [apply (wp_readi s2 me P j 0 (Z.of_nat (length f.2))); try done; try lia|].
  - rewrite E2. eapply no_hole_ext; [exact Cs2|]. exact Hh.
  - rewrite Hsz2, Z.sub_0_r, Z.min_id, Nat2Z.id. intros [r bs] s3 (-> & -> & U). split_and!; [done| |].
    + rewrite E2, (fread_ext (dget img)) by exact Cs2. exact Hrd.
    + eapply still_trans; [exact St02|]. by eapply unchanged_still.
Qed.
End Thms.

(** ** One file on a disk *)

Definition one_file : list (list Z * list Z) := [(lit "user/_init", [104; 105; 10])].

Lemma one_file_fits : files_fit one_file.
Proof.
  split; [|done|by vm_compute]. apply Forall_singleton. split; [|by vm_compute; lia|by vm_compute]. by apply (bool_decide_unpack (_ ∉ _)); vm_compute.
Qed.
Lemma one_file_name : Forall (fun f => name_ok f.1) one_file.
Proof.
  apply Forall_singleton. split; [by apply (bool_decide_unpack (bytes _)); vm_compute|by apply (bool_decide_unpack (_ ∉ _)); vm_compute].
Qed.

Lemma mkfs_correct_witness : exists img, mkfs one_file = Some img /\
  dir (dget img) (dinode (dget img) mkfs_sb ROOTINO) =
    [Some (lit ".", 1); Some (lit "..", 1); Some (lit "init", 2)] ++ replicate 61 None /\
  fread (dget img) (dinode (dget img) mkfs_sb 2) 0 3 = lit "hi" ++ [10].
Proof.
  destruct (mkfs_correct one_file one_file_fits one_file_name) as (img & E & _ & _ & _ & _ & _ & Hd & Hf); [done|].
  exists img. split; [exact E|]. split; [exact Hd|]. apply (Hf 0%nat (lit "user/_init", [104; 105; 10])). done.
Defined.

(** The machine after [binit], with any image of [mkfs]. *)
Lemma boot_fresh img files : files_fit files -> mkfs files = Some img -> fresh (boot img [inode0; inode0]) 0 [] img.
Proof.
  intros Fit E. destruct (mkfs_image files Fit) as (img' & E' & Im). rewrite E in E'. injection E' as <-. clear E.
  assert (Hlen : forall b, length (dget img b) = 1024%nat) by apply (im_inv _ _ Im).
  pose proof (boot_fields img [inode0; inode0] Hlen) as (_ & Es & Ei & Eh & _).
  split.
  - exact (boot_fx img [inode0; inode0] Hlen).
  - exact (boot_geom img [inode0; inode0] Hlen).
  - rewrite (image_sb _ _ Im). exact Es.
  - apply (boot_ok img [inode0; inode0] Hlen).
  - split; intros; rewrite Eh; apply not_elem_of_nil.
  - clear. unfold room. cbn. lia.
  - intros k. unfold inodeat. rewrite Ei. destruct k as [|[|k]]; split; reflexivity.
  - rewrite Ei. apply le_n.
Qed.

Lemma mkfs_readi_witness : exists img, mkfs one_file = Some img /\
  wp (read_by_name (lit "/init") 3) (fun '(r, bs) _ => r = 3 /\ bs = lit "hi" ++ [10]) (boot img [inode0; inode0]).
Proof.
  destruct (mkfs_readi one_file 0 (lit "user/_init", [104; 105; 10])) as (img & E & H).
  1-7: first [exact one_file_fits|exact one_file_name|done].
  - intros j g Hj. lia.
  - exists img. split; [exact E|]. eapply wp_mono; [exact (H _ 0%nat [] (boot_fresh img one_file one_file_fits E))|].
    intros [r bs] s' (H1 & H2 & _). exact (conj H1 H2).
Defined.
